(* ===== verification/_CoqProject ===== *)
-Q . S2P
Prelude.v
Slots.v
Rings.v
CString.v
EgressShaper.v
ReconnectBackoff.v
Wire.v
Codec.v
HelloMessage.v
RegisterMessage.v
OpenMessage.v
SubscribeMessage.v
ListMessage.v
FrameMessage.v
TxnMessage.v
TxnStepsMessage.v
IfconfigMessage.v
AdminCodec.v
MessageFramer.v
EchoTokens.v
EgressQueue.v
ClientSession.v
InterfaceRegistry.v
BridgeRoutes.v
BridgeGroups.v
BridgeTargets.v
TransactionTable.v
PeerDirectory.v
RejectedPeers.v
FrameRoutes.v
AdminMessage.v
AdminBridge.v
ControlPlane.v
AdminViews.v
BrokerState.v
BrokerPeers.v
BrokerControl.v
BrokerHandlers.v
BrokerFrames.v
BrokerRules.v
BrokerAdmin.v
BrokerLogic.v
BrokerQuiet.v
BrokerRelease.v
BrokerSound.v
BrokerSoundControl.v
BrokerInvariant.v
BrokerAccess.v
StepRing.v
TxPacer.v
ChannelMap.v
EchoCorrelator.v
IsotpLink.v
IsotpTransfer.v
IsotpSafety.v
TransactionRunner.v
RunnerInvariant.v
RunnerSound.v
RunnerTheorems.v
RunnerOrder.v
Agent.v
AgentTheorems.v
InterfaceName.v
TransactionSender.v
RunnerCalm.v
SenderRunner.v
Client.v
TransactionBuilder.v
BuilderTheorems.v
BuilderSession.v
MirrorApp.v
MirrorTheorems.v
AsciiFramer.v
SocketcandCodec.v
SocketcandBridge.v
SocketcandBytes.v
SocketcandAcks.v
SocketcandFlaws.v
Checksum.v
ClientText.v
