(* ===== verification/Prelude.v ===== *)
(** * can-hub: a verification of the hub's, the agent's and the clients' core

    can-hub carries CAN frames between machines.  An _agent_ reads and writes the
    CAN interfaces of a machine, the _hub_ keeps the catalogue of every agent's
    interfaces and routes frames, a _client_ opens interfaces through the hub.
    All three speak the protocol of src/protocol over TCP, TLS or QUIC.

    The sources are C.  Each file here translates one part of them: a struct is a
    Record, an enum is its named values, an operation is one Definition with the
    guards and early returns of its C function, a loop is a Fixpoint (or a scan of
    a list) with the bound of the C loop, an in-place update returns the new
    state, an out parameter is a component of the result, a pointer into a table
    is a slot index, [NULL] is [None].  Unsigned integers are [Z] with the
    wrap-around written where the code computes ([u8], [u16], [u32], [u64]);
    arrays are lists of fixed length, and a [char] buffer is a list of bytes read
    up to its first NUL.

    ** The files

    Shared
    - [Prelude]: machine integers, arrays, tactics, hint databases;
    - [Slots]: fixed tables of records with an [in_use] flag: the first free slot,
      release by zeroing, unique keys, paginated listing;
    - [Rings]: cyclic scans and circular buffers;
    - [CString]: NUL-terminated strings (src/shared/bounded_string.c).

    Protocol (src/protocol)
    - [Wire]: little-endian integers, message header (wire.c, message_header.c);
    - [Codec]: the class [WireMessage] of what every message codec offers, the
      class [WireMessageOk] of what it promises, and the automation by which each
      message file discharges it;
    - [HelloMessage], [RegisterMessage], [OpenMessage], [SubscribeMessage],
      [ListMessage], [FrameMessage], [TxnMessage], [TxnStepsMessage],
      [IfconfigMessage]: the messages of the files of the same name (OpenMessage
      also error_message.c, SubscribeMessage also interface_status_message.c);
    - [AdminCodec], [AdminMessage], [AdminBridge]: the admin protocol
      (admin_message.c): the shapes its messages share, pages of entries generic
      in the entry, then every message;
    - [MessageFramer]: reassembly out of a byte stream
      (src/platform/linux/shared/message_framer.c and the receive loop of
      src/platform/linux/tls/tls_channel.c);
    - [ControlPlane]: the table of all 69 codecs; encoder, stream, framer,
      dispatch and decoder put together.

    Shared by agent and hub (src/shared)
    - [EgressShaper], [ReconnectBackoff].

    Hub (src/hub/domain)
    - [EchoTokens], [EgressQueue], [ClientSession], [InterfaceRegistry],
      [BridgeRoutes], [BridgeGroups], [BridgeTargets], [TransactionTable],
      [PeerDirectory] (with hub_peer.c), [RejectedPeers], [FrameRoutes]: the
      state the broker keeps and the rules it asks;
    - [AdminViews]: the pages of the tables shown to the administrator
      (admin_views.c).

    The broker (src/hub/broker.c)
    - [BrokerState]: its state, its ports and the monad its code runs in.  The
      ports (transport, identity store, authorization, bridge store) are a
      parameter: functions of the calls made so far that may answer anything and
      return without calling back (see below).  A [HubPeer *] is a slot index,
      read again at each access;
    - [BrokerPeers]: sending, transactions that end, channels, disconnection;
    - [BrokerControl]: connections, HELLO, REGISTER;
    - [BrokerHandlers]: the handlers of agents' and clients' messages;
    - [BrokerFrames]: the data plane: forwarding, bridging, pacing, draining,
      [Broker_Tick] and [Broker_NextTimeoutMs];
    - [BrokerRules]: bridge routes and groups as the hub stores and loads them,
      [Broker_Init];
    - [BrokerAdmin]: the handlers of the admin plane, the table of handlers and
      [onPeerControl];
    - [BrokerLogic], [BrokerQuiet], [BrokerRelease], [BrokerSound],
      [BrokerSoundControl]: the references between the tables, the triples over
      them and, operation by operation, that they stay sound;
    - [BrokerInvariant]: the hub as a transition system and what holds in every
      reachable state;
    - [BrokerAccess]: who may write, how long the hub may sleep, that its loops
      end; a run of the whole hub, evaluated.

    Agent (src/agent)
    - [StepRing], [TxPacer], [ChannelMap], [EchoCorrelator]: the files of the same
      name under domain/;
    - [IsotpLink]: segmentation and flow control (isotp_link.c); [IsotpTransfer]:
      two links in conversation; [IsotpSafety]: one link against anything;
    - [TransactionRunner]: the execution of a transaction (transaction_runner.c),
      over a port that is a parameter; [RunnerInvariant], [RunnerSound]: its
      invariant and, function by function, that it is kept; [RunnerTheorems]: the
      public operations, any sequence of them and what holds after it;
      [RunnerOrder]: plain steps, rosters and ISO-TP steps;
    - [Agent]: the agent core (agent.c), the transport and the CAN device
      parameters over a world of any type; [AgentTheorems]: its invariant, timers,
      frames both ways, echoes, the registration with the hub's registry.

    Client (src/client)
    - [InterfaceName]: agent/interface names (src/protocol/interface_name.c);
    - [TransactionSender]: the client's side of a transaction
      (transaction_sender.c); [RunnerCalm], [SenderRunner]: the sender and the
      agent's runner joined by two queues;
    - [Client]: the client core (client.c), the transport and the callbacks
      parameters over a world of any type, and what it promises;
    - [TransactionBuilder]: the steps of an application made into templates,
      rosters and records (transaction_builder.c, can_id.c);
      [BuilderTheorems], [BuilderSession]: what the agent's runner makes of them;
    - [ClientText]: the frame syntax of the command line (frame_spec.c) and the
      lexer of transaction scripts (txn_script/script_lexer.c, script_error.c);
      [Checksum]: the sums and CRCs of scripts (txn_script/checksum.c).

    Mirror (src/mirror)
    - [MirrorApp]: mirror_app.c; [MirrorTheorems]: its histories.

    socketcand gateway (src/socketcand)
    - [AsciiFramer]: commands out of a byte stream (domain/ascii_framer.c), with
      the reader it is compared to; [SocketcandCodec]: the text protocol
      (domain/socketcand_codec.c), numbers, words and frames as text;
    - [SocketcandBridge]: connections, buses and beacon
      (domain/connection_table.c, interface_catalogue.c, beacon_xml.c) and the
      bridge (socketcand_bridge.c), the hub and the server parameters over a world
      of any type; [SocketcandBytes]: a client's stream of commands;
      [SocketcandAcks]: the queue of pending opens; [SocketcandFlaws]: where it
      falls short.

    ** What the theorems show

    - Round trips: every valid message sequence survives encoding, arbitrary
      chunking, reassembly and decoding ([control_plane_roundtrip]); a datagram
      cut anywhere gives its whole frames ([frame_stream_roundtrip]); the steps of
      a transaction survive the wire ([txn_steps_roundtrip]); an echo token leads
      back to the client it was issued to ([echo_attribution_roundtrip]), through
      the agent and a bus that echoes in order ([agent_echo_roundtrip]).
    - Refinements: the egress queue's slot pool and links are 256 bounded FIFOs
      ([egress_queue_refines_fifos]), the echo correlator one bounded queue per
      interface ([echo_correlator_refines_queues]), the step ring a lossless FIFO of whole records, the peer
      directory a finite map.
    - Exact behaviour: the fan-out of a frame, the targets of a bridged frame, the
      channel an open allocates, what a registration adds
      ([registration_all_or_nothing]), the leases a
      transaction table reports, joins, leaves and replacements of bridge rules.
    - Safety and invariants: interface ids are never reused, names stay unique,
      the pool of the egress queue is partitioned, the shaper never charges more
      than its bucket held and the rates in force yield
      ([shaper_never_exceeds_rate]), a full hub never displaces a peer it has
      vouched for.
    - Fairness: a pending channel is served within 256 rounds.
    - The hub as a whole: whatever events arrive, each run to its end, and whatever
      the ports answer, what the tables refer to is there: peers, interfaces,
      clients ([hub_references_live]); disconnecting a peer removes every trace of
      it and leaves the others their slots and roles ([disconnect_forgets_peer]); a connection always finds its slot
      ([connected_never_null]); only local peers administer
      ([admin_plane_local_only]); writing takes a grant and the bus, and without
      them only counters change ([write_access_enforced]).
    - Listings: page by page the administrator sees every row once
      ([admin_listings_complete]).
    - The agent: ISO-TP carries any message exactly ([isotp_transfer]) and a link
      stays inside its buffers whatever arrives ([isotp_link_bounded]).  Whatever
      the hub sends and the bus answers, the runner sends one status for each
      transaction it acknowledged ([runner_one_status_each]), only frames the bus
      can carry ([runner_frames_sendable]), reports exact counts
      ([runner_accounts]) and takes every batch within its credit
      ([runner_credit_honest]); plain steps are sent in order and counted on a bus
      that takes them ([runner_script_order]); a roster step waits for exactly the nodes it names
      ([roster_step_exact]).  The agent acts only while registered
      ([agent_silent_unregistered]), keeps trying to connect
      ([agent_connection_timers]), agrees with the hub on its channels
      ([agent_hub_handshake]) and carries frames unchanged both ways
      ([agent_uplink_exact], [agent_downlink_exact]).
    - The client: its sender's batches say exactly the accepted steps
      ([sender_stream_exact]), and joined to the runner, with any delays both
      ways, none of steps that fit the templates is refused
      ([sender_never_refused]); a name is resolved
      over all the pages of the hub's list ([client_resolves_name]) and splits
      exactly ([interface_split_exact], [interface_find_exact]).  Whatever steps
      an application offers, what the builder emits is accepted by the runner,
      which then holds the template each step asked for
      ([builder_steps_accepted]), waits for exactly the frames described
      ([built_match_exact]) and carries messages whole
      ([built_message_reassembled]); rewinding undoes steps ([rewind_undoes]).  A
      CRC is the remainder its model describes ([checksum_crc_exact]), a sum the
      sum of the bytes ([checksum_sum_exact]); frames and script lines are read as
      they were written ([frame_spec_roundtrip], [script_lines_roundtrip]).
    - The mirror writes only where it was granted ([mirror_writes_granted]),
      copies frames unchanged ([mirror_copies_frames]) and comes back after a loss
      ([mirror_comes_back]).
    - The socketcand gateway obeys a client's commands however the bytes are cut
      ([client_commands_exact]), gives every OPEN_ACK to the connection that asked
      ([socketcand_acks_matched]), reads back the frame a command was written from
      ([socketcand_send_roundtrip]) and always has room for a frame's line
      ([socketcand_frame_line_fits]).
    - Slips of the code are recorded, those named first for every state they
      occur in: an echo whose token is lost when the transport refuses it once
      ([agent_retry_misattributes]), a running transaction that asks never to be
      woken for its idle timeout ([runner_forgets_to_wake]), in the gateway packed
      frames that are lost ([packed_frames_lost]), a channel nobody closes
      ([second_open_leaks_channels]), a request that stops all configuration
      ([bad_sample_point_stalls_configuration]).  On runs or inputs: a subscriber count kept in
      eight bits ([subscriber_count_wraps]), a reliable channel that comes back
      unreliable ([reattach_forgets_reliable_mode]), ISO-TP frame lengths that corrupt ([isotp_odd_length_corrupts]), interface names
      accepted twice ([registration_accepts_duplicate_names]); in the gateway,
      a session used up by such channels ([channels_run_out]), an answer taken by another client
      ([abandoned_open_misleads]), buses that vanish during a refresh
      ([refresh_hides_buses]), identifiers and lengths the text confuses
      ([frame_line_ambiguous], [send_length_wraps]).

    ** Bounds and fuel

    Table sizes are the constants of the headers.  Loops over a table run over the
    list itself; where a C loop has another bound it is the fuel: 33 attempts for
    [allocateChannel] (one more than the bindings, so a free channel is always
    met), the table size for cyclic scans, the chunk length for the drain loop of
    the framer (each turn consumes a header at least), the number of queued
    records for the echo correlator's scan.  In the broker: one turn more than
    transactions (513) for a leaving client, one more than peers (513) for
    displacing agents, one more than the datagram's bytes for its frames
    ([broker_loops_end] shows these are enough), one more than the bindings (33)
    for closing channels, one more than the egress pool (513) for draining a
    channel, where each turn takes one away.  In the agent: the bounds of the C
    loops (64 turns of a tick, 16 early frames, the step count of a message), one
    turn more than the bytes for the frames of a datagram.  In the client: two
    turns for each step of [Client_SendSteps], one that finds the batch full and
    one that opens a new one, the 17 records a message can take, the 32 bits of a
    mask, one turn more than the bytes for the mirror's frames.  In the gateway:
    one turn more than the buffer (513) for the commands of a read, two turns for
    each byte of a read and one more (a turn takes a byte or empties a full
    buffer; [client_commands_exact] shows these are enough), one turn more than
    the connections (33) for queued configurations, the 8 and 20 digits of the
    buffers of the number printers.  In the lexer: one turn more than the
    characters of a line, one more than those of the script
    ([script_lines_roundtrip] ends with the script).  Theorems that a loop finds something are
    proved without assuming that it returns.

    ** What is not modelled

    Platform code (sockets, QUIC, TLS, SocketCAN, event loops, configuration, the
    identity store on sqlite) is system calls and third-party libraries.

    The ports of the hub return without calling back into the broker.  The server
    transports of the platform can: when a send fails, tcp_server_transport.c,
    tls_server_transport.c and quic_server_transport.c report the peer lost from
    inside the send, and the broker releases it in the middle of the handler that
    sent.  States that come about in that way are not among the reachable states
    of [BrokerInvariant]; a disconnection is an event of its own there, before or
    after any other.

    The runner's theorems are about a port that logs what leaves and answers
    transmissions with any list of booleans; [Agent] instantiates the same runner
    with the port of agent.c.  The ports of the agent do not call back into it.

    The parser, resolver, compiler and generator of transaction scripts
    (src/client/txn_script) turn the tokens of the lexer that is modelled into
    calls of the builder that is modelled; libcanhub wraps the client core in threads and
    sockets; hub_app.c, agent_app.c and socketcand_app.c only forward to the parts
    that are modelled.  The ports of the gateway and of the mirror do not call
    back into them, as their headers promise.
*)

From stdpp Require Export prelude.
From Stdlib Require Export ZArith Lia.

#[global] Open Scope Z_scope.

Declare Scope chub_scope.
Delimit Scope chub_scope with chub.
#[global] Open Scope chub_scope.

(** ** Rewriting databases

    [arith] normalises machine-width wrap-arounds that are known to fit, [len]
    computes lengths of the arrays the components update in place. *)
Create HintDb chub.
Create Rewrite HintDb fits.
Create Rewrite HintDb len.

(** ** Unsigned machine integers

    A value of a C unsigned type of width [w] is a [Z] in [0, 2^w); arithmetic
    that can leave that range is wrapped explicitly at the place the code does. *)
Definition u8 (x : Z) : Z := x mod 256.
Definition u16 (x : Z) : Z := x mod 65536.
Definition u32 (x : Z) : Z := x mod 4294967296.
Definition u64 (x : Z) : Z := x mod 18446744073709551616.
(** The conversion to [int32_t]: two's complement. *)
Definition i32 (x : Z) : Z := (x + 2147483648) mod 4294967296 - 2147483648.

Definition is_u8 (x : Z) : Prop := 0 ≤ x < 256.
Definition is_u16 (x : Z) : Prop := 0 ≤ x < 65536.
Definition is_u32 (x : Z) : Prop := 0 ≤ x < 4294967296.
Definition is_u64 (x : Z) : Prop := 0 ≤ x < 18446744073709551616.

#[export] Instance is_u8_dec x : Decision (is_u8 x).
Proof. unfold is_u8. apply _. Defined.
#[export] Instance is_u16_dec x : Decision (is_u16 x).
Proof. unfold is_u16. apply _. Defined.
#[export] Instance is_u32_dec x : Decision (is_u32 x).
Proof. unfold is_u32. apply _. Defined.
#[export] Instance is_u64_dec x : Decision (is_u64 x).
Proof. unfold is_u64. apply _. Defined.

Lemma u8_id x : 0 ≤ x < 256 → u8 x = x.
Proof. apply Z.mod_small. Qed.
Lemma u16_id x : 0 ≤ x < 65536 → u16 x = x.
Proof. apply Z.mod_small. Qed.
Lemma u32_id x : 0 ≤ x < 4294967296 → u32 x = x.
Proof. apply Z.mod_small. Qed.
Lemma u64_id x : 0 ≤ x < 18446744073709551616 → u64 x = x.
Proof. apply Z.mod_small. Qed.

Lemma u8_range x : 0 ≤ u8 x < 256.
Proof. by apply Z.mod_pos_bound. Qed.
Lemma u16_range x : 0 ≤ u16 x < 65536.
Proof. by apply Z.mod_pos_bound. Qed.
Lemma u32_range x : 0 ≤ u32 x < 4294967296.
Proof. by apply Z.mod_pos_bound. Qed.
Lemma u64_range x : 0 ≤ u64 x < 18446744073709551616.
Proof. by apply Z.mod_pos_bound. Qed.

#[export] Hint Rewrite u8_id u16_id u32_id u64_id using (unfold is_u8, is_u16, is_u32, is_u64 in *; lia) : fits.
#[export] Hint Resolve u8_range u16_range u32_range u64_range : chub.

(** Turns the range predicates into the inequalities [lia] reads. *)
Ltac ranges := unfold is_u8, is_u16, is_u32, is_u64 in *.
Ltac zlia := ranges; lia.

Definition b2z (b : bool) : Z := if b then 1 else 0.

(** [flags & flag] as a condition. *)
Definition has_flag (flags flag : Z) : bool := negb (Z.land flags flag =? 0).

(** ** Field updates

    [r <| f := v |>] is the record [r] with field [f] set to [v], the model of
    [r->f = v].  A record gets it from its eta-expansion. *)
Class Settable (R : Type) := eta_expand : R → R.
Class Setter {R T : Type} (f : R → T) := set_field : (T → T) → R → R.
Ltac derive_setter :=
  lazymatch goal with
  | |- @Setter ?R ?T ?f =>
      let e := eval cbv [eta_expand] in (eta_expand (R := R)) in
      let e := eval hnf in e in
      lazymatch eval pattern f in e with ?u _ => exact (λ g, u (λ r, g (f r))) end
  end.
#[export] Hint Extern 1 (Setter _) => derive_setter : typeclass_instances.
Notation "r <| f := v |>" := (set_field (f := f) (λ _, v) r) (at level 12, f at next level, left associativity, format "r  <|  f  :=  v  |>") : chub_scope.

(** ** Boolean tests

    The code's conditions are boolean; [bool_to_prop] turns the ones the
    context knows into propositions. *)
Ltac bool_to_prop :=
  repeat match goal with
  | H : andb _ _ = true |- _ => apply andb_true_iff in H as [? ?]
  | H : andb _ _ = false |- _ => apply andb_false_iff in H
  | H : orb _ _ = true |- _ => apply orb_true_iff in H
  | H : orb _ _ = false |- _ => apply orb_false_iff in H as [? ?]
  | H : negb _ = true |- _ => apply negb_true_iff in H
  | H : negb _ = false |- _ => apply negb_false_iff in H
  | H : context [Z.gtb _ _] |- _ => rewrite Z.gtb_ltb in H
  | H : context [Z.geb _ _] |- _ => rewrite Z.geb_leb in H
  | H : Z.eqb _ _ = true |- _ => apply Z.eqb_eq in H
  | H : Z.eqb _ _ = false |- _ => apply Z.eqb_neq in H
  | H : Z.ltb _ _ = true |- _ => apply Z.ltb_lt in H
  | H : Z.ltb _ _ = false |- _ => apply Z.ltb_ge in H
  | H : Z.leb _ _ = true |- _ => apply Z.leb_le in H
  | H : Z.leb _ _ = false |- _ => apply Z.leb_gt in H
  | H : Nat.eqb _ _ = true |- _ => apply Nat.eqb_eq in H
  | H : Nat.eqb _ _ = false |- _ => apply Nat.eqb_neq in H
  | H : Nat.ltb _ _ = true |- _ => apply Nat.ltb_lt in H
  | H : Nat.ltb _ _ = false |- _ => apply Nat.ltb_ge in H
  | H : Nat.leb _ _ = true |- _ => apply Nat.leb_le in H
  | H : Nat.leb _ _ = false |- _ => apply Nat.leb_gt in H
  | H : bool_decide _ = true |- _ => apply bool_decide_eq_true in H
  | H : bool_decide _ = false |- _ => apply bool_decide_eq_false in H
  end.

(** Case analysis on every boolean test of the goal. *)
Ltac case_tests :=
  repeat match goal with
  | |- context [if ?b then _ else _] =>
      lazymatch b with
      | context [if _ then _ else _] => fail
      | _ => match type of b with bool => destruct b eqn:? end
      end
  end; bool_to_prop.

(** A predicate on every element of a concrete list. *)
Ltac each_elem tac :=
  repeat (lazymatch goal with
          | |- Forall _ [] => apply Forall_nil_2
          | |- Forall _ (_ :: _) => apply Forall_cons_2; [cbn; tac|]
          end).

(** ** Arrays

    A C array is a list whose length is the array's size. [a.[i]] reads and
    [a.[i := v]] writes at an index the code keeps in an unsigned integer; the
    components prove their indices in range where it matters. *)
Definition zlen {A} (a : list A) : Z := Z.of_nat (length a).
Definition zget {A} `{Inhabited A} (a : list A) (i : Z) : A := a !!! Z.to_nat i.
Definition zset {A} (a : list A) (i : Z) (v : A) : list A := <[Z.to_nat i := v]> a.

Notation "a .[ i ]" := (zget a i) (at level 1, left associativity, format "a .[ i ]") : chub_scope.
Notation "a .[ i := v ]" := (zset a i v) (at level 1, left associativity, format "a .[ i  :=  v ]") : chub_scope.

Section arrays.
Context {A : Type} `{Inhabited A}.
Implicit Types a : list A.

Lemma zlen_zset a i v : zlen (zset a i v) = zlen a.
Proof. unfold zlen, zset. by rewrite length_insert. Qed.

Lemma length_zset a i v : length (zset a i v) = length a.
Proof. apply length_insert. Qed.

Lemma zset_lookup_Some a i v j x :
  zset a i v !! j = Some x ↔
    (Z.to_nat i = j ∧ v = x ∧ (j < length a)%nat) ∨ (Z.to_nat i ≠ j ∧ a !! j = Some x).
Proof. apply list_lookup_insert_Some. Qed.

Lemma zget_zset_eq a i v : 0 ≤ i < zlen a → (zset a i v).[i] = v.
Proof.
  intros Hi. unfold zget, zset, zlen in *.
  apply list_lookup_total_insert_eq. lia.
Qed.

Lemma zget_zset_ne a i j v : 0 ≤ i → 0 ≤ j → i ≠ j → (zset a i v).[j] = a.[j].
Proof.
  intros Hi Hj Hne. unfold zget, zset.
  apply list_lookup_total_insert_ne. lia.
Qed.

Lemma zget_zset a i j v :
  0 ≤ i < zlen a → 0 ≤ j → (zset a i v).[j] = if i =? j then v else a.[j].
Proof.
  intros Hi Hj. case_tests.
  - subst. by apply zget_zset_eq.
  - apply zget_zset_ne; lia.
Qed.

Lemma zget_lookup a i : 0 ≤ i < zlen a → a !! Z.to_nat i = Some a.[i].
Proof.
  intros Hi. unfold zget, zlen in *.
  apply list_lookup_lookup_total_lt. lia.
Qed.

Lemma zget_replicate n (x : A) i : 0 ≤ i < Z.of_nat n → (replicate n x).[i] = x.
Proof. intros Hi. unfold zget. apply lookup_total_replicate_2. lia. Qed.

(** Writing back what is there changes nothing, and a second write wins. *)
Lemma zset_self a i : 0 ≤ i < zlen a → a.[i := a.[i]] = a.
Proof. intros Hi. unfold zset. apply list_insert_id. by apply zget_lookup. Qed.

Lemma zset_zset a i v w : a.[i := v].[i := w] = a.[i := w].
Proof. apply list_insert_insert_eq. Qed.
End arrays.

(** An update of the slot whose content is known. *)
Lemma alter_insert_at {A} (f : A → A) (l : list A) (i : nat) (x : A) : l !! i = Some x → alter f i l = <[i := f x]> l.
Proof.
  intros Hx. apply list_eq. intros j. destruct (decide (j = i)) as [->|].
  - rewrite list_lookup_alter_eq, Hx, list_lookup_insert_eq; [done|by eapply lookup_lt_Some].
  - by rewrite list_lookup_alter_ne, list_lookup_insert_ne by done.
Qed.

#[export] Hint Rewrite @zlen_zset @length_zset @length_insert @length_replicate @length_app @length_take @length_drop
  @length_inserts @length_fmap : len.

(** ** Linear scans

    [scan P l] is the loop [for (i = 0; i < N; i++) if (P(a[i])) return i;]:
    the first index at which [P] holds. *)
Fixpoint scan {A} (P : A → bool) (l : list A) : option nat :=
  match l with
  | [] => None
  | x :: l' => if P x then Some 0%nat else S <$> scan P l'
  end.

Section scans.
Context {A : Type}.
Implicit Types (l : list A) (P Q : A → bool).

Lemma scan_Some P l i :
  scan P l = Some i ↔
    ∃ x, l !! i = Some x ∧ P x = true ∧
      (∀ j y, (j < i)%nat → l !! j = Some y → P y = false).
Proof.
  revert i. induction l as [|a l IH]; intros i; simpl; [naive_solver|].
  destruct (P a) eqn:Ha.
  - split.
    + intros [= <-]. exists a. split_and!; [done..|]. intros; lia.
    + intros (x & Hx & HPx & Hlt). destruct i as [|i]; [done|].
      rewrite (Hlt 0%nat a) in Ha; [done|lia|done].
  - destruct i as [|i].
    + split; [by destruct (scan P l)|]. intros (x & [= ->] & ? & _); congruence.
    + rewrite fmap_Some. split.
      * intros (k & Hk & [= <-]). apply IH in Hk as (x & Hx & HPx & Hlt).
        exists x. split_and!; [done..|].
        intros [|j] y Hj Hy; simpl in *; [congruence|]. apply (Hlt j); [lia|done].
      * intros (x & Hx & HPx & Hlt). exists i. split; [|done].
        apply IH. exists x. split_and!; [done..|].
        intros j y Hj Hy. apply (Hlt (S j)); [lia|done].
Qed.

Lemma scan_None P l : scan P l = None ↔ ∀ i x, l !! i = Some x → P x = false.
Proof.
  induction l as [|a l IH]; simpl; [naive_solver|].
  destruct (P a) eqn:Ha.
  - split; [done|]. intros Hall. specialize (Hall 0%nat a eq_refl). congruence.
  - rewrite fmap_None, IH. split.
    + intros Hall [|i] x; simpl; [naive_solver|apply Hall].
    + intros Hall i. apply (Hall (S i)).
Qed.

Lemma scan_hit P l i : scan P l = Some i → ∃ x, l !! i = Some x ∧ P x = true.
Proof. rewrite scan_Some. naive_solver. Qed.

Lemma scan_lt P l i : scan P l = Some i → (i < length l)%nat.
Proof. intros (x & Hx & _)%scan_hit. by eapply lookup_lt_Some. Qed.

Lemma scan_exists P l i x : l !! i = Some x → P x = true → ∃ j, scan P l = Some j ∧ (j ≤ i)%nat.
Proof.
  intros Hx HP. destruct (scan P l) as [j|] eqn:Hs.
  - exists j. split; [done|]. apply scan_Some in Hs as (y & Hy & _ & Hlt).
    destruct (decide (j ≤ i)%nat); [done|].
    rewrite (Hlt i x) in HP; [done|lia|done].
  - rewrite scan_None in Hs. by rewrite (Hs _ _ Hx) in HP.
Qed.

Lemma scan_ext P Q l : (∀ i x, l !! i = Some x → P x = Q x) → scan P l = scan Q l.
Proof.
  induction l as [|a l IH]; intros Hext; simpl; [done|].
  rewrite (Hext 0%nat a eq_refl). rewrite IH; [done|]. intros i. apply (Hext (S i)).
Qed.

(** The only index at which [P] holds is the one the scan returns. *)
Lemma scan_unique P l i x :
  l !! i = Some x → P x = true →
  (∀ j y, l !! j = Some y → P y = true → j = i) → scan P l = Some i.
Proof.
  intros Hx HP Huniq. apply scan_Some. exists x. split_and!; [done..|].
  intros j y Hj Hy. destruct (P y) eqn:HPy; [|done]. specialize (Huniq j y Hy HPy). lia.
Qed.
End scans.

(** ** Counting *)
Fixpoint countb {A} (P : A → bool) (l : list A) : Z :=
  match l with [] => 0 | x :: l' => b2z (P x) + countb P l' end.

Section counting.
Context {A : Type}.
Implicit Types (l : list A) (P : A → bool).

Lemma countb_bounds P l : 0 ≤ countb P l ≤ zlen l.
Proof. unfold zlen. induction l as [|x l IH]; simpl; [lia|]. unfold b2z. destruct (P x); lia. Qed.

Lemma countb_insert P l i x y :
  l !! i = Some x → countb P (<[i := y]> l) = countb P l - b2z (P x) + b2z (P y).
Proof.
  revert i. induction l as [|a l IH]; intros [|i] Hx; simplify_eq/=; [lia|].
  rewrite (IH i) by done. lia.
Qed.

Lemma countb_full P l : countb P l = zlen l ↔ ∀ i x, l !! i = Some x → P x = true.
Proof.
  unfold zlen. induction l as [|a l IH]; simpl; [naive_solver|].
  pose proof (countb_bounds P l) as Hb. unfold zlen in Hb. unfold b2z. split.
  - intros Hc. destruct (P a) eqn:Ha; [|lia]. intros [|i] x Hx; simpl in *; [naive_solver|].
    eapply IH; [lia|done].
  - intros Hall. rewrite (Hall 0%nat a eq_refl). rewrite (proj2 IH); [lia|].
    intros i. apply (Hall (S i)).
Qed.

Lemma countb_zero P l : countb P l = 0 ↔ ∀ i x, l !! i = Some x → P x = false.
Proof.
  induction l as [|a l IH]; simpl; [naive_solver|].
  pose proof (countb_bounds P l) as Hb. unfold b2z. split.
  - intros Hc. destruct (P a) eqn:Ha; [lia|]. intros [|i] x Hx; simpl in *; [naive_solver|].
    eapply IH; [lia|done].
  - intros Hall. rewrite (Hall 0%nat a eq_refl). rewrite (proj2 IH); [lia|].
    intros i. apply (Hall (S i)).
Qed.

(** A list whose [P]-elements are all [P]-elements of the other at the same place. *)
Lemma b2z_head P a a' : (P a' = true → a = a') → b2z (P a') ≤ b2z (P a).
Proof. intros H. destruct (P a') eqn:Ha; [by rewrite (H eq_refl), Ha|]. unfold b2z. destruct (P a); lia. Qed.
Lemma countb_mono P l l' :
  length l' = length l → (∀ k y, l' !! k = Some y → P y = true → l !! k = Some y) → countb P l' ≤ countb P l.
Proof.
  revert l'. induction l as [|a l IH]; intros [|a' l'] Hl Hk; try done. simpl.
  specialize (IH l' ltac:(by injection Hl) (λ k, Hk (S k))). pose proof (b2z_head P a a' ltac:(intros Ha; by injection (Hk 0%nat a' eq_refl Ha))). lia.
Qed.
Lemma countb_less P l l' j x :
  length l' = length l → (∀ k y, l' !! k = Some y → P y = true → l !! k = Some y) → l !! j = Some x → P x = true → l' !! j ≠ Some x →
  countb P l' < countb P l.
Proof.
  revert l' j. induction l as [|a l IH]; intros [|a' l'] [|j] Hl Hk Hj Hx Hn; try done; simpl in *.
  - injection Hj as ->. pose proof (countb_mono P l l' ltac:(by injection Hl) (λ k, Hk (S k))). destruct (P a') eqn:Ha; rewrite Hx; simpl; [|lia].
    pose proof (Hk 0%nat a' eq_refl Ha) as Heq. simpl in Heq. congruence.
  - specialize (IH l' j ltac:(by injection Hl) (λ k, Hk (S k)) Hj Hx Hn). pose proof (b2z_head P a a' ltac:(intros Ha; by injection (Hk 0%nat a' eq_refl Ha))). lia.
Qed.

Lemma countb_replicate_false P n x : P x = false → countb P (replicate n x) = 0.
Proof. intros HP. induction n as [|n IH]; simpl; [done|]. by rewrite HP, IH. Qed.
End counting.
