(* ===== verification/Slots.v ===== *)
(** * Slot tables

    Most hub components keep their records in a fixed array of slots, each
    carrying an [in_use] flag: a slot is claimed by a linear scan for the first
    free one, and released by zeroing it.  This file has the interface such a
    record offers ([Slot]), the table-level notions the components share (free
    slots are zeroed, live keys are unique) and the paginated listing loop the
    hub uses for its catalogue replies. *)

From S2P Require Import Prelude.

(** ** The interface of a slot record *)
Class Slot (A : Type) := {
  slot_in_use : A → bool;
  slot_zero : A;
  slot_zero_free : slot_in_use slot_zero = false;
}.

#[export] Instance Slot_inhabited {A} `{Slot A} : Inhabited A | 100 := populate slot_zero.

Section tables.
Context {A : Type} `{Slot A}.
Implicit Types (l : list A) (x y : A) (i j : nat).

(** The first free slot. *)
Definition free_slot (l : list A) : option nat := scan (λ x, negb (slot_in_use x)) l.

(** Every free slot is zeroed, so a claimed slot carries nothing of its former occupant. *)
Definition clean (l : list A) : Prop :=
  ∀ i x, l !! i = Some x → slot_in_use x = false → x = slot_zero.

(** No two live slots have the same key. *)
Definition unique_by {K : Type} (key : A → K) (l : list A) : Prop :=
  ∀ i j x y, l !! i = Some x → l !! j = Some y →
    slot_in_use x = true → slot_in_use y = true → key x = key y → i = j.

Lemma free_slot_Some l i :
  free_slot l = Some i → ∃ x, l !! i = Some x ∧ slot_in_use x = false.
Proof. intros (x & Hx & Hf)%scan_hit. exists x. bool_to_prop. done. Qed.

Lemma free_slot_clean l i : clean l → free_slot l = Some i → l !! i = Some slot_zero.
Proof. intros Hc (x & Hx & Hf)%free_slot_Some. by rewrite Hx, (Hc _ _ Hx Hf). Qed.

Lemma free_slot_None l : free_slot l = None ↔ ∀ i x, l !! i = Some x → slot_in_use x = true.
Proof.
  unfold free_slot. rewrite scan_None. split; intros Hall i x Hx; specialize (Hall i x Hx); bool_to_prop;
    [done|]. by rewrite Hall.
Qed.

Lemma free_slot_exists l : countb slot_in_use l < zlen l → ∃ i, free_slot l = Some i.
Proof.
  intros Hlt. destruct (free_slot l) as [i|] eqn:Hf; [by eexists|].
  rewrite free_slot_None in Hf. apply countb_full in Hf. lia.
Qed.

Lemma clean_replicate n : clean (replicate n slot_zero).
Proof. intros i x [-> _]%lookup_replicate _. done. Qed.

Lemma clean_insert l i y :
  clean l → (slot_in_use y = false → y = slot_zero) → clean (<[i := y]> l).
Proof.
  intros Hc Hy j x [(-> & <- & _)|(_ & Hx)]%list_lookup_insert_Some; [apply Hy|by apply Hc in Hx].
Qed.

Lemma clean_fmap l (f : A → A) :
  clean l → (∀ x, slot_in_use (f x) = false → slot_in_use x = true → f x = slot_zero) →
  f slot_zero = slot_zero → clean (f <$> l).
Proof.
  intros Hc Hf Hz i y (x & -> & Hx)%list_lookup_fmap_Some_1 Hfree.
  destruct (slot_in_use x) eqn:Hu; [by apply Hf|].
  by rewrite (Hc _ _ Hx Hu).
Qed.

Lemma clean_alter l i (f : A → A) :
  clean l → (∀ x, slot_in_use x = true → slot_in_use (f x) = false → f x = slot_zero) →
  (∀ x, l !! i = Some x → slot_in_use x = true) → clean (alter f i l).
Proof.
  intros Hc Hf Hi j y Hy Hfree. destruct (decide (j = i)) as [->|Hne].
  - rewrite list_lookup_alter_eq in Hy. apply fmap_Some in Hy as (x & Hx & ->). apply Hf; [by eapply Hi|done].
  - rewrite list_lookup_alter_ne in Hy by done. by eapply Hc.
Qed.

(** A claimed slot starts from zero. *)
Lemma claim_clean l i (f : A → A) :
  clean l → free_slot l = Some i → alter f i l = <[i := f slot_zero]> l.
Proof.
  intros Hc Hf. by apply alter_insert_at, free_slot_clean.
Qed.

Section keyed.
Context {K : Type} (key : A → K).

Lemma unique_by_replicate n : unique_by key (replicate n slot_zero).
Proof.
  intros i j x y [-> _]%lookup_replicate _ Hx. rewrite slot_zero_free in Hx. done.
Qed.

Lemma unique_by_insert l i y :
  unique_by key l →
  (slot_in_use y = true → ∀ j z, l !! j = Some z → j ≠ i → slot_in_use z = true → key z ≠ key y) →
  unique_by key (<[i := y]> l).
Proof.
  intros Hu Hy i1 i2 x1 x2 [(-> & <- & _)|(? & Hx1)]%list_lookup_insert_Some
    [(-> & <- & _)|(? & Hx2)]%list_lookup_insert_Some Hu1 Hu2 Hk; [done|..].
  - exfalso. by eapply (Hy Hu1 i2).
  - exfalso. by eapply (Hy Hu2 i1).
  - by eapply Hu.
Qed.

Lemma unique_by_release l i : unique_by key l → unique_by key (<[i := slot_zero]> l).
Proof.
  intros Hu. apply unique_by_insert; [done|]. by rewrite slot_zero_free.
Qed.

(** An update that keeps the keys of live slots, or frees them, keeps uniqueness. *)
Lemma unique_by_fmap l (f : A → A) :
  unique_by key l →
  (∀ x, slot_in_use (f x) = true → slot_in_use x = true ∧ key (f x) = key x) →
  unique_by key (f <$> l).
Proof.
  intros Hu Hf i j ? ? (x & -> & Hx)%list_lookup_fmap_Some_1 (y & -> & Hy)%list_lookup_fmap_Some_1
    [Hux Hkx]%Hf [Huy Hky]%Hf Hk.
  eapply Hu; [exact Hx|exact Hy|done..|congruence].
Qed.

Lemma unique_by_alter l i (f : A → A) :
  unique_by key l → (∀ x, slot_in_use (f x) = true → slot_in_use x = true ∧ key (f x) = key x) →
  unique_by key (alter f i l).
Proof.
  intros Hu Hf.
  assert (∀ j y, alter f i l !! j = Some y → slot_in_use y = true →
    ∃ x, l !! j = Some x ∧ slot_in_use x = true ∧ key y = key x) as Hback.
  { intros j y Hy Huy. destruct (decide (j = i)) as [->|Hne].
    - rewrite list_lookup_alter_eq in Hy. apply fmap_Some in Hy as (x & Hx & ->).
      apply Hf in Huy as [??]. by exists x.
    - rewrite list_lookup_alter_ne in Hy by done. by exists y. }
  intros j k y z Hy Hz Huy Huz Hk. destruct (Hback j y Hy Huy) as (x & Hx & Hux & Hkx).
  destruct (Hback k z Hz Huz) as (x' & Hx' & Hux' & Hkx'). eapply Hu; [exact Hx|exact Hx'|done..|congruence].
Qed.

(** A scan for a live slot with a given key finds the only one there is. *)
Lemma unique_by_scan l i x (P : A → bool) :
  unique_by key l → l !! i = Some x → slot_in_use x = true → P x = true →
  (∀ y, P y = true → slot_in_use y = true ∧ key y = key x) → scan P l = Some i.
Proof.
  intros Hu Hx Hux HPx HP. eapply scan_unique; [done..|].
  intros j y Hy [Huy Hk]%HP. by eapply Hu.
Qed.
End keyed.
End tables.

(** ** Paginated listings

    [page live fill max skip got l] is the loop of the hub's LIST-like replies:
    dead slots are skipped, then the first [skip] live ones; entries are filled
    until the reply holds [max], and a live slot beyond that sets the MORE flag
    and ends the loop. *)
Section paging.
Context {A B : Type} (live : A → bool) (fill : A → B) (max : nat).

Fixpoint page (skip : nat) (got : list B) (l : list A) : list B * bool :=
  match l with
  | [] => (got, false)
  | x :: l' =>
      if negb (live x) then page skip got l'
      else match skip with
           | S skip' => page skip' got l'
           | O => if Nat.eqb (length got) max then (got, true)
                  else page O (got ++ [fill x]) l'
           end
  end.

(** What is listed: the entries of the live slots, in slot order. *)
Definition listed (l : list A) : list B := fill <$> List.filter live l.

Lemma page_take skip got l :
  (length got ≤ max)%nat →
  page skip got l =
    (got ++ take (max - length got) (drop skip (listed l)),
     bool_decide (skip + (max - length got) < length (listed l))%nat).
Proof.
  revert skip got. unfold listed.
  induction l as [|x l IH]; intros skip got Hg; cbn [page List.filter].
  { by rewrite fmap_nil, drop_nil, take_nil, app_nil_r. }
  destruct (live x) eqn:Hx; cbn [negb]; [|by apply IH].
  destruct skip as [|skip]; cbn [fmap list_fmap drop length].
  - destruct (Nat.eqb (length got) max) eqn:Hm; bool_to_prop.
    + rewrite Hm, Nat.sub_diag. rewrite app_nil_r. done.
    + rewrite IH by (rewrite length_app; simpl; lia). rewrite length_app. cbn [length].
      replace (max - length got)%nat with (S (max - (length got + 1)))%nat by lia.
      cbn [take]. rewrite <- app_assoc. cbn [app drop]. f_equal. apply bool_decide_ext. simpl. lia.
  - rewrite IH by done. f_equal. apply bool_decide_ext. simpl. lia.
Qed.

Corollary page_spec skip l :
  page skip [] l = (take max (drop skip (listed l)), bool_decide (skip + max < length (listed l))%nat).
Proof. rewrite page_take by (simpl; lia). by rewrite Nat.sub_0_r. Qed.

(** A requester that asks again from where the previous reply ended, while
    the MORE flag is set. *)
Fixpoint page_all (fuel skip : nat) (l : list A) : list B :=
  match fuel with
  | O => []
  | S fuel' =>
      let '(got, more) := page skip [] l in
      got ++ (if more then page_all fuel' (skip + length got) l else [])
  end.

Lemma page_all_from fuel skip l :
  (0 < max)%nat → (length (listed l) < fuel + skip)%nat →
  page_all fuel skip l = drop skip (listed l).
Proof.
  intros Hmax. revert skip. induction fuel as [|fuel IH]; intros skip Hf; simpl.
  { symmetry. apply drop_ge. lia. }
  rewrite page_spec. case_bool_decide as Hmore.
  - rewrite length_take, length_drop.
    replace (Nat.min max (length (listed l) - skip)) with max by lia.
    rewrite IH by lia. rewrite <- drop_drop. apply take_drop.
  - rewrite app_nil_r. apply take_ge. rewrite length_drop. lia.
Qed.
End paging.

Lemma listed_length {A B} (live : A → bool) (fill : A → B) l :
  Z.of_nat (length (listed live fill l)) = countb live l.
Proof.
  unfold listed. rewrite length_fmap.
  induction l as [|x l IH]; simpl; [done|]. destruct (live x); simpl; lia.
Qed.

(** ** Live entries, and placing new ones

    [live l] lists the live slots in order; [place new l] puts the entries
    [new] into the first free slots, in order: what a run of claims does. *)
Section placing.
Context {A : Type} `{Slot A}.
Implicit Types (l new : list A) (x e : A).

Definition live (l : list A) : list A := List.filter slot_in_use l.

Fixpoint place (new l : list A) : list A :=
  match l with
  | [] => []
  | x :: l' =>
      if slot_in_use x then x :: place new l'
      else match new with [] => x :: l' | e :: new' => e :: place new' l' end
  end.

(** Free slots. *)
Definition vacancies (l : list A) : Z := zlen l - countb slot_in_use l.

Lemma elem_of_live x l : x ∈ live l ↔ ∃ i, l !! i = Some x ∧ slot_in_use x = true.
Proof.
  unfold live. rewrite list_elem_of_In, filter_In, <- list_elem_of_In, list_elem_of_lookup. naive_solver.
Qed.

Lemma live_length l : Z.of_nat (length (live l)) = countb slot_in_use l.
Proof.
  unfold live. induction l as [|x l IH]; simpl; [done|]. destruct (slot_in_use x); simpl; lia.
Qed.

Lemma place_nil l : place [] l = l.
Proof. induction l as [|x l IH]; simpl; [done|]. case_match; [by rewrite IH|done]. Qed.

Lemma length_place new l : length (place new l) = length l.
Proof.
  revert new. induction l as [|x l IH]; intros new; simpl; [done|].
  destruct (slot_in_use x), new; simpl; by rewrite ?IH.
Qed.

Lemma place_claim l i e new :
  free_slot l = Some i → slot_in_use e = true → place (e :: new) l = place new (<[i := e]> l).
Proof.
  intros Hf He. revert i Hf. unfold free_slot. induction l as [|x l IH]; intros i; simpl; [done|].
  destruct (slot_in_use x) eqn:Hx; simpl.
  - destruct (scan _ l) as [k|] eqn:Hs; intros [= <-]. simpl. by rewrite Hx, (IH k).
  - intros [= <-]. simpl. by rewrite He.
Qed.

Lemma vacancies_claim l i e :
  free_slot l = Some i → slot_in_use e = true → vacancies (<[i := e]> l) = vacancies l - 1.
Proof.
  intros (x & Hx & Hux)%free_slot_Some He. unfold vacancies.
  rewrite (countb_insert _ _ _ x) by done. unfold zlen. rewrite length_insert, Hux, He. simpl. lia.
Qed.

Lemma vacancies_None l : free_slot l = None ↔ vacancies l = 0.
Proof.
  rewrite free_slot_None. rewrite <- countb_full. unfold vacancies. lia.
Qed.

Lemma live_place new l :
  Forall (λ e, slot_in_use e = true) new → Z.of_nat (length new) ≤ vacancies l →
  live (place new l) ≡ₚ new ++ live l.
Proof.
  unfold vacancies. revert new. induction l as [|x l IH]; intros new Hnew Hlen.
  { destruct new; [done|]. unfold zlen in Hlen. simpl in Hlen. lia. }
  assert (zlen (x :: l) = zlen l + 1) as Hz by (unfold zlen; simpl; lia). rewrite Hz in Hlen.
  cbn [place countb] in *. destruct (slot_in_use x) eqn:Hx; cbn [b2z] in Hlen.
  - unfold live in *. cbn [List.filter]. rewrite Hx, IH by (done || lia). by rewrite Permutation_middle.
  - destruct new as [|e new]; [by unfold live; cbn [List.filter]; rewrite Hx|].
    apply Forall_cons in Hnew as [He Hnew]. unfold live in *. cbn [List.filter]. rewrite He, Hx.
    cbn [length app] in *. f_equiv. apply IH; [done|lia].
Qed.

Lemma clean_place new l : clean l → Forall (λ e, slot_in_use e = true) new → clean (place new l).
Proof.
  intros Hc. revert new. induction l as [|x l IH]; intros new Hnew; [done|].
  assert (clean l) as Hcl by (intros i y Hy; by apply (Hc (S i))).
  cbn [place]. destruct (slot_in_use x) eqn:Hx.
  - intros [|i] y Hy; simpl in Hy; [by simplify_eq; congruence|]. by eapply IH.
  - destruct new as [|e new]; [done|]. apply Forall_cons in Hnew as [He Hnew].
    intros [|i] y Hy; simpl in Hy; [by simplify_eq; congruence|]. by eapply IH.
Qed.

Lemma Forall_place (Q : A → Prop) new l : Forall Q l → Forall Q new → Forall Q (place new l).
Proof.
  intros Hl. revert new. induction Hl as [|x l Hx Hl IH]; intros new Hnew; cbn [place]; [done|].
  destruct (slot_in_use x); [by apply Forall_cons_2; [|apply IH]|].
  destruct Hnew as [|e new He Hnew]; [by apply Forall_cons_2|]. by apply Forall_cons_2; [|apply IH].
Qed.

(** Releasing everything that was placed gives the table back. *)
Lemma place_undo (P : A → bool) new l :
  clean l → Forall (λ e, P e = true) new → (∀ i x, l !! i = Some x → P x = false) →
  (λ x, if P x then slot_zero else x) <$> place new l = l.
Proof.
  intros Hc. revert new. induction l as [|x l IH]; intros new Hnew Hl; [done|].
  assert (clean l) as Hcl by (intros i y Hy; by apply (Hc (S i))).
  assert (∀ i y, l !! i = Some y → P y = false) as Hl' by (intros i; apply (Hl (S i))).
  pose proof (Hl 0%nat x eq_refl) as HPx.
  cbn [place]. destruct (slot_in_use x) eqn:Hx; cbn [fmap list_fmap].
  - rewrite HPx. f_equal. by apply IH.
  - destruct new as [|e new]; cbn [fmap list_fmap].
    + rewrite HPx. f_equal. by rewrite <- (place_nil l) at 1; apply IH.
    + apply Forall_cons in Hnew as [-> Hnew]. rewrite (Hc 0%nat x eq_refl Hx). f_equal. by apply IH.
Qed.

(** Rewriting one slot does not change the live entries of other keys. *)
Lemma live_insert_key {K} (key : A → K) l i x y z :
  l !! i = Some x → (slot_in_use y = true → key y ≠ key z) → (slot_in_use x = true → key x ≠ key z) →
  z ∈ live (<[i := y]> l) ↔ z ∈ live l.
Proof.
  intros Hx Hy Hxk. rewrite !elem_of_live. split.
  - intros (j & [(<- & <- & _)|(_ & Hz)]%list_lookup_insert_Some & Hu); [by destruct (Hy Hu)|by exists j].
  - intros (j & Hz & Hu). exists j. split; [|done]. destruct (decide (j = i)) as [->|].
    + simplify_eq. by destruct (Hxk Hu).
    + by rewrite list_lookup_insert_ne by done.
Qed.

(** Uniqueness of a key among live slots, as the absence of duplicates. *)
Lemma unique_by_NoDup {K} (key : A → K) l : unique_by key l ↔ NoDup (key <$> live l).
Proof.
  unfold live. induction l as [|x l IH].
  { split; [intros _; apply NoDup_nil_2|]. intros _ i j y z Hy. done. }
  assert (unique_by key (x :: l) ↔
    unique_by key l ∧ (slot_in_use x = true → ∀ i y, l !! i = Some y → slot_in_use y = true → key y ≠ key x)) as ->.
  { split.
    - intros Hu. split.
      + intros i j y z Hy Hz Huy Huz Hk. assert (S i = S j) by (by eapply (Hu (S i) (S j))). lia.
      + intros Hx i y Hy Huy Hk. by assert (S i = 0%nat) by (by eapply (Hu (S i) 0%nat)).
    - intros [Hu Hx] [|i] [|j] y z Hy Hz Huy Huz Hk; simplify_eq/=; [done|..].
      + exfalso. by eapply Hx.
      + exfalso. by eapply Hx.
      + f_equal. by eapply Hu. }
  cbn [List.filter]. destruct (slot_in_use x); [|rewrite IH; naive_solver].
  cbn [fmap list_fmap]. rewrite NoDup_cons, <- IH, list_elem_of_fmap. split.
  - intros [Hu Hx]. split; [|done]. intros (y & Hk & (i & Hy & Huy)%elem_of_live). by eapply Hx.
  - intros [Hn Hu]. split; [done|]. intros _ i y Hy Huy Hk. apply Hn. exists y. split; [done|].
    apply elem_of_live. by exists i.
Qed.
End placing.

(** ** Selecting the best slot

    [select ok before i cand l] is the loop that keeps the first acceptable slot
    and replaces it whenever a later one comes [before] it. *)
Section selecting.
Context {A : Type} (ok : A → bool) (before : A → A → bool).

Fixpoint select (i : nat) (cand : option (nat * A)) (l : list A) : option (nat * A) :=
  match l with
  | [] => cand
  | x :: l' =>
      if negb (ok x) then select (S i) cand l'
      else match cand with
           | None => select (S i) (Some (i, x)) l'
           | Some (_, c) => if before x c then select (S i) (Some (i, x)) l' else select (S i) cand l'
           end
  end.

Context (before_irrefl : ∀ x, before x x = false)
        (before_trans : ∀ x y z, before x y = false → before y z = false → before x z = false)
        (before_asym : ∀ x y, before x y = true → before y x = false).

Lemma select_from i cand l r :
  select i cand l = Some r →
  (cand = Some r ∨ ∃ k, l !! k = Some r.2 ∧ r.1 = (i + k)%nat ∧ ok r.2 = true) ∧
  (∀ c, cand = Some c → before c.2 r.2 = false) ∧
  (∀ k x, l !! k = Some x → ok x = true → before x r.2 = false).
Proof.
  revert i cand. induction l as [|x l IH]; intros i cand; cbn [select].
  { intros ->. split_and!; [by left| |done]. intros c [= ->]. apply before_irrefl. }
  destruct (ok x) eqn:Hok; cbn [negb].
  - assert (select (S i) (Some (i, x)) l = Some r →
      (∃ k, (x :: l) !! k = Some r.2 ∧ r.1 = (i + k)%nat ∧ ok r.2 = true) ∧ before x r.2 = false ∧
      (∀ k y, l !! k = Some y → ok y = true → before y r.2 = false)) as Htake.
    { intros (Hfrom & Hc & Hall)%IH. specialize (Hc _ eq_refl). split_and!; [|done|done].
      destruct Hfrom as [[= <-]|(k & ? & ? & ?)]; [exists 0%nat|exists (S k)]; cbn; split_and!; try done; lia. }
    destruct cand as [[j c]|]; [destruct (before x c) eqn:Hb|].
    + intros (Hfrom & Hx & Hall)%Htake. split_and!; [by right| |].
      * intros ? [= <-]. cbn. eapply before_trans; [|exact Hx]. by apply before_asym.
      * intros [|k] y Hy Hoy; simplify_eq/=; [done|]. by eapply Hall.
    + intros (Hfrom & Hc & Hall)%IH. specialize (Hc _ eq_refl). split_and!.
      * destruct Hfrom as [?|(k & ? & ? & ?)]; [by left|right; exists (S k)]. cbn. split_and!; [done|lia|done].
      * intros ? [= <-]. done.
      * intros [|k] y Hy Hoy; simplify_eq/=; [by eapply before_trans|]. by eapply Hall.
    + intros (Hfrom & Hx & Hall)%Htake. split_and!; [by right|done|].
      intros [|k] y Hy Hoy; simplify_eq/=; [done|]. by eapply Hall.
  - intros (Hfrom & Hc & Hall)%IH. split_and!; [|done|].
    + destruct Hfrom as [?|(k & ? & ? & ?)]; [by left|right; exists (S k)]. cbn. split_and!; [done|lia|done].
    + intros [|k] y Hy Hoy; simplify_eq/=; [congruence|]. by eapply Hall.
Qed.

(** The selected slot is acceptable and no acceptable slot comes before it. *)
Lemma select_Some l i x :
  select 0 None l = Some (i, x) →
  l !! i = Some x ∧ ok x = true ∧ ∀ k y, l !! k = Some y → ok y = true → before y x = false.
Proof. intros ([?|(k & ? & ? & ?)] & _ & Hall)%select_from; [done|]. simplify_eq/=. done. Qed.

Lemma select_None_from i cand l : select i cand l = None → cand = None ∧ ∀ k x, l !! k = Some x → ok x = false.
Proof.
  revert i cand. induction l as [|x l IH]; intros i cand; cbn [select]; [by intros ->|].
  destruct (ok x) eqn:Hok; cbn [negb].
  - destruct cand as [[j c]|]; [destruct (before x c)|]; by intros [? _]%IH.
  - intros [-> Hall]%IH. split; [done|]. intros [|k] y Hy; simplify_eq/=; [done|]. by eapply Hall.
Qed.

Lemma select_None l : select 0 None l = None ↔ ∀ k x, l !! k = Some x → ok x = false.
Proof.
  split; [by intros [_ ?]%select_None_from|]. intros Hall.
  destruct (select 0 None l) as [[i x]|] eqn:Hs; [|done]. apply select_Some in Hs as (Hx & Hok & _).
  by rewrite (Hall i x Hx) in Hok.
Qed.
End selecting.
