(* ===== verification/Rings.v ===== *)
(** * Cyclic scans and circular buffers

    Several components walk a fixed array cyclically from a cursor (the echo
    token table, the egress queue's round robin) or keep a queue in a circular
    array (the echo correlator).  [ring_scan] is that loop, [ring_list] the
    contents of a circular buffer read from its head. *)

From S2P Require Import Prelude.

(** [for (i = 0; i < n; i++) { candidate = (start + i) % n; if (P(candidate)) return candidate; }] *)
Fixpoint ring_scan (P : Z → bool) (n start : Z) (i : Z) (fuel : nat) : option Z :=
  match fuel with
  | O => None
  | S fuel' =>
      let candidate := (start + i) mod n in
      if P candidate then Some candidate else ring_scan P n start (i + 1) fuel'
  end.

(** How far the cursor is from an index, walking forward. *)
Definition ring_distance (n start c : Z) : Z := (c - start) mod n.

Section ring_scans.
Context (P : Z → bool) (n start : Z) (Hn : 0 < n).

Lemma ring_scan_Some_from i fuel c :
  ring_scan P n start i fuel = Some c →
  ∃ k, i ≤ k < i + Z.of_nat fuel ∧ c = (start + k) mod n ∧ P c = true ∧
    (∀ k', i ≤ k' < k → P ((start + k') mod n) = false).
Proof.
  revert i. induction fuel as [|fuel IH]; intros i; cbn [ring_scan]; [done|].
  destruct (P ((start + i) mod n)) eqn:HP.
  - intros [= <-]. exists i. split_and!; [lia|lia|done|done|]. intros; lia.
  - intros (k & Hk & -> & HPk & Hlt)%IH. exists k. split_and!; [lia|lia|done|done|].
    intros k' Hk'. destruct (decide (k' = i)) as [->|]; [done|]. apply Hlt. lia.
Qed.

Lemma ring_scan_None_from i fuel :
  ring_scan P n start i fuel = None ↔ ∀ k, i ≤ k < i + Z.of_nat fuel → P ((start + k) mod n) = false.
Proof.
  revert i. induction fuel as [|fuel IH]; intros i; cbn [ring_scan].
  { split; [intros _ k; lia|done]. }
  destruct (P ((start + i) mod n)) eqn:HP.
  - split; [done|]. intros Hall. rewrite Hall in HP; [done|lia].
  - rewrite IH. split; intros Hall k Hk; [|apply Hall; lia].
    destruct (decide (k = i)) as [->|]; [done|]. apply Hall. lia.
Qed.

Lemma ring_distance_range c : 0 ≤ ring_distance n start c < n.
Proof. by apply Z.mod_pos_bound. Qed.

Lemma ring_reach c : 0 ≤ c < n → (start + ring_distance n start c) mod n = c.
Proof.
  intros Hc. unfold ring_distance. rewrite Zplus_mod_idemp_r.
  replace (start + (c - start)) with c by lia. by apply Z.mod_small.
Qed.

Lemma ring_distance_of k : 0 ≤ k < n → ring_distance n start ((start + k) mod n) = k.
Proof.
  intros Hk. unfold ring_distance. rewrite Zminus_mod_idemp_l.
  replace (start + k - start) with k by lia. by apply Z.mod_small.
Qed.

(** The scan returns the index nearest to the cursor at which [P] holds. *)
Lemma ring_scan_nearest c :
  ring_scan P n start 0 (Z.to_nat n) = Some c →
  0 ≤ c < n ∧ P c = true ∧
  ∀ c', 0 ≤ c' < n → P c' = true → ring_distance n start c ≤ ring_distance n start c'.
Proof.
  intros (k & Hk & -> & HP & Hlt)%ring_scan_Some_from. rewrite Z2Nat.id in Hk by lia.
  split_and!; [by apply Z.mod_pos_bound|by apply Z.mod_pos_bound|done|].
  intros c' Hc' HPc'. rewrite ring_distance_of by lia.
  pose proof (ring_distance_range c') as Hd.
  destruct (decide (k ≤ ring_distance n start c')); [done|].
  specialize (Hlt (ring_distance n start c') ltac:(lia)).
  rewrite ring_reach in Hlt by done. congruence.
Qed.

(** It fails only when [P] holds nowhere. *)
Lemma ring_scan_None :
  ring_scan P n start 0 (Z.to_nat n) = None ↔ ∀ c, 0 ≤ c < n → P c = false.
Proof.
  rewrite ring_scan_None_from, Z2Nat.id by lia. split.
  - intros Hall c Hc. rewrite <- (ring_reach c Hc). apply Hall.
    pose proof (ring_distance_range c). lia.
  - intros Hall k _. apply Hall. by apply Z.mod_pos_bound.
Qed.
End ring_scans.

(** ** Circular buffers *)

(** The [count] elements of the array [a], read cyclically from [head]. *)
Definition ring_list {A} `{Inhabited A} (a : list A) (head : Z) (count : nat) : list A :=
  (λ k : nat, a.[(head + Z.of_nat k) mod zlen a]) <$> seq 0 count.

Section ring_lists.
Context {A : Type} `{Inhabited A}.
Implicit Types (a : list A) (x : A).

Lemma ring_list_length a head count : length (ring_list a head count) = count.
Proof. unfold ring_list. by rewrite length_fmap, length_seq. Qed.

Lemma ring_list_lookup a head count k :
  (k < count)%nat → ring_list a head count !! k = Some a.[(head + Z.of_nat k) mod zlen a].
Proof.
  intros Hk. unfold ring_list. rewrite list_lookup_fmap, lookup_seq_lt by done. done.
Qed.

Lemma ring_list_take a head count k :
  (k ≤ count)%nat → take k (ring_list a head count) = ring_list a head k.
Proof.
  intros Hk. apply list_eq. intros i. destruct (decide (i < k)%nat).
  - rewrite lookup_take_lt by done. rewrite !ring_list_lookup by lia. done.
  - rewrite !lookup_ge_None_2; [done|rewrite ring_list_length; lia|].
    rewrite length_take, ring_list_length. lia.
Qed.

Lemma ring_list_drop a head count k :
  0 < zlen a → (k ≤ count)%nat →
  drop k (ring_list a head count) = ring_list a ((head + Z.of_nat k) mod zlen a) (count - k).
Proof.
  intros Ha Hk. apply list_eq. intros i. rewrite lookup_drop. destruct (decide (i < count - k)%nat).
  - rewrite !ring_list_lookup by lia. do 2 f_equal. rewrite Zplus_mod_idemp_l. f_equal. lia.
  - rewrite !lookup_ge_None_2; [done|rewrite ring_list_length; lia..].
Qed.

(** Writing just past the last element appends it. *)
Lemma ring_list_push a head count x :
  Z.of_nat count < zlen a →
  ring_list a.[(head + Z.of_nat count) mod zlen a := x] head (S count) = ring_list a head count ++ [x].
Proof.
  intros Hc. pose proof (Z.mod_pos_bound (head + Z.of_nat count) (zlen a) ltac:(lia)) as Hr.
  apply list_eq. intros i. destruct (decide (i < count)%nat).
  - rewrite lookup_app_l by (rewrite ring_list_length; lia).
    rewrite !ring_list_lookup by lia. rewrite zlen_zset. f_equal.
    pose proof (Z.mod_pos_bound (head + Z.of_nat i) (zlen a) ltac:(lia)) as Hi.
    apply zget_zset_ne; [lia|lia|]. intros Heq.
    assert ((Z.of_nat count - Z.of_nat i) mod zlen a = 0) as Hz.
    { replace (Z.of_nat count - Z.of_nat i) with ((head + Z.of_nat count) - (head + Z.of_nat i)) by lia.
      rewrite Zminus_mod, Heq, Z.sub_diag. apply Zmod_0_l. }
    rewrite Z.mod_small in Hz by lia. lia.
  - destruct (decide (i = count)) as [->|].
    + rewrite ring_list_lookup, zlen_zset, zget_zset_eq by lia.
      rewrite lookup_app_r by (rewrite ring_list_length; lia).
      by rewrite ring_list_length, Nat.sub_diag.
    + rewrite !lookup_ge_None_2; [done| |].
      * rewrite length_app, ring_list_length. simpl. lia.
      * rewrite ring_list_length. lia.
Qed.
End ring_lists.
