(* ===== verification/CString.v ===== *)
(** * NUL-terminated strings in fixed buffers

    A [char] buffer is a list of bytes of the buffer's size.  What the C string
    functions read of it is the prefix before the first NUL, [cstr].  Models
    src/shared/bounded_string.c and the [string.h] functions the core calls. *)

From Stdlib Require Ascii String.
From S2P Require Import Prelude.

(** The string a buffer holds: everything before its first NUL. *)
Fixpoint cstr (b : list Z) : list Z :=
  match b with
  | [] => []
  | c :: b' => if c =? 0 then [] else c :: cstr b'
  end.

Definition strlen (b : list Z) : nat := length (cstr b).

Definition strnlen (b : list Z) (n : nat) : nat := length (cstr (take n b)).

(** [strcmp(a, b) == 0] *)
Definition streq (a b : list Z) : bool := bool_decide (cstr a = cstr b).

(** [strncmp(a, b, n) == 0] *)
Definition strneq (a b : list Z) (n : nat) : bool := bool_decide (cstr (take n a) = cstr (take n b)).

(** A string literal of the source. *)
Definition lit (s : String.string) : list Z := (λ c, Z.of_N (Ascii.N_of_ascii c)) <$> String.list_ascii_of_string s.

(** A name field is present: its first byte is not NUL. *)
Definition is_named (b : list Z) : bool :=
  match b with [] => false | c :: _ => negb (c =? 0) end.

(** [BoundedString_Copy]: [destination_size] is the length of the destination; [None] is a NULL source. *)
Definition BoundedString_Copy (destination : list Z) (source : option (list Z)) : list Z :=
  if Nat.eqb (length destination) 0 then destination
  else
    match source with
    | None => <[0%nat := 0]> destination
    | Some s =>
        let length_ := strnlen s (length destination - 1) in
        <[length_ := 0]> (list_inserts 0 (take length_ s) destination)
    end.

(** ** Lemmas *)

Lemma cstr_app_nul s r : 0 ∉ s → cstr (s ++ 0 :: r) = s.
Proof.
  induction s as [|c s IH]; intros Hs; simpl; [done|].
  apply not_elem_of_cons in Hs as [Hc Hs].
  replace (c =? 0) with false by (symmetry; apply Z.eqb_neq; congruence). by rewrite IH.
Qed.

Lemma cstr_no_nul b : 0 ∉ cstr b.
Proof.
  induction b as [|c b IH]; simpl; [by apply not_elem_of_nil|].
  destruct (Z.eqb_spec c 0); [by apply not_elem_of_nil|]. apply not_elem_of_cons. done.
Qed.

Lemma cstr_prefix b : cstr b = take (strlen b) b.
Proof.
  unfold strlen. induction b as [|c b IH]; simpl; [done|].
  destruct (c =? 0); simpl; [done|]. by rewrite <- IH.
Qed.

Lemma cstr_id s : 0 ∉ s → cstr s = s.
Proof.
  induction s as [|c s IH]; intros Hs; simpl; [done|].
  apply not_elem_of_cons in Hs as [Hc Hs].
  replace (c =? 0) with false by (symmetry; apply Z.eqb_neq; congruence). by rewrite IH.
Qed.

Lemma cstr_idemp b : cstr (cstr b) = cstr b.
Proof. apply cstr_id, cstr_no_nul. Qed.

Lemma strlen_le b : (strlen b ≤ length b)%nat.
Proof. unfold strlen. induction b as [|c b IH]; simpl; [lia|]. case_match; simpl; lia. Qed.

Lemma cstr_take n b : cstr (take n b) = take n (cstr b).
Proof.
  revert n. induction b as [|c b IH]; intros [|n]; simpl; [done..|].
  destruct (c =? 0); simpl; [done|]. by rewrite IH.
Qed.

Lemma strnlen_min b n : strnlen b n = Nat.min n (strlen b).
Proof. unfold strnlen, strlen. by rewrite cstr_take, length_take. Qed.

(** A buffer whose last byte is NUL holds a string shorter than the buffer. *)
Lemma strlen_terminated b n :
  length b = S n → b !!! n = 0 → (strlen b ≤ n)%nat.
Proof.
  revert n. unfold strlen. induction b as [|c b IH]; intros n Hlen Hlast; [done|].
  simpl in Hlen. destruct (Z.eqb_spec c 0) as [->|Hc]; simpl; [lia|].
  rewrite (proj2 (Z.eqb_neq _ _) Hc). simpl.
  destruct n as [|n]; [by simpl in Hlast|]. simpl in Hlast. specialize (IH n). lia.
Qed.

Lemma streq_true a b : streq a b = true ↔ cstr a = cstr b.
Proof. unfold streq. by rewrite bool_decide_eq_true. Qed.

Lemma streq_refl a : streq a a = true.
Proof. by apply streq_true. Qed.

Lemma streq_sym a b : streq a b = streq b a.
Proof. unfold streq. apply bool_decide_ext. naive_solver. Qed.

Lemma is_named_cstr b : is_named b = true ↔ cstr b ≠ [].
Proof.
  destruct b as [|c b]; simpl; [naive_solver|].
  rewrite negb_true_iff. destruct (Z.eqb_spec c 0); naive_solver.
Qed.

Lemma length_BoundedString_Copy d s : length (BoundedString_Copy d s) = length d.
Proof. unfold BoundedString_Copy. case_tests; [done|]. destruct s; autorewrite with len; done. Qed.

#[export] Hint Rewrite length_BoundedString_Copy : len.

(** The copy holds the source truncated to fit, and nothing of what was there before. *)
Lemma cstr_BoundedString_Copy d s :
  (0 < length d)%nat →
  cstr (BoundedString_Copy d (Some s)) = take (length d - 1) (cstr s).
Proof.
  intros Hd. unfold BoundedString_Copy.
  replace (Nat.eqb (length d) 0) with false by (symmetry; apply Nat.eqb_neq; lia).
  set (n := strnlen s (length d - 1)).
  assert (n ≤ length d - 1)%nat as Hn by (subst n; rewrite strnlen_min; lia).
  assert (take n s = take (length d - 1) (cstr s)) as Ht.
  { subst n. rewrite strnlen_min. rewrite (cstr_prefix s), take_take. done. }
  assert (length (take n s) = n) as Hlt.
  { rewrite length_take. pose proof (strlen_le s). subst n. rewrite strnlen_min. lia. }
  assert (<[n:=0]> (list_inserts 0 (take n s) d) = take n s ++ 0 :: drop (S n) d) as ->.
  { apply list_eq. intros i. destruct (Nat.lt_trichotomy i n) as [Hi|[->|Hi]].
    - rewrite list_lookup_insert_ne by lia. rewrite list_lookup_inserts by lia.
      rewrite Nat.sub_0_r, lookup_app_l by lia. done.
    - rewrite list_lookup_insert_eq by (rewrite length_inserts; lia).
      rewrite lookup_app_r, Hlt, Nat.sub_diag by lia. done.
    - rewrite list_lookup_insert_ne by lia. rewrite list_lookup_inserts_ge by lia.
      rewrite lookup_app_r, Hlt by lia.
      replace (i - n)%nat with (S (i - S n)) by lia. simpl. rewrite lookup_drop. f_equal. lia. }
  rewrite Ht. apply cstr_app_nul. intros Hin%elem_of_take. destruct Hin as (i & Hi & _).
  apply (cstr_no_nul s). by eapply list_elem_of_lookup_2.
Qed.

(** What a bounded copy of a string stores: its first bytes, without a NUL. *)
Lemma take_strnlen s n : take (strnlen s n) s = take n (cstr s).
Proof. rewrite strnlen_min, (cstr_prefix s). by rewrite take_take. Qed.

Lemma take_cstr_no_nul s n : 0 ∉ take n (cstr s).
Proof. intros (i & Hi & _)%elem_of_take. apply (cstr_no_nul s). by eapply list_elem_of_lookup_2. Qed.
