(* ===== verification/EgressShaper.v ===== *)
(** * The egress token bucket (src/shared/egress_shaper.c)

    One bucket per agent interface paces hub-to-agent traffic to the rate of the
    bus.  The counters are 64-bit: every product and sum of the code is wrapped
    here at the place the code computes it, and the theorems carry the bound on
    the bucket size under which nothing wraps. *)

From S2P Require Import Prelude.

Record EgressShaper := {
  rate_bits_per_s : Z;
  tokens_bits : Z;
  burst_bits : Z;
  remainder : Z;
  last_us : Z;
}.

Definition EgressShaper_zero : EgressShaper :=
  {| rate_bits_per_s := 0; tokens_bits := 0; burst_bits := 0; remainder := 0; last_us := 0 |}.

Definition MICROSECONDS_PER_SECOND : Z := 1000000.

Definition EgressShaper_Init (now_us rate burst : Z) : EgressShaper :=
  {| rate_bits_per_s := rate; burst_bits := burst; tokens_bits := burst; remainder := 0; last_us := now_us |}.

Definition EgressShaper_SetRate (self : EgressShaper) (rate : Z) : EgressShaper :=
  {| rate_bits_per_s := rate;
     tokens_bits := if tokens_bits self >? burst_bits self then burst_bits self else tokens_bits self;
     burst_bits := burst_bits self; remainder := remainder self; last_us := last_us self |}.

Definition EgressShaper_Refill (self : EgressShaper) (now_us : Z) : EgressShaper :=
  if (rate_bits_per_s self =? 0) || (now_us <=? last_us self) then
    {| rate_bits_per_s := rate_bits_per_s self; tokens_bits := tokens_bits self; burst_bits := burst_bits self;
       remainder := remainder self; last_us := now_us |}
  else
    let elapsed := u64 (now_us - last_us self) in
    let fill_us := u64 (u64 (burst_bits self * MICROSECONDS_PER_SECOND) / rate_bits_per_s self + 1) in
    if elapsed >=? fill_us then
      {| rate_bits_per_s := rate_bits_per_s self; tokens_bits := burst_bits self; burst_bits := burst_bits self;
         remainder := 0; last_us := now_us |}
    else
      let numerator := u64 (u64 (rate_bits_per_s self * elapsed) + remainder self) in
      let tokens := u64 (tokens_bits self + numerator / MICROSECONDS_PER_SECOND) in
      let rest := numerator mod MICROSECONDS_PER_SECOND in
      if tokens >? burst_bits self then
        {| rate_bits_per_s := rate_bits_per_s self; tokens_bits := burst_bits self; burst_bits := burst_bits self;
           remainder := 0; last_us := now_us |}
      else
        {| rate_bits_per_s := rate_bits_per_s self; tokens_bits := tokens; burst_bits := burst_bits self;
           remainder := rest; last_us := now_us |}.

(** The bits a request is charged: a request larger than the bucket costs the whole bucket. *)
Definition charged (self : EgressShaper) (bits : Z) : Z :=
  if bits >? burst_bits self then burst_bits self else bits.

Definition EgressShaper_TryConsume (self : EgressShaper) (bits : Z) : bool * EgressShaper :=
  if rate_bits_per_s self =? 0 then (true, self)
  else
    let bits := charged self bits in
    if tokens_bits self <? bits then (false, self)
    else
      (true,
       {| rate_bits_per_s := rate_bits_per_s self; tokens_bits := tokens_bits self - bits;
          burst_bits := burst_bits self; remainder := remainder self; last_us := last_us self |}).

Definition EgressShaper_DelayUs (self : EgressShaper) (bits : Z) : Z :=
  if (rate_bits_per_s self =? 0) || (tokens_bits self >=? bits) then 0
  else
    let deficit := u64 (bits - tokens_bits self) in
    u64 (deficit * MICROSECONDS_PER_SECOND + rate_bits_per_s self - 1) / rate_bits_per_s self.

(** ** Invariant *)

(** Bucket sizes for which no 64-bit intermediate of the refill wraps. *)
Definition burst_limit : Z := 18446744069000.

Record shaper_wf (s : EgressShaper) : Prop := {
  wf_rate : is_u32 (rate_bits_per_s s);
  wf_tokens : 0 ≤ tokens_bits s ≤ burst_bits s;
  wf_burst : burst_bits s ≤ burst_limit;
  wf_remainder : 0 ≤ remainder s < MICROSECONDS_PER_SECOND;
  wf_last : is_u64 (last_us s);
}.

(** Millionths of a bit the bucket holds. *)
Definition level (s : EgressShaper) : Z := tokens_bits s * MICROSECONDS_PER_SECOND + remainder s.

Ltac shaper_unfold := unfold level, burst_limit, MICROSECONDS_PER_SECOND in *; ranges.

Lemma shaper_wf_Init now rate burst :
  is_u64 now → is_u32 rate → 0 ≤ burst ≤ burst_limit → shaper_wf (EgressShaper_Init now rate burst).
Proof. intros. constructor; simpl; shaper_unfold; lia. Qed.

Lemma shaper_wf_SetRate s rate : shaper_wf s → is_u32 rate → shaper_wf (EgressShaper_SetRate s rate).
Proof.
  intros [] Hr. unfold EgressShaper_SetRate.
  destruct (Z.gtb_spec (tokens_bits s) (burst_bits s)); constructor; simpl; shaper_unfold; lia.
Qed.

Lemma SetRate_level s rate :
  shaper_wf s → level (EgressShaper_SetRate s rate) = level s.
Proof.
  intros []. unfold EgressShaper_SetRate, level.
  destruct (Z.gtb_spec (tokens_bits s) (burst_bits s)); simpl; lia.
Qed.

(** The refill in exact arithmetic: under the size bound the wrapped
    computation is the plain one. *)
Lemma Refill_exact s now :
  shaper_wf s → is_u64 now → 0 < rate_bits_per_s s → last_us s < now →
  EgressShaper_Refill s now =
    let elapsed := now - last_us s in
    let fill_us := burst_bits s * 1000000 / rate_bits_per_s s + 1 in
    let numerator := rate_bits_per_s s * elapsed + remainder s in
    let tokens := tokens_bits s + numerator / 1000000 in
    if elapsed >=? fill_us then
      Build_EgressShaper (rate_bits_per_s s) (burst_bits s) (burst_bits s) 0 now
    else if tokens >? burst_bits s then
      Build_EgressShaper (rate_bits_per_s s) (burst_bits s) (burst_bits s) 0 now
    else Build_EgressShaper (rate_bits_per_s s) tokens (burst_bits s) (numerator mod 1000000) now.
Proof.
  intros [Hr Ht Hb Hm Hl] Hn Hpos Hlt. unfold EgressShaper_Refill. shaper_unfold.
  replace (rate_bits_per_s s =? 0) with false by (symmetry; lia).
  replace (now <=? last_us s) with false by (symmetry; lia). cbn [orb].
  rewrite (u64_id (now - last_us s)) by lia.
  rewrite (u64_id (burst_bits s * 1000000)) by lia.
  assert (0 ≤ burst_bits s * 1000000 / rate_bits_per_s s ≤ burst_bits s * 1000000) as Hq.
  { split; [apply Z.div_pos; lia|]. apply Z.div_le_upper_bound; nia. }
  rewrite (u64_id (_ / _ + 1)) by lia. cbv zeta.
  destruct (Z.geb_spec (now - last_us s) (burst_bits s * 1000000 / rate_bits_per_s s + 1)) as [|Hfill]; [done|].
  assert (0 ≤ rate_bits_per_s s * (now - last_us s) ≤ burst_bits s * 1000000) as Hprod.
  { pose proof (Z.mul_div_le (burst_bits s * 1000000) (rate_bits_per_s s) Hpos). split; nia. }
  set (q := rate_bits_per_s s * (now - last_us s)) in *.
  rewrite (u64_id q), (u64_id (q + remainder s)) by lia.
  rewrite u64_id; [done|].
  assert (0 ≤ (q + remainder s) / 1000000 ≤ burst_bits s + 1); [|lia].
  split; [apply Z.div_pos; lia|]. apply Z.div_le_upper_bound; lia.
Qed.

Lemma Refill_idle s now :
  rate_bits_per_s s = 0 ∨ now ≤ last_us s →
  EgressShaper_Refill s now =
    Build_EgressShaper (rate_bits_per_s s) (tokens_bits s) (burst_bits s) (remainder s) now.
Proof.
  intros Hidle. unfold EgressShaper_Refill.
  replace ((_ =? 0) || (_ <=? _)) with true; [done|]. symmetry. apply orb_true_iff. lia.
Qed.

Lemma shaper_wf_Refill s now :
  shaper_wf s → is_u64 now → shaper_wf (EgressShaper_Refill s now).
Proof.
  intros Hwf Hn. pose proof Hwf as [Hr Ht Hb Hm Hl].
  destruct (decide (rate_bits_per_s s = 0 ∨ now ≤ last_us s)) as [Hidle|Hbusy].
  { rewrite Refill_idle by done. constructor; simpl; shaper_unfold; lia. }
  rewrite Refill_exact by (shaper_unfold; lia || done). cbv zeta.
  assert (0 ≤ (rate_bits_per_s s * (now - last_us s) + remainder s) / 1000000) as Hq.
  { apply Z.div_pos; shaper_unfold; nia. }
  pose proof (Z.mod_pos_bound (rate_bits_per_s s * (now - last_us s) + remainder s) 1000000) as Hmod.
  destruct (Z.geb_spec (now - last_us s) (burst_bits s * 1000000 / rate_bits_per_s s + 1));
    [|destruct (Z.gtb_spec (tokens_bits s + (rate_bits_per_s s * (now - last_us s) + remainder s) / 1000000)
                 (burst_bits s))];
    constructor; simpl; shaper_unfold; lia.
Qed.

(** A refill adds at most what the rate yields in the elapsed time. *)
Lemma Refill_level s now :
  shaper_wf s → is_u64 now → last_us s ≤ now →
  level (EgressShaper_Refill s now) ≤ level s + rate_bits_per_s s * (now - last_us s).
Proof.
  intros Hwf Hn Hle. pose proof Hwf as [Hr Ht Hb Hm Hl].
  destruct (decide (rate_bits_per_s s = 0 ∨ now ≤ last_us s)) as [Hidle|Hbusy].
  { rewrite Refill_idle by done. shaper_unfold; simpl. nia. }
  rewrite Refill_exact by (shaper_unfold; lia || done). cbv zeta.
  set (num := rate_bits_per_s s * (now - last_us s) + remainder s).
  pose proof (Z.div_mod num 1000000 ltac:(lia)) as Hdm.
  pose proof (Z.mod_pos_bound num 1000000 ltac:(lia)) as Hmod.
  destruct (Z.geb_spec (now - last_us s) (burst_bits s * 1000000 / rate_bits_per_s s + 1)) as [Hfill|_].
  - pose proof (Z.mul_succ_div_gt (burst_bits s * 1000000) (rate_bits_per_s s) ltac:(shaper_unfold; lia)).
    shaper_unfold; simpl. nia.
  - destruct (Z.gtb_spec (tokens_bits s + num / 1000000) (burst_bits s)); shaper_unfold; simpl; subst num; lia.
Qed.

Lemma Refill_rate s now : rate_bits_per_s (EgressShaper_Refill s now) = rate_bits_per_s s.
Proof. unfold EgressShaper_Refill. repeat case_match; done. Qed.

Lemma Refill_burst s now : burst_bits (EgressShaper_Refill s now) = burst_bits s.
Proof. unfold EgressShaper_Refill. repeat case_match; done. Qed.

Lemma Refill_last s now : last_us (EgressShaper_Refill s now) = now.
Proof. unfold EgressShaper_Refill. repeat case_match; done. Qed.

Lemma shaper_wf_TryConsume s bits :
  shaper_wf s → 0 ≤ bits → shaper_wf (EgressShaper_TryConsume s bits).2.
Proof.
  intros [] Hb. unfold EgressShaper_TryConsume, charged. case_tests; simpl; try done;
    constructor; simpl; shaper_unfold; lia.
Qed.

(** ** Traces *)

(** What the hub does to one bucket: refill it at a clock reading, ask it for
    bits, or retune it to a new rate. *)
Inductive shaper_op :=
| OpRefill (now_us : Z)
| OpConsume (bits : Z)
| OpSetRate (rate : Z).

(** One operation: the bits charged for a grant and the next state.  At rate 0
    the bucket is out of use: every request is granted and none is charged. *)
Definition shaper_step (s : EgressShaper) (op : shaper_op) : Z * EgressShaper :=
  match op with
  | OpRefill now => (0, EgressShaper_Refill s now)
  | OpConsume bits =>
      let '(granted, s') := EgressShaper_TryConsume s bits in
      (if granted && negb (rate_bits_per_s s =? 0) then charged s bits else 0, s')
  | OpSetRate rate => (0, EgressShaper_SetRate s rate)
  end.

Fixpoint shaper_run (s : EgressShaper) (ops : list shaper_op) : Z * EgressShaper :=
  match ops with
  | [] => (0, s)
  | op :: ops' =>
      let '(g, s') := shaper_step s op in
      let '(gs, s'') := shaper_run s' ops' in
      (g + gs, s'')
  end.

(** The operands have the widths of the code's parameters. *)
Definition op_typed (op : shaper_op) : Prop :=
  match op with OpRefill t => is_u64 t | OpConsume bits => is_u64 bits | OpSetRate r => is_u32 r end.

(** What the rates in force yield over the time that passes, in millionths of a
    bit: every refill adds the rate of the moment times the microseconds since the
    reading before it, and nothing when the clock stood still or went back. *)
Fixpoint yield (rate last : Z) (ops : list shaper_op) : Z :=
  match ops with
  | [] => 0
  | OpRefill t :: ops' => rate * Z.max 0 (t - last) + yield rate t ops'
  | OpConsume _ :: ops' => yield rate last ops'
  | OpSetRate r :: ops' => yield r last ops'
  end.

(** The clock never runs backwards and no rate is above [rmax]. *)
Fixpoint steady (rmax now : Z) (ops : list shaper_op) : Prop :=
  match ops with
  | [] => True
  | OpRefill t :: ops' => now ≤ t ∧ steady rmax t ops'
  | OpConsume _ :: ops' => steady rmax now ops'
  | OpSetRate r :: ops' => r ≤ rmax ∧ steady rmax now ops'
  end.

Lemma Consume_frame s bits : let s' := (EgressShaper_TryConsume s bits).2 in
  rate_bits_per_s s' = rate_bits_per_s s ∧ last_us s' = last_us s.
Proof. unfold EgressShaper_TryConsume. by repeat case_match. Qed.

Lemma shaper_step_bound s op ops :
  shaper_wf s → op_typed op →
  let '(g, s') := shaper_step s op in
  g * MICROSECONDS_PER_SECOND + level s' + yield (rate_bits_per_s s') (last_us s') ops ≤
    level s + yield (rate_bits_per_s s) (last_us s) (op :: ops) ∧ shaper_wf s'.
Proof.
  intros Hwf Hop. pose proof Hwf as [Hr Ht Hbu Hm Hl]. destruct op as [now|bits|rate]; simpl in *.
  - rewrite Refill_last, Refill_rate. split; [|by apply shaper_wf_Refill].
    destruct (Z.le_gt_cases (last_us s) now).
    + pose proof (Refill_level s now Hwf Hop ltac:(done)). rewrite Z.max_r by lia. lia.
    + rewrite Refill_idle, Z.max_l by lia. unfold level. simpl. lia.
  - assert (0 ≤ bits) as Hb by (ranges; lia). pose proof (shaper_wf_TryConsume s bits Hwf Hb) as Hwf'.
    destruct (Consume_frame s bits) as [Hrate Hlast]. revert Hrate Hlast Hwf'. unfold EgressShaper_TryConsume.
    destruct (Z.eqb_spec (rate_bits_per_s s) 0); [simpl; intros _ _ _; split; [lia|done]|].
    destruct (Z.ltb_spec (tokens_bits s) (charged s bits)); simpl; intros _ _ Hwf'; (split; [|done]); shaper_unfold; simpl; lia.
  - pose proof (SetRate_level s rate Hwf). split; [lia|by apply shaper_wf_SetRate].
Qed.

Lemma shaper_run_bound s ops :
  shaper_wf s → Forall op_typed ops →
  let '(paid, s') := shaper_run s ops in
  paid * MICROSECONDS_PER_SECOND + level s' ≤ level s + yield (rate_bits_per_s s) (last_us s) ops ∧ shaper_wf s'.
Proof.
  intros Hwf Hops. revert s Hwf. induction Hops as [|op ops Hop _ IH]; intros s Hwf; cbn [shaper_run].
  { cbn [yield]. split; [lia|done]. }
  pose proof (shaper_step_bound s op ops Hwf Hop) as Hstep. destruct (shaper_step s op) as [g s'].
  destruct Hstep as [Hg Hwf']. specialize (IH s' Hwf'). destruct (shaper_run s' ops) as [gs s''].
  destruct IH as [Hgs Hwf'']. split; [lia|done].
Qed.

(** With a clock that does not go back, what the rates yield is at most the
    highest of them over the time from the first reading to the last. *)
Lemma yield_steady rmax ops s :
  0 ≤ rate_bits_per_s s ≤ rmax → Forall op_typed ops → steady rmax (last_us s) ops →
  yield (rate_bits_per_s s) (last_us s) ops ≤ rmax * (last_us (shaper_run s ops).2 - last_us s).
Proof.
  intros Hr Hops. revert s Hr. induction Hops as [|op ops Hop _ IH]; intros s Hr Hst; cbn [shaper_run].
  { simpl. lia. }
  destruct op as [now|bits|rate]; cbn [shaper_step steady yield op_typed] in *.
  - specialize (IH (EgressShaper_Refill s now)). rewrite Refill_rate, Refill_last in IH. destruct (shaper_run _ ops) as [gs s'']. cbn [snd] in *.
    destruct Hst as [Hle Hst]. specialize (IH Hr Hst). rewrite Z.max_r by lia. nia.
  - destruct (Consume_frame s bits) as [Hrate Hlast]. destruct (EgressShaper_TryConsume s bits) as [granted s']. cbn [snd] in *.
    specialize (IH s'). rewrite Hrate, Hlast in IH. destruct (shaper_run s' ops) as [gs s'']. by apply IH.
  - destruct Hst as [Hle Hst]. specialize (IH (EgressShaper_SetRate s rate)). destruct (shaper_run _ ops) as [gs s'']. apply IH; [|done]. simpl. ranges; lia.
Qed.

(** C32: pacing is a rate bound.  Over any trace of refills, requests and
    retunings, rate 0 and clocks that go back included, the bits charged never
    exceed what the bucket held at the start plus what the rates in force yield
    over the time that passes; with a clock that does not go back that is at most
    the highest rate over the elapsed time.  A grant is charged its bits, a
    request larger than the bucket the whole bucket; at rate 0, which the header
    gives as unpaced, nothing is charged and nothing is yielded.  No counter
    wraps and the bucket stays well formed. *)
Theorem shaper_never_exceeds_rate s ops :
  shaper_wf s → Forall op_typed ops →
  let '(paid, s') := shaper_run s ops in
  paid * MICROSECONDS_PER_SECOND + level s' ≤ level s + yield (rate_bits_per_s s) (last_us s) ops ∧
  0 ≤ level s' ∧ shaper_wf s' ∧
  ∀ rmax, rate_bits_per_s s ≤ rmax → steady rmax (last_us s) ops →
    paid * MICROSECONDS_PER_SECOND + level s' ≤ level s + rmax * (last_us s' - last_us s).
Proof.
  intros Hwf Hops. pose proof (shaper_run_bound s ops Hwf Hops) as Hrun. pose proof (λ rmax, yield_steady rmax ops s) as Hyield.
  destruct (shaper_run s ops) as [paid s']. destruct Hrun as [Hb Hwf']. split_and!; [done| |done|].
  - destruct Hwf'. shaper_unfold. lia.
  - intros rmax Hr Hst. specialize (Hyield rmax). cbn [snd] in Hyield. destruct Hwf. ranges. specialize (Hyield ltac:(lia) Hops Hst). lia.
Qed.

(** A bucket that is used, retuned, taken out of use and back, under a clock that goes back once. *)
Definition worn : list shaper_op :=
  [OpConsume 8000; OpConsume 500; OpRefill 700; OpConsume 500; OpSetRate 250000; OpRefill 900; OpConsume 400; OpRefill 600;
   OpSetRate 0; OpConsume 100000; OpSetRate 500000; OpRefill 1600; OpConsume 400].

Lemma shaper_never_exceeds_rate_witness :
  let s := EgressShaper_Init 0 500000 8192 in
  (shaper_run s worn).1 = 8900 ∧
  8900 * MICROSECONDS_PER_SECOND + level (shaper_run s worn).2 ≤ level s + (500000 * 700 + 250000 * 200 + 500000 * 1000).
Proof.
  intros s. assert (shaper_wf s) as Hwf by (apply shaper_wf_Init; vm_compute; intuition discriminate).
  assert (Forall op_typed worn) as Hops by (repeat (apply Forall_cons_2; [vm_compute; intuition discriminate|]); apply Forall_nil_2).
  assert ((shaper_run s worn).1 = 8900) as Hpaid by (vm_compute; reflexivity).
  pose proof (shaper_never_exceeds_rate s worn Hwf Hops) as H.
  destruct (shaper_run s worn) as [paid s'] eqn:E. cbn [fst snd] in *. subst paid. split; [reflexivity|]. exact (proj1 H).
Defined.

(** Waiting as long as the bucket says is enough.  After a refill that many
    microseconds later, the request is granted. *)
Theorem shaper_delay_is_enough s bits :
  shaper_wf s → 0 ≤ bits ≤ burst_limit → is_u64 (last_us s + EgressShaper_DelayUs s bits) →
  (EgressShaper_TryConsume (EgressShaper_Refill s (last_us s + EgressShaper_DelayUs s bits)) bits).1 = true.
Proof.
  intros Hwf Hb. pose proof Hwf as [Hr Ht Hbu Hm Hl]. unfold EgressShaper_DelayUs.
  destruct (Z.eqb_spec (rate_bits_per_s s) 0) as [Hz|Hz]; cbn [orb].
  { intros _. unfold EgressShaper_TryConsume. by rewrite Refill_rate, Hz. }
  unfold EgressShaper_TryConsume, charged.
  destruct (Z.geb_spec (tokens_bits s) bits) as [Hge|Hlt].
  { intros _. rewrite Z.add_0_r, Refill_idle by lia. simpl. case_tests; simpl; done || lia. }
  rewrite (u64_id (bits - tokens_bits s)) by (shaper_unfold; lia).
  rewrite (u64_id (_ * _ + _ - _)) by (shaper_unfold; lia).
  set (r := rate_bits_per_s s) in *. set (def := bits - tokens_bits s).
  set (d := (def * MICROSECONDS_PER_SECOND + r - 1) / r). intros Hu.
  assert (def * 1000000 ≤ r * d) as Hd.
  { pose proof (Z.mul_succ_div_gt (def * MICROSECONDS_PER_SECOND + r - 1) r ltac:(shaper_unfold; lia)) as Hg.
    fold d in Hg. shaper_unfold. lia. }
  assert (0 < d) as Hdpos by (shaper_unfold; nia).
  rewrite Refill_rate, Refill_burst. fold r. rewrite (proj2 (Z.eqb_neq _ _) Hz).
  rewrite Refill_exact by (shaper_unfold; lia || done). cbv zeta.
  replace (last_us s + d - last_us s) with d by lia. fold r.
  assert (bits ≤ tokens_bits s + (r * d + remainder s) / 1000000) as Hrefilled.
  { assert (def ≤ (r * d + remainder s) / 1000000); [|lia]. apply Z.div_le_lower_bound; shaper_unfold; lia. }
  case_tests; simpl in *; try done; exfalso; lia.
Qed.

Lemma shaper_delay_is_enough_witness :
  let s := Build_EgressShaper 333333 100 8192 7 1000 in
  EgressShaper_DelayUs s 1200 = 3301 ∧
  (EgressShaper_TryConsume (EgressShaper_Refill s (1000 + EgressShaper_DelayUs s 1200)) 1200).1 = true.
Proof.
  split; [vm_compute; reflexivity|].
  apply (shaper_delay_is_enough (Build_EgressShaper 333333 100 8192 7 1000) 1200);
    [constructor|..]; vm_compute; intuition discriminate.
Defined.
