(* ===== verification/ReconnectBackoff.v ===== *)
(** * Reconnect backoff (src/shared/reconnect_backoff.c)

    The delay between connection attempts of the agent and of the mirror:
    doubled after each attempt, capped, and reset by a successful connection.
    The doubling is 32-bit. *)

From S2P Require Import Prelude.

Record ReconnectBackoff := {
  initial_delay_ms : Z;
  max_delay_ms : Z;
  current_delay_ms : Z;
}.

Definition RECONNECT_DEFAULT_INITIAL_DELAY_MS : Z := 1000.
Definition RECONNECT_DEFAULT_MAX_DELAY_MS : Z := 60000.
Definition BACKOFF_FACTOR : Z := 2.

Definition ReconnectBackoff_Init (initial_ms max_ms : Z) : ReconnectBackoff :=
  {| initial_delay_ms := initial_ms; max_delay_ms := max_ms; current_delay_ms := initial_ms |}.

Definition ReconnectBackoff_Reset (self : ReconnectBackoff) : ReconnectBackoff :=
  {| initial_delay_ms := initial_delay_ms self; max_delay_ms := max_delay_ms self;
     current_delay_ms := initial_delay_ms self |}.

Definition ReconnectBackoff_NextDelayMs (self : ReconnectBackoff) : Z * ReconnectBackoff :=
  let delay_ms := current_delay_ms self in
  let doubled := u32 (current_delay_ms self * BACKOFF_FACTOR) in
  (delay_ms,
   {| initial_delay_ms := initial_delay_ms self; max_delay_ms := max_delay_ms self;
      current_delay_ms := if doubled >? max_delay_ms self then max_delay_ms self else doubled |}).

(** The first [n] delays handed out. *)
Fixpoint backoff_delays (n : nat) (self : ReconnectBackoff) : list Z :=
  match n with
  | O => []
  | S n' => let '(d, self') := ReconnectBackoff_NextDelayMs self in d :: backoff_delays n' self'
  end.

Lemma backoff_delays_from n s :
  0 < initial_delay_ms s ≤ max_delay_ms s → max_delay_ms s < 2147483648 →
  0 < current_delay_ms s ≤ max_delay_ms s →
  backoff_delays n s =
    (λ k, Z.min (current_delay_ms s * 2 ^ Z.of_nat k) (max_delay_ms s)) <$> seq 0 n.
Proof.
  revert s. induction n as [|n IH]; intros s Hi Hm Hc; simpl; [done|].
  f_equal; [rewrite Z.mul_1_r; lia|].
  rewrite IH; simpl; rewrite ?u32_id by (unfold BACKOFF_FACTOR; lia); try (unfold BACKOFF_FACTOR; case_tests; lia).
  rewrite <- fmap_S_seq, <- list_fmap_compose. apply list_fmap_ext. intros i k _. simpl.
  rewrite Nat2Z.inj_succ, Z.pow_succ_r by lia. unfold BACKOFF_FACTOR.
  assert (0 < 2 ^ Z.of_nat k) by (apply Z.pow_pos_nonneg; lia).
  case_tests; [|lia]. rewrite !Z.min_r; [done|..]; nia.
Qed.

(** the delays after a (re)set are [initial * 2^k] capped at the maximum,
    for any maximum whose double fits 32 bits. *)
Theorem backoff_sequence s n :
  0 < initial_delay_ms s ≤ max_delay_ms s → max_delay_ms s < 2147483648 →
  backoff_delays n (ReconnectBackoff_Reset s) =
    (λ k, Z.min (initial_delay_ms s * 2 ^ Z.of_nat k) (max_delay_ms s)) <$> seq 0 n.
Proof. intros Hi Hm. by rewrite backoff_delays_from. Qed.

Lemma backoff_sequence_witness :
  backoff_delays 8 (ReconnectBackoff_Reset (ReconnectBackoff_Init RECONNECT_DEFAULT_INITIAL_DELAY_MS RECONNECT_DEFAULT_MAX_DELAY_MS))
  = [1000; 2000; 4000; 8000; 16000; 32000; 60000; 60000].
Proof.
  rewrite (backoff_sequence (ReconnectBackoff_Init RECONNECT_DEFAULT_INITIAL_DELAY_MS RECONNECT_DEFAULT_MAX_DELAY_MS) 8).
  - vm_compute. reflexivity.
  - vm_compute. intuition discriminate.
  - vm_compute. reflexivity.
Defined.
