(* ===== verification/Wire.v ===== *)
(** * Wire primitives and the message header
    (src/protocol/wire.c, src/protocol/message_header.c)

    A pointer into a buffer is the buffer and an offset.  Stores are the byte
    stores of the code; [Wire_Write*] are shown to be block stores of the
    little-endian digits, and [Wire_Read*] to recover them, so that codec proofs
    only reason about disjoint blocks ([slice] and [list_inserts]). *)

From S2P Require Import Prelude.

Definition BYTE_MASK : Z := 255.
Definition BITS_PER_BYTE : Z := 8.

Definition Wire_WriteU16 (buffer : list Z) (off : nat) (value : Z) : list Z :=
  let buffer := <[off := u8 (Z.land value BYTE_MASK)]> buffer in
  <[(off + 1)%nat := u8 (Z.land (Z.shiftr value BITS_PER_BYTE) BYTE_MASK)]> buffer.

Definition Wire_WriteU32 (buffer : list Z) (off : nat) (value : Z) : list Z :=
  let buffer := Wire_WriteU16 buffer off (u16 (Z.land value 65535)) in
  Wire_WriteU16 buffer (off + 2) (u16 (Z.shiftr value 16)).

Definition Wire_WriteU64 (buffer : list Z) (off : nat) (value : Z) : list Z :=
  let buffer := Wire_WriteU32 buffer off (u32 (Z.land value 4294967295)) in
  Wire_WriteU32 buffer (off + 4) (u32 (Z.shiftr value 32)).

Definition Wire_ReadU16 (buffer : list Z) (off : nat) : Z :=
  u16 (Z.lor (buffer !!! off) (Z.shiftl (buffer !!! (off + 1)%nat) BITS_PER_BYTE)).

Definition Wire_ReadU32 (buffer : list Z) (off : nat) : Z :=
  Z.lor (Wire_ReadU16 buffer off) (Z.shiftl (Wire_ReadU16 buffer (off + 2)) 16).

Definition Wire_ReadU64 (buffer : list Z) (off : nat) : Z :=
  Z.lor (Wire_ReadU32 buffer off) (Z.shiftl (Wire_ReadU32 buffer (off + 4)) 32).

Notation MESSAGE_HEADER_SIZE := 4%nat (only parsing).

Record MessageHeader := {
  header_type : Z;
  header_flags : Z;
  header_length : Z;
}.

Definition kMESSAGE_TYPE_PING : Z := 127.
Definition kMESSAGE_TYPE_MAX : Z := 128.

(** [MessageHeader_Encode]: the bytes written and the buffer; [buffer_size] is the buffer's length. *)
Definition MessageHeader_Encode (self : MessageHeader) (buffer : list Z) : nat * list Z :=
  if Nat.ltb (length buffer) MESSAGE_HEADER_SIZE then (0%nat, buffer)
  else
    let buffer := <[0%nat := header_type self]> buffer in
    let buffer := <[1%nat := header_flags self]> buffer in
    let buffer := Wire_WriteU16 buffer 2 (header_length self) in
    (MESSAGE_HEADER_SIZE, buffer).

Definition MessageHeader_Decode (buffer : list Z) : option MessageHeader :=
  if Nat.ltb (length buffer) MESSAGE_HEADER_SIZE then None
  else
    Some {| header_type := buffer !!! 0%nat; header_flags := buffer !!! 1%nat;
            header_length := Wire_ReadU16 buffer 2 |}.

(** ** Blocks of a buffer *)

(** [n] bytes from offset [off]. *)
Definition slice (off n : nat) (buf : list Z) : list Z := take n (drop off buf).

(** [memset(buffer + off, 0, n)] *)
Definition zero_at (off n : nat) (buf : list Z) : list Z := list_inserts off (replicate n 0) buf.

(** Little-endian digits, least significant first. *)
Fixpoint le_bytes (n : nat) (v : Z) : list Z :=
  match n with O => [] | S n' => v mod 256 :: le_bytes n' (v / 256) end.

Fixpoint le_value (bs : list Z) : Z :=
  match bs with [] => 0 | b :: bs' => b + 256 * le_value bs' end.

Definition bytes (l : list Z) : Prop := Forall is_u8 l.

#[export] Instance bytes_dec l : Decision (bytes l).
Proof. unfold bytes. apply _. Defined.

Lemma length_le_bytes n v : length (le_bytes n v) = n.
Proof. revert v. induction n; intros; simpl; auto. Qed.

Lemma le_value_bytes n v : 0 ≤ v < 256 ^ Z.of_nat n → le_value (le_bytes n v) = v.
Proof.
  revert v. induction n as [|n IH]; intros v Hv; simpl.
  - change (256 ^ Z.of_nat 0) with 1 in Hv. lia.
  - rewrite Nat2Z.inj_succ, Z.pow_succ_r in Hv by lia.
    rewrite IH.
    + pose proof (Z.div_mod v 256). lia.
    + split; [apply Z.div_pos; lia|]. apply Z.div_lt_upper_bound; lia.
Qed.

Lemma bytes_le_bytes n v : bytes (le_bytes n v).
Proof.
  revert v. induction n as [|n IH]; intros v; simpl; constructor; [|apply IH].
  apply Z.mod_pos_bound. lia.
Qed.

Lemma length_slice off n buf : (off + n ≤ length buf)%nat → length (slice off n buf) = n.
Proof. intros. unfold slice. rewrite length_take, length_drop. lia. Qed.

Lemma lookup_slice off n buf i : (i < n)%nat → slice off n buf !! i = buf !! (off + i)%nat.
Proof. intros. unfold slice. rewrite lookup_take_lt by lia. by rewrite lookup_drop. Qed.

Lemma lookup_total_slice off n buf i : (i < n)%nat → slice off n buf !!! i = buf !!! (off + i)%nat.
Proof. intros. rewrite !list_lookup_total_alt. by rewrite lookup_slice. Qed.

Lemma slice_slice a n b m buf : (a + n ≤ m)%nat → slice a n (slice b m buf) = slice (b + a) n buf.
Proof.
  intros Hle. unfold slice. apply list_eq. intros i.
  destruct (decide (i < n)%nat).
  - rewrite !lookup_take_lt by lia. rewrite lookup_drop, lookup_take_lt by lia.
    rewrite !lookup_drop. f_equal. lia.
  - rewrite !lookup_take_ge by lia. done.
Qed.

Lemma slice_all buf n : length buf = n → slice 0 n buf = buf.
Proof. intros <-. unfold slice. rewrite drop_0. by rewrite firstn_all. Qed.

Lemma slice_inserts_eq off d buf n :
  length d = n → (off + n ≤ length buf)%nat → slice off n (list_inserts off d buf) = d.
Proof.
  intros <- Hle. apply list_eq. intros i. destruct (decide (i < length d)%nat).
  - rewrite lookup_slice by lia. rewrite list_lookup_inserts by lia. f_equal. lia.
  - rewrite !lookup_ge_None_2; [done|lia|]. rewrite length_slice; [lia|]. by rewrite length_inserts.
Qed.

Lemma slice_inserts_ne off n off' d buf :
  (off' + length d ≤ off ∨ off + n ≤ off')%nat →
  slice off n (list_inserts off' d buf) = slice off n buf.
Proof.
  intros Hdis. apply list_eq. intros i. destruct (decide (i < n)%nat) as [Hi|Hi].
  - rewrite !lookup_slice by lia.
    destruct Hdis; [apply list_lookup_inserts_ge|apply list_lookup_inserts_lt]; lia.
  - unfold slice. rewrite !lookup_take_ge by lia. done.
Qed.

(** A block inside a larger block that was just written. *)
Lemma slice_inserts_in off n off' d buf :
  (off' ≤ off)%nat → (off + n ≤ off' + length d)%nat → (off' + length d ≤ length buf)%nat →
  slice off n (list_inserts off' d buf) = slice (off - off') n d.
Proof.
  intros Hlo Hhi Hb. apply list_eq. intros i. destruct (decide (i < n)%nat) as [Hi|Hi].
  - rewrite !lookup_slice by lia. rewrite list_lookup_inserts by lia. f_equal. lia.
  - unfold slice. rewrite !lookup_take_ge by lia. done.
Qed.

Lemma slice_replicate off n m (x : Z) : (off + n ≤ m)%nat → slice off n (replicate m x) = replicate n x.
Proof. intros. unfold slice. rewrite drop_replicate, take_replicate. f_equal. lia. Qed.

Lemma slice_insert_ne off n i v buf :
  (i < off ∨ off + n ≤ i)%nat → slice off n (<[i := v]> buf) = slice off n buf.
Proof. intros. change (<[i := v]> buf) with (list_inserts i [v] buf). apply slice_inserts_ne. simpl. lia. Qed.

Lemma lookup_total_inserts_ne i off d (buf : list Z) :
  (i < off ∨ off + length d ≤ i)%nat → list_inserts off d buf !!! i = buf !!! i.
Proof.
  intros. rewrite !list_lookup_total_alt. f_equal.
  destruct (decide (i < off)%nat); [apply list_lookup_inserts_lt|apply list_lookup_inserts_ge]; lia.
Qed.

Lemma lookup_total_inserts_in i off d (buf : list Z) :
  (off ≤ i)%nat → (i < off + length d)%nat → (off + length d ≤ length buf)%nat →
  list_inserts off d buf !!! i = d !!! (i - off)%nat.
Proof. intros. rewrite !list_lookup_total_alt. by rewrite list_lookup_inserts by lia. Qed.

Lemma length_zero_at off n buf : length (zero_at off n buf) = length buf.
Proof. apply length_inserts. Qed.

(** ** Byte stores and loads as little-endian blocks *)

Lemma land_255 v : Z.land v 255 = v mod 256.
Proof. change 255 with (Z.ones 8). by rewrite Z.land_ones. Qed.
Lemma land_65535 v : Z.land v 65535 = v mod 65536.
Proof. change 65535 with (Z.ones 16). by rewrite Z.land_ones. Qed.
Lemma land_4294967295 v : Z.land v 4294967295 = v mod 4294967296.
Proof. change 4294967295 with (Z.ones 32). by rewrite Z.land_ones. Qed.

(** Joining disjoint bit ranges is addition. *)
Lemma lor_shiftl_add a b n : 0 ≤ n → 0 ≤ a < 2 ^ n → Z.lor a (Z.shiftl b n) = a + 2 ^ n * b.
Proof.
  intros Hn Ha. rewrite Z.shiftl_mul_pow2 by done.
  rewrite <- Z.lxor_lor, <- Z.add_nocarry_lxor; [lia|..].
  all: apply Z.bits_inj'; intros k Hk; rewrite Z.land_spec, Z.bits_0;
    destruct (decide (k < n)) as [Hlt|Hge];
    [rewrite (Z.mul_pow2_bits_low b n k) by lia; apply andb_false_r|
     rewrite (Z.testbit_eqb a k) by lia; rewrite Z.div_small;
       [done|split; [lia|]; eapply Z.lt_le_trans; [apply Ha|]; apply Z.pow_le_mono_r; lia]].
Qed.

Lemma Wire_WriteU16_le buf off v : is_u16 v → Wire_WriteU16 buf off v = list_inserts off (le_bytes 2 v) buf.
Proof.
  intros Hv. unfold Wire_WriteU16, BYTE_MASK, BITS_PER_BYTE. ranges. rewrite !land_255.
  rewrite Z.shiftr_div_pow2 by lia. change (2 ^ 8) with 256. unfold u8.
  rewrite !Zmod_mod. simpl. rewrite Nat.add_1_r.
  rewrite list_insert_insert_ne by lia. done.
Qed.

Lemma le_bytes_app n m v : le_bytes (n + m) v = le_bytes n v ++ le_bytes m (v / 256 ^ Z.of_nat n).
Proof.
  revert v. induction n as [|n IH]; intros v; simpl.
  - by rewrite Z.div_1_r.
  - f_equal. rewrite IH. f_equal. f_equal. rewrite Nat2Z.inj_succ, Z.pow_succ_r by lia.
    apply Z.div_div; [lia|]. apply Z.pow_pos_nonneg; lia.
Qed.

Lemma le_bytes_mod n v : le_bytes n (v mod 256 ^ Z.of_nat n) = le_bytes n v.
Proof.
  revert v. induction n as [|n IH]; intros v; simpl; [done|].
  rewrite Nat2Z.inj_succ, Z.pow_succ_r by lia.
  assert (0 < 256 ^ Z.of_nat n) by (apply Z.pow_pos_nonneg; lia).
  rewrite Z.rem_mul_r by lia. f_equal.
  - rewrite Z.mul_comm, Z_mod_plus_full. by rewrite Zmod_mod.
  - rewrite <- (IH (v / 256)). f_equal.
    rewrite Z.mul_comm, Z.div_add by lia.
    rewrite (Z.div_small (v mod 256)); [lia|]. apply Z.mod_pos_bound. lia.
Qed.

Lemma inserts_inserts_app off d1 d2 (buf : list Z) :
  list_inserts (off + length d1) d2 (list_inserts off d1 buf) = list_inserts off (d1 ++ d2) buf.
Proof.
  apply list_eq. intros i.
  destruct (decide (off + length d1 ≤ i < off + length d1 + length d2)%nat) as [Hin|Hout].
  - destruct (decide (i < length buf)%nat) as [Hb|Hb].
    + rewrite !list_lookup_inserts by (rewrite ?length_inserts, ?length_app; lia).
      rewrite lookup_app_r by lia. f_equal. lia.
    + rewrite !lookup_ge_None_2; rewrite ?length_inserts; done || lia.
  - destruct (decide (i < off + length d1)%nat) as [Hlt|Hge].
    + rewrite list_lookup_inserts_lt by lia.
      destruct (decide (i < off)%nat); [by rewrite !list_lookup_inserts_lt by lia|].
      destruct (decide (i < length buf)%nat) as [Hb|Hb].
      * rewrite !list_lookup_inserts by (rewrite ?length_app; lia). by rewrite lookup_app_l by lia.
      * rewrite !lookup_ge_None_2; rewrite ?length_inserts; done || lia.
    + rewrite !list_lookup_inserts_ge by (rewrite ?length_app; lia). done.
Qed.

Lemma Wire_WriteU32_le buf off v : is_u32 v → Wire_WriteU32 buf off v = list_inserts off (le_bytes 4 v) buf.
Proof.
  intros Hv. unfold Wire_WriteU32. rewrite land_65535, Z.shiftr_div_pow2 by lia. change (2 ^ 16) with 65536.
  assert (0 ≤ v / 65536 < 65536) as Hhi.
  { split; [apply Z.div_pos; zlia|]. apply Z.div_lt_upper_bound; zlia. }
  pose proof (Z.mod_pos_bound v 65536 ltac:(lia)) as Hlo.
  rewrite (u16_id (v mod 65536)), (u16_id (v / 65536)) by done.
  rewrite !Wire_WriteU16_le by done.
  change 65536 with (256 ^ Z.of_nat 2). rewrite le_bytes_mod.
  rewrite <- (length_le_bytes 2 v) at 1. rewrite inserts_inserts_app.
  by rewrite <- (le_bytes_app 2 2).
Qed.

Lemma Wire_WriteU64_le buf off v : is_u64 v → Wire_WriteU64 buf off v = list_inserts off (le_bytes 8 v) buf.
Proof.
  intros Hv. unfold Wire_WriteU64. rewrite land_4294967295, Z.shiftr_div_pow2 by lia.
  change (2 ^ 32) with 4294967296.
  assert (0 ≤ v / 4294967296 < 4294967296) as Hhi.
  { split; [apply Z.div_pos; zlia|]. apply Z.div_lt_upper_bound; zlia. }
  pose proof (Z.mod_pos_bound v 4294967296 ltac:(lia)) as Hlo.
  rewrite (u32_id (v mod 4294967296)), (u32_id (v / 4294967296)) by done.
  rewrite !Wire_WriteU32_le by done.
  change 4294967296 with (256 ^ Z.of_nat 4). rewrite le_bytes_mod.
  rewrite <- (length_le_bytes 4 v) at 1. rewrite inserts_inserts_app.
  by rewrite <- (le_bytes_app 4 4).
Qed.

Lemma slice_lookup_total off n buf i (bs : list Z) :
  slice off n buf = bs → (i < n)%nat → buf !!! (off + i)%nat = bs !!! i.
Proof. intros <- Hi. by rewrite lookup_total_slice. Qed.

Lemma Wire_ReadU16_slice buf off v :
  slice off 2 buf = le_bytes 2 v → is_u16 v → Wire_ReadU16 buf off = v.
Proof.
  intros Hs Hv. unfold Wire_ReadU16, BITS_PER_BYTE.
  pose proof (slice_lookup_total _ _ _ 0 _ Hs ltac:(lia)) as H0. rewrite Nat.add_0_r in H0.
  pose proof (slice_lookup_total _ _ _ 1 _ Hs ltac:(lia)) as H1. rewrite H0, H1. cbn.
  pose proof (Z.mod_pos_bound v 256 ltac:(lia)). rewrite lor_shiftl_add by (done || lia).
  change (2 ^ 8) with 256. rewrite (Z.mod_small (v / 256)).
  - pose proof (Z.div_mod v 256 ltac:(lia)). rewrite u16_id; zlia.
  - split; [apply Z.div_pos; zlia|]. apply Z.div_lt_upper_bound; zlia.
Qed.

(** Splitting a block read into its low and high halves. *)
Lemma slice_halves off n m buf v :
  slice off (n + m) buf = le_bytes (n + m) v →
  slice off n buf = le_bytes n (v mod 256 ^ Z.of_nat n) ∧
  slice (off + n) m buf = le_bytes m (v / 256 ^ Z.of_nat n).
Proof.
  rewrite le_bytes_app, le_bytes_mod. intros Hs. split.
  - replace (slice off n buf) with (slice 0 n (slice off (n + m) buf)).
    + rewrite Hs. unfold slice. rewrite drop_0, take_app_le, take_ge; rewrite ?length_le_bytes; done || lia.
    + rewrite slice_slice by lia. f_equal. lia.
  - replace (slice (off + n) m buf) with (slice n m (slice off (n + m) buf)).
    + rewrite Hs. unfold slice. rewrite drop_app_ge, take_ge; rewrite ?length_drop, ?length_le_bytes; try lia.
      by rewrite Nat.sub_diag, drop_0.
    + by rewrite slice_slice by lia.
Qed.

Lemma Wire_ReadU32_slice buf off v :
  slice off 4 buf = le_bytes 4 v → is_u32 v → Wire_ReadU32 buf off = v.
Proof.
  intros [Hlo Hhi]%(slice_halves off 2 2) Hv. change (256 ^ Z.of_nat 2) with 65536 in *. unfold Wire_ReadU32.
  pose proof (Z.mod_pos_bound v 65536 ltac:(lia)).
  rewrite (Wire_ReadU16_slice _ _ _ Hlo), (Wire_ReadU16_slice _ _ _ Hhi); [..|done].
  - rewrite lor_shiftl_add by (done || lia). change (2 ^ 16) with 65536. pose proof (Z.div_mod v 65536). lia.
  - split; [apply Z.div_pos; zlia|]. apply Z.div_lt_upper_bound; zlia.
Qed.

Lemma Wire_ReadU64_slice buf off v :
  slice off 8 buf = le_bytes 8 v → is_u64 v → Wire_ReadU64 buf off = v.
Proof.
  intros [Hlo Hhi]%(slice_halves off 4 4) Hv. change (256 ^ Z.of_nat 4) with 4294967296 in *. unfold Wire_ReadU64.
  pose proof (Z.mod_pos_bound v 4294967296 ltac:(lia)).
  rewrite (Wire_ReadU32_slice _ _ _ Hlo), (Wire_ReadU32_slice _ _ _ Hhi); [..|done].
  - rewrite lor_shiftl_add by (done || lia). change (2 ^ 32) with 4294967296.
    pose proof (Z.div_mod v 4294967296). lia.
  - split; [apply Z.div_pos; zlia|]. apply Z.div_lt_upper_bound; zlia.
Qed.
