(* ===== verification/Codec.v ===== *)
(** * The interface of a wire message

    Every message of the protocol is a header and a fixed-layout payload.  This
    file states once what a codec promises ([WireMessage], [WireMessageOk]) so
    that the framing and dispatch theorems are proved against the promise and
    each message file discharges it.  It also holds the store/load automation
    the codec proofs share. *)

From S2P Require Import Prelude CString Wire.

(** ** Starting a message: header, then a zeroed payload *)
Definition begin_message (type : Z) (body_size : nat) (buffer : list Z) : list Z :=
  let header := {| header_type := type; header_flags := 0; header_length := u16 (Z.of_nat body_size) |} in
  zero_at MESSAGE_HEADER_SIZE body_size (MessageHeader_Encode header buffer).2.

(** [memcpy(buffer + off, data, n)] *)
Definition copy_at (off : nat) (data : list Z) (buffer : list Z) : list Z := list_inserts off data buffer.

(** ** The codec interface *)
Class WireMessage (M : Type) := {
  wm_type : Z;                                  (** message type *)
  wm_size : M → nat;                            (** payload bytes *)
  wm_shape : M → Prop;                          (** array sizes of the C struct *)
  wm_valid : M → Prop;                          (** what the encoder accepts *)
  wm_encode : M → list Z → nat * list Z;        (** bytes written, buffer *)
  wm_decode : M → list Z → bool * M;            (** out parameter, payload *)
  wm_same : M → M → Prop;                       (** same content on the wire *)
}.

Class WireMessageOk (M : Type) `{WireMessage M} := {
  wm_type_u8 : is_u8 (wm_type (M := M));
  (** Every message fits the receiver's reassembly buffer. *)
  wm_size_fits (m : M) : wm_valid m → (MESSAGE_HEADER_SIZE + wm_size m ≤ 4096)%nat;
  (** The encoder accepts a valid message in a large enough buffer, writes
      exactly header and payload, and any decoder gives the content back. *)
  wm_encode_ok (m : M) (buf : list Z) :
    wm_valid m → (MESSAGE_HEADER_SIZE + wm_size m ≤ length buf)%nat →
    ∃ buf', wm_encode m buf = ((MESSAGE_HEADER_SIZE + wm_size m)%nat, buf') ∧
      length buf' = length buf ∧
      MessageHeader_Decode buf' =
        Some {| header_type := wm_type (M := M); header_flags := 0; header_length := Z.of_nat (wm_size m) |} ∧
      drop (MESSAGE_HEADER_SIZE + wm_size m) buf' = drop (MESSAGE_HEADER_SIZE + wm_size m) buf ∧
      ∀ old, wm_shape old → ∃ m', wm_decode old (slice MESSAGE_HEADER_SIZE (wm_size m) buf') = (true, m') ∧ wm_same m m';
}.

(** ** Store/load lemmas *)

Lemma length_begin_message type n buf : length (begin_message type n buf) = length buf.
Proof.
  unfold begin_message, MessageHeader_Encode. rewrite length_zero_at. case_tests; simpl; [done|].
  unfold Wire_WriteU16. by rewrite !length_insert.
Qed.

Lemma length_copy_at off d buf : length (copy_at off d buf) = length buf.
Proof. apply length_inserts. Qed.

#[export] Hint Rewrite length_begin_message length_copy_at length_zero_at length_le_bytes : len.

Lemma slice_copy_eq off n d buf :
  length d = n → (off + n ≤ length buf)%nat → slice off n (copy_at off d buf) = d.
Proof. apply slice_inserts_eq. Qed.

Lemma slice_copy_ne off n off' d buf :
  (off' + length d ≤ off ∨ off + n ≤ off')%nat → slice off n (copy_at off' d buf) = slice off n buf.
Proof. apply slice_inserts_ne. Qed.

(** A short string stored at the start of a field. *)
Lemma slice_copy_prefix off n d buf :
  (length d ≤ n)%nat → (off + n ≤ length buf)%nat →
  slice off n (copy_at off d buf) = d ++ drop (length d) (slice off n buf).
Proof.
  intros Hd Hb. apply list_eq. intros i. unfold copy_at.
  destruct (decide (i < n)%nat) as [Hi|Hi].
  - rewrite lookup_slice by lia. destruct (decide (i < length d)%nat).
    + rewrite list_lookup_inserts by lia. rewrite lookup_app_l by lia. f_equal. lia.
    + rewrite list_lookup_inserts_ge by lia. rewrite lookup_app_r, lookup_drop by lia.
      rewrite lookup_slice by lia. f_equal. lia.
  - rewrite !lookup_ge_None_2; [done| |].
    + rewrite length_app, length_drop, length_slice by lia. lia.
    + rewrite length_slice by (rewrite length_inserts; lia). lia.
Qed.

Lemma slice_begin off n type body buf :
  (MESSAGE_HEADER_SIZE ≤ off)%nat → (off + n ≤ MESSAGE_HEADER_SIZE + body)%nat →
  (MESSAGE_HEADER_SIZE + body ≤ length buf)%nat →
  slice off n (begin_message type body buf) = replicate n 0.
Proof.
  intros Hlo Hhi Hb. unfold begin_message, zero_at.
  rewrite slice_inserts_in; rewrite ?length_replicate; try lia.
  - rewrite slice_replicate by lia. done.
  - pose proof (length_begin_message type body buf) as Hl. unfold begin_message in Hl.
    rewrite length_zero_at in Hl. rewrite Hl. done.
Qed.

(** The header of a message that was begun and then only written past byte 4. *)
Lemma MessageHeader_Decode_slice buf type n :
  (MESSAGE_HEADER_SIZE ≤ length buf)%nat → Z.of_nat n < 65536 →
  slice 0 4 buf = slice 0 4 (begin_message type n buf) →
  MessageHeader_Decode buf = Some {| header_type := type; header_flags := 0; header_length := Z.of_nat n |}.
Proof.
  intros Hb Hn Hs. unfold MessageHeader_Decode in *.
  replace (Nat.ltb (length buf) 4) with false by (symmetry; apply Nat.ltb_ge; lia).
  revert Hs. unfold begin_message, zero_at. rewrite slice_inserts_ne by (right; lia).
  unfold MessageHeader_Encode. simpl.
  replace (Nat.ltb (length buf) 4) with false by (symmetry; apply Nat.ltb_ge; lia).
  simpl. rewrite u16_id by lia. rewrite Wire_WriteU16_le by zlia. intros Hs.
  assert (∀ i, (i < 4)%nat → buf !!! i = slice 0 4
     (list_inserts 2 (le_bytes 2 (Z.of_nat n)) (<[1%nat:=0]> (<[0%nat:=type]> buf))) !!! i) as Hi.
  { intros i Hi. rewrite <- Hs. by rewrite lookup_total_slice. }
  f_equal. f_equal.
  - rewrite (Hi 0%nat) by lia. rewrite lookup_total_slice by lia.
    rewrite lookup_total_inserts_ne by lia. rewrite list_lookup_total_insert_ne by lia.
    apply list_lookup_total_insert_eq. lia.
  - rewrite (Hi 1%nat) by lia. rewrite lookup_total_slice by lia.
    rewrite lookup_total_inserts_ne by lia.
    apply list_lookup_total_insert_eq. rewrite length_insert. lia.
  - apply Wire_ReadU16_slice; [|zlia].
    replace (slice 2 2 buf) with (slice 2 2 (slice 0 4 buf)) by (by rewrite slice_slice by lia).
    rewrite Hs, slice_slice by lia. apply slice_inserts_eq; [done|]. rewrite !length_insert. lia.
Qed.

Lemma drop_copy_at k off d buf : (off + length d ≤ k)%nat → drop k (copy_at off d buf) = drop k buf.
Proof.
  intros Hk. apply list_eq. intros i. rewrite !lookup_drop. unfold copy_at.
  apply list_lookup_inserts_ge. lia.
Qed.

Lemma drop_insert_lt k i v (buf : list Z) : (i < k)%nat → drop k (<[i := v]> buf) = drop k buf.
Proof. intros Hk. apply (drop_copy_at k i [v]). simpl. lia. Qed.

Lemma drop_begin_message k type n buf :
  (MESSAGE_HEADER_SIZE + n ≤ k)%nat → drop k (begin_message type n buf) = drop k buf.
Proof.
  intros Hk. unfold begin_message, zero_at.
  rewrite (drop_copy_at k 4) by (rewrite length_replicate; lia).
  unfold MessageHeader_Encode, Wire_WriteU16.
  case_tests; simpl; [done|]. by rewrite !drop_insert_lt by lia.
Qed.

(** The header of a begun message does not depend on the buffer's former content. *)
Lemma slice_begin_header type n buf buf' :
  length buf' = length buf →
  slice 0 4 (begin_message type n buf) = slice 0 4 buf' → (MESSAGE_HEADER_SIZE ≤ length buf)%nat →
  slice 0 4 buf' = slice 0 4 (begin_message type n buf').
Proof.
  intros Hl <- Hb. unfold begin_message, zero_at, MessageHeader_Encode in *.
  rewrite Hl. replace (Nat.ltb (length buf) 4) with false by (symmetry; apply Nat.ltb_ge; lia). simpl.
  rewrite !slice_inserts_ne by (right; lia). unfold Wire_WriteU16.
  destruct buf as [|a0 [|a1 [|a2 [|a3 buf]]]], buf' as [|b0 [|b1 [|b2 [|b3 buf']]]]; simpl in *; try lia.
  done.
Qed.

(** ** Fixed-size string fields *)

Definition padded (n : nat) (s : list Z) : list Z := s ++ replicate (n - length s) 0.

Lemma cstr_padded n s : 0 ∉ s → cstr (padded n s) = s.
Proof.
  intros Hs. unfold padded. destruct (n - length s)%nat as [|k]; simpl.
  - rewrite app_nil_r. by apply cstr_id.
  - by apply cstr_app_nul.
Qed.

(** Storing a string into a zeroed field and forcing the terminator reads the string back. *)
Lemma cstr_terminated n s :
  0 ∉ s → (length s ≤ n)%nat → cstr (<[n := 0]> (padded (S n) s)) = s.
Proof.
  intros Hs Hn. unfold padded.
  rewrite insert_app_r_alt by lia.
  replace (S n - length s)%nat with (S (n - length s)) by lia.
  replace (<[(n - length s)%nat := 0]> (replicate (S (n - length s)) 0)) with (replicate (S (n - length s)) 0).
  - simpl. by apply cstr_app_nul.
  - rewrite replicate_S_end.
    symmetry. apply list_insert_id. rewrite lookup_app_r by (rewrite length_replicate; lia).
    by rewrite length_replicate, Nat.sub_diag.
Qed.

(** ** Automation for codec proofs

    [stores] turns every store into a block store, [loads] reads a block through
    the stores after it, [load_byte] reads one byte. *)
Lemma WriteU16_copy buf off v : is_u16 v → Wire_WriteU16 buf off v = copy_at off (le_bytes 2 v) buf.
Proof. apply Wire_WriteU16_le. Qed.
Lemma WriteU32_copy buf off v : is_u32 v → Wire_WriteU32 buf off v = copy_at off (le_bytes 4 v) buf.
Proof. apply Wire_WriteU32_le. Qed.
Lemma WriteU64_copy buf off v : is_u64 v → Wire_WriteU64 buf off v = copy_at off (le_bytes 8 v) buf.
Proof. apply Wire_WriteU64_le. Qed.

Lemma insert_copy i v (buf : list Z) : <[i := v]> buf = copy_at i [v] buf.
Proof. done. Qed.

Lemma load_byte_slice i v (buf : list Z) : slice i 1 buf = [v] → buf !!! i = v.
Proof. intros Hs. pose proof (slice_lookup_total i 1 buf 0 [v] Hs ltac:(lia)) as H. by rewrite Nat.add_0_r in H. Qed.

Lemma drop_all_eq k (buf buf' : list Z) :
  (length buf ≤ k)%nat → length buf' = length buf → drop k buf' = drop k buf.
Proof. intros. by rewrite !drop_ge by lia. Qed.

Ltac codec_len := autorewrite with len; cbn [length]; lia.
Ltac stores :=
  rewrite ?WriteU64_copy, ?WriteU32_copy, ?WriteU16_copy by (zlia || done); rewrite ?insert_copy.
Ltac loads :=
  repeat first
    [ rewrite slice_copy_ne by codec_len
    | rewrite slice_copy_eq by codec_len
    | rewrite slice_slice by codec_len
    | rewrite slice_begin by codec_len
    | rewrite slice_replicate by codec_len
    | rewrite slice_copy_prefix by codec_len ].
Ltac drops := repeat first [rewrite drop_copy_at by codec_len | rewrite drop_begin_message by codec_len].
Ltac load_field :=
  lazymatch goal with
  | |- Wire_ReadU16 _ _ = _ => apply Wire_ReadU16_slice; [loads; try done|try zlia; try done]
  | |- Wire_ReadU32 _ _ = _ => apply Wire_ReadU32_slice; [loads; try done|try zlia; try done]
  | |- Wire_ReadU64 _ _ = _ => apply Wire_ReadU64_slice; [loads; try done|try zlia; try done]
  | |- _ !!! _ = _ => apply load_byte_slice; loads; try done
  end.

(** Splits conjunctions without reducing what they are about. *)
Ltac conjuncts := repeat lazymatch goal with |- _ ∧ _ => split end.

(** One field of the decoded message: the stored value itself, or a load from the payload [p]. *)
Ltac field_back p :=
  lazymatch goal with
  | |- ?x = ?x => reflexivity
  | |- take _ _ = _ => idtac
  | |- cstr _ = _ => idtac
  | |- _ => subst p; load_field
  end.

(** The header of a message written over a begun buffer. *)
Ltac header_ok type body buf :=
  apply (MessageHeader_Decode_slice _ type body); [codec_len|lia|];
  apply (slice_begin_header type body buf); [codec_len| |lia]; loads; done.

(** The fields of an entry as blocks of its image. *)
Lemma slice_field p o n image off k : slice o n p = image → (off + k ≤ n)%nat → slice (o + off) k p = slice off k image.
Proof. intros <- Hle. by rewrite slice_slice. Qed.

(** A block as two adjacent blocks. *)
Lemma slice_split off n m buf : (off + (n + m) ≤ length buf)%nat →
  slice off (n + m) buf = slice off n buf ++ slice (off + n) m buf.
Proof.
  intros Hb. unfold slice. rewrite <- (take_drop n (take (n + m) (drop off buf))) at 1.
  rewrite take_take, Nat.min_l by lia. f_equal.
  rewrite <- (take_drop_commute (drop off buf) m n). by rewrite drop_drop.
Qed.

Lemma Forall2_eq_eq {A} (l l' : list A) : Forall2 (λ x y, y = x) l l' → l' = l.
Proof. induction 1; congruence. Qed.

(** Overwriting the head of an array. *)
Lemma take_list_inserts {A} (l l' : list A) n :
  length l = n → (n ≤ length l')%nat → take n (list_inserts 0 l l') = l.
Proof.
  intros <- Hl. apply list_eq. intros i. destruct (decide (i < length l)%nat).
  - rewrite lookup_take_lt by lia. rewrite list_lookup_inserts by lia. by rewrite Nat.sub_0_r.
  - rewrite lookup_take_ge, lookup_ge_None_2 by lia. done.
Qed.

(** ** Arrays of entries

    The loops that store or load [count] fixed-size entries of a payload. *)
Fixpoint write_entries {E} (w : list Z → nat → E → list Z) (esize off : nat) (es : list E) (buf : list Z) : list Z :=
  match es with
  | [] => buf
  | e :: es' => write_entries w esize (off + esize) es' (w buf off e)
  end.

Definition read_entries {E} (r : list Z → nat → E) (esize off count : nat) (payload : list Z) : list E :=
  (λ i, r payload (off + i * esize)%nat) <$> seq 0 count.

(** What an entry writer promises: it stays inside its block, and over a zeroed
    block it stores the entry's image. *)
Class EntryLength {E} (w : list Z → nat → E → list Z) :=
  ew_length buf off e : length (w buf off e) = length buf.

Class EntryWriter {E} (w : list Z → nat → E → list Z) (esize : nat) (ok : E → Prop) (image : E → list Z) := {
  ew_len :: EntryLength w;
  ew_frame buf off e o n : ok e →
    (off + esize ≤ o ∨ o + n ≤ off)%nat → slice o n (w buf off e) = slice o n buf;
  ew_image buf off e : ok e → (off + esize ≤ length buf)%nat →
    slice off esize buf = replicate esize 0 → slice off esize (w buf off e) = image e;
}.

Lemma length_write_entries {E} (w : list Z → nat → E → list Z) `{!EntryLength w} esize off es buf :
  length (write_entries w esize off es buf) = length buf.
Proof. revert off buf. induction es as [|e es IH]; intros; simpl; [done|]. by rewrite IH, ew_length. Qed.

Section entries.
Context {E} (w : list Z → nat → E → list Z) (esize : nat) (ok : E → Prop) (image : E → list Z).
Context `{HW : !EntryWriter w esize ok image}.

Lemma slice_write_entries_ne off es buf o n :
  Forall ok es → (off + length es * esize ≤ o ∨ o + n ≤ off)%nat →
  slice o n (write_entries w esize off es buf) = slice o n buf.
Proof.
  intros Hok. revert off buf. induction Hok as [|e es He Hes IH]; intros off buf Hdis; simpl in *; [done|].
  rewrite IH by lia. apply ew_frame; [done|lia].
Qed.

Lemma slice_write_entries off es buf i e :
  Forall ok es → (off + length es * esize ≤ length buf)%nat →
  slice off (length es * esize) buf = replicate (length es * esize) 0 →
  es !! i = Some e →
  slice (off + i * esize) esize (write_entries w esize off es buf) = image e.
Proof.
  intros Hok. revert off buf i. induction Hok as [|e' es He Hes IH]; intros off buf i Hb Hz Hi; simpl in *; [done|].
  assert (slice off esize buf = replicate esize 0) as Hz0.
  { replace (slice off esize buf) with (slice 0 esize (slice off (esize + length es * esize) buf))
      by (rewrite slice_slice by lia; f_equal; lia).
    rewrite Hz. apply slice_replicate. lia. }
  destruct i as [|i]; simpl in *.
  - injection Hi as ->. rewrite Nat.add_0_r, slice_write_entries_ne by (done || lia).
    apply ew_image; [done|lia|done].
  - replace (off + (esize + i * esize))%nat with (off + esize + i * esize)%nat by lia.
    apply IH; [rewrite ew_length; lia| |done].
    rewrite ew_frame by (done || lia).
    replace (slice (off + esize) (length es * esize) buf)
      with (slice esize (length es * esize) (slice off (esize + length es * esize) buf))
      by (by rewrite slice_slice by lia).
    rewrite Hz. apply slice_replicate. lia.
Qed.

Lemma drop_write_entries k off es buf :
  Forall ok es → (off + length es * esize ≤ k)%nat →
  drop k (write_entries w esize off es buf) = drop k buf.
Proof.
  intros Hok Hk.
  pose proof (slice_write_entries_ne off es buf k (length buf - k) Hok ltac:(lia)) as Hs. revert Hs. unfold slice.
  rewrite take_ge by (rewrite length_drop, (length_write_entries w); lia).
  by rewrite take_ge by (rewrite length_drop; lia).
Qed.

(** Reading back what was stored, when the reader inverts the image. *)
Lemma read_write_entries (r : list Z → nat → E) (same : E → E → Prop) off es buf base n :
  (∀ e p o, ok e → slice o esize p = image e → same e (r p o)) →
  Forall ok es → (base + off + length es * esize ≤ length buf)%nat →
  slice (base + off) (length es * esize) buf = replicate (length es * esize) 0 →
  (off + length es * esize ≤ n)%nat →
  Forall2 same es
    (read_entries r esize off (length es) (slice base n (write_entries w esize (base + off) es buf))).
Proof.
  intros Hr Hok Hb Hz Hn. apply Forall2_same_length_lookup_2.
  { unfold read_entries. by rewrite length_fmap, length_seq. }
  intros i e e' He He'. unfold read_entries in He'.
  apply list_lookup_fmap_Some_1 in He' as (j & -> & Hj). apply lookup_seq in Hj as [-> Hj]. simpl.
  assert (ok e) by (by eapply Forall_lookup_1).
  apply Hr; [done|]. rewrite slice_slice by nia.
  rewrite Nat.add_assoc. by apply slice_write_entries.
Qed.
End entries.

#[export] Hint Rewrite @length_write_entries using apply _ : len.

(** [loads] through a loop of entry stores as well; [lem] is [slice_write_entries_ne] at the writer. *)
Ltac loads_with lem := repeat first [ rewrite lem by (done || codec_len) | progress loads ].
Ltac load_field_with lem :=
  lazymatch goal with
  | |- Wire_ReadU16 _ _ = _ => apply Wire_ReadU16_slice; [loads_with lem; try done|try zlia; try done]
  | |- Wire_ReadU32 _ _ = _ => apply Wire_ReadU32_slice; [loads_with lem; try done|try zlia; try done]
  | |- Wire_ReadU64 _ _ = _ => apply Wire_ReadU64_slice; [loads_with lem; try done|try zlia; try done]
  | |- _ !!! _ = _ => apply load_byte_slice; loads_with lem; try done
  end.
Ltac header_ok_with lem type body buf :=
  apply (MessageHeader_Decode_slice _ type body); [codec_len|lia|];
  apply (slice_begin_header type body buf); [codec_len| |lia]; loads_with lem; done.

(** ** Packets: what an encoder put on the wire *)

Definition wm_packet {M} `{WireMessage M} (m : M) (bs : list Z) : Prop :=
  ∃ buf, wm_valid m ∧ (MESSAGE_HEADER_SIZE + wm_size m ≤ length buf)%nat ∧
    bs = take (wm_encode m buf).1 (wm_encode m buf).2.

Lemma MessageHeader_Decode_app bs rest :
  (MESSAGE_HEADER_SIZE ≤ length bs)%nat → MessageHeader_Decode (bs ++ rest) = MessageHeader_Decode bs.
Proof.
  intros Hb. destruct bs as [|b0 [|b1 [|b2 [|b3 bs]]]]; simpl in Hb; try lia. done.
Qed.

Lemma wm_packet_spec {M} `{WireMessageOk M} (m : M) bs :
  wm_packet m bs →
  length bs = (MESSAGE_HEADER_SIZE + wm_size m)%nat ∧
  MessageHeader_Decode bs =
    Some {| header_type := wm_type (M := M); header_flags := 0; header_length := Z.of_nat (wm_size m) |} ∧
  ∀ old, wm_shape old → ∃ m', wm_decode old (drop MESSAGE_HEADER_SIZE bs) = (true, m') ∧ wm_same m m'.
Proof.
  intros (buf & Hv & Hb & ->).
  destruct (wm_encode_ok m buf Hv Hb) as (buf' & -> & Hl & Hh & _ & Hd). cbn [fst snd].
  assert (length (take (4 + wm_size m) buf') = (4 + wm_size m)%nat) as Hlen by (rewrite length_take; lia).
  split_and!; [done| |].
  - rewrite <- Hh. rewrite <- (take_drop (4 + wm_size m) buf') at 2.
    symmetry. apply MessageHeader_Decode_app. rewrite Hlen. lia.
  - intros old Hold. destruct (Hd old Hold) as (m' & Hm' & Hs). exists m'. split; [|done].
    rewrite <- Hm'. f_equal. unfold slice. rewrite take_drop_commute. done.
Qed.
