(* ===== verification/HelloMessage.v ===== *)
(** * HELLO (src/protocol/hello_message.c) *)

From S2P Require Import Prelude CString Wire Codec.

Notation HELLO_NAME_SIZE := 64%nat (only parsing).
Notation HELLO_BODY_SIZE := 72%nat (only parsing).
Definition PROTOCOL_VERSION : Z := 0.

Definition HELLO_CAP_RELIABLE_CHANNELS : Z := 1.
Definition HELLO_CAP_TRANSACTIONS : Z := 2.
Definition HELLO_CAP_ISOTP : Z := 4.

Definition kPEER_ROLE_AGENT : Z := 1.
Definition kPEER_ROLE_CLIENT : Z := 2.
Definition kPEER_ROLE_ADMIN : Z := 3.
Definition kPEER_ROLE_MAX : Z := 4.

Definition kMESSAGE_TYPE_HELLO : Z := 1.

Record HelloMessage := {
  hello_version : Z;
  hello_role : Z;
  hello_capabilities : Z;
  hello_name : list Z;
}.

Definition isRoleValid (role : Z) : bool := (role >=? kPEER_ROLE_AGENT) && (role <? kPEER_ROLE_MAX).

Definition HelloMessage_Encode (self : HelloMessage) (buffer : list Z) : nat * list Z :=
  let total_size := (MESSAGE_HEADER_SIZE + HELLO_BODY_SIZE)%nat in
  if negb (isRoleValid (hello_role self)) then (0%nat, buffer)
  else if Nat.ltb (length buffer) total_size then (0%nat, buffer)
  else
    let buffer := begin_message kMESSAGE_TYPE_HELLO HELLO_BODY_SIZE buffer in
    let buffer := <[(MESSAGE_HEADER_SIZE + 0)%nat := hello_version self]> buffer in
    let buffer := <[(MESSAGE_HEADER_SIZE + 1)%nat := hello_role self]> buffer in
    let buffer := Wire_WriteU32 buffer (MESSAGE_HEADER_SIZE + 4) (hello_capabilities self) in
    let name_length := strnlen (hello_name self) (HELLO_NAME_SIZE - 1) in
    let buffer := copy_at (MESSAGE_HEADER_SIZE + 8) (take name_length (hello_name self)) buffer in
    (total_size, buffer).

(** [stack] is the content of the uninitialised [hello.name] array. *)
Definition HelloMessage_Build (role : Z) (name : option (list Z)) (capabilities : Z)
    (stack : list Z) (buffer : list Z) : nat * list Z :=
  let hello_name := <[0%nat := 0]> stack in
  let hello_name :=
    match name with
    | None => hello_name
    | Some name =>
        let length_ := strnlen name (HELLO_NAME_SIZE - 1) in
        <[length_ := 0]> (list_inserts 0 (take length_ name) hello_name)
    end in
  HelloMessage_Encode
    {| hello_version := PROTOCOL_VERSION; hello_role := role; hello_capabilities := capabilities;
       hello_name := hello_name |} buffer.

Definition HelloMessage_Decode (self : HelloMessage) (payload : list Z) : bool * HelloMessage :=
  if Nat.ltb (length payload) HELLO_BODY_SIZE then (false, self)
  else
    let self' :=
      {| hello_version := payload !!! 0%nat;
         hello_role := payload !!! 1%nat;
         hello_capabilities := Wire_ReadU32 payload 4;
         hello_name := <[(HELLO_NAME_SIZE - 1)%nat := 0]> (slice 8 HELLO_NAME_SIZE payload) |} in
    (isRoleValid (hello_role self'), self').

#[export] Instance HelloMessage_wire : WireMessage HelloMessage := {|
  wm_type := kMESSAGE_TYPE_HELLO;
  wm_size _ := HELLO_BODY_SIZE;
  wm_shape _ := True;
  wm_valid m := is_u8 (hello_version m) ∧ isRoleValid (hello_role m) = true ∧ is_u32 (hello_capabilities m);
  wm_encode := HelloMessage_Encode;
  wm_decode := HelloMessage_Decode;
  wm_same m m' :=
    hello_version m' = hello_version m ∧ hello_role m' = hello_role m ∧
    hello_capabilities m' = hello_capabilities m ∧
    cstr (hello_name m') = take (HELLO_NAME_SIZE - 1) (cstr (hello_name m));
|}.

Lemma isRoleValid_range role : isRoleValid role = true → 1 ≤ role ≤ 3.
Proof. unfold isRoleValid, kPEER_ROLE_AGENT, kPEER_ROLE_MAX. intros. bool_to_prop. lia. Qed.

#[export] Instance HelloMessage_ok : WireMessageOk HelloMessage.
Proof.
  split; [done|simpl; lia|]. intros m buf (Hv & Hr & Hc) Hb. simpl in *.
  unfold HelloMessage_Encode. rewrite Hr. cbn [negb].
  replace (Nat.ltb (length buf) (4 + 72)) with false by (symmetry; apply Nat.ltb_ge; lia).
  rewrite take_strnlen. set (s := take (64 - 1) (cstr (hello_name m))).
  assert (length s ≤ 63)%nat as Hs by (subst s; rewrite length_take; lia). assert (0 ∉ s) as H0 by apply take_cstr_no_nul.
  stores. eexists. split_and!; [done|codec_len| |drops; done|].
  - header_ok kMESSAGE_TYPE_HELLO 72%nat buf.
  - intros old _. unfold HelloMessage_Decode. rewrite length_slice by codec_len. cbn [Nat.ltb Nat.leb].
    set (p := slice 4 72 _).
    assert (p !!! 1%nat = hello_role m) as Hrole by (subst p; load_field).
    eexists. split; [f_equal; simpl; by rewrite Hrole|]. simpl. split_and!.
    + subst p. load_field.
    + done.
    + subst p. load_field.
    + subst p. loads. rewrite drop_replicate. apply (cstr_terminated 63 s); done.
Qed.
