(* ===== verification/RegisterMessage.v ===== *)
(** * REGISTER and REGISTER_ACK (src/protocol/register_message.c) *)

From S2P Require Import Prelude CString Wire Codec.

Notation REGISTER_BODY_SIZE := 388%nat (only parsing).
Notation REGISTER_ACK_BODY_SIZE := 20%nat (only parsing).
Notation REGISTER_AGENT_NAME_SIZE := 128%nat (only parsing).
Notation REGISTER_INTERFACES_MAX := 16%nat (only parsing).
Notation REGISTER_INTERFACE_NAME_SIZE := 16%nat (only parsing).

Definition REGISTER_FLAG_FD_REPORTED : Z := 1.
Definition REGISTER_STATUS_OK : Z := 0.
Definition REGISTER_STATUS_REJECTED : Z := 1.
Definition REGISTER_STATUS_IDENTITY_MISMATCH : Z := 2.
Definition REGISTER_STATUS_UNKNOWN_AGENT : Z := 3.

Definition kMESSAGE_TYPE_REGISTER : Z := 2.
Definition kMESSAGE_TYPE_REGISTER_ACK : Z := 3.

Record RegisterMessage := {
  reg_agent_name : list Z;
  reg_interface_count : Z;
  reg_interface_names : list (list Z);
  reg_fd_reported : bool;
  reg_fd_interfaces : Z;
}.

Record RegisterAckMessage := {
  ack_status : Z;
  ack_interface_count : Z;
  ack_channels : list Z;
}.

(** The names the count covers: what the loops [for (i = 0; i < interface_count; i++)] visit. *)
Definition registered_names (m : RegisterMessage) : list (list Z) :=
  take (Z.to_nat (reg_interface_count m)) (reg_interface_names m).

Definition isInterfaceNameValid (name : list Z) : bool :=
  (name !!! (REGISTER_INTERFACE_NAME_SIZE - 1)%nat =? 0) && negb (Nat.eqb (strlen name) 0).

Definition areInterfaceNamesValid (m : RegisterMessage) : bool :=
  forallb isInterfaceNameValid (registered_names m).

Definition writeInterfaceName (buffer : list Z) (off : nat) (name : list Z) : list Z :=
  copy_at off (take (strlen name) name) buffer.

Definition readInterfaceName (payload : list Z) (off : nat) : list Z :=
  <[(REGISTER_INTERFACE_NAME_SIZE - 1)%nat := 0]> (slice off REGISTER_INTERFACE_NAME_SIZE payload).

Definition RegisterMessage_Encode (self : RegisterMessage) (buffer : list Z) : nat * list Z :=
  let total_size := (MESSAGE_HEADER_SIZE + REGISTER_BODY_SIZE)%nat in
  if negb (reg_agent_name self !!! (REGISTER_AGENT_NAME_SIZE - 1)%nat =? 0) then (0%nat, buffer)
  else if (reg_interface_count self >? 16) || negb (areInterfaceNamesValid self) then (0%nat, buffer)
  else if Nat.ltb (length buffer) total_size then (0%nat, buffer)
  else
    let buffer := begin_message kMESSAGE_TYPE_REGISTER REGISTER_BODY_SIZE buffer in
    let buffer := copy_at (MESSAGE_HEADER_SIZE + 0) (take (strlen (reg_agent_name self)) (reg_agent_name self)) buffer in
    let buffer := <[(MESSAGE_HEADER_SIZE + 128)%nat := reg_interface_count self]> buffer in
    let buffer :=
      if reg_fd_reported self then
        let buffer := <[(MESSAGE_HEADER_SIZE + 129)%nat := REGISTER_FLAG_FD_REPORTED]> buffer in
        Wire_WriteU16 buffer (MESSAGE_HEADER_SIZE + 130) (reg_fd_interfaces self)
      else buffer in
    let buffer :=
      write_entries writeInterfaceName REGISTER_INTERFACE_NAME_SIZE (MESSAGE_HEADER_SIZE + 132)
        (registered_names self) buffer in
    (total_size, buffer).

Definition RegisterMessage_Decode (self : RegisterMessage) (payload : list Z) : bool * RegisterMessage :=
  if Nat.ltb (length payload) REGISTER_BODY_SIZE then (false, self)
  else
    let agent_name := <[(REGISTER_AGENT_NAME_SIZE - 1)%nat := 0]> (slice 0 REGISTER_AGENT_NAME_SIZE payload) in
    let count := payload !!! 128%nat in
    if count >? 16 then
      (false, {| reg_agent_name := agent_name; reg_interface_count := count;
                 reg_interface_names := reg_interface_names self;
                 reg_fd_reported := reg_fd_reported self; reg_fd_interfaces := reg_fd_interfaces self |})
    else
      let fd_reported := negb (Z.land (payload !!! 129%nat) REGISTER_FLAG_FD_REPORTED =? 0) in
      let names := read_entries readInterfaceName REGISTER_INTERFACE_NAME_SIZE 132 (Z.to_nat count) payload in
      let self' :=
        {| reg_agent_name := agent_name; reg_interface_count := count;
           reg_interface_names := list_inserts 0 names (reg_interface_names self);
           reg_fd_reported := fd_reported;
           reg_fd_interfaces := if fd_reported then Wire_ReadU16 payload 130 else 0 |} in
      (areInterfaceNamesValid self', self').

Definition RegisterAckMessage_Encode (self : RegisterAckMessage) (buffer : list Z) : nat * list Z :=
  let total_size := (MESSAGE_HEADER_SIZE + REGISTER_ACK_BODY_SIZE)%nat in
  if ack_interface_count self >? 16 then (0%nat, buffer)
  else if Nat.ltb (length buffer) total_size then (0%nat, buffer)
  else
    let buffer := begin_message kMESSAGE_TYPE_REGISTER_ACK REGISTER_ACK_BODY_SIZE buffer in
    let buffer := <[(MESSAGE_HEADER_SIZE + 0)%nat := ack_status self]> buffer in
    let buffer := <[(MESSAGE_HEADER_SIZE + 1)%nat := ack_interface_count self]> buffer in
    let buffer := copy_at (MESSAGE_HEADER_SIZE + 4) (take (Z.to_nat (ack_interface_count self)) (ack_channels self)) buffer in
    (total_size, buffer).

Definition RegisterAckMessage_Decode (self : RegisterAckMessage) (payload : list Z) : bool * RegisterAckMessage :=
  if Nat.ltb (length payload) REGISTER_ACK_BODY_SIZE then (false, self)
  else
    let status := payload !!! 0%nat in
    let count := payload !!! 1%nat in
    if count >? 16 then
      (false, {| ack_status := status; ack_interface_count := count; ack_channels := ack_channels self |})
    else
      (true, {| ack_status := status; ack_interface_count := count;
                ack_channels := copy_at 0 (slice 4 (Z.to_nat count) payload) (ack_channels self) |}).

(** ** The codec promises *)

(** The shape of the two C structs: array sizes and integer widths. *)
Record register_shape (m : RegisterMessage) : Prop := {
  rs_agent : length (reg_agent_name m) = REGISTER_AGENT_NAME_SIZE;
  rs_count : 0 ≤ reg_interface_count m;
  rs_names : length (reg_interface_names m) = REGISTER_INTERFACES_MAX;
  rs_name : Forall (λ n, length n = REGISTER_INTERFACE_NAME_SIZE) (reg_interface_names m);
  rs_fd : is_u16 (reg_fd_interfaces m);
}.

Definition register_valid (m : RegisterMessage) : Prop :=
  register_shape m ∧ reg_agent_name m !!! 127%nat = 0 ∧
  reg_interface_count m ≤ 16 ∧ areInterfaceNamesValid m = true.

(** Same registration: names as strings, count, and the FD report. *)
Definition register_same (m m' : RegisterMessage) : Prop :=
  cstr (reg_agent_name m') = cstr (reg_agent_name m) ∧
  reg_interface_count m' = reg_interface_count m ∧
  Forall2 (λ n n', cstr n' = cstr n) (registered_names m) (registered_names m') ∧
  reg_fd_reported m' = reg_fd_reported m ∧
  reg_fd_interfaces m' = (if reg_fd_reported m then reg_fd_interfaces m else 0).

#[export] Instance RegisterMessage_wire : WireMessage RegisterMessage := {|
  wm_type := kMESSAGE_TYPE_REGISTER;
  wm_size _ := REGISTER_BODY_SIZE;
  wm_shape := register_shape;
  wm_valid := register_valid;
  wm_encode := RegisterMessage_Encode;
  wm_decode := RegisterMessage_Decode;
  wm_same := register_same;
|}.

#[export] Instance RegisterAckMessage_wire : WireMessage RegisterAckMessage := {|
  wm_type := kMESSAGE_TYPE_REGISTER_ACK;
  wm_size _ := REGISTER_ACK_BODY_SIZE;
  wm_shape m := length (ack_channels m) = REGISTER_INTERFACES_MAX;
  wm_valid m := is_u8 (ack_status m) ∧ 0 ≤ ack_interface_count m ≤ 16 ∧ length (ack_channels m) = REGISTER_INTERFACES_MAX;
  wm_encode := RegisterAckMessage_Encode;
  wm_decode := RegisterAckMessage_Decode;
  wm_same m m' :=
    ack_status m' = ack_status m ∧ ack_interface_count m' = ack_interface_count m ∧
    take (Z.to_nat (ack_interface_count m)) (ack_channels m') = take (Z.to_nat (ack_interface_count m)) (ack_channels m);
|}.

Definition name_ok (name : list Z) : Prop :=
  length name = REGISTER_INTERFACE_NAME_SIZE ∧ name !!! 15%nat = 0 ∧ cstr name ≠ [].

Lemma name_ok_strlen name : name_ok name → (length (cstr name) ≤ 15)%nat.
Proof. intros (Hl & Hn & _). exact (strlen_terminated name 15 Hl Hn). Qed.

Lemma isInterfaceNameValid_ok name :
  length name = REGISTER_INTERFACE_NAME_SIZE → isInterfaceNameValid name = true → name_ok name.
Proof.
  unfold isInterfaceNameValid, strlen. intros Hl Hv. change (16 - 1)%nat with 15%nat in Hv. bool_to_prop.
  split_and!; [done..|]. by intros Hnil; rewrite Hnil in *.
Qed.

#[export] Instance interface_name_writer :
  EntryWriter writeInterfaceName 16 name_ok (λ n, padded 16 (cstr n)).
Proof.
  split.
  - intros ???. apply length_copy_at.
  - intros buf off e o n Hok Hdis. unfold writeInterfaceName. rewrite <- cstr_prefix.
    pose proof (name_ok_strlen e Hok). apply slice_copy_ne. lia.
  - intros buf off e Hok Hb Hz. unfold writeInterfaceName. rewrite <- cstr_prefix.
    pose proof (name_ok_strlen e Hok). rewrite slice_copy_prefix by lia.
    by rewrite Hz, drop_replicate.
Qed.

Lemma registered_names_ok m :
  register_valid m → Forall name_ok (registered_names m) ∧
  length (registered_names m) = Z.to_nat (reg_interface_count m).
Proof.
  intros ([] & Ha & Hc & Hv). split.
  - unfold areInterfaceNamesValid in Hv. unfold registered_names in *.
    apply Forall_lookup. intros i n Hn. apply isInterfaceNameValid_ok.
    + apply lookup_take_Some in Hn as [Hn _]. by eapply Forall_lookup_1 in rs_name0.
    + rewrite forallb_forall in Hv. apply Hv. apply list_elem_of_In. by eapply list_elem_of_lookup_2.
  - unfold registered_names. rewrite length_take. lia.
Qed.

(** Reading the names back from the fields they were stored in. *)
Lemma readInterfaceName_same name payload off :
  name_ok name → slice off 16 payload = padded 16 (cstr name) →
  cstr (readInterfaceName payload off) = cstr name.
Proof.
  intros Hok Hs. unfold readInterfaceName. rewrite Hs.
  apply (cstr_terminated 15); [apply cstr_no_nul|by apply name_ok_strlen].
Qed.

Lemma readInterfaceName_valid payload off :
  (off + 16 ≤ length payload)%nat → cstr (readInterfaceName payload off) ≠ [] →
  isInterfaceNameValid (readInterfaceName payload off) = true.
Proof.
  intros Hb Hne. unfold isInterfaceNameValid, strlen. apply andb_true_iff. split.
  - unfold readInterfaceName. change (16 - 1)%nat with 15%nat.
    rewrite list_lookup_total_insert_eq; [done|]. rewrite length_slice by lia. lia.
  - by destruct (cstr (readInterfaceName payload off)).
Qed.

Lemma areInterfaceNamesValid_read m p :
  registered_names m = read_entries readInterfaceName 16 132 (length (registered_names m)) p →
  (132 + length (registered_names m) * 16 ≤ length p)%nat →
  Forall (λ n, cstr n ≠ []) (registered_names m) → areInterfaceNamesValid m = true.
Proof.
  intros Hr Hb Hne. unfold areInterfaceNamesValid. apply forallb_forall. intros n Hin%list_elem_of_In.
  apply list_elem_of_lookup_1 in Hin as [i Hi]. pose proof (Forall_lookup_1 _ _ _ _ Hne Hi) as Hn.
  pose proof (lookup_lt_Some _ _ _ Hi) as Hlt. rewrite Hr in Hi.
  apply list_lookup_fmap_Some_1 in Hi as (j & -> & Hj). apply lookup_seq in Hj as [-> Hj].
  apply readInterfaceName_valid; [lia|done].
Qed.

(** Decoding a payload whose fields are those of [m]. *)
Lemma RegisterMessage_Decode_fields m old p :
  register_shape old → register_valid m → length p = REGISTER_BODY_SIZE →
  slice 0 128 p = padded 128 (cstr (reg_agent_name m)) →
  p !!! 128%nat = reg_interface_count m →
  p !!! 129%nat = b2z (reg_fd_reported m) →
  (reg_fd_reported m = true → Wire_ReadU16 p 130 = reg_fd_interfaces m) →
  Forall2 (λ n n', cstr n' = cstr n) (registered_names m)
    (read_entries readInterfaceName 16 132 (length (registered_names m)) p) →
  ∃ m', RegisterMessage_Decode old p = (true, m') ∧ register_same m m'.
Proof.
  intros [_ _ Hol _ _] Hvalid Hp Hagent Hc Hflag Hfd Hnames.
  pose proof (registered_names_ok m Hvalid) as [Hok Hcount].
  destruct Hvalid as ([Ha Hc0 Hl Hn _] & Hz & Hc16 & _).
  unfold RegisterMessage_Decode. rewrite Hp, Hc. cbn [Nat.ltb Nat.leb].
  replace (reg_interface_count m >? 16) with false by (symmetry; lia).
  rewrite Hflag. rewrite Hcount in Hnames. set (names := read_entries _ _ _ _ _) in *.
  assert (length names = Z.to_nat (reg_interface_count m)) as Hlen.
  { subst names. unfold read_entries. by rewrite length_fmap, length_seq. }
  assert (negb (Z.land (b2z (reg_fd_reported m)) REGISTER_FLAG_FD_REPORTED =? 0) = reg_fd_reported m) as ->
    by (by destruct (reg_fd_reported m)).
  set (m' := Build_RegisterMessage _ _ _ _ _).
  assert (registered_names m' = names) as Hm'.
  { subst m'. unfold registered_names. simpl. apply take_list_inserts; lia. }
  exists m'. split.
  - f_equal. apply (areInterfaceNamesValid_read m' p); rewrite Hm', ?Hlen; [done|lia|].
    apply Forall_lookup. intros i n' Hi.
    destruct (Forall2_lookup_r _ _ _ _ _ Hnames Hi) as (n & Hi' & Heq).
    rewrite Heq. by apply (Forall_lookup_1 _ _ _ _ Hok) in Hi' as (_ & _ & ?).
  - unfold register_same. simpl. split_and!; [|done|by rewrite Hm'|done|].
    + rewrite Hagent. apply (cstr_terminated 127); [apply cstr_no_nul|]. exact (strlen_terminated _ 127 Ha Hz).
    + destruct (reg_fd_reported m); [by apply Hfd|done].
Qed.

#[export] Instance RegisterMessage_ok : WireMessageOk RegisterMessage.
Proof.
  split; [done|simpl; lia|]. intros m buf Hvalid Hb. pose proof Hvalid as Hvalid'.
  pose proof (registered_names_ok m Hvalid) as [Hnames Hcount].
  destruct Hvalid as ([Ha Hc0 Hl Hn Hfd] & Hz & Hc16 & Hv). simpl in *. unfold RegisterMessage_Encode.
  change (128 - 1)%nat with 127%nat in *. rewrite Hz, Hv. cbn [negb Z.eqb].
  replace (reg_interface_count m >? 16) with false by (symmetry; lia). cbn [orb].
  rewrite (proj2 (Nat.ltb_ge (length buf) (4 + 388))) by lia.
  rewrite <- cstr_prefix. pose proof (strlen_terminated _ 127 Ha Hz) as Hs. unfold strlen in Hs.
  set (names := registered_names m) in *.
  pose proof (slice_write_entries_ne writeInterfaceName 16 name_ok (λ n, padded 16 (cstr n))) as Hne.
  pose proof (drop_write_entries writeInterfaceName 16 name_ok (λ n, padded 16 (cstr n))) as Hdrop.
  pose proof (read_write_entries writeInterfaceName 16 name_ok (λ n, padded 16 (cstr n)) readInterfaceName
    (λ n n', cstr n' = cstr n)) as Hread.
  destruct (reg_fd_reported m) eqn:Hfdr; stores; eexists;
    (split_and!; [done|codec_len|header_ok_with Hne kMESSAGE_TYPE_REGISTER 388%nat buf
                 |rewrite Hdrop by (done || codec_len); drops; done|]);
    intros old Hold; apply RegisterMessage_Decode_fields; try done;
    try (rewrite length_slice by codec_len; done);
    try (by loads_with Hne; rewrite drop_replicate);
    try (rewrite ?Hfdr; load_field_with Hne); try done;
    try (apply (Hread 132%nat names _ 4%nat 388%nat); [apply readInterfaceName_same|done|codec_len|loads; done|lia]).
  - intros _. load_field_with Hne.
  - by rewrite Hfdr.
Qed.

#[export] Instance RegisterAckMessage_ok : WireMessageOk RegisterAckMessage.
Proof.
  split; [done|simpl; lia|]. intros m buf (Hs & Hc & Hl) Hb. simpl in *. unfold RegisterAckMessage_Encode.
  replace (ack_interface_count m >? 16) with false by (symmetry; lia).
  rewrite (proj2 (Nat.ltb_ge (length buf) (4 + 20))) by lia.
  set (n := Z.to_nat (ack_interface_count m)).
  assert (length (take n (ack_channels m)) = n) as Hn by (rewrite length_take; lia).
  stores. eexists. split_and!; [done|codec_len|header_ok kMESSAGE_TYPE_REGISTER_ACK 20%nat buf|drops; done|].
  intros old Hold. unfold RegisterAckMessage_Decode. rewrite length_slice by codec_len. cbn [Nat.ltb Nat.leb].
  set (p := slice 4 20 _).
  assert (p !!! 1%nat = ack_interface_count m) as -> by (subst p; load_field).
  replace (ack_interface_count m >? 16) with false by (symmetry; lia).
  eexists. split; [reflexivity|]. simpl. fold n. split_and!; [subst p; load_field|done|].
  assert (slice 4 n p = take n (ack_channels m)) as -> by (subst p; by loads).
  apply take_list_inserts; lia.
Qed.
