(* ===== verification/OpenMessage.v ===== *)
(** * OPEN, OPEN_ACK, CLOSE and ERROR
    (src/protocol/open_message.c, src/protocol/error_message.c) *)

From S2P Require Import Prelude CString Wire Codec.

Notation OPEN_BODY_SIZE := 8%nat (only parsing).
Notation OPEN_ACK_BODY_SIZE := 8%nat (only parsing).
Notation CLOSE_BODY_SIZE := 4%nat (only parsing).
Notation ERROR_BODY_SIZE := 68%nat (only parsing).
Notation ERROR_DETAIL_SIZE := 64%nat (only parsing).

Definition kMESSAGE_TYPE_OPEN : Z := 6.
Definition kMESSAGE_TYPE_CLOSE : Z := 7.
Definition kMESSAGE_TYPE_ERROR : Z := 9.
Definition kMESSAGE_TYPE_OPEN_ACK : Z := 10.

Definition OPEN_STATUS_OK : Z := 0.
Definition OPEN_STATUS_REJECTED : Z := 1.
Definition OPEN_STATUS_WRITE_DENIED : Z := 2.
Definition OPEN_STATUS_READ_DENIED : Z := 3.
Definition OPEN_STATUS_RELIABLE_UNSUPPORTED : Z := 4.
Definition OPEN_FLAG_SUPPRESS_OWN_ECHO : Z := 1.
Definition OPEN_FLAG_WANT_WRITE : Z := 2.
Definition OPEN_FLAG_RELIABLE : Z := 4.
Definition OPEN_FLAG_ERROR_FRAMES : Z := 8.

Record OpenMessage := { open_interface_id : Z; open_flags : Z }.
Record OpenAckMessage := { open_ack_status : Z; open_ack_channel : Z; open_ack_interface_id : Z }.
Record CloseMessage := { close_channel : Z }.
Record ErrorMessage := { error_code : Z; error_detail : list Z }.

Definition OpenMessage_Encode (self : OpenMessage) (buffer : list Z) : nat * list Z :=
  let total_size := (MESSAGE_HEADER_SIZE + OPEN_BODY_SIZE)%nat in
  if Nat.ltb (length buffer) total_size then (0%nat, buffer)
  else
    let buffer := begin_message kMESSAGE_TYPE_OPEN OPEN_BODY_SIZE buffer in
    let buffer := Wire_WriteU32 buffer (MESSAGE_HEADER_SIZE + 0) (open_interface_id self) in
    let buffer := <[(MESSAGE_HEADER_SIZE + 4)%nat := open_flags self]> buffer in
    (total_size, buffer).

Definition OpenMessage_Decode (self : OpenMessage) (payload : list Z) : bool * OpenMessage :=
  if Nat.ltb (length payload) OPEN_BODY_SIZE then (false, self)
  else (true, {| open_interface_id := Wire_ReadU32 payload 0; open_flags := payload !!! 4%nat |}).

Definition OpenAckMessage_Encode (self : OpenAckMessage) (buffer : list Z) : nat * list Z :=
  let total_size := (MESSAGE_HEADER_SIZE + OPEN_ACK_BODY_SIZE)%nat in
  if Nat.ltb (length buffer) total_size then (0%nat, buffer)
  else
    let buffer := begin_message kMESSAGE_TYPE_OPEN_ACK OPEN_ACK_BODY_SIZE buffer in
    let buffer := <[(MESSAGE_HEADER_SIZE + 0)%nat := open_ack_status self]> buffer in
    let buffer := <[(MESSAGE_HEADER_SIZE + 1)%nat := open_ack_channel self]> buffer in
    let buffer := Wire_WriteU32 buffer (MESSAGE_HEADER_SIZE + 4) (open_ack_interface_id self) in
    (total_size, buffer).

Definition OpenAckMessage_Decode (self : OpenAckMessage) (payload : list Z) : bool * OpenAckMessage :=
  if Nat.ltb (length payload) OPEN_ACK_BODY_SIZE then (false, self)
  else
    (true, {| open_ack_status := payload !!! 0%nat; open_ack_channel := payload !!! 1%nat;
              open_ack_interface_id := Wire_ReadU32 payload 4 |}).

Definition CloseMessage_Encode (self : CloseMessage) (buffer : list Z) : nat * list Z :=
  let total_size := (MESSAGE_HEADER_SIZE + CLOSE_BODY_SIZE)%nat in
  if Nat.ltb (length buffer) total_size then (0%nat, buffer)
  else
    let buffer := begin_message kMESSAGE_TYPE_CLOSE CLOSE_BODY_SIZE buffer in
    let buffer := <[(MESSAGE_HEADER_SIZE + 0)%nat := close_channel self]> buffer in
    (total_size, buffer).

Definition CloseMessage_Decode (self : CloseMessage) (payload : list Z) : bool * CloseMessage :=
  if Nat.ltb (length payload) CLOSE_BODY_SIZE then (false, self)
  else (true, {| close_channel := payload !!! 0%nat |}).

Definition ErrorMessage_Encode (self : ErrorMessage) (buffer : list Z) : nat * list Z :=
  let total_size := (MESSAGE_HEADER_SIZE + ERROR_BODY_SIZE)%nat in
  if negb (error_detail self !!! (ERROR_DETAIL_SIZE - 1)%nat =? 0) then (0%nat, buffer)
  else if Nat.ltb (length buffer) total_size then (0%nat, buffer)
  else
    let buffer := begin_message kMESSAGE_TYPE_ERROR ERROR_BODY_SIZE buffer in
    let buffer := Wire_WriteU16 buffer (MESSAGE_HEADER_SIZE + 0) (error_code self) in
    let buffer := copy_at (MESSAGE_HEADER_SIZE + 4) (take (strlen (error_detail self)) (error_detail self)) buffer in
    (total_size, buffer).

Definition ErrorMessage_Decode (self : ErrorMessage) (payload : list Z) : bool * ErrorMessage :=
  if Nat.ltb (length payload) ERROR_BODY_SIZE then (false, self)
  else
    (true, {| error_code := Wire_ReadU16 payload 0;
              error_detail := <[(ERROR_DETAIL_SIZE - 1)%nat := 0]> (slice 4 ERROR_DETAIL_SIZE payload) |}).

(** ** The codec promises *)

#[export] Instance OpenMessage_wire : WireMessage OpenMessage := {|
  wm_type := kMESSAGE_TYPE_OPEN;
  wm_size _ := OPEN_BODY_SIZE;
  wm_shape _ := True;
  wm_valid m := is_u32 (open_interface_id m) ∧ is_u8 (open_flags m);
  wm_encode := OpenMessage_Encode;
  wm_decode := OpenMessage_Decode;
  wm_same m m' := m' = m;
|}.

#[export] Instance OpenAckMessage_wire : WireMessage OpenAckMessage := {|
  wm_type := kMESSAGE_TYPE_OPEN_ACK;
  wm_size _ := OPEN_ACK_BODY_SIZE;
  wm_shape _ := True;
  wm_valid m := is_u8 (open_ack_status m) ∧ is_u8 (open_ack_channel m) ∧ is_u32 (open_ack_interface_id m);
  wm_encode := OpenAckMessage_Encode;
  wm_decode := OpenAckMessage_Decode;
  wm_same m m' := m' = m;
|}.

#[export] Instance CloseMessage_wire : WireMessage CloseMessage := {|
  wm_type := kMESSAGE_TYPE_CLOSE;
  wm_size _ := CLOSE_BODY_SIZE;
  wm_shape _ := True;
  wm_valid m := is_u8 (close_channel m);
  wm_encode := CloseMessage_Encode;
  wm_decode := CloseMessage_Decode;
  wm_same m m' := m' = m;
|}.

#[export] Instance ErrorMessage_wire : WireMessage ErrorMessage := {|
  wm_type := kMESSAGE_TYPE_ERROR;
  wm_size _ := ERROR_BODY_SIZE;
  wm_shape _ := True;
  wm_valid m := is_u16 (error_code m) ∧ length (error_detail m) = ERROR_DETAIL_SIZE ∧
    error_detail m !!! (ERROR_DETAIL_SIZE - 1)%nat = 0;
  wm_encode := ErrorMessage_Encode;
  wm_decode := ErrorMessage_Decode;
  wm_same m m' := error_code m' = error_code m ∧ cstr (error_detail m') = cstr (error_detail m);
|}.

#[export] Instance OpenMessage_ok : WireMessageOk OpenMessage.
Proof.
  split; [done|simpl; lia|]. intros m buf (Hi & Hf) Hb. simpl in *. unfold OpenMessage_Encode.
  rewrite (proj2 (Nat.ltb_ge (length buf) (4 + 8))) by lia.
  stores. eexists. split_and!; [done|codec_len|header_ok kMESSAGE_TYPE_OPEN 8%nat buf|drops; done|].
  intros old _. unfold OpenMessage_Decode. rewrite length_slice by codec_len. cbn [Nat.ltb Nat.leb].
  eexists. split; [reflexivity|]. destruct m. f_equal; simpl in *; load_field.
Qed.

#[export] Instance OpenAckMessage_ok : WireMessageOk OpenAckMessage.
Proof.
  split; [done|simpl; lia|]. intros m buf (Hs & Hc & Hi) Hb. simpl in *. unfold OpenAckMessage_Encode.
  rewrite (proj2 (Nat.ltb_ge (length buf) (4 + 8))) by lia.
  stores. eexists. split_and!; [done|codec_len|header_ok kMESSAGE_TYPE_OPEN_ACK 8%nat buf|drops; done|].
  intros old _. unfold OpenAckMessage_Decode. rewrite length_slice by codec_len. cbn [Nat.ltb Nat.leb].
  eexists. split; [reflexivity|]. destruct m. f_equal; simpl in *; load_field.
Qed.

#[export] Instance CloseMessage_ok : WireMessageOk CloseMessage.
Proof.
  split; [done|simpl; lia|]. intros m buf Hc Hb. simpl in *. unfold CloseMessage_Encode.
  rewrite (proj2 (Nat.ltb_ge (length buf) (4 + 4))) by lia.
  stores. eexists. split_and!; [done|codec_len|header_ok kMESSAGE_TYPE_CLOSE 4%nat buf|drops; done|].
  intros old _. unfold CloseMessage_Decode. rewrite length_slice by codec_len. cbn [Nat.ltb Nat.leb].
  eexists. split; [reflexivity|]. destruct m. f_equal; simpl in *; load_field.
Qed.

#[export] Instance ErrorMessage_ok : WireMessageOk ErrorMessage.
Proof.
  split; [done|simpl; lia|]. intros m buf (Hc & Hl & Hn) Hb. simpl in *. unfold ErrorMessage_Encode.
  change (64 - 1)%nat with 63%nat in *. rewrite Hn. cbn [negb Z.eqb].
  rewrite (proj2 (Nat.ltb_ge (length buf) (4 + 68))) by lia.
  rewrite <- cstr_prefix. pose proof (strlen_terminated _ 63 Hl Hn) as Hs. unfold strlen in Hs.
  stores. eexists. split_and!; [done|codec_len|header_ok kMESSAGE_TYPE_ERROR 68%nat buf|drops; done|].
  intros old _. unfold ErrorMessage_Decode. rewrite length_slice by codec_len. cbn [Nat.ltb Nat.leb].
  eexists. split; [reflexivity|]. simpl. split; [load_field|]. loads. rewrite drop_replicate.
  apply (cstr_terminated 63); [apply cstr_no_nul|done].
Qed.
