(* ===== verification/SubscribeMessage.v ===== *)
(** * SUBSCRIBE and INTERFACE_STATUS
    (src/protocol/subscribe_message.c, src/protocol/interface_status_message.c) *)

From S2P Require Import Prelude CString Wire Codec.

Notation SUBSCRIBE_FILTERS_MAX := 16%nat (only parsing).
Notation SUBSCRIBE_FIXED_FIELDS_SIZE := 4%nat (only parsing).
Notation CAN_FILTER_SIZE := 8%nat (only parsing).
Notation INTERFACE_STATUS_ENTRY_SIZE := 20%nat (only parsing).
Notation INTERFACE_STATUS_BODY_SIZE := 324%nat (only parsing).

Definition kMESSAGE_TYPE_SUBSCRIBE : Z := 8.
Definition kMESSAGE_TYPE_INTERFACE_STATUS : Z := 13.
Definition INTERFACE_STATUS_FLAG_LEASED : Z := 2.

Record CanFilter := { filter_can_id : Z; filter_can_mask : Z }.

Definition CanFilter_zero : CanFilter := {| filter_can_id := 0; filter_can_mask := 0 |}.
#[export] Instance CanFilter_inhabited : Inhabited CanFilter := populate CanFilter_zero.
#[export] Instance CanFilter_eq_dec : EqDecision CanFilter.
Proof. solve_decision. Defined.

Record SubscribeMessage := {
  sub_channel : Z;
  sub_filter_count : Z;
  sub_filters : list CanFilter;
}.

Record InterfaceStatusEntry := {
  ise_channel : Z;
  ise_flags : Z;
  ise_advertised_rate : Z;
  ise_credit : Z;
  ise_tx_dropped : Z;
}.

Record InterfaceStatusMessage := {
  ism_interface_count : Z;
  ism_entries : list InterfaceStatusEntry;
}.

Definition writeFilter (buffer : list Z) (off : nat) (f : CanFilter) : list Z :=
  let buffer := Wire_WriteU32 buffer (off + 0) (filter_can_id f) in
  Wire_WriteU32 buffer (off + 4) (filter_can_mask f).

Definition readFilter (payload : list Z) (off : nat) : CanFilter :=
  {| filter_can_id := Wire_ReadU32 payload (off + 0); filter_can_mask := Wire_ReadU32 payload (off + 4) |}.

Definition SubscribeMessage_Encode (self : SubscribeMessage) (buffer : list Z) : nat * list Z :=
  let count := Z.to_nat (sub_filter_count self) in
  let body_size := (SUBSCRIBE_FIXED_FIELDS_SIZE + count * CAN_FILTER_SIZE)%nat in
  let total_size := (MESSAGE_HEADER_SIZE + body_size)%nat in
  if (sub_filter_count self >? 16) || Nat.ltb (length buffer) total_size then (0%nat, buffer)
  else
    let buffer := begin_message kMESSAGE_TYPE_SUBSCRIBE body_size buffer in
    let buffer := <[(MESSAGE_HEADER_SIZE + 0)%nat := sub_channel self]> buffer in
    let buffer := <[(MESSAGE_HEADER_SIZE + 1)%nat := sub_filter_count self]> buffer in
    let buffer :=
      write_entries writeFilter CAN_FILTER_SIZE (MESSAGE_HEADER_SIZE + 4) (take count (sub_filters self)) buffer in
    (total_size, buffer).

Definition SubscribeMessage_Decode (self : SubscribeMessage) (payload : list Z) : bool * SubscribeMessage :=
  if Nat.ltb (length payload) SUBSCRIBE_FIXED_FIELDS_SIZE then (false, self)
  else
    let channel := payload !!! 0%nat in
    let count := payload !!! 1%nat in
    let partial := {| sub_channel := channel; sub_filter_count := count; sub_filters := sub_filters self |} in
    if count >? 16 then (false, partial)
    else if Nat.ltb (length payload) (SUBSCRIBE_FIXED_FIELDS_SIZE + Z.to_nat count * CAN_FILTER_SIZE) then
      (false, partial)
    else
      (true, {| sub_channel := channel; sub_filter_count := count;
                sub_filters :=
                  list_inserts 0 (read_entries readFilter CAN_FILTER_SIZE 4 (Z.to_nat count) payload)
                    (sub_filters self) |}).

Definition writeStatusEntry (buffer : list Z) (off : nat) (e : InterfaceStatusEntry) : list Z :=
  let buffer := <[(off + 0)%nat := ise_channel e]> buffer in
  let buffer := <[(off + 1)%nat := ise_flags e]> buffer in
  let buffer := Wire_WriteU32 buffer (off + 4) (ise_advertised_rate e) in
  let buffer := Wire_WriteU32 buffer (off + 8) (ise_credit e) in
  Wire_WriteU64 buffer (off + 12) (ise_tx_dropped e).

Definition readStatusEntry (payload : list Z) (off : nat) : InterfaceStatusEntry :=
  {| ise_channel := payload !!! (off + 0)%nat;
     ise_flags := payload !!! (off + 1)%nat;
     ise_advertised_rate := Wire_ReadU32 payload (off + 4);
     ise_credit := Wire_ReadU32 payload (off + 8);
     ise_tx_dropped := Wire_ReadU64 payload (off + 12) |}.

Definition InterfaceStatusMessage_Encode (self : InterfaceStatusMessage) (buffer : list Z) : nat * list Z :=
  let total_size := (MESSAGE_HEADER_SIZE + INTERFACE_STATUS_BODY_SIZE)%nat in
  if ism_interface_count self >? 16 then (0%nat, buffer)
  else if Nat.ltb (length buffer) total_size then (0%nat, buffer)
  else
    let buffer := begin_message kMESSAGE_TYPE_INTERFACE_STATUS INTERFACE_STATUS_BODY_SIZE buffer in
    let buffer := <[(MESSAGE_HEADER_SIZE + 0)%nat := ism_interface_count self]> buffer in
    let buffer :=
      write_entries writeStatusEntry INTERFACE_STATUS_ENTRY_SIZE (MESSAGE_HEADER_SIZE + 4)
        (take (Z.to_nat (ism_interface_count self)) (ism_entries self)) buffer in
    (total_size, buffer).

Definition InterfaceStatusMessage_Decode (self : InterfaceStatusMessage) (payload : list Z)
    : bool * InterfaceStatusMessage :=
  if Nat.ltb (length payload) INTERFACE_STATUS_BODY_SIZE then (false, self)
  else
    let count := payload !!! 0%nat in
    if count >? 16 then
      (false, {| ism_interface_count := count; ism_entries := ism_entries self |})
    else
      (true, {| ism_interface_count := count;
                ism_entries :=
                  list_inserts 0
                    (read_entries readStatusEntry INTERFACE_STATUS_ENTRY_SIZE 4 (Z.to_nat count) payload)
                    (ism_entries self) |}).

(** ** The codec promises *)

Definition filter_ok (f : CanFilter) : Prop := is_u32 (filter_can_id f) ∧ is_u32 (filter_can_mask f).

#[export] Instance filter_writer :
  EntryWriter writeFilter 8 filter_ok (λ f, le_bytes 4 (filter_can_id f) ++ le_bytes 4 (filter_can_mask f)).
Proof.
  split.
  - intros buf off e. unfold writeFilter, Wire_WriteU32, Wire_WriteU16. by rewrite !length_insert.
  - intros buf off e o n [Hi Hm] Hdis. unfold writeFilter. stores. by loads.
  - intros buf off e [Hi Hm] Hb _. unfold writeFilter. stores. rewrite Nat.add_0_r. unfold copy_at.
    transitivity (slice off 8 (list_inserts off (le_bytes 4 (filter_can_id e) ++ le_bytes 4 (filter_can_mask e)) buf)).
    + f_equal. exact (inserts_inserts_app off (le_bytes 4 _) (le_bytes 4 _) buf).
    + apply slice_inserts_eq; [done|lia].
Qed.

Lemma readFilter_same f p o :
  filter_ok f → slice o 8 p = le_bytes 4 (filter_can_id f) ++ le_bytes 4 (filter_can_mask f) → readFilter p o = f.
Proof.
  intros [Hi Hm] Hs. destruct f as [i m]. unfold readFilter. simpl in *. f_equal.
  - apply Wire_ReadU32_slice; [|done]. by rewrite (slice_field _ _ _ _ 0 4 Hs) by lia.
  - apply Wire_ReadU32_slice; [|done]. by rewrite (slice_field _ _ _ _ 4 4 Hs) by lia.
Qed.

#[export] Instance SubscribeMessage_wire : WireMessage SubscribeMessage := {|
  wm_type := kMESSAGE_TYPE_SUBSCRIBE;
  wm_size m := (SUBSCRIBE_FIXED_FIELDS_SIZE + Z.to_nat (sub_filter_count m) * CAN_FILTER_SIZE)%nat;
  wm_shape m := length (sub_filters m) = SUBSCRIBE_FILTERS_MAX;
  wm_valid m := is_u8 (sub_channel m) ∧ 0 ≤ sub_filter_count m ≤ 16 ∧
    length (sub_filters m) = SUBSCRIBE_FILTERS_MAX ∧ Forall filter_ok (sub_filters m);
  wm_encode := SubscribeMessage_Encode;
  wm_decode := SubscribeMessage_Decode;
  wm_same m m' :=
    sub_channel m' = sub_channel m ∧ sub_filter_count m' = sub_filter_count m ∧
    take (Z.to_nat (sub_filter_count m)) (sub_filters m') = take (Z.to_nat (sub_filter_count m)) (sub_filters m);
|}.

#[export] Instance SubscribeMessage_ok : WireMessageOk SubscribeMessage.
Proof.
  split; [done|simpl; lia|]. intros m buf (Hch & Hc & Hl & Hf) Hb. simpl in *. unfold SubscribeMessage_Encode.
  replace (sub_filter_count m >? 16) with false by (symmetry; lia). cbn [orb].
  set (n := Z.to_nat (sub_filter_count m)) in *.
  rewrite (proj2 (Nat.ltb_ge (length buf) (4 + (4 + n * 8)))) by lia.
  set (fs := take n (sub_filters m)).
  assert (length fs = n) as Hfs by (subst fs; rewrite length_take; lia).
  assert (Forall filter_ok fs) as Hok by (by apply Forall_take).
  pose proof (slice_write_entries_ne writeFilter 8 filter_ok _) as Hne.
  stores. eexists. split_and!; [done|codec_len|header_ok_with Hne kMESSAGE_TYPE_SUBSCRIBE (4 + n * 8)%nat buf| |].
  { rewrite (drop_write_entries writeFilter 8 filter_ok _) by (done || codec_len). drops. done. }
  intros old Hold. unfold SubscribeMessage_Decode. rewrite length_slice by codec_len.
  replace (Nat.ltb (S _) 4) with false by (symmetry; apply Nat.ltb_ge; lia).
  set (p := slice 4 _ _).
  assert (p !!! 1%nat = sub_filter_count m) as -> by (subst p; load_field_with Hne).
  replace (sub_filter_count m >? 16) with false by (symmetry; lia). fold n.
  replace (Nat.ltb (S _) (4 + n * 8)) with false by (symmetry; apply Nat.ltb_ge; lia).
  eexists. split; [reflexivity|]. simpl. split_and!; [subst p; load_field_with Hne|done|].
  assert (read_entries readFilter 8 4 n p = fs) as ->; [|apply take_list_inserts; lia].
  apply Forall2_eq_eq. rewrite <- Hfs at 1. subst p.
  apply (read_write_entries writeFilter 8 filter_ok _ readFilter (λ x y, y = x) 4 fs _ 4 (4 + n * 8));
    [apply readFilter_same|done|codec_len|loads; done|lia].
Qed.

Definition status_entry_ok (e : InterfaceStatusEntry) : Prop :=
  is_u32 (ise_advertised_rate e) ∧ is_u32 (ise_credit e) ∧ is_u64 (ise_tx_dropped e).

(** The 20 bytes of an entry: channel, flags, two reserved zeroes, rate, credit, drops. *)
Definition status_entry_image (e : InterfaceStatusEntry) : list Z :=
  [ise_channel e; ise_flags e; 0; 0] ++ le_bytes 4 (ise_advertised_rate e) ++ le_bytes 4 (ise_credit e)
    ++ le_bytes 8 (ise_tx_dropped e).

#[export] Instance status_entry_writer : EntryWriter writeStatusEntry 20 status_entry_ok status_entry_image.
Proof.
  split.
  - intros buf off e. unfold writeStatusEntry, Wire_WriteU64, Wire_WriteU32, Wire_WriteU16. by rewrite !length_insert.
  - intros buf off e o n (Hr & Hc & Ht) Hdis. unfold writeStatusEntry. stores. by loads.
  - intros buf off e (Hr & Hc & Ht) Hb Hz. unfold writeStatusEntry. stores.
    assert (slice (off + 2) 2 buf = [0; 0]) as Hpad
      by (rewrite (slice_field _ _ _ _ 2 2 Hz) by lia; by rewrite slice_replicate by lia).
    rewrite (slice_split off 1 19) by codec_len. rewrite (slice_split (off + 1) 1 18) by codec_len.
    rewrite (slice_split (off + 1 + 1) 2 16) by codec_len. rewrite (slice_split _ 4 12) by codec_len.
    rewrite (slice_split _ 4 8) by codec_len.
    replace (off + 1 + 1)%nat with (off + 2)%nat by lia.
    replace (off + 2 + 2)%nat with (off + 4)%nat by lia.
    replace (off + 4 + 4)%nat with (off + 8)%nat by lia.
    replace (off + 8 + 4)%nat with (off + 12)%nat by lia. rewrite ?Nat.add_0_r.
    loads. by rewrite Hpad.
Qed.

Lemma readStatusEntry_same e p o :
  status_entry_ok e → slice o 20 p = status_entry_image e → readStatusEntry p o = e.
Proof.
  intros (Hr & Hc & Ht) Hs. destruct e as [ch fl ra cr tx]. unfold readStatusEntry. simpl in *.
  pose proof (λ off k Hle, slice_field _ _ _ _ off k Hs Hle) as Hf. f_equal.
  - apply load_byte_slice. by rewrite Hf by lia.
  - apply load_byte_slice. by rewrite Hf by lia.
  - apply Wire_ReadU32_slice; [|done]. by rewrite Hf by lia.
  - apply Wire_ReadU32_slice; [|done]. by rewrite Hf by lia.
  - apply Wire_ReadU64_slice; [|done]. by rewrite Hf by lia.
Qed.

#[export] Instance InterfaceStatusMessage_wire : WireMessage InterfaceStatusMessage := {|
  wm_type := kMESSAGE_TYPE_INTERFACE_STATUS;
  wm_size _ := INTERFACE_STATUS_BODY_SIZE;
  wm_shape m := length (ism_entries m) = 16%nat;
  wm_valid m := 0 ≤ ism_interface_count m ≤ 16 ∧ length (ism_entries m) = 16%nat ∧
    Forall status_entry_ok (ism_entries m);
  wm_encode := InterfaceStatusMessage_Encode;
  wm_decode := InterfaceStatusMessage_Decode;
  wm_same m m' :=
    ism_interface_count m' = ism_interface_count m ∧
    take (Z.to_nat (ism_interface_count m)) (ism_entries m') = take (Z.to_nat (ism_interface_count m)) (ism_entries m);
|}.

#[export] Instance InterfaceStatusMessage_ok : WireMessageOk InterfaceStatusMessage.
Proof.
  split; [done|simpl; lia|]. intros m buf (Hc & Hl & Hf) Hb. simpl in *. unfold InterfaceStatusMessage_Encode.
  replace (ism_interface_count m >? 16) with false by (symmetry; lia).
  rewrite (proj2 (Nat.ltb_ge (length buf) (4 + 324))) by lia.
  set (n := Z.to_nat (ism_interface_count m)) in *. set (es := take n (ism_entries m)).
  assert (length es = n) as Hes by (subst es; rewrite length_take; lia).
  assert (Forall status_entry_ok es) as Hok by (by apply Forall_take).
  pose proof (slice_write_entries_ne writeStatusEntry 20 status_entry_ok _) as Hne.
  stores. eexists. split_and!; [done|codec_len|header_ok_with Hne kMESSAGE_TYPE_INTERFACE_STATUS 324%nat buf| |].
  { rewrite (drop_write_entries writeStatusEntry 20 status_entry_ok _) by (done || codec_len). drops. done. }
  intros old Hold. unfold InterfaceStatusMessage_Decode. rewrite length_slice by codec_len.
  replace (Nat.ltb 324 324) with false by done. set (p := slice 4 _ _).
  assert (p !!! 0%nat = ism_interface_count m) as -> by (subst p; load_field_with Hne).
  replace (ism_interface_count m >? 16) with false by (symmetry; lia). fold n.
  eexists. split; [reflexivity|]. simpl. split; [done|].
  assert (read_entries readStatusEntry 20 4 n p = es) as ->; [|apply take_list_inserts; lia].
  apply Forall2_eq_eq. rewrite <- Hes at 1. subst p.
  apply (read_write_entries writeStatusEntry 20 status_entry_ok _ readStatusEntry (λ x y, y = x) 4 es _ 4 324);
    [apply readStatusEntry_same|done|codec_len|loads; done|lia].
Qed.
