(* ===== verification/ListMessage.v ===== *)
(** * LIST and LIST_REPLY (src/protocol/list_message.c) *)

From S2P Require Import Prelude CString Wire Codec.

Notation LIST_BODY_SIZE := 4%nat (only parsing).
Notation LIST_REPLY_ENTRIES_MAX := 16%nat (only parsing).
Notation LIST_REPLY_ENTRY_SIZE := 148%nat (only parsing).
Notation LIST_REPLY_FIXED_FIELDS_SIZE := 4%nat (only parsing).

Definition LIST_REPLY_FLAG_MORE : Z := 1.
Definition kMESSAGE_TYPE_LIST : Z := 4.
Definition kMESSAGE_TYPE_LIST_REPLY : Z := 5.

Record ListMessage := { list_offset : Z }.

Record ListReplyEntry := {
  lre_interface_id : Z;
  lre_agent_name : list Z;
  lre_interface_name : list Z;
}.

Definition ListReplyEntry_zero : ListReplyEntry :=
  {| lre_interface_id := 0; lre_agent_name := replicate 128 0; lre_interface_name := replicate 16 0 |}.
#[export] Instance ListReplyEntry_inhabited : Inhabited ListReplyEntry := populate ListReplyEntry_zero.

Record ListReplyMessage := {
  lr_count : Z;
  lr_flags : Z;
  lr_entries : list ListReplyEntry;
}.

Definition ListMessage_Encode (self : ListMessage) (buffer : list Z) : nat * list Z :=
  let total_size := (MESSAGE_HEADER_SIZE + LIST_BODY_SIZE)%nat in
  if Nat.ltb (length buffer) total_size then (0%nat, buffer)
  else
    let buffer := begin_message kMESSAGE_TYPE_LIST LIST_BODY_SIZE buffer in
    let buffer := Wire_WriteU16 buffer (MESSAGE_HEADER_SIZE + 0) (list_offset self) in
    (total_size, buffer).

Definition ListMessage_Decode (self : ListMessage) (payload : list Z) : bool * ListMessage :=
  if Nat.ltb (length payload) LIST_BODY_SIZE then (false, self)
  else (true, {| list_offset := Wire_ReadU16 payload 0 |}).

(** The entries the count covers. *)
Definition counted_entries (m : ListReplyMessage) : list ListReplyEntry := take (Z.to_nat (lr_count m)) (lr_entries m).

Definition areEntriesValid (m : ListReplyMessage) : bool :=
  forallb (λ e, (lre_agent_name e !!! 127%nat =? 0) && (lre_interface_name e !!! 15%nat =? 0)) (counted_entries m).

Definition writeEntry (buffer : list Z) (off : nat) (e : ListReplyEntry) : list Z :=
  let buffer := Wire_WriteU32 buffer (off + 0) (lre_interface_id e) in
  let buffer := copy_at (off + 4) (take (strlen (lre_agent_name e)) (lre_agent_name e)) buffer in
  copy_at (off + 132) (take (strlen (lre_interface_name e)) (lre_interface_name e)) buffer.

Definition readEntry (payload : list Z) (off : nat) : ListReplyEntry :=
  {| lre_interface_id := Wire_ReadU32 payload (off + 0);
     lre_agent_name := <[127%nat := 0]> (slice (off + 4) 128 payload);
     lre_interface_name := <[15%nat := 0]> (slice (off + 132) 16 payload) |}.

Definition ListReplyMessage_Encode (self : ListReplyMessage) (buffer : list Z) : nat * list Z :=
  if (lr_count self >? 16) || negb (areEntriesValid self) then (0%nat, buffer)
  else
    let body_size := (LIST_REPLY_FIXED_FIELDS_SIZE + Z.to_nat (lr_count self) * LIST_REPLY_ENTRY_SIZE)%nat in
    let total_size := (MESSAGE_HEADER_SIZE + body_size)%nat in
    if Nat.ltb (length buffer) total_size then (0%nat, buffer)
    else
      let buffer := begin_message kMESSAGE_TYPE_LIST_REPLY body_size buffer in
      let buffer := <[(MESSAGE_HEADER_SIZE + 0)%nat := lr_count self]> buffer in
      let buffer := <[(MESSAGE_HEADER_SIZE + 1)%nat := lr_flags self]> buffer in
      let buffer :=
        write_entries writeEntry LIST_REPLY_ENTRY_SIZE (MESSAGE_HEADER_SIZE + 4) (counted_entries self) buffer in
      (total_size, buffer).

Definition ListReplyMessage_Decode (self : ListReplyMessage) (payload : list Z) : bool * ListReplyMessage :=
  if Nat.ltb (length payload) LIST_REPLY_FIXED_FIELDS_SIZE then (false, self)
  else
    let count := payload !!! 0%nat in
    let flags := payload !!! 1%nat in
    let partial := {| lr_count := count; lr_flags := flags; lr_entries := lr_entries self |} in
    if count >? 16 then (false, partial)
    else if Nat.ltb (length payload) (LIST_REPLY_FIXED_FIELDS_SIZE + Z.to_nat count * LIST_REPLY_ENTRY_SIZE) then
      (false, partial)
    else
      (true, {| lr_count := count; lr_flags := flags;
                lr_entries :=
                  list_inserts 0 (read_entries readEntry LIST_REPLY_ENTRY_SIZE 4 (Z.to_nat count) payload)
                    (lr_entries self) |}).

(** ** The codec promises *)

Record list_entry_ok (e : ListReplyEntry) : Prop := {
  le_id : is_u32 (lre_interface_id e);
  le_agent : length (lre_agent_name e) = 128%nat;
  le_agent_nul : lre_agent_name e !!! 127%nat = 0;
  le_name : length (lre_interface_name e) = 16%nat;
  le_name_nul : lre_interface_name e !!! 15%nat = 0;
}.

(** Two entries name the same interface. *)
Definition list_entry_same (e e' : ListReplyEntry) : Prop :=
  lre_interface_id e' = lre_interface_id e ∧ cstr (lre_agent_name e') = cstr (lre_agent_name e) ∧
  cstr (lre_interface_name e') = cstr (lre_interface_name e).

Definition list_entry_image (e : ListReplyEntry) : list Z :=
  le_bytes 4 (lre_interface_id e) ++ padded 128 (cstr (lre_agent_name e)) ++ padded 16 (cstr (lre_interface_name e)).

Lemma list_entry_ok_lengths e : list_entry_ok e →
  (length (cstr (lre_agent_name e)) ≤ 127)%nat ∧ (length (cstr (lre_interface_name e)) ≤ 15)%nat.
Proof. intros []. split; [by apply (strlen_terminated _ 127)|by apply (strlen_terminated _ 15)]. Qed.

Lemma length_padded n s : (length s ≤ n)%nat → length (padded n s) = n.
Proof. intros. unfold padded. rewrite length_app, length_replicate. lia. Qed.

#[export] Instance list_entry_writer : EntryWriter writeEntry 148 list_entry_ok list_entry_image.
Proof.
  split.
  - intros buf off e. unfold writeEntry, copy_at, Wire_WriteU32, Wire_WriteU16. rewrite !length_inserts.
    by rewrite !length_insert.
  - intros buf off e o n Hok Hdis. pose proof (list_entry_ok_lengths e Hok) as [Ha Hn]. destruct Hok.
    unfold writeEntry. rewrite <- !cstr_prefix. stores. by loads.
  - intros buf off e Hok Hb Hz. pose proof (list_entry_ok_lengths e Hok) as [Ha Hn]. destruct Hok.
    unfold writeEntry. rewrite <- !cstr_prefix. stores. unfold list_entry_image, padded.
    rewrite (slice_split off 4 144) by codec_len. rewrite (slice_split (off + 4) 128 16) by codec_len.
    replace (off + 4 + 128)%nat with (off + 132)%nat by lia. rewrite ?Nat.add_0_r. loads.
    rewrite (slice_field _ _ _ _ 4 128 Hz), (slice_field _ _ _ _ 132 16 Hz) by lia.
    by rewrite !slice_replicate, !drop_replicate by lia.
Qed.

Lemma readEntry_same e p o : list_entry_ok e → slice o 148 p = list_entry_image e → list_entry_same e (readEntry p o).
Proof.
  intros Hok Hs. pose proof (list_entry_ok_lengths e Hok) as [Ha Hn]. destruct Hok.
  pose proof (λ off k Hle, slice_field _ _ _ _ off k Hs Hle) as Hf. unfold list_entry_image in Hf.
  unfold readEntry, list_entry_same. simpl. split_and!.
  - apply Wire_ReadU32_slice; [|done]. by rewrite Hf by lia.
  - rewrite Hf by lia. unfold slice.
    rewrite drop_app_length' by done. rewrite take_app_length' by (rewrite length_padded; lia).
    apply (cstr_terminated 127); [apply cstr_no_nul|done].
  - rewrite Hf by lia. unfold slice. rewrite app_assoc.
    rewrite drop_app_length' by (rewrite length_app, length_padded, length_le_bytes; lia).
    rewrite take_ge by (rewrite length_padded; lia).
    apply (cstr_terminated 15); [apply cstr_no_nul|done].
Qed.

#[export] Instance ListMessage_wire : WireMessage ListMessage := {|
  wm_type := kMESSAGE_TYPE_LIST;
  wm_size _ := LIST_BODY_SIZE;
  wm_shape _ := True;
  wm_valid m := is_u16 (list_offset m);
  wm_encode := ListMessage_Encode;
  wm_decode := ListMessage_Decode;
  wm_same m m' := m' = m;
|}.

#[export] Instance ListMessage_ok : WireMessageOk ListMessage.
Proof.
  split; [done|simpl; lia|]. intros m buf Ho Hb. simpl in *. unfold ListMessage_Encode.
  rewrite (proj2 (Nat.ltb_ge (length buf) (4 + 4))) by lia.
  stores. eexists. split_and!; [done|codec_len|header_ok kMESSAGE_TYPE_LIST 4%nat buf|drops; done|].
  intros old _. unfold ListMessage_Decode. rewrite length_slice by codec_len. cbn [Nat.ltb Nat.leb].
  eexists. split; [reflexivity|]. destruct m. f_equal; simpl in *; load_field.
Qed.

#[export] Instance ListReplyMessage_wire : WireMessage ListReplyMessage := {|
  wm_type := kMESSAGE_TYPE_LIST_REPLY;
  wm_size m := (LIST_REPLY_FIXED_FIELDS_SIZE + Z.to_nat (lr_count m) * LIST_REPLY_ENTRY_SIZE)%nat;
  wm_shape m := length (lr_entries m) = LIST_REPLY_ENTRIES_MAX;
  wm_valid m := is_u8 (lr_flags m) ∧ 0 ≤ lr_count m ≤ 16 ∧ length (lr_entries m) = LIST_REPLY_ENTRIES_MAX ∧
    Forall list_entry_ok (counted_entries m);
  wm_encode := ListReplyMessage_Encode;
  wm_decode := ListReplyMessage_Decode;
  wm_same m m' :=
    lr_count m' = lr_count m ∧ lr_flags m' = lr_flags m ∧
    Forall2 list_entry_same (counted_entries m) (counted_entries m');
|}.

Lemma areEntriesValid_ok m : Forall list_entry_ok (counted_entries m) → areEntriesValid m = true.
Proof.
  intros Hok. unfold areEntriesValid. apply forallb_forall. intros e He%list_elem_of_In.
  rewrite Forall_forall in Hok. apply Hok in He as []. by rewrite le_agent_nul0, le_name_nul0.
Qed.

#[export] Instance ListReplyMessage_ok : WireMessageOk ListReplyMessage.
Proof.
  split; [done|intros m (_ & Hc & _); simpl; lia|].
  intros m buf (Hfl & Hc & Hl & Hok) Hb. simpl in *. unfold ListReplyMessage_Encode.
  rewrite (areEntriesValid_ok m Hok). replace (lr_count m >? 16) with false by (symmetry; lia). cbn [orb negb].
  set (n := Z.to_nat (lr_count m)) in *.
  rewrite (proj2 (Nat.ltb_ge (length buf) (4 + (4 + n * 148)))) by lia.
  set (es := counted_entries m) in *.
  assert (length es = n) as Hes by (subst es; unfold counted_entries; rewrite length_take; lia).
  pose proof (slice_write_entries_ne writeEntry 148 list_entry_ok _) as Hne.
  stores. eexists. split_and!; [done|codec_len|header_ok_with Hne kMESSAGE_TYPE_LIST_REPLY (4 + n * 148)%nat buf| |].
  { rewrite (drop_write_entries writeEntry 148 list_entry_ok _) by (done || codec_len). drops. done. }
  intros old Hold. unfold ListReplyMessage_Decode. rewrite length_slice by codec_len.
  replace (Nat.ltb (S _) 4) with false by (symmetry; apply Nat.ltb_ge; lia).
  set (p := slice 4 _ _).
  assert (p !!! 0%nat = lr_count m) as -> by (subst p; load_field_with Hne).
  replace (lr_count m >? 16) with false by (symmetry; lia). fold n.
  replace (Nat.ltb (S _) (4 + n * 148)) with false by (symmetry; apply Nat.ltb_ge; lia).
  eexists. split; [reflexivity|]. simpl. split_and!; [done|subst p; load_field_with Hne|].
  unfold counted_entries. simpl. fold n. rewrite take_list_inserts.
  - rewrite <- Hes. subst p.
    apply (read_write_entries writeEntry 148 list_entry_ok _ readEntry list_entry_same 4 es _ 4 (4 + n * 148));
      [apply readEntry_same|done|codec_len|loads; done|lia].
  - unfold read_entries. by rewrite length_fmap, length_seq.
  - lia.
Qed.
