(* ===== verification/FrameMessage.v ===== *)
(** * FRAME and the frame stream (src/protocol/frame_message.c)

    A datagram carries one or several FRAME messages back to back; the stream
    walks them and stops at the end of the buffer or at the first entry that is
    not a well-formed FRAME. *)

From S2P Require Import Prelude CString Wire Codec.

Notation FRAME_PAYLOAD_MAX_FD := 64%nat (only parsing).
Notation FRAME_FIXED_FIELDS_SIZE := 16%nat (only parsing).
Definition FRAME_PAYLOAD_MAX_CLASSIC : Z := 8.
Definition FRAME_CAN_ID_FLAG_ERR : Z := 536870912.
Definition FRAME_CAN_ID_FLAG_RTR : Z := 1073741824.
Definition FRAME_CAN_ID_FLAG_EFF : Z := 2147483648.
Definition FRAME_CAN_ID_SFF_MAX : Z := 2047.
Definition FRAME_CAN_ID_MASK : Z := 536870911.
Definition FRAME_FLAG_FD : Z := 1.
Definition FRAME_FLAG_BRS : Z := 2.
Definition FRAME_ROUTE_FLAG_BRIDGED : Z := 1.
Definition FRAME_ROUTE_FLAG_ECHO : Z := 2.
Definition FRAME_ROUTE_TOKEN_SHIFT : Z := 2.
Definition FRAME_ROUTE_TOKEN_MASK : Z := 252.
Definition FRAME_ROUTE_NO_TOKEN : Z := 0.
Notation FRAME_ROUTE_TOKEN_VALUES_MAX := 63%nat (only parsing).
Definition kMESSAGE_TYPE_FRAME : Z := 64.

Record FrameMessage := {
  frame_can_id : Z;
  frame_timestamp_us : Z;
  frame_channel : Z;
  frame_payload_length : Z;
  frame_flags : Z;
  frame_route_flags : Z;
  frame_payload : list Z;
}.

Definition FrameMessage_IsPayloadLengthValid (payload_length flags : Z) : bool :=
  if negb (Z.land flags FRAME_FLAG_FD =? 0) then payload_length <=? 64
  else payload_length <=? FRAME_PAYLOAD_MAX_CLASSIC.

Definition FrameMessage_Encode (self : FrameMessage) (buffer : list Z) : nat * list Z :=
  let len := Z.to_nat (frame_payload_length self) in
  let total_size := (MESSAGE_HEADER_SIZE + FRAME_FIXED_FIELDS_SIZE + len)%nat in
  if negb (FrameMessage_IsPayloadLengthValid (frame_payload_length self) (frame_flags self)) then (0%nat, buffer)
  else if Nat.ltb (length buffer) total_size then (0%nat, buffer)
  else
    let header := {| header_type := kMESSAGE_TYPE_FRAME; header_flags := 0;
                     header_length := u16 (16 + frame_payload_length self) |} in
    let buffer := (MessageHeader_Encode header buffer).2 in
    let buffer := Wire_WriteU32 buffer (MESSAGE_HEADER_SIZE + 0) (frame_can_id self) in
    let buffer := Wire_WriteU64 buffer (MESSAGE_HEADER_SIZE + 4) (frame_timestamp_us self) in
    let buffer := <[(MESSAGE_HEADER_SIZE + 12)%nat := frame_channel self]> buffer in
    let buffer := <[(MESSAGE_HEADER_SIZE + 13)%nat := frame_payload_length self]> buffer in
    let buffer := <[(MESSAGE_HEADER_SIZE + 14)%nat := frame_flags self]> buffer in
    let buffer := <[(MESSAGE_HEADER_SIZE + 15)%nat := frame_route_flags self]> buffer in
    let buffer := copy_at (MESSAGE_HEADER_SIZE + 16) (take len (frame_payload self)) buffer in
    (total_size, buffer).

Definition FrameMessage_Decode (self : FrameMessage) (payload : list Z) : bool * FrameMessage :=
  if Nat.ltb (length payload) FRAME_FIXED_FIELDS_SIZE then (false, self)
  else
    let fixed := {| frame_can_id := Wire_ReadU32 payload 0;
                    frame_timestamp_us := Wire_ReadU64 payload 4;
                    frame_channel := payload !!! 12%nat;
                    frame_payload_length := payload !!! 13%nat;
                    frame_flags := payload !!! 14%nat;
                    frame_route_flags := payload !!! 15%nat;
                    frame_payload := frame_payload self |} in
    if negb (FrameMessage_IsPayloadLengthValid (frame_payload_length fixed) (frame_flags fixed)) then (false, fixed)
    else if Nat.ltb (length payload) (FRAME_FIXED_FIELDS_SIZE + Z.to_nat (frame_payload_length fixed)) then
      (false, fixed)
    else
      let data := slice 16 (Z.to_nat (frame_payload_length fixed)) payload in
      (true, {| frame_can_id := frame_can_id fixed; frame_timestamp_us := frame_timestamp_us fixed;
                frame_channel := frame_channel fixed; frame_payload_length := frame_payload_length fixed;
                frame_flags := frame_flags fixed; frame_route_flags := frame_route_flags fixed;
                frame_payload := copy_at 0 data (frame_payload self) |}).

(** ** The stream of frames of a datagram *)

Record FrameStream := { fs_data : list Z; fs_offset : nat }.

Definition FrameStream_Init (data : list Z) : FrameStream := {| fs_data := data; fs_offset := 0 |}.

Definition FrameStream_Next (self : FrameStream) (frame : FrameMessage) : bool * FrameStream * FrameMessage :=
  let remaining := (length (fs_data self) - fs_offset self)%nat in
  if Nat.leb (length (fs_data self)) (fs_offset self) then (false, self, frame)
  else
    match MessageHeader_Decode (drop (fs_offset self) (fs_data self)) with
    | None => (false, self, frame)
    | Some header =>
        if negb (header_type header =? kMESSAGE_TYPE_FRAME) then (false, self, frame)
        else
          let total := (MESSAGE_HEADER_SIZE + Z.to_nat (header_length header))%nat in
          if Nat.ltb remaining total then (false, self, frame)
          else
            let payload := slice (fs_offset self + MESSAGE_HEADER_SIZE) (Z.to_nat (header_length header)) (fs_data self) in
            match FrameMessage_Decode frame payload with
            | (false, frame) => (false, self, frame)
            | (true, frame) => (true, {| fs_data := fs_data self; fs_offset := (fs_offset self + total)%nat |}, frame)
            end
    end.

(** The receiver's loop [while (FrameStream_Next(&stream, &frame))]: the frames
    it hands on, one [frame] variable for all.  [fuel] bounds the iterations. *)
Fixpoint frames_of (fuel : nat) (stream : FrameStream) (frame : FrameMessage) : list FrameMessage :=
  match fuel with
  | O => []
  | S fuel' =>
      match FrameStream_Next stream frame with
      | (true, stream', frame') => frame' :: frames_of fuel' stream' frame'
      | (false, _, _) => []
      end
  end.

(** ** Image of a frame *)

Record frame_valid (f : FrameMessage) : Prop := {
  fv_id : is_u32 (frame_can_id f);
  fv_ts : is_u64 (frame_timestamp_us f);
  fv_len : 0 ≤ frame_payload_length f;
  fv_ok : FrameMessage_IsPayloadLengthValid (frame_payload_length f) (frame_flags f) = true;
  fv_payload : length (frame_payload f) = FRAME_PAYLOAD_MAX_FD;
}.

(** The fields agree, and the payload up to its length. *)
Definition frame_same (f f' : FrameMessage) : Prop :=
  frame_can_id f' = frame_can_id f ∧ frame_timestamp_us f' = frame_timestamp_us f ∧
  frame_channel f' = frame_channel f ∧ frame_payload_length f' = frame_payload_length f ∧
  frame_flags f' = frame_flags f ∧ frame_route_flags f' = frame_route_flags f ∧
  take (Z.to_nat (frame_payload_length f)) (frame_payload f') = take (Z.to_nat (frame_payload_length f)) (frame_payload f).

Definition frame_size (f : FrameMessage) : nat := (FRAME_FIXED_FIELDS_SIZE + Z.to_nat (frame_payload_length f))%nat.

Lemma payload_length_le len flags : FrameMessage_IsPayloadLengthValid len flags = true → len ≤ 64.
Proof.
  unfold FrameMessage_IsPayloadLengthValid, FRAME_PAYLOAD_MAX_CLASSIC. case_tests; intros; bool_to_prop; lia.
Qed.

Lemma length_header_encode h buf : length (MessageHeader_Encode h buf).2 = length buf.
Proof.
  unfold MessageHeader_Encode. case_tests; simpl; [done|]. unfold Wire_WriteU16. by rewrite !length_insert.
Qed.

#[export] Hint Rewrite length_header_encode : len.

Lemma slice_header_encode type n buf :
  slice 0 4 (MessageHeader_Encode {| header_type := type; header_flags := 0; header_length := u16 (Z.of_nat n) |} buf).2
  = slice 0 4 (begin_message type n buf).
Proof. unfold begin_message, zero_at. by rewrite slice_inserts_ne by (right; lia). Qed.

Lemma drop_header_encode k h buf : (4 ≤ k)%nat → drop k (MessageHeader_Encode h buf).2 = drop k buf.
Proof.
  intros Hk. unfold MessageHeader_Encode, Wire_WriteU16. case_tests; simpl; [done|].
  by rewrite !drop_insert_lt by lia.
Qed.

#[export] Instance FrameMessage_wire : WireMessage FrameMessage := {|
  wm_type := kMESSAGE_TYPE_FRAME;
  wm_size := frame_size;
  wm_shape f := length (frame_payload f) = FRAME_PAYLOAD_MAX_FD;
  wm_valid := frame_valid;
  wm_encode := FrameMessage_Encode;
  wm_decode := FrameMessage_Decode;
  wm_same := frame_same;
|}.

#[export] Instance FrameMessage_ok : WireMessageOk FrameMessage.
Proof.
  split; [done|..].
  { intros f []. simpl. unfold frame_size. apply payload_length_le in fv_ok0. lia. }
  intros f buf [Hi Ht Hl Hv Hp] Hb. simpl in *. unfold frame_size in *. unfold FrameMessage_Encode.
  pose proof (payload_length_le _ _ Hv) as H64. rewrite Hv. cbn [negb].
  set (n := Z.to_nat (frame_payload_length f)) in *.
  replace (u16 (16 + frame_payload_length f)) with (u16 (Z.of_nat (16 + n))) by (f_equal; lia).
  rewrite (proj2 (Nat.ltb_ge (length buf) (4 + 16 + n))) by lia.
  assert (length (take n (frame_payload f)) = n) as Hn by (rewrite length_take; lia).
  stores. eexists. split_and!; [done|codec_len| |drops; by rewrite drop_header_encode by lia|].
  - apply (MessageHeader_Decode_slice _ kMESSAGE_TYPE_FRAME (16 + n)); [codec_len|lia|].
    apply (slice_begin_header kMESSAGE_TYPE_FRAME (16 + n) buf); [codec_len| |lia].
    loads. by rewrite slice_header_encode.
  - intros old Hold. unfold FrameMessage_Decode. rewrite length_slice by codec_len.
    replace (Nat.ltb (16 + n) 16) with false by (symmetry; apply Nat.ltb_ge; lia).
    set (p := slice 4 _ _).
    assert (p !!! 13%nat = frame_payload_length f) as -> by (subst p; load_field).
    assert (p !!! 14%nat = frame_flags f) as -> by (subst p; load_field).
    cbn [frame_payload_length frame_flags]. rewrite Hv. cbn [negb]. fold n.
    rewrite Nat.ltb_irrefl.
    eexists. split; [reflexivity|]. unfold frame_same. simpl. fold n.
    split_and!; try done; try (subst p; load_field).
    assert (slice 16 n p = take n (frame_payload f)) as -> by (subst p; by loads).
    apply take_list_inserts; lia.
Qed.

(** ** The stream *)

Lemma FrameMessage_Decode_shape old p f :
  length (frame_payload old) = 64%nat → FrameMessage_Decode old p = (true, f) → length (frame_payload f) = 64%nat.
Proof.
  intros Hold. unfold FrameMessage_Decode. case_tests; intros [=]; subst; simpl. by rewrite length_copy_at.
Qed.

(** Reading the frame at the stream's position. *)
(** Each turn of a loop over a datagram leaves less of it. *)
Lemma FrameStream_Next_advances stream frame stream' frame' :
  FrameStream_Next stream frame = (true, stream', frame') → (length (fs_data stream') - fs_offset stream' < length (fs_data stream) - fs_offset stream)%nat.
Proof.
  unfold FrameStream_Next. destruct (Nat.leb_spec (length (fs_data stream)) (fs_offset stream)); [done|]. repeat case_match; intros; simplify_eq; cbn; lia.
Qed.

Lemma FrameStream_Next_packet f bs pre rest old :
  wm_packet f bs → length (frame_payload old) = 64%nat →
  ∃ f', FrameStream_Next {| fs_data := pre ++ bs ++ rest; fs_offset := length pre |} old =
    (true, {| fs_data := pre ++ bs ++ rest; fs_offset := length (pre ++ bs) |}, f') ∧
    frame_same f f' ∧ length (frame_payload f') = 64%nat.
Proof.
  intros Hp Hold. destruct (wm_packet_spec f bs Hp) as (Hl & Hh & Hd).
  destruct (Hd old Hold) as (f' & Hf' & Hs). exists f'. split_and!; [|done|by eapply FrameMessage_Decode_shape].
  unfold FrameStream_Next. cbn [fs_data fs_offset].
  rewrite (proj2 (Nat.leb_gt _ _)) by (rewrite !length_app, Hl; lia).
  rewrite drop_app_length. rewrite MessageHeader_Decode_app by lia. rewrite Hh. cbn [header_type header_length].
  rewrite Z.eqb_refl. cbn [negb]. rewrite Nat2Z.id.
  rewrite (proj2 (Nat.ltb_ge _ _)) by (rewrite !length_app, Hl; lia).
  assert (slice (length pre + 4) (wm_size f) (pre ++ bs ++ rest) = drop 4 bs) as ->.
  { unfold slice. rewrite drop_app_add. rewrite drop_app_le by lia.
    apply take_app_length'. rewrite length_drop. lia. }
  simpl in Hf'. rewrite Hf'. f_equal. f_equal. f_equal. rewrite length_app, Hl. done.
Qed.

(** A frame cut short is not read. *)
Lemma FrameStream_Next_cut f bs pre k old :
  wm_packet f bs → (k < length bs)%nat →
  (FrameStream_Next {| fs_data := pre ++ take k bs; fs_offset := length pre |} old).1.1 = false.
Proof.
  intros Hp Hk. destruct (wm_packet_spec f bs Hp) as (Hl & Hh & _).
  unfold FrameStream_Next. cbn [fs_data fs_offset]. case_tests; [done|].
  rewrite drop_app_length.
  destruct (decide (k < 4)%nat).
  { unfold MessageHeader_Decode.
    rewrite (proj2 (Nat.ltb_lt (length (take k bs)) 4)) by (rewrite length_take; lia). done. }
  rewrite <- (take_drop k bs) in Hh. rewrite MessageHeader_Decode_app in Hh by (rewrite length_take; lia).
  rewrite Hh. cbn [header_type header_length]. rewrite Z.eqb_refl. cbn [negb]. rewrite Nat2Z.id.
  rewrite (proj2 (Nat.ltb_lt _ _)); [done|]. rewrite length_app, length_take. lia.
Qed.

(** a datagram of back-to-back FRAMEs, cut anywhere, yields exactly the
    frames that lie wholly inside it, in order: a truncated tail costs the frames
    after the cut and nothing else. *)
Theorem frame_stream_roundtrip (fs : list FrameMessage) (bss : list (list Z)) (k fuel : nat) (old : FrameMessage) :
  Forall2 wm_packet fs bss → length (frame_payload old) = 64%nat → (length fs < fuel)%nat →
  ∃ n, Forall2 frame_same (take n fs) (frames_of fuel (FrameStream_Init (take k (concat bss))) old) ∧
    (length (concat (take n bss)) ≤ k)%nat ∧
    (∀ n', (n < n' ≤ length fs)%nat → (k < length (concat (take n' bss)))%nat).
Proof.
  intros Hpk Hold Hfuel. unfold FrameStream_Init.
  cut (∀ pre, ∃ n, Forall2 frame_same (take n fs)
         (frames_of fuel {| fs_data := pre ++ take k (concat bss); fs_offset := length pre |} old) ∧
       (length (concat (take n bss)) ≤ k)%nat ∧
       (∀ n', (n < n' ≤ length fs)%nat → (k < length (concat (take n' bss)))%nat)).
  { intros Hpre. apply (Hpre []). }
  revert k fuel old Hold Hfuel.
  induction Hpk as [|f bs fs bss Hf Hfs IH]; intros k fuel old Hold Hfuel pre.
  { exists 0%nat. destruct fuel as [|fuel]; [simpl in Hfuel; lia|]. simpl.
    unfold FrameStream_Next. simpl. rewrite take_nil, app_nil_r, Nat.leb_refl.
    split_and!; [constructor|lia|intros; lia]. }
  destruct fuel as [|fuel]; [lia|]. simpl in Hfuel. cbn [concat].
  destruct (decide (length bs ≤ k)%nat) as [Hfit|Hcut].
  - rewrite take_app_ge by lia.
    destruct (FrameStream_Next_packet f bs pre (take (k - length bs) (concat bss)) old Hf Hold)
      as (f' & Hnext & Hs & Hold').
    destruct (IH (k - length bs)%nat fuel f' Hold' ltac:(lia) (pre ++ bs)) as (n & Hall & Hle & Hmax).
    exists (S n). cbn [frames_of]. rewrite Hnext. split_and!.
    + constructor; [done|]. by rewrite <- app_assoc in Hall.
    + cbn [take concat]. rewrite length_app. lia.
    + intros [|n'] Hn'; [lia|]. cbn [take concat]. rewrite length_app. simpl in Hn'.
      specialize (Hmax n' ltac:(lia)). lia.
  - rewrite take_app_le by lia. exists 0%nat. cbn [frames_of].
    pose proof (FrameStream_Next_cut f bs pre k old Hf ltac:(lia)) as Hstop.
    destruct (FrameStream_Next _ old) as [[[] s'] o']; [done|].
    split_and!; [constructor|simpl; lia|]. intros [|n'] Hn'; [lia|].
    cbn [take concat]. rewrite length_app. lia.
Qed.

Lemma frame_stream_roundtrip_witness :
  let f := {| frame_can_id := 291; frame_timestamp_us := 5; frame_channel := 1; frame_payload_length := 2;
              frame_flags := 0; frame_route_flags := 0; frame_payload := [222; 173] ++ replicate 62 0 |} in
  let bs := take (FrameMessage_Encode f (replicate 100 0)).1 (FrameMessage_Encode f (replicate 100 0)).2 in
  ∃ n, Forall2 frame_same (take n [f; f; f])
         (frames_of 4 (FrameStream_Init (take 50 (concat [bs; bs; bs]))) f) ∧
    (length (concat (take n [bs; bs; bs])) ≤ 50)%nat ∧
    (∀ n', (n < n' ≤ 3)%nat → (50 < length (concat (take n' [bs; bs; bs])))%nat).
Proof.
  intros f bs.
  apply (frame_stream_roundtrip [f; f; f] [bs; bs; bs] 50 4 f).
  - repeat constructor; exists (replicate 100 0); (split; [split|split; [|done]]); simpl;
      rewrite ?length_replicate; unfold frame_size; simpl; zlia || done.
  - done.
  - simpl. lia.
Defined.

(** ** Identifiers *)

(** A standard identifier, or an extended one with its flag. *)
Definition can_id_ok (can_id : Z) : Prop := 0 ≤ can_id ≤ FRAME_CAN_ID_SFF_MAX ∨ ∃ id, 0 ≤ id ≤ FRAME_CAN_ID_MASK ∧ can_id = Z.lor id FRAME_CAN_ID_FLAG_EFF.

(** The number of an identifier, and the identifier again. *)
Lemma can_id_parts can_id : can_id_ok can_id →
  ∃ id, Z.land can_id FRAME_CAN_ID_MASK = id ∧ is_u32 id ∧
    if has_flag can_id FRAME_CAN_ID_FLAG_EFF then Z.land id FRAME_CAN_ID_MASK = id ∧ can_id = Z.lor id FRAME_CAN_ID_FLAG_EFF
    else Z.land id FRAME_CAN_ID_MASK = id ∧ 0 ≤ id ≤ FRAME_CAN_ID_SFF_MAX ∧ can_id = id.
Proof.
  assert (∀ x, 0 ≤ x ≤ FRAME_CAN_ID_MASK → Z.land x FRAME_CAN_ID_MASK = x) as Hm.
  { unfold FRAME_CAN_ID_MASK. intros x Hx. change 536870911 with (Z.ones 29). rewrite Z.land_ones by lia. apply Z.mod_small. lia. }
  assert (∀ x, 0 ≤ x ≤ FRAME_CAN_ID_MASK → Z.testbit x 31 = false) as Hb.
  { unfold FRAME_CAN_ID_MASK. intros x Hx. destruct (Z.eq_dec x 0) as [->|]; [done|]. apply Z.bits_above_log2; [lia|]. apply Z.log2_lt_pow2; lia. }
  unfold is_u32. intros [Hs|(id & Hid & ->)].
  - unfold FRAME_CAN_ID_SFF_MAX in *. assert (0 ≤ can_id ≤ FRAME_CAN_ID_MASK) as Hr by (unfold FRAME_CAN_ID_MASK; lia). exists can_id. rewrite (Hm _ Hr). split; [done|split; [lia|]].
    assert (Z.land can_id FRAME_CAN_ID_FLAG_EFF = 0) as Hz.
    { apply Z.bits_inj'. intros k Hk. rewrite Z.land_spec, Z.bits_0. change FRAME_CAN_ID_FLAG_EFF with (2 ^ 31). rewrite Z.pow2_bits_eqb by lia. destruct (Z.eqb_spec 31 k) as [<-|]; [by rewrite Hb|apply andb_false_r]. }
    unfold has_flag. rewrite Hz. cbn. done.
  - exists id. rewrite Z.land_lor_distr_l, (Hm _ Hid). change (Z.land FRAME_CAN_ID_FLAG_EFF FRAME_CAN_ID_MASK) with 0. rewrite Z.lor_0_r. unfold FRAME_CAN_ID_MASK in Hid. split; [done|split; [lia|]].
    assert (has_flag (Z.lor id FRAME_CAN_ID_FLAG_EFF) FRAME_CAN_ID_FLAG_EFF = true) as ->; [|done]. unfold has_flag. apply negb_true_iff, Z.eqb_neq. intros Hz%(f_equal (λ x, Z.testbit x 31)).
    rewrite Z.land_spec, Z.lor_spec in Hz. change (Z.testbit FRAME_CAN_ID_FLAG_EFF 31) with true in Hz. by rewrite orb_true_r in Hz.
Qed.
