(* ===== verification/TxnMessage.v ===== *)
(** * Transaction messages (src/protocol/txn_message.c)

    BEGIN and its ack, TEMPLATE, ROSTER, PROGRESS, ROSTER_REPORT, STATUS and
    ABORT: fixed-size bodies, the channel always the first byte. *)

From S2P Require Import Prelude CString Wire Codec FrameMessage.

Notation TXN_BEGIN_BODY_SIZE := 84%nat (only parsing).
Notation TXN_BEGIN_ACK_BODY_SIZE := 8%nat (only parsing).
Notation TXN_TEMPLATE_BODY_SIZE := 108%nat (only parsing).
Notation TXN_PROGRESS_BODY_SIZE := 12%nat (only parsing).
Notation TXN_STATUS_BODY_SIZE := 112%nat (only parsing).
Notation TXN_ABORT_BODY_SIZE := 4%nat (only parsing).
Notation TXN_ROSTER_BODY_SIZE := 268%nat (only parsing).
Notation TXN_ROSTER_REPORT_BODY_SIZE := 20%nat (only parsing).
Notation TXN_ROSTER_MAX := 64%nat (only parsing).
Notation PATTERN_SIZE := 24%nat (only parsing).

Definition TXN_TEMPLATES_MAX : Z := 16.
Definition TXN_BEGIN_FLAG_EXCLUSIVE : Z := 1.
Definition kTXN_BEGIN_STATUS_OK : Z := 0.
Definition kTXN_BEGIN_STATUS_BUSY : Z := 1.
Definition kTXN_BEGIN_STATUS_WRITE_DENIED : Z := 2.
Definition kTXN_BEGIN_STATUS_UNSUPPORTED : Z := 3.
Definition kTXN_BEGIN_STATUS_RELIABLE_CHANNEL_REQUIRED : Z := 4.
Definition kTXN_BEGIN_STATUS_INVALID : Z := 5.
Definition TXN_TEMPLATE_FLAG_SOFT : Z := 1.
Definition TXN_TEMPLATE_FLAG_MISMATCH_ABORT : Z := 2.
Definition TXN_STATUS_FLAG_HAS_RX_FRAME : Z := 1.
Definition TXN_STATUS_FLAG_ROSTER_STEP : Z := 2.
Definition TXN_ISOTP_FLAG_PADDING : Z := 1.
Definition TXN_ISOTP_FLAG_ADDRESS_BYTE : Z := 2.
Definition TXN_ISOTP_FLAG_FD : Z := 4.
Definition TXN_ISOTP_FLAG_BIT_RATE_SWITCH : Z := 8.
Notation TXN_ISOTP_MESSAGE_SIZE_MAX := 4095%nat (only parsing).
Definition kTXN_ORIGIN_SOURCE_NONE : Z := 0.
Definition kTXN_ORIGIN_SOURCE_CAN_ID : Z := 1.
Definition kTXN_ORIGIN_SOURCE_PAYLOAD : Z := 2.
Definition kTXN_TEMPLATE_TYPE_GENERIC : Z := 0.
Definition kTXN_TEMPLATE_TYPE_ISOTP : Z := 1.
Definition kTXN_ADVANCE_MODE_NONE : Z := 0.
Definition kTXN_ADVANCE_MODE_COUNT : Z := 1.
Definition kTXN_ADVANCE_MODE_ROSTER_ALL : Z := 2.
Definition kTXN_ADVANCE_MODE_ROSTER_K : Z := 3.
Definition kTXN_ADVANCE_MODE_MAX : Z := 4.
Definition kTXN_PATTERN_ADVANCE : Z := 0.
Definition kTXN_PATTERN_ABORT : Z := 1.
Definition kTXN_PATTERN_EXTEND : Z := 2.
Definition kTXN_STATE_DONE : Z := 0.
Definition kTXN_STATE_ABORTED : Z := 1.
Definition kTXN_REASON_NONE : Z := 0.
Definition kTXN_REASON_TIMEOUT : Z := 1.
Definition kTXN_REASON_ABORT_MATCH : Z := 2.
Definition kTXN_REASON_VALUE_MISMATCH : Z := 3.
Definition kTXN_REASON_TX_FAILED : Z := 4.
Definition kTXN_REASON_CANCELLED : Z := 5.
Definition kTXN_REASON_STARVED : Z := 6.
Definition kTXN_REASON_OVERRUN : Z := 7.
Definition kTXN_REASON_AGENT_DISCONNECTED : Z := 8.
Definition kTXN_REASON_INVALID_STEP : Z := 9.
Definition kTXN_REASON_FLOW_CONTROL_TIMEOUT : Z := 10.
Definition kTXN_REASON_CONSECUTIVE_FRAME_TIMEOUT : Z := 11.
Definition kTXN_REASON_OVERFLOW : Z := 12.
Definition kTXN_REASON_SEQUENCE_ERROR : Z := 13.
Definition kTXN_REASON_WAIT_LIMIT : Z := 14.
Definition kTXN_REASON_UNSUPPORTED : Z := 15.

Definition kMESSAGE_TYPE_TXN_BEGIN : Z := 65.
Definition kMESSAGE_TYPE_TXN_BEGIN_ACK : Z := 66.
Definition kMESSAGE_TYPE_TXN_TEMPLATE : Z := 67.
Definition kMESSAGE_TYPE_TXN_STEPS : Z := 68.
Definition kMESSAGE_TYPE_TXN_PROGRESS : Z := 69.
Definition kMESSAGE_TYPE_TXN_STATUS : Z := 70.
Definition kMESSAGE_TYPE_TXN_ABORT : Z := 71.
Definition kMESSAGE_TYPE_TXN_ROSTER : Z := 72.
Definition kMESSAGE_TYPE_TXN_ROSTER_REPORT : Z := 73.

Record TxnOriginExtractor := { toe_source : Z; toe_shift : Z; toe_payload_offset : Z; toe_mask : Z }.
Record TxnKeepalive := { tka_period_ms : Z; tka_can_id : Z; tka_payload_length : Z; tka_frame_flags : Z; tka_payload : list Z }.
Record TxnBeginMessage := { tb_channel : Z; tb_flags : Z; tb_idle_timeout_ms : Z; tb_keepalive : TxnKeepalive }.
Record TxnBeginAckMessage := { tba_channel : Z; tba_status : Z; tba_txn_id : Z; tba_window_bytes : Z }.
Record TxnPattern := { tp_can_id : Z; tp_can_mask : Z; tp_payload_mask : Z; tp_payload_value : Z }.
Record TxnIsotpParameters := {
  ti_response_id : Z; ti_flags : Z; ti_tx_address : Z; ti_rx_address : Z; ti_padding : Z; ti_tx_data_length : Z;
  ti_block_size : Z; ti_st_min : Z;
}.
Record TxnTemplateMessage := {
  tt_channel : Z; tt_template_id : Z; tt_txn_id : Z; tt_advance_mode : Z; tt_flags : Z; tt_count_k : Z; tt_patterns_present : Z;
  tt_timeout_ms : Z; tt_gap_us : Z; tt_extend_timeout_ms : Z; tt_type : Z;
  tt_advance : TxnPattern; tt_abort : TxnPattern; tt_extend : TxnPattern; (** [patterns], indexed by [TTXN_PATTERN] *)
  tt_isotp : TxnIsotpParameters;
}.
Record TxnProgressMessage := { tpr_channel : Z; tpr_txn_id : Z; tpr_completed_steps : Z; tpr_consumed_bytes : Z }.
Record TxnRxFrame := { trx_can_id : Z; trx_payload_length : Z; trx_frame_flags : Z; trx_payload : list Z }.
Record TxnStatusMessage := {
  ts_channel : Z; ts_state : Z; ts_txn_id : Z; ts_failing_seq : Z; ts_offending_origin : Z; ts_seen_bitmap : Z; ts_expected : Z;
  ts_got : Z; ts_completed_steps : Z; ts_reason : Z; ts_flags : Z; ts_rx_frame : TxnRxFrame;
}.
Record TxnAbortMessage := { tab_channel : Z; tab_txn_id : Z }.
Record TxnRosterMessage := {
  tr_channel : Z; tr_txn_id : Z; tr_origin : TxnOriginExtractor; tr_roster_count : Z; tr_roster : list Z;
}.
Record TxnRosterReportMessage := { trr_channel : Z; trr_txn_id : Z; trr_seq : Z; trr_seen_bitmap : Z }.

Definition TxnMessage_SetChannel (encoded : list Z) (channel : Z) : list Z := <[(MESSAGE_HEADER_SIZE + 0)%nat := channel]> encoded.

Definition TxnMessage_Channel (payload : list Z) : Z := payload !!! 0%nat.

(** Header and zeroed body; 0 when the buffer is too small. *)
Definition encodeFixedBody (type : Z) (body_size : nat) (buffer : list Z) : nat * list Z :=
  let total_size := (MESSAGE_HEADER_SIZE + body_size)%nat in
  if Nat.ltb (length buffer) total_size then (0%nat, buffer) else (total_size, begin_message type body_size buffer).

Definition writeKeepalive (buffer : list Z) (k : TxnKeepalive) : list Z :=
  let len := if tka_payload_length k >? 64 then 64 else tka_payload_length k in
  let buffer := Wire_WriteU32 buffer (MESSAGE_HEADER_SIZE + 8) (tka_period_ms k) in
  let buffer := Wire_WriteU32 buffer (MESSAGE_HEADER_SIZE + 12) (tka_can_id k) in
  let buffer := <[(MESSAGE_HEADER_SIZE + 16)%nat := len]> buffer in
  let buffer := <[(MESSAGE_HEADER_SIZE + 17)%nat := tka_frame_flags k]> buffer in
  copy_at (MESSAGE_HEADER_SIZE + 20) (take (Z.to_nat len) (tka_payload k)) buffer.

(** Reads into a zeroed keepalive. *)
Definition readKeepalive (payload : list Z) : bool * TxnKeepalive :=
  let length := payload !!! 16%nat in
  let fixed data := {| tka_period_ms := Wire_ReadU32 payload 8; tka_can_id := Wire_ReadU32 payload 12;
                       tka_payload_length := length; tka_frame_flags := payload !!! 17%nat; tka_payload := data |} in
  let zeroed := replicate FRAME_PAYLOAD_MAX_FD 0 in
  if length >? 64 then (false, fixed zeroed)
  else (true, fixed (copy_at 0 (slice 20 (Z.to_nat length) payload) zeroed)).

Definition TxnBeginMessage_Encode (self : TxnBeginMessage) (buffer : list Z) : nat * list Z :=
  let '(total_size, buffer) := encodeFixedBody kMESSAGE_TYPE_TXN_BEGIN TXN_BEGIN_BODY_SIZE buffer in
  if Nat.eqb total_size 0 then (0%nat, buffer)
  else
    let buffer := <[(MESSAGE_HEADER_SIZE + 0)%nat := tb_channel self]> buffer in
    let buffer := <[(MESSAGE_HEADER_SIZE + 1)%nat := tb_flags self]> buffer in
    let buffer := Wire_WriteU32 buffer (MESSAGE_HEADER_SIZE + 4) (tb_idle_timeout_ms self) in
    (total_size, writeKeepalive buffer (tb_keepalive self)).

Definition TxnBeginMessage_Decode (self : TxnBeginMessage) (payload : list Z) : bool * TxnBeginMessage :=
  if Nat.ltb (length payload) TXN_BEGIN_BODY_SIZE then (false, self)
  else
    let '(ok, keepalive) := readKeepalive payload in
    (ok, {| tb_channel := payload !!! 0%nat; tb_flags := payload !!! 1%nat; tb_idle_timeout_ms := Wire_ReadU32 payload 4;
            tb_keepalive := keepalive |}).

Definition TxnBeginAckMessage_Encode (self : TxnBeginAckMessage) (buffer : list Z) : nat * list Z :=
  let '(total_size, buffer) := encodeFixedBody kMESSAGE_TYPE_TXN_BEGIN_ACK TXN_BEGIN_ACK_BODY_SIZE buffer in
  if Nat.eqb total_size 0 then (0%nat, buffer)
  else
    let buffer := <[(MESSAGE_HEADER_SIZE + 0)%nat := tba_channel self]> buffer in
    let buffer := <[(MESSAGE_HEADER_SIZE + 1)%nat := tba_status self]> buffer in
    let buffer := Wire_WriteU16 buffer (MESSAGE_HEADER_SIZE + 2) (tba_txn_id self) in
    let buffer := Wire_WriteU32 buffer (MESSAGE_HEADER_SIZE + 4) (tba_window_bytes self) in
    (total_size, buffer).

Definition TxnBeginAckMessage_Decode (self : TxnBeginAckMessage) (payload : list Z) : bool * TxnBeginAckMessage :=
  if Nat.ltb (length payload) TXN_BEGIN_ACK_BODY_SIZE then (false, self)
  else (true, {| tba_channel := payload !!! 0%nat; tba_status := payload !!! 1%nat; tba_txn_id := Wire_ReadU16 payload 2;
                 tba_window_bytes := Wire_ReadU32 payload 4 |}).

Definition writePattern (buffer : list Z) (off : nat) (p : TxnPattern) : list Z :=
  let buffer := Wire_WriteU32 buffer (off + 0) (tp_can_id p) in
  let buffer := Wire_WriteU32 buffer (off + 4) (tp_can_mask p) in
  let buffer := Wire_WriteU64 buffer (off + 8) (tp_payload_mask p) in
  Wire_WriteU64 buffer (off + 16) (tp_payload_value p).

Definition readPattern (payload : list Z) (off : nat) : TxnPattern :=
  {| tp_can_id := Wire_ReadU32 payload (off + 0); tp_can_mask := Wire_ReadU32 payload (off + 4);
     tp_payload_mask := Wire_ReadU64 payload (off + 8); tp_payload_value := Wire_ReadU64 payload (off + 16) |}.

Definition writeIsotpParameters (buffer : list Z) (p : TxnIsotpParameters) : list Z :=
  let buffer := Wire_WriteU32 buffer (MESSAGE_HEADER_SIZE + 92) (ti_response_id p) in
  let buffer := <[(MESSAGE_HEADER_SIZE + 96)%nat := ti_flags p]> buffer in
  let buffer := <[(MESSAGE_HEADER_SIZE + 97)%nat := ti_tx_address p]> buffer in
  let buffer := <[(MESSAGE_HEADER_SIZE + 98)%nat := ti_rx_address p]> buffer in
  let buffer := <[(MESSAGE_HEADER_SIZE + 99)%nat := ti_padding p]> buffer in
  let buffer := <[(MESSAGE_HEADER_SIZE + 100)%nat := ti_tx_data_length p]> buffer in
  let buffer := <[(MESSAGE_HEADER_SIZE + 101)%nat := ti_block_size p]> buffer in
  <[(MESSAGE_HEADER_SIZE + 102)%nat := ti_st_min p]> buffer.

Definition readIsotpParameters (payload : list Z) : TxnIsotpParameters :=
  {| ti_response_id := Wire_ReadU32 payload 92; ti_flags := payload !!! 96%nat; ti_tx_address := payload !!! 97%nat;
     ti_rx_address := payload !!! 98%nat; ti_padding := payload !!! 99%nat; ti_tx_data_length := payload !!! 100%nat;
     ti_block_size := payload !!! 101%nat; ti_st_min := payload !!! 102%nat |}.

Definition TxnTemplateMessage_Encode (self : TxnTemplateMessage) (buffer : list Z) : nat * list Z :=
  if tt_template_id self >=? TXN_TEMPLATES_MAX then (0%nat, buffer)
  else
    let '(total_size, buffer) := encodeFixedBody kMESSAGE_TYPE_TXN_TEMPLATE TXN_TEMPLATE_BODY_SIZE buffer in
    if Nat.eqb total_size 0 then (0%nat, buffer)
    else
      let buffer := <[(MESSAGE_HEADER_SIZE + 0)%nat := tt_channel self]> buffer in
      let buffer := <[(MESSAGE_HEADER_SIZE + 1)%nat := tt_template_id self]> buffer in
      let buffer := Wire_WriteU16 buffer (MESSAGE_HEADER_SIZE + 2) (tt_txn_id self) in
      let buffer := <[(MESSAGE_HEADER_SIZE + 4)%nat := tt_advance_mode self]> buffer in
      let buffer := <[(MESSAGE_HEADER_SIZE + 5)%nat := tt_flags self]> buffer in
      let buffer := <[(MESSAGE_HEADER_SIZE + 6)%nat := tt_count_k self]> buffer in
      let buffer := <[(MESSAGE_HEADER_SIZE + 7)%nat := tt_patterns_present self]> buffer in
      let buffer := Wire_WriteU32 buffer (MESSAGE_HEADER_SIZE + 8) (tt_timeout_ms self) in
      let buffer := Wire_WriteU32 buffer (MESSAGE_HEADER_SIZE + 12) (tt_gap_us self) in
      let buffer := <[(MESSAGE_HEADER_SIZE + 16)%nat := tt_type self]> buffer in
      let buffer := writePattern buffer (MESSAGE_HEADER_SIZE + 20 + 0 * PATTERN_SIZE) (tt_advance self) in
      let buffer := writePattern buffer (MESSAGE_HEADER_SIZE + 20 + 1 * PATTERN_SIZE) (tt_abort self) in
      let buffer := writePattern buffer (MESSAGE_HEADER_SIZE + 20 + 2 * PATTERN_SIZE) (tt_extend self) in
      let buffer := writeIsotpParameters buffer (tt_isotp self) in
      (total_size, Wire_WriteU32 buffer (MESSAGE_HEADER_SIZE + 104) (tt_extend_timeout_ms self)).

Definition TxnTemplateMessage_Decode (self : TxnTemplateMessage) (payload : list Z) : bool * TxnTemplateMessage :=
  if Nat.ltb (length payload) TXN_TEMPLATE_BODY_SIZE then (false, self)
  else if payload !!! 1%nat >=? TXN_TEMPLATES_MAX then (false, self)
  else
    (true, {| tt_channel := payload !!! 0%nat; tt_template_id := payload !!! 1%nat; tt_txn_id := Wire_ReadU16 payload 2;
              tt_advance_mode := payload !!! 4%nat; tt_flags := payload !!! 5%nat; tt_count_k := payload !!! 6%nat;
              tt_patterns_present := payload !!! 7%nat; tt_timeout_ms := Wire_ReadU32 payload 8; tt_gap_us := Wire_ReadU32 payload 12;
              tt_type := payload !!! 16%nat; tt_advance := readPattern payload (20 + 0 * PATTERN_SIZE);
              tt_abort := readPattern payload (20 + 1 * PATTERN_SIZE); tt_extend := readPattern payload (20 + 2 * PATTERN_SIZE);
              tt_isotp := readIsotpParameters payload; tt_extend_timeout_ms := Wire_ReadU32 payload 104 |}).

Definition TxnProgressMessage_Encode (self : TxnProgressMessage) (buffer : list Z) : nat * list Z :=
  let '(total_size, buffer) := encodeFixedBody kMESSAGE_TYPE_TXN_PROGRESS TXN_PROGRESS_BODY_SIZE buffer in
  if Nat.eqb total_size 0 then (0%nat, buffer)
  else
    let buffer := <[(MESSAGE_HEADER_SIZE + 0)%nat := tpr_channel self]> buffer in
    let buffer := Wire_WriteU16 buffer (MESSAGE_HEADER_SIZE + 2) (tpr_txn_id self) in
    let buffer := Wire_WriteU32 buffer (MESSAGE_HEADER_SIZE + 4) (tpr_completed_steps self) in
    (total_size, Wire_WriteU32 buffer (MESSAGE_HEADER_SIZE + 8) (tpr_consumed_bytes self)).

Definition TxnProgressMessage_Decode (self : TxnProgressMessage) (payload : list Z) : bool * TxnProgressMessage :=
  if Nat.ltb (length payload) TXN_PROGRESS_BODY_SIZE then (false, self)
  else (true, {| tpr_channel := payload !!! 0%nat; tpr_txn_id := Wire_ReadU16 payload 2;
                 tpr_completed_steps := Wire_ReadU32 payload 4; tpr_consumed_bytes := Wire_ReadU32 payload 8 |}).

Definition TxnStatusMessage_Encode (self : TxnStatusMessage) (buffer : list Z) : nat * list Z :=
  let rx := ts_rx_frame self in
  if negb (FrameMessage_IsPayloadLengthValid (trx_payload_length rx) (trx_frame_flags rx)) then (0%nat, buffer)
  else
    let '(total_size, buffer) := encodeFixedBody kMESSAGE_TYPE_TXN_STATUS TXN_STATUS_BODY_SIZE buffer in
    if Nat.eqb total_size 0 then (0%nat, buffer)
    else
      let buffer := <[(MESSAGE_HEADER_SIZE + 0)%nat := ts_channel self]> buffer in
      let buffer := <[(MESSAGE_HEADER_SIZE + 1)%nat := ts_state self]> buffer in
      let buffer := Wire_WriteU16 buffer (MESSAGE_HEADER_SIZE + 2) (ts_txn_id self) in
      let buffer := Wire_WriteU32 buffer (MESSAGE_HEADER_SIZE + 4) (ts_failing_seq self) in
      let buffer := Wire_WriteU32 buffer (MESSAGE_HEADER_SIZE + 8) (ts_offending_origin self) in
      let buffer := Wire_WriteU64 buffer (MESSAGE_HEADER_SIZE + 12) (ts_seen_bitmap self) in
      let buffer := Wire_WriteU64 buffer (MESSAGE_HEADER_SIZE + 20) (ts_expected self) in
      let buffer := Wire_WriteU64 buffer (MESSAGE_HEADER_SIZE + 28) (ts_got self) in
      let buffer := Wire_WriteU32 buffer (MESSAGE_HEADER_SIZE + 36) (ts_completed_steps self) in
      let buffer := Wire_WriteU32 buffer (MESSAGE_HEADER_SIZE + 40) (trx_can_id rx) in
      let buffer := <[(MESSAGE_HEADER_SIZE + 44)%nat := ts_reason self]> buffer in
      let buffer := <[(MESSAGE_HEADER_SIZE + 45)%nat := trx_payload_length rx]> buffer in
      let buffer := <[(MESSAGE_HEADER_SIZE + 46)%nat := trx_frame_flags rx]> buffer in
      let buffer := <[(MESSAGE_HEADER_SIZE + 47)%nat := ts_flags self]> buffer in
      (total_size, copy_at (MESSAGE_HEADER_SIZE + 48) (take (Z.to_nat (trx_payload_length rx)) (trx_payload rx)) buffer).

Definition TxnStatusMessage_Decode (self : TxnStatusMessage) (payload : list Z) : bool * TxnStatusMessage :=
  if Nat.ltb (length payload) TXN_STATUS_BODY_SIZE then (false, self)
  else
    let rx_payload_length := payload !!! 45%nat in
    let rx_frame_flags := payload !!! 46%nat in
    if negb (FrameMessage_IsPayloadLengthValid rx_payload_length rx_frame_flags) then (false, self)
    else
      (true, {| ts_channel := payload !!! 0%nat; ts_state := payload !!! 1%nat; ts_txn_id := Wire_ReadU16 payload 2;
                ts_failing_seq := Wire_ReadU32 payload 4; ts_offending_origin := Wire_ReadU32 payload 8;
                ts_seen_bitmap := Wire_ReadU64 payload 12; ts_expected := Wire_ReadU64 payload 20; ts_got := Wire_ReadU64 payload 28;
                ts_completed_steps := Wire_ReadU32 payload 36; ts_reason := payload !!! 44%nat; ts_flags := payload !!! 47%nat;
                ts_rx_frame :=
                  {| trx_can_id := Wire_ReadU32 payload 40; trx_payload_length := rx_payload_length; trx_frame_flags := rx_frame_flags;
                     trx_payload := copy_at 0 (slice 48 (Z.to_nat rx_payload_length) payload) (replicate FRAME_PAYLOAD_MAX_FD 0) |} |}).

Definition TxnAbortMessage_Encode (self : TxnAbortMessage) (buffer : list Z) : nat * list Z :=
  let '(total_size, buffer) := encodeFixedBody kMESSAGE_TYPE_TXN_ABORT TXN_ABORT_BODY_SIZE buffer in
  if Nat.eqb total_size 0 then (0%nat, buffer)
  else
    let buffer := <[(MESSAGE_HEADER_SIZE + 0)%nat := tab_channel self]> buffer in
    (total_size, Wire_WriteU16 buffer (MESSAGE_HEADER_SIZE + 2) (tab_txn_id self)).

Definition TxnAbortMessage_Decode (self : TxnAbortMessage) (payload : list Z) : bool * TxnAbortMessage :=
  if Nat.ltb (length payload) TXN_ABORT_BODY_SIZE then (false, self)
  else (true, {| tab_channel := payload !!! 0%nat; tab_txn_id := Wire_ReadU16 payload 2 |}).

Definition writeRosterEntry (buffer : list Z) (off : nat) (e : Z) : list Z := Wire_WriteU32 buffer off e.
Definition readRosterEntry (payload : list Z) (off : nat) : Z := Wire_ReadU32 payload off.

Definition TxnRosterMessage_Encode (self : TxnRosterMessage) (buffer : list Z) : nat * list Z :=
  if tr_roster_count self >? 64 then (0%nat, buffer)
  else
    let '(total_size, buffer) := encodeFixedBody kMESSAGE_TYPE_TXN_ROSTER TXN_ROSTER_BODY_SIZE buffer in
    if Nat.eqb total_size 0 then (0%nat, buffer)
    else
      let buffer := <[(MESSAGE_HEADER_SIZE + 0)%nat := tr_channel self]> buffer in
      let buffer := <[(MESSAGE_HEADER_SIZE + 1)%nat := toe_source (tr_origin self)]> buffer in
      let buffer := Wire_WriteU16 buffer (MESSAGE_HEADER_SIZE + 2) (tr_txn_id self) in
      let buffer := Wire_WriteU32 buffer (MESSAGE_HEADER_SIZE + 4) (toe_mask (tr_origin self)) in
      let buffer := <[(MESSAGE_HEADER_SIZE + 8)%nat := toe_shift (tr_origin self)]> buffer in
      let buffer := <[(MESSAGE_HEADER_SIZE + 9)%nat := toe_payload_offset (tr_origin self)]> buffer in
      let buffer := <[(MESSAGE_HEADER_SIZE + 10)%nat := tr_roster_count self]> buffer in
      (total_size,
       write_entries writeRosterEntry 4 (MESSAGE_HEADER_SIZE + 12) (take (Z.to_nat (tr_roster_count self)) (tr_roster self)) buffer).

Definition TxnRosterMessage_Decode (self : TxnRosterMessage) (payload : list Z) : bool * TxnRosterMessage :=
  if Nat.ltb (length payload) TXN_ROSTER_BODY_SIZE || (payload !!! 10%nat >? 64) then (false, self)
  else
    let count := payload !!! 10%nat in
    (true, {| tr_channel := payload !!! 0%nat; tr_txn_id := Wire_ReadU16 payload 2;
              tr_origin := {| toe_source := payload !!! 1%nat; toe_shift := payload !!! 8%nat;
                              toe_payload_offset := payload !!! 9%nat; toe_mask := Wire_ReadU32 payload 4 |};
              tr_roster_count := count;
              tr_roster := list_inserts 0 (read_entries readRosterEntry 4 12 (Z.to_nat count) payload) (replicate TXN_ROSTER_MAX 0) |}).

Definition TxnRosterReportMessage_Encode (self : TxnRosterReportMessage) (buffer : list Z) : nat * list Z :=
  let '(total_size, buffer) := encodeFixedBody kMESSAGE_TYPE_TXN_ROSTER_REPORT TXN_ROSTER_REPORT_BODY_SIZE buffer in
  if Nat.eqb total_size 0 then (0%nat, buffer)
  else
    let buffer := <[(MESSAGE_HEADER_SIZE + 0)%nat := trr_channel self]> buffer in
    let buffer := Wire_WriteU16 buffer (MESSAGE_HEADER_SIZE + 2) (trr_txn_id self) in
    let buffer := Wire_WriteU32 buffer (MESSAGE_HEADER_SIZE + 4) (trr_seq self) in
    (total_size, Wire_WriteU64 buffer (MESSAGE_HEADER_SIZE + 12) (trr_seen_bitmap self)).

Definition TxnRosterReportMessage_Decode (self : TxnRosterReportMessage) (payload : list Z) : bool * TxnRosterReportMessage :=
  if Nat.ltb (length payload) TXN_ROSTER_REPORT_BODY_SIZE then (false, self)
  else (true, {| trr_channel := payload !!! 0%nat; trr_txn_id := Wire_ReadU16 payload 2; trr_seq := Wire_ReadU32 payload 4;
                 trr_seen_bitmap := Wire_ReadU64 payload 12 |}).

(** ** The codec promises *)

Definition keepalive_ok (k : TxnKeepalive) : Prop :=
  is_u32 (tka_period_ms k) ∧ is_u32 (tka_can_id k) ∧ 0 ≤ tka_payload_length k ≤ 64 ∧ is_u8 (tka_frame_flags k) ∧
  length (tka_payload k) = FRAME_PAYLOAD_MAX_FD.
Definition keepalive_same (k k' : TxnKeepalive) : Prop :=
  tka_period_ms k' = tka_period_ms k ∧ tka_can_id k' = tka_can_id k ∧ tka_payload_length k' = tka_payload_length k ∧
  tka_frame_flags k' = tka_frame_flags k ∧
  take (Z.to_nat (tka_payload_length k)) (tka_payload k') = take (Z.to_nat (tka_payload_length k)) (tka_payload k).
Definition pattern_ok (p : TxnPattern) : Prop :=
  is_u32 (tp_can_id p) ∧ is_u32 (tp_can_mask p) ∧ is_u64 (tp_payload_mask p) ∧ is_u64 (tp_payload_value p).
Definition isotp_ok (p : TxnIsotpParameters) : Prop :=
  is_u32 (ti_response_id p) ∧ is_u8 (ti_flags p) ∧ is_u8 (ti_tx_address p) ∧ is_u8 (ti_rx_address p) ∧ is_u8 (ti_padding p) ∧
  is_u8 (ti_tx_data_length p) ∧ is_u8 (ti_block_size p) ∧ is_u8 (ti_st_min p).
Definition rx_frame_ok (r : TxnRxFrame) : Prop :=
  is_u32 (trx_can_id r) ∧ is_u8 (trx_frame_flags r) ∧ 0 ≤ trx_payload_length r ∧
  FrameMessage_IsPayloadLengthValid (trx_payload_length r) (trx_frame_flags r) = true ∧
  length (trx_payload r) = FRAME_PAYLOAD_MAX_FD.
Definition rx_frame_same (r r' : TxnRxFrame) : Prop :=
  trx_can_id r' = trx_can_id r ∧ trx_payload_length r' = trx_payload_length r ∧ trx_frame_flags r' = trx_frame_flags r ∧
  take (Z.to_nat (trx_payload_length r)) (trx_payload r') = take (Z.to_nat (trx_payload_length r)) (trx_payload r).

#[export] Instance TxnBeginMessage_wire : WireMessage TxnBeginMessage := {|
  wm_type := kMESSAGE_TYPE_TXN_BEGIN; wm_size _ := TXN_BEGIN_BODY_SIZE; wm_shape _ := True;
  wm_valid m := is_u8 (tb_channel m) ∧ is_u8 (tb_flags m) ∧ is_u32 (tb_idle_timeout_ms m) ∧ keepalive_ok (tb_keepalive m);
  wm_encode := TxnBeginMessage_Encode; wm_decode := TxnBeginMessage_Decode;
  wm_same m m' := tb_channel m' = tb_channel m ∧ tb_flags m' = tb_flags m ∧ tb_idle_timeout_ms m' = tb_idle_timeout_ms m ∧
    keepalive_same (tb_keepalive m) (tb_keepalive m');
|}.

#[export] Instance TxnBeginAckMessage_wire : WireMessage TxnBeginAckMessage := {|
  wm_type := kMESSAGE_TYPE_TXN_BEGIN_ACK; wm_size _ := TXN_BEGIN_ACK_BODY_SIZE; wm_shape _ := True;
  wm_valid m := is_u8 (tba_channel m) ∧ is_u8 (tba_status m) ∧ is_u16 (tba_txn_id m) ∧ is_u32 (tba_window_bytes m);
  wm_encode := TxnBeginAckMessage_Encode; wm_decode := TxnBeginAckMessage_Decode; wm_same m m' := m' = m;
|}.

#[export] Instance TxnTemplateMessage_wire : WireMessage TxnTemplateMessage := {|
  wm_type := kMESSAGE_TYPE_TXN_TEMPLATE; wm_size _ := TXN_TEMPLATE_BODY_SIZE; wm_shape _ := True;
  wm_valid m := is_u8 (tt_channel m) ∧ 0 ≤ tt_template_id m < 16 ∧ is_u16 (tt_txn_id m) ∧ is_u8 (tt_advance_mode m) ∧
    is_u8 (tt_flags m) ∧ is_u8 (tt_count_k m) ∧ is_u8 (tt_patterns_present m) ∧ is_u32 (tt_timeout_ms m) ∧ is_u32 (tt_gap_us m) ∧
    is_u32 (tt_extend_timeout_ms m) ∧ is_u8 (tt_type m) ∧ pattern_ok (tt_advance m) ∧ pattern_ok (tt_abort m) ∧
    pattern_ok (tt_extend m) ∧ isotp_ok (tt_isotp m);
  wm_encode := TxnTemplateMessage_Encode; wm_decode := TxnTemplateMessage_Decode; wm_same m m' := m' = m;
|}.

#[export] Instance TxnProgressMessage_wire : WireMessage TxnProgressMessage := {|
  wm_type := kMESSAGE_TYPE_TXN_PROGRESS; wm_size _ := TXN_PROGRESS_BODY_SIZE; wm_shape _ := True;
  wm_valid m := is_u8 (tpr_channel m) ∧ is_u16 (tpr_txn_id m) ∧ is_u32 (tpr_completed_steps m) ∧ is_u32 (tpr_consumed_bytes m);
  wm_encode := TxnProgressMessage_Encode; wm_decode := TxnProgressMessage_Decode; wm_same m m' := m' = m;
|}.

#[export] Instance TxnStatusMessage_wire : WireMessage TxnStatusMessage := {|
  wm_type := kMESSAGE_TYPE_TXN_STATUS; wm_size _ := TXN_STATUS_BODY_SIZE; wm_shape _ := True;
  wm_valid m := is_u8 (ts_channel m) ∧ is_u8 (ts_state m) ∧ is_u16 (ts_txn_id m) ∧ is_u32 (ts_failing_seq m) ∧
    is_u32 (ts_offending_origin m) ∧ is_u64 (ts_seen_bitmap m) ∧ is_u64 (ts_expected m) ∧ is_u64 (ts_got m) ∧
    is_u32 (ts_completed_steps m) ∧ is_u8 (ts_reason m) ∧ is_u8 (ts_flags m) ∧ rx_frame_ok (ts_rx_frame m);
  wm_encode := TxnStatusMessage_Encode; wm_decode := TxnStatusMessage_Decode;
  wm_same m m' := ts_channel m' = ts_channel m ∧ ts_state m' = ts_state m ∧ ts_txn_id m' = ts_txn_id m ∧
    ts_failing_seq m' = ts_failing_seq m ∧ ts_offending_origin m' = ts_offending_origin m ∧ ts_seen_bitmap m' = ts_seen_bitmap m ∧
    ts_expected m' = ts_expected m ∧ ts_got m' = ts_got m ∧ ts_completed_steps m' = ts_completed_steps m ∧
    ts_reason m' = ts_reason m ∧ ts_flags m' = ts_flags m ∧ rx_frame_same (ts_rx_frame m) (ts_rx_frame m');
|}.

#[export] Instance TxnAbortMessage_wire : WireMessage TxnAbortMessage := {|
  wm_type := kMESSAGE_TYPE_TXN_ABORT; wm_size _ := TXN_ABORT_BODY_SIZE; wm_shape _ := True;
  wm_valid m := is_u8 (tab_channel m) ∧ is_u16 (tab_txn_id m);
  wm_encode := TxnAbortMessage_Encode; wm_decode := TxnAbortMessage_Decode; wm_same m m' := m' = m;
|}.

#[export] Instance TxnRosterMessage_wire : WireMessage TxnRosterMessage := {|
  wm_type := kMESSAGE_TYPE_TXN_ROSTER; wm_size _ := TXN_ROSTER_BODY_SIZE; wm_shape _ := True;
  wm_valid m := is_u8 (tr_channel m) ∧ is_u16 (tr_txn_id m) ∧ is_u8 (toe_source (tr_origin m)) ∧ is_u8 (toe_shift (tr_origin m)) ∧
    is_u8 (toe_payload_offset (tr_origin m)) ∧ is_u32 (toe_mask (tr_origin m)) ∧ 0 ≤ tr_roster_count m ≤ 64 ∧
    length (tr_roster m) = TXN_ROSTER_MAX ∧ Forall is_u32 (tr_roster m);
  wm_encode := TxnRosterMessage_Encode; wm_decode := TxnRosterMessage_Decode;
  wm_same m m' := tr_channel m' = tr_channel m ∧ tr_txn_id m' = tr_txn_id m ∧ tr_origin m' = tr_origin m ∧
    tr_roster_count m' = tr_roster_count m ∧
    take (Z.to_nat (tr_roster_count m)) (tr_roster m') = take (Z.to_nat (tr_roster_count m)) (tr_roster m);
|}.

#[export] Instance TxnRosterReportMessage_wire : WireMessage TxnRosterReportMessage := {|
  wm_type := kMESSAGE_TYPE_TXN_ROSTER_REPORT; wm_size _ := TXN_ROSTER_REPORT_BODY_SIZE; wm_shape _ := True;
  wm_valid m := is_u8 (trr_channel m) ∧ is_u16 (trr_txn_id m) ∧ is_u32 (trr_seq m) ∧ is_u64 (trr_seen_bitmap m);
  wm_encode := TxnRosterReportMessage_Encode; wm_decode := TxnRosterReportMessage_Decode; wm_same m m' := m' = m;
|}.

Lemma encodeFixedBody_fits type n buf :
  (MESSAGE_HEADER_SIZE + n ≤ length buf)%nat → encodeFixedBody type n buf = ((MESSAGE_HEADER_SIZE + n)%nat, begin_message type n buf).
Proof. intros Hb. unfold encodeFixedBody. by rewrite (proj2 (Nat.ltb_ge _ _)) by lia. Qed.

(** A payload field that was read into a zeroed array. *)
Lemma take_copy_zero n (d : list Z) (len : nat) :
  length d = len → (len ≤ n)%nat → take len (copy_at 0 d (replicate n 0)) = d.
Proof. intros Hd Hn. apply take_list_inserts; [done|]. rewrite length_replicate. lia. Qed.

(** The stores of an encoder into a large enough buffer, and the header they leave. *)
Ltac begin_fixed type n buf :=
  rewrite encodeFixedBody_fits by lia; cbn [Nat.eqb Nat.add]; stores; eexists;
  split_and!; [done|codec_len|header_ok type n buf|drops; done|].
(** The decoder reads each field back; [ext] says that the record is its fields. *)
Ltac fields_back ext proj := eexists; split; [reflexivity|]; cbn [wm_same]; apply ext; proj; load_field.

Lemma begin_ack_ext a b :
  tba_channel a = tba_channel b → tba_status a = tba_status b → tba_txn_id a = tba_txn_id b →
  tba_window_bytes a = tba_window_bytes b → a = b.
Proof. destruct a, b; cbn; intros; subst; reflexivity. Qed.
Lemma progress_ext a b :
  tpr_channel a = tpr_channel b → tpr_txn_id a = tpr_txn_id b → tpr_completed_steps a = tpr_completed_steps b →
  tpr_consumed_bytes a = tpr_consumed_bytes b → a = b.
Proof. destruct a, b; cbn; intros; subst; reflexivity. Qed.
Lemma abort_ext a b : tab_channel a = tab_channel b → tab_txn_id a = tab_txn_id b → a = b.
Proof. destruct a, b; cbn; intros; subst; reflexivity. Qed.
Lemma roster_report_ext a b :
  trr_channel a = trr_channel b → trr_txn_id a = trr_txn_id b → trr_seq a = trr_seq b → trr_seen_bitmap a = trr_seen_bitmap b → a = b.
Proof. destruct a, b; cbn; intros; subst; reflexivity. Qed.


#[export] Instance TxnBeginAckMessage_ok : WireMessageOk TxnBeginAckMessage.
Proof.
  split; [done|simpl; lia|]. intros m buf (Hc & Hs & Ht & Hw) Hb. simpl in *. unfold TxnBeginAckMessage_Encode.
  begin_fixed kMESSAGE_TYPE_TXN_BEGIN_ACK 8%nat buf. intros old _. unfold TxnBeginAckMessage_Decode.
  rewrite length_slice by codec_len. cbn [Nat.ltb Nat.leb]. fields_back begin_ack_ext ltac:(cbn [tba_channel tba_status tba_txn_id tba_window_bytes]).
Qed.

#[export] Instance TxnProgressMessage_ok : WireMessageOk TxnProgressMessage.
Proof.
  split; [done|simpl; lia|]. intros m buf (Hc & Ht & Hs & Hw) Hb. simpl in *. unfold TxnProgressMessage_Encode.
  begin_fixed kMESSAGE_TYPE_TXN_PROGRESS 12%nat buf. intros old _. unfold TxnProgressMessage_Decode.
  rewrite length_slice by codec_len. cbn [Nat.ltb Nat.leb]. fields_back progress_ext ltac:(cbn [tpr_channel tpr_txn_id tpr_completed_steps tpr_consumed_bytes]).
Qed.

#[export] Instance TxnAbortMessage_ok : WireMessageOk TxnAbortMessage.
Proof.
  split; [done|simpl; lia|]. intros m buf (Hc & Ht) Hb. simpl in *. unfold TxnAbortMessage_Encode.
  begin_fixed kMESSAGE_TYPE_TXN_ABORT 4%nat buf. intros old _. unfold TxnAbortMessage_Decode.
  rewrite length_slice by codec_len. cbn [Nat.ltb Nat.leb]. fields_back abort_ext ltac:(cbn [tab_channel tab_txn_id]).
Qed.

#[export] Instance TxnRosterReportMessage_ok : WireMessageOk TxnRosterReportMessage.
Proof.
  split; [done|simpl; lia|]. intros m buf (Hc & Ht & Hs & Hw) Hb. simpl in *. unfold TxnRosterReportMessage_Encode.
  begin_fixed kMESSAGE_TYPE_TXN_ROSTER_REPORT 20%nat buf. intros old _. unfold TxnRosterReportMessage_Decode.
  rewrite length_slice by codec_len. cbn [Nat.ltb Nat.leb]. fields_back roster_report_ext ltac:(cbn [trr_channel trr_txn_id trr_seq trr_seen_bitmap]).
Qed.

#[export] Instance TxnBeginMessage_ok : WireMessageOk TxnBeginMessage.
Proof.
  split; [done|simpl; lia|]. intros m buf (Hc & Hf & Hi & Hp & Hci & Hl & Hff & Hlen) Hb. simpl in *.
  unfold TxnBeginMessage_Encode, writeKeepalive.
  replace (tka_payload_length (tb_keepalive m) >? 64) with false by (symmetry; rewrite Z.gtb_ltb; apply Z.ltb_ge; lia).
  set (n := Z.to_nat (tka_payload_length (tb_keepalive m))). set (d := take n (tka_payload (tb_keepalive m))).
  assert (length d = n) as Hd by (subst d n; rewrite length_take; lia). assert (n ≤ 64)%nat by (subst n; lia).
  begin_fixed kMESSAGE_TYPE_TXN_BEGIN 84%nat buf. intros old _. unfold TxnBeginMessage_Decode, readKeepalive.
  rewrite length_slice by codec_len. cbn [Nat.ltb Nat.leb]. set (p := slice 4 84 _).
  assert (p !!! 16%nat = tka_payload_length (tb_keepalive m)) as Hp16 by (subst p; load_field). rewrite Hp16.
  replace (tka_payload_length (tb_keepalive m) >? 64) with false by (symmetry; rewrite Z.gtb_ltb; apply Z.ltb_ge; lia). fold n.
  eexists. split; [reflexivity|]. cbn [wm_same TxnBeginMessage_wire tb_channel tb_flags tb_idle_timeout_ms tb_keepalive].
  unfold keepalive_same. cbn [tka_period_ms tka_can_id tka_payload_length tka_frame_flags tka_payload]. fold n d.
  conjuncts; field_back p. rewrite (take_copy_zero 64 _ n).
  - subst p. by loads.
  - subst p. rewrite length_slice; [done|]. rewrite length_slice; codec_len.
  - lia.
Qed.

Lemma template_ext a b :
  tt_channel a = tt_channel b → tt_template_id a = tt_template_id b → tt_txn_id a = tt_txn_id b →
  tt_advance_mode a = tt_advance_mode b → tt_flags a = tt_flags b → tt_count_k a = tt_count_k b →
  tt_patterns_present a = tt_patterns_present b → tt_timeout_ms a = tt_timeout_ms b → tt_gap_us a = tt_gap_us b →
  tt_extend_timeout_ms a = tt_extend_timeout_ms b → tt_type a = tt_type b → tt_advance a = tt_advance b → tt_abort a = tt_abort b →
  tt_extend a = tt_extend b → tt_isotp a = tt_isotp b → a = b.
Proof. destruct a, b; cbn; intros; subst; reflexivity. Qed.
Lemma pattern_ext a b :
  tp_can_id a = tp_can_id b → tp_can_mask a = tp_can_mask b → tp_payload_mask a = tp_payload_mask b →
  tp_payload_value a = tp_payload_value b → a = b.
Proof. destruct a, b; cbn; intros; subst; reflexivity. Qed.
Lemma isotp_ext a b :
  ti_response_id a = ti_response_id b → ti_flags a = ti_flags b → ti_tx_address a = ti_tx_address b →
  ti_rx_address a = ti_rx_address b → ti_padding a = ti_padding b → ti_tx_data_length a = ti_tx_data_length b →
  ti_block_size a = ti_block_size b → ti_st_min a = ti_st_min b → a = b.
Proof. destruct a, b; cbn; intros; subst; reflexivity. Qed.

Ltac pattern_back :=
  apply pattern_ext; cbn [readPattern tp_can_id tp_can_mask tp_payload_mask tp_payload_value Nat.add Nat.mul]; load_field.

#[export] Instance TxnTemplateMessage_ok : WireMessageOk TxnTemplateMessage.
Proof.
  split; [done|simpl; lia|].
  intros m buf (Hc & Hi & Ht & Ham & Hf & Hk & Hpp & Hto & Hg & Het & Hty & (?&?&?&?) & (?&?&?&?) & (?&?&?&?) & (?&?&?&?&?&?&?&?)) Hb.
  simpl in *. unfold TxnTemplateMessage_Encode, writePattern, writeIsotpParameters. unfold TXN_TEMPLATES_MAX.
  replace (tt_template_id m >=? 16) with false by (symmetry; rewrite Z.geb_leb; apply Z.leb_gt; lia). cbn [Nat.mul].
  begin_fixed kMESSAGE_TYPE_TXN_TEMPLATE 108%nat buf. intros old _. unfold TxnTemplateMessage_Decode, TXN_TEMPLATES_MAX.
  rewrite length_slice by codec_len. cbn [Nat.ltb Nat.leb]. set (p := slice 4 108 _).
  assert (p !!! 1%nat = tt_template_id m) as Hp1 by (subst p; load_field). rewrite Hp1.
  replace (tt_template_id m >=? 16) with false by (symmetry; rewrite Z.geb_leb; apply Z.leb_gt; lia).
  eexists. split; [reflexivity|]. cbn [wm_same TxnTemplateMessage_wire]. subst p.
  apply template_ext; cbn [tt_channel tt_template_id tt_txn_id tt_advance_mode tt_flags tt_count_k tt_patterns_present tt_timeout_ms
    tt_gap_us tt_extend_timeout_ms tt_type tt_advance tt_abort tt_extend tt_isotp]; [load_field|reflexivity|load_field..|pattern_back|pattern_back|pattern_back|].
  apply isotp_ext; cbn [readIsotpParameters ti_response_id ti_flags ti_tx_address ti_rx_address ti_padding ti_tx_data_length ti_block_size
    ti_st_min]; load_field.
Qed.

Lemma valid_length_le n flags : FrameMessage_IsPayloadLengthValid n flags = true → n ≤ 64.
Proof. unfold FrameMessage_IsPayloadLengthValid, FRAME_PAYLOAD_MAX_CLASSIC. case_tests; intros; bool_to_prop; lia. Qed.

#[export] Instance TxnStatusMessage_ok : WireMessageOk TxnStatusMessage.
Proof.
  split; [done|simpl; lia|].
  intros m buf (Hc & Hs & Ht & Hfs & Ho & Hsb & He & Hg & Hcs & Hr & Hf & Hrc & Hrf & Hrl & Hval & Hlen) Hb. simpl in *.
  pose proof (valid_length_le _ _ Hval) as Hmax. unfold TxnStatusMessage_Encode. rewrite Hval. cbn [negb].
  set (n := Z.to_nat (trx_payload_length (ts_rx_frame m))). set (d := take n (trx_payload (ts_rx_frame m))).
  assert (length d = n) as Hd by (subst d n; rewrite length_take; lia). assert (n ≤ 64)%nat by (subst n; lia).
  begin_fixed kMESSAGE_TYPE_TXN_STATUS 112%nat buf. intros old _. unfold TxnStatusMessage_Decode.
  rewrite length_slice by codec_len. cbn [Nat.ltb Nat.leb]. set (p := slice 4 112 _).
  assert (p !!! 45%nat = trx_payload_length (ts_rx_frame m)) as -> by (subst p; load_field).
  assert (p !!! 46%nat = trx_frame_flags (ts_rx_frame m)) as -> by (subst p; load_field).
  rewrite Hval. cbn [negb]. fold n. eexists. split; [reflexivity|].
  cbn [wm_same TxnStatusMessage_wire ts_channel ts_state ts_txn_id ts_failing_seq ts_offending_origin ts_seen_bitmap ts_expected ts_got
    ts_completed_steps ts_reason ts_flags ts_rx_frame].
  unfold rx_frame_same. cbn [trx_can_id trx_payload_length trx_frame_flags trx_payload]. fold n d.
  conjuncts; field_back p. rewrite (take_copy_zero 64 _ n).
  - subst p. by loads.
  - subst p. rewrite length_slice; [done|]. rewrite length_slice; codec_len.
  - lia.
Qed.

#[export] Instance roster_entry_writer : EntryWriter writeRosterEntry 4 is_u32 (le_bytes 4).
Proof.
  split.
  - intros buf off e. unfold writeRosterEntry, Wire_WriteU32, Wire_WriteU16. by rewrite !length_insert.
  - intros buf off e o n He Hdis. unfold writeRosterEntry. stores. by loads.
  - intros buf off e He Hb _. unfold writeRosterEntry. stores. by loads.
Qed.

#[export] Instance TxnRosterMessage_ok : WireMessageOk TxnRosterMessage.
Proof.
  split; [done|simpl; lia|]. intros m buf (Hc & Ht & Hs & Hsh & Hpo & Hm & Hn & Hlen & Hall) Hb. simpl in *. unfold TxnRosterMessage_Encode.
  replace (tr_roster_count m >? 64) with false by (symmetry; rewrite Z.gtb_ltb; apply Z.ltb_ge; lia).
  rewrite encodeFixedBody_fits by lia. cbn [Nat.eqb Nat.add].
  set (n := Z.to_nat (tr_roster_count m)). set (es := take n (tr_roster m)).
  assert (length es = n) as Hes by (subst es n; rewrite length_take; lia). assert (Forall is_u32 es) as Hok by (by apply Forall_take).
  assert (n ≤ 64)%nat by (subst n; lia). pose proof (slice_write_entries_ne writeRosterEntry 4 is_u32 _) as Hne.
  stores. eexists. split_and!; [done|codec_len|header_ok_with Hne kMESSAGE_TYPE_TXN_ROSTER 268%nat buf| |].
  { rewrite (drop_write_entries writeRosterEntry 4 is_u32 _) by (done || codec_len). drops. done. }
  intros old _. unfold TxnRosterMessage_Decode. rewrite length_slice by codec_len. cbn [Nat.ltb Nat.leb orb]. set (p := slice 4 268 _).
  assert (p !!! 10%nat = tr_roster_count m) as -> by (subst p; load_field_with Hne).
  replace (tr_roster_count m >? 64) with false by (symmetry; rewrite Z.gtb_ltb; apply Z.ltb_ge; lia). fold n.
  eexists. split; [reflexivity|]. cbn [wm_same TxnRosterMessage_wire tr_channel tr_txn_id tr_origin tr_roster_count tr_roster]. fold n es.
  conjuncts; [subst p; load_field_with Hne..| |reflexivity|].
  - destruct (tr_origin m) as [o1 o2 o3 o4]. cbn [toe_source toe_shift toe_payload_offset toe_mask] in *.
    assert (p !!! 1%nat = o1) as -> by (subst p; load_field_with Hne). assert (p !!! 8%nat = o2) as -> by (subst p; load_field_with Hne).
    assert (p !!! 9%nat = o3) as -> by (subst p; load_field_with Hne).
    assert (Wire_ReadU32 p 4 = o4) as -> by (subst p; load_field_with Hne). reflexivity.
  - assert (read_entries readRosterEntry 4 12 n p = es) as ->; [|apply take_list_inserts; [done|rewrite length_replicate; lia]].
    apply Forall2_eq_eq. rewrite <- Hes at 1. subst p.
    apply (read_write_entries writeRosterEntry 4 is_u32 _ readRosterEntry (λ x y, y = x) 12 es _ 4 268);
      [|done|codec_len|loads; done|lia].
    intros e q o He Hq. by apply Wire_ReadU32_slice.
Qed.
