(* ===== verification/TxnStepsMessage.v ===== *)
(** * Transaction steps (src/protocol/txn_steps_message.c)

    A TXN_STEPS message carries step records back to back: eight bytes of
    header, the payload padded to eight bytes, and the expected value when the
    step has one.  A writer fills the message record by record; the receiver
    checks that the records tile the payload before it hands them out. *)

From S2P Require Import Prelude CString Wire Codec FrameMessage TxnMessage.

Notation TXN_STEPS_FIXED_FIELDS_SIZE := 12%nat (only parsing).
Notation TXN_STEPS_RECORD_BYTES_MAX := 400%nat (only parsing).
Notation TXN_STEP_RECORD_HEADER_SIZE := 8%nat (only parsing).
Definition TXN_STEP_RECORD_ALIGNMENT : Z := 8.
Notation TXN_STEP_EXPECT_VALUE_SIZE := 8%nat (only parsing).
Notation TXN_STEP_PAYLOAD_SIZE_MAX := 255%nat (only parsing).
Notation STEPS_FIRST_RECORD_OFFSET := 16%nat (only parsing).
Definition STEPS_COUNT_MAX : Z := 255.
Definition TXN_STEPS_FLAG_END : Z := 1.
Definition TXN_STEP_FLAG_EXPECT_VALUE : Z := 1.
Definition TXN_STEP_FLAG_EXPECT_ONLY : Z := 2.
Definition TXN_STEP_FLAG_MESSAGE : Z := 8.
Definition TXN_STEP_FLAG_CONTINUED : Z := 16.

Record TxnStep := {
  st_template_id : Z; st_flags : Z; st_payload_length : Z; st_frame_flags : Z; st_can_id : Z; st_expect_value : Z; st_payload : list Z;
}.
Definition TxnStep_zero : TxnStep := {|
  st_template_id := 0; st_flags := 0; st_payload_length := 0; st_frame_flags := 0; st_can_id := 0; st_expect_value := 0;
  st_payload := replicate TXN_STEP_PAYLOAD_SIZE_MAX 0 |}.

(** [records] and [records_size]: the bytes of the records. *)
Record TxnStepsMessage := {
  tsm_channel : Z; tsm_step_count : Z; tsm_txn_id : Z; tsm_first_seq : Z; tsm_flags : Z; tsm_records : list Z;
}.

(** [buffer_size] is the buffer's length. *)
Record TxnStepsWriter := { tw_buffer : list Z; tw_records_size : Z; tw_step_count : Z }.

(** ** Records *)

Definition isMessageRecordValid (step : TxnStep) : bool :=
  if (st_payload_length step =? 0) || negb (st_frame_flags step =? 0) then false
  else if has_flag (st_flags step) TXN_STEP_FLAG_EXPECT_ONLY then false
  else if has_flag (st_flags step) TXN_STEP_FLAG_CONTINUED then negb (has_flag (st_flags step) TXN_STEP_FLAG_EXPECT_VALUE)
  else true.

Definition isStepValid (step : TxnStep) : bool :=
  if st_template_id step >=? TXN_TEMPLATES_MAX then false
  else if has_flag (st_flags step) TXN_STEP_FLAG_MESSAGE then isMessageRecordValid step
  else if has_flag (st_flags step) TXN_STEP_FLAG_CONTINUED then false
  else if has_flag (st_flags step) TXN_STEP_FLAG_EXPECT_ONLY && negb (st_payload_length step =? 0) then false
  else FrameMessage_IsPayloadLengthValid (st_payload_length step) (st_frame_flags step).

Definition paddedPayloadSize (payload_length : Z) : nat :=
  Z.to_nat ((payload_length + TXN_STEP_RECORD_ALIGNMENT - 1) / TXN_STEP_RECORD_ALIGNMENT * TXN_STEP_RECORD_ALIGNMENT).

Definition recordSize (payload_length flags : Z) : nat :=
  (TXN_STEP_RECORD_HEADER_SIZE + paddedPayloadSize payload_length +
   if has_flag flags TXN_STEP_FLAG_EXPECT_VALUE then TXN_STEP_EXPECT_VALUE_SIZE else 0)%nat.

Definition TxnStep_RecordSize (self : TxnStep) : nat := recordSize (st_payload_length self) (st_flags self).

(** Writes the record at [buffer + off], where [available] bytes may be used. *)
Definition TxnStep_Encode (self : TxnStep) (buffer : list Z) (off available : nat) : nat * list Z :=
  let size := TxnStep_RecordSize self in
  if negb (isStepValid self) then (0%nat, buffer)
  else if Nat.ltb available size then (0%nat, buffer)
  else
    let buffer := zero_at off size buffer in
    let buffer := <[(off + 0)%nat := st_template_id self]> buffer in
    let buffer := <[(off + 1)%nat := st_flags self]> buffer in
    let buffer := <[(off + 2)%nat := st_payload_length self]> buffer in
    let buffer := <[(off + 3)%nat := st_frame_flags self]> buffer in
    let buffer := Wire_WriteU32 buffer (off + 4) (st_can_id self) in
    let buffer := copy_at (off + 8) (take (Z.to_nat (st_payload_length self)) (st_payload self)) buffer in
    let buffer := if has_flag (st_flags self) TXN_STEP_FLAG_EXPECT_VALUE
                  then Wire_WriteU64 buffer (off + 8 + paddedPayloadSize (st_payload_length self)) (st_expect_value self) else buffer in
    (size, buffer).

(** [available] is the length of [record]; 0 when no record is there. *)
Definition TxnStep_Decode (self : TxnStep) (record : list Z) : nat * TxnStep :=
  if Nat.ltb (length record) TXN_STEP_RECORD_HEADER_SIZE then (0%nat, self)
  else
    let head := {| st_template_id := record !!! 0%nat; st_flags := record !!! 1%nat; st_payload_length := record !!! 2%nat;
                   st_frame_flags := record !!! 3%nat; st_can_id := Wire_ReadU32 record 4; st_expect_value := 0;
                   st_payload := replicate TXN_STEP_PAYLOAD_SIZE_MAX 0 |} in
    if negb (isStepValid head) then (0%nat, head)
    else
      let size := TxnStep_RecordSize head in
      if Nat.ltb (length record) size then (0%nat, head)
      else
        (size, {| st_template_id := st_template_id head; st_flags := st_flags head; st_payload_length := st_payload_length head;
                  st_frame_flags := st_frame_flags head; st_can_id := st_can_id head;
                  st_expect_value := if has_flag (st_flags head) TXN_STEP_FLAG_EXPECT_VALUE
                                     then Wire_ReadU64 record (8 + paddedPayloadSize (st_payload_length head)) else 0;
                  st_payload := copy_at 0 (slice 8 (Z.to_nat (st_payload_length head)) record) (st_payload head) |}).

(** [for (i = 0; i < step_count; i++)]: the sizes of the records tile the payload. *)
Fixpoint records_tile (n : nat) (step : TxnStep) (records : list Z) : bool :=
  match n with
  | O => Nat.eqb (length records) 0
  | S n' =>
      let '(size, step) := TxnStep_Decode step records in
      if Nat.eqb size 0 then false else records_tile n' step (drop size records)
  end.
Definition areRecordsWellFormed (records : list Z) (step_count : Z) : bool := records_tile (Z.to_nat step_count) TxnStep_zero records.

(** ** Messages *)

Definition writerRoom (self : TxnStepsWriter) : nat :=
  let buffer_room := (length (tw_buffer self) - STEPS_FIRST_RECORD_OFFSET - Z.to_nat (tw_records_size self))%nat in
  let record_room := (TXN_STEPS_RECORD_BYTES_MAX - Z.to_nat (tw_records_size self))%nat in
  if Nat.ltb buffer_room record_room then buffer_room else record_room.

Definition TxnStepsWriter_Init (message : TxnStepsMessage) (buffer : list Z) : option TxnStepsWriter :=
  if Nat.ltb (length buffer) STEPS_FIRST_RECORD_OFFSET then None
  else
    let buffer := zero_at MESSAGE_HEADER_SIZE TXN_STEPS_FIXED_FIELDS_SIZE buffer in
    let buffer := <[(MESSAGE_HEADER_SIZE + 0)%nat := tsm_channel message]> buffer in
    let buffer := Wire_WriteU16 buffer (MESSAGE_HEADER_SIZE + 2) (tsm_txn_id message) in
    let buffer := Wire_WriteU32 buffer (MESSAGE_HEADER_SIZE + 4) (tsm_first_seq message) in
    let buffer := <[(MESSAGE_HEADER_SIZE + 8)%nat := tsm_flags message]> buffer in
    Some {| tw_buffer := buffer; tw_records_size := 0; tw_step_count := 0 |}.

Definition TxnStepsWriter_Append (self : TxnStepsWriter) (step : TxnStep) : bool * TxnStepsWriter :=
  if tw_step_count self =? STEPS_COUNT_MAX then (false, self)
  else
    let '(size, buffer) :=
      TxnStep_Encode step (tw_buffer self) (STEPS_FIRST_RECORD_OFFSET + Z.to_nat (tw_records_size self)) (writerRoom self) in
    if Nat.eqb size 0 then (false, {| tw_buffer := buffer; tw_records_size := tw_records_size self; tw_step_count := tw_step_count self |})
    else (true, {| tw_buffer := buffer; tw_records_size := u16 (tw_records_size self + Z.of_nat size);
                   tw_step_count := u8 (tw_step_count self + 1) |}).

Definition TxnStepsWriter_MarkEnd (self : TxnStepsWriter) : TxnStepsWriter :=
  {| tw_buffer := alter (λ flags, Z.lor flags TXN_STEPS_FLAG_END) (MESSAGE_HEADER_SIZE + 8)%nat (tw_buffer self);
     tw_records_size := tw_records_size self; tw_step_count := tw_step_count self |}.

(** The size of the message, and its buffer. *)
Definition TxnStepsWriter_Finish (self : TxnStepsWriter) : nat * list Z :=
  let body_size := u16 (12 + tw_records_size self) in
  let header := {| header_type := kMESSAGE_TYPE_TXN_STEPS; header_flags := 0; header_length := body_size |} in
  let buffer := (MessageHeader_Encode header (tw_buffer self)).2 in
  let buffer := <[(MESSAGE_HEADER_SIZE + 1)%nat := tw_step_count self]> buffer in
  ((MESSAGE_HEADER_SIZE + Z.to_nat body_size)%nat, buffer).

Definition TxnStepsMessage_Decode (self : TxnStepsMessage) (payload : list Z) : bool * TxnStepsMessage :=
  if Nat.ltb (length payload) TXN_STEPS_FIXED_FIELDS_SIZE then (false, self)
  else
    let records_size := (length payload - TXN_STEPS_FIXED_FIELDS_SIZE)%nat in
    if Nat.ltb TXN_STEPS_RECORD_BYTES_MAX records_size then (false, self)
    else
      let step_count := payload !!! 1%nat in
      if negb (areRecordsWellFormed (drop 12 payload) step_count) then (false, self)
      else (true, {| tsm_channel := payload !!! 0%nat; tsm_step_count := step_count; tsm_txn_id := Wire_ReadU16 payload 2;
                     tsm_first_seq := Wire_ReadU32 payload 4; tsm_flags := payload !!! 8%nat; tsm_records := drop 12 payload |}).

(** The receiver's loop over the records of a decoded message. *)
Fixpoint steps_of (n : nat) (records : list Z) : list TxnStep :=
  match n with
  | O => []
  | S n' => let '(size, step) := TxnStep_Decode TxnStep_zero records in step :: steps_of n' (drop size records)
  end.

(** ** Records round trip *)

(** What a C struct can hold. *)
Definition step_typed (s : TxnStep) : Prop :=
  is_u8 (st_template_id s) ∧ is_u8 (st_flags s) ∧ is_u8 (st_payload_length s) ∧ is_u8 (st_frame_flags s) ∧ is_u32 (st_can_id s) ∧
  is_u64 (st_expect_value s) ∧ length (st_payload s) = TXN_STEP_PAYLOAD_SIZE_MAX.

(** The same step: the payload as long as it is, the expected value when there is one. *)
Definition step_same (s s' : TxnStep) : Prop :=
  st_template_id s' = st_template_id s ∧ st_flags s' = st_flags s ∧ st_payload_length s' = st_payload_length s ∧
  st_frame_flags s' = st_frame_flags s ∧ st_can_id s' = st_can_id s ∧
  take (Z.to_nat (st_payload_length s)) (st_payload s') = take (Z.to_nat (st_payload_length s)) (st_payload s) ∧
  st_expect_value s' = if has_flag (st_flags s) TXN_STEP_FLAG_EXPECT_VALUE then st_expect_value s else 0.

Definition record_image (s : TxnStep) : list Z :=
  [st_template_id s; st_flags s; st_payload_length s; st_frame_flags s] ++ le_bytes 4 (st_can_id s) ++
  padded (paddedPayloadSize (st_payload_length s)) (take (Z.to_nat (st_payload_length s)) (st_payload s)) ++
  (if has_flag (st_flags s) TXN_STEP_FLAG_EXPECT_VALUE then le_bytes 8 (st_expect_value s) else []).

Lemma padded_size_bounds n : 0 ≤ n → (Z.to_nat n ≤ paddedPayloadSize n)%nat ∧ Z.of_nat (paddedPayloadSize n) < n + 8.
Proof.
  intros Hn. unfold paddedPayloadSize, TXN_STEP_RECORD_ALIGNMENT. pose proof (Z.div_mod (n + 8 - 1) 8 ltac:(lia)) as Hd.
  pose proof (Z.mod_pos_bound (n + 8 - 1) 8 ltac:(lia)). lia.
Qed.

Lemma length_step_payload s : step_typed s → length (take (Z.to_nat (st_payload_length s)) (st_payload s)) = Z.to_nat (st_payload_length s).
Proof. intros (_ & _ & Hp & _ & _ & _ & Hl). unfold is_u8 in Hp. rewrite length_take, Hl. lia. Qed.

Lemma length_padded_payload s : step_typed s →
  length (padded (paddedPayloadSize (st_payload_length s)) (take (Z.to_nat (st_payload_length s)) (st_payload s))) = paddedPayloadSize (st_payload_length s).
Proof.
  intros Hs. unfold padded. rewrite length_app, length_replicate, length_step_payload by done. destruct Hs as (_ & _ & Hp & _). unfold is_u8 in Hp.
  pose proof (padded_size_bounds (st_payload_length s)). lia.
Qed.

Lemma length_record_image s : step_typed s → length (record_image s) = TxnStep_RecordSize s.
Proof.
  intros Hs. unfold record_image, TxnStep_RecordSize, recordSize. rewrite !length_app, length_padded_payload, length_le_bytes by done.
  destruct (has_flag _ _); rewrite ?length_le_bytes; cbn; lia.
Qed.

(** The record is written inside its block. *)
Lemma encode_record s buf off available :
  step_typed s → isStepValid s = true → (TxnStep_RecordSize s ≤ available)%nat → (off + TxnStep_RecordSize s ≤ length buf)%nat →
  ∃ buf', TxnStep_Encode s buf off available = (TxnStep_RecordSize s, buf') ∧ length buf' = length buf ∧
    slice off (TxnStep_RecordSize s) buf' = record_image s ∧
    ∀ o n, (off + TxnStep_RecordSize s ≤ o ∨ o + n ≤ off)%nat → slice o n buf' = slice o n buf.
Proof.
  intros Hs Hv Ha Hb. pose proof (length_step_payload s Hs) as Hpl. pose proof Hs as (? & ? & Hp & ? & ? & ? & ?).
  assert (0 ≤ st_payload_length s) as Hp0 by (unfold is_u8 in Hp; lia). pose proof (padded_size_bounds _ Hp0) as [Hpad _].
  unfold TxnStep_Encode. rewrite Hv, (proj2 (Nat.ltb_ge _ _) Ha). cbn [negb]. eexists. split; [reflexivity|].
  unfold record_image, TxnStep_RecordSize, recordSize in *. set (pp := paddedPayloadSize _) in *. unfold zero_at. fold (copy_at off (replicate (8 + pp + (if has_flag (st_flags s) TXN_STEP_FLAG_EXPECT_VALUE then 8 else 0)) 0) buf).
  destruct (has_flag (st_flags s) TXN_STEP_FLAG_EXPECT_VALUE); stores.
  all: match goal with |- length ?b = _ ∧ _ => set (B := b) end.
  all: assert (length B = length buf) as HB by (subst B; by autorewrite with len).
  all: assert (slice (off + 0) 1 B = [st_template_id s]) as Hb0 by (subst B; loads; done).
  all: assert (slice (off + 1) 1 B = [st_flags s]) as Hb1 by (subst B; loads; done).
  all: assert (slice (off + 2) 1 B = [st_payload_length s]) as Hb2 by (subst B; loads; done).
  all: assert (slice (off + 3) 1 B = [st_frame_flags s]) as Hb3 by (subst B; loads; done).
  all: assert (slice (off + 4) 4 B = le_bytes 4 (st_can_id s)) as Hb4 by (subst B; loads; done).
  all: assert (slice (off + 8) pp B = padded pp (take (Z.to_nat (st_payload_length s)) (st_payload s))) as Hb8.
  1,3: subst B; loads; rewrite slice_inserts_in by codec_len; rewrite slice_replicate by lia; by rewrite drop_replicate.
  all: split_and!; [done| |intros o n Hd; subst B; by loads].
  - assert (slice (off + (8 + pp)) 8 B = le_bytes 8 (st_expect_value s)) as Hv8 by (subst B; rewrite Nat.add_assoc; loads; done).
    replace (8 + pp + 8)%nat with (1 + (1 + (1 + (1 + (4 + (pp + 8))))))%nat by lia. rewrite <- (Nat.add_0_r off) at 1.
    rewrite !slice_split by lia. rewrite <- !Nat.add_assoc. cbn [Nat.add]. cbn [Nat.add] in Hv8. by rewrite Hb0, Hb1, Hb2, Hb3, Hb4, Hb8, Hv8.
  - replace (8 + pp + 0)%nat with (1 + (1 + (1 + (1 + (4 + pp)))))%nat by lia. rewrite <- (Nat.add_0_r off) at 1.
    rewrite !slice_split by lia. rewrite <- !Nat.add_assoc. cbn [Nat.add]. by rewrite Hb0, Hb1, Hb2, Hb3, Hb4, Hb8, app_nil_r.
Qed.

(** A block between two others. *)
Lemma slice_app_mid (a b c : list Z) o n : o = length a → n = length b → slice o n (a ++ b ++ c) = b.
Proof. intros -> ->. unfold slice. by rewrite drop_app_length, take_app_length. Qed.

(** What follows a record does not matter to its decoder. *)
Lemma decode_record s old rest :
  step_typed s → isStepValid s = true →
  ∃ s', TxnStep_Decode old (record_image s ++ rest) = (TxnStep_RecordSize s, s') ∧ step_same s s'.
Proof.
  intros Hs Hv. pose proof (length_record_image s Hs) as Hli. pose proof (length_step_payload s Hs) as Hpl.
  pose proof (length_padded_payload s Hs) as Hpp. pose proof Hs as (_ & _ & Hp & _ & Hc & He & Hl).
  set (r := record_image s ++ rest).
  assert (length r = (TxnStep_RecordSize s + length rest)%nat) as Hlr by (unfold r; rewrite length_app; lia).
  assert (8 ≤ TxnStep_RecordSize s)%nat as H8 by (unfold TxnStep_RecordSize, recordSize; lia).
  assert (Wire_ReadU32 r 4 = st_can_id s) as Hcan.
  { apply Wire_ReadU32_slice; [|done]. unfold r, record_image. rewrite <- !app_assoc. by apply slice_app_mid. }
  assert (slice 8 (Z.to_nat (st_payload_length s)) r = take (Z.to_nat (st_payload_length s)) (st_payload s)) as Hpay.
  { unfold r, record_image, padded. rewrite <- !app_assoc. rewrite (app_assoc [_; _; _; _]).
    apply slice_app_mid; [by rewrite length_app, length_le_bytes|done]. }
  assert (has_flag (st_flags s) TXN_STEP_FLAG_EXPECT_VALUE = true →
          Wire_ReadU64 r (8 + paddedPayloadSize (st_payload_length s)) = st_expect_value s) as Hexp.
  { intros Hf. apply Wire_ReadU64_slice; [|done]. unfold r, record_image. rewrite Hf, <- !app_assoc, (app_assoc [_; _; _; _]), (app_assoc ([_; _; _; _] ++ _)).
    apply slice_app_mid; [|by rewrite length_le_bytes]. by rewrite !length_app, Hpp, length_le_bytes. }
  unfold TxnStep_Decode. rewrite (proj2 (Nat.ltb_ge _ _)) by lia. rewrite Hcan.
  change (r !!! 0%nat) with (st_template_id s). change (r !!! 1%nat) with (st_flags s). change (r !!! 2%nat) with (st_payload_length s).
  change (r !!! 3%nat) with (st_frame_flags s). cbn [st_template_id st_flags st_payload_length st_frame_flags st_can_id st_payload].
  change (isStepValid _) with (isStepValid s). rewrite Hv. cbn [negb].
  change (TxnStep_RecordSize _) with (TxnStep_RecordSize s). rewrite (proj2 (Nat.ltb_ge _ _)) by lia.
  eexists. split; [reflexivity|]. split_and!; cbn [st_template_id st_flags st_payload_length st_frame_flags st_can_id st_payload st_expect_value]; try done.
  - rewrite Hpay. unfold copy_at. ranges. rewrite <- Hpl at 1. rewrite take_list_inserts; [done|done|]. rewrite length_replicate. lia.
  - destruct (has_flag (st_flags s) TXN_STEP_FLAG_EXPECT_VALUE); auto.
Qed.

Definition records_image (ss : list TxnStep) : list Z := concat (record_image <$> ss).

Lemma records_image_snoc ss s : records_image (ss ++ [s]) = records_image ss ++ record_image s.
Proof. unfold records_image. rewrite fmap_app, concat_app. cbn. by rewrite app_nil_r. Qed.

Lemma steps_of_image ss : Forall (λ s, step_typed s ∧ isStepValid s = true) ss →
  Forall2 step_same ss (steps_of (length ss) (records_image ss)).
Proof.
  induction 1 as [|s ss [Hs Hv] _ IH]; [constructor|]. cbn [length steps_of records_image fmap list_fmap concat]. fold (records_image ss).
  destruct (decode_record s TxnStep_zero (records_image ss) Hs Hv) as (s' & -> & Hsame). constructor; [done|].
  rewrite <- length_record_image by done. by rewrite drop_app_length.
Qed.

Lemma records_tile_image ss old : Forall (λ s, step_typed s ∧ isStepValid s = true) ss → records_tile (length ss) old (records_image ss) = true.
Proof.
  intros H. revert old. induction H as [|s ss [Hs Hv] _ IH]; [done|]. intros old. cbn [length records_tile records_image fmap list_fmap concat].
  fold (records_image ss). destruct (decode_record s old (records_image ss) Hs Hv) as (s' & -> & _).
  destruct (Nat.eqb_spec (TxnStep_RecordSize s) 0) as [H0|_]; [unfold TxnStep_RecordSize, recordSize in H0; lia|].
  rewrite <- length_record_image by done. rewrite drop_app_length. apply IH.
Qed.

(** ** The writer

    [append_all] is a sender that offers its steps one after the other;
    [greedy] says which of them the message takes: the valid ones that still
    fit, at most 255. *)
Fixpoint append_all (w : TxnStepsWriter) (steps : list TxnStep) : list TxnStep * TxnStepsWriter :=
  match steps with
  | [] => ([], w)
  | s :: steps' =>
      let '(ok, w) := TxnStepsWriter_Append w s in
      let '(taken, w) := append_all w steps' in (if ok then s :: taken else taken, w)
  end.

Fixpoint greedy (room count : nat) (steps : list TxnStep) : list TxnStep :=
  match steps with
  | [] => []
  | s :: steps' =>
      if isStepValid s && Nat.leb (TxnStep_RecordSize s) room && Nat.ltb count 255
      then s :: greedy (room - TxnStep_RecordSize s) (S count) steps' else greedy room count steps'
  end.

(** The writer holds the records of [ss] behind the fixed fields [fixed]. *)
Record writer_holds (size : nat) (fixed : list Z) (ss : list TxnStep) (w : TxnStepsWriter) : Prop := {
  wh_length : length (tw_buffer w) = size;
  wh_large : (STEPS_FIRST_RECORD_OFFSET ≤ size)%nat;
  wh_fixed : slice MESSAGE_HEADER_SIZE TXN_STEPS_FIXED_FIELDS_SIZE (tw_buffer w) = fixed;
  wh_size : tw_records_size w = Z.of_nat (length (records_image ss));
  wh_room : (length (records_image ss) ≤ Nat.min (size - 16) 400)%nat;
  wh_records : slice STEPS_FIRST_RECORD_OFFSET (length (records_image ss)) (tw_buffer w) = records_image ss;
  wh_count : tw_step_count w = Z.of_nat (length ss);
  wh_max : (length ss ≤ 255)%nat;
  wh_valid : Forall (λ s, step_typed s ∧ isStepValid s = true) ss;
}.

Lemma writer_room size fixed ss w : writer_holds size fixed ss w → writerRoom w = (Nat.min (size - 16) 400 - length (records_image ss))%nat.
Proof.
  intros []. unfold writerRoom. rewrite wh_length0, wh_size0, Nat2Z.id.
  destruct (Nat.ltb_spec (size - 16 - length (records_image ss)) (400 - length (records_image ss))); lia.
Qed.

Lemma append_holds size fixed ss w s :
  writer_holds size fixed ss w → step_typed s →
  let take := isStepValid s && Nat.leb (TxnStep_RecordSize s) (Nat.min (size - 16) 400 - length (records_image ss)) && Nat.ltb (length ss) 255 in
  (TxnStepsWriter_Append w s).1 = take ∧ writer_holds size fixed (if take then ss ++ [s] else ss) (TxnStepsWriter_Append w s).2.
Proof.
  intros Hw Hs take. pose proof (writer_room _ _ _ _ Hw) as Hroom. pose proof Hw as []. unfold TxnStepsWriter_Append, STEPS_COUNT_MAX.
  rewrite Hroom, wh_count0, wh_size0, Nat2Z.id. pose proof (length_record_image s Hs) as Hli.
  destruct (Z.eqb_spec (Z.of_nat (length ss)) 255) as [Hc|Hc].
  { subst take. rewrite (proj2 (Nat.ltb_ge (length ss) 255)) by lia. by rewrite andb_false_r. }
  subst take. rewrite (proj2 (Nat.ltb_lt (length ss) 255)), andb_true_r by lia.
  assert (0 < TxnStep_RecordSize s)%nat as Hpos by (unfold TxnStep_RecordSize, recordSize; lia).
  destruct (isStepValid s) eqn:Hv; cbn [andb].
  2: { unfold TxnStep_Encode. rewrite Hv. cbn [negb Nat.eqb fst snd]. split; [done|]. split; cbn; auto. }
  destruct (Nat.leb_spec (TxnStep_RecordSize s) (Nat.min (size - 16) 400 - length (records_image ss))) as [Hfit|Hfit].
  2: { unfold TxnStep_Encode. rewrite Hv, (proj2 (Nat.ltb_lt _ _) Hfit). cbn [negb Nat.eqb fst snd]. split; [done|]. split; cbn; auto. }
  destruct (encode_record s (tw_buffer w) (16 + length (records_image ss)) _ Hs Hv Hfit ltac:(lia)) as (b' & -> & Hlb & Hin & Hout).
  rewrite (proj2 (Nat.eqb_neq _ _)) by lia. cbn [fst snd]. split; [done|].
  assert (length (records_image (ss ++ [s])) = length (records_image ss) + TxnStep_RecordSize s)%nat as Hlen
    by (rewrite records_image_snoc, length_app; lia).
  split; cbn [tw_buffer tw_records_size tw_step_count]; rewrite ?Hlen, ?length_app; cbn [length].
  - lia.
  - done.
  - rewrite Hout by lia. done.
  - rewrite u16_id; lia.
  - lia.
  - rewrite slice_split by lia. rewrite Hin, Hout by lia. by rewrite wh_records0, records_image_snoc.
  - rewrite u8_id; lia.
  - lia.
  - apply Forall_app; split; [done|]. by constructor.
Qed.

Lemma append_all_holds size fixed steps ss w :
  writer_holds size fixed ss w → Forall step_typed steps →
  (append_all w steps).1 = greedy (Nat.min (size - 16) 400 - length (records_image ss)) (length ss) steps ∧
  writer_holds size fixed (ss ++ (append_all w steps).1) (append_all w steps).2.
Proof.
  intros Hw H. revert ss w Hw. induction H as [|s steps Hs _ IH]; intros ss w Hw; [cbn; by rewrite app_nil_r|].
  cbn [append_all greedy]. destruct (append_holds size fixed ss w s Hw Hs) as [Ht Hw'].
  destruct (TxnStepsWriter_Append w s) as [ok w']. cbn [fst snd] in Ht, Hw'. rewrite <- Ht in Hw' |- *.
  specialize (IH _ _ Hw') as [IH1 IH2]. destruct (append_all w' steps) as [taken w'']. cbn [fst snd] in *. destruct ok.
  - rewrite IH1 at 1. rewrite <- app_assoc in IH2. split; [|done]. rewrite records_image_snoc, !length_app, length_record_image by done. cbn [length].
    f_equal. f_equal; lia.
  - done.
Qed.

Definition steps_typed (m : TxnStepsMessage) : Prop :=
  is_u8 (tsm_channel m) ∧ is_u16 (tsm_txn_id m) ∧ is_u32 (tsm_first_seq m) ∧ is_u8 (tsm_flags m).

(** The fixed fields as they stand in the writer's buffer; the count is the one of the last finish. *)
Definition fixed_image (m : TxnStepsMessage) (flags count : Z) : list Z :=
  [tsm_channel m; count] ++ le_bytes 2 (tsm_txn_id m) ++ le_bytes 4 (tsm_first_seq m) ++ [flags; 0; 0; 0].

Lemma writer_init m buffer : steps_typed m → (STEPS_FIRST_RECORD_OFFSET ≤ length buffer)%nat →
  ∃ w, TxnStepsWriter_Init m buffer = Some w ∧ writer_holds (length buffer) (fixed_image m (tsm_flags m) 0) [] w.
Proof.
  intros (? & ? & ? & ?) Hb. unfold TxnStepsWriter_Init. rewrite (proj2 (Nat.ltb_ge _ _)) by done. eexists; split; [done|].
  split; cbn [tw_buffer tw_records_size tw_step_count records_image fmap list_fmap concat length]; try done; try lia.
  - unfold Wire_WriteU16, Wire_WriteU32. unfold Wire_WriteU16. by autorewrite with len; rewrite ?length_insert, ?length_zero_at.
  - unfold zero_at. fold (copy_at 4 (replicate 12 0) buffer). stores. match goal with |- slice _ _ ?b = _ => set (B := b) end.
    assert (length B = length buffer) as HB by (subst B; by autorewrite with len).
    assert (slice 4 1 B = [tsm_channel m]) as H4 by (subst B; loads; done).
    assert (slice 5 1 B = [0]) as H5 by (subst B; loads; unfold copy_at; rewrite slice_inserts_in by codec_len; done).
    assert (slice 6 2 B = le_bytes 2 (tsm_txn_id m)) as H6 by (subst B; loads; done).
    assert (slice 8 4 B = le_bytes 4 (tsm_first_seq m)) as H8 by (subst B; loads; done).
    assert (slice 12 1 B = [tsm_flags m]) as H12 by (subst B; loads; done).
    assert (slice 13 3 B = [0; 0; 0]) as H13 by (subst B; loads; unfold copy_at; rewrite slice_inserts_in by codec_len; done).
    change 12%nat with (1 + (1 + (2 + (4 + (1 + 3)))))%nat. rewrite !slice_split by lia. cbn [Nat.add]. by rewrite H4, H5, H6, H8, H12, H13.
Qed.

Lemma mark_end_holds size m flags count ss w :
  writer_holds size (fixed_image m flags count) ss w →
  writer_holds size (fixed_image m (Z.lor flags TXN_STEPS_FLAG_END) count) ss (TxnStepsWriter_MarkEnd w).
Proof.
  intros []. unfold TxnStepsWriter_MarkEnd.
  assert (tw_buffer w !! 12%nat = Some flags) as Hf.
  { rewrite <- (lookup_slice 4 12 _ 8) by lia. rewrite wh_fixed0. done. }
  split; cbn [tw_buffer tw_records_size tw_step_count]; rewrite ?length_alter, ?(alter_insert_at _ _ _ _ Hf), ?insert_copy; try done.
  - change 12%nat with (8 + (1 + 3))%nat at 1.
    rewrite !slice_split by codec_len. cbn [Nat.add]. loads.
    replace (slice 4 8 (tw_buffer w)) with (slice 0 8 (fixed_image m flags count)) by (by rewrite <- wh_fixed0, slice_slice by lia).
    replace (slice 13 3 (tw_buffer w)) with (slice 9 3 (fixed_image m flags count)) by (by rewrite <- wh_fixed0, slice_slice by lia).
    done.
  - loads. done.
Qed.

(** The finished message: header, fixed fields with the count, records. *)
Lemma finish_holds size m flags count ss w :
  steps_typed m → is_u8 flags → writer_holds size (fixed_image m flags count) ss w →
  ∃ out, let n := (12 + length (records_image ss))%nat in
    TxnStepsWriter_Finish w = ((4 + n)%nat, out) ∧ length out = size ∧ (4 + n ≤ size)%nat ∧
    MessageHeader_Decode out = Some {| header_type := kMESSAGE_TYPE_TXN_STEPS; header_flags := 0; header_length := Z.of_nat n |} ∧
    ∀ old, TxnStepsMessage_Decode old (slice 4 n out) =
      (true, {| tsm_channel := tsm_channel m; tsm_step_count := Z.of_nat (length ss); tsm_txn_id := tsm_txn_id m;
                tsm_first_seq := tsm_first_seq m; tsm_flags := flags; tsm_records := records_image ss |}).
Proof.
  intros (? & ? & ? & ?) Hflags []. unfold TxnStepsWriter_Finish. rewrite wh_size0, wh_count0, u16_id by lia.
  unfold MessageHeader_Encode. rewrite (proj2 (Nat.ltb_ge _ _)) by lia. cbn [snd header_type header_flags header_length].
  eexists. cbv zeta. split; [f_equal; lia|]. set (n := length (records_image ss)) in *.
  set (k := Z.of_nat (length ss)) in *. stores.
  match goal with |- length ?o = _ ∧ _ => set (out := o) end.
  assert (length out = size) as Hlo by (subst out; by autorewrite with len).
  split; [done|]. split; [lia|]. split.
  { apply (MessageHeader_Decode_slice _ _ (12 + n)); [lia|lia|].
    unfold begin_message, zero_at. rewrite slice_inserts_ne by lia. unfold MessageHeader_Encode.
    rewrite (proj2 (Nat.ltb_ge _ _)) by lia. cbn [snd header_type header_flags header_length]. rewrite u16_id by lia. stores.
    change 4%nat with (1 + (1 + 2))%nat. rewrite !slice_split by codec_len. cbn [Nat.add]. loads. unfold out. loads.
    do 3 f_equal. lia. }
  intros old. set (p := slice 4 (12 + n) out).
  assert (length p = (12 + n)%nat) as Hlp by (apply length_slice; lia).
  assert (∀ o l, (o + l ≤ 12)%nat → (o + l ≤ 1 ∨ 2 ≤ o)%nat → slice o l p = slice o l (fixed_image m flags count)) as Hp.
  { intros o l Ho Hd. unfold p. rewrite slice_slice by lia. subst out. loads. rewrite <- wh_fixed0, slice_slice by lia. done. }
  assert (drop 12 p = records_image ss) as Hrec.
  { rewrite <- (take_ge (drop 12 p) n) by (rewrite length_drop; lia). fold (slice 12 n p). unfold p. rewrite slice_slice by lia. subst out. by loads. }
  assert (p !!! 1%nat = k) as Hcount.
  { apply load_byte_slice. unfold p. rewrite slice_slice by lia. subst out. loads. done. }
  unfold TxnStepsMessage_Decode. rewrite Hlp, Hcount, Hrec, (proj2 (Nat.ltb_ge (12 + n) 12)) by lia. rewrite (proj2 (Nat.ltb_ge 400 _)) by lia.
  unfold areRecordsWellFormed, k. rewrite Nat2Z.id, records_tile_image by done. cbn [negb]. f_equal. f_equal.
  - apply load_byte_slice. rewrite Hp by lia. done.
  - apply Wire_ReadU16_slice; [|done]. rewrite Hp by lia. done.
  - apply Wire_ReadU32_slice; [|done]. rewrite Hp by lia. done.
  - apply load_byte_slice. rewrite Hp by lia. done.
Qed.

(** A finished batch that could not be sent is still open: more records can follow. *)
Lemma finish_keeps size m flags count ss w :
  writer_holds size (fixed_image m flags count) ss w →
  writer_holds size (fixed_image m flags (tw_step_count w)) ss
    {| tw_buffer := (TxnStepsWriter_Finish w).2; tw_records_size := tw_records_size w; tw_step_count := tw_step_count w |}.
Proof.
  intros []. unfold TxnStepsWriter_Finish, MessageHeader_Encode. rewrite wh_size0, u16_id by lia. rewrite (proj2 (Nat.ltb_ge _ _)) by lia.
  cbn [snd header_type header_flags header_length]. stores.
  split; cbn [tw_buffer tw_records_size tw_step_count]; try done.
  - by autorewrite with len.
  - change 12%nat with (1 + (1 + 10))%nat at 1. rewrite !slice_split by codec_len. cbn [Nat.add]. loads.
    replace (slice 4 1 (tw_buffer w)) with (slice 0 1 (fixed_image m flags count)) by (by rewrite <- wh_fixed0, slice_slice by lia).
    replace (slice 6 10 (tw_buffer w)) with (slice 2 10 (fixed_image m flags count)) by (by rewrite <- wh_fixed0, slice_slice by lia).
    done.
  - by loads.
Qed.

(** A batch of steps survives the wire.  For every message head, every
    buffer that holds at least the fixed fields and every sequence of steps
    offered to the writer, the writer takes greedily the valid ones that still
    fit (400 record bytes, the buffer, 255 records), and the message it
    finishes, marked as the last one or not, is accepted by the receiver and
    yields exactly the taken steps in order. *)
Theorem txn_steps_roundtrip m buffer steps (last : bool) old :
  steps_typed m → (STEPS_FIRST_RECORD_OFFSET ≤ length buffer)%nat → Forall step_typed steps →
  ∃ w, TxnStepsWriter_Init m buffer = Some w ∧
    let '(taken, w) := append_all w steps in
    let '(size, out) := TxnStepsWriter_Finish (if last then TxnStepsWriter_MarkEnd w else w) in
    taken = greedy (Nat.min (length buffer - 16) 400) 0 steps ∧ (size ≤ length buffer)%nat ∧
    MessageHeader_Decode out = Some {| header_type := kMESSAGE_TYPE_TXN_STEPS; header_flags := 0; header_length := Z.of_nat (size - 4) |} ∧
    ∃ m', TxnStepsMessage_Decode old (slice 4 (size - 4) out) = (true, m') ∧
      tsm_channel m' = tsm_channel m ∧ tsm_txn_id m' = tsm_txn_id m ∧ tsm_first_seq m' = tsm_first_seq m ∧
      tsm_flags m' = (if last then Z.lor (tsm_flags m) TXN_STEPS_FLAG_END else tsm_flags m) ∧
      tsm_step_count m' = Z.of_nat (length taken) ∧
      Forall2 step_same taken (steps_of (Z.to_nat (tsm_step_count m')) (tsm_records m')).
Proof.
  intros Hm Hb Hs. destruct (writer_init m buffer Hm Hb) as (w & Hw & Hh). exists w. split; [done|].
  destruct (append_all_holds _ _ steps _ _ Hh Hs) as [Ht Hh']. destruct (append_all w steps) as [taken w']. cbn [fst snd app] in Ht, Hh'.
  set (flags := if last then Z.lor (tsm_flags m) TXN_STEPS_FLAG_END else tsm_flags m).
  assert (writer_holds (length buffer) (fixed_image m flags 0) taken (if last then TxnStepsWriter_MarkEnd w' else w')) as He
    by (subst flags; destruct last; [by apply mark_end_holds|done]).
  assert (is_u8 flags) as Hf.
  { destruct Hm as (_ & _ & _ & Hf). subst flags. destruct last; [|done]. unfold TXN_STEPS_FLAG_END. unfold is_u8 in *.
    pose proof (proj2 (Z.lor_nonneg (tsm_flags m) 1) ltac:(lia)). split; [done|].
    destruct (Z.eq_dec (Z.lor (tsm_flags m) 1) 0) as [->|Hn]; [lia|]. apply (Z.log2_lt_pow2 _ 8); [lia|].
    rewrite Z.log2_lor by lia. apply Z.max_lub_lt; [|by cbn]. destruct (Z.eq_dec (tsm_flags m) 0) as [->|]; [by cbn|].
    apply Z.log2_lt_pow2; lia. }
  destruct (finish_holds _ m flags 0 taken _ Hm Hf He) as (out & -> & Hlen & Hfit & Hhd & Hdec).
  replace (4 + (12 + length (records_image taken)) - 4)%nat with (12 + length (records_image taken))%nat by lia.
  split; [by rewrite Ht, Nat.sub_0_r|]. split; [lia|]. split; [done|]. eexists. split; [apply Hdec|]. cbn [tsm_channel tsm_step_count tsm_txn_id tsm_first_seq tsm_flags tsm_records].
  rewrite Nat2Z.id. split_and!; try done. apply steps_of_image. apply He.
Qed.

Lemma txn_steps_roundtrip_witness :
  let m := {| tsm_channel := 2; tsm_step_count := 0; tsm_txn_id := 513; tsm_first_seq := 70000; tsm_flags := 0; tsm_records := [] |} in
  let step v := {| st_template_id := 3; st_flags := 1; st_payload_length := 2; st_frame_flags := 0; st_can_id := 291; st_expect_value := v;
                   st_payload := [7; 8] ++ replicate 253 0 |} in
  ∃ w, TxnStepsWriter_Init m (replicate 60 9) = Some w ∧ (append_all w [step 5; step 6]).1 = [step 5].
Proof.
  intros m step.
  destruct (txn_steps_roundtrip m (replicate 60 9) [step 5; step 6] true m) as (w & Hw & H); [vm_compute; intuition congruence|vm_compute; lia| |].
  - repeat constructor; vm_compute; congruence.
  - exists w. split; [exact Hw|]. destruct (append_all w [step 5; step 6]) as [taken w'].
    destruct (TxnStepsWriter_Finish (TxnStepsWriter_MarkEnd w')) as [size out]. destruct H as [-> _]. reflexivity.
Defined.
