(* ===== verification/IfconfigMessage.v ===== *)
(** * Interface configuration messages (src/protocol/ifconfig_message.c)

    IFCONFIG and its reply between hub and agent, CONFIGURE and its reply between
    client and hub; all four carry the same block of interface settings. *)

From S2P Require Import Prelude CString Wire Codec RegisterMessage.

Notation INTERFACE_SETTINGS_SIZE := 88%nat (only parsing).
Notation IFCONFIG_DETAIL_SIZE := 64%nat (only parsing).
Notation IFCONFIG_BODY_SIZE := 112%nat (only parsing).
Notation IFCONFIG_REPLY_BODY_SIZE := 160%nat (only parsing).
Notation CONFIGURE_BODY_SIZE := 236%nat (only parsing).
Notation CONFIGURE_REPLY_BODY_SIZE := 156%nat (only parsing).

Definition kMESSAGE_TYPE_IFCONFIG : Z := 11.
Definition kMESSAGE_TYPE_IFCONFIG_REPLY : Z := 12.
Definition kMESSAGE_TYPE_CONFIGURE : Z := 14.
Definition kMESSAGE_TYPE_CONFIGURE_REPLY : Z := 15.

Definition INTERFACE_FIELD_BITRATE : Z := Z.shiftl 1 0.
Definition INTERFACE_FIELD_SAMPLE_POINT : Z := Z.shiftl 1 1.
Definition INTERFACE_FIELD_DATA_BITRATE : Z := Z.shiftl 1 2.
Definition INTERFACE_FIELD_DATA_SAMPLE_POINT : Z := Z.shiftl 1 3.
Definition INTERFACE_FIELD_CTRLMODE : Z := Z.shiftl 1 4.
Definition INTERFACE_FIELD_BIT_TIMING : Z := Z.shiftl 1 9.
Definition INTERFACE_FIELD_DATA_BIT_TIMING : Z := Z.shiftl 1 10.
Definition INTERFACE_FIELDS_NOMINAL_RATE : Z := Z.lor INTERFACE_FIELD_BITRATE INTERFACE_FIELD_SAMPLE_POINT.
Definition INTERFACE_FIELDS_DATA_RATE : Z := Z.lor INTERFACE_FIELD_DATA_BITRATE INTERFACE_FIELD_DATA_SAMPLE_POINT.
Definition INTERFACE_CTRLMODE_FD : Z := Z.shiftl 1 5.
Definition INTERFACE_SAMPLE_POINT_MAX : Z := 1000.
Definition IFCONFIG_STATUS_OK : Z := 0.
Definition IFCONFIG_STATUS_UNKNOWN_INTERFACE : Z := 1.
Definition IFCONFIG_STATUS_APPLY_FAILED : Z := 2.
Definition IFCONFIG_OP_APPLY : Z := 0.
Definition IFCONFIG_OP_QUERY : Z := 1.
Definition CONFIGURE_STATUS_OK : Z := 0.
Definition CONFIGURE_STATUS_UNKNOWN_INTERFACE : Z := 1.
Definition CONFIGURE_STATUS_AGENT_UNREACHABLE : Z := 2.
Definition CONFIGURE_STATUS_APPLY_FAILED : Z := 3.
Definition CONFIGURE_STATUS_DENIED : Z := 4.

Record InterfaceBitTiming := { bt_tq : Z; bt_prop_seg : Z; bt_phase_seg1 : Z; bt_phase_seg2 : Z; bt_sjw : Z; bt_brp : Z }.

Record InterfaceSettings := {
  is_fields : Z; is_bitrate : Z; is_data_bitrate : Z; is_sample_point : Z; is_data_sample_point : Z; is_ctrlmode_mask : Z;
  is_ctrlmode_flags : Z; is_restart_ms : Z; is_txqueuelen : Z; is_link_up : bool; is_can_state : Z; is_termination : Z;
  is_bit_timing : InterfaceBitTiming; is_data_bit_timing : InterfaceBitTiming;
}.

Record IfconfigMessage := { if_request_id : Z; if_interface_name : list Z; if_op : Z; if_settings : InterfaceSettings }.
Record IfconfigReplyMessage := { ifr_request_id : Z; ifr_status : Z; ifr_settings : InterfaceSettings; ifr_detail : list Z }.
Record ConfigureMessage := { cf_agent_name : list Z; cf_interface_name : list Z; cf_op : Z; cf_settings : InterfaceSettings }.
Record ConfigureReplyMessage := { cfr_status : Z; cfr_settings : InterfaceSettings; cfr_detail : list Z }.

Definition namesRawTiming (t : InterfaceBitTiming) : bool := negb (bt_tq t =? 0) || negb (bt_brp t =? 0).

Definition InterfaceSettings_HasTimingConflict (self : InterfaceSettings) : bool :=
  let nominal_raw := negb (Z.land (is_fields self) INTERFACE_FIELD_BIT_TIMING =? 0) && namesRawTiming (is_bit_timing self) in
  let data_raw := negb (Z.land (is_fields self) INTERFACE_FIELD_DATA_BIT_TIMING =? 0) && namesRawTiming (is_data_bit_timing self) in
  if nominal_raw && negb (Z.land (is_fields self) INTERFACE_FIELDS_NOMINAL_RATE =? 0) then true
  else data_raw && negb (Z.land (is_fields self) INTERFACE_FIELDS_DATA_RATE =? 0).

Definition writeBitTiming (buffer : list Z) (off : nat) (t : InterfaceBitTiming) : list Z :=
  let buffer := Wire_WriteU32 buffer (off + 0) (bt_tq t) in
  let buffer := Wire_WriteU32 buffer (off + 4) (bt_prop_seg t) in
  let buffer := Wire_WriteU32 buffer (off + 8) (bt_phase_seg1 t) in
  let buffer := Wire_WriteU32 buffer (off + 12) (bt_phase_seg2 t) in
  let buffer := Wire_WriteU32 buffer (off + 16) (bt_sjw t) in
  Wire_WriteU32 buffer (off + 20) (bt_brp t).

Definition readBitTiming (payload : list Z) (off : nat) : InterfaceBitTiming :=
  {| bt_tq := Wire_ReadU32 payload (off + 0); bt_prop_seg := Wire_ReadU32 payload (off + 4);
     bt_phase_seg1 := Wire_ReadU32 payload (off + 8); bt_phase_seg2 := Wire_ReadU32 payload (off + 12);
     bt_sjw := Wire_ReadU32 payload (off + 16); bt_brp := Wire_ReadU32 payload (off + 20) |}.

Definition writeSettings (buffer : list Z) (off : nat) (s : InterfaceSettings) : list Z :=
  let buffer := Wire_WriteU32 buffer (off + 0) (is_fields s) in
  let buffer := Wire_WriteU32 buffer (off + 4) (is_bitrate s) in
  let buffer := Wire_WriteU32 buffer (off + 8) (is_data_bitrate s) in
  let buffer := Wire_WriteU16 buffer (off + 12) (is_sample_point s) in
  let buffer := Wire_WriteU16 buffer (off + 14) (is_data_sample_point s) in
  let buffer := Wire_WriteU32 buffer (off + 16) (is_ctrlmode_mask s) in
  let buffer := Wire_WriteU32 buffer (off + 20) (is_ctrlmode_flags s) in
  let buffer := Wire_WriteU32 buffer (off + 24) (is_restart_ms s) in
  let buffer := Wire_WriteU32 buffer (off + 28) (is_txqueuelen s) in
  let buffer := <[(off + 32)%nat := b2z (is_link_up s)]> buffer in
  let buffer := <[(off + 33)%nat := is_can_state s]> buffer in
  let buffer := Wire_WriteU16 buffer (off + 34) (is_termination s) in
  let buffer := writeBitTiming buffer (off + 36) (is_bit_timing s) in
  writeBitTiming buffer (off + 60) (is_data_bit_timing s).

(** The fields [readSettings] assigns, before it checks the sample points. *)
Definition settings_at (payload : list Z) (off : nat) : InterfaceSettings :=
  {| is_fields := Wire_ReadU32 payload (off + 0); is_bitrate := Wire_ReadU32 payload (off + 4);
     is_data_bitrate := Wire_ReadU32 payload (off + 8); is_sample_point := Wire_ReadU16 payload (off + 12);
     is_data_sample_point := Wire_ReadU16 payload (off + 14); is_ctrlmode_mask := Wire_ReadU32 payload (off + 16);
     is_ctrlmode_flags := Wire_ReadU32 payload (off + 20); is_restart_ms := Wire_ReadU32 payload (off + 24);
     is_txqueuelen := Wire_ReadU32 payload (off + 28); is_link_up := negb (payload !!! (off + 32)%nat =? 0);
     is_can_state := payload !!! (off + 33)%nat; is_termination := Wire_ReadU16 payload (off + 34);
     is_bit_timing := readBitTiming payload (off + 36); is_data_bit_timing := readBitTiming payload (off + 60) |}.

Definition readSettings (payload : list Z) (off : nat) : bool * InterfaceSettings :=
  let s := settings_at payload off in
  if is_sample_point s >? INTERFACE_SAMPLE_POINT_MAX then (false, s)
  else (is_data_sample_point s <=? INTERFACE_SAMPLE_POINT_MAX, s).

(** [writeText] and [copyName] on the field at [off]. *)
Definition writeText (buffer : list Z) (off : nat) (text : list Z) (size : nat) : list Z :=
  copy_at off (take (strnlen text (size - 1)) text) buffer.
Definition copyName (payload : list Z) (off size : nat) : list Z := <[(size - 1)%nat := 0]> (slice off size payload).

(** Header and zeroed body; 0 when the buffer is too small. *)
Definition ifconfig_encode (type : Z) (body_size : nat) (buffer : list Z) : nat * list Z :=
  let total_size := (MESSAGE_HEADER_SIZE + body_size)%nat in
  if Nat.ltb (length buffer) total_size then (0%nat, buffer) else (total_size, begin_message type body_size buffer).

Definition IfconfigMessage_Encode (self : IfconfigMessage) (buffer : list Z) : nat * list Z :=
  if negb (if_interface_name self !!! (REGISTER_INTERFACE_NAME_SIZE - 1)%nat =? 0) then (0%nat, buffer)
  else
    let '(total_size, buffer) := ifconfig_encode kMESSAGE_TYPE_IFCONFIG IFCONFIG_BODY_SIZE buffer in
    if Nat.eqb total_size 0 then (0%nat, buffer)
    else
      let buffer := Wire_WriteU32 buffer (MESSAGE_HEADER_SIZE + 0) (if_request_id self) in
      let buffer := copy_at (MESSAGE_HEADER_SIZE + 4) (take (strlen (if_interface_name self)) (if_interface_name self)) buffer in
      let buffer := <[(MESSAGE_HEADER_SIZE + 20)%nat := if_op self]> buffer in
      ((MESSAGE_HEADER_SIZE + IFCONFIG_BODY_SIZE)%nat, writeSettings buffer (MESSAGE_HEADER_SIZE + 24) (if_settings self)).

Definition IfconfigMessage_Decode (self : IfconfigMessage) (payload : list Z) : bool * IfconfigMessage :=
  if Nat.ltb (length payload) IFCONFIG_BODY_SIZE then (false, self)
  else
    let '(ok, settings) := readSettings payload 24 in
    (ok, {| if_request_id := Wire_ReadU32 payload 0; if_interface_name := copyName payload 4 REGISTER_INTERFACE_NAME_SIZE;
            if_op := payload !!! 20%nat; if_settings := settings |}).

Definition IfconfigReplyMessage_Encode (self : IfconfigReplyMessage) (buffer : list Z) : nat * list Z :=
  let '(total_size, buffer) := ifconfig_encode kMESSAGE_TYPE_IFCONFIG_REPLY IFCONFIG_REPLY_BODY_SIZE buffer in
  if Nat.eqb total_size 0 then (0%nat, buffer)
  else
    let buffer := Wire_WriteU32 buffer (MESSAGE_HEADER_SIZE + 0) (ifr_request_id self) in
    let buffer := <[(MESSAGE_HEADER_SIZE + 4)%nat := ifr_status self]> buffer in
    let buffer := writeSettings buffer (MESSAGE_HEADER_SIZE + 8) (ifr_settings self) in
    ((MESSAGE_HEADER_SIZE + IFCONFIG_REPLY_BODY_SIZE)%nat,
     writeText buffer (MESSAGE_HEADER_SIZE + (8 + INTERFACE_SETTINGS_SIZE)) (ifr_detail self) IFCONFIG_DETAIL_SIZE).

Definition IfconfigReplyMessage_Decode (self : IfconfigReplyMessage) (payload : list Z) : bool * IfconfigReplyMessage :=
  if Nat.ltb (length payload) IFCONFIG_REPLY_BODY_SIZE then (false, self)
  else
    let '(ok, settings) := readSettings payload 8 in
    (ok, {| ifr_request_id := Wire_ReadU32 payload 0; ifr_status := payload !!! 4%nat;
            ifr_detail := copyName payload (8 + INTERFACE_SETTINGS_SIZE) IFCONFIG_DETAIL_SIZE; ifr_settings := settings |}).

Definition ConfigureMessage_Encode (self : ConfigureMessage) (buffer : list Z) : nat * list Z :=
  if negb (cf_agent_name self !!! (REGISTER_AGENT_NAME_SIZE - 1)%nat =? 0) then (0%nat, buffer)
  else if negb (cf_interface_name self !!! (REGISTER_INTERFACE_NAME_SIZE - 1)%nat =? 0) then (0%nat, buffer)
  else
    let '(total_size, buffer) := ifconfig_encode kMESSAGE_TYPE_CONFIGURE CONFIGURE_BODY_SIZE buffer in
    if Nat.eqb total_size 0 then (0%nat, buffer)
    else
      let buffer := copy_at (MESSAGE_HEADER_SIZE + 0) (take (strlen (cf_agent_name self)) (cf_agent_name self)) buffer in
      let buffer := copy_at (MESSAGE_HEADER_SIZE + 128) (take (strlen (cf_interface_name self)) (cf_interface_name self)) buffer in
      let buffer := <[(MESSAGE_HEADER_SIZE + 144)%nat := cf_op self]> buffer in
      ((MESSAGE_HEADER_SIZE + CONFIGURE_BODY_SIZE)%nat, writeSettings buffer (MESSAGE_HEADER_SIZE + 148) (cf_settings self)).

Definition ConfigureMessage_Decode (self : ConfigureMessage) (payload : list Z) : bool * ConfigureMessage :=
  if Nat.ltb (length payload) CONFIGURE_BODY_SIZE then (false, self)
  else
    let '(ok, settings) := readSettings payload 148 in
    (ok, {| cf_agent_name := copyName payload 0 REGISTER_AGENT_NAME_SIZE;
            cf_interface_name := copyName payload 128 REGISTER_INTERFACE_NAME_SIZE; cf_op := payload !!! 144%nat; cf_settings := settings |}).

Definition ConfigureReplyMessage_Encode (self : ConfigureReplyMessage) (buffer : list Z) : nat * list Z :=
  let '(total_size, buffer) := ifconfig_encode kMESSAGE_TYPE_CONFIGURE_REPLY CONFIGURE_REPLY_BODY_SIZE buffer in
  if Nat.eqb total_size 0 then (0%nat, buffer)
  else
    let buffer := <[(MESSAGE_HEADER_SIZE + 0)%nat := cfr_status self]> buffer in
    let buffer := writeSettings buffer (MESSAGE_HEADER_SIZE + 4) (cfr_settings self) in
    ((MESSAGE_HEADER_SIZE + CONFIGURE_REPLY_BODY_SIZE)%nat,
     writeText buffer (MESSAGE_HEADER_SIZE + (4 + INTERFACE_SETTINGS_SIZE)) (cfr_detail self) IFCONFIG_DETAIL_SIZE).

Definition ConfigureReplyMessage_Decode (self : ConfigureReplyMessage) (payload : list Z) : bool * ConfigureReplyMessage :=
  if Nat.ltb (length payload) CONFIGURE_REPLY_BODY_SIZE then (false, self)
  else
    let '(ok, settings) := readSettings payload 4 in
    (ok, {| cfr_status := payload !!! 0%nat; cfr_detail := copyName payload (4 + INTERFACE_SETTINGS_SIZE) IFCONFIG_DETAIL_SIZE;
            cfr_settings := settings |}).

(** ** The codec promises *)

Definition timing_ok (t : InterfaceBitTiming) : Prop :=
  is_u32 (bt_tq t) ∧ is_u32 (bt_prop_seg t) ∧ is_u32 (bt_phase_seg1 t) ∧ is_u32 (bt_phase_seg2 t) ∧ is_u32 (bt_sjw t) ∧ is_u32 (bt_brp t).

Record settings_ok (s : InterfaceSettings) : Prop := {
  so_words : is_u32 (is_fields s) ∧ is_u32 (is_bitrate s) ∧ is_u32 (is_data_bitrate s) ∧ is_u32 (is_ctrlmode_mask s) ∧
    is_u32 (is_ctrlmode_flags s) ∧ is_u32 (is_restart_ms s) ∧ is_u32 (is_txqueuelen s);
  so_points : 0 ≤ is_sample_point s ≤ 1000 ∧ 0 ≤ is_data_sample_point s ≤ 1000;
  so_small : is_u8 (is_can_state s) ∧ is_u16 (is_termination s);
  so_timing : timing_ok (is_bit_timing s) ∧ timing_ok (is_data_bit_timing s);
}.

Lemma timing_ext a b :
  bt_tq a = bt_tq b → bt_prop_seg a = bt_prop_seg b → bt_phase_seg1 a = bt_phase_seg1 b → bt_phase_seg2 a = bt_phase_seg2 b →
  bt_sjw a = bt_sjw b → bt_brp a = bt_brp b → a = b.
Proof. destruct a, b; cbn; intros; subst; reflexivity. Qed.
Lemma settings_ext a b :
  is_fields a = is_fields b → is_bitrate a = is_bitrate b → is_data_bitrate a = is_data_bitrate b →
  is_sample_point a = is_sample_point b → is_data_sample_point a = is_data_sample_point b → is_ctrlmode_mask a = is_ctrlmode_mask b →
  is_ctrlmode_flags a = is_ctrlmode_flags b → is_restart_ms a = is_restart_ms b → is_txqueuelen a = is_txqueuelen b →
  is_link_up a = is_link_up b → is_can_state a = is_can_state b → is_termination a = is_termination b →
  is_bit_timing a = is_bit_timing b → is_data_bit_timing a = is_data_bit_timing b → a = b.
Proof. destruct a, b; cbn; intros; subst; reflexivity. Qed.

(** The settings block: written inside its 88 bytes, and read back whole. *)
Lemma length_writeSettings buf off s : length (writeSettings buf off s) = length buf.
Proof. unfold writeSettings, writeBitTiming, Wire_WriteU32, Wire_WriteU16. by rewrite !length_insert. Qed.
#[export] Hint Rewrite length_writeSettings : len.

Ltac settings_stores Hs :=
  destruct Hs as [(? & ? & ? & ? & ? & ? & ?) [? ?] [? ?] [(? & ? & ? & ? & ? & ?) (? & ? & ? & ? & ? & ?)]];
  unfold writeSettings, writeBitTiming; stores.

Lemma slice_writeSettings_ne buf off s o n :
  settings_ok s → (off + 88 ≤ o ∨ o + n ≤ off)%nat → slice o n (writeSettings buf off s) = slice o n buf.
Proof. intros Hs Hdis. settings_stores Hs. by loads. Qed.

Lemma drop_writeSettings k buf off s : settings_ok s → (off + 88 ≤ k)%nat → drop k (writeSettings buf off s) = drop k buf.
Proof. intros Hs Hk. settings_stores Hs. by drops. Qed.

(** One field of the block, read through [Hf]. *)
Ltac settings_field Hf :=
  lazymatch goal with
  | |- Wire_ReadU32 _ _ = _ => apply Wire_ReadU32_slice; [|done]; rewrite Hf by lia; rewrite ?Nat.add_assoc; loads; reflexivity
  | |- Wire_ReadU16 _ _ = _ => apply Wire_ReadU16_slice; [|zlia]; rewrite Hf by lia; rewrite ?Nat.add_assoc; loads; reflexivity
  | |- _ !!! _ = _ => apply load_byte_slice; rewrite Hf by lia; rewrite ?Nat.add_assoc; loads; reflexivity
  end.
Ltac timing_back Hf :=
  apply timing_ext; cbn [readBitTiming bt_tq bt_prop_seg bt_phase_seg1 bt_phase_seg2 bt_sjw bt_brp];
  rewrite <- Nat.add_assoc; settings_field Hf.

Lemma readSettings_back s buf off p o :
  settings_ok s → (off + 88 ≤ length buf)%nat → slice o 88 p = slice off 88 (writeSettings buf off s) → readSettings p o = (true, s).
Proof.
  intros Hs Hb Hp. assert (∀ k n, (k + n ≤ 88)%nat → slice (o + k) n p = slice (off + k) n (writeSettings buf off s)) as Hf.
  { intros k n Hk. rewrite (slice_field _ _ _ _ k n Hp) by done. rewrite slice_slice; [done|lia]. }
  assert (is_sample_point s ≤ 1000 ∧ is_data_sample_point s ≤ 1000) as [Hsp Hdsp] by (destruct Hs; lia).
  assert (settings_at p o = s) as Heq.
  { revert Hf. settings_stores Hs. intros Hf. unfold settings_at.
    apply settings_ext; cbn [is_fields is_bitrate is_data_bitrate is_sample_point is_data_sample_point is_ctrlmode_mask
      is_ctrlmode_flags is_restart_ms is_txqueuelen is_link_up is_can_state is_termination is_bit_timing is_data_bit_timing];
      [settings_field Hf..| |settings_field Hf|settings_field Hf|timing_back Hf|timing_back Hf].
    assert (p !!! (o + 32)%nat = b2z (is_link_up s)) as -> by settings_field Hf. by destruct (is_link_up s). }
  unfold readSettings. rewrite Heq. unfold INTERFACE_SAMPLE_POINT_MAX. case_tests; [lia|]. f_equal. apply Z.leb_le. lia.
Qed.

(** A name or text field: stored into a zeroed field, read back with its terminator. *)
Lemma copyName_back n p off s :
  0 ∉ s → (length s ≤ n)%nat → slice off (S n) p = padded (S n) s → cstr (copyName p off (S n)) = s.
Proof.
  intros H0 Hl Hs. unfold copyName. rewrite Hs. replace (S n - 1)%nat with n by lia. by apply cstr_terminated.
Qed.

Lemma ifconfig_encode_fits type n buf :
  (MESSAGE_HEADER_SIZE + n ≤ length buf)%nat → ifconfig_encode type n buf = ((MESSAGE_HEADER_SIZE + n)%nat, begin_message type n buf).
Proof. intros Hb. unfold ifconfig_encode. by rewrite (proj2 (Nat.ltb_ge _ _)) by lia. Qed.

#[export] Instance IfconfigMessage_wire : WireMessage IfconfigMessage := {|
  wm_type := kMESSAGE_TYPE_IFCONFIG; wm_size _ := IFCONFIG_BODY_SIZE; wm_shape _ := True;
  wm_valid m := is_u32 (if_request_id m) ∧ length (if_interface_name m) = REGISTER_INTERFACE_NAME_SIZE ∧
    if_interface_name m !!! 15%nat = 0 ∧ is_u8 (if_op m) ∧ settings_ok (if_settings m);
  wm_encode := IfconfigMessage_Encode; wm_decode := IfconfigMessage_Decode;
  wm_same m m' := if_request_id m' = if_request_id m ∧ cstr (if_interface_name m') = cstr (if_interface_name m) ∧ if_op m' = if_op m ∧
    if_settings m' = if_settings m;
|}.
#[export] Instance IfconfigReplyMessage_wire : WireMessage IfconfigReplyMessage := {|
  wm_type := kMESSAGE_TYPE_IFCONFIG_REPLY; wm_size _ := IFCONFIG_REPLY_BODY_SIZE; wm_shape _ := True;
  wm_valid m := is_u32 (ifr_request_id m) ∧ is_u8 (ifr_status m) ∧ settings_ok (ifr_settings m);
  wm_encode := IfconfigReplyMessage_Encode; wm_decode := IfconfigReplyMessage_Decode;
  wm_same m m' := ifr_request_id m' = ifr_request_id m ∧ ifr_status m' = ifr_status m ∧ ifr_settings m' = ifr_settings m ∧
    cstr (ifr_detail m') = take 63 (cstr (ifr_detail m));
|}.
#[export] Instance ConfigureMessage_wire : WireMessage ConfigureMessage := {|
  wm_type := kMESSAGE_TYPE_CONFIGURE; wm_size _ := CONFIGURE_BODY_SIZE; wm_shape _ := True;
  wm_valid m := length (cf_agent_name m) = REGISTER_AGENT_NAME_SIZE ∧ cf_agent_name m !!! (REGISTER_AGENT_NAME_SIZE - 1)%nat = 0 ∧
    length (cf_interface_name m) = REGISTER_INTERFACE_NAME_SIZE ∧ cf_interface_name m !!! 15%nat = 0 ∧ is_u8 (cf_op m) ∧
    settings_ok (cf_settings m);
  wm_encode := ConfigureMessage_Encode; wm_decode := ConfigureMessage_Decode;
  wm_same m m' := cstr (cf_agent_name m') = cstr (cf_agent_name m) ∧ cstr (cf_interface_name m') = cstr (cf_interface_name m) ∧
    cf_op m' = cf_op m ∧ cf_settings m' = cf_settings m;
|}.
#[export] Instance ConfigureReplyMessage_wire : WireMessage ConfigureReplyMessage := {|
  wm_type := kMESSAGE_TYPE_CONFIGURE_REPLY; wm_size _ := CONFIGURE_REPLY_BODY_SIZE; wm_shape _ := True;
  wm_valid m := is_u8 (cfr_status m) ∧ settings_ok (cfr_settings m);
  wm_encode := ConfigureReplyMessage_Encode; wm_decode := ConfigureReplyMessage_Decode;
  wm_same m m' := cfr_status m' = cfr_status m ∧ cfr_settings m' = cfr_settings m ∧
    cstr (cfr_detail m') = take 63 (cstr (cfr_detail m));
|}.

Ltac fits_buffer := rewrite ifconfig_encode_fits by lia; cbn [Nat.eqb Nat.add].

(** The settings of a received body: what was written at [4 + o] is read at [o]. *)
Ltac settings_back Hs :=
  lazymatch goal with
  | |- context [slice 4 ?n ?b] =>
      lazymatch b with
      | context [writeSettings ?B ?off ?s] =>
          match goal with
          | |- context [readSettings ?p ?o] =>
              rewrite (readSettings_back s B off p o Hs); [|codec_len|rewrite slice_slice by codec_len; loads; reflexivity]
          end
      end
  end.

#[export] Instance IfconfigMessage_ok : WireMessageOk IfconfigMessage.
Proof.
  split; [done|simpl; lia|]. intros m buf (Hr & Hl & Hn & Ho & Hs) Hb. simpl in *. unfold IfconfigMessage_Encode.
  cbn [Nat.sub]. rewrite Hn. cbn [negb Z.eqb]. fits_buffer. rewrite <- cstr_prefix.
  pose proof (strlen_terminated _ 15 Hl Hn) as Hlen. unfold strlen in Hlen. pose proof (cstr_no_nul (if_interface_name m)) as H0. stores.
  pose proof (λ b o n, slice_writeSettings_ne b 28 (if_settings m) o n Hs) as Hne.
  eexists. split_and!; [done|codec_len|header_ok_with Hne kMESSAGE_TYPE_IFCONFIG 112%nat buf| |].
  { rewrite drop_writeSettings by (done || lia). drops. done. }
  intros old _. unfold IfconfigMessage_Decode. rewrite length_slice by codec_len. cbn [Nat.ltb Nat.leb]. settings_back Hs.
  eexists. split; [reflexivity|]. cbn [wm_same IfconfigMessage_wire if_request_id if_interface_name if_op if_settings].
  conjuncts; [load_field_with Hne| |load_field_with Hne|reflexivity].
  apply copyName_back; [done..|]. loads_with Hne. rewrite drop_replicate. reflexivity.
Qed.

#[export] Instance IfconfigReplyMessage_ok : WireMessageOk IfconfigReplyMessage.
Proof.
  split; [done|simpl; lia|]. intros m buf (Hr & Ho & Hs) Hb. simpl in *. unfold IfconfigReplyMessage_Encode, writeText.
  fits_buffer. rewrite take_strnlen. cbn [Nat.sub]. pose proof (take_cstr_no_nul (ifr_detail m) 63) as H0.
  pose proof (firstn_le_length 63 (cstr (ifr_detail m))) as Hlen. set (s := take 63 (cstr (ifr_detail m))) in *. stores.
  pose proof (λ b o n, slice_writeSettings_ne b 12 (ifr_settings m) o n Hs) as Hne.
  eexists. split_and!; [done|codec_len|header_ok_with Hne kMESSAGE_TYPE_IFCONFIG_REPLY 160%nat buf| |].
  { drops. rewrite drop_writeSettings by (done || lia). drops. done. }
  intros old _. unfold IfconfigReplyMessage_Decode. rewrite length_slice by codec_len. cbn [Nat.ltb Nat.leb]. settings_back Hs.
  eexists. split; [reflexivity|]. cbn [wm_same IfconfigReplyMessage_wire ifr_request_id ifr_status ifr_settings ifr_detail].
  conjuncts; [load_field_with Hne..|reflexivity|].
  apply copyName_back; [done..|]. cbn [Nat.add]. loads_with Hne. rewrite drop_replicate. reflexivity.
Qed.

#[export] Instance ConfigureMessage_ok : WireMessageOk ConfigureMessage.
Proof.
  split; [done|simpl; lia|]. intros m buf (Hal & Han & Hl & Hn & Ho & Hs) Hb. simpl in *. unfold ConfigureMessage_Encode.
  cbn [Nat.sub] in *. rewrite Han, Hn. cbn [negb Z.eqb]. fits_buffer. rewrite <- !cstr_prefix.
  pose proof (strlen_terminated _ 127 Hal Han) as Halen. unfold strlen in Halen. pose proof (cstr_no_nul (cf_agent_name m)) as Ha0.
  pose proof (strlen_terminated _ 15 Hl Hn) as Hlen. unfold strlen in Hlen. pose proof (cstr_no_nul (cf_interface_name m)) as H0. stores.
  pose proof (λ b o n, slice_writeSettings_ne b 152 (cf_settings m) o n Hs) as Hne.
  eexists. split_and!; [done|codec_len|header_ok_with Hne kMESSAGE_TYPE_CONFIGURE 236%nat buf| |].
  { rewrite drop_writeSettings by (done || lia). drops. done. }
  intros old _. unfold ConfigureMessage_Decode. rewrite length_slice by codec_len. cbn [Nat.ltb Nat.leb]. settings_back Hs.
  eexists. split; [reflexivity|]. cbn [wm_same ConfigureMessage_wire cf_agent_name cf_interface_name cf_op cf_settings].
  conjuncts; [| |load_field_with Hne|reflexivity];
    (apply copyName_back; [done..|]; loads_with Hne; rewrite drop_replicate; reflexivity).
Qed.

#[export] Instance ConfigureReplyMessage_ok : WireMessageOk ConfigureReplyMessage.
Proof.
  split; [done|simpl; lia|]. intros m buf (Ho & Hs) Hb. simpl in *. unfold ConfigureReplyMessage_Encode, writeText.
  fits_buffer. rewrite take_strnlen. cbn [Nat.sub]. pose proof (take_cstr_no_nul (cfr_detail m) 63) as H0.
  pose proof (firstn_le_length 63 (cstr (cfr_detail m))) as Hlen. set (s := take 63 (cstr (cfr_detail m))) in *. stores.
  pose proof (λ b o n, slice_writeSettings_ne b 8 (cfr_settings m) o n Hs) as Hne.
  eexists. split_and!; [done|codec_len|header_ok_with Hne kMESSAGE_TYPE_CONFIGURE_REPLY 156%nat buf| |].
  { drops. rewrite drop_writeSettings by (done || lia). drops. done. }
  intros old _. unfold ConfigureReplyMessage_Decode. rewrite length_slice by codec_len. cbn [Nat.ltb Nat.leb]. settings_back Hs.
  eexists. split; [reflexivity|]. cbn [wm_same ConfigureReplyMessage_wire cfr_status cfr_settings cfr_detail].
  conjuncts; [load_field_with Hne|reflexivity|].
  apply copyName_back; [done..|]. cbn [Nat.add]. loads_with Hne. rewrite drop_replicate. reflexivity.
Qed.
