(* ===== verification/AdminCodec.v ===== *)
(** * The shapes of the admin messages (src/protocol/admin_message.c)

    Some fifty admin messages share five shapes: a request with an offset, a
    request with an agent name, a request with both, a reply with a status, and
    a reply with a page of entries.  Each shape is modelled and proved once; the
    type of the message is a parameter.  The pages are generic in the entry: the
    class [AdminEntry] is what an entry's codec offers, [AdminEntryOk] what it
    promises. *)

From S2P Require Import Prelude CString Wire Codec ListMessage SubscribeMessage.

Notation ADMIN_FINGERPRINT_HEX_SIZE := 65%nat (only parsing).
Notation ADMIN_PEERS_BODY_SIZE := 4%nat (only parsing).
Notation ADMIN_KICK_REPLY_BODY_SIZE := 4%nat (only parsing).
Notation ADMIN_AGENTS_BODY_SIZE := 132%nat (only parsing).
Notation ADMIN_AGENT_NAME_BODY_SIZE := 128%nat (only parsing).
Notation ADMIN_ENTRIES_FIXED_SIZE := 4%nat (only parsing).

(** A message type in its byte. *)
Class WireType (type : Z) := wire_type : is_u8 type.
#[export] Hint Extern 1 (WireType _) => (red; by vm_compute) : typeclass_instances.

(** ** Building blocks *)

(** The result is [0] and the buffer as it was when the message does not fit. *)
Definition encodeFixedBody (type : Z) (body_size : nat) (buffer : list Z) : nat * list Z :=
  let total_size := (MESSAGE_HEADER_SIZE + body_size)%nat in
  if Nat.ltb (length buffer) total_size then (0%nat, buffer) else (total_size, begin_message type body_size buffer).

Definition isNameTerminated (agent_name : list Z) : bool := agent_name !!! 127%nat =? 0.
Definition isFingerprintTerminated (fingerprint_hex : list Z) : bool := fingerprint_hex !!! 64%nat =? 0.
Definition isInterfaceTerminated (interface_name : list Z) : bool := interface_name !!! 15%nat =? 0.

(** [memcpy(buffer + off, s, strlen(s))] *)
Definition put_string (off : nat) (s : list Z) (buffer : list Z) : list Z := copy_at off (take (strlen s) s) buffer.

(** [memcpy(field, payload + off, size); field[size - 1] = '\0';] *)
Definition get_string (off size : nat) (payload : list Z) : list Z := <[(size - 1)%nat := 0]> (slice off size payload).

(** [total_size = encodeFixedBody(..., &body); if (total_size == 0) return 0; fill(body); return total_size;] *)
Definition with_body (type : Z) (body_size : nat) (fill : list Z → nat → list Z) (buffer : list Z) : nat * list Z :=
  let '(total_size, buffer) := encodeFixedBody type body_size buffer in
  if Nat.eqb total_size 0 then (0%nat, buffer) else (total_size, fill buffer MESSAGE_HEADER_SIZE).

(** ** The requests and the status replies *)

Record OffsetRequest (type : Z) := { or_offset : Z }.
Arguments Build_OffsetRequest {_}. Arguments or_offset {_}.
Record AgentNameRequest (type : Z) := { an_agent_name : list Z }.
Arguments Build_AgentNameRequest {_}. Arguments an_agent_name {_}.
Record FilteredRequest (type : Z) := { fr_offset : Z; fr_agent_name : list Z }.
Arguments Build_FilteredRequest {_}. Arguments fr_offset {_}. Arguments fr_agent_name {_}.
Record StatusReply (type : Z) := { sr_status : Z }.
Arguments Build_StatusReply {_}. Arguments sr_status {_}.

Definition encodeOffsetRequest (type offset : Z) (buffer : list Z) : nat * list Z :=
  with_body type ADMIN_PEERS_BODY_SIZE (λ b body, Wire_WriteU16 b (body + 0) offset) buffer.

Definition decodeOffsetRequest {type} (self : OffsetRequest type) (payload : list Z) : bool * OffsetRequest type :=
  if Nat.ltb (length payload) ADMIN_PEERS_BODY_SIZE then (false, self) else (true, {| or_offset := Wire_ReadU16 payload 0 |}).

Definition encodeAgentName (type : Z) (agent_name : list Z) (buffer : list Z) : nat * list Z :=
  if negb (isNameTerminated agent_name) || negb (is_named agent_name) then (0%nat, buffer)
  else with_body type ADMIN_AGENT_NAME_BODY_SIZE (λ b body, put_string (body + 0) agent_name b) buffer.

Definition decodeAgentName {type} (self : AgentNameRequest type) (payload : list Z) : bool * AgentNameRequest type :=
  if Nat.ltb (length payload) ADMIN_AGENT_NAME_BODY_SIZE then (false, self)
  else
    let agent_name := slice 0 128 payload in
    (negb (negb (agent_name !!! 127%nat =? 0) || negb (is_named agent_name)), {| an_agent_name := agent_name |}).

Definition encodeFilteredRequest (type offset : Z) (agent_name : list Z) (buffer : list Z) : nat * list Z :=
  if negb (isNameTerminated agent_name) then (0%nat, buffer)
  else with_body type ADMIN_AGENTS_BODY_SIZE (λ b body,
    put_string (body + 4) agent_name (Wire_WriteU16 b (body + 0) offset)) buffer.

Definition decodeFilteredRequest {type} (self : FilteredRequest type) (payload : list Z) : bool * FilteredRequest type :=
  if Nat.ltb (length payload) ADMIN_AGENTS_BODY_SIZE then (false, self)
  else
    let agent_name := slice 4 128 payload in
    (agent_name !!! 127%nat =? 0, {| fr_offset := Wire_ReadU16 payload 0; fr_agent_name := agent_name |}).

Definition encodeStatusReply (type status : Z) (buffer : list Z) : nat * list Z :=
  with_body type ADMIN_KICK_REPLY_BODY_SIZE (λ b body, <[(body + 0)%nat := status]> b) buffer.

Definition decodeStatusReply {type} (self : StatusReply type) (payload : list Z) : bool * StatusReply type :=
  if Nat.ltb (length payload) ADMIN_KICK_REPLY_BODY_SIZE then (false, self) else (true, {| sr_status := payload !!! 0%nat |}).

(** ** Pages of entries *)

Record AdminReply (E : Type) := { reply_count : Z; reply_flags : Z; reply_entries : list E }.
Arguments Build_AdminReply {_}. Arguments reply_count {_}. Arguments reply_flags {_}. Arguments reply_entries {_}.

Definition reply_page {E} (m : AdminReply E) : list E := take (Z.to_nat (reply_count m)) (reply_entries m).

Section pages.
Context {E : Type} `{!Inhabited E}.

Definition encodeEntries (type : Z) (max size : nat) (valid : E → bool) (write : list Z → nat → E → list Z)
    (self : AdminReply E) (buffer : list Z) : nat * list Z :=
  if reply_count self >? Z.of_nat max then (0%nat, buffer)
  else if negb (forallb valid (reply_page self)) then (0%nat, buffer)
  else
    with_body type (ADMIN_ENTRIES_FIXED_SIZE + Z.to_nat (reply_count self) * size) (λ b body,
      let b := <[(body + 0)%nat := reply_count self]> b in
      let b := <[(body + 1)%nat := reply_flags self]> b in
      write_entries write size (body + 4) (reply_page self) b) buffer.

(** [for (i = ...; i < ... + n; i++) if (!read(payload + off + i * size, &entries[i])) return false;] *)
Fixpoint read_loop (read : list Z → nat → E → bool * E) (size off : nat) (payload : list Z) (i n : nat) (entries : list E) : bool * list E :=
  match n with
  | O => (true, entries)
  | S n' =>
      let '(ok, e) := read payload (off + i * size)%nat (entries !!! i) in
      let entries := <[i := e]> entries in
      if ok then read_loop read size off payload (S i) n' entries else (false, entries)
  end.

Definition decodeEntries (max size : nat) (read : list Z → nat → E → bool * E) (self : AdminReply E) (payload : list Z)
    : bool * AdminReply E :=
  if Nat.ltb (length payload) ADMIN_ENTRIES_FIXED_SIZE then (false, self)
  else
    let count := payload !!! 0%nat in
    let flags := payload !!! 1%nat in
    let partial := {| reply_count := count; reply_flags := flags; reply_entries := reply_entries self |} in
    if count >? Z.of_nat max then (false, partial)
    else if Nat.ltb (length payload) (ADMIN_ENTRIES_FIXED_SIZE + Z.to_nat count * size) then (false, partial)
    else
      let '(ok, entries) := read_loop read size 4 payload 0 (Z.to_nat count) (reply_entries self) in
      (ok, {| reply_count := count; reply_flags := flags; reply_entries := entries |}).
End pages.

(** A reader that cannot fail. *)
Definition void_reader {E} (read : list Z → nat → E) : list Z → nat → E → bool * E := λ payload off _, (true, read payload off).

(** ** Entry codecs *)

(** A writer that stays inside its block and does not depend on where the block is. *)
Class BlockWriter {E} (w : list Z → nat → E → list Z) (esize : nat) (ok : E → Prop) := {
  bw_len :: EntryLength w;
  bw_frame buf off e o n : ok e → (off + esize ≤ o ∨ o + n ≤ off)%nat → slice o n (w buf off e) = slice o n buf;
  bw_shift buf off e k n : ok e → (off + esize ≤ n)%nat → (k + n ≤ length buf)%nat → slice k n (w buf (k + off)%nat e) = w (slice k n buf) off e;
}.

Definition block_image {E} (w : list Z → nat → E → list Z) (esize : nat) (e : E) : list Z := w (replicate esize 0) 0%nat e.

Lemma block_entry_writer {E} (w : list Z → nat → E → list Z) esize ok :
  BlockWriter w esize ok → EntryWriter w esize ok (block_image w esize).
Proof.
  intros Hw. split; [apply _|apply bw_frame|]. intros buf off e Hok Hb Hz.
  pose proof (bw_shift buf 0 e off esize Hok ltac:(lia) Hb) as Hs. rewrite Nat.add_0_r in Hs. by rewrite Hs, Hz.
Qed.

Class AdminEntry (E : Type) := {
  ae_inhabited :: Inhabited E;
  ae_type : Z;                                   (** type of the reply *)
  ae_max : nat;                                  (** entries of a page *)
  ae_size : nat;                                 (** bytes of an entry *)
  ae_check : E → bool;                           (** the encoder's test of an entry *)
  ae_write : list Z → nat → E → list Z;
  ae_read : list Z → nat → E → bool * E;
  ae_shape : E → Prop;                           (** array sizes of the C struct *)
  ae_ok : E → Prop;                              (** what the encoder accepts *)
  ae_same : E → E → Prop;                        (** same content *)
}.

Class AdminEntryOk (E : Type) `{AdminEntry E} := {
  ae_type_u8 : WireType (ae_type (E := E));
  ae_fits : (MESSAGE_HEADER_SIZE + ADMIN_ENTRIES_FIXED_SIZE + ae_max (E := E) * ae_size (E := E) ≤ 4096)%nat;
  ae_max_u8 : (ae_max (E := E) < 256)%nat;
  ae_check_ok (e : E) : ae_ok e → ae_check e = true;
  ae_writer :: BlockWriter ae_write (ae_size (E := E)) ae_ok;
  ae_read_ok (e old : E) p o : ae_ok e → ae_shape old → slice o ae_size p = block_image ae_write (ae_size (E := E)) e →
    ∃ e', ae_read p o old = (true, e') ∧ ae_same e e';
}.

(** *** Strings *)
Definition name_field (n : nat) (s : list Z) : Prop := length s = S n ∧ s !!! n = 0.

Lemma name_field_len n s : name_field n s → (length (cstr s) ≤ n)%nat.
Proof. intros [Hl Hn]. by apply (strlen_terminated s n). Qed.

Lemma put_string_copy off s buf : put_string off s buf = copy_at off (cstr s) buf.
Proof. unfold put_string. by rewrite <- cstr_prefix. Qed.

Lemma length_put_string off s buf : length (put_string off s buf) = length buf.
Proof. unfold put_string. apply length_copy_at. Qed.

(** A string that was stored over zeroes reads back. *)
Lemma stored_string n s k : name_field n s → cstr s ++ drop (length (cstr s)) (replicate k 0) = padded k (cstr s).
Proof. intros _. unfold padded. by rewrite drop_replicate. Qed.

Lemma get_stored n s p off : name_field n s → slice off (S n) p = padded (S n) (cstr s) → cstr (get_string off (S n) p) = cstr s.
Proof.
  intros Hs Hp. unfold get_string. rewrite Hp. replace (S n - 1)%nat with n by lia. apply cstr_terminated; [apply cstr_no_nul|by apply name_field_len].
Qed.

Lemma padded_last n s : (length s ≤ n)%nat → padded (S n) s !!! n = 0.
Proof.
  intros Hs. unfold padded. apply list_lookup_total_correct. rewrite lookup_app_r by lia. apply lookup_replicate. lia.
Qed.

Lemma is_named_padded n s : is_named s = true → is_named (padded n (cstr s)) = true.
Proof. rewrite !is_named_cstr, cstr_padded by apply cstr_no_nul. done. Qed.

(** *** Moving a block *)
Lemma slice_copy_shift k n off d buf :
  (off + length d ≤ n)%nat → (k + n ≤ length buf)%nat → slice k n (copy_at (k + off) d buf) = copy_at off d (slice k n buf).
Proof.
  intros Ho Hb. apply list_eq. intros i. unfold copy_at. destruct (decide (i < n)%nat) as [Hi|Hi].
  - rewrite lookup_slice by lia. destruct (decide (i < off)%nat).
    + rewrite !list_lookup_inserts_lt by lia. by rewrite lookup_slice by lia.
    + destruct (decide (i < off + length d)%nat).
      * rewrite !list_lookup_inserts; [f_equal; lia|lia|rewrite length_slice by lia; lia|lia|lia].
      * rewrite !list_lookup_inserts_ge by lia. by rewrite lookup_slice by lia.
  - rewrite !lookup_ge_None_2; [done| |]; rewrite ?length_inserts, length_slice by (rewrite ?length_inserts; lia); lia.
Qed.

Lemma slice_copy_shift' k n off o d buf :
  (off + o + length d ≤ n)%nat → (k + n ≤ length buf)%nat → slice k n (copy_at (k + off + o) d buf) = copy_at (off + o) d (slice k n buf).
Proof. intros Ho Hb. rewrite <- Nat.add_assoc. by apply slice_copy_shift. Qed.

Section blocks.
Context {E} (w : list Z → nat → E → list Z) (esize : nat) (ok : E → Prop) `{Hw : !BlockWriter w esize ok}.

Lemma slice_write_entries_shift es k n off buf :
  Forall ok es → (off + length es * esize ≤ n)%nat → (k + n ≤ length buf)%nat →
  slice k n (write_entries w esize (k + off) es buf) = write_entries w esize off es (slice k n buf).
Proof.
  intros Hok. revert off buf. induction Hok as [|e es He _ IH]; intros off buf Ho Hb; [done|]. cbn [write_entries length] in *.
  rewrite <- Nat.add_assoc, IH by (rewrite ?ew_length; lia). by rewrite bw_shift by (done || lia).
Qed.

Lemma slice_write_entries_shift' es k n off o buf :
  Forall ok es → (off + o + length es * esize ≤ n)%nat → (k + n ≤ length buf)%nat →
  slice k n (write_entries w esize (k + off + o) es buf) = write_entries w esize (off + o) es (slice k n buf).
Proof. intros Hok Ho Hb. rewrite <- Nat.add_assoc. by apply slice_write_entries_shift. Qed.

Lemma block_write_ne off es buf o n :
  Forall ok es → (off + length es * esize ≤ o ∨ o + n ≤ off)%nat →
  slice o n (write_entries w esize off es buf) = slice o n buf.
Proof. pose proof (block_entry_writer w esize ok Hw). by apply (slice_write_entries_ne w esize ok _). Qed.

(** Reading back a block of entries, each by a reader that inverts the writer. *)
Lemma read_loop_back `{!Inhabited E} (r : list Z → nat → E → bool * E) (shape : E → Prop) (same : E → E → Prop) p off o es buf olds i :
  (∀ e old p o, ok e → shape old → slice o esize p = block_image w esize e → ∃ e', r p o old = (true, e') ∧ same e e') →
  Forall ok es → (∀ j x, (i ≤ j)%nat → olds !! j = Some x → shape x) → (o + length es * esize ≤ length buf)%nat →
  slice o (length es * esize) buf = replicate (length es * esize) 0 →
  slice (off + i * esize) (length es * esize) p = slice o (length es * esize) (write_entries w esize o es buf) →
  (i + length es ≤ length olds)%nat →
  ∃ got, read_loop r esize off p i (length es) olds = (true, list_inserts i got olds) ∧ Forall2 same es got.
Proof.
  intros Hr Hok. pose proof (block_entry_writer w esize ok Hw) as Hew. revert i o olds buf.
  induction Hok as [|e es He Hes IH]; intros i o olds buf Hsh Hb Hz Hp Hlen; cbn [length read_loop] in *; [by exists []|].
  cbn [write_entries] in Hp.
  assert (slice (off + i * esize) esize p = block_image w esize e) as Hfirst.
  { pose proof (slice_field _ _ _ _ 0 esize Hp ltac:(lia)) as Hf. rewrite Nat.add_0_r in Hf. rewrite Hf, slice_slice, Nat.add_0_r by lia.
    rewrite (slice_write_entries_ne w esize ok _) by (done || lia). apply ew_image; [done|lia|].
    pose proof (slice_field _ _ _ _ 0 esize Hz ltac:(lia)) as Hf'. rewrite Nat.add_0_r in Hf'. by rewrite Hf', slice_replicate by lia. }
  assert (shape (olds !!! i)) as Hsi.
  { assert (is_Some (olds !! i)) as [x Hx] by (apply lookup_lt_is_Some; lia). rewrite (list_lookup_total_correct _ _ _ Hx). by apply (Hsh i). }
  destruct (Hr e (olds !!! i) p _ He Hsi Hfirst) as (e' & -> & Hs).
  destruct (IH (S i) (o + esize)%nat (<[i := e']> olds) (w buf o e)) as (got & -> & Hgot).
  - intros j x Hj. rewrite list_lookup_insert_ne by lia. apply Hsh. lia.
  - rewrite ew_length. lia.
  - rewrite ew_frame by (done || lia). pose proof (slice_field _ _ _ _ esize (length es * esize) Hz ltac:(lia)) as ->. by rewrite slice_replicate by lia.
  - pose proof (slice_field _ _ _ _ esize (length es * esize) Hp ltac:(lia)) as Hf. rewrite slice_slice in Hf by lia.
    rewrite <- Hf. f_equal. lia.
  - rewrite length_insert. lia.
  - exists (e' :: got). split; [|by constructor]. cbn [list_inserts]. by rewrite list_insert_inserts_lt by lia.
Qed.
End blocks.

Lemma slice_field_0 p n image off k : slice 0 n p = image → (off + k ≤ n)%nat → slice off k p = slice off k image.
Proof. exact (slice_field p 0 n image off k). Qed.

(** ** Automation *)

(** The length of every string a hypothesis knows to be terminated. *)
Ltac name_lengths :=
  repeat match goal with
  | H : name_field ?n ?s |- _ =>
      lazymatch goal with
      | _ : (length (cstr s) ≤ n)%nat |- _ => fail
      | _ => pose proof (name_field_len n s H)
      end
  end.

(** Every store of the goal as a block store. *)
Ltac block_stores := rewrite ?put_string_copy; stores.

Ltac shifts := repeat first [rewrite slice_copy_shift' by codec_len | rewrite slice_copy_shift by codec_len].

(** [BlockWriter w size ok] for a writer of single fields, [ok] a conjunction of ranges and [name_field]s. *)
Ltac block_writer w :=
  split;
  [ intros ? ? ?; unfold w, put_string, Wire_WriteU64, Wire_WriteU32, Wire_WriteU16; by autorewrite with len
  | intros ? ? ? ? ? ? ?; cbv beta in *; destruct_and?; name_lengths; unfold w; block_stores; by loads
  | intros ? ? ? ? ? ? ? ?; cbv beta in *; destruct_and?; name_lengths; unfold w; block_stores; by shifts ].

(** One field read back from the image: [Hf] reads blocks of the payload. *)
Ltac from_image Hf := rewrite Hf by lia; loads; rewrite ?drop_replicate; try done.
Ltac field_read Hf :=
  lazymatch goal with
  | |- Wire_ReadU16 _ _ = _ => apply Wire_ReadU16_slice; [from_image Hf|done]
  | |- Wire_ReadU32 _ _ = _ => apply Wire_ReadU32_slice; [from_image Hf|done]
  | |- Wire_ReadU64 _ _ = _ => apply Wire_ReadU64_slice; [from_image Hf|done]
  | |- cstr (get_string _ 128 _) = _ => apply (get_stored 127); [done|from_image Hf]
  | |- cstr (get_string _ 65 _) = _ => apply (get_stored 64); [done|from_image Hf]
  | |- cstr (get_string _ 56 _) = _ => apply (get_stored 55); [done|from_image Hf]
  | |- cstr (get_string _ 32 _) = _ => apply (get_stored 31); [done|from_image Hf]
  | |- cstr (get_string _ 16 _) = _ => apply (get_stored 15); [done|from_image Hf]
  | |- _ !!! _ = _ => apply load_byte_slice; from_image Hf
  end.

(** Turns [Hs : slice o n p = block_image w n e] into [Hf], the blocks of [p]. *)
Ltac image_blocks w Hs Hf :=
  name_lengths; revert Hs; unfold block_image, w; block_stores; rewrite ?Nat.add_0_l; intros Hs;
  lazymatch type of Hs with
  | slice 0 _ _ = _ => pose proof (λ off k Hle, slice_field_0 _ _ _ off k Hs Hle) as Hf
  | _ => pose proof (λ off k Hle, slice_field _ _ _ _ off k Hs Hle) as Hf
  end.

(** ** The shapes keep the codec's promise *)

Lemma body_ok (type : Z) (n : nat) (fill : list Z → nat → list Z) (buf : list Z) :
  WireType type → BlockWriter (λ b off (_ : ()), fill b off) n (λ _, True) → (MESSAGE_HEADER_SIZE + n ≤ 4096)%nat →
  (MESSAGE_HEADER_SIZE + n ≤ length buf)%nat →
  ∃ buf', with_body type n fill buf = ((MESSAGE_HEADER_SIZE + n)%nat, buf') ∧ length buf' = length buf ∧
    MessageHeader_Decode buf' = Some {| header_type := type; header_flags := 0; header_length := Z.of_nat n |} ∧
    drop (MESSAGE_HEADER_SIZE + n) buf' = drop (MESSAGE_HEADER_SIZE + n) buf ∧
    slice MESSAGE_HEADER_SIZE n buf' = fill (replicate n 0) 0%nat.
Proof.
  intros Ht Hw Hn Hb. unfold with_body, encodeFixedBody. rewrite (proj2 (Nat.ltb_ge _ _) Hb). cbn [Nat.eqb Nat.add].
  assert (∀ b off, length (fill b off) = length b) as Hlen by (intros b off; exact (ew_length b off ())).
  assert (∀ b off o k, (off + n ≤ o ∨ o + k ≤ off)%nat → slice o k (fill b off) = slice o k b) as Hframe by (intros b off o k; exact (bw_frame b off () o k I)).
  assert (slice 4 n (fill (begin_message type n buf) 4) = fill (slice 4 n (begin_message type n buf)) 0)%nat as Hshift.
  { apply (@bw_shift _ _ _ _ Hw (begin_message type n buf) 0 () 4 n I); rewrite ?length_begin_message; lia. }
  eexists. split_and!; [reflexivity|by rewrite Hlen, length_begin_message| | |].
  - apply (MessageHeader_Decode_slice _ type n); [rewrite Hlen, length_begin_message; lia|lia|].
    apply (slice_begin_header type n buf); [by rewrite Hlen, length_begin_message| |lia]. rewrite Hframe by lia. done.
  - pose proof (Hframe (begin_message type n buf) 4 (4 + n) (length buf - (4 + n)))%nat as Hd. specialize (Hd ltac:(lia)). unfold slice in Hd.
    rewrite !take_ge in Hd by (rewrite length_drop, ?Hlen, length_begin_message; lia). change (S (S (S (S n)))) with (4 + n)%nat.
    by rewrite Hd, drop_begin_message by lia.
  - rewrite Hshift. by rewrite slice_begin by lia.
Qed.

(** A writer of messages fills the body of the ones it accepts. *)
Lemma fill_writer {M} (w : list Z → nat → M → list Z) n ok (m : M) :
  BlockWriter w n ok → ok m → BlockWriter (λ b off (_ : ()), w b off m) n (λ _, True).
Proof.
  intros Hw Hm. split.
  - intros b off _. apply ew_length.
  - intros b off _ o k _. by apply bw_frame.
  - intros b off _ k j _. by apply bw_shift.
Qed.

(** The promise of a message whose body is written by [w] and whose decoder inverts it. *)
Lemma message_ok {M} (type : Z) (n : nat) (w : list Z → nat → M → list Z) (ok : M → Prop) (decode : M → list Z → bool * M)
    (shape : M → Prop) (same : M → M → Prop) (m : M) (buf : list Z) :
  WireType type → BlockWriter w n ok → ok m → (MESSAGE_HEADER_SIZE + n ≤ 4096)%nat → (MESSAGE_HEADER_SIZE + n ≤ length buf)%nat →
  (∀ old p, shape old → length p = n → slice 0 n p = block_image w n m → ∃ m', decode old p = (true, m') ∧ same m m') →
  ∃ buf', with_body type n (λ b body, w b body m) buf = ((MESSAGE_HEADER_SIZE + n)%nat, buf') ∧ length buf' = length buf ∧
    MessageHeader_Decode buf' = Some {| header_type := type; header_flags := 0; header_length := Z.of_nat n |} ∧
    drop (MESSAGE_HEADER_SIZE + n) buf' = drop (MESSAGE_HEADER_SIZE + n) buf ∧
    ∀ old, shape old → ∃ m', decode old (slice MESSAGE_HEADER_SIZE n buf') = (true, m') ∧ same m m'.
Proof.
  intros Ht Hw Hm Hn Hb Hd. destruct (body_ok type n (λ b body, w b body m) buf Ht) as (buf' & He & Hl & Hh & Hdr & Hp); [by eapply fill_writer|done..|].
  exists buf'. split_and!; [done..|]. intros old Hold. apply Hd; [done|rewrite length_slice by lia; done|].
  rewrite slice_slice, Nat.add_0_r by lia. done.
Qed.

Section shapes.
Context (type : Z) {Htype : WireType type}.

#[export] Instance OffsetRequest_wire : WireMessage (OffsetRequest type) := {|
  wm_type := type; wm_size _ := ADMIN_PEERS_BODY_SIZE; wm_shape _ := True; wm_valid m := is_u16 (or_offset m);
  wm_encode m := encodeOffsetRequest type (or_offset m); wm_decode := decodeOffsetRequest; wm_same m m' := or_offset m' = or_offset m |}.

Definition writeOffset (b : list Z) (body : nat) (m : OffsetRequest type) : list Z := Wire_WriteU16 b (body + 0) (or_offset m).
#[local] Instance writeOffset_block : BlockWriter writeOffset 4 (λ m, is_u16 (or_offset m)).
Proof. block_writer writeOffset. Qed.

#[export] Instance OffsetRequest_ok : WireMessageOk (OffsetRequest type).
Proof.
  split; [done|simpl; lia|]. intros m buf Hm Hb. eapply (message_ok _ _ writeOffset _ decodeOffsetRequest (λ _, True)); [done|apply _|done|simpl; lia|done|].
  intros old p _ Hl Hs. cbn in Hm. image_blocks writeOffset Hs Hf. unfold decodeOffsetRequest. cbn in Hl. rewrite Hl. eexists. split; [reflexivity|].
  cbn [wm_same OffsetRequest_wire or_offset]. field_read Hf.
Qed.

#[export] Instance StatusReply_wire : WireMessage (StatusReply type) := {|
  wm_type := type; wm_size _ := ADMIN_KICK_REPLY_BODY_SIZE; wm_shape _ := True; wm_valid m := is_u8 (sr_status m);
  wm_encode m := encodeStatusReply type (sr_status m); wm_decode := decodeStatusReply; wm_same m m' := sr_status m' = sr_status m |}.

Definition writeStatus (b : list Z) (body : nat) (m : StatusReply type) : list Z := <[(body + 0)%nat := sr_status m]> b.
#[local] Instance writeStatus_block : BlockWriter writeStatus 4 (λ _, True).
Proof. block_writer writeStatus. Qed.

#[export] Instance StatusReply_ok : WireMessageOk (StatusReply type).
Proof.
  split; [done|simpl; lia|]. intros m buf Hm Hb. eapply (message_ok _ _ writeStatus _ decodeStatusReply (λ _, True)); [done|apply _|done|simpl; lia|done|].
  intros old p _ Hl Hs. image_blocks writeStatus Hs Hf. unfold decodeStatusReply. cbn in Hl. rewrite Hl. eexists. split; [reflexivity|].
  cbn [wm_same StatusReply_wire sr_status]. field_read Hf.
Qed.

#[export] Instance AgentNameRequest_wire : WireMessage (AgentNameRequest type) := {|
  wm_type := type; wm_size _ := ADMIN_AGENT_NAME_BODY_SIZE; wm_shape _ := True;
  wm_valid m := name_field 127 (an_agent_name m) ∧ is_named (an_agent_name m) = true;
  wm_encode m := encodeAgentName type (an_agent_name m); wm_decode := decodeAgentName;
  wm_same m m' := cstr (an_agent_name m') = cstr (an_agent_name m) |}.

Definition writeAgentName (b : list Z) (body : nat) (m : AgentNameRequest type) : list Z := put_string (body + 0) (an_agent_name m) b.
#[local] Instance writeAgentName_block : BlockWriter writeAgentName 128 (λ m, name_field 127 (an_agent_name m)).
Proof. block_writer writeAgentName. Qed.

Lemma terminated_true s : name_field 127 s → isNameTerminated s = true.
Proof. intros [_ Hn]. unfold isNameTerminated. by rewrite Hn. Qed.

#[export] Instance AgentNameRequest_ok : WireMessageOk (AgentNameRequest type).
Proof.
  split; [done|simpl; lia|]. intros m buf [Hm Hn] Hb. cbn [wm_encode AgentNameRequest_wire]. unfold encodeAgentName. rewrite terminated_true, Hn by done. cbn [negb orb].
  eapply (message_ok _ _ writeAgentName _ decodeAgentName (λ _, True)); [done|apply _|done|simpl; lia|done|].
  intros old p _ Hl Hs. image_blocks writeAgentName Hs Hf. unfold decodeAgentName. cbn in Hl. rewrite Hl. cbn [Nat.ltb Nat.leb].
  assert (slice 0 128 p = padded 128 (cstr (an_agent_name m))) as -> by from_image Hf.
  rewrite padded_last, is_named_padded by done. eexists. split; [reflexivity|]. cbn. apply cstr_padded, cstr_no_nul.
Qed.

#[export] Instance FilteredRequest_wire : WireMessage (FilteredRequest type) := {|
  wm_type := type; wm_size _ := ADMIN_AGENTS_BODY_SIZE; wm_shape _ := True;
  wm_valid m := is_u16 (fr_offset m) ∧ name_field 127 (fr_agent_name m);
  wm_encode m := encodeFilteredRequest type (fr_offset m) (fr_agent_name m); wm_decode := decodeFilteredRequest;
  wm_same m m' := fr_offset m' = fr_offset m ∧ cstr (fr_agent_name m') = cstr (fr_agent_name m) |}.

Definition writeFiltered (b : list Z) (body : nat) (m : FilteredRequest type) : list Z :=
  put_string (body + 4) (fr_agent_name m) (Wire_WriteU16 b (body + 0) (fr_offset m)).
#[local] Instance writeFiltered_block : BlockWriter writeFiltered 132 (λ m, is_u16 (fr_offset m) ∧ name_field 127 (fr_agent_name m)).
Proof. block_writer writeFiltered. Qed.

#[export] Instance FilteredRequest_ok : WireMessageOk (FilteredRequest type).
Proof.
  split; [done|simpl; lia|]. intros m buf [Ho Hm] Hb. cbn [wm_encode FilteredRequest_wire]. unfold encodeFilteredRequest. rewrite terminated_true by done. cbn [negb].
  eapply (message_ok _ _ writeFiltered _ decodeFilteredRequest (λ _, True)); [done|apply _|done|simpl; lia|done|].
  intros old p _ Hl Hs. image_blocks writeFiltered Hs Hf. unfold decodeFilteredRequest. cbn in Hl. rewrite Hl. cbn [Nat.ltb Nat.leb].
  assert (slice 4 128 p = padded 128 (cstr (fr_agent_name m))) as -> by from_image Hf.
  rewrite padded_last by done. eexists. split; [reflexivity|]. cbn [wm_same FilteredRequest_wire fr_offset fr_agent_name].
  split; [field_read Hf|]. apply cstr_padded, cstr_no_nul.
Qed.
End shapes.

(** ** Pages keep the codec's promise *)
Section reply.
Context {E : Type} `{HE : AdminEntry E}.
Context `{HOK : !AdminEntryOk E}.

#[export] Instance AdminReply_wire : WireMessage (AdminReply E) := {|
  wm_type := ae_type (E := E);
  wm_size m := (ADMIN_ENTRIES_FIXED_SIZE + Z.to_nat (reply_count m) * ae_size (E := E))%nat;
  wm_shape m := length (reply_entries m) = ae_max (E := E) ∧ Forall ae_shape (reply_entries m);
  wm_valid m := is_u8 (reply_flags m) ∧ 0 ≤ reply_count m ≤ Z.of_nat (ae_max (E := E)) ∧ length (reply_entries m) = ae_max (E := E) ∧
    Forall ae_ok (reply_page m);
  wm_encode := encodeEntries ae_type ae_max ae_size ae_check ae_write;
  wm_decode := decodeEntries ae_max ae_size ae_read;
  wm_same m m' := reply_count m' = reply_count m ∧ reply_flags m' = reply_flags m ∧ Forall2 ae_same (reply_page m) (reply_page m') |}.

Definition writeReply (b : list Z) (body : nat) (m : AdminReply E) : list Z :=
  let b := <[(body + 0)%nat := reply_count m]> b in
  let b := <[(body + 1)%nat := reply_flags m]> b in
  write_entries ae_write (ae_size (E := E)) (body + 4) (reply_page m) b.

Lemma length_reply_page (m : AdminReply E) :
  reply_count m ≤ Z.of_nat (ae_max (E := E)) → length (reply_entries m) = ae_max (E := E) → length (reply_page m) = Z.to_nat (reply_count m).
Proof. intros Hc Hl. unfold reply_page. rewrite length_take. lia. Qed.

#[local] Instance writeReply_block (m : AdminReply E) : Forall ae_ok (reply_page m) →
  BlockWriter writeReply (4 + length (reply_page m) * ae_size (E := E)) (eq m).
Proof.
  intros Hok. split.
  - intros b off e. unfold writeReply. by autorewrite with len.
  - intros b off e o k <- Hdis. unfold writeReply. rewrite (block_write_ne _ _ ae_ok) by (done || lia). rewrite !insert_copy. by loads.
  - intros b off e k n <- Ho Hb. unfold writeReply.
    rewrite (slice_write_entries_shift' _ _ ae_ok) by (done || (autorewrite with len; lia)). rewrite !insert_copy. by shifts.
Qed.

(** The decoder reads the page of the image. *)
Lemma decode_reply (m old : AdminReply E) p :
  wm_valid m → wm_shape old → length p = (4 + length (reply_page m) * ae_size (E := E))%nat →
  slice 0 (4 + length (reply_page m) * ae_size (E := E)) p = block_image writeReply (4 + length (reply_page m) * ae_size (E := E)) m →
  ∃ m', decodeEntries ae_max ae_size ae_read old p = (true, m') ∧ wm_same m m'.
Proof.
  intros (Hfl & Hc & Hl & Hok) [Hlo Hsh] Hp Hs. pose proof (length_reply_page m ltac:(lia) Hl) as Hn.
  set (n := length (reply_page m)) in *. pose proof ae_max_u8 (E := E) as Hmax.
  assert (slice 0 4 p = [reply_count m; reply_flags m; 0; 0] ∧
    slice (4 + 0 * ae_size (E := E)) (n * ae_size (E := E)) p = slice 4 (n * ae_size (E := E)) (write_entries ae_write (ae_size (E := E)) 4 (reply_page m)
      (copy_at 1 [reply_flags m] (copy_at 0 [reply_count m] (replicate (4 + n * ae_size (E := E)) 0))))) as [Hhead Htail].
  { rewrite !(slice_field_0 _ _ _ _ _ Hs) by lia. unfold block_image, writeReply. rewrite !insert_copy, !Nat.add_0_l.
    split; [|done]. rewrite (block_write_ne _ _ ae_ok) by (done || lia). rewrite (slice_split 0 1 3), (slice_split 1 1 2) by codec_len. by loads. }
  assert (∀ i, (i < 4)%nat → p !!! i = [reply_count m; reply_flags m; 0; 0] !!! i) as Hb.
  { intros i Hi. rewrite <- Hhead, lookup_total_slice by lia. done. }
  unfold decodeEntries. rewrite Hp, (Hb 0%nat), (Hb 1%nat) by lia. cbn [lookup_total list_lookup_total].
  rewrite (proj2 (Nat.ltb_ge _ 4)) by lia. replace (reply_count m >? _) with false by (symmetry; lia). rewrite <- Hn, Nat.ltb_irrefl.
  destruct (read_loop_back ae_write ae_size ae_ok ae_read ae_shape ae_same p 4 4 (reply_page m)
    (copy_at 1 [reply_flags m] (copy_at 0 [reply_count m] (replicate (4 + n * ae_size (E := E)) 0))) (reply_entries old) 0) as (got & Hgot & Hsame).
  - intros e o' p' off. apply ae_read_ok.
  - done.
  - intros j x _ Hx. by eapply Forall_lookup_1.
  - autorewrite with len. lia.
  - by loads.
  - done.
  - fold n. lia.
  - fold n in Hgot. rewrite Hgot. eexists. split; [reflexivity|]. cbn. split_and!; [done..|]. unfold reply_page at 2. cbn [reply_count reply_entries].
    rewrite <- Hn, take_list_inserts; [done|symmetry; by apply Forall2_length in Hsame|lia].
Qed.

#[export] Instance AdminReply_ok : WireMessageOk (AdminReply E).
Proof.
  pose proof (ae_fits (E := E)) as Hfits. split; [apply ae_type_u8|intros m (_ & Hc & _); cbn; nia|].
  intros m buf Hv Hb. pose proof Hv as (Hfl & Hc & Hl & Hok). pose proof (length_reply_page m ltac:(lia) Hl) as Hn. cbn [wm_encode wm_size AdminReply_wire] in *.
  unfold encodeEntries. replace (reply_count m >? _) with false by (symmetry; lia).
  assert (forallb ae_check (reply_page m) = true) as ->.
  { apply forallb_forall. intros e He%list_elem_of_In. rewrite Forall_forall in Hok. by apply ae_check_ok, Hok. }
  cbn [negb]. rewrite <- Hn in *. eapply (message_ok _ _ writeReply (eq m)); [apply ae_type_u8|by apply writeReply_block|done|nia|done|].
  intros old p Hsh Hp Hs. by apply decode_reply.
Qed.
End reply.
