(* ===== verification/MessageFramer.v ===== *)
(** * Reassembly of messages out of a byte stream
    (src/platform/linux/shared/message_framer.c, and the receive loop of
    src/platform/linux/tls/tls_channel.c)

    The framer collects whatever chunks the transport delivers into a bounded
    buffer and lifts complete length-delimited messages off its front. *)

From S2P Require Import Prelude Wire.

(** [capacity] is the length of the buffer. *)
Record MessageFramer := { mf_buffer : list Z; mf_used : nat }.

Notation MESSAGE_FRAMER_BUFFER_SIZE := 4096%nat (only parsing).

(** The inline buffer keeps whatever bytes it held. *)
Definition MessageFramer_Reset (inline_buffer : list Z) : MessageFramer := {| mf_buffer := inline_buffer; mf_used := 0 |}.

Definition MessageFramer_AdoptBuffer (buffer : list Z) : MessageFramer := {| mf_buffer := buffer; mf_used := 0 |}.

Definition MessageFramer_Pending (self : MessageFramer) : nat := mf_used self.

Definition MessageFramer_Push (self : MessageFramer) (data : list Z) : nat * MessageFramer :=
  let available := (length (mf_buffer self) - mf_used self)%nat in
  let taken := if Nat.ltb (length data) available then length data else available in
  (taken, {| mf_buffer := list_inserts (mf_used self) (take taken data) (mf_buffer self);
             mf_used := (mf_used self + taken)%nat |}).

(** The size of the complete message at the front, 0 for none. *)
Definition MessageFramer_NextMessage (self : MessageFramer) : nat :=
  match MessageHeader_Decode (take (mf_used self) (mf_buffer self)) with
  | None => 0%nat
  | Some header =>
      let message_size := (MESSAGE_HEADER_SIZE + Z.to_nat (header_length header))%nat in
      if Nat.ltb (mf_used self) message_size then 0%nat else message_size
  end.

Definition MessageFramer_Consume (self : MessageFramer) (size : nat) : MessageFramer :=
  let size := if Nat.ltb (mf_used self) size then mf_used self else size in
  {| mf_buffer := list_inserts 0 (slice size (mf_used self - size) (mf_buffer self)) (mf_buffer self);
     mf_used := (mf_used self - size)%nat |}.

(** [MessageFramer_Drain]: the messages handed to the sink, in order.  Each
    iteration consumes at least a header, so [used] iterations are enough. *)
Fixpoint drain (fuel : nat) (self : MessageFramer) : list (list Z) * MessageFramer :=
  match fuel with
  | O => ([], self)
  | S fuel' =>
      let message_size := MessageFramer_NextMessage self in
      if Nat.eqb message_size 0 then ([], self)
      else
        let message := take message_size (mf_buffer self) in
        let '(rest, self') := drain fuel' (MessageFramer_Consume self message_size) in
        (message :: rest, self')
  end.

Definition MessageFramer_Drain (self : MessageFramer) : list (list Z) * MessageFramer := drain (S (mf_used self)) self.

(** [drainPlaintext]: feed one decrypted chunk, draining between pushes; false
    when the framer cannot take anything more. [is_bound] is what
    [TlsChannel_IsBound] answers after the sink has handled the messages of a
    drain: the sink may have dropped the connection. Every other iteration takes
    at least a byte, so the chunk's length bounds them. *)
Fixpoint drain_plaintext (is_bound : list (list Z) → bool) (fuel : nat) (self : MessageFramer) (data : list Z) :
    bool * list (list Z) * MessageFramer :=
  match fuel with
  | O => (true, [], self)
  | S fuel' =>
      if Nat.eqb (length data) 0 then (true, [], self)
      else
        let '(taken, self) := MessageFramer_Push self data in
        let '(messages, self) := MessageFramer_Drain self in
        if negb (is_bound messages) then (true, messages, self)
        else if Nat.eqb taken 0 then (false, messages, self)
        else
          let '(ok, more, self) := drain_plaintext is_bound fuel' self (drop taken data) in
          (ok, messages ++ more, self)
  end.

Definition drainPlaintext (is_bound : list (list Z) → bool) (self : MessageFramer) (data : list Z) :
    bool * list (list Z) * MessageFramer :=
  drain_plaintext is_bound (S (length data)) self data.

(** A connection that stays up: chunk after chunk. *)
Fixpoint receive_chunks (self : MessageFramer) (chunks : list (list Z)) : bool * list (list Z) * MessageFramer :=
  match chunks with
  | [] => (true, [], self)
  | c :: chunks' =>
      let '(ok, ms, self) := drainPlaintext (λ _, true) self c in
      if ok then let '(ok', ms', self) := receive_chunks self chunks' in (ok', ms ++ ms', self)
      else (false, ms, self)
  end.

(** ** Specification: how a byte stream divides into messages *)

(** The size of the message a stream starts with, if it is complete. *)
Definition next_size (s : list Z) : option nat :=
  match MessageHeader_Decode s with
  | None => None
  | Some h =>
      let n := (MESSAGE_HEADER_SIZE + Z.to_nat (header_length h))%nat in
      if Nat.ltb (length s) n then None else Some n
  end.

(** [parses cap s ms rest]: [s] is the messages [ms] followed by [rest], which
    starts with no complete message; no message is larger than [cap]. *)
Inductive parses (cap : nat) : list Z → list (list Z) → list Z → Prop :=
| parses_stop s :
    next_size s = None →
    (∀ h, MessageHeader_Decode s = Some h → (MESSAGE_HEADER_SIZE + Z.to_nat (header_length h) ≤ cap)%nat) →
    parses cap s [] s
| parses_next s n ms rest :
    next_size s = Some n → (n ≤ cap)%nat → parses cap (drop n s) ms rest → parses cap s (take n s :: ms) rest.

Lemma header_app p d :
  MessageHeader_Decode p ≠ None → MessageHeader_Decode (p ++ d) = MessageHeader_Decode p.
Proof.
  intros Hp. destruct p as [|b0 [|b1 [|b2 [|b3 p]]]]; try done; by unfold MessageHeader_Decode in Hp.
Qed.

Lemma next_size_bounds s n : next_size s = Some n → (4 ≤ n ≤ length s)%nat.
Proof.
  unfold next_size. destruct (MessageHeader_Decode s); [|done]. case_tests; intros [= <-]. lia.
Qed.

Lemma next_size_app p d n : next_size p = Some n → next_size (p ++ d) = Some n.
Proof.
  unfold next_size. destruct (MessageHeader_Decode p) as [h|] eqn:Hh; [|done].
  rewrite header_app, Hh by (by rewrite Hh). case_tests; try done.
  rewrite length_app in *. lia.
Qed.

(** Parsing a prefix first and the rest later gives the same messages. *)
Lemma parses_prefix cap p d ms rest :
  parses cap (p ++ d) ms rest →
  ∃ ms1 ms2 r1, parses cap p ms1 r1 ∧ parses cap (r1 ++ d) ms2 rest ∧ ms = ms1 ++ ms2.
Proof.
  remember (p ++ d) as s eqn:Hs. intros Hp. revert p Hs.
  induction Hp as [s Hnone Hfit|s n ms rest Hn Hcap Hp IH]; intros p ->.
  - exists [], [], p. split_and!; [|by constructor|done]. constructor.
    + destruct (next_size p) eqn:Hsz; [|done]. by rewrite (next_size_app _ _ _ Hsz) in Hnone.
    + intros h Hh. apply Hfit. rewrite header_app by (by rewrite Hh). done.
  - destruct (next_size p) as [k|] eqn:Hsz.
    + pose proof (next_size_app p d k Hsz) as Hk. rewrite Hk in Hn. injection Hn as ->.
      pose proof (next_size_bounds _ _ Hsz) as Hb.
      destruct (IH (drop n p)) as (ms1 & ms2 & r1 & H1 & H2 & ->); [by rewrite drop_app_le by lia|].
      exists (take n p :: ms1), ms2, r1. split_and!; [by constructor|done|].
      rewrite take_app_le by lia. done.
    + exists [], (take n (p ++ d) :: ms), p. split_and!; [|by constructor|done]. constructor; [done|].
      intros h Hh. revert Hn. unfold next_size. rewrite header_app, Hh by (by rewrite Hh).
      case_tests; intros [= <-]. done.
Qed.

(** ** The framer implements it *)

(** The bytes the framer holds. *)
Definition content (self : MessageFramer) : list Z := take (mf_used self) (mf_buffer self).

Definition framer_wf (self : MessageFramer) : Prop := (mf_used self ≤ length (mf_buffer self))%nat.

Lemma length_content self : framer_wf self → length (content self) = mf_used self.
Proof. intros Hwf. unfold content, framer_wf in *. rewrite length_take. lia. Qed.

Lemma NextMessage_next_size self :
  framer_wf self → MessageFramer_NextMessage self = default 0%nat (next_size (content self)).
Proof.
  intros Hwf. unfold MessageFramer_NextMessage, next_size. rewrite length_content by done. fold (content self).
  destruct (MessageHeader_Decode (content self)); [|done]. by case_tests.
Qed.

Lemma Consume_content self n :
  framer_wf self → (n ≤ mf_used self)%nat →
  content (MessageFramer_Consume self n) = drop n (content self) ∧
  framer_wf (MessageFramer_Consume self n) ∧
  length (mf_buffer (MessageFramer_Consume self n)) = length (mf_buffer self).
Proof.
  intros Hwf Hn. unfold MessageFramer_Consume, content, framer_wf in *.
  rewrite (proj2 (Nat.ltb_ge (mf_used self) n)) by done. cbn [mf_used mf_buffer].
  rewrite length_inserts. split_and!; [|lia|done].
  assert (length (slice n (mf_used self - n) (mf_buffer self)) = (mf_used self - n)%nat) as Hl
    by (rewrite length_slice; lia).
  change (take (mf_used self - n) (list_inserts 0 (slice n (mf_used self - n) (mf_buffer self)) (mf_buffer self)))
    with (slice 0 (mf_used self - n) (list_inserts 0 (slice n (mf_used self - n) (mf_buffer self)) (mf_buffer self))).
  rewrite slice_inserts_eq by lia. unfold slice. rewrite take_drop_commute. do 2 f_equal. lia.
Qed.

Lemma Push_content self data :
  framer_wf self →
  let '(taken, self') := MessageFramer_Push self data in
  content self' = content self ++ take taken data ∧ framer_wf self' ∧
  length (mf_buffer self') = length (mf_buffer self) ∧
  taken = Nat.min (length data) (length (mf_buffer self) - mf_used self).
Proof.
  intros Hwf. unfold MessageFramer_Push, content, framer_wf in *. cbn [mf_used mf_buffer].
  set (taken := if Nat.ltb _ _ then _ else _).
  assert (taken = Nat.min (length data) (length (mf_buffer self) - mf_used self)) as Ht
    by (subst taken; case_tests; lia).
  rewrite length_inserts. split_and!; [|lia|done|done].
  assert (length (take taken data) = taken) as Hl by (rewrite length_take; lia).
  apply list_eq. intros i. destruct (decide (i < mf_used self + taken)%nat) as [Hi|Hi].
  - rewrite lookup_take_lt by lia. destruct (decide (i < mf_used self)%nat).
    + rewrite list_lookup_inserts_lt by lia. rewrite lookup_app_l by (rewrite length_take; lia).
      by rewrite lookup_take_lt by lia.
    + rewrite list_lookup_inserts by lia. rewrite lookup_app_r by (rewrite length_take; lia).
      rewrite (length_take (mf_buffer self)). f_equal. lia.
  - rewrite !lookup_ge_None_2; [done|..]; rewrite ?length_app, ?length_take, ?length_inserts; lia.
Qed.

(** Draining delivers exactly the complete messages of the content. *)
Lemma drain_parses fuel self ms rest :
  framer_wf self → (mf_used self < fuel)%nat →
  parses (length (mf_buffer self)) (content self) ms rest →
  ∃ self', drain fuel self = (ms, self') ∧ content self' = rest ∧ framer_wf self' ∧
    length (mf_buffer self') = length (mf_buffer self).
Proof.
  revert self ms. induction fuel as [|fuel IH]; intros self ms Hwf Hfuel Hp; [lia|].
  cbn [drain]. rewrite NextMessage_next_size by done.
  inversion Hp as [s Hnone Hfit|s n ms' r Hn Hcap Hp']; subst.
  - rewrite Hnone. simpl. by exists self.
  - rewrite Hn. cbn [default from_option id]. pose proof (next_size_bounds _ _ Hn) as Hb.
    rewrite length_content in Hb by done.
    rewrite (proj2 (Nat.eqb_neq n 0)) by lia.
    destruct (Consume_content self n Hwf ltac:(lia)) as (Hc & Hwf' & Hl).
    destruct (IH (MessageFramer_Consume self n) ms') as (self' & -> & Hc' & Hwf'' & Hl'); [done| | |].
    + unfold MessageFramer_Consume. simpl. rewrite (proj2 (Nat.ltb_ge _ _)) by lia. lia.
    + by rewrite Hl, Hc.
    + exists self'. split_and!; [|done|done|congruence]. f_equal. f_equal.
      unfold content. rewrite take_take. f_equal. lia.
Qed.

Lemma parses_rest_next cap s ms rest : parses cap s ms rest → next_size rest = None.
Proof. by induction 1. Qed.

(** What is left over holds no complete message. *)
Lemma parses_rest_idle cap s ms rest : parses cap s ms rest → parses cap rest [] rest.
Proof. induction 1; [by constructor|done]. Qed.

(** An incomplete message is shorter than the buffer, so the next push makes progress. *)
Lemma parses_rest_short cap s ms rest : parses cap s ms rest → (4 ≤ cap)%nat → (length rest < cap)%nat.
Proof.
  intros Hp Hcap. induction Hp as [s Hnone Hfit|]; [|done].
  revert Hnone Hfit. unfold next_size. destruct (MessageHeader_Decode s) as [h|] eqn:Hh.
  - case_tests; [|done]. intros _ Hfit. specialize (Hfit h eq_refl). lia.
  - intros _ _. revert Hh. unfold MessageHeader_Decode. case_tests; [lia|done].
Qed.

Lemma drain_plaintext_parses fuel self data ms rest :
  framer_wf self → (4 ≤ length (mf_buffer self))%nat → (length data < fuel)%nat →
  parses (length (mf_buffer self)) (content self) [] (content self) →
  parses (length (mf_buffer self)) (content self ++ data) ms rest →
  ∃ self', drain_plaintext (λ _, true) fuel self data = (true, ms, self') ∧ content self' = rest ∧ framer_wf self' ∧
    length (mf_buffer self') = length (mf_buffer self).
Proof.
  revert self data ms. induction fuel as [|fuel IH]; intros self data ms Hwf H4 Hfuel Hidle Hp; [lia|].
  cbn [drain_plaintext]. destruct (Nat.eqb (length data) 0) eqn:Hz; bool_to_prop.
  { apply nil_length_inv in Hz as ->. rewrite app_nil_r in Hp.
    inversion Hp as [s Hnone|s n ? ? Hn]; subst; [by exists self|].
    apply parses_rest_next in Hidle. congruence. }
  pose proof (Push_content self data Hwf) as Hpush.
  destruct (MessageFramer_Push self data) as [taken self1]. destruct Hpush as (Hc1 & Hwf1 & Hl1 & Ht).
  pose proof (parses_rest_short _ _ _ _ Hidle H4) as Hshort. rewrite length_content in Hshort by done.
  rewrite <- (take_drop taken data), app_assoc, <- Hc1 in Hp.
  destruct (parses_prefix _ _ _ _ _ Hp) as (ms1 & ms2 & r1 & Hp1 & Hp2 & ->).
  rewrite <- Hl1 in Hp1.
  destruct (drain_parses (S (mf_used self1)) self1 ms1 r1 Hwf1 ltac:(lia) Hp1) as (self2 & Hdrain & Hc2 & Hwf2 & Hl2).
  unfold MessageFramer_Drain. rewrite Hdrain. cbn [negb].
  rewrite (proj2 (Nat.eqb_neq taken 0)) by lia.
  destruct (IH self2 (drop taken data) ms2) as (self3 & Heq & Hc3 & Hwf3 & Hl3).
  - done.
  - lia.
  - rewrite length_drop. lia.
  - rewrite Hc2, Hl2. by eapply parses_rest_idle.
  - by rewrite Hc2, Hl2, Hl1.
  - rewrite Heq. exists self3. split_and!; [done|done|done|congruence].
Qed.

Lemma receive_chunks_parses self chunks ms rest :
  framer_wf self → (4 ≤ length (mf_buffer self))%nat →
  parses (length (mf_buffer self)) (content self) [] (content self) →
  parses (length (mf_buffer self)) (content self ++ concat chunks) ms rest →
  ∃ self', receive_chunks self chunks = (true, ms, self') ∧ content self' = rest ∧ framer_wf self'.
Proof.
  revert self ms. induction chunks as [|c chunks IH]; intros self ms Hwf H4 Hidle Hp; cbn [receive_chunks concat] in *.
  { rewrite app_nil_r in Hp. inversion Hp as [s Hnone|s n ? ? Hn]; subst; [by exists self|].
    apply parses_rest_next in Hidle. congruence. }
  rewrite app_assoc in Hp. destruct (parses_prefix _ _ _ _ _ Hp) as (ms1 & ms2 & r1 & Hp1 & Hp2 & ->).
  destruct (drain_plaintext_parses (S (length c)) self c ms1 r1 Hwf H4 ltac:(lia) Hidle Hp1)
    as (self1 & Heq & Hc1 & Hwf1 & Hl1).
  unfold drainPlaintext. rewrite Heq.
  destruct (IH self1 ms2) as (self2 & Heq2 & Hc2 & Hwf2).
  - done.
  - lia.
  - rewrite Hc1, Hl1. by eapply parses_rest_idle.
  - by rewrite Hc1, Hl1.
  - rewrite Heq2. by exists self2.
Qed.
