(* ===== verification/EchoTokens.v ===== *)
(** * Echo attribution (src/hub/domain/echo_tokens.c)

    One table per agent: a token (1..63, six bits of a frame's route flags)
    names the client that injected a frame through that agent; the echo the
    agent sends back carries the token, and the hub resolves it to the client. *)

From S2P Require Import Prelude Rings FrameMessage.

Definition NO_OWNER : Z := 0.
Definition ECHO_TOKENS_BRIDGE_OWNER : Z := 4294967295.

Record EchoTokens := { owner_peer_ids : list Z; next_index : Z }.

Definition EchoTokens_Reset : EchoTokens :=
  {| owner_peer_ids := replicate FRAME_ROUTE_TOKEN_VALUES_MAX NO_OWNER; next_index := 0 |}.

Definition findOwnerIndex (self : EchoTokens) (client_peer_id : Z) : option Z :=
  Z.of_nat <$> scan (λ owner, owner =? client_peer_id) (owner_peer_ids self).

Definition claimFreeIndex (self : EchoTokens) : option Z * EchoTokens :=
  match ring_scan (λ c, (owner_peer_ids self).[c] =? NO_OWNER) (Z.of_nat FRAME_ROUTE_TOKEN_VALUES_MAX)
          (next_index self) 0 FRAME_ROUTE_TOKEN_VALUES_MAX with
  | Some candidate =>
      (Some candidate,
       {| owner_peer_ids := owner_peer_ids self;
          next_index := u8 ((candidate + 1) mod Z.of_nat FRAME_ROUTE_TOKEN_VALUES_MAX) |})
  | None => (None, self)
  end.

Definition EchoTokens_Issue (self : EchoTokens) (client_peer_id : Z) : Z * EchoTokens :=
  if client_peer_id =? NO_OWNER then (FRAME_ROUTE_NO_TOKEN, self)
  else
    match findOwnerIndex self client_peer_id with
    | Some index => (u8 (index + 1), self)
    | None =>
        match claimFreeIndex self with
        | (None, self) => (FRAME_ROUTE_NO_TOKEN, self)
        | (Some index, self) =>
            (u8 (index + 1),
             {| owner_peer_ids := (owner_peer_ids self).[index := client_peer_id]; next_index := next_index self |})
        end
    end.

Definition isTokenValid (token : Z) : bool :=
  negb (token =? FRAME_ROUTE_NO_TOKEN) && (token <=? Z.of_nat FRAME_ROUTE_TOKEN_VALUES_MAX).

Definition EchoTokens_Originator (self : EchoTokens) (route_flags : Z) : Z :=
  let token := u8 (Z.shiftr (Z.land route_flags FRAME_ROUTE_TOKEN_MASK) FRAME_ROUTE_TOKEN_SHIFT) in
  if Z.land route_flags FRAME_ROUTE_FLAG_ECHO =? 0 then NO_OWNER
  else if negb (isTokenValid token) then NO_OWNER
  else (owner_peer_ids self).[token - 1].

Definition EchoTokens_ReleaseClient (self : EchoTokens) (client_peer_id : Z) : EchoTokens :=
  match findOwnerIndex self client_peer_id with
  | Some index => {| owner_peer_ids := (owner_peer_ids self).[index := NO_OWNER]; next_index := next_index self |}
  | None => self
  end.

(** ** Invariant *)

(** Every client owns at most one token, and the cursor is an index of the table. *)
Record echo_wf (s : EchoTokens) : Prop := {
  echo_len : length (owner_peer_ids s) = FRAME_ROUTE_TOKEN_VALUES_MAX;
  echo_next : 0 ≤ next_index s < 63;
  echo_unique : ∀ i j x, owner_peer_ids s !! i = Some x → owner_peer_ids s !! j = Some x → x ≠ NO_OWNER → i = j;
}.

(** The client holding token [t], as the table has it. *)
Definition holds (s : EchoTokens) (t client : Z) : Prop :=
  1 ≤ t ≤ 63 ∧ owner_peer_ids s !! Z.to_nat (t - 1) = Some client ∧ client ≠ NO_OWNER.

(** The route flags the agent puts on an echo: the ECHO bit, the token it was
    given, and the BRIDGED bit as it comes. *)
Definition echo_flags (t : Z) (bridged : bool) : Z :=
  Z.lor (Z.lor (Z.shiftl t FRAME_ROUTE_TOKEN_SHIFT) FRAME_ROUTE_FLAG_ECHO) (b2z bridged).

Lemma echo_wf_reset : echo_wf EchoTokens_Reset.
Proof.
  unfold EchoTokens_Reset. split; cbn [owner_peer_ids next_index]; [done|lia|].
  intros i j x [-> _]%lookup_replicate _ Hx. done.
Qed.

Lemma findOwnerIndex_Some s c i :
  findOwnerIndex s c = Some i → 0 ≤ i ∧ owner_peer_ids s !! Z.to_nat i = Some c.
Proof.
  unfold findOwnerIndex. intros (k & (x & Hx & ?%Z.eqb_eq)%scan_hit & ->)%fmap_Some. subst.
  rewrite Nat2Z.id. split; [lia|done].
Qed.

Lemma findOwnerIndex_None s c : findOwnerIndex s c = None ↔ c ∉ owner_peer_ids s.
Proof.
  unfold findOwnerIndex. rewrite fmap_None, scan_None. split.
  - intros Hall (i & Hi)%list_elem_of_lookup. specialize (Hall _ _ Hi). by rewrite Z.eqb_refl in Hall.
  - intros Hnin i x Hx. apply Z.eqb_neq. intros ->. apply Hnin. by eapply list_elem_of_lookup_2.
Qed.

Lemma echo_zlen s : echo_wf s → zlen (owner_peer_ids s) = 63.
Proof. intros Hwf. unfold zlen. by rewrite (echo_len _ Hwf). Qed.

(** The echo of a frame tagged with [t] resolves to whoever holds [t]. *)
Lemma originator_holds s t c bridged :
  echo_wf s → holds s t c → EchoTokens_Originator s (echo_flags t bridged) = c.
Proof.
  intros Hwf (Ht & Hl & Hc). unfold EchoTokens_Originator, echo_flags.
  assert (∃ k, t = Z.of_nat k ∧ (1 ≤ k ≤ 63)%nat) as (k & -> & Hk) by (exists (Z.to_nat t); lia).
  assert (∀ k, (1 ≤ k ≤ 63)%nat →
    let f := Z.lor (Z.lor (Z.shiftl (Z.of_nat k) FRAME_ROUTE_TOKEN_SHIFT) FRAME_ROUTE_FLAG_ECHO) (b2z bridged) in
    u8 (Z.shiftr (Z.land f FRAME_ROUTE_TOKEN_MASK) FRAME_ROUTE_TOKEN_SHIFT) = Z.of_nat k ∧
    (Z.land f FRAME_ROUTE_FLAG_ECHO =? 0) = false) as Hbits.
  { clear. intros k Hk. do 64 (destruct k as [|k]; [destruct bridged; try lia; by split|]). lia. }
  destruct (Hbits k Hk) as [-> ->]. unfold isTokenValid, FRAME_ROUTE_NO_TOKEN. case_tests; [|].
  - destruct Heqb as [Hb|Hb]; bool_to_prop; lia.
  - unfold zget. by apply list_lookup_total_correct.
Qed.

(** ** Issue *)

Lemma issue_claim s i :
  echo_wf s →
  ring_scan (λ c, (owner_peer_ids s).[c] =? NO_OWNER) 63 (next_index s) 0 63 = Some i →
  0 ≤ i < 63 ∧ owner_peer_ids s !! Z.to_nat i = Some NO_OWNER ∧
  ∀ j, 0 ≤ j < 63 → owner_peer_ids s !! Z.to_nat j = Some NO_OWNER →
    ring_distance 63 (next_index s) i ≤ ring_distance 63 (next_index s) j.
Proof.
  intros Hwf (Hi & Hf%Z.eqb_eq & Hn)%(ring_scan_nearest _ 63); [|lia]. pose proof (echo_zlen _ Hwf) as Hz.
  split_and!; [lia|lia| |].
  - rewrite zget_lookup by lia. by f_equal.
  - intros j Hj Hjf. apply Hn; [done|]. rewrite zget_lookup in Hjf by lia. apply Z.eqb_eq. congruence.
Qed.

Lemma echo_wf_claim s i c n :
  echo_wf s → c ∉ owner_peer_ids s → 0 ≤ n < 63 →
  echo_wf {| owner_peer_ids := (owner_peer_ids s).[i := c]; next_index := n |}.
Proof.
  intros [Hl Hn Hu] Hc Hnn. split; simpl; [by rewrite length_zset|lia|].
  unfold zset. intros a b x [(<- & <- & _)|(? & Ha)]%list_lookup_insert_Some
    [(<- & Hb & _)|(? & Hb)]%list_lookup_insert_Some Hx; subst; try done.
  - exfalso. apply Hc. by eapply list_elem_of_lookup_2.
  - exfalso. apply Hc. by eapply list_elem_of_lookup_2.
  - by eapply Hu.
Qed.

Lemma echo_issue_cases s c t s' :
  echo_wf s → is_u32 c → EchoTokens_Issue s c = (t, s') →
  echo_wf s' ∧
  (∀ t' c', holds s t' c' → holds s' t' c') ∧
  ((c ≠ NO_OWNER ∧ holds s' t c ∧
      (holds s t c ∧ s' = s ∨
       c ∉ owner_peer_ids s ∧ owner_peer_ids s !! Z.to_nat (t - 1) = Some NO_OWNER ∧
       ∀ j, 0 ≤ j < 63 → owner_peer_ids s !! Z.to_nat j = Some NO_OWNER →
         ring_distance 63 (next_index s) (t - 1) ≤ ring_distance 63 (next_index s) j)) ∨
   (t = FRAME_ROUTE_NO_TOKEN ∧ s' = s ∧ (c = NO_OWNER ∨ c ∉ owner_peer_ids s ∧ NO_OWNER ∉ owner_peer_ids s))).
Proof.
  intros Hwf Hc. unfold EchoTokens_Issue. case_tests.
  { intros [= <- <-]. split_and!; [done..|]. right. auto. }
  destruct (findOwnerIndex s c) as [i|] eqn:Hf.
  - intros [= <- <-]. apply findOwnerIndex_Some in Hf as [Hi Hl].
    pose proof (lookup_lt_Some _ _ _ Hl) as Hlt. rewrite (echo_len _ Hwf) in Hlt.
    assert (holds s (u8 (i + 1)) c) as Hh.
    { rewrite u8_id by lia. split_and!; [lia|lia| |done]. by replace (i + 1 - 1) with i by lia. }
    split_and!; [done..|]. left. split_and!; [done..|]. by left.
  - apply findOwnerIndex_None in Hf. unfold claimFreeIndex. change (Z.of_nat 63) with 63.
    destruct (ring_scan _ _ _ _ _) as [i|] eqn:Hr; intros [= <- <-]; cbn [owner_peer_ids next_index].
    + apply issue_claim in Hr as (Hi & Hl & Hn); [|done].
      assert (0 ≤ u8 ((i + 1) mod 63) < 63) as Hm.
      { pose proof (Z.mod_pos_bound (i + 1) 63 ltac:(lia)). rewrite u8_id by lia. lia. }
      rewrite (u8_id (i + 1)) by lia. replace (i + 1 - 1) with i by lia. split_and!.
      * by apply echo_wf_claim.
      * intros t' c' (Ht & Hl' & Hc'). split_and!; [lia|lia| |done]. cbn [owner_peer_ids]. unfold zset.
        rewrite list_lookup_insert_ne; [done|]. intros Heq. rewrite Heq in Hl. congruence.
      * left. split_and!; [done| |].
        { split_and!; [lia|lia| |done]. cbn [owner_peer_ids]. unfold zset. replace (i + 1 - 1) with i by lia.
          apply list_lookup_insert_eq. by eapply lookup_lt_Some. }
        right. done.
    + split_and!; [done..|]. right. split_and!; [done..|]. right. split; [done|].
      pose proof (proj1 (ring_scan_None _ 63 _ ltac:(lia)) Hr) as Hnone.
      intros (k & Hk)%list_elem_of_lookup. pose proof (lookup_lt_Some _ _ _ Hk) as Hlt.
      rewrite (echo_len _ Hwf) in Hlt.
      assert ((owner_peer_ids s).[Z.of_nat k] = NO_OWNER) as Hz.
      { unfold zget. rewrite Nat2Z.id. by apply list_lookup_total_correct. }
      specialize (Hnone (Z.of_nat k) ltac:(lia)). cbv beta in Hnone. rewrite Hz in Hnone. done.
Qed.

Lemma echo_release s c :
  echo_wf s → echo_wf (EchoTokens_ReleaseClient s c) ∧ (∀ t c', holds s t c' → c' ≠ c → holds (EchoTokens_ReleaseClient s c) t c').
Proof.
  intros Hwf. unfold EchoTokens_ReleaseClient.
  destruct (findOwnerIndex s c) as [i|] eqn:Hf; [|done].
  apply findOwnerIndex_Some in Hf as [Hi Hl]. split.
  - destruct Hwf as [Hlen Hn Hu]. split; simpl; [by rewrite length_zset|done|]. unfold zset.
    intros a b x [(<- & <- & _)|(? & Ha)]%list_lookup_insert_Some
      [(<- & Hb & _)|(? & Hb)]%list_lookup_insert_Some Hx; subst; try done. by eapply Hu.
  - intros t c' (Ht & Hl' & Hc') Hne. split_and!; [lia|lia| |done]. cbn [owner_peer_ids]. unfold zset.
    rewrite list_lookup_insert_ne; [done|]. intros Heq. rewrite Heq in Hl. congruence.
Qed.

(** ** Sequences of operations *)
Inductive echo_op := EIssue (client : Z) | ERelease (client : Z).

Definition echo_step (s : EchoTokens) (op : echo_op) : EchoTokens :=
  match op with
  | EIssue c => (EchoTokens_Issue s c).2
  | ERelease c => EchoTokens_ReleaseClient s c
  end.

Definition echo_op_ok (op : echo_op) : Prop := match op with EIssue c | ERelease c => is_u32 c end.

Lemma echo_run_keeps s ops t c :
  echo_wf s → Forall echo_op_ok ops → Forall (λ op, op ≠ ERelease c) ops → holds s t c →
  echo_wf (foldl echo_step s ops) ∧ holds (foldl echo_step s ops) t c.
Proof.
  intros Hwf Hok Hn Hh. revert s Hwf Hh.
  induction ops as [|op ops IH]; intros s Hwf Hh; simpl; [done|].
  apply Forall_cons in Hok as [Hok ?]. apply Forall_cons in Hn as [Hne ?].
  destruct op as [c'|c']; simpl.
  - destruct (EchoTokens_Issue s c') as [t' s'] eqn:Hi.
    destruct (echo_issue_cases _ _ _ _ Hwf Hok Hi) as (? & Hk & _). apply IH; auto.
  - destruct (echo_release s c' Hwf) as [? Hk]. apply IH; auto. apply Hk; [done|]. congruence.
Qed.

Lemma echo_run_wf ops : Forall echo_op_ok ops → echo_wf (foldl echo_step EchoTokens_Reset ops).
Proof.
  intros Hok. assert (∀ s, echo_wf s → echo_wf (foldl echo_step s ops)) as H; [|apply H, echo_wf_reset].
  induction Hok as [|[c|c] ops Hc _ IH]; intros s Hwf; simpl; [done|..]; apply IH.
  - destruct (EchoTokens_Issue s c) as [t' s'] eqn:Hi. by destruct (echo_issue_cases _ _ _ _ Hwf Hc Hi).
  - by destruct (echo_release s c Hwf).
Qed.

(** C33. Echo attribution. From a reset table, after any sequence of issues and
    releases, a client issued the token [t] (other than "no token") is the one
    an echo tagged [t] resolves to, whatever issues and releases of other
    clients happen before the echo arrives; and issuing to that client again
    gives the same token. *)
Theorem echo_attribution_roundtrip (before after : list echo_op) (client : Z) (bridged : bool) :
  Forall echo_op_ok before → Forall echo_op_ok after → is_u32 client →
  Forall (λ op, op ≠ ERelease client) after →
  let issued := EchoTokens_Issue (foldl echo_step EchoTokens_Reset before) client in
  let later := foldl echo_step issued.2 after in
  issued.1 ≠ FRAME_ROUTE_NO_TOKEN →
  EchoTokens_Originator later (echo_flags issued.1 bridged) = client ∧
  (EchoTokens_Issue later client).1 = issued.1.
Proof.
  intros Hb Ha Hc Hn issued later Ht. pose proof (echo_run_wf _ Hb) as Hwf. unfold issued, later in *.
  destruct (EchoTokens_Issue _ client) as [t s1] eqn:Hi. simpl in *.
  destruct (echo_issue_cases _ _ _ _ Hwf Hc Hi) as (Hwf1 & _ & [(Hnc & Hh & _)|(? & _)]); [|done].
  destruct (echo_run_keeps s1 after t client) as [Hwf2 Hh2]; [done..|].
  split; [by apply originator_holds|].
  destruct (EchoTokens_Issue (foldl echo_step s1 after) client) as [t' s'] eqn:Hi'. simpl.
  destruct (echo_issue_cases _ _ _ _ Hwf2 Hc Hi') as (Hwf3 & Hk & [(_ & Hh' & _)|(_ & -> & [?|[Hnin _]])]); [|done|].
  - apply Hk in Hh2. destruct Hh2 as (? & Hl & _), Hh' as (? & Hl' & _).
    pose proof (echo_unique _ Hwf3 _ _ _ Hl Hl' Hnc). lia.
  - destruct Hh2 as (_ & Hl & _). exfalso. apply Hnin. by eapply list_elem_of_lookup_2.
Qed.

Lemma echo_attribution_roundtrip_witness :
  let issued := EchoTokens_Issue (foldl echo_step EchoTokens_Reset [EIssue 5; EIssue 9; ERelease 5]) 7 in
  let later := foldl echo_step issued.2 [ERelease 9; EIssue 11] in
  issued.1 = 3 ∧ EchoTokens_Originator later (echo_flags issued.1 true) = 7 ∧
  (EchoTokens_Issue later 7).1 = issued.1.
Proof.
  split; [by vm_compute|].
  apply (echo_attribution_roundtrip [EIssue 5; EIssue 9; ERelease 5] [ERelease 9; EIssue 11] 7 true);
    [repeat constructor; zlia..|zlia|repeat constructor; done|by vm_compute].
Defined.

(** Issuing is total and fair. On a well-formed table, a token is refused
    only to the reserved id 0 or when all 63 are taken; a new client gets the
    free token nearest ahead of the cursor, the cursor moves past it, and no
    other client's token changes. *)
Theorem echo_issue_functional (s : EchoTokens) (client : Z) :
  echo_wf s → is_u32 client →
  let '(t, s') := EchoTokens_Issue s client in
  echo_wf s' ∧ (∀ t' c', holds s t' c' → holds s' t' c') ∧
  (t = FRAME_ROUTE_NO_TOKEN ↔ client = NO_OWNER ∨ client ∉ owner_peer_ids s ∧ NO_OWNER ∉ owner_peer_ids s) ∧
  (t ≠ FRAME_ROUTE_NO_TOKEN → holds s' t client) ∧
  (t ≠ FRAME_ROUTE_NO_TOKEN → client ∉ owner_peer_ids s →
   owner_peer_ids s !! Z.to_nat (t - 1) = Some NO_OWNER ∧ next_index s' = t mod 63 ∧
   ∀ j, 0 ≤ j < 63 → owner_peer_ids s !! Z.to_nat j = Some NO_OWNER →
     ring_distance 63 (next_index s) (t - 1) ≤ ring_distance 63 (next_index s) j).
Proof.
  intros Hwf Hc. destruct (EchoTokens_Issue s client) as [t s'] eqn:Hi.
  destruct (echo_issue_cases _ _ _ _ Hwf Hc Hi) as (Hwf1 & Hk & Hcases).
  split; [done|]. split; [done|].
  destruct Hcases as [(Hnc & Hh & Hhow)|(-> & -> & Hwhy)]; [|by split_and!].
  pose proof Hh as (Ht & Hl & _). split_and!.
  - unfold FRAME_ROUTE_NO_TOKEN. split; [lia|]. intros [?|[Hnin Hfull]]; [done|].
    destruct Hhow as [[(_ & Hl' & _) _]|(_ & Hl' & _)]; exfalso; [apply Hnin|apply Hfull]; by eapply list_elem_of_lookup_2.
  - done.
  - intros _ Hnin. destruct Hhow as [[(_ & Hl' & _) _]|(_ & Hl' & Hnear)].
    { exfalso. apply Hnin. by eapply list_elem_of_lookup_2. }
    split_and!; [done| |done]. unfold EchoTokens_Issue in Hi.
    rewrite (proj2 (Z.eqb_neq _ _) Hnc), (proj2 (findOwnerIndex_None s client) Hnin) in Hi.
    unfold claimFreeIndex in Hi. destruct (ring_scan _ _ _ _ _) as [i|] eqn:Hr; injection Hi as <- <-; [|unfold FRAME_ROUTE_NO_TOKEN in *; lia].
    cbn [next_index owner_peer_ids] in *.
    change (Z.of_nat 63) with 63 in *. apply issue_claim in Hr as (? & _); [|done].
    rewrite (u8_id (i + 1)) by lia. rewrite u8_id; [done|]. pose proof (Z.mod_pos_bound (i + 1) 63). lia.
Qed.

Lemma echo_issue_functional_witness :
  (EchoTokens_Issue EchoTokens_Reset 42).1 ≠ FRAME_ROUTE_NO_TOKEN ∧
  holds (EchoTokens_Issue EchoTokens_Reset 42).2 1 42.
Proof.
  pose proof (echo_issue_functional EchoTokens_Reset 42 echo_wf_reset ltac:(zlia)) as (_ & _ & _ & Hh & _).
  split; [done|]. by apply Hh.
Defined.
