(* ===== verification/EgressQueue.v ===== *)
(** * The egress queue of a peer (src/hub/domain/egress_queue.c)

    A pool of 512 frame slots shared by the 256 channels of a peer: every
    channel's backlog is a singly linked list threaded through the slots by
    16-bit indices, the unused slots form a free list, and a cursor serves the
    pending channels round-robin.  The model keeps the arrays and the links; the
    refinement shows that they implement 256 bounded FIFO queues. *)

From S2P Require Import Prelude Rings Wire Codec FrameMessage.

Definition EGRESS_SLOT_NIL : Z := 65535.
Notation EGRESS_QUEUE_SLOTS_MAX := 512%nat (only parsing).
Notation EGRESS_QUEUE_CHANNELS_MAX := 256%nat (only parsing).
Definition EGRESS_QUEUE_CHANNEL_CAP : Z := 64.
Definition EGRESS_FRAME_BYTES_MAX : Z := 84.

Inductive TEGRESS_PUSH_RESULT := kEGRESS_PUSH_QUEUED | kEGRESS_PUSH_EVICTED_SELF | kEGRESS_PUSH_EVICTED_OTHER.

Record EgressSlot := {
  slot_data : list Z;
  slot_enqueued_us : Z;
  slot_size : Z;
  slot_channel : Z;
  slot_next : Z;
}.

Record EgressChannelList := { ch_head : Z; ch_tail : Z; ch_count : Z }.

Record EgressQueue := {
  slots : list EgressSlot;
  channels : list EgressChannelList;
  free_head : Z;
  used : Z;
  cursor : Z;
}.

Definition EgressSlot_zero : EgressSlot :=
  {| slot_data := replicate 84 0; slot_enqueued_us := 0; slot_size := 0; slot_channel := 0; slot_next := 0 |}.
Definition EgressChannelList_zero : EgressChannelList := {| ch_head := 0; ch_tail := 0; ch_count := 0 |}.

#[export] Instance EgressSlot_inhabited : Inhabited EgressSlot := populate EgressSlot_zero.
#[export] Instance EgressChannelList_inhabited : Inhabited EgressChannelList := populate EgressChannelList_zero.

(** Field updates. *)
Definition set_next (s : EgressSlot) (next : Z) : EgressSlot :=
  {| slot_data := slot_data s; slot_enqueued_us := slot_enqueued_us s; slot_size := slot_size s;
     slot_channel := slot_channel s; slot_next := next |}.
Definition with_slots (q : EgressQueue) (sl : list EgressSlot) : EgressQueue :=
  {| slots := sl; channels := channels q; free_head := free_head q; used := used q; cursor := cursor q |}.
Definition with_channels (q : EgressQueue) (ch : list EgressChannelList) : EgressQueue :=
  {| slots := slots q; channels := ch; free_head := free_head q; used := used q; cursor := cursor q |}.
Definition with_free (q : EgressQueue) (head n : Z) : EgressQueue :=
  {| slots := slots q; channels := channels q; free_head := head; used := n; cursor := cursor q |}.
Definition with_cursor (q : EgressQueue) (c : Z) : EgressQueue :=
  {| slots := slots q; channels := channels q; free_head := free_head q; used := used q; cursor := c |}.

(** The two loops of the reset: every slot linked to the next, the last one
    ending the free list; every channel empty. *)
Definition EgressQueue_Reset : EgressQueue :=
  let linked := (λ i : nat, set_next EgressSlot_zero (u16 (Z.of_nat i + 1))) <$> seq 0 EGRESS_QUEUE_SLOTS_MAX in
  {| slots := linked.[511 := set_next linked.[511] EGRESS_SLOT_NIL];
     channels := replicate EGRESS_QUEUE_CHANNELS_MAX
                   {| ch_head := EGRESS_SLOT_NIL; ch_tail := EGRESS_SLOT_NIL; ch_count := 0 |};
     free_head := 0; used := 0; cursor := 0 |}.

Definition popChannelHead (self : EgressQueue) (channel : Z) : Z * EgressQueue :=
  let ch := (channels self).[channel] in
  let slot := ch_head ch in
  let head := slot_next (slots self).[slot] in
  let tail := if head =? EGRESS_SLOT_NIL then EGRESS_SLOT_NIL else ch_tail ch in
  (slot,
   with_channels self
     (channels self).[channel := {| ch_head := head; ch_tail := tail; ch_count := u16 (ch_count ch - 1) |}]).

Definition appendChannelTail (self : EgressQueue) (channel slot : Z) : EgressQueue :=
  let self := with_slots self (slots self).[slot := set_next (slots self).[slot] EGRESS_SLOT_NIL] in
  let ch := (channels self).[channel] in
  let '(self, head) :=
    if ch_tail ch =? EGRESS_SLOT_NIL then (self, slot)
    else (with_slots self (slots self).[ch_tail ch := set_next (slots self).[ch_tail ch] slot], ch_head ch) in
  with_channels self
    (channels self).[channel := {| ch_head := head; ch_tail := slot; ch_count := u16 (ch_count ch + 1) |}].

(** The loop's best channel and its count, updated by a strictly larger count. *)
Fixpoint fullest (i best best_count : Z) (l : list EgressChannelList) : Z :=
  match l with
  | [] => best
  | ch :: l' => if ch_count ch >? best_count then fullest (i + 1) i (ch_count ch) l' else fullest (i + 1) best best_count l'
  end.

Definition fullestChannel (self : EgressQueue) : Z := u8 (fullest 0 0 0 (channels self)).

Definition fillSlot (slot : EgressSlot) (channel : Z) (data : list Z) (size now_us : Z) : EgressSlot :=
  {| slot_channel := channel; slot_size := size; slot_enqueued_us := now_us;
     slot_data := copy_at 0 (take (Z.to_nat size) data) (slot_data slot); slot_next := slot_next slot |}.

(** The result, the channel the out-parameter names when it is written, and the queue. *)
Definition EgressQueue_Push (self : EgressQueue) (channel : Z) (data : list Z) (size now_us : Z)
    : TEGRESS_PUSH_RESULT * option Z * EgressQueue :=
  let fill self slot := with_slots self (slots self).[slot := fillSlot (slots self).[slot] channel data size now_us] in
  if size >? EGRESS_FRAME_BYTES_MAX then (kEGRESS_PUSH_QUEUED, None, self)
  else if ch_count (channels self).[channel] >=? EGRESS_QUEUE_CHANNEL_CAP then
    let '(slot, self) := popChannelHead self channel in
    (kEGRESS_PUSH_EVICTED_SELF, Some channel, appendChannelTail (fill self slot) channel slot)
  else if negb (free_head self =? EGRESS_SLOT_NIL) then
    let slot := free_head self in
    let self := with_free self (slot_next (slots self).[slot]) (u16 (used self + 1)) in
    (kEGRESS_PUSH_QUEUED, None, appendChannelTail (fill self slot) channel slot)
  else
    let bully := fullestChannel self in
    let '(slot, self) := popChannelHead self bully in
    (kEGRESS_PUSH_EVICTED_OTHER, Some bully, appendChannelTail (fill self slot) channel slot).

Definition EgressQueue_HasPending (self : EgressQueue) : bool := used self >? 0.

Definition EgressQueue_ChannelPending (self : EgressQueue) (channel : Z) : bool :=
  ch_count (channels self).[channel] >? 0.

Definition EgressQueue_FrontOfChannel (self : EgressQueue) (channel : Z) : option (list Z) :=
  let head := ch_head (channels self).[channel] in
  if head =? EGRESS_SLOT_NIL then None
  else Some (take (Z.to_nat (slot_size (slots self).[head])) (slot_data (slots self).[head])).

Definition EgressQueue_FrontEnqueuedUs (self : EgressQueue) (channel : Z) : Z :=
  let head := ch_head (channels self).[channel] in
  if head =? EGRESS_SLOT_NIL then 0 else slot_enqueued_us (slots self).[head].

Definition EgressQueue_PopChannel (self : EgressQueue) (channel : Z) : EgressQueue :=
  if ch_head (channels self).[channel] =? EGRESS_SLOT_NIL then self
  else
    let '(slot, self) := popChannelHead self channel in
    let self := with_slots self (slots self).[slot := set_next (slots self).[slot] (free_head self)] in
    with_free self slot (u16 (used self - 1)).

Definition EgressQueue_NextPendingChannel (self : EgressQueue) : option Z * EgressQueue :=
  match ring_scan (λ c, ch_count (channels self).[c] >? 0) (Z.of_nat EGRESS_QUEUE_CHANNELS_MAX) (cursor self) 0
          EGRESS_QUEUE_CHANNELS_MAX with
  | Some candidate =>
      (Some (u8 candidate), with_cursor self (u16 ((candidate + 1) mod Z.of_nat EGRESS_QUEUE_CHANNELS_MAX)))
  | None => (None, self)
  end.

(** ** The abstract queue: 256 bounded FIFOs sharing 512 places *)

(** A parked frame: its bytes and when it was parked. *)
Definition parked : Type := list Z * Z.

Record Fifos := { fifo : list (list parked); fifo_cursor : Z }.

Definition Fifos_empty : Fifos := {| fifo := replicate 256 []; fifo_cursor := 0 |}.

Definition total {A} (qs : list (list A)) : Z := zlen (concat qs).

(** The first of the longest FIFOs. *)
Fixpoint longest {A} (i best best_len : Z) (qs : list (list A)) : Z :=
  match qs with
  | [] => best
  | q :: qs' => if zlen q >? best_len then longest (i + 1) i (zlen q) qs' else longest (i + 1) best best_len qs'
  end.

Definition fifos_push (F : Fifos) (c : Z) (p : parked) : TEGRESS_PUSH_RESULT * option Z * Fifos :=
  let put qs := {| fifo := qs.[c := qs.[c] ++ [p]]; fifo_cursor := fifo_cursor F |} in
  let qs := fifo F in
  if zlen qs.[c] >=? 64 then (kEGRESS_PUSH_EVICTED_SELF, Some c, put qs.[c := tail qs.[c]])
  else if total qs <? 512 then (kEGRESS_PUSH_QUEUED, None, put qs)
  else
    let b := longest 0 0 0 qs in
    (kEGRESS_PUSH_EVICTED_OTHER, Some b, put qs.[b := tail qs.[b]]).

Definition fifos_pop (F : Fifos) (c : Z) : Fifos :=
  {| fifo := (fifo F).[c := tail (fifo F).[c]]; fifo_cursor := fifo_cursor F |}.

(** The pending channel nearest ahead of the cursor; the cursor moves past it. *)
Definition fifos_next (F : Fifos) : option Z * Fifos :=
  match ring_scan (λ c, zlen (fifo F).[c] >? 0) 256 (fifo_cursor F) 0 256 with
  | Some c => (Some c, {| fifo := fifo F; fifo_cursor := (c + 1) mod 256 |})
  | None => (None, F)
  end.

(** ** Operations and what they let the caller see *)
Inductive egress_op :=
  | QPush (channel : Z) (data : list Z) (now_us : Z)
  | QPop (channel : Z)
  | QNext
  | QFront (channel : Z)
  | QStatus (channel : Z).

Inductive egress_obs :=
  | OPush (r : TEGRESS_PUSH_RESULT) (evicted : option Z)
  | OPop
  | ONext (channel : option Z)
  | OFront (front : option (list Z)) (enqueued_us : Z)
  | OStatus (pending channel_pending : bool).

Definition egress_step (q : EgressQueue) (op : egress_op) : egress_obs * EgressQueue :=
  match op with
  | QPush c data now => let '(r, e, q) := EgressQueue_Push q c data (zlen data) now in (OPush r e, q)
  | QPop c => (OPop, EgressQueue_PopChannel q c)
  | QNext => let '(c, q) := EgressQueue_NextPendingChannel q in (ONext c, q)
  | QFront c => (OFront (EgressQueue_FrontOfChannel q c) (EgressQueue_FrontEnqueuedUs q c), q)
  | QStatus c => (OStatus (EgressQueue_HasPending q) (EgressQueue_ChannelPending q c), q)
  end.

Definition fifos_step (F : Fifos) (op : egress_op) : egress_obs * Fifos :=
  match op with
  | QPush c data now =>
      if zlen data >? 84 then (OPush kEGRESS_PUSH_QUEUED None, F)
      else let '(r, e, F) := fifos_push F c (data, now) in (OPush r e, F)
  | QPop c => (OPop, fifos_pop F c)
  | QNext => let '(c, F) := fifos_next F in (ONext c, F)
  | QFront c =>
      (match (fifo F).[c] with [] => OFront None 0 | p :: _ => OFront (Some p.1) p.2 end, F)
  | QStatus c => (OStatus (total (fifo F) >? 0) (zlen (fifo F).[c] >? 0), F)
  end.

Fixpoint run {S O} (step : S → egress_op → O * S) (s : S) (ops : list egress_op) : list O * S :=
  match ops with
  | [] => ([], s)
  | op :: ops' => let '(o, s) := step s op in let '(os, s) := run step s ops' in (o :: os, s)
  end.

Definition egress_op_ok (op : egress_op) : Prop :=
  match op with
  | QPush c data now => is_u8 c ∧ is_u16 (zlen data) ∧ is_u64 now
  | QPop c | QFront c | QStatus c => is_u8 c
  | QNext => True
  end.

(** ** Representation *)

(** Following the links from [start] visits exactly [l]. *)
Definition linked (sl : list EgressSlot) (start : Z) (l : list Z) : Prop :=
  start = default EGRESS_SLOT_NIL (l !! 0%nat) ∧
  ∀ k j, l !! k = Some j → slot_next sl.[j] = default EGRESS_SLOT_NIL (l !! S k).

Definition chan_ok (sl : list EgressSlot) (ch : EgressChannelList) (l : list Z) : Prop :=
  linked sl (ch_head ch) l ∧ ch_tail ch = default EGRESS_SLOT_NIL (last l) ∧
  ch_count ch = zlen l ∧ zlen l ≤ EGRESS_QUEUE_CHANNEL_CAP.

(** The slots are split between the free list, the channels' lists and, inside
    an operation, the slot being moved ([limbo]). *)
Record rep (q : EgressQueue) (limbo free : list Z) (qs : list (list Z)) : Prop := {
  rep_slots : length (slots q) = EGRESS_QUEUE_SLOTS_MAX;
  rep_chans : length (channels q) = EGRESS_QUEUE_CHANNELS_MAX;
  rep_qs : length qs = EGRESS_QUEUE_CHANNELS_MAX;
  rep_perm : limbo ++ free ++ concat qs ≡ₚ seqZ 0 512;
  rep_free : linked (slots q) (free_head q) free;
  rep_used : used q = 512 - zlen free;
  rep_chan : ∀ c, 0 ≤ c < 256 → chan_ok (slots q) (channels q).[c] qs.[c];
  rep_data : ∀ i, 0 ≤ i < 512 → length (slot_data (slots q).[i]) = 84%nat;
  rep_cursor : 0 ≤ cursor q < 256;
}.

Definition contents (sl : list EgressSlot) (i : Z) : parked :=
  (take (Z.to_nat (slot_size sl.[i])) (slot_data sl.[i]), slot_enqueued_us sl.[i]).

Definition view (sl : list EgressSlot) (qs : list (list Z)) : list (list parked) :=
  (λ l : list Z, contents sl <$> l) <$> qs.

(** ** Lists of lists *)

Lemma zset_out {A} (a : list A) (i : Z) (v : A) : (length a ≤ Z.to_nat i)%nat → a.[i := v] = a.
Proof. apply list_insert_ge. Qed.

Lemma zget_fmap {A B} `{Inhabited A} `{Inhabited B} (f : A → B) (a : list A) i :
  0 ≤ i < zlen a → (f <$> a).[i] = f a.[i].
Proof.
  intros Hi. unfold zget. apply list_lookup_total_correct. rewrite list_lookup_fmap.
  change (a !!! Z.to_nat i) with (a.[i]). by rewrite zget_lookup.
Qed.

Lemma zset_fmap {A B} (f : A → B) (a : list A) i v : f <$> a.[i := v] = (f <$> a).[i := f v].
Proof. apply list_fmap_insert. Qed.

Lemma concat_zset {A} (qs : list (list A)) c l :
  0 ≤ c < zlen qs → concat qs.[c := l] ++ qs.[c] ≡ₚ concat qs ++ l.
Proof.
  intros Hc. pose proof (zget_lookup qs c Hc) as Hl. unfold zset.
  generalize dependent (qs.[c]). generalize (Z.to_nat c). clear c Hc. intros k x. revert k.
  induction qs as [|a qs IH]; intros [|k] Hk; simpl in *; [done|done|injection Hk as ->|].
  - rewrite (Permutation_app_comm l (concat qs)), (Permutation_app_comm x (concat qs)).
    rewrite <- !app_assoc. f_equiv. apply Permutation_app_comm.
  - rewrite <- !app_assoc. f_equiv. by apply IH.
Qed.

Lemma elem_of_zget_concat {A} (qs : list (list A)) c x : 0 ≤ c < zlen qs → x ∈ qs.[c] → x ∈ concat qs.
Proof.
  intros Hc Hx. apply list_elem_of_In, in_concat. exists qs.[c]. split; [|by apply list_elem_of_In].
  apply list_elem_of_In. eapply list_elem_of_lookup_2. by apply zget_lookup.
Qed.

Lemma view_ext sl sl' qs :
  (∀ j, j ∈ concat qs → contents sl j = contents sl' j) → view sl qs = view sl' qs.
Proof.
  intros Hext. unfold view. apply list_fmap_ext. intros k l Hl. apply list_fmap_ext. intros m j Hj.
  apply Hext. apply list_elem_of_In, in_concat. exists l.
  split; apply list_elem_of_In; by eapply list_elem_of_lookup_2.
Qed.

Lemma total_view sl qs : total (view sl qs) = total qs.
Proof. unfold total, view, zlen. rewrite <- (concat_map (contents sl)). by rewrite length_map. Qed.

(** ** Links *)

Lemma linked_ext sl sl' st l :
  (∀ j, j ∈ l → slot_next sl'.[j] = slot_next sl.[j]) → linked sl st l → linked sl' st l.
Proof.
  intros Hext [Hh Hn]. split; [done|]. intros k j Hj. rewrite Hext; [by apply Hn|].
  by eapply list_elem_of_lookup_2.
Qed.

Lemma linked_cons sl st i l : linked sl st (i :: l) → st = i ∧ linked sl (slot_next sl.[i]) l.
Proof.
  intros [Hh Hn]. split; [done|]. split; [by apply (Hn 0%nat)|]. intros k j Hj. by apply (Hn (S k)).
Qed.

Lemma linked_cons_2 sl i l : linked sl (slot_next sl.[i]) l → linked sl i (i :: l).
Proof. intros [Hh Hn]. split; [done|]. intros [|k] j Hj; simplify_eq/=; [done|]. by apply Hn. Qed.

Lemma linked_snoc sl sl' st l i :
  linked sl st l → NoDup (l ++ [i]) →
  (∀ j, j ∈ l → last l ≠ Some j → slot_next sl'.[j] = slot_next sl.[j]) →
  (∀ t, last l = Some t → slot_next sl'.[t] = i) → slot_next sl'.[i] = EGRESS_SLOT_NIL →
  linked sl' (default i (l !! 0%nat)) (l ++ [i]).
Proof.
  intros [_ Hn] Hnd Hj Ht Hi. split; [by destruct l|].
  intros k j [Hk|[Hk [Hz <-]%list_lookup_singleton_Some]]%lookup_app_Some.
  - pose proof (lookup_lt_Some _ _ _ Hk) as Hlt.
    destruct (decide (S k < length l)%nat) as [Hlt'|].
    + rewrite lookup_app_l by done. rewrite <- (Hn k j Hk). apply Hj; [by eapply list_elem_of_lookup_2|].
      rewrite last_lookup. intros Hl. apply NoDup_app in Hnd as (Hnd & _).
      pose proof (NoDup_lookup _ _ _ _ Hnd Hk Hl). lia.
    + rewrite lookup_app_r by lia. replace (S k - length l)%nat with 0%nat by lia. simpl. apply Ht.
      rewrite last_lookup. by replace (Nat.pred (length l)) with k by lia.
  - rewrite lookup_ge_None_2; [done|]. rewrite length_app. simpl. lia.
Qed.

Lemma linked_head_nil sl st l :
  linked sl st l → (∀ j, j ∈ l → 0 ≤ j < 512) → st = EGRESS_SLOT_NIL ↔ l = [].
Proof.
  intros [-> _] Hb. destruct l as [|j l]; simpl; [done|]. split; [|done]. intros ->.
  specialize (Hb EGRESS_SLOT_NIL ltac:(left)). unfold EGRESS_SLOT_NIL in Hb. lia.
Qed.

(** ** Facts of the representation *)
Section facts.
Context (q : EgressQueue) (limbo free : list Z) (qs : list (list Z)) (R : rep q limbo free qs).

Lemma rep_zqs : zlen qs = 256.
Proof. unfold zlen. by rewrite (rep_qs _ _ _ _ R). Qed.
Lemma rep_zchans : zlen (channels q) = 256.
Proof. unfold zlen. by rewrite (rep_chans _ _ _ _ R). Qed.
Lemma rep_zslots : zlen (slots q) = 512.
Proof. unfold zlen. by rewrite (rep_slots _ _ _ _ R). Qed.

Lemma rep_nodup : NoDup (limbo ++ free ++ concat qs).
Proof. rewrite (rep_perm _ _ _ _ R). apply NoDup_seqZ. Qed.

Lemma rep_bound j : j ∈ limbo ++ free ++ concat qs → 0 ≤ j < 512.
Proof. rewrite (rep_perm _ _ _ _ R). rewrite elem_of_seqZ. lia. Qed.

Lemma rep_chan_elem c j : 0 ≤ c < 256 → j ∈ qs.[c] → j ∈ concat qs.
Proof. intros Hc. apply elem_of_zget_concat. by rewrite rep_zqs. Qed.

Lemma rep_chan_bound c j : 0 ≤ c < 256 → j ∈ qs.[c] → 0 ≤ j < 512.
Proof. intros Hc Hj%rep_chan_elem; [|done]. apply rep_bound. set_solver. Qed.

Lemma rep_limbo_fresh i j : i ∈ limbo → j ∈ free ++ concat qs → i ≠ j.
Proof. pose proof rep_nodup as (_ & Hd & _)%NoDup_app. intros Hi Hj ->. by apply (Hd j). Qed.

Lemma rep_total : zlen limbo + zlen free + total qs = 512.
Proof.
  pose proof (Permutation_length (rep_perm _ _ _ _ R)) as Hl.
  rewrite !length_app, length_seqZ in Hl. unfold total, zlen. lia.
Qed.

Lemma rep_nodup_chan c : 0 ≤ c < 256 → NoDup qs.[c].
Proof.
  intros Hc. pose proof rep_nodup as (_ & _ & (_ & _ & Hn)%NoDup_app)%NoDup_app.
  pose proof (concat_zset qs c [] ltac:(rewrite rep_zqs; done)) as Hp. rewrite app_nil_r in Hp.
  rewrite <- Hp in Hn. by apply NoDup_app in Hn as (_ & _ & ?).
Qed.

Lemma rep_limbo_chan i c j : i ∈ limbo → 0 ≤ c < 256 → j ∈ qs.[c] → j ≠ i.
Proof.
  intros Hi Hc Hj ->. eapply rep_limbo_fresh; [done| |done]. apply elem_of_app. right. by eapply rep_chan_elem.
Qed.

Lemma rep_chan_disjoint c c' j : 0 ≤ c < 256 → 0 ≤ c' < 256 → c ≠ c' → j ∈ qs.[c] → j ∈ qs.[c'] → False.
Proof.
  intros Hc Hc' Hne Hj Hj'. pose proof rep_zqs as Hz.
  pose proof rep_nodup as (_ & _ & (_ & _ & Hn)%NoDup_app)%NoDup_app.
  pose proof (concat_zset qs c [] ltac:(lia)) as Hp. rewrite app_nil_r in Hp. rewrite <- Hp in Hn.
  apply NoDup_app in Hn as (_ & Hd & _). apply (Hd j); [|done].
  apply (elem_of_zget_concat _ c'); [rewrite zlen_zset; lia|]. by rewrite zget_zset_ne by lia.
Qed.

Lemma rep_free_chan c j : 0 ≤ c < 256 → j ∈ free → j ∈ qs.[c] → False.
Proof.
  intros Hc Hf Hj%rep_chan_elem; [|done].
  pose proof rep_nodup as (_ & _ & (_ & Hd & _)%NoDup_app)%NoDup_app. by apply (Hd j).
Qed.
End facts.

(** ** The moves of a slot *)

Lemma rep_reset_linked :
  ∀ i, 0 ≤ i < 512 → slot_next (slots EgressQueue_Reset).[i] = if i =? 511 then EGRESS_SLOT_NIL else i + 1.
Proof.
  intros i Hi. unfold EgressQueue_Reset. cbn [slots]. set (l := _ <$> seq 0 512).
  assert (zlen l = 512) as Hl by (unfold zlen, l; by rewrite length_fmap, length_seq).
  rewrite zget_zset by lia. rewrite Z.eqb_sym. case_tests; [done|].
  unfold zget, l. rewrite (list_lookup_total_correct _ _ (set_next EgressSlot_zero (i + 1))); [done|].
  rewrite list_lookup_fmap, lookup_seq_lt by lia. cbn [fmap option_fmap option_map]. do 2 f_equal.
  rewrite u16_id; lia.
Qed.

Lemma rep_reset : rep EgressQueue_Reset [] (seqZ 0 512) (replicate 256 []).
Proof.
  split.
  - unfold EgressQueue_Reset. cbn [slots]. by rewrite length_zset, length_fmap, length_seq.
  - done.
  - done.
  - change (concat (replicate 256 [])) with (@nil Z). by rewrite app_nil_l, app_nil_r.
  - split; [done|]. intros k j [Hj Hk]%lookup_seqZ. rewrite rep_reset_linked by lia. case_tests.
    + rewrite lookup_ge_None_2; [done|]. rewrite length_seqZ. lia.
    + rewrite (lookup_seqZ_lt 0 512) by lia. simpl. lia.
  - done.
  - intros c Hc. unfold EgressQueue_Reset. cbn [channels]. rewrite !zget_replicate by lia.
    by split_and!.
  - intros i Hi. unfold EgressQueue_Reset. cbn [slots]. set (l := _ <$> seq 0 512).
    assert (zlen l = 512) as Hl by (unfold zlen, l; by rewrite length_fmap, length_seq).
    assert (∀ j, 0 ≤ j < 512 → slot_data l.[j] = replicate 84 0) as Hd.
    { intros j Hj. unfold l. rewrite zget_fmap; [done|]. unfold zlen. rewrite length_seq. lia. }
    rewrite zget_zset by lia. case_tests; unfold set_next; cbn [slot_data]; by rewrite Hd by lia.
  - done.
Qed.

Lemma rep_pop q free qs c i l :
  rep q [] free qs → 0 ≤ c < 256 → qs.[c] = i :: l →
  (popChannelHead q c).1 = i ∧ rep (popChannelHead q c).2 [i] free qs.[c := l].
Proof.
  intros R Hc Hl. destruct (rep_chan _ _ _ _ R c Hc) as (Hlk & Htail & Hcount & Hcap).
  rewrite Hl in *. destruct (linked_cons _ _ _ _ Hlk) as [Hhead Hrest].
  pose proof (rep_zqs _ _ _ _ R) as Hzq. pose proof (rep_zchans _ _ _ _ R) as Hzc.
  assert (∀ j, j ∈ l → 0 ≤ j < 512) as Hb.
  { intros j Hj. eapply (rep_chan_bound _ _ _ _ R c); [done|]. rewrite Hl. set_solver. }
  unfold popChannelHead. cbn [fst snd]. split; [done|]. rewrite Hhead.
  split; cbn [with_channels slots channels free_head used cursor];
    [apply R|by rewrite length_zset; apply R|by rewrite length_zset; apply R| |apply R|apply R| |apply R|apply R].
  - rewrite <- (rep_perm _ _ _ _ R). simpl. rewrite Permutation_middle. f_equiv.
    pose proof (concat_zset qs c l ltac:(lia)) as Hp. rewrite Hl in Hp.
    apply (Permutation_app_inv_r l). rewrite <- Hp. simpl. by rewrite Permutation_middle.
  - intros c' Hc'. rewrite !zget_zset by lia. destruct (Z.eqb_spec c c') as [<-|]; [|by apply R].
    unfold chan_ok. cbn [ch_head ch_tail ch_count]. unfold zlen, EGRESS_QUEUE_CHANNEL_CAP in *. simpl length in *.
    split_and!; [done| |rewrite u16_id; lia|lia].
    case_tests.
    + apply (linked_head_nil _ _ _ Hrest Hb) in Heqb. by subst.
    + rewrite Htail. destruct l as [|j l]; [|done].
      destruct Hrest as [Hr _]. simpl in Hr. congruence.
Qed.

Lemma rep_fill q i free qs s :
  rep q [i] free qs → slot_next s = slot_next (slots q).[i] → length (slot_data s) = 84%nat →
  rep (with_slots q (slots q).[i := s]) [i] free qs.
Proof.
  intros R Hs Hd. pose proof (rep_zslots _ _ _ _ R) as Hz.
  assert (0 ≤ i < 512) as Hi by (eapply (rep_bound _ _ _ _ R); set_solver).
  assert (∀ j, 0 ≤ j < 512 → slot_next (slots q).[i := s].[j] = slot_next (slots q).[j]) as Hnx.
  { intros j Hj. rewrite zget_zset by lia. case_tests; by subst. }
  split; cbn [with_slots slots channels free_head used cursor];
    [by rewrite length_zset; apply R|apply R|apply R|apply R| |apply R| | |apply R].
  - eapply linked_ext; [|apply R]. intros j Hj. apply Hnx. eapply (rep_bound _ _ _ _ R). set_solver.
  - intros c Hc. destruct (rep_chan _ _ _ _ R c Hc) as (? & ?). split; [|done].
    eapply linked_ext; [|done]. intros j Hj. apply Hnx. by eapply (rep_chan_bound _ _ _ _ R c).
  - intros j Hj. rewrite zget_zset by lia. case_tests; [done|]. by apply R.
Qed.

(** What the two writes of the append do to the links. *)
Lemma append_next q free qs c i (sl := slots (appendChannelTail q c i)) :
  rep q [i] free qs → 0 ≤ c < 256 →
  length sl = EGRESS_QUEUE_SLOTS_MAX ∧
  (∀ j, 0 ≤ j < 512 → j ≠ i → last qs.[c] ≠ Some j → slot_next sl.[j] = slot_next (slots q).[j]) ∧
  (∀ t, last qs.[c] = Some t → slot_next sl.[t] = i) ∧
  slot_next sl.[i] = EGRESS_SLOT_NIL ∧
  (∀ j, 0 ≤ j < 512 → contents sl j = contents (slots q) j ∧ slot_data sl.[j] = slot_data (slots q).[j]).
Proof.
  intros R Hc. pose proof (rep_zslots _ _ _ _ R) as Hz.
  assert (0 ≤ i < 512) as Hi by (eapply (rep_bound _ _ _ _ R); set_solver).
  destruct (rep_chan _ _ _ _ R c Hc) as (_ & Htail & _).
  assert (∀ t, last qs.[c] = Some t → 0 ≤ t < 512 ∧ i ≠ t) as Ht.
  { intros t Ht%last_Some_elem_of. split; [by eapply (rep_chan_bound _ _ _ _ R c)|].
    symmetry. by eapply (rep_limbo_chan _ _ _ _ R i c); [left|..]. }
  assert (sl = let s1 := (slots q).[i := set_next (slots q).[i] EGRESS_SLOT_NIL] in
       let t := ch_tail (channels q).[c] in
       if t =? EGRESS_SLOT_NIL then s1 else s1.[t := set_next s1.[t] i]) as ->.
  { unfold sl, appendChannelTail. simpl. by destruct (_ =? EGRESS_SLOT_NIL). }
  cbv zeta. rewrite Htail. destruct (last qs.[c]) as [t|] eqn:Hlast; simpl.
  - destruct (Ht t eq_refl) as [Htb Hit].
    destruct (Z.eqb_spec t EGRESS_SLOT_NIL) as [->|_]; [unfold EGRESS_SLOT_NIL in Htb; lia|].
    split_and!; [by rewrite !length_zset; apply R|..].
    + intros j Hj Hji Hjt. rewrite !zget_zset_ne; [done|lia|lia|congruence|lia|lia|congruence].
    + intros t' [= <-]. by rewrite zget_zset_eq by (rewrite zlen_zset; lia).
    + rewrite zget_zset_ne by lia. by rewrite zget_zset_eq by lia.
    + intros j Hj. unfold contents. rewrite !zget_zset by (rewrite ?zlen_zset; lia).
      case_tests; subst; try done.
  - split_and!; [by rewrite length_zset; apply R|..].
    + intros j Hj Hji _. rewrite zget_zset_ne; [done|lia|lia|congruence].
    + done.
    + by rewrite zget_zset_eq by lia.
    + intros j Hj. unfold contents. rewrite !zget_zset by lia. case_tests; subst; done.
Qed.

Lemma rep_append q free qs c i :
  rep q [i] free qs → 0 ≤ c < 256 → zlen qs.[c] < EGRESS_QUEUE_CHANNEL_CAP →
  rep (appendChannelTail q c i) [] free qs.[c := qs.[c] ++ [i]].
Proof.
  intros R Hc Hlt. pose proof (rep_zqs _ _ _ _ R) as Hzq. pose proof (rep_zchans _ _ _ _ R) as Hzc.
  destruct (append_next q free qs c i R Hc) as (Hlen & Hnx & Hnt & Hni & Hcont).
  set (sl := slots (appendChannelTail q c i)) in *.
  assert (appendChannelTail q c i = {| slots := sl; free_head := free_head q; used := used q; cursor := cursor q;
     channels := (channels q).[c := {| ch_head := if ch_tail (channels q).[c] =? EGRESS_SLOT_NIL then i else ch_head (channels q).[c];
        ch_tail := i; ch_count := u16 (ch_count (channels q).[c] + 1) |}] |}) as ->.
  { unfold sl, appendChannelTail. simpl. by destruct (_ =? EGRESS_SLOT_NIL). }
  destruct (rep_chan _ _ _ _ R c Hc) as (Hlk & Htail & Hcount & Hcap).
  split; cbn [slots channels free_head used cursor];
    [done|by rewrite length_zset; apply R|by rewrite length_zset; apply R| | |apply R| | |apply R].
  - simpl app. rewrite <- (rep_perm _ _ _ _ R). rewrite (Permutation_app_comm [i]), <- app_assoc. f_equiv.
    apply (Permutation_app_inv_r qs.[c]). rewrite concat_zset by lia. rewrite <- app_assoc. f_equiv.
    apply Permutation_app_comm.
  - eapply linked_ext; [|apply R]. intros j Hj. apply Hnx.
    + eapply (rep_bound _ _ _ _ R). set_solver.
    + intros ->. eapply (rep_limbo_fresh _ _ _ _ R); [by left|apply elem_of_app; by left|done].
    + intros Hl%last_Some_elem_of. by eapply (rep_free_chan _ _ _ _ R c j).
  - intros c' Hc'. rewrite !zget_zset by lia. destruct (Z.eqb_spec c c') as [<-|].
    + unfold chan_ok. cbn [ch_head ch_tail ch_count]. unfold zlen, EGRESS_QUEUE_CHANNEL_CAP in *.
      rewrite last_snoc, length_app. simpl length. split_and!; [|done|rewrite u16_id; lia|lia].
      assert ((if ch_tail (channels q).[c] =? EGRESS_SLOT_NIL then i else ch_head (channels q).[c]) =
        default i (qs.[c] !! 0%nat)) as ->.
      { destruct Hlk as [-> _]. rewrite Htail. case_tests.
        - destruct (last qs.[c]) as [t|] eqn:Hl; [|by apply last_None in Hl as ->].
          simpl in *. apply last_Some_elem_of, (rep_chan_bound _ _ _ _ R c _ Hc) in Hl. unfold EGRESS_SLOT_NIL in *. lia.
        - by destruct qs.[c]. }
      eapply linked_snoc; [exact Hlk| |..]; [| |done|done].
      * apply NoDup_app. split_and!; [by apply (rep_nodup_chan _ _ _ _ R)| |by apply NoDup_singleton].
        intros j Hj ->%list_elem_of_singleton. by eapply (rep_limbo_chan _ _ _ _ R i c); [left|..].
      * intros j Hj Hne. apply Hnx; [by eapply (rep_chan_bound _ _ _ _ R c)| |done].
        by eapply (rep_limbo_chan _ _ _ _ R i c); [left|..].
    + destruct (rep_chan _ _ _ _ R c' Hc') as (Hlk' & ?). split; [|done]. eapply linked_ext; [|exact Hlk'].
      intros j Hj. apply Hnx; [by eapply (rep_chan_bound _ _ _ _ R c')|by eapply (rep_limbo_chan _ _ _ _ R i c'); [left|..]|].
      intros Hl%last_Some_elem_of. by eapply (rep_chan_disjoint _ _ _ _ R c c' j).
  - intros j Hj. rewrite (proj2 (Hcont j Hj)). by apply R.
Qed.

Lemma rep_take_free q i free qs :
  rep q [] (i :: free) qs →
  free_head q = i ∧ rep (with_free q (slot_next (slots q).[i]) (u16 (used q + 1))) [i] free qs.
Proof.
  intros R. destruct (linked_cons _ _ _ _ (rep_free _ _ _ _ R)) as [Hh Hl]. split; [done|].
  split; cbn [with_free slots channels free_head used cursor]; try apply R; [apply Hl|].
  pose proof (rep_used _ _ _ _ R) as Hu. pose proof (rep_total _ _ _ _ R) as Ht. unfold total, zlen in *. simpl in *.
  rewrite u16_id; lia.
Qed.

Lemma rep_give_free q i free qs :
  rep q [i] free qs →
  rep (with_free (with_slots q (slots q).[i := set_next (slots q).[i] (free_head q)]) i (u16 (used q - 1)))
    [] (i :: free) qs.
Proof.
  intros R. pose proof (rep_zslots _ _ _ _ R) as Hz.
  assert (0 ≤ i < 512) as Hi by (eapply (rep_bound _ _ _ _ R); set_solver).
  assert (∀ j, 0 ≤ j → j ≠ i → slot_next (slots q).[i := set_next (slots q).[i] (free_head q)].[j] = slot_next (slots q).[j]) as Hnx.
  { intros j Hj Hne. by rewrite zget_zset_ne by lia. }
  split; cbn [with_free with_slots slots channels free_head used cursor];
    [by rewrite length_zset; apply R|apply R|apply R|apply R| | | | |apply R].
  - apply linked_cons_2. rewrite zget_zset_eq by lia. eapply linked_ext; [|apply R]. intros j Hj. apply Hnx.
    + eapply (rep_bound _ _ _ _ R). set_solver.
    + intros ->. eapply (rep_limbo_fresh _ _ _ _ R); [by left|apply elem_of_app; by left|done].
  - pose proof (rep_used _ _ _ _ R) as Hu. pose proof (rep_total _ _ _ _ R) as Ht. unfold total, zlen in *. simpl in *.
    rewrite u16_id; lia.
  - intros c Hc. destruct (rep_chan _ _ _ _ R c Hc) as (Hlk & ?). split; [|done]. eapply linked_ext; [|exact Hlk].
    intros j Hj. apply Hnx; [by eapply (rep_chan_bound _ _ _ _ R c)|by eapply (rep_limbo_chan _ _ _ _ R i c); [left|..]].
  - intros j Hj. rewrite zget_zset by lia. case_tests; subst; by apply R.
Qed.

(** The abstract state of a queue. *)
Definition abstraction (q : EgressQueue) (qs : list (list Z)) : Fifos :=
  {| fifo := view (slots q) qs; fifo_cursor := cursor q |}.

Lemma view_zget sl qs c : 0 ≤ c < zlen qs → (view sl qs).[c] = contents sl <$> qs.[c].
Proof. apply zget_fmap. Qed.

Lemma view_zset sl qs c l : view sl qs.[c := l] = (view sl qs).[c := contents sl <$> l].
Proof. apply zset_fmap. Qed.

Lemma contents_fill s c data now sl i :
  0 ≤ i < zlen sl → length (slot_data s) = 84%nat → zlen data ≤ 84 →
  contents sl.[i := fillSlot s c data (zlen data) now] i = (data, now).
Proof.
  intros Hi Hs Hd. unfold contents. rewrite zget_zset_eq by done. unfold fillSlot. cbn [slot_size slot_data slot_enqueued_us].
  unfold zlen in *. rewrite Nat2Z.id, (take_ge data) by lia. f_equal.
  pose proof (slice_copy_eq 0 (length data) data (slot_data s) eq_refl ltac:(lia)) as Hc.
  unfold slice in Hc. by rewrite drop_0 in Hc.
Qed.

(** Filling the slot in hand and appending it to a channel parks the frame at the end of that channel's FIFO. *)
Lemma rep_park q free qs c i data now :
  rep q [i] free qs → 0 ≤ c < 256 → zlen qs.[c] < EGRESS_QUEUE_CHANNEL_CAP → zlen data ≤ 84 →
  let q' := appendChannelTail (with_slots q (slots q).[i := fillSlot (slots q).[i] c data (zlen data) now]) c i in
  rep q' [] free qs.[c := qs.[c] ++ [i]] ∧
  abstraction q' qs.[c := qs.[c] ++ [i]] =
    {| fifo := (view (slots q) qs).[c := (view (slots q) qs).[c] ++ [(data, now)]]; fifo_cursor := cursor q |}.
Proof.
  intros R Hc Hlt Hd q'. pose proof (rep_zslots _ _ _ _ R) as Hz. pose proof (rep_zqs _ _ _ _ R) as Hzq.
  assert (0 ≤ i < 512) as Hi by (eapply (rep_bound _ _ _ _ R); set_solver).
  assert (rep (with_slots q (slots q).[i := fillSlot (slots q).[i] c data (zlen data) now]) [i] free qs) as R1.
  { apply rep_fill; [done|done|]. unfold fillSlot. cbn [slot_data]. rewrite length_copy_at. by apply R. }
  destruct (append_next _ _ _ c i R1 Hc) as (_ & _ & _ & _ & Hcont).
  split; [by apply rep_append|]. unfold abstraction. f_equal; [|unfold q', appendChannelTail; by destruct (_ =? _)].
  fold q' in Hcont. cbn [with_slots slots] in Hcont.
  assert (∀ j, j ∈ concat qs → contents (slots q') j = contents (slots q) j) as Hsame.
  { intros j Hj. assert (0 ≤ j < 512) by (eapply (rep_bound _ _ _ _ R); set_solver).
    rewrite (proj1 (Hcont j ltac:(lia))). unfold contents. rewrite zget_zset_ne; [done|lia|lia|].
    intros <-. eapply (rep_limbo_fresh _ _ _ _ R); [by left|apply elem_of_app; by right|done]. }
  rewrite view_zset, (view_ext _ (slots q)) by done. rewrite view_zget by lia. f_equal. rewrite fmap_app. f_equal.
  - apply list_fmap_ext. intros k j Hj. apply Hsame. eapply (rep_chan_elem _ _ _ _ R c); [done|].
    by eapply list_elem_of_lookup_2.
  - cbn [fmap list_fmap]. f_equal. rewrite (proj1 (Hcont i Hi)). apply contents_fill; [lia| |done]. by apply R.
Qed.

(** ** The fullest channel *)

Lemma fullest_longest sl chs qs i b n :
  Forall2 (λ ch (l : list Z), ch_count ch = zlen l) chs qs → fullest i b n chs = longest i b n (view sl qs).
Proof.
  intros Hf. revert i b n. induction Hf as [|ch l chs qs Hch _ IH]; intros i b n; [done|].
  cbn [fullest longest view fmap list_fmap]. rewrite Hch. unfold zlen. rewrite length_fmap.
  case_tests; apply IH.
Qed.

Lemma longest_spec {A} (qs : list (list A)) i b n :
  let r := longest i b n qs in
  (r = b ∧ ∀ k, 0 ≤ k < zlen qs → zlen qs.[k] ≤ n) ∨ (i ≤ r < i + zlen qs ∧ n < zlen qs.[r - i]).
Proof.
  revert i b n. induction qs as [|q qs IH]; intros i b n; cbn [longest].
  { left. split; [done|]. unfold zlen. simpl. lia. }
  assert (∀ k, 0 ≤ k → (q :: qs).[k + 1] = qs.[k]) as Hs.
  { intros k Hk. unfold zget. by replace (Z.to_nat (k + 1)) with (S (Z.to_nat k)) by lia. }
  assert (zlen (q :: qs) = zlen qs + 1) as Hl by (unfold zlen; simpl; lia).
  case_tests.
  - destruct (IH (i + 1) i (zlen q)) as [[-> Hall]|[Hr Hlt]]; right; [unfold zlen at 1; simpl length; split; [lia|]|].
    + by replace (i - i) with 0 by lia.
    + rewrite Hl. split; [lia|]. replace (_ - i) with (longest (i + 1) i (zlen q) qs - (i + 1) + 1) by lia.
      rewrite Hs by lia. lia.
  - destruct (IH (i + 1) b n) as [[-> Hall]|[Hr Hlt]]; [left|right].
    + split; [done|]. intros k Hk. destruct (decide (k = 0)) as [->|]; [done|].
      replace k with (k - 1 + 1) by lia. rewrite Hs by lia. apply Hall. lia.
    + rewrite Hl. split; [lia|]. replace (_ - i) with (longest (i + 1) b n qs - (i + 1) + 1) by lia.
      rewrite Hs by lia. lia.
Qed.

Lemma longest_nonempty {A} (qs : list (list A)) :
  0 < total qs → let b := longest 0 0 0 qs in 0 ≤ b < zlen qs ∧ 0 < zlen qs.[b].
Proof.
  intros Ht. destruct (longest_spec qs 0 0 0) as [[_ Hall]|[Hr Hlt]].
  - exfalso. assert (concat qs = []) as He; [|unfold total in Ht; by rewrite He in Ht].
    apply concat_nil_Forall, Forall_lookup. intros k l Hl.
    assert (0 ≤ Z.of_nat k < zlen qs) as Hk by (apply lookup_lt_Some in Hl; unfold zlen; lia).
    specialize (Hall _ Hk). unfold zget in Hall. rewrite Nat2Z.id, (list_lookup_total_correct _ _ _ Hl) in Hall.
    destruct l; [done|]. unfold zlen in Hall. simpl in Hall. lia.
  - rewrite Z.sub_0_r in Hlt. split; [lia|done].
Qed.

Lemma rep_fullest q limbo free qs :
  rep q limbo free qs → fullestChannel q = u8 (longest 0 0 0 (view (slots q) qs)).
Proof.
  intros R. unfold fullestChannel. f_equal. apply fullest_longest.
  apply Forall2_same_length_lookup_2; [by rewrite (rep_chans _ _ _ _ R), (rep_qs _ _ _ _ R)|].
  intros k ch l Hch Hl. pose proof (lookup_lt_Some _ _ _ Hch) as Hk. rewrite (rep_chans _ _ _ _ R) in Hk.
  destruct (rep_chan _ _ _ _ R (Z.of_nat k) ltac:(lia)) as (_ & _ & Hc & _). unfold zget in Hc.
  by rewrite Nat2Z.id, (list_lookup_total_correct _ _ _ Hch), (list_lookup_total_correct _ _ _ Hl) in Hc.
Qed.

(** ** Simulation *)

Lemma rep_evict q free qs b :
  rep q [] free qs → 0 ≤ b < 256 → 0 < zlen qs.[b] →
  ∃ i l q1, popChannelHead q b = (i, q1) ∧ rep q1 [i] free qs.[b := l] ∧ zlen l = zlen qs.[b] - 1 ∧
    view (slots q1) qs.[b := l] = (view (slots q) qs).[b := tail (view (slots q) qs).[b]] ∧
    cursor q1 = cursor q ∧ free_head q1 = free_head q ∧ used q1 = used q.
Proof.
  intros R Hb Hl. destruct qs.[b] as [|i l] eqn:Hq; [done|].
  destruct (rep_pop q free qs b i l R Hb Hq) as [Hi HR]. exists i, l, (popChannelHead q b).2.
  split_and!; try done.
  - rewrite <- Hi. apply surjective_pairing.
  - unfold zlen. simpl. lia.
  - rewrite view_zset, view_zget by (rewrite (rep_zqs _ _ _ _ R); lia). by rewrite Hq.
Qed.

Lemma rep_view_len q limbo free qs c :
  rep q limbo free qs → 0 ≤ c < 256 → zlen (view (slots q) qs).[c] = ch_count (channels q).[c].
Proof.
  intros R Hc. rewrite view_zget by (rewrite (rep_zqs _ _ _ _ R); lia).
  destruct (rep_chan _ _ _ _ R c Hc) as (_ & _ & -> & _). unfold zlen. by rewrite length_fmap.
Qed.

Lemma push_simulates q free qs c data now :
  rep q [] free qs → is_u8 c → is_u16 (zlen data) →
  ∃ free' qs', let '(o, q') := egress_step q (QPush c data now) in
    rep q' [] free' qs' ∧ fifos_step (abstraction q qs) (QPush c data now) = (o, abstraction q' qs').
Proof.
  intros R Hc Hd. cbn [egress_step fifos_step]. unfold EgressQueue_Push, fifos_push, EGRESS_FRAME_BYTES_MAX.
  pose proof (rep_zqs _ _ _ _ R) as Hzq. pose proof (rep_view_len _ _ _ _ c R ltac:(zlia)) as Hlen.
  pose proof (rep_total _ _ _ _ R) as Htot. destruct (rep_chan _ _ _ _ R c ltac:(zlia)) as (_ & _ & Hcnt & Hcap).
  cbn [abstraction fifo fifo_cursor]. rewrite Hlen, total_view.
  assert (0 ≤ c < 256) as Hc' by zlia. unfold EGRESS_QUEUE_CHANNEL_CAP in *.
  destruct (zlen data >? 84) eqn:Hsz; [by exists free, qs|bool_to_prop].
  destruct (ch_count (channels q).[c] >=? 64) eqn:Hfull; bool_to_prop.
  - destruct (rep_evict q free qs c R) as (i & l & q1 & -> & R1 & Hll & Hv & Hcur & _); [lia|lia|].
    destruct (rep_park q1 free _ c i data now R1) as [R2 Habs]; [lia| |lia|].
    { rewrite zget_zset_eq by lia. unfold EGRESS_QUEUE_CHANNEL_CAP. lia. }
    eexists free, _. split; [exact R2|]. by rewrite Habs, Hv, Hcur.
  - destruct (free_head q =? EGRESS_SLOT_NIL) eqn:Hfree; bool_to_prop; cbn [negb].
    + apply (linked_head_nil _ _ _ (rep_free _ _ _ _ R)) in Hfree as ->; [|intros; apply (rep_bound _ _ _ _ R); set_solver].
      change (zlen []) with 0 in Htot. replace (total qs <? 512) with false by (symmetry; apply Z.ltb_ge; lia).
      destruct (longest_nonempty (view (slots q) qs)) as [Hb1 Hb2]; [rewrite total_view; lia|].
      rewrite (rep_fullest _ _ _ _ R). set (b := longest 0 0 0 _) in *.
      assert (zlen (view (slots q) qs) = 256) as Hzv by (unfold zlen, view in *; by rewrite length_fmap).
      rewrite u8_id by lia. rewrite (rep_view_len _ _ _ _ b R) in Hb2 by lia.
      destruct (rep_chan _ _ _ _ R b ltac:(lia)) as (_ & _ & Hbc & _). rewrite Hbc in Hb2.
      destruct (rep_evict q [] qs b R) as (i & l & q1 & -> & R1 & Hll & Hv & Hcur & _); [lia|lia|].
      destruct (rep_park q1 [] _ c i data now R1) as [R2 Habs]; [lia| |lia|].
      { rewrite zget_zset by lia. unfold EGRESS_QUEUE_CHANNEL_CAP. case_tests; subst; lia. }
      eexists [], _. split; [exact R2|]. by rewrite Habs, Hv, Hcur.
    + destruct free as [|i free]; [by destruct (rep_free _ _ _ _ R)|].
      destruct (rep_take_free q i free qs R) as [Hh R1]. rewrite Hh.
      destruct (rep_park _ free qs c i data now R1) as [R2 Habs]; [lia|unfold EGRESS_QUEUE_CHANNEL_CAP; lia|lia|].
      replace (total qs <? 512) with true by (symmetry; apply Z.ltb_lt; unfold zlen in Htot; simpl in Htot; lia).
      eexists free, _. split; [exact R2|]. by rewrite Habs.
Qed.

Lemma pop_simulates q free qs c :
  rep q [] free qs → is_u8 c →
  ∃ free' qs', rep (EgressQueue_PopChannel q c) [] free' qs' ∧
    fifos_pop (abstraction q qs) c = abstraction (EgressQueue_PopChannel q c) qs'.
Proof.
  intros R Hc. assert (0 ≤ c < 256) as Hc' by zlia. unfold EgressQueue_PopChannel, fifos_pop.
  pose proof (rep_zqs _ _ _ _ R) as Hzq. destruct (rep_chan _ _ _ _ R c Hc') as (Hlk & _ & _ & _).
  case_tests.
  - apply (linked_head_nil _ _ _ Hlk) in Heqb; [|intros; by eapply (rep_chan_bound _ _ _ _ R c)].
    exists free, qs. split; [done|]. unfold abstraction. f_equal. cbn [fifo]. rewrite view_zget, Heqb by lia.
    apply list_insert_id. rewrite zget_lookup by (unfold zlen, view in *; rewrite length_fmap; lia). f_equal.
    rewrite view_zget by lia. by rewrite Heqb.
  - assert (0 < zlen qs.[c]) as Hpos.
    { destruct Hlk as [Hh _]. destruct qs.[c]; [done|]. unfold zlen. simpl. lia. }
    destruct (rep_evict q free qs c R) as (i & l & q1 & -> & R1 & Hll & Hv & Hcur & _ & _); [lia|lia|].
    eexists (i :: free), _. split; [exact (rep_give_free _ _ _ _ R1)|]. unfold abstraction. cbn [fifo fifo_cursor].
    rewrite <- Hv. cbn [with_free with_slots slots cursor]. rewrite Hcur. f_equal. apply view_ext. intros j Hj.
    pose proof (rep_zslots _ _ _ _ R1) as Hz.
    assert (i ≠ j) as Hne by (eapply (rep_limbo_fresh _ _ _ _ R1); [by left|apply elem_of_app; by right]).
    unfold contents. rewrite zget_zset_ne; [done| |eapply (rep_bound _ _ _ _ R1); set_solver|done].
    eapply (rep_bound _ _ _ _ R1). set_solver.
Qed.

Lemma next_simulates q free qs :
  rep q [] free qs →
  let '(c, q') := EgressQueue_NextPendingChannel q in
  rep q' [] free qs ∧ fifos_next (abstraction q qs) = (c, abstraction q' qs).
Proof.
  intros R. unfold EgressQueue_NextPendingChannel, fifos_next. change (Z.of_nat 256) with 256. cbn [abstraction fifo fifo_cursor].
  assert (∀ i k, ring_scan (λ c, zlen (view (slots q) qs).[c] >? 0) 256 (cursor q) i k =
    ring_scan (λ c, ch_count (channels q).[c] >? 0) 256 (cursor q) i k) as Hext.
  { intros i k. revert i. induction k as [|k IH]; intros i; cbn [ring_scan]; [done|].
    rewrite (rep_view_len _ _ _ _ _ R) by (by apply Z.mod_pos_bound). by rewrite IH. }
  rewrite Hext. destruct (ring_scan _ _ _ _ _) as [c|] eqn:Hs; [|by split].
  apply (ring_scan_nearest _ 256) in Hs as (Hc & _); [|lia]. pose proof (Z.mod_pos_bound (c + 1) 256 ltac:(lia)) as Hm.
  rewrite u8_id, u16_id by lia. split; [|done]. split; cbn [with_cursor slots channels free_head used cursor]; try apply R. lia.
Qed.

Lemma front_simulates q free qs c :
  rep q [] free qs → is_u8 c →
  OFront (EgressQueue_FrontOfChannel q c) (EgressQueue_FrontEnqueuedUs q c) = (fifos_step (abstraction q qs) (QFront c)).1.
Proof.
  intros R Hc. assert (0 ≤ c < 256) as Hc' by zlia. unfold EgressQueue_FrontOfChannel, EgressQueue_FrontEnqueuedUs.
  cbn [fifos_step abstraction fifo fst]. rewrite view_zget by (rewrite (rep_zqs _ _ _ _ R); lia).
  destruct (rep_chan _ _ _ _ R c Hc') as (Hlk & _).
  pose proof (linked_head_nil _ _ _ Hlk (λ j Hj, rep_chan_bound _ _ _ _ R c j Hc' Hj)) as Hnil.
  destruct qs.[c] as [|i l] eqn:Hq; destruct (Z.eqb_spec (ch_head (channels q).[c]) EGRESS_SLOT_NIL) as [He|He].
  - done.
  - by destruct He; apply Hnil.
  - by apply Hnil in He.
  - by destruct (linked_cons _ _ _ _ Hlk) as [-> _].
Qed.

Lemma egress_simulates q free qs op :
  rep q [] free qs → egress_op_ok op →
  ∃ free' qs', let '(o, q') := egress_step q op in
    rep q' [] free' qs' ∧ fifos_step (abstraction q qs) op = (o, abstraction q' qs').
Proof.
  intros R Hop. destruct op as [c data now|c| |c|c].
  - destruct Hop as (? & ? & _). by eapply push_simulates.
  - destruct (pop_simulates q free qs c R Hop) as (f' & qs' & R' & Habs). exists f', qs'. cbn. by rewrite Habs.
  - exists free, qs. pose proof (next_simulates q free qs R) as Hn. cbn.
    destruct (EgressQueue_NextPendingChannel q) as [o q']. destruct Hn as [? ->]. done.
  - exists free, qs. cbn [egress_step]. split; [done|].
    rewrite (front_simulates q free qs c R Hop). cbn [fifos_step fst].
    by destruct ((fifo _).[c]).
  - simpl in Hop. exists free, qs. cbn [egress_step fifos_step]. split; [done|]. cbn [abstraction fifo].
    rewrite total_view, (rep_view_len _ _ _ _ _ R) by zlia. do 2 f_equal.
    unfold EgressQueue_HasPending. rewrite (rep_used _ _ _ _ R). pose proof (rep_total _ _ _ _ R) as Ht.
    change (zlen []) with 0 in Ht. by replace (total qs) with (512 - zlen free) by lia.
Qed.

(** Every queue reached from a reset by the operations represents its FIFOs. *)
Lemma egress_run_simulates q free qs ops :
  rep q [] free qs → Forall egress_op_ok ops →
  (run egress_step q ops).1 = (run fifos_step (abstraction q qs) ops).1 ∧
  ∃ free' qs', rep (run egress_step q ops).2 [] free' qs' ∧
    (run fifos_step (abstraction q qs) ops).2 = abstraction (run egress_step q ops).2 qs'.
Proof.
  intros R Hops. revert q free qs R. induction Hops as [|op ops Hop _ IH]; intros q free qs R.
  { split; [done|]. by exists free, qs. }
  destruct (egress_simulates q free qs op R Hop) as (free' & qs' & Hsim). cbn [run].
  destruct (egress_step q op) as [o q']. destruct Hsim as [R' ->]. destruct (IH q' free' qs' R') as [Ho Hr].
  destruct (run egress_step q' ops) as [os q'']. destruct (run fifos_step _ ops) as [os' F]. simpl in *. by subst.
Qed.

Lemma abstraction_reset : abstraction EgressQueue_Reset (replicate 256 []) = Fifos_empty.
Proof. unfold abstraction, Fifos_empty. f_equal. Qed.

(** C21. The linked-list pool refines 256 FIFOs. From a reset queue, any
    sequence of pushes, pops, round-robin picks and reads gives its callers
    exactly what 256 bounded FIFO queues sharing 512 places give: a push queues
    at the end of its channel; a full channel (64) loses its own oldest frame;
    a full pool loses the oldest frame of the fullest channel; fronts come out
    in order with their bytes and time stamps. *)
Theorem egress_queue_refines_fifos (ops : list egress_op) :
  Forall egress_op_ok ops →
  (run egress_step EgressQueue_Reset ops).1 = (run fifos_step Fifos_empty ops).1.
Proof.
  intros Hops. rewrite <- abstraction_reset.
  apply (egress_run_simulates EgressQueue_Reset (seqZ 0 512)); [apply rep_reset|done].
Qed.

Lemma egress_queue_refines_fifos_witness :
  (run egress_step EgressQueue_Reset [QPush 3 [1; 2] 10; QPush 7 [9] 11; QPop 3; QNext; QFront 7]).1 =
  [OPush kEGRESS_PUSH_QUEUED None; OPush kEGRESS_PUSH_QUEUED None; OPop; ONext (Some 7); OFront (Some [9]) 11].
Proof.
  rewrite egress_queue_refines_fifos; [by vm_compute|]. each_elem ltac:(unfold zlen; simpl; zlia).
Defined.

(** ** Bounds and fairness, on the abstract queue *)

Definition fifos_bounded (F : Fifos) : Prop :=
  length (fifo F) = 256%nat ∧ (∀ c, 0 ≤ c < 256 → zlen (fifo F).[c] ≤ 64) ∧ total (fifo F) ≤ 512 ∧
  0 ≤ fifo_cursor F < 256.

Lemma rep_bounded q free qs : rep q [] free qs → fifos_bounded (abstraction q qs).
Proof.
  intros R. split_and!; cbn [abstraction fifo fifo_cursor].
  - unfold view. rewrite length_fmap. apply R.
  - intros c Hc. rewrite (rep_view_len _ _ _ _ _ R) by done.
    destruct (rep_chan _ _ _ _ R c Hc) as (_ & _ & -> & ?). done.
  - rewrite total_view. pose proof (rep_total _ _ _ _ R) as Ht. unfold zlen in Ht. lia.
  - apply R.
  - apply R.
Qed.

(** The pool never leaks, overruns or starves. After any sequence of
    operations the channels hold at most 64 frames each and the slots at most
    512, [used] counts the parked frames exactly, every slot index of the links
    is within the pool, and a push is never lost to a stale free list: it is
    refused a free slot only when 512 frames are parked. *)
Theorem egress_queue_pool_invariant (ops : list egress_op) :
  Forall egress_op_ok ops →
  let q := (run egress_step EgressQueue_Reset ops).2 in
  ∃ free qs, rep q [] free qs ∧ fifos_bounded (abstraction q qs) ∧ used q = total (fifo (abstraction q qs)) ∧
    (free_head q = EGRESS_SLOT_NIL ↔ total (fifo (abstraction q qs)) = 512).
Proof.
  intros Hops. destruct (egress_run_simulates EgressQueue_Reset _ _ ops rep_reset Hops) as (_ & free & qs & R & _).
  exists free, qs. pose proof (rep_total _ _ _ _ R) as Ht. change (zlen []) with 0 in Ht.
  split_and!; [done|by eapply rep_bounded|..]; cbn [abstraction fifo]; rewrite ?total_view.
  - rewrite (rep_used _ _ _ _ R). lia.
  - rewrite (linked_head_nil _ _ _ (rep_free _ _ _ _ R)); [|intros; apply (rep_bound _ _ _ _ R); set_solver].
    split; [intros ->; change (zlen []) with 0 in Ht; lia|]. intros H512. apply length_zero_iff_nil. unfold zlen in Ht. lia.
Qed.

Lemma egress_queue_pool_invariant_witness :
  let q := (run egress_step EgressQueue_Reset [QPush 3 [1; 2] 10; QPush 7 [9] 11; QPop 3]).2 in
  used q = 1 ∧ ∃ free qs, rep q [] free qs ∧ fifos_bounded (abstraction q qs) ∧ used q = total (fifo (abstraction q qs)) ∧
    (free_head q = EGRESS_SLOT_NIL ↔ total (fifo (abstraction q qs)) = 512).
Proof.
  split; [by vm_compute|]. apply (egress_queue_pool_invariant [QPush 3 [1; 2] 10; QPush 7 [9] 11; QPop 3]).
  each_elem ltac:(unfold zlen; simpl; zlia).
Defined.

(** One pick of the round robin passes over a pending channel only towards it. *)
Lemma next_approaches q free qs c :
  rep q [] free qs → 0 ≤ c < 256 → EgressQueue_ChannelPending q c = true →
  ∃ c' q', EgressQueue_NextPendingChannel q = (Some c', q') ∧ EgressQueue_ChannelPending q c' = true ∧
    (c' = c ∨ ring_distance 256 (cursor q') c < ring_distance 256 (cursor q) c).
Proof.
  intros R Hc Hp. unfold EgressQueue_NextPendingChannel, EgressQueue_ChannelPending in *. change (Z.of_nat 256) with 256.
  destruct (ring_scan _ _ _ _ _) as [c'|] eqn:Hs.
  - apply (ring_scan_nearest _ 256) in Hs as (Hc' & HP & Hn); [|lia]. specialize (Hn c Hc Hp).
    pose proof (Z.mod_pos_bound (c' + 1) 256 ltac:(lia)) as Hm.
    rewrite u8_id, u16_id by lia. eexists _, _. split_and!; [done|done|]. cbn [with_cursor cursor].
    destruct (decide (c' = c)); [by left|right]. pose proof (rep_cursor _ _ _ _ R) as Hcur. unfold ring_distance in *.
    Z.div_mod_to_equations. lia.
  - pose proof (proj1 (ring_scan_None _ 256 _ ltac:(lia)) Hs c Hc) as Hf. simpl in Hf. congruence.
Qed.

(** The channels served by successive picks, each popping the frame it serves. *)
Fixpoint serve (k : nat) (q : EgressQueue) : list Z :=
  match k with
  | O => []
  | S k' =>
      match EgressQueue_NextPendingChannel q with
      | (Some c, q) => c :: serve k' (EgressQueue_PopChannel q c)
      | (None, _) => []
      end
  end.

Lemma pop_other q c c' :
  length (channels q) = 256%nat → 0 ≤ c < 256 → 0 ≤ c' < 256 → c' ≠ c →
  (channels (EgressQueue_PopChannel q c')).[c] = (channels q).[c] ∧ cursor (EgressQueue_PopChannel q c') = cursor q.
Proof.
  intros Hl Hc Hc' Hne. unfold EgressQueue_PopChannel. case_tests; [done|]. split; [|done].
  apply zget_zset_ne; lia.
Qed.

Lemma serve_reaches k q free qs c :
  rep q [] free qs → 0 ≤ c < 256 → EgressQueue_ChannelPending q c = true →
  ring_distance 256 (cursor q) c < Z.of_nat k → c ∈ serve k q.
Proof.
  revert q free qs. induction k as [|k IH]; intros q free qs R Hc Hp Hk.
  { pose proof (ring_distance_range 256 (cursor q) ltac:(lia) c). lia. }
  cbn [serve]. destruct (next_approaches q free qs c R Hc Hp) as (c' & q' & Hn & Hp' & Hd).
  pose proof (next_simulates q free qs R) as Hsim. rewrite Hn in *. destruct Hsim as [R' _].
  destruct (decide (c' = c)) as [->|Hne]; [by left|]. destruct Hd as [?|Hd]; [done|right].
  assert (channels q' = channels q ∧ 0 ≤ c' < 256) as [Hch Hc'].
  { unfold EgressQueue_NextPendingChannel in Hn. destruct (ring_scan _ _ _ _ _) eqn:Hs; simplify_eq.
    apply (ring_scan_nearest _ 256) in Hs as (? & _); [|lia]. split; [done|]. rewrite u8_id; lia. }
  destruct (pop_simulates q' free qs c' R') as (free' & qs' & R'' & _); [zlia|].
  destruct (pop_other q' c c') as [Hsame Hcur]; [by rewrite Hch; apply R|done..|].
  eapply IH; [exact R''|done| |].
  - unfold EgressQueue_ChannelPending in *. by rewrite Hsame, Hch.
  - rewrite Hcur. lia.
Qed.

(** Round-robin fairness. In any reachable queue, a channel with a parked
    frame is served within 256 picks, however the other channels are loaded. *)
Theorem egress_queue_round_robin_fair (ops : list egress_op) (channel : Z) :
  Forall egress_op_ok ops → is_u8 channel →
  let q := (run egress_step EgressQueue_Reset ops).2 in
  EgressQueue_ChannelPending q channel = true → channel ∈ serve 256 q.
Proof.
  intros Hops Hc q Hp.
  destruct (egress_run_simulates EgressQueue_Reset _ _ ops rep_reset Hops) as (_ & free & qs & R & _).
  eapply serve_reaches; [exact R|zlia|done|].
  pose proof (ring_distance_range 256 (cursor q) ltac:(lia) channel). lia.
Qed.

Lemma egress_queue_round_robin_fair_witness :
  let q := (run egress_step EgressQueue_Reset [QPush 9 [7] 1; QPush 2 [1] 1; QPush 2 [3] 2; QPush 4 [1] 3]).2 in
  EgressQueue_ChannelPending q 9 = true ∧ 9 ∈ serve 256 q.
Proof.
  split; [by vm_compute|].
  apply (egress_queue_round_robin_fair [QPush 9 [7] 1; QPush 2 [1] 1; QPush 2 [3] 2; QPush 4 [1] 3] 9);
    [each_elem ltac:(unfold zlen; simpl; zlia)|zlia|by vm_compute].
Defined.
