(* ===== verification/ClientSession.v ===== *)
(** * A client's session (src/hub/domain/client_session.c)

    The channels a client holds open, each bound to an interface under a channel
    number unique within the session.  A binding survives its agent
    disconnecting: it goes dormant and is re-pointed when the agent registers
    again. *)

From S2P Require Import Prelude Slots CString RegisterMessage SubscribeMessage FrameMessage.

Notation CLIENT_SESSION_BINDINGS_MAX := 32%nat (only parsing).

Record ChannelBinding := {
  cb_in_use : bool;
  cb_dormant : bool;
  cb_suppress_echo : bool;
  cb_can_write : bool;
  cb_reliable : bool;
  cb_error_frames : bool;
  cb_interface_id : Z;
  cb_channel : Z;
  cb_filter_count : Z;
  cb_frames_forwarded : Z;
  cb_frames_dropped : Z;
  cb_agent_name : list Z;
  cb_interface_name : list Z;
  cb_filters : list CanFilter;
}.

Definition ChannelBinding_zero : ChannelBinding := {|
  cb_in_use := false; cb_dormant := false; cb_suppress_echo := false; cb_can_write := false; cb_reliable := false;
  cb_error_frames := false; cb_interface_id := 0; cb_channel := 0; cb_filter_count := 0; cb_frames_forwarded := 0;
  cb_frames_dropped := 0; cb_agent_name := replicate REGISTER_AGENT_NAME_SIZE 0;
  cb_interface_name := replicate REGISTER_INTERFACE_NAME_SIZE 0; cb_filters := replicate SUBSCRIBE_FILTERS_MAX CanFilter_zero |}.

#[export] Instance ChannelBinding_slot : Slot ChannelBinding :=
  {| slot_in_use := cb_in_use; slot_zero := ChannelBinding_zero; slot_zero_free := eq_refl |}.

Record ClientSession := { bindings : list ChannelBinding; next_channel : Z }.

Record ChannelOpenRequest := {
  rq_interface_id : Z;
  rq_suppress_echo : bool;
  rq_can_write : bool;
  rq_reliable : bool;
  rq_error_frames : bool;
  rq_agent_name : list Z;
  rq_interface_name : list Z;
}.

Definition with_bindings (self : ClientSession) (b : list ChannelBinding) : ClientSession :=
  {| bindings := b; next_channel := next_channel self |}.

Definition ClientSession_Reset : ClientSession :=
  {| bindings := replicate CLIENT_SESSION_BINDINGS_MAX ChannelBinding_zero; next_channel := 0 |}.

Definition bound_to (channel : Z) (b : ChannelBinding) : bool := cb_in_use b && (cb_channel b =? channel).

Definition findByChannel (self : ClientSession) (channel : Z) : option nat := scan (bound_to channel) (bindings self).

Definition findFree (self : ClientSession) : option nat := free_slot (bindings self).

(** [for (attempts = 0; attempts < CLIENT_SESSION_BINDINGS_MAX + 1; attempts++)] *)
Fixpoint allocate_from (attempts : nat) (self : ClientSession) : option Z * ClientSession :=
  match attempts with
  | O => (None, self)
  | S attempts' =>
      let advanced := {| bindings := bindings self; next_channel := u8 (next_channel self + 1) |} in
      match findByChannel self (next_channel self) with
      | None => (Some (next_channel self), advanced)
      | Some _ => allocate_from attempts' advanced
      end
  end.

Definition allocateChannel (self : ClientSession) : option Z * ClientSession :=
  allocate_from (CLIENT_SESSION_BINDINGS_MAX + 1) self.

(** The fields the open sets; filters and counters keep what the slot held. *)
Definition open_binding (request : ChannelOpenRequest) (channel : Z) (b : ChannelBinding) : ChannelBinding := {|
  cb_in_use := true; cb_dormant := false; cb_suppress_echo := rq_suppress_echo request;
  cb_can_write := rq_can_write request; cb_reliable := rq_reliable request; cb_error_frames := rq_error_frames request;
  cb_interface_id := rq_interface_id request; cb_channel := channel; cb_filter_count := cb_filter_count b;
  cb_frames_forwarded := cb_frames_forwarded b; cb_frames_dropped := cb_frames_dropped b;
  cb_agent_name := BoundedString_Copy (cb_agent_name b) (Some (rq_agent_name request));
  cb_interface_name := BoundedString_Copy (cb_interface_name b) (Some (rq_interface_name request));
  cb_filters := cb_filters b |}.

Definition ClientSession_OpenInterface (self : ClientSession) (request : ChannelOpenRequest) : option Z * ClientSession :=
  match findFree self with
  | None => (None, self)
  | Some i =>
      match allocateChannel self with
      | (None, self) => (None, self)
      | (Some channel, self) =>
          (Some channel, with_bindings self (alter (open_binding request channel) i (bindings self)))
      end
  end.

(** The first live binding of a channel, as the read-only loops find it. *)
Definition first_binding (self : ClientSession) (P : ChannelBinding → bool) : option ChannelBinding :=
  i ← scan P (bindings self); bindings self !! i.

Definition ClientSession_CanWrite (self : ClientSession) (channel : Z) : bool :=
  match first_binding self (bound_to channel) with Some b => cb_can_write b | None => false end.

Definition ClientSession_ChannelReliable (self : ClientSession) (channel : Z) : bool :=
  match first_binding self (bound_to channel) with Some b => cb_reliable b | None => false end.

Definition set_filters (filters : list CanFilter) (count : Z) (b : ChannelBinding) : ChannelBinding := {|
  cb_in_use := cb_in_use b; cb_dormant := cb_dormant b; cb_suppress_echo := cb_suppress_echo b;
  cb_can_write := cb_can_write b; cb_reliable := cb_reliable b; cb_error_frames := cb_error_frames b;
  cb_interface_id := cb_interface_id b; cb_channel := cb_channel b; cb_filter_count := count;
  cb_frames_forwarded := cb_frames_forwarded b; cb_frames_dropped := cb_frames_dropped b;
  cb_agent_name := cb_agent_name b; cb_interface_name := cb_interface_name b;
  cb_filters := list_inserts 0 (take (Z.to_nat count) filters) (cb_filters b) |}.

Definition ClientSession_SetFilters (self : ClientSession) (channel : Z) (filters : list CanFilter) (count : Z)
    : bool * ClientSession :=
  match findByChannel self channel with
  | None => (false, self)
  | Some i =>
      if count >? Z.of_nat SUBSCRIBE_FILTERS_MAX then (false, self)
      else (true, with_bindings self (alter (set_filters filters count) i (bindings self)))
  end.

Definition filter_matches (can_id : Z) (f : CanFilter) : bool :=
  Z.land can_id (filter_can_mask f) =? Z.land (filter_can_id f) (filter_can_mask f).

Definition ClientSession_ChannelAccepts (self : ClientSession) (channel can_id : Z) : bool :=
  match first_binding self (bound_to channel) with
  | None => true
  | Some b =>
      if negb (Z.land can_id FRAME_CAN_ID_FLAG_ERR =? 0) then cb_error_frames b
      else if cb_filter_count b =? 0 then true
      else existsb (filter_matches can_id) (take (Z.to_nat (cb_filter_count b)) (cb_filters b))
  end.

Definition ClientSession_CloseChannel (self : ClientSession) (channel : Z) : ClientSession :=
  match findByChannel self channel with
  | Some i => with_bindings self (<[i := ChannelBinding_zero]> (bindings self))
  | None => self
  end.

(** A live binding that routes to [interface_id]. *)
Definition routes_to (interface_id : Z) (b : ChannelBinding) : bool :=
  cb_in_use b && negb (cb_dormant b) && (cb_interface_id b =? interface_id).

Definition ClientSession_InterfaceForChannel (self : ClientSession) (channel : Z) : option Z :=
  cb_interface_id <$> first_binding self (λ b, cb_in_use b && negb (cb_dormant b) && (cb_channel b =? channel)).

Definition ClientSession_ChannelForInterface (self : ClientSession) (interface_id : Z) : option Z :=
  cb_channel <$> first_binding self (routes_to interface_id).

(** The binding found from [iterator] on, and the iterator it leaves. *)
Definition ClientSession_NextBindingForInterface (self : ClientSession) (interface_id : Z) (iterator : nat)
    : option ChannelBinding * nat :=
  match scan (routes_to interface_id) (drop iterator (bindings self)) with
  | Some k => (bindings self !! (iterator + k)%nat, (iterator + k + 1)%nat)
  | None => (None, CLIENT_SESSION_BINDINGS_MAX)
  end.

Definition ClientSession_BindingForChannel (self : ClientSession) (channel : Z) : option nat := findByChannel self channel.

Definition ClientSession_HoldsReliable (self : ClientSession) (interface_id : Z) : bool :=
  existsb (λ b, cb_in_use b && cb_reliable b && (cb_interface_id b =? interface_id)) (bindings self).

Definition ClientSession_HoldsChannels (self : ClientSession) : bool := existsb cb_in_use (bindings self).

Definition ClientSession_TakeReliableBinding (self : ClientSession) : option Z * ClientSession :=
  match scan (λ b, cb_in_use b && cb_reliable b) (bindings self) with
  | Some i =>
      (cb_interface_id <$> bindings self !! i, with_bindings self (<[i := ChannelBinding_zero]> (bindings self)))
  | None => (None, self)
  end.

(** Whether a binding is dormant, where it points and whether it may write: what detach and reattach change. *)
Definition repoint (dormant : bool) (interface_id : Z) (can_write : bool) (b : ChannelBinding) : ChannelBinding := {|
  cb_in_use := cb_in_use b; cb_dormant := dormant; cb_suppress_echo := cb_suppress_echo b;
  cb_can_write := can_write; cb_reliable := cb_reliable b; cb_error_frames := cb_error_frames b;
  cb_interface_id := interface_id; cb_channel := cb_channel b; cb_filter_count := cb_filter_count b;
  cb_frames_forwarded := cb_frames_forwarded b; cb_frames_dropped := cb_frames_dropped b;
  cb_agent_name := cb_agent_name b; cb_interface_name := cb_interface_name b; cb_filters := cb_filters b |}.

Definition ClientSession_DetachInterface (self : ClientSession) (interface_id : Z) : ClientSession :=
  with_bindings self
    ((λ b, if routes_to interface_id b then repoint true (cb_interface_id b) (cb_can_write b) b else b) <$> bindings self).

(** A dormant binding of the interface that agent registers again. *)
Definition awaits (agent_name interface_name : list Z) (b : ChannelBinding) : bool :=
  cb_in_use b && cb_dormant b && strneq (cb_agent_name b) agent_name REGISTER_AGENT_NAME_SIZE &&
  strneq (cb_interface_name b) interface_name REGISTER_INTERFACE_NAME_SIZE.

Definition ClientSession_ReattachInterface (self : ClientSession) (agent_name interface_name : list Z) (interface_id : Z)
    (can_write : bool) : bool * ClientSession :=
  (existsb (awaits agent_name interface_name) (bindings self),
   with_bindings self
     ((λ b, if awaits agent_name interface_name b then repoint false interface_id can_write b else b) <$> bindings self)).

(** ** Invariant *)

Definition binding_ok (b : ChannelBinding) : Prop :=
  is_u8 (cb_channel b) ∧ 0 ≤ cb_filter_count b ≤ 16 ∧ length (cb_filters b) = SUBSCRIBE_FILTERS_MAX ∧
  length (cb_agent_name b) = REGISTER_AGENT_NAME_SIZE ∧ length (cb_interface_name b) = REGISTER_INTERFACE_NAME_SIZE ∧
  (cb_dormant b = true → cb_in_use b = true).

Record session_wf (s : ClientSession) : Prop := {
  sess_len : length (bindings s) = CLIENT_SESSION_BINDINGS_MAX;
  sess_next : is_u8 (next_channel s);
  sess_clean : clean (bindings s);
  sess_unique : unique_by cb_channel (bindings s);
  sess_ok : Forall binding_ok (bindings s);
}.

Lemma bound_to_true c b : bound_to c b = true ↔ cb_in_use b = true ∧ cb_channel b = c.
Proof. unfold bound_to. rewrite andb_true_iff, Z.eqb_eq. done. Qed.

Lemma findByChannel_None s c :
  findByChannel s c = None ↔ ∀ i b, bindings s !! i = Some b → cb_in_use b = true → cb_channel b ≠ c.
Proof.
  unfold findByChannel. rewrite scan_None. split; intros Hall i b Hb.
  - intros Hu Hc. specialize (Hall i b Hb). rewrite (proj2 (bound_to_true c b)) in Hall; done.
  - destruct (bound_to c b) eqn:He; [|done]. apply bound_to_true in He as [Hu Hc]. by destruct (Hall i b Hb Hu).
Qed.

Lemma findByChannel_Some s c i :
  findByChannel s c = Some i → ∃ b, bindings s !! i = Some b ∧ cb_in_use b = true ∧ cb_channel b = c.
Proof. intros (b & Hb & Hc%bound_to_true)%scan_hit. by exists b. Qed.

(** In a well-formed session the loop finds the one binding that has the channel. *)
Lemma findByChannel_bound s i b :
  session_wf s → bindings s !! i = Some b → cb_in_use b = true → findByChannel s (cb_channel b) = Some i.
Proof.
  intros Hwf Hb Hu. apply (unique_by_scan cb_channel _ _ b); [apply Hwf|done|done|by apply bound_to_true|].
  intros y [? ?]%bound_to_true. done.
Qed.

Lemma first_binding_bound s i b :
  session_wf s → bindings s !! i = Some b → cb_in_use b = true → first_binding s (bound_to (cb_channel b)) = Some b.
Proof.
  intros Hwf Hb Hu. unfold first_binding. pose proof (findByChannel_bound s i b Hwf Hb Hu) as Hf.
  unfold findByChannel in Hf. by rewrite Hf.
Qed.

(** ** Channel allocation always finds a free number *)

(** The numbers [k] failed attempts went over. *)
Definition tried (next : Z) (k : nat) : list Z := (λ j : nat, u8 (next + Z.of_nat j)) <$> seq 0 k.

Lemma allocate_from_spec k s :
  is_u8 (next_channel s) →
  (∃ c, (allocate_from k s).1 = Some c ∧ is_u8 c ∧ findByChannel s c = None ∧
     bindings (allocate_from k s).2 = bindings s ∧ is_u8 (next_channel (allocate_from k s).2)) ∨
  ((allocate_from k s).1 = None ∧ ∀ c, c ∈ tried (next_channel s) k → findByChannel s c ≠ None).
Proof.
  revert s. induction k as [|k IH]; intros s Hn; cbn [allocate_from].
  { right. split; [done|]. intros c Hc. by apply not_elem_of_nil in Hc. }
  destruct (findByChannel s (next_channel s)) as [i|] eqn:Hf.
  - set (s' := {| bindings := bindings s; next_channel := u8 (next_channel s + 1) |}).
    destruct (IH s') as [(c & ? & ? & ? & ? & ?)|[? Hall]]; [apply u8_range|left|right].
    + by exists c.
    + split; [done|]. intros c (j & -> & [_ Hj]%elem_of_seq)%list_elem_of_fmap.
      destruct j as [|j]; [rewrite Z.add_0_r, u8_id by zlia; by rewrite Hf|].
      apply (Hall (u8 (next_channel s + Z.of_nat (S j)))). apply list_elem_of_fmap. exists j.
      split; [|apply elem_of_seq; lia]. cbn [s' next_channel]. unfold u8. rewrite Zplus_mod_idemp_l. f_equal. lia.
  - left. exists (next_channel s). split_and!; [done..|apply u8_range].
Qed.

Lemma tried_NoDup next k : (k ≤ 256)%nat → NoDup (tried next k).
Proof.
  intros Hk. apply NoDup_fmap_2_strong; [|apply NoDup_seq].
  intros x y [_ Hx]%elem_of_seq [_ Hy]%elem_of_seq Heq. unfold u8 in Heq. Z.div_mod_to_equations. lia.
Qed.

Lemma allocateChannel_total s :
  length (bindings s) = CLIENT_SESSION_BINDINGS_MAX → is_u8 (next_channel s) →
  ∃ c s', allocateChannel s = (Some c, s') ∧ is_u8 c ∧ findByChannel s c = None ∧ bindings s' = bindings s ∧ is_u8 (next_channel s').
Proof.
  intros Hl Hn. unfold allocateChannel.
  destruct (allocate_from_spec (32 + 1) s Hn) as [(c & Hc & Hrest)|[_ Hall]].
  - exists c, (allocate_from (32 + 1) s).2. split; [|done]. rewrite <- Hc. apply surjective_pairing.
  - exfalso. assert (tried (next_channel s) (32 + 1) ⊆+ (cb_channel <$> bindings s)) as Hsub%submseteq_length.
    { apply NoDup_submseteq; [apply tried_NoDup; lia|]. intros c Hc. specialize (Hall c Hc).
      destruct (findByChannel s c) as [i|] eqn:Hf; [|done]. apply findByChannel_Some in Hf as (b & Hb & _ & <-).
      apply list_elem_of_fmap. exists b. split; [done|]. by eapply list_elem_of_lookup_2. }
    unfold tried in Hsub. rewrite !length_fmap, length_seq, Hl in Hsub. lia.
Qed.

(** ** The operations keep the invariant *)

Lemma binding_ok_zero : binding_ok ChannelBinding_zero.
Proof. by split_and!; try (simpl; zlia). Qed.

Lemma session_wf_reset : session_wf ClientSession_Reset.
Proof.
  split; cbn [ClientSession_Reset bindings next_channel]; [done|zlia|exact (clean_replicate 32)|exact (unique_by_replicate cb_channel 32)|].
  apply Forall_replicate, binding_ok_zero.
Qed.

(** Updates of one slot, and of all of them, that keep channels. *)
Lemma session_wf_release s i : session_wf s → session_wf (with_bindings s (<[i := ChannelBinding_zero]> (bindings s))).
Proof.
  intros [Hl Hn Hc Hu Ho]. split; cbn [with_bindings bindings next_channel]; [by rewrite length_insert|done|..].
  - by apply (clean_insert (A := ChannelBinding)).
  - exact (unique_by_release cb_channel _ i Hu).
  - apply Forall_insert; [done|apply binding_ok_zero].
Qed.

Lemma session_wf_map s (f : ChannelBinding → ChannelBinding) :
  session_wf s →
  (∀ b, binding_ok b → binding_ok (f b)) → (∀ b, cb_in_use (f b) = cb_in_use b ∧ cb_channel (f b) = cb_channel b) →
  f ChannelBinding_zero = ChannelBinding_zero →
  session_wf (with_bindings s (f <$> bindings s)).
Proof.
  intros [Hl Hn Hc Hu Ho] Hok Hf Hz. split; cbn [with_bindings bindings next_channel]; [by rewrite length_fmap|done|..].
  - apply clean_fmap; [done| |done]. intros x Hfx Hx. cbn in *. rewrite (proj1 (Hf x)) in Hfx. congruence.
  - apply unique_by_fmap; [done|]. intros x Hx. cbn in *. destruct (Hf x) as [Hux Hcx]. by rewrite Hux in Hx.
  - apply Forall_fmap. by eapply Forall_impl.
Qed.

Lemma open_spec s rq :
  session_wf s →
  (findFree s = None ∧ ClientSession_OpenInterface s rq = (None, s)) ∨
  (∃ i c s', findFree s = Some i ∧ ClientSession_OpenInterface s rq = (Some c, s') ∧ is_u8 c ∧ findByChannel s c = None ∧
    bindings s' = <[i := open_binding rq c ChannelBinding_zero]> (bindings s) ∧ is_u8 (next_channel s')).
Proof.
  intros Hwf. unfold ClientSession_OpenInterface. destruct (findFree s) as [i|] eqn:Hf; [right|by left].
  destruct (allocateChannel_total s (sess_len _ Hwf) (sess_next _ Hwf)) as (c & s1 & -> & Hc & Hnone & Hb & Hn).
  eexists i, c, _. split_and!; [done..| |done].
  cbn [with_bindings bindings]. rewrite Hb. unfold findFree in Hf.
  exact (claim_clean _ _ (open_binding rq c) (sess_clean _ Hwf) Hf).
Qed.

Lemma open_binding_ok rq c b : is_u8 c → binding_ok b → binding_ok (open_binding rq c b).
Proof.
  intros Hc (_ & Hf & Hfl & Ha & Hi & _). unfold binding_ok. cbn [open_binding cb_channel cb_filter_count cb_filters cb_agent_name cb_interface_name cb_dormant cb_in_use].
  rewrite !length_BoundedString_Copy. by split_and!; try apply Hf.
Qed.

Lemma session_wf_open s rq : session_wf s → session_wf (ClientSession_OpenInterface s rq).2.
Proof.
  intros Hwf. destruct (open_spec s rq Hwf) as [[_ ->]|(i & c & s' & Hf & -> & Hc & Hnone & Hb & Hn)]; [done|].
  cbn [snd]. split; rewrite ?Hb; [rewrite length_insert; apply Hwf|done|..].
  - by apply (clean_insert (A := ChannelBinding)); [apply Hwf|].
  - apply unique_by_insert; [apply Hwf|]. intros _ j z Hz Hne Hu. rewrite findByChannel_None in Hnone.
    cbn [open_binding cb_channel]. by eapply Hnone.
  - apply Forall_insert; [apply Hwf|]. by apply open_binding_ok, binding_ok_zero.
Qed.

Lemma session_wf_filters s c fs n : session_wf s → 0 ≤ n → session_wf (ClientSession_SetFilters s c fs n).2.
Proof.
  intros Hwf Hn. unfold ClientSession_SetFilters. destruct (findByChannel s c) as [i|] eqn:Hf; [|done].
  case_tests; [done|]. apply findByChannel_Some in Hf as (b & Hb & Hu & _). destruct Hwf as [Hl Hnx Hc Hun Ho].
  split; cbn [snd with_bindings bindings next_channel]; [by rewrite length_alter|done|..].
  - apply clean_alter; [done|intros x Hx Hfx; cbn in *; congruence|]. intros x Hx. by simplify_eq.
  - by apply unique_by_alter.
  - apply Forall_alter; [done|]. intros x _ (? & ? & Hfl & ? & ? & ?). unfold binding_ok.
    cbn [set_filters cb_channel cb_filter_count cb_filters cb_agent_name cb_interface_name cb_dormant cb_in_use].
    rewrite length_inserts. split_and!; try done; lia.
Qed.

Lemma session_wf_close s c : session_wf s → session_wf (ClientSession_CloseChannel s c).
Proof. intros Hwf. unfold ClientSession_CloseChannel. case_match; [by apply session_wf_release|done]. Qed.

Lemma session_wf_take s : session_wf s → session_wf (ClientSession_TakeReliableBinding s).2.
Proof. intros Hwf. unfold ClientSession_TakeReliableBinding. case_match; [by apply session_wf_release|done]. Qed.

Lemma repoint_ok d id w b : cb_in_use b = true → binding_ok b → binding_ok (repoint d id w b).
Proof. intros Hu (? & ? & ? & ? & ? & ?). unfold binding_ok. cbn. split_and!; try done; lia. Qed.

Lemma session_wf_detach s id : session_wf s → session_wf (ClientSession_DetachInterface s id).
Proof.
  intros Hwf. apply session_wf_map; [done|..].
  - intros b Hb. destruct (routes_to id b) eqn:Hr; [|done]. unfold routes_to in Hr. bool_to_prop. by apply repoint_ok.
  - intros b. by destruct (routes_to id b).
  - done.
Qed.

Lemma session_wf_reattach s a n id w : session_wf s → session_wf (ClientSession_ReattachInterface s a n id w).2.
Proof.
  intros Hwf. apply session_wf_map; [done|..].
  - intros b Hb. destruct (awaits a n b) eqn:Hr; [|done]. unfold awaits in Hr. bool_to_prop. by apply repoint_ok.
  - intros b. by destruct (awaits a n b).
  - done.
Qed.

(** ** Sequences of session operations *)
Inductive session_op :=
  | SOpen (request : ChannelOpenRequest)
  | SSetFilters (channel : Z) (filters : list CanFilter) (count : Z)
  | SClose (channel : Z)
  | STakeReliable
  | SDetach (interface_id : Z)
  | SReattach (agent_name interface_name : list Z) (interface_id : Z) (can_write : bool).

Definition session_step (s : ClientSession) (op : session_op) : ClientSession :=
  match op with
  | SOpen rq => (ClientSession_OpenInterface s rq).2
  | SSetFilters c fs n => (ClientSession_SetFilters s c fs n).2
  | SClose c => ClientSession_CloseChannel s c
  | STakeReliable => (ClientSession_TakeReliableBinding s).2
  | SDetach id => ClientSession_DetachInterface s id
  | SReattach a n id w => (ClientSession_ReattachInterface s a n id w).2
  end.

Definition session_op_ok (op : session_op) : Prop :=
  match op with SSetFilters _ _ n => is_u8 n | _ => True end.

Lemma session_wf_run s ops : session_wf s → Forall session_op_ok ops → session_wf (foldl session_step s ops).
Proof.
  intros Hwf Hops. revert s Hwf. induction Hops as [|op ops Hop _ IH]; intros s Hwf; simpl; [done|]. apply IH.
  destruct op; cbn [session_step session_op_ok] in *; auto using session_wf_open, session_wf_close, session_wf_take, session_wf_detach, session_wf_reattach.
  apply session_wf_filters; [done|zlia].
Qed.

(** Replacing a slot a scan passes over by another one it passes over does not change what it finds. *)
Lemma lookup_scan_insert (P : ChannelBinding → bool) l i x y :
  l !! i = Some x → P x = false → P y = false →
  (scan P (<[i := y]> l) ≫= λ k, <[i := y]> l !! k) = (scan P l ≫= λ k, l !! k).
Proof.
  intros Hx HPx HPy. revert l Hx. induction i as [|i IH]; intros [|b l] Hx; simplify_eq/=.
  - rewrite HPx, HPy. by destruct (scan P l).
  - destruct (P b); [done|]. specialize (IH l Hx). by destruct (scan P l), (scan P (<[i:=y]> l)).
Qed.

(** Opening a channel. In every session the operations can reach, an open
    is granted exactly when one of the 32 bindings is free; the channel it
    returns is bound to nothing else in the session (the 8-bit counter may wrap
    any number of times), routes to the requested interface, starts without
    filters, and every other channel keeps its binding. *)
Theorem open_allocates_fresh_channel (ops : list session_op) (rq : ChannelOpenRequest) :
  Forall session_op_ok ops →
  let s := foldl session_step ClientSession_Reset ops in
  let '(r, s') := ClientSession_OpenInterface s rq in
  unique_by cb_channel (bindings s') ∧
  (is_Some r ↔ countb cb_in_use (bindings s) < 32) ∧
  ∀ c, r = Some c →
    (∀ i b, bindings s !! i = Some b → cb_in_use b = true → cb_channel b ≠ c) ∧
    ClientSession_InterfaceForChannel s' c = Some (rq_interface_id rq) ∧
    (∀ can_id, Z.land can_id FRAME_CAN_ID_FLAG_ERR = 0 → ClientSession_ChannelAccepts s' c can_id = true) ∧
    (∀ c', c' ≠ c → first_binding s' (bound_to c') = first_binding s (bound_to c')).
Proof.
  intros Hops s. pose proof (session_wf_run _ _ session_wf_reset Hops) as Hwf. fold s in Hwf.
  pose proof (session_wf_open s rq Hwf) as Hwf'.
  destruct (open_spec s rq Hwf) as [[Hfree Ho]|(i & c & s' & Hfree & Ho & Hc & Hnone & Hb & Hn)]; rewrite Ho in *; cbn [snd] in Hwf'.
  - split_and!; [apply Hwf| |done]. split; [by intros [? ?]|]. intros Hlt. exfalso.
    unfold findFree in Hfree. rewrite free_slot_None in Hfree. apply countb_full in Hfree.
    cbn in Hfree. unfold zlen in Hfree. rewrite (sess_len _ Hwf) in Hfree. lia.
  - assert (bindings s' !! i = Some (open_binding rq c ChannelBinding_zero)) as Hi.
    { rewrite Hb. apply list_lookup_insert_eq. by eapply scan_lt. }
    pose proof (first_binding_bound s' i _ Hwf' Hi eq_refl) as Hfirst. cbn [open_binding cb_channel] in Hfirst.
    split_and!; [apply Hwf'| |].
    + split; [intros _|by eexists]. pose proof (countb_bounds cb_in_use (bindings s)) as [_ Hle].
      unfold zlen in Hle. rewrite (sess_len _ Hwf) in Hle.
      destruct (decide (countb cb_in_use (bindings s) = 32)) as [Heq|]; [|lia]. exfalso.
      apply free_slot_Some in Hfree as (x & Hx & Hux).
      assert (countb cb_in_use (bindings s) = zlen (bindings s)) as Hf by (unfold zlen; rewrite (sess_len _ Hwf); lia).
      apply (proj1 (countb_full _ _)) with (i := i) (x := x) in Hf; [cbn in Hux; congruence|done].
    + intros c' [= <-]. split_and!.
      * by apply findByChannel_None.
      * unfold ClientSession_InterfaceForChannel, first_binding.
        rewrite (unique_by_scan cb_channel _ i (open_binding rq c ChannelBinding_zero)); [by simpl; rewrite Hi|apply Hwf'|done|done| |].
        { cbn [open_binding cb_in_use cb_dormant cb_channel]. by rewrite Z.eqb_refl. }
        intros y Hy. bool_to_prop. done.
      * intros can_id Hid. unfold ClientSession_ChannelAccepts. rewrite Hfirst, Hid. done.
      * intros c' Hne. unfold first_binding. rewrite Hb.
        apply (lookup_scan_insert _ _ _ ChannelBinding_zero); [exact (free_slot_clean _ _ (sess_clean _ Hwf) Hfree)|done|].
        unfold bound_to. cbn [open_binding cb_in_use cb_channel]. by rewrite (proj2 (Z.eqb_neq c c')) by congruence.
Qed.

Lemma open_allocates_fresh_channel_witness :
  let rq := {| rq_interface_id := 7; rq_suppress_echo := false; rq_can_write := true; rq_reliable := false;
               rq_error_frames := false; rq_agent_name := [97; 0]; rq_interface_name := [99; 0] |} in
  let s := foldl session_step ClientSession_Reset [SOpen rq; SOpen rq; SClose 0] in
  (ClientSession_OpenInterface s rq).1 = Some 2 ∧ unique_by cb_channel (bindings (ClientSession_OpenInterface s rq).2).
Proof.
  intros rq s. split; [by vm_compute|].
  pose proof (open_allocates_fresh_channel [SOpen rq; SOpen rq; SClose 0] rq ltac:(each_elem ltac:(done))) as Ho.
  cbv zeta in Ho. fold s in Ho. destruct (ClientSession_OpenInterface s rq) as [r s']. apply Ho.
Defined.

(** ** An agent that flaps *)

Lemma detach_lookup s id i b :
  bindings s !! i = Some b → routes_to id b = true →
  bindings (ClientSession_DetachInterface s id) !! i = Some (repoint true (cb_interface_id b) (cb_can_write b) b).
Proof. intros Hb Hr. cbn [ClientSession_DetachInterface with_bindings bindings]. by rewrite list_lookup_fmap, Hb; cbn; rewrite Hr. Qed.

Lemma reattach_lookup s a n id w i b :
  bindings s !! i = Some b → awaits a n b = true →
  bindings (ClientSession_ReattachInterface s a n id w).2 !! i = Some (repoint false id w b).
Proof. intros Hb Hr. cbn [ClientSession_ReattachInterface snd with_bindings bindings]. by rewrite list_lookup_fmap, Hb; cbn; rewrite Hr. Qed.

(** A live binding in a well-formed session is what its channel resolves to. *)
Lemma interface_for_bound s i b :
  session_wf s → bindings s !! i = Some b → cb_in_use b = true →
  ClientSession_InterfaceForChannel s (cb_channel b) = if cb_dormant b then None else Some (cb_interface_id b).
Proof.
  intros Hwf Hb Hu. unfold ClientSession_InterfaceForChannel, first_binding. destruct (cb_dormant b) eqn:Hd.
  - rewrite (proj2 (scan_None _ _)); [done|]. intros j y Hy. destruct (cb_in_use y) eqn:Huy; [|done]. simpl.
    destruct (cb_channel y =? cb_channel b) eqn:Hc; bool_to_prop; [|by rewrite andb_false_r].
    assert (j = i) as -> by (by eapply (sess_unique _ Hwf)). simplify_eq. by rewrite Hd.
  - rewrite (unique_by_scan cb_channel _ i b); [by simpl; rewrite Hb|apply Hwf|done|done| |].
    + by rewrite Hu, Hd, Z.eqb_refl.
    + intros y Hy. bool_to_prop. done.
Qed.

(** The interface names agree as the reattach compares them. *)
Definition same_names (b : ChannelBinding) (agent_name interface_name : list Z) : Prop :=
  cstr (take REGISTER_AGENT_NAME_SIZE (cb_agent_name b)) = cstr (take REGISTER_AGENT_NAME_SIZE agent_name) ∧
  cstr (take REGISTER_INTERFACE_NAME_SIZE (cb_interface_name b)) = cstr (take REGISTER_INTERFACE_NAME_SIZE interface_name).

(** A flapping agent strands no client. A channel open on an interface
    whose agent disconnects resolves to nothing while the agent is away, and,
    when the agent registers the interface again under a new id, resolves to
    the new id under the same channel number, with the same filters. *)
Theorem binding_survives_agent_flap (ops : list session_op) (i : nat) (b : ChannelBinding)
    (agent_name interface_name : list Z) (new_id : Z) (can_write : bool) :
  Forall session_op_ok ops →
  let s := foldl session_step ClientSession_Reset ops in
  bindings s !! i = Some b → routes_to (cb_interface_id b) b = true → same_names b agent_name interface_name →
  let away := ClientSession_DetachInterface s (cb_interface_id b) in
  let '(reattached, back) := ClientSession_ReattachInterface away agent_name interface_name new_id can_write in
  ClientSession_InterfaceForChannel s (cb_channel b) = Some (cb_interface_id b) ∧
  ClientSession_InterfaceForChannel away (cb_channel b) = None ∧
  reattached = true ∧
  ClientSession_InterfaceForChannel back (cb_channel b) = Some new_id ∧
  (∀ can_id, ClientSession_ChannelAccepts back (cb_channel b) can_id = ClientSession_ChannelAccepts s (cb_channel b) can_id).
Proof.
  intros Hops s Hb Hr [Ha Hn] away. pose proof (session_wf_run _ _ session_wf_reset Hops) as Hwf. fold s in Hwf.
  pose proof (session_wf_detach s (cb_interface_id b) Hwf) as Hwf1. fold away in Hwf1.
  pose proof (session_wf_reattach away agent_name interface_name new_id can_write Hwf1) as Hwf2.
  pose proof (detach_lookup s _ i b Hb Hr) as Hb1. fold away in Hb1. set (b1 := repoint true _ _ b) in Hb1.
  assert (cb_in_use b = true ∧ cb_dormant b = false) as [Hu Hd] by (unfold routes_to in Hr; bool_to_prop; done).
  assert (awaits agent_name interface_name b1 = true) as Haw.
  { unfold awaits, strneq. cbn [b1 repoint cb_in_use cb_dormant cb_agent_name cb_interface_name].
    rewrite Hu, !bool_decide_eq_true_2 by done. done. }
  pose proof (reattach_lookup away agent_name interface_name new_id can_write i b1 Hb1 Haw) as Hb2.
  destruct (ClientSession_ReattachInterface away agent_name interface_name new_id can_write) as [r back] eqn:Hre.
  cbn [snd] in Hb2, Hwf2. split_and!.
  - rewrite (interface_for_bound s i b) by done. by rewrite Hd.
  - exact (interface_for_bound away i b1 Hwf1 Hb1 Hu).
  - unfold ClientSession_ReattachInterface in Hre. injection Hre as <- _. apply existsb_exists. exists b1.
    split; [|done]. apply list_elem_of_In. by eapply list_elem_of_lookup_2.
  - exact (interface_for_bound back i _ Hwf2 Hb2 Hu).
  - intros can_id. unfold ClientSession_ChannelAccepts.
    rewrite (first_binding_bound s i b Hwf Hb Hu). pose proof (first_binding_bound back i _ Hwf2 Hb2 Hu) as Hf.
    cbn [b1 repoint cb_channel] in Hf. by rewrite Hf.
Qed.

Definition flap_request : ChannelOpenRequest :=
  {| rq_interface_id := 7; rq_suppress_echo := false; rq_can_write := true; rq_reliable := false;
     rq_error_frames := false; rq_agent_name := [97; 0]; rq_interface_name := [99; 0] |}.

Lemma binding_survives_agent_flap_witness :
  let s := foldl session_step ClientSession_Reset [SOpen flap_request] in
  ClientSession_InterfaceForChannel
    (ClientSession_ReattachInterface (ClientSession_DetachInterface s 7) [97; 0] [99; 0] 12 true).2 0 = Some 12.
Proof.
  intros s. unfold s. pose proof (binding_survives_agent_flap [SOpen flap_request] 0 (open_binding flap_request 0 ChannelBinding_zero)
    [97; 0] [99; 0] 12 true ltac:(each_elem ltac:(done)) eq_refl eq_refl ltac:(by split; vm_compute)) as Hf.
  cbv zeta in Hf. change (cb_interface_id (open_binding flap_request 0 ChannelBinding_zero)) with 7 in Hf.
  destruct (ClientSession_ReattachInterface _ _ _ _ _) as [r back]. exact (proj1 (proj2 (proj2 (proj2 Hf)))).
Defined.

(** Delivery filters. A frame reaches a bound channel exactly when it is
    an error frame the client asked for, or a data frame that no filter
    restricts or that one of the channel's filters matches under its mask. *)
Theorem channel_accepts_spec (s : ClientSession) (i : nat) (b : ChannelBinding) (can_id : Z) :
  session_wf s → bindings s !! i = Some b → cb_in_use b = true →
  ClientSession_ChannelAccepts s (cb_channel b) can_id = true ↔
    (Z.land can_id FRAME_CAN_ID_FLAG_ERR ≠ 0 ∧ cb_error_frames b = true) ∨
    (Z.land can_id FRAME_CAN_ID_FLAG_ERR = 0 ∧
      (cb_filter_count b = 0 ∨
       ∃ k f, (k < Z.to_nat (cb_filter_count b))%nat ∧ cb_filters b !! k = Some f ∧
         Z.land can_id (filter_can_mask f) = Z.land (filter_can_id f) (filter_can_mask f))).
Proof.
  intros Hwf Hb Hu. unfold ClientSession_ChannelAccepts. rewrite (first_binding_bound s i b) by done.
  destruct (Z.eqb_spec (Z.land can_id FRAME_CAN_ID_FLAG_ERR) 0) as [He|He]; simpl.
  - destruct (Z.eqb_spec (cb_filter_count b) 0) as [Hz|Hz]; [split; [|done]; intros _; right; auto|].
    rewrite existsb_exists. split.
    + intros (f & (k & Hk)%list_elem_of_In%list_elem_of_lookup & Hm%Z.eqb_eq). apply lookup_take_Some in Hk as [Hk Hlt].
      right. split; [done|]. right. by exists k, f.
    + intros [[? _]|[_ [?|(k & f & Hlt & Hk & Hm)]]]; [done|done|]. exists f. split; [|by apply Z.eqb_eq].
      apply list_elem_of_In, (list_elem_of_lookup_2 _ k). by apply lookup_take_Some.
  - split; [by left|]. by intros [[_ ?]|[? _]].
Qed.

Lemma channel_accepts_spec_witness :
  let s := foldl session_step ClientSession_Reset
    [SOpen flap_request; SSetFilters 0 [{| filter_can_id := 256; filter_can_mask := 1792 |}] 1] in
  ClientSession_ChannelAccepts s 0 291 = true.
Proof.
  intros s.
  assert (session_wf s) as Hwf.
  { apply session_wf_run; [apply session_wf_reset|]. each_elem ltac:(zlia || done). }
  refine (proj2 (channel_accepts_spec s 0 (bindings s !!! 0%nat) 291 Hwf _ _) _); [by vm_compute..|].
  right. split; [done|]. right. exists 0%nat, {| filter_can_id := 256; filter_can_mask := 1792 |}. by vm_compute.
Defined.
