(* ===== verification/InterfaceRegistry.v ===== *)
(** * The interface catalogue (src/hub/domain/interface_registry.c)

    Every interface the live agents export, plus the virtual ones the hub
    serves, under hub-assigned ids; each entry carries the token bucket that
    paces traffic towards its bus. *)

From S2P Require Import Prelude Slots CString EgressShaper RegisterMessage ListMessage FrameMessage.

Notation INTERFACE_REGISTRY_MAX := 256%nat (only parsing).
Definition INTERFACE_REGISTRY_HUB_PEER : Z := 0.
Definition PACE_EFFECTIVE_PERCENT : Z := 80.
Definition PACE_BURST_BITS : Z := 8192.

Record InterfaceEntry := {
  ie_in_use : bool;
  ie_interface_id : Z;
  ie_agent_peer_id : Z;
  ie_agent_channel : Z;
  ie_frames_received : Z;
  ie_tx_dropped : Z;
  ie_advertised_rate : Z;
  ie_fd_reported : bool;
  ie_fd_capable : bool;
  ie_shaper : EgressShaper;
  ie_agent_name : list Z;
  ie_interface_name : list Z;
}.

Definition InterfaceEntry_zero : InterfaceEntry := {|
  ie_in_use := false; ie_interface_id := 0; ie_agent_peer_id := 0; ie_agent_channel := 0; ie_frames_received := 0;
  ie_tx_dropped := 0; ie_advertised_rate := 0; ie_fd_reported := false; ie_fd_capable := false;
  ie_shaper := EgressShaper_zero; ie_agent_name := replicate REGISTER_AGENT_NAME_SIZE 0;
  ie_interface_name := replicate REGISTER_INTERFACE_NAME_SIZE 0 |}.

#[export] Instance InterfaceEntry_slot : Slot InterfaceEntry :=
  {| slot_in_use := ie_in_use; slot_zero := InterfaceEntry_zero; slot_zero_free := eq_refl |}.

Record InterfaceRegistry := { entries : list InterfaceEntry; next_interface_id : Z }.

Definition with_entries (self : InterfaceRegistry) (es : list InterfaceEntry) : InterfaceRegistry :=
  {| entries := es; next_interface_id := next_interface_id self |}.

Definition InterfaceRegistry_Reset : InterfaceRegistry :=
  {| entries := replicate INTERFACE_REGISTRY_MAX InterfaceEntry_zero; next_interface_id := 1 |}.

(** [strcmp] on both names. *)
Definition namesMatch (e : InterfaceEntry) (agent_name interface_name : list Z) : bool :=
  streq (ie_agent_name e) agent_name && streq (ie_interface_name e) interface_name.

Definition of_peer (agent_peer_id : Z) (e : InterfaceEntry) : bool :=
  ie_in_use e && (ie_agent_peer_id e =? agent_peer_id).

Definition of_channel (agent_peer_id agent_channel : Z) (e : InterfaceEntry) : bool :=
  ie_in_use e && (ie_agent_peer_id e =? agent_peer_id) && (ie_agent_channel e =? agent_channel).

Definition of_id (interface_id : Z) (e : InterfaceEntry) : bool := ie_in_use e && (ie_interface_id e =? interface_id).

Definition collides (registration : RegisterMessage) (e : InterfaceEntry) : bool :=
  ie_in_use e && existsb (namesMatch e (reg_agent_name registration)) (registered_names registration).

(** The first entry a loop stops at. *)
Definition find_entry (self : InterfaceRegistry) (P : InterfaceEntry → bool) : option InterfaceEntry :=
  i ← scan P (entries self); entries self !! i.

(** A loop that updates every entry it matches, and one that updates the first. *)
Definition update_all (self : InterfaceRegistry) (P : InterfaceEntry → bool) (f : InterfaceEntry → InterfaceEntry)
    : InterfaceRegistry :=
  with_entries self ((λ e, if P e then f e else e) <$> entries self).
Definition update_first (self : InterfaceRegistry) (P : InterfaceEntry → bool) (f : InterfaceEntry → InterfaceEntry)
    : InterfaceRegistry :=
  match scan P (entries self) with Some i => with_entries self (alter f i (entries self)) | None => self end.

Definition isPeerRegistered (self : InterfaceRegistry) (agent_peer_id : Z) : bool :=
  existsb (of_peer agent_peer_id) (entries self).

Definition isRegistrationColliding (self : InterfaceRegistry) (registration : RegisterMessage) : bool :=
  existsb (collides registration) (entries self).

Definition findFreeEntry (self : InterfaceRegistry) : option nat := free_slot (entries self).

Definition InterfaceRegistry_RemovePeer (self : InterfaceRegistry) (agent_peer_id : Z) : InterfaceRegistry :=
  update_all self (of_peer agent_peer_id) (λ _, InterfaceEntry_zero).

(** What the registration writes into the entry it claimed for its interface [i]. *)
Definition register_entry (interface_id agent_peer_id i : Z) (registration : RegisterMessage) (e : InterfaceEntry)
    : InterfaceEntry := {|
  ie_in_use := true; ie_interface_id := interface_id; ie_agent_peer_id := agent_peer_id; ie_agent_channel := i;
  ie_frames_received := ie_frames_received e; ie_tx_dropped := ie_tx_dropped e;
  ie_advertised_rate := ie_advertised_rate e; ie_fd_reported := reg_fd_reported registration;
  ie_fd_capable := negb (Z.land (reg_fd_interfaces registration) (Z.shiftl 1 i) =? 0);
  ie_shaper := ie_shaper e; ie_agent_name := reg_agent_name registration;
  ie_interface_name := (reg_interface_names registration).[i] |}.

Definition ack_with (ack : RegisterAckMessage) (status : Z) : RegisterAckMessage :=
  {| ack_status := status; ack_interface_count := ack_interface_count ack; ack_channels := ack_channels ack |}.

(** The loop of the registration, from interface [i] with [n] to go. *)
Fixpoint register_loop (n : nat) (i : Z) (self : InterfaceRegistry) (agent_peer_id : Z) (registration : RegisterMessage)
    (ack : RegisterAckMessage) : bool * InterfaceRegistry * RegisterAckMessage :=
  match n with
  | O => (true, self, ack_with ack REGISTER_STATUS_OK)
  | S n' =>
      match findFreeEntry self with
      | None => (false, InterfaceRegistry_RemovePeer self agent_peer_id, ack_with ack REGISTER_STATUS_REJECTED)
      | Some k =>
          let self := {| entries := alter (register_entry (next_interface_id self) agent_peer_id i registration) k (entries self);
                         next_interface_id := u32 (next_interface_id self + 1) |} in
          register_loop n' (u8 (i + 1)) self agent_peer_id registration
            {| ack_status := ack_status ack; ack_interface_count := ack_interface_count ack;
               ack_channels := (ack_channels ack).[i := i] |}
      end
  end.

Definition InterfaceRegistry_RegisterAgent (self : InterfaceRegistry) (agent_peer_id : Z) (registration : RegisterMessage)
    : bool * InterfaceRegistry * RegisterAckMessage :=
  let ack := {| ack_status := 0; ack_interface_count := reg_interface_count registration;
                ack_channels := replicate REGISTER_INTERFACES_MAX 0 |} in
  if isPeerRegistered self agent_peer_id then (false, self, ack_with ack REGISTER_STATUS_REJECTED)
  else if isRegistrationColliding self registration then (false, self, ack_with ack REGISTER_STATUS_REJECTED)
  else register_loop (Z.to_nat (reg_interface_count registration)) 0 self agent_peer_id registration ack.

Definition InterfaceEntry_IsVirtual (e : InterfaceEntry) : bool := ie_agent_peer_id e =? INTERFACE_REGISTRY_HUB_PEER.

Definition InterfaceEntry_RefusesFrame (e : InterfaceEntry) (frame_flags : Z) : bool :=
  negb (Z.land frame_flags FRAME_FLAG_FD =? 0) && ie_fd_reported e && negb (ie_fd_capable e).

Definition InterfaceRegistry_FindById (self : InterfaceRegistry) (interface_id : Z) : option InterfaceEntry :=
  find_entry self (of_id interface_id).

Definition InterfaceRegistry_FindByName (self : InterfaceRegistry) (agent_name interface_name : list Z) : option InterfaceEntry :=
  find_entry self (λ e, ie_in_use e && namesMatch e agent_name interface_name).

Definition InterfaceRegistry_FindByAgentChannel (self : InterfaceRegistry) (agent_peer_id agent_channel : Z)
    : option InterfaceEntry :=
  find_entry self (of_channel agent_peer_id agent_channel).

Definition InterfaceRegistry_CollidingPeer (self : InterfaceRegistry) (registration : RegisterMessage) : option Z :=
  ie_agent_peer_id <$> find_entry self (collides registration).

Definition virtual_entry (interface_id : Z) (agent_name interface_name : list Z) (e : InterfaceEntry) : InterfaceEntry := {|
  ie_in_use := true; ie_interface_id := interface_id; ie_agent_peer_id := INTERFACE_REGISTRY_HUB_PEER;
  ie_agent_channel := ie_agent_channel e; ie_frames_received := ie_frames_received e; ie_tx_dropped := ie_tx_dropped e;
  ie_advertised_rate := ie_advertised_rate e; ie_fd_reported := ie_fd_reported e; ie_fd_capable := ie_fd_capable e;
  ie_shaper := ie_shaper e; ie_agent_name := BoundedString_Copy (ie_agent_name e) (Some agent_name);
  ie_interface_name := BoundedString_Copy (ie_interface_name e) (Some interface_name) |}.

(** The entry the call returns, by its index. *)
Definition InterfaceRegistry_AddVirtual (self : InterfaceRegistry) (agent_name interface_name : list Z)
    : option nat * InterfaceRegistry :=
  match InterfaceRegistry_FindByName self agent_name interface_name with
  | Some _ => (None, self)
  | None =>
      match findFreeEntry self with
      | None => (None, self)
      | Some k =>
          (Some k,
           {| entries := alter (virtual_entry (next_interface_id self) agent_name interface_name) k (entries self);
              next_interface_id := u32 (next_interface_id self + 1) |})
      end
  end.

Definition InterfaceRegistry_RemoveVirtual (self : InterfaceRegistry) (interface_id : Z) : InterfaceRegistry :=
  update_all self (λ e, of_id interface_id e && InterfaceEntry_IsVirtual e) (λ _, InterfaceEntry_zero).

Definition set_fd (fd_capable : bool) (e : InterfaceEntry) : InterfaceEntry := {|
  ie_in_use := ie_in_use e; ie_interface_id := ie_interface_id e; ie_agent_peer_id := ie_agent_peer_id e;
  ie_agent_channel := ie_agent_channel e; ie_frames_received := ie_frames_received e; ie_tx_dropped := ie_tx_dropped e;
  ie_advertised_rate := ie_advertised_rate e; ie_fd_reported := true; ie_fd_capable := fd_capable;
  ie_shaper := ie_shaper e; ie_agent_name := ie_agent_name e; ie_interface_name := ie_interface_name e |}.

Definition InterfaceRegistry_SetFdCapable (self : InterfaceRegistry) (interface_id : Z) (fd_capable : bool) : InterfaceRegistry :=
  update_all self (of_id interface_id) (set_fd fd_capable).

(** Updates of an entry's counters, rate and bucket. *)
Definition set_traffic (frames tx_dropped rate : Z) (shaper : EgressShaper) (e : InterfaceEntry) : InterfaceEntry := {|
  ie_in_use := ie_in_use e; ie_interface_id := ie_interface_id e; ie_agent_peer_id := ie_agent_peer_id e;
  ie_agent_channel := ie_agent_channel e; ie_frames_received := frames; ie_tx_dropped := tx_dropped;
  ie_advertised_rate := rate; ie_fd_reported := ie_fd_reported e; ie_fd_capable := ie_fd_capable e;
  ie_shaper := shaper; ie_agent_name := ie_agent_name e; ie_interface_name := ie_interface_name e |}.
Definition set_shaper (shaper : EgressShaper) (e : InterfaceEntry) : InterfaceEntry :=
  set_traffic (ie_frames_received e) (ie_tx_dropped e) (ie_advertised_rate e) shaper e.

Definition InterfaceRegistry_CountFrame (self : InterfaceRegistry) (interface_id : Z) : InterfaceRegistry :=
  update_first self (of_id interface_id)
    (λ e, set_traffic (u64 (ie_frames_received e + 1)) (ie_tx_dropped e) (ie_advertised_rate e) (ie_shaper e) e).

Definition InterfaceRegistry_SetTxDropped (self : InterfaceRegistry) (agent_peer_id agent_channel tx_dropped : Z)
    : InterfaceRegistry :=
  update_first self (of_channel agent_peer_id agent_channel)
    (λ e, set_traffic (ie_frames_received e) tx_dropped (ie_advertised_rate e) (ie_shaper e) e).

(** The rate the hub paces to: 80% of the agent's credit, or of what it advertised. *)
Definition paced_rate (advertised_rate credit : Z) : Z :=
  let effective_rate := if negb (credit =? 0) then credit else advertised_rate in
  u32 (u64 (effective_rate * PACE_EFFECTIVE_PERCENT) / 100).

Definition InterfaceRegistry_ApplyAdvertisedRate (self : InterfaceRegistry)
    (agent_peer_id agent_channel advertised_rate credit now_us : Z) : InterfaceRegistry :=
  let rate := paced_rate advertised_rate credit in
  update_first self (of_channel agent_peer_id agent_channel)
    (λ e, set_traffic (ie_frames_received e) (ie_tx_dropped e) advertised_rate
            (if burst_bits (ie_shaper e) =? 0 then EgressShaper_Init now_us rate PACE_BURST_BITS
             else EgressShaper_SetRate (ie_shaper e) rate) e).

Definition InterfaceRegistry_TryEgress (self : InterfaceRegistry) (agent_peer_id agent_channel bits now_us : Z)
    : bool * InterfaceRegistry :=
  match InterfaceRegistry_FindByAgentChannel self agent_peer_id agent_channel with
  | None => (true, self)
  | Some e =>
      let '(granted, shaper) := EgressShaper_TryConsume (EgressShaper_Refill (ie_shaper e) now_us) bits in
      (granted, update_first self (of_channel agent_peer_id agent_channel) (set_shaper shaper))
  end.

Definition InterfaceRegistry_EgressDelayUs (self : InterfaceRegistry) (agent_peer_id agent_channel bits now_us : Z)
    : Z * InterfaceRegistry :=
  match InterfaceRegistry_FindByAgentChannel self agent_peer_id agent_channel with
  | None => (0, self)
  | Some e =>
      let shaper := EgressShaper_Refill (ie_shaper e) now_us in
      (EgressShaper_DelayUs shaper bits, update_first self (of_channel agent_peer_id agent_channel) (set_shaper shaper))
  end.

Definition list_entry (e : InterfaceEntry) : ListReplyEntry :=
  {| lre_interface_id := ie_interface_id e; lre_agent_name := ie_agent_name e; lre_interface_name := ie_interface_name e |}.

Definition InterfaceRegistry_List (self : InterfaceRegistry) (offset : Z) : ListReplyMessage :=
  let '(got, more) := page ie_in_use list_entry LIST_REPLY_ENTRIES_MAX (Z.to_nat offset) [] (entries self) in
  {| lr_count := zlen got; lr_flags := if more then LIST_REPLY_FLAG_MORE else 0;
     lr_entries := got ++ replicate (LIST_REPLY_ENTRIES_MAX - length got) ListReplyEntry_zero |}.

Definition InterfaceRegistry_Count (self : InterfaceRegistry) : Z := u16 (countb ie_in_use (entries self)).

(** ** Invariant *)

(** Who an entry belongs to: a virtual one to itself, an agent's to its place in the registration. *)
Definition owner_key (e : InterfaceEntry) : Z + Z * Z :=
  if InterfaceEntry_IsVirtual e then inl (ie_interface_id e) else inr (ie_agent_peer_id e, ie_agent_channel e).

(** An entry's bucket is either unused or a well-formed one of the pacing size. *)
Definition shaper_ok (s : EgressShaper) : Prop :=
  shaper_wf s ∧ (burst_bits s = 0 ∧ rate_bits_per_s s = 0 ∨ burst_bits s = PACE_BURST_BITS).

Record registry_wf (s : InterfaceRegistry) : Prop := {
  reg_len : length (entries s) = INTERFACE_REGISTRY_MAX;
  reg_clean : clean (entries s);
  reg_ids : unique_by ie_interface_id (entries s);
  reg_owners : unique_by owner_key (entries s);
  reg_next : 1 ≤ next_interface_id s;
  reg_below : ∀ e, e ∈ live (entries s) → 1 ≤ ie_interface_id e < next_interface_id s;
  reg_shapers : Forall (λ e, shaper_ok (ie_shaper e)) (entries s);
}.

Lemma shaper_ok_zero : shaper_ok EgressShaper_zero.
Proof. split; [|by left]. constructor; cbn; shaper_unfold; lia. Qed.

(** The entries a registration adds, from interface [i] on. *)
Fixpoint new_entries (n : nat) (id agent_peer_id i : Z) (registration : RegisterMessage) : list InterfaceEntry :=
  match n with
  | O => []
  | S n' => register_entry id agent_peer_id i registration InterfaceEntry_zero ::
            new_entries n' (id + 1) agent_peer_id (i + 1) registration
  end.

Lemma new_entries_lookup n id p i r k :
  (k < n)%nat → new_entries n id p i r !! k =
    Some (register_entry (id + Z.of_nat k) p (i + Z.of_nat k) r InterfaceEntry_zero).
Proof.
  revert id i k. induction n as [|n IH]; intros id i [|k] Hk; simpl; [lia|lia|by rewrite !Z.add_0_r|].
  rewrite IH by lia. do 2 f_equal; lia.
Qed.

Lemma length_new_entries n id p i r : length (new_entries n id p i r) = n.
Proof. revert id i. induction n as [|n IH]; intros; simpl; [done|]. by rewrite IH. Qed.

Lemma elem_of_new_entries e n id p i r :
  e ∈ new_entries n id p i r ↔
    ∃ k, (k < n)%nat ∧ e = register_entry (id + Z.of_nat k) p (i + Z.of_nat k) r InterfaceEntry_zero.
Proof.
  rewrite list_elem_of_lookup. split.
  - intros (k & Hk). pose proof (lookup_lt_Some _ _ _ Hk) as Hlt. rewrite length_new_entries in Hlt.
    rewrite new_entries_lookup in Hk by done. exists k. naive_solver.
  - intros (k & Hk & ->). exists k. by apply new_entries_lookup.
Qed.

Lemma NoDup_new_entries {K} (key : InterfaceEntry → K) n id p i r :
  (∀ a b : nat, key (register_entry (id + Z.of_nat a) p (i + Z.of_nat a) r InterfaceEntry_zero) =
     key (register_entry (id + Z.of_nat b) p (i + Z.of_nat b) r InterfaceEntry_zero) → a = b) →
  NoDup (key <$> new_entries n id p i r).
Proof.
  intros Hkey. apply NoDup_alt. intros a b x. rewrite !list_lookup_fmap.
  intros (e1 & Ha & ->)%fmap_Some (e2 & Hb & Heq)%fmap_Some.
  pose proof (lookup_lt_Some _ _ _ Ha) as Hla. pose proof (lookup_lt_Some _ _ _ Hb) as Hlb. rewrite length_new_entries in Hla, Hlb.
  rewrite new_entries_lookup in Ha by done. rewrite new_entries_lookup in Hb by done. simplify_eq. by apply Hkey.
Qed.

(** ** Registration *)

Lemma register_loop_spec n i s p r ack :
  clean (entries s) → 0 ≤ i → i + Z.of_nat n ≤ 16 → 1 ≤ next_interface_id s → next_interface_id s + Z.of_nat n < 4294967296 →
  length (ack_channels ack) = REGISTER_INTERFACES_MAX →
  let '(ok, s', ack') := register_loop n i s p r ack in
  next_interface_id s ≤ next_interface_id s' ≤ next_interface_id s + Z.of_nat n ∧
  ((ok = true ∧ Z.of_nat n ≤ vacancies (entries s) ∧ next_interface_id s' = next_interface_id s + Z.of_nat n ∧
    entries s' = place (new_entries n (next_interface_id s) p i r) (entries s) ∧ ack_status ack' = REGISTER_STATUS_OK ∧
    ack_interface_count ack' = ack_interface_count ack ∧
    (∀ j, i ≤ j < i + Z.of_nat n → (ack_channels ack').[j] = j) ∧ (∀ j, 0 ≤ j < i → (ack_channels ack').[j] = (ack_channels ack).[j])) ∨
   (ok = false ∧ vacancies (entries s) < Z.of_nat n ∧ ack_status ack' = REGISTER_STATUS_REJECTED ∧
    ∃ new, Forall (λ e, of_peer p e = true) new ∧
      entries s' = (λ e, if of_peer p e then InterfaceEntry_zero else e) <$> place new (entries s))).
Proof.
  revert i s ack. induction n as [|n IH]; intros i s ack Hc Hi Hin Hn Hid Hack; cbn [register_loop].
  { split; [lia|left]. cbn [new_entries]. rewrite place_nil.
    pose proof (countb_bounds slot_in_use (entries s)). unfold vacancies. split_and!; done || lia || (intros j Hj; lia). }
  unfold findFreeEntry. destruct (free_slot (entries s)) as [k|] eqn:Hf.
  - rewrite (claim_clean _ _ _ Hc Hf). cbn [slot_zero InterfaceEntry_slot].
    set (e := register_entry (next_interface_id s) p i r InterfaceEntry_zero).
    set (s1 := {| entries := _; next_interface_id := _ |}). set (ack1 := {| ack_status := _; ack_interface_count := _; ack_channels := _ |}).
    assert (next_interface_id s1 = next_interface_id s + 1) as Hn1 by (cbn; rewrite u32_id; lia).
    assert (entries s1 = <[k := e]> (entries s)) as He1 by done.
    assert (vacancies (entries s1) = vacancies (entries s) - 1) as Hv by (rewrite He1; by apply vacancies_claim).
    specialize (IH (u8 (i + 1)) s1 ack1). rewrite (u8_id (i + 1)) in * by lia.
    destruct (register_loop n (i + 1) s1 p r ack1) as [[ok s'] ack'].
    destruct IH as [Hnext Hcases]; [by rewrite He1; apply (clean_insert (A := InterfaceEntry))|lia|lia|lia|lia|by cbn; rewrite length_zset|].
    split; [lia|]. destruct Hcases as [(-> & ? & Hnx & Hes & ? & Hct & Hj & Hj')|(-> & ? & ? & new & Hnew & Hes)]; [left|right].
    + split_and!; try done; try lia.
      * rewrite Hes, He1, Hn1. cbn [new_entries]. fold e. symmetry. by apply place_claim.
      * intros j Hjr. destruct (decide (j = i)) as [->|]; [|apply Hj; lia]. rewrite Hj' by lia. cbn [ack1 ack_channels].
        apply zget_zset_eq. unfold zlen. rewrite Hack. lia.
      * intros j Hjr. rewrite Hj' by lia. cbn [ack1 ack_channels]. apply zget_zset_ne; lia.
    + split_and!; try done; try lia. exists (e :: new). split.
      { apply Forall_cons_2; [|done]. unfold of_peer, e. cbn [register_entry ie_in_use ie_agent_peer_id]. by rewrite Z.eqb_refl. }
      rewrite Hes, He1. f_equal. symmetry. by apply place_claim.
  - split; [cbn; lia|right]. split_and!; [done| |done|].
    + apply vacancies_None in Hf. lia.
    + exists []. split; [by apply Forall_nil_2|]. by rewrite place_nil.
Qed.


Lemma isPeerRegistered_false s p :
  isPeerRegistered s p = false → ∀ i e, entries s !! i = Some e → of_peer p e = false.
Proof.
  intros Hr i e He. destruct (of_peer p e) eqn:Hp; [|done]. rewrite <- Hr. symmetry. apply existsb_exists.
  exists e. split; [|done]. apply list_elem_of_In. by eapply list_elem_of_lookup_2.
Qed.

Lemma register_spec s p r :
  registry_wf s → 0 ≤ reg_interface_count r ≤ 16 → next_interface_id s + 16 < 4294967296 →
  let '(ok, s', ack) := InterfaceRegistry_RegisterAgent s p r in
  next_interface_id s ≤ next_interface_id s' ≤ next_interface_id s + 16 ∧
  ((ok = true ∧ isPeerRegistered s p = false ∧ isRegistrationColliding s r = false ∧
    reg_interface_count r ≤ vacancies (entries s) ∧ next_interface_id s' = next_interface_id s + reg_interface_count r ∧
    entries s' = place (new_entries (Z.to_nat (reg_interface_count r)) (next_interface_id s) p 0 r) (entries s) ∧
    ack_status ack = REGISTER_STATUS_OK ∧ ack_interface_count ack = reg_interface_count r ∧
    (∀ j, 0 ≤ j < reg_interface_count r → (ack_channels ack).[j] = j)) ∨
   (ok = false ∧ entries s' = entries s ∧ ack_status ack = REGISTER_STATUS_REJECTED ∧
    (isPeerRegistered s p = true ∨ isRegistrationColliding s r = true ∨ vacancies (entries s) < reg_interface_count r))).
Proof.
  intros Hwf Hcount Hid. unfold InterfaceRegistry_RegisterAgent.
  destruct (isPeerRegistered s p) eqn:Hp; [cbn; split; [lia|]; right; split_and!; [done..|by left]|].
  destruct (isRegistrationColliding s r) eqn:Hcol; [cbn; split; [lia|]; right; split_and!; [done..|by right; left]|].
  set (ack := {| ack_status := 0; ack_interface_count := _; ack_channels := _ |}).
  pose proof (register_loop_spec (Z.to_nat (reg_interface_count r)) 0 s p r ack (reg_clean _ Hwf) ltac:(lia) ltac:(lia)
    (reg_next _ Hwf) ltac:(lia) eq_refl) as Hloop.
  destruct (register_loop _ _ _ _ _ _) as [[ok s'] ack']. rewrite Z2Nat.id in Hloop by lia.
  destruct Hloop as [Hn [(-> & Hv & Hnx & He & Hst & Hct & Hj & _)|(-> & Hv & Hst & new & Hnew & He)]]; (split; [lia|]); [left|right].
  - by split_and!.
  - split_and!; [done| |done|by right; right]. rewrite He.
    exact (place_undo (of_peer p) new (entries s) (reg_clean _ Hwf) Hnew (isPeerRegistered_false s p Hp)).
Qed.

Lemma live_register s p r :
  0 ≤ reg_interface_count r ≤ vacancies (entries s) →
  live (place (new_entries (Z.to_nat (reg_interface_count r)) (next_interface_id s) p 0 r) (entries s)) ≡ₚ
    new_entries (Z.to_nat (reg_interface_count r)) (next_interface_id s) p 0 r ++ live (entries s).
Proof.
  intros Hv. apply live_place; [|rewrite length_new_entries; lia].
  apply Forall_forall. intros e (k & _ & ->)%elem_of_new_entries. done.
Qed.

Lemma registry_wf_register s p r :
  registry_wf s → p ≠ INTERFACE_REGISTRY_HUB_PEER → 0 ≤ reg_interface_count r ≤ 16 → next_interface_id s + 16 < 4294967296 →
  registry_wf (InterfaceRegistry_RegisterAgent s p r).1.2.
Proof.
  intros Hwf Hp Hcount Hid. pose proof (register_spec s p r Hwf Hcount Hid) as Hspec.
  destruct (InterfaceRegistry_RegisterAgent s p r) as [[ok s'] ack]. cbn [fst snd].
  destruct Hspec as [Hn [(_ & Hreg & _ & Hv & Hnx & He & _)|(_ & He & _)]].
  - pose proof (live_register s p r ltac:(lia)) as Hlive. rewrite <- He in Hlive.
    set (new := new_entries _ _ _ _ _) in *. destruct Hwf as [Hl Hc Hids Hown Hnext Hbelow Hsh].
    apply unique_by_NoDup in Hids, Hown.
    split; rewrite ?unique_by_NoDup, ?Hlive, ?fmap_app.
    + rewrite He. by rewrite length_place.
    + rewrite He. apply clean_place; [done|]. apply Forall_forall. by intros e (k & _ & ->)%elem_of_new_entries.
    + apply NoDup_app. split_and!; [| |done].
      * apply NoDup_new_entries. cbn. lia.
      * intros x (e & -> & (k & Hk & ->)%elem_of_new_entries)%list_elem_of_fmap (e' & Heq & He')%list_elem_of_fmap.
        apply Hbelow in He'. cbn in Heq. lia.
    + apply NoDup_app. split_and!; [| |done].
      * apply NoDup_new_entries. intros a b. unfold owner_key, InterfaceEntry_IsVirtual. cbn.
        rewrite (proj2 (Z.eqb_neq _ _) Hp). intros ?. simplify_eq. lia.
      * intros x (e & -> & (k & Hk & ->)%elem_of_new_entries)%list_elem_of_fmap (e' & Heq & (i & Hi & Hu)%elem_of_live)%list_elem_of_fmap.
        pose proof (isPeerRegistered_false s p Hreg i e' Hi) as Hno. unfold owner_key, InterfaceEntry_IsVirtual in Heq.
        cbn in Heq, Hu. rewrite (proj2 (Z.eqb_neq _ _) Hp) in Heq. destruct (ie_agent_peer_id e' =? _); simplify_eq.
        unfold of_peer in Hno. rewrite Hu, Z.eqb_refl in Hno. done.
    + lia.
    + intros e Hin. rewrite Hlive in Hin.
      apply elem_of_app in Hin as [(k & Hk & ->)%elem_of_new_entries|Hin%Hbelow]; [cbn; lia|lia].
    + rewrite He. apply Forall_place; [done|]. apply Forall_forall. intros e (k & _ & ->)%elem_of_new_entries. apply shaper_ok_zero.
  - destruct Hwf as [Hl Hc Hids Hown Hnext Hbelow Hsh]. split; rewrite ?He; try done; [lia|].
    intros e Hin%Hbelow. lia.
Qed.

(** ** Updates that add no entry *)

(** What names an interface for the rest of the system. *)
Definition identity (e : InterfaceEntry) : Z * Z * Z * list Z * list Z :=
  (ie_interface_id e, ie_agent_peer_id e, ie_agent_channel e, ie_agent_name e, ie_interface_name e).

Definition evolved (e e' : InterfaceEntry) : Prop :=
  e' = e ∨ e' = InterfaceEntry_zero ∨
  (ie_in_use e = true ∧ ie_in_use e' = true ∧ identity e' = identity e ∧ shaper_ok (ie_shaper e')).

Lemma identity_owner e e' : identity e' = identity e → ie_interface_id e' = ie_interface_id e ∧ owner_key e' = owner_key e.
Proof.
  intros Hid. unfold identity in Hid. injection Hid as Hi Hp Hc _ _. unfold owner_key, InterfaceEntry_IsVirtual.
  by rewrite Hi, Hp, Hc.
Qed.

(** An entry live after such updates was live before, and is the same interface. *)
Lemma evolved_back s s' i e' :
  Forall2 evolved (entries s) (entries s') → entries s' !! i = Some e' → ie_in_use e' = true →
  ∃ e, entries s !! i = Some e ∧ ie_in_use e = true ∧ identity e' = identity e.
Proof.
  intros Hev He' Hu. destruct (Forall2_lookup_r _ _ _ _ _ Hev He') as (e & He & [->|[->|(? & ? & ? & ?)]]); [by exists e|done|by exists e].
Qed.

Lemma registry_wf_evolved s s' :
  registry_wf s → Forall2 evolved (entries s) (entries s') → next_interface_id s' = next_interface_id s → registry_wf s'.
Proof.
  intros [Hl Hc Hids Hown Hnext Hbelow Hsh] Hev Hn.
  split; rewrite ?Hn; [by rewrite <- (Forall2_length _ _ _ Hev)|..|done| |].
  - intros i e' He' Hf. destruct (Forall2_lookup_r _ _ _ _ _ Hev He') as (e & He & [->|[->|(_ & ? & _)]]);
      [by eapply Hc|done|cbn in Hf; congruence].
  - intros i j x y Hx Hy Hux Huy Hk. destruct (evolved_back s s' i x) as (x0 & Hx0 & ? & [Hi _]%identity_owner); [done..|].
    destruct (evolved_back s s' j y) as (y0 & Hy0 & ? & [Hj _]%identity_owner); [done..|].
    eapply Hids; [exact Hx0|exact Hy0|done..|congruence].
  - intros i j x y Hx Hy Hux Huy Hk. destruct (evolved_back s s' i x) as (x0 & Hx0 & ? & [_ Hi]%identity_owner); [done..|].
    destruct (evolved_back s s' j y) as (y0 & Hy0 & ? & [_ Hj]%identity_owner); [done..|].
    eapply Hown; [exact Hx0|exact Hy0|done..|congruence].
  - intros e' (i & He' & Hu)%elem_of_live. destruct (evolved_back s s' i e') as (e & He & Hue & [-> _]%identity_owner); [done..|].
    apply Hbelow, elem_of_live. by exists i.
  - apply Forall_lookup. intros i e' He'.
    destruct (Forall2_lookup_r _ _ _ _ _ Hev He') as (e & He & [->|[->|(_ & _ & _ & ?)]]); [|apply shaper_ok_zero|done].
    rewrite Forall_lookup in Hsh. by eapply Hsh.
Qed.

Lemma update_all_evolved s P f :
  registry_wf s → (∀ e, P e = true → shaper_ok (ie_shaper e) → evolved e (f e)) →
  Forall2 evolved (entries s) (entries (update_all s P f)).
Proof.
  intros Hwf Hf. cbn. apply Forall2_fmap_r, Forall_Forall2_diag, (Forall_impl _ _ _ (reg_shapers _ Hwf)).
  intros e He. change (evolved e (if P e then f e else e)). destruct (P e) eqn:HP; [by apply Hf|by left].
Qed.

Lemma update_first_evolved s P f :
  registry_wf s → (∀ e, P e = true → shaper_ok (ie_shaper e) → evolved e (f e)) →
  Forall2 evolved (entries s) (entries (update_first s P f)).
Proof.
  intros Hwf Hf. unfold update_first. destruct (scan P (entries s)) as [i|] eqn:Hs; cbn.
  - apply Forall2_same_length_lookup_2; [by rewrite length_alter|]. intros j e e' He He'.
    destruct (decide (j = i)) as [->|]; [|rewrite list_lookup_alter_ne in He' by done; left; congruence].
    rewrite list_lookup_alter_eq, He in He'. injection He' as <-. apply scan_hit in Hs as (x & Hx & HP). simplify_eq.
    apply Hf; [done|]. pose proof (reg_shapers _ Hwf) as Hsh. rewrite Forall_lookup in Hsh. by eapply Hsh.
  - apply Forall_Forall2_diag, Forall_true. by left.
Qed.

(** A live entry that keeps its identity and gets a well-formed bucket. *)
Lemma evolved_keep e e' : ie_in_use e = true → ie_in_use e' = true → identity e' = identity e → shaper_ok (ie_shaper e') → evolved e e'.
Proof. intros. by right; right. Qed.

Lemma of_id_use id e : of_id id e = true → ie_in_use e = true.
Proof. unfold of_id. intros H. by bool_to_prop. Qed.
Lemma of_channel_use p c e : of_channel p c e = true → ie_in_use e = true.
Proof. unfold of_channel. intros H. by bool_to_prop. Qed.
Lemma of_peer_use p e : of_peer p e = true → ie_in_use e = true.
Proof. unfold of_peer. intros H. by bool_to_prop. Qed.

Lemma shaper_ok_rate s rate now :
  shaper_ok s → is_u32 rate → is_u64 now →
  shaper_ok (if burst_bits s =? 0 then EgressShaper_Init now rate PACE_BURST_BITS else EgressShaper_SetRate s rate).
Proof.
  intros [Hwf Hb] Hr Hn. case_tests.
  - split; [|by right]. apply shaper_wf_Init; [done|done|]. unfold PACE_BURST_BITS. shaper_unfold. lia.
  - split; [by apply shaper_wf_SetRate|]. right. destruct Hb as [[? _]|Hb]; [lia|done].
Qed.

Lemma shaper_ok_refill s now : shaper_ok s → is_u64 now → shaper_ok (EgressShaper_Refill s now).
Proof. intros [Hwf Hb] Hn. split; [by apply shaper_wf_Refill|]. by rewrite Refill_burst, Refill_rate. Qed.

Lemma shaper_ok_consume s bits : shaper_ok s → 0 ≤ bits → shaper_ok (EgressShaper_TryConsume s bits).2.
Proof.
  intros [Hwf Hb] Hn. split; [by apply shaper_wf_TryConsume|]. unfold EgressShaper_TryConsume.
  by destruct (rate_bits_per_s s =? 0), (tokens_bits s <? charged s bits).
Qed.

Lemma paced_rate_range a c : is_u32 (paced_rate a c).
Proof. apply u32_range. Qed.

(** ** Sequences of registry operations *)
Inductive registry_op :=
  | RRegister (agent_peer_id : Z) (registration : RegisterMessage)
  | RRemovePeer (agent_peer_id : Z)
  | RAddVirtual (agent_name interface_name : list Z)
  | RRemoveVirtual (interface_id : Z)
  | RSetFdCapable (interface_id : Z) (fd_capable : bool)
  | RCountFrame (interface_id : Z)
  | RSetTxDropped (agent_peer_id agent_channel tx_dropped : Z)
  | RApplyRate (agent_peer_id agent_channel advertised_rate credit now_us : Z)
  | RTryEgress (agent_peer_id agent_channel bits now_us : Z)
  | REgressDelay (agent_peer_id agent_channel bits now_us : Z).

Definition registry_step (s : InterfaceRegistry) (op : registry_op) : InterfaceRegistry :=
  match op with
  | RRegister p r => (InterfaceRegistry_RegisterAgent s p r).1.2
  | RRemovePeer p => InterfaceRegistry_RemovePeer s p
  | RAddVirtual a n => (InterfaceRegistry_AddVirtual s a n).2
  | RRemoveVirtual id => InterfaceRegistry_RemoveVirtual s id
  | RSetFdCapable id fd => InterfaceRegistry_SetFdCapable s id fd
  | RCountFrame id => InterfaceRegistry_CountFrame s id
  | RSetTxDropped p c n => InterfaceRegistry_SetTxDropped s p c n
  | RApplyRate p c a k now => InterfaceRegistry_ApplyAdvertisedRate s p c a k now
  | RTryEgress p c bits now => (InterfaceRegistry_TryEgress s p c bits now).2
  | REgressDelay p c bits now => (InterfaceRegistry_EgressDelayUs s p c bits now).2
  end.

Definition registry_op_ok (op : registry_op) : Prop :=
  match op with
  | RRegister p r => p ≠ INTERFACE_REGISTRY_HUB_PEER ∧ 0 ≤ reg_interface_count r ≤ 16
  | RApplyRate _ _ _ _ now => is_u64 now
  | RTryEgress _ _ bits now | REgressDelay _ _ bits now => 0 ≤ bits ∧ is_u64 now
  | _ => True
  end.

(** The operations other than the two that add entries. *)
Lemma registry_evolves s op :
  registry_wf s → registry_op_ok op →
  match op with RRegister _ _ | RAddVirtual _ _ => True | _ =>
    Forall2 evolved (entries s) (entries (registry_step s op)) ∧ next_interface_id (registry_step s op) = next_interface_id s end.
Proof.
  intros Hwf Hop. destruct op as [p r|p|a n|id|id fd|id|p c n|p c a k now|p c bits now|p c bits now]; try done;
    cbn [registry_step registry_op_ok] in *.
  - split; [|done]. apply update_all_evolved; [done|]. by right; left.
  - split; [|done]. apply update_all_evolved; [done|]. by right; left.
  - split; [|done]. apply update_all_evolved; [done|]. intros e He%of_id_use Hs. by apply evolved_keep.
  - unfold InterfaceRegistry_CountFrame. split; [|unfold update_first; by case_match].
    apply update_first_evolved; [done|]. intros e He%of_id_use Hs. by apply evolved_keep.
  - unfold InterfaceRegistry_SetTxDropped. split; [|unfold update_first; by case_match].
    apply update_first_evolved; [done|]. intros e He%of_channel_use Hs. by apply evolved_keep.
  - unfold InterfaceRegistry_ApplyAdvertisedRate. split; [|unfold update_first; by case_match].
    apply update_first_evolved; [done|]. intros e He%of_channel_use Hs. apply evolved_keep; [done..|].
    apply shaper_ok_rate; [done|apply paced_rate_range|done].
  - unfold InterfaceRegistry_TryEgress. destruct (InterfaceRegistry_FindByAgentChannel s p c) as [e0|] eqn:Hf.
    2: { split; [|done]. apply Forall_Forall2_diag, Forall_true. by left. }
    destruct (EgressShaper_TryConsume _ _) as [g sh] eqn:Hc. cbn [snd]. split; [|unfold update_first; by case_match].
    apply update_first_evolved; [done|]. intros e He%of_channel_use Hs. apply evolved_keep; [done..|]. cbn.
    replace sh with (EgressShaper_TryConsume (EgressShaper_Refill (ie_shaper e0) now) bits).2 by (by rewrite Hc).
    destruct Hop as [? ?]. apply shaper_ok_consume; [apply shaper_ok_refill; [|done]|done].
    apply bind_Some in Hf as (i & _ & He0). pose proof (reg_shapers _ Hwf) as Hsh. rewrite Forall_lookup in Hsh. by eapply Hsh.
  - unfold InterfaceRegistry_EgressDelayUs. destruct (InterfaceRegistry_FindByAgentChannel s p c) as [e0|] eqn:Hf.
    2: { split; [|done]. apply Forall_Forall2_diag, Forall_true. by left. }
    cbn [snd]. split; [|unfold update_first; by case_match].
    apply update_first_evolved; [done|]. intros e He%of_channel_use Hs. apply evolved_keep; [done..|]. cbn.
    destruct Hop as [? ?]. apply shaper_ok_refill; [|done].
    apply bind_Some in Hf as (i & _ & He0). pose proof (reg_shapers _ Hwf) as Hsh. rewrite Forall_lookup in Hsh. by eapply Hsh.
Qed.

Lemma add_virtual_spec s a n :
  registry_wf s → next_interface_id s + 16 < 4294967296 →
  (InterfaceRegistry_AddVirtual s a n = (None, s)) ∨
  (∃ k, findFreeEntry s = Some k ∧ InterfaceRegistry_FindByName s a n = None ∧ InterfaceRegistry_AddVirtual s a n = (Some k,
    {| entries := <[k := virtual_entry (next_interface_id s) a n InterfaceEntry_zero]> (entries s);
       next_interface_id := next_interface_id s + 1 |})).
Proof.
  intros Hwf Hid. unfold InterfaceRegistry_AddVirtual. destruct (InterfaceRegistry_FindByName s a n) eqn:Hn; [by left|].
  destruct (findFreeEntry s) as [k|] eqn:Hf; [right|by left]. exists k. split_and!; [done..|]. do 2 f_equal.
  - exact (claim_clean _ _ (virtual_entry (next_interface_id s) a n) (reg_clean _ Hwf) Hf).
  - pose proof (reg_next _ Hwf). rewrite u32_id; lia.
Qed.

Lemma registry_wf_virtual s a n :
  registry_wf s → next_interface_id s + 16 < 4294967296 → registry_wf (InterfaceRegistry_AddVirtual s a n).2.
Proof.
  intros Hwf Hid. destruct (add_virtual_spec s a n Hwf Hid) as [->|(k & Hf & _ & ->)]; [done|]. cbn [snd].
  destruct Hwf as [Hl Hc Hids Hown Hnext Hbelow Hsh].
  assert (∀ j z, entries s !! j = Some z → ie_in_use z = true → 1 ≤ ie_interface_id z < next_interface_id s) as Hb.
  { intros j z Hz Hu. apply Hbelow, elem_of_live. by exists j. }
  split; cbn [entries next_interface_id]; [by rewrite length_insert|..|lia| |].
  - by apply (clean_insert (A := InterfaceEntry)).
  - apply unique_by_insert; [done|]. intros _ j z Hz _ Hu. specialize (Hb j z Hz Hu). cbn. lia.
  - apply unique_by_insert; [done|]. intros _ j z Hz _ Hu. specialize (Hb j z Hz Hu). unfold owner_key. cbn.
    destruct (InterfaceEntry_IsVirtual z); [|done]. intros [= ?]. lia.
  - intros e (j & [(<- & <- & _)|(_ & He)]%list_lookup_insert_Some & Hu)%elem_of_live; [cbn; lia|]. specialize (Hb j e He Hu). lia.
  - apply Forall_insert; [done|]. apply shaper_ok_zero.
Qed.

(** One step: the invariant, the id counter, and where the live entries come from. *)
Lemma registry_step_spec s op :
  registry_wf s → registry_op_ok op → next_interface_id s + 16 < 4294967296 →
  registry_wf (registry_step s op) ∧
  next_interface_id s ≤ next_interface_id (registry_step s op) ≤ next_interface_id s + 16 ∧
  ∀ e', e' ∈ live (entries (registry_step s op)) →
    (∃ e, e ∈ live (entries s) ∧ identity e' = identity e) ∨ next_interface_id s ≤ ie_interface_id e'.
Proof.
  intros Hwf Hop Hid.
  assert (∀ s', Forall2 evolved (entries s) (entries s') → next_interface_id s' = next_interface_id s →
    registry_wf s' ∧ next_interface_id s ≤ next_interface_id s' ≤ next_interface_id s + 16 ∧
    ∀ e', e' ∈ live (entries s') → (∃ e, e ∈ live (entries s) ∧ identity e' = identity e) ∨ next_interface_id s ≤ ie_interface_id e') as Hevo.
  { intros s' Hev Hn. split_and!; [by eapply registry_wf_evolved|lia|lia|].
    intros e' (i & He' & Hu)%elem_of_live. destruct (evolved_back s s' i e') as (e & He & Hue & Hie); [done..|].
    left. exists e. split; [|done]. apply elem_of_live. by exists i. }
  pose proof (registry_evolves s op Hwf Hop) as Hother.
  destruct op as [p r| |a n| | | | | | | ]; try (by apply Hevo; apply Hother); clear Hother Hevo; cbn [registry_step].
  - destruct Hop as [Hp Hc]. split; [by apply registry_wf_register|].
    pose proof (register_spec s p r Hwf Hc Hid) as Hspec. destruct (InterfaceRegistry_RegisterAgent s p r) as [[ok s'] ack].
    cbn [fst snd]. destruct Hspec as [Hn Hcases]. split; [done|]. intros e' He'.
    destruct Hcases as [(_ & _ & _ & Hv & _ & He & _)|(_ & He & _)]; rewrite He in He'; [|left; by exists e'].
    rewrite live_register in He' by lia. apply elem_of_app in He' as [(k & _ & ->)%elem_of_new_entries|He']; [right; cbn; lia|left; by exists e'].
  - split; [by apply registry_wf_virtual|].
    destruct (add_virtual_spec s a n Hwf Hid) as [->|(k & Hf & _ & ->)]; cbn [snd entries next_interface_id]; (split; [lia|]).
    + intros e' He'. left. by exists e'.
    + intros e' (j & [(<- & <- & _)|(_ & He)]%list_lookup_insert_Some & Hu)%elem_of_live; [right; cbn; lia|].
      left. exists e'. split; [|done]. apply elem_of_live. by exists j.
Qed.

Lemma registry_run_spec s ops :
  registry_wf s → Forall registry_op_ok ops → next_interface_id s + 16 * zlen ops < 4294967296 →
  let s' := foldl registry_step s ops in
  registry_wf s' ∧ next_interface_id s ≤ next_interface_id s' ≤ next_interface_id s + 16 * zlen ops ∧
  ∀ e', e' ∈ live (entries s') →
    (∃ e, e ∈ live (entries s) ∧ identity e' = identity e) ∨ next_interface_id s ≤ ie_interface_id e'.
Proof.
  intros Hwf Hops. revert s Hwf. induction Hops as [|op ops Hop _ IH]; intros s Hwf Hid; cbn [foldl].
  { split_and!; [done|lia|unfold zlen; simpl; lia|]. intros e' He'. left. by exists e'. }
  assert (zlen (op :: ops) = zlen ops + 1) as Hz by (unfold zlen; simpl; lia). rewrite Hz in *.
  assert (0 ≤ zlen ops) by (unfold zlen; lia).
  destruct (registry_step_spec s op Hwf Hop ltac:(lia)) as (Hwf1 & Hn1 & Hl1).
  destruct (IH _ Hwf1 ltac:(lia)) as (Hwf2 & Hn2 & Hl2). split_and!; [done|lia|lia|].
  intros e' He'. destruct (Hl2 e' He') as [(e & He & Hi)|]; [|right; lia].
  destruct (Hl1 e He) as [(e0 & He0 & Hi0)|Hge].
  - left. exists e0. split; [done|congruence].
  - right. by rewrite (proj1 (identity_owner _ _ Hi)).
Qed.

Lemma registry_wf_reset : registry_wf InterfaceRegistry_Reset.
Proof.
  split; cbn [InterfaceRegistry_Reset entries next_interface_id]; [done|exact (clean_replicate 256)|
    exact (unique_by_replicate _ 256)|exact (unique_by_replicate _ 256)|lia| |].
  - intros e (i & [-> _]%lookup_replicate & Hu)%elem_of_live. done.
  - apply Forall_replicate, shaper_ok_zero.
Qed.

Lemma registry_reachable ops :
  Forall registry_op_ok ops → zlen ops ≤ 268435000 →
  registry_wf (foldl registry_step InterfaceRegistry_Reset ops) ∧
  next_interface_id (foldl registry_step InterfaceRegistry_Reset ops) ≤ 1 + 16 * zlen ops.
Proof.
  intros Hops Hlen. destruct (registry_run_spec InterfaceRegistry_Reset ops registry_wf_reset Hops) as (Hwf & Hn & _).
  { cbn. lia. }
  split; [done|]. cbn in Hn. lia.
Qed.

(** Interface ids are never reused within a run. Whatever agents and
    bridge groups come and go (up to 268 million operations, before the 32-bit
    counter can wrap), an id that named an interface names that same interface
    (agent, channel and names) for as long as anything answers to it. *)
Theorem interface_ids_never_reused (before after : list registry_op) (e e' : InterfaceEntry) :
  Forall registry_op_ok before → Forall registry_op_ok after → zlen before + zlen after ≤ 268435000 →
  let s := foldl registry_step InterfaceRegistry_Reset before in
  e ∈ live (entries s) → e' ∈ live (entries (foldl registry_step s after)) →
  ie_interface_id e' = ie_interface_id e → identity e' = identity e.
Proof.
  intros Hb Ha Hlen s He He' Hid. assert (0 ≤ zlen after) by (unfold zlen; lia).
  destruct (registry_reachable before Hb ltac:(lia)) as [Hwf Hn]. fold s in Hwf, Hn.
  destruct (registry_run_spec s after Hwf Ha ltac:(lia)) as (_ & _ & Hl).
  pose proof (reg_below _ Hwf e He) as Hlt.
  destruct (Hl e' He') as [(e0 & He0 & Hi0)|?]; [|lia]. rewrite Hi0. f_equal.
  apply elem_of_live in He as (i & Hi & Hu), He0 as (j & Hj & Hu0).
  assert (ie_interface_id e0 = ie_interface_id e) as Heq by (rewrite <- (proj1 (identity_owner _ _ Hi0)); done).
  assert (j = i) as -> by (by eapply (reg_ids _ Hwf j i)). congruence.
Qed.

(** ** Looking entries up *)

Lemma find_entry_unique {K} (key : InterfaceEntry → K) s e P :
  unique_by key (entries s) → e ∈ live (entries s) → P e = true →
  (∀ y, P y = true → ie_in_use y = true ∧ key y = key e) → find_entry s P = Some e.
Proof.
  intros Hu (i & Hi & Hue)%elem_of_live HP Hk. unfold find_entry.
  by rewrite (unique_by_scan key _ i e P Hu Hi Hue HP Hk).
Qed.

Lemma find_by_id s e : registry_wf s → e ∈ live (entries s) → InterfaceRegistry_FindById s (ie_interface_id e) = Some e.
Proof.
  intros Hwf He. eapply (find_entry_unique ie_interface_id); [apply Hwf|done|..].
  - apply elem_of_live in He as (_ & _ & Hu). unfold of_id. cbn in Hu. by rewrite Hu, Z.eqb_refl.
  - intros y Hy. unfold of_id in Hy. by bool_to_prop.
Qed.

Lemma find_by_channel s e :
  registry_wf s → e ∈ live (entries s) → InterfaceEntry_IsVirtual e = false →
  InterfaceRegistry_FindByAgentChannel s (ie_agent_peer_id e) (ie_agent_channel e) = Some e.
Proof.
  intros Hwf He Hv. eapply (find_entry_unique owner_key); [apply Hwf|done|..].
  - apply elem_of_live in He as (_ & _ & Hu). unfold of_channel. cbn in Hu. by rewrite Hu, !Z.eqb_refl.
  - intros y Hy. unfold of_channel in Hy. apply andb_true_iff in Hy as [[Hu Hp]%andb_true_iff Hc].
    apply Z.eqb_eq in Hp, Hc. split; [done|]. unfold owner_key, InterfaceEntry_IsVirtual in *. by rewrite Hp, Hc, Hv.
Qed.

Definition reg_abc : RegisterMessage := {|
  reg_agent_name := [97; 0]; reg_interface_count := 1; reg_interface_names := replicate 16 [99; 48; 0];
  reg_fd_reported := true; reg_fd_interfaces := 1 |}.

Lemma interface_ids_never_reused_witness :
  let s := foldl registry_step InterfaceRegistry_Reset [RRegister 5 reg_abc] in
  let s' := foldl registry_step s [RCountFrame 1; RRegister 6 reg_abc] in
  identity (entries s' !!! 0%nat) = identity (entries s !!! 0%nat).
Proof.
  intros s s'.
  refine (interface_ids_never_reused [RRegister 5 reg_abc] [RCountFrame 1; RRegister 6 reg_abc] _ _ _ _ _ _ _ _).
  - each_elem ltac:(split; [done|lia]).
  - each_elem ltac:(done || (split; [done|lia])).
  - unfold zlen. simpl. lia.
  - apply elem_of_live. exists 0%nat. by vm_compute.
  - apply elem_of_live. exists 0%nat. by vm_compute.
  - by vm_compute.
Defined.

(** C34. A registration is all or nothing. In every reachable registry, a
    registration is granted exactly when the peer has none yet, none of its
    names is taken and all its interfaces fit; a refused one leaves every entry
    as it was (entries claimed half-way are given back); a granted one makes
    each of its interfaces, and nothing else, findable by (peer, channel), under
    consecutive fresh ids, and acknowledges the channels. *)
Theorem registration_all_or_nothing (ops : list registry_op) (peer : Z) (r : RegisterMessage) :
  Forall registry_op_ok ops → zlen ops ≤ 268434000 → peer ≠ INTERFACE_REGISTRY_HUB_PEER → 0 ≤ reg_interface_count r ≤ 16 →
  let s := foldl registry_step InterfaceRegistry_Reset ops in
  let '(ok, s', ack) := InterfaceRegistry_RegisterAgent s peer r in
  (ok = true ↔ isPeerRegistered s peer = false ∧ isRegistrationColliding s r = false ∧
     countb ie_in_use (entries s) + reg_interface_count r ≤ 256) ∧
  (ok = false → entries s' = entries s ∧ ack_status ack = REGISTER_STATUS_REJECTED) ∧
  (ok = true →
     ack_status ack = REGISTER_STATUS_OK ∧
     (∀ i, 0 ≤ i < reg_interface_count r →
        (ack_channels ack).[i] = i ∧
        InterfaceRegistry_FindByAgentChannel s' peer i =
          Some (register_entry (next_interface_id s + i) peer i r InterfaceEntry_zero)) ∧
     (∀ e, e ∈ live (entries s') ↔ e ∈ live (entries s) ∨
        ∃ i, 0 ≤ i < reg_interface_count r ∧ e = register_entry (next_interface_id s + i) peer i r InterfaceEntry_zero)).
Proof.
  intros Hops Hlen Hp Hc s. destruct (registry_reachable ops Hops ltac:(lia)) as [Hwf Hn]. fold s in Hwf, Hn.
  assert (next_interface_id s + 16 < 4294967296) as Hid by lia.
  pose proof (registry_wf_register s peer r Hwf Hp Hc Hid) as Hwf'. pose proof (register_spec s peer r Hwf Hc Hid) as Hspec.
  destruct (InterfaceRegistry_RegisterAgent s peer r) as [[ok s'] ack]. cbn [fst snd] in Hwf'.
  assert (vacancies (entries s) = 256 - countb ie_in_use (entries s)) as Hvac.
  { unfold vacancies, zlen. rewrite (reg_len _ Hwf). cbn. lia. }
  destruct Hspec as [_ [(-> & Hreg & Hcol & Hv & _ & He & Hst & _ & Hj)|(-> & He & Hst & Hwhy)]].
  - pose proof (live_register s peer r ltac:(lia)) as Hlive. rewrite <- He in Hlive.
    assert (∀ e, e ∈ live (entries s') ↔ e ∈ live (entries s) ∨
        ∃ i, 0 ≤ i < reg_interface_count r ∧ e = register_entry (next_interface_id s + i) peer i r InterfaceEntry_zero) as Hin.
    { intros e. rewrite Hlive, elem_of_app, elem_of_new_entries. split.
      - intros [(k & Hk & ->)|?]; [right|by left]. exists (Z.of_nat k). rewrite Z.add_0_l. split; [lia|done].
      - intros [?|(i & Hi & ->)]; [by right|left]. exists (Z.to_nat i). rewrite Z.add_0_l, Z2Nat.id by lia. split; [lia|done]. }
    split_and!; [|done|].
    + split; [intros _; split_and!; [done..|lia]|done].
    + intros _. split_and!; [done| |done]. intros i Hi. split; [by apply Hj|].
      refine (find_by_channel s' (register_entry (next_interface_id s + i) peer i r InterfaceEntry_zero) Hwf' _ _).
      * apply Hin. right. by exists i.
      * unfold InterfaceEntry_IsVirtual. cbn. by apply Z.eqb_neq.
  - split_and!; [|done|done]. split; [done|]. intros (? & ? & ?). destruct Hwhy as [?|[?|?]]; [congruence..|lia].
Qed.

Lemma registration_all_or_nothing_witness :
  let s := foldl registry_step InterfaceRegistry_Reset [RRegister 5 reg_abc; RRemovePeer 5] in
  InterfaceRegistry_FindByAgentChannel (InterfaceRegistry_RegisterAgent s 9 reg_abc).1.2 9 0 =
    Some (register_entry 2 9 0 reg_abc InterfaceEntry_zero).
Proof.
  pose proof (registration_all_or_nothing [RRegister 5 reg_abc; RRemovePeer 5] 9 reg_abc
    ltac:(each_elem ltac:(done || (split; [done|lia]))) ltac:(unfold zlen; simpl; lia) ltac:(done) ltac:(cbn; lia)) as Hr.
  intros s. cbv zeta in Hr. fold s in Hr.
  assert (next_interface_id s = 2) as Hn by (by vm_compute).
  assert ((InterfaceRegistry_RegisterAgent s 9 reg_abc).1.1 = true) as Hok by (by vm_compute).
  destruct (InterfaceRegistry_RegisterAgent s 9 reg_abc) as [[ok s'] ack]. cbn [fst snd] in *.
  destruct Hr as (_ & _ & Hgrant). destruct (Hgrant Hok) as (_ & Hfind & _). rewrite Hn in Hfind. apply Hfind. cbn. lia.
Defined.

(** ** Listing *)

(** A requester that follows the MORE flag: the entries of the replies, in order. *)
Fixpoint list_all (fuel : nat) (s : InterfaceRegistry) (offset : Z) : list ListReplyEntry :=
  match fuel with
  | O => []
  | S fuel' =>
      let reply := InterfaceRegistry_List s offset in
      counted_entries reply ++
      (if lr_flags reply =? LIST_REPLY_FLAG_MORE then list_all fuel' s (offset + lr_count reply) else [])
  end.

Lemma list_page s offset :
  0 ≤ offset →
  let '(got, more) := page ie_in_use list_entry 16 (Z.to_nat offset) [] (entries s) in
  counted_entries (InterfaceRegistry_List s offset) = got ∧ lr_count (InterfaceRegistry_List s offset) = zlen got ∧
  (lr_flags (InterfaceRegistry_List s offset) =? LIST_REPLY_FLAG_MORE) = more ∧ (length got ≤ 16)%nat.
Proof.
  intros Ho. unfold InterfaceRegistry_List. rewrite page_spec. set (got := take _ _). unfold counted_entries. cbn [lr_count lr_entries lr_flags].
  split_and!; [|done|by case_bool_decide|unfold got; rewrite length_take; lia].
  unfold zlen. rewrite Nat2Z.id. by rewrite take_app_length.
Qed.

(** Listing is complete. A client that asks for the catalogue page by page
    gets every live interface exactly once, in slot order, in at most 17
    replies of at most 16 entries each. *)
Theorem list_is_complete (s : InterfaceRegistry) :
  length (entries s) = INTERFACE_REGISTRY_MAX →
  list_all 17 s 0 = list_entry <$> live (entries s) ∧
  ∀ offset, 0 ≤ offset → 0 ≤ lr_count (InterfaceRegistry_List s offset) ≤ 16 ∧
    length (lr_entries (InterfaceRegistry_List s offset)) = LIST_REPLY_ENTRIES_MAX.
Proof.
  intros Hlen. split.
  - assert (∀ fuel offset, 0 ≤ offset → Z.of_nat (length (listed ie_in_use list_entry (entries s))) < 16 * Z.of_nat fuel + offset →
      list_all fuel s offset = drop (Z.to_nat offset) (listed ie_in_use list_entry (entries s))) as Hall.
    { induction fuel as [|fuel IH]; intros offset Ho Hf; cbn [list_all]; [symmetry; apply drop_ge; lia|].
      pose proof (list_page s offset Ho) as Hp. rewrite page_spec in Hp. destruct Hp as (-> & -> & -> & _).
      case_bool_decide as Hmore.
      - unfold zlen. rewrite length_take, length_drop.
        replace (Nat.min 16 (length (listed ie_in_use list_entry (entries s)) - Z.to_nat offset)) with 16%nat by lia.
        rewrite IH by lia. replace (Z.to_nat (offset + Z.of_nat 16)) with (Z.to_nat offset + 16)%nat by lia.
        rewrite <- drop_drop. apply take_drop.
      - rewrite app_nil_r. apply take_ge. rewrite length_drop. lia. }
    rewrite Hall; [done|lia|]. rewrite listed_length. pose proof (countb_bounds ie_in_use (entries s)) as Hb.
    unfold zlen in Hb. rewrite Hlen in Hb. lia.
  - intros offset Ho. pose proof (list_page s offset Ho) as Hp. unfold InterfaceRegistry_List in *.
    destruct (page _ _ _ _ _ _) as [got more]. destruct Hp as (_ & _ & _ & Hg). cbn [lr_count lr_entries]. unfold zlen.
    rewrite length_app, length_replicate. lia.
Qed.

Lemma list_is_complete_witness :
  let s := foldl registry_step InterfaceRegistry_Reset [RRegister 5 reg_abc] in
  list_all 17 s 0 = list_entry <$> live (entries s).
Proof.
  intros s. refine (proj1 (list_is_complete s _)). by vm_compute.
Defined.

(** ** Names *)

Definition names_key (e : InterfaceEntry) : list Z * list Z := (cstr (ie_agent_name e), cstr (ie_interface_name e)).

(** A registration that names no interface twice; a virtual interface whose names fit their fields. *)
Definition names_ok (op : registry_op) : Prop :=
  match op with
  | RRegister p r =>
      length (reg_interface_names r) = REGISTER_INTERFACES_MAX ∧ NoDup (cstr <$> registered_names r)
  | RAddVirtual a n => (strlen a < REGISTER_AGENT_NAME_SIZE)%nat ∧ (strlen n < REGISTER_INTERFACE_NAME_SIZE)%nat
  | _ => True
  end.

Lemma namesMatch_true e a n : namesMatch e a n = true ↔ names_key e = (cstr a, cstr n).
Proof.
  unfold namesMatch, names_key. rewrite andb_true_iff, !streq_true. split; [by intros [-> ->]|by intros [= -> ->]].
Qed.

Lemma registered_name r i :
  length (reg_interface_names r) = REGISTER_INTERFACES_MAX → 0 ≤ i < reg_interface_count r → reg_interface_count r ≤ 16 →
  registered_names r !! Z.to_nat i = Some (reg_interface_names r).[i].
Proof.
  intros Hl Hi Hc. unfold registered_names. rewrite lookup_take_lt by lia. apply zget_lookup. unfold zlen. rewrite Hl. lia.
Qed.

Lemma names_unique_register s p r :
  registry_wf s → p ≠ INTERFACE_REGISTRY_HUB_PEER → 0 ≤ reg_interface_count r ≤ 16 → next_interface_id s + 16 < 4294967296 →
  names_ok (RRegister p r) → unique_by names_key (entries s) →
  unique_by names_key (entries (InterfaceRegistry_RegisterAgent s p r).1.2).
Proof.
  intros Hwf Hp Hc Hid [Hlen Hnd] Hu. pose proof (register_spec s p r Hwf Hc Hid) as Hspec.
  destruct (InterfaceRegistry_RegisterAgent s p r) as [[ok s'] ack]. cbn [fst snd].
  destruct Hspec as [_ [(_ & _ & Hcol & Hv & _ & He & _)|(_ & He & _)]]; rewrite He; [|done].
  rewrite unique_by_NoDup in *. rewrite live_register, fmap_app by lia.
  assert (∀ k, (k < Z.to_nat (reg_interface_count r))%nat →
    registered_names r !! k = Some (reg_interface_names r).[0 + Z.of_nat k]) as Hname.
  { intros k Hk. rewrite Z.add_0_l. rewrite <- (registered_name r (Z.of_nat k)) by lia. by rewrite Nat2Z.id. }
  apply NoDup_app. split_and!; [| |done].
  - apply NoDup_alt. intros a b x. rewrite !list_lookup_fmap.
    intros (e1 & Ha & ->)%fmap_Some (e2 & Hb & Heq)%fmap_Some.
    pose proof (lookup_lt_Some _ _ _ Ha) as Hla. pose proof (lookup_lt_Some _ _ _ Hb) as Hlb. rewrite length_new_entries in Hla, Hlb.
    rewrite new_entries_lookup in Ha by done. rewrite new_entries_lookup in Hb by done. simplify_eq.
    eapply (NoDup_lookup (cstr <$> registered_names r)); [done|by rewrite list_lookup_fmap, Hname by done|].
    rewrite list_lookup_fmap, Hname by done. cbn. by rewrite Heq.
  - intros x (e & -> & (k & Hk & ->)%elem_of_new_entries)%list_elem_of_fmap (e' & Heq & (i & Hi & Hue)%elem_of_live)%list_elem_of_fmap.
    assert (isRegistrationColliding s r = true); [|congruence]. apply existsb_exists. exists e'.
    split; [apply list_elem_of_In; by eapply list_elem_of_lookup_2|]. unfold collides. cbn in Hue. rewrite Hue. simpl.
    apply existsb_exists. exists (reg_interface_names r).[0 + Z.of_nat k].
    split; [apply list_elem_of_In; eapply list_elem_of_lookup_2; by apply Hname|]. by apply namesMatch_true.
Qed.

Lemma names_unique_virtual s a n :
  registry_wf s → next_interface_id s + 16 < 4294967296 → names_ok (RAddVirtual a n) → unique_by names_key (entries s) →
  unique_by names_key (entries (InterfaceRegistry_AddVirtual s a n).2).
Proof.
  intros Hwf Hid [Ha Hn] Hu. destruct (add_virtual_spec s a n Hwf Hid) as [->|(k & Hf & Hnone & ->)]; [done|]. cbn [snd entries].
  apply unique_by_insert; [done|]. intros _ j z Hz _ Huz Hk. cbn in Huz.
  assert (names_key (virtual_entry (next_interface_id s) a n InterfaceEntry_zero) = (cstr a, cstr n)) as Hkey.
  { unfold names_key, strlen in *. cbn [virtual_entry ie_agent_name ie_interface_name].
    rewrite !cstr_BoundedString_Copy by (cbn [InterfaceEntry_zero ie_agent_name ie_interface_name]; rewrite length_replicate; lia).
    cbn [InterfaceEntry_zero ie_agent_name ie_interface_name]. rewrite !length_replicate, !take_ge by lia. done. }
  rewrite Hkey in Hk. unfold InterfaceRegistry_FindByName, find_entry in Hnone.
  destruct (scan _ (entries s)) as [i|] eqn:Hs; simpl in Hnone.
  - apply scan_lt in Hs. apply lookup_ge_None in Hnone. lia.
  - rewrite scan_None in Hs. specialize (Hs j z Hz). rewrite Huz, (proj2 (namesMatch_true z a n)) in Hs; done.
Qed.

(** Names are unique. In every reachable registry no two live interfaces
    have the same (agent name, interface name) pair, provided no single
    registration names an interface twice and virtual names fit their fields. *)
Theorem registry_names_unique (ops : list registry_op) :
  Forall registry_op_ok ops → Forall names_ok ops → zlen ops ≤ 268434000 →
  unique_by names_key (entries (foldl registry_step InterfaceRegistry_Reset ops)).
Proof.
  intros Hops Hnames Hlen.
  assert (∀ s, registry_wf s → unique_by names_key (entries s) → next_interface_id s + 16 * zlen ops < 4294967296 - 16 →
    unique_by names_key (entries (foldl registry_step s ops))) as Hrun.
  { clear Hlen. induction Hops as [|op ops Hop _ IH]; intros s Hwf Hu Hid; cbn [foldl]; [done|].
    apply Forall_cons in Hnames as [Hn Hnames].
    assert (zlen (op :: ops) = zlen ops + 1) as Hz by (unfold zlen; simpl; lia). rewrite Hz in Hid.
    assert (0 ≤ zlen ops) by (unfold zlen; lia).
    destruct (registry_step_spec s op Hwf Hop ltac:(lia)) as (Hwf1 & Hn1 & _). apply IH; [done|done| |lia].
    pose proof (registry_evolves s op Hwf Hop) as Hev.
    destruct op as [p r| |a n| | | | | | | ]; cbn [registry_step] in *;
      [destruct Hop; apply names_unique_register; (done || lia)| |apply names_unique_virtual; (done || lia)|..];
      destruct Hev as [Hev _]; intros i j x y Hx Hy Hux Huy Hk;
      destruct (evolved_back s _ i x Hev Hx Hux) as (x0 & Hx0 & Hux0 & Hix);
      destruct (evolved_back s _ j y Hev Hy Huy) as (y0 & Hy0 & Huy0 & Hiy);
      eapply (Hu i j x0 y0 Hx0 Hy0 Hux0 Huy0); unfold identity, names_key in *; congruence. }
  apply Hrun; [apply registry_wf_reset|exact (unique_by_replicate _ 256)|cbn; lia].
Qed.

Lemma registry_names_unique_witness :
  unique_by names_key (entries (foldl registry_step InterfaceRegistry_Reset
    [RRegister 5 reg_abc; RAddVirtual [103; 0] [108; 0]; RRegister 6 reg_abc])).
Proof.
  apply registry_names_unique; [each_elem ltac:(done || (split; [done|lia]))| |unfold zlen; simpl; lia].
  each_elem ltac:(split; [done|apply NoDup_singleton] || (unfold strlen; simpl; lia)).
Defined.

(** The catalogue accepts an agent that names one interface twice: two
    live entries then answer to the same (agent, interface) pair, and the
    lookup by name only ever finds the first. *)
Theorem registration_accepts_duplicate_names :
  let r := {| reg_agent_name := [97; 0]; reg_interface_count := 2; reg_interface_names := replicate 16 [99; 48; 0];
              reg_fd_reported := false; reg_fd_interfaces := 0 |} in
  let '(ok, s, _) := InterfaceRegistry_RegisterAgent InterfaceRegistry_Reset 5 r in
  ok = true ∧ ¬ unique_by names_key (entries s) ∧
  ie_interface_id <$> InterfaceRegistry_FindByName s [97; 0] [99; 48; 0] = Some 1 ∧
  ie_interface_id <$> InterfaceRegistry_FindByAgentChannel s 5 1 = Some 2.
Proof.
  intros r. destruct (InterfaceRegistry_RegisterAgent InterfaceRegistry_Reset 5 r) as [[ok s] ack] eqn:Hr.
  vm_compute in Hr. injection Hr as <- <- _. split_and!; [done| |by vm_compute..].
  intros Hu. by pose proof (Hu 0%nat 1%nat _ _ eq_refl eq_refl eq_refl eq_refl eq_refl).
Qed.
