(* ===== verification/BridgeRoutes.v ===== *)
(** * Bus-to-bus routes (src/hub/domain/bridge_routes.c)

    A route copies the frames captured on one named interface into another;
    it is keyed by its two endpoints, and setting it again replaces its
    filters. *)

From S2P Require Import Prelude Slots CString RegisterMessage SubscribeMessage FrameMessage.

Notation BRIDGE_ROUTES_MAX := 64%nat (only parsing).
Notation BRIDGE_FILTERS_MAX := 16%nat (only parsing).

Record BridgeEndpoint := { ep_agent_name : list Z; ep_interface_name : list Z }.

Definition BridgeEndpoint_zero : BridgeEndpoint :=
  {| ep_agent_name := replicate REGISTER_AGENT_NAME_SIZE 0; ep_interface_name := replicate REGISTER_INTERFACE_NAME_SIZE 0 |}.

Record BridgeRoute := {
  br_source : BridgeEndpoint;
  br_destination : BridgeEndpoint;
  br_filter_count : Z;
  br_filters : list CanFilter;
}.

Record BridgeRouteSlot := {
  rs_in_use : bool;
  rs_route : BridgeRoute;
  rs_forwarded : Z;
  rs_dropped : Z;
}.

Definition BridgeRouteSlot_zero : BridgeRouteSlot := {|
  rs_in_use := false;
  rs_route := {| br_source := BridgeEndpoint_zero; br_destination := BridgeEndpoint_zero; br_filter_count := 0;
                 br_filters := replicate BRIDGE_FILTERS_MAX CanFilter_zero |};
  rs_forwarded := 0; rs_dropped := 0 |}.

#[export] Instance BridgeRouteSlot_slot : Slot BridgeRouteSlot :=
  {| slot_in_use := rs_in_use; slot_zero := BridgeRouteSlot_zero; slot_zero_free := eq_refl |}.

Record BridgeRoutes := { route_slots : list BridgeRouteSlot; route_count : Z }.

(** ** Filters and endpoints *)

Definition bridge_filter_matches (can_id : Z) (f : CanFilter) : bool :=
  Z.land can_id (filter_can_mask f) =? Z.land (filter_can_id f) (filter_can_mask f).

Definition BridgeFilters_Pass (filters : list CanFilter) (filter_count can_id : Z) : bool :=
  if negb (Z.land can_id FRAME_CAN_ID_FLAG_ERR =? 0) then false
  else if filter_count =? 0 then true
  else existsb (bridge_filter_matches can_id) (take (Z.to_nat filter_count) filters).

Definition BridgeEndpoint_IsNamed (self : BridgeEndpoint) : bool :=
  is_named (ep_agent_name self) && is_named (ep_interface_name self).

Definition BridgeEndpoint_Names (self : BridgeEndpoint) (agent_name interface_name : list Z) : bool :=
  streq (ep_agent_name self) agent_name && streq (ep_interface_name self) interface_name.

Definition BridgeEndpoint_Equals (self other : BridgeEndpoint) : bool :=
  BridgeEndpoint_Names self (ep_agent_name other) (ep_interface_name other).

Definition BridgeRoute_IsValid (route : BridgeRoute) : bool :=
  if negb (BridgeEndpoint_IsNamed (br_source route)) || negb (BridgeEndpoint_IsNamed (br_destination route)) then false
  else if BridgeEndpoint_Equals (br_source route) (br_destination route) then false
  else br_filter_count route <=? Z.of_nat BRIDGE_FILTERS_MAX.

Definition BridgeRoute_Passes (route : BridgeRoute) (can_id : Z) : bool :=
  BridgeFilters_Pass (br_filters route) (br_filter_count route) can_id.

(** ** The table *)

Definition BridgeRoutes_Reset : BridgeRoutes :=
  {| route_slots := replicate BRIDGE_ROUTES_MAX BridgeRouteSlot_zero; route_count := 0 |}.

Definition connects (source destination : BridgeEndpoint) (s : BridgeRouteSlot) : bool :=
  rs_in_use s && BridgeEndpoint_Equals (br_source (rs_route s)) source &&
  BridgeEndpoint_Equals (br_destination (rs_route s)) destination.

Definition route_findIndex (self : BridgeRoutes) (source destination : BridgeEndpoint) : option nat :=
  scan (connects source destination) (route_slots self).

Definition route_freeIndex (self : BridgeRoutes) : option nat := free_slot (route_slots self).

(** The slot the set writes, and whether it was free. *)
Definition set_route (route : BridgeRoute) (s : BridgeRouteSlot) : BridgeRouteSlot :=
  let s := if rs_in_use s then s else
    {| rs_in_use := true; rs_route := rs_route BridgeRouteSlot_zero; rs_forwarded := 0; rs_dropped := 0 |} in
  {| rs_in_use := rs_in_use s; rs_route := route; rs_forwarded := rs_forwarded s; rs_dropped := rs_dropped s |}.

Definition BridgeRoutes_Set (self : BridgeRoutes) (route : BridgeRoute) : bool * BridgeRoutes :=
  if negb (BridgeRoute_IsValid route) then (false, self)
  else
    let index := match route_findIndex self (br_source route) (br_destination route) with
                 | Some i => Some i
                 | None => route_freeIndex self
                 end in
    match index with
    | None => (false, self)
    | Some i =>
        let claimed := negb (rs_in_use (route_slots self !!! i)) in
        (true, {| route_slots := alter (set_route route) i (route_slots self);
                  route_count := if claimed then u8 (route_count self + 1) else route_count self |})
    end.

Definition BridgeRoutes_Remove (self : BridgeRoutes) (source destination : BridgeEndpoint) : bool * BridgeRoutes :=
  match route_findIndex self source destination with
  | None => (false, self)
  | Some i => (true, {| route_slots := <[i := BridgeRouteSlot_zero]> (route_slots self); route_count := u8 (route_count self - 1) |})
  end.

Definition BridgeRoutes_Find (self : BridgeRoutes) (source destination : BridgeEndpoint) : option BridgeRouteSlot :=
  i ← route_findIndex self source destination; route_slots self !! i.

Definition BridgeRoutes_IsEmpty (self : BridgeRoutes) : bool := route_count self =? 0.

Definition BridgeRoutes_HasRoom (self : BridgeRoutes) (route : BridgeRoute) : bool :=
  match route_findIndex self (br_source route) (br_destination route) with
  | Some _ => true
  | None => match route_freeIndex self with Some _ => true | None => false end
  end.

Definition BridgeRoutes_Slot (self : BridgeRoutes) (slot_index : nat) : option BridgeRouteSlot :=
  if Nat.leb BRIDGE_ROUTES_MAX slot_index then None
  else s ← route_slots self !! slot_index; if rs_in_use s then Some s else None.

(** The live slot at a position, counting live slots only. *)
Fixpoint nth_live {A} `{Slot A} (position : nat) (l : list A) : option A :=
  match l with
  | [] => None
  | x :: l' =>
      if negb (slot_in_use x) then nth_live position l'
      else match position with O => Some x | S p => nth_live p l' end
  end.

Definition BridgeRoutes_Nth (self : BridgeRoutes) (position : nat) : option BridgeRouteSlot :=
  nth_live position (route_slots self).

(** ** Lemmas *)

Definition endpoint_key (e : BridgeEndpoint) : list Z * list Z := (cstr (ep_agent_name e), cstr (ep_interface_name e)).
Definition route_key (s : BridgeRouteSlot) := (endpoint_key (br_source (rs_route s)), endpoint_key (br_destination (rs_route s))).

Lemma endpoint_equals_true a b : BridgeEndpoint_Equals a b = true ↔ endpoint_key a = endpoint_key b.
Proof.
  unfold BridgeEndpoint_Equals, BridgeEndpoint_Names, endpoint_key. rewrite andb_true_iff, !streq_true.
  split; [by intros [-> ->]|by intros [= -> ->]].
Qed.

Lemma endpoint_equals_false a b : BridgeEndpoint_Equals a b = false ↔ endpoint_key a ≠ endpoint_key b.
Proof. rewrite <- endpoint_equals_true. by destruct (BridgeEndpoint_Equals a b). Qed.

Lemma connects_true a b s : connects a b s = true ↔ rs_in_use s = true ∧ route_key s = (endpoint_key a, endpoint_key b).
Proof.
  unfold connects, route_key. rewrite !andb_true_iff, !endpoint_equals_true, pair_equal_spec. tauto.
Qed.

(** Filters: an error frame never passes; no filter passes every other frame. *)
Lemma filters_pass_true fs n id :
  BridgeFilters_Pass fs n id = true ↔
    Z.land id FRAME_CAN_ID_FLAG_ERR = 0 ∧
    (n = 0 ∨ ∃ f, f ∈ take (Z.to_nat n) fs ∧ Z.land id (filter_can_mask f) = Z.land (filter_can_id f) (filter_can_mask f)).
Proof.
  unfold BridgeFilters_Pass.
  destruct (Z.eqb_spec (Z.land id FRAME_CAN_ID_FLAG_ERR) 0) as [He|He]; cbn [negb]; [|split; [done|]; by intros [? _]].
  destruct (Z.eqb_spec n 0) as [Hn|Hn]; [split; [|done]; auto|]. rewrite existsb_exists. split.
  - intros (f & Hf%list_elem_of_In & Hm%Z.eqb_eq). split; [done|]. right. by exists f.
  - intros [_ [?|(f & Hf & Hm)]]; [done|]. exists f. split; [by apply list_elem_of_In|]. by apply Z.eqb_eq.
Qed.

Lemma nth_live_live {A} `{Slot A} (l : list A) n : nth_live n l = live l !! n.
Proof.
  unfold live. revert n. induction l as [|x l IH]; intros n; cbn [nth_live List.filter]; [done|].
  destruct (slot_in_use x); cbn [negb]; [|apply IH]. by destruct n.
Qed.

(** ** Invariant: keys are unique, the count is exact, every stored route is valid *)
Record routes_wf (s : BridgeRoutes) : Prop := {
  routes_len : length (route_slots s) = BRIDGE_ROUTES_MAX;
  routes_clean : clean (route_slots s);
  routes_unique : unique_by route_key (route_slots s);
  routes_counted : route_count s = countb rs_in_use (route_slots s);
  routes_valid : ∀ i x, route_slots s !! i = Some x → rs_in_use x = true → BridgeRoute_IsValid (rs_route x) = true;
}.

Lemma routes_wf_reset : routes_wf BridgeRoutes_Reset.
Proof.
  split; cbn [BridgeRoutes_Reset route_slots route_count]; [done|exact (clean_replicate 64)|exact (unique_by_replicate route_key 64)|done|].
  intros i x [-> _]%lookup_replicate. done.
Qed.

Lemma route_found s x i :
  routes_wf s → route_slots s !! i = Some x → rs_in_use x = true →
  route_findIndex s (br_source (rs_route x)) (br_destination (rs_route x)) = Some i.
Proof.
  intros Hwf Hx Hu. unfold route_findIndex. apply (unique_by_scan route_key _ _ x); [apply Hwf|done|done|by apply connects_true|].
  intros y Hy. by apply connects_true in Hy.
Qed.

Lemma routes_count_le s : routes_wf s → 0 ≤ route_count s ≤ 64.
Proof.
  intros Hwf. rewrite (routes_counted _ Hwf). pose proof (countb_bounds rs_in_use (route_slots s)) as Hb.
  unfold zlen in Hb. rewrite (routes_len _ Hwf) in Hb. lia.
Qed.

(** What a set does: replace the route of that key, or claim the first free slot. *)
Lemma set_cases s r :
  routes_wf s →
  (BridgeRoutes_Set s r = (false, s) ∧ (BridgeRoute_IsValid r = false ∨ BridgeRoutes_HasRoom s r = false)) ∨
  (∃ i x, BridgeRoute_IsValid r = true ∧ BridgeRoutes_HasRoom s r = true ∧ route_slots s !! i = Some x ∧
     (rs_in_use x = true ∧ route_key x = (endpoint_key (br_source r), endpoint_key (br_destination r)) ∨
      x = BridgeRouteSlot_zero ∧ route_findIndex s (br_source r) (br_destination r) = None) ∧
     BridgeRoutes_Set s r = (true, {| route_slots := <[i := {| rs_in_use := true; rs_route := r; rs_forwarded := rs_forwarded x; rs_dropped := rs_dropped x |}]> (route_slots s);
       route_count := if rs_in_use x then route_count s else route_count s + 1 |})).
Proof.
  intros Hwf. unfold BridgeRoutes_Set, BridgeRoutes_HasRoom. destruct (BridgeRoute_IsValid r) eqn:Hv; cbn [negb]; [|left; auto].
  destruct (route_findIndex s (br_source r) (br_destination r)) as [i|] eqn:Hf.
  - right. pose proof Hf as (x & Hx & [Hu Hk]%connects_true)%scan_hit. exists i, x. split_and!; [done..|by left|].
    rewrite (list_lookup_total_correct _ _ _ Hx), Hu, (alter_insert_at _ _ _ _ Hx). unfold set_route. rewrite Hu. cbn. by rewrite Hu.
  - destruct (route_freeIndex s) as [i|] eqn:Hfree; [right|left; auto].
    pose proof (free_slot_clean _ _ (routes_clean _ Hwf) Hfree) as Hx. exists i, BridgeRouteSlot_zero.
    split_and!; [done..|by right|]. rewrite (list_lookup_total_correct _ _ _ Hx), (alter_insert_at _ _ _ _ Hx). cbn [rs_in_use BridgeRouteSlot_zero negb slot_zero BridgeRouteSlot_slot].
    pose proof (routes_count_le s Hwf). by rewrite u8_id by lia.
Qed.

Lemma routes_wf_set s r : routes_wf s → routes_wf (BridgeRoutes_Set s r).2.
Proof.
  intros Hwf. destruct (set_cases s r Hwf) as [[-> _]|(i & x & Hv & _ & Hx & Hcase & ->)]; [done|]. cbn [snd].
  destruct Hwf as [Hl Hc Hu Hn Hok]. split; cbn [route_slots route_count].
  - by rewrite length_insert.
  - by apply (clean_insert (A := BridgeRouteSlot)).
  - apply unique_by_insert; [done|]. intros _ j z Hz Hne Huz Hk.
    assert (route_key z = (endpoint_key (br_source r), endpoint_key (br_destination r))) as Hkz by done.
    destruct Hcase as [[Hux Hkx]|[-> Hnone]].
    + apply Hne. eapply Hu; [exact Hz|exact Hx|done|done|congruence].
    + unfold route_findIndex in Hnone. rewrite scan_None in Hnone. specialize (Hnone j z Hz).
      rewrite (proj2 (connects_true _ _ z)) in Hnone; done.
  - rewrite (countb_insert _ _ _ x) by done. rewrite Hn. destruct Hcase as [[-> _]|[-> _]]; simpl; lia.
  - intros j y [(<- & <- & _)|(_ & Hy)]%list_lookup_insert_Some Huy; [done|]. by eapply Hok.
Qed.

Lemma routes_wf_remove s a b : routes_wf s → routes_wf (BridgeRoutes_Remove s a b).2.
Proof.
  intros Hwf. pose proof (routes_count_le s Hwf) as Hle. unfold BridgeRoutes_Remove.
  destruct (route_findIndex s a b) as [i|] eqn:Hf; [|done]. cbn [snd].
  apply scan_hit in Hf as (x & Hx & [Hu _]%connects_true). destruct Hwf as [Hl Hc Hun Hn Hok].
  assert (0 < countb rs_in_use (route_slots s)) as Hpos.
  { pose proof (countb_bounds rs_in_use (route_slots s)).
    destruct (decide (countb rs_in_use (route_slots s) = 0)) as [Hz|]; [|lia].
    rewrite countb_zero in Hz. rewrite (Hz _ _ Hx) in Hu. done. }
  split; cbn [route_slots route_count].
  - by rewrite length_insert.
  - by apply (clean_insert (A := BridgeRouteSlot)).
  - exact (unique_by_release route_key _ i Hun).
  - rewrite (countb_insert _ _ _ x) by done. rewrite u8_id by lia. rewrite Hn, Hu. simpl. lia.
  - intros j y [(<- & <- & _)|(_ & Hy)]%list_lookup_insert_Some Huy; [done|]. by eapply Hok.
Qed.

(** ** Sequences of operations, and the map they implement *)
Inductive route_op := RtSet (r : BridgeRoute) | RtRemove (source destination : BridgeEndpoint).

Definition route_step (s : BridgeRoutes) (op : route_op) : BridgeRoutes :=
  match op with
  | RtSet r => (BridgeRoutes_Set s r).2
  | RtRemove a b => (BridgeRoutes_Remove s a b).2
  end.

Lemma routes_wf_run ops : routes_wf (foldl route_step BridgeRoutes_Reset ops).
Proof.
  assert (∀ s, routes_wf s → routes_wf (foldl route_step s ops)) as H; [|apply H, routes_wf_reset].
  induction ops as [|[r|a b] ops IH]; intros s Hwf; simpl; [done|..]; apply IH; [by apply routes_wf_set|by apply routes_wf_remove].
Qed.

(** A lookup sees exactly the live slot of the key. *)
Lemma find_route_spec s a b x :
  routes_wf s →
  BridgeRoutes_Find s a b = Some x ↔
    x ∈ live (route_slots s) ∧ route_key x = (endpoint_key a, endpoint_key b).
Proof.
  intros Hwf. unfold BridgeRoutes_Find. split.
  - intros (i & (y & Hy & [Hu Hk]%connects_true)%scan_hit & Hx)%bind_Some. simplify_eq. split; [|done].
    apply elem_of_live. by exists i.
  - intros [(i & Hi & Hu)%elem_of_live Hk]. unfold route_findIndex.
    rewrite (unique_by_scan route_key _ i x); [done|apply Hwf|done|done|by apply connects_true|].
    intros y Hy. apply connects_true in Hy as [? ?]. split; [done|congruence].
Qed.


Lemma find_route_ext s s' a b :
  routes_wf s → routes_wf s' →
  (∀ x, route_key x = (endpoint_key a, endpoint_key b) → x ∈ live (route_slots s') ↔ x ∈ live (route_slots s)) →
  BridgeRoutes_Find s' a b = BridgeRoutes_Find s a b.
Proof.
  intros Hwf Hwf' Hext. apply option_eq. intros x. rewrite !find_route_spec by done.
  split; intros [Hx Hk]; (split; [|done]); by apply Hext.
Qed.

Lemma find_route_None s a b :
  routes_wf s → BridgeRoutes_Find s a b = None ↔ ∀ x, x ∈ live (route_slots s) → route_key x ≠ (endpoint_key a, endpoint_key b).
Proof.
  intros Hwf. split.
  - intros Hn x Hx Hk. rewrite (proj2 (find_route_spec s a b x Hwf)) in Hn; done.
  - intros Hall. destruct (BridgeRoutes_Find s a b) as [x|] eqn:Hf; [|done].
    apply find_route_spec in Hf as [Hx Hk]; [|done]. by destruct (Hall x Hx).
Qed.

Lemma routes_has_room s r :
  routes_wf s → BridgeRoutes_HasRoom s r = true ↔
    is_Some (BridgeRoutes_Find s (br_source r) (br_destination r)) ∨ zlen (live (route_slots s)) < 64.
Proof.
  intros Hwf. unfold BridgeRoutes_HasRoom, BridgeRoutes_Find.
  destruct (route_findIndex s (br_source r) (br_destination r)) as [i|] eqn:Hf; cbn.
  { pose proof Hf as (x & Hx & _)%scan_hit. rewrite Hx. split; [by left; eexists|done]. }
  unfold zlen. rewrite live_length. unfold route_freeIndex.
  destruct (free_slot (route_slots s)) as [i|] eqn:Hfree.
  - split; [intros _; right|done]. apply free_slot_Some in Hfree as (x & Hx & Hu).
    pose proof (countb_bounds slot_in_use (route_slots s)) as Hb. unfold zlen in Hb. rewrite (routes_len _ Hwf) in Hb.
    destruct (decide (countb slot_in_use (route_slots s) = 64)) as [He|]; [|lia].
    assert (countb slot_in_use (route_slots s) = zlen (route_slots s)) as Hfull by (unfold zlen; rewrite (routes_len _ Hwf); lia).
    rewrite countb_full in Hfull. specialize (Hfull i x Hx). congruence.
  - split; [done|]. intros [[? ?]|Hlt]; [done|]. apply vacancies_None in Hfree. unfold vacancies, zlen in Hfree.
    rewrite (routes_len _ Hwf) in Hfree. lia.
Qed.

(** The route table is a map keyed by its endpoints. In every reachable
    table, setting a route is refused only for an invalid route or a full table;
    once set, that route is what its endpoints look up; every other pair of
    endpoints keeps its route; and the count is the number of routes. *)
Theorem bridge_routes_set (ops : list route_op) (r : BridgeRoute) :
  let s := foldl route_step BridgeRoutes_Reset ops in
  let '(stored, s') := BridgeRoutes_Set s r in
  route_count s' = zlen (live (route_slots s')) ∧
  (stored = true ↔ BridgeRoute_IsValid r = true ∧
     (is_Some (BridgeRoutes_Find s (br_source r) (br_destination r)) ∨ zlen (live (route_slots s)) < 64)) ∧
  (stored = true → rs_route <$> BridgeRoutes_Find s' (br_source r) (br_destination r) = Some r) ∧
  (∀ a b, (endpoint_key a, endpoint_key b) ≠ (endpoint_key (br_source r), endpoint_key (br_destination r)) →
     BridgeRoutes_Find s' a b = BridgeRoutes_Find s a b).
Proof.
  intros s. pose proof (routes_wf_run ops) as Hwf. fold s in Hwf. pose proof (routes_wf_set s r Hwf) as Hwf'.
  pose proof (routes_has_room s r Hwf) as Hroom.
  assert (∀ s, routes_wf s → route_count s = zlen (live (route_slots s))) as Hcount.
  { intros t Ht. rewrite (routes_counted _ Ht). unfold zlen. by rewrite live_length. }
  destruct (set_cases s r Hwf) as [[-> Hwhy]|(i & x & Hv & Hr & Hx & Hcase & Hset)].
  - split_and!; [by apply Hcount| |done|done]. split; [done|]. intros [Hv Hr%Hroom]. by destruct Hwhy; congruence.
  - rewrite Hset in *. cbn [snd] in Hwf'. set (y := {| rs_in_use := true; rs_route := r; rs_forwarded := _; rs_dropped := _ |}) in *.
    split_and!; [by apply Hcount|by split; [intros _; split; [|apply Hroom]|]| |].
    + intros _. rewrite (proj2 (find_route_spec _ _ _ y Hwf')); [done|]. split; [|done].
      apply elem_of_live. exists i. split; [|done]. apply list_lookup_insert_eq. by eapply lookup_lt_Some.
    + intros a b Hne. apply find_route_ext; [done..|]. intros z Hz. apply (live_insert_key route_key _ _ x); [done|..].
      * intros _. change (route_key y) with (endpoint_key (br_source r), endpoint_key (br_destination r)). congruence.
      * intros Hux. destruct Hcase as [[_ Hk]|[-> _]]; [congruence|done].
Qed.

(** Removing a route removes that one only. The removal succeeds exactly
    when the endpoints have a route; afterwards they have none, every other
    pair of endpoints keeps its own, and the count is one less. *)
Theorem bridge_routes_remove (ops : list route_op) (a b : BridgeEndpoint) :
  let s := foldl route_step BridgeRoutes_Reset ops in
  let '(removed, s') := BridgeRoutes_Remove s a b in
  (removed = true ↔ is_Some (BridgeRoutes_Find s a b)) ∧
  BridgeRoutes_Find s' a b = None ∧
  (removed = true → route_count s' = route_count s - 1) ∧
  (∀ c d, (endpoint_key c, endpoint_key d) ≠ (endpoint_key a, endpoint_key b) → BridgeRoutes_Find s' c d = BridgeRoutes_Find s c d).
Proof.
  intros s. pose proof (routes_wf_run ops) as Hwf. fold s in Hwf. pose proof (routes_wf_remove s a b Hwf) as Hwf'.
  unfold BridgeRoutes_Remove in *. destruct (route_findIndex s a b) as [i|] eqn:Hf; cbn [snd] in Hwf'.
  - pose proof Hf as (x & Hx & [Hu Hk]%connects_true)%scan_hit.
    assert (∀ z, z ∈ live (<[i := BridgeRouteSlot_zero]> (route_slots s)) → route_key z ≠ (endpoint_key a, endpoint_key b)) as Hgone.
    { intros z (j & [(<- & <- & _)|(Hne & Hz)]%list_lookup_insert_Some & Huz)%elem_of_live Hkz; [done|].
      apply Hne. by eapply (routes_unique _ Hwf i j x z); [..|congruence]. }
    split_and!.
    + split; [intros _|done]. unfold BridgeRoutes_Find. rewrite Hf. cbn. by rewrite Hx.
    + by apply find_route_None.
    + intros _. rewrite (routes_counted _ Hwf'), (routes_counted _ Hwf). cbn [route_slots].
      rewrite (countb_insert _ _ _ x) by done. rewrite Hu. simpl. lia.
    + intros c d Hne. apply find_route_ext; [done..|]. intros z Hz. apply (live_insert_key route_key _ _ x); [done|done|].
      intros _. congruence.
  - assert (BridgeRoutes_Find s a b = None) as Hnone by (unfold BridgeRoutes_Find; by rewrite Hf).
    split_and!; [|done|done|done]. split; [done|]. rewrite Hnone. by intros [? ?].
Qed.
