(* ===== verification/BridgeGroups.v ===== *)
(** * Bridge groups (src/hub/domain/bridge_groups.c)

    Buses that behave as one: a frame captured on a sending member that passes
    the member's and the group's filters is injected into every other receiving
    member.  Groups are named; their members are named interfaces. *)

From S2P Require Import Prelude Slots CString RegisterMessage SubscribeMessage FrameMessage BridgeRoutes.

Notation BRIDGE_GROUPS_MAX := 16%nat (only parsing).
Notation BRIDGE_GROUP_MEMBERS_MAX := 16%nat (only parsing).
Notation BRIDGE_GROUP_NAME_SIZE := 16%nat (only parsing).
Notation BRIDGE_MEMBER_FILTERS_MAX := 8%nat (only parsing).

Definition kBRIDGE_MEMBER_BOTH : Z := 0.
Definition kBRIDGE_MEMBER_SENDS : Z := 1.
Definition kBRIDGE_MEMBER_RECEIVES : Z := 2.
Definition kBRIDGE_MEMBER_MAX : Z := 3.

Inductive TBRIDGE_GROUP_JOIN := kBRIDGE_GROUP_JOIN_OK | kBRIDGE_GROUP_JOIN_UNKNOWN | kBRIDGE_GROUP_JOIN_FULL.

Record BridgeGroupMember := {
  gm_endpoint : BridgeEndpoint;
  gm_direction : Z;
  gm_filter_count : Z;
  gm_filters : list CanFilter;
}.

Definition BridgeGroupMember_zero : BridgeGroupMember := {|
  gm_endpoint := BridgeEndpoint_zero; gm_direction := 0; gm_filter_count := 0;
  gm_filters := replicate BRIDGE_MEMBER_FILTERS_MAX CanFilter_zero |}.
#[export] Instance BridgeGroupMember_inhabited : Inhabited BridgeGroupMember := populate BridgeGroupMember_zero.

Record BridgeGroup := {
  bg_name : list Z;
  bg_filter_count : Z;
  bg_filters : list CanFilter;
  bg_member_count : Z;
  bg_members : list BridgeGroupMember;
}.

Definition BridgeGroup_zero : BridgeGroup := {|
  bg_name := replicate BRIDGE_GROUP_NAME_SIZE 0; bg_filter_count := 0;
  bg_filters := replicate BRIDGE_FILTERS_MAX CanFilter_zero; bg_member_count := 0;
  bg_members := replicate BRIDGE_GROUP_MEMBERS_MAX BridgeGroupMember_zero |}.

Record BridgeGroupSlot := {
  gs_in_use : bool;
  gs_group : BridgeGroup;
  gs_forwarded : Z;
  gs_dropped : Z;
}.

Definition BridgeGroupSlot_zero : BridgeGroupSlot :=
  {| gs_in_use := false; gs_group := BridgeGroup_zero; gs_forwarded := 0; gs_dropped := 0 |}.

#[export] Instance BridgeGroupSlot_slot : Slot BridgeGroupSlot :=
  {| slot_in_use := gs_in_use; slot_zero := BridgeGroupSlot_zero; slot_zero_free := eq_refl |}.

Record BridgeGroups := { group_slots : list BridgeGroupSlot; group_count : Z }.

(** ** Names *)

Definition isNameCharacter (c : Z) : bool :=
  ((97 <=? c) && (c <=? 122)) || ((65 <=? c) && (c <=? 90)) || ((48 <=? c) && (c <=? 57)) ||
  ((c =? 46) || (c =? 95) || (c =? 45)).

(** The loop over the name's first 16 bytes; reading past the string's end is not reached. *)
Fixpoint name_valid_from (n : nat) (name : list Z) : bool :=
  match n, name with
  | O, _ => false
  | S _, [] => false
  | S n', c :: name' => if c =? 0 then true else if negb (isNameCharacter c) then false else name_valid_from n' name'
  end.

Definition BridgeGroup_IsNameValid (name : list Z) : bool :=
  if negb (is_named name) then false else name_valid_from BRIDGE_GROUP_NAME_SIZE name.

(** ** Members *)

(** The members the count covers. *)
Definition members_of (group : BridgeGroup) : list BridgeGroupMember := take (Z.to_nat (bg_member_count group)) (bg_members group).

Definition memberIndex (group : BridgeGroup) (member : BridgeEndpoint) : option nat :=
  scan (λ m, BridgeEndpoint_Equals (gm_endpoint m) member) (members_of group).

Definition BridgeGroup_HasMember (group : BridgeGroup) (member : BridgeEndpoint) : bool :=
  match memberIndex group member with Some _ => true | None => false end.

Definition BridgeGroup_Carries (group : BridgeGroup) (source : BridgeEndpoint) (can_id : Z) : bool :=
  match memberIndex group source with
  | None => false
  | Some index =>
      let member := bg_members group !!! index in
      if gm_direction member =? kBRIDGE_MEMBER_RECEIVES then false
      else if negb (BridgeFilters_Pass (gm_filters member) (gm_filter_count member) can_id) then false
      else BridgeFilters_Pass (bg_filters group) (bg_filter_count group) can_id
  end.

Definition BridgeGroupMember_IsValid (member : BridgeGroupMember) : bool :=
  if negb (BridgeEndpoint_IsNamed (gm_endpoint member)) then false
  else (gm_direction member <? kBRIDGE_MEMBER_MAX) && (gm_filter_count member <=? Z.of_nat BRIDGE_MEMBER_FILTERS_MAX).

Definition BridgeGroupMember_Receives (member : BridgeGroupMember) : bool :=
  negb (gm_direction member =? kBRIDGE_MEMBER_SENDS).

(** ** The table *)

Definition BridgeGroups_Reset : BridgeGroups :=
  {| group_slots := replicate BRIDGE_GROUPS_MAX BridgeGroupSlot_zero; group_count := 0 |}.

Definition BridgeGroups_IsEmpty (self : BridgeGroups) : bool := group_count self =? 0.

Definition named (name : list Z) (s : BridgeGroupSlot) : bool := gs_in_use s && streq (bg_name (gs_group s)) name.

Definition group_findIndex (self : BridgeGroups) (name : list Z) : option nat := scan (named name) (group_slots self).

Definition group_freeIndex (self : BridgeGroups) : option nat := free_slot (group_slots self).

Definition BridgeGroups_HasRoom (self : BridgeGroups) (name : list Z) : bool :=
  match group_findIndex self name with
  | Some _ => true
  | None => match group_freeIndex self with Some _ => true | None => false end
  end.

Definition with_members (g : BridgeGroup) (count : Z) (ms : list BridgeGroupMember) : BridgeGroup :=
  {| bg_name := bg_name g; bg_filter_count := bg_filter_count g; bg_filters := bg_filters g;
     bg_member_count := count; bg_members := ms |}.
Definition with_group (s : BridgeGroupSlot) (g : BridgeGroup) : BridgeGroupSlot :=
  {| gs_in_use := gs_in_use s; gs_group := g; gs_forwarded := gs_forwarded s; gs_dropped := gs_dropped s |}.

(** What the set writes into its slot: a fresh group when the slot was free, then the filters. *)
Definition set_group (name : list Z) (filter_count : Z) (filters : list CanFilter) (s : BridgeGroupSlot) : BridgeGroupSlot :=
  let s := if gs_in_use s then s else
    {| gs_in_use := true;
       gs_group := {| bg_name := list_inserts 0 (cstr name) (bg_name BridgeGroup_zero); bg_filter_count := 0;
                      bg_filters := bg_filters BridgeGroup_zero; bg_member_count := 0; bg_members := bg_members BridgeGroup_zero |};
       gs_forwarded := 0; gs_dropped := 0 |} in
  let g := gs_group s in
  with_group s {| bg_name := bg_name g; bg_filter_count := filter_count;
    bg_filters := list_inserts 0 (take (Z.to_nat filter_count) filters) (bg_filters g);
    bg_member_count := bg_member_count g; bg_members := bg_members g |}.

Definition BridgeGroups_Set (self : BridgeGroups) (name : list Z) (filter_count : Z) (filters : list CanFilter)
    : bool * BridgeGroups :=
  if negb (BridgeGroup_IsNameValid name) || (filter_count >? Z.of_nat BRIDGE_FILTERS_MAX) then (false, self)
  else
    let index := match group_findIndex self name with Some i => Some i | None => group_freeIndex self end in
    match index with
    | None => (false, self)
    | Some i =>
        let claimed := negb (gs_in_use (group_slots self !!! i)) in
        (true, {| group_slots := alter (set_group name filter_count filters) i (group_slots self);
                  group_count := if claimed then u8 (group_count self + 1) else group_count self |})
    end.

Definition BridgeGroups_Remove (self : BridgeGroups) (name : list Z) : bool * BridgeGroups :=
  match group_findIndex self name with
  | None => (false, self)
  | Some i => (true, {| group_slots := <[i := BridgeGroupSlot_zero]> (group_slots self); group_count := u8 (group_count self - 1) |})
  end.

(** The group after the join, or why there is none. *)
Definition join_group (g : BridgeGroup) (member : BridgeGroupMember) : option BridgeGroup :=
  match memberIndex g (gm_endpoint member) with
  | Some index => Some (with_members g (bg_member_count g) (<[index := member]> (bg_members g)))
  | None =>
      if bg_member_count g =? Z.of_nat BRIDGE_GROUP_MEMBERS_MAX then None
      else Some (with_members g (u8 (bg_member_count g + 1)) (bg_members g).[bg_member_count g := member])
  end.

Definition BridgeGroups_Join (self : BridgeGroups) (name : list Z) (member : BridgeGroupMember) : TBRIDGE_GROUP_JOIN * BridgeGroups :=
  match group_findIndex self name with
  | None => (kBRIDGE_GROUP_JOIN_UNKNOWN, self)
  | Some i =>
      if negb (BridgeGroupMember_IsValid member) then (kBRIDGE_GROUP_JOIN_UNKNOWN, self)
      else
        match join_group (gs_group (group_slots self !!! i)) member with
        | None => (kBRIDGE_GROUP_JOIN_FULL, self)
        | Some g =>
            (kBRIDGE_GROUP_JOIN_OK,
             {| group_slots := alter (λ s, with_group s g) i (group_slots self); group_count := group_count self |})
        end
  end.

(** The last member takes the leaver's place. *)
Definition leave_group (g : BridgeGroup) (index : nat) : BridgeGroup :=
  let count := u8 (bg_member_count g - 1) in
  let ms := <[index := (bg_members g).[count]]> (bg_members g) in
  with_members g count ms.[count := BridgeGroupMember_zero].

Definition BridgeGroups_Leave (self : BridgeGroups) (name : list Z) (member : BridgeEndpoint) : bool * BridgeGroups :=
  match group_findIndex self name with
  | None => (false, self)
  | Some i =>
      let g := gs_group (group_slots self !!! i) in
      match memberIndex g member with
      | None => (false, self)
      | Some index =>
          (true, {| group_slots := alter (λ s, with_group s (leave_group g index)) i (group_slots self); group_count := group_count self |})
      end
  end.

Definition BridgeGroups_Restore (self : BridgeGroups) (group : BridgeGroup) : bool * BridgeGroups :=
  match BridgeGroups_Set self (bg_name group) (bg_filter_count group) (bg_filters group) with
  | (false, self) => (false, self)
  | (true, self) =>
      (true, foldl (λ self m, (BridgeGroups_Join self (bg_name group) m).2) self
               (take BRIDGE_GROUP_MEMBERS_MAX (members_of group)))
  end.

Definition BridgeGroups_Find (self : BridgeGroups) (name : list Z) : option BridgeGroupSlot :=
  i ← group_findIndex self name; group_slots self !! i.

Definition BridgeGroups_Nth (self : BridgeGroups) (position : nat) : option BridgeGroupSlot :=
  nth_live position (group_slots self).

Definition BridgeGroups_Slot (self : BridgeGroups) (slot_index : nat) : option BridgeGroupSlot :=
  if Nat.leb BRIDGE_GROUPS_MAX slot_index then None
  else s ← group_slots self !! slot_index; if gs_in_use s then Some s else None.

(** ** Invariant *)

Definition member_key (m : BridgeGroupMember) : list Z * list Z := endpoint_key (gm_endpoint m).

Record group_ok (g : BridgeGroup) : Prop := {
  g_count : 0 ≤ bg_member_count g ≤ 16;
  g_members : length (bg_members g) = BRIDGE_GROUP_MEMBERS_MAX;
  g_unique : NoDup (member_key <$> members_of g);
  g_named : Forall (λ m, BridgeGroupMember_IsValid m = true) (members_of g);
  g_filters : 0 ≤ bg_filter_count g ≤ 16 ∧ length (bg_filters g) = BRIDGE_FILTERS_MAX;
}.

Definition group_key (s : BridgeGroupSlot) : list Z := cstr (bg_name (gs_group s)).

Record groups_wf (s : BridgeGroups) : Prop := {
  groups_len : length (group_slots s) = BRIDGE_GROUPS_MAX;
  groups_clean : clean (group_slots s);
  groups_unique : unique_by group_key (group_slots s);
  groups_counted : group_count s = countb gs_in_use (group_slots s);
  groups_ok : Forall (λ x, group_ok (gs_group x)) (group_slots s);
}.

(** ** Names *)

Lemma name_valid_from_spec n name :
  name_valid_from n name = true → (strlen name < n)%nat ∧ Forall (λ c, isNameCharacter c = true) (cstr name).
Proof.
  unfold strlen. revert name. induction n as [|n IH]; intros [|c name]; simpl; [done..|].
  destruct (c =? 0); simpl; [intros _; split; [lia|by apply Forall_nil_2]|].
  destruct (isNameCharacter c) eqn:Hc; simpl; [|done]. intros [? ?]%IH. split; [lia|by apply Forall_cons_2].
Qed.

(** A valid name is 1 to 15 characters of [A-Za-z0-9._-]. *)
Lemma name_valid_spec name :
  BridgeGroup_IsNameValid name = true →
  (1 ≤ strlen name ≤ 15)%nat ∧ Forall (λ c, isNameCharacter c = true) (cstr name).
Proof.
  unfold BridgeGroup_IsNameValid. case_tests; [done|]. intros [Hl Hf]%name_valid_from_spec.
  apply is_named_cstr in Heqb. unfold strlen in *. split; [|done]. destruct (cstr name); simpl in *; [done|lia].
Qed.

Lemma cstr_set_name name :
  BridgeGroup_IsNameValid name = true → cstr (list_inserts 0 (cstr name) (bg_name BridgeGroup_zero)) = cstr name.
Proof.
  intros [Hl _]%name_valid_spec. unfold strlen in Hl.
  assert (list_inserts 0 (cstr name) (bg_name BridgeGroup_zero) = cstr name ++ 0 :: replicate (15 - length (cstr name)) 0) as ->.
  { apply list_eq. intros i. cbn [BridgeGroup_zero bg_name]. destruct (decide (i < length (cstr name))%nat).
    - rewrite list_lookup_inserts by (rewrite ?length_replicate; lia). by rewrite Nat.sub_0_r, lookup_app_l by lia.
    - rewrite list_lookup_inserts_ge by lia. rewrite lookup_app_r by lia.
      replace (0 :: replicate (15 - length (cstr name)) 0) with (replicate (S (15 - length (cstr name))) 0) by done.
      destruct (decide (i < 16)%nat); [rewrite !lookup_replicate_2 by lia; done|].
      rewrite !lookup_ge_None_2; [done|rewrite length_replicate; lia..]. }
  apply cstr_app_nul, cstr_no_nul.
Qed.

(** ** Groups *)

Lemma length_members g : group_ok g → Z.of_nat (length (members_of g)) = bg_member_count g.
Proof. intros []. unfold members_of. rewrite length_take. lia. Qed.

Lemma memberIndex_Some g e i :
  memberIndex g e = Some i → ∃ m, members_of g !! i = Some m ∧ member_key m = endpoint_key e.
Proof. intros (m & Hm & Hk%endpoint_equals_true)%scan_hit. by exists m. Qed.

Lemma memberIndex_None g e : memberIndex g e = None ↔ endpoint_key e ∉ (member_key <$> members_of g).
Proof.
  unfold memberIndex. rewrite scan_None. split.
  - intros Hall (m & Hk & (i & Hi)%list_elem_of_lookup)%list_elem_of_fmap. specialize (Hall i m Hi). cbv beta in Hall.
    rewrite endpoint_equals_false in Hall. by apply Hall.
  - intros Hn i m Hm. apply endpoint_equals_false. intros Hk. apply Hn. apply list_elem_of_fmap. exists m.
    split; [done|]. by eapply list_elem_of_lookup_2.
Qed.

Lemma has_member_true g e : BridgeGroup_HasMember g e = true ↔ endpoint_key e ∈ (member_key <$> members_of g).
Proof.
  unfold BridgeGroup_HasMember. pose proof (memberIndex_None g e) as Hn. destruct (memberIndex g e) as [i|] eqn:Hi.
  - split; [intros _|done]. apply memberIndex_Some in Hi as (m & Hm & <-). apply list_elem_of_fmap. exists m.
    split; [done|]. by eapply list_elem_of_lookup_2.
  - split; [done|]. intros Hin. by apply (proj1 Hn eq_refl) in Hin.
Qed.

(** Joining replaces the member of that interface, or appends it. *)
Lemma join_members g m g' :
  group_ok g → join_group g m = Some g' →
  members_of g' = match memberIndex g (gm_endpoint m) with
                  | Some i => <[i := m]> (members_of g)
                  | None => members_of g ++ [m]
                  end.
Proof.
  intros Hg. pose proof (length_members g Hg) as Hlen. destruct Hg as [Hc Hl _ _ _]. unfold join_group.
  destruct (memberIndex g (gm_endpoint m)) as [i|] eqn:Hi.
  - intros [= <-]. unfold members_of. cbn [with_members bg_members bg_member_count].
    apply scan_lt in Hi. apply take_insert_lt. unfold members_of in Hi. rewrite length_take in Hi. lia.
  - case_tests; [done|]. intros [= <-]. unfold members_of. cbn [with_members bg_members bg_member_count].
    rewrite u8_id by lia. unfold zset. replace (Z.to_nat (bg_member_count g + 1)) with (S (Z.to_nat (bg_member_count g))) by lia.
    rewrite (take_S_r _ _ m); [|apply list_lookup_insert_eq; lia]. f_equal. apply take_insert_ge. lia.
Qed.

Lemma join_ok g m g' : group_ok g → BridgeGroupMember_IsValid m = true → join_group g m = Some g' → group_ok g'.
Proof.
  intros Hg Hv Hj. pose proof (join_members g m g' Hg Hj) as Hm. pose proof (length_members g Hg) as Hlen.
  destruct Hg as [Hc Hl Hu Hn Hf]. unfold join_group in Hj. destruct (memberIndex g (gm_endpoint m)) as [i|] eqn:Hi.
  - injection Hj as <-. apply memberIndex_Some in Hi as (x & Hx & Hk). split; [done|cbn; by rewrite length_insert| | |done]; rewrite Hm.
    + rewrite list_fmap_insert. rewrite list_insert_id; [done|]. rewrite list_lookup_fmap, Hx. cbn. by f_equal.
    + by apply Forall_insert.
  - destruct (bg_member_count g =? Z.of_nat 16) eqn:Hfull; [done|]. bool_to_prop. injection Hj as <-. apply memberIndex_None in Hi.
    split; [cbn; rewrite u8_id; lia|cbn; by rewrite length_zset| | |done]; rewrite Hm.
    + rewrite fmap_app. apply NoDup_app. split_and!; [done| |apply NoDup_singleton].
      intros k Hk ->%list_elem_of_singleton. done.
    + apply Forall_app. split; [done|]. by apply Forall_singleton.
Qed.

(** Leaving removes exactly that member; the last one takes its place. *)
Lemma leave_members g e i :
  group_ok g → memberIndex g e = Some i → members_of (leave_group g i) ≡ₚ delete i (members_of g).
Proof.
  intros Hg Hi. pose proof (length_members g Hg) as Hlen. apply scan_lt in Hi. destruct Hg as [Hc Hl _ _ _].
  unfold leave_group, members_of. cbn [with_members bg_members bg_member_count]. rewrite u8_id by lia.
  set (n := Z.to_nat (bg_member_count g - 1)). assert (Z.to_nat (bg_member_count g) = S n) as Hn by lia.
  unfold members_of in Hi, Hlen. rewrite Hn in *. unfold zset. rewrite take_insert_ge by lia.
  destruct (lookup_lt_is_Some_2 (bg_members g) n) as [z Hz]; [lia|].
  assert ((bg_members g).[bg_member_count g - 1] = z) as -> by (by apply list_lookup_total_correct).
  rewrite (take_S_r _ _ z Hz). set (l := take n (bg_members g)).
  assert (length l = n) as Hll by (unfold l; rewrite length_take; lia).
  destruct (decide (i = n)) as [->|].
  - rewrite take_insert_ge by lia. fold l. rewrite delete_take_drop. rewrite take_app_length' by done.
    rewrite drop_ge by (rewrite length_app; simpl; lia). by rewrite app_nil_r.
  - assert (i < n)%nat as Hin by (rewrite length_take in Hi; lia).
    rewrite take_insert_lt by lia. fold l. rewrite insert_take_drop by lia. rewrite delete_take_drop.
    rewrite take_app_le, drop_app_le by lia. rewrite app_assoc. rewrite <- Permutation_cons_append. by rewrite Permutation_middle.
Qed.

Lemma leave_ok g e i : group_ok g → memberIndex g e = Some i → group_ok (leave_group g i).
Proof.
  intros Hg Hi. pose proof (leave_members g e i Hg Hi) as Hp. pose proof (length_members g Hg) as Hlen.
  pose proof (scan_lt _ _ _ Hi) as Hlt. destruct Hg as [Hc Hl Hu Hn Hf].
  split; [cbn; rewrite u8_id; lia|cbn; by rewrite length_zset, length_insert| | |done]; rewrite Hp.
  - apply memberIndex_Some in Hi as (m & Hm & _). rewrite (delete_Permutation _ _ _ Hm) in Hu. by apply NoDup_cons in Hu as [_ ?].
  - by apply Forall_delete.
Qed.

(** ** The table keeps its invariant *)

Lemma group_ok_zero : group_ok BridgeGroup_zero.
Proof. split; cbn; [lia|done|apply NoDup_nil_2|by apply Forall_nil_2|split; [lia|done]]. Qed.

Lemma groups_wf_reset : groups_wf BridgeGroups_Reset.
Proof.
  split; cbn [BridgeGroups_Reset group_slots group_count]; [done|exact (clean_replicate 16)|exact (unique_by_replicate group_key 16)|done|].
  apply Forall_replicate, group_ok_zero.
Qed.

Lemma named_true n s : named n s = true ↔ gs_in_use s = true ∧ group_key s = cstr n.
Proof. unfold named, group_key. by rewrite andb_true_iff, streq_true. Qed.

Lemma group_found s n i :
  group_findIndex s n = Some i → ∃ x, group_slots s !! i = Some x ∧ group_slots s !!! i = x ∧ gs_in_use x = true ∧ group_key x = cstr n.
Proof.
  intros (x & Hx & [Hu Hk]%named_true)%scan_hit. exists x. split_and!; [done|by apply list_lookup_total_correct|done..].
Qed.

Lemma groups_count_le s : groups_wf s → 0 ≤ group_count s ≤ 16.
Proof.
  intros Hwf. rewrite (groups_counted _ Hwf). pose proof (countb_bounds gs_in_use (group_slots s)) as Hb.
  unfold zlen in Hb. rewrite (groups_len _ Hwf) in Hb. lia.
Qed.

(** A live group is changed in place. *)
Lemma groups_wf_change s i x g :
  groups_wf s → group_slots s !! i = Some x → gs_in_use x = true → group_ok g → bg_name g = bg_name (gs_group x) →
  groups_wf {| group_slots := <[i := with_group x g]> (group_slots s); group_count := group_count s |}.
Proof.
  intros [Hl Hc Hu Hn Hok] Hx Hux Hg Hname. split; cbn [group_slots group_count].
  - by rewrite length_insert.
  - apply (clean_insert (A := BridgeGroupSlot)); [done|]. cbn. congruence.
  - apply unique_by_insert; [done|]. intros _ j z Hz Hne Huz. unfold group_key. cbn. rewrite Hname. intros Hk.
    apply Hne. by eapply (Hu j i z x).
  - rewrite (countb_insert _ _ _ x) by done. cbn [with_group gs_in_use]. lia.
  - by apply Forall_insert.
Qed.

Lemma groups_lookup_ok s i x : groups_wf s → group_slots s !! i = Some x → group_ok (gs_group x).
Proof. intros Hwf Hx. pose proof (groups_ok _ Hwf) as Ho. rewrite Forall_lookup in Ho. by eapply Ho. Qed.

Lemma set_filters_ok g n fs : group_ok g → 0 ≤ n ≤ 16 →
  group_ok {| bg_name := bg_name g; bg_filter_count := n; bg_filters := list_inserts 0 (take (Z.to_nat n) fs) (bg_filters g);
              bg_member_count := bg_member_count g; bg_members := bg_members g |}.
Proof. intros [Hc Hl Hu Hn [_ Hf]] Hr. split; cbn; [done..|]. split; [done|]. by rewrite length_inserts. Qed.

Lemma groups_wf_set s name n fs : groups_wf s → is_u8 n → groups_wf (BridgeGroups_Set s name n fs).2.
Proof.
  intros Hwf Hn. unfold BridgeGroups_Set. destruct (_ || _) eqn:Hbad; [done|]. bool_to_prop.
  destruct (group_findIndex s name) as [i|] eqn:Hf.
  - apply group_found in Hf as (x & Hx & -> & Hu & Hk). rewrite Hu. cbn [snd negb].
    rewrite (alter_insert_at _ _ _ _ Hx). unfold set_group. rewrite Hu. apply groups_wf_change; [done|done|done| |done].
    apply set_filters_ok; [by eapply groups_lookup_ok|zlia].
  - destruct (group_freeIndex s) as [i|] eqn:Hfree; [|done]. cbn [snd].
    pose proof (free_slot_clean _ _ (groups_clean _ Hwf) Hfree) as Hx. pose proof (groups_count_le s Hwf) as Hle.
    rewrite (list_lookup_total_correct _ _ _ Hx), (alter_insert_at _ _ _ _ Hx). cbn [slot_zero BridgeGroupSlot_slot gs_in_use BridgeGroupSlot_zero negb].
    destruct Hwf as [Hl Hc Hu Hcnt Hok]. rewrite u8_id by lia. split; cbn [group_slots group_count].
    + by rewrite length_insert.
    + by apply (clean_insert (A := BridgeGroupSlot)).
    + apply unique_by_insert; [done|]. intros _ j z Hz _ Huz. unfold group_key at 2.
      cbn [set_group gs_in_use BridgeGroupSlot_zero with_group gs_group bg_name]. rewrite cstr_set_name by done. intros Hk.
      unfold group_findIndex in Hf. rewrite scan_None in Hf. specialize (Hf j z Hz). rewrite (proj2 (named_true name z)) in Hf; done.
    + rewrite (countb_insert _ _ _ BridgeGroupSlot_zero) by done. cbn. lia.
    + apply Forall_insert; [done|]. apply (set_filters_ok {| bg_name := _; bg_filter_count := 0; bg_filters := _; bg_member_count := _; bg_members := _ |}); [|zlia].
      destruct group_ok_zero as [? ? ? ? ?]. by split.
Qed.

Lemma groups_wf_remove s name : groups_wf s → groups_wf (BridgeGroups_Remove s name).2.
Proof.
  intros Hwf. pose proof (groups_count_le s Hwf) as Hle. unfold BridgeGroups_Remove.
  destruct (group_findIndex s name) as [i|] eqn:Hf; [|done]. cbn [snd].
  apply group_found in Hf as (x & Hx & _ & Hu & _). destruct Hwf as [Hl Hc Hun Hn Hok].
  assert (countb gs_in_use (group_slots s) ≠ 0) as Hpos.
  { rewrite countb_zero. intros Hz. rewrite (Hz _ _ Hx) in Hu. done. }
  split; cbn [group_slots group_count].
  - by rewrite length_insert.
  - by apply (clean_insert (A := BridgeGroupSlot)).
  - exact (unique_by_release group_key _ i Hun).
  - rewrite (countb_insert _ _ _ x) by done. rewrite u8_id by lia. rewrite Hn, Hu. simpl. lia.
  - apply Forall_insert; [done|apply group_ok_zero].
Qed.

Lemma groups_wf_join s name m : groups_wf s → groups_wf (BridgeGroups_Join s name m).2.
Proof.
  intros Hwf. unfold BridgeGroups_Join. destruct (group_findIndex s name) as [i|] eqn:Hf; [|done].
  destruct (BridgeGroupMember_IsValid m) eqn:Hv; [|done]. apply group_found in Hf as (x & Hx & -> & Hu & _). cbn [negb].
  destruct (join_group (gs_group x) m) as [g|] eqn:Hj; [|done]. cbn [snd]. rewrite (alter_insert_at _ _ _ _ Hx).
  apply groups_wf_change; [done..|eapply join_ok; [by eapply groups_lookup_ok|done|done]|].
  unfold join_group in Hj. destruct (memberIndex _ _); [by simplify_eq|]. destruct (_ =? _); by simplify_eq.
Qed.

Lemma groups_wf_leave s name e : groups_wf s → groups_wf (BridgeGroups_Leave s name e).2.
Proof.
  intros Hwf. unfold BridgeGroups_Leave. destruct (group_findIndex s name) as [i|] eqn:Hf; [|done].
  apply group_found in Hf as (x & Hx & -> & Hu & _). destruct (memberIndex (gs_group x) e) as [k|] eqn:Hk; [|done].
  cbn [snd]. rewrite (alter_insert_at _ _ _ _ Hx). apply groups_wf_change; [done..| |done].
  eapply leave_ok; [by eapply groups_lookup_ok|done].
Qed.

(** ** Sequences of operations *)
Inductive group_op :=
  | GSet (name : list Z) (filter_count : Z) (filters : list CanFilter)
  | GRemove (name : list Z)
  | GJoin (name : list Z) (member : BridgeGroupMember)
  | GLeave (name : list Z) (member : BridgeEndpoint)
  | GRestore (group : BridgeGroup).

Definition group_step (s : BridgeGroups) (op : group_op) : BridgeGroups :=
  match op with
  | GSet n k fs => (BridgeGroups_Set s n k fs).2
  | GRemove n => (BridgeGroups_Remove s n).2
  | GJoin n m => (BridgeGroups_Join s n m).2
  | GLeave n e => (BridgeGroups_Leave s n e).2
  | GRestore g => (BridgeGroups_Restore s g).2
  end.

Definition group_op_ok (op : group_op) : Prop :=
  match op with GSet _ k _ => is_u8 k | GRestore g => is_u8 (bg_filter_count g) | _ => True end.

Lemma groups_wf_step s op : groups_wf s → group_op_ok op → groups_wf (group_step s op).
Proof.
  intros Hwf Hop. destruct op as [n k fs|n|n m|n e|g]; cbn [group_step group_op_ok] in *;
    auto using groups_wf_set, groups_wf_remove, groups_wf_join, groups_wf_leave.
  unfold BridgeGroups_Restore. pose proof (groups_wf_set s (bg_name g) _ (bg_filters g) Hwf Hop) as Hs.
  destruct (BridgeGroups_Set _ _ _ _) as [[] s1]; [|done]. cbn [snd] in *. revert s1 Hs.
  induction (take 16 (members_of g)) as [|m ms IH]; intros s1 Hs; simpl; [done|]. apply IH. by apply groups_wf_join.
Qed.

Lemma groups_wf_run ops : Forall group_op_ok ops → groups_wf (foldl group_step BridgeGroups_Reset ops).
Proof.
  intros Hops. assert (∀ s, groups_wf s → groups_wf (foldl group_step s ops)) as H; [|apply H, groups_wf_reset].
  induction Hops as [|op ops Hop _ IH]; intros s Hwf; simpl; [done|]. apply IH. by apply groups_wf_step.
Qed.

Lemma group_find_live s name i x :
  groups_wf s → group_slots s !! i = Some x → gs_in_use x = true → group_key x = cstr name →
  group_findIndex s name = Some i ∧ BridgeGroups_Find s name = Some x.
Proof.
  intros Hwf Hx Hu Hk. unfold BridgeGroups_Find.
  assert (group_findIndex s name = Some i) as Hf; [|rewrite Hf; by split].
  apply (unique_by_scan group_key _ _ x); [apply Hwf|done|done|by apply named_true|].
  intros y [? Hy]%named_true. split; [done|congruence].
Qed.

(** The group found after one live group changed in place. *)
Lemma group_find_changed s name i x g :
  groups_wf s → groups_wf {| group_slots := <[i := with_group x g]> (group_slots s); group_count := group_count s |} →
  group_slots s !! i = Some x → gs_in_use x = true → group_key x = cstr name → bg_name g = bg_name (gs_group x) →
  BridgeGroups_Find {| group_slots := <[i := with_group x g]> (group_slots s); group_count := group_count s |} name = Some (with_group x g).
Proof.
  intros Hwf Hwf' Hx Hu Hk Hn. eapply (group_find_live _ _ i); [done| |done|].
  - cbn. apply list_lookup_insert_eq. by eapply lookup_lt_Some.
  - unfold group_key in *. cbn. by rewrite Hn.
Qed.

Lemma join_name g m g' : join_group g m = Some g' → bg_name g' = bg_name g.
Proof. unfold join_group. destruct (memberIndex _ _); [by intros [= <-]|]. destruct (_ =? _); [done|]. by intros [= <-]. Qed.

(** Joining a group. In every reachable table, a join to a known group is
    accepted exactly when the member is valid and is already in the group or
    the group has fewer than 16; afterwards the group's members are the old
    ones and the new one, each interface once, with the joined member's
    direction and filters in force and every other member's unchanged. *)
Theorem bridge_group_join (ops : list group_op) (name : list Z) (m : BridgeGroupMember) :
  Forall group_op_ok ops →
  let s := foldl group_step BridgeGroups_Reset ops in
  let '(r, s') := BridgeGroups_Join s name m in
  match BridgeGroups_Find s name with
  | None => r = kBRIDGE_GROUP_JOIN_UNKNOWN ∧ s' = s
  | Some x =>
      (r = kBRIDGE_GROUP_JOIN_OK ↔ BridgeGroupMember_IsValid m = true ∧
         (BridgeGroup_HasMember (gs_group x) (gm_endpoint m) = true ∨ bg_member_count (gs_group x) < 16)) ∧
      (r = kBRIDGE_GROUP_JOIN_OK → ∃ x', BridgeGroups_Find s' name = Some x' ∧
         NoDup (member_key <$> members_of (gs_group x')) ∧
         ∀ m', m' ∈ members_of (gs_group x') ↔ m' = m ∨ (m' ∈ members_of (gs_group x) ∧ member_key m' ≠ member_key m)) ∧
      (r ≠ kBRIDGE_GROUP_JOIN_OK → s' = s)
  end.
Proof.
  intros Hops s. pose proof (groups_wf_run ops Hops) as Hwf. fold s in Hwf. pose proof (groups_wf_join s name m Hwf) as Hwf'.
  unfold BridgeGroups_Join, BridgeGroups_Find in *. destruct (group_findIndex s name) as [i|] eqn:Hf; cbn [mbind option_bind]; [|done].
  apply group_found in Hf as (x & Hx & Htot & Hu & Hk). rewrite Htot in *. rewrite Hx.
  destruct (BridgeGroupMember_IsValid m) eqn:Hv; cbn [negb] in *; [|by split_and!; [split; [done|]; intros [? _]|..]].
  pose proof (groups_lookup_ok s i x Hwf Hx) as Hg. pose proof (has_member_true (gs_group x) (gm_endpoint m)) as Hhas.
  destruct (join_group (gs_group x) m) as [g|] eqn:Hj; cbn [snd] in Hwf'.
  - rewrite (alter_insert_at _ _ _ _ Hx) in *. pose proof (join_members _ _ _ Hg Hj) as Hm.
    split_and!; [|intros _; exists (with_group x g)|done].
    + split; [|done]. intros _. split; [done|]. unfold join_group in Hj. unfold BridgeGroup_HasMember.
      destruct (memberIndex (gs_group x) (gm_endpoint m)); [by left|right]. pose proof (g_count _ Hg).
      destruct (Z.eqb_spec (bg_member_count (gs_group x)) (Z.of_nat 16)); [done|lia].
    + split_and!; [eapply group_find_changed; [exact Hwf|exact Hwf'|done..|by eapply join_name]|apply (join_ok _ _ _ Hg Hv Hj)|].
      intros m'. cbn [with_group gs_group]. rewrite Hm. destruct (memberIndex (gs_group x) (gm_endpoint m)) as [k|] eqn:Hi.
      * apply memberIndex_Some in Hi as (y & Hy & Hky). rewrite list_elem_of_lookup. split.
        -- intros (j & [(<- & <- & _)|(Hne & Hj')]%list_lookup_insert_Some); [by left|right].
           split; [by eapply list_elem_of_lookup_2|]. intros Heq. apply Hne.
           eapply (NoDup_lookup (member_key <$> members_of (gs_group x))); [apply Hg|by rewrite list_lookup_fmap, Hy|].
           rewrite list_lookup_fmap, Hj'. cbn. f_equal. unfold member_key in *. congruence.
        -- intros [->|[(j & Hj')%list_elem_of_lookup Hne]]; [exists k; apply list_lookup_insert_eq; by eapply lookup_lt_Some|].
           exists j. rewrite list_lookup_insert_ne; [done|]. intros ->. by simplify_eq.
      * apply memberIndex_None in Hi. rewrite elem_of_app, list_elem_of_singleton. split; [|tauto].
        intros [Hin| ->]; [right|by left]. split; [done|]. intros Heq. apply Hi, list_elem_of_fmap. exists m'. split; [|done]. by rewrite Heq.
  - split_and!; [|done|done]. split; [done|]. intros [_ Hroom]. exfalso. unfold join_group in Hj.
    unfold BridgeGroup_HasMember in Hroom. destruct (memberIndex (gs_group x) (gm_endpoint m)); [done|].
    destruct (Z.eqb_spec (bg_member_count (gs_group x)) (Z.of_nat 16)); [|done]. destruct Hroom; [done|lia].
Qed.

Definition member_bus : BridgeGroupMember := {|
  gm_endpoint := {| ep_agent_name := [97; 0]; ep_interface_name := [99; 0] |}; gm_direction := 0; gm_filter_count := 0;
  gm_filters := replicate 8 CanFilter_zero |}.

Lemma bridge_group_join_witness :
  let s := foldl group_step BridgeGroups_Reset [GSet [108; 0] 0 []] in
  (BridgeGroups_Join s [108; 0] member_bus).1 = kBRIDGE_GROUP_JOIN_OK ∧
  ∃ x', BridgeGroups_Find (BridgeGroups_Join s [108; 0] member_bus).2 [108; 0] = Some x' ∧ member_bus ∈ members_of (gs_group x').
Proof.
  intros s. split; [by vm_compute|].
  pose proof (bridge_group_join [GSet [108; 0] 0 []] [108; 0] member_bus ltac:(each_elem ltac:(zlia))) as Hj.
  cbv zeta in Hj. fold s in Hj. destruct (BridgeGroups_Find s [108; 0]) as [x|] eqn:Hx; [|by vm_compute in Hx].
  destruct (BridgeGroups_Join s [108; 0] member_bus) as [r s'] eqn:Hr. vm_compute in Hr. injection Hr as <- Hs'.
  destruct Hj as (_ & Hok & _). destruct (Hok eq_refl) as (x' & Hf & _ & Hm). exists x'. split; [done|]. apply Hm. by left.
Defined.

(** Leaving a group. In every reachable table, a leave succeeds exactly
    when the interface is a member; afterwards the group has all the other
    members and no longer that one, and no other group changes. *)
Theorem bridge_group_leave (ops : list group_op) (name : list Z) (e : BridgeEndpoint) :
  Forall group_op_ok ops →
  let s := foldl group_step BridgeGroups_Reset ops in
  let '(gone, s') := BridgeGroups_Leave s name e in
  match BridgeGroups_Find s name with
  | None => gone = false ∧ s' = s
  | Some x =>
      (gone = true ↔ BridgeGroup_HasMember (gs_group x) e = true) ∧
      (gone = true → ∃ x', BridgeGroups_Find s' name = Some x' ∧
         bg_member_count (gs_group x') = bg_member_count (gs_group x) - 1 ∧
         BridgeGroup_HasMember (gs_group x') e = false ∧
         ∀ m, m ∈ members_of (gs_group x') ↔ m ∈ members_of (gs_group x) ∧ member_key m ≠ endpoint_key e) ∧
      (∀ y, group_key y ≠ cstr name → y ∈ live (group_slots s') ↔ y ∈ live (group_slots s))
  end.
Proof.
  intros Hops s. pose proof (groups_wf_run ops Hops) as Hwf. fold s in Hwf. pose proof (groups_wf_leave s name e Hwf) as Hwf'.
  unfold BridgeGroups_Leave, BridgeGroups_Find in *. destruct (group_findIndex s name) as [i|] eqn:Hf; cbn [mbind option_bind]; [|done].
  apply group_found in Hf as (x & Hx & Htot & Hu & Hk). rewrite Htot in *. rewrite Hx.
  pose proof (groups_lookup_ok s i x Hwf Hx) as Hg. pose proof (length_members _ Hg) as Hlen.
  destruct (memberIndex (gs_group x) e) as [k|] eqn:Hi; cbn [snd] in Hwf'.
  - rewrite (alter_insert_at _ _ _ _ Hx) in *. pose proof (leave_members _ _ _ Hg Hi) as Hp. pose proof (leave_ok _ _ _ Hg Hi) as Hg'.
    pose proof (scan_lt _ _ _ Hi) as Hlt. pose proof Hi as (m0 & Hm0 & Hk0)%memberIndex_Some.
    assert (∀ m, m ∈ members_of (leave_group (gs_group x) k) ↔ m ∈ members_of (gs_group x) ∧ member_key m ≠ endpoint_key e) as Hin.
    { intros m. rewrite Hp. pose proof (delete_Permutation _ _ _ Hm0) as Hd. pose proof (g_unique _ Hg) as Hnd.
      rewrite Hd in Hnd. cbn in Hnd. apply NoDup_cons in Hnd as [Hnin _]. rewrite Hd at 2. rewrite elem_of_cons. split.
      - intros Hm. split; [by right|]. intros Heq. apply Hnin. apply list_elem_of_fmap. exists m. split; [congruence|done].
      - intros [[->|Hm] Hne]; [done|done]. }
    split_and!; [|intros _; exists (with_group x (leave_group (gs_group x) k))|].
    + split; [intros _|done]. unfold BridgeGroup_HasMember. by rewrite Hi.
    + cbn [with_group gs_group]. split_and!; [by eapply group_find_changed| | |done].
      * cbn. pose proof (g_count _ Hg). rewrite u8_id; lia.
      * apply not_true_iff_false. rewrite has_member_true. intros (m & Hkm & [_ Hne]%Hin)%list_elem_of_fmap. done.
    + intros y Hy. apply (live_insert_key group_key _ _ x); [done|..]; intros _; unfold group_key in *; cbn; congruence.
  - split_and!; [|done|done]. split; [done|]. unfold BridgeGroup_HasMember. by rewrite Hi.
Qed.

Lemma bridge_group_leave_witness :
  let s := foldl group_step BridgeGroups_Reset [GSet [108; 0] 0 []; GJoin [108; 0] member_bus] in
  (BridgeGroups_Leave s [108; 0] (gm_endpoint member_bus)).1 = true.
Proof.
  intros s.
  pose proof (bridge_group_leave [GSet [108; 0] 0 []; GJoin [108; 0] member_bus] [108; 0] (gm_endpoint member_bus)
    ltac:(each_elem ltac:(zlia || done))) as Hl.
  cbv zeta in Hl. fold s in Hl. destruct (BridgeGroups_Leave s [108; 0] (gm_endpoint member_bus)) as [l s'].
  destruct (BridgeGroups_Find s [108; 0]) as [x|] eqn:Hx; [|by vm_compute in Hx].
  destruct Hl as [Hl _]. cbn [fst]. apply Hl. vm_compute in Hx. injection Hx as <-. by vm_compute.
Defined.
