(* ===== verification/BridgeTargets.v ===== *)
(** * Where a captured frame is bridged (src/hub/domain/bridge_targets.c)

    The destinations of every route out of the bus and every other receiving
    member of every group the bus sends into. *)

From S2P Require Import Prelude Slots CString SubscribeMessage FrameMessage BridgeRoutes BridgeGroups.

Notation BRIDGE_TARGETS_MAX := 320%nat (only parsing).

(** Whose counters a target charges: the C code keeps pointers into the route's or group's slot. *)
Inductive charge := ChRoute (slot : nat) | ChGroup (slot : nat).

Record BridgeTarget := { bt_destination : BridgeEndpoint; bt_charge : charge }.

Definition addTarget (targets : list BridgeTarget) (source destination : BridgeEndpoint) (who : charge) : list BridgeTarget :=
  if BridgeEndpoint_Equals destination source || Nat.eqb (length targets) BRIDGE_TARGETS_MAX then targets
  else if existsb (λ t, BridgeEndpoint_Equals (bt_destination t) destination) targets then targets
  else targets ++ [{| bt_destination := destination; bt_charge := who |}].

Definition collectRoutes (routes : BridgeRoutes) (source : BridgeEndpoint) (can_id : Z) (targets : list BridgeTarget)
    : list BridgeTarget :=
  foldl (λ targets i,
    match BridgeRoutes_Slot routes i with
    | None => targets
    | Some slot =>
        if negb (BridgeEndpoint_Equals (br_source (rs_route slot)) source) then targets
        else if BridgeRoute_Passes (rs_route slot) can_id
             then addTarget targets source (br_destination (rs_route slot)) (ChRoute i) else targets
    end) targets (seq 0 BRIDGE_ROUTES_MAX).

Definition collectGroups (groups : BridgeGroups) (source : BridgeEndpoint) (can_id : Z) (targets : list BridgeTarget)
    : list BridgeTarget :=
  foldl (λ targets i,
    match BridgeGroups_Slot groups i with
    | None => targets
    | Some slot =>
        if negb (BridgeGroup_Carries (gs_group slot) source can_id) then targets
        else foldl (λ targets m,
               if BridgeGroupMember_Receives m then addTarget targets source (gm_endpoint m) (ChGroup i) else targets)
               targets (members_of (gs_group slot))
    end) targets (seq 0 BRIDGE_GROUPS_MAX).

Definition BridgeTargets_Collect (routes : BridgeRoutes) (groups : BridgeGroups) (source : BridgeEndpoint) (can_id : Z)
    : list BridgeTarget :=
  collectGroups groups source can_id (collectRoutes routes source can_id []).

(** ** Specification: the candidates in the order the loops meet them *)

Definition route_candidates (routes : BridgeRoutes) (source : BridgeEndpoint) (can_id : Z) (i : nat) : list BridgeTarget :=
  match BridgeRoutes_Slot routes i with
  | Some slot =>
      if BridgeEndpoint_Equals (br_source (rs_route slot)) source && BridgeRoute_Passes (rs_route slot) can_id
      then [{| bt_destination := br_destination (rs_route slot); bt_charge := ChRoute i |}] else []
  | None => []
  end.

Definition group_candidates (groups : BridgeGroups) (source : BridgeEndpoint) (can_id : Z) (i : nat) : list BridgeTarget :=
  match BridgeGroups_Slot groups i with
  | Some slot =>
      if BridgeGroup_Carries (gs_group slot) source can_id
      then (λ m, {| bt_destination := gm_endpoint m; bt_charge := ChGroup i |}) <$>
             List.filter BridgeGroupMember_Receives (members_of (gs_group slot))
      else []
  | None => []
  end.

Definition candidates (routes : BridgeRoutes) (groups : BridgeGroups) (source : BridgeEndpoint) (can_id : Z) : list BridgeTarget :=
  concat (route_candidates routes source can_id <$> seq 0 64) ++ concat (group_candidates groups source can_id <$> seq 0 16).

Definition target_key (t : BridgeTarget) : list Z * list Z := endpoint_key (bt_destination t).

Definition add (source : BridgeEndpoint) (targets : list BridgeTarget) (t : BridgeTarget) : list BridgeTarget :=
  addTarget targets source (bt_destination t) (bt_charge t).

(** ** The loops add the candidates one by one *)

Lemma foldl_concat {A B} (f : A → B → A) (g : nat → list B) (step : A → nat → A) ks a :
  (∀ a k, step a k = foldl f a (g k)) → foldl step a ks = foldl f a (concat (g <$> ks)).
Proof.
  intros Hs. revert a. induction ks as [|k ks IH]; intros a; simpl; [done|]. by rewrite foldl_app, <- Hs, IH.
Qed.

Lemma collect_candidates routes groups source can_id :
  BridgeTargets_Collect routes groups source can_id = foldl (add source) [] (candidates routes groups source can_id).
Proof.
  unfold BridgeTargets_Collect, collectGroups, collectRoutes, candidates. rewrite foldl_app.
  rewrite (foldl_concat (add source) (group_candidates groups source can_id)).
  - f_equal. apply foldl_concat. intros a k. unfold route_candidates. destruct (BridgeRoutes_Slot routes k) as [slot|]; [|done].
    destruct (BridgeEndpoint_Equals (br_source (rs_route slot)) source); [|done]. by destruct (BridgeRoute_Passes (rs_route slot) can_id).
  - intros a k. unfold group_candidates. destruct (BridgeGroups_Slot groups k) as [slot|]; [|done].
    destruct (BridgeGroup_Carries (gs_group slot) source can_id); [|done]. cbn [negb]. revert a.
    induction (members_of (gs_group slot)) as [|m ms IH]; intros a; simpl; [done|].
    destruct (BridgeGroupMember_Receives m); simpl; by rewrite IH.
Qed.

(** A target is kept when no earlier candidate has its destination. *)
Definition first_of (cs : list BridgeTarget) (t : BridgeTarget) : Prop :=
  ∃ i, cs !! i = Some t ∧ ∀ j t', (j < i)%nat → cs !! j = Some t' → target_key t' ≠ target_key t.

Lemma existsb_key ts d : existsb (λ t, BridgeEndpoint_Equals (bt_destination t) d) ts = true ↔ endpoint_key d ∈ (target_key <$> ts).
Proof.
  rewrite existsb_exists, list_elem_of_fmap. split.
  - intros (t & Ht%list_elem_of_In & Hk%endpoint_equals_true). by exists t.
  - intros (t & Hk & Ht). exists t. split; [by apply list_elem_of_In|]. by apply endpoint_equals_true.
Qed.

Lemma first_of_snoc cs c t :
  first_of (cs ++ [c]) t ↔ first_of cs t ∨ (t = c ∧ target_key c ∉ (target_key <$> cs)).
Proof.
  split.
  - intros (i & [Hi|[Hge [Hz <-]%list_lookup_singleton_Some]]%lookup_app_Some & Hmin).
    + left. exists i. split; [done|]. intros j t' Hj Ht'. apply (Hmin j t' Hj). by apply lookup_app_l_Some.
    + right. split; [done|]. intros (t' & Hk & (j & Hj)%list_elem_of_lookup)%list_elem_of_fmap.
      pose proof (lookup_lt_Some _ _ _ Hj). apply (Hmin j t'); [lia|by apply lookup_app_l_Some|done].
  - intros [(i & Hi & Hmin)|[-> Hnin]].
    + exists i. split; [by apply lookup_app_l_Some|]. intros j t' Hj Ht'. pose proof (lookup_lt_Some _ _ _ Hi).
      rewrite lookup_app_l in Ht' by lia. by eapply Hmin.
    + exists (length cs). split; [by rewrite lookup_app_r, Nat.sub_diag by lia|]. intros j t' Hj Ht' Hk.
      rewrite lookup_app_l in Ht' by lia. apply Hnin. apply list_elem_of_fmap. exists t'. split; [done|]. by eapply list_elem_of_lookup_2.
Qed.

Lemma add_all source cs :
  (length cs ≤ BRIDGE_TARGETS_MAX)%nat →
  let ts := foldl (add source) [] cs in
  (length ts ≤ length cs)%nat ∧ NoDup (target_key <$> ts) ∧
  ∀ t, t ∈ ts ↔ first_of cs t ∧ target_key t ≠ endpoint_key source.
Proof.
  induction cs as [|c cs IH] using rev_ind; intros Hlen.
  { cbn. split_and!; [lia|apply NoDup_nil_2|]. intros t. split; [by intros ?%not_elem_of_nil|]. by intros [(i & Hi & _) _]. }
  rewrite length_app in Hlen. cbn [length] in Hlen. destruct IH as (Hl & Hnd & Hin); [lia|].
  rewrite foldl_app, length_app. cbn [foldl length]. set (ts := foldl (add source) [] cs) in *.
  assert (target_key c ≠ endpoint_key source → target_key c ∈ (target_key <$> ts) ↔ target_key c ∈ (target_key <$> cs)) as Hseen.
  { intros Hns. rewrite !list_elem_of_fmap. split.
    - intros (t & Hk & [(i & Hi & _) _]%Hin). exists t. split; [done|]. by eapply list_elem_of_lookup_2.
    - intros (t & Hk & (k & Hkk)%list_elem_of_lookup).
      destruct (scan_exists (λ t', bool_decide (target_key t' = target_key c)) cs k t Hkk) as (i & Hs & _); [by apply bool_decide_eq_true|].
      apply scan_Some in Hs as (x & Hx & Hkx%bool_decide_eq_true & Hmin). exists x. split; [done|]. apply Hin. split; [|congruence].
      exists i. split; [done|]. intros j t' Hj Ht' Heq. specialize (Hmin j t' Hj Ht'). apply bool_decide_eq_false in Hmin. congruence. }
  unfold add, addTarget. destruct (BridgeEndpoint_Equals (bt_destination c) source) eqn:Hsrc; cbn [orb].
  - apply endpoint_equals_true in Hsrc. split_and!; [lia|done|]. intros t. rewrite Hin, first_of_snoc. split; [tauto|].
    intros [[?|[-> _]] Hne]; [done|]. done.
  - apply endpoint_equals_false in Hsrc. rewrite (proj2 (Nat.eqb_neq (length ts) 320)) by lia.
    specialize (Hseen Hsrc). destruct (existsb _ ts) eqn:Hdup.
    + apply existsb_key in Hdup. split_and!; [lia|done|]. intros t. rewrite Hin, first_of_snoc.
      split; [tauto|]. intros [[?|[-> Hnin]] Hne]; [done|]. by apply Hseen in Hdup.
    + assert (target_key c ∉ (target_key <$> ts)) as Hnew.
      { intros Hk. apply (existsb_key ts) in Hk. congruence. }
      assert ({| bt_destination := bt_destination c; bt_charge := bt_charge c |} = c) as -> by (by destruct c).
      split_and!; [rewrite length_app; simpl; lia| |].
      * rewrite fmap_app. apply NoDup_app. split_and!; [done| |apply NoDup_singleton]. intros k Hk ->%list_elem_of_singleton. done.
      * intros t. rewrite elem_of_app, list_elem_of_singleton, Hin, first_of_snoc. split; [|tauto].
        intros [[? ?]| ->]; [tauto|]. split; [|done]. right. split; [done|]. by rewrite <- Hseen.
Qed.

(** ** The candidates are the routes out of the bus and the members of the groups it sends into *)

Lemma elem_of_concat_seq {B} (g : nat → list B) n x : x ∈ concat (g <$> seq 0 n) ↔ ∃ i, (i < n)%nat ∧ x ∈ g i.
Proof.
  rewrite list_elem_of_In, in_concat. split.
  - intros (l & (i & -> & [_ Hi]%elem_of_seq)%list_elem_of_In%list_elem_of_fmap & Hx). exists i. split; [lia|by apply list_elem_of_In].
  - intros (i & Hi & Hx). exists (g i). split; [|by apply list_elem_of_In]. apply list_elem_of_In, list_elem_of_fmap.
    exists i. split; [done|]. apply elem_of_seq. lia.
Qed.

Lemma length_concat_seq {B} (g : nat → list B) n k : (∀ i, (length (g i) ≤ k)%nat) → (length (concat (g <$> seq 0 n)) ≤ n * k)%nat.
Proof.
  intros Hk. generalize 0%nat. induction n as [|n IH]; intros start; [done|]. cbn [seq fmap list_fmap concat].
  rewrite length_app. specialize (IH (S start)). specialize (Hk start).
  rewrite Nat.mul_succ_l. etrans; [apply Nat.add_le_mono; [exact Hk|exact IH]|]. lia.
Qed.

Lemma route_slot_live routes i x :
  length (route_slots routes) = BRIDGE_ROUTES_MAX →
  BridgeRoutes_Slot routes i = Some x ↔ route_slots routes !! i = Some x ∧ rs_in_use x = true.
Proof.
  intros Hl. unfold BridgeRoutes_Slot. destruct (Nat.leb_spec 64 i) as [Hge|Hlt].
  - split; [done|]. intros [Hx _]. apply lookup_lt_Some in Hx. lia.
  - destruct (route_slots routes !! i) as [y|]; cbn; [|naive_solver]. destruct (rs_in_use y) eqn:Hu; naive_solver congruence.
Qed.

Lemma group_slot_live groups i x :
  length (group_slots groups) = BRIDGE_GROUPS_MAX →
  BridgeGroups_Slot groups i = Some x ↔ group_slots groups !! i = Some x ∧ gs_in_use x = true.
Proof.
  intros Hl. unfold BridgeGroups_Slot. destruct (Nat.leb_spec 16 i) as [Hge|Hlt].
  - split; [done|]. intros [Hx _]. apply lookup_lt_Some in Hx. lia.
  - destruct (group_slots groups !! i) as [y|]; cbn; [|naive_solver]. destruct (gs_in_use y) eqn:Hu; naive_solver congruence.
Qed.

(** A destination is reachable from [source] for this frame. *)
Definition reaches (routes : BridgeRoutes) (groups : BridgeGroups) (source : BridgeEndpoint) (can_id : Z) (k : list Z * list Z) : Prop :=
  (∃ r, r ∈ live (route_slots routes) ∧ endpoint_key (br_source (rs_route r)) = endpoint_key source ∧
     BridgeRoute_Passes (rs_route r) can_id = true ∧ endpoint_key (br_destination (rs_route r)) = k) ∨
  (∃ g m, g ∈ live (group_slots groups) ∧ BridgeGroup_Carries (gs_group g) source can_id = true ∧
     m ∈ members_of (gs_group g) ∧ BridgeGroupMember_Receives m = true ∧ member_key m = k).

Lemma candidates_reach routes groups source can_id k :
  routes_wf routes → groups_wf groups →
  k ∈ (target_key <$> candidates routes groups source can_id) ↔ reaches routes groups source can_id k.
Proof.
  intros Hr Hg. unfold candidates, reaches. rewrite fmap_app, elem_of_app. apply ZifyClasses.or_morph.
  - rewrite list_elem_of_fmap. split.
    + intros (t & -> & (i & Hi & Ht)%elem_of_concat_seq). unfold route_candidates in Ht.
      destruct (BridgeRoutes_Slot routes i) as [r|] eqn:Hs; [|by apply not_elem_of_nil in Ht].
      apply route_slot_live in Hs as [Hx Hu]; [|apply Hr].
      destruct (_ && _) eqn:Hc; [|by apply not_elem_of_nil in Ht]. apply andb_true_iff in Hc as [He%endpoint_equals_true Hp].
      apply list_elem_of_singleton in Ht as ->. exists r. split_and!; [|done..]. apply elem_of_live. by exists i.
    + intros (r & (i & Hi & Hu)%elem_of_live & He%endpoint_equals_true & Hp & <-).
      exists {| bt_destination := br_destination (rs_route r); bt_charge := ChRoute i |}. split; [done|].
      apply elem_of_concat_seq. exists i. split; [apply lookup_lt_Some in Hi; pose proof (routes_len _ Hr); lia|].
      unfold route_candidates. rewrite (proj2 (route_slot_live routes i r (routes_len _ Hr))) by done. rewrite He, Hp. by left.
  - rewrite list_elem_of_fmap. split.
    + intros (t & -> & (i & Hi & Ht)%elem_of_concat_seq). unfold group_candidates in Ht.
      destruct (BridgeGroups_Slot groups i) as [g|] eqn:Hs; [|by apply not_elem_of_nil in Ht].
      apply group_slot_live in Hs as [Hx Hu]; [|apply Hg].
      destruct (BridgeGroup_Carries (gs_group g) source can_id) eqn:Hc; [|by apply not_elem_of_nil in Ht].
      apply list_elem_of_fmap in Ht as (m & -> & [Hm Hrec]%list_elem_of_In%filter_In). exists g, m.
      split_and!; [apply elem_of_live; by exists i|done|by apply list_elem_of_In|done|done].
    + intros (g & m & (i & Hi & Hu)%elem_of_live & Hc & Hm & Hrec & <-).
      exists {| bt_destination := gm_endpoint m; bt_charge := ChGroup i |}. split; [done|].
      apply elem_of_concat_seq. exists i. split; [apply lookup_lt_Some in Hi; pose proof (groups_len _ Hg); lia|].
      unfold group_candidates. rewrite (proj2 (group_slot_live groups i g (groups_len _ Hg))) by done. rewrite Hc.
      apply list_elem_of_fmap. exists m. split; [done|]. apply list_elem_of_In, filter_In. by split; [apply list_elem_of_In|].
Qed.

Lemma candidates_length routes groups source can_id :
  groups_wf groups → (length (candidates routes groups source can_id) ≤ BRIDGE_TARGETS_MAX)%nat.
Proof.
  intros Hg. unfold candidates. rewrite length_app.
  pose proof (length_concat_seq (route_candidates routes source can_id) 64 1) as H1.
  pose proof (length_concat_seq (group_candidates groups source can_id) 16 16) as H2.
  assert (∀ i, (length (route_candidates routes source can_id i) ≤ 1)%nat) as Hr.
  { intros i. unfold route_candidates. destruct (BridgeRoutes_Slot routes i); [|simpl; lia]. destruct (_ && _); simpl; lia. }
  assert (∀ i, (length (group_candidates groups source can_id i) ≤ 16)%nat) as Hgr.
  { intros i. unfold group_candidates. destruct (BridgeGroups_Slot groups i) as [g|] eqn:Hs; [|simpl; lia].
    destruct (BridgeGroup_Carries _ _ _); [|simpl; lia]. apply group_slot_live in Hs as [Hx _]; [|apply Hg].
    pose proof (groups_lookup_ok groups i g Hg Hx) as Hok. rewrite length_fmap.
    pose proof (length_members _ Hok). pose proof (g_count _ Hok).
    pose proof (filter_length_le BridgeGroupMember_Receives (members_of (gs_group g))). lia. }
  specialize (H1 Hr). specialize (H2 Hgr). lia.
Qed.

(** Bridging is sound and complete. For any tables the hub can reach, the
    targets of a frame are exactly the other buses a route out of its bus leads
    to, or a group it sends into contains as a receiver, when the filters let
    the frame through: each bus once, never the bus the frame came from (so a
    cycle of routes cannot echo it back), and the 320 places always suffice. *)
Theorem bridge_targets_exact (route_ops : list route_op) (group_ops : list group_op) (source : BridgeEndpoint) (can_id : Z) :
  Forall group_op_ok group_ops →
  let routes := foldl route_step BridgeRoutes_Reset route_ops in
  let groups := foldl group_step BridgeGroups_Reset group_ops in
  let targets := BridgeTargets_Collect routes groups source can_id in
  (length targets ≤ BRIDGE_TARGETS_MAX)%nat ∧ NoDup (target_key <$> targets) ∧
  ∀ k, k ∈ (target_key <$> targets) ↔ k ≠ endpoint_key source ∧ reaches routes groups source can_id k.
Proof.
  intros Hops routes groups targets. pose proof (routes_wf_run route_ops) as Hr. pose proof (groups_wf_run group_ops Hops) as Hg.
  fold routes in Hr. fold groups in Hg. pose proof (candidates_length routes groups source can_id Hg) as Hlen.
  unfold targets. rewrite collect_candidates. destruct (add_all source _ Hlen) as (Hl & Hnd & Hin).
  split_and!; [lia|done|]. intros k. rewrite <- (candidates_reach routes groups source can_id k Hr Hg), !list_elem_of_fmap. split.
  - intros (t & -> & [(i & Hi & _) Hne]%Hin). split; [done|]. exists t. split; [done|]. by eapply list_elem_of_lookup_2.
  - intros [Hne (t & -> & (j & Hj)%list_elem_of_lookup)].
    destruct (scan_exists (λ t', bool_decide (target_key t' = target_key t)) _ j t Hj) as (i & Hs & _); [by apply bool_decide_eq_true|].
    apply scan_Some in Hs as (x & Hx & Hkx%bool_decide_eq_true & Hmin). exists x. split; [done|]. apply Hin. split; [|congruence].
    exists i. split; [done|]. intros j' t' Hj' Ht' Heq. specialize (Hmin j' t' Hj' Ht'). apply bool_decide_eq_false in Hmin. congruence.
Qed.

Definition bus (c : Z) : BridgeEndpoint := {| ep_agent_name := [97; 0]; ep_interface_name := [c; 0] |}.

Lemma bridge_targets_exact_witness :
  let route_ops := [RtSet {| br_source := bus 99; br_destination := bus 100; br_filter_count := 0; br_filters := [] |};
                    RtSet {| br_source := bus 100; br_destination := bus 99; br_filter_count := 0; br_filters := [] |}] in
  target_key <$> BridgeTargets_Collect (foldl route_step BridgeRoutes_Reset route_ops) BridgeGroups_Reset (bus 99) 291
    = [endpoint_key (bus 100)] ∧
  NoDup (target_key <$> BridgeTargets_Collect (foldl route_step BridgeRoutes_Reset route_ops) BridgeGroups_Reset (bus 99) 291).
Proof.
  split; [by vm_compute|].
  apply (bridge_targets_exact _ [] (bus 99) 291). each_elem ltac:(done).
Defined.
