(* ===== verification/TransactionTable.v ===== *)
(** * Relayed transactions (src/hub/domain/transaction_table.c)

    At most one transaction per agent; pending from the client's request until
    the agent grants it, then active.  An exclusive active one leases its
    interface to its client.  [active_leases] caches how many there are, and
    gates the lookup of a lease holder. *)

From S2P Require Import Prelude Slots.

Notation TRANSACTION_TABLE_MAX := 512%nat (only parsing).

Inductive TTRANSACTION_RELAY_STATE := kTRANSACTION_RELAY_STATE_FREE | kTRANSACTION_RELAY_STATE_PENDING | kTRANSACTION_RELAY_STATE_ACTIVE.

#[export] Instance TTRANSACTION_RELAY_STATE_eq_dec : EqDecision TTRANSACTION_RELAY_STATE.
Proof. solve_decision. Defined.

Record RelayedTransaction := {
  rt_state : TTRANSACTION_RELAY_STATE;
  rt_exclusive : bool;
  rt_txn_id : Z;
  rt_interface_id : Z;
  rt_agent_peer_id : Z;
  rt_agent_channel : Z;
  rt_client_peer_id : Z;
  rt_client_channel : Z;
  rt_started_at_us : Z;
  rt_last_progress_us : Z;
  rt_completed_steps : Z;
  rt_relayed_bytes : Z;
  rt_consumed_bytes : Z;
}.

Definition RelayedTransaction_zero : RelayedTransaction := {|
  rt_state := kTRANSACTION_RELAY_STATE_FREE; rt_exclusive := false; rt_txn_id := 0; rt_interface_id := 0;
  rt_agent_peer_id := 0; rt_agent_channel := 0; rt_client_peer_id := 0; rt_client_channel := 0; rt_started_at_us := 0;
  rt_last_progress_us := 0; rt_completed_steps := 0; rt_relayed_bytes := 0; rt_consumed_bytes := 0 |}.

Definition isInUse (t : RelayedTransaction) : bool := negb (bool_decide (rt_state t = kTRANSACTION_RELAY_STATE_FREE)).

Definition holdsLease (t : RelayedTransaction) : bool :=
  bool_decide (rt_state t = kTRANSACTION_RELAY_STATE_ACTIVE) && rt_exclusive t.

#[export] Instance RelayedTransaction_slot : Slot RelayedTransaction :=
  {| slot_in_use := isInUse; slot_zero := RelayedTransaction_zero; slot_zero_free := eq_refl |}.

Record TransactionTable := { txns : list RelayedTransaction; active_leases : Z }.

Definition TransactionTable_Reset : TransactionTable :=
  {| txns := replicate TRANSACTION_TABLE_MAX RelayedTransaction_zero; active_leases := 0 |}.

Definition with_state (t : RelayedTransaction) (state : TTRANSACTION_RELAY_STATE) (txn_id : Z) : RelayedTransaction := {|
  rt_state := state; rt_exclusive := rt_exclusive t; rt_txn_id := txn_id; rt_interface_id := rt_interface_id t;
  rt_agent_peer_id := rt_agent_peer_id t; rt_agent_channel := rt_agent_channel t; rt_client_peer_id := rt_client_peer_id t;
  rt_client_channel := rt_client_channel t; rt_started_at_us := rt_started_at_us t; rt_last_progress_us := rt_last_progress_us t;
  rt_completed_steps := rt_completed_steps t; rt_relayed_bytes := rt_relayed_bytes t; rt_consumed_bytes := rt_consumed_bytes t |}.

(** Pointers into the table are slot indices. *)
Definition TransactionTable_ForAgent (self : TransactionTable) (agent_peer_id : Z) : option nat :=
  scan (λ t, isInUse t && (rt_agent_peer_id t =? agent_peer_id)) (txns self).

Definition TransactionTable_Open (self : TransactionTable) (request : RelayedTransaction) : option nat * TransactionTable :=
  match TransactionTable_ForAgent self (rt_agent_peer_id request) with
  | Some _ => (None, self)
  | None =>
      match scan (λ t, negb (isInUse t)) (txns self) with
      | Some i =>
          (Some i, {| txns := <[i := with_state request kTRANSACTION_RELAY_STATE_PENDING (rt_txn_id request)]> (txns self);
                      active_leases := active_leases self |})
      | None => (None, self)
      end
  end.

Definition TransactionTable_Activate (self : TransactionTable) (transaction : nat) (txn_id : Z) : TransactionTable :=
  match txns self !! transaction with
  | None => self
  | Some t =>
      {| txns := <[transaction := with_state t kTRANSACTION_RELAY_STATE_ACTIVE txn_id]> (txns self);
         active_leases := if rt_exclusive t then u16 (active_leases self + 1) else active_leases self |}
  end.

Definition TransactionTable_Close (self : TransactionTable) (transaction : nat) : TransactionTable :=
  match txns self !! transaction with
  | None => self
  | Some t =>
      {| txns := <[transaction := RelayedTransaction_zero]> (txns self);
         active_leases := if holdsLease t then u16 (active_leases self - 1) else active_leases self |}
  end.

(** The next transaction of a client from [iterator] on, and the iterator it leaves. *)
Definition TransactionTable_NextForClient (self : TransactionTable) (client_peer_id : Z) (iterator : nat) : option nat * nat :=
  match scan (λ t, isInUse t && (rt_client_peer_id t =? client_peer_id)) (drop iterator (txns self)) with
  | Some k => (Some (iterator + k)%nat, (iterator + k + 1)%nat)
  | None => (None, Nat.max iterator TRANSACTION_TABLE_MAX)
  end.

(** The loop over the client's transactions; the iterator advances by at least one each turn. *)
Fixpoint client_channel_loop (fuel : nat) (self : TransactionTable) (client_peer_id client_channel : Z) (iterator : nat) : option nat :=
  match fuel with
  | O => None
  | S fuel' =>
      match TransactionTable_NextForClient self client_peer_id iterator with
      | (None, _) => None
      | (Some i, next) =>
          if rt_client_channel (txns self !!! i) =? client_channel then Some i
          else client_channel_loop fuel' self client_peer_id client_channel next
      end
  end.

Definition TransactionTable_ForClientChannel (self : TransactionTable) (client_peer_id client_channel : Z) : option nat :=
  client_channel_loop (TRANSACTION_TABLE_MAX + 1) self client_peer_id client_channel 0.

Definition TransactionTable_AnyLease (self : TransactionTable) : bool := active_leases self >? 0.

Definition TransactionTable_LeaseHolder (self : TransactionTable) (interface_id : Z) : option Z :=
  if negb (TransactionTable_AnyLease self) then None
  else i ← scan (λ t, holdsLease t && (rt_interface_id t =? interface_id)) (txns self); rt_client_peer_id <$> txns self !! i.

(** ** Invariant *)
Record table_wf (s : TransactionTable) : Prop := {
  tab_len : length (txns s) = TRANSACTION_TABLE_MAX;
  tab_clean : clean (txns s);
  tab_agents : unique_by rt_agent_peer_id (txns s);
  tab_leases : active_leases s = countb holdsLease (txns s);
}.

Lemma holdsLease_in_use t : holdsLease t = true → isInUse t = true.
Proof. unfold holdsLease, isInUse. intros H. bool_to_prop. by rewrite H. Qed.

Lemma holdsLease_pending t id : holdsLease (with_state t kTRANSACTION_RELAY_STATE_PENDING id) = false.
Proof. done. Qed.
Lemma holdsLease_active t id : holdsLease (with_state t kTRANSACTION_RELAY_STATE_ACTIVE id) = rt_exclusive t.
Proof. done. Qed.
Lemma holdsLease_not_active t : rt_state t = kTRANSACTION_RELAY_STATE_PENDING → holdsLease t = false.
Proof. unfold holdsLease. by intros ->. Qed.

Lemma table_wf_reset : table_wf TransactionTable_Reset.
Proof.
  split; cbn [TransactionTable_Reset txns active_leases]; [done|exact (clean_replicate 512)|exact (unique_by_replicate _ 512)|].
  by rewrite countb_replicate_false.
Qed.

Lemma table_leases_bounds s : table_wf s → 0 ≤ countb holdsLease (txns s) ≤ 512.
Proof. intros Hwf. pose proof (countb_bounds holdsLease (txns s)) as Hb. unfold zlen in Hb. rewrite (tab_len _ Hwf) in Hb. lia. Qed.

Lemma forAgent_None s a :
  TransactionTable_ForAgent s a = None ↔ ∀ i t, txns s !! i = Some t → isInUse t = true → rt_agent_peer_id t ≠ a.
Proof.
  unfold TransactionTable_ForAgent. rewrite scan_None. split; intros Hall i t Ht.
  - intros Hu Ha. specialize (Hall i t Ht). cbv beta in Hall. rewrite Hu, Ha, Z.eqb_refl in Hall. done.
  - specialize (Hall i t Ht). destruct (isInUse t); [|done]. simpl. apply Z.eqb_neq. by apply Hall.
Qed.

Lemma table_wf_open s rq : table_wf s → table_wf (TransactionTable_Open s rq).2.
Proof.
  intros Hwf. unfold TransactionTable_Open. destruct (TransactionTable_ForAgent s (rt_agent_peer_id rq)) eqn:Ha; [done|].
  destruct (scan _ (txns s)) as [i|] eqn:Hf; [|done]. cbn [snd].
  pose proof (free_slot_clean (txns s) i (tab_clean _ Hwf) Hf) as Hz. destruct Hwf as [Hl Hc Hu Hn].
  split; cbn [txns active_leases].
  - by rewrite length_insert.
  - by apply (clean_insert (A := RelayedTransaction)).
  - apply unique_by_insert; [done|]. intros _ j z Hz' _ Huz. cbn. rewrite forAgent_None in Ha. by eapply Ha.
  - rewrite (countb_insert _ _ _ RelayedTransaction_zero), holdsLease_pending by done. rewrite Hn.
    change (holdsLease RelayedTransaction_zero) with false. simpl. lia.
Qed.

(** The hub activates pending transactions only (its handler checks the state first). *)
Lemma table_wf_activate s i t id :
  table_wf s → txns s !! i = Some t → rt_state t = kTRANSACTION_RELAY_STATE_PENDING → table_wf (TransactionTable_Activate s i id).
Proof.
  intros Hwf Ht Hst. pose proof (table_leases_bounds s Hwf) as Hb. unfold TransactionTable_Activate. rewrite Ht.
  destruct Hwf as [Hl Hc Hu Hn].
  assert (isInUse t = true) as Hut by (unfold isInUse; by rewrite Hst).
  split; cbn [txns active_leases].
  - by rewrite length_insert.
  - by apply (clean_insert (A := RelayedTransaction)).
  - apply unique_by_insert; [done|]. intros _ j z Hz Hne Huz Hk. apply Hne. by eapply (Hu j i z t).
  - rewrite (countb_insert _ _ _ t), holdsLease_active, holdsLease_not_active by done. rewrite Hn.
    destruct (rt_exclusive t); cbn [b2z]; [rewrite u16_id; lia|lia].
Qed.

Lemma table_wf_close s i : table_wf s → table_wf (TransactionTable_Close s i).
Proof.
  intros Hwf. pose proof (table_leases_bounds s Hwf) as Hb. unfold TransactionTable_Close.
  destruct (txns s !! i) as [t|] eqn:Ht; [|done]. destruct Hwf as [Hl Hc Hu Hn]. split; cbn [txns active_leases].
  - by rewrite length_insert.
  - by apply (clean_insert (A := RelayedTransaction)).
  - exact (unique_by_release _ _ i Hu).
  - rewrite (countb_insert _ _ _ t) by done. change (holdsLease RelayedTransaction_zero) with false.
    destruct (holdsLease t) eqn:Hh; cbn [b2z]; [|lia].
    assert (countb holdsLease (txns s) ≠ 0) as Hpos by (rewrite countb_zero; intros Hz; rewrite (Hz _ _ Ht) in Hh; done).
    rewrite u16_id; lia.
Qed.

(** ** Sequences of operations *)

(** The hub reaches a transaction through its agent or its client's channel, and
    activates it when the agent grants a pending one. *)
Inductive txn_op := TOpen (request : RelayedTransaction) | TGrant (agent_peer_id txn_id : Z) | TClose (transaction : nat).

Definition txn_step (s : TransactionTable) (op : txn_op) : TransactionTable :=
  match op with
  | TOpen rq => (TransactionTable_Open s rq).2
  | TGrant a id =>
      match TransactionTable_ForAgent s a with
      | Some i => if bool_decide (rt_state (txns s !!! i) = kTRANSACTION_RELAY_STATE_PENDING) then TransactionTable_Activate s i id else s
      | None => s
      end
  | TClose i => TransactionTable_Close s i
  end.

Lemma table_wf_run ops : table_wf (foldl txn_step TransactionTable_Reset ops).
Proof.
  assert (∀ s, table_wf s → table_wf (foldl txn_step s ops)) as H; [|apply H, table_wf_reset].
  induction ops as [|op ops IH]; intros s Hwf; simpl; [done|]. apply IH.
  destruct op as [rq|a id|i]; cbn [txn_step]; [by apply table_wf_open| |by apply table_wf_close].
  destruct (TransactionTable_ForAgent s a) as [i|] eqn:Ha; [|done]. case_bool_decide as Hp; [|done].
  apply scan_hit in Ha as (t & Ht & _). rewrite (list_lookup_total_correct _ _ _ Ht) in Hp. by eapply table_wf_activate.
Qed.

(** Leases. In every reachable table an agent runs at most one
    transaction; the lease counter is the number of active exclusive ones, so
    the counter never wraps and the short cut it gates never hides a lease; and
    the lease lookup finds a client exactly when an active exclusive
    transaction holds that interface. *)
Theorem transaction_leases_exact (ops : list txn_op) (interface_id : Z) :
  let s := foldl txn_step TransactionTable_Reset ops in
  unique_by rt_agent_peer_id (txns s) ∧
  0 ≤ active_leases s ≤ 512 ∧
  (TransactionTable_AnyLease s = true ↔ ∃ i t, txns s !! i = Some t ∧ holdsLease t = true) ∧
  (is_Some (TransactionTable_LeaseHolder s interface_id) ↔
     ∃ i t, txns s !! i = Some t ∧ holdsLease t = true ∧ rt_interface_id t = interface_id) ∧
  (∀ client, TransactionTable_LeaseHolder s interface_id = Some client →
     ∃ i t, txns s !! i = Some t ∧ holdsLease t = true ∧ rt_interface_id t = interface_id ∧ rt_client_peer_id t = client).
Proof.
  intros s. pose proof (table_wf_run ops) as Hwf. fold s in Hwf. pose proof (table_leases_bounds s Hwf) as Hb.
  assert (TransactionTable_AnyLease s = true ↔ ∃ i t, txns s !! i = Some t ∧ holdsLease t = true) as Hany.
  { unfold TransactionTable_AnyLease. rewrite (tab_leases _ Hwf), Z.gtb_ltb, Z.ltb_lt. split.
    - intros Hpos. destruct (scan holdsLease (txns s)) as [i|] eqn:Hs.
      + apply scan_hit in Hs as (t & ? & ?). by exists i, t.
      + rewrite scan_None in Hs. apply countb_zero in Hs. lia.
    - intros (i & t & Ht & Hh). destruct (decide (countb holdsLease (txns s) = 0)) as [Hz|]; [|lia].
      rewrite countb_zero in Hz. rewrite (Hz i t Ht) in Hh. done. }
  assert (∀ client, TransactionTable_LeaseHolder s interface_id = Some client →
     ∃ i t, txns s !! i = Some t ∧ holdsLease t = true ∧ rt_interface_id t = interface_id ∧ rt_client_peer_id t = client) as Hholder.
  { unfold TransactionTable_LeaseHolder. intros client. destruct (TransactionTable_AnyLease s); [|done]. cbn [negb].
    intros (i & (t & Ht & Hp)%scan_hit & (t' & Ht' & ->)%fmap_Some)%bind_Some. rewrite Ht in Ht'. injection Ht' as <-. bool_to_prop. by exists i, t. }
  split_and!; [apply Hwf|rewrite (tab_leases _ Hwf); lia..|done| |done]. split.
  - intros [client (i & t & ? & ? & ? & _)%Hholder]. by exists i, t.
  - intros (i & t & Ht & Hh & Hid). unfold TransactionTable_LeaseHolder.
    rewrite (proj2 Hany) by (by exists i, t). cbn [negb].
    destruct (scan_exists (λ t, holdsLease t && (rt_interface_id t =? interface_id)) (txns s) i t Ht) as (j & Hj & _).
    { by rewrite Hh, Hid, Z.eqb_refl. }
    rewrite Hj. cbn. pose proof Hj as (x & -> & _)%scan_hit. by eexists.
Qed.

(** ** The client's transactions *)

Lemma scan_split {A} (P Q : A → bool) l :
  scan (λ x, P x && Q x) l =
  match scan P l with
  | None => None
  | Some k => if match l !! k with Some x => Q x | None => false end then Some k
              else (λ j, k + 1 + j)%nat <$> scan (λ x, P x && Q x) (drop (k + 1) l)
  end.
Proof.
  induction l as [|x l IH]; [done|]. cbn [scan]. destruct (P x) eqn:HP; cbn [andb lookup list_lookup].
  - destruct (Q x); [done|]. cbn. rewrite drop_0. by destruct (scan _ l).
  - rewrite IH. destruct (scan P l) as [k|]; cbn; [|done].
    destruct (l !! k) as [y|]; [destruct (Q y); [done|]|]; by destruct (scan _ (drop (k + 1) l)).
Qed.

(** The walk over a client's transactions. The lookup by client channel,
    which resumes the client iterator until a channel matches, returns the first
    live transaction of that client on that channel, and always terminates
    within the 513 turns a 512-slot table allows. *)
Theorem for_client_channel_first (s : TransactionTable) (client_peer_id client_channel : Z) :
  length (txns s) = TRANSACTION_TABLE_MAX →
  TransactionTable_ForClientChannel s client_peer_id client_channel =
    scan (λ t, (isInUse t && (rt_client_peer_id t =? client_peer_id)) && (rt_client_channel t =? client_channel)) (txns s).
Proof.
  intros Hlen. unfold TransactionTable_ForClientChannel.
  set (P := λ t, isInUse t && (rt_client_peer_id t =? client_peer_id)).
  set (Q := λ t, rt_client_channel t =? client_channel).
  assert (∀ fuel it, (it ≤ 512)%nat → (512 < fuel + it)%nat →
    client_channel_loop fuel s client_peer_id client_channel it = (λ j, it + j)%nat <$> scan (λ t, P t && Q t) (drop it (txns s))) as Hloop.
  { induction fuel as [|fuel IH]; intros it Hit Hf; [lia|]. cbn [client_channel_loop].
    unfold TransactionTable_NextForClient. fold P. rewrite scan_split.
    destruct (scan P (drop it (txns s))) as [k|] eqn:Hs; [|done].
    pose proof (scan_lt _ _ _ Hs) as Hk. rewrite length_drop, Hlen in Hk.
    destruct (lookup_lt_is_Some_2 (txns s) (it + k)) as [t Ht]; [lia|].
    rewrite (list_lookup_total_correct _ _ _ Ht). rewrite lookup_drop, Ht. unfold Q at 1.
    destruct (rt_client_channel t =? client_channel); [done|].
    rewrite IH by lia. rewrite drop_drop. replace (it + k + 1)%nat with (it + (k + 1))%nat by lia.
    destruct (scan _ (drop (it + (k + 1)) (txns s))); cbn; [|done]. f_equal. lia. }
  rewrite Hloop by lia. rewrite drop_0. by destruct (scan _ (txns s)).
Qed.

Lemma for_client_channel_first_witness :
  let rq := {| rt_state := kTRANSACTION_RELAY_STATE_PENDING; rt_exclusive := true; rt_txn_id := 0; rt_interface_id := 4;
    rt_agent_peer_id := 9; rt_agent_channel := 1; rt_client_peer_id := 5; rt_client_channel := 2; rt_started_at_us := 0;
    rt_last_progress_us := 0; rt_completed_steps := 0; rt_relayed_bytes := 0; rt_consumed_bytes := 0 |} in
  TransactionTable_ForClientChannel (TransactionTable_Open TransactionTable_Reset rq).2 5 2 = Some 0%nat.
Proof.
  intros rq. rewrite for_client_channel_first; by vm_compute.
Defined.
