(* ===== verification/PeerDirectory.v ===== *)
(** * A live peer of the hub (src/hub/domain/hub_peer.c), and below the
    directory of peers (src/hub/domain/peer_directory.c) *)

From S2P Require Import Prelude Slots CString HelloMessage RegisterMessage ClientSession EchoTokens EgressQueue.

Notation HUB_PEER_ORIGIN_SIZE := 56%nat (only parsing).
Notation IDENTITY_FINGERPRINT_HEX_SIZE := 65%nat (only parsing).

Definition kHUB_PEER_ROLE_UNKNOWN : Z := 0.
Definition kHUB_PEER_ROLE_AGENT : Z := 1.
Definition kHUB_PEER_ROLE_CLIENT : Z := 2.
Definition kHUB_PEER_ROLE_ADMIN : Z := 3.

(** The order in which a full hub gives peers up: the smaller, the sooner. *)
Definition kHUB_PEER_DISPLACEMENT_UNIDENTIFIED : Z := 0.
Definition kHUB_PEER_DISPLACEMENT_IDLE_CLIENT : Z := 1.
Definition kHUB_PEER_DISPLACEMENT_ACTIVE_CLIENT : Z := 2.
Definition kHUB_PEER_DISPLACEMENT_UNVOUCHED_AGENT : Z := 3.
Definition kHUB_PEER_DISPLACEMENT_NEVER : Z := 4.

Record HubPeer := {
  hp_in_use : bool;
  hp_local : bool;
  hp_send_failed : bool;
  hp_vouched : bool;
  hp_peer_id : Z;
  hp_capabilities : Z;
  hp_role : Z;
  hp_transport_kind : Z;
  hp_hello_deadline_us : Z;
  hp_connected_at_us : Z;
  hp_frames_forwarded : Z;
  hp_frames_dropped : Z;
  hp_fingerprint_hex : list Z;
  hp_agent_name : list Z;
  hp_origin : list Z;
  hp_origin_host : list Z;
  hp_session : ClientSession;
  hp_echo_tokens : EchoTokens;
  hp_egress : EgressQueue;
}.

Definition EgressQueue_zero : EgressQueue := {|
  slots := replicate EGRESS_QUEUE_SLOTS_MAX EgressSlot_zero; channels := replicate EGRESS_QUEUE_CHANNELS_MAX EgressChannelList_zero;
  free_head := 0; used := 0; cursor := 0 |}.

(** A zeroed peer: zeroing a session or a token table resets it. *)
Definition HubPeer_zero : HubPeer := {|
  hp_in_use := false; hp_local := false; hp_send_failed := false; hp_vouched := false; hp_peer_id := 0; hp_capabilities := 0;
  hp_role := 0; hp_transport_kind := 0; hp_hello_deadline_us := 0; hp_connected_at_us := 0; hp_frames_forwarded := 0;
  hp_frames_dropped := 0; hp_fingerprint_hex := replicate IDENTITY_FINGERPRINT_HEX_SIZE 0;
  hp_agent_name := replicate REGISTER_AGENT_NAME_SIZE 0; hp_origin := replicate HUB_PEER_ORIGIN_SIZE 0;
  hp_origin_host := replicate HUB_PEER_ORIGIN_SIZE 0; hp_session := ClientSession_Reset; hp_echo_tokens := EchoTokens_Reset;
  hp_egress := EgressQueue_zero |}.

#[export] Instance HubPeer_slot : Slot HubPeer :=
  {| slot_in_use := hp_in_use; slot_zero := HubPeer_zero; slot_zero_free := eq_refl |}.

Definition with_role (self : HubPeer) (role : Z) : HubPeer := {|
  hp_in_use := hp_in_use self; hp_local := hp_local self; hp_send_failed := hp_send_failed self; hp_vouched := hp_vouched self;
  hp_peer_id := hp_peer_id self; hp_capabilities := hp_capabilities self; hp_role := role; hp_transport_kind := hp_transport_kind self;
  hp_hello_deadline_us := hp_hello_deadline_us self; hp_connected_at_us := hp_connected_at_us self;
  hp_frames_forwarded := hp_frames_forwarded self; hp_frames_dropped := hp_frames_dropped self;
  hp_fingerprint_hex := hp_fingerprint_hex self; hp_agent_name := hp_agent_name self; hp_origin := hp_origin self;
  hp_origin_host := hp_origin_host self; hp_session := hp_session self; hp_echo_tokens := hp_echo_tokens self; hp_egress := hp_egress self |}.

Definition HubPeer_AdoptRole (self : HubPeer) (wire_role : Z) : bool * HubPeer :=
  if wire_role =? kPEER_ROLE_ADMIN then
    if negb (hp_local self) then (false, self) else (true, with_role self kHUB_PEER_ROLE_ADMIN)
  else
    (true, with_role self (if wire_role =? kPEER_ROLE_AGENT then kHUB_PEER_ROLE_AGENT else kHUB_PEER_ROLE_CLIENT)).

Definition HubPeer_SetAgentName (self : HubPeer) (agent_name : list Z) : HubPeer := {|
  hp_in_use := hp_in_use self; hp_local := hp_local self; hp_send_failed := hp_send_failed self; hp_vouched := hp_vouched self;
  hp_peer_id := hp_peer_id self; hp_capabilities := hp_capabilities self; hp_role := hp_role self; hp_transport_kind := hp_transport_kind self;
  hp_hello_deadline_us := hp_hello_deadline_us self; hp_connected_at_us := hp_connected_at_us self;
  hp_frames_forwarded := hp_frames_forwarded self; hp_frames_dropped := hp_frames_dropped self;
  hp_fingerprint_hex := hp_fingerprint_hex self; hp_agent_name := BoundedString_Copy (hp_agent_name self) (Some agent_name);
  hp_origin := hp_origin self; hp_origin_host := hp_origin_host self; hp_session := hp_session self;
  hp_echo_tokens := hp_echo_tokens self; hp_egress := hp_egress self |}.

Definition isSamePlaintextAgent (self other : HubPeer) : bool :=
  if negb (hp_transport_kind self =? hp_transport_kind other) then false
  else if hp_local self && hp_local other then true
  else is_named (hp_origin_host self) && streq (hp_origin_host self) (hp_origin_host other).

Definition HubPeer_IsSameAgent (self other : HubPeer) : bool :=
  if is_named (hp_fingerprint_hex self) || is_named (hp_fingerprint_hex other)
  then streq (hp_fingerprint_hex self) (hp_fingerprint_hex other)
  else isSamePlaintextAgent self other.

Definition isUnidentified (self : HubPeer) : bool :=
  if hp_role self =? kHUB_PEER_ROLE_UNKNOWN then true
  else (hp_role self =? kHUB_PEER_ROLE_AGENT) && negb (is_named (hp_agent_name self)).

Definition HubPeer_Displacement (self : HubPeer) : Z :=
  if hp_local self || negb (is_named (hp_fingerprint_hex self)) || hp_vouched self then kHUB_PEER_DISPLACEMENT_NEVER
  else if isUnidentified self then kHUB_PEER_DISPLACEMENT_UNIDENTIFIED
  else if hp_role self =? kHUB_PEER_ROLE_AGENT then kHUB_PEER_DISPLACEMENT_UNVOUCHED_AGENT
  else if negb (hp_role self =? kHUB_PEER_ROLE_CLIENT) then kHUB_PEER_DISPLACEMENT_NEVER
  else if ClientSession_HoldsChannels (hp_session self) then kHUB_PEER_DISPLACEMENT_ACTIVE_CLIENT
  else kHUB_PEER_DISPLACEMENT_IDLE_CLIENT.

(** The admin projection of a peer. *)
Record AdminPeersReplyEntry := {
  ap_peer_id : Z;
  ap_frames_forwarded : Z;
  ap_frames_dropped : Z;
  ap_uptime_seconds : Z;
  ap_role : Z;
  ap_transport_kind : Z;
  ap_agent_name : list Z;
  ap_fingerprint_hex : list Z;
  ap_origin : list Z;
}.

Definition HubPeer_FillAdminEntry (now_us : Z) (self : HubPeer) : AdminPeersReplyEntry := {|
  ap_peer_id := hp_peer_id self; ap_role := hp_role self; ap_transport_kind := hp_transport_kind self;
  ap_frames_forwarded := hp_frames_forwarded self; ap_frames_dropped := hp_frames_dropped self;
  ap_uptime_seconds := if now_us >? hp_connected_at_us self then u32 ((now_us - hp_connected_at_us self) / 1000000) else 0;
  ap_agent_name := hp_agent_name self; ap_fingerprint_hex := hp_fingerprint_hex self; ap_origin := hp_origin self |}.

(** ** Facts *)

(** The admin role is granted to local peers only; the other roles are the ones the HELLO declares. *)
Lemma adopt_role_spec p r :
  (HubPeer_AdoptRole p r).1 = negb ((r =? kPEER_ROLE_ADMIN) && negb (hp_local p)) ∧
  (hp_role (HubPeer_AdoptRole p r).2 = kHUB_PEER_ROLE_ADMIN → hp_role p = kHUB_PEER_ROLE_ADMIN ∨ hp_local p = true).
Proof.
  unfold HubPeer_AdoptRole. destruct (r =? kPEER_ROLE_ADMIN); [destruct (hp_local p) eqn:Hl|]; cbn; [by split; [|right]|by split; [|left]|].
  split; [done|]. by destruct (r =? kPEER_ROLE_AGENT).
Qed.

Lemma displacement_range p : 0 ≤ HubPeer_Displacement p ≤ 4.
Proof. unfold HubPeer_Displacement. repeat case_match; done. Qed.

(** A peer that can be displaced is remote, encrypted and not vouched for. *)
Lemma displaceable p :
  HubPeer_Displacement p ≠ kHUB_PEER_DISPLACEMENT_NEVER →
  hp_local p = false ∧ is_named (hp_fingerprint_hex p) = true ∧ hp_vouched p = false ∧ hp_role p ≠ kHUB_PEER_ROLE_ADMIN.
Proof.
  unfold HubPeer_Displacement, isUnidentified. case_tests; try done; intros _; (split_and!; [done..|]);
    unfold kHUB_PEER_ROLE_ADMIN, kHUB_PEER_ROLE_UNKNOWN, kHUB_PEER_ROLE_CLIENT, kHUB_PEER_ROLE_AGENT in *; lia.
Qed.

(** * The live peers of the hub (src/hub/domain/peer_directory.c) *)
Notation PEER_DIRECTORY_MAX := 512%nat (only parsing).
Notation ADMIN_PEERS_REPLY_ENTRIES_MAX := 15%nat (only parsing).
Definition ADMIN_REPLY_FLAG_MORE : Z := 1.

Record PeerDirectory := { peers : list HubPeer }.

Definition PeerDirectory_Reset : PeerDirectory := {| peers := replicate PEER_DIRECTORY_MAX HubPeer_zero |}.

(** The slot is zeroed, then claimed; its session and egress queue are reset. *)
Definition allocated_peer (peer_id : Z) : HubPeer := {|
  hp_in_use := true; hp_local := false; hp_send_failed := false; hp_vouched := false; hp_peer_id := peer_id; hp_capabilities := 0;
  hp_role := hp_role HubPeer_zero; hp_transport_kind := 0; hp_hello_deadline_us := 0; hp_connected_at_us := 0;
  hp_frames_forwarded := 0; hp_frames_dropped := 0; hp_fingerprint_hex := hp_fingerprint_hex HubPeer_zero;
  hp_agent_name := hp_agent_name HubPeer_zero; hp_origin := hp_origin HubPeer_zero; hp_origin_host := hp_origin_host HubPeer_zero;
  hp_session := ClientSession_Reset; hp_echo_tokens := hp_echo_tokens HubPeer_zero; hp_egress := EgressQueue_Reset |}.

(** Pointers into the directory are slot indices. *)
Definition PeerDirectory_Allocate (self : PeerDirectory) (peer_id : Z) : option nat * PeerDirectory :=
  match free_slot (peers self) with
  | Some i => (Some i, {| peers := <[i := allocated_peer peer_id]> (peers self) |})
  | None => (None, self)
  end.

Definition is_peer (peer_id : Z) (p : HubPeer) : bool := hp_in_use p && (hp_peer_id p =? peer_id).

Definition PeerDirectory_Find (self : PeerDirectory) (peer_id : Z) : option nat := scan (is_peer peer_id) (peers self).

Definition PeerDirectory_Release (self : PeerDirectory) (peer_id : Z) : PeerDirectory :=
  match PeerDirectory_Find self peer_id with
  | Some i => {| peers := <[i := HubPeer_zero]> (peers self) |}
  | None => self
  end.

Definition PeerDirectory_At (self : PeerDirectory) (index : nat) : option HubPeer :=
  if Nat.leb PEER_DIRECTORY_MAX index then None
  else p ← peers self !! index; if hp_in_use p then Some p else None.

Definition PeerDirectory_FindAgentByName (self : PeerDirectory) (agent_name : list Z) : option nat :=
  scan (λ p, hp_in_use p && (hp_role p =? kHUB_PEER_ROLE_AGENT) && streq (hp_agent_name p) agent_name) (peers self).

Definition displacesBefore (peer other : HubPeer) : bool :=
  if negb (HubPeer_Displacement peer =? HubPeer_Displacement other)
  then HubPeer_Displacement peer <? HubPeer_Displacement other
  else hp_connected_at_us peer >? hp_connected_at_us other.

Definition is_displaceable (p : HubPeer) : bool :=
  hp_in_use p && negb (HubPeer_Displacement p =? kHUB_PEER_DISPLACEMENT_NEVER).

Definition PeerDirectory_FindDisplaceable (self : PeerDirectory) : option (nat * HubPeer) :=
  select is_displaceable displacesBefore 0 None (peers self).

Definition is_unvouched_agent (p : HubPeer) : bool :=
  hp_in_use p && (HubPeer_Displacement p =? kHUB_PEER_DISPLACEMENT_UNVOUCHED_AGENT).

Definition PeerDirectory_FindDisplaceableAgent (self : PeerDirectory) : option (nat * HubPeer) :=
  select is_unvouched_agent (λ peer candidate, hp_connected_at_us peer >? hp_connected_at_us candidate) 0 None (peers self).

Definition PeerDirectory_Count (self : PeerDirectory) : Z := u16 (countb hp_in_use (peers self)).

Definition PeerDirectory_IsFull (self : PeerDirectory) : bool := PeerDirectory_Count self =? Z.of_nat PEER_DIRECTORY_MAX.

Definition PeerDirectory_CountRole (self : PeerDirectory) (role : Z) : Z :=
  u16 (countb (λ p, hp_in_use p && (hp_role p =? role)) (peers self)).

Definition PeerDirectory_CountAwaitingHelloFrom (self : PeerDirectory) (origin_host : list Z) : Z :=
  u16 (countb (λ p, hp_in_use p && (hp_role p =? kHUB_PEER_ROLE_UNKNOWN) && streq (hp_origin_host p) origin_host) (peers self)).

(** The reply: its entries, and whether the MORE flag is set. *)
Definition PeerDirectory_List (self : PeerDirectory) (offset : Z) (now_us : Z) : list AdminPeersReplyEntry * bool :=
  page hp_in_use (HubPeer_FillAdminEntry now_us) ADMIN_PEERS_REPLY_ENTRIES_MAX (Z.to_nat offset) [] (peers self).

(** ** Invariant *)
Record directory_wf (s : PeerDirectory) : Prop := {
  dir_len : length (peers s) = PEER_DIRECTORY_MAX;
  dir_clean : clean (peers s);
  dir_unique : unique_by hp_peer_id (peers s);
}.

Lemma directory_wf_reset : directory_wf PeerDirectory_Reset.
Proof. split; cbn [PeerDirectory_Reset peers]; [done|exact (clean_replicate 512)|exact (unique_by_replicate _ 512)]. Qed.

Lemma is_peer_true id p : is_peer id p = true ↔ hp_in_use p = true ∧ hp_peer_id p = id.
Proof. unfold is_peer. by rewrite andb_true_iff, Z.eqb_eq. Qed.

Lemma directory_find_None s id :
  PeerDirectory_Find s id = None ↔ ∀ i p, peers s !! i = Some p → hp_in_use p = true → hp_peer_id p ≠ id.
Proof.
  unfold PeerDirectory_Find. rewrite scan_None. split; intros Hall i p Hp.
  - intros Hu Hid. specialize (Hall i p Hp). rewrite (proj2 (is_peer_true id p)) in Hall; done.
  - destruct (is_peer id p) eqn:He; [|done]. apply is_peer_true in He as [Hu Hid]. by destruct (Hall i p Hp Hu).
Qed.

Lemma directory_find_live s i p :
  directory_wf s → peers s !! i = Some p → hp_in_use p = true → PeerDirectory_Find s (hp_peer_id p) = Some i.
Proof.
  intros Hwf Hp Hu. apply (unique_by_scan hp_peer_id _ _ p); [apply Hwf|done|done|by apply is_peer_true|].
  by intros y [? ?]%is_peer_true.
Qed.

Lemma directory_wf_allocate s id :
  directory_wf s → PeerDirectory_Find s id = None → directory_wf (PeerDirectory_Allocate s id).2.
Proof.
  intros [Hl Hc Hu] Hnone. unfold PeerDirectory_Allocate. destruct (free_slot (peers s)) as [i|] eqn:Hf; [|done].
  split; cbn [snd peers]; [by rewrite length_insert|by apply (clean_insert (A := HubPeer))|].
  apply unique_by_insert; [done|]. intros _ j z Hz _ Huz. rewrite directory_find_None in Hnone. cbn. by eapply Hnone.
Qed.

Lemma directory_wf_release s id : directory_wf s → directory_wf (PeerDirectory_Release s id).
Proof.
  intros [Hl Hc Hu]. unfold PeerDirectory_Release. destruct (PeerDirectory_Find s id) as [i|]; [|done].
  split; cbn [peers]; [by rewrite length_insert|by apply (clean_insert (A := HubPeer))|exact (unique_by_release _ _ i Hu)].
Qed.

(** ** Connections and disconnections *)
Inductive dir_op := DConnect (peer_id : Z) | DDisconnect (peer_id : Z).

Definition dir_step (s : PeerDirectory) (op : dir_op) : PeerDirectory :=
  match op with
  | DConnect id => (PeerDirectory_Allocate s id).2
  | DDisconnect id => PeerDirectory_Release s id
  end.

(** The transport never announces a peer id that is still connected. *)
Fixpoint fresh_ids (s : PeerDirectory) (ops : list dir_op) : Prop :=
  match ops with
  | [] => True
  | op :: ops' =>
      match op with DConnect id => PeerDirectory_Find s id = None | DDisconnect _ => True end ∧ fresh_ids (dir_step s op) ops'
  end.

Lemma directory_wf_run s ops : directory_wf s → fresh_ids s ops → directory_wf (foldl dir_step s ops).
Proof.
  revert s. induction ops as [|[id|id] ops IH]; intros s Hwf Hf; cbn [foldl dir_step]; [done|..]; destruct Hf as [Hn Hf]; apply IH; try done.
  - by apply directory_wf_allocate.
  - by apply directory_wf_release.
Qed.

(** The directory is a map from peer ids. For any sequence of connections
    with fresh ids and disconnections, a connection is admitted exactly when
    fewer than 512 peers are connected; the admitted peer, and no other, is then
    found under its id, starting with no role, no channels and an empty egress
    queue; and disconnecting one peer removes that peer only. *)
Theorem directory_is_map (ops : list dir_op) (id : Z) :
  fresh_ids PeerDirectory_Reset ops →
  let s := foldl dir_step PeerDirectory_Reset ops in
  PeerDirectory_Find s id = None →
  let '(slot, s1) := PeerDirectory_Allocate s id in
  PeerDirectory_Count s = zlen (live (peers s)) ∧
  (is_Some slot ↔ PeerDirectory_IsFull s = false) ∧
  (∀ i, slot = Some i → PeerDirectory_Find s1 id = Some i ∧ PeerDirectory_At s1 i = Some (allocated_peer id)) ∧
  (∀ i p, p ∈ live (peers s) → hp_peer_id p ≠ id →
     PeerDirectory_Find s (hp_peer_id p) = Some i → PeerDirectory_Find s1 (hp_peer_id p) = Some i ∧ PeerDirectory_At s1 i = Some p) ∧
  PeerDirectory_Find (PeerDirectory_Release s1 id) id = None ∧
  (∀ p, p ∈ live (peers (PeerDirectory_Release s1 id)) ↔ p ∈ live (peers s1) ∧ hp_peer_id p ≠ id).
Proof.
  intros Hf s Hnone. pose proof (directory_wf_run _ _ directory_wf_reset Hf) as Hwf. fold s in Hwf.
  pose proof (directory_wf_allocate s id Hwf Hnone) as Hwf1.
  assert (PeerDirectory_Count s = countb hp_in_use (peers s)) as Hcount.
  { unfold PeerDirectory_Count. pose proof (countb_bounds hp_in_use (peers s)) as Hb. unfold zlen in Hb.
    rewrite (dir_len _ Hwf) in Hb. rewrite u16_id; lia. }
  assert (∀ s1 i p, directory_wf s1 → peers s1 !! i = Some p → hp_in_use p = true →
    PeerDirectory_Find s1 (hp_peer_id p) = Some i ∧ PeerDirectory_At s1 i = Some p) as Hfind.
  { intros s1 i p Hw Hp Hu. split; [by apply directory_find_live|]. unfold PeerDirectory_At.
    pose proof (lookup_lt_Some _ _ _ Hp) as Hlt. rewrite (dir_len _ Hw) in Hlt.
    rewrite (proj2 (Nat.leb_gt 512 i)) by done. rewrite Hp. cbn. by rewrite Hu. }
  destruct (PeerDirectory_Allocate s id) as [slot s1] eqn:Ha. cbn [snd] in Hwf1.
  assert (∀ p, p ∈ live (peers (PeerDirectory_Release s1 id)) ↔ p ∈ live (peers s1) ∧ hp_peer_id p ≠ id) as Hrel.
  { intros p. unfold PeerDirectory_Release. destruct (PeerDirectory_Find s1 id) as [k|] eqn:Hk.
    - pose proof Hk as (x & Hx & [Hux Hidx]%is_peer_true)%scan_hit. cbn [peers]. rewrite !elem_of_live. split.
      + intros (j & [(<- & <- & _)|(Hne & Hj)]%list_lookup_insert_Some & Hu); [done|]. split; [by exists j|].
        intros Hid. apply Hne. eapply (dir_unique _ Hwf1 k j x p); try done. congruence.
      + intros [(j & Hj & Hu) Hne]. exists j. rewrite list_lookup_insert_ne; [done|]. intros ->. simplify_eq.
    - split; [|tauto]. intros Hin. split; [done|]. apply elem_of_live in Hin as (j & Hj & Hu).
      rewrite directory_find_None in Hk. by eapply Hk. }
  split_and!; [by unfold zlen; rewrite live_length| | | | |done].
  - unfold PeerDirectory_IsFull. rewrite Hcount, Z.eqb_neq. unfold PeerDirectory_Allocate in Ha.
    destruct (free_slot (peers s)) as [i|] eqn:Hfree; simplify_eq.
    + split; [|by eexists]. intros _ He. apply free_slot_Some in Hfree as (x & Hx & Hu).
      assert (countb hp_in_use (peers s) = zlen (peers s)) as Hfull by (unfold zlen; by rewrite (dir_len _ Hwf)).
      rewrite countb_full in Hfull. specialize (Hfull i x Hx). cbn in Hu. congruence.
    + split; [by intros [? ?]|]. intros Hne. destruct Hne. apply vacancies_None in Hfree. unfold vacancies, zlen in Hfree.
      rewrite (dir_len _ Hwf) in Hfree. cbn in Hfree. lia.
  - intros i ->. unfold PeerDirectory_Allocate in Ha. destruct (free_slot (peers s)) as [k|] eqn:Hfree; simplify_eq.
    apply (Hfind _ i (allocated_peer id)); [done| |done]. apply list_lookup_insert_eq. by eapply scan_lt.
  - intros i p Hp Hne Hfi. pose proof Hfi as (x & Hx & [Hux Hidx]%is_peer_true)%scan_hit.
    apply elem_of_live in Hp as (j & Hj & Hu). cbn in Hu. rewrite (directory_find_live s j p Hwf Hj Hu) in Hfi.
    injection Hfi as ->. apply Hfind; [done| |done]. unfold PeerDirectory_Allocate in Ha.
    destruct (free_slot (peers s)) as [k|] eqn:Hfree; simplify_eq; [|done]. cbn [peers]. rewrite list_lookup_insert_ne; [done|].
    intros ->. apply free_slot_Some in Hfree as (y & Hy & Huy). simplify_eq. cbn in Huy. congruence.
  - apply directory_find_None. intros i p Hp Hu. apply (Hrel p). apply elem_of_live. by exists i.
Qed.

Lemma directory_is_map_witness :
  let s := foldl dir_step PeerDirectory_Reset [DConnect 4; DDisconnect 4; DConnect 5] in
  PeerDirectory_Find s 9 = None ∧ PeerDirectory_Find (PeerDirectory_Release (PeerDirectory_Allocate s 9).2 9) 9 = None.
Proof.
  intros s. split; [by vm_compute|].
  pose proof (directory_is_map [DConnect 4; DDisconnect 4; DConnect 5] 9 ltac:(by vm_compute) ltac:(by vm_compute)) as Hm.
  cbv zeta in Hm. fold s in Hm. destruct (PeerDirectory_Allocate s 9) as [slot s1]. cbn [snd]. by destruct Hm as (_ & _ & _ & _ & ? & _).
Defined.

(** ** Displacement *)

Lemma displaces_irrefl p : displacesBefore p p = false.
Proof. unfold displacesBefore. rewrite Z.eqb_refl. cbn. rewrite Z.gtb_ltb. apply Z.ltb_irrefl. Qed.

Lemma displaces_false p q :
  displacesBefore p q = false ↔
    HubPeer_Displacement q < HubPeer_Displacement p ∨
    (HubPeer_Displacement q = HubPeer_Displacement p ∧ hp_connected_at_us p ≤ hp_connected_at_us q).
Proof.
  unfold displacesBefore. destruct (Z.eqb_spec (HubPeer_Displacement p) (HubPeer_Displacement q)) as [He|He]; cbn.
  - rewrite Z.gtb_ltb, Z.ltb_ge. lia.
  - rewrite Z.ltb_ge. lia.
Qed.

Lemma displaces_true p q :
  displacesBefore p q = true → displacesBefore q p = false.
Proof.
  intros Hp. apply displaces_false. unfold displacesBefore in Hp.
  destruct (Z.eqb_spec (HubPeer_Displacement p) (HubPeer_Displacement q)) as [He|He]; cbn in Hp; bool_to_prop; lia.
Qed.


Lemma displaces_trans p q r : displacesBefore p q = false → displacesBefore q r = false → displacesBefore p r = false.
Proof. rewrite !displaces_false. lia. Qed.

(** The displaceable peer found is a live one. *)
Lemma displaceable_found s i p :
  PeerDirectory_FindDisplaceable s = Some (i, p) → peers s !! i = Some p ∧ hp_in_use p = true.
Proof.
  intros (Hp & [Hu _]%andb_true_iff & _)%(select_Some _ _ displaces_irrefl displaces_trans displaces_true). done.
Qed.

(** Displacement policy. The peer a full hub gives up is never local,
    never unencrypted, never vouched for and never an admin; no other peer
    ranks lower (unidentified, then idle clients, then active clients, then
    unvouched agents) and, within a rank, none connected more recently; and
    there is one exactly when some live peer may be displaced at all. *)
Theorem displacement_policy (s : PeerDirectory) :
  match PeerDirectory_FindDisplaceable s with
  | Some (i, p) =>
      peers s !! i = Some p ∧ hp_in_use p = true ∧ hp_local p = false ∧ is_named (hp_fingerprint_hex p) = true ∧
      hp_vouched p = false ∧ hp_role p ≠ kHUB_PEER_ROLE_ADMIN ∧
      ∀ q, q ∈ live (peers s) → HubPeer_Displacement q ≠ kHUB_PEER_DISPLACEMENT_NEVER →
        HubPeer_Displacement p < HubPeer_Displacement q ∨
        (HubPeer_Displacement p = HubPeer_Displacement q ∧ hp_connected_at_us q ≤ hp_connected_at_us p)
  | None => ∀ q, q ∈ live (peers s) → HubPeer_Displacement q = kHUB_PEER_DISPLACEMENT_NEVER
  end.
Proof.
  assert (∀ q, is_displaceable q = true ↔ hp_in_use q = true ∧ HubPeer_Displacement q ≠ kHUB_PEER_DISPLACEMENT_NEVER) as Hd.
  { intros q. unfold is_displaceable. by rewrite andb_true_iff, negb_true_iff, Z.eqb_neq. }
  destruct (PeerDirectory_FindDisplaceable s) as [[i p]|] eqn:Hs; unfold PeerDirectory_FindDisplaceable in Hs.
  - destruct (select_Some _ _ displaces_irrefl displaces_trans displaces_true _ _ _ Hs) as (Hp & Hok & Hmin).
    apply Hd in Hok as [Hu Hne]. destruct (displaceable p Hne) as (? & ? & ? & ?). split_and!; try done.
    intros q (j & Hj & Huq)%elem_of_live Hq. apply displaces_false. apply (Hmin j q Hj), Hd. done.
  - intros q (j & Hj & Hu)%elem_of_live.
    pose proof (proj1 (select_None _ _ displaces_irrefl displaces_trans displaces_true (peers s)) Hs j q Hj) as Hno.
    destruct (decide (HubPeer_Displacement q = kHUB_PEER_DISPLACEMENT_NEVER)) as [|Hne]; [done|].
    rewrite (proj2 (Hd q)) in Hno; done.
Qed.
