(* ===== verification/RejectedPeers.v ===== *)
(** * The identities the hub turned away (src/hub/domain/rejected_peers.c)

    A table of 16, one entry per fingerprint and role; a new identity evicts
    the one with the fewest attempts, the least recently seen among equals. *)

From S2P Require Import Prelude Slots CString RegisterMessage PeerDirectory.

Notation REJECTED_PEERS_MAX := 16%nat (only parsing).
Notation ADMIN_REJECTED_REPLY_ENTRIES_MAX := 15%nat (only parsing).

Record RejectedPeer := {
  rp_in_use : bool;
  rp_role : Z;
  rp_reason : Z;
  rp_attempts : Z;
  rp_last_seen_us : Z;
  rp_name : list Z;
  rp_fingerprint_hex : list Z;
  rp_origin : list Z;
}.

Definition RejectedPeer_zero : RejectedPeer := {|
  rp_in_use := false; rp_role := 0; rp_reason := 0; rp_attempts := 0; rp_last_seen_us := 0;
  rp_name := replicate REGISTER_AGENT_NAME_SIZE 0; rp_fingerprint_hex := replicate IDENTITY_FINGERPRINT_HEX_SIZE 0;
  rp_origin := replicate HUB_PEER_ORIGIN_SIZE 0 |}.

#[export] Instance RejectedPeer_slot : Slot RejectedPeer :=
  {| slot_in_use := rp_in_use; slot_zero := RejectedPeer_zero; slot_zero_free := eq_refl |}.

Record RejectedPeers := { rejected : list RejectedPeer }.

Record Rejection := { rj_peer : HubPeer; rj_name : list Z; rj_reason : Z; rj_now_us : Z }.

Definition RejectedPeers_Reset : RejectedPeers := {| rejected := replicate REJECTED_PEERS_MAX RejectedPeer_zero |}.

Definition of_identity (peer : HubPeer) (e : RejectedPeer) : bool :=
  rp_in_use e && (rp_role e =? hp_role peer) && streq (rp_fingerprint_hex e) (hp_fingerprint_hex peer).

Definition rejected_findEntry (self : RejectedPeers) (peer : HubPeer) : option nat := scan (of_identity peer) (rejected self).

Definition isLessWorthKeeping (candidate current : RejectedPeer) : bool :=
  if negb (rp_attempts candidate =? rp_attempts current) then rp_attempts candidate <? rp_attempts current
  else rp_last_seen_us candidate <? rp_last_seen_us current.

(** The loop returns at the first free entry, else with the victim. *)
Fixpoint claim_loop (i : nat) (victim : nat * RejectedPeer) (l : list RejectedPeer) : nat :=
  match l with
  | [] => victim.1
  | e :: l' =>
      if negb (rp_in_use e) then i
      else claim_loop (S i) (if isLessWorthKeeping e victim.2 then (i, e) else victim) l'
  end.

Definition claimEntry (self : RejectedPeers) : nat := claim_loop 0 (0%nat, rejected self !!! 0%nat) (rejected self).

Definition record_attempt (rejection : Rejection) (e : RejectedPeer) : RejectedPeer := {|
  rp_in_use := rp_in_use e; rp_role := rp_role e; rp_reason := rj_reason rejection; rp_attempts := u32 (rp_attempts e + 1);
  rp_last_seen_us := rj_now_us rejection; rp_name := BoundedString_Copy (rp_name e) (Some (rj_name rejection));
  rp_fingerprint_hex := rp_fingerprint_hex e; rp_origin := hp_origin (rj_peer rejection) |}.

Definition RejectedPeers_Record (self : RejectedPeers) (rejection : Rejection) : RejectedPeers :=
  let peer := rj_peer rejection in
  if negb (is_named (hp_fingerprint_hex peer)) then self
  else
    match rejected_findEntry self peer with
    | Some i => {| rejected := alter (record_attempt rejection) i (rejected self) |}
    | None =>
        let fresh := {| rp_in_use := true; rp_role := hp_role peer; rp_reason := 0; rp_attempts := 0; rp_last_seen_us := 0;
                        rp_name := rp_name RejectedPeer_zero; rp_fingerprint_hex := hp_fingerprint_hex peer;
                        rp_origin := rp_origin RejectedPeer_zero |} in
        {| rejected := <[claimEntry self := record_attempt rejection fresh]> (rejected self) |}
    end.

Definition RejectedPeers_Forget (self : RejectedPeers) (peer : HubPeer) : RejectedPeers :=
  match rejected_findEntry self peer with
  | Some i => {| rejected := <[i := RejectedPeer_zero]> (rejected self) |}
  | None => self
  end.

Record AdminRejectedReplyEntry := {
  ar_role : Z;
  ar_reason : Z;
  ar_attempts : Z;
  ar_last_seen_seconds : Z;
  ar_name : list Z;
  ar_fingerprint_hex : list Z;
  ar_origin : list Z;
}.

Definition rejected_fillAdminEntry (now_us : Z) (e : RejectedPeer) : AdminRejectedReplyEntry := {|
  ar_role := rp_role e; ar_reason := rp_reason e; ar_attempts := rp_attempts e;
  ar_last_seen_seconds := if now_us >? rp_last_seen_us e then u32 ((now_us - rp_last_seen_us e) / 1000000) else 0;
  ar_name := rp_name e; ar_fingerprint_hex := rp_fingerprint_hex e; ar_origin := rp_origin e |}.

Definition RejectedPeers_List (self : RejectedPeers) (offset now_us : Z) : list AdminRejectedReplyEntry * bool :=
  page rp_in_use (rejected_fillAdminEntry now_us) ADMIN_REJECTED_REPLY_ENTRIES_MAX (Z.to_nat offset) [] (rejected self).

(** ** Invariant *)
Definition rejected_key (e : RejectedPeer) : Z * list Z := (rp_role e, cstr (rp_fingerprint_hex e)).

Record rejected_wf (s : RejectedPeers) : Prop := {
  rej_len : length (rejected s) = REJECTED_PEERS_MAX;
  rej_clean : clean (rejected s);
  rej_unique : unique_by rejected_key (rejected s);
}.

Definition peer_key (p : HubPeer) : Z * list Z := (hp_role p, cstr (hp_fingerprint_hex p)).

Lemma of_identity_true p e : of_identity p e = true ↔ rp_in_use e = true ∧ rejected_key e = peer_key p.
Proof. unfold of_identity, rejected_key, peer_key. rewrite !andb_true_iff, Z.eqb_eq, streq_true, pair_equal_spec. tauto. Qed.

Lemma rejected_wf_reset : rejected_wf RejectedPeers_Reset.
Proof. split; cbn [RejectedPeers_Reset rejected]; [done|exact (clean_replicate 16)|exact (unique_by_replicate _ 16)]. Qed.

(** [a] is kept over [b]: more attempts, or as many and seen as recently. *)
Definition worth_at_least (a b : RejectedPeer) : Prop :=
  rp_attempts b < rp_attempts a ∨ (rp_attempts b = rp_attempts a ∧ rp_last_seen_us b ≤ rp_last_seen_us a).

Lemma less_worth_false c d : isLessWorthKeeping c d = false ↔ worth_at_least c d.
Proof.
  unfold isLessWorthKeeping, worth_at_least. destruct (Z.eqb_spec (rp_attempts c) (rp_attempts d)); cbn; rewrite Z.ltb_ge; lia.
Qed.
Lemma less_worth_true c d : isLessWorthKeeping c d = true → worth_at_least d c.
Proof.
  unfold isLessWorthKeeping, worth_at_least. destruct (Z.eqb_spec (rp_attempts c) (rp_attempts d)); cbn; rewrite Z.ltb_lt; lia.
Qed.
Lemma worth_trans a b c : worth_at_least a b → worth_at_least b c → worth_at_least a c.
Proof. unfold worth_at_least. lia. Qed.

(** The claimed index: the first free entry, or an entry worth least. *)
Lemma claim_loop_spec i v l :
  let k := claim_loop i v l in
  (∃ j e, l !! j = Some e ∧ rp_in_use e = false ∧ k = (i + j)%nat ∧ ∀ j' e', (j' < j)%nat → l !! j' = Some e' → rp_in_use e' = true) ∨
  ((∀ j e, l !! j = Some e → rp_in_use e = true) ∧
   ∃ e, ((k, e) = v ∨ ∃ j, l !! j = Some e ∧ k = (i + j)%nat) ∧ worth_at_least v.2 e ∧ ∀ j e', l !! j = Some e' → worth_at_least e' e).
Proof.
  revert i v. induction l as [|x l IH]; intros i v; cbn [claim_loop].
  { right. split; [done|]. exists v.2. split_and!; [left; by destruct v| |done]. unfold worth_at_least. lia. }
  destruct (rp_in_use x) eqn:Hx; cbn [negb].
  2: { left. exists 0%nat, x. split_and!; [done|done|lia|]. intros; lia. }
  destruct (IH (S i) (if isLessWorthKeeping x v.2 then (i, x) else v)) as [(j & e & He & Hu & Hk & Hlt)|(Hall & e & Hfrom & Hv & Hmin)].
  - left. exists (S j), e. split_and!; [done|done|lia|]. intros [|j'] e' Hj' He'; simplify_eq/=; [done|]. eapply Hlt; [|done]. lia.
  - right. split; [intros [|j] e' He'; simplify_eq/=; [done|]; by eapply Hall|]. exists e.
    destruct (isLessWorthKeeping x v.2) eqn:Hless.
    + apply less_worth_true in Hless. cbn in Hv. split_and!.
      * right. destruct Hfrom as [[= -> ->]|(j & Hj & Hk)]; [exists 0%nat; split; [done|lia]|exists (S j); split; [done|lia]].
      * by eapply worth_trans.
      * intros [|j] e' He'; simplify_eq/=; [done|]. by eapply Hmin.
    + apply less_worth_false in Hless. split_and!.
      * destruct Hfrom as [?|(j & Hj & Hk)]; [by left|right; exists (S j); split; [done|lia]].
      * done.
      * intros [|j] e' He'; simplify_eq/=; [by eapply worth_trans|]. by eapply Hmin.
Qed.

Lemma claimEntry_spec s :
  rejected_wf s → ∃ v, rejected s !! claimEntry s = Some v ∧
    (rp_in_use v = false ∨ (∀ e, e ∈ rejected s → rp_in_use e = true ∧ worth_at_least e v)).
Proof.
  intros Hwf. unfold claimEntry. set (v := (0%nat, rejected s !!! 0%nat)).
  assert (rejected s !! 0%nat = Some v.2) as H0 by (apply list_lookup_lookup_total_lt; rewrite (rej_len _ Hwf); lia).
  destruct (claim_loop_spec 0 v (rejected s)) as [(j & e & He & Hu & -> & _)|(Hall & e & Hfrom & Hv & Hmin)].
  - exists e. split; [done|by left].
  - exists e. split; [destruct Hfrom as [Hk|(j & Hj & ->)]; [|done]|].
    + pose proof (f_equal fst Hk) as Hk1. pose proof (f_equal snd Hk) as Hk2. cbn [fst snd] in Hk1, Hk2.
      rewrite Hk1, Hk2. exact H0.
    + right. intros e' (j & Hj)%list_elem_of_lookup. split; [by eapply Hall|by eapply Hmin].
Qed.

(** ** Operations *)

Lemma rejected_wf_record s r : rejected_wf s → rejected_wf (RejectedPeers_Record s r).
Proof.
  intros Hwf. unfold RejectedPeers_Record. destruct (is_named _); cbn [negb]; [|done].
  destruct (rejected_findEntry s (rj_peer r)) as [i|] eqn:Hf.
  - apply scan_hit in Hf as (e & He & [Hu _]%of_identity_true). destruct Hwf as [Hl Hc Hun]. split; cbn [rejected].
    + by rewrite length_alter.
    + apply clean_alter; [done|intros x Hx Hfx; cbn in *; congruence|]. intros x Hx. by simplify_eq.
    + by apply unique_by_alter.
  - destruct Hwf as [Hl Hc Hun]. split; cbn [rejected].
    + by rewrite length_insert.
    + by apply (clean_insert (A := RejectedPeer)).
    + apply unique_by_insert; [done|]. intros _ j z Hz _ Hu Hk. unfold rejected_findEntry in Hf. rewrite scan_None in Hf.
      specialize (Hf j z Hz). rewrite (proj2 (of_identity_true (rj_peer r) z)) in Hf; [done|]. split; [done|]. by rewrite Hk.
Qed.

Lemma rejected_wf_forget s p : rejected_wf s → rejected_wf (RejectedPeers_Forget s p).
Proof.
  intros Hwf. unfold RejectedPeers_Forget. destruct (rejected_findEntry s p) as [i|]; [|done]. destruct Hwf as [Hl Hc Hun].
  split; cbn [rejected]; [by rewrite length_insert|by apply (clean_insert (A := RejectedPeer))|exact (unique_by_release _ _ i Hun)].
Qed.

Inductive rejected_op := RjRecord (r : Rejection) | RjForget (p : HubPeer).

Definition rejected_step (s : RejectedPeers) (op : rejected_op) : RejectedPeers :=
  match op with RjRecord r => RejectedPeers_Record s r | RjForget p => RejectedPeers_Forget s p end.

Lemma rejected_wf_run ops : rejected_wf (foldl rejected_step RejectedPeers_Reset ops).
Proof.
  assert (∀ s, rejected_wf s → rejected_wf (foldl rejected_step s ops)) as H; [|apply H, rejected_wf_reset].
  induction ops as [|[r|p] ops IH]; intros s Hwf; simpl; [done|..]; apply IH; [by apply rejected_wf_record|by apply rejected_wf_forget].
Qed.

(** Recording a rejection. In every reachable table each (role,
    fingerprint) has at most one entry; recording a known identity bumps its
    attempt count in place and leaves every other entry alone; recording a new
    one gives it an entry with one attempt, taking a free slot if there is one
    and otherwise the slot of an identity no other is worth less than: a device
    that keeps retrying outlives one-shot certificates. *)
Theorem rejection_recorded (ops : list rejected_op) (r : Rejection) :
  let s := foldl rejected_step RejectedPeers_Reset ops in
  is_named (hp_fingerprint_hex (rj_peer r)) = true →
  let s' := RejectedPeers_Record s r in
  unique_by rejected_key (rejected s') ∧
  ∃ i e, rejected s' !! i = Some e ∧ rp_in_use e = true ∧ rejected_key e = peer_key (rj_peer r) ∧ rp_last_seen_us e = rj_now_us r ∧
    (∀ j, j ≠ i → rejected s' !! j = rejected s !! j) ∧
    ∃ old, rejected s !! i = Some old ∧
      ((rp_in_use old = true ∧ rejected_key old = peer_key (rj_peer r) ∧ rp_attempts e = u32 (rp_attempts old + 1)) ∨
       (rejected_findEntry s (rj_peer r) = None ∧ rp_attempts e = 1 ∧
        (rp_in_use old = false ∨ ∀ x, x ∈ rejected s → rp_in_use x = true ∧ worth_at_least x old))).
Proof.
  intros s Hn s'. pose proof (rejected_wf_run ops) as Hwf. fold s in Hwf. pose proof (rejected_wf_record s r Hwf) as Hwf'.
  split; [apply Hwf'|]. unfold s', RejectedPeers_Record. rewrite Hn. cbn [negb].
  destruct (rejected_findEntry s (rj_peer r)) as [i|] eqn:Hf; cbn [rejected].
  - pose proof Hf as (old & Hold & [Hu Hk]%of_identity_true)%scan_hit. exists i, (record_attempt r old).
    rewrite list_lookup_alter_eq, Hold. split_and!; try done; [intros j Hj; by apply list_lookup_alter_ne|]. exists old. split; [done|by left].
  - destruct (claimEntry_spec s Hwf) as (old & Hold & Hwhy). eexists (claimEntry s), _. split_and!.
    + apply list_lookup_insert_eq. by eapply lookup_lt_Some.
    + done.
    + done.
    + done.
    + intros j Hj. by apply list_lookup_insert_ne.
    + exists old. split; [done|]. right. by split_and!.
Qed.

Lemma rejection_recorded_witness :
  let p := {| hp_in_use := true; hp_local := false; hp_send_failed := false; hp_vouched := false; hp_peer_id := 3; hp_capabilities := 0;
    hp_role := 2; hp_transport_kind := 0; hp_hello_deadline_us := 0; hp_connected_at_us := 0; hp_frames_forwarded := 0;
    hp_frames_dropped := 0; hp_fingerprint_hex := [97; 0]; hp_agent_name := []; hp_origin := []; hp_origin_host := [];
    hp_session := hp_session HubPeer_zero; hp_echo_tokens := hp_echo_tokens HubPeer_zero; hp_egress := hp_egress HubPeer_zero |} in
  let r := {| rj_peer := p; rj_name := [98; 0]; rj_reason := 1; rj_now_us := 7 |} in
  unique_by rejected_key (rejected (RejectedPeers_Record (RejectedPeers_Record RejectedPeers_Reset r) r)).
Proof.
  intros p r. apply (rejection_recorded [RjRecord r] r). done.
Defined.
