(* ===== verification/FrameRoutes.v ===== *)
(** * Where a frame goes (src/hub/domain/frame_routes.c)

    A frame captured by an agent goes to every channel a client has open on the
    interface; a frame a client writes goes to the agent that serves it. *)

From S2P Require Import Prelude Slots ClientSession InterfaceRegistry PeerDirectory.

Record FrameRoute := { fr_peer_id : Z; fr_channel : Z; fr_suppress_echo : bool; fr_reliable : bool }.

Definition FRAME_ROUTES_MAX : Z := 16384.

Definition route_to (p : HubPeer) (b : ChannelBinding) : FrameRoute :=
  {| fr_peer_id := hp_peer_id p; fr_channel := cb_channel b; fr_suppress_echo := cb_suppress_echo b; fr_reliable := cb_reliable b |}.

(** The inner loop over one client's bindings of the interface: the routes
    written so far and the count of those that did not fit. *)
Fixpoint binding_loop (fuel : nat) (p : HubPeer) (interface_id routes_max : Z) (iterator : nat) (acc : list FrameRoute * Z)
    : list FrameRoute * Z :=
  match fuel with
  | O => acc
  | S fuel' =>
      match ClientSession_NextBindingForInterface (hp_session p) interface_id iterator with
      | (None, _) => acc
      | (Some b, iterator) =>
          let '(routes, dropped) := acc in
          binding_loop fuel' p interface_id routes_max iterator
            (if zlen routes =? routes_max then (routes, u16 (dropped + 1)) else (routes ++ [route_to p b], dropped))
      end
  end.

Definition FrameRoutes_ToInterface (directory : PeerDirectory) (interface_id routes_max : Z) : list FrameRoute * Z :=
  foldl (λ acc peer_index,
    match PeerDirectory_At directory peer_index with
    | None => acc
    | Some p =>
        if negb (hp_role p =? kHUB_PEER_ROLE_CLIENT) then acc
        else binding_loop (CLIENT_SESSION_BINDINGS_MAX + 1) p interface_id routes_max 0 acc
    end) ([], 0) (seq 0 PEER_DIRECTORY_MAX).

Definition FrameRoutes_FromAgent (registry : InterfaceRegistry) (directory : PeerDirectory)
    (agent_peer_id agent_channel routes_max : Z) : list FrameRoute * Z :=
  match InterfaceRegistry_FindByAgentChannel registry agent_peer_id agent_channel with
  | None => ([], 0)
  | Some entry => FrameRoutes_ToInterface directory (ie_interface_id entry) routes_max
  end.

Definition FrameRoutes_FromClient (registry : InterfaceRegistry) (client_peer : HubPeer) (client_channel routes_max : Z)
    : list FrameRoute * Z :=
  if routes_max =? 0 then ([], 0)
  else
    match ClientSession_InterfaceForChannel (hp_session client_peer) client_channel with
    | None => ([], 0)
    | Some interface_id =>
        match InterfaceRegistry_FindById registry interface_id with
        | None => ([], 0)
        | Some entry =>
            ([{| fr_peer_id := ie_agent_peer_id entry; fr_channel := ie_agent_channel entry; fr_suppress_echo := false;
                 fr_reliable := ClientSession_ChannelReliable (hp_session client_peer) client_channel |}], 0)
        end
    end.

(** ** Specification *)

(** The routes into one peer: one per binding of the interface that is live and not dormant, in slot order. *)
Definition peer_routes (interface_id : Z) (p : HubPeer) : list FrameRoute :=
  if hp_in_use p && (hp_role p =? kHUB_PEER_ROLE_CLIENT)
  then route_to p <$> List.filter (routes_to interface_id) (bindings (hp_session p)) else [].

Definition all_routes (directory : PeerDirectory) (interface_id : Z) : list FrameRoute :=
  concat (peer_routes interface_id <$> peers directory).

(** What the loops do with one more route: keep it if it fits, count it otherwise. *)
Definition put (routes_max : Z) (acc : list FrameRoute * Z) (r : FrameRoute) : list FrameRoute * Z :=
  if zlen acc.1 =? routes_max then (acc.1, u16 (acc.2 + 1)) else (acc.1 ++ [r], acc.2).

Lemma filter_scan {A} (P : A → bool) l :
  List.filter P l = match scan P l with
                    | None => []
                    | Some k => match l !! k with Some x => x :: List.filter P (drop (k + 1) l) | None => [] end
                    end.
Proof.
  induction l as [|x l IH]; [done|]. cbn [List.filter scan]. destruct (P x); [cbn; by rewrite drop_0|].
  rewrite IH. destruct (scan P l) as [k|]; cbn; [|done]. by destruct (l !! k).
Qed.

Lemma binding_loop_put fuel p id rmax it acc :
  length (bindings (hp_session p)) = CLIENT_SESSION_BINDINGS_MAX → (it ≤ 32)%nat → (32 < fuel + it)%nat →
  binding_loop fuel p id rmax it acc =
    foldl (put rmax) acc (route_to p <$> List.filter (routes_to id) (drop it (bindings (hp_session p)))).
Proof.
  intros Hlen. revert it acc. induction fuel as [|fuel IH]; intros it acc Hit Hf; [lia|]. cbn [binding_loop].
  unfold ClientSession_NextBindingForInterface. rewrite filter_scan.
  destruct (scan (routes_to id) (drop it (bindings (hp_session p)))) as [k|] eqn:Hs; [|done].
  pose proof (scan_lt _ _ _ Hs) as Hk. rewrite length_drop, Hlen in Hk. rewrite lookup_drop.
  destruct (lookup_lt_is_Some_2 (bindings (hp_session p)) (it + k)) as [b Hb]; [lia|]. rewrite Hb.
  destruct acc as [routes dropped]. rewrite IH by lia. cbn [fmap list_fmap foldl]. rewrite drop_drop. unfold put at 2. cbn [fst snd].
  by replace (it + k + 1)%nat with (it + (k + 1))%nat by lia.
Qed.

Lemma to_interface_put d id rmax :
  length (peers d) = PEER_DIRECTORY_MAX → Forall (λ p, length (bindings (hp_session p)) = CLIENT_SESSION_BINDINGS_MAX) (peers d) →
  FrameRoutes_ToInterface d id rmax = foldl (put rmax) ([], 0) (all_routes d id).
Proof.
  intros Hlen Hb. unfold FrameRoutes_ToInterface, all_routes.
  assert (∀ l start acc, (start + length l = 512)%nat → drop start (peers d) = l →
    foldl (λ acc i, match PeerDirectory_At d i with
      | None => acc
      | Some p => if negb (hp_role p =? kHUB_PEER_ROLE_CLIENT) then acc else binding_loop 33 p id rmax 0 acc end) acc (seq start (length l)) =
    foldl (put rmax) acc (concat (peer_routes id <$> l))) as Hgen.
  { induction l as [|p l IH]; intros start acc Hs Hd; [done|]. cbn [length seq foldl fmap list_fmap concat] in *.
    assert (peers d !! start = Some p) as Hp.
    { rewrite <- (Nat.add_0_r start), <- lookup_drop, Hd. done. }
    rewrite foldl_app, IH; [|lia|].
    - f_equal. unfold PeerDirectory_At, peer_routes. rewrite (proj2 (Nat.leb_gt 512 start)) by lia. rewrite Hp. cbn [mbind option_bind].
      destruct (hp_in_use p); [|done]. destruct (hp_role p =? kHUB_PEER_ROLE_CLIENT); [|done]. cbn [negb andb].
      rewrite binding_loop_put; [by rewrite drop_0| |lia|lia]. rewrite Forall_lookup in Hb. by eapply Hb.
    - rewrite <- Nat.add_1_r, <- drop_drop, Hd. done. }
  rewrite <- (Hgen (peers d) 0%nat); [by rewrite Hlen|by rewrite Hlen|done].
Qed.

Lemma put_all rmax rs routes dropped :
  0 ≤ rmax → zlen routes ≤ rmax → 0 ≤ dropped → dropped + zlen rs < 65536 →
  foldl (put rmax) (routes, dropped) rs =
    (take (Z.to_nat rmax) (routes ++ rs), dropped + Z.max 0 (zlen routes + zlen rs - rmax)).
Proof.
  intros Hr. revert routes dropped. induction rs as [|r rs IH]; intros routes dropped Hl Hd Hfit; cbn [foldl].
  { rewrite app_nil_r, take_ge by (unfold zlen in Hl; lia). unfold zlen at 2. simpl. f_equal. lia. }
  assert (zlen (r :: rs) = zlen rs + 1) as Hz by (unfold zlen; simpl; lia). rewrite Hz in *.
  assert (0 ≤ zlen rs) by (unfold zlen; lia). unfold put at 2. cbn [fst snd]. case_tests.
  - rewrite u16_id by lia. rewrite IH by lia. f_equal; [|lia].
    unfold zlen in Heqb. rewrite !take_app_le by lia. done.
  - rewrite IH; [|unfold zlen in *; rewrite length_app; simpl; lia|lia|lia]. rewrite <- app_assoc. f_equal.
    unfold zlen. rewrite length_app. simpl. lia.
Qed.

Lemma all_routes_length d id :
  length (peers d) = PEER_DIRECTORY_MAX → Forall (λ p, session_wf (hp_session p)) (peers d) → zlen (all_routes d id) ≤ 16384.
Proof.
  intros Hlen Hs. unfold all_routes, zlen.
  assert (∀ l, Forall (λ p, session_wf (hp_session p)) l →
    Z.of_nat (length (concat (peer_routes id <$> l))) ≤ 32 * Z.of_nat (length l)) as Hsum.
  { intros l Hl. induction Hl as [|p l Hp _ IH]; [simpl; lia|]. rewrite fmap_cons. cbn [concat length]. rewrite length_app.
    assert (length (peer_routes id p) ≤ 32)%nat; [|lia].
    unfold peer_routes. destruct (_ && _); [|simpl; lia]. rewrite length_fmap. rewrite <- (sess_len _ Hp). apply filter_length_le. }
  specialize (Hsum (peers d) Hs). rewrite Hlen in Hsum. lia.
Qed.

(** The loops keep the routes that fit and count the others. *)
Lemma to_interface_spec d id m :
  length (peers d) = PEER_DIRECTORY_MAX → Forall (λ p, session_wf (hp_session p)) (peers d) → 0 ≤ m →
  FrameRoutes_ToInterface d id m = (take (Z.to_nat m) (all_routes d id), Z.max 0 (zlen (all_routes d id) - m)).
Proof.
  intros Hlen Hs Hm. pose proof (all_routes_length d id Hlen Hs).
  rewrite to_interface_put; [|done|by eapply Forall_impl; [exact Hs|]; intros p Hp; apply Hp].
  rewrite put_all; [done|done|unfold zlen; simpl; lia|lia|lia].
Qed.

Lemma to_interface_all d id :
  length (peers d) = PEER_DIRECTORY_MAX → Forall (λ p, session_wf (hp_session p)) (peers d) →
  FrameRoutes_ToInterface d id FRAME_ROUTES_MAX = (all_routes d id, 0).
Proof.
  intros Hlen Hs. pose proof (all_routes_length d id Hlen Hs) as Hmax. unfold FRAME_ROUTES_MAX.
  rewrite to_interface_spec by (done || lia). f_equal; [|lia]. apply take_ge. unfold zlen in Hmax. lia.
Qed.

Lemma elem_of_all_routes d id r :
  r ∈ all_routes d id ↔
    ∃ p b, p ∈ live (peers d) ∧ hp_role p = kHUB_PEER_ROLE_CLIENT ∧ b ∈ live (bindings (hp_session p)) ∧
      cb_dormant b = false ∧ cb_interface_id b = id ∧ r = route_to p b.
Proof.
  unfold all_routes. rewrite list_elem_of_In, in_concat. split.
  - intros (l & (p & -> & Hp)%list_elem_of_In%list_elem_of_fmap & Hin%list_elem_of_In). unfold peer_routes in Hin.
    destruct (_ && _) eqn:Hc; [|by apply not_elem_of_nil in Hin]. apply andb_true_iff in Hc as [Hu Hrole%Z.eqb_eq].
    apply list_elem_of_fmap in Hin as (b & -> & [Hbin Hrt]%list_elem_of_In%filter_In). apply list_elem_of_In in Hbin.
    unfold routes_to in Hrt. bool_to_prop. exists p, b. split_and!; try done.
    + apply elem_of_live. apply list_elem_of_lookup in Hp as (i & Hi). by exists i.
    + apply elem_of_live. apply list_elem_of_lookup in Hbin as (i & Hi). by exists i.
  - intros (p & b & (i & Hp & Hu)%elem_of_live & Hrole & (j & Hj & Hub)%elem_of_live & Hdorm & Hid & ->). cbn in Hu, Hub.
    exists (peer_routes id p). split.
    + apply list_elem_of_In, list_elem_of_fmap. exists p. split; [done|]. by eapply list_elem_of_lookup_2.
    + apply list_elem_of_In. unfold peer_routes. rewrite Hu, Hrole. cbn [andb].
      apply list_elem_of_fmap. exists b. split; [done|]. apply list_elem_of_In, filter_In.
      split; [apply list_elem_of_In; by eapply list_elem_of_lookup_2|]. unfold routes_to. by rewrite Hub, Hdorm, Hid, Z.eqb_refl.
Qed.

(** C22. Fan-out is exact. In a directory of 512 peers whose sessions are well
    formed, a captured frame gets one route for every live, not dormant channel
    a client has open on the interface, in order, and nothing else; the first
    [routes_max] are kept and the rest are counted as dropped. With the room
    the hub gives it (16384) nothing is ever dropped. *)
Theorem fanout_exact (d : PeerDirectory) (interface_id routes_max : Z) :
  length (peers d) = PEER_DIRECTORY_MAX → Forall (λ p, session_wf (hp_session p)) (peers d) → 0 ≤ routes_max →
  FrameRoutes_ToInterface d interface_id routes_max =
    (take (Z.to_nat routes_max) (all_routes d interface_id), Z.max 0 (zlen (all_routes d interface_id) - routes_max)) ∧
  FrameRoutes_ToInterface d interface_id FRAME_ROUTES_MAX = (all_routes d interface_id, 0) ∧
  ∀ r, r ∈ all_routes d interface_id ↔
    ∃ p b, p ∈ live (peers d) ∧ hp_role p = kHUB_PEER_ROLE_CLIENT ∧ b ∈ live (bindings (hp_session p)) ∧
      cb_dormant b = false ∧ cb_interface_id b = interface_id ∧ r = route_to p b.
Proof.
  intros Hlen Hs Hr. split_and!; [by apply to_interface_spec|by apply to_interface_all|apply elem_of_all_routes].
Qed.

(** A directory with one client whose one channel is open on interface 7. *)
Definition one_client : PeerDirectory := {| peers := <[0%nat := {|
  hp_in_use := true; hp_local := false; hp_send_failed := false; hp_vouched := false; hp_peer_id := 21; hp_capabilities := 0;
  hp_role := kHUB_PEER_ROLE_CLIENT; hp_transport_kind := 0; hp_hello_deadline_us := 0; hp_connected_at_us := 0; hp_frames_forwarded := 0;
  hp_frames_dropped := 0; hp_fingerprint_hex := hp_fingerprint_hex HubPeer_zero; hp_agent_name := hp_agent_name HubPeer_zero;
  hp_origin := hp_origin HubPeer_zero; hp_origin_host := hp_origin_host HubPeer_zero;
  hp_session := (ClientSession_OpenInterface ClientSession_Reset flap_request).2;
  hp_echo_tokens := hp_echo_tokens HubPeer_zero; hp_egress := hp_egress HubPeer_zero |}]> (peers PeerDirectory_Reset) |}.

Lemma one_client_ok :
  length (peers one_client) = PEER_DIRECTORY_MAX ∧ Forall (λ p, session_wf (hp_session p)) (peers one_client).
Proof.
  split; [unfold one_client, PeerDirectory_Reset; cbn [peers]; by rewrite length_insert, length_replicate|].
  unfold one_client, PeerDirectory_Reset. cbn [peers]. apply Forall_insert; [apply Forall_replicate, session_wf_reset|].
  apply session_wf_open, session_wf_reset.
Qed.

Lemma fanout_exact_witness :
  FrameRoutes_ToInterface one_client 7 FRAME_ROUTES_MAX = (all_routes one_client 7, 0).
Proof.
  destruct one_client_ok as [Hlen Hs]. apply (fanout_exact one_client 7 0 Hlen Hs). lia.
Defined.


(** Routing is symmetric. When a frame a client writes on a channel is
    routed to an agent's channel, a frame that agent captures on that channel is
    routed back to the client on the same channel, with the reliability the
    client asked for. *)
Theorem routing_symmetric (registry : InterfaceRegistry) (d : PeerDirectory) (i : nat) (p : HubPeer) (channel routes_max : Z)
    (r : FrameRoute) (dropped : Z) :
  registry_wf registry → length (peers d) = PEER_DIRECTORY_MAX → Forall (λ p, session_wf (hp_session p)) (peers d) →
  peers d !! i = Some p → hp_in_use p = true → hp_role p = kHUB_PEER_ROLE_CLIENT →
  FrameRoutes_FromClient registry p channel routes_max = ([r], dropped) → fr_peer_id r ≠ INTERFACE_REGISTRY_HUB_PEER →
  ∃ back, back ∈ (FrameRoutes_FromAgent registry d (fr_peer_id r) (fr_channel r) FRAME_ROUTES_MAX).1 ∧
    fr_peer_id back = hp_peer_id p ∧ fr_channel back = channel ∧ fr_reliable back = fr_reliable r.
Proof.
  intros Hreg Hlen Hs Hp Hu Hrole Hfrom Hne.
  assert (session_wf (hp_session p)) as Hsess by (rewrite Forall_lookup in Hs; by eapply Hs).
  unfold FrameRoutes_FromClient in Hfrom. destruct (routes_max =? 0); [done|].
  destruct (ClientSession_InterfaceForChannel (hp_session p) channel) as [id|] eqn:Hid; [|done].
  destruct (InterfaceRegistry_FindById registry id) as [e|] eqn:He; [|done]. injection Hfrom as <- <-. cbn [fr_peer_id fr_channel fr_reliable] in *.
  unfold ClientSession_InterfaceForChannel, first_binding in Hid.
  apply fmap_Some in Hid as (b & (j & (x & Hx & Hb)%scan_hit & Hj)%bind_Some & ->). rewrite Hx in Hj. injection Hj as ->.
  apply andb_true_iff in Hb as [[Hub Hdorm%negb_true_iff]%andb_true_iff Hch%Z.eqb_eq].
  apply bind_Some in He as (k & (y & Hy & [Huy Hidy%Z.eqb_eq]%andb_true_iff)%scan_hit & Hk). rewrite Hy in Hk. injection Hk as ->.
  unfold FrameRoutes_FromAgent. rewrite (find_by_channel registry e); [|done|apply elem_of_live; by exists k|by apply Z.eqb_neq].
  rewrite Hidy, to_interface_all by done. exists (route_to p b). split_and!; [|done|done|].
  - apply elem_of_all_routes. exists p, b. split_and!; try done; apply elem_of_live; eauto.
  - unfold ClientSession_ChannelReliable. rewrite <- Hch. by rewrite (first_binding_bound _ j b).
Qed.

Lemma routing_symmetric_witness :
  let registry := {| entries := <[0%nat := register_entry 7 5 3 reg_abc InterfaceEntry_zero]> (entries InterfaceRegistry_Reset);
                     next_interface_id := 8 |} in
  let p := peers one_client !!! 0%nat in
  ∃ back, back ∈ (FrameRoutes_FromAgent registry one_client 5 3 FRAME_ROUTES_MAX).1 ∧
    fr_peer_id back = 21 ∧ fr_channel back = 0 ∧ fr_reliable back = false.
Proof.
  intros registry p. destruct one_client_ok as [Hlen Hs].
  apply (routing_symmetric registry one_client 0 p 0 1 {| fr_peer_id := 5; fr_channel := 3; fr_suppress_echo := false; fr_reliable := false |} 0);
    [|done|done|by vm_compute..].
  unfold registry. split; cbn [entries next_interface_id].
  - by rewrite length_insert.
  - by apply (clean_insert (A := InterfaceEntry)); [apply registry_wf_reset|].
  - apply unique_by_insert; [apply registry_wf_reset|]. by intros _ j z [-> _]%lookup_replicate _.
  - apply unique_by_insert; [apply registry_wf_reset|]. by intros _ j z [-> _]%lookup_replicate _.
  - lia.
  - intros e (j & [(<- & <- & _)|(_ & [-> _]%lookup_replicate)]%list_lookup_insert_Some & Hu)%elem_of_live; [cbn; lia|done].
  - apply Forall_insert; [apply registry_wf_reset|apply shaper_ok_zero].
Defined.
