(* ===== verification/AdminMessage.v ===== *)
(** * The admin messages about peers, pins, grants, interfaces and transactions
    (src/protocol/admin_message.c)

    One definition per encoder, decoder, entry writer and entry reader of the C
    file; the shapes and their proofs are in [AdminCodec]. *)

From S2P Require Import Prelude CString Wire Codec AdminCodec PeerDirectory RejectedPeers.

Definition kMESSAGE_TYPE_ADMIN_STATUS : Z := 16.
Definition kMESSAGE_TYPE_ADMIN_STATUS_REPLY : Z := 17.
Definition kMESSAGE_TYPE_ADMIN_PEERS : Z := 18.
Definition kMESSAGE_TYPE_ADMIN_PEERS_REPLY : Z := 19.
Definition kMESSAGE_TYPE_ADMIN_KICK : Z := 20.
Definition kMESSAGE_TYPE_ADMIN_KICK_REPLY : Z := 21.
Definition kMESSAGE_TYPE_ADMIN_PINS : Z := 22.
Definition kMESSAGE_TYPE_ADMIN_PINS_REPLY : Z := 23.
Definition kMESSAGE_TYPE_ADMIN_FORGET : Z := 24.
Definition kMESSAGE_TYPE_ADMIN_FORGET_REPLY : Z := 25.
Definition kMESSAGE_TYPE_ADMIN_KICK_PEER : Z := 26.
Definition kMESSAGE_TYPE_ADMIN_KICK_PEER_REPLY : Z := 27.
Definition kMESSAGE_TYPE_ADMIN_AGENTS : Z := 28.
Definition kMESSAGE_TYPE_ADMIN_AGENTS_REPLY : Z := 29.
Definition kMESSAGE_TYPE_ADMIN_CLIENTS : Z := 30.
Definition kMESSAGE_TYPE_ADMIN_CLIENTS_REPLY : Z := 31.
Definition kMESSAGE_TYPE_ADMIN_INTERFACES : Z := 32.
Definition kMESSAGE_TYPE_ADMIN_INTERFACES_REPLY : Z := 33.
Definition kMESSAGE_TYPE_ADMIN_PIN_ADD : Z := 34.
Definition kMESSAGE_TYPE_ADMIN_PIN_ADD_REPLY : Z := 35.
Definition kMESSAGE_TYPE_ADMIN_ACL_SET : Z := 36.
Definition kMESSAGE_TYPE_ADMIN_ACL_SET_REPLY : Z := 37.
Definition kMESSAGE_TYPE_ADMIN_ACL_REVOKE : Z := 38.
Definition kMESSAGE_TYPE_ADMIN_ACL_REVOKE_REPLY : Z := 39.
Definition kMESSAGE_TYPE_ADMIN_ACL_LIST : Z := 40.
Definition kMESSAGE_TYPE_ADMIN_ACL_LIST_REPLY : Z := 41.
Definition kMESSAGE_TYPE_ADMIN_REJECTED : Z := 44.
Definition kMESSAGE_TYPE_ADMIN_REJECTED_REPLY : Z := 45.
Definition kMESSAGE_TYPE_ADMIN_TXNS : Z := 60.
Definition kMESSAGE_TYPE_ADMIN_TXNS_REPLY : Z := 61.

(** ** Messages of one shape *)

Notation AdminPeersMessage := (OffsetRequest kMESSAGE_TYPE_ADMIN_PEERS).
Notation AdminPinsMessage := (OffsetRequest kMESSAGE_TYPE_ADMIN_PINS).
Notation AdminAclListMessage := (OffsetRequest kMESSAGE_TYPE_ADMIN_ACL_LIST).
Notation AdminInterfacesMessage := (OffsetRequest kMESSAGE_TYPE_ADMIN_INTERFACES).
Notation AdminRejectedMessage := (OffsetRequest kMESSAGE_TYPE_ADMIN_REJECTED).
Notation AdminTxnsMessage := (OffsetRequest kMESSAGE_TYPE_ADMIN_TXNS).
Notation AdminKickMessage := (AgentNameRequest kMESSAGE_TYPE_ADMIN_KICK).
Notation AdminForgetMessage := (AgentNameRequest kMESSAGE_TYPE_ADMIN_FORGET).
Notation AdminAgentsMessage := (FilteredRequest kMESSAGE_TYPE_ADMIN_AGENTS).
Notation AdminClientsMessage := (FilteredRequest kMESSAGE_TYPE_ADMIN_CLIENTS).
Notation AdminKickReplyMessage := (StatusReply kMESSAGE_TYPE_ADMIN_KICK_REPLY).
Notation AdminForgetReplyMessage := (StatusReply kMESSAGE_TYPE_ADMIN_FORGET_REPLY).
Notation AdminKickPeerReplyMessage := (StatusReply kMESSAGE_TYPE_ADMIN_KICK_PEER_REPLY).
Notation AdminPinAddReplyMessage := (StatusReply kMESSAGE_TYPE_ADMIN_PIN_ADD_REPLY).
Notation AdminAclSetReplyMessage := (StatusReply kMESSAGE_TYPE_ADMIN_ACL_SET_REPLY).
Notation AdminAclRevokeReplyMessage := (StatusReply kMESSAGE_TYPE_ADMIN_ACL_REVOKE_REPLY).

Definition AdminStatusMessage_Encode (buffer : list Z) : nat * list Z := encodeFixedBody kMESSAGE_TYPE_ADMIN_STATUS 0 buffer.

Definition AdminPeersMessage_Encode (self : AdminPeersMessage) := encodeOffsetRequest kMESSAGE_TYPE_ADMIN_PEERS (or_offset self).
Definition AdminPinsMessage_Encode (self : AdminPinsMessage) := encodeOffsetRequest kMESSAGE_TYPE_ADMIN_PINS (or_offset self).
Definition AdminAclListMessage_Encode (self : AdminAclListMessage) := encodeOffsetRequest kMESSAGE_TYPE_ADMIN_ACL_LIST (or_offset self).
Definition AdminInterfacesMessage_Encode (self : AdminInterfacesMessage) := encodeOffsetRequest kMESSAGE_TYPE_ADMIN_INTERFACES (or_offset self).
Definition AdminRejectedMessage_Encode (self : AdminRejectedMessage) := encodeOffsetRequest kMESSAGE_TYPE_ADMIN_REJECTED (or_offset self).
Definition AdminTxnsMessage_Encode (self : AdminTxnsMessage) := encodeOffsetRequest kMESSAGE_TYPE_ADMIN_TXNS (or_offset self).
Definition AdminKickMessage_Encode (self : AdminKickMessage) := encodeAgentName kMESSAGE_TYPE_ADMIN_KICK (an_agent_name self).
Definition AdminForgetMessage_Encode (self : AdminForgetMessage) := encodeAgentName kMESSAGE_TYPE_ADMIN_FORGET (an_agent_name self).
Definition AdminAgentsMessage_Encode (self : AdminAgentsMessage) :=
  encodeFilteredRequest kMESSAGE_TYPE_ADMIN_AGENTS (fr_offset self) (fr_agent_name self).
Definition AdminClientsMessage_Encode (self : AdminClientsMessage) :=
  encodeFilteredRequest kMESSAGE_TYPE_ADMIN_CLIENTS (fr_offset self) (fr_agent_name self).
Definition AdminKickReplyMessage_Encode (self : AdminKickReplyMessage) := encodeStatusReply kMESSAGE_TYPE_ADMIN_KICK_REPLY (sr_status self).
Definition AdminForgetReplyMessage_Encode (self : AdminForgetReplyMessage) := encodeStatusReply kMESSAGE_TYPE_ADMIN_FORGET_REPLY (sr_status self).
Definition AdminKickPeerReplyMessage_Encode (self : AdminKickPeerReplyMessage) :=
  encodeStatusReply kMESSAGE_TYPE_ADMIN_KICK_PEER_REPLY (sr_status self).
Definition AdminPinAddReplyMessage_Encode (self : AdminPinAddReplyMessage) := encodeStatusReply kMESSAGE_TYPE_ADMIN_PIN_ADD_REPLY (sr_status self).
Definition AdminAclSetReplyMessage_Encode (self : AdminAclSetReplyMessage) := encodeStatusReply kMESSAGE_TYPE_ADMIN_ACL_SET_REPLY (sr_status self).
Definition AdminAclRevokeReplyMessage_Encode (self : AdminAclRevokeReplyMessage) :=
  encodeStatusReply kMESSAGE_TYPE_ADMIN_ACL_REVOKE_REPLY (sr_status self).

Definition AdminPeersMessage_Decode (self : AdminPeersMessage) := decodeOffsetRequest self.
Definition AdminPinsMessage_Decode (self : AdminPinsMessage) := decodeOffsetRequest self.
Definition AdminAclListMessage_Decode (self : AdminAclListMessage) := decodeOffsetRequest self.
Definition AdminInterfacesMessage_Decode (self : AdminInterfacesMessage) := decodeOffsetRequest self.
Definition AdminRejectedMessage_Decode (self : AdminRejectedMessage) := decodeOffsetRequest self.
Definition AdminTxnsMessage_Decode (self : AdminTxnsMessage) := decodeOffsetRequest self.
Definition AdminKickMessage_Decode (self : AdminKickMessage) := decodeAgentName self.
Definition AdminForgetMessage_Decode (self : AdminForgetMessage) := decodeAgentName self.
Definition AdminAgentsMessage_Decode (self : AdminAgentsMessage) := decodeFilteredRequest self.
Definition AdminClientsMessage_Decode (self : AdminClientsMessage) := decodeFilteredRequest self.
Definition AdminKickReplyMessage_Decode (self : AdminKickReplyMessage) := decodeStatusReply self.
Definition AdminForgetReplyMessage_Decode (self : AdminForgetReplyMessage) := decodeStatusReply self.
Definition AdminKickPeerReplyMessage_Decode (self : AdminKickPeerReplyMessage) := decodeStatusReply self.
Definition AdminPinAddReplyMessage_Decode (self : AdminPinAddReplyMessage) := decodeStatusReply self.
Definition AdminAclSetReplyMessage_Decode (self : AdminAclSetReplyMessage) := decodeStatusReply self.
Definition AdminAclRevokeReplyMessage_Decode (self : AdminAclRevokeReplyMessage) := decodeStatusReply self.

(** ** Entries of the replies *)

(** The promise of an entry whose reader cannot fail. *)
Ltac admin_entry size check w r same :=
  split;
  [ apply _
  | apply Nat.leb_le; by vm_compute
  | apply Nat.ltb_lt; by vm_compute
  | let H := fresh in intros e H; destruct H; destruct_and?; change (check e = true); unfold check, isNameTerminated, isFingerprintTerminated, isInterfaceTerminated;
    repeat match goal with H : name_field _ _ |- _ => let Hn := fresh in destruct H as [_ Hn]; rewrite ?Hn end; done
  | apply _
  | let Hok := fresh "Hok" in let Hs := fresh "Hs" in let Hf := fresh "Hf" in
    intros e old p o Hok _ Hs; destruct Hok; destruct_and?; eexists; split; [reflexivity|]; change (same e (r p o)); change (slice o size p = block_image w size e) in Hs;
    image_blocks w Hs Hf; unfold same; conjuncts; cbn; field_read Hf ].

Definition writePeerEntry (buffer : list Z) (off : nat) (e : AdminPeersReplyEntry) : list Z :=
  let buffer := Wire_WriteU32 buffer (off + 0) (ap_peer_id e) in
  let buffer := Wire_WriteU32 buffer (off + 4) (ap_frames_forwarded e) in
  let buffer := Wire_WriteU32 buffer (off + 8) (ap_frames_dropped e) in
  let buffer := Wire_WriteU32 buffer (off + 209) (ap_uptime_seconds e) in
  let buffer := <[(off + 12)%nat := ap_role e]> buffer in
  let buffer := <[(off + 13)%nat := ap_transport_kind e]> buffer in
  let buffer := put_string (off + 16) (ap_agent_name e) buffer in
  let buffer := put_string (off + 144) (ap_fingerprint_hex e) buffer in
  put_string (off + 213) (ap_origin e) buffer.
Definition readPeerEntry (payload : list Z) (off : nat) : AdminPeersReplyEntry := {|
  ap_peer_id := Wire_ReadU32 payload (off + 0); ap_frames_forwarded := Wire_ReadU32 payload (off + 4);
  ap_frames_dropped := Wire_ReadU32 payload (off + 8); ap_uptime_seconds := Wire_ReadU32 payload (off + 209);
  ap_role := payload !!! (off + 12)%nat; ap_transport_kind := payload !!! (off + 13)%nat;
  ap_agent_name := get_string (off + 16) 128 payload; ap_fingerprint_hex := get_string (off + 144) 65 payload;
  ap_origin := get_string (off + 213) 56 payload |}.
#[export] Instance AdminPeersReplyEntry_inhabited : Inhabited AdminPeersReplyEntry := populate (readPeerEntry (replicate 272 0) 0).

Definition peer_entry_ok (e : AdminPeersReplyEntry) : Prop :=
  is_u32 (ap_peer_id e) ∧ is_u32 (ap_frames_forwarded e) ∧ is_u32 (ap_frames_dropped e) ∧ is_u32 (ap_uptime_seconds e) ∧
  is_u8 (ap_role e) ∧ is_u8 (ap_transport_kind e) ∧ name_field 127 (ap_agent_name e) ∧ name_field 64 (ap_fingerprint_hex e) ∧
  name_field 55 (ap_origin e).
Definition peer_entry_same (e e' : AdminPeersReplyEntry) : Prop :=
  ap_peer_id e' = ap_peer_id e ∧ ap_frames_forwarded e' = ap_frames_forwarded e ∧
  ap_frames_dropped e' = ap_frames_dropped e ∧ ap_uptime_seconds e' = ap_uptime_seconds e ∧ ap_role e' = ap_role e ∧
  ap_transport_kind e' = ap_transport_kind e ∧ cstr (ap_agent_name e') = cstr (ap_agent_name e) ∧
  cstr (ap_fingerprint_hex e') = cstr (ap_fingerprint_hex e) ∧ cstr (ap_origin e') = cstr (ap_origin e).

#[export] Instance peer_entry_block : BlockWriter writePeerEntry 272 peer_entry_ok.
Proof. unfold peer_entry_ok. block_writer writePeerEntry. Qed.

Definition peer_entry_check (e : AdminPeersReplyEntry) : bool := isNameTerminated (ap_agent_name e) && isFingerprintTerminated (ap_fingerprint_hex e).
#[export] Instance peer_entry_entry : AdminEntry AdminPeersReplyEntry := {|
  ae_type := kMESSAGE_TYPE_ADMIN_PEERS_REPLY; ae_max := 15%nat; ae_size := 272%nat; ae_check := peer_entry_check;
  ae_write := writePeerEntry; ae_read := void_reader readPeerEntry; ae_shape _ := True; ae_ok := peer_entry_ok; ae_same := peer_entry_same |}.

#[export] Instance peer_entry_entry_ok : AdminEntryOk AdminPeersReplyEntry.
Proof. admin_entry 272%nat peer_entry_check writePeerEntry readPeerEntry peer_entry_same. Qed.

Notation AdminPeersReplyMessage := (AdminReply AdminPeersReplyEntry).
Definition AdminPeersReplyMessage_Encode (self : AdminPeersReplyMessage) := encodeEntries kMESSAGE_TYPE_ADMIN_PEERS_REPLY 15 272 peer_entry_check writePeerEntry self.
Definition AdminPeersReplyMessage_Decode (self : AdminPeersReplyMessage) := decodeEntries 15 272 (void_reader readPeerEntry) self.

Record AdminPinsReplyEntry := {
  pn_agent_name : list Z; pn_fingerprint_hex : list Z;
}.
Definition writePinEntry (buffer : list Z) (off : nat) (e : AdminPinsReplyEntry) : list Z :=
  let buffer := put_string (off + 0) (pn_agent_name e) buffer in
  put_string (off + 128) (pn_fingerprint_hex e) buffer.
Definition readPinEntry (payload : list Z) (off : nat) : AdminPinsReplyEntry := {|
  pn_agent_name := get_string (off + 0) 128 payload; pn_fingerprint_hex := get_string (off + 128) 65 payload |}.
#[export] Instance AdminPinsReplyEntry_inhabited : Inhabited AdminPinsReplyEntry := populate (readPinEntry (replicate 196 0) 0).

Definition pin_entry_ok (e : AdminPinsReplyEntry) : Prop :=
  name_field 127 (pn_agent_name e) ∧ name_field 64 (pn_fingerprint_hex e).
Definition pin_entry_same (e e' : AdminPinsReplyEntry) : Prop :=
  cstr (pn_agent_name e') = cstr (pn_agent_name e) ∧ cstr (pn_fingerprint_hex e') = cstr (pn_fingerprint_hex e).

#[export] Instance pin_entry_block : BlockWriter writePinEntry 196 pin_entry_ok.
Proof. unfold pin_entry_ok. block_writer writePinEntry. Qed.

Definition pin_entry_check (e : AdminPinsReplyEntry) : bool := isNameTerminated (pn_agent_name e) && isFingerprintTerminated (pn_fingerprint_hex e).
#[export] Instance pin_entry_entry : AdminEntry AdminPinsReplyEntry := {|
  ae_type := kMESSAGE_TYPE_ADMIN_PINS_REPLY; ae_max := 16%nat; ae_size := 196%nat; ae_check := pin_entry_check;
  ae_write := writePinEntry; ae_read := void_reader readPinEntry; ae_shape _ := True; ae_ok := pin_entry_ok; ae_same := pin_entry_same |}.

#[export] Instance pin_entry_entry_ok : AdminEntryOk AdminPinsReplyEntry.
Proof. admin_entry 196%nat pin_entry_check writePinEntry readPinEntry pin_entry_same. Qed.

Notation AdminPinsReplyMessage := (AdminReply AdminPinsReplyEntry).
Definition AdminPinsReplyMessage_Encode (self : AdminPinsReplyMessage) := encodeEntries kMESSAGE_TYPE_ADMIN_PINS_REPLY 16 196 pin_entry_check writePinEntry self.
Definition AdminPinsReplyMessage_Decode (self : AdminPinsReplyMessage) := decodeEntries 16 196 (void_reader readPinEntry) self.

Record AdminAgentsReplyEntry := {
  ag_peer_id : Z; ag_interface_count : Z; ag_agent_name : list Z; ag_fingerprint_hex : list Z;
}.
Definition writeAgentEntry (buffer : list Z) (off : nat) (e : AdminAgentsReplyEntry) : list Z :=
  let buffer := Wire_WriteU32 buffer (off + 0) (ag_peer_id e) in
  let buffer := <[(off + 4)%nat := ag_interface_count e]> buffer in
  let buffer := put_string (off + 8) (ag_agent_name e) buffer in
  put_string (off + 136) (ag_fingerprint_hex e) buffer.
Definition readAgentEntry (payload : list Z) (off : nat) : AdminAgentsReplyEntry := {|
  ag_peer_id := Wire_ReadU32 payload (off + 0); ag_interface_count := payload !!! (off + 4)%nat;
  ag_agent_name := get_string (off + 8) 128 payload; ag_fingerprint_hex := get_string (off + 136) 65 payload |}.
#[export] Instance AdminAgentsReplyEntry_inhabited : Inhabited AdminAgentsReplyEntry := populate (readAgentEntry (replicate 204 0) 0).

Definition agent_entry_ok (e : AdminAgentsReplyEntry) : Prop :=
  is_u32 (ag_peer_id e) ∧ is_u8 (ag_interface_count e) ∧ name_field 127 (ag_agent_name e) ∧
  name_field 64 (ag_fingerprint_hex e).
Definition agent_entry_same (e e' : AdminAgentsReplyEntry) : Prop :=
  ag_peer_id e' = ag_peer_id e ∧ ag_interface_count e' = ag_interface_count e ∧
  cstr (ag_agent_name e') = cstr (ag_agent_name e) ∧ cstr (ag_fingerprint_hex e') = cstr (ag_fingerprint_hex e).

#[export] Instance agent_entry_block : BlockWriter writeAgentEntry 204 agent_entry_ok.
Proof. unfold agent_entry_ok. block_writer writeAgentEntry. Qed.

Definition agent_entry_check (e : AdminAgentsReplyEntry) : bool := isNameTerminated (ag_agent_name e) && isFingerprintTerminated (ag_fingerprint_hex e).
#[export] Instance agent_entry_entry : AdminEntry AdminAgentsReplyEntry := {|
  ae_type := kMESSAGE_TYPE_ADMIN_AGENTS_REPLY; ae_max := 16%nat; ae_size := 204%nat; ae_check := agent_entry_check;
  ae_write := writeAgentEntry; ae_read := void_reader readAgentEntry; ae_shape _ := True; ae_ok := agent_entry_ok; ae_same := agent_entry_same |}.

#[export] Instance agent_entry_entry_ok : AdminEntryOk AdminAgentsReplyEntry.
Proof. admin_entry 204%nat agent_entry_check writeAgentEntry readAgentEntry agent_entry_same. Qed.

Notation AdminAgentsReplyMessage := (AdminReply AdminAgentsReplyEntry).
Definition AdminAgentsReplyMessage_Encode (self : AdminAgentsReplyMessage) := encodeEntries kMESSAGE_TYPE_ADMIN_AGENTS_REPLY 16 204 agent_entry_check writeAgentEntry self.
Definition AdminAgentsReplyMessage_Decode (self : AdminAgentsReplyMessage) := decodeEntries 16 204 (void_reader readAgentEntry) self.

Record AdminClientsReplyEntry := {
  ac_peer_id : Z; ac_interface_id : Z; ac_channel : Z; ac_agent_name : list Z; ac_interface_name : list Z;
  ac_frames_forwarded : Z; ac_frames_dropped : Z;
}.
Definition writeClientEntry (buffer : list Z) (off : nat) (e : AdminClientsReplyEntry) : list Z :=
  let buffer := Wire_WriteU32 buffer (off + 0) (ac_peer_id e) in
  let buffer := Wire_WriteU32 buffer (off + 4) (ac_interface_id e) in
  let buffer := <[(off + 8)%nat := ac_channel e]> buffer in
  let buffer := put_string (off + 12) (ac_agent_name e) buffer in
  let buffer := put_string (off + 140) (ac_interface_name e) buffer in
  let buffer := Wire_WriteU32 buffer (off + 156) (ac_frames_forwarded e) in
  Wire_WriteU32 buffer (off + 160) (ac_frames_dropped e).
Definition readClientEntry (payload : list Z) (off : nat) : AdminClientsReplyEntry := {|
  ac_peer_id := Wire_ReadU32 payload (off + 0); ac_interface_id := Wire_ReadU32 payload (off + 4);
  ac_channel := payload !!! (off + 8)%nat; ac_agent_name := get_string (off + 12) 128 payload;
  ac_interface_name := get_string (off + 140) 16 payload; ac_frames_forwarded := Wire_ReadU32 payload (off + 156);
  ac_frames_dropped := Wire_ReadU32 payload (off + 160) |}.
#[export] Instance AdminClientsReplyEntry_inhabited : Inhabited AdminClientsReplyEntry := populate (readClientEntry (replicate 164 0) 0).

Definition client_entry_ok (e : AdminClientsReplyEntry) : Prop :=
  is_u32 (ac_peer_id e) ∧ is_u32 (ac_interface_id e) ∧ is_u8 (ac_channel e) ∧ name_field 127 (ac_agent_name e) ∧
  name_field 15 (ac_interface_name e) ∧ is_u32 (ac_frames_forwarded e) ∧ is_u32 (ac_frames_dropped e).
Definition client_entry_same (e e' : AdminClientsReplyEntry) : Prop :=
  ac_peer_id e' = ac_peer_id e ∧ ac_interface_id e' = ac_interface_id e ∧ ac_channel e' = ac_channel e ∧
  cstr (ac_agent_name e') = cstr (ac_agent_name e) ∧ cstr (ac_interface_name e') = cstr (ac_interface_name e) ∧
  ac_frames_forwarded e' = ac_frames_forwarded e ∧ ac_frames_dropped e' = ac_frames_dropped e.

#[export] Instance client_entry_block : BlockWriter writeClientEntry 164 client_entry_ok.
Proof. unfold client_entry_ok. block_writer writeClientEntry. Qed.

Definition client_entry_check (e : AdminClientsReplyEntry) : bool := isNameTerminated (ac_agent_name e) && isInterfaceTerminated (ac_interface_name e).
#[export] Instance client_entry_entry : AdminEntry AdminClientsReplyEntry := {|
  ae_type := kMESSAGE_TYPE_ADMIN_CLIENTS_REPLY; ae_max := 16%nat; ae_size := 164%nat; ae_check := client_entry_check;
  ae_write := writeClientEntry; ae_read := void_reader readClientEntry; ae_shape _ := True; ae_ok := client_entry_ok; ae_same := client_entry_same |}.

#[export] Instance client_entry_entry_ok : AdminEntryOk AdminClientsReplyEntry.
Proof. admin_entry 164%nat client_entry_check writeClientEntry readClientEntry client_entry_same. Qed.

Notation AdminClientsReplyMessage := (AdminReply AdminClientsReplyEntry).
Definition AdminClientsReplyMessage_Encode (self : AdminClientsReplyMessage) := encodeEntries kMESSAGE_TYPE_ADMIN_CLIENTS_REPLY 16 164 client_entry_check writeClientEntry self.
Definition AdminClientsReplyMessage_Decode (self : AdminClientsReplyMessage) := decodeEntries 16 164 (void_reader readClientEntry) self.

Record AdminAclListReplyEntry := {
  al_agent_name : list Z; al_interface_name : list Z; al_fingerprint_hex : list Z; al_can_read : Z; al_can_write : Z;
  al_can_admin : Z;
}.
Definition writeAclEntry (buffer : list Z) (off : nat) (e : AdminAclListReplyEntry) : list Z :=
  let buffer := put_string (off + 0) (al_agent_name e) buffer in
  let buffer := put_string (off + 128) (al_interface_name e) buffer in
  let buffer := put_string (off + 144) (al_fingerprint_hex e) buffer in
  let buffer := <[(off + 209)%nat := al_can_read e]> buffer in
  let buffer := <[(off + 210)%nat := al_can_write e]> buffer in
  <[(off + 211)%nat := al_can_admin e]> buffer.
Definition readAclEntry (payload : list Z) (off : nat) : AdminAclListReplyEntry := {|
  al_agent_name := get_string (off + 0) 128 payload; al_interface_name := get_string (off + 128) 16 payload;
  al_fingerprint_hex := get_string (off + 144) 65 payload; al_can_read := payload !!! (off + 209)%nat;
  al_can_write := payload !!! (off + 210)%nat; al_can_admin := payload !!! (off + 211)%nat |}.
#[export] Instance AdminAclListReplyEntry_inhabited : Inhabited AdminAclListReplyEntry := populate (readAclEntry (replicate 212 0) 0).

Definition acl_entry_ok (e : AdminAclListReplyEntry) : Prop :=
  name_field 127 (al_agent_name e) ∧ name_field 15 (al_interface_name e) ∧ name_field 64 (al_fingerprint_hex e) ∧
  is_u8 (al_can_read e) ∧ is_u8 (al_can_write e) ∧ is_u8 (al_can_admin e).
Definition acl_entry_same (e e' : AdminAclListReplyEntry) : Prop :=
  cstr (al_agent_name e') = cstr (al_agent_name e) ∧ cstr (al_interface_name e') = cstr (al_interface_name e) ∧
  cstr (al_fingerprint_hex e') = cstr (al_fingerprint_hex e) ∧ al_can_read e' = al_can_read e ∧
  al_can_write e' = al_can_write e ∧ al_can_admin e' = al_can_admin e.

#[export] Instance acl_entry_block : BlockWriter writeAclEntry 212 acl_entry_ok.
Proof. unfold acl_entry_ok. block_writer writeAclEntry. Qed.

Definition acl_entry_check (e : AdminAclListReplyEntry) : bool := isNameTerminated (al_agent_name e) && isInterfaceTerminated (al_interface_name e) && isFingerprintTerminated (al_fingerprint_hex e).
#[export] Instance acl_entry_entry : AdminEntry AdminAclListReplyEntry := {|
  ae_type := kMESSAGE_TYPE_ADMIN_ACL_LIST_REPLY; ae_max := 16%nat; ae_size := 212%nat; ae_check := acl_entry_check;
  ae_write := writeAclEntry; ae_read := void_reader readAclEntry; ae_shape _ := True; ae_ok := acl_entry_ok; ae_same := acl_entry_same |}.

#[export] Instance acl_entry_entry_ok : AdminEntryOk AdminAclListReplyEntry.
Proof. admin_entry 212%nat acl_entry_check writeAclEntry readAclEntry acl_entry_same. Qed.

Notation AdminAclListReplyMessage := (AdminReply AdminAclListReplyEntry).
Definition AdminAclListReplyMessage_Encode (self : AdminAclListReplyMessage) := encodeEntries kMESSAGE_TYPE_ADMIN_ACL_LIST_REPLY 16 212 acl_entry_check writeAclEntry self.
Definition AdminAclListReplyMessage_Decode (self : AdminAclListReplyMessage) := decodeEntries 16 212 (void_reader readAclEntry) self.

Record AdminInterfacesReplyEntry := {
  ai_interface_id : Z; ai_subscriber_count : Z; ai_mode : Z; ai_frames_received : Z; ai_agent_name : list Z;
  ai_interface_name : list Z; ai_tx_dropped : Z;
}.
Definition writeInterfaceEntry (buffer : list Z) (off : nat) (e : AdminInterfacesReplyEntry) : list Z :=
  let buffer := Wire_WriteU32 buffer (off + 0) (ai_interface_id e) in
  let buffer := <[(off + 4)%nat := ai_subscriber_count e]> buffer in
  let buffer := <[(off + 5)%nat := ai_mode e]> buffer in
  let buffer := Wire_WriteU64 buffer (off + 8) (ai_frames_received e) in
  let buffer := put_string (off + 16) (ai_agent_name e) buffer in
  let buffer := put_string (off + 144) (ai_interface_name e) buffer in
  Wire_WriteU64 buffer (off + 160) (ai_tx_dropped e).
Definition readInterfaceEntry (payload : list Z) (off : nat) : AdminInterfacesReplyEntry := {|
  ai_interface_id := Wire_ReadU32 payload (off + 0); ai_subscriber_count := payload !!! (off + 4)%nat;
  ai_mode := payload !!! (off + 5)%nat; ai_frames_received := Wire_ReadU64 payload (off + 8);
  ai_agent_name := get_string (off + 16) 128 payload; ai_interface_name := get_string (off + 144) 16 payload;
  ai_tx_dropped := Wire_ReadU64 payload (off + 160) |}.
#[export] Instance AdminInterfacesReplyEntry_inhabited : Inhabited AdminInterfacesReplyEntry := populate (readInterfaceEntry (replicate 168 0) 0).

Definition interface_entry_ok (e : AdminInterfacesReplyEntry) : Prop :=
  is_u32 (ai_interface_id e) ∧ is_u8 (ai_subscriber_count e) ∧ is_u8 (ai_mode e) ∧ is_u64 (ai_frames_received e) ∧
  name_field 127 (ai_agent_name e) ∧ name_field 15 (ai_interface_name e) ∧ is_u64 (ai_tx_dropped e).
Definition interface_entry_same (e e' : AdminInterfacesReplyEntry) : Prop :=
  ai_interface_id e' = ai_interface_id e ∧ ai_subscriber_count e' = ai_subscriber_count e ∧ ai_mode e' = ai_mode e ∧
  ai_frames_received e' = ai_frames_received e ∧ cstr (ai_agent_name e') = cstr (ai_agent_name e) ∧
  cstr (ai_interface_name e') = cstr (ai_interface_name e) ∧ ai_tx_dropped e' = ai_tx_dropped e.

#[export] Instance interface_entry_block : BlockWriter writeInterfaceEntry 168 interface_entry_ok.
Proof. unfold interface_entry_ok. block_writer writeInterfaceEntry. Qed.

Definition interface_entry_check (e : AdminInterfacesReplyEntry) : bool := isNameTerminated (ai_agent_name e) && isInterfaceTerminated (ai_interface_name e).
#[export] Instance interface_entry_entry : AdminEntry AdminInterfacesReplyEntry := {|
  ae_type := kMESSAGE_TYPE_ADMIN_INTERFACES_REPLY; ae_max := 16%nat; ae_size := 168%nat; ae_check := interface_entry_check;
  ae_write := writeInterfaceEntry; ae_read := void_reader readInterfaceEntry; ae_shape _ := True; ae_ok := interface_entry_ok; ae_same := interface_entry_same |}.

#[export] Instance interface_entry_entry_ok : AdminEntryOk AdminInterfacesReplyEntry.
Proof. admin_entry 168%nat interface_entry_check writeInterfaceEntry readInterfaceEntry interface_entry_same. Qed.

Notation AdminInterfacesReplyMessage := (AdminReply AdminInterfacesReplyEntry).
Definition AdminInterfacesReplyMessage_Encode (self : AdminInterfacesReplyMessage) := encodeEntries kMESSAGE_TYPE_ADMIN_INTERFACES_REPLY 16 168 interface_entry_check writeInterfaceEntry self.
Definition AdminInterfacesReplyMessage_Decode (self : AdminInterfacesReplyMessage) := decodeEntries 16 168 (void_reader readInterfaceEntry) self.

Record AdminTxnsReplyEntry := {
  at_interface_id : Z; at_client_peer_id : Z; at_agent_peer_id : Z; at_txn_id : Z; at_state : Z; at_flags : Z;
  at_completed_steps : Z; at_bytes_in_flight : Z; at_age_ms : Z; at_progress_age_ms : Z; at_agent_name : list Z;
  at_interface_name : list Z;
}.
Definition writeTxnEntry (buffer : list Z) (off : nat) (e : AdminTxnsReplyEntry) : list Z :=
  let buffer := Wire_WriteU32 buffer (off + 0) (at_interface_id e) in
  let buffer := Wire_WriteU32 buffer (off + 4) (at_client_peer_id e) in
  let buffer := Wire_WriteU32 buffer (off + 8) (at_agent_peer_id e) in
  let buffer := Wire_WriteU16 buffer (off + 12) (at_txn_id e) in
  let buffer := <[(off + 14)%nat := at_state e]> buffer in
  let buffer := <[(off + 15)%nat := at_flags e]> buffer in
  let buffer := Wire_WriteU32 buffer (off + 16) (at_completed_steps e) in
  let buffer := Wire_WriteU32 buffer (off + 20) (at_bytes_in_flight e) in
  let buffer := Wire_WriteU32 buffer (off + 24) (at_age_ms e) in
  let buffer := Wire_WriteU32 buffer (off + 28) (at_progress_age_ms e) in
  let buffer := put_string (off + 32) (at_agent_name e) buffer in
  put_string (off + 160) (at_interface_name e) buffer.
Definition readTxnEntry (payload : list Z) (off : nat) : AdminTxnsReplyEntry := {|
  at_interface_id := Wire_ReadU32 payload (off + 0); at_client_peer_id := Wire_ReadU32 payload (off + 4);
  at_agent_peer_id := Wire_ReadU32 payload (off + 8); at_txn_id := Wire_ReadU16 payload (off + 12);
  at_state := payload !!! (off + 14)%nat; at_flags := payload !!! (off + 15)%nat;
  at_completed_steps := Wire_ReadU32 payload (off + 16); at_bytes_in_flight := Wire_ReadU32 payload (off + 20);
  at_age_ms := Wire_ReadU32 payload (off + 24); at_progress_age_ms := Wire_ReadU32 payload (off + 28);
  at_agent_name := get_string (off + 32) 128 payload; at_interface_name := get_string (off + 160) 16 payload |}.
#[export] Instance AdminTxnsReplyEntry_inhabited : Inhabited AdminTxnsReplyEntry := populate (readTxnEntry (replicate 176 0) 0).

Definition txn_entry_ok (e : AdminTxnsReplyEntry) : Prop :=
  is_u32 (at_interface_id e) ∧ is_u32 (at_client_peer_id e) ∧ is_u32 (at_agent_peer_id e) ∧ is_u16 (at_txn_id e) ∧
  is_u8 (at_state e) ∧ is_u8 (at_flags e) ∧ is_u32 (at_completed_steps e) ∧ is_u32 (at_bytes_in_flight e) ∧
  is_u32 (at_age_ms e) ∧ is_u32 (at_progress_age_ms e) ∧ name_field 127 (at_agent_name e) ∧
  name_field 15 (at_interface_name e).
Definition txn_entry_same (e e' : AdminTxnsReplyEntry) : Prop :=
  at_interface_id e' = at_interface_id e ∧ at_client_peer_id e' = at_client_peer_id e ∧
  at_agent_peer_id e' = at_agent_peer_id e ∧ at_txn_id e' = at_txn_id e ∧ at_state e' = at_state e ∧
  at_flags e' = at_flags e ∧ at_completed_steps e' = at_completed_steps e ∧ at_bytes_in_flight e' = at_bytes_in_flight e ∧
  at_age_ms e' = at_age_ms e ∧ at_progress_age_ms e' = at_progress_age_ms e ∧
  cstr (at_agent_name e') = cstr (at_agent_name e) ∧ cstr (at_interface_name e') = cstr (at_interface_name e).

#[export] Instance txn_entry_block : BlockWriter writeTxnEntry 176 txn_entry_ok.
Proof. unfold txn_entry_ok. block_writer writeTxnEntry. Qed.

Definition areTxnEntryNamesTerminated (e : AdminTxnsReplyEntry) : bool := isNameTerminated (at_agent_name e) && isInterfaceTerminated (at_interface_name e).
#[export] Instance txn_entry_entry : AdminEntry AdminTxnsReplyEntry := {|
  ae_type := kMESSAGE_TYPE_ADMIN_TXNS_REPLY; ae_max := 16%nat; ae_size := 176%nat; ae_check := areTxnEntryNamesTerminated;
  ae_write := writeTxnEntry; ae_read := void_reader readTxnEntry; ae_shape _ := True; ae_ok := txn_entry_ok; ae_same := txn_entry_same |}.

#[export] Instance txn_entry_entry_ok : AdminEntryOk AdminTxnsReplyEntry.
Proof. admin_entry 176%nat areTxnEntryNamesTerminated writeTxnEntry readTxnEntry txn_entry_same. Qed.

Notation AdminTxnsReplyMessage := (AdminReply AdminTxnsReplyEntry).
Definition AdminTxnsReplyMessage_Encode (self : AdminTxnsReplyMessage) := encodeEntries kMESSAGE_TYPE_ADMIN_TXNS_REPLY 16 176 areTxnEntryNamesTerminated writeTxnEntry self.
Definition AdminTxnsReplyMessage_Decode (self : AdminTxnsReplyMessage) := decodeEntries 16 176 (void_reader readTxnEntry) self.

Definition writeRejectedEntry (buffer : list Z) (off : nat) (e : AdminRejectedReplyEntry) : list Z :=
  let buffer := <[(off + 0)%nat := ar_role e]> buffer in
  let buffer := <[(off + 1)%nat := ar_reason e]> buffer in
  let buffer := Wire_WriteU32 buffer (off + 4) (ar_attempts e) in
  let buffer := Wire_WriteU32 buffer (off + 8) (ar_last_seen_seconds e) in
  let buffer := put_string (off + 12) (ar_name e) buffer in
  let buffer := put_string (off + 140) (ar_fingerprint_hex e) buffer in
  put_string (off + 205) (ar_origin e) buffer.
Definition readRejectedEntry (payload : list Z) (off : nat) : AdminRejectedReplyEntry := {|
  ar_role := payload !!! (off + 0)%nat; ar_reason := payload !!! (off + 1)%nat;
  ar_attempts := Wire_ReadU32 payload (off + 4); ar_last_seen_seconds := Wire_ReadU32 payload (off + 8);
  ar_name := get_string (off + 12) 128 payload; ar_fingerprint_hex := get_string (off + 140) 65 payload;
  ar_origin := get_string (off + 205) 56 payload |}.
#[export] Instance AdminRejectedReplyEntry_inhabited : Inhabited AdminRejectedReplyEntry := populate (readRejectedEntry (replicate 264 0) 0).

Definition rejected_entry_ok (e : AdminRejectedReplyEntry) : Prop :=
  is_u8 (ar_role e) ∧ is_u8 (ar_reason e) ∧ is_u32 (ar_attempts e) ∧ is_u32 (ar_last_seen_seconds e) ∧
  name_field 127 (ar_name e) ∧ name_field 64 (ar_fingerprint_hex e) ∧ name_field 55 (ar_origin e).
Definition rejected_entry_same (e e' : AdminRejectedReplyEntry) : Prop :=
  ar_role e' = ar_role e ∧ ar_reason e' = ar_reason e ∧ ar_attempts e' = ar_attempts e ∧
  ar_last_seen_seconds e' = ar_last_seen_seconds e ∧ cstr (ar_name e') = cstr (ar_name e) ∧
  cstr (ar_fingerprint_hex e') = cstr (ar_fingerprint_hex e) ∧ cstr (ar_origin e') = cstr (ar_origin e).

#[export] Instance rejected_entry_block : BlockWriter writeRejectedEntry 264 rejected_entry_ok.
Proof. unfold rejected_entry_ok. block_writer writeRejectedEntry. Qed.

Definition isRejectedEntryTerminated (e : AdminRejectedReplyEntry) : bool := isNameTerminated (ar_name e) && isFingerprintTerminated (ar_fingerprint_hex e) && (ar_origin e !!! 55%nat =? 0).
#[export] Instance rejected_entry_entry : AdminEntry AdminRejectedReplyEntry := {|
  ae_type := kMESSAGE_TYPE_ADMIN_REJECTED_REPLY; ae_max := 15%nat; ae_size := 264%nat; ae_check := isRejectedEntryTerminated;
  ae_write := writeRejectedEntry; ae_read := void_reader readRejectedEntry; ae_shape _ := True; ae_ok := rejected_entry_ok; ae_same := rejected_entry_same |}.

#[export] Instance rejected_entry_entry_ok : AdminEntryOk AdminRejectedReplyEntry.
Proof. admin_entry 264%nat isRejectedEntryTerminated writeRejectedEntry readRejectedEntry rejected_entry_same. Qed.

Notation AdminRejectedReplyMessage := (AdminReply AdminRejectedReplyEntry).
Definition AdminRejectedReplyMessage_Encode (self : AdminRejectedReplyMessage) := encodeEntries kMESSAGE_TYPE_ADMIN_REJECTED_REPLY 15 264 isRejectedEntryTerminated writeRejectedEntry self.
Definition AdminRejectedReplyMessage_Decode (self : AdminRejectedReplyMessage) := decodeEntries 15 264 (void_reader readRejectedEntry) self.


(** ** Single messages *)

Lemma is_named_eq a b : cstr a = cstr b → is_named a = is_named b.
Proof. intros H. apply eq_true_iff_eq. by rewrite !is_named_cstr, H. Qed.

(** Every name a hypothesis knows to be present. *)
Ltac all_named := repeat match goal with H : is_named ?s = true |- context [is_named ?s] => rewrite H end.

(** Reduces the promise of a message of fixed size to its decoder on the image, whose blocks are [Hf]. *)
Ltac admin_message size ok encode decode w Hf :=
  split; [by vm_compute|intros; apply Nat.leb_le; by vm_compute|];
  let Hv := fresh "Hv" in let Hok := fresh "Hok" in let Hb := fresh "Hb" in let Hs := fresh "Hs" in let Hl := fresh "Hl" in
  intros m buf Hv Hb; hnf in Hv;
  assert (ok m) as Hok by (first [exact Hv | exact (proj1 Hv)]); pose proof Hok; unfold ok in *; destruct_and?;
  change (wm_encode m buf) with (encode m buf); unfold encode, isNameTerminated, isFingerprintTerminated, isInterfaceTerminated;
  repeat match goal with H : name_field _ ?s |- context [?s !!! _] => rewrite (proj2 H) end;
  all_named; cbn [negb orb Z.eqb];
  eapply (message_ok _ size w _ decode (λ _, True)); [apply _|apply _|by unfold ok|apply Nat.leb_le; by vm_compute|exact Hb|];
  intros old p _ Hl Hs; image_blocks w Hs Hf; unfold decode; rewrite Hl; cbn [Nat.ltb Nat.leb].

Record TransactionCounters := {
  tc_started : Z; tc_completed : Z; tc_aborted : Z; tc_rejected : Z; tc_steps_completed : Z; tc_lease_frame_drops : Z;
}.

Record AdminStatusReplyMessage := {
  as_peer_count : Z; as_agent_count : Z; as_client_count : Z; as_interface_count : Z; as_receive_overflows : Z;
  as_frames_received : Z; as_frames_forwarded : Z; as_frames_dropped : Z; as_frames_unroutable : Z; as_transactions : TransactionCounters;
}.
Definition writeStatusReply (buffer : list Z) (body : nat) (self : AdminStatusReplyMessage) : list Z :=
  let buffer := Wire_WriteU16 buffer (body + 0) (as_peer_count self) in
  let buffer := Wire_WriteU16 buffer (body + 2) (as_agent_count self) in
  let buffer := Wire_WriteU16 buffer (body + 4) (as_client_count self) in
  let buffer := Wire_WriteU16 buffer (body + 6) (as_interface_count self) in
  let buffer := Wire_WriteU32 buffer (body + 8) (as_receive_overflows self) in
  let buffer := Wire_WriteU64 buffer (body + 12) (as_frames_received self) in
  let buffer := Wire_WriteU64 buffer (body + 20) (as_frames_forwarded self) in
  let buffer := Wire_WriteU64 buffer (body + 28) (as_frames_dropped self) in
  let buffer := Wire_WriteU64 buffer (body + 36) (as_frames_unroutable self) in
  let buffer := Wire_WriteU64 buffer (body + 44) (tc_started (as_transactions self)) in
  let buffer := Wire_WriteU64 buffer (body + 52) (tc_completed (as_transactions self)) in
  let buffer := Wire_WriteU64 buffer (body + 60) (tc_aborted (as_transactions self)) in
  let buffer := Wire_WriteU64 buffer (body + 68) (tc_rejected (as_transactions self)) in
  let buffer := Wire_WriteU64 buffer (body + 76) (tc_steps_completed (as_transactions self)) in
  Wire_WriteU64 buffer (body + 84) (tc_lease_frame_drops (as_transactions self)).

Definition AdminStatusReplyMessage_Encode (self : AdminStatusReplyMessage) (buffer : list Z) : nat * list Z :=
  with_body kMESSAGE_TYPE_ADMIN_STATUS_REPLY 92 (λ b body, writeStatusReply b body self) buffer.

Definition AdminStatusReplyMessage_Decode (self : AdminStatusReplyMessage) (payload : list Z) : bool * AdminStatusReplyMessage :=
  if Nat.ltb (length payload) 92 then (false, self)
  else
    (true, {| as_peer_count := Wire_ReadU16 payload 0; as_agent_count := Wire_ReadU16 payload 2;
        as_client_count := Wire_ReadU16 payload 4; as_interface_count := Wire_ReadU16 payload 6;
        as_receive_overflows := Wire_ReadU32 payload 8; as_frames_received := Wire_ReadU64 payload 12;
        as_frames_forwarded := Wire_ReadU64 payload 20; as_frames_dropped := Wire_ReadU64 payload 28;
        as_frames_unroutable := Wire_ReadU64 payload 36; as_transactions := {| tc_started := Wire_ReadU64 payload 44;
        tc_completed := Wire_ReadU64 payload 52; tc_aborted := Wire_ReadU64 payload 60;
        tc_rejected := Wire_ReadU64 payload 68; tc_steps_completed := Wire_ReadU64 payload 76;
        tc_lease_frame_drops := Wire_ReadU64 payload 84 |} |}).

Definition status_reply_ok (e : AdminStatusReplyMessage) : Prop :=
  is_u16 (as_peer_count e) ∧ is_u16 (as_agent_count e) ∧ is_u16 (as_client_count e) ∧ is_u16 (as_interface_count e) ∧
  is_u32 (as_receive_overflows e) ∧ is_u64 (as_frames_received e) ∧ is_u64 (as_frames_forwarded e) ∧
  is_u64 (as_frames_dropped e) ∧ is_u64 (as_frames_unroutable e) ∧ is_u64 (tc_started (as_transactions e)) ∧
  is_u64 (tc_completed (as_transactions e)) ∧ is_u64 (tc_aborted (as_transactions e)) ∧ is_u64 (tc_rejected (as_transactions e)) ∧
  is_u64 (tc_steps_completed (as_transactions e)) ∧ is_u64 (tc_lease_frame_drops (as_transactions e)).

#[export] Instance status_reply_block : BlockWriter writeStatusReply 92 status_reply_ok.
Proof. unfold status_reply_ok. block_writer writeStatusReply. Qed.

#[export] Instance AdminStatusReplyMessage_wire : WireMessage AdminStatusReplyMessage := {|
  wm_type := kMESSAGE_TYPE_ADMIN_STATUS_REPLY; wm_size _ := 92%nat; wm_shape _ := True;
  wm_valid m := status_reply_ok m;
  wm_encode := AdminStatusReplyMessage_Encode; wm_decode := AdminStatusReplyMessage_Decode; wm_same m m' := m' = m |}.

#[export] Instance AdminStatusReplyMessage_ok : WireMessageOk AdminStatusReplyMessage.
Proof.
  admin_message 92%nat status_reply_ok AdminStatusReplyMessage_Encode AdminStatusReplyMessage_Decode writeStatusReply Hf.
  destruct m as [? ? ? ? ? ? ? ? ? []]. cbn in *. eexists. split; [reflexivity|]. cbn. f_equal; [..|f_equal]; field_read Hf.
Qed.

Record AdminKickPeerMessage := {
  kp_peer_id : Z;
}.
Definition writeKickPeer (buffer : list Z) (body : nat) (self : AdminKickPeerMessage) : list Z :=
  Wire_WriteU32 buffer (body + 0) (kp_peer_id self).

Definition AdminKickPeerMessage_Encode (self : AdminKickPeerMessage) (buffer : list Z) : nat * list Z :=
  with_body kMESSAGE_TYPE_ADMIN_KICK_PEER 4 (λ b body, writeKickPeer b body self) buffer.

Definition AdminKickPeerMessage_Decode (self : AdminKickPeerMessage) (payload : list Z) : bool * AdminKickPeerMessage :=
  if Nat.ltb (length payload) 4 then (false, self)
  else
    (true, {| kp_peer_id := Wire_ReadU32 payload 0 |}).

Definition kick_peer_ok (e : AdminKickPeerMessage) : Prop :=
  is_u32 (kp_peer_id e).
#[export] Instance kick_peer_block : BlockWriter writeKickPeer 4 kick_peer_ok.
Proof. unfold kick_peer_ok. block_writer writeKickPeer. Qed.

#[export] Instance AdminKickPeerMessage_wire : WireMessage AdminKickPeerMessage := {|
  wm_type := kMESSAGE_TYPE_ADMIN_KICK_PEER; wm_size _ := 4%nat; wm_shape _ := True;
  wm_valid m := kick_peer_ok m;
  wm_encode := AdminKickPeerMessage_Encode; wm_decode := AdminKickPeerMessage_Decode; wm_same m m' := m' = m |}.

#[export] Instance AdminKickPeerMessage_ok : WireMessageOk AdminKickPeerMessage.
Proof.
  admin_message 4%nat kick_peer_ok AdminKickPeerMessage_Encode AdminKickPeerMessage_Decode writeKickPeer Hf.
  destruct m. cbn in *. eexists. split; [reflexivity|]. cbn. f_equal. field_read Hf.
Qed.

Record AdminPinAddMessage := {
  pa_agent_name : list Z; pa_fingerprint_hex : list Z;
}.
Definition writePinAdd (buffer : list Z) (body : nat) (self : AdminPinAddMessage) : list Z :=
  let buffer := put_string (body + 0) (pa_agent_name self) buffer in
  put_string (body + 128) (pa_fingerprint_hex self) buffer.

Definition AdminPinAddMessage_Encode (self : AdminPinAddMessage) (buffer : list Z) : nat * list Z :=
  if negb (isNameTerminated (pa_agent_name self)) || negb (is_named (pa_agent_name self)) then (0%nat, buffer)
  else   if negb (isFingerprintTerminated (pa_fingerprint_hex self)) || negb (is_named (pa_fingerprint_hex self)) then (0%nat, buffer)
  else
    with_body kMESSAGE_TYPE_ADMIN_PIN_ADD 196 (λ b body, writePinAdd b body self) buffer.

Definition AdminPinAddMessage_Decode (self : AdminPinAddMessage) (payload : list Z) : bool * AdminPinAddMessage :=
  if Nat.ltb (length payload) 196 then (false, self)
  else
    let got := {| pa_agent_name := get_string 0 128 payload; pa_fingerprint_hex := get_string 128 65 payload |} in
    (is_named (pa_agent_name got) && is_named (pa_fingerprint_hex got), got).

Definition pin_add_ok (e : AdminPinAddMessage) : Prop :=
  name_field 127 (pa_agent_name e) ∧ name_field 64 (pa_fingerprint_hex e).
Definition pin_add_same (e e' : AdminPinAddMessage) : Prop :=
  cstr (pa_agent_name e') = cstr (pa_agent_name e) ∧ cstr (pa_fingerprint_hex e') = cstr (pa_fingerprint_hex e).

#[export] Instance pin_add_block : BlockWriter writePinAdd 196 pin_add_ok.
Proof. unfold pin_add_ok. block_writer writePinAdd. Qed.

#[export] Instance AdminPinAddMessage_wire : WireMessage AdminPinAddMessage := {|
  wm_type := kMESSAGE_TYPE_ADMIN_PIN_ADD; wm_size _ := 196%nat; wm_shape _ := True;
  wm_valid m := pin_add_ok m ∧ is_named (pa_agent_name m) = true ∧ is_named (pa_fingerprint_hex m) = true;
  wm_encode := AdminPinAddMessage_Encode; wm_decode := AdminPinAddMessage_Decode; wm_same := pin_add_same |}.

#[export] Instance AdminPinAddMessage_ok : WireMessageOk AdminPinAddMessage.
Proof.
  admin_message 196%nat pin_add_ok AdminPinAddMessage_Encode AdminPinAddMessage_Decode writePinAdd Hf.
  cbv zeta. cbn [pa_agent_name pa_fingerprint_hex].
  assert (cstr (get_string 0 128 p) = cstr (pa_agent_name m)) as H_pa_agent_name by field_read Hf.
  rewrite (is_named_eq _ _ H_pa_agent_name).
  assert (cstr (get_string 128 65 p) = cstr (pa_fingerprint_hex m)) as H_pa_fingerprint_hex by field_read Hf.
  rewrite (is_named_eq _ _ H_pa_fingerprint_hex).
  all_named. eexists. split; [reflexivity|]. change (wm_same m) with (pin_add_same m). unfold pin_add_same. cbn. conjuncts; field_read Hf.
Qed.

Record AdminAclSetMessage := {
  sa_agent_name : list Z; sa_interface_name : list Z; sa_fingerprint_hex : list Z; sa_can_read : Z; sa_can_write : Z;
  sa_can_admin : Z;
}.
Definition writeAclSet (buffer : list Z) (body : nat) (self : AdminAclSetMessage) : list Z :=
  let buffer := put_string (body + 0) (sa_agent_name self) buffer in
  let buffer := put_string (body + 128) (sa_interface_name self) buffer in
  let buffer := put_string (body + 144) (sa_fingerprint_hex self) buffer in
  let buffer := <[(body + 209)%nat := sa_can_read self]> buffer in
  let buffer := <[(body + 210)%nat := sa_can_write self]> buffer in
  <[(body + 211)%nat := sa_can_admin self]> buffer.

Definition AdminAclSetMessage_Encode (self : AdminAclSetMessage) (buffer : list Z) : nat * list Z :=
  if negb (isNameTerminated (sa_agent_name self)) || negb (is_named (sa_agent_name self)) then (0%nat, buffer)
  else   if negb (isInterfaceTerminated (sa_interface_name self)) || negb (is_named (sa_interface_name self)) then (0%nat, buffer)
  else   if negb (isFingerprintTerminated (sa_fingerprint_hex self)) || negb (is_named (sa_fingerprint_hex self)) then (0%nat, buffer)
  else
    with_body kMESSAGE_TYPE_ADMIN_ACL_SET 212 (λ b body, writeAclSet b body self) buffer.

Definition AdminAclSetMessage_Decode (self : AdminAclSetMessage) (payload : list Z) : bool * AdminAclSetMessage :=
  if Nat.ltb (length payload) 212 then (false, self)
  else
    let got := {| sa_agent_name := get_string 0 128 payload; sa_interface_name := get_string 128 16 payload;
        sa_fingerprint_hex := get_string 144 65 payload; sa_can_read := payload !!! 209%nat;
        sa_can_write := payload !!! 210%nat; sa_can_admin := payload !!! 211%nat |} in
    (is_named (sa_agent_name got) && is_named (sa_interface_name got) && is_named (sa_fingerprint_hex got), got).

Definition acl_set_ok (e : AdminAclSetMessage) : Prop :=
  name_field 127 (sa_agent_name e) ∧ name_field 15 (sa_interface_name e) ∧ name_field 64 (sa_fingerprint_hex e) ∧
  is_u8 (sa_can_read e) ∧ is_u8 (sa_can_write e) ∧ is_u8 (sa_can_admin e).
Definition acl_set_same (e e' : AdminAclSetMessage) : Prop :=
  cstr (sa_agent_name e') = cstr (sa_agent_name e) ∧ cstr (sa_interface_name e') = cstr (sa_interface_name e) ∧
  cstr (sa_fingerprint_hex e') = cstr (sa_fingerprint_hex e) ∧ sa_can_read e' = sa_can_read e ∧
  sa_can_write e' = sa_can_write e ∧ sa_can_admin e' = sa_can_admin e.

#[export] Instance acl_set_block : BlockWriter writeAclSet 212 acl_set_ok.
Proof. unfold acl_set_ok. block_writer writeAclSet. Qed.

#[export] Instance AdminAclSetMessage_wire : WireMessage AdminAclSetMessage := {|
  wm_type := kMESSAGE_TYPE_ADMIN_ACL_SET; wm_size _ := 212%nat; wm_shape _ := True;
  wm_valid m := acl_set_ok m ∧ is_named (sa_agent_name m) = true ∧ is_named (sa_interface_name m) = true ∧ is_named (sa_fingerprint_hex m) = true;
  wm_encode := AdminAclSetMessage_Encode; wm_decode := AdminAclSetMessage_Decode; wm_same := acl_set_same |}.

#[export] Instance AdminAclSetMessage_ok : WireMessageOk AdminAclSetMessage.
Proof.
  admin_message 212%nat acl_set_ok AdminAclSetMessage_Encode AdminAclSetMessage_Decode writeAclSet Hf.
  cbv zeta. cbn [sa_agent_name sa_interface_name sa_fingerprint_hex sa_can_read sa_can_write sa_can_admin].
  assert (cstr (get_string 0 128 p) = cstr (sa_agent_name m)) as H_sa_agent_name by field_read Hf.
  rewrite (is_named_eq _ _ H_sa_agent_name).
  assert (cstr (get_string 128 16 p) = cstr (sa_interface_name m)) as H_sa_interface_name by field_read Hf.
  rewrite (is_named_eq _ _ H_sa_interface_name).
  assert (cstr (get_string 144 65 p) = cstr (sa_fingerprint_hex m)) as H_sa_fingerprint_hex by field_read Hf.
  rewrite (is_named_eq _ _ H_sa_fingerprint_hex).
  all_named. eexists. split; [reflexivity|]. change (wm_same m) with (acl_set_same m). unfold acl_set_same. cbn. conjuncts; field_read Hf.
Qed.

Record AdminAclRevokeMessage := {
  rv_agent_name : list Z; rv_interface_name : list Z; rv_fingerprint_hex : list Z;
}.
Definition writeAclRevoke (buffer : list Z) (body : nat) (self : AdminAclRevokeMessage) : list Z :=
  let buffer := put_string (body + 0) (rv_agent_name self) buffer in
  let buffer := put_string (body + 128) (rv_interface_name self) buffer in
  put_string (body + 144) (rv_fingerprint_hex self) buffer.

Definition AdminAclRevokeMessage_Encode (self : AdminAclRevokeMessage) (buffer : list Z) : nat * list Z :=
  if negb (isNameTerminated (rv_agent_name self)) || negb (is_named (rv_agent_name self)) then (0%nat, buffer)
  else   if negb (isInterfaceTerminated (rv_interface_name self)) || negb (is_named (rv_interface_name self)) then (0%nat, buffer)
  else   if negb (isFingerprintTerminated (rv_fingerprint_hex self)) || negb (is_named (rv_fingerprint_hex self)) then (0%nat, buffer)
  else
    with_body kMESSAGE_TYPE_ADMIN_ACL_REVOKE 212 (λ b body, writeAclRevoke b body self) buffer.

Definition AdminAclRevokeMessage_Decode (self : AdminAclRevokeMessage) (payload : list Z) : bool * AdminAclRevokeMessage :=
  if Nat.ltb (length payload) 212 then (false, self)
  else
    let got := {| rv_agent_name := get_string 0 128 payload; rv_interface_name := get_string 128 16 payload;
        rv_fingerprint_hex := get_string 144 65 payload |} in
    (is_named (rv_agent_name got) && is_named (rv_interface_name got) && is_named (rv_fingerprint_hex got), got).

Definition acl_revoke_ok (e : AdminAclRevokeMessage) : Prop :=
  name_field 127 (rv_agent_name e) ∧ name_field 15 (rv_interface_name e) ∧ name_field 64 (rv_fingerprint_hex e).
Definition acl_revoke_same (e e' : AdminAclRevokeMessage) : Prop :=
  cstr (rv_agent_name e') = cstr (rv_agent_name e) ∧ cstr (rv_interface_name e') = cstr (rv_interface_name e) ∧
  cstr (rv_fingerprint_hex e') = cstr (rv_fingerprint_hex e).

#[export] Instance acl_revoke_block : BlockWriter writeAclRevoke 212 acl_revoke_ok.
Proof. unfold acl_revoke_ok. block_writer writeAclRevoke. Qed.

#[export] Instance AdminAclRevokeMessage_wire : WireMessage AdminAclRevokeMessage := {|
  wm_type := kMESSAGE_TYPE_ADMIN_ACL_REVOKE; wm_size _ := 212%nat; wm_shape _ := True;
  wm_valid m := acl_revoke_ok m ∧ is_named (rv_agent_name m) = true ∧ is_named (rv_interface_name m) = true ∧ is_named (rv_fingerprint_hex m) = true;
  wm_encode := AdminAclRevokeMessage_Encode; wm_decode := AdminAclRevokeMessage_Decode; wm_same := acl_revoke_same |}.

#[export] Instance AdminAclRevokeMessage_ok : WireMessageOk AdminAclRevokeMessage.
Proof.
  admin_message 212%nat acl_revoke_ok AdminAclRevokeMessage_Encode AdminAclRevokeMessage_Decode writeAclRevoke Hf.
  cbv zeta. cbn [rv_agent_name rv_interface_name rv_fingerprint_hex].
  assert (cstr (get_string 0 128 p) = cstr (rv_agent_name m)) as H_rv_agent_name by field_read Hf.
  rewrite (is_named_eq _ _ H_rv_agent_name).
  assert (cstr (get_string 128 16 p) = cstr (rv_interface_name m)) as H_rv_interface_name by field_read Hf.
  rewrite (is_named_eq _ _ H_rv_interface_name).
  assert (cstr (get_string 144 65 p) = cstr (rv_fingerprint_hex m)) as H_rv_fingerprint_hex by field_read Hf.
  rewrite (is_named_eq _ _ H_rv_fingerprint_hex).
  all_named. eexists. split; [reflexivity|]. change (wm_same m) with (acl_revoke_same m). unfold acl_revoke_same. cbn. conjuncts; field_read Hf.
Qed.

