(* ===== verification/AdminBridge.v ===== *)
(** * The admin messages about bridges and groups (src/protocol/admin_message.c) *)

From Stdlib Require Import String.
From S2P Require Import Prelude CString Wire Codec SubscribeMessage AdminCodec BridgeRoutes.

Definition kMESSAGE_TYPE_ADMIN_BRIDGE_SET : Z := 42.
Definition kMESSAGE_TYPE_ADMIN_BRIDGE_SET_REPLY : Z := 43.
Definition kMESSAGE_TYPE_ADMIN_BRIDGE_DELETE : Z := 46.
Definition kMESSAGE_TYPE_ADMIN_BRIDGE_DELETE_REPLY : Z := 47.
Definition kMESSAGE_TYPE_ADMIN_BRIDGE_LIST : Z := 48.
Definition kMESSAGE_TYPE_ADMIN_BRIDGE_LIST_REPLY : Z := 49.
Definition kMESSAGE_TYPE_ADMIN_GROUP_SET : Z := 50.
Definition kMESSAGE_TYPE_ADMIN_GROUP_SET_REPLY : Z := 51.
Definition kMESSAGE_TYPE_ADMIN_GROUP_DELETE : Z := 52.
Definition kMESSAGE_TYPE_ADMIN_GROUP_DELETE_REPLY : Z := 53.
Definition kMESSAGE_TYPE_ADMIN_GROUP_JOIN : Z := 54.
Definition kMESSAGE_TYPE_ADMIN_GROUP_JOIN_REPLY : Z := 55.
Definition kMESSAGE_TYPE_ADMIN_GROUP_LEAVE : Z := 56.
Definition kMESSAGE_TYPE_ADMIN_GROUP_LEAVE_REPLY : Z := 57.
Definition kMESSAGE_TYPE_ADMIN_GROUP_LIST : Z := 58.
Definition kMESSAGE_TYPE_ADMIN_GROUP_LIST_REPLY : Z := 59.

Definition ADMIN_GROUP_MEMBER_RECEIVES : Z := 2.
Notation ADMIN_BRIDGE_ENDPOINT_SIZE := 144%nat (only parsing).
Notation ADMIN_BRIDGE_SET_BODY_SIZE := 420%nat (only parsing).
Notation ADMIN_BRIDGE_DELETE_BODY_SIZE := 288%nat (only parsing).
Notation ADMIN_BRIDGE_LIST_REPLY_ENTRIES_MAX := 8%nat (only parsing).
Notation ADMIN_BRIDGE_LIST_REPLY_ENTRY_SIZE := 440%nat (only parsing).
Notation ADMIN_GROUP_NAME_SIZE := 32%nat (only parsing).
Notation ADMIN_GROUP_SET_BODY_SIZE := 164%nat (only parsing).
Notation ADMIN_GROUP_DELETE_BODY_SIZE := 32%nat (only parsing).
Notation ADMIN_GROUP_MEMBER_BODY_SIZE := 244%nat (only parsing).
Notation ADMIN_GROUP_LIST_REPLY_ENTRIES_MAX := 1%nat (only parsing).
Notation ADMIN_GROUP_LIST_REPLY_ENTRY_SIZE := 3640%nat (only parsing).
Notation GROUP_ENTRY_MEMBER_SIZE := 216%nat (only parsing).

(** [AdminBridgeEndpoint] has the layout of the hub's [BridgeEndpoint]; the broker copies one onto the other. *)
Notation AdminBridgeEndpoint := BridgeEndpoint.

Record AdminBridgeSetMessage := {
  ab_source : AdminBridgeEndpoint; ab_destination : AdminBridgeEndpoint; ab_filter_count : Z; ab_filters : list CanFilter;
}.
Record AdminBridgeDeleteMessage := { bd_source : AdminBridgeEndpoint; bd_destination : AdminBridgeEndpoint }.
Record AdminBridgeListReplyEntry := {
  be_source : AdminBridgeEndpoint; be_destination : AdminBridgeEndpoint; be_filter_count : Z; be_state : Z; be_filters : list CanFilter;
  be_forwarded : Z; be_dropped : Z;
}.
Record AdminGroupSetMessage := { gq_name : list Z; gq_filter_count : Z; gq_filters : list CanFilter }.
Record AdminGroupDeleteMessage := { gd_name : list Z }.
Record AdminGroupMemberMessage (type : Z) := {
  gj_name : list Z; gj_member : AdminBridgeEndpoint; gj_direction : Z; gj_filter_count : Z; gj_filters : list CanFilter;
}.
Arguments Build_AdminGroupMemberMessage {_}. Arguments gj_name {_}. Arguments gj_member {_}. Arguments gj_direction {_}.
Arguments gj_filter_count {_}. Arguments gj_filters {_}.
Record AdminGroupMember := {
  am_endpoint : AdminBridgeEndpoint; am_state : Z; am_direction : Z; am_filter_count : Z; am_filters : list CanFilter;
}.
Record AdminGroupListReplyEntry := {
  ge_name : list Z; ge_filter_count : Z; ge_member_count : Z; ge_filters : list CanFilter; ge_forwarded : Z; ge_dropped : Z;
  ge_members : list AdminGroupMember;
}.

Notation AdminBridgeListMessage := (OffsetRequest kMESSAGE_TYPE_ADMIN_BRIDGE_LIST).
Notation AdminGroupListMessage := (OffsetRequest kMESSAGE_TYPE_ADMIN_GROUP_LIST).
Notation AdminBridgeSetReplyMessage := (StatusReply kMESSAGE_TYPE_ADMIN_BRIDGE_SET_REPLY).
Notation AdminBridgeDeleteReplyMessage := (StatusReply kMESSAGE_TYPE_ADMIN_BRIDGE_DELETE_REPLY).
Notation AdminBridgeListReplyMessage := (AdminReply AdminBridgeListReplyEntry).
Notation AdminGroupListReplyMessage := (AdminReply AdminGroupListReplyEntry).

Definition AdminBridgeStatus_Name (status : Z) : string :=
  if status =? 0 then "ok"
  else if status =? 1 then "a bridge needs two different interfaces"
  else if status =? 2 then "the hub holds no more bridges"
  else if status =? 3 then "could not store the bridge"
  else if status =? 4 then "no such bridge"
  else "unknown status".

Definition AdminBridgeListMessage_Encode (self : AdminBridgeListMessage) := encodeOffsetRequest kMESSAGE_TYPE_ADMIN_BRIDGE_LIST (or_offset self).
Definition AdminBridgeListMessage_Decode (self : AdminBridgeListMessage) := decodeOffsetRequest self.
Definition AdminGroupListMessage_Encode (self : AdminGroupListMessage) := encodeOffsetRequest kMESSAGE_TYPE_ADMIN_GROUP_LIST (or_offset self).
Definition AdminGroupListMessage_Decode (self : AdminGroupListMessage) := decodeOffsetRequest self.
Definition AdminBridgeSetReplyMessage_Encode (self : AdminBridgeSetReplyMessage) :=
  encodeStatusReply kMESSAGE_TYPE_ADMIN_BRIDGE_SET_REPLY (sr_status self).
Definition AdminBridgeSetReplyMessage_Decode (self : AdminBridgeSetReplyMessage) := decodeStatusReply self.
Definition AdminBridgeDeleteReplyMessage_Encode (self : AdminBridgeDeleteReplyMessage) :=
  encodeStatusReply kMESSAGE_TYPE_ADMIN_BRIDGE_DELETE_REPLY (sr_status self).
Definition AdminBridgeDeleteReplyMessage_Decode (self : AdminBridgeDeleteReplyMessage) := decodeStatusReply self.
(** The four group replies: the type is the caller's. *)
Definition AdminGroupReplyMessage_Encode (type : Z) (self : StatusReply type) := encodeStatusReply type (sr_status self).
Definition AdminGroupReplyMessage_Decode {type} (self : StatusReply type) := decodeStatusReply self.

(** ** Endpoints, filters, names *)

Definition isBridgeEndpointValid (e : AdminBridgeEndpoint) : bool :=
  if negb (isNameTerminated (ep_agent_name e)) || negb (is_named (ep_agent_name e)) then false
  else isInterfaceTerminated (ep_interface_name e) && is_named (ep_interface_name e).

Definition writeBridgeEndpoint (buffer : list Z) (off : nat) (e : AdminBridgeEndpoint) : list Z :=
  let buffer := put_string (off + 0) (ep_agent_name e) buffer in
  put_string (off + 128) (ep_interface_name e) buffer.

Definition readBridgeEndpoint (payload : list Z) (off : nat) : bool * AdminBridgeEndpoint :=
  let e := {| ep_agent_name := get_string (off + 0) 128 payload; ep_interface_name := get_string (off + 128) 16 payload |} in
  (is_named (ep_agent_name e) && is_named (ep_interface_name e), e).

Definition writeBridgeFilters (buffer : list Z) (off : nat) (filters : list CanFilter) (filter_count : Z) : list Z :=
  write_entries writeFilter CAN_FILTER_SIZE off (take (Z.to_nat filter_count) filters) buffer.

Definition readBridgeFilters (payload : list Z) (off : nat) (filters : list CanFilter) (filter_count : Z) : list CanFilter :=
  list_inserts 0 (read_entries readFilter CAN_FILTER_SIZE off (Z.to_nat filter_count) payload) filters.

Definition isGroupNameValid (name : list Z) : bool := (name !!! 31%nat =? 0) && is_named name.

Definition readGroupName (payload : list Z) (off : nat) : bool * list Z :=
  let name := get_string off ADMIN_GROUP_NAME_SIZE payload in (is_named name, name).

(** ** Bridges *)

Definition writeBridgeSet (buffer : list Z) (body : nat) (self : AdminBridgeSetMessage) : list Z :=
  let buffer := writeBridgeEndpoint buffer (body + 0) (ab_source self) in
  let buffer := writeBridgeEndpoint buffer (body + 144) (ab_destination self) in
  let buffer := <[(body + 288)%nat := ab_filter_count self]> buffer in
  writeBridgeFilters buffer (body + 292) (ab_filters self) (ab_filter_count self).

Definition AdminBridgeSetMessage_Encode (self : AdminBridgeSetMessage) (buffer : list Z) : nat * list Z :=
  if negb (isBridgeEndpointValid (ab_source self)) || negb (isBridgeEndpointValid (ab_destination self)) then (0%nat, buffer)
  else if ab_filter_count self >? 16 then (0%nat, buffer)
  else with_body kMESSAGE_TYPE_ADMIN_BRIDGE_SET ADMIN_BRIDGE_SET_BODY_SIZE (λ b body, writeBridgeSet b body self) buffer.

Definition AdminBridgeSetMessage_Decode (self : AdminBridgeSetMessage) (payload : list Z) : bool * AdminBridgeSetMessage :=
  let with_fields source destination count filters :=
    {| ab_source := source; ab_destination := destination; ab_filter_count := count; ab_filters := filters |} in
  if Nat.ltb (length payload) ADMIN_BRIDGE_SET_BODY_SIZE then (false, self)
  else
    let '(source_ok, source) := readBridgeEndpoint payload 0 in
    if negb source_ok then (false, with_fields source (ab_destination self) (ab_filter_count self) (ab_filters self))
    else
      let '(destination_ok, destination) := readBridgeEndpoint payload 144 in
      if negb destination_ok then (false, with_fields source destination (ab_filter_count self) (ab_filters self))
      else
        let count := payload !!! 288%nat in
        if count >? 16 then (false, with_fields source destination count (ab_filters self))
        else (true, with_fields source destination count (readBridgeFilters payload 292 (ab_filters self) count)).

Definition writeBridgeDelete (buffer : list Z) (body : nat) (self : AdminBridgeDeleteMessage) : list Z :=
  let buffer := writeBridgeEndpoint buffer (body + 0) (bd_source self) in
  writeBridgeEndpoint buffer (body + 144) (bd_destination self).

Definition AdminBridgeDeleteMessage_Encode (self : AdminBridgeDeleteMessage) (buffer : list Z) : nat * list Z :=
  if negb (isBridgeEndpointValid (bd_source self)) || negb (isBridgeEndpointValid (bd_destination self)) then (0%nat, buffer)
  else with_body kMESSAGE_TYPE_ADMIN_BRIDGE_DELETE ADMIN_BRIDGE_DELETE_BODY_SIZE (λ b body, writeBridgeDelete b body self) buffer.

Definition AdminBridgeDeleteMessage_Decode (self : AdminBridgeDeleteMessage) (payload : list Z) : bool * AdminBridgeDeleteMessage :=
  if Nat.ltb (length payload) ADMIN_BRIDGE_DELETE_BODY_SIZE then (false, self)
  else
    let '(source_ok, source) := readBridgeEndpoint payload 0 in
    if negb source_ok then (false, {| bd_source := source; bd_destination := bd_destination self |})
    else
      let '(destination_ok, destination) := readBridgeEndpoint payload 144 in
      (destination_ok, {| bd_source := source; bd_destination := destination |}).

Definition writeBridgeEntry (buffer : list Z) (off : nat) (e : AdminBridgeListReplyEntry) : list Z :=
  let buffer := writeBridgeEndpoint buffer (off + 0) (be_source e) in
  let buffer := writeBridgeEndpoint buffer (off + 144) (be_destination e) in
  let buffer := <[(off + 288)%nat := be_filter_count e]> buffer in
  let buffer := <[(off + 289)%nat := be_state e]> buffer in
  let buffer := writeBridgeFilters buffer (off + 292) (be_filters e) (be_filter_count e) in
  let buffer := Wire_WriteU64 buffer (off + 424) (be_forwarded e) in
  Wire_WriteU64 buffer (off + 432) (be_dropped e).

Definition readBridgeEntry (payload : list Z) (off : nat) (e : AdminBridgeListReplyEntry) : bool * AdminBridgeListReplyEntry :=
  let with_fields source destination count :=
    {| be_source := source; be_destination := destination; be_filter_count := count; be_state := be_state e; be_filters := be_filters e;
       be_forwarded := be_forwarded e; be_dropped := be_dropped e |} in
  let '(source_ok, source) := readBridgeEndpoint payload (off + 0) in
  if negb source_ok then (false, with_fields source (be_destination e) (be_filter_count e))
  else
    let '(destination_ok, destination) := readBridgeEndpoint payload (off + 144) in
    if negb destination_ok then (false, with_fields source destination (be_filter_count e))
    else
      let count := payload !!! (off + 288)%nat in
      if count >? 16 then (false, with_fields source destination count)
      else
        (true, {| be_source := source; be_destination := destination; be_filter_count := count; be_state := payload !!! (off + 289)%nat;
                  be_filters := readBridgeFilters payload (off + 292) (be_filters e) count;
                  be_forwarded := Wire_ReadU64 payload (off + 424); be_dropped := Wire_ReadU64 payload (off + 432) |}).

(** The encoder's test of an entry. *)
Definition isBridgeEntryValid (e : AdminBridgeListReplyEntry) : bool :=
  isBridgeEndpointValid (be_source e) && isBridgeEndpointValid (be_destination e) && negb (be_filter_count e >? 16).

Definition BridgeEntry_zero : AdminBridgeListReplyEntry := {|
  be_source := BridgeEndpoint_zero; be_destination := BridgeEndpoint_zero; be_filter_count := 0; be_state := 0;
  be_filters := replicate SUBSCRIBE_FILTERS_MAX CanFilter_zero; be_forwarded := 0; be_dropped := 0 |}.
#[export] Instance AdminBridgeListReplyEntry_inhabited : Inhabited AdminBridgeListReplyEntry := populate BridgeEntry_zero.

Definition AdminBridgeListReplyMessage_Encode (self : AdminBridgeListReplyMessage) :=
  encodeEntries kMESSAGE_TYPE_ADMIN_BRIDGE_LIST_REPLY ADMIN_BRIDGE_LIST_REPLY_ENTRIES_MAX ADMIN_BRIDGE_LIST_REPLY_ENTRY_SIZE
    isBridgeEntryValid writeBridgeEntry self.
Definition AdminBridgeListReplyMessage_Decode (self : AdminBridgeListReplyMessage) :=
  decodeEntries ADMIN_BRIDGE_LIST_REPLY_ENTRIES_MAX ADMIN_BRIDGE_LIST_REPLY_ENTRY_SIZE readBridgeEntry self.

(** ** Groups *)

Definition writeGroupSet (buffer : list Z) (body : nat) (self : AdminGroupSetMessage) : list Z :=
  let buffer := put_string (body + 0) (gq_name self) buffer in
  let buffer := <[(body + 32)%nat := gq_filter_count self]> buffer in
  writeBridgeFilters buffer (body + 36) (gq_filters self) (gq_filter_count self).

Definition AdminGroupSetMessage_Encode (self : AdminGroupSetMessage) (buffer : list Z) : nat * list Z :=
  if negb (isGroupNameValid (gq_name self)) || (gq_filter_count self >? 16) then (0%nat, buffer)
  else with_body kMESSAGE_TYPE_ADMIN_GROUP_SET ADMIN_GROUP_SET_BODY_SIZE (λ b body, writeGroupSet b body self) buffer.

Definition AdminGroupSetMessage_Decode (self : AdminGroupSetMessage) (payload : list Z) : bool * AdminGroupSetMessage :=
  if Nat.ltb (length payload) ADMIN_GROUP_SET_BODY_SIZE then (false, self)
  else
    let '(name_ok, name) := readGroupName payload 0 in
    if negb name_ok then (false, {| gq_name := name; gq_filter_count := gq_filter_count self; gq_filters := gq_filters self |})
    else
      let count := payload !!! 32%nat in
      if count >? 16 then (false, {| gq_name := name; gq_filter_count := count; gq_filters := gq_filters self |})
      else (true, {| gq_name := name; gq_filter_count := count; gq_filters := readBridgeFilters payload 36 (gq_filters self) count |}).

Definition writeGroupDelete (buffer : list Z) (body : nat) (self : AdminGroupDeleteMessage) : list Z := put_string (body + 0) (gd_name self) buffer.

Definition AdminGroupDeleteMessage_Encode (self : AdminGroupDeleteMessage) (buffer : list Z) : nat * list Z :=
  if negb (isGroupNameValid (gd_name self)) then (0%nat, buffer)
  else with_body kMESSAGE_TYPE_ADMIN_GROUP_DELETE ADMIN_GROUP_DELETE_BODY_SIZE (λ b body, writeGroupDelete b body self) buffer.

Definition AdminGroupDeleteMessage_Decode (self : AdminGroupDeleteMessage) (payload : list Z) : bool * AdminGroupDeleteMessage :=
  if Nat.ltb (length payload) ADMIN_GROUP_DELETE_BODY_SIZE then (false, self)
  else let '(name_ok, name) := readGroupName payload 0 in (name_ok, {| gd_name := name |}).

Definition writeGroupMemberMessage {type} (buffer : list Z) (body : nat) (self : AdminGroupMemberMessage type) : list Z :=
  let buffer := put_string (body + 0) (gj_name self) buffer in
  let buffer := writeBridgeEndpoint buffer (body + 32) (gj_member self) in
  let buffer := <[(body + 176)%nat := gj_direction self]> buffer in
  let buffer := <[(body + 177)%nat := gj_filter_count self]> buffer in
  writeBridgeFilters buffer (body + 180) (gj_filters self) (gj_filter_count self).

Definition AdminGroupMemberMessage_Encode (type : Z) (self : AdminGroupMemberMessage type) (buffer : list Z) : nat * list Z :=
  if negb (type =? kMESSAGE_TYPE_ADMIN_GROUP_JOIN) && negb (type =? kMESSAGE_TYPE_ADMIN_GROUP_LEAVE) then (0%nat, buffer)
  else if negb (isGroupNameValid (gj_name self)) || negb (isBridgeEndpointValid (gj_member self)) then (0%nat, buffer)
  else if (gj_direction self >? ADMIN_GROUP_MEMBER_RECEIVES) || (gj_filter_count self >? 8) then (0%nat, buffer)
  else with_body type ADMIN_GROUP_MEMBER_BODY_SIZE (λ b body, writeGroupMemberMessage b body self) buffer.

Definition AdminGroupMemberMessage_Decode {type} (self : AdminGroupMemberMessage type) (payload : list Z) : bool * AdminGroupMemberMessage type :=
  let with_fields name member direction count filters : AdminGroupMemberMessage type :=
    {| gj_name := name; gj_member := member; gj_direction := direction; gj_filter_count := count; gj_filters := filters |} in
  if Nat.ltb (length payload) ADMIN_GROUP_MEMBER_BODY_SIZE then (false, self)
  else
    let '(name_ok, name) := readGroupName payload 0 in
    if negb name_ok then (false, with_fields name (gj_member self) (gj_direction self) (gj_filter_count self) (gj_filters self))
    else
      let '(member_ok, member) := readBridgeEndpoint payload 32 in
      if negb member_ok then (false, with_fields name member (gj_direction self) (gj_filter_count self) (gj_filters self))
      else
        let direction := payload !!! 176%nat in
        let count := payload !!! 177%nat in
        if (direction >? ADMIN_GROUP_MEMBER_RECEIVES) || (count >? 8) then (false, with_fields name member direction count (gj_filters self))
        else (true, with_fields name member direction count (readBridgeFilters payload 180 (gj_filters self) count)).

(** One turn of the loops over the members of a group entry. *)
Definition writeGroupMember (buffer : list Z) (off : nat) (m : AdminGroupMember) : list Z :=
  let buffer := writeBridgeEndpoint buffer (off + 0) (am_endpoint m) in
  let buffer := <[(off + 144)%nat := am_state m]> buffer in
  let buffer := <[(off + 145)%nat := am_direction m]> buffer in
  let buffer := <[(off + 146)%nat := am_filter_count m]> buffer in
  writeBridgeFilters buffer (off + 148) (am_filters m) (am_filter_count m).

Definition readGroupMember (payload : list Z) (off : nat) (m : AdminGroupMember) : bool * AdminGroupMember :=
  let '(endpoint_ok, endpoint) := readBridgeEndpoint payload (off + 0) in
  if negb endpoint_ok then
    (false, {| am_endpoint := endpoint; am_state := am_state m; am_direction := am_direction m; am_filter_count := am_filter_count m;
               am_filters := am_filters m |})
  else
    let count := payload !!! (off + 146)%nat in
    let member filters := {| am_endpoint := endpoint; am_state := payload !!! (off + 144)%nat; am_direction := payload !!! (off + 145)%nat;
                             am_filter_count := count; am_filters := filters |} in
    if count >? 8 then (false, member (am_filters m)) else (true, member (readBridgeFilters payload (off + 148) (am_filters m) count)).

Definition GroupMember_zero : AdminGroupMember := {|
  am_endpoint := BridgeEndpoint_zero; am_state := 0; am_direction := 0; am_filter_count := 0; am_filters := replicate 8 CanFilter_zero |}.
#[export] Instance AdminGroupMember_inhabited : Inhabited AdminGroupMember := populate GroupMember_zero.

Definition entry_members (e : AdminGroupListReplyEntry) : list AdminGroupMember := take (Z.to_nat (ge_member_count e)) (ge_members e).

Definition areGroupMembersValid (e : AdminGroupListReplyEntry) : bool := forallb (λ m, negb (am_filter_count m >? 8)) (entry_members e).

Definition writeGroupEntry (buffer : list Z) (off : nat) (e : AdminGroupListReplyEntry) : list Z :=
  let buffer := put_string (off + 0) (ge_name e) buffer in
  let buffer := <[(off + 32)%nat := ge_filter_count e]> buffer in
  let buffer := <[(off + 33)%nat := ge_member_count e]> buffer in
  let buffer := writeBridgeFilters buffer (off + 36) (ge_filters e) (ge_filter_count e) in
  let buffer := Wire_WriteU64 buffer (off + 168) (ge_forwarded e) in
  let buffer := Wire_WriteU64 buffer (off + 176) (ge_dropped e) in
  write_entries writeGroupMember GROUP_ENTRY_MEMBER_SIZE (off + 184) (entry_members e) buffer.

Definition readGroupEntry (payload : list Z) (off : nat) (e : AdminGroupListReplyEntry) : bool * AdminGroupListReplyEntry :=
  let '(name_ok, name) := readGroupName payload (off + 0) in
  if negb name_ok then
    (false, {| ge_name := name; ge_filter_count := ge_filter_count e; ge_member_count := ge_member_count e; ge_filters := ge_filters e;
               ge_forwarded := ge_forwarded e; ge_dropped := ge_dropped e; ge_members := ge_members e |})
  else
    let filter_count := payload !!! (off + 32)%nat in
    let member_count := payload !!! (off + 33)%nat in
    if (filter_count >? 16) || (member_count >? 16) then
      (false, {| ge_name := name; ge_filter_count := filter_count; ge_member_count := member_count; ge_filters := ge_filters e;
                 ge_forwarded := ge_forwarded e; ge_dropped := ge_dropped e; ge_members := ge_members e |})
    else
      let '(members_ok, members) :=
        read_loop readGroupMember GROUP_ENTRY_MEMBER_SIZE (off + 184) payload 0 (Z.to_nat member_count) (ge_members e) in
      (members_ok, {| ge_name := name; ge_filter_count := filter_count; ge_member_count := member_count;
                      ge_filters := readBridgeFilters payload (off + 36) (ge_filters e) filter_count;
                      ge_forwarded := Wire_ReadU64 payload (off + 168); ge_dropped := Wire_ReadU64 payload (off + 176);
                      ge_members := members |}).

(** The encoder's test of an entry. *)
Definition isGroupEntryValid (e : AdminGroupListReplyEntry) : bool :=
  isGroupNameValid (ge_name e) && negb ((ge_filter_count e >? 16) || (ge_member_count e >? 16)) && areGroupMembersValid e.

Definition GroupEntry_zero : AdminGroupListReplyEntry := {|
  ge_name := replicate 32 0; ge_filter_count := 0; ge_member_count := 0; ge_filters := replicate 16 CanFilter_zero; ge_forwarded := 0;
  ge_dropped := 0; ge_members := replicate 16 GroupMember_zero |}.
#[export] Instance AdminGroupListReplyEntry_inhabited : Inhabited AdminGroupListReplyEntry := populate GroupEntry_zero.

Definition AdminGroupListReplyMessage_Encode (self : AdminGroupListReplyMessage) :=
  encodeEntries kMESSAGE_TYPE_ADMIN_GROUP_LIST_REPLY ADMIN_GROUP_LIST_REPLY_ENTRIES_MAX ADMIN_GROUP_LIST_REPLY_ENTRY_SIZE
    isGroupEntryValid writeGroupEntry self.
Definition AdminGroupListReplyMessage_Decode (self : AdminGroupListReplyMessage) :=
  decodeEntries ADMIN_GROUP_LIST_REPLY_ENTRIES_MAX ADMIN_GROUP_LIST_REPLY_ENTRY_SIZE readGroupEntry self.

(** ** Blocks *)

Lemma bw_shift' {E} (w : list Z → nat → E → list Z) esize ok `{!BlockWriter w esize ok} buf off o e k n :
  ok e → (off + o + esize ≤ n)%nat → (k + n ≤ length buf)%nat → slice k n (w buf (k + off + o)%nat e) = w (slice k n buf) (off + o)%nat e.
Proof. intros. rewrite <- Nat.add_assoc. by apply bw_shift. Qed.

Lemma bw_image {E} (w : list Z → nat → E → list Z) esize ok `{HW : !BlockWriter w esize ok} buf off e :
  ok e → (off + esize ≤ length buf)%nat → slice off esize buf = replicate esize 0 → slice off esize (w buf off e) = block_image w esize e.
Proof. pose proof (block_entry_writer w esize ok HW). apply ew_image. Qed.

#[export] Instance filter_block : BlockWriter writeFilter 8 filter_ok.
Proof. unfold filter_ok. block_writer writeFilter. Qed.

Definition endpoint_ok (e : BridgeEndpoint) : Prop := name_field 127 (ep_agent_name e) ∧ name_field 15 (ep_interface_name e).
Definition endpoint_named (e : BridgeEndpoint) : Prop := is_named (ep_agent_name e) = true ∧ is_named (ep_interface_name e) = true.

#[export] Instance endpoint_block : BlockWriter writeBridgeEndpoint 144 endpoint_ok.
Proof. unfold endpoint_ok. block_writer writeBridgeEndpoint. Qed.

Lemma endpoint_valid e : endpoint_ok e → endpoint_named e → isBridgeEndpointValid e = true.
Proof.
  intros [[_ Ha] [_ Hi]] [Hna Hni]. unfold isBridgeEndpointValid, isNameTerminated, isInterfaceTerminated. by rewrite Ha, Hi, Hna, Hni.
Qed.

Lemma is_named_key a b : cstr a = cstr b → is_named b = true → is_named a = true.
Proof. intros H. by rewrite !is_named_cstr, H. Qed.

Lemma endpoint_back e p o : endpoint_ok e → endpoint_named e → slice o 144 p = block_image writeBridgeEndpoint 144 e →
  ∃ e', readBridgeEndpoint p o = (true, e') ∧ endpoint_key e' = endpoint_key e.
Proof.
  intros [Ha Hi] [Hna Hni] Hs. image_blocks writeBridgeEndpoint Hs Hf. unfold readBridgeEndpoint. cbn [ep_agent_name ep_interface_name].
  assert (cstr (get_string (o + 0) 128 p) = cstr (ep_agent_name e)) as H1 by field_read Hf.
  assert (cstr (get_string (o + 128) 16 p) = cstr (ep_interface_name e)) as H2 by field_read Hf.
  rewrite (is_named_key _ _ H1), (is_named_key _ _ H2) by done. eexists. split; [reflexivity|]. unfold endpoint_key. cbn. by rewrite H1, H2.
Qed.

(** A filter list with its count, in an array of [max]. *)
Definition filters_ok (max : nat) (f : list CanFilter * Z) : Prop :=
  0 ≤ f.2 ≤ Z.of_nat max ∧ length f.1 = max ∧ Forall filter_ok (take (Z.to_nat f.2) f.1).
Definition filters_writer (buffer : list Z) (off : nat) (f : list CanFilter * Z) : list Z := writeBridgeFilters buffer off f.1 f.2.

#[export] Instance filters_block max : BlockWriter filters_writer (max * 8) (filters_ok max).
Proof.
  split.
  - intros b off e. unfold filters_writer, writeBridgeFilters. by autorewrite with len.
  - intros b off e o n (Hc & Hl & Hok) Hdis. unfold filters_writer, writeBridgeFilters. apply (block_write_ne _ _ filter_ok); [done|].
    rewrite length_take. lia.
  - intros b off e k n (Hc & Hl & Hok) Ho Hb. unfold filters_writer, writeBridgeFilters.
    apply (slice_write_entries_shift _ _ filter_ok); [done| |done]. rewrite length_take. lia.
Qed.

Lemma filters_back max f p o olds : filters_ok max f → length olds = max → slice o (max * 8) p = block_image filters_writer (max * 8) f →
  take (Z.to_nat f.2) (readBridgeFilters p o olds f.2) = take (Z.to_nat f.2) f.1.
Proof.
  intros (Hc & Hl & Hok) Holds Hs. unfold readBridgeFilters. set (n := Z.to_nat f.2) in *.
  assert (length (take n f.1) = n) as Hn by (rewrite length_take; lia).
  assert (read_entries readFilter 8 o n p = take n f.1) as ->; [|apply take_list_inserts; lia].
  apply Forall2_eq_eq. apply Forall2_same_length_lookup_2; [unfold read_entries; by rewrite length_fmap, length_seq|].
  intros i x y Hx Hy. unfold read_entries in Hy. apply list_lookup_fmap_Some_1 in Hy as (j & -> & [-> Hj]%lookup_seq). cbn.
  apply readFilter_same; [by eapply Forall_lookup_1|].
  rewrite (slice_field _ _ _ _ (i * 8) 8 Hs) by lia. unfold block_image, filters_writer, writeBridgeFilters. fold n.
  pose proof (slice_write_entries writeFilter 8 filter_ok _ 0 (take n f.1) (replicate (max * 8) 0) i x Hok) as Hw. cbn [Nat.add] in Hw. apply Hw; [|by loads|done].
  rewrite length_replicate. lia.
Qed.

Lemma length_writeBridgeEndpoint buf off e : length (writeBridgeEndpoint buf off e) = length buf.
Proof. apply ew_length. Qed.
Lemma length_writeBridgeFilters buf off fs c : length (writeBridgeFilters buf off fs c) = length buf.
Proof. apply (length_write_entries writeFilter). Qed.
#[export] Hint Rewrite length_writeBridgeEndpoint length_writeBridgeFilters length_put_string : len.

Lemma filters_frame max buf off fs c o n :
  filters_ok max (fs, c) → (off + max * 8 ≤ o ∨ o + n ≤ off)%nat → slice o n (writeBridgeFilters buf off fs c) = slice o n buf.
Proof. apply (bw_frame (w := filters_writer) buf off (fs, c)). Qed.
Lemma filters_shift max buf off o fs c k n :
  filters_ok max (fs, c) → (off + o + max * 8 ≤ n)%nat → (k + n ≤ length buf)%nat →
  slice k n (writeBridgeFilters buf (k + off + o) fs c) = writeBridgeFilters (slice k n buf) (off + o) fs c.
Proof. apply (bw_shift' filters_writer (max * 8) (filters_ok max) buf off o (fs, c)). Qed.
Lemma filters_image max buf off fs c :
  filters_ok max (fs, c) → (off + max * 8 ≤ length buf)%nat → slice off (max * 8) buf = replicate (max * 8) 0 →
  slice off (max * 8) (writeBridgeFilters buf off fs c) = block_image filters_writer (max * 8) (fs, c).
Proof. apply (bw_image filters_writer (max * 8) (filters_ok max) buf off (fs, c)). Qed.

(** Loads and shifts through endpoints, filters and fields; the two filter arrays have 16 and 8 entries. *)
Ltac bridge_loads :=
  repeat first
    [ rewrite (bw_frame (w := writeBridgeEndpoint) (esize := 144)) by (done || codec_len)
    | rewrite (filters_frame 16) by (done || codec_len)
    | rewrite (filters_frame 8) by (done || codec_len)
    | progress loads ].
Ltac bridge_shifts :=
  repeat first
    [ rewrite (bw_shift' writeBridgeEndpoint 144 endpoint_ok) by (done || codec_len)
    | rewrite (filters_shift 16) by (done || codec_len)
    | rewrite (filters_shift 8) by (done || codec_len)
    | rewrite slice_copy_shift' by codec_len ].
Ltac bridge_writer w ok :=
  split;
  [ intros ? ? ?; unfold w, Wire_WriteU64, Wire_WriteU32, Wire_WriteU16; by autorewrite with len
  | let Hok := fresh in intros ? ? ? ? ? Hok ?; unfold ok in Hok; destruct_and?; name_lengths; unfold w; block_stores; by bridge_loads
  | let Hok := fresh in intros ? ? ? ? ? Hok ? ?; unfold ok in Hok; destruct_and?; name_lengths; unfold w; block_stores; by bridge_shifts ].

(** *** Requests about bridges *)

Definition bridge_set_ok (m : AdminBridgeSetMessage) : Prop :=
  endpoint_ok (ab_source m) ∧ endpoint_ok (ab_destination m) ∧ filters_ok 16 (ab_filters m, ab_filter_count m).

#[export] Instance bridge_set_block : BlockWriter writeBridgeSet 420 bridge_set_ok.
Proof. bridge_writer writeBridgeSet bridge_set_ok. Qed.

#[export] Instance AdminBridgeSetMessage_wire : WireMessage AdminBridgeSetMessage := {|
  wm_type := kMESSAGE_TYPE_ADMIN_BRIDGE_SET; wm_size _ := ADMIN_BRIDGE_SET_BODY_SIZE;
  wm_shape m := length (ab_filters m) = 16%nat;
  wm_valid m := bridge_set_ok m ∧ endpoint_named (ab_source m) ∧ endpoint_named (ab_destination m);
  wm_encode := AdminBridgeSetMessage_Encode; wm_decode := AdminBridgeSetMessage_Decode;
  wm_same m m' := endpoint_key (ab_source m') = endpoint_key (ab_source m) ∧ endpoint_key (ab_destination m') = endpoint_key (ab_destination m) ∧
    ab_filter_count m' = ab_filter_count m ∧
    take (Z.to_nat (ab_filter_count m)) (ab_filters m') = take (Z.to_nat (ab_filter_count m)) (ab_filters m) |}.

(** The blocks of an image written by [w], through endpoints and filters. *)
Ltac bridge_image w Hs Hf :=
  name_lengths; revert Hs; unfold block_image, w; block_stores; rewrite ?Nat.add_0_l; intros Hs;
  lazymatch type of Hs with
  | slice 0 _ _ = _ => pose proof (λ off k Hle, slice_field_0 _ _ _ off k Hs Hle) as Hf
  | _ => pose proof (λ off k Hle, slice_field _ _ _ _ off k Hs Hle) as Hf
  end.
Ltac bridge_from Hf := rewrite Hf by lia; bridge_loads; rewrite ?drop_replicate; try done.
(** An endpoint of the image comes back as [e']. *)
Ltac endpoint_from Hf e p o e' He' :=
  destruct (endpoint_back e p o) as (e' & -> & He');
  [done|done|rewrite Hf by lia; bridge_loads; apply (bw_image _ _ endpoint_ok); [done|codec_len|by bridge_loads]|].
Ltac byte_from Hf := apply load_byte_slice; bridge_from Hf.

#[export] Instance AdminBridgeSetMessage_ok : WireMessageOk AdminBridgeSetMessage.
Proof.
  split; [by vm_compute|intros; apply Nat.leb_le; by vm_compute|]. intros m buf (Hok & Hns & Hnd) Hb. cbn [wm_encode AdminBridgeSetMessage_wire].
  unfold AdminBridgeSetMessage_Encode. pose proof Hok as (Hs & Hd & Hfs). rewrite !endpoint_valid by done. cbn [negb orb].
  pose proof Hfs as [Hc _]. cbn in Hc. replace (ab_filter_count m >? 16) with false by (symmetry; lia).
  eapply (message_ok _ _ writeBridgeSet _ AdminBridgeSetMessage_Decode (λ m, length (ab_filters m) = 16%nat)); [apply _|apply _|done|apply Nat.leb_le; by vm_compute|done|].
  intros old p Hold Hl Himg. bridge_image writeBridgeSet Himg Hf. unfold AdminBridgeSetMessage_Decode. rewrite Hl. cbn [Nat.ltb Nat.leb].
  endpoint_from Hf (ab_source m) p 0%nat s' Hs'. endpoint_from Hf (ab_destination m) p 144%nat d' Hd'. cbn [negb].
  assert (p !!! 288%nat = ab_filter_count m) as -> by byte_from Hf. replace (ab_filter_count m >? 16) with false by (symmetry; lia).
  eexists. split; [reflexivity|]. cbn. split_and!; [done..|].
  apply (filters_back 16 (ab_filters m, ab_filter_count m)); [done..|]. rewrite Hf by lia. bridge_loads. apply (filters_image 16); [done|codec_len|by bridge_loads].
Qed.

#[export] Instance bridge_delete_block : BlockWriter writeBridgeDelete 288 (λ m, endpoint_ok (bd_source m) ∧ endpoint_ok (bd_destination m)).
Proof.
  split.
  - intros ? ? ?. unfold writeBridgeDelete. by autorewrite with len.
  - intros ? ? ? ? ? [] ?. unfold writeBridgeDelete. by bridge_loads.
  - intros ? ? ? ? ? [] ? ?. unfold writeBridgeDelete. by bridge_shifts.
Qed.

#[export] Instance AdminBridgeDeleteMessage_wire : WireMessage AdminBridgeDeleteMessage := {|
  wm_type := kMESSAGE_TYPE_ADMIN_BRIDGE_DELETE; wm_size _ := ADMIN_BRIDGE_DELETE_BODY_SIZE; wm_shape _ := True;
  wm_valid m := (endpoint_ok (bd_source m) ∧ endpoint_ok (bd_destination m)) ∧ endpoint_named (bd_source m) ∧ endpoint_named (bd_destination m);
  wm_encode := AdminBridgeDeleteMessage_Encode; wm_decode := AdminBridgeDeleteMessage_Decode;
  wm_same m m' := endpoint_key (bd_source m') = endpoint_key (bd_source m) ∧ endpoint_key (bd_destination m') = endpoint_key (bd_destination m) |}.

#[export] Instance AdminBridgeDeleteMessage_ok : WireMessageOk AdminBridgeDeleteMessage.
Proof.
  split; [by vm_compute|intros; apply Nat.leb_le; by vm_compute|]. intros m buf (Hok & Hns & Hnd) Hb. cbn [wm_encode AdminBridgeDeleteMessage_wire].
  unfold AdminBridgeDeleteMessage_Encode. pose proof Hok as (Hs & Hd). rewrite !endpoint_valid by done. cbn [negb orb].
  eapply (message_ok _ _ writeBridgeDelete _ AdminBridgeDeleteMessage_Decode (λ _, True)); [apply _|apply _|done|apply Nat.leb_le; by vm_compute|done|].
  intros old p Hold Hl Himg. bridge_image writeBridgeDelete Himg Hf. unfold AdminBridgeDeleteMessage_Decode. rewrite Hl. cbn [Nat.ltb Nat.leb].
  endpoint_from Hf (bd_source m) p 0%nat s' Hs'. endpoint_from Hf (bd_destination m) p 144%nat d' Hd'. eexists. by split; [reflexivity|].
Qed.

(** *** The page of bridges *)

Definition bridge_entry_ok (e : AdminBridgeListReplyEntry) : Prop :=
  endpoint_ok (be_source e) ∧ endpoint_ok (be_destination e) ∧ filters_ok 16 (be_filters e, be_filter_count e) ∧
  is_u64 (be_forwarded e) ∧ is_u64 (be_dropped e).

Definition bridge_entry_same (e e' : AdminBridgeListReplyEntry) : Prop :=
  endpoint_key (be_source e') = endpoint_key (be_source e) ∧ endpoint_key (be_destination e') = endpoint_key (be_destination e) ∧
  be_filter_count e' = be_filter_count e ∧ be_state e' = be_state e ∧
  take (Z.to_nat (be_filter_count e)) (be_filters e') = take (Z.to_nat (be_filter_count e)) (be_filters e) ∧
  be_forwarded e' = be_forwarded e ∧ be_dropped e' = be_dropped e.

#[export] Instance bridge_entry_block : BlockWriter writeBridgeEntry 440 bridge_entry_ok.
Proof. bridge_writer writeBridgeEntry bridge_entry_ok. Qed.

#[export] Instance bridge_entry : AdminEntry AdminBridgeListReplyEntry := {|
  ae_type := kMESSAGE_TYPE_ADMIN_BRIDGE_LIST_REPLY; ae_max := ADMIN_BRIDGE_LIST_REPLY_ENTRIES_MAX; ae_size := ADMIN_BRIDGE_LIST_REPLY_ENTRY_SIZE;
  ae_check := isBridgeEntryValid; ae_write := writeBridgeEntry; ae_read := readBridgeEntry; ae_shape e := length (be_filters e) = 16%nat;
  ae_ok e := bridge_entry_ok e ∧ endpoint_named (be_source e) ∧ endpoint_named (be_destination e); ae_same := bridge_entry_same |}.

Lemma BlockWriter_weaken {E} (w : list Z → nat → E → list Z) esize (ok ok' : E → Prop) :
  (∀ e, ok' e → ok e) → BlockWriter w esize ok → BlockWriter w esize ok'.
Proof. intros Hi Hw. split; [apply _|intros; eapply bw_frame; eauto|intros; eapply bw_shift; eauto]. Qed.

#[export] Instance bridge_entry_entry_ok : AdminEntryOk AdminBridgeListReplyEntry.
Proof.
  split; [by vm_compute|apply Nat.leb_le; by vm_compute|apply Nat.ltb_lt; by vm_compute| | |].
  - intros e ((Hs & Hd & [Hc _] & _) & Hns & Hnd). change (isBridgeEntryValid e = true). unfold isBridgeEntryValid. rewrite !endpoint_valid by done.
    cbn in Hc. by replace (be_filter_count e >? 16) with false by (symmetry; lia).
  - apply (BlockWriter_weaken writeBridgeEntry 440 bridge_entry_ok); [by intros e []|apply _].
  - intros e old p o ((Hs & Hd & Hfs & Hfw & Hdr) & Hns & Hnd) Hold Himg. change (slice o 440 p = block_image writeBridgeEntry 440 e) in Himg.
    bridge_image writeBridgeEntry Himg Hf. change (ae_read p o old) with (readBridgeEntry p o old). unfold readBridgeEntry.
    endpoint_from Hf (be_source e) p (o + 0)%nat s' Hs'. endpoint_from Hf (be_destination e) p (o + 144)%nat d' Hd'. cbn [negb].
    assert (p !!! (o + 288)%nat = be_filter_count e) as -> by byte_from Hf. pose proof Hfs as [Hc _]. cbn in Hc.
    replace (be_filter_count e >? 16) with false by (symmetry; lia). eexists. split; [reflexivity|].
    change (ae_same e) with (bridge_entry_same e). unfold bridge_entry_same. cbn. split_and!; [done..|byte_from Hf| | |].
    + apply (filters_back 16 (be_filters e, be_filter_count e)); [done..|]. rewrite Hf by lia. bridge_loads. apply (filters_image 16); [done|codec_len|by bridge_loads].
    + apply Wire_ReadU64_slice; [bridge_from Hf|done].
    + apply Wire_ReadU64_slice; [bridge_from Hf|done].
Qed.

(** *** Requests about groups *)

Lemma group_name_valid n : name_field 31 n → is_named n = true → isGroupNameValid n = true.
Proof. intros [_ Hn] Hnm. unfold isGroupNameValid. by rewrite Hn, Hnm. Qed.

Lemma group_name_back n p o : name_field 31 n → is_named n = true → slice o 32 p = padded 32 (cstr n) →
  ∃ n', readGroupName p o = (true, n') ∧ cstr n' = cstr n.
Proof.
  intros Hn Hnm Hs. unfold readGroupName. pose proof (get_stored 31 n p o Hn Hs) as Hc. rewrite (is_named_key _ _ Hc) by done.
  eexists. by split; [reflexivity|].
Qed.
(** A group's name of the image comes back as [n']. *)
Ltac group_name_from Hf n p o n' Hn' :=
  destruct (group_name_back n p o) as (n' & -> & Hn'); [done|done|bridge_from Hf|].
(** The filters of the image come back. *)
Ltac filters_from max Hf fs c :=
  apply (filters_back max (fs, c)); [done..|]; rewrite Hf by lia; bridge_loads; apply (filters_image max); [done|codec_len|by bridge_loads].

Definition group_set_ok (m : AdminGroupSetMessage) : Prop := name_field 31 (gq_name m) ∧ filters_ok 16 (gq_filters m, gq_filter_count m).

#[export] Instance group_set_block : BlockWriter writeGroupSet 164 group_set_ok.
Proof. bridge_writer writeGroupSet group_set_ok. Qed.

#[export] Instance AdminGroupSetMessage_wire : WireMessage AdminGroupSetMessage := {|
  wm_type := kMESSAGE_TYPE_ADMIN_GROUP_SET; wm_size _ := ADMIN_GROUP_SET_BODY_SIZE; wm_shape m := length (gq_filters m) = 16%nat;
  wm_valid m := group_set_ok m ∧ is_named (gq_name m) = true;
  wm_encode := AdminGroupSetMessage_Encode; wm_decode := AdminGroupSetMessage_Decode;
  wm_same m m' := cstr (gq_name m') = cstr (gq_name m) ∧ gq_filter_count m' = gq_filter_count m ∧
    take (Z.to_nat (gq_filter_count m)) (gq_filters m') = take (Z.to_nat (gq_filter_count m)) (gq_filters m) |}.

#[export] Instance AdminGroupSetMessage_ok : WireMessageOk AdminGroupSetMessage.
Proof.
  split; [by vm_compute|intros; apply Nat.leb_le; by vm_compute|]. intros m buf (Hok & Hnm) Hb. cbn [wm_encode AdminGroupSetMessage_wire].
  unfold AdminGroupSetMessage_Encode. pose proof Hok as (Hn & Hfs). rewrite group_name_valid by done.
  pose proof Hfs as [Hc _]. cbn in Hc. replace (gq_filter_count m >? 16) with false by (symmetry; lia). cbn [negb orb].
  eapply (message_ok _ _ writeGroupSet _ AdminGroupSetMessage_Decode (λ m, length (gq_filters m) = 16%nat)); [apply _|apply _|done|apply Nat.leb_le; by vm_compute|done|].
  intros old p Hold Hl Himg. bridge_image writeGroupSet Himg Hf. unfold AdminGroupSetMessage_Decode. rewrite Hl. cbn [Nat.ltb Nat.leb].
  group_name_from Hf (gq_name m) p 0%nat n' Hn'. cbn [negb].
  assert (p !!! 32%nat = gq_filter_count m) as -> by byte_from Hf. replace (gq_filter_count m >? 16) with false by (symmetry; lia).
  eexists. split; [reflexivity|]. cbn. split_and!; [done..|]. filters_from 16%nat Hf (gq_filters m) (gq_filter_count m).
Qed.

#[export] Instance group_delete_block : BlockWriter writeGroupDelete 32 (λ m, name_field 31 (gd_name m)).
Proof. block_writer writeGroupDelete. Qed.

#[export] Instance AdminGroupDeleteMessage_wire : WireMessage AdminGroupDeleteMessage := {|
  wm_type := kMESSAGE_TYPE_ADMIN_GROUP_DELETE; wm_size _ := ADMIN_GROUP_DELETE_BODY_SIZE; wm_shape _ := True;
  wm_valid m := name_field 31 (gd_name m) ∧ is_named (gd_name m) = true;
  wm_encode := AdminGroupDeleteMessage_Encode; wm_decode := AdminGroupDeleteMessage_Decode; wm_same m m' := cstr (gd_name m') = cstr (gd_name m) |}.

#[export] Instance AdminGroupDeleteMessage_ok : WireMessageOk AdminGroupDeleteMessage.
Proof.
  split; [by vm_compute|intros; apply Nat.leb_le; by vm_compute|]. intros m buf (Hn & Hnm) Hb. cbn [wm_encode AdminGroupDeleteMessage_wire].
  unfold AdminGroupDeleteMessage_Encode. rewrite group_name_valid by done. cbn [negb].
  eapply (message_ok _ _ writeGroupDelete _ AdminGroupDeleteMessage_Decode (λ _, True)); [apply _|apply _|done|apply Nat.leb_le; by vm_compute|done|].
  intros old p Hold Hl Himg. bridge_image writeGroupDelete Himg Hf. unfold AdminGroupDeleteMessage_Decode. rewrite Hl. cbn [Nat.ltb Nat.leb].
  group_name_from Hf (gd_name m) p 0%nat n' Hn'. eexists. by split; [reflexivity|].
Qed.

Section member_messages.
Context (type : Z) {Htype : WireType type}.

Definition group_member_ok (m : AdminGroupMemberMessage type) : Prop :=
  name_field 31 (gj_name m) ∧ endpoint_ok (gj_member m) ∧ filters_ok 8 (gj_filters m, gj_filter_count m).

#[export] Instance group_member_message_block : BlockWriter (writeGroupMemberMessage (type := type)) 244 group_member_ok.
Proof. bridge_writer (@writeGroupMemberMessage) group_member_ok. Qed.

#[export] Instance AdminGroupMemberMessage_wire : WireMessage (AdminGroupMemberMessage type) := {|
  wm_type := type; wm_size _ := ADMIN_GROUP_MEMBER_BODY_SIZE; wm_shape m := length (gj_filters m) = 8%nat;
  wm_valid m := (type = kMESSAGE_TYPE_ADMIN_GROUP_JOIN ∨ type = kMESSAGE_TYPE_ADMIN_GROUP_LEAVE) ∧ group_member_ok m ∧
    is_named (gj_name m) = true ∧ endpoint_named (gj_member m) ∧ 0 ≤ gj_direction m ≤ ADMIN_GROUP_MEMBER_RECEIVES;
  wm_encode := AdminGroupMemberMessage_Encode type; wm_decode := AdminGroupMemberMessage_Decode;
  wm_same m m' := cstr (gj_name m') = cstr (gj_name m) ∧ endpoint_key (gj_member m') = endpoint_key (gj_member m) ∧
    gj_direction m' = gj_direction m ∧ gj_filter_count m' = gj_filter_count m ∧
    take (Z.to_nat (gj_filter_count m)) (gj_filters m') = take (Z.to_nat (gj_filter_count m)) (gj_filters m) |}.

#[export] Instance AdminGroupMemberMessage_ok : WireMessageOk (AdminGroupMemberMessage type).
Proof.
  split; [done|intros; apply Nat.leb_le; by vm_compute|]. intros m buf (Ht & Hok & Hnm & Hne & Hdir) Hb. cbn [wm_encode AdminGroupMemberMessage_wire].
  unfold AdminGroupMemberMessage_Encode. pose proof Hok as (Hn & He & Hfs). rewrite group_name_valid, endpoint_valid by done.
  pose proof Hfs as [Hc _]. cbn in Hc. unfold ADMIN_GROUP_MEMBER_RECEIVES in *. replace (gj_filter_count m >? 8) with false by (symmetry; lia).
  replace (gj_direction m >? 2) with false by (symmetry; lia).
  replace (negb (type =? kMESSAGE_TYPE_ADMIN_GROUP_JOIN) && negb (type =? kMESSAGE_TYPE_ADMIN_GROUP_LEAVE)) with false
    by (symmetry; destruct Ht as [Ht|Ht]; apply Z.eqb_eq in Ht; rewrite Ht; [done|by rewrite andb_false_r]). cbn [negb orb].
  eapply (message_ok _ _ writeGroupMemberMessage _ AdminGroupMemberMessage_Decode (λ m, length (gj_filters m) = 8%nat)); [done|apply _|done|apply Nat.leb_le; by vm_compute|done|].
  intros old p Hold Hl Himg. bridge_image (@writeGroupMemberMessage) Himg Hf. unfold AdminGroupMemberMessage_Decode. rewrite Hl. cbn [Nat.ltb Nat.leb].
  group_name_from Hf (gj_name m) p 0%nat n' Hn'. cbn [negb]. endpoint_from Hf (gj_member m) p 32%nat e' He'. cbn [negb].
  assert (p !!! 176%nat = gj_direction m) as -> by byte_from Hf. assert (p !!! 177%nat = gj_filter_count m) as -> by byte_from Hf.
  unfold ADMIN_GROUP_MEMBER_RECEIVES. replace (gj_direction m >? 2) with false by (symmetry; lia). replace (gj_filter_count m >? 8) with false by (symmetry; lia).
  eexists. split; [reflexivity|]. cbn. split_and!; [done..|]. filters_from 8%nat Hf (gj_filters m) (gj_filter_count m).
Qed.
End member_messages.

(** *** The page of groups *)

Definition member_ok (m : AdminGroupMember) : Prop := endpoint_ok (am_endpoint m) ∧ filters_ok 8 (am_filters m, am_filter_count m).

Definition member_same (m m' : AdminGroupMember) : Prop :=
  endpoint_key (am_endpoint m') = endpoint_key (am_endpoint m) ∧ am_state m' = am_state m ∧ am_direction m' = am_direction m ∧
  am_filter_count m' = am_filter_count m ∧
  take (Z.to_nat (am_filter_count m)) (am_filters m') = take (Z.to_nat (am_filter_count m)) (am_filters m).

#[export] Instance member_block : BlockWriter writeGroupMember 216 member_ok.
Proof. bridge_writer writeGroupMember member_ok. Qed.

Lemma member_back m old p o : member_ok m ∧ endpoint_named (am_endpoint m) → length (am_filters old) = 8%nat →
  slice o 216 p = block_image writeGroupMember 216 m → ∃ m', readGroupMember p o old = (true, m') ∧ member_same m m'.
Proof.
  intros [[He Hfs] Hne] Hold Himg. bridge_image writeGroupMember Himg Hf. unfold readGroupMember.
  endpoint_from Hf (am_endpoint m) p (o + 0)%nat e' He'. cbn [negb].
  assert (p !!! (o + 146)%nat = am_filter_count m) as -> by byte_from Hf. pose proof Hfs as [Hc _]. cbn in Hc.
  replace (am_filter_count m >? 8) with false by (symmetry; lia). eexists. split; [reflexivity|]. unfold member_same. cbn.
  split_and!; [done|byte_from Hf..|done|]. filters_from 8%nat Hf (am_filters m) (am_filter_count m).
Qed.

Definition group_entry_ok (e : AdminGroupListReplyEntry) : Prop :=
  name_field 31 (ge_name e) ∧ filters_ok 16 (ge_filters e, ge_filter_count e) ∧ is_u64 (ge_forwarded e) ∧ is_u64 (ge_dropped e) ∧
  0 ≤ ge_member_count e ≤ 16 ∧ length (ge_members e) = 16%nat ∧ Forall (λ m, member_ok m ∧ endpoint_named (am_endpoint m)) (entry_members e).

Definition group_entry_same (e e' : AdminGroupListReplyEntry) : Prop :=
  cstr (ge_name e') = cstr (ge_name e) ∧ ge_filter_count e' = ge_filter_count e ∧ ge_member_count e' = ge_member_count e ∧
  take (Z.to_nat (ge_filter_count e)) (ge_filters e') = take (Z.to_nat (ge_filter_count e)) (ge_filters e) ∧
  ge_forwarded e' = ge_forwarded e ∧ ge_dropped e' = ge_dropped e ∧ Forall2 member_same (entry_members e) (entry_members e').

Lemma length_entry_members e : group_entry_ok e → length (entry_members e) = Z.to_nat (ge_member_count e) ∧ (length (entry_members e) ≤ 16)%nat.
Proof. intros (_ & _ & _ & _ & Hm & Hl & _). unfold entry_members. rewrite length_take. lia. Qed.

#[local] Instance named_member_block : BlockWriter writeGroupMember 216 (λ m, member_ok m ∧ endpoint_named (am_endpoint m)).
Proof. apply (BlockWriter_weaken writeGroupMember 216 member_ok); [by intros m []|apply _]. Qed.

#[export] Instance group_entry_block : BlockWriter writeGroupEntry 3640 group_entry_ok.
Proof.
  split.
  - intros b off e. unfold writeGroupEntry, Wire_WriteU64, Wire_WriteU32, Wire_WriteU16. by autorewrite with len.
  - intros b off e o n Hok Hdis. pose proof (length_entry_members e Hok) as [_ Hlm]. destruct Hok as (? & ? & ? & ? & ? & ? & Hm). name_lengths.
    unfold writeGroupEntry. rewrite (block_write_ne _ _ _ _ _ _ _ _ Hm) by lia. block_stores. by bridge_loads.
  - intros b off e k n Hok Ho Hb. pose proof (length_entry_members e Hok) as [_ Hlm]. destruct Hok as (? & ? & ? & ? & ? & ? & Hm). name_lengths.
    unfold writeGroupEntry. rewrite (slice_write_entries_shift' _ _ _ _ _ _ _ _ _ Hm); [|lia|block_stores; codec_len]. f_equal. block_stores. by bridge_shifts.
Qed.

#[export] Instance group_entry : AdminEntry AdminGroupListReplyEntry := {|
  ae_type := kMESSAGE_TYPE_ADMIN_GROUP_LIST_REPLY; ae_max := ADMIN_GROUP_LIST_REPLY_ENTRIES_MAX; ae_size := ADMIN_GROUP_LIST_REPLY_ENTRY_SIZE;
  ae_check := isGroupEntryValid; ae_write := writeGroupEntry; ae_read := readGroupEntry;
  ae_shape e := length (ge_filters e) = 16%nat ∧ length (ge_members e) = 16%nat ∧ Forall (λ m, length (am_filters m) = 8%nat) (ge_members e);
  ae_ok e := group_entry_ok e ∧ is_named (ge_name e) = true; ae_same := group_entry_same |}.

Lemma group_entry_check e : group_entry_ok e → is_named (ge_name e) = true → isGroupEntryValid e = true.
Proof.
  intros (Hn & [Hc _] & _ & _ & Hm & _ & Hms) Hnm. unfold isGroupEntryValid. rewrite group_name_valid by done. cbn in Hc.
  replace (ge_filter_count e >? 16) with false by (symmetry; lia). replace (ge_member_count e >? 16) with false by (symmetry; lia). cbn [negb orb andb].
  apply forallb_forall. intros m Hin%list_elem_of_In. rewrite Forall_forall in Hms. destruct (Hms m Hin) as [[_ [Hmc _]] _]. cbn in Hmc.
  by replace (am_filter_count m >? 8) with false by (symmetry; lia).
Qed.

(** What the image of a group entry holds before its members, and the members' block. *)
Definition group_head (e : AdminGroupListReplyEntry) : list Z :=
  copy_at 176 (le_bytes 8 (ge_dropped e)) (copy_at 168 (le_bytes 8 (ge_forwarded e))
    (writeBridgeFilters (copy_at 33 [ge_member_count e] (copy_at 32 [ge_filter_count e] (copy_at 0 (cstr (ge_name e)) (replicate 3640 0))))
      36 (ge_filters e) (ge_filter_count e))).

Lemma length_group_head e : length (group_head e) = 3640%nat.
Proof. unfold group_head. by autorewrite with len. Qed.

Lemma group_entry_image e p o : group_entry_ok e → slice o 3640 p = block_image writeGroupEntry 3640 e →
  (∀ off k, (off + k ≤ 184)%nat → slice (o + off) k p = slice off k (group_head e)) ∧
  slice (o + 184 + 0 * 216) (length (entry_members e) * 216) p =
    slice 184 (length (entry_members e) * 216) (write_entries writeGroupMember 216 184 (entry_members e) (group_head e)).
Proof.
  intros Hok Hs. pose proof (length_entry_members e Hok) as [_ Hlm]. destruct Hok as (Hn & Hfs & Hfw & Hdr & _ & _ & Hm). name_lengths.
  revert Hs. unfold block_image, writeGroupEntry. block_stores. rewrite ?Nat.add_0_l. fold (group_head e). intros Hs. split.
  - intros off k Hle. rewrite (slice_field _ _ _ _ off k Hs) by lia. apply (block_write_ne _ _ _ _ _ _ _ _ Hm). lia.
  - rewrite Nat.add_0_r. apply (slice_field _ _ _ _ 184 _ Hs). lia.
Qed.

Lemma group_entry_back e old p o : group_entry_ok e → is_named (ge_name e) = true → ae_shape old →
  slice o 3640 p = block_image writeGroupEntry 3640 e → ∃ e', readGroupEntry p o old = (true, e') ∧ group_entry_same e e'.
Proof.
  intros Hok Hnm (Hof & Hom & Hofs) Himg. pose proof (length_entry_members e Hok) as [Hlm Hlm16].
  destruct (group_entry_image e p o Hok Himg) as [Hf Hmem]. pose proof Hok as (Hn & Hfs & Hfw & Hdr & Hmc & Hl & Hm). name_lengths.
  destruct (read_loop_back writeGroupMember 216 _ readGroupMember (λ m, length (am_filters m) = 8%nat) member_same p (o + 184) 184 (entry_members e)
    (group_head e) (ge_members old) 0 member_back Hm) as (got & Hgot & Hsame).
  { intros j x _ Hx. rewrite Forall_lookup in Hofs. by eapply Hofs. }
  { rewrite length_group_head. lia. }
  { unfold group_head. by bridge_loads. }
  { done. }
  { lia. }
  unfold readGroupEntry. unfold group_head in Hf. group_name_from Hf (ge_name e) p (o + 0)%nat n' Hn'. cbn [negb].
  assert (p !!! (o + 32)%nat = ge_filter_count e) as -> by byte_from Hf. assert (p !!! (o + 33)%nat = ge_member_count e) as -> by byte_from Hf.
  pose proof Hfs as [Hc _]. cbn in Hc. replace (ge_filter_count e >? 16) with false by (symmetry; lia).
  replace (ge_member_count e >? 16) with false by (symmetry; lia). cbn [orb]. rewrite <- Hlm, Hgot.
  eexists. split; [reflexivity|]. unfold group_entry_same. cbn. split_and!; [done..| | | |].
  - filters_from 16%nat Hf (ge_filters e) (ge_filter_count e).
  - apply Wire_ReadU64_slice; [bridge_from Hf|done].
  - apply Wire_ReadU64_slice; [bridge_from Hf|done].
  - unfold entry_members at 2. cbn [ge_member_count ge_members]. rewrite <- Hlm, take_list_inserts; [done|symmetry; by apply Forall2_length in Hsame|lia].
Qed.

#[export] Instance group_entry_entry_ok : AdminEntryOk AdminGroupListReplyEntry.
Proof.
  split; [by vm_compute|apply Nat.leb_le; by vm_compute|apply Nat.ltb_lt; by vm_compute| | |].
  - intros e []. by apply group_entry_check.
  - apply (BlockWriter_weaken writeGroupEntry 3640 group_entry_ok); [by intros e []|apply _].
  - intros e old p o [] ? ?. by apply group_entry_back.
Qed.
