(* ===== verification/ControlPlane.v ===== *)
(** * The control plane: encode, frame, reassemble, dispatch, decode

    Puts the codecs and the framer together the way a connection does: the
    sender encodes messages into its buffer and writes them to the stream, the
    receiver reassembles whatever chunks arrive, checks the header as the hub's
    [onPeerControl] does and hands the payload to the decoder of its type.  The
    decoders are a table, one row per message type of the protocol. *)

From S2P Require Import Prelude CString Wire Codec HelloMessage RegisterMessage OpenMessage SubscribeMessage ListMessage FrameMessage TxnMessage IfconfigMessage MessageFramer BridgeRoutes PeerDirectory RejectedPeers AdminCodec.
From S2P Require Import AdminMessage AdminBridge.

(** The decoder's out parameters, zeroed. *)
Definition hello0 := {| hello_version := 0; hello_role := 0; hello_capabilities := 0; hello_name := replicate 64 0 |}.
Definition register0 :=
  {| reg_agent_name := replicate 128 0; reg_interface_count := 0; reg_interface_names := replicate 16 (replicate 16 0);
     reg_fd_reported := false; reg_fd_interfaces := 0 |}.
Definition register_ack0 := {| ack_status := 0; ack_interface_count := 0; ack_channels := replicate 16 0 |}.
Definition list_reply0 := {| lr_count := 0; lr_flags := 0; lr_entries := replicate 16 ListReplyEntry_zero |}.
Definition subscribe0 := {| sub_channel := 0; sub_filter_count := 0; sub_filters := replicate 16 CanFilter_zero |}.
Definition error0 := {| error_code := 0; error_detail := replicate 64 0 |}.
Definition interface_status0 :=
  {| ism_interface_count := 0;
     ism_entries := replicate 16 {| ise_channel := 0; ise_flags := 0; ise_advertised_rate := 0; ise_credit := 0;
                                    ise_tx_dropped := 0 |} |}.
Definition frame0 :=
  {| frame_can_id := 0; frame_timestamp_us := 0; frame_channel := 0; frame_payload_length := 0; frame_flags := 0;
     frame_route_flags := 0; frame_payload := replicate 64 0 |}.

Definition timing0 := {| bt_tq := 0; bt_prop_seg := 0; bt_phase_seg1 := 0; bt_phase_seg2 := 0; bt_sjw := 0; bt_brp := 0 |}.
Definition settings0 :=
  {| is_fields := 0; is_bitrate := 0; is_data_bitrate := 0; is_sample_point := 0; is_data_sample_point := 0; is_ctrlmode_mask := 0;
     is_ctrlmode_flags := 0; is_restart_ms := 0; is_txqueuelen := 0; is_link_up := false; is_can_state := 0; is_termination := 0;
     is_bit_timing := timing0; is_data_bit_timing := timing0 |}.
Definition ifconfig0 := {| if_request_id := 0; if_interface_name := replicate 16 0; if_op := 0; if_settings := settings0 |}.
Definition ifconfig_reply0 := {| ifr_request_id := 0; ifr_status := 0; ifr_settings := settings0; ifr_detail := replicate 64 0 |}.
Definition configure0 :=
  {| cf_agent_name := replicate 128 0; cf_interface_name := replicate 16 0; cf_op := 0; cf_settings := settings0 |}.
Definition configure_reply0 := {| cfr_status := 0; cfr_settings := settings0; cfr_detail := replicate 64 0 |}.
Definition txn_begin0 :=
  {| tb_channel := 0; tb_flags := 0; tb_idle_timeout_ms := 0;
     tb_keepalive := {| tka_period_ms := 0; tka_can_id := 0; tka_payload_length := 0; tka_frame_flags := 0; tka_payload := replicate 64 0 |} |}.
Definition pattern0 := {| tp_can_id := 0; tp_can_mask := 0; tp_payload_mask := 0; tp_payload_value := 0 |}.
Definition txn_template0 :=
  {| tt_channel := 0; tt_template_id := 0; tt_txn_id := 0; tt_advance_mode := 0; tt_flags := 0; tt_count_k := 0; tt_patterns_present := 0;
     tt_timeout_ms := 0; tt_gap_us := 0; tt_extend_timeout_ms := 0; tt_type := 0; tt_advance := pattern0; tt_abort := pattern0;
     tt_extend := pattern0;
     tt_isotp := {| ti_response_id := 0; ti_flags := 0; ti_tx_address := 0; ti_rx_address := 0; ti_padding := 0; ti_tx_data_length := 0;
                    ti_block_size := 0; ti_st_min := 0 |} |}.
Definition txn_status0 :=
  {| ts_channel := 0; ts_state := 0; ts_txn_id := 0; ts_failing_seq := 0; ts_offending_origin := 0; ts_seen_bitmap := 0; ts_expected := 0;
     ts_got := 0; ts_completed_steps := 0; ts_reason := 0; ts_flags := 0;
     ts_rx_frame := {| trx_can_id := 0; trx_payload_length := 0; trx_frame_flags := 0; trx_payload := replicate 64 0 |} |}.
Definition txn_roster0 :=
  {| tr_channel := 0; tr_txn_id := 0; tr_origin := {| toe_source := 0; toe_shift := 0; toe_payload_offset := 0; toe_mask := 0 |};
     tr_roster_count := 0; tr_roster := replicate 64 0 |}.
Definition endpoint0 := BridgeEndpoint_zero.
Definition status_reply0 :=
  {| as_peer_count := 0; as_agent_count := 0; as_client_count := 0; as_interface_count := 0; as_receive_overflows := 0; as_frames_received := 0;
     as_frames_forwarded := 0; as_frames_dropped := 0; as_frames_unroutable := 0;
     as_transactions := {| tc_started := 0; tc_completed := 0; tc_aborted := 0; tc_rejected := 0; tc_steps_completed := 0; tc_lease_frame_drops := 0 |} |}.
Definition pin_add0 := {| pa_agent_name := replicate 128 0; pa_fingerprint_hex := replicate 65 0 |}.
Definition acl_set0 :=
  {| sa_agent_name := replicate 128 0; sa_interface_name := replicate 16 0; sa_fingerprint_hex := replicate 65 0; sa_can_read := 0;
     sa_can_write := 0; sa_can_admin := 0 |}.
Definition acl_revoke0 := {| rv_agent_name := replicate 128 0; rv_interface_name := replicate 16 0; rv_fingerprint_hex := replicate 65 0 |}.
Definition bridge_set0 :=
  {| ab_source := endpoint0; ab_destination := endpoint0; ab_filter_count := 0; ab_filters := replicate 16 CanFilter_zero |}.
Definition bridge_delete0 := {| bd_source := endpoint0; bd_destination := endpoint0 |}.
Definition group_set0 := {| gq_name := replicate 32 0; gq_filter_count := 0; gq_filters := replicate 16 CanFilter_zero |}.
Definition group_delete0 := {| gd_name := replicate 32 0 |}.
Definition group_member0 type : AdminGroupMemberMessage type :=
  {| gj_name := replicate 32 0; gj_member := endpoint0; gj_direction := 0; gj_filter_count := 0; gj_filters := replicate 8 CanFilter_zero |}.
Definition offset0 type : OffsetRequest type := {| or_offset := 0 |}.
Definition agent_name0 type : AgentNameRequest type := {| an_agent_name := replicate 128 0 |}.
Definition filtered0 type : FilteredRequest type := {| fr_offset := 0; fr_agent_name := replicate 128 0 |}.
Definition status0 type : StatusReply type := {| sr_status := 0 |}.
Definition page0 (E : Type) `{AdminEntry E} : AdminReply E :=
  {| reply_count := 0; reply_flags := 0; reply_entries := replicate (ae_max (E := E)) inhabitant |}.

(** ** The table of codecs *)

(** A message type of the protocol with what its codec promises, and a zeroed message for the decoder to fill. *)
Record Codec := {
  c_message : Type;
  c_wire :: WireMessage c_message;
  c_ok :: WireMessageOk c_message;
  c_zero : c_message;
  c_zero_shape : wm_shape c_zero;
}.
Definition c_type (c : Codec) : Z := wm_type (M := c_message c).

Lemma register0_shape : wm_shape register0.
Proof. split; simpl; [done|lia|done|by repeat constructor|zlia]. Qed.
Lemma group_entry_shape : ae_shape (inhabitant : AdminGroupListReplyEntry).
Proof. split_and!; [done..|]. cbn. by repeat constructor. Qed.
Lemma page0_shape E `{AdminEntry E} : ae_shape (inhabitant : E) → wm_shape (page0 E).
Proof. intros Hs. split; cbn; [apply length_replicate|by apply Forall_replicate]. Qed.

(** The zeroed message has the array sizes of its struct. *)
Class ZeroShape {M} `{WireMessage M} (zero : M) := zero_shape : wm_shape zero.
#[local] Hint Extern 1 (ZeroShape _) =>
  first [exact register0_shape | apply page0_shape; first [exact I | exact group_entry_shape | reflexivity] | red; simpl; done] : typeclass_instances.

Definition codec {M} `{HM : WireMessage M} `{HOK : !WireMessageOk M} (zero : M) `{HZ : !ZeroShape zero} : Codec :=
  {| c_message := M; c_wire := HM; c_ok := HOK; c_zero := zero; c_zero_shape := HZ |}.

Definition hello_codec : Codec := codec hello0.
Definition open_codec : Codec := codec {| open_interface_id := 0; open_flags := 0 |}.
Definition kick_peer_codec : Codec := codec {| kp_peer_id := 0 |}.

Definition core_codecs : list Codec := [
  hello_codec; codec register0; codec register_ack0;
  codec {| list_offset := 0 |}; codec list_reply0;
  open_codec; codec {| close_channel := 0 |}; codec subscribe0;
  codec error0; codec {| open_ack_status := 0; open_ack_channel := 0; open_ack_interface_id := 0 |};
  codec interface_status0; codec frame0; codec ifconfig0; codec ifconfig_reply0;
  codec configure0; codec configure_reply0; codec txn_begin0;
  codec {| tba_channel := 0; tba_status := 0; tba_txn_id := 0; tba_window_bytes := 0 |}; codec txn_template0;
  codec {| tpr_channel := 0; tpr_txn_id := 0; tpr_completed_steps := 0; tpr_consumed_bytes := 0 |}; codec txn_status0;
  codec {| tab_channel := 0; tab_txn_id := 0 |}; codec txn_roster0;
  codec {| trr_channel := 0; trr_txn_id := 0; trr_seq := 0; trr_seen_bitmap := 0 |}
].

Definition admin_codecs : list Codec := [
  codec (offset0 kMESSAGE_TYPE_ADMIN_PEERS); codec (offset0 kMESSAGE_TYPE_ADMIN_PINS);
  codec (offset0 kMESSAGE_TYPE_ADMIN_ACL_LIST); codec (offset0 kMESSAGE_TYPE_ADMIN_INTERFACES);
  codec (offset0 kMESSAGE_TYPE_ADMIN_REJECTED); codec (offset0 kMESSAGE_TYPE_ADMIN_TXNS);
  codec (offset0 kMESSAGE_TYPE_ADMIN_BRIDGE_LIST); codec (offset0 kMESSAGE_TYPE_ADMIN_GROUP_LIST);
  codec (agent_name0 kMESSAGE_TYPE_ADMIN_KICK); codec (agent_name0 kMESSAGE_TYPE_ADMIN_FORGET);
  codec (filtered0 kMESSAGE_TYPE_ADMIN_AGENTS); codec (filtered0 kMESSAGE_TYPE_ADMIN_CLIENTS);
  codec (status0 kMESSAGE_TYPE_ADMIN_KICK_REPLY); codec (status0 kMESSAGE_TYPE_ADMIN_FORGET_REPLY);
  codec (status0 kMESSAGE_TYPE_ADMIN_KICK_PEER_REPLY); codec (status0 kMESSAGE_TYPE_ADMIN_PIN_ADD_REPLY);
  codec (status0 kMESSAGE_TYPE_ADMIN_ACL_SET_REPLY); codec (status0 kMESSAGE_TYPE_ADMIN_ACL_REVOKE_REPLY);
  codec (status0 kMESSAGE_TYPE_ADMIN_BRIDGE_SET_REPLY); codec (status0 kMESSAGE_TYPE_ADMIN_BRIDGE_DELETE_REPLY);
  codec (status0 kMESSAGE_TYPE_ADMIN_GROUP_SET_REPLY); codec (status0 kMESSAGE_TYPE_ADMIN_GROUP_DELETE_REPLY);
  codec (status0 kMESSAGE_TYPE_ADMIN_GROUP_JOIN_REPLY); codec (status0 kMESSAGE_TYPE_ADMIN_GROUP_LEAVE_REPLY);
  codec status_reply0; kick_peer_codec; codec pin_add0; codec acl_set0; codec acl_revoke0;
  codec bridge_set0; codec bridge_delete0; codec group_set0; codec group_delete0;
  codec (group_member0 kMESSAGE_TYPE_ADMIN_GROUP_JOIN); codec (group_member0 kMESSAGE_TYPE_ADMIN_GROUP_LEAVE);
  codec (page0 AdminPeersReplyEntry); codec (page0 AdminPinsReplyEntry);
  codec (page0 AdminAgentsReplyEntry); codec (page0 AdminClientsReplyEntry);
  codec (page0 AdminAclListReplyEntry); codec (page0 AdminInterfacesReplyEntry);
  codec (page0 AdminTxnsReplyEntry); codec (page0 AdminRejectedReplyEntry);
  codec (page0 AdminBridgeListReplyEntry); codec (page0 AdminGroupListReplyEntry)
].

Definition codecs : list Codec := core_codecs ++ admin_codecs.

(** A message of the protocol. *)
Inductive AnyMessage := Message (c : Codec) (m : c_message c).

Definition any_encode (m : AnyMessage) (buffer : list Z) : nat * list Z := match m with Message c m => wm_encode m buffer end.

Fixpoint find_codec (type : Z) (l : list Codec) : option Codec :=
  match l with
  | [] => None
  | c :: l' => if c_type c =? type then Some c else find_codec type l'
  end.

(** The decoder of a type; [None] for a type no one decodes. *)
Definition any_decode (type : Z) (payload : list Z) : option AnyMessage :=
  c ← find_codec type codecs;
  let '(ok, m) := wm_decode (c_zero c) payload in if (ok : bool) then Some (Message c m) else None.

(** The checks [onPeerControl] makes before it calls the handler of the type. *)
Definition receive (data : list Z) : option AnyMessage :=
  match MessageHeader_Decode data with
  | None => None
  | Some header =>
      if Nat.ltb (length data) (MESSAGE_HEADER_SIZE + Z.to_nat (header_length header)) then None
      else any_decode (header_type header) (slice MESSAGE_HEADER_SIZE (Z.to_nat (header_length header)) data)
  end.

(** Same type and same content. *)
Definition any_same (m m' : AnyMessage) : Prop := match m with Message c m => ∃ m1, m' = Message c m1 ∧ wm_same m m1 end.

(** What [m] put on the wire, encoded into some large enough buffer. *)
Definition any_packet (m : AnyMessage) (bs : list Z) : Prop := match m with Message c m => c ∈ codecs ∧ wm_packet m bs end.

(** ** Against the codec interface *)

(** No two messages of the protocol share a type. *)
Lemma codec_types_unique : NoDup (c_type <$> codecs).
Proof. apply (bool_decide_eq_true_1 _). by vm_compute. Qed.

Lemma find_codec_in l c : NoDup (c_type <$> l) → c ∈ l → find_codec (c_type c) l = Some c.
Proof.
  induction l as [|x l IH]; intros Hnd Hin; [by apply not_elem_of_nil in Hin|]. cbn [find_codec]. rewrite fmap_cons, NoDup_cons in Hnd. destruct Hnd as [Hx Hnd].
  apply elem_of_cons in Hin as [-> |Hin]; [by rewrite Z.eqb_refl|]. rewrite (proj2 (Z.eqb_neq _ _)); [by apply IH|].
  intros Heq. apply Hx. rewrite Heq. by apply list_elem_of_fmap_2.
Qed.

Lemma any_packet_receive m bs : any_packet m bs → ∃ m', receive bs = Some m' ∧ any_same m m'.
Proof.
  destruct m as [c m]. intros [Hc Hp]. destruct (wm_packet_spec m bs Hp) as (Hl & Hh & Hd).
  destruct (Hd (c_zero c) (c_zero_shape c)) as (m' & Hm' & Hs). exists (Message c m'). split; [|by exists m'].
  unfold receive. rewrite Hh. cbn [header_type header_length]. rewrite Nat2Z.id, Hl, Nat.ltb_irrefl. unfold any_decode.
  change wm_type with (c_type c). rewrite (find_codec_in _ c codec_types_unique Hc). cbn [mbind option_bind].
  assert (slice 4 (wm_size m) bs = drop 4 bs) as -> by (unfold slice; apply take_ge; rewrite length_drop; lia).
  by rewrite Hm'.
Qed.

(** A packet is one message to the framer. *)
Lemma packet_next_size {M} `{WireMessageOk M} (m : M) bs rest :
  wm_packet m bs → next_size (bs ++ rest) = Some (length bs) ∧ (length bs ≤ 4096)%nat.
Proof.
  intros Hp. destruct (wm_packet_spec m bs Hp) as (Hl & Hh & _). destruct Hp as (buf & Hv & _).
  pose proof (wm_size_fits m Hv). split; [|lia].
  unfold next_size. rewrite MessageHeader_Decode_app, Hh by lia. cbn [header_length]. rewrite Nat2Z.id.
  rewrite (proj2 (Nat.ltb_ge _ _)); [by rewrite Hl|]. rewrite length_app, Hl. lia.
Qed.

Lemma any_packet_next_size m bs rest :
  any_packet m bs → next_size (bs ++ rest) = Some (length bs) ∧ (length bs ≤ 4096)%nat.
Proof. destruct m as [c m]. intros [_ Hp]. exact (packet_next_size m bs rest Hp). Qed.

(** The messages of a sequence of packets are the packets. *)
Lemma packets_parse cap ms bss :
  Forall2 any_packet ms bss → (4096 ≤ cap)%nat → parses cap (concat bss) bss [].
Proof.
  intros Hp Hcap. induction Hp as [|m bs ms bss Hm Hms IH]; simpl; [by constructor|].
  destruct (any_packet_next_size m bs (concat bss) Hm) as [Hn Hlt].
  assert (take (length bs) (bs ++ concat bss) = bs) as Ht by apply take_app_length.
  assert (drop (length bs) (bs ++ concat bss) = concat bss) as Hd by apply drop_app_length.
  rewrite <- Ht at 2. apply parses_next; [done|lia|by rewrite Hd].
Qed.

(** C3: control plane round trip.  Whatever messages are encoded and however the
    stream cuts them into chunks, the receiver gets the same messages in the same
    order, and nothing is left over. *)
Theorem control_plane_roundtrip (ms : list AnyMessage) (bss chunks : list (list Z)) (buffer : list Z) :
  Forall2 any_packet ms bss → concat chunks = concat bss → (MESSAGE_FRAMER_BUFFER_SIZE ≤ length buffer)%nat →
  ∃ ds fr ms', receive_chunks (MessageFramer_AdoptBuffer buffer) chunks = (true, ds, fr) ∧
    MessageFramer_Pending fr = 0%nat ∧
    receive <$> ds = Some <$> ms' ∧ Forall2 any_same ms ms'.
Proof.
  intros Hp Hc Hb.
  assert (parses (length buffer) [] [] []) as Hidle by (by constructor).
  pose proof (packets_parse (length buffer) ms bss Hp Hb) as Hparse. rewrite <- Hc in Hparse.
  destruct (receive_chunks_parses (MessageFramer_AdoptBuffer buffer) chunks bss []) as (fr & Heq & Hrest & Hwf).
  - unfold framer_wf. simpl. lia.
  - simpl. lia.
  - done.
  - done.
  - assert (∃ ms', receive <$> bss = Some <$> ms' ∧ Forall2 any_same ms ms') as (ms' & Hr & Hs).
    { clear -Hp. induction Hp as [|m bs ms bss Hm Hms (ms' & Hr & Hs)]; [by exists []|].
      destruct (any_packet_receive m bs Hm) as (m' & Hm' & Hsame).
      exists (m' :: ms'). split; [|by constructor]. by rewrite !fmap_cons, Hm', Hr. }
    exists bss, fr, ms'. split_and!; [done| |done|done].
    unfold MessageFramer_Pending. by rewrite <- (length_content fr Hwf), Hrest.
Qed.

(** Two messages of a client session and an admin request, cut in the middle of the first header. *)
Lemma control_plane_roundtrip_witness :
  let hello := Message hello_codec {| hello_version := 0; hello_role := 2; hello_capabilities := 1; hello_name := [116; 99] ++ replicate 62 0 |} in
  let opening := Message open_codec {| open_interface_id := 7; open_flags := 3 |} in
  let kicking := Message kick_peer_codec {| kp_peer_id := 9 |} in
  let wire := λ m, take (any_encode m (replicate 100 0)).1 (any_encode m (replicate 100 0)).2 in
  let stream := wire hello ++ wire opening ++ wire kicking in
  ∃ ds fr ms', receive_chunks (MessageFramer_AdoptBuffer (replicate 4096 0)) [take 3 stream; drop 3 stream] = (true, ds, fr) ∧
    MessageFramer_Pending fr = 0%nat ∧ receive <$> ds = Some <$> ms' ∧ Forall2 any_same [hello; opening; kicking] ms'.
Proof.
  intros hello opening kicking wire stream.
  apply (control_plane_roundtrip [hello; opening; kicking] [wire hello; wire opening; wire kicking]).
  - repeat apply Forall2_cons_2; [..|apply Forall2_nil_2];
      (split; [unfold codecs, core_codecs, admin_codecs; cbn [app]; repeat first [apply list_elem_of_here|apply list_elem_of_further]|]);
      exists (replicate 100 0); (split; [|split; [|done]]); simpl; rewrite ?length_replicate; try lia; repeat split; zlia || done.
  - unfold stream. cbn [concat]. rewrite !app_nil_r. apply take_drop.
  - by rewrite length_replicate.
Defined.
