(* ===== verification/AdminViews.v ===== *)
(** * What the hub shows its administrator (src/hub/domain/admin_views.c)

    Projections of the hub's tables into the pages of the admin replies. *)

From S2P Require Import Prelude Slots CString RegisterMessage Codec AdminCodec AdminMessage ClientSession InterfaceRegistry TransactionTable PeerDirectory.

Definition ADMIN_CLIENT_NO_CHANNEL : Z := 255.
Definition ADMIN_INTERFACE_MODE_UNKNOWN : Z := 0.
Definition ADMIN_INTERFACE_MODE_CLASSIC : Z := 1.
Definition ADMIN_INTERFACE_MODE_FD : Z := 2.
Definition ADMIN_TXN_STATE_PENDING : Z := 1.
Definition ADMIN_TXN_STATE_ACTIVE : Z := 2.
Definition ADMIN_TXN_FLAG_EXCLUSIVE : Z := 1.
Definition ADMIN_TXN_NO_PROGRESS : Z := 4294967295.
Definition MICROSECONDS_PER_MILLISECOND : Z := 1000.
Notation ADMIN_VIEW_ENTRIES_MAX := 16%nat (only parsing).

(** The zeroed reply with its first entries filled. *)
Definition page_reply {E} `{AdminEntry E} (p : list E * bool) : AdminReply E :=
  {| reply_count := zlen p.1; reply_flags := if p.2 then ADMIN_REPLY_FLAG_MORE else 0;
     reply_entries := list_inserts 0 p.1 (replicate (ae_max (E := E)) inhabitant) |}.

(** ** Agents *)

Definition countAgentInterfaces (registry : InterfaceRegistry) (agent_peer_id : Z) : Z :=
  u8 (countb (of_peer agent_peer_id) (entries registry)).

(** An empty filter shows every agent. *)
Definition shows (filter name : list Z) : bool := negb (is_named filter) || streq name filter.

Definition lists_agent (filter : list Z) (p : HubPeer) : bool :=
  hp_in_use p && (hp_role p =? kHUB_PEER_ROLE_AGENT) && shows filter (hp_agent_name p).

Definition fillAgentEntry (registry : InterfaceRegistry) (p : HubPeer) : AdminAgentsReplyEntry :=
  {| ag_peer_id := hp_peer_id p; ag_interface_count := countAgentInterfaces registry (hp_peer_id p);
     ag_agent_name := hp_agent_name p; ag_fingerprint_hex := hp_fingerprint_hex p |}.

Definition AdminViews_Agents (registry : InterfaceRegistry) (directory : PeerDirectory) (agent_name_filter : list Z) (offset : Z)
    : AdminReply AdminAgentsReplyEntry :=
  page_reply (page (lists_agent agent_name_filter) (fillAgentEntry registry)
    ADMIN_VIEW_ENTRIES_MAX (Z.to_nat offset) [] (peers directory)).

(** ** Clients *)

Definition clientHasOpenChannels (p : HubPeer) : bool := existsb cb_in_use (bindings (hp_session p)).

(** The reply while it is filled, and the rows skipped so far. *)
Record ClientsPage := { cp_rows : list AdminClientsReplyEntry; cp_more : bool; cp_skipped : Z }.

Definition client_row (peer_id interface_id channel : Z) (agent_name interface_name : list Z) (frames_forwarded frames_dropped : Z)
    : AdminClientsReplyEntry :=
  {| ac_peer_id := peer_id; ac_interface_id := interface_id; ac_channel := channel;
     ac_agent_name := BoundedString_Copy (replicate REGISTER_AGENT_NAME_SIZE 0) (Some agent_name);
     ac_interface_name := BoundedString_Copy (replicate REGISTER_INTERFACE_NAME_SIZE 0) (Some interface_name);
     ac_frames_forwarded := frames_forwarded; ac_frames_dropped := frames_dropped |}.

(** [false]: the page is full and the listing ends. *)
Definition appendClientRow (reply : ClientsPage) (offset : Z) (row : AdminClientsReplyEntry) : bool * ClientsPage :=
  if cp_skipped reply <? offset then
    (true, {| cp_rows := cp_rows reply; cp_more := cp_more reply; cp_skipped := u16 (cp_skipped reply + 1) |})
  else if Nat.eqb (length (cp_rows reply)) ADMIN_VIEW_ENTRIES_MAX then
    (false, {| cp_rows := cp_rows reply; cp_more := true; cp_skipped := cp_skipped reply |})
  else (true, {| cp_rows := cp_rows reply ++ [row]; cp_more := cp_more reply; cp_skipped := cp_skipped reply |}).

(** The names of a binding: the catalogue's while the interface is there, else the ones the binding remembers. *)
Definition binding_names (registry : InterfaceRegistry) (b : ChannelBinding) : list Z * list Z :=
  match InterfaceRegistry_FindById registry (cb_interface_id b) with
  | Some e => (ie_agent_name e, ie_interface_name e)
  | None => (cb_agent_name b, cb_interface_name b)
  end.

Fixpoint client_bindings_loop (registry : InterfaceRegistry) (filter : list Z) (offset peer_id : Z) (bs : list ChannelBinding) (reply : ClientsPage)
    : bool * ClientsPage :=
  match bs with
  | [] => (true, reply)
  | b :: bs' =>
      if negb (cb_in_use b) then client_bindings_loop registry filter offset peer_id bs' reply
      else
        let '(agent_name, interface_name) := binding_names registry b in
        if is_named filter && negb (streq agent_name filter) then client_bindings_loop registry filter offset peer_id bs' reply
        else
          let '(go, reply) := appendClientRow reply offset
            (client_row peer_id (cb_interface_id b) (cb_channel b) agent_name interface_name (cb_frames_forwarded b) (cb_frames_dropped b)) in
          if go then client_bindings_loop registry filter offset peer_id bs' reply else (false, reply)
  end.

Fixpoint clients_loop (registry : InterfaceRegistry) (filter : list Z) (offset : Z) (ps : list HubPeer) (reply : ClientsPage) : ClientsPage :=
  match ps with
  | [] => reply
  | p :: ps' =>
      if negb (hp_in_use p) || negb (hp_role p =? kHUB_PEER_ROLE_CLIENT) then clients_loop registry filter offset ps' reply
      else if negb (clientHasOpenChannels p) then
        if is_named filter then clients_loop registry filter offset ps' reply
        else
          let '(go, reply) := appendClientRow reply offset (client_row (hp_peer_id p) 0 ADMIN_CLIENT_NO_CHANNEL [] [] 0 0) in
          if go then clients_loop registry filter offset ps' reply else reply
      else
        let '(go, reply) := client_bindings_loop registry filter offset (hp_peer_id p) (bindings (hp_session p)) reply in
        if go then clients_loop registry filter offset ps' reply else reply
  end.

Definition AdminViews_Clients (registry : InterfaceRegistry) (directory : PeerDirectory) (agent_name_filter : list Z) (offset : Z)
    : AdminReply AdminClientsReplyEntry :=
  let reply := clients_loop registry agent_name_filter offset (peers directory) {| cp_rows := []; cp_more := false; cp_skipped := 0 |} in
  page_reply (cp_rows reply, cp_more reply).

(** ** Interfaces *)

Definition interfaceMode (e : InterfaceEntry) : Z :=
  if negb (ie_fd_reported e) then ADMIN_INTERFACE_MODE_UNKNOWN
  else if ie_fd_capable e then ADMIN_INTERFACE_MODE_FD else ADMIN_INTERFACE_MODE_CLASSIC.

Definition subscribes (interface_id : Z) (p : HubPeer) : bool :=
  hp_in_use p && (hp_role p =? kHUB_PEER_ROLE_CLIENT) && bool_decide (is_Some (ClientSession_ChannelForInterface (hp_session p) interface_id)).

Definition countSubscribers (directory : PeerDirectory) (interface_id : Z) : Z := u8 (countb (subscribes interface_id) (peers directory)).

Definition fillInterfaceEntry (directory : PeerDirectory) (e : InterfaceEntry) : AdminInterfacesReplyEntry :=
  {| ai_interface_id := ie_interface_id e; ai_subscriber_count := countSubscribers directory (ie_interface_id e);
     ai_frames_received := ie_frames_received e; ai_tx_dropped := ie_tx_dropped e; ai_mode := interfaceMode e;
     ai_agent_name := ie_agent_name e; ai_interface_name := ie_interface_name e |}.

Definition AdminViews_Interfaces (registry : InterfaceRegistry) (directory : PeerDirectory) (offset : Z) : AdminReply AdminInterfacesReplyEntry :=
  page_reply (page ie_in_use (fillInterfaceEntry directory) ADMIN_VIEW_ENTRIES_MAX (Z.to_nat offset) [] (entries registry)).

(** ** Transactions *)

Definition elapsedMs (since_us now_us : Z) : Z :=
  if now_us <=? since_us then 0
  else
    let elapsed_ms := (now_us - since_us) / MICROSECONDS_PER_MILLISECOND in
    if elapsed_ms >? 4294967295 then 4294967295 else u32 elapsed_ms.

Definition fillTransactionEntry (registry : InterfaceRegistry) (now_us : Z) (t : RelayedTransaction) : AdminTxnsReplyEntry :=
  let zero : AdminTxnsReplyEntry := inhabitant in
  let '(agent_name, interface_name) :=
    match InterfaceRegistry_FindById registry (rt_interface_id t) with
    | Some e => (ie_agent_name e, ie_interface_name e)
    | None => (at_agent_name zero, at_interface_name zero)
    end in
  {| at_interface_id := rt_interface_id t; at_client_peer_id := rt_client_peer_id t; at_agent_peer_id := rt_agent_peer_id t;
     at_txn_id := rt_txn_id t;
     at_state := if bool_decide (rt_state t = kTRANSACTION_RELAY_STATE_ACTIVE) then ADMIN_TXN_STATE_ACTIVE else ADMIN_TXN_STATE_PENDING;
     at_flags := if rt_exclusive t then ADMIN_TXN_FLAG_EXCLUSIVE else 0; at_completed_steps := rt_completed_steps t;
     at_bytes_in_flight := u32 (rt_relayed_bytes t - rt_consumed_bytes t); at_age_ms := elapsedMs (rt_started_at_us t) now_us;
     at_progress_age_ms := if rt_last_progress_us t =? 0 then ADMIN_TXN_NO_PROGRESS else elapsedMs (rt_last_progress_us t) now_us;
     at_agent_name := agent_name; at_interface_name := interface_name |}.

Definition AdminViews_Transactions (registry : InterfaceRegistry) (transactions : TransactionTable) (now_us offset : Z)
    : AdminReply AdminTxnsReplyEntry :=
  page_reply (page isInUse (fillTransactionEntry registry now_us)
    ADMIN_VIEW_ENTRIES_MAX (Z.to_nat offset) [] (txns transactions)).

(** ** The listing of clients is a page of rows *)

(** The rows of one client's channels, and of every client, in the order of the tables. *)
Definition binding_rows (registry : InterfaceRegistry) (filter : list Z) (peer_id : Z) (bs : list ChannelBinding) : list AdminClientsReplyEntry :=
  omap (λ b,
    let '(agent_name, interface_name) := binding_names registry b in
    if cb_in_use b && shows filter agent_name then
      Some (client_row peer_id (cb_interface_id b) (cb_channel b) agent_name interface_name (cb_frames_forwarded b) (cb_frames_dropped b))
    else None) bs.

Definition peer_rows (registry : InterfaceRegistry) (filter : list Z) (p : HubPeer) : list AdminClientsReplyEntry :=
  if negb (hp_in_use p) || negb (hp_role p =? kHUB_PEER_ROLE_CLIENT) then []
  else if clientHasOpenChannels p then binding_rows registry filter (hp_peer_id p) (bindings (hp_session p))
  else if is_named filter then [] else [client_row (hp_peer_id p) 0 ADMIN_CLIENT_NO_CHANNEL [] [] 0 0].

Definition client_rows (registry : InterfaceRegistry) (filter : list Z) (directory : PeerDirectory) : list AdminClientsReplyEntry :=
  concat (peer_rows registry filter <$> peers directory).

(** Appending rows one after the other until the page is full. *)
Fixpoint append_rows (offset : Z) (rows : list AdminClientsReplyEntry) (reply : ClientsPage) : bool * ClientsPage :=
  match rows with
  | [] => (true, reply)
  | row :: rows' => let '(go, reply) := appendClientRow reply offset row in if go then append_rows offset rows' reply else (false, reply)
  end.

Lemma append_rows_app offset r1 r2 reply :
  append_rows offset (r1 ++ r2) reply =
    let '(go, reply) := append_rows offset r1 reply in if go then append_rows offset r2 reply else (false, reply).
Proof.
  revert reply. induction r1 as [|x r1 IH]; intros reply; cbn [app append_rows]; [done|].
  destruct (appendClientRow reply offset x) as [[] reply']; [apply IH|done].
Qed.

Lemma bindings_loop_rows registry filter offset peer_id bs reply :
  client_bindings_loop registry filter offset peer_id bs reply = append_rows offset (binding_rows registry filter peer_id bs) reply.
Proof.
  revert reply. induction bs as [|b bs IH]; intros reply; [done|]. cbn [client_bindings_loop]. unfold binding_rows. cbn [omap list_omap]. fold (binding_rows registry filter peer_id bs).
  destruct (binding_names registry b) as [an inn]. destruct (cb_in_use b); cbn [negb andb]; [|apply IH]. unfold shows.
  destruct (is_named filter); cbn [negb andb orb]; [destruct (streq an filter); cbn [negb]|]; [|apply IH|]; cbn [append_rows];
    destruct (appendClientRow _ _ _) as [[] ?]; [apply IH|done|apply IH|done].
Qed.

Lemma clients_loop_rows registry filter offset ps reply :
  clients_loop registry filter offset ps reply = (append_rows offset (concat (peer_rows registry filter <$> ps)) reply).2.
Proof.
  revert reply. induction ps as [|p ps IH]; intros reply; [done|]. cbn [clients_loop fmap list_fmap concat]. rewrite append_rows_app. unfold peer_rows at 1.
  destruct (negb (hp_in_use p) || _); [apply IH|]. destruct (clientHasOpenChannels p); cbn [negb].
  - rewrite bindings_loop_rows. destruct (append_rows _ _ _) as [[] ?]; [apply IH|done].
  - destruct (is_named filter); [apply IH|]. cbn [append_rows]. destruct (appendClientRow _ _ _) as [[] ?]; [apply IH|done].
Qed.

Lemma append_rows_page offset rows reply :
  is_u16 offset → cp_skipped reply ≤ offset → 0 ≤ cp_skipped reply → cp_more reply = false →
  let r := (append_rows offset rows reply).2 in
  (cp_rows r, cp_more r) = page (λ _, true) id 16 (Z.to_nat (offset - cp_skipped reply)) (cp_rows reply) rows.
Proof.
  intros Ho. cbv zeta. revert reply. induction rows as [|x rows IH]; intros reply Hs H0 Hm; cbn [append_rows page snd]; [by rewrite Hm|].
  unfold appendClientRow. destruct (Z.ltb_spec (cp_skipped reply) offset).
  - replace (Z.to_nat (offset - cp_skipped reply)) with (S (Z.to_nat (offset - (cp_skipped reply + 1)))) by lia. cbn [negb].
    rewrite IH; cbn; rewrite ?u16_id by zlia; try lia; done.
  - replace (Z.to_nat (offset - cp_skipped reply)) with 0%nat by lia. cbn [negb].
    destruct (Nat.eqb (length (cp_rows reply)) 16); [done|]. rewrite IH; cbn; try lia; [|done].
    by replace (Z.to_nat (offset - cp_skipped reply)) with 0%nat by lia.
Qed.

(** The nested loops with their early return give the page of the flat list of rows. *)
Lemma clients_view_page registry directory filter offset :
  is_u16 offset →
  AdminViews_Clients registry directory filter offset =
    page_reply (page (λ _, true) id 16 (Z.to_nat offset) [] (client_rows registry filter directory)).
Proof.
  intros Ho. unfold AdminViews_Clients. f_equal. rewrite clients_loop_rows.
  pose proof (append_rows_page offset (client_rows registry filter directory) {| cp_rows := []; cp_more := false; cp_skipped := 0 |} Ho) as Hp.
  cbn [cp_skipped cp_rows cp_more] in Hp. rewrite Z.sub_0_r in Hp. apply Hp; [zlia|lia|done].
Qed.

(** ** Reading a whole listing *)

(** A requester that asks again from where the last page ended, while the MORE flag is set. *)
Fixpoint read_listing {E} (view : Z → AdminReply E) (fuel : nat) (offset : Z) : list E :=
  match fuel with
  | O => []
  | S fuel' =>
      let reply := view offset in
      reply_page reply ++
        (if Z.land (reply_flags reply) ADMIN_REPLY_FLAG_MORE =? 0 then [] else read_listing view fuel' (u16 (offset + reply_count reply)))
  end.

Section listing.
Context {A E : Type} `{AdminEntry E} (live : A → bool) (fill : A → E).

Lemma reply_page_page (p : list E * bool) : (length p.1 ≤ ae_max (E := E))%nat → reply_page (page_reply p) = p.1.
Proof.
  intros Hl. unfold reply_page, page_reply. cbn [reply_count reply_entries]. unfold zlen. rewrite Nat2Z.id.
  apply take_list_inserts; [done|]. by rewrite length_replicate.
Qed.

Lemma read_listing_all l fuel offset :
  (0 < ae_max (E := E))%nat → 0 ≤ offset → zlen (listed live fill l) < 65536 →
  read_listing (λ o, page_reply (page live fill (ae_max (E := E)) (Z.to_nat o) [] l)) fuel offset =
    page_all live fill (ae_max (E := E)) fuel (Z.to_nat offset) l.
Proof.
  intros Hmax H0 Hb. revert offset H0. induction fuel as [|fuel IH]; intros offset H0; [done|]. cbn [read_listing page_all].
  rewrite page_spec, reply_page_page by (cbn; rewrite length_take; lia). cbn [fst reply_flags page_reply snd reply_count]. f_equal.
  case_bool_decide as Hmore; [|done]. cbn [Z.land Z.eqb ADMIN_REPLY_FLAG_MORE Pos.land].
  unfold zlen in *. rewrite length_take, length_drop, Nat.min_l by lia. rewrite u16_id by zlia. rewrite IH by lia. f_equal. lia.
Qed.

Lemma read_listing_complete l :
  (0 < ae_max (E := E))%nat → zlen (listed live fill l) < 65536 →
  read_listing (λ o, page_reply (page live fill (ae_max (E := E)) (Z.to_nat o) [] l)) (S (length (listed live fill l))) 0 = listed live fill l.
Proof. intros Hmax Hb. rewrite read_listing_all by (done || lia). rewrite page_all_from by (done || lia). done. Qed.
End listing.

Lemma listed_le {A B} (live : A → bool) (fill : A → B) l : (length (listed live fill l) ≤ length l)%nat.
Proof. unfold listed. rewrite length_fmap. apply filter_length_le. Qed.

Lemma read_listing_ext {E} (v v' : Z → AdminReply E) fuel offset :
  (∀ o, is_u16 o → v o = v' o) → is_u16 offset → read_listing v fuel offset = read_listing v' fuel offset.
Proof.
  intros Hv. revert offset. induction fuel as [|fuel IH]; intros offset Ho; [done|]. cbn [read_listing]. rewrite Hv by done.
  destruct (Z.land _ _ =? 0); [done|]. f_equal. apply IH. apply u16_range.
Qed.

Lemma length_client_rows registry filter directory :
  Forall (λ p, length (bindings (hp_session p)) = CLIENT_SESSION_BINDINGS_MAX) (peers directory) →
  (length (client_rows registry filter directory) ≤ 32 * length (peers directory))%nat.
Proof.
  unfold client_rows. generalize (peers directory). intros ps. induction 1 as [|p ps Hp _ IH]; [cbn; lia|]. rewrite fmap_cons. cbn [concat length].
  rewrite length_app. enough (length (peer_rows registry filter p) ≤ 32)%nat by lia. unfold peer_rows.
  repeat case_match; cbn [length]; try lia. unfold binding_rows. rewrite <- Hp. clear. induction (bindings (hp_session p)) as [|b bs IH]; cbn; [lia|].
  repeat case_match; cbn; lia.
Qed.

(** The shapes of the tables: array sizes of the C structs. *)
Record tables_shaped (registry : InterfaceRegistry) (directory : PeerDirectory) (transactions : TransactionTable) : Prop := {
  ts_peers : length (peers directory) = PEER_DIRECTORY_MAX;
  ts_bindings : Forall (λ p, length (bindings (hp_session p)) = CLIENT_SESSION_BINDINGS_MAX) (peers directory);
  ts_entries : length (entries registry) = INTERFACE_REGISTRY_MAX;
  ts_txns : length (txns transactions) = TRANSACTION_TABLE_MAX;
}.

(** The whole listing of a view. *)
Definition whole_listing {E} (view : Z → AdminReply E) (rows : list E) : Prop := read_listing view (S (length rows)) 0 = rows.

(** Listings are complete.  An administrator that asks for the next page
    while the MORE flag is set, starting each request after the entries it has,
    reads every agent that passes the filter, every interface and every
    transaction exactly once and in table order, and of the clients one row per
    open channel (one row for a client without channels when no filter is
    given); one request more than there are entries is enough. *)
Theorem admin_listings_complete (registry : InterfaceRegistry) (directory : PeerDirectory) (transactions : TransactionTable) (filter : list Z) (now_us : Z) :
  tables_shaped registry directory transactions →
  whole_listing (AdminViews_Agents registry directory filter) (fillAgentEntry registry <$> List.filter (lists_agent filter) (peers directory)) ∧
  whole_listing (AdminViews_Clients registry directory filter) (client_rows registry filter directory) ∧
  whole_listing (AdminViews_Interfaces registry directory) (fillInterfaceEntry directory <$> List.filter ie_in_use (entries registry)) ∧
  whole_listing (AdminViews_Transactions registry transactions now_us)
    (fillTransactionEntry registry now_us <$> List.filter isInUse (txns transactions)).
Proof.
  intros [Hp Hb He Ht].
  assert (∀ {A E} `{AdminEntry E} live fill (l : list A), ae_max (E := E) = 16%nat → Z.of_nat (length l) < 65536 →
    whole_listing (λ o, page_reply (page live fill (ae_max (E := E)) (Z.to_nat o) [] l)) (fill <$> List.filter live l)) as Hall.
  { intros A E ? live fill l Hmax Hl. apply read_listing_complete; [lia|]. pose proof (listed_le live fill l). unfold zlen. lia. }
  split_and!; [by apply Hall; [|lia]| |by apply Hall; [|lia]|by apply Hall; [|lia]].
  pose proof (length_client_rows registry filter directory Hb) as Hl. unfold whole_listing.
  rewrite (read_listing_ext _ _ _ _ (λ o, clients_view_page registry directory filter o)) by done.
  pose proof (Hall _ _ _ (λ _, true) id (client_rows registry filter directory) eq_refl ltac:(lia)) as Hc. unfold whole_listing in Hc.
  by rewrite list_fmap_id, filter_true in Hc.
Qed.

(** Two agents and a client without channels. *)
Definition peer_of_role (peer_id role : Z) : HubPeer := with_role (allocated_peer peer_id) role.
Definition small_directory : PeerDirectory := {| peers :=
  peer_of_role 1 kHUB_PEER_ROLE_AGENT :: peer_of_role 2 kHUB_PEER_ROLE_CLIENT :: peer_of_role 3 kHUB_PEER_ROLE_AGENT :: replicate 509 HubPeer_zero |}.

Lemma admin_listings_complete_witness :
  tables_shaped InterfaceRegistry_Reset small_directory TransactionTable_Reset ∧
  whole_listing (AdminViews_Agents InterfaceRegistry_Reset small_directory [0]) (fillAgentEntry InterfaceRegistry_Reset <$> [peer_of_role 1 kHUB_PEER_ROLE_AGENT; peer_of_role 3 kHUB_PEER_ROLE_AGENT]).
Proof.
  assert (tables_shaped InterfaceRegistry_Reset small_directory TransactionTable_Reset) as Hs.
  { split; [done| |done|done]. cbn [small_directory peers]. do 3 (apply Forall_cons; split; [done|]). by apply Forall_replicate. }
  split; [exact Hs|].
  pose proof (proj1 (admin_listings_complete InterfaceRegistry_Reset small_directory TransactionTable_Reset [0] 0 Hs)) as Ha.
  replace (List.filter (lists_agent [0]) (peers small_directory)) with [peer_of_role 1 kHUB_PEER_ROLE_AGENT; peer_of_role 3 kHUB_PEER_ROLE_AGENT] in Ha by done.
  exact Ha.
Defined.

(** ** The subscriber count is one byte *)

(** A client with an open channel on interface 7. *)
Definition subscriber (peer_id : Z) : HubPeer :=
  let p := peer_of_role peer_id kHUB_PEER_ROLE_CLIENT in
  let b := {| cb_in_use := true; cb_dormant := false; cb_suppress_echo := false; cb_can_write := false; cb_reliable := false; cb_error_frames := false;
              cb_interface_id := 7; cb_channel := 0; cb_filter_count := 0; cb_frames_forwarded := 0; cb_frames_dropped := 0;
              cb_agent_name := replicate 128 0; cb_interface_name := replicate 16 0; cb_filters := replicate 16 SubscribeMessage.CanFilter_zero |} in
  {| hp_in_use := true; hp_local := hp_local p; hp_send_failed := hp_send_failed p; hp_vouched := hp_vouched p; hp_peer_id := peer_id;
     hp_capabilities := hp_capabilities p; hp_role := kHUB_PEER_ROLE_CLIENT; hp_transport_kind := hp_transport_kind p;
     hp_hello_deadline_us := hp_hello_deadline_us p; hp_connected_at_us := hp_connected_at_us p; hp_frames_forwarded := 0; hp_frames_dropped := 0;
     hp_fingerprint_hex := hp_fingerprint_hex p; hp_agent_name := hp_agent_name p; hp_origin := hp_origin p; hp_origin_host := hp_origin_host p;
     hp_session := {| bindings := b :: drop 1 (bindings (hp_session p)); next_channel := 1 |}; hp_echo_tokens := hp_echo_tokens p;
     hp_egress := hp_egress p |}.

(** The directory holds 512 peers but the count is a byte: 256 subscribers are shown as none. *)
Lemma subscriber_count_wraps :
  let directory := {| peers := (subscriber <$> seqZ 1 256) ++ replicate 256 HubPeer_zero |} in
  length (peers directory) = PEER_DIRECTORY_MAX ∧ countb (subscribes 7) (peers directory) = 256 ∧ countSubscribers directory 7 = 0.
Proof. intros directory. assert (countb (subscribes 7) (peers directory) = 256) as Hc by (by vm_compute). split_and!; [done|done|]. unfold countSubscribers. by rewrite Hc. Qed.
