(* ===== verification/BrokerState.v ===== *)
(** * The broker's state, its ports and the effect monad (src/hub/broker.h, src/hub/ports)

    The broker owns the tables of the hub and talks to the outside through four
    ports.  The ports are code of the platform: here they are a parameter, one
    function per operation from the history of calls made so far (and of the
    events that arrived) to the answer.  A handler is a computation [Hub A] over
    the broker's state and that history; a [HubPeer *] is the index of the peer's
    slot, read again at every access, as the code does. *)

From Stdlib Require Import Ascii String.
From S2P Require Import Prelude Slots CString Wire Codec HelloMessage RegisterMessage OpenMessage SubscribeMessage FrameMessage TxnMessage IfconfigMessage EchoTokens EgressQueue ClientSession InterfaceRegistry BridgeRoutes BridgeGroups.
From S2P Require Import TransactionTable PeerDirectory RejectedPeers AdminMessage.

Notation CONTROL_BUFFER_SIZE := 4096%nat (only parsing).
Notation BROKER_PENDING_IFCONFIG_MAX := 16%nat (only parsing).
Definition kERROR_CODE_MALFORMED : Z := 1.
Definition kERROR_CODE_ROLE_REJECTED : Z := 2.
Definition kERROR_CODE_HUB_FULL : Z := 3.
Definition kERROR_CODE_HELLO_TIMEOUT : Z := 4.
Definition kERROR_CODE_KICKED : Z := 5.
Definition kERROR_CODE_SLOW_CONSUMER : Z := 6.

(** ** The state *)

Record HubMetrics := {
  hm_frames_received : Z; hm_frames_forwarded : Z; hm_frames_dropped : Z; hm_frames_unroutable : Z; hm_transactions : TransactionCounters;
}.

Record PendingIfconfig := {
  pi_in_use : bool; pi_requester_peer_id : Z; pi_agent_peer_id : Z; pi_interface_id : Z; pi_request_id : Z;
}.

Definition PendingIfconfig_zero : PendingIfconfig :=
  {| pi_in_use := false; pi_requester_peer_id := 0; pi_agent_peer_id := 0; pi_interface_id := 0; pi_request_id := 0 |}.

#[export] Instance PendingIfconfig_slot : Slot PendingIfconfig :=
  {| slot_in_use := pi_in_use; slot_zero := PendingIfconfig_zero; slot_zero_free := eq_refl |}.

(** The broker without its ports; the two scratch arrays ([bridge_targets], [frame_routes]) are local values. *)
Record Broker := {
  bk_registry : InterfaceRegistry;
  bk_bridges : BridgeRoutes;
  bk_groups : BridgeGroups;
  bk_directory : PeerDirectory;
  bk_metrics : HubMetrics;
  bk_pending_ifconfig : list PendingIfconfig;
  bk_transactions : TransactionTable;
  bk_next_ifconfig_request_id : Z;
  bk_rejected_peers : RejectedPeers;
  bk_require_known_peers : bool;
  bk_now_us : Z;
}.

Definition HubMetrics_zero : HubMetrics := {|
  hm_frames_received := 0; hm_frames_forwarded := 0; hm_frames_dropped := 0; hm_frames_unroutable := 0;
  hm_transactions := {| tc_started := 0; tc_completed := 0; tc_aborted := 0; tc_rejected := 0; tc_steps_completed := 0;
                        tc_lease_frame_drops := 0 |} |}.

(** Field updates. *)
Definition set_registry (b : Broker) (r : InterfaceRegistry) : Broker :=
  {| bk_registry := r; bk_bridges := bk_bridges b; bk_groups := bk_groups b; bk_directory := bk_directory b; bk_metrics := bk_metrics b;
     bk_pending_ifconfig := bk_pending_ifconfig b; bk_transactions := bk_transactions b;
     bk_next_ifconfig_request_id := bk_next_ifconfig_request_id b; bk_rejected_peers := bk_rejected_peers b;
     bk_require_known_peers := bk_require_known_peers b; bk_now_us := bk_now_us b |}.
Definition set_rules (b : Broker) (bridges : BridgeRoutes) (groups : BridgeGroups) : Broker :=
  {| bk_registry := bk_registry b; bk_bridges := bridges; bk_groups := groups; bk_directory := bk_directory b; bk_metrics := bk_metrics b;
     bk_pending_ifconfig := bk_pending_ifconfig b; bk_transactions := bk_transactions b;
     bk_next_ifconfig_request_id := bk_next_ifconfig_request_id b; bk_rejected_peers := bk_rejected_peers b;
     bk_require_known_peers := bk_require_known_peers b; bk_now_us := bk_now_us b |}.
Definition set_directory (b : Broker) (d : PeerDirectory) : Broker :=
  {| bk_registry := bk_registry b; bk_bridges := bk_bridges b; bk_groups := bk_groups b; bk_directory := d; bk_metrics := bk_metrics b;
     bk_pending_ifconfig := bk_pending_ifconfig b; bk_transactions := bk_transactions b;
     bk_next_ifconfig_request_id := bk_next_ifconfig_request_id b; bk_rejected_peers := bk_rejected_peers b;
     bk_require_known_peers := bk_require_known_peers b; bk_now_us := bk_now_us b |}.
Definition set_metrics (b : Broker) (m : HubMetrics) : Broker :=
  {| bk_registry := bk_registry b; bk_bridges := bk_bridges b; bk_groups := bk_groups b; bk_directory := bk_directory b; bk_metrics := m;
     bk_pending_ifconfig := bk_pending_ifconfig b; bk_transactions := bk_transactions b;
     bk_next_ifconfig_request_id := bk_next_ifconfig_request_id b; bk_rejected_peers := bk_rejected_peers b;
     bk_require_known_peers := bk_require_known_peers b; bk_now_us := bk_now_us b |}.
Definition set_pending (b : Broker) (p : list PendingIfconfig) (next : Z) : Broker :=
  {| bk_registry := bk_registry b; bk_bridges := bk_bridges b; bk_groups := bk_groups b; bk_directory := bk_directory b;
     bk_metrics := bk_metrics b; bk_pending_ifconfig := p; bk_transactions := bk_transactions b;
     bk_next_ifconfig_request_id := next; bk_rejected_peers := bk_rejected_peers b;
     bk_require_known_peers := bk_require_known_peers b; bk_now_us := bk_now_us b |}.
Definition set_transactions (b : Broker) (t : TransactionTable) : Broker :=
  {| bk_registry := bk_registry b; bk_bridges := bk_bridges b; bk_groups := bk_groups b; bk_directory := bk_directory b;
     bk_metrics := bk_metrics b; bk_pending_ifconfig := bk_pending_ifconfig b; bk_transactions := t;
     bk_next_ifconfig_request_id := bk_next_ifconfig_request_id b; bk_rejected_peers := bk_rejected_peers b;
     bk_require_known_peers := bk_require_known_peers b; bk_now_us := bk_now_us b |}.
Definition set_rejected (b : Broker) (r : RejectedPeers) : Broker :=
  {| bk_registry := bk_registry b; bk_bridges := bk_bridges b; bk_groups := bk_groups b; bk_directory := bk_directory b;
     bk_metrics := bk_metrics b; bk_pending_ifconfig := bk_pending_ifconfig b; bk_transactions := bk_transactions b;
     bk_next_ifconfig_request_id := bk_next_ifconfig_request_id b; bk_rejected_peers := r;
     bk_require_known_peers := bk_require_known_peers b; bk_now_us := bk_now_us b |}.
Definition set_now (b : Broker) (now_us : Z) : Broker :=
  {| bk_registry := bk_registry b; bk_bridges := bk_bridges b; bk_groups := bk_groups b; bk_directory := bk_directory b;
     bk_metrics := bk_metrics b; bk_pending_ifconfig := bk_pending_ifconfig b; bk_transactions := bk_transactions b;
     bk_next_ifconfig_request_id := bk_next_ifconfig_request_id b; bk_rejected_peers := bk_rejected_peers b;
     bk_require_known_peers := bk_require_known_peers b; bk_now_us := now_us |}.

(** Field updates of a peer: what the broker writes through a [HubPeer *]. *)
Definition peer_with (p : HubPeer) (send_failed vouched : bool) (capabilities deadline forwarded dropped : Z) (session : ClientSession)
    (tokens : EchoTokens) (egress : EgressQueue) : HubPeer := {|
  hp_in_use := hp_in_use p; hp_local := hp_local p; hp_send_failed := send_failed; hp_vouched := vouched; hp_peer_id := hp_peer_id p;
  hp_capabilities := capabilities; hp_role := hp_role p; hp_transport_kind := hp_transport_kind p; hp_hello_deadline_us := deadline;
  hp_connected_at_us := hp_connected_at_us p; hp_frames_forwarded := forwarded; hp_frames_dropped := dropped;
  hp_fingerprint_hex := hp_fingerprint_hex p; hp_agent_name := hp_agent_name p; hp_origin := hp_origin p;
  hp_origin_host := hp_origin_host p; hp_session := session; hp_echo_tokens := tokens; hp_egress := egress |}.
Definition set_send_failed (p : HubPeer) : HubPeer :=
  peer_with p true (hp_vouched p) (hp_capabilities p) (hp_hello_deadline_us p) (hp_frames_forwarded p) (hp_frames_dropped p)
    (hp_session p) (hp_echo_tokens p) (hp_egress p).
Definition set_vouched (v : bool) (p : HubPeer) : HubPeer :=
  peer_with p (hp_send_failed p) v (hp_capabilities p) (hp_hello_deadline_us p) (hp_frames_forwarded p) (hp_frames_dropped p)
    (hp_session p) (hp_echo_tokens p) (hp_egress p).
Definition set_capabilities (c : Z) (p : HubPeer) : HubPeer :=
  peer_with p (hp_send_failed p) (hp_vouched p) c (hp_hello_deadline_us p) (hp_frames_forwarded p) (hp_frames_dropped p)
    (hp_session p) (hp_echo_tokens p) (hp_egress p).
Definition set_deadline (t : Z) (p : HubPeer) : HubPeer :=
  peer_with p (hp_send_failed p) (hp_vouched p) (hp_capabilities p) t (hp_frames_forwarded p) (hp_frames_dropped p)
    (hp_session p) (hp_echo_tokens p) (hp_egress p).
Definition on_session (f : ClientSession → ClientSession) (p : HubPeer) : HubPeer :=
  peer_with p (hp_send_failed p) (hp_vouched p) (hp_capabilities p) (hp_hello_deadline_us p) (hp_frames_forwarded p)
    (hp_frames_dropped p) (f (hp_session p)) (hp_echo_tokens p) (hp_egress p).
Definition on_tokens (f : EchoTokens → EchoTokens) (p : HubPeer) : HubPeer :=
  peer_with p (hp_send_failed p) (hp_vouched p) (hp_capabilities p) (hp_hello_deadline_us p) (hp_frames_forwarded p)
    (hp_frames_dropped p) (hp_session p) (f (hp_echo_tokens p)) (hp_egress p).
Definition on_egress (f : EgressQueue → EgressQueue) (p : HubPeer) : HubPeer :=
  peer_with p (hp_send_failed p) (hp_vouched p) (hp_capabilities p) (hp_hello_deadline_us p) (hp_frames_forwarded p)
    (hp_frames_dropped p) (hp_session p) (hp_echo_tokens p) (f (hp_egress p)).

(** ** The ports *)

Record IdentityPin := { ip_agent_name : list Z; ip_fingerprint_hex : list Z }.
#[export] Instance IdentityPin_inhabited : Inhabited IdentityPin := populate {| ip_agent_name := replicate 128 0; ip_fingerprint_hex := replicate 65 0 |}.

Record AclEntry := {
  acl_fingerprint_hex : list Z; acl_agent_name : list Z; acl_interface_name : list Z; acl_can_read : bool; acl_can_write : bool; acl_can_admin : bool;
}.
#[export] Instance AclEntry_inhabited : Inhabited AclEntry := populate {|
  acl_fingerprint_hex := replicate 65 0; acl_agent_name := replicate 128 0; acl_interface_name := replicate 16 0; acl_can_read := false;
  acl_can_write := false; acl_can_admin := false |}.

(** What the broker asks of its ports, and the mark of an event's arrival. *)
Inductive call :=
| EventArrived
| SendControl (peer_id : Z) (data : list Z)
| SendFrame (peer_id channel : Z) (data : list Z)
| SetChannelMode (peer_id channel : Z) (reliable : bool)
| ClosePeer (peer_id : Z)
| PinIdentity (agent_name fingerprint_hex : list Z)
| EnrollIdentity (agent_name fingerprint_hex : list Z)
| ForgetIdentity (agent_name : list Z)
| GrantAccess (entry : AclEntry)
| RevokeAccess (fingerprint_hex agent_name interface_name : list Z)
| SaveRoute (route : BridgeRoute)
| RemoveRoute (source destination : BridgeEndpoint)
| SaveGroup (group : BridgeGroup)
| RemoveGroup (name : list Z)
| AddMember (name : list Z) (member : BridgeGroupMember)
| RemoveMember (name : list Z) (member : BridgeEndpoint).

(** Latest call first. *)
Notation history := (list call) (only parsing).

Record IdentityStorePort := {
  id_lookup : history → list Z → option (list Z);
  id_knows : history → list Z → bool;
  id_count_first_contact : history → Z;
  id_pin : history → list Z → list Z → bool;
  id_enroll : history → list Z → list Z → bool;
  id_forget : history → list Z → bool;
  (** From an offset, at most so many: how many, the array, whether there are more. *)
  id_list : history → Z → Z → Z * list IdentityPin * bool;
}.

Record AuthorizationPort := {
  read_allowed : history → list Z → list Z → list Z → bool;
  write_allowed : history → list Z → list Z → list Z → bool;
  admin_allowed : history → list Z → list Z → list Z → bool;
  auth_knows : history → list Z → bool;
  auth_grant : history → AclEntry → bool;
  auth_revoke : history → list Z → list Z → list Z → bool;
  auth_list : history → Z → Z → Z * list AclEntry * bool;
}.

Record BridgeStorePort := {
  bs_save : history → BridgeRoute → bool;
  bs_remove : history → BridgeEndpoint → BridgeEndpoint → bool;
  bs_load : nat → option BridgeRoute;
  bs_save_group : history → BridgeGroup → bool;
  bs_remove_group : history → list Z → bool;
  bs_add_member : history → list Z → BridgeGroupMember → bool;
  bs_remove_member : history → list Z → BridgeEndpoint → bool;
  bs_load_group : nat → option BridgeGroup;
}.

Class HubPorts := {
  pt_send_control : history → Z → list Z → bool;
  pt_send_frame : history → Z → Z → list Z → bool;
  pt_frame_fits : history → Z → Z → nat → bool;
  pt_channel_reliable : history → Z → Z → bool;
  pt_receive_overflows : history → Z;
  pt_identity_store : option IdentityStorePort;
  pt_authorization : option AuthorizationPort;
  pt_bridge_store : option BridgeStorePort;
}.

(** ** The monad *)
Record HubState := { hs_broker : Broker; hs_calls : list call }.

Definition Hub (A : Type) : Type := HubState → A * HubState.
#[export] Instance Hub_ret : MRet Hub := λ A a s, (a, s).
#[export] Instance Hub_bind : MBind Hub := λ A B f m s, let '(a, s') := m s in f a s'.

Definition gets {A} (f : Broker → A) : Hub A := λ s, (f (hs_broker s), s).
Definition asks {A} (f : history → A) : Hub A := λ s, (f (hs_calls s), s).
Definition modify (f : Broker → Broker) : Hub () := λ s, ((), {| hs_broker := f (hs_broker s); hs_calls := hs_calls s |}).
(** A call whose answer is [ask] of the history before it.  The port returns
    before anything else happens: a transport that loses a peer while sending to
    it answers false, and its disconnection is a later event.  (The transports of
    src/platform/linux can also call [on_peer_disconnected] from inside a send
    whose flush fails; that nesting is not modelled.) *)
Definition perform {A} (ask : history → A) (c : call) : Hub A :=
  λ s, (ask (hs_calls s), {| hs_broker := hs_broker s; hs_calls := c :: hs_calls s |}).
Definition skip : Hub () := mret ().
Definition when (b : bool) (m : Hub ()) : Hub () := if b then m else skip.
Definition with_some {A} (o : option A) (m : A → Hub ()) : Hub () := match o with Some a => m a | None => skip end.

(** [for (i = from; i < from + n; i++) body(i);] *)
Fixpoint for_range (from n : nat) (body : nat → Hub ()) : Hub () :=
  match n with
  | O => skip
  | S n' => body from;; for_range (S from) n' body
  end.

(** [while (step()) ;]: [step] answers whether it did something; the fuel bounds the turns. *)
Fixpoint repeat_while (fuel : nat) (step : Hub bool) : Hub () :=
  match fuel with
  | O => skip
  | S fuel' => again ← step; if (again : bool) then repeat_while fuel' step else skip
  end.

(** ** Reading and writing the tables *)
Definition peer_at (i : nat) : Hub HubPeer := gets (λ b, peers (bk_directory b) !!! i).
Definition live_at (i : nat) : Hub (option HubPeer) := gets (λ b, PeerDirectory_At (bk_directory b) i).
Definition find_peer (peer_id : Z) : Hub (option nat) := gets (λ b, PeerDirectory_Find (bk_directory b) peer_id).
Definition update_peer (i : nat) (f : HubPeer → HubPeer) : Hub () :=
  modify (λ b, set_directory b {| peers := alter f i (peers (bk_directory b)) |}).

(** [for (i = 0; i < PEER_DIRECTORY_MAX; i++) { peer = PeerDirectory_At(i); if (peer == NULL) continue; body }] *)
Definition for_peers (body : nat → HubPeer → Hub ()) : Hub () :=
  for_range 0 PEER_DIRECTORY_MAX (λ i, p ← live_at i; with_some p (body i)).

Definition txn_at (t : nat) : Hub RelayedTransaction := gets (λ b, txns (bk_transactions b) !!! t).
Definition update_txn (t : nat) (f : RelayedTransaction → RelayedTransaction) : Hub () :=
  modify (λ b, set_transactions b {| txns := alter f t (txns (bk_transactions b)); active_leases := active_leases (bk_transactions b) |}).

Definition count_metric (f : HubMetrics → HubMetrics) : Hub () := modify (λ b, set_metrics b (f (bk_metrics b))).
Definition metrics_with (m : HubMetrics) (received forwarded dropped unroutable : Z) : HubMetrics := {|
  hm_frames_received := received; hm_frames_forwarded := forwarded; hm_frames_dropped := dropped; hm_frames_unroutable := unroutable;
  hm_transactions := hm_transactions m |}.
Definition add_received (m : HubMetrics) : HubMetrics :=
  metrics_with m (u64 (hm_frames_received m + 1)) (hm_frames_forwarded m) (hm_frames_dropped m) (hm_frames_unroutable m).
Definition add_forwarded (m : HubMetrics) : HubMetrics :=
  metrics_with m (hm_frames_received m) (u64 (hm_frames_forwarded m + 1)) (hm_frames_dropped m) (hm_frames_unroutable m).
Definition add_dropped (n : Z) (m : HubMetrics) : HubMetrics :=
  metrics_with m (hm_frames_received m) (hm_frames_forwarded m) (u64 (hm_frames_dropped m + n)) (hm_frames_unroutable m).
Definition add_unroutable (m : HubMetrics) : HubMetrics :=
  metrics_with m (hm_frames_received m) (hm_frames_forwarded m) (hm_frames_dropped m) (u64 (hm_frames_unroutable m + 1)).
Definition add_txns (started completed aborted rejected steps drops : Z) (m : HubMetrics) : HubMetrics :=
  let t := hm_transactions m in
  {| hm_frames_received := hm_frames_received m; hm_frames_forwarded := hm_frames_forwarded m; hm_frames_dropped := hm_frames_dropped m;
     hm_frames_unroutable := hm_frames_unroutable m;
     hm_transactions := {| tc_started := u64 (tc_started t + started); tc_completed := u64 (tc_completed t + completed);
       tc_aborted := u64 (tc_aborted t + aborted); tc_rejected := u64 (tc_rejected t + rejected);
       tc_steps_completed := u64 (tc_steps_completed t + steps); tc_lease_frame_drops := u64 (tc_lease_frame_drops t + drops) |} |}.
Definition add_started := add_txns 1 0 0 0 0 0.
Definition add_completed := add_txns 0 1 0 0 0 0.
Definition add_aborted := add_txns 0 0 1 0 0 0.
Definition add_rejected := add_txns 0 0 0 1 0 0.
Definition add_steps (n : Z) := add_txns 0 0 0 0 n 0.
Definition add_lease_drop := add_txns 0 0 0 0 0 1.
