(* ===== verification/BrokerPeers.v ===== *)
(** * The broker: control plane of the peers (src/hub/broker.c)

    Connections, HELLO and REGISTER, channels, interface configuration, the
    relayed transactions, and what a disconnection releases.  Every function of
    the C file is one definition of the same name; [self] is the state of the
    monad, a [HubPeer *] or [RelayedTransaction *] its slot. *)

From Stdlib Require Import String.
From S2P Require Import Prelude Slots CString Wire Codec HelloMessage RegisterMessage OpenMessage SubscribeMessage ListMessage FrameMessage TxnMessage IfconfigMessage ControlPlane EchoTokens EgressShaper EgressQueue ClientSession.
From S2P Require Import InterfaceRegistry BridgeRoutes BridgeGroups TransactionTable PeerDirectory RejectedPeers BrokerState.

Definition ADMIN_REJECTED_REASON_NOT_ALLOWED : Z := 0.
Definition ADMIN_REJECTED_REASON_FINGERPRINT_MISMATCH : Z := 1.
Definition TRANSACTION_NO_CLIENT : Z := 0.
Definition TRANSACTION_RELAY_WINDOW_MAX : Z := 49152.
Definition PING_REPLY_FLAG : Z := 1.
Definition HELLO_TIMEOUT_US : Z := 5000000.
Definition AWAITING_HELLO_MAX : Z := 256.
Definition AWAITING_HELLO_PER_HOST_MAX : Z := 4.
Definition FIRST_CONTACT_PINS_MAX : Z := 1024.
Definition TXN_STEPS_FIXED_FIELDS_SIZE : Z := 12.
Definition BRIDGE_GROUP_AGENT_NAME : list Z := lit "group".

(** [uint8_t encoded[CONTROL_BUFFER_SIZE]]: the encoders write every byte they send. *)
Definition encoded : list Z := replicate CONTROL_BUFFER_SIZE 0.

Record HubPeerConnectInfo := {
  ci_fingerprint_hex : option (list Z);
  ci_origin : option (list Z);
  ci_origin_host : option (list Z);
  ci_transport_kind : Z;
  ci_local : bool;
}.

Section broker.
Context `{ports : HubPorts}.

(** ** Sending *)

(** [send_control] answers and returns: the peer's slot is still there when its
    failure is noted (see [perform]). *)
Definition sendControl (peer : nat) (message : nat * list Z) : Hub () :=
  let '(encoded_size, buffer) := message in
  if Nat.eqb encoded_size 0 then skip
  else
    p ← peer_at peer;
    let data := take encoded_size buffer in
    sent ← perform (λ h, pt_send_control h (hp_peer_id p) data) (SendControl (hp_peer_id p) data);
    if (sent : bool) then skip else update_peer peer set_send_failed.

Definition sendError (peer_id code : Z) (detail : list Z) : Hub () :=
  let '(encoded_size, buffer) :=
    ErrorMessage_Encode {| error_code := code; error_detail := BoundedString_Copy (replicate 64 0) (Some detail) |} encoded in
  let data := take encoded_size buffer in
  perform (λ h, pt_send_control h peer_id data) (SendControl peer_id data);; skip.

Definition set_channel_mode (peer_id channel : Z) (reliable : bool) : Hub () :=
  perform (λ _, ()) (SetChannelMode peer_id channel reliable).
Definition close_peer (peer_id : Z) : Hub () := perform (λ _, ()) (ClosePeer peer_id).

(** ** Authorization *)

Definition clientCanRead (p : HubPeer) (entry : InterfaceEntry) : Hub bool :=
  if negb (is_named (hp_fingerprint_hex p)) then mret true
  else match pt_authorization with
       | None => mret true
       | Some auth => asks (λ h, read_allowed auth h (hp_fingerprint_hex p) (ie_agent_name entry) (ie_interface_name entry))
       end.

Definition clientCanWrite (p : HubPeer) (entry : InterfaceEntry) : Hub bool :=
  if negb (is_named (hp_fingerprint_hex p)) then mret true
  else match pt_authorization with
       | None => mret true
       | Some auth => asks (λ h, write_allowed auth h (hp_fingerprint_hex p) (ie_agent_name entry) (ie_interface_name entry))
       end.

Definition peerCanConfigure (p : HubPeer) (entry : InterfaceEntry) : Hub bool :=
  if hp_role p =? kHUB_PEER_ROLE_ADMIN then mret true
  else if negb (is_named (hp_fingerprint_hex p)) then mret true
  else match pt_authorization with
       | None => mret true
       | Some auth => asks (λ h, admin_allowed auth h (hp_fingerprint_hex p) (ie_agent_name entry) (ie_interface_name entry))
       end.

(** ** Leases *)

Definition leasedToAnother (b : Broker) (interface_id client_peer_id : Z) : bool :=
  match TransactionTable_LeaseHolder (bk_transactions b) interface_id with
  | None => false
  | Some holder_peer_id => negb (holder_peer_id =? client_peer_id)
  end.

(** INTERFACE_STATUS with one entry. *)
Definition pace_message (channel pace_rate : Z) (leased : bool) : InterfaceStatusMessage :=
  {| ism_interface_count := 1;
     ism_entries := {| ise_channel := channel; ise_flags := if leased then INTERFACE_STATUS_FLAG_LEASED else 0;
                       ise_advertised_rate := pace_rate; ise_credit := 0; ise_tx_dropped := 0 |}
                    :: replicate 15 {| ise_channel := 0; ise_flags := 0; ise_advertised_rate := 0; ise_credit := 0; ise_tx_dropped := 0 |} |}.

Definition relayPaceToClients (interface_id pace_rate : Z) : Hub () :=
  for_peers (λ i p,
    if negb (hp_role p =? kHUB_PEER_ROLE_CLIENT) then skip
    else match ClientSession_ChannelForInterface (hp_session p) interface_id with
         | None => skip
         | Some channel =>
             leased ← gets (λ b, leasedToAnother b interface_id (hp_peer_id p));
             sendControl i (InterfaceStatusMessage_Encode (pace_message channel pace_rate leased) encoded)
         end).

Definition announceLease (interface_id : Z) : Hub () :=
  entry ← gets (λ b, InterfaceRegistry_FindById (bk_registry b) interface_id);
  with_some entry (λ e, relayPaceToClients interface_id (rate_bits_per_s (ie_shaper e))).

(** ** Ending transactions *)

Definition sendTxnAbort (agent : nat) (channel txn_id : Z) : Hub () :=
  sendControl agent (TxnAbortMessage_Encode {| tab_channel := channel; tab_txn_id := txn_id |} encoded).

Definition status_message (t : RelayedTransaction) (reason : Z) : TxnStatusMessage :=
  {| ts_channel := rt_client_channel t; ts_state := kTXN_STATE_ABORTED; ts_txn_id := rt_txn_id t; ts_failing_seq := rt_completed_steps t;
     ts_offending_origin := 0; ts_seen_bitmap := 0; ts_expected := 0; ts_got := 0; ts_completed_steps := rt_completed_steps t;
     ts_reason := reason; ts_flags := 0;
     ts_rx_frame := {| trx_can_id := 0; trx_payload_length := 0; trx_frame_flags := 0; trx_payload := replicate 64 0 |} |}.

Definition sendTxnStatus (client : option nat) (t : RelayedTransaction) (reason : Z) : Hub () :=
  with_some client (λ c, sendControl c (TxnStatusMessage_Encode (status_message t reason) encoded)).

Definition finishTransaction (transaction : nat) : Hub () :=
  t ← txn_at transaction;
  modify (λ b, set_transactions b (TransactionTable_Close (bk_transactions b) transaction));;
  when (rt_exclusive t && bool_decide (rt_state t = kTRANSACTION_RELAY_STATE_ACTIVE)) (announceLease (rt_interface_id t)).

Definition set_client (client_peer_id : Z) (t : RelayedTransaction) : RelayedTransaction := {|
  rt_state := rt_state t; rt_exclusive := rt_exclusive t; rt_txn_id := rt_txn_id t; rt_interface_id := rt_interface_id t;
  rt_agent_peer_id := rt_agent_peer_id t; rt_agent_channel := rt_agent_channel t; rt_client_peer_id := client_peer_id;
  rt_client_channel := rt_client_channel t; rt_started_at_us := rt_started_at_us t; rt_last_progress_us := rt_last_progress_us t;
  rt_completed_steps := rt_completed_steps t; rt_relayed_bytes := rt_relayed_bytes t; rt_consumed_bytes := rt_consumed_bytes t |}.

Definition abandonTransaction (transaction : nat) : Hub () :=
  t ← txn_at transaction;
  if bool_decide (rt_state t = kTRANSACTION_RELAY_STATE_PENDING) then update_txn transaction (set_client TRANSACTION_NO_CLIENT)
  else
    agent ← find_peer (rt_agent_peer_id t);
    with_some agent (λ a, sendTxnAbort a (rt_agent_channel t) (rt_txn_id t));;
    count_metric add_aborted;;
    finishTransaction transaction.

(** [while ((transaction = TransactionTable_NextForClient(client, &iterator)) != NULL) abandonTransaction(transaction);]
    The iterator passes one slot at least each turn. *)
Fixpoint abandon_from (fuel : nat) (client_peer_id : Z) (iterator : nat) : Hub () :=
  match fuel with
  | O => skip
  | S fuel' =>
      found ← gets (λ b, TransactionTable_NextForClient (bk_transactions b) client_peer_id iterator);
      match found with
      | (None, _) => skip
      | (Some t, iterator) => abandonTransaction t;; abandon_from fuel' client_peer_id iterator
      end
  end.
Definition abandonClientTransactions (client_peer_id : Z) : Hub () := abandon_from (TRANSACTION_TABLE_MAX + 1) client_peer_id 0.

Definition failAgentTransaction (agent_peer_id : Z) : Hub () :=
  transaction ← gets (λ b, TransactionTable_ForAgent (bk_transactions b) agent_peer_id);
  with_some transaction (λ i,
    t ← txn_at i;
    client ← find_peer (rt_client_peer_id t);
    sendTxnStatus client t kTXN_REASON_AGENT_DISCONNECTED;;
    count_metric (if bool_decide (rt_state t = kTRANSACTION_RELAY_STATE_ACTIVE) then add_aborted else add_rejected);;
    finishTransaction i).

(** ** Channels *)

(** Does a live client hold a reliable channel on the interface? *)
Definition holds_reliable (interface_id : Z) (p : HubPeer) : bool :=
  hp_in_use p && (hp_role p =? kHUB_PEER_ROLE_CLIENT) && ClientSession_HoldsReliable (hp_session p) interface_id.

Definition revertAgentChannelIfUnused (interface_id : Z) : Hub () :=
  entry ← gets (λ b, InterfaceRegistry_FindById (bk_registry b) interface_id);
  with_some entry (λ e,
    if InterfaceEntry_IsVirtual e then skip
    else
      held ← gets (λ b, existsb (holds_reliable interface_id) (peers (bk_directory b)));
      if (held : bool) then skip else set_channel_mode (ie_agent_peer_id e) (ie_agent_channel e) false).

Definition closeClientChannel (client : nat) (channel : Z) : Hub () :=
  p ← peer_at client;
  with_some (ClientSession_BindingForChannel (hp_session p) channel) (λ binding,
    transaction ← gets (λ b, TransactionTable_ForClientChannel (bk_transactions b) (hp_peer_id p) channel);
    with_some transaction abandonTransaction;;
    p ← peer_at client;
    let closed := bindings (hp_session p) !!! binding in
    update_peer client (on_session (λ s, ClientSession_CloseChannel s channel));;
    if negb (cb_reliable closed) then skip
    else set_channel_mode (hp_peer_id p) channel false;; revertAgentChannelIfUnused (cb_interface_id closed)).

(** Each turn closes a channel: one more than the bindings is enough. *)
Definition removeClientInterface (client : nat) (interface_id : Z) : Hub () :=
  repeat_while (CLIENT_SESSION_BINDINGS_MAX + 1) (
    p ← peer_at client;
    match ClientSession_ChannelForInterface (hp_session p) interface_id with
    | None => mret false
    | Some channel => closeClientChannel client channel;; mret true
    end).

(** Each turn takes a binding. *)
Definition releaseReliableBindings (client : nat) : Hub () :=
  repeat_while (CLIENT_SESSION_BINDINGS_MAX + 1) (
    p ← peer_at client;
    match ClientSession_TakeReliableBinding (hp_session p) with
    | (None, session) => update_peer client (on_session (λ _, session));; mret false
    | (Some interface_id, session) =>
        update_peer client (on_session (λ _, session));; revertAgentChannelIfUnused interface_id;; mret true
    end).

Definition releaseEchoTokens (client_peer_id : Z) : Hub () :=
  for_peers (λ i p,
    if hp_role p =? kHUB_PEER_ROLE_AGENT then update_peer i (on_tokens (λ t, EchoTokens_ReleaseClient t client_peer_id)) else skip).

(** ** Agents going and coming *)

Definition detachInterface (entry : InterfaceEntry) : Hub () :=
  for_peers (λ i p,
    if hp_role p =? kHUB_PEER_ROLE_CLIENT
    then update_peer i (on_session (λ s, ClientSession_DetachInterface s (ie_interface_id entry))) else skip).

(** [for (i = 0; i < INTERFACE_REGISTRY_MAX; i++) if (entries[i] is the agent's) body(entries[i]);] *)
Definition for_entries_of (agent_peer_id : Z) (body : InterfaceEntry → Hub ()) : Hub () :=
  for_range 0 INTERFACE_REGISTRY_MAX (λ i,
    entry ← gets (λ b, entries (bk_registry b) !!! i);
    if of_peer agent_peer_id entry then body entry else skip).

Definition detachAgent (agent_peer_id : Z) : Hub () :=
  for_entries_of agent_peer_id detachInterface;;
  modify (λ b, set_registry b (InterfaceRegistry_RemovePeer (bk_registry b) agent_peer_id)).

Definition reattachInterface (entry : InterfaceEntry) : Hub () :=
  for_peers (λ i p,
    if negb (hp_role p =? kHUB_PEER_ROLE_CLIENT) then skip
    else
      can_write ← clientCanWrite p entry;
      let '(reattached, session) :=
        ClientSession_ReattachInterface (hp_session p) (ie_agent_name entry) (ie_interface_name entry) (ie_interface_id entry) can_write in
      update_peer i (on_session (λ _, session));;
      if negb reattached then skip
      else
        can_read ← clientCanRead p entry;
        if negb can_read then removeClientInterface i (ie_interface_id entry)
        else
          match ClientSession_ChannelForInterface session (ie_interface_id entry) with
          | None => skip
          | Some channel =>
              when (ClientSession_ChannelReliable session channel)
                (set_channel_mode (ie_agent_peer_id entry) (ie_agent_channel entry) true)
          end).

Definition reattachClientsToAgent (agent_peer_id : Z) : Hub () := for_entries_of agent_peer_id reattachInterface.

(** ** Interface configuration *)

Definition replyConfigure (peer : nat) (status : Z) : Hub () :=
  sendControl peer (ConfigureReplyMessage_Encode {| cfr_status := status; cfr_settings := settings0; cfr_detail := replicate 64 0 |} encoded).

Definition rememberPendingIfconfig (requester_peer_id : Z) (entry : InterfaceEntry) : Hub (option Z) :=
  b ← gets id;
  match free_slot (bk_pending_ifconfig b) with
  | None => mret None
  | Some i =>
      let request_id := u32 (bk_next_ifconfig_request_id b + 1) in
      modify (λ b, set_pending b (<[i := {| pi_in_use := true; pi_requester_peer_id := requester_peer_id;
          pi_agent_peer_id := ie_agent_peer_id entry; pi_interface_id := ie_interface_id entry; pi_request_id := request_id |}]>
        (bk_pending_ifconfig b)) request_id);;
      mret (Some request_id)
  end.

Definition set_unused (p : PendingIfconfig) : PendingIfconfig :=
  {| pi_in_use := false; pi_requester_peer_id := pi_requester_peer_id p; pi_agent_peer_id := pi_agent_peer_id p;
     pi_interface_id := pi_interface_id p; pi_request_id := pi_request_id p |}.

Definition drop_pending (i : nat) : Hub () :=
  modify (λ b, set_pending b (alter set_unused i (bk_pending_ifconfig b)) (bk_next_ifconfig_request_id b)).

Definition takePendingIfconfig (agent_peer_id request_id : Z) : Hub (option PendingIfconfig) :=
  pending ← gets bk_pending_ifconfig;
  match scan (λ p, pi_in_use p && (pi_agent_peer_id p =? agent_peer_id) && (pi_request_id p =? request_id)) pending with
  | None => mret None
  | Some i => drop_pending i;; mret (Some (pending !!! i))
  end.

Definition releasePendingIfconfig (peer_id : Z) : Hub () :=
  for_range 0 BROKER_PENDING_IFCONFIG_MAX (λ i,
    p ← gets (λ b, bk_pending_ifconfig b !!! i);
    if negb (pi_in_use p) then skip
    else if pi_agent_peer_id p =? peer_id then
      requester ← find_peer (pi_requester_peer_id p);
      with_some requester (λ r, replyConfigure r CONFIGURE_STATUS_AGENT_UNREACHABLE);;
      drop_pending i
    else if pi_requester_peer_id p =? peer_id then drop_pending i
    else skip).

Definition learnFdFromSettings (interface_id : Z) (settings : InterfaceSettings) : Hub () :=
  if (Z.land (is_fields settings) INTERFACE_FIELD_CTRLMODE =? 0) || (Z.land (is_ctrlmode_mask settings) INTERFACE_CTRLMODE_FD =? 0) then skip
  else
    modify (λ b, set_registry b (InterfaceRegistry_SetFdCapable (bk_registry b) interface_id
      (negb (Z.land (is_ctrlmode_flags settings) INTERFACE_CTRLMODE_FD =? 0)))).

Definition configureStatus (agent_status : Z) : Z :=
  if agent_status =? IFCONFIG_STATUS_OK then CONFIGURE_STATUS_OK
  else if agent_status =? IFCONFIG_STATUS_UNKNOWN_INTERFACE then CONFIGURE_STATUS_UNKNOWN_INTERFACE
  else CONFIGURE_STATUS_APPLY_FAILED.

(** ** Releasing a peer *)

Definition releasePeer (peer : nat) : Hub () :=
  p ← peer_at peer;
  let peer_id := hp_peer_id p in
  when (hp_role p =? kHUB_PEER_ROLE_AGENT) (failAgentTransaction peer_id;; detachAgent peer_id);;
  p ← peer_at peer;
  when (hp_role p =? kHUB_PEER_ROLE_CLIENT) (
    abandonClientTransactions peer_id;; releaseReliableBindings peer;; releaseEchoTokens peer_id);;
  releasePendingIfconfig peer_id;;
  modify (λ b, set_directory b (PeerDirectory_Release (bk_directory b) peer_id)).

Definition disconnectPeer (peer_id : Z) : Hub () :=
  peer ← find_peer peer_id;
  with_some peer (λ i, releasePeer i;; close_peer peer_id).
End broker.
