(* ===== verification/BrokerControl.v ===== *)
(** * The broker: connections and control handlers (src/hub/broker.c)

    [onPeerConnected] and [onPeerDisconnected], the handlers of the agents' and
    clients' control messages, and the dispatch of [onPeerControl].  A payload is
    exactly the [header.length] bytes the header announces. *)

From Stdlib Require Import String.
From S2P Require Import Prelude Slots CString Wire Codec HelloMessage RegisterMessage OpenMessage SubscribeMessage ListMessage FrameMessage TxnMessage IfconfigMessage ControlPlane EchoTokens EgressShaper EgressQueue ClientSession.
From S2P Require Import InterfaceRegistry BridgeRoutes BridgeGroups TransactionTable PeerDirectory RejectedPeers BrokerState BrokerPeers.

Section control.
Context `{ports : HubPorts}.

(** ** Connections *)

Definition admitsPeerAwaitingHello (info : HubPeerConnectInfo) : Hub bool :=
  b ← gets id;
  mret (
    if ci_local info then true
    else if PeerDirectory_CountRole (bk_directory b) kHUB_PEER_ROLE_UNKNOWN >=? AWAITING_HELLO_MAX then false
    else match ci_origin_host info with
         | None => true
         | Some host => PeerDirectory_CountAwaitingHelloFrom (bk_directory b) host <? AWAITING_HELLO_PER_HOST_MAX
         end).

Definition connectingPeerIsKnown (info : HubPeerConnectInfo) : Hub bool :=
  match ci_fingerprint_hex info with
  | None => mret true
  | Some fingerprint =>
      if ci_local info then mret true
      else
        named ← match pt_authorization with None => mret false | Some auth => asks (λ h, auth_knows auth h fingerprint) end;
        if (named : bool) then mret true
        else match pt_identity_store with None => mret false | Some store => asks (λ h, id_knows store h fingerprint) end
  end.

Definition makeRoomForKnownPeer (info : HubPeerConnectInfo) : Hub bool :=
  known ← connectingPeerIsKnown info;
  if negb known then mret false
  else
    displaced ← gets (λ b, PeerDirectory_FindDisplaceable (bk_directory b));
    match displaced with
    | None => mret false
    | Some (_, d) =>
        sendError (hp_peer_id d) kERROR_CODE_HUB_FULL (lit "displaced by a known peer");;
        disconnectPeer (hp_peer_id d);;
        mret true
    end.

(** What [onPeerConnected] stores into the allocated slot. *)
Definition connected (info : HubPeerConnectInfo) (now_us : Z) (p : HubPeer) : HubPeer := {|
  hp_in_use := hp_in_use p; hp_local := ci_local info; hp_send_failed := hp_send_failed p; hp_vouched := hp_vouched p;
  hp_peer_id := hp_peer_id p; hp_capabilities := hp_capabilities p; hp_role := hp_role p; hp_transport_kind := ci_transport_kind info;
  hp_hello_deadline_us := hp_hello_deadline_us p; hp_connected_at_us := now_us; hp_frames_forwarded := hp_frames_forwarded p;
  hp_frames_dropped := hp_frames_dropped p;
  hp_fingerprint_hex := match ci_fingerprint_hex info with
    | None => hp_fingerprint_hex p | Some f => BoundedString_Copy (hp_fingerprint_hex p) (Some f) end;
  hp_agent_name := hp_agent_name p;
  hp_origin := match ci_origin info with None => hp_origin p | Some o => BoundedString_Copy (hp_origin p) (Some o) end;
  hp_origin_host := match ci_origin_host info with
    | None => hp_origin_host p | Some o => BoundedString_Copy (hp_origin_host p) (Some o) end;
  hp_session := hp_session p; hp_echo_tokens := hp_echo_tokens p; hp_egress := hp_egress p |}.

(** The slot [PeerDirectory_Allocate] returned is not checked for NULL: [None] is the null pointer the code
    would write through. *)
Definition onPeerConnected (peer_id : Z) (info : HubPeerConnectInfo) (now_us : Z) : Hub (option ()) :=
  modify (λ b, set_now b now_us);;
  admitted ← admitsPeerAwaitingHello info;
  if negb admitted then
    sendError peer_id kERROR_CODE_HUB_FULL (lit "too many peers awaiting hello");; close_peer peer_id;; mret (Some ())
  else
    full ← gets (λ b, PeerDirectory_IsFull (bk_directory b));
    room ← (if (full : bool) then makeRoomForKnownPeer info else mret true);
    if negb room then sendError peer_id kERROR_CODE_HUB_FULL (lit "no peer slot available");; close_peer peer_id;; mret (Some ())
    else
      b ← gets id;
      match PeerDirectory_Allocate (bk_directory b) peer_id with
      | (None, _) => mret None
      | (Some i, directory) =>
          modify (λ b, set_directory b directory);; update_peer i (connected info now_us);; mret (Some ())
      end.

Definition onPeerDisconnected (peer_id now_us : Z) : Hub () :=
  peer ← find_peer peer_id; with_some peer releasePeer.

Definition tickHelloDeadline (peer : nat) (now_us : Z) : Hub () :=
  p ← peer_at peer;
  if hp_hello_deadline_us p =? 0 then update_peer peer (set_deadline (u64 (now_us + HELLO_TIMEOUT_US)))
  else
    when (now_us >=? hp_hello_deadline_us p) (
      sendError (hp_peer_id p) kERROR_CODE_HELLO_TIMEOUT (lit "no hello within the deadline");;
      disconnectPeer (hp_peer_id p)).

(** ** HELLO *)

Definition clientIsNamedByAcl (p : HubPeer) : Hub bool :=
  match pt_authorization with
  | None => mret false
  | Some auth => if negb (is_named (hp_fingerprint_hex p)) then mret false else asks (λ h, auth_knows auth h (hp_fingerprint_hex p))
  end.

Definition clientIsAdmitted (p : HubPeer) : Hub bool :=
  required ← gets bk_require_known_peers;
  mret (if negb required || negb (is_named (hp_fingerprint_hex p)) then true else hp_vouched p).

Definition recordRejection (p : HubPeer) (name : list Z) (reason : Z) : Hub () :=
  modify (λ b, set_rejected b (RejectedPeers_Record (bk_rejected_peers b)
    {| rj_peer := p; rj_name := name; rj_reason := reason; rj_now_us := bk_now_us b |})).

Definition forgetRejection (peer : nat) : Hub () :=
  p ← peer_at peer; modify (λ b, set_rejected b (RejectedPeers_Forget (bk_rejected_peers b) p)).

Definition rejectClient (peer : nat) : Hub () :=
  p ← peer_at peer;
  recordRejection p (hp_agent_name p) ADMIN_REJECTED_REASON_NOT_ALLOWED;;
  sendError (hp_peer_id p) kERROR_CODE_ROLE_REJECTED (lit "client fingerprint not in the hub allowlist");;
  disconnectPeer (hp_peer_id p).

(** An error to the peer, then its disconnection. *)
Definition expel (peer_id code : Z) (detail : list Z) : Hub () := sendError peer_id code detail;; disconnectPeer peer_id.

Definition handleHello (peer : nat) (header : MessageHeader) (payload : list Z) : Hub () :=
  p ← peer_at peer;
  if negb (hp_role p =? kHUB_PEER_ROLE_UNKNOWN) then skip
  else
    let '(ok, hello) := HelloMessage_Decode hello0 payload in
    if negb ok then expel (hp_peer_id p) kERROR_CODE_MALFORMED (lit "malformed hello")
    else
      let '(adopted, p') := HubPeer_AdoptRole p (hello_role hello) in
      update_peer peer (λ _, p');;
      if negb adopted then expel (hp_peer_id p) kERROR_CODE_ROLE_REJECTED (lit "admin role requires a local transport")
      else
        update_peer peer (set_capabilities (hello_capabilities hello));;
        if negb (hp_role p' =? kHUB_PEER_ROLE_CLIENT) then skip
        else
          when (is_named (hello_name hello)) (update_peer peer (λ p, HubPeer_SetAgentName p (hello_name hello)));;
          p ← peer_at peer;
          named ← clientIsNamedByAcl p;
          update_peer peer (set_vouched named);;
          p ← peer_at peer;
          admitted ← clientIsAdmitted p;
          if negb admitted then rejectClient peer else forgetRejection peer.

(** ** REGISTER *)

Definition firstContactPinsFull (store : IdentityStorePort) : Hub bool :=
  asks (λ h, id_count_first_contact store h >=? FIRST_CONTACT_PINS_MAX).

Definition agentIdentityStatus (p : HubPeer) (registration : RegisterMessage) : Hub Z :=
  match pt_identity_store with
  | None => mret REGISTER_STATUS_OK
  | Some store =>
      if negb (is_named (hp_fingerprint_hex p)) then mret REGISTER_STATUS_OK
      else
        pinned ← asks (λ h, id_lookup store h (reg_agent_name registration));
        match pinned with
        | None =>
            required ← gets bk_require_known_peers;
            full ← (if (required : bool) then mret true else firstContactPinsFull store);
            if (full : bool) then mret REGISTER_STATUS_UNKNOWN_AGENT
            else
              ok ← perform (λ h, id_pin store h (reg_agent_name registration) (hp_fingerprint_hex p))
                     (PinIdentity (reg_agent_name registration) (hp_fingerprint_hex p));
              mret (if (ok : bool) then REGISTER_STATUS_OK else REGISTER_STATUS_REJECTED)
        | Some fingerprint =>
            mret (if streq fingerprint (hp_fingerprint_hex p) then REGISTER_STATUS_OK else REGISTER_STATUS_IDENTITY_MISMATCH)
        end
  end.

Definition agentIsEnrolled (p : HubPeer) : Hub bool :=
  match pt_identity_store with
  | None => mret false
  | Some store => if negb (is_named (hp_fingerprint_hex p)) then mret false else asks (λ h, id_knows store h (hp_fingerprint_hex p))
  end.

Definition unknownAgentDetail (b : Broker) : list Z :=
  if bk_require_known_peers b then lit "agent fingerprint not in the hub allowlist"
  else lit "first-contact pins are full; enroll the agent with pins add".

Definition rejectAgent (peer : nat) (registration : RegisterMessage) (identity_status : Z) : Hub () :=
  sendControl peer (RegisterAckMessage_Encode
    {| ack_status := identity_status; ack_interface_count := 0; ack_channels := replicate REGISTER_INTERFACES_MAX 0 |} encoded);;
  p ← peer_at peer;
  (if identity_status =? REGISTER_STATUS_UNKNOWN_AGENT then
     recordRejection p (reg_agent_name registration) ADMIN_REJECTED_REASON_NOT_ALLOWED;;
     detail ← gets unknownAgentDetail;
     sendError (hp_peer_id p) kERROR_CODE_ROLE_REJECTED detail
   else if identity_status =? REGISTER_STATUS_IDENTITY_MISMATCH then
     recordRejection p (reg_agent_name registration) ADMIN_REJECTED_REASON_FINGERPRINT_MISMATCH;;
     sendError (hp_peer_id p) kERROR_CODE_ROLE_REJECTED (lit "agent name pinned to a different fingerprint")
   else sendError (hp_peer_id p) kERROR_CODE_ROLE_REJECTED (lit "agent identity could not be pinned"));;
  disconnectPeer (hp_peer_id p).

Definition displaceGhostPeer (peer : nat) (registration : RegisterMessage) : Hub bool :=
  p ← peer_at peer;
  colliding ← gets (λ b, InterfaceRegistry_CollidingPeer (bk_registry b) registration);
  match colliding with
  | None => mret false
  | Some ghost_peer_id =>
      if ghost_peer_id =? hp_peer_id p then mret false
      else
        ghost ← find_peer ghost_peer_id;
        match ghost with
        | None => mret false
        | Some g =>
            other ← peer_at g;
            if negb (HubPeer_IsSameAgent p other) then mret false else disconnectPeer ghost_peer_id;; mret true
        end
  end.

Definition registryHasRoomFor (b : Broker) (interface_count : Z) : bool :=
  Z.of_nat INTERFACE_REGISTRY_MAX - InterfaceRegistry_Count (bk_registry b) >=? interface_count.

(** Each turn disconnects a peer: the directory has [PEER_DIRECTORY_MAX]. *)
Fixpoint make_room (fuel : nat) (interface_count : Z) : Hub bool :=
  match fuel with
  | O => mret false
  | S fuel' =>
      room ← gets (λ b, registryHasRoomFor b interface_count);
      if (room : bool) then mret true
      else
        displaced ← gets (λ b, PeerDirectory_FindDisplaceableAgent (bk_directory b));
        match displaced with
        | None => mret false
        | Some (_, d) => expel (hp_peer_id d) kERROR_CODE_HUB_FULL (lit "displaced by an enrolled agent");; make_room fuel' interface_count
        end
  end.

Definition makeRoomForInterfaces (interface_count : Z) : Hub bool :=
  room ← gets (λ b, registryHasRoomFor b interface_count);
  if (room : bool) then mret false else make_room (PEER_DIRECTORY_MAX + 1) interface_count.

Definition registerAgent (peer_id : Z) (registration : RegisterMessage) : Hub (bool * RegisterAckMessage) :=
  registry ← gets bk_registry;
  let '(registered, registry, ack) := InterfaceRegistry_RegisterAgent registry peer_id registration in
  modify (λ b, set_registry b registry);; mret (registered, ack).

(** Another attempt when the last one failed and [retry] made room for it. *)
Definition register_again (peer_id : Z) (registration : RegisterMessage) (last : bool * RegisterAckMessage) (retry : Hub bool)
    : Hub (bool * RegisterAckMessage) :=
  if last.1 then mret last
  else
    again ← retry;
    if (again : bool) then registerAgent peer_id registration else mret last.

Definition handleRegister (peer : nat) (header : MessageHeader) (payload : list Z) : Hub () :=
  p ← peer_at peer;
  if negb (hp_role p =? kHUB_PEER_ROLE_AGENT) then skip
  else
    let '(ok, registration) := RegisterMessage_Decode register0 payload in
    if negb ok then expel (hp_peer_id p) kERROR_CODE_MALFORMED (lit "malformed register")
    else if streq (reg_agent_name registration) BRIDGE_GROUP_AGENT_NAME then
      expel (hp_peer_id p) kERROR_CODE_ROLE_REJECTED (lit "the agent name group is reserved for bridge groups")
    else
      identity_status ← agentIdentityStatus p registration;
      if negb (identity_status =? REGISTER_STATUS_OK) then rejectAgent peer registration identity_status
      else
        vouched ← agentIsEnrolled p;
        update_peer peer (set_vouched vouched);;
        first ← registerAgent (hp_peer_id p) registration;
        second ← register_again (hp_peer_id p) registration first (displaceGhostPeer peer registration);
        third ← register_again (hp_peer_id p) registration second (
          p ← peer_at peer;
          if hp_vouched p then makeRoomForInterfaces (reg_interface_count registration) else mret false);
        let '(registered, ack) := third in
        sendControl peer (RegisterAckMessage_Encode ack encoded);;
        if negb registered then disconnectPeer (hp_peer_id p)
        else
          update_peer peer (λ p, HubPeer_SetAgentName p (reg_agent_name registration));;
          forgetRejection peer;;
          reattachClientsToAgent (hp_peer_id p).
End control.
