(* ===== verification/BrokerHandlers.v ===== *)
(** * The broker: channels, configuration and transactions (src/hub/broker.c)

    LIST, OPEN, CLOSE, SUBSCRIBE, PING, CONFIGURE and its replies, the agents'
    status reports, and the relay of transactions between a client and the agent
    that runs them. *)

From Stdlib Require Import String.
From S2P Require Import Prelude Slots CString Wire Codec HelloMessage RegisterMessage OpenMessage SubscribeMessage ListMessage FrameMessage TxnMessage IfconfigMessage ControlPlane EchoTokens EgressShaper EgressQueue ClientSession.
From S2P Require Import InterfaceRegistry BridgeRoutes BridgeGroups TransactionTable PeerDirectory RejectedPeers BrokerState BrokerPeers BrokerControl.

Section handlers.
Context `{ports : HubPorts}.

(** ** LIST, OPEN, CLOSE, SUBSCRIBE, PING *)

Definition handleList (peer : nat) (header : MessageHeader) (payload : list Z) : Hub () :=
  let '(ok, request) := ListMessage_Decode {| list_offset := 0 |} payload in
  if negb ok then skip
  else
    reply ← gets (λ b, InterfaceRegistry_List (bk_registry b) (list_offset request));
    sendControl peer (ListReplyMessage_Encode reply encoded).

Definition reliableEndpointsSupport (client : HubPeer) (entry : InterfaceEntry) : Hub bool :=
  if Z.land (hp_capabilities client) HELLO_CAP_RELIABLE_CHANNELS =? 0 then mret false
  else
    agent ← find_peer (ie_agent_peer_id entry);
    match agent with
    | None => mret false
    | Some a => p ← peer_at a; mret (negb (Z.land (hp_capabilities p) HELLO_CAP_RELIABLE_CHANNELS =? 0))
    end.

Definition open_ack (interface_id status channel : Z) : OpenAckMessage :=
  {| open_ack_status := status; open_ack_channel := channel; open_ack_interface_id := interface_id |}.

Definition send_open_ack (peer : nat) (interface_id status channel : Z) : Hub () :=
  sendControl peer (OpenAckMessage_Encode (open_ack interface_id status channel) encoded).

Definition open_request (open : OpenMessage) (entry : InterfaceEntry) (can_write : bool) : ChannelOpenRequest :=
  {| rq_interface_id := open_interface_id open;
     rq_suppress_echo := negb (Z.land (open_flags open) OPEN_FLAG_SUPPRESS_OWN_ECHO =? 0);
     rq_can_write := can_write;
     rq_reliable := negb (Z.land (open_flags open) OPEN_FLAG_RELIABLE =? 0);
     rq_error_frames := negb (Z.land (open_flags open) OPEN_FLAG_ERROR_FRAMES =? 0);
     rq_agent_name := ie_agent_name entry; rq_interface_name := ie_interface_name entry |}.

(** The rest of [handleOpen] once the request is granted. *)
Definition grantOpen (peer : nat) (open : OpenMessage) (entry : InterfaceEntry) (can_write : bool) : Hub () :=
  p ← peer_at peer;
  let '(channel, session) := ClientSession_OpenInterface (hp_session p) (open_request open entry can_write) in
  update_peer peer (on_session (λ _, session));;
  match channel with
  | None => send_open_ack peer (open_interface_id open) OPEN_STATUS_REJECTED 0
  | Some channel =>
      when (rq_reliable (open_request open entry can_write)) (set_channel_mode (ie_agent_peer_id entry) (ie_agent_channel entry) true);;
      send_open_ack peer (open_interface_id open) OPEN_STATUS_OK channel;;
      leased ← gets (λ b, leasedToAnother b (ie_interface_id entry) (hp_peer_id p));
      when leased (announceLease (ie_interface_id entry))
  end.

Definition handleOpen (peer : nat) (header : MessageHeader) (payload : list Z) : Hub () :=
  p ← peer_at peer;
  if negb (hp_role p =? kHUB_PEER_ROLE_CLIENT) then skip
  else
    let '(ok, open) := OpenMessage_Decode {| open_interface_id := 0; open_flags := 0 |} payload in
    if negb ok then skip
    else
      entry ← gets (λ b, InterfaceRegistry_FindById (bk_registry b) (open_interface_id open));
      match entry with
      | None => send_open_ack peer (open_interface_id open) OPEN_STATUS_REJECTED 0
      | Some entry =>
          can_read ← clientCanRead p entry;
          if negb can_read then
            send_open_ack peer (open_interface_id open) OPEN_STATUS_READ_DENIED 0;;
            sendError (hp_peer_id p) kERROR_CODE_ROLE_REJECTED (lit "not authorized to read this interface")
          else
            can_write ← clientCanWrite p entry;
            if negb (Z.land (open_flags open) OPEN_FLAG_WANT_WRITE =? 0) && negb can_write then
              send_open_ack peer (open_interface_id open) OPEN_STATUS_WRITE_DENIED 0;;
              sendError (hp_peer_id p) kERROR_CODE_ROLE_REJECTED (lit "not authorized to inject on this interface")
            else
              supported ← (if Z.land (open_flags open) OPEN_FLAG_RELIABLE =? 0 then mret true else reliableEndpointsSupport p entry);
              if negb supported then send_open_ack peer (open_interface_id open) OPEN_STATUS_RELIABLE_UNSUPPORTED 0
              else grantOpen peer open entry can_write
      end.

Definition handleClose (peer : nat) (header : MessageHeader) (payload : list Z) : Hub () :=
  p ← peer_at peer;
  if negb (hp_role p =? kHUB_PEER_ROLE_CLIENT) then skip
  else
    let '(ok, close) := CloseMessage_Decode {| close_channel := 0 |} payload in
    if negb ok then skip else closeClientChannel peer (close_channel close).

Definition handleSubscribe (peer : nat) (header : MessageHeader) (payload : list Z) : Hub () :=
  p ← peer_at peer;
  if negb (hp_role p =? kHUB_PEER_ROLE_CLIENT) then skip
  else
    let '(ok, subscribe) := SubscribeMessage_Decode subscribe0 payload in
    if negb ok then sendError (hp_peer_id p) kERROR_CODE_MALFORMED (lit "malformed subscribe")
    else
      let '(found, session) :=
        ClientSession_SetFilters (hp_session p) (sub_channel subscribe) (sub_filters subscribe) (sub_filter_count subscribe) in
      update_peer peer (on_session (λ _, session));;
      if negb found then sendError (hp_peer_id p) kERROR_CODE_MALFORMED (lit "subscribe on unopened channel") else skip.

Definition handlePing (peer : nat) (header : MessageHeader) (payload : list Z) : Hub () :=
  if negb (Z.land (header_flags header) PING_REPLY_FLAG =? 0) then skip
  else
    sendControl peer (MESSAGE_HEADER_SIZE,
      (MessageHeader_Encode {| header_type := kMESSAGE_TYPE_PING; header_flags := PING_REPLY_FLAG; header_length := 0 |}
         (replicate MESSAGE_HEADER_SIZE 0)).2).

(** ** Interface configuration *)

Definition handleConfigure (peer : nat) (header : MessageHeader) (payload : list Z) : Hub () :=
  p ← peer_at peer;
  if negb (hp_role p =? kHUB_PEER_ROLE_ADMIN) && negb (hp_role p =? kHUB_PEER_ROLE_CLIENT) then skip
  else
    let '(ok, request) := ConfigureMessage_Decode configure0 payload in
    if negb ok then skip
    else
      entry ← gets (λ b, InterfaceRegistry_FindByName (bk_registry b) (cf_agent_name request) (cf_interface_name request));
      match entry with
      | None => replyConfigure peer CONFIGURE_STATUS_UNKNOWN_INTERFACE
      | Some entry =>
          if InterfaceEntry_IsVirtual entry then replyConfigure peer CONFIGURE_STATUS_UNKNOWN_INTERFACE
          else
            allowed ← peerCanConfigure p entry;
            if negb allowed then replyConfigure peer CONFIGURE_STATUS_DENIED
            else
              agent ← find_peer (ie_agent_peer_id entry);
              match agent with
              | None => replyConfigure peer CONFIGURE_STATUS_AGENT_UNREACHABLE
              | Some agent =>
                  a ← peer_at agent;
                  if negb (hp_role a =? kHUB_PEER_ROLE_AGENT) then replyConfigure peer CONFIGURE_STATUS_AGENT_UNREACHABLE
                  else
                    remembered ← rememberPendingIfconfig (hp_peer_id p) entry;
                    match remembered with
                    | None => replyConfigure peer CONFIGURE_STATUS_AGENT_UNREACHABLE
                    | Some request_id =>
                        sendControl agent (IfconfigMessage_Encode
                          {| if_request_id := request_id; if_interface_name := ie_interface_name entry; if_op := cf_op request;
                             if_settings := cf_settings request |} encoded)
                    end
              end
      end.

Definition handleIfconfigReply (peer : nat) (header : MessageHeader) (payload : list Z) : Hub () :=
  p ← peer_at peer;
  if negb (hp_role p =? kHUB_PEER_ROLE_AGENT) then skip
  else
    let '(ok, reply) := IfconfigReplyMessage_Decode ifconfig_reply0 payload in
    if negb ok then skip
    else
      taken ← takePendingIfconfig (hp_peer_id p) (ifr_request_id reply);
      with_some taken (λ pending,
        learnFdFromSettings (pi_interface_id pending) (ifr_settings reply);;
        requester ← find_peer (pi_requester_peer_id pending);
        with_some requester (λ r,
          sendControl r (ConfigureReplyMessage_Encode
            {| cfr_status := configureStatus (ifr_status reply); cfr_settings := ifr_settings reply; cfr_detail := ifr_detail reply |} encoded))).

(** ** Status reports *)

Definition apply_status (peer_id : Z) (entry : InterfaceStatusEntry) : Hub () :=
  modify (λ b, set_registry b (InterfaceRegistry_SetTxDropped (bk_registry b) peer_id (ise_channel entry) (ise_tx_dropped entry)));;
  modify (λ b, set_registry b (InterfaceRegistry_ApplyAdvertisedRate (bk_registry b) peer_id (ise_channel entry)
    (ise_advertised_rate entry) (ise_credit entry) (bk_now_us b)));;
  found ← gets (λ b, InterfaceRegistry_FindByAgentChannel (bk_registry b) peer_id (ise_channel entry));
  with_some found (λ e, relayPaceToClients (ie_interface_id e) (rate_bits_per_s (ie_shaper e))).

Definition handleInterfaceStatus (peer : nat) (header : MessageHeader) (payload : list Z) : Hub () :=
  p ← peer_at peer;
  if negb (hp_role p =? kHUB_PEER_ROLE_AGENT) then skip
  else
    let '(ok, status) := InterfaceStatusMessage_Decode interface_status0 payload in
    if negb ok then skip
    else
      for_range 0 (Z.to_nat (ism_interface_count status)) (λ i,
        match ism_entries status !! i with
        | None => skip
        | Some entry => apply_status (hp_peer_id p) entry
        end).

(** ** Transactions *)

Definition replyTxnBegin (client : nat) (channel status : Z) : Hub () :=
  sendControl client (TxnBeginAckMessage_Encode
    {| tba_channel := channel; tba_status := status; tba_txn_id := 0; tba_window_bytes := 0 |} encoded).

(** The status, and the request when it is OK. *)
Definition admitTransaction (client : HubPeer) (begin : TxnBeginMessage) : Hub (Z * RelayedTransaction) :=
  let refuse (status : Z) : Hub (Z * RelayedTransaction) := mret (status, RelayedTransaction_zero) in
  match ClientSession_InterfaceForChannel (hp_session client) (tb_channel begin) with
  | None => refuse kTXN_BEGIN_STATUS_INVALID
  | Some interface_id =>
      entry ← gets (λ b, InterfaceRegistry_FindById (bk_registry b) interface_id);
      match entry with
      | None => refuse kTXN_BEGIN_STATUS_INVALID
      | Some entry =>
          if InterfaceEntry_IsVirtual entry then refuse kTXN_BEGIN_STATUS_INVALID
          else
            agent ← find_peer (ie_agent_peer_id entry);
            match agent with
            | None => refuse kTXN_BEGIN_STATUS_INVALID
            | Some agent =>
                a ← peer_at agent;
                if Z.land (hp_capabilities a) HELLO_CAP_TRANSACTIONS =? 0 then refuse kTXN_BEGIN_STATUS_UNSUPPORTED
                else if negb (ClientSession_ChannelReliable (hp_session client) (tb_channel begin)) then
                  refuse kTXN_BEGIN_STATUS_RELIABLE_CHANNEL_REQUIRED
                else
                  reliable ← asks (λ h, pt_channel_reliable h (hp_peer_id a) (ie_agent_channel entry));
                  if negb reliable then refuse kTXN_BEGIN_STATUS_RELIABLE_CHANNEL_REQUIRED
                  else if negb (ClientSession_CanWrite (hp_session client) (tb_channel begin)) then refuse kTXN_BEGIN_STATUS_WRITE_DENIED
                  else
                    b ← gets id;
                    match TransactionTable_ForAgent (bk_transactions b) (hp_peer_id a) with
                     | Some _ => refuse kTXN_BEGIN_STATUS_BUSY
                     | None =>
                         mret (kTXN_BEGIN_STATUS_OK,
                           {| rt_state := kTRANSACTION_RELAY_STATE_FREE;
                              rt_exclusive := negb (Z.land (tb_flags begin) TXN_BEGIN_FLAG_EXCLUSIVE =? 0); rt_txn_id := 0;
                              rt_interface_id := interface_id; rt_agent_peer_id := hp_peer_id a; rt_agent_channel := ie_agent_channel entry;
                              rt_client_peer_id := hp_peer_id client; rt_client_channel := tb_channel begin; rt_started_at_us := bk_now_us b;
                              rt_last_progress_us := 0; rt_completed_steps := 0; rt_relayed_bytes := 0; rt_consumed_bytes := 0 |})
                     end
            end
      end
  end.

Definition openTransaction (request : RelayedTransaction) : Hub bool :=
  b ← gets id;
  let '(opened, table) := TransactionTable_Open (bk_transactions b) request in
  modify (λ b, set_transactions b table);; mret (match opened with Some _ => true | None => false end).

Definition set_begin_channel (begin : TxnBeginMessage) (channel : Z) : TxnBeginMessage :=
  {| tb_channel := channel; tb_flags := tb_flags begin; tb_idle_timeout_ms := tb_idle_timeout_ms begin; tb_keepalive := tb_keepalive begin |}.

Definition handleTxnBegin (peer : nat) (header : MessageHeader) (payload : list Z) : Hub () :=
  p ← peer_at peer;
  if negb (hp_role p =? kHUB_PEER_ROLE_CLIENT) then skip
  else
    let '(ok, begin) := TxnBeginMessage_Decode txn_begin0 payload in
    if negb ok then skip
    else
      admitted ← admitTransaction p begin;
      let '(status, request) := admitted in
      opened ← (if status =? kTXN_BEGIN_STATUS_OK then openTransaction request else mret true);
      let status := if (opened : bool) then status else kTXN_BEGIN_STATUS_BUSY in
      if negb (status =? kTXN_BEGIN_STATUS_OK) then count_metric add_rejected;; replyTxnBegin peer (tb_channel begin) status
      else
        agent ← find_peer (rt_agent_peer_id request);
        with_some agent (λ a, sendControl a (TxnBeginMessage_Encode (set_begin_channel begin (rt_agent_channel request)) encoded)).

Definition granted_ack (ack : TxnBeginAckMessage) (channel : Z) : TxnBeginAckMessage :=
  {| tba_channel := channel; tba_status := tba_status ack; tba_txn_id := tba_txn_id ack;
     tba_window_bytes := if tba_window_bytes ack >? TRANSACTION_RELAY_WINDOW_MAX then TRANSACTION_RELAY_WINDOW_MAX
                         else tba_window_bytes ack |}.

Definition handleTxnBeginAck (peer : nat) (header : MessageHeader) (payload : list Z) : Hub () :=
  p ← peer_at peer;
  if negb (hp_role p =? kHUB_PEER_ROLE_AGENT) then skip
  else
    let '(ok, ack) := TxnBeginAckMessage_Decode {| tba_channel := 0; tba_status := 0; tba_txn_id := 0; tba_window_bytes := 0 |} payload in
    if negb ok then skip
    else
      running ← gets (λ b, TransactionTable_ForAgent (bk_transactions b) (hp_peer_id p));
      with_some running (λ transaction,
        t ← txn_at transaction;
        if negb (bool_decide (rt_state t = kTRANSACTION_RELAY_STATE_PENDING)) then skip
        else
          client ← find_peer (rt_client_peer_id t);
          if negb (tba_status ack =? kTXN_BEGIN_STATUS_OK) then
            count_metric add_rejected;;
            modify (λ b, set_transactions b (TransactionTable_Close (bk_transactions b) transaction));;
            with_some client (λ c, replyTxnBegin c (rt_client_channel t) (tba_status ack))
          else
            match client with
            | None =>
                count_metric add_aborted;;
                sendTxnAbort peer (rt_agent_channel t) (tba_txn_id ack);;
                modify (λ b, set_transactions b (TransactionTable_Close (bk_transactions b) transaction))
            | Some c =>
                modify (λ b, set_transactions b (TransactionTable_Activate (bk_transactions b) transaction (tba_txn_id ack)));;
                count_metric add_started;;
                when (rt_exclusive t) (announceLease (rt_interface_id t));;
                sendControl c (TxnBeginAckMessage_Encode (granted_ack ack (rt_client_channel t)) encoded)
            end).

Definition activeTransactionOfAgent (p : HubPeer) (txn_id : Z) : Hub (option nat) :=
  if negb (hp_role p =? kHUB_PEER_ROLE_AGENT) then mret None
  else
    gets (λ b,
      i ← TransactionTable_ForAgent (bk_transactions b) (hp_peer_id p);
      let t := txns (bk_transactions b) !!! i in
      if bool_decide (rt_state t = kTRANSACTION_RELAY_STATE_ACTIVE) && (rt_txn_id t =? txn_id) then Some i else None).

(** Header, payload and the rewritten channel in a buffer of [CONTROL_BUFFER_SIZE]. *)
Definition relayed_message (header : MessageHeader) (payload : list Z) (channel : Z) : list Z :=
  TxnMessage_SetChannel (copy_at MESSAGE_HEADER_SIZE payload (MessageHeader_Encode header encoded).2) channel.

Definition relayTransactionMessage (destination : option nat) (header : MessageHeader) (payload : list Z) (channel : Z) : Hub () :=
  let size := (MESSAGE_HEADER_SIZE + Z.to_nat (header_length header))%nat in
  with_some destination (λ d,
    if Nat.ltb CONTROL_BUFFER_SIZE size then skip else sendControl d (size, relayed_message header payload channel)).

Definition set_progress (steps bytes now_us : Z) (t : RelayedTransaction) : RelayedTransaction := {|
  rt_state := rt_state t; rt_exclusive := rt_exclusive t; rt_txn_id := rt_txn_id t; rt_interface_id := rt_interface_id t;
  rt_agent_peer_id := rt_agent_peer_id t; rt_agent_channel := rt_agent_channel t; rt_client_peer_id := rt_client_peer_id t;
  rt_client_channel := rt_client_channel t; rt_started_at_us := rt_started_at_us t; rt_last_progress_us := now_us;
  rt_completed_steps := steps; rt_relayed_bytes := rt_relayed_bytes t; rt_consumed_bytes := bytes |}.
Definition add_relayed (bytes : Z) (t : RelayedTransaction) : RelayedTransaction := {|
  rt_state := rt_state t; rt_exclusive := rt_exclusive t; rt_txn_id := rt_txn_id t; rt_interface_id := rt_interface_id t;
  rt_agent_peer_id := rt_agent_peer_id t; rt_agent_channel := rt_agent_channel t; rt_client_peer_id := rt_client_peer_id t;
  rt_client_channel := rt_client_channel t; rt_started_at_us := rt_started_at_us t; rt_last_progress_us := rt_last_progress_us t;
  rt_completed_steps := rt_completed_steps t; rt_relayed_bytes := u32 (rt_relayed_bytes t + bytes); rt_consumed_bytes := rt_consumed_bytes t |}.

(** A message of the agent about its transaction, passed on to the client. *)
Definition relay_to_client (transaction : nat) (header : MessageHeader) (payload : list Z) : Hub () :=
  t ← txn_at transaction;
  client ← find_peer (rt_client_peer_id t);
  relayTransactionMessage client header payload (rt_client_channel t).

Definition handleTxnProgress (peer : nat) (header : MessageHeader) (payload : list Z) : Hub () :=
  p ← peer_at peer;
  let '(ok, progress) :=
    TxnProgressMessage_Decode {| tpr_channel := 0; tpr_txn_id := 0; tpr_completed_steps := 0; tpr_consumed_bytes := 0 |} payload in
  if negb ok then skip
  else
    transaction ← activeTransactionOfAgent p (tpr_txn_id progress);
    with_some transaction (λ i,
      now_us ← gets bk_now_us;
      update_txn i (set_progress (tpr_completed_steps progress) (tpr_consumed_bytes progress) now_us);;
      relay_to_client i header payload).

Definition handleTxnStatus (peer : nat) (header : MessageHeader) (payload : list Z) : Hub () :=
  p ← peer_at peer;
  let '(ok, status) := TxnStatusMessage_Decode txn_status0 payload in
  if negb ok then skip
  else
    transaction ← activeTransactionOfAgent p (ts_txn_id status);
    with_some transaction (λ i,
      count_metric (if ts_state status =? kTXN_STATE_DONE then add_completed else add_aborted);;
      count_metric (add_steps (ts_completed_steps status));;
      relay_to_client i header payload;;
      finishTransaction i).

Definition handleTxnAbort (peer : nat) (header : MessageHeader) (payload : list Z) : Hub () :=
  p ← peer_at peer;
  if negb (hp_role p =? kHUB_PEER_ROLE_CLIENT) || (header_length header <? Z.of_nat TXN_ABORT_BODY_SIZE) then skip
  else
    transaction ← gets (λ b, TransactionTable_ForClientChannel (bk_transactions b) (hp_peer_id p) (TxnMessage_Channel payload));
    with_some transaction (λ i,
      t ← txn_at i;
      if bool_decide (rt_state t = kTRANSACTION_RELAY_STATE_PENDING) then abandonTransaction i
      else
        agent ← find_peer (rt_agent_peer_id t);
        relayTransactionMessage agent header payload (rt_agent_channel t)).

Definition handleTxnRosterReport (peer : nat) (header : MessageHeader) (payload : list Z) : Hub () :=
  p ← peer_at peer;
  let '(ok, report) :=
    TxnRosterReportMessage_Decode {| trr_channel := 0; trr_txn_id := 0; trr_seq := 0; trr_seen_bitmap := 0 |} payload in
  if negb ok then skip
  else
    transaction ← activeTransactionOfAgent p (trr_txn_id report);
    with_some transaction (λ i, relay_to_client i header payload).

Definition isTransactionContent (type : Z) : bool :=
  (type =? kMESSAGE_TYPE_TXN_ROSTER) || (type =? kMESSAGE_TYPE_TXN_TEMPLATE) || (type =? kMESSAGE_TYPE_TXN_STEPS).

Definition agentRefusesTemplate (agent : HubPeer) (header : MessageHeader) (payload : list Z) : bool :=
  if negb (header_type header =? kMESSAGE_TYPE_TXN_TEMPLATE) || negb (Z.land (hp_capabilities agent) HELLO_CAP_ISOTP =? 0) then false
  else
    let '(ok, template) := TxnTemplateMessage_Decode txn_template0 payload in
    ok && (tt_type template =? kTXN_TEMPLATE_TYPE_ISOTP).

Definition refuseTransaction (transaction agent : nat) (reason : Z) : Hub () :=
  t ← txn_at transaction;
  client ← find_peer (rt_client_peer_id t);
  sendTxnAbort agent (rt_agent_channel t) (rt_txn_id t);;
  sendTxnStatus client t reason;;
  count_metric add_aborted;;
  finishTransaction transaction.

Definition relayTransactionContent (peer : nat) (header : MessageHeader) (payload : list Z) : Hub bool :=
  p ← peer_at peer;
  let size := (MESSAGE_HEADER_SIZE + Z.to_nat (header_length header))%nat in
  if negb (hp_role p =? kHUB_PEER_ROLE_CLIENT) || (header_length header =? 0) || Nat.ltb CONTROL_BUFFER_SIZE size then mret true
  else
    transaction ← gets (λ b, TransactionTable_ForClientChannel (bk_transactions b) (hp_peer_id p) (TxnMessage_Channel payload));
    match transaction with
    | None => mret true
    | Some i =>
        t ← txn_at i;
        if negb (bool_decide (rt_state t = kTRANSACTION_RELAY_STATE_ACTIVE)) then mret true
        else
          agent ← find_peer (rt_agent_peer_id t);
          match agent with
          | None => mret true
          | Some agent =>
              a ← peer_at agent;
              if agentRefusesTemplate a header payload then refuseTransaction i agent kTXN_REASON_UNSUPPORTED;; mret true
              else
                fits ← asks (λ h, pt_frame_fits h (hp_peer_id a) (rt_agent_channel t) size);
                if negb fits then mret false
                else
                  let data := take size (relayed_message header payload (rt_agent_channel t)) in
                  when ((header_type header =? kMESSAGE_TYPE_TXN_STEPS) && (header_length header >=? TXN_STEPS_FIXED_FIELDS_SIZE))
                    (update_txn i (add_relayed (header_length header - TXN_STEPS_FIXED_FIELDS_SIZE)));;
                  perform (λ h, pt_send_frame h (hp_peer_id a) (rt_agent_channel t) data)
                    (SendFrame (hp_peer_id a) (rt_agent_channel t) data);;
                  mret true
          end
    end.

Definition handleTxnContent (peer : nat) (header : MessageHeader) (payload : list Z) : Hub () :=
  relayTransactionContent peer header payload;; skip.

End handlers.
