(* ===== verification/BrokerFrames.v ===== *)
(** * The broker: the data plane (src/hub/broker.c)

    Forwarding of a captured frame to the clients, of a written frame to the
    agent, bridging between buses and groups, the per-peer egress queues and
    their draining. *)

From Stdlib Require Import String.
From S2P Require Import Prelude Slots CString Wire Codec HelloMessage RegisterMessage SubscribeMessage FrameMessage TxnMessage ControlPlane EchoTokens EgressShaper EgressQueue ClientSession InterfaceRegistry BridgeRoutes BridgeGroups.
From S2P Require Import BridgeTargets TransactionTable PeerDirectory FrameRoutes BrokerState BrokerPeers BrokerControl BrokerHandlers.

Notation FRAME_PAYLOAD_LENGTH_OFFSET := 17%nat (only parsing).
Notation FRAME_BUFFER_SIZE := 84%nat (only parsing).
Definition FRAME_PACE_OVERHEAD_BITS : Z := 64.
Definition FRAME_PACE_BITS_PER_BYTE : Z := 10.
Definition LIVE_EGRESS_MAX_AGE_US : Z := 50000.

Section frames.
Context `{ports : HubPorts}.

(** ** Counters *)

Definition count_binding (f : ChannelBinding → ChannelBinding) (channel : Z) (s : ClientSession) : ClientSession :=
  match ClientSession_BindingForChannel s channel with
  | None => s
  | Some i => with_bindings s (alter f i (bindings s))
  end.

Definition binding_counters (forwarded dropped : Z) (b : ChannelBinding) : ChannelBinding := {|
  cb_in_use := cb_in_use b; cb_dormant := cb_dormant b; cb_suppress_echo := cb_suppress_echo b; cb_can_write := cb_can_write b;
  cb_reliable := cb_reliable b; cb_error_frames := cb_error_frames b; cb_interface_id := cb_interface_id b; cb_channel := cb_channel b;
  cb_filter_count := cb_filter_count b; cb_frames_forwarded := forwarded; cb_frames_dropped := dropped;
  cb_agent_name := cb_agent_name b; cb_interface_name := cb_interface_name b; cb_filters := cb_filters b |}.

(** The peer's counters, and its binding's when it is a client. *)
Definition peer_forwarded (channel : Z) (p : HubPeer) : HubPeer :=
  peer_with p (hp_send_failed p) (hp_vouched p) (hp_capabilities p) (hp_hello_deadline_us p) (u32 (hp_frames_forwarded p + 1))
    (hp_frames_dropped p)
    (if hp_role p =? kHUB_PEER_ROLE_CLIENT
     then count_binding (λ b, binding_counters (u32 (cb_frames_forwarded b + 1)) (cb_frames_dropped b) b) channel (hp_session p)
     else hp_session p) (hp_echo_tokens p) (hp_egress p).
Definition peer_dropped (channel : Z) (p : HubPeer) : HubPeer :=
  peer_with p (hp_send_failed p) (hp_vouched p) (hp_capabilities p) (hp_hello_deadline_us p) (hp_frames_forwarded p)
    (u32 (hp_frames_dropped p + 1))
    (if hp_role p =? kHUB_PEER_ROLE_CLIENT
     then count_binding (λ b, binding_counters (cb_frames_forwarded b) (u32 (cb_frames_dropped b + 1)) b) channel (hp_session p)
     else hp_session p) (hp_echo_tokens p) (hp_egress p).

Definition countForwarded (peer : nat) (channel : Z) : Hub () :=
  count_metric add_forwarded;; update_peer peer (peer_forwarded channel).
Definition countDropped (peer : nat) (channel : Z) : Hub () :=
  count_metric (add_dropped 1);; update_peer peer (peer_dropped channel).

Definition countInterfaceFrame (p : HubPeer) (channel : Z) : Hub () :=
  modify (λ b,
    if hp_role p =? kHUB_PEER_ROLE_AGENT then
      match InterfaceRegistry_FindByAgentChannel (bk_registry b) (hp_peer_id p) channel with
      | None => b
      | Some entry => set_registry b (InterfaceRegistry_CountFrame (bk_registry b) (ie_interface_id entry))
      end
    else
      match ClientSession_InterfaceForChannel (hp_session p) channel with
      | None => b
      | Some interface_id => set_registry b (InterfaceRegistry_CountFrame (bk_registry b) interface_id)
      end).

(** ** Sending and parking *)

Definition frameWireSize (frame : FrameMessage) : nat :=
  (MESSAGE_HEADER_SIZE + FRAME_FIXED_FIELDS_SIZE + Z.to_nat (frame_payload_length frame))%nat.

Definition frameWireBits (wire : list Z) : Z :=
  if Nat.leb (length wire) FRAME_PAYLOAD_LENGTH_OFFSET then FRAME_PACE_OVERHEAD_BITS
  else FRAME_PACE_OVERHEAD_BITS + FRAME_PACE_BITS_PER_BYTE * (wire !!! FRAME_PAYLOAD_LENGTH_OFFSET).

Definition send_frame (peer_id channel : Z) (data : list Z) : Hub bool :=
  perform (λ h, pt_send_frame h peer_id channel data) (SendFrame peer_id channel data).

Definition try_egress (peer_id channel bits : Z) : Hub bool :=
  b ← gets id;
  let '(granted, registry) := InterfaceRegistry_TryEgress (bk_registry b) peer_id channel bits (bk_now_us b) in
  modify (λ b, set_registry b registry);; mret granted.

Definition enqueueFrame (peer : nat) (channel : Z) (data : list Z) : Hub () :=
  p ← peer_at peer;
  now_us ← gets bk_now_us;
  let '(result, evicted, egress) := EgressQueue_Push (hp_egress p) channel data (zlen data) now_us in
  update_peer peer (on_egress (λ _, egress));;
  match result with
  | kEGRESS_PUSH_QUEUED => skip
  | _ => countDropped peer (default 0 evicted)
  end.

Definition disconnectSlowConsumer (destination : nat) : Hub bool :=
  p ← peer_at destination;
  if negb (hp_role p =? kHUB_PEER_ROLE_CLIENT) then mret false
  else
    sendError (hp_peer_id p) kERROR_CODE_SLOW_CONSUMER (lit "reliable channel stalled");;
    disconnectPeer (hp_peer_id p);;
    mret true.

Definition outgoing_frame (frame : FrameMessage) (channel route_flags : Z) : FrameMessage := {|
  frame_can_id := frame_can_id frame; frame_timestamp_us := frame_timestamp_us frame; frame_channel := channel;
  frame_payload_length := frame_payload_length frame; frame_flags := frame_flags frame; frame_route_flags := route_flags;
  frame_payload := frame_payload frame |}.

(** The bytes of the frame on the route. *)
Definition forwarded_bytes (frame : FrameMessage) (channel route_flags : Z) : list Z :=
  let '(size, buffer) := FrameMessage_Encode (outgoing_frame frame channel route_flags) (replicate FRAME_BUFFER_SIZE 0) in take size buffer.

Definition forwardFrame (route : FrameRoute) (frame : FrameMessage) (route_flags : Z) : Hub bool :=
  destination ← find_peer (fr_peer_id route);
  let forwarded := forwarded_bytes frame (fr_channel route) route_flags in
  match destination with
  | None =>
      sent ← send_frame (fr_peer_id route) (fr_channel route) forwarded;
      count_metric (if (sent : bool) then add_forwarded else add_dropped 1);; mret true
  | Some destination =>
      if fr_reliable route then
        sent ← send_frame (fr_peer_id route) (fr_channel route) forwarded;
        if negb sent then disconnectSlowConsumer destination
        else countForwarded destination (fr_channel route);; mret true
      else
        p ← peer_at destination;
        if EgressQueue_ChannelPending (hp_egress p) (fr_channel route) then
          enqueueFrame destination (fr_channel route) forwarded;; mret true
        else
          granted ← try_egress (fr_peer_id route) (fr_channel route) (frameWireBits forwarded);
          if negb granted then enqueueFrame destination (fr_channel route) forwarded;; mret true
          else
            sent ← send_frame (fr_peer_id route) (fr_channel route) forwarded;
            (if (sent : bool) then countForwarded destination (fr_channel route)
             else enqueueFrame destination (fr_channel route) forwarded);;
            mret true
  end.

Definition routeTakesFrame (b : Broker) (route : FrameRoute) (frame : FrameMessage) (echo_originator_peer_id : Z) : bool :=
  if fr_suppress_echo route && (fr_peer_id route =? echo_originator_peer_id) then false
  else
    match PeerDirectory_Find (bk_directory b) (fr_peer_id route) with
    | None => true
    | Some i =>
        let destination := peers (bk_directory b) !!! i in
        if negb (hp_role destination =? kHUB_PEER_ROLE_CLIENT) then true
        else ClientSession_ChannelAccepts (hp_session destination) (fr_channel route) (frame_can_id frame)
    end.

(** The loop over the reliable routes, with its early return. *)
Fixpoint reliableRoutesFit (routes : list FrameRoute) (frame : FrameMessage) (echo_originator_peer_id : Z) : Hub bool :=
  match routes with
  | [] => mret true
  | route :: routes' =>
      b ← gets id;
      if negb (fr_reliable route) || negb (routeTakesFrame b route frame echo_originator_peer_id)
      then reliableRoutesFit routes' frame echo_originator_peer_id
      else
        fits ← asks (λ h, pt_frame_fits h (fr_peer_id route) (fr_channel route) (frameWireSize frame));
        if negb fits then mret false else reliableRoutesFit routes' frame echo_originator_peer_id
  end.

(** [for (i = 0; i < route_count; i++) if (routeTakesFrame(...) && !forwardFrame(...)) accepted = false;] *)
Fixpoint forward_routes (routes : list FrameRoute) (frame : FrameMessage) (echo_originator_peer_id route_flags : Z) (accepted : bool) : Hub bool :=
  match routes with
  | [] => mret accepted
  | route :: routes' =>
      b ← gets id;
      if negb (routeTakesFrame b route frame echo_originator_peer_id)
      then forward_routes routes' frame echo_originator_peer_id route_flags accepted
      else
        forwarded ← forwardFrame route frame route_flags;
        forward_routes routes' frame echo_originator_peer_id route_flags (accepted && forwarded)
  end.

Definition injectionToken (sender_peer_id : Z) (routes : list FrameRoute) : Hub Z :=
  match routes with
  | [] => mret FRAME_ROUTE_NO_TOKEN
  | route :: _ =>
      agent ← find_peer (fr_peer_id route);
      match agent with
      | None => mret FRAME_ROUTE_NO_TOKEN
      | Some a =>
          p ← peer_at a;
          let '(token, tokens) := EchoTokens_Issue (hp_echo_tokens p) sender_peer_id in
          update_peer a (on_tokens (λ _, tokens));; mret token
      end
  end.

(** ** Bridges *)

(** The counter a target points at: [forwarded] or [dropped] of its route's or group's slot. *)
Definition charge_slot (who : charge) (forwarded : bool) : Hub () :=
  let f := if forwarded then 1 else 0 in let d := if forwarded then 0 else 1 in
  modify (λ b,
    match who with
    | ChRoute i => set_rules b {| route_slots := alter (λ s, {| rs_in_use := rs_in_use s; rs_route := rs_route s;
        rs_forwarded := u64 (rs_forwarded s + f); rs_dropped := u64 (rs_dropped s + d) |}) i (route_slots (bk_bridges b));
        route_count := route_count (bk_bridges b) |} (bk_groups b)
    | ChGroup i => set_rules b (bk_bridges b) {| group_slots := alter (λ s, {| gs_in_use := gs_in_use s; gs_group := gs_group s;
        gs_forwarded := u64 (gs_forwarded s + f); gs_dropped := u64 (gs_dropped s + d) |}) i (group_slots (bk_groups b));
        group_count := group_count (bk_groups b) |}
    end).

Definition bridgeInto (target : BridgeTarget) (frame : FrameMessage) : Hub () :=
  destination ← gets (λ b, InterfaceRegistry_FindByName (bk_registry b) (ep_agent_name (bt_destination target))
                             (ep_interface_name (bt_destination target)));
  match destination with
  | None => charge_slot (bt_charge target) false
  | Some entry =>
      if InterfaceEntry_RefusesFrame entry (frame_flags frame) then charge_slot (bt_charge target) false
      else
        agent ← find_peer (ie_agent_peer_id entry);
        match agent with
        | None => charge_slot (bt_charge target) false
        | Some a =>
            p ← peer_at a;
            let '(token, tokens) := EchoTokens_Issue (hp_echo_tokens p) ECHO_TOKENS_BRIDGE_OWNER in
            update_peer a (on_tokens (λ _, tokens));;
            if token =? FRAME_ROUTE_NO_TOKEN then charge_slot (bt_charge target) false
            else
              forwardFrame {| fr_peer_id := ie_agent_peer_id entry; fr_channel := ie_agent_channel entry; fr_suppress_echo := false;
                              fr_reliable := false |} frame (u8 (Z.shiftl token FRAME_ROUTE_TOKEN_SHIFT));;
              charge_slot (bt_charge target) true
        end
  end.

Fixpoint bridge_all (targets : list BridgeTarget) (frame : FrameMessage) : Hub () :=
  match targets with
  | [] => skip
  | target :: targets' => bridgeInto target frame;; bridge_all targets' frame
  end.

Definition showToGroup (entry : InterfaceEntry) (frame : FrameMessage) (echo_originator_peer_id route_flags : Z) : Hub Z :=
  found ← gets (λ b, FrameRoutes_ToInterface (bk_directory b) (ie_interface_id entry) FRAME_ROUTES_MAX);
  let '(routes, routes_dropped) := found in
  count_metric (add_dropped routes_dropped);;
  modify (λ b, set_registry b (InterfaceRegistry_CountFrame (bk_registry b) (ie_interface_id entry)));;
  forward_routes routes frame echo_originator_peer_id route_flags true;;
  mret (zlen routes).

(** The loop over the group slots from [i]. *)
Fixpoint show_from (i n : nat) (origin : BridgeEndpoint) (frame : FrameMessage) (echo_originator_peer_id route_flags shown : Z) : Hub Z :=
  match n with
  | O => mret shown
  | S n' =>
      b ← gets id;
      match BridgeGroups_Slot (bk_groups b) i with
      | None => show_from (S i) n' origin frame echo_originator_peer_id route_flags shown
      | Some slot =>
          if negb (BridgeGroup_Carries (gs_group slot) origin (frame_can_id frame))
          then show_from (S i) n' origin frame echo_originator_peer_id route_flags shown
          else
            match InterfaceRegistry_FindByName (bk_registry b) BRIDGE_GROUP_AGENT_NAME (bg_name (gs_group slot)) with
            | None => show_from (S i) n' origin frame echo_originator_peer_id route_flags shown
            | Some entry =>
                count ← showToGroup entry frame echo_originator_peer_id route_flags;
                show_from (S i) n' origin frame echo_originator_peer_id route_flags (u16 (shown + count))
            end
      end
  end.
Definition showToGroups (origin : BridgeEndpoint) (frame : FrameMessage) (echo_originator_peer_id route_flags : Z) : Hub Z :=
  show_from 0 BRIDGE_GROUPS_MAX origin frame echo_originator_peer_id route_flags 0.

Definition bridgesConfigured (b : Broker) : bool := negb (BridgeRoutes_IsEmpty (bk_bridges b)) || negb (BridgeGroups_IsEmpty (bk_groups b)).

Definition bridgeFrame (source_agent : HubPeer) (frame : FrameMessage) (echo_originator_peer_id route_flags : Z) : Hub Z :=
  source ← gets (λ b, InterfaceRegistry_FindByAgentChannel (bk_registry b) (hp_peer_id source_agent) (frame_channel frame));
  match source with
  | None => mret 0
  | Some entry =>
      let origin := {| ep_agent_name := ie_agent_name entry; ep_interface_name := ie_interface_name entry |} in
      targets ← gets (λ b, BridgeTargets_Collect (bk_bridges b) (bk_groups b) origin (frame_can_id frame));
      bridge_all targets frame;;
      shown ← showToGroups origin frame echo_originator_peer_id route_flags;
      mret (u16 (zlen targets + shown))
  end.

(** ** Clients writing *)

Definition channelLeasedToAnother (b : Broker) (client : HubPeer) (channel : Z) : bool :=
  if negb (TransactionTable_AnyLease (bk_transactions b)) then false
  else
    match ClientSession_InterfaceForChannel (hp_session client) channel with
    | None => false
    | Some interface_id => leasedToAnother b interface_id (hp_peer_id client)
    end.

Definition endpointLeasedToAnother (b : Broker) (endpoint : BridgeEndpoint) (client_peer_id : Z) : bool :=
  if negb (TransactionTable_AnyLease (bk_transactions b)) then false
  else
    match InterfaceRegistry_FindByName (bk_registry b) (ep_agent_name endpoint) (ep_interface_name endpoint) with
    | None => false
    | Some entry => leasedToAnother b (ie_interface_id entry) client_peer_id
    end.

Definition channelRefusesFrame (b : Broker) (client : HubPeer) (frame : FrameMessage) : bool :=
  match ClientSession_InterfaceForChannel (hp_session client) (frame_channel frame) with
  | None => false
  | Some interface_id =>
      match InterfaceRegistry_FindById (bk_registry b) interface_id with
      | None => false
      | Some entry => InterfaceEntry_RefusesFrame entry (frame_flags frame)
      end
  end.

(** The group's slot and the group's interface. *)
Definition groupOfChannel (b : Broker) (client : HubPeer) (channel : Z) : option (nat * InterfaceEntry) :=
  interface_id ← ClientSession_InterfaceForChannel (hp_session client) channel;
  entry ← InterfaceRegistry_FindById (bk_registry b) interface_id;
  if negb (InterfaceEntry_IsVirtual entry) then None
  else slot ← group_findIndex (bk_groups b) (ie_interface_name entry); Some (slot, entry).

Fixpoint write_members (members : list BridgeGroupMember) (slot : nat) (writer_peer_id : Z) (frame : FrameMessage) : Hub () :=
  match members with
  | [] => skip
  | member :: members' =>
      b ← gets id;
      (if negb (BridgeGroupMember_Receives member) then skip
       else if endpointLeasedToAnother b (gm_endpoint member) writer_peer_id then count_metric add_lease_drop
       else bridgeInto {| bt_destination := gm_endpoint member; bt_charge := ChGroup slot |} frame);;
      write_members members' slot writer_peer_id frame
  end.

Definition writeIntoGroup (writer_peer_id : Z) (slot : nat) (entry : InterfaceEntry) (frame : FrameMessage) : Hub () :=
  group ← gets (λ b, gs_group (group_slots (bk_groups b) !!! slot));
  write_members (members_of group) slot writer_peer_id frame;;
  showToGroup entry frame writer_peer_id 0;; skip.

(** ** Routing *)

(** The agent's branch of [routeFrame]. *)
Definition routeFromAgent (p : HubPeer) (frame : FrameMessage) : Hub bool :=
  found ← gets (λ b, FrameRoutes_FromAgent (bk_registry b) (bk_directory b) (hp_peer_id p) (frame_channel frame) FRAME_ROUTES_MAX);
  let '(routes, routes_dropped) := found in
  let echo_originator_peer_id := EchoTokens_Originator (hp_echo_tokens p) (frame_route_flags frame) in
  let bridged := (echo_originator_peer_id =? ECHO_TOKENS_BRIDGE_OWNER) || negb (Z.land (frame_route_flags frame) FRAME_ROUTE_FLAG_BRIDGED =? 0) in
  let kept := Z.land (frame_route_flags frame) (Z.lor FRAME_ROUTE_FLAG_BRIDGED FRAME_ROUTE_FLAG_ECHO) in
  let forwarded_route_flags := if bridged then Z.lor kept FRAME_ROUTE_FLAG_BRIDGED else kept in
  count_metric (add_dropped routes_dropped);;
  accepted ← forward_routes routes frame echo_originator_peer_id forwarded_route_flags true;
  configured ← gets bridgesConfigured;
  bridged_count ← (if negb bridged && configured then bridgeFrame p frame echo_originator_peer_id forwarded_route_flags else mret 0);
  when ((zlen routes =? 0) && (bridged_count =? 0)) (count_metric add_unroutable);;
  mret accepted.

(** The client's branch. *)
Definition routeFromClient (p : HubPeer) (frame : FrameMessage) : Hub bool :=
  b ← gets id;
  if negb (ClientSession_CanWrite (hp_session p) (frame_channel frame)) || negb (Z.land (frame_can_id frame) FRAME_CAN_ID_FLAG_ERR =? 0)
  then count_metric (add_dropped 1);; mret true
  else if channelLeasedToAnother b p (frame_channel frame) then count_metric add_lease_drop;; mret true
  else
    match groupOfChannel b p (frame_channel frame) with
    | Some (slot, entry) => writeIntoGroup (hp_peer_id p) slot entry frame;; mret true
    | None =>
        if channelRefusesFrame b p frame then count_metric (add_dropped 1);; mret true
        else
          let '(routes, routes_dropped) := FrameRoutes_FromClient (bk_registry b) p (frame_channel frame) FRAME_ROUTES_MAX in
          token ← injectionToken (hp_peer_id p) routes;
          let forwarded_route_flags := u8 (Z.shiftl token FRAME_ROUTE_TOKEN_SHIFT) in
          count_metric (add_dropped routes_dropped);;
          fit ← reliableRoutesFit routes frame 0;
          if negb fit then mret false
          else
            accepted ← forward_routes routes frame 0 forwarded_route_flags true;
            when (zlen routes =? 0) (count_metric add_unroutable);;
            mret accepted
    end.

Definition routeFrame (peer : nat) (frame : FrameMessage) : Hub bool :=
  p ← peer_at peer;
  count_metric add_received;;
  countInterfaceFrame p (frame_channel frame);;
  if hp_role p =? kHUB_PEER_ROLE_AGENT then routeFromAgent p frame else routeFromClient p frame.

(** The loop over the frames of a datagram; each turn consumes at least a header. *)
Fixpoint route_stream (fuel : nat) (peer : nat) (stream : FrameStream) (frame : FrameMessage) (accepted : bool) : Hub bool :=
  match fuel with
  | O => mret accepted
  | S fuel' =>
      let '(more, stream, frame) := FrameStream_Next stream frame in
      if negb more then mret accepted
      else
        routed ← routeFrame peer frame;
        route_stream fuel' peer stream frame (accepted && routed)
  end.

Definition onPeerFrame (peer_id : Z) (data : list Z) : Hub bool :=
  peer ← find_peer peer_id;
  match peer with
  | None => mret true
  | Some i =>
      p ← peer_at i;
      if negb (hp_role p =? kHUB_PEER_ROLE_AGENT) && negb (hp_role p =? kHUB_PEER_ROLE_CLIENT) then mret true
      else
        let frames := route_stream (S (length data)) i (FrameStream_Init data) frame0 true in
        match MessageHeader_Decode data with
        | None => frames
        | Some header =>
            if negb (isTransactionContent (header_type header)) then frames
            else if Nat.ltb (length data) (MESSAGE_HEADER_SIZE + Z.to_nat (header_length header)) then mret true
            else relayTransactionContent i header (slice MESSAGE_HEADER_SIZE (Z.to_nat (header_length header)) data)
        end
  end.

(** ** Draining *)

Definition liveFrameTooOld (b : Broker) (p : HubPeer) (channel : Z) : bool :=
  if negb (hp_role p =? kHUB_PEER_ROLE_CLIENT) then false
  else
    let enqueued_us := EgressQueue_FrontEnqueuedUs (hp_egress p) channel in
    (bk_now_us b >? enqueued_us) && (u64 (bk_now_us b - enqueued_us) >? LIVE_EGRESS_MAX_AGE_US).

(** The inner loop on one channel; [true] when the outer loop goes on.  Each turn pops a frame of the pool of 512. *)
Fixpoint drain_channel (fuel : nat) (peer : nat) (channel : Z) : Hub bool :=
  match fuel with
  | O => mret true
  | S fuel' =>
      p ← peer_at peer;
      b ← gets id;
      match EgressQueue_FrontOfChannel (hp_egress p) channel with
      | None => mret true
      | Some front =>
          if liveFrameTooOld b p channel then
            update_peer peer (on_egress (λ q, EgressQueue_PopChannel q channel));; countDropped peer channel;; drain_channel fuel' peer channel
          else
            granted ← try_egress (hp_peer_id p) channel (frameWireBits front);
            if negb granted then mret true
            else
              sent ← send_frame (hp_peer_id p) channel front;
              if negb sent then mret false
              else
                update_peer peer (on_egress (λ q, EgressQueue_PopChannel q channel));; countForwarded peer channel;;
                drain_channel fuel' peer channel
      end
  end.

Fixpoint drain_channels (visits : nat) (peer : nat) : Hub () :=
  match visits with
  | O => skip
  | S visits' =>
      p ← peer_at peer;
      let '(next, egress) := EgressQueue_NextPendingChannel (hp_egress p) in
      update_peer peer (on_egress (λ _, egress));;
      match next with
      | None => skip
      | Some channel =>
          go_on ← drain_channel (EGRESS_QUEUE_SLOTS_MAX + 1) peer channel;
          if (go_on : bool) then drain_channels visits' peer else skip
      end
  end.

Definition drainPeer (peer : nat) : Hub () := drain_channels EGRESS_QUEUE_CHANNELS_MAX peer.

Definition onPeerWritable (peer_id : Z) : Hub () :=
  peer ← find_peer peer_id; with_some peer drainPeer.

Definition Broker_Tick (now_us : Z) : Hub () :=
  modify (λ b, set_now b now_us);;
  for_peers (λ i p,
    when (hp_role p =? kHUB_PEER_ROLE_UNKNOWN) (tickHelloDeadline i now_us);;
    p ← peer_at i;
    when (EgressQueue_HasPending (hp_egress p)) (drainPeer i)).

(** One channel of [Broker_NextTimeoutMs]: the smaller delay.  Asking for the delay refills the interface's bucket. *)
Definition channel_delay (peer : nat) (best_us : Z) (channel : Z) : Hub Z :=
  p ← peer_at peer;
  if negb (EgressQueue_ChannelPending (hp_egress p) channel) then mret best_us
  else
    match EgressQueue_FrontOfChannel (hp_egress p) channel with
    | None => mret best_us
    | Some front =>
        b ← gets id;
        let '(delay, registry) :=
          InterfaceRegistry_EgressDelayUs (bk_registry b) (hp_peer_id p) channel (frameWireBits front) (bk_now_us b) in
        modify (λ b, set_registry b registry);;
        mret (if (delay >? 0) && (delay <? best_us) then delay else best_us)
    end.
Fixpoint channels_delay (peer : nat) (channel n : nat) (best_us : Z) : Hub Z :=
  match n with
  | O => mret best_us
  | S n' => best_us ← channel_delay peer best_us (Z.of_nat channel); channels_delay peer (S channel) n' best_us
  end.
Fixpoint peers_delay (peer n : nat) (best_us : Z) : Hub Z :=
  match n with
  | O => mret best_us
  | S n' =>
      found ← live_at peer;
      best_us ← match found with
                | None => mret best_us
                | Some p => if negb (EgressQueue_HasPending (hp_egress p)) then mret best_us
                            else channels_delay peer 0 EGRESS_QUEUE_CHANNELS_MAX best_us
                end;
      peers_delay (S peer) n' best_us
  end.
Definition Broker_NextTimeoutMs (cap_ms : Z) : Hub Z :=
  best_us ← peers_delay 0 PEER_DIRECTORY_MAX (u64 (cap_ms * 1000));
  mret (i32 (u64 (best_us + 999) / 1000)).
End frames.
