(* ===== verification/BrokerRules.v ===== *)
(** * The broker: bridge rules (src/hub/broker.c)

    Adding, changing and removing routes and groups on behalf of the admin
    plane, each written through to the store before it applies; the virtual
    interface every group has in the catalogue; start-up. *)

From S2P Require Import Prelude Slots CString SubscribeMessage ControlPlane ClientSession InterfaceRegistry BridgeRoutes BridgeGroups TransactionTable PeerDirectory RejectedPeers BrokerState BrokerPeers.

Definition ADMIN_BRIDGE_STATUS_OK : Z := 0.
Definition ADMIN_BRIDGE_STATUS_INVALID : Z := 1.
Definition ADMIN_BRIDGE_STATUS_FULL : Z := 2.
Definition ADMIN_BRIDGE_STATUS_STORE_FAILED : Z := 3.
Definition ADMIN_BRIDGE_STATUS_UNKNOWN : Z := 4.

Section rules.
Context `{ports : HubPorts}.

(** The store's answer to a write; a hub without a store always succeeds. *)
Definition stored (ask : BridgeStorePort → history → bool) (c : call) : Hub bool :=
  match pt_bridge_store with
  | None => mret true
  | Some store => perform (ask store) c
  end.

Definition isGroupEndpoint (e : BridgeEndpoint) : bool := streq (ep_agent_name e) BRIDGE_GROUP_AGENT_NAME.

(** ** Routes *)

Definition applyBridgeRoute (route : BridgeRoute) : Hub Z :=
  b ← gets id;
  if negb (BridgeRoute_IsValid route) || isGroupEndpoint (br_source route) || isGroupEndpoint (br_destination route)
  then mret ADMIN_BRIDGE_STATUS_INVALID
  else if negb (BridgeRoutes_HasRoom (bk_bridges b) route) then mret ADMIN_BRIDGE_STATUS_FULL
  else
    saved ← stored (λ s h, bs_save s h route) (SaveRoute route);
    if negb saved then mret ADMIN_BRIDGE_STATUS_STORE_FAILED
    else
      modify (λ b, set_rules b (BridgeRoutes_Set (bk_bridges b) route).2 (bk_groups b));;
      mret ADMIN_BRIDGE_STATUS_OK.

Definition removeBridgeRoute (source destination : BridgeEndpoint) : Hub Z :=
  found ← gets (λ b, BridgeRoutes_Find (bk_bridges b) source destination);
  match found with
  | None => mret ADMIN_BRIDGE_STATUS_UNKNOWN
  | Some _ =>
      removed ← stored (λ s h, bs_remove s h source destination) (RemoveRoute source destination);
      if negb removed then mret ADMIN_BRIDGE_STATUS_STORE_FAILED
      else
        modify (λ b, set_rules b (BridgeRoutes_Remove (bk_bridges b) source destination).2 (bk_groups b));;
        mret ADMIN_BRIDGE_STATUS_OK
  end.

(** ** The interface of a group *)

Definition openGroupInterface (name : list Z) : Hub () :=
  b ← gets id;
  match InterfaceRegistry_FindByName (bk_registry b) BRIDGE_GROUP_AGENT_NAME name with
  | Some _ => skip
  | None =>
      let '(added, registry) := InterfaceRegistry_AddVirtual (bk_registry b) BRIDGE_GROUP_AGENT_NAME name in
      modify (λ b, set_registry b registry);;
      with_some added (λ k, reattachInterface (entries registry !!! k))
  end.

Definition closeGroupInterface (name : list Z) : Hub () :=
  entry ← gets (λ b, InterfaceRegistry_FindByName (bk_registry b) BRIDGE_GROUP_AGENT_NAME name);
  with_some entry (λ e,
    detachInterface e;;
    modify (λ b, set_registry b (InterfaceRegistry_RemoveVirtual (bk_registry b) (ie_interface_id e)))).

(** ** Groups *)

Definition applyGroup (name : list Z) (filter_count : Z) (filters : list CanFilter) : Hub Z :=
  b ← gets id;
  if negb (BridgeGroup_IsNameValid name) then mret ADMIN_BRIDGE_STATUS_INVALID
  else if negb (BridgeGroups_HasRoom (bk_groups b) name) then mret ADMIN_BRIDGE_STATUS_FULL
  else if match BridgeGroups_Find (bk_groups b) name with None => true | Some _ => false end
          && (InterfaceRegistry_Count (bk_registry b) >=? Z.of_nat INTERFACE_REGISTRY_MAX) then mret ADMIN_BRIDGE_STATUS_FULL
  else
    let group := {| bg_name := take BRIDGE_GROUP_NAME_SIZE name; bg_filter_count := filter_count; bg_filters := filters; bg_member_count := 0;
                    bg_members := bg_members BridgeGroup_zero |} in
    saved ← stored (λ s h, bs_save_group s h group) (SaveGroup group);
    if negb saved then mret ADMIN_BRIDGE_STATUS_STORE_FAILED
    else
      modify (λ b, set_rules b (bk_bridges b) (BridgeGroups_Set (bk_groups b) (bg_name group) filter_count filters).2);;
      openGroupInterface (bg_name group);;
      mret ADMIN_BRIDGE_STATUS_OK.

Definition removeGroup (name : list Z) : Hub Z :=
  found ← gets (λ b, BridgeGroups_Find (bk_groups b) name);
  match found with
  | None => mret ADMIN_BRIDGE_STATUS_UNKNOWN
  | Some _ =>
      removed ← stored (λ s h, bs_remove_group s h name) (RemoveGroup name);
      if negb removed then mret ADMIN_BRIDGE_STATUS_STORE_FAILED
      else
        closeGroupInterface name;;
        modify (λ b, set_rules b (bk_bridges b) (BridgeGroups_Remove (bk_groups b) name).2);;
        mret ADMIN_BRIDGE_STATUS_OK
  end.

Definition joinGroup (name : list Z) (member : BridgeGroupMember) : Hub Z :=
  found ← gets (λ b, BridgeGroups_Find (bk_groups b) name);
  match found with
  | None => mret ADMIN_BRIDGE_STATUS_UNKNOWN
  | Some slot =>
      if isGroupEndpoint (gm_endpoint member) || negb (BridgeGroupMember_IsValid member) then mret ADMIN_BRIDGE_STATUS_INVALID
      else if negb (BridgeGroup_HasMember (gs_group slot) (gm_endpoint member))
              && (bg_member_count (gs_group slot) =? Z.of_nat BRIDGE_GROUP_MEMBERS_MAX) then mret ADMIN_BRIDGE_STATUS_FULL
      else
        saved ← stored (λ s h, bs_add_member s h name member) (AddMember name member);
        if negb saved then mret ADMIN_BRIDGE_STATUS_STORE_FAILED
        else
          modify (λ b, set_rules b (bk_bridges b) (BridgeGroups_Join (bk_groups b) name member).2);;
          mret ADMIN_BRIDGE_STATUS_OK
  end.

Definition leaveGroup (name : list Z) (member : BridgeEndpoint) : Hub Z :=
  found ← gets (λ b, BridgeGroups_Find (bk_groups b) name);
  match found with
  | None => mret ADMIN_BRIDGE_STATUS_UNKNOWN
  | Some slot =>
      if negb (BridgeGroup_HasMember (gs_group slot) member) then mret ADMIN_BRIDGE_STATUS_UNKNOWN
      else
        removed ← stored (λ s h, bs_remove_member s h name member) (RemoveMember name member);
        if negb removed then mret ADMIN_BRIDGE_STATUS_STORE_FAILED
        else
          modify (λ b, set_rules b (bk_bridges b) (BridgeGroups_Leave (bk_groups b) name member).2);;
          mret ADMIN_BRIDGE_STATUS_OK
  end.

(** ** Start-up *)

(** [while (position < BRIDGE_ROUTES_MAX && load(position, &route)) BridgeRoutes_Set(&route);] *)
Fixpoint load_routes (n position : nat) (load : nat → option BridgeRoute) : Hub () :=
  match n with
  | O => skip
  | S n' =>
      with_some (load position) (λ route,
        modify (λ b, set_rules b (BridgeRoutes_Set (bk_bridges b) route).2 (bk_groups b));; load_routes n' (S position) load)
  end.
Definition loadBridgeRoutes : Hub () := with_some pt_bridge_store (λ store, load_routes BRIDGE_ROUTES_MAX 0 (bs_load store)).

Fixpoint load_groups (n position : nat) (load : nat → option BridgeGroup) : Hub () :=
  match n with
  | O => skip
  | S n' =>
      with_some (load position) (λ group,
        groups ← gets bk_groups;
        let '(restored, groups) := BridgeGroups_Restore groups group in
        modify (λ b, set_rules b (bk_bridges b) groups);;
        when restored (openGroupInterface (bg_name group));;
        load_groups n' (S position) load)
  end.
Definition loadBridgeGroups : Hub () := with_some pt_bridge_store (λ store, load_groups BRIDGE_GROUPS_MAX 0 (bs_load_group store)).

Definition Broker_reset (require_known_peers : bool) : Broker := {|
  bk_registry := InterfaceRegistry_Reset; bk_bridges := BridgeRoutes_Reset; bk_groups := BridgeGroups_Reset;
  bk_directory := PeerDirectory_Reset; bk_metrics := HubMetrics_zero;
  bk_pending_ifconfig := replicate BROKER_PENDING_IFCONFIG_MAX PendingIfconfig_zero; bk_transactions := TransactionTable_Reset;
  bk_next_ifconfig_request_id := 0; bk_rejected_peers := RejectedPeers_Reset; bk_require_known_peers := require_known_peers;
  bk_now_us := 0 |}.

Definition Broker_Init (require_known_peers : bool) : HubState :=
  ((loadBridgeRoutes;; loadBridgeGroups) {| hs_broker := Broker_reset require_known_peers; hs_calls := [] |}).2.
End rules.
