(* ===== verification/BrokerAdmin.v ===== *)
(** * The broker: the admin plane and the dispatch of control messages (src/hub/broker.c)

    Every admin handler answers its requester only, and only a peer of the admin
    role; [control_handlers] is the whole table of [onPeerControl]. *)

From Stdlib Require Import String.
From S2P Require Import Prelude Slots CString Wire Codec HelloMessage RegisterMessage OpenMessage SubscribeMessage ListMessage TxnMessage IfconfigMessage AdminCodec AdminMessage AdminBridge ControlPlane ClientSession InterfaceRegistry.
From S2P Require Import BridgeRoutes BridgeGroups TransactionTable PeerDirectory RejectedPeers AdminViews BrokerState BrokerPeers BrokerControl BrokerHandlers BrokerRules.

Definition ADMIN_STATUS_OK : Z := 0.
Definition ADMIN_STATUS_UNKNOWN_AGENT : Z := 1.
Definition ADMIN_STATUS_UNKNOWN_PEER : Z := 1.
Definition ADMIN_STATUS_PIN_FAILED : Z := 1.
Definition ADMIN_BRIDGE_STATE_SOURCE_ONLINE : Z := 1.
Definition ADMIN_BRIDGE_STATE_DESTINATION_ONLINE : Z := 2.
Definition ADMIN_GROUP_MEMBER_ONLINE : Z := 1.

Section handlers.
Context `{ports : HubPorts}.

(** [if (peer->role != kHUB_PEER_ROLE_ADMIN) return; if (!Decode(&request, ...)) return; body] *)
Definition admin_request {M} (decode : list Z → bool * M) (peer : nat) (payload : list Z) (body : M → Hub ()) : Hub () :=
  p ← peer_at peer;
  if negb (hp_role p =? kHUB_PEER_ROLE_ADMIN) then skip
  else let '(ok, request) := decode payload in if negb ok then skip else body request.

(** ** Status and listings *)

Definition handleAdminStatus (peer : nat) (header : MessageHeader) (payload : list Z) : Hub () :=
  p ← peer_at peer;
  if negb (hp_role p =? kHUB_PEER_ROLE_ADMIN) then skip
  else
    b ← gets id;
    overflows ← asks pt_receive_overflows;
    let m := bk_metrics b in
    sendControl peer (AdminStatusReplyMessage_Encode
      {| as_peer_count := PeerDirectory_Count (bk_directory b); as_agent_count := PeerDirectory_CountRole (bk_directory b) kHUB_PEER_ROLE_AGENT;
         as_client_count := PeerDirectory_CountRole (bk_directory b) kHUB_PEER_ROLE_CLIENT; as_interface_count := InterfaceRegistry_Count (bk_registry b);
         as_receive_overflows := overflows; as_frames_received := hm_frames_received m; as_frames_forwarded := hm_frames_forwarded m;
         as_frames_dropped := hm_frames_dropped m; as_frames_unroutable := hm_frames_unroutable m; as_transactions := hm_transactions m |} encoded).

Definition handleAdminPeers (peer : nat) (header : MessageHeader) (payload : list Z) : Hub () :=
  admin_request (AdminPeersMessage_Decode (offset0 _)) peer payload (λ request,
    reply ← gets (λ b, page_reply (PeerDirectory_List (bk_directory b) (or_offset request) (bk_now_us b)));
    sendControl peer (AdminPeersReplyMessage_Encode reply encoded)).

Definition handleAdminAgents (peer : nat) (header : MessageHeader) (payload : list Z) : Hub () :=
  admin_request (AdminAgentsMessage_Decode (filtered0 _)) peer payload (λ request,
    reply ← gets (λ b, AdminViews_Agents (bk_registry b) (bk_directory b) (fr_agent_name request) (fr_offset request));
    sendControl peer (AdminAgentsReplyMessage_Encode reply encoded)).

Definition handleAdminClients (peer : nat) (header : MessageHeader) (payload : list Z) : Hub () :=
  admin_request (AdminClientsMessage_Decode (filtered0 _)) peer payload (λ request,
    reply ← gets (λ b, AdminViews_Clients (bk_registry b) (bk_directory b) (fr_agent_name request) (fr_offset request));
    sendControl peer (AdminClientsReplyMessage_Encode reply encoded)).

Definition handleAdminInterfaces (peer : nat) (header : MessageHeader) (payload : list Z) : Hub () :=
  admin_request (AdminInterfacesMessage_Decode (offset0 _)) peer payload (λ request,
    reply ← gets (λ b, AdminViews_Interfaces (bk_registry b) (bk_directory b) (or_offset request));
    sendControl peer (AdminInterfacesReplyMessage_Encode reply encoded)).

Definition handleAdminTxns (peer : nat) (header : MessageHeader) (payload : list Z) : Hub () :=
  admin_request (AdminTxnsMessage_Decode (offset0 _)) peer payload (λ request,
    reply ← gets (λ b, AdminViews_Transactions (bk_registry b) (bk_transactions b) (bk_now_us b) (or_offset request));
    sendControl peer (AdminTxnsReplyMessage_Encode reply encoded)).

Definition handleAdminRejected (peer : nat) (header : MessageHeader) (payload : list Z) : Hub () :=
  admin_request (AdminRejectedMessage_Decode (offset0 _)) peer payload (λ request,
    reply ← gets (λ b, page_reply (RejectedPeers_List (bk_rejected_peers b) (or_offset request) (bk_now_us b)));
    sendControl peer (AdminRejectedReplyMessage_Encode reply encoded)).

(** ** Disconnecting peers *)

Definition kicked : list Z := lit "kicked by the hub administrator".

Definition handleAdminKick (peer : nat) (header : MessageHeader) (payload : list Z) : Hub () :=
  admin_request (AdminKickMessage_Decode (agent_name0 _)) peer payload (λ kick,
    agent ← gets (λ b, PeerDirectory_FindAgentByName (bk_directory b) (an_agent_name kick));
    match agent with
    | None => sendControl peer (AdminKickReplyMessage_Encode {| sr_status := ADMIN_STATUS_UNKNOWN_AGENT |} encoded)
    | Some agent =>
        a ← peer_at agent;
        sendControl peer (AdminKickReplyMessage_Encode {| sr_status := ADMIN_STATUS_OK |} encoded);;
        sendError (hp_peer_id a) kERROR_CODE_KICKED kicked;;
        disconnectPeer (hp_peer_id a)
    end).

Definition handleAdminKickPeer (peer : nat) (header : MessageHeader) (payload : list Z) : Hub () :=
  admin_request (AdminKickPeerMessage_Decode {| kp_peer_id := 0 |}) peer payload (λ kick,
    found ← find_peer (kp_peer_id kick);
    let found := match found with Some _ => true | None => false end in
    sendControl peer (AdminKickPeerReplyMessage_Encode {| sr_status := if found then ADMIN_STATUS_OK else ADMIN_STATUS_UNKNOWN_PEER |} encoded);;
    when found (sendError (kp_peer_id kick) kERROR_CODE_KICKED kicked;; disconnectPeer (kp_peer_id kick))).

(** ** Identities and grants *)

Definition handleAdminPinAdd (peer : nat) (header : MessageHeader) (payload : list Z) : Hub () :=
  admin_request (AdminPinAddMessage_Decode pin_add0) peer payload (λ request,
    added ← match pt_identity_store with
            | None => mret false
            | Some store => perform (λ h, id_enroll store h (pa_agent_name request) (pa_fingerprint_hex request))
                              (EnrollIdentity (pa_agent_name request) (pa_fingerprint_hex request))
            end;
    sendControl peer (AdminPinAddReplyMessage_Encode {| sr_status := if (added : bool) then ADMIN_STATUS_OK else ADMIN_STATUS_PIN_FAILED |} encoded)).

Definition handleAdminForget (peer : nat) (header : MessageHeader) (payload : list Z) : Hub () :=
  admin_request (AdminForgetMessage_Decode (agent_name0 _)) peer payload (λ forget,
    forgotten ← match pt_identity_store with
                | None => mret false
                | Some store => perform (λ h, id_forget store h (an_agent_name forget)) (ForgetIdentity (an_agent_name forget))
                end;
    sendControl peer (AdminForgetReplyMessage_Encode {| sr_status := if (forgotten : bool) then ADMIN_STATUS_OK else ADMIN_STATUS_UNKNOWN_AGENT |} encoded)).

(** The page of a store's answer: at most 16 entries. *)
Definition store_page {A E} `{Inhabited A} `{AdminEntry E} (row : A → E) (answer : Z * list A * bool) : AdminReply E :=
  let '(count, array, more) := answer in
  let count := if u8 count >? 16 then 16 else u8 count in
  page_reply ((λ i, row (array !!! i)) <$> seq 0 (Z.to_nat count), more).

Definition pin_row (pin : IdentityPin) : AdminPinsReplyEntry :=
  {| pn_agent_name := ip_agent_name pin; pn_fingerprint_hex := ip_fingerprint_hex pin |}.

Definition handleAdminPins (peer : nat) (header : MessageHeader) (payload : list Z) : Hub () :=
  admin_request (AdminPinsMessage_Decode (offset0 _)) peer payload (λ request,
    reply ← match pt_identity_store with
            | None => mret (page_reply ([], false))
            | Some store => asks (λ h, store_page pin_row (id_list store h (or_offset request) 16))
            end;
    sendControl peer (AdminPinsReplyMessage_Encode reply encoded)).

(** Admin comes with write, write with read. *)
Definition granted_entry (request : AdminAclSetMessage) : AclEntry :=
  let can_admin := negb (sa_can_admin request =? 0) in
  let can_write := negb (sa_can_write request =? 0) || can_admin in
  {| acl_fingerprint_hex := sa_fingerprint_hex request; acl_agent_name := sa_agent_name request; acl_interface_name := sa_interface_name request;
     acl_can_read := negb (sa_can_read request =? 0) || can_write; acl_can_write := can_write; acl_can_admin := can_admin |}.

Definition handleAdminAclSet (peer : nat) (header : MessageHeader) (payload : list Z) : Hub () :=
  admin_request (AdminAclSetMessage_Decode acl_set0) peer payload (λ request,
    let entry := granted_entry request in
    granted ← match pt_authorization with
              | None => mret false
              | Some auth => perform (λ h, auth_grant auth h entry) (GrantAccess entry)
              end;
    sendControl peer (AdminAclSetReplyMessage_Encode {| sr_status := if (granted : bool) then ADMIN_STATUS_OK else ADMIN_STATUS_PIN_FAILED |} encoded)).

Definition handleAdminAclRevoke (peer : nat) (header : MessageHeader) (payload : list Z) : Hub () :=
  admin_request (AdminAclRevokeMessage_Decode acl_revoke0) peer payload (λ request,
    revoked ← match pt_authorization with
              | None => mret false
              | Some auth => perform (λ h, auth_revoke auth h (rv_fingerprint_hex request) (rv_agent_name request) (rv_interface_name request))
                               (RevokeAccess (rv_fingerprint_hex request) (rv_agent_name request) (rv_interface_name request))
              end;
    sendControl peer (AdminAclRevokeReplyMessage_Encode {| sr_status := if (revoked : bool) then ADMIN_STATUS_OK else ADMIN_STATUS_UNKNOWN_AGENT |} encoded)).

Definition acl_row (e : AclEntry) : AdminAclListReplyEntry :=
  {| al_agent_name := acl_agent_name e; al_interface_name := acl_interface_name e; al_fingerprint_hex := acl_fingerprint_hex e;
     al_can_read := b2z (acl_can_read e); al_can_write := b2z (acl_can_write e); al_can_admin := b2z (acl_can_admin e) |}.

Definition handleAdminAclList (peer : nat) (header : MessageHeader) (payload : list Z) : Hub () :=
  admin_request (AdminAclListMessage_Decode (offset0 _)) peer payload (λ request,
    reply ← match pt_authorization with
            | None => mret (page_reply ([], false))
            | Some auth => asks (λ h, store_page acl_row (auth_list auth h (or_offset request) 16))
            end;
    sendControl peer (AdminAclListReplyMessage_Encode reply encoded)).

(** ** Bridges and groups *)

Definition endpointOnline (b : Broker) (e : BridgeEndpoint) : bool :=
  match InterfaceRegistry_FindByName (bk_registry b) (ep_agent_name e) (ep_interface_name e) with Some _ => true | None => false end.

Definition fillBridgeEntry (b : Broker) (s : BridgeRouteSlot) : AdminBridgeListReplyEntry :=
  {| be_source := br_source (rs_route s); be_destination := br_destination (rs_route s); be_filter_count := br_filter_count (rs_route s);
     be_state := Z.lor (if endpointOnline b (br_source (rs_route s)) then ADMIN_BRIDGE_STATE_SOURCE_ONLINE else 0)
                       (if endpointOnline b (br_destination (rs_route s)) then ADMIN_BRIDGE_STATE_DESTINATION_ONLINE else 0);
     be_filters := br_filters (rs_route s); be_forwarded := rs_forwarded s; be_dropped := rs_dropped s |}.

Definition handleAdminBridgeSet (peer : nat) (header : MessageHeader) (payload : list Z) : Hub () :=
  admin_request (AdminBridgeSetMessage_Decode bridge_set0) peer payload (λ request,
    status ← applyBridgeRoute {| br_source := ab_source request; br_destination := ab_destination request;
                                 br_filter_count := ab_filter_count request; br_filters := ab_filters request |};
    sendControl peer (AdminBridgeSetReplyMessage_Encode {| sr_status := status |} encoded)).

Definition handleAdminBridgeDelete (peer : nat) (header : MessageHeader) (payload : list Z) : Hub () :=
  admin_request (AdminBridgeDeleteMessage_Decode bridge_delete0) peer payload (λ request,
    status ← removeBridgeRoute (bd_source request) (bd_destination request);
    sendControl peer (AdminBridgeDeleteReplyMessage_Encode {| sr_status := status |} encoded)).

(** [while (reply.count < MAX) { slot = BridgeRoutes_Nth(offset + reply.count); if (slot == NULL) break; fill; reply.count++; }] *)
Fixpoint bridge_page (b : Broker) (n : nat) (offset : Z) (got : list AdminBridgeListReplyEntry) : list AdminBridgeListReplyEntry :=
  match n with
  | O => got
  | S n' =>
      match BridgeRoutes_Nth (bk_bridges b) (Z.to_nat (u16 (offset + zlen got))) with
      | None => got
      | Some s => bridge_page b n' offset (got ++ [fillBridgeEntry b s])
      end
  end.

Definition handleAdminBridgeList (peer : nat) (header : MessageHeader) (payload : list Z) : Hub () :=
  admin_request (AdminBridgeListMessage_Decode (offset0 _)) peer payload (λ request,
    b ← gets id;
    let got := bridge_page b ADMIN_BRIDGE_LIST_REPLY_ENTRIES_MAX (or_offset request) [] in
    let more := match BridgeRoutes_Nth (bk_bridges b) (Z.to_nat (u16 (or_offset request + zlen got))) with Some _ => true | None => false end in
    sendControl peer (AdminBridgeListReplyMessage_Encode (page_reply (got, more)) encoded)).

Definition sendGroupReply (peer : nat) (type status : Z) : Hub () :=
  sendControl peer (AdminGroupReplyMessage_Encode type {| sr_status := status |} encoded).

Definition handleAdminGroupSet (peer : nat) (header : MessageHeader) (payload : list Z) : Hub () :=
  admin_request (AdminGroupSetMessage_Decode group_set0) peer payload (λ request,
    status ← applyGroup (gq_name request) (gq_filter_count request) (gq_filters request);
    sendGroupReply peer kMESSAGE_TYPE_ADMIN_GROUP_SET_REPLY status).

Definition handleAdminGroupDelete (peer : nat) (header : MessageHeader) (payload : list Z) : Hub () :=
  admin_request (AdminGroupDeleteMessage_Decode group_delete0) peer payload (λ request,
    status ← removeGroup (gd_name request);
    sendGroupReply peer kMESSAGE_TYPE_ADMIN_GROUP_DELETE_REPLY status).

Definition handleAdminGroupJoin (peer : nat) (header : MessageHeader) (payload : list Z) : Hub () :=
  admin_request (AdminGroupMemberMessage_Decode (group_member0 kMESSAGE_TYPE_ADMIN_GROUP_JOIN)) peer payload (λ request,
    status ← joinGroup (gj_name request) {| gm_endpoint := gj_member request; gm_direction := gj_direction request;
                                            gm_filter_count := gj_filter_count request; gm_filters := gj_filters request |};
    sendGroupReply peer kMESSAGE_TYPE_ADMIN_GROUP_JOIN_REPLY status).

Definition handleAdminGroupLeave (peer : nat) (header : MessageHeader) (payload : list Z) : Hub () :=
  admin_request (AdminGroupMemberMessage_Decode (group_member0 kMESSAGE_TYPE_ADMIN_GROUP_LEAVE)) peer payload (λ request,
    status ← leaveGroup (gj_name request) (gj_member request);
    sendGroupReply peer kMESSAGE_TYPE_ADMIN_GROUP_LEAVE_REPLY status).

Definition group_member_row (b : Broker) (m : BridgeGroupMember) : AdminGroupMember :=
  {| am_endpoint := gm_endpoint m; am_state := if endpointOnline b (gm_endpoint m) then ADMIN_GROUP_MEMBER_ONLINE else 0;
     am_direction := gm_direction m; am_filter_count := gm_filter_count m; am_filters := gm_filters m |}.

Definition fillGroupEntry (b : Broker) (s : BridgeGroupSlot) : AdminGroupListReplyEntry :=
  let g := gs_group s in
  {| ge_name := bg_name g; ge_filter_count := bg_filter_count g; ge_member_count := bg_member_count g; ge_filters := bg_filters g;
     ge_forwarded := gs_forwarded s; ge_dropped := gs_dropped s;
     ge_members := list_inserts 0 (group_member_row b <$> members_of g) (replicate 16 GroupMember_zero) |}.

Definition handleAdminGroupList (peer : nat) (header : MessageHeader) (payload : list Z) : Hub () :=
  admin_request (AdminGroupListMessage_Decode (offset0 _)) peer payload (λ request,
    b ← gets id;
    let got := match BridgeGroups_Nth (bk_groups b) (Z.to_nat (or_offset request)) with Some s => [fillGroupEntry b s] | None => [] end in
    let more := match BridgeGroups_Nth (bk_groups b) (Z.to_nat (u16 (or_offset request + zlen got))) with Some _ => true | None => false end in
    sendControl peer (AdminGroupListReplyMessage_Encode (page_reply (got, more)) encoded)).

(** ** Dispatch *)

Definition control_handlers (type : Z) : option (nat → MessageHeader → list Z → Hub ()) :=
  if type =? kMESSAGE_TYPE_HELLO then Some handleHello
  else if type =? kMESSAGE_TYPE_REGISTER then Some handleRegister
  else if type =? kMESSAGE_TYPE_LIST then Some handleList
  else if type =? kMESSAGE_TYPE_OPEN then Some handleOpen
  else if type =? kMESSAGE_TYPE_CLOSE then Some handleClose
  else if type =? kMESSAGE_TYPE_SUBSCRIBE then Some handleSubscribe
  else if type =? kMESSAGE_TYPE_PING then Some handlePing
  else if type =? kMESSAGE_TYPE_CONFIGURE then Some handleConfigure
  else if type =? kMESSAGE_TYPE_ADMIN_STATUS then Some handleAdminStatus
  else if type =? kMESSAGE_TYPE_ADMIN_PEERS then Some handleAdminPeers
  else if type =? kMESSAGE_TYPE_ADMIN_KICK then Some handleAdminKick
  else if type =? kMESSAGE_TYPE_ADMIN_PINS then Some handleAdminPins
  else if type =? kMESSAGE_TYPE_ADMIN_FORGET then Some handleAdminForget
  else if type =? kMESSAGE_TYPE_ADMIN_KICK_PEER then Some handleAdminKickPeer
  else if type =? kMESSAGE_TYPE_ADMIN_AGENTS then Some handleAdminAgents
  else if type =? kMESSAGE_TYPE_ADMIN_CLIENTS then Some handleAdminClients
  else if type =? kMESSAGE_TYPE_ADMIN_INTERFACES then Some handleAdminInterfaces
  else if type =? kMESSAGE_TYPE_ADMIN_TXNS then Some handleAdminTxns
  else if type =? kMESSAGE_TYPE_ADMIN_PIN_ADD then Some handleAdminPinAdd
  else if type =? kMESSAGE_TYPE_ADMIN_ACL_SET then Some handleAdminAclSet
  else if type =? kMESSAGE_TYPE_ADMIN_ACL_REVOKE then Some handleAdminAclRevoke
  else if type =? kMESSAGE_TYPE_ADMIN_ACL_LIST then Some handleAdminAclList
  else if type =? kMESSAGE_TYPE_ADMIN_REJECTED then Some handleAdminRejected
  else if type =? kMESSAGE_TYPE_ADMIN_BRIDGE_SET then Some handleAdminBridgeSet
  else if type =? kMESSAGE_TYPE_ADMIN_BRIDGE_DELETE then Some handleAdminBridgeDelete
  else if type =? kMESSAGE_TYPE_ADMIN_BRIDGE_LIST then Some handleAdminBridgeList
  else if type =? kMESSAGE_TYPE_ADMIN_GROUP_SET then Some handleAdminGroupSet
  else if type =? kMESSAGE_TYPE_ADMIN_GROUP_DELETE then Some handleAdminGroupDelete
  else if type =? kMESSAGE_TYPE_ADMIN_GROUP_JOIN then Some handleAdminGroupJoin
  else if type =? kMESSAGE_TYPE_ADMIN_GROUP_LEAVE then Some handleAdminGroupLeave
  else if type =? kMESSAGE_TYPE_ADMIN_GROUP_LIST then Some handleAdminGroupList
  else if type =? kMESSAGE_TYPE_IFCONFIG_REPLY then Some handleIfconfigReply
  else if type =? kMESSAGE_TYPE_INTERFACE_STATUS then Some handleInterfaceStatus
  else if type =? kMESSAGE_TYPE_TXN_BEGIN then Some handleTxnBegin
  else if type =? kMESSAGE_TYPE_TXN_BEGIN_ACK then Some handleTxnBeginAck
  else if type =? kMESSAGE_TYPE_TXN_TEMPLATE then Some handleTxnContent
  else if type =? kMESSAGE_TYPE_TXN_STEPS then Some handleTxnContent
  else if type =? kMESSAGE_TYPE_TXN_PROGRESS then Some handleTxnProgress
  else if type =? kMESSAGE_TYPE_TXN_STATUS then Some handleTxnStatus
  else if type =? kMESSAGE_TYPE_TXN_ABORT then Some handleTxnAbort
  else if type =? kMESSAGE_TYPE_TXN_ROSTER then Some handleTxnContent
  else if type =? kMESSAGE_TYPE_TXN_ROSTER_REPORT then Some handleTxnRosterReport
  else None.

Definition onPeerControl (peer_id : Z) (data : list Z) (now_us : Z) : Hub () :=
  peer ← find_peer peer_id;
  modify (λ b, set_now b now_us);;
  with_some peer (λ i,
    match MessageHeader_Decode data with
    | None => skip
    | Some header =>
        if Nat.ltb (length data) (MESSAGE_HEADER_SIZE + Z.to_nat (header_length header)) then skip
        else
          with_some (control_handlers (header_type header)) (λ handler,
            handler i header (slice MESSAGE_HEADER_SIZE (Z.to_nat (header_length header)) data);;
            peer ← find_peer peer_id;
            with_some peer (λ i, p ← peer_at i; when (hp_send_failed p) (disconnectPeer peer_id)))
    end).
End handlers.
