(* ===== verification/BrokerLogic.v ===== *)
(** * References between the broker's tables

    The broker's tables refer to each other by ids: a catalogue entry names the
    agent that serves it, a channel names a catalogue entry, a transaction an
    agent and a client, a pending configuration its requester and agent, an echo
    token its client.  The _skeleton_ of a broker is what these references and
    their targets are made of; everything else (counters, queues, names, pacing)
    is erased, so that most of the code leaves it as it is.  [sound] says that
    no reference dangles.  The second part is the logic of triples over it. *)

From S2P Require Import Prelude Slots CString EchoTokens ClientSession InterfaceRegistry TransactionTable PeerDirectory BrokerState EgressQueue.

(** ** The skeleton *)
Record peer_sk := {
  pk_use : bool; pk_id : Z; pk_role : Z; pk_standing : bool * bool;  (** vouched, local *)
  pk_bindings : list (bool * bool * Z);  (** in use, dormant, interface id *)
  pk_owners : list Z;                    (** owners of the echo tokens *)
}.
Record entry_sk := { ek_use : bool; ek_id : Z; ek_agent : Z }.
Record txn_sk := { tk_use : bool; tk_agent : Z; tk_client : Z; tk_iface : Z }.
Record pending_sk := { qk_use : bool; qk_agent : Z; qk_requester : Z; qk_iface : Z }.
Record skeleton := { sk_peers : list peer_sk; sk_entries : list entry_sk; sk_txns : list txn_sk; sk_pending : list pending_sk }.

Definition binding_sk (b : ChannelBinding) : bool * bool * Z := (cb_in_use b, cb_dormant b, cb_interface_id b).
Definition standing (p : HubPeer) : bool * bool := (hp_vouched p, hp_local p).
Definition skel_peer (p : HubPeer) : peer_sk :=
  {| pk_use := hp_in_use p; pk_id := hp_peer_id p; pk_role := hp_role p; pk_standing := standing p; pk_bindings := binding_sk <$> bindings (hp_session p);
     pk_owners := owner_peer_ids (hp_echo_tokens p) |}.
Definition skel_entry (e : InterfaceEntry) : entry_sk :=
  {| ek_use := ie_in_use e; ek_id := ie_interface_id e; ek_agent := ie_agent_peer_id e |}.
Definition skel_txn (t : RelayedTransaction) : txn_sk :=
  {| tk_use := isInUse t; tk_agent := rt_agent_peer_id t; tk_client := rt_client_peer_id t; tk_iface := rt_interface_id t |}.
Definition skel_pending (p : PendingIfconfig) : pending_sk :=
  {| qk_use := pi_in_use p; qk_agent := pi_agent_peer_id p; qk_requester := pi_requester_peer_id p; qk_iface := pi_interface_id p |}.

Definition skel (b : Broker) : skeleton :=
  {| sk_peers := skel_peer <$> peers (bk_directory b); sk_entries := skel_entry <$> entries (bk_registry b);
     sk_txns := skel_txn <$> txns (bk_transactions b); sk_pending := skel_pending <$> bk_pending_ifconfig b |}.

(** Who is there: slot, id, role and standing of every peer. *)
Notation peer_key := (bool * Z * Z * (bool * bool))%type (only parsing).
Definition pk_key (p : peer_sk) : peer_key := (pk_use p, pk_id p, pk_role p, pk_standing p).
Definition keys (S : skeleton) : list peer_key := pk_key <$> sk_peers S.

(** ** Soundness *)
Definition live_as (S : skeleton) (id role : Z) : Prop := ∃ v, (true, id, role, v) ∈ keys S.
Definition has_entry (S : skeleton) (id agent : Z) : Prop := {| ek_use := true; ek_id := id; ek_agent := agent |} ∈ sk_entries S.

(** Between the removal of a leaving agent's entries and that of the configurations
    that wait for it, those configurations have lost their interface: [leaving]
    is the id of that agent, 0 when there is none. *)
Record sound_but (leaving : Z) (S : skeleton) : Prop := {
  sd_sizes : (length (sk_peers S) = 512 ∧ length (sk_entries S) = 256 ∧ length (sk_txns S) = 512 ∧ length (sk_pending S) = 16)%nat;
  sd_unique : ∀ i j id r r' v v', keys S !! i = Some (true, id, r, v) → keys S !! j = Some (true, id, r', v') → i = j;
  sd_ids : ∀ id r, live_as S id r → 0 < id < ECHO_TOKENS_BRIDGE_OWNER;
  sd_bindings : ∀ p c, p ∈ sk_peers S → c ∈ pk_bindings p → c.1.1 = true →
    pk_use p = true ∧ pk_role p = kHUB_PEER_ROLE_CLIENT ∧ (c.1.2 = false → ∃ agent, has_entry S c.2 agent);
  sd_owners : ∀ p o, p ∈ sk_peers S → o ∈ pk_owners p → o ≠ NO_OWNER →
    pk_use p = true ∧ pk_role p = kHUB_PEER_ROLE_AGENT ∧ (o = ECHO_TOKENS_BRIDGE_OWNER ∨ live_as S o kHUB_PEER_ROLE_CLIENT);
  sd_tokens : ∀ p i j o, p ∈ sk_peers S → pk_owners p !! i = Some o → pk_owners p !! j = Some o → o ≠ NO_OWNER → i = j;
  sd_entries : ∀ id agent, has_entry S id agent → agent = INTERFACE_REGISTRY_HUB_PEER ∨ live_as S agent kHUB_PEER_ROLE_AGENT;
  sd_txns : ∀ t, t ∈ sk_txns S → tk_use t = true →
    live_as S (tk_agent t) kHUB_PEER_ROLE_AGENT ∧ (tk_client t = 0 ∨ live_as S (tk_client t) kHUB_PEER_ROLE_CLIENT);
  sd_txn_agents : ∀ i j t t', sk_txns S !! i = Some t → sk_txns S !! j = Some t' → tk_use t = true → tk_use t' = true →
    tk_agent t = tk_agent t' → i = j;
  sd_pending : ∀ q, q ∈ sk_pending S → qk_use q = true →
    live_as S (qk_agent q) kHUB_PEER_ROLE_AGENT ∧ ∃ r, live_as S (qk_requester q) r;
  sd_admins : ∀ id v, (true, id, kHUB_PEER_ROLE_ADMIN, v) ∈ keys S → v.2 = true;
  sd_txn_entries : ∀ t, t ∈ sk_txns S → tk_use t = true → has_entry S (tk_iface t) (tk_agent t);
  sd_pending_entries : ∀ q, q ∈ sk_pending S → qk_use q = true → qk_agent q ≠ leaving → has_entry S (qk_iface q) (qk_agent q);
}.
Arguments sd_sizes {leaving} S _.
Arguments sd_unique {leaving} S _.
Arguments sd_ids {leaving} S _.
Arguments sd_bindings {leaving} S _.
Arguments sd_owners {leaving} S _.
Arguments sd_tokens {leaving} S _.
Arguments sd_entries {leaving} S _.
Arguments sd_txns {leaving} S _.
Arguments sd_txn_agents {leaving} S _.
Arguments sd_pending {leaving} S _.
Arguments sd_admins {leaving} S _.
Arguments sd_txn_entries {leaving} S _.
Arguments sd_pending_entries {leaving} S _.
Notation sound := (sound_but 0).

(** ** Replacing one table *)
Definition sk_with_peers (S : skeleton) (ps : list peer_sk) : skeleton :=
  {| sk_peers := ps; sk_entries := sk_entries S; sk_txns := sk_txns S; sk_pending := sk_pending S |}.
Definition sk_with_entries (S : skeleton) (es : list entry_sk) : skeleton :=
  {| sk_peers := sk_peers S; sk_entries := es; sk_txns := sk_txns S; sk_pending := sk_pending S |}.
Definition sk_with_txns (S : skeleton) (ts : list txn_sk) : skeleton :=
  {| sk_peers := sk_peers S; sk_entries := sk_entries S; sk_txns := ts; sk_pending := sk_pending S |}.
Definition sk_with_pending (S : skeleton) (qs : list pending_sk) : skeleton :=
  {| sk_peers := sk_peers S; sk_entries := sk_entries S; sk_txns := sk_txns S; sk_pending := qs |}.

Lemma elem_of_insert_cases {A} (l : list A) i x y : y ∈ <[i := x]> l → y = x ∨ y ∈ l.
Proof.
  intros (j & Hj)%list_elem_of_lookup_1. apply list_lookup_insert_Some in Hj as [(_ & -> & _)|(_ & Hj)]; [by left|].
  right. by eapply list_elem_of_lookup_2.
Qed.

Lemma fmap_alter_same {A B} (g : A → B) (f : A → A) i (l : list A) : (∀ x, g (f x) = g x) → g <$> alter f i l = g <$> l.
Proof.
  intros Hf. apply list_eq. intros j. rewrite !list_lookup_fmap. destruct (decide (i = j)) as [->|].
  - rewrite list_lookup_alter_eq. destruct (l !! j); simpl; [by rewrite Hf|done].
  - by rewrite list_lookup_alter_ne.
Qed.

(** The peers' keys are kept: whoever was there is still there. *)
Lemma live_as_keys S S' id r : keys S' = keys S → live_as S id r → live_as S' id r.
Proof. unfold live_as. by intros ->. Qed.

Lemma sound_peers S ps :
  sound S → pk_key <$> ps = keys S →
  (∀ p c, p ∈ ps → c ∈ pk_bindings p → c.1.1 = true →
    pk_use p = true ∧ pk_role p = kHUB_PEER_ROLE_CLIENT ∧ (c.1.2 = false → ∃ agent, has_entry S c.2 agent)) →
  (∀ p o, p ∈ ps → o ∈ pk_owners p → o ≠ NO_OWNER →
    pk_use p = true ∧ pk_role p = kHUB_PEER_ROLE_AGENT ∧ (o = ECHO_TOKENS_BRIDGE_OWNER ∨ live_as S o kHUB_PEER_ROLE_CLIENT)) →
  (∀ p i j o, p ∈ ps → pk_owners p !! i = Some o → pk_owners p !! j = Some o → o ≠ NO_OWNER → i = j) →
  sound (sk_with_peers S ps).
Proof.
  intros [Hs Hu Hi Hb Ho Hk0 He Ht Hta Hq Had Hte Hqe] Hk Hb' Ho' Htk.
  assert (keys (sk_with_peers S ps) = keys S) as Hk' by done.
  split; unfold live_as in *; rewrite ?Hk'; try done.
  cbn [sk_with_peers sk_peers sk_entries sk_txns sk_pending]. unfold keys in Hk. apply (f_equal length) in Hk.
  rewrite !length_fmap in Hk. by rewrite Hk.
Qed.

(** The agent of a transaction or of a pending configuration has an id. *)
Lemma agents_named leaving S : sound_but leaving S →
  (∀ t, t ∈ sk_txns S → tk_use t = true → tk_agent t ≠ 0) ∧ (∀ q, q ∈ sk_pending S → qk_use q = true → qk_agent q ≠ 0).
Proof.
  intros Hs. split.
  - intros t Ht Hu. destruct (sd_txns S Hs t Ht Hu) as [Hl _]. apply (sd_ids S Hs) in Hl. lia.
  - intros q Hq Hu. destruct (sd_pending S Hs q Hq Hu) as [Hl _]. apply (sd_ids S Hs) in Hl. lia.
Qed.

(** The catalogue replaced, the entries of every agent but [leaving] kept. *)
Lemma sound_entries leaving S es :
  sound S → length es = length (sk_entries S) →
  (∀ e, e ∈ es → ek_use e = true → ek_agent e = INTERFACE_REGISTRY_HUB_PEER ∨ live_as S (ek_agent e) kHUB_PEER_ROLE_AGENT) →
  (∀ p c, p ∈ sk_peers S → c ∈ pk_bindings p → c.1.1 = true → c.1.2 = false →
    ∃ agent, {| ek_use := true; ek_id := c.2; ek_agent := agent |} ∈ es) →
  (∀ id agent, has_entry S id agent → agent ≠ 0 → agent ≠ leaving → {| ek_use := true; ek_id := id; ek_agent := agent |} ∈ es) →
  (∀ t, t ∈ sk_txns S → tk_use t = true → tk_agent t ≠ leaving) →
  sound_but leaving (sk_with_entries S es).
Proof.
  intros Hsd Hl Hes Hbs Hkeep Hleft. destruct (agents_named 0 S Hsd) as [Htn Hqn].
  destruct Hsd as [Hs Hu Hi Hb Ho Hk He Ht Hta Hq Had Hte Hqe]. split; try done.
  - cbn [sk_with_entries sk_entries sk_peers sk_txns sk_pending]. by rewrite Hl.
  - intros p c Hp Hc Huse. destruct (Hb p c Hp Hc Huse) as (? & ? & _). split_and!; [done..|]. intros Hd. by apply (Hbs p).
  - intros id agent Hin. by apply (Hes _ Hin).
  - intros t Hin Huse. apply Hkeep; [by apply Hte|by apply Htn|by apply Hleft].
  - intros q Hin Huse Hne. apply Hkeep; [apply Hqe; [done..|by apply Hqn]|by apply Hqn|done].
Qed.

Lemma sound_txns S ts :
  sound S → length ts = length (sk_txns S) →
  (∀ t, t ∈ ts → tk_use t = true →
    live_as S (tk_agent t) kHUB_PEER_ROLE_AGENT ∧ (tk_client t = 0 ∨ live_as S (tk_client t) kHUB_PEER_ROLE_CLIENT) ∧ has_entry S (tk_iface t) (tk_agent t)) →
  (∀ i j t t', ts !! i = Some t → ts !! j = Some t' → tk_use t = true → tk_use t' = true → tk_agent t = tk_agent t' → i = j) →
  sound (sk_with_txns S ts).
Proof.
  intros [Hs Hu Hi Hb Ho Hk He Ht Hta Hq Had Hte Hqe] Hl Hts Hu'. split; try done.
  - cbn [sk_with_txns sk_entries sk_peers sk_txns sk_pending]. by rewrite Hl.
  - intros t Hin Huse. destruct (Hts t Hin Huse) as (? & ? & _). done.
  - intros t Hin Huse. by apply (Hts t Hin Huse).
Qed.

Lemma sound_pending leaving leaving' S qs :
  sound_but leaving S → length qs = length (sk_pending S) →
  (∀ q, q ∈ qs → qk_use q = true → live_as S (qk_agent q) kHUB_PEER_ROLE_AGENT ∧ (∃ r, live_as S (qk_requester q) r) ∧
    (qk_agent q ≠ leaving' → has_entry S (qk_iface q) (qk_agent q))) →
  sound_but leaving' (sk_with_pending S qs).
Proof.
  intros [Hs Hu Hi Hb Ho Hk He Ht Hta Hq Had Hte Hqe] Hl Hqs. split; try done.
  - cbn [sk_with_pending sk_entries sk_peers sk_txns sk_pending]. by rewrite Hl.
  - intros q Hin Huse. destruct (Hqs q Hin Huse) as (? & ? & _). done.
  - intros q Hin Huse Hne. by apply (Hqs q Hin Huse).
Qed.

(** One peer replaced, its key kept. *)
Lemma keys_insert S i p p' :
  sk_peers S !! i = Some p → pk_key p' = pk_key p → keys (sk_with_peers S (<[i := p']> (sk_peers S))) = keys S.
Proof.
  intros Hp Hk. unfold keys. cbn [sk_with_peers sk_peers]. rewrite list_fmap_insert, Hk. apply list_insert_id.
  by rewrite list_lookup_fmap, Hp.
Qed.

Lemma sound_peer S i p p' :
  sound S → sk_peers S !! i = Some p → pk_key p' = pk_key p →
  (∀ c, c ∈ pk_bindings p' → c.1.1 = true →
    pk_use p = true ∧ pk_role p = kHUB_PEER_ROLE_CLIENT ∧ (c.1.2 = false → ∃ agent, has_entry S c.2 agent)) →
  (∀ o, o ∈ pk_owners p' → o ≠ NO_OWNER →
    pk_use p = true ∧ pk_role p = kHUB_PEER_ROLE_AGENT ∧ (o = ECHO_TOKENS_BRIDGE_OWNER ∨ live_as S o kHUB_PEER_ROLE_CLIENT)) →
  (∀ i j o, pk_owners p' !! i = Some o → pk_owners p' !! j = Some o → o ≠ NO_OWNER → i = j) →
  sound (sk_with_peers S (<[i := p']> (sk_peers S))).
Proof.
  intros Hs Hp Hk Hb Ho Hu. pose proof Hk as [= Hk1 Hk2 Hk3 _]. apply sound_peers; [done|exact (keys_insert S i p p' Hp Hk)|..].
  - intros q c [->|Hq]%elem_of_insert_cases Hc Hl; [|by apply (sd_bindings S Hs q)]. rewrite Hk1, Hk3. by apply Hb.
  - intros q o [->|Hq]%elem_of_insert_cases Hoq Hn; [|by apply (sd_owners S Hs q)]. rewrite Hk1, Hk3. by apply Ho.
  - intros q j k o [->|Hq]%elem_of_insert_cases; [by apply Hu|by apply (sd_tokens S Hs q)].
Qed.

(** A session that only loses bindings or puts them to sleep. *)
Lemma sound_peer_bindings S i p p' :
  sound S → sk_peers S !! i = Some p → pk_key p' = pk_key p → pk_owners p' = pk_owners p →
  (∀ c, c ∈ pk_bindings p' → c.1.1 = true → ∃ c0, c0 ∈ pk_bindings p ∧ c0.1.1 = true ∧ (c.1.2 = false → c = c0)) →
  sound (sk_with_peers S (<[i := p']> (sk_peers S))).
Proof.
  intros Hs Hp Hk Ho Hb. assert (p ∈ sk_peers S) as Hin by (by eapply list_elem_of_lookup_2).
  apply (sound_peer S i p p'); [done..| | |].
  - intros c Hc Hl. destruct (Hb c Hc Hl) as (c0 & Hc0 & Hl0 & Heq). destruct (sd_bindings S Hs p c0 Hin Hc0 Hl0) as (? & ? & Hex).
    split_and!; [done..|]. intros Hd. specialize (Heq Hd) as ->. by apply Hex.
  - rewrite Ho. intros o. by apply (sd_owners S Hs p).
  - rewrite Ho. intros j k o. by apply (sd_tokens S Hs p).
Qed.

(** A token table changed. *)
Lemma sound_peer_owners S i p p' :
  sound S → sk_peers S !! i = Some p → pk_key p' = pk_key p → pk_bindings p' = pk_bindings p →
  (∀ o, o ∈ pk_owners p' → o ≠ NO_OWNER → o ∈ pk_owners p ∨
    (pk_use p = true ∧ pk_role p = kHUB_PEER_ROLE_AGENT ∧ (o = ECHO_TOKENS_BRIDGE_OWNER ∨ live_as S o kHUB_PEER_ROLE_CLIENT))) →
  (∀ i j o, pk_owners p' !! i = Some o → pk_owners p' !! j = Some o → o ≠ NO_OWNER → i = j) →
  sound (sk_with_peers S (<[i := p']> (sk_peers S))).
Proof.
  intros Hs Hp Hk Hb Ho Hu. assert (p ∈ sk_peers S) as Hin by (by eapply list_elem_of_lookup_2).
  apply (sound_peer S i p p'); [done..| | |done].
  - rewrite Hb. intros c. by apply (sd_bindings S Hs p).
  - intros o Hop Hn. destruct (Ho o Hop Hn) as [Hold|?]; [|done]. by apply (sd_owners S Hs p).
Qed.

(** An id names one live peer. *)
Lemma live_as_role {leaving} S id r r' : sound_but leaving S → live_as S id r → live_as S id r' → r = r'.
Proof.
  intros Hs (v & (i & Hi)%list_elem_of_lookup_1) (v' & (j & Hj)%list_elem_of_lookup_1). pose proof (sd_unique S Hs i j id r r' v v' Hi Hj) as ->. congruence.
Qed.

(** * Reasoning about the broker's code

    [tri F m G] is a triple over skeletons: from a state whose skeleton satisfies
    [F], the code [m] returns [a] in a state whose skeleton satisfies [G a].
    [quiet m] says that [m] leaves the skeleton alone, so every [F] goes through
    it; sending, counting, queueing and asking the ports are all quiet. *)
Definition tri {A} (F : skeleton → Prop) (m : Hub A) (G : A → skeleton → Prop) : Prop :=
  ∀ s, F (skel (hs_broker s)) → G (m s).1 (skel (hs_broker (m s).2)).

Definition quiet {A} (m : Hub A) : Prop := ∀ s, skel (hs_broker (m s).2) = skel (hs_broker s).

(** [m] does not change the part [f] of the skeleton. *)
Definition fixes {X A} (f : skeleton → X) (m : Hub A) : Prop := ∀ s, f (skel (hs_broker (m s).2)) = f (skel (hs_broker s)).

(** ** Structural rules *)
Section rules.
Context {A B : Type}.

Lemma tri_ret F (a : A) (G : A → skeleton → Prop) : (∀ S, F S → G a S) → tri F (mret a) G.
Proof. intros H s Hs. by apply H. Qed.

Lemma tri_bind F (m : Hub A) G (k : A → Hub B) H : tri F m G → (∀ a, tri (G a) (k a) H) → tri F (m ≫= k) H.
Proof.
  intros Hm Hk s Hs. specialize (Hm s Hs). unfold mbind, Hub_bind. destruct (m s) as [a s']. by apply Hk.
Qed.

Lemma tri_conseq F F' (m : Hub A) G G' : (∀ S, F S → F' S) → (∀ a S, G' a S → G a S) → tri F' m G' → tri F m G.
Proof. intros Hf Hg Hm s Hs. by apply Hg, Hm, Hf. Qed.

Lemma tri_quiet F (m : Hub A) : quiet m → tri F m (λ _, F).
Proof. intros Hq s Hs. by rewrite Hq. Qed.

Lemma tri_and F F' (m : Hub A) G G' : tri F m G → tri F' m G' → tri (λ S, F S ∧ F' S) m (λ a S, G a S ∧ G' a S).
Proof. intros H H' s [Hs Hs']. split; [by apply H|by apply H']. Qed.

Lemma tri_gets F (f : Broker → A) (G : A → skeleton → Prop) : (∀ b, F (skel b) → G (f b) (skel b)) → tri F (gets f) G.
Proof. intros H s Hs. by apply H. Qed.

Lemma tri_modify F (f : Broker → Broker) (G : () → skeleton → Prop) : (∀ b, F (skel b) → G () (skel (f b))) → tri F (modify f) G.
Proof. intros H s Hs. by apply H. Qed.

Lemma quiet_ret (a : A) : quiet (mret a).
Proof. done. Qed.
Lemma quiet_bind (m : Hub A) (k : A → Hub B) : quiet m → (∀ a, quiet (k a)) → quiet (m ≫= k).
Proof. intros Hm Hk s. unfold mbind, Hub_bind. specialize (Hm s). destruct (m s) as [a s']. by rewrite Hk. Qed.
Lemma quiet_gets (f : Broker → A) : quiet (gets f).
Proof. done. Qed.
Lemma quiet_asks (f : list call → A) : quiet (asks f).
Proof. done. Qed.
Lemma quiet_perform (f : list call → A) c : quiet (perform f c).
Proof. done. Qed.

Context {X : Type} (f : skeleton → X).
Lemma fixes_bind (m : Hub A) (k : A → Hub B) : fixes f m → (∀ a, fixes f (k a)) → fixes f (m ≫= k).
Proof. intros Hm Hk s. unfold mbind, Hub_bind. specialize (Hm s). destruct (m s) as [a s']. by rewrite Hk. Qed.
Lemma fixes_quiet (m : Hub A) : quiet m → fixes f m.
Proof. intros Hq s. by rewrite Hq. Qed.
Lemma fixes_tri (P : X → Prop) (m : Hub A) : fixes f m → tri (λ S, P (f S)) m (λ _ S, P (f S)).
Proof. intros Hm s Hs. by rewrite Hm. Qed.
End rules.

Section fixes.
Context {X : Type} (f : skeleton → X).
Lemma fixes_modify g : (∀ b, f (skel (g b)) = f (skel b)) → fixes f (modify g).
Proof. intros H s. apply H. Qed.
Lemma fixes_when b m : fixes f m → fixes f (when b m).
Proof. by destruct b. Qed.
Lemma fixes_with_some {A} (o : option A) m : (∀ a, fixes f (m a)) → fixes f (with_some o m).
Proof. intros H. destruct o; [apply H|done]. Qed.
Lemma fixes_for_range from n body : (∀ i, fixes f (body i)) → fixes f (for_range from n body).
Proof. intros H. revert from. induction n as [|n IH]; intros from; cbn [for_range]; [done|]. apply fixes_bind; [apply H|intros []; apply IH]. Qed.
Lemma fixes_for_peers body : (∀ i p, fixes f (body i p)) → fixes f (for_peers body).
Proof. intros H. apply fixes_for_range. intros i. apply fixes_bind; [done|]. intros o. apply fixes_with_some, H. Qed.
Lemma fixes_repeat_while fuel step : fixes f step → fixes f (repeat_while fuel step).
Proof. intros H. induction fuel as [|fuel IH]; cbn [repeat_while]; [done|]. apply fixes_bind; [done|]. by intros [|]. Qed.
(** The peers' table is not part of [f]. *)
Lemma fixes_update_peer i g : (∀ S ps, f (sk_with_peers S ps) = f S) → fixes f (update_peer i g).
Proof. intros Hf. apply fixes_modify. intros b. apply (Hf (skel b)). Qed.
End fixes.

(** An update that keeps the peer's slot, id and role. *)
Lemma keys_update_peer i g : (∀ p, pk_key (skel_peer (g p)) = pk_key (skel_peer p)) → fixes keys (update_peer i g).
Proof.
  intros Hg. apply fixes_modify. intros b. unfold keys, skel. cbn [set_directory bk_directory sk_peers peers].
  rewrite <- !list_fmap_compose. by apply fmap_alter_same.
Qed.

Lemma quiet_modify f : (∀ b, skel (f b) = skel b) → quiet (modify f).
Proof. intros H s. apply H. Qed.
Lemma quiet_skip : quiet skip.
Proof. done. Qed.
Lemma quiet_when b m : quiet m → quiet (when b m).
Proof. by destruct b. Qed.
Lemma quiet_with_some {A} (o : option A) m : (∀ a, quiet (m a)) → quiet (with_some o m).
Proof. intros H. destruct o; [apply H|done]. Qed.

Lemma quiet_for_range from n body : (∀ i, quiet (body i)) → quiet (for_range from n body).
Proof. intros H. revert from. induction n as [|n IH]; intros from; cbn [for_range]; [done|]. apply quiet_bind; [apply H|intros []; apply IH]. Qed.
Lemma quiet_for_peers body : (∀ i p, quiet (body i p)) → quiet (for_peers body).
Proof. intros H. apply quiet_for_range. intros i. apply quiet_bind; [done|]. intros o. apply quiet_with_some, H. Qed.

(** An update of a peer that only touches what the skeleton forgets. *)
Lemma quiet_update_peer i f : (∀ p, skel_peer (f p) = skel_peer p) → quiet (update_peer i f).
Proof.
  intros Hf. apply quiet_modify. intros b. unfold skel. cbn [set_directory bk_directory bk_registry bk_transactions bk_pending_ifconfig peers].
  by rewrite fmap_alter_same.
Qed.

(** Loops: the invariant may depend on the index. *)
Lemma tri_for_range (I : nat → skeleton → Prop) n from body :
  (∀ i, (from ≤ i < from + n)%nat → tri (I i) (body i) (λ _, I (S i))) → tri (I from) (for_range from n body) (λ _, I (from + n)%nat).
Proof.
  revert from. induction n as [|n IH]; intros from Hb; cbn [for_range].
  - apply tri_ret. intros S. by rewrite Nat.add_0_r.
  - eapply tri_bind; [apply Hb; lia|]. intros []. replace (from + S n)%nat with (S from + n)%nat by lia. apply IH. intros i Hi. apply Hb. lia.
Qed.

Lemma tri_repeat_while (I : skeleton → Prop) fuel step : tri I step (λ _, I) → tri I (repeat_while fuel step) (λ _, I).
Proof.
  intros Hs. induction fuel as [|fuel IH]; cbn [repeat_while]; [by apply tri_ret|].
  eapply tri_bind; [exact Hs|]. intros [|]; [exact IH|by apply tri_ret].
Qed.

(** Reading a peer's slot. *)
Lemma tri_peer_at F i (G : HubPeer → skeleton → Prop) :
  (∀ S, F S → (i < length (sk_peers S))%nat) →
  (∀ p S, F S → sk_peers S !! i = Some (skel_peer p) → G p S) → tri F (peer_at i) G.
Proof.
  intros Hi HG. apply tri_gets. intros b Hb. apply HG; [done|]. specialize (Hi _ Hb). revert Hi. unfold skel. cbn [sk_peers].
  rewrite length_fmap. intros Hi. rewrite list_lookup_fmap, (list_lookup_lookup_total_lt _ i) by done. done.
Qed.

(** [for_peers]: the body sees the peer its slot holds. *)
Lemma tri_for_peers_index (I : nat → skeleton → Prop) body :
  (∀ S i, I i S → length (sk_peers S) = 512%nat) →
  (∀ i p, tri (λ S, I i S ∧ sk_peers S !! i = Some (skel_peer p) ∧ hp_in_use p = true) (body i p) (λ _, I (Datatypes.S i))) →
  (∀ S i q, I i S → sk_peers S !! i = Some q → pk_use q = false → I (Datatypes.S i) S) →
  tri (I 0%nat) (for_peers body) (λ _, I 512%nat).
Proof.
  intros Hlen Hb Hskip. unfold for_peers. apply (tri_for_range I 512 0). intros i Hi.
  apply (tri_bind _ _ (λ o S, I i S ∧ match o with
    | Some p => sk_peers S !! i = Some (skel_peer p) ∧ hp_in_use p = true
    | None => ∃ q, sk_peers S !! i = Some q ∧ pk_use q = false end)).
  - apply tri_gets. intros b Hb'. split; [done|]. pose proof (Hlen _ _ Hb') as Hl. revert Hl. unfold skel. cbn [sk_peers].
    rewrite length_fmap. intros Hl. unfold PeerDirectory_At. rewrite (proj2 (Nat.leb_gt 512 i)) by lia.
    destruct (peers (bk_directory b) !! i) as [p|] eqn:Hp; [|apply lookup_ge_None in Hp; lia]. cbn.
    destruct (hp_in_use p) eqn:Hu; rewrite list_lookup_fmap, Hp; [done|]. by exists (skel_peer p).
  - intros [p|]; cbn [with_some].
    + exact (Hb i p).
    + apply tri_ret. intros S [HI (q & Hq & Hu)]. by apply (Hskip S i q).
Qed.

Lemma tri_for_peers (I : skeleton → Prop) body :
  (∀ S, I S → length (sk_peers S) = 512%nat) →
  (∀ i p, tri (λ S, I S ∧ sk_peers S !! i = Some (skel_peer p) ∧ hp_in_use p = true) (body i p) (λ _, I)) →
  tri I (for_peers body) (λ _, I).
Proof. intros Hlen Hb. apply (tri_for_peers_index (λ _, I)); eauto. Qed.

(** Updating a peer's slot. *)
Lemma tri_update_peer F i f (G : () → skeleton → Prop) :
  (∀ S p, F S → sk_peers S !! i = Some (skel_peer p) → G () (sk_with_peers S (<[i := skel_peer (f p)]> (sk_peers S)))) →
  (∀ S, F S → sk_peers S !! i = None → G () S) →
  tri F (update_peer i f) G.
Proof.
  intros Hin Hout. apply tri_modify. intros b Hb. unfold skel in *.
  cbn [set_directory bk_directory bk_registry bk_transactions bk_pending_ifconfig peers] in *.
  destruct (peers (bk_directory b) !! i) as [p|] eqn:Hp.
  - rewrite (alter_insert_at f _ i p Hp), list_fmap_insert. apply (Hin _ p Hb). cbn [sk_peers]. by rewrite list_lookup_fmap, Hp.
  - assert (alter f i (peers (bk_directory b)) = peers (bk_directory b)) as ->.
    { apply list_eq. intros j. destruct (decide (i = j)) as [->|]; [by rewrite list_lookup_alter_eq, Hp|by rewrite list_lookup_alter_ne]. }
    apply (Hout _ Hb). cbn [sk_peers]. by rewrite list_lookup_fmap, Hp.
Qed.

(** What a found peer is. *)
Lemma find_peer_skel b id i :
  PeerDirectory_Find (bk_directory b) id = Some i → ∃ r v, keys (skel b) !! i = Some (true, id, r, v).
Proof.
  intros (p & Hp & [Hu Hid]%is_peer_true)%scan_hit. exists (hp_role p), (standing p). unfold keys, skel. cbn [sk_peers].
  rewrite !list_lookup_fmap, Hp. cbn. unfold pk_key, skel_peer. cbn. by rewrite Hu, Hid.
Qed.

Lemma find_peer_none b id : PeerDirectory_Find (bk_directory b) id = None → ∀ r, ¬ live_as (skel b) id r.
Proof.
  intros Hn r (v & (i & Hi)%list_elem_of_lookup_1). unfold keys, skel in Hi. cbn [sk_peers] in Hi. rewrite !list_lookup_fmap in Hi.
  destruct (peers (bk_directory b) !! i) as [p|] eqn:Hp; [|done]. cbn in Hi. injection Hi as Hu Hid _ _.
  by apply (proj1 (directory_find_None _ _) Hn i p Hp Hu).
Qed.

Lemma key_live S i id r v : keys S !! i = Some (true, id, r, v) → live_as S id r.
Proof. intros H. exists v. by eapply list_elem_of_lookup_2. Qed.

Lemma find_entry_skel b P e : (∀ x, P x = true → ie_in_use x = true) → find_entry (bk_registry b) P = Some e →
  has_entry (skel b) (ie_interface_id e) (ie_agent_peer_id e).
Proof.
  intros HP. unfold find_entry. intros He. destruct (scan P (entries (bk_registry b))) as [k|] eqn:Hs; [|done].
  apply scan_hit in Hs as (x & Hx & HPx). cbn in He. rewrite Hx in He. injection He as ->.
  apply (list_elem_of_lookup_2 _ k). unfold skel. cbn [sk_entries]. rewrite list_lookup_fmap, Hx. cbn. unfold skel_entry.
  by rewrite (HP _ HPx).
Qed.

(** A loop that updates every live peer that [c] selects. *)
Definition on_live (c : HubPeer → bool) (f : HubPeer → HubPeer) (p : HubPeer) : HubPeer := if hp_in_use p && c p then f p else p.

Definition with_peers (s : HubState) (ps : list HubPeer) : HubState :=
  {| hs_broker := set_directory (hs_broker s) {| peers := ps |}; hs_calls := hs_calls s |}.

Lemma for_peers_body (c : HubPeer → bool) (f : HubPeer → HubPeer) (i : nat) (s : HubState) : (i < 512)%nat →
  (p ← live_at i; with_some p (λ p, if c p then update_peer i f else skip)) s =
    ((), with_peers s (alter (on_live c f) i (peers (bk_directory (hs_broker s))))).
Proof.
  intros Hi. set (l := peers (bk_directory (hs_broker s))).
  assert (with_peers s l = s) as Hs by (by destruct s as [[? ? ? []] ?]).
  assert ((p ← live_at i; with_some p (λ p, if c p then update_peer i f else skip)) s =
    with_some (p ← l !! i; if hp_in_use p then Some p else None) (λ p, if c p then update_peer i f else skip) s) as ->.
  { unfold live_at, gets, mbind, Hub_bind, PeerDirectory_At. by rewrite (proj2 (Nat.leb_gt 512 i)) by lia. }
  destruct (l !! i) as [p|] eqn:Hp; cbn.
  - rewrite (alter_insert_at _ _ i p Hp). unfold on_live. destruct (hp_in_use p); cbn; [destruct (c p)|].
    + by rewrite <- (alter_insert_at f _ i p Hp).
    + rewrite list_insert_id by done. by rewrite Hs.
    + rewrite list_insert_id by done. by rewrite Hs.
  - assert (alter (on_live c f) i l = l) as ->; [|by rewrite Hs].
    apply list_eq. intros j. destruct (decide (i = j)) as [->|]; [by rewrite list_lookup_alter_eq, Hp|by rewrite list_lookup_alter_ne].
Qed.

Lemma for_peers_update (c : HubPeer → bool) (f : HubPeer → HubPeer) (s : HubState) :
  length (peers (bk_directory (hs_broker s))) = 512%nat →
  (for_peers (λ i p, if c p then update_peer i f else skip) s).2 = with_peers s (on_live c f <$> peers (bk_directory (hs_broker s))).
Proof.
  intros Hlen. unfold for_peers.
  assert (∀ n from s, (from + n ≤ 512)%nat → ∃ ps,
    (for_range from n (λ i, p ← live_at i; with_some p (λ p, if c p then update_peer i f else skip)) s).2 = with_peers s ps ∧
    ∀ j, ps !! j = (if decide (from ≤ j < from + n)%nat then on_live c f else id) <$> peers (bk_directory (hs_broker s)) !! j) as Hgen.
  { clear s Hlen. induction n as [|n IH]; intros from s Hle.
    - exists (peers (bk_directory (hs_broker s))). split; [by destruct s as [[? ? ? []] ?]|]. intros j. rewrite decide_False by lia. by rewrite option_fmap_id.
    - cbn [for_range]. unfold mbind at 1, Hub_bind at 1. rewrite for_peers_body by lia.
      destruct (IH (S from) (with_peers s (alter (on_live c f) from (peers (bk_directory (hs_broker s))))) ltac:(lia)) as (ps & Hps & Hl).
      exists ps. split; [exact Hps|]. intros j. rewrite Hl. cbn. destruct (decide (from = j)) as [->|Hne].
      + rewrite list_lookup_alter_eq, decide_False, decide_True by lia. by rewrite option_fmap_id.
      + rewrite list_lookup_alter_ne by done. destruct (decide (from ≤ j < from + S n)%nat); [rewrite decide_True by lia|rewrite decide_False by lia]; done. }
  destruct (Hgen 512%nat 0%nat s ltac:(lia)) as (ps & -> & Hl). f_equal. apply list_eq. intros j. rewrite Hl, list_lookup_fmap.
  destruct (peers (bk_directory (hs_broker s)) !! j) eqn:Hj; [|done]. apply lookup_lt_Some in Hj. by rewrite decide_True by lia.
Qed.
