(* ===== verification/BrokerQuiet.v ===== *)
(** * Code that leaves the references alone

    Sending, counting, pacing, queueing and draining are quiet: none of them
    changes who is connected, what is registered, open, running or pending. *)

From S2P Require Import Prelude Slots CString Wire SubscribeMessage EchoTokens EgressShaper EgressQueue ClientSession InterfaceRegistry BridgeRoutes BridgeGroups BridgeTargets TransactionTable PeerDirectory FrameRoutes BrokerState.
From S2P Require Import BrokerPeers BrokerControl BrokerHandlers BrokerFrames BrokerRules BrokerLogic.

Create HintDb quiet.

Ltac quiet_step :=
  lazymatch goal with
  | |- ∀ _, _ => intros ?
  | |- quiet (mret _) => apply quiet_ret
  | |- quiet skip => apply quiet_skip
  | |- quiet (gets _) => apply quiet_gets
  | |- quiet (peer_at _) => apply quiet_gets
  | |- quiet (find_peer _) => apply quiet_gets
  | |- quiet (txn_at _) => apply quiet_gets
  | |- quiet (live_at _) => apply quiet_gets
  | |- quiet (asks _) => apply quiet_asks
  | |- quiet (perform _ _) => apply quiet_perform
  | |- quiet (_ ≫= _) => apply quiet_bind
  | |- quiet (when _ _) => apply quiet_when
  | |- quiet (with_some _ _) => apply quiet_with_some
  | |- quiet (for_range _ _ _) => apply quiet_for_range
  | |- quiet (for_peers _) => apply quiet_for_peers
  | |- quiet (update_peer _ _) => apply quiet_update_peer; intros ?; try reflexivity
  | |- quiet (modify _) => apply quiet_modify; intros ?; try reflexivity
  | |- quiet (match ?x with _ => _ end) => destruct x
  end.
Ltac solve_quiet := repeat first [ solve [auto with quiet nocore] | quiet_step ].

(** The catalogue operations that keep every entry's id and agent. *)
Lemma skel_update_all r P f : (∀ e, skel_entry (f e) = skel_entry e) → skel_entry <$> entries (update_all r P f) = skel_entry <$> entries r.
Proof.
  intros Hf. unfold update_all. cbn [with_entries entries]. rewrite <- list_fmap_compose. apply list_fmap_ext. intros i e _. cbn.
  by destruct (P e).
Qed.
Lemma skel_update_first r P f : (∀ e, skel_entry (f e) = skel_entry e) → skel_entry <$> entries (update_first r P f) = skel_entry <$> entries r.
Proof. intros Hf. unfold update_first. destruct (scan _ _); [|done]. cbn [with_entries entries]. by apply fmap_alter_same. Qed.

Lemma skel_set_registry b r : skel_entry <$> entries r = skel_entry <$> entries (bk_registry b) → skel (set_registry b r) = skel b.
Proof. intros H. unfold skel. cbn [set_registry bk_registry bk_directory bk_transactions bk_pending_ifconfig]. by rewrite H. Qed.

Lemma skel_count_frame r id : skel_entry <$> entries (InterfaceRegistry_CountFrame r id) = skel_entry <$> entries r.
Proof. by apply skel_update_first. Qed.
Lemma skel_set_fd r id fd : skel_entry <$> entries (InterfaceRegistry_SetFdCapable r id fd) = skel_entry <$> entries r.
Proof. by apply skel_update_all. Qed.
Lemma skel_tx_dropped r p c n : skel_entry <$> entries (InterfaceRegistry_SetTxDropped r p c n) = skel_entry <$> entries r.
Proof. by apply skel_update_first. Qed.
Lemma skel_rate r p c a cr now : skel_entry <$> entries (InterfaceRegistry_ApplyAdvertisedRate r p c a cr now) = skel_entry <$> entries r.
Proof. by apply skel_update_first. Qed.
Lemma skel_try_egress r p c bits now : skel_entry <$> entries (InterfaceRegistry_TryEgress r p c bits now).2 = skel_entry <$> entries r.
Proof. unfold InterfaceRegistry_TryEgress. repeat case_match; try done. all: by apply skel_update_first. Qed.
Lemma skel_egress_delay r p c bits now : skel_entry <$> entries (InterfaceRegistry_EgressDelayUs r p c bits now).2 = skel_entry <$> entries r.
Proof. unfold InterfaceRegistry_EgressDelayUs. repeat case_match; try done. all: by apply skel_update_first. Qed.

Lemma skel_count_binding f c s : (∀ b, binding_sk (f b) = binding_sk b) →
  binding_sk <$> bindings (count_binding f c s) = binding_sk <$> bindings s.
Proof. intros Hf. unfold count_binding. destruct (ClientSession_BindingForChannel s c); [|done]. cbn [with_bindings bindings]. by apply fmap_alter_same. Qed.
Lemma skel_peer_forwarded c p : skel_peer (peer_forwarded c p) = skel_peer p.
Proof.
  unfold skel_peer, peer_forwarded, peer_with. cbn. destruct (hp_role p =? kHUB_PEER_ROLE_CLIENT); [|done]. by rewrite skel_count_binding.
Qed.
Lemma skel_peer_dropped c p : skel_peer (peer_dropped c p) = skel_peer p.
Proof.
  unfold skel_peer, peer_dropped, peer_with. cbn. destruct (hp_role p =? kHUB_PEER_ROLE_CLIENT); [|done]. by rewrite skel_count_binding.
Qed.

Section quiet.
Context `{ports : HubPorts}.

Lemma quiet_sendControl i m : quiet (sendControl i m).
Proof. unfold sendControl. solve_quiet. Qed.
Lemma quiet_sendError id c d : quiet (sendError id c d).
Proof. unfold sendError. destruct (OpenMessage.ErrorMessage_Encode _ _). solve_quiet. Qed.
Lemma quiet_set_channel_mode id c r : quiet (set_channel_mode id c r).
Proof. done. Qed.
Lemma quiet_close_peer id : quiet (close_peer id).
Proof. done. Qed.
Lemma quiet_clientCanRead p e : quiet (clientCanRead p e).
Proof. unfold clientCanRead. solve_quiet. Qed.
Lemma quiet_clientCanWrite p e : quiet (clientCanWrite p e).
Proof. unfold clientCanWrite. solve_quiet. Qed.
Lemma quiet_peerCanConfigure p e : quiet (peerCanConfigure p e).
Proof. unfold peerCanConfigure. solve_quiet. Qed.
Lemma quiet_count_metric f : quiet (count_metric f).
Proof. by apply quiet_modify. Qed.
Lemma quiet_send_frame id c d : quiet (send_frame id c d).
Proof. done. Qed.
#[local] Hint Resolve quiet_sendControl quiet_sendError quiet_set_channel_mode quiet_close_peer quiet_clientCanRead quiet_clientCanWrite
  quiet_peerCanConfigure quiet_count_metric quiet_send_frame : quiet.

Lemma quiet_relayPaceToClients id rate : quiet (relayPaceToClients id rate).
Proof. unfold relayPaceToClients. solve_quiet. Qed.
#[local] Hint Resolve quiet_relayPaceToClients : quiet.
Lemma quiet_announceLease id : quiet (announceLease id).
Proof. unfold announceLease. solve_quiet. Qed.
Lemma quiet_sendTxnAbort a c t : quiet (sendTxnAbort a c t).
Proof. apply quiet_sendControl. Qed.
Lemma quiet_sendTxnStatus c t r : quiet (sendTxnStatus c t r).
Proof. unfold sendTxnStatus. solve_quiet. Qed.
Lemma quiet_revert id : quiet (revertAgentChannelIfUnused id).
Proof. unfold revertAgentChannelIfUnused. solve_quiet. Qed.
Lemma quiet_replyConfigure i s : quiet (replyConfigure i s).
Proof. apply quiet_sendControl. Qed.
Lemma quiet_learnFd id st : quiet (learnFdFromSettings id st).
Proof. unfold learnFdFromSettings. solve_quiet. apply skel_set_registry, skel_set_fd. Qed.
#[local] Hint Resolve quiet_announceLease quiet_sendTxnAbort quiet_sendTxnStatus quiet_revert quiet_replyConfigure quiet_learnFd : quiet.

Lemma quiet_recordRejection p n r : quiet (recordRejection p n r).
Proof. by apply quiet_modify. Qed.
Lemma quiet_forgetRejection i : quiet (forgetRejection i).
Proof. unfold forgetRejection. solve_quiet. Qed.
Lemma quiet_identityStatus p r : quiet (agentIdentityStatus p r).
Proof. unfold agentIdentityStatus, firstContactPinsFull. solve_quiet. Qed.
Lemma quiet_enrolled p : quiet (agentIsEnrolled p).
Proof. unfold agentIsEnrolled. solve_quiet. Qed.
Lemma quiet_namedByAcl p : quiet (clientIsNamedByAcl p).
Proof. unfold clientIsNamedByAcl. solve_quiet. Qed.
Lemma quiet_clientIsAdmitted p : quiet (clientIsAdmitted p).
Proof. unfold clientIsAdmitted. solve_quiet. Qed.
Lemma quiet_connectingKnown info : quiet (connectingPeerIsKnown info).
Proof. unfold connectingPeerIsKnown. solve_quiet. Qed.
Lemma quiet_admits info : quiet (admitsPeerAwaitingHello info).
Proof. unfold admitsPeerAwaitingHello. solve_quiet. Qed.
Lemma quiet_set_now t : quiet (modify (λ b, set_now b t)).
Proof. by apply quiet_modify. Qed.
#[local] Hint Resolve quiet_recordRejection quiet_forgetRejection quiet_identityStatus quiet_enrolled quiet_namedByAcl quiet_clientIsAdmitted
  quiet_connectingKnown quiet_admits quiet_set_now : quiet.

Lemma quiet_handleList i h p : quiet (handleList i h p).
Proof. unfold handleList. solve_quiet. Qed.
Lemma quiet_endpoints p e : quiet (reliableEndpointsSupport p e).
Proof. unfold reliableEndpointsSupport. solve_quiet. Qed.
Lemma quiet_open_ack i a b c : quiet (send_open_ack i a b c).
Proof. apply quiet_sendControl. Qed.
Lemma quiet_handlePing i h p : quiet (handlePing i h p).
Proof. unfold handlePing. solve_quiet. Qed.
Lemma quiet_apply_status id e : quiet (apply_status id e).
Proof. unfold apply_status. solve_quiet; apply skel_set_registry; [apply skel_tx_dropped|apply skel_rate]. Qed.
Lemma quiet_replyTxnBegin c ch st : quiet (replyTxnBegin c ch st).
Proof. apply quiet_sendControl. Qed.
Lemma quiet_admitTransaction p b : quiet (admitTransaction p b).
Proof. unfold admitTransaction. solve_quiet. Qed.
Lemma quiet_activeTransaction p id : quiet (activeTransactionOfAgent p id).
Proof. unfold activeTransactionOfAgent. solve_quiet. Qed.
Lemma quiet_relayMessage d h p c : quiet (relayTransactionMessage d h p c).
Proof. unfold relayTransactionMessage. solve_quiet. Qed.
Lemma quiet_relay_to_client t h p : quiet (relay_to_client t h p).
Proof. unfold relay_to_client. repeat quiet_step. apply quiet_relayMessage. Qed.
Lemma quiet_update_txn t f : (∀ x, skel_txn (f x) = skel_txn x) → quiet (update_txn t f).
Proof.
  intros Hf. apply quiet_modify. intros b. unfold skel. cbn [set_transactions bk_directory bk_registry bk_transactions bk_pending_ifconfig txns].
  by rewrite fmap_alter_same.
Qed.
#[local] Hint Resolve quiet_handleList quiet_endpoints quiet_open_ack quiet_handlePing quiet_apply_status quiet_replyTxnBegin quiet_admitTransaction
  quiet_activeTransaction quiet_relayMessage quiet_relay_to_client : quiet.

Lemma quiet_handleInterfaceStatus i h p : quiet (handleInterfaceStatus i h p).
Proof. unfold handleInterfaceStatus. solve_quiet. Qed.

(** *** The data plane *)
Lemma quiet_countForwarded i c : quiet (countForwarded i c).
Proof. unfold countForwarded. solve_quiet. apply skel_peer_forwarded. Qed.
Lemma quiet_countDropped i c : quiet (countDropped i c).
Proof. unfold countDropped. solve_quiet. apply skel_peer_dropped. Qed.
Lemma quiet_countInterfaceFrame p c : quiet (countInterfaceFrame p c).
Proof. unfold countInterfaceFrame. solve_quiet. repeat case_match; try done; apply skel_set_registry, skel_count_frame. Qed.
Lemma quiet_try_egress peer c bits : quiet (try_egress peer c bits).
Proof.
  intros s. unfold try_egress, gets, modify, mbind, Hub_bind, mret, Hub_ret, id. cbn.
  pose proof (skel_try_egress (bk_registry (hs_broker s)) peer c bits (bk_now_us (hs_broker s))) as H. destruct (InterfaceRegistry_TryEgress _ _ _ _ _) as [g r]. cbn in *. by apply skel_set_registry.
Qed.
#[local] Hint Resolve quiet_countForwarded quiet_countDropped quiet_countInterfaceFrame quiet_try_egress : quiet.
Lemma quiet_enqueueFrame i c d : quiet (enqueueFrame i c d).
Proof. unfold enqueueFrame. solve_quiet. Qed.
#[local] Hint Resolve quiet_enqueueFrame : quiet.
Lemma quiet_reliableRoutesFit rs f o : quiet (reliableRoutesFit rs f o).
Proof. induction rs as [|r rs IH]; cbn [reliableRoutesFit]; solve_quiet; exact IH. Qed.
Lemma quiet_charge_slot who f : quiet (charge_slot who f).
Proof. unfold charge_slot. apply quiet_modify. intros b. by destruct who. Qed.
Lemma quiet_drain_channel fuel i c : quiet (drain_channel fuel i c).
Proof. induction fuel as [|fuel IH]; cbn [drain_channel]; solve_quiet; exact IH. Qed.
#[local] Hint Resolve quiet_drain_channel : quiet.
Lemma quiet_drain_channels n i : quiet (drain_channels n i).
Proof. induction n as [|n IH]; cbn [drain_channels]; solve_quiet; exact IH. Qed.
Lemma quiet_drainPeer i : quiet (drainPeer i).
Proof. apply quiet_drain_channels. Qed.
Lemma quiet_channel_delay i best c : quiet (channel_delay i best c).
Proof.
  unfold channel_delay. apply quiet_bind; [apply quiet_gets|]. intros a. destruct (negb _); [done|].
  destruct (EgressQueue_FrontOfChannel _ _) as [l|]; [|done]. intros s. unfold gets, modify, mbind, Hub_bind, mret, Hub_ret, id. cbn.
  pose proof (skel_egress_delay (bk_registry (hs_broker s)) (hp_peer_id a) c (frameWireBits l) (bk_now_us (hs_broker s))) as H.
  destruct (InterfaceRegistry_EgressDelayUs _ _ _ _ _) as [g r]. cbn in *. by apply skel_set_registry.
Qed.
#[local] Hint Resolve quiet_channel_delay : quiet.
Lemma quiet_channels_delay i n c best : quiet (channels_delay i c n best).
Proof. revert c best. induction n as [|n IH]; intros c best; cbn [channels_delay]; solve_quiet; apply IH. Qed.
#[local] Hint Resolve quiet_channels_delay : quiet.
Lemma quiet_peers_delay i n best : quiet (peers_delay i n best).
Proof. revert i best. induction n as [|n IH]; intros i best; cbn [peers_delay]; solve_quiet; apply IH. Qed.
Lemma quiet_NextTimeoutMs cap : quiet (Broker_NextTimeoutMs cap).
Proof. unfold Broker_NextTimeoutMs. apply quiet_bind; [apply quiet_peers_delay|done]. Qed.
End quiet.

#[export] Hint Resolve quiet_sendControl quiet_sendError quiet_set_channel_mode quiet_close_peer quiet_clientCanRead quiet_clientCanWrite
  quiet_peerCanConfigure quiet_count_metric quiet_send_frame quiet_relayPaceToClients quiet_announceLease quiet_sendTxnAbort
  quiet_sendTxnStatus quiet_revert quiet_replyConfigure quiet_learnFd quiet_recordRejection quiet_forgetRejection quiet_identityStatus
  quiet_enrolled quiet_namedByAcl quiet_clientIsAdmitted quiet_connectingKnown quiet_admits quiet_set_now quiet_handleList quiet_endpoints
  quiet_open_ack quiet_handlePing quiet_apply_status quiet_replyTxnBegin quiet_admitTransaction quiet_activeTransaction quiet_relayMessage
  quiet_relay_to_client quiet_handleInterfaceStatus quiet_countForwarded quiet_countDropped quiet_countInterfaceFrame quiet_try_egress
  quiet_enqueueFrame quiet_reliableRoutesFit quiet_charge_slot quiet_drainPeer quiet_NextTimeoutMs : quiet.

(** The same for one part of the skeleton. *)
Create HintDb fixes.
Ltac fixes_step :=
  lazymatch goal with
  | |- ∀ _, _ => intros ?
  | |- fixes _ (_ ≫= _) => apply fixes_bind
  | |- fixes _ (when _ _) => apply fixes_when
  | |- fixes _ (with_some _ _) => apply fixes_with_some
  | |- fixes _ (for_range _ _ _) => apply fixes_for_range
  | |- fixes _ (for_peers _) => apply fixes_for_peers
  | |- fixes _ (repeat_while _ _) => apply fixes_repeat_while
  | |- fixes keys (update_peer _ _) => apply keys_update_peer; intros ?; try reflexivity
  | |- fixes _ (update_peer _ _) => apply fixes_update_peer; intros; reflexivity
  | |- fixes _ (modify _) => apply fixes_modify; intros ?; reflexivity
  | |- fixes _ (match ?x with _ => _ end) => destruct x
  end.
Ltac solve_fixes :=
  repeat first [ solve [auto with fixes nocore] | solve [apply fixes_quiet; solve [auto with quiet nocore | solve_quiet]] | fixes_step ].
