(* ===== verification/BrokerRelease.v ===== *)
(** * What a disconnection releases

    [releasePeer] ends the peer's transactions, detaches what it served, frees its
    tokens and its pending requests, and only then its slot.  Each step keeps the
    references sound, and after the last one nothing names the peer any more. *)

From S2P Require Import Prelude Slots CString EchoTokens ClientSession InterfaceRegistry TransactionTable PeerDirectory BrokerState BrokerPeers BrokerLogic BrokerQuiet.

(** Code after which the skeleton is the one before the quiet rest. *)
Lemma bind_quiet {A B} (m : Hub A) (k : A → Hub B) s :
  (∀ a, quiet (k a)) → skel (hs_broker ((m ≫= k) s).2) = skel (hs_broker (m s).2).
Proof. intros Hk. unfold mbind, Hub_bind. destruct (m s) as [a s']. by rewrite Hk. Qed.

Lemma after_quiet {A B} (m : Hub A) (k : A → Hub B) s S' :
  quiet m → (∀ a s', skel (hs_broker s') = skel (hs_broker s) → skel (hs_broker (k a s').2) = S') → skel (hs_broker ((m ≫= k) s).2) = S'.
Proof. intros Hm Hk. specialize (Hm s). unfold mbind, Hub_bind. destruct (m s) as [a s']. by apply Hk. Qed.

(** ** Nothing refers to a peer *)
Definition no_txn_agent (ts : list txn_sk) (id : Z) : Prop := ∀ t, t ∈ ts → tk_use t = true → tk_agent t ≠ id.
Definition no_txn_client (ts : list txn_sk) (id : Z) : Prop := ∀ t, t ∈ ts → tk_use t = true → tk_client t ≠ id.
Definition no_entry (es : list entry_sk) (id : Z) : Prop := ∀ e, e ∈ es → ek_use e = true → ek_agent e ≠ id.
Definition no_pending (qs : list pending_sk) (id : Z) : Prop := ∀ q, q ∈ qs → qk_use q = true → qk_agent q ≠ id ∧ qk_requester q ≠ id.
Definition no_owner (ps : list peer_sk) (id : Z) : Prop := ∀ p, p ∈ ps → id ∉ pk_owners p.

(** ** Transactions *)
Definition txn_free : txn_sk := skel_txn RelayedTransaction_zero.
Definition txn_orphan (t : txn_sk) : txn_sk := {| tk_use := tk_use t; tk_agent := tk_agent t; tk_client := 0; tk_iface := tk_iface t |}.

Lemma skel_close b t :
  skel (set_transactions b (TransactionTable_Close (bk_transactions b) t)) = sk_with_txns (skel b) (<[t := txn_free]> (sk_txns (skel b))).
Proof.
  unfold skel, sk_with_txns. cbn [set_transactions bk_directory bk_registry bk_transactions bk_pending_ifconfig sk_txns sk_peers sk_entries sk_pending].
  f_equal. unfold TransactionTable_Close. destruct (txns (bk_transactions b) !! t) as [x|] eqn:Hx.
  - cbn. by rewrite list_fmap_insert.
  - rewrite list_insert_ge; [done|]. rewrite length_fmap. by apply lookup_ge_None.
Qed.

(** A transaction slot freed, or its client forgotten. *)
Lemma sound_txn S i x :
  sound S →
  (tk_use x = true → ∃ x0, sk_txns S !! i = Some x0 ∧ tk_use x0 = true ∧ tk_agent x = tk_agent x0 ∧ tk_iface x = tk_iface x0 ∧
    (tk_client x = tk_client x0 ∨ tk_client x = 0)) →
  sound (sk_with_txns S (<[i := x]> (sk_txns S))).
Proof.
  intros Hs Hx. apply sound_txns; [done|by rewrite length_insert|..].
  - intros t [->|Ht]%elem_of_insert_cases Hu; [|by split_and!; try apply (sd_txns S Hs t Ht Hu); apply (sd_txn_entries S Hs)].
    destruct (Hx Hu) as (x0 & Hx0%list_elem_of_lookup_2 & Hu0 & -> & -> & Hc). destruct (sd_txns S Hs x0 Hx0 Hu0) as [Ha Hcl].
    split_and!; [done| |by apply (sd_txn_entries S Hs)]. destruct Hc as [->| ->]; [done|by left].
  - assert (∀ j t, <[i := x]> (sk_txns S) !! j = Some t → tk_use t = true → ∃ t0, sk_txns S !! j = Some t0 ∧ tk_use t0 = true ∧ tk_agent t = tk_agent t0)
      as Hback.
    { intros j t Hj Hu. apply list_lookup_insert_Some in Hj as [(-> & <- & _)|[Hne Hj]]; [|by exists t].
      destruct (Hx Hu) as (x0 & ? & ? & ? & _). by exists x0. }
    intros j k t t' Hj Hk Hu Hu' Heq. destruct (Hback j t Hj Hu) as (t0 & Hj0 & Hu0 & Ha0), (Hback k t' Hk Hu') as (t1 & Hk1 & Hu1 & Ha1).
    apply (sd_txn_agents S Hs j k t0 t1); [done..|congruence].
Qed.

Lemma sound_close S i : sound S → sound (sk_with_txns S (<[i := txn_free]> (sk_txns S))).
Proof. intros Hs. by apply sound_txn. Qed.

Section release.
Context `{ports : HubPorts}.

Lemma finish_skel t s :
  skel (hs_broker (finishTransaction t s).2) = sk_with_txns (skel (hs_broker s)) (<[t := txn_free]> (sk_txns (skel (hs_broker s)))).
Proof.
  unfold finishTransaction, txn_at, gets, mbind at 1, Hub_bind at 1. cbn beta iota.
  rewrite bind_quiet by (intros []; solve_quiet). apply skel_close.
Qed.

Lemma abandon_skel t s (S := skel (hs_broker s)) :
  ∃ x, skel (hs_broker (abandonTransaction t s).2) = sk_with_txns S (<[t := x]> (sk_txns S)) ∧
    (x = txn_free ∨ ∃ x0, sk_txns S !! t = Some x0 ∧ x = txn_orphan x0).
Proof.
  subst S. unfold abandonTransaction, txn_at, gets, mbind at 1, Hub_bind at 1. cbn beta iota.
  set (x := txns (bk_transactions (hs_broker s)) !!! t). case_bool_decide as Hst.
  - assert (txns (bk_transactions (hs_broker s)) !! t = Some x) as Hx.
    { subst x. apply list_lookup_lookup_total_lt. destruct (decide (t < length (txns (bk_transactions (hs_broker s))))%nat); [done|].
      rewrite list_lookup_total_alt, lookup_ge_None_2 in Hst by lia. done. }
    exists (skel_txn (set_client TRANSACTION_NO_CLIENT x)). split.
    + unfold update_txn, modify, skel, sk_with_txns. cbn. by rewrite (alter_insert_at _ _ t x Hx), list_fmap_insert.
    + right. exists (skel_txn x). unfold skel. cbn [sk_txns]. by rewrite list_lookup_fmap, Hx.
  - exists txn_free. split; [|by left].
    unfold find_peer, gets, mbind at 1, Hub_bind at 1. cbn beta iota.
    apply after_quiet; [solve_quiet|]. intros _ s1 Hs1. apply after_quiet; [solve_quiet|]. intros _ s2 Hs2.
    by rewrite finish_skel, Hs2, Hs1.
Qed.

Lemma abandon_sound t : tri sound (abandonTransaction t) (λ _, sound).
Proof.
  intros s Hs. destruct (abandon_skel t s) as (x & -> & [->|(x0 & Hx0 & ->)]); [by apply sound_close|].
  apply sound_txn; [done|]. intros Hu. exists x0. split_and!; [done..|by right].
Qed.

(** The transactions are the only part the end of a transaction changes. *)
Lemma abandon_fixes {X} (f : skeleton → X) t : (∀ S ts, f (sk_with_txns S ts) = f S) → fixes f (abandonTransaction t).
Proof. intros Hf s. destruct (abandon_skel t s) as (x & -> & _). apply Hf. Qed.
Lemma finish_fixes {X} (f : skeleton → X) t : (∀ S ts, f (sk_with_txns S ts) = f S) → fixes f (finishTransaction t).
Proof. intros Hf s. rewrite finish_skel. apply Hf. Qed.

Lemma abandon_from_fixes {X} (f : skeleton → X) fuel id k : (∀ S ts, f (sk_with_txns S ts) = f S) → fixes f (abandon_from fuel id k).
Proof.
  intros Hf. revert k. induction fuel as [|fuel IH]; intros k; cbn [abandon_from]; [done|]. apply fixes_bind; [done|].
  intros [[t|] k']; [|done]. apply fixes_bind; [by apply abandon_fixes|]. intros []. apply IH.
Qed.

Lemma abandonClient_fixes {X} (f : skeleton → X) id : (∀ S ts, f (sk_with_txns S ts) = f S) → fixes f (abandonClientTransactions id).
Proof. exact (abandon_from_fixes f _ id 0). Qed.

Lemma failAgent_fixes {X} (f : skeleton → X) id : (∀ S ts, f (sk_with_txns S ts) = f S) → fixes f (failAgentTransaction id).
Proof.
  intros Hf. unfold failAgentTransaction. apply fixes_bind; [done|]. intros o. apply fixes_with_some. intros t.
  do 4 (apply fixes_bind; [apply fixes_quiet; solve_quiet|intros ?]). by apply finish_fixes.
Qed.

(** *** A client's transactions *)
Definition next_of (id : Z) (k : nat) (found : option nat * nat) (S : skeleton) : Prop :=
  match found with
  | (None, _) => ∀ j t, (k ≤ j)%nat → sk_txns S !! j = Some t → tk_use t = true → tk_client t ≠ id
  | (Some i, k') => k' = (i + 1)%nat ∧ (k ≤ i)%nat ∧
      ∀ j t, (k ≤ j < i)%nat → sk_txns S !! j = Some t → tk_use t = true → tk_client t ≠ id
  end.

Lemma next_for_client b id k : next_of id k (TransactionTable_NextForClient (bk_transactions b) id k) (skel b).
Proof.
  unfold TransactionTable_NextForClient, next_of. set (P := λ t, isInUse t && (rt_client_peer_id t =? id)).
  assert (∀ j t, sk_txns (skel b) !! j = Some t → ∃ x, txns (bk_transactions b) !! j = Some x ∧ t = skel_txn x) as Hx.
  { intros j t. unfold skel. cbn [sk_txns]. rewrite list_lookup_fmap. intros (x & ? & ?)%fmap_Some. by exists x. }
  destruct (scan P (drop k (txns (bk_transactions b)))) as [i|] eqn:Hs.
  - apply scan_Some in Hs as (x & Hxi & HP & Hlt). split_and!; [done|lia|]. intros j t Hj Ht Hu Hc. destruct (Hx j t Ht) as (y & Hy & ->).
    assert (P y = false) as HPy by (apply (Hlt (j - k)%nat); [lia|rewrite lookup_drop; by replace (k + (j - k))%nat with j by lia]).
    subst P. cbn in *. apply andb_false_iff in HPy as [?|?%Z.eqb_neq]; congruence.
  - intros j t Hj Ht Hu Hc. destruct (Hx j t Ht) as (y & Hy & ->). rewrite scan_None in Hs.
    assert (P y = false) as HPy by (apply (Hs (j - k)%nat); rewrite lookup_drop; by replace (k + (j - k))%nat with j by lia).
    subst P. cbn in *. apply andb_false_iff in HPy as [?|?%Z.eqb_neq]; congruence.
Qed.

Definition no_client_below (id : Z) (k : nat) (S : skeleton) : Prop :=
  ∀ j t, (j < k)%nat → sk_txns S !! j = Some t → tk_use t = true → tk_client t ≠ id.

Lemma abandon_from_spec fuel id k :
  id ≠ 0 → (512 < fuel + k)%nat →
  tri (λ S, sound S ∧ no_client_below id k S) (abandon_from fuel id k) (λ _ S, sound S ∧ no_txn_client (sk_txns S) id).
Proof.
  intros Hid. revert k. induction fuel as [|fuel IH]; intros k Hf.
  { intros s [Hs Hk]. split; [exact Hs|]. change (no_txn_client (sk_txns (skel (hs_broker s))) id).
    intros t (j & Hj)%list_elem_of_lookup_1. apply (Hk j); [|done]. apply lookup_lt_Some in Hj. pose proof (sd_sizes _ Hs). lia. }
  cbn [abandon_from]. apply (tri_bind _ _ (λ found S, (sound S ∧ no_client_below id k S) ∧ next_of id k found S)).
  { apply tri_gets. intros b Hb. split; [done|]. apply next_for_client. }
  intros [[i|] k'].
  - apply (tri_bind _ _ (λ _ S, k' = (i + 1)%nat ∧ (k ≤ i)%nat ∧ sound S ∧ no_client_below id k' S)).
    + intros s [[Hs Hk] (-> & Hki & Hbetween)]. split_and!; [done|done|by apply abandon_sound|].
      destruct (abandon_skel i s) as (x & -> & Hxc). intros j t Hj Ht Hu. cbn [sk_with_txns sk_txns] in Ht.
      apply list_lookup_insert_Some in Ht as [(-> & <- & _)|[Hne Ht]].
      * destruct Hxc as [->|(x0 & _ & ->)]; [done|]. cbn. congruence.
      * destruct (decide (j < k)%nat); [by apply (Hk j)|]. apply (Hbetween j); [lia|done..].
    + intros _ s (-> & Hki & Hs & Hk). apply IH; [lia|done].
  - apply tri_ret. intros S [[Hs Hk] Hnext]. split; [done|]. intros t (j & Hj)%list_elem_of_lookup_1 Hu.
    destruct (decide (j < k)%nat); [by apply (Hk j)|]. apply (Hnext j); [lia|done..].
Qed.

Lemma abandonClient_spec id :
  id ≠ 0 → tri sound (abandonClientTransactions id) (λ _ S, sound S ∧ no_txn_client (sk_txns S) id).
Proof.
  intros Hid. eapply tri_conseq; [| |apply (abandon_from_spec 513 id 0 Hid); lia]; [|done].
  intros S Hs. split; [done|]. intros j t Hj. lia.
Qed.

(** *** An agent's transaction *)
Lemma for_agent_skel b id :
  match TransactionTable_ForAgent (bk_transactions b) id with
  | Some i => ∃ x, sk_txns (skel b) !! i = Some x ∧ tk_use x = true ∧ tk_agent x = id
  | None => no_txn_agent (sk_txns (skel b)) id
  end.
Proof.
  unfold TransactionTable_ForAgent. destruct (scan _ _) as [i|] eqn:Hi.
  - apply scan_hit in Hi as (x & Hx & HP). bool_to_prop. exists (skel_txn x). unfold skel. cbn [sk_txns]. by rewrite list_lookup_fmap, Hx.
  - intros t (j & Hj)%list_elem_of_lookup_1 Hu Ha. unfold skel in Hj. cbn [sk_txns] in Hj. rewrite list_lookup_fmap in Hj.
    apply fmap_Some in Hj as (x & Hx & ->). rewrite scan_None in Hi. specialize (Hi j x Hx). cbn in *.
    apply andb_false_iff in Hi as [?|?%Z.eqb_neq]; congruence.
Qed.

Lemma failAgent_spec id : tri sound (failAgentTransaction id) (λ _ S, sound S ∧ no_txn_agent (sk_txns S) id).
Proof.
  unfold failAgentTransaction. apply (tri_bind _ _ (λ o S, sound S ∧ match o with
    | Some i => ∃ x, sk_txns S !! i = Some x ∧ tk_use x = true ∧ tk_agent x = id
    | None => no_txn_agent (sk_txns S) id end)).
  { apply tri_gets. intros b Hb. split; [done|]. apply for_agent_skel. }
  intros [i|]; cbn [with_some]; [|by apply tri_ret].
  do 4 (eapply tri_bind; [apply tri_quiet; solve_quiet|]; intros ?).
  intros s (Hs & x & Hx & Hu & Ha). rewrite finish_skel. split; [by apply sound_close|].
  intros t (j & Hj)%list_elem_of_lookup_1 Hut Hat. cbn [sk_with_txns sk_txns] in Hj.
  apply list_lookup_insert_Some in Hj as [(_ & <- & _)|[Hne Hj]]; [done|]. apply Hne.
  apply (sd_txn_agents _ Hs i j x t); congruence.
Qed.

(** *** Sessions *)
Definition sleep (id : Z) (c : bool * bool * Z) : bool * bool * Z := if c.1.1 && negb c.1.2 && (c.2 =? id) then (true, true, c.2) else c.
Definition detach_sk (id : Z) (p : peer_sk) : peer_sk :=
  if pk_use p && (pk_role p =? kHUB_PEER_ROLE_CLIENT)
  then {| pk_use := pk_use p; pk_id := pk_id p; pk_role := pk_role p; pk_standing := pk_standing p; pk_bindings := sleep id <$> pk_bindings p; pk_owners := pk_owners p |}
  else p.

(** No channel routes to the interface. *)
Definition asleep (S : skeleton) (id : Z) : Prop :=
  ∀ p c, p ∈ sk_peers S → c ∈ pk_bindings p → c.1.1 = true → c.1.2 = false → c.2 ≠ id.

Lemma detach_skel e s :
  length (sk_peers (skel (hs_broker s))) = 512%nat →
  skel (hs_broker (detachInterface e s).2) =
    sk_with_peers (skel (hs_broker s)) (detach_sk (ie_interface_id e) <$> sk_peers (skel (hs_broker s))).
Proof.
  intros Hl. unfold detachInterface. rewrite for_peers_update by (unfold skel in Hl; cbn in Hl; by rewrite length_fmap in Hl).
  unfold skel, sk_with_peers, with_peers. cbn. f_equal. rewrite <- !list_fmap_compose. apply list_fmap_ext. intros i p _. cbn.
  unfold on_live, detach_sk, skel_peer. cbn. destruct (hp_in_use p && (hp_role p =? kHUB_PEER_ROLE_CLIENT)) eqn:Hc; [|done].
  cbn. f_equal. unfold ClientSession_DetachInterface. cbn. rewrite <- !list_fmap_compose. apply list_fmap_ext. intros j b _. cbn.
  unfold sleep, binding_sk, routes_to. cbn. destruct (cb_in_use b && negb (cb_dormant b) && (cb_interface_id b =? ie_interface_id e)) eqn:Hb; [|done].
  bool_to_prop. cbn. congruence.
Qed.

Lemma detachInterface_spec e :
  tri sound (detachInterface e) (λ _ S, sound S ∧ asleep S (ie_interface_id e)).
Proof.
  intros s Hs. rewrite detach_skel by apply (sd_sizes _ Hs). set (S := skel (hs_broker s)) in *. set (id := ie_interface_id e).
  assert (∀ p c, p ∈ detach_sk id <$> sk_peers S → c ∈ pk_bindings p → c.1.1 = true → ∃ p0 c0, p0 ∈ sk_peers S ∧ c0 ∈ pk_bindings p0 ∧
    c0.1.1 = true ∧ pk_use p = pk_use p0 ∧ pk_role p = pk_role p0 ∧ (c.1.2 = false → c = c0 ∧ c.2 ≠ id)) as Hback.
  { intros p c (p0 & -> & Hp0)%list_elem_of_fmap_1 Hc Hu. unfold detach_sk in *.
    destruct (pk_use p0 && (pk_role p0 =? kHUB_PEER_ROLE_CLIENT)) eqn:Hcl.
    - cbn in *. apply list_elem_of_fmap_1 in Hc as (c0 & -> & Hc0). exists p0, c0. unfold sleep in *.
      destruct (c0.1.1 && negb c0.1.2 && (c0.2 =? id)) eqn:Hsl; cbn in *; bool_to_prop; [done|]. split_and!; try done. intros Hd. split; [done|].
      intros Hid. rewrite Hu, Hd, Hid, Z.eqb_refl in Hsl. naive_solver.
    - exists p0, c. destruct (sd_bindings S Hs p0 c Hp0 Hc Hu) as (Hpu & Hpr & _). rewrite Hpu, Hpr in Hcl. done. }
  split.
  - apply sound_peers; [done|..].
    + rewrite <- list_fmap_compose. apply list_fmap_ext. intros i p _. cbn. unfold detach_sk. by destruct (_ && _).
    + intros p c Hp Hc Hu. destruct (Hback p c Hp Hc Hu) as (p0 & c0 & Hp0 & Hc0 & Hu0 & -> & -> & Heq).
      destruct (sd_bindings S Hs p0 c0 Hp0 Hc0 Hu0) as (? & ? & He). split_and!; [done..|]. intros Hd. destruct (Heq Hd) as [-> _]. by apply He.
    + intros p o (p0 & -> & Hp0)%list_elem_of_fmap_1 Ho Hn. unfold detach_sk in *. destruct (_ && _); by apply (sd_owners S Hs p0).
    + intros p i j o (p0 & -> & Hp0)%list_elem_of_fmap_1 Hi Hj Hn. unfold detach_sk in *. destruct (_ && _); by apply (sd_tokens S Hs p0 i j o).
  - intros p c Hp Hc Hu Hd. by destruct (Hback p c Hp Hc Hu) as (p0 & c0 & _ & _ & _ & _ & _ & [_ ?]%(λ f, f Hd)).
Qed.

Lemma detach_keeps_asleep e id : tri (λ S, sound S ∧ asleep S id) (detachInterface e) (λ _ S, asleep S id).
Proof.
  intros s [Hs Ha]. rewrite detach_skel by apply (sd_sizes _ Hs). intros p c (p0 & -> & Hp0)%list_elem_of_fmap_1 Hc Hu Hd.
  unfold detach_sk in Hc. destruct (_ && _); [|by apply (Ha p0)]. cbn in Hc. apply list_elem_of_fmap_1 in Hc as (c0 & -> & Hc0).
  unfold sleep in *. destruct (_ && _ && _); [done|]. by apply (Ha p0).
Qed.

(** Parts other than the peers. *)
Lemma detach_fixes {X} (f : skeleton → X) e : (∀ S ps, f (sk_with_peers S ps) = f S) → fixes f (detachInterface e).
Proof. intros Hf. unfold detachInterface. apply fixes_for_peers. intros i p. destruct (_ =? _); [by apply fixes_update_peer|done]. Qed.
Lemma detach_keys e : fixes keys (detachInterface e).
Proof. unfold detachInterface. solve_fixes. Qed.

(** *** The catalogue *)
Definition entry_free : entry_sk := skel_entry InterfaceEntry_zero.
Definition drop_entry (id : Z) (e : entry_sk) : entry_sk := if ek_use e && (ek_agent e =? id) then entry_free else e.

Lemma skel_remove_peer b id :
  skel (set_registry b (InterfaceRegistry_RemovePeer (bk_registry b) id)) = sk_with_entries (skel b) (drop_entry id <$> sk_entries (skel b)).
Proof.
  unfold skel, sk_with_entries. cbn. f_equal. rewrite <- !list_fmap_compose. apply list_fmap_ext. intros i e _. cbn.
  unfold of_peer, drop_entry. cbn. by destruct (ie_in_use e && (ie_agent_peer_id e =? id)).
Qed.

(** The agent's entries before index [k] have no awake channel left. *)
Definition detached_below (id : Z) (k : nat) (S : skeleton) : Prop :=
  sound S ∧ ∀ j e, (j < k)%nat → sk_entries S !! j = Some e → ek_use e = true → ek_agent e = id → asleep S (ek_id e).

Lemma entry_at_skel b i : (i < length (sk_entries (skel b)))%nat → sk_entries (skel b) !! i = Some (skel_entry (entries (bk_registry b) !!! i)).
Proof. unfold skel. cbn [sk_entries]. rewrite length_fmap, list_lookup_fmap. intros Hi. by rewrite (list_lookup_lookup_total_lt _ i). Qed.

Lemma detach_entry_spec id i entry :
  (i < 256)%nat →
  tri (λ S, detached_below id i S ∧ sk_entries S !! i = Some (skel_entry entry))
    (if of_peer id entry then detachInterface entry else skip) (λ _ S, detached_below id (Datatypes.S i) S).
Proof.
  intros Hi. destruct (of_peer id entry) eqn:Hof.
  - apply andb_true_iff in Hof as [Hu Ha%Z.eqb_eq]. intros s [[Hs Hb] He].
    pose proof (detachInterface_spec entry s Hs) as [Hs' Hsl]. split; [done|]. intros j e Hj Hje Hue Hae.
    rewrite (detach_fixes sk_entries entry) in Hje by done. destruct (decide (j = i)) as [->|Hne].
    + rewrite He in Hje. injection Hje as <-. exact Hsl.
    + apply (detach_keeps_asleep entry (ek_id e) s). split; [done|]. apply (Hb j); [lia|done..].
  - apply tri_ret. intros S [[Hs Hb] He]. split; [done|]. intros j e Hj Hje Hue Hae. destruct (decide (j = i)) as [->|Hne]; [|apply (Hb j); [lia|done..]].
    rewrite He in Hje. injection Hje as <-. unfold of_peer in Hof. cbn in *. rewrite Hue, Hae, Z.eqb_refl in Hof. done.
Qed.

Lemma detach_loop_spec id : tri sound (for_entries_of id detachInterface) (λ _, detached_below id 256).
Proof.
  eapply tri_conseq; [| |apply (tri_for_range (detached_below id) 256 0)]; [|done|].
  { intros S Hs. split; [done|]. intros j e Hj. lia. }
  intros i Hi. apply (tri_bind _ _ (λ entry S, detached_below id i S ∧ sk_entries S !! i = Some (skel_entry entry))).
  { apply tri_gets. intros b Hb. split; [done|]. apply entry_at_skel. destruct Hb as [Hs _]. pose proof (sd_sizes _ Hs) as (_ & -> & _). lia. }
  intros entry. apply detach_entry_spec. lia.
Qed.

Lemma detach_loop_fixes {X} (f : skeleton → X) id : (∀ S ps, f (sk_with_peers S ps) = f S) → fixes f (for_entries_of id detachInterface).
Proof. intros Hf. apply fixes_for_range. intros i. apply fixes_bind; [done|]. intros e. destruct (of_peer id e); [by apply detach_fixes|done]. Qed.

Lemma sound_drop_entries S id : detached_below id 256 S → no_txn_agent (sk_txns S) id → sound_but id (sk_with_entries S (drop_entry id <$> sk_entries S)).
Proof.
  intros [Hs Hb] Hno. apply sound_entries; [done|by rewrite length_fmap|..|exact Hno].
  - intros e (e0 & -> & He0)%list_elem_of_fmap_1. unfold drop_entry. destruct (_ && _); [done|]. intros Hu.
    destruct e0 as [u i a]. cbn in *. subst u. by apply (sd_entries S Hs i a).
  - intros p c Hp Hc Hu Hd. destruct (sd_bindings S Hs p c Hp Hc Hu) as (_ & _ & [a Ha]%(λ f, f Hd)). exists a.
    apply list_elem_of_fmap. eexists. split; [|exact Ha]. unfold drop_entry. cbn. destruct (Z.eqb_spec a id) as [->|]; [|done]. exfalso.
    apply list_elem_of_lookup_1 in Ha as (j & Hj). pose proof (lookup_lt_Some _ _ _ Hj) as Hlt. pose proof (sd_sizes S Hs) as (_ & Hl & _).
    by apply (Hb j _ ltac:(lia) Hj eq_refl eq_refl p c).
  - intros e a He _ Hne. apply list_elem_of_fmap. eexists. split; [|exact He]. unfold drop_entry. cbn. by rewrite (proj2 (Z.eqb_neq a id) Hne).
Qed.

Lemma detachAgent_spec id : tri (λ S, sound S ∧ no_txn_agent (sk_txns S) id) (detachAgent id) (λ _ S, sound_but id S ∧ no_entry (sk_entries S) id).
Proof.
  unfold detachAgent. apply (tri_bind _ _ (λ _ S, detached_below id 256 S ∧ no_txn_agent (sk_txns S) id)).
  { apply tri_and; [apply detach_loop_spec|]. apply (fixes_tri sk_txns (λ ts, no_txn_agent ts id)). by apply detach_loop_fixes. }
  intros []. apply tri_modify. intros b [Hb Hno]. rewrite skel_remove_peer.
  split; [by apply sound_drop_entries|]. cbn [sk_with_entries sk_entries]. intros e (e0 & -> & He0)%list_elem_of_fmap_1. unfold drop_entry.
  destruct (ek_use e0 && (ek_agent e0 =? id)) eqn:Hd; [done|]. intros Hu Ha. rewrite Hu, Ha, Z.eqb_refl in Hd. done.
Qed.

Lemma detachAgent_fixes {X} (f : skeleton → X) id :
  (∀ S ps, f (sk_with_peers S ps) = f S) → (∀ S es, f (sk_with_entries S es) = f S) → fixes f (detachAgent id).
Proof.
  intros Hf Hg. unfold detachAgent. apply fixes_bind; [by apply detach_loop_fixes|].
  intros []. apply fixes_modify. intros b. by rewrite skel_remove_peer.
Qed.
Lemma detachAgent_keys id : fixes keys (detachAgent id).
Proof.
  unfold detachAgent, for_entries_of. apply fixes_bind.
  - apply fixes_for_range. intros i. apply fixes_bind; [done|]. intros e. destruct (of_peer id e); [apply detach_keys|done].
  - intros []. by apply fixes_modify.
Qed.

(** *** Echo tokens *)
Lemma release_token_owners tk id o :
  o ∈ owner_peer_ids (EchoTokens_ReleaseClient tk id) → o = NO_OWNER ∨ o ∈ owner_peer_ids tk.
Proof. unfold EchoTokens_ReleaseClient. destruct (findOwnerIndex tk id); [|by right]. cbn. intros [->|?]%elem_of_insert_cases; [by left|by right]. Qed.

Lemma release_token_gone tk id :
  (∀ i j o, owner_peer_ids tk !! i = Some o → owner_peer_ids tk !! j = Some o → o ≠ NO_OWNER → i = j) → id ≠ NO_OWNER →
  id ∉ owner_peer_ids (EchoTokens_ReleaseClient tk id) ∧
  ∀ i j o, owner_peer_ids (EchoTokens_ReleaseClient tk id) !! i = Some o → owner_peer_ids (EchoTokens_ReleaseClient tk id) !! j = Some o →
    o ≠ NO_OWNER → i = j.
Proof.
  intros Hu Hid. unfold EchoTokens_ReleaseClient, findOwnerIndex. destruct (scan _ _) as [k|] eqn:Hk; cbn.
  - apply scan_hit in Hk as (o & Ho & ->%Z.eqb_eq). unfold zset. rewrite Nat2Z.id. split.
    + intros (j & Hj)%list_elem_of_lookup_1. apply list_lookup_insert_Some in Hj as [(_ & Hj & _)|[Hne Hj]]; [done|]. by apply Hne, (Hu k j id).
    + intros i j o Hi Hj Hn. apply list_lookup_insert_Some in Hi as [(_ & <- & _)|[? Hi]]; [done|].
      apply list_lookup_insert_Some in Hj as [(_ & <- & _)|[? Hj]]; [done|]. by apply (Hu i j o).
  - split; [|done]. intros (j & Hj)%list_elem_of_lookup_1. rewrite scan_None in Hk. specialize (Hk j id Hj). by rewrite Z.eqb_refl in Hk.
Qed.

Definition release_tokens (id : Z) (p : HubPeer) : HubPeer :=
  on_live (λ p, hp_role p =? kHUB_PEER_ROLE_AGENT) (on_tokens (λ t, EchoTokens_ReleaseClient t id)) p.

Lemma release_tokens_skel id s :
  length (sk_peers (skel (hs_broker s))) = 512%nat →
  skel (hs_broker (releaseEchoTokens id s).2) =
    sk_with_peers (skel (hs_broker s)) ((λ p, skel_peer (release_tokens id p)) <$> peers (bk_directory (hs_broker s))).
Proof.
  intros Hl. unfold releaseEchoTokens. rewrite for_peers_update by (unfold skel in Hl; cbn in Hl; by rewrite length_fmap in Hl).
  unfold skel, sk_with_peers, with_peers. cbn. f_equal. by rewrite <- list_fmap_compose.
Qed.

Lemma releaseEchoTokens_spec id : id ≠ NO_OWNER → tri sound (releaseEchoTokens id) (λ _ S, sound S ∧ no_owner (sk_peers S) id).
Proof.
  intros Hid s Hs. rewrite release_tokens_skel by apply (sd_sizes _ Hs). set (S := skel (hs_broker s)) in *.
  assert (∀ p, p ∈ peers (bk_directory (hs_broker s)) → skel_peer p ∈ sk_peers S) as Hin.
  { intros p Hp. unfold S, skel. cbn [sk_peers]. apply list_elem_of_fmap. by exists p. }
  assert (∀ p, p ∈ peers (bk_directory (hs_broker s)) →
    pk_key (skel_peer (release_tokens id p)) = pk_key (skel_peer p) ∧
    pk_bindings (skel_peer (release_tokens id p)) = pk_bindings (skel_peer p) ∧
    (∀ o, o ∈ pk_owners (skel_peer (release_tokens id p)) → o = NO_OWNER ∨ o ∈ pk_owners (skel_peer p)) ∧
    id ∉ pk_owners (skel_peer (release_tokens id p)) ∧
    (∀ i j o, pk_owners (skel_peer (release_tokens id p)) !! i = Some o → pk_owners (skel_peer (release_tokens id p)) !! j = Some o →
      o ≠ NO_OWNER → i = j)) as Hp.
  { intros p Hp. specialize (Hin p Hp). unfold release_tokens, on_live. destruct (hp_in_use p && (hp_role p =? kHUB_PEER_ROLE_AGENT)) eqn:Hc.
    - destruct (release_token_gone (hp_echo_tokens p) id) as [Hg Hu]; [intros i j o; by apply (sd_tokens S Hs (skel_peer p))|done|].
      split_and!; [done..| |done|done]. intros o. apply release_token_owners.
    - split_and!; [done..|by right| |intros i j o; by apply (sd_tokens S Hs (skel_peer p))].
      intros Ho. destruct (sd_owners S Hs _ id Hin Ho Hid) as (Hu & Hr & _). cbn in Hu, Hr. by rewrite Hu, Hr in Hc. }
  split.
  - apply sound_peers; [done|..].
    + unfold keys, S, skel. cbn [sk_peers]. rewrite <- !list_fmap_compose. apply list_fmap_ext. intros i p Hi. cbn.
      by apply Hp, (list_elem_of_lookup_2 _ i).
    + intros q c (p & -> & Hpp)%list_elem_of_fmap_1 Hc Hu. destruct (Hp p Hpp) as ([= Hk1 Hk2 Hk3 _] & Hb & _). rewrite Hb in Hc.
      cbn in Hk1, Hk2, Hk3 |- *. rewrite Hk1, Hk3. by apply (sd_bindings S Hs (skel_peer p)); [apply Hin|..].
    + intros q o (p & -> & Hpp)%list_elem_of_fmap_1 Ho Hn. destruct (Hp p Hpp) as ([= Hk1 Hk2 Hk3 _] & _ & Hb & _).
      destruct (Hb o Ho) as [->|Ho']; [done|]. cbn in Hk1, Hk2, Hk3 |- *. rewrite Hk1, Hk3. by apply (sd_owners S Hs (skel_peer p)); [apply Hin|..].
    + intros q i j o (p & -> & Hpp)%list_elem_of_fmap_1. by apply (Hp p Hpp).
  - intros q (p & -> & Hpp)%list_elem_of_fmap_1. by apply (Hp p Hpp).
Qed.
Lemma releaseEchoTokens_fixes {X} (f : skeleton → X) id : (∀ S ps, f (sk_with_peers S ps) = f S) → fixes f (releaseEchoTokens id).
Proof. intros Hf. unfold releaseEchoTokens. apply fixes_for_peers. intros i p. destruct (_ =? _); [by apply fixes_update_peer|done]. Qed.
Lemma releaseEchoTokens_keys id : fixes keys (releaseEchoTokens id).
Proof. unfold releaseEchoTokens. solve_fixes. Qed.

(** *** Reliable bindings *)
Lemma take_bindings sn c :
  c ∈ binding_sk <$> bindings (ClientSession_TakeReliableBinding sn).2 → c.1.1 = true → c ∈ binding_sk <$> bindings sn.
Proof.
  unfold ClientSession_TakeReliableBinding. destruct (scan _ _); [|done]. cbn. rewrite list_fmap_insert. by intros [->|?]%elem_of_insert_cases.
Qed.

Lemma sound_sessions i (f : ClientSession → ClientSession) (F : skeleton → Prop) :
  (∀ S, F S → sound S) →
  (∀ S sn c, F S → (∃ p, hp_session p = sn ∧ sk_peers S !! i = Some (skel_peer p)) → c ∈ binding_sk <$> bindings (f sn) → c.1.1 = true →
    ∃ c0, c0 ∈ binding_sk <$> bindings sn ∧ c0.1.1 = true ∧ (c.1.2 = false → c = c0)) →
  tri F (update_peer i (on_session f)) (λ _, sound).
Proof.
  intros HF Hf. apply tri_update_peer; [|intros S HS _; by apply HF]. intros S p HS Hp.
  apply (sound_peer_bindings S i (skel_peer p)); [by apply HF|done..|]. intros c Hc Hu.
  apply (Hf S (hp_session p) c); [done|by exists p|exact Hc|done].
Qed.

(** The peer a slot holds. *)
Lemma tri_sound_peer_at i : (i < 512)%nat → tri sound (peer_at i) (λ p S, sound S ∧ sk_peers S !! i = Some (skel_peer p)).
Proof. intros Hi. apply tri_peer_at; [intros S Hs; pose proof (sd_sizes S Hs) as [-> _]; lia|done]. Qed.

(** A session stored back, its live bindings among those it was read with. *)
Lemma store_session i p sn :
  (∀ c, c ∈ binding_sk <$> bindings sn → c.1.1 = true → ∃ c0, c0 ∈ binding_sk <$> bindings (hp_session p) ∧ c0.1.1 = true ∧ (c.1.2 = false → c = c0)) →
  tri (λ S, sound S ∧ sk_peers S !! i = Some (skel_peer p)) (update_peer i (on_session (λ _, sn))) (λ _, sound).
Proof.
  intros Hsn. apply sound_sessions; [by intros S [? _]|]. intros S s0 c [Hs Hp] (p0 & <- & Hp0) Hc Hu. rewrite Hp in Hp0. apply (inj Some) in Hp0.
  assert (binding_sk <$> bindings (hp_session p0) = binding_sk <$> bindings (hp_session p)) as ->; [|by apply Hsn].
  change (pk_bindings (skel_peer p0) = pk_bindings (skel_peer p)). by rewrite Hp0.
Qed.

Lemma releaseReliableBindings_sound i : (i < 512)%nat → tri sound (releaseReliableBindings i) (λ _, sound).
Proof.
  intros Hi. unfold releaseReliableBindings. apply tri_repeat_while. eapply tri_bind; [by apply tri_sound_peer_at|]. intros p.
  assert (∀ sn, sn = (ClientSession_TakeReliableBinding (hp_session p)).2 →
    tri (λ S, sound S ∧ sk_peers S !! i = Some (skel_peer p)) (update_peer i (on_session (λ _, sn))) (λ _, sound)) as Hup.
  { intros sn ->. apply store_session. intros c Hc Hu. exists c. split_and!; [by apply take_bindings|done..]. }
  destruct (ClientSession_TakeReliableBinding (hp_session p)) as [[id|] sn]; (eapply tri_bind; [by apply Hup|intros []]); [|by apply tri_ret].
  eapply tri_bind; [apply tri_quiet; solve_quiet|]. intros []. by apply tri_ret.
Qed.
Lemma releaseReliableBindings_fixes {X} (f : skeleton → X) i : (∀ S ps, f (sk_with_peers S ps) = f S) → fixes f (releaseReliableBindings i).
Proof. intros Hf. unfold releaseReliableBindings. solve_fixes. all: by apply fixes_update_peer. Qed.
Lemma releaseReliableBindings_keys i : fixes keys (releaseReliableBindings i).
Proof. unfold releaseReliableBindings. solve_fixes. Qed.

(** *** Pending configurations *)
Definition pending_off (q : pending_sk) : pending_sk := {| qk_use := false; qk_agent := qk_agent q; qk_requester := qk_requester q; qk_iface := qk_iface q |}.

Lemma skel_drop_pending b i :
  skel (set_pending b (alter set_unused i (bk_pending_ifconfig b)) (bk_next_ifconfig_request_id b)) =
    sk_with_pending (skel b) (alter pending_off i (sk_pending (skel b))).
Proof.
  unfold skel, sk_with_pending. cbn. f_equal. apply list_eq. intros j. rewrite !list_lookup_fmap. destruct (decide (i = j)) as [->|].
  - rewrite !list_lookup_alter_eq, list_lookup_fmap. by destruct (bk_pending_ifconfig b !! j).
  - by rewrite !list_lookup_alter_ne, list_lookup_fmap by done.
Qed.

Lemma lookup_pending_off (qs : list pending_sk) (i j : nat) q :
  alter pending_off i qs !! j = Some q → qk_use q = true → qs !! j = Some q ∧ j ≠ i.
Proof.
  destruct (decide (i = j)) as [->|Hne]; [|rewrite list_lookup_alter_ne by done; done].
  rewrite list_lookup_alter_eq. intros (q0 & _ & ->)%fmap_Some. done.
Qed.

Lemma sound_drop_pending leaving S i : sound_but leaving S → sound_but leaving (sk_with_pending S (alter pending_off i (sk_pending S))).
Proof.
  intros Hs. apply (sound_pending leaving); [done|by rewrite length_alter|]. intros q (j & Hj)%list_elem_of_lookup_1 Hu.
  apply lookup_pending_off in Hj as [Hj%list_elem_of_lookup_2 _]; [|done]. destruct (sd_pending S Hs q Hj Hu). split_and!; [done..|].
  by apply (sd_pending_entries S Hs).
Qed.

(** An agent starts leaving; it has left when no configuration waits for it. *)
Lemma sound_leaving leaving S : sound S → sound_but leaving S.
Proof.
  intros Hs. destruct (agents_named 0 S Hs) as [_ Hqn]. destruct Hs as [? ? ? ? ? ? ? ? ? ? ? ? Hqe]. split; try done.
  intros q Hq Hu _. apply Hqe; [done..|by apply Hqn].
Qed.
Lemma sound_left leaving S : sound_but leaving S → (∀ q, q ∈ sk_pending S → qk_use q = true → qk_agent q ≠ leaving) → sound S.
Proof. intros [? ? ? ? ? ? ? ? ? ? ? ? Hqe] Hn. split; try done. intros q Hq Hu _. apply Hqe; [done..|by apply Hn]. Qed.

Definition no_pending_below (id : Z) (k : nat) (S : skeleton) : Prop :=
  sound_but id S ∧ ∀ j q, (j < k)%nat → sk_pending S !! j = Some q → qk_use q = true → qk_agent q ≠ id ∧ qk_requester q ≠ id.

Lemma drop_pending_spec id i : tri (no_pending_below id i) (drop_pending i) (λ _, no_pending_below id (Datatypes.S i)).
Proof.
  apply tri_modify. intros b [Hs Hb]. rewrite skel_drop_pending. split; [by apply sound_drop_pending|]. intros j q Hj Hq Hu.
  cbn [sk_with_pending sk_pending] in Hq. apply lookup_pending_off in Hq as [Hq Hne]; [|done]. apply (Hb j); [lia|done..].
Qed.

Lemma pending_at_skel b i : (i < length (sk_pending (skel b)))%nat → sk_pending (skel b) !! i = Some (skel_pending (bk_pending_ifconfig b !!! i)).
Proof. unfold skel. cbn [sk_pending]. rewrite length_fmap, list_lookup_fmap. intros Hi. by rewrite (list_lookup_lookup_total_lt _ i). Qed.

Lemma releasePending_spec id : tri (sound_but id) (releasePendingIfconfig id) (λ _ S, sound S ∧ no_pending (sk_pending S) id).
Proof.
  eapply tri_conseq; [| |apply (tri_for_range (no_pending_below id) 16 0)].
  { intros S Hs. split; [done|]. intros j q Hj. lia. }
  { intros _ S [Hs Hb]. assert (no_pending (sk_pending S) id) as Hno.
    { intros q (j & Hj)%list_elem_of_lookup_1. apply (Hb j); [|done]. apply lookup_lt_Some in Hj. pose proof (sd_sizes S Hs) as (_ & _ & _ & Hl). lia. }
    split; [|done]. apply (sound_left id); [done|]. intros q Hq Hu. by apply (Hno q). }
  intros i Hi. apply (tri_bind _ _ (λ p S, no_pending_below id i S ∧ sk_pending S !! i = Some (skel_pending p))).
  { apply tri_gets. intros b Hb. split; [done|]. apply pending_at_skel. destruct Hb as [Hs _]. pose proof (sd_sizes _ Hs) as (_ & _ & _ & ->). lia. }
  intros p. assert (∀ S, no_pending_below id i S ∧ sk_pending S !! i = Some (skel_pending p) →
    (pi_in_use p = true → pi_agent_peer_id p ≠ id ∧ pi_requester_peer_id p ≠ id) → no_pending_below id (Datatypes.S i) S) as Hskip.
  { intros S [[Hs Hb] Hp] Hn. split; [done|]. intros j q Hj Hq Hu. destruct (decide (j = i)) as [->|]; [|apply (Hb j); [lia|done..]].
    rewrite Hp in Hq. injection Hq as <-. by apply Hn. }
  destruct (pi_in_use p); [|apply tri_ret; intros S HS; by apply Hskip]. cbn [negb].
  destruct (Z.eqb_spec (pi_agent_peer_id p) id).
  - do 2 (eapply tri_bind; [apply tri_quiet; solve_quiet|intros ?]). eapply tri_conseq; [| |apply drop_pending_spec]; [by intros S [? _]|done].
  - destruct (Z.eqb_spec (pi_requester_peer_id p) id); [|apply tri_ret; intros S HS; by apply Hskip].
    eapply tri_conseq; [| |apply drop_pending_spec]; [by intros S [? _]|done].
Qed.

Lemma drop_pending_fixes {X} (f : skeleton → X) i : (∀ S qs, f (sk_with_pending S qs) = f S) → fixes f (drop_pending i).
Proof. intros Hf. apply fixes_modify. intros b. by rewrite skel_drop_pending. Qed.
Lemma releasePending_fixes {X} (f : skeleton → X) id : (∀ S qs, f (sk_with_pending S qs) = f S) → fixes f (releasePendingIfconfig id).
Proof. intros Hf. unfold releasePendingIfconfig. solve_fixes. all: by apply drop_pending_fixes. Qed.

(** *** The slot *)
Definition peer_free : peer_sk := skel_peer HubPeer_zero.

(** Nothing but its own slot refers to the peer. *)
Record unreferenced (S : skeleton) (id : Z) : Prop := {
  ur_entries : no_entry (sk_entries S) id;
  ur_agent : no_txn_agent (sk_txns S) id;
  ur_client : no_txn_client (sk_txns S) id;
  ur_pending : no_pending (sk_pending S) id;
  ur_owner : no_owner (sk_peers S) id;
}.

Lemma peer_free_bindings c : c ∈ pk_bindings peer_free → c.1.1 = false.
Proof. change (pk_bindings peer_free) with (binding_sk <$> bindings ClientSession_Reset). unfold ClientSession_Reset. cbn [bindings]. rewrite fmap_replicate. by intros [-> _]%elem_of_replicate. Qed.
Lemma peer_free_owners o : o ∈ pk_owners peer_free → o = NO_OWNER.
Proof. change (pk_owners peer_free) with (owner_peer_ids EchoTokens_Reset). by intros [-> _]%elem_of_replicate. Qed.

(** Who is there once the peer's slot is free. *)
Lemma live_without S i id r v id' r' :
  sound S → keys S !! i = Some (true, id, r, v) →
  live_as (sk_with_peers S (<[i := peer_free]> (sk_peers S))) id' r' ↔ live_as S id' r' ∧ id' ≠ id.
Proof.
  intros Hs Hi. unfold live_as, keys. cbn [sk_with_peers sk_peers]. rewrite list_fmap_insert. split.
  - intros (v' & (j & Hj)%list_elem_of_lookup_1). apply list_lookup_insert_Some in Hj as [(_ & Hj & _)|[Hne Hj]]; [done|].
    split; [exists v'; by eapply list_elem_of_lookup_2|]. intros ->. apply Hne. by apply (sd_unique S Hs i j id r r' v v').
  - intros [(v' & (j & Hj)%list_elem_of_lookup_1) Hne]. exists v'. apply (list_elem_of_lookup_2 _ j). rewrite list_lookup_insert_ne; [done|].
    intros ->. unfold keys in Hi. congruence.
Qed.

Lemma sound_release S i id r v :
  sound S → keys S !! i = Some (true, id, r, v) → unreferenced S id → sound (sk_with_peers S (<[i := peer_free]> (sk_peers S))).
Proof.
  intros Hs Hi [He Ha Hc Hq Ho]. pose proof (live_without S i id r v) as Hl. split; cbn [sk_with_peers sk_peers sk_entries sk_txns sk_pending].
  - rewrite length_insert. apply (sd_sizes S Hs).
  - intros j k id' r1 r2 v1 v2. unfold keys. cbn [sk_with_peers sk_peers]. rewrite !list_fmap_insert.
    intros [(_ & ? & _)|[_ Hj]]%list_lookup_insert_Some [(_ & ? & _)|[_ Hk]]%list_lookup_insert_Some; try done. by apply (sd_unique S Hs j k id' r1 r2 v1 v2).
  - intros id' r' [? _]%Hl; [|done..]. by apply (sd_ids S Hs id' r').
  - intros p c [->|Hp]%elem_of_insert_cases Hpc Hu; [by rewrite peer_free_bindings in Hu|by apply (sd_bindings S Hs p)].
  - intros p o [->|Hp]%elem_of_insert_cases Hpo Hn; [by apply peer_free_owners in Hpo|].
    destruct (sd_owners S Hs p o Hp Hpo Hn) as (? & ? & [?|?]); split_and!; try done; [by left|right]. apply Hl; [done..|]. split; [done|].
    intros ->. by apply (Ho p).
  - intros p j k o [->|Hp]%elem_of_insert_cases; [|by apply (sd_tokens S Hs p)]. intros Hj%list_elem_of_lookup_2%peer_free_owners. done.
  - intros id' a Hen. destruct (sd_entries S Hs id' a Hen) as [?|?]; [by left|right]. apply Hl; [done..|]. split; [done|]. by apply (He _ Hen).
  - intros t Ht Hu. destruct (sd_txns S Hs t Ht Hu) as [Hta Htc]. split.
    + apply Hl; [done..|]. split; [done|]. by apply (Ha t).
    + destruct Htc as [?|?]; [by left|right]. apply Hl; [done..|]. split; [done|]. by apply (Hc t).
  - apply (sd_txn_agents S Hs).
  - intros q Hin Hu. destruct (sd_pending S Hs q Hin Hu) as [Hqa [r' Hqr]], (Hq q Hin Hu) as [? ?]. split; [by apply Hl|].
    exists r'. by apply Hl.
  - intros id' v'. unfold keys. cbn [sk_with_peers sk_peers]. rewrite list_fmap_insert. intros [Hk|Hk]%elem_of_insert_cases; [done|]. by apply (sd_admins S Hs id').
  - apply (sd_txn_entries S Hs).
  - apply (sd_pending_entries S Hs).
Qed.

(** A triple extended by a fact about a part the code leaves alone. *)
Lemma tri_frame {A X} (f : skeleton → X) (P : X → Prop) F (m : Hub A) G :
  tri F m G → fixes f m → tri (λ S, F S ∧ P (f S)) m (λ a S, G a S ∧ P (f S)).
Proof. intros Hm Hf. apply tri_and; [exact Hm|]. by apply fixes_tri. Qed.

(** What a role alone excludes. *)
Lemma not_agent_unreferenced leaving S id r :
  sound_but leaving S → live_as S id r → r ≠ kHUB_PEER_ROLE_AGENT → no_entry (sk_entries S) id ∧ no_txn_agent (sk_txns S) id.
Proof.
  intros Hs Hl Hr. pose proof (sd_ids S Hs id r Hl) as Hid. split.
  - intros [u e a] He Hu Ha. cbn in *. subst. destruct (sd_entries S Hs e id He) as [->|Hl']; [unfold INTERFACE_REGISTRY_HUB_PEER in Hid; lia|].
    by apply Hr, (live_as_role S id _ _ Hs).
  - intros t Ht Hu <-. destruct (sd_txns S Hs t Ht Hu) as [Hl' _]. by apply Hr, (live_as_role S (tk_agent t) _ _ Hs).
Qed.
Lemma not_client_unreferenced leaving S id r :
  sound_but leaving S → live_as S id r → r ≠ kHUB_PEER_ROLE_CLIENT → no_txn_client (sk_txns S) id ∧ no_owner (sk_peers S) id.
Proof.
  intros Hs Hl Hr. pose proof (sd_ids S Hs id r Hl) as Hid. split.
  - intros t Ht Hu <-. destruct (sd_txns S Hs t Ht Hu) as [_ [Hl'|Hl']]; [lia|]. by apply Hr, (live_as_role S (tk_client t) _ _ Hs).
  - intros p Hp Ho. assert (id ≠ NO_OWNER) as Hn by (unfold NO_OWNER; lia).
    destruct (sd_owners S Hs p id Hp Ho Hn) as (_ & _ & [->|Hl']); [lia|]. by apply Hr, (live_as_role S id _ _ Hs).
Qed.

(** Only an agent leaves configurations behind. *)
Lemma not_agent_left id r S : sound_but id S → live_as S id r → r ≠ kHUB_PEER_ROLE_AGENT → sound S.
Proof.
  intros Hs Hl Hr. apply (sound_left id); [done|]. intros q Hq Hu <-. destruct (sd_pending S Hs q Hq Hu) as [Hl' _].
  by apply Hr, (live_as_role S (qk_agent q) _ _ Hs).
Qed.

Lemma key_role S i id r v p : keys S !! i = Some (true, id, r, v) → sk_peers S !! i = Some (skel_peer p) →
  hp_in_use p = true ∧ hp_peer_id p = id ∧ hp_role p = r ∧ standing p = v.
Proof. unfold keys. rewrite list_lookup_fmap. intros Hk Hp. rewrite Hp in Hk. by injection Hk. Qed.

(** The slot the directory frees is the peer's. *)
Lemma skel_release b i id r v : sound (skel b) → keys (skel b) !! i = Some (true, id, r, v) →
  skel (set_directory b (PeerDirectory_Release (bk_directory b) id)) = sk_with_peers (skel b) (<[i := peer_free]> (sk_peers (skel b))).
Proof.
  intros Hs Hi. unfold PeerDirectory_Release. destruct (PeerDirectory_Find (bk_directory b) id) as [j|] eqn:Hf.
  - destruct (find_peer_skel b id j Hf) as (r' & v' & Hj). pose proof (sd_unique _ Hs i j id r r' v v' Hi Hj) as <-.
    unfold skel, sk_with_peers. cbn. by rewrite list_fmap_insert.
  - exfalso. by apply (find_peer_none b id Hf r), (key_live _ i id r v).
Qed.

Section one_peer.
Context (K : list peer_key) (i : nat) (id r : Z) (v : bool * bool) (HK : K !! i = Some (true, id, r, v)).

(** The peers are still those of [K]. *)
Definition still_but (leaving : Z) (S : skeleton) : Prop := sound_but leaving S ∧ keys S = K.
Notation still := (still_but 0).

Lemma still_live leaving S : still_but leaving S → live_as S id r.
Proof. intros [_ Hk]. apply (key_live S i id r v). by rewrite Hk. Qed.
Lemma still_bound leaving S : still_but leaving S → (i < 512)%nat.
Proof.
  intros [Hs Hk]. pose proof HK as Hi. rewrite <- Hk in Hi. apply lookup_lt_Some in Hi. unfold keys in Hi. rewrite length_fmap in Hi.
  pose proof (sd_sizes S Hs) as [Hl _]. lia.
Qed.
Lemma still_peer_at leaving F : (∀ S, F S → still_but leaving S) → tri F (peer_at i) (λ p S, F S ∧ hp_peer_id p = id ∧ hp_role p = r).
Proof.
  intros HF. apply tri_peer_at.
  - intros S HS. pose proof (HF S HS) as [Hs Hk]. pose proof (sd_sizes S Hs) as [-> _]. by apply (still_bound leaving S).
  - intros p S HS Hp. split; [done|]. destruct (HF S HS) as [_ Hk]. destruct (key_role S i id r v p) as (_ & ? & ? & _); [by rewrite Hk|done..].
Qed.

Lemma still_tri {A} (m : Hub A) (G : skeleton → Prop) :
  tri sound m (λ _ S, sound S ∧ G S) → fixes keys m → tri still m (λ _ S, still S ∧ G S).
Proof.
  intros Hm Hk. eapply tri_conseq; [| |apply (tri_frame keys (λ k, k = K) _ _ _ Hm Hk)]; [by intros S [? ?]|]. intros _ S [[? ?] ?]. by split.
Qed.

Lemma agent_block : r = kHUB_PEER_ROLE_AGENT →
  tri still (failAgentTransaction id;; detachAgent id) (λ _ S, still_but id S ∧ no_entry (sk_entries S) id ∧ no_txn_agent (sk_txns S) id).
Proof.
  intros Hr. eapply tri_bind; [apply still_tri; [apply failAgent_spec|by apply failAgent_fixes]|]. intros [].
  intros s [[Hs Hk] Hno]. destruct (detachAgent_spec id s (conj Hs Hno)) as [Hs' He].
  split_and!; [split; [done|by rewrite detachAgent_keys]|done|by rewrite (detachAgent_fixes sk_txns)].
Qed.

Lemma client_block : (i < 512)%nat → id ≠ 0 →
  tri still (abandonClientTransactions id;; releaseReliableBindings i;; releaseEchoTokens id)
    (λ _ S, still S ∧ no_txn_client (sk_txns S) id ∧ no_owner (sk_peers S) id).
Proof.
  intros Hi Hid.
  eapply tri_bind; [apply still_tri; [exact (abandonClient_spec id Hid)|exact (abandonClient_fixes keys id (λ _ _, eq_refl))]|]. intros [].
  apply (tri_bind _ _ (λ _ S, still S ∧ no_txn_client (sk_txns S) id)).
  { eapply tri_conseq; [| |apply (tri_frame sk_txns (λ ts, no_txn_client ts id));
      [apply (still_tri _ (λ _, True)); [|apply releaseReliableBindings_keys]|by apply releaseReliableBindings_fixes]]; [done|by intros [] S [[? _] ?]|].
    eapply tri_conseq; [| |by apply releaseReliableBindings_sound]; [done|]. by intros [] S HS. }
  intros []. eapply tri_conseq; [| |apply (tri_frame sk_txns (λ ts, no_txn_client ts id));
    [apply still_tri; [by apply releaseEchoTokens_spec|apply releaseEchoTokens_keys]|by apply releaseEchoTokens_fixes]]; [done|].
  by intros [] S [[? ?] ?].
Qed.

(** Everything but the pending configurations. *)
Definition forgotten (S : skeleton) : Prop :=
  still_but id S ∧ (no_entry (sk_entries S) id ∧ no_txn_agent (sk_txns S) id) ∧ (no_txn_client (sk_txns S) id ∧ no_owner (sk_peers S) id).

Lemma releasePeer_spec :
  tri still (releasePeer i) (λ _ S, sound S ∧ keys S = <[i := pk_key peer_free]> K ∧ unreferenced S id ∧ ∀ r', ¬ live_as S id r').
Proof.
  unfold releasePeer. eapply tri_bind; [by apply (still_peer_at 0)|]. intros p.
  apply (tri_bind _ _ (λ _ S, still_but id S ∧ hp_peer_id p = id ∧ (no_entry (sk_entries S) id ∧ no_txn_agent (sk_txns S) id))).
  { intros s (Hst & Hid & Hr). rewrite Hid, Hr. destruct (Z.eqb_spec r kHUB_PEER_ROLE_AGENT) as [Ha|Ha]; cbn [when].
    - destruct (agent_block Ha s Hst) as (? & ? & ?). by split_and!.
    - split_and!; [split; [by apply sound_leaving, Hst|apply Hst]|done| |]; apply (not_agent_unreferenced 0 _ id r (proj1 Hst)); [by apply (still_live 0)|done..|by apply (still_live 0)|done]. }
  intros []. eapply tri_bind; [apply (still_peer_at id); by intros S [? _]|]. intros p'.
  apply (tri_bind _ _ (λ _ S, forgotten S ∧ hp_peer_id p = id)).
  { intros s [(Hst & Hid & Hag) [_ Hr]]. rewrite Hid, Hr. pose proof (still_live _ _ Hst) as Hl.
    destruct (Z.eqb_spec r kHUB_PEER_ROLE_CLIENT) as [Hc|Hc]; cbn [when].
    - pose proof (sd_ids _ (proj1 Hst) id r Hl). destruct (client_block (still_bound _ _ Hst) ltac:(lia) s) as (Hst' & ? & ?).
      { split; [|apply Hst]. apply (not_agent_left id r); [apply Hst|done|by rewrite Hc]. }
      split; [|done]. split_and!; [split; [by apply sound_leaving, Hst'|apply Hst']| | |done..].
      all: apply (not_agent_unreferenced 0 _ id r (proj1 Hst')); [by apply (still_live 0)|by rewrite Hc].
    - split; [|done]. split; [done|]. split; [done|]. apply (not_client_unreferenced id _ id r (proj1 Hst)); done. }
  intros []. apply (tri_bind _ _ (λ _ S, (forgotten S ∧ sound S ∧ no_pending (sk_pending S) id) ∧ hp_peer_id p = id)).
  { intros s [Hf ->]. split; [|done]. destruct (Hf) as ([Hs Hk] & Hrest). destruct (releasePending_spec id s Hs) as [Hs' Hq]. split; [|done].
    split; [split; [by apply sound_leaving|]|]; rewrite ?(releasePending_fixes keys id), ?(releasePending_fixes sk_entries id), ?(releasePending_fixes sk_txns id),
      ?(releasePending_fixes sk_peers id) by done; done. }
  intros []. apply tri_modify. intros b [[([_ Hk] & [He Hta] & [Htc Ho]) [Hs Hq]] Hid]. rewrite Hid.
  assert (keys (skel b) !! i = Some (true, id, r, v)) as Hi by (by rewrite Hk). rewrite (skel_release b i id r v) by done. split_and!.
  - by apply (sound_release _ i id r v).
  - rewrite <- Hk. unfold keys. cbn [sk_with_peers sk_peers]. by rewrite list_fmap_insert.
  - split; try done. intros q [->|Hin]%elem_of_insert_cases; [|by apply Ho]. intros Hfree%peer_free_owners.
    pose proof (sd_ids _ Hs id r (key_live _ i id r v Hi)). unfold NO_OWNER in Hfree. lia.
  - intros r' [_ ?]%(live_without _ i id r v); done.
Qed.
End one_peer.
End release.
Notation still K := (still_but K 0).
