(* ===== verification/BrokerSound.v ===== *)
(** * Every handler keeps the references sound

    [sounds m]: from a broker without dangling references, [m] returns to one.
    Quiet code does so trivially; what is left are the handlers that connect,
    register, open, close, run transactions and issue tokens. *)

From S2P Require Import Prelude Slots Rings CString Wire HelloMessage RegisterMessage OpenMessage SubscribeMessage TxnMessage IfconfigMessage FrameMessage EchoTokens EgressQueue ClientSession InterfaceRegistry BridgeRoutes BridgeGroups.
From S2P Require Import BridgeTargets TransactionTable PeerDirectory FrameRoutes BrokerState BrokerPeers BrokerControl BrokerHandlers BrokerFrames BrokerRules BrokerLogic BrokerQuiet BrokerRelease.

Definition sounds {A} (m : Hub A) : Prop := tri sound m (λ _, sound).

Create HintDb sound.

Section rules.
Context {A B : Type}.
Lemma sounds_quiet (m : Hub A) : quiet m → sounds m.
Proof. apply tri_quiet. Qed.
Lemma sounds_bind (m : Hub A) (k : A → Hub B) : sounds m → (∀ a, sounds (k a)) → sounds (m ≫= k).
Proof. intros Hm Hk. eapply tri_bind; [exact Hm|exact Hk]. Qed.
End rules.
Lemma sounds_when b m : sounds m → sounds (when b m).
Proof. destruct b; [done|]. intros _. by apply sounds_quiet. Qed.
Lemma sounds_with_some {A} (o : option A) m : (∀ a, sounds (m a)) → sounds (with_some o m).
Proof. intros H. destruct o; [apply H|by apply sounds_quiet]. Qed.
Lemma sounds_for_range from n body : (∀ i, (from ≤ i < from + n)%nat → sounds (body i)) → sounds (for_range from n body).
Proof. intros H. by apply (tri_for_range (λ _, sound)). Qed.
Lemma sounds_for_peers body : (∀ i p, (i < 512)%nat → sounds (body i p)) → sounds (for_peers body).
Proof.
  intros H. apply sounds_for_range. intros i Hi. apply sounds_bind; [by apply sounds_quiet|]. intros o. apply sounds_with_some. intros p. apply H. lia.
Qed.
Lemma sounds_repeat fuel step : sounds step → sounds (repeat_while fuel step).
Proof. apply tri_repeat_while. Qed.

Ltac sound_step :=
  lazymatch goal with
  | |- ∀ _, _ => intros ?
  | |- sounds (_ ≫= _) => apply sounds_bind
  | |- sounds (when _ _) => apply sounds_when
  | |- sounds (with_some _ _) => apply sounds_with_some
  | |- sounds (for_range _ _ _) => apply sounds_for_range
  | |- sounds (for_peers _) => apply sounds_for_peers
  | |- sounds (repeat_while _ _) => apply sounds_repeat
  | |- sounds (match ?x with _ => _ end) => destruct x
  end.
Ltac solve_sound :=
  repeat first [ solve [auto with sound nocore] | solve [apply sounds_quiet; solve [auto with quiet nocore | solve_quiet]] | sound_step ].

(** Forget what is known besides soundness. *)
Lemma sounds_from {A} (F : skeleton → Prop) (m : Hub A) : (∀ S, F S → sound S) → sounds m → tri F m (λ _, sound).
Proof. intros HF Hm. by eapply tri_conseq; [exact HF| |exact Hm]. Qed.

Lemma sounds_after {A B} (F : skeleton → Prop) (m : Hub A) (k : A → Hub B) : tri F m (λ _, sound) → (∀ a, sounds (k a)) → tri F (m ≫= k) (λ _, sound).
Proof. intros Hm Hk. eapply tri_bind; [exact Hm|exact Hk]. Qed.

(** The peer found by its id. *)
Lemma tri_find_peer F id :
  tri F (find_peer id) (λ o S, F S ∧ match o with Some i => ∃ r v, keys S !! i = Some (true, id, r, v) | None => ∀ r, ¬ live_as S id r end).
Proof.
  apply tri_gets. intros b Hb. split; [done|]. destruct (PeerDirectory_Find _ _) eqn:Hf; [by apply find_peer_skel|by apply find_peer_none].
Qed.

(** A precondition that fixes a logical variable. *)
Lemma tri_pull {A X} (f : skeleton → X) F (m : Hub A) G : (∀ x, tri (λ S, F S ∧ f S = x) m G) → tri F m G.
Proof. intros H s Hs. by apply (H (f (skel (hs_broker s))) s). Qed.
Lemma tri_ex {A X} (F : X → skeleton → Prop) (m : Hub A) G : (∀ x, tri (F x) m G) → tri (λ S, ∃ x, F x S) m G.
Proof. intros H s [x Hs]. by apply (H x). Qed.
Lemma tri_fact {A} (P : Prop) F (m : Hub A) G : (P → tri F m G) → tri (λ S, F S ∧ P) m G.
Proof. intros H s [Hs HP]. by apply H. Qed.

Section sound.
Context `{ports : HubPorts}.

(** ** Disconnection *)
(** The peer is gone, the others are as they were. *)
Definition gone (K : list peer_key) (id : Z) (S : skeleton) : Prop :=
  sound S ∧ (∀ r, ¬ live_as S id r) ∧ (∀ j id' r v, id' ≠ id → K !! j = Some (true, id', r, v) → keys S !! j = Some (true, id', r, v)) ∧
  (∀ j k, keys S !! j = Some k → k.1.1.1 = true → K !! j = Some k).

Lemma releasePeer_gone K i id r v :
  K !! i = Some (true, id, r, v) → tri (still K) (releasePeer i) (λ _ S, gone K id S ∧ unreferenced S id).
Proof.
  intros HK. eapply tri_conseq; [| |by apply (releasePeer_spec K i id r v HK)]; [done|]. intros _ S (Hs & Hk & Hu & Hn). split; [|done].
  split_and!; [done..| |].
  - intros j id' r' v' Hne Hj. rewrite Hk, list_lookup_insert_ne; [done|]. intros ->. congruence.
  - intros j k Hj Hlive. rewrite Hk in Hj. apply list_lookup_insert_Some in Hj as [(_ & <- & _)|[_ Hj]]; done.
Qed.

(** A peer that is not there is not referred to. *)
Lemma absent_unreferenced S id : sound S → id ≠ 0 → id ≠ ECHO_TOKENS_BRIDGE_OWNER → (∀ r, ¬ live_as S id r) → unreferenced S id.
Proof.
  intros Hs H0 Hb Hn. split.
  - intros [u e a] He Hu Ha. cbn in *. subst. destruct (sd_entries S Hs e id He) as [->|Hl]; [done|by eapply Hn].
  - intros t Ht Hu <-. destruct (sd_txns S Hs t Ht Hu) as [Hl _]. by eapply Hn.
  - intros t Ht Hu <-. destruct (sd_txns S Hs t Ht Hu) as [_ [?|Hl]]; [done|by eapply Hn].
  - intros q Hq Hu. destruct (sd_pending S Hs q Hq Hu) as [Ha [r Hr]]. split; intros <-; by eapply Hn.
  - intros p Hp Ho. destruct (sd_owners S Hs p id Hp Ho H0) as (_ & _ & [?|Hl]); [done|by eapply Hn].
Qed.

Lemma found_released K id o :
  tri (λ S, still K S ∧ match o with Some i => ∃ r v, keys S !! i = Some (true, id, r, v) | None => ∀ r, ¬ live_as S id r end)
    (with_some o releasePeer) (λ _, gone K id).
Proof.
  destruct o as [i|]; cbn [with_some].
  - intros s [[Hs Hk] (r & v & Hi)]. apply (releasePeer_gone K i id r v); [by rewrite <- Hk|done].
  - apply tri_ret. intros S [[Hs Hk] Hn]. split_and!; [done..| |].
    + intros j id' r' v' _. by rewrite Hk.
    + intros j k. by rewrite Hk.
Qed.

Lemma disconnect_gone K id : tri (still K) (disconnectPeer id) (λ _, gone K id).
Proof.
  unfold disconnectPeer. eapply tri_bind; [apply tri_find_peer|]. intros o s HF. pose proof (found_released K id o s HF) as Hg.
  destruct o as [i|]; cbn [with_some] in *; [|exact Hg]. by rewrite bind_quiet by (intros []; solve_quiet).
Qed.

Lemma sounds_disconnect id : sounds (disconnectPeer id).
Proof. apply (tri_pull keys). intros K. eapply tri_conseq; [| |apply (disconnect_gone K id)]; [done|]. by intros _ S [? _]. Qed.
Lemma sounds_expel id c d : sounds (expel id c d).
Proof. unfold expel. apply sounds_bind; [apply sounds_quiet; solve_quiet|]. intros []. apply sounds_disconnect. Qed.
Lemma sounds_onPeerDisconnected id now : sounds (onPeerDisconnected id now).
Proof.
  apply (tri_pull keys). intros K. unfold onPeerDisconnected. eapply tri_bind; [apply tri_find_peer|]. intros o.
  eapply tri_conseq; [| |apply (found_released K id o)]; [done|]. by intros _ S [? _].
Qed.
#[local] Hint Resolve sounds_disconnect sounds_expel sounds_onPeerDisconnected : sound.

Lemma sounds_tickHelloDeadline i now : sounds (tickHelloDeadline i now).
Proof. unfold tickHelloDeadline. solve_sound. Qed.
Lemma sounds_rejectClient i : sounds (rejectClient i).
Proof. unfold rejectClient. solve_sound. Qed.
Lemma sounds_makeRoomForKnownPeer info : sounds (makeRoomForKnownPeer info).
Proof. unfold makeRoomForKnownPeer. solve_sound. Qed.
#[local] Hint Resolve sounds_tickHelloDeadline sounds_rejectClient sounds_makeRoomForKnownPeer : sound.

Lemma sounds_Tick now : sounds (Broker_Tick now).
Proof. unfold Broker_Tick. solve_sound. Qed.
Lemma sounds_disconnectSlow i : sounds (disconnectSlowConsumer i).
Proof. unfold disconnectSlowConsumer. solve_sound. Qed.
#[local] Hint Resolve sounds_disconnectSlow : sound.

(** ** Forwarding *)
Lemma sounds_forwardFrame r f fl : sounds (forwardFrame r f fl).
Proof. unfold forwardFrame. solve_sound. Qed.
#[local] Hint Resolve sounds_forwardFrame : sound.
Lemma sounds_forward_routes rs f o fl acc : sounds (forward_routes rs f o fl acc).
Proof. revert acc. induction rs as [|r rs IH]; intros acc; cbn [forward_routes]; solve_sound; apply IH. Qed.
#[local] Hint Resolve sounds_forward_routes : sound.
Lemma sounds_showToGroup e f o fl : sounds (showToGroup e f o fl).
Proof. unfold showToGroup. solve_sound. apply sounds_quiet, quiet_modify. intros b. apply skel_set_registry, skel_count_frame. Qed.
#[local] Hint Resolve sounds_showToGroup : sound.
Lemma sounds_show_from n i o f e fl sh : sounds (show_from i n o f e fl sh).
Proof. revert i sh. induction n as [|n IH]; intros i sh; cbn [show_from]; solve_sound; apply IH. Qed.
#[local] Hint Resolve sounds_show_from : sound.
Lemma sounds_showToGroups o f e fl : sounds (showToGroups o f e fl).
Proof. unfold showToGroups. apply sounds_show_from. Qed.
#[local] Hint Resolve sounds_showToGroups : sound.

(** ** Echo tokens *)
Lemma issue_owners tk c :
  owner_peer_ids (EchoTokens_Issue tk c).2 = owner_peer_ids tk ∨
  c ∉ owner_peer_ids tk ∧ ∃ k, owner_peer_ids (EchoTokens_Issue tk c).2 = <[k := c]> (owner_peer_ids tk).
Proof.
  unfold EchoTokens_Issue. destruct (c =? NO_OWNER); [by left|]. destruct (findOwnerIndex tk c) as [k|] eqn:Hf; [by left|].
  apply findOwnerIndex_None in Hf. unfold claimFreeIndex. destruct (ring_scan _ _ _ _ _) as [k|]; [|by left]. right. split; [done|].
  cbn. by eexists.
Qed.

Lemma issue_sound i p c :
  tri (λ S, sound S ∧ sk_peers S !! i = Some (skel_peer p) ∧ hp_in_use p = true ∧ hp_role p = kHUB_PEER_ROLE_AGENT ∧
      (c = ECHO_TOKENS_BRIDGE_OWNER ∨ live_as S c kHUB_PEER_ROLE_CLIENT))
    (update_peer i (on_tokens (λ _, (EchoTokens_Issue (hp_echo_tokens p) c).2))) (λ _, sound).
Proof.
  apply tri_update_peer; [|by intros S [? _]]. intros S p0 (Hs & Hp & Hu & Hr & Hc) Hp0. rewrite Hp in Hp0. apply (inj Some) in Hp0.
  assert (skel_peer p ∈ sk_peers S) as Hin by (by eapply list_elem_of_lookup_2).
  assert (pk_use (skel_peer p) = true) as Hu' by done. assert (pk_role (skel_peer p) = kHUB_PEER_ROLE_AGENT) as Hr' by done.
  assert (pk_owners (skel_peer (on_tokens (λ _, (EchoTokens_Issue (hp_echo_tokens p) c).2) p0)) =
    owner_peer_ids (EchoTokens_Issue (hp_echo_tokens p) c).2) as How by done.
  apply (sound_peer_owners S i (skel_peer p)); [done|done|by rewrite Hp0|by rewrite Hp0|..]; rewrite How.
  - intros o Ho Hn. destruct (issue_owners (hp_echo_tokens p) c) as [Heq|[_ [k Heq]]]; rewrite Heq in Ho; [by left|].
    apply elem_of_insert_cases in Ho as [->|Ho]; [by right|by left].
  - intros j k o. destruct (issue_owners (hp_echo_tokens p) c) as [Heq|[Hnin [m Heq]]]; rewrite Heq.
    + intros Hj Hk. by apply (sd_tokens S Hs (skel_peer p)).
    + intros Hj Hk Hn. apply list_lookup_insert_Some in Hj as [(<- & -> & _)|[? Hj]]; apply list_lookup_insert_Some in Hk as [(<- & Hk & _)|[? Hk]]; try done.
      * exfalso. by apply Hnin, (list_elem_of_lookup_2 _ k).
      * exfalso. subst. by apply Hnin, (list_elem_of_lookup_2 _ j).
      * by apply (sd_tokens S Hs (skel_peer p) j k o).
Qed.

(** The peer an interface names is a live agent. *)
Lemma entry_agent S id e i r v :
  sound S → has_entry S e id → keys S !! i = Some (true, id, r, v) → r = kHUB_PEER_ROLE_AGENT.
Proof.
  intros Hs He Hk. pose proof (key_live S i id r v Hk) as Hl. destruct (sd_entries S Hs e id He) as [->|Ha].
  - pose proof (sd_ids S Hs _ _ Hl). unfold INTERFACE_REGISTRY_HUB_PEER in *. lia.
  - by apply (live_as_role (leaving := 0) S id).
Qed.

Lemma key_bound S i k : sound S → keys S !! i = Some k → (i < 512)%nat.
Proof. intros Hs Hk%lookup_lt_Some. unfold keys in Hk. rewrite length_fmap in Hk. pose proof (sd_sizes S Hs) as [Hl _]. lia. Qed.

(** Reading the slot of a peer that is there. *)
Lemma tri_keyed_at F i id r v :
  (∀ S, F S → sound S ∧ keys S !! i = Some (true, id, r, v)) →
  tri F (peer_at i) (λ p S, F S ∧ sk_peers S !! i = Some (skel_peer p) ∧ hp_in_use p = true ∧ hp_peer_id p = id ∧ hp_role p = r ∧ standing p = v).
Proof.
  intros HF. apply tri_peer_at.
  - intros S HS. destruct (HF S HS) as [Hs Hk]. apply key_bound in Hk; [|done]. pose proof (sd_sizes S Hs) as [-> _]. lia.
  - intros p S HS Hp. destruct (HF S HS) as [Hs Hk]. split_and!; try done; by apply (key_role S i id r v p).
Qed.

(** A token issued by the agent of an interface. *)
Lemma issue_at_agent {B} F e agent c (K : Z → Hub B) :
  (∀ S, F S → sound S ∧ has_entry S e agent ∧ (c = ECHO_TOKENS_BRIDGE_OWNER ∨ live_as S c kHUB_PEER_ROLE_CLIENT)) →
  (∀ t, sounds (K t)) → ∀ i,
  tri (λ S, F S ∧ ∃ r v, keys S !! i = Some (true, agent, r, v))
    (p ← peer_at i; let '(token, tokens) := EchoTokens_Issue (hp_echo_tokens p) c in update_peer i (on_tokens (λ _, tokens));; K token) (λ _, sound).
Proof.
  intros HF HK i. apply (tri_conseq _ (λ S, ∃ v, F S ∧ keys S !! i = Some (true, agent, kHUB_PEER_ROLE_AGENT, v)) _ _ (λ _, sound)); [|done|].
  { intros S [HS (r & v & Hk)]. destruct (HF _ HS) as (Hs & He & _). pose proof (entry_agent _ agent e i r v Hs He Hk) as ->. by exists v. }
  apply tri_ex. intros v. eapply tri_bind.
  { apply (tri_keyed_at _ i agent kHUB_PEER_ROLE_AGENT v). intros S [HS' ?]. by destruct (HF S HS'). }
  intros p. pose proof (issue_sound i p c) as Hup. destruct (EchoTokens_Issue (hp_echo_tokens p) c) as [t tk].
  apply (tri_bind _ _ (λ _, sound)); [|intros []; apply HK]. eapply tri_conseq; [| |exact Hup]; [|done].
  intros S ([HS' _] & Hp & Hu & _ & Hr & _). destruct (HF S HS') as (? & _ & ?). by split_and!.
Qed.

Lemma sounds_charge_slot w f : sounds (charge_slot w f).
Proof. apply sounds_quiet. solve_quiet. Qed.
#[local] Hint Resolve sounds_charge_slot : sound.

Lemma sounds_bridgeInto t f : sounds (bridgeInto t f).
Proof.
  unfold bridgeInto. apply (tri_bind _ _ (λ o S, sound S ∧ match o with Some e => has_entry S (ie_interface_id e) (ie_agent_peer_id e) | None => True end)).
  { apply tri_gets. intros b Hb. split; [done|]. destruct (InterfaceRegistry_FindByName _ _ _) as [e|] eqn:He; [|done].
    apply (find_entry_skel b _ e) in He; [done|]. intros x [? _]%andb_true_iff. done. }
  intros [e|]; [|eapply sounds_from; [by intros S [? _]|]; solve_sound].
  destruct (InterfaceEntry_RefusesFrame e _); [eapply sounds_from; [by intros S [? _]|]; solve_sound|].
  eapply tri_bind; [apply tri_find_peer|]. intros [i|]; [|eapply sounds_from; [by intros S [[? _] _]|]; solve_sound].
  apply (issue_at_agent (λ S, sound S ∧ has_entry S (ie_interface_id e) (ie_agent_peer_id e)) (ie_interface_id e)).
  - intros S [? ?]. split_and!; [done..|by left].
  - intros t'. solve_sound.
Qed.
#[local] Hint Resolve sounds_bridgeInto : sound.
Lemma sounds_bridge_all ts f : sounds (bridge_all ts f).
Proof. induction ts as [|t ts IH]; cbn [bridge_all]; solve_sound. Qed.
#[local] Hint Resolve sounds_bridge_all : sound.
Lemma sounds_bridgeFrame p f e fl : sounds (bridgeFrame p f e fl).
Proof. unfold bridgeFrame. solve_sound. Qed.
#[local] Hint Resolve sounds_bridgeFrame : sound.
Lemma sounds_write_members ms sl w f : sounds (write_members ms sl w f).
Proof. induction ms as [|m ms IH]; cbn [write_members]; solve_sound. Qed.
#[local] Hint Resolve sounds_write_members : sound.
Lemma sounds_writeIntoGroup w sl e f : sounds (writeIntoGroup w sl e f).
Proof. unfold writeIntoGroup. solve_sound. Qed.
#[local] Hint Resolve sounds_writeIntoGroup : sound.
Lemma sounds_routeFromAgent p f : sounds (routeFromAgent p f).
Proof. unfold routeFromAgent. solve_sound. Qed.

Lemma injectionToken_sound sender rs :
  tri (λ S, sound S ∧ live_as S sender kHUB_PEER_ROLE_CLIENT ∧ (∀ r rs', rs = r :: rs' → ∃ e, has_entry S e (fr_peer_id r)))
    (injectionToken sender rs) (λ _, sound).
Proof.
  unfold injectionToken. destruct rs as [|r rs]; [by apply tri_ret; intros S [? _]|].
  eapply (tri_conseq _ (λ S, ∃ e, sound S ∧ live_as S sender kHUB_PEER_ROLE_CLIENT ∧ has_entry S e (fr_peer_id r)) _ _ (λ _, sound)); [|done|].
  { intros S (? & ? & He). destruct (He r rs eq_refl) as [e ?]. by exists e. }
  apply tri_ex. intros e. eapply tri_bind; [apply tri_find_peer|]. intros [i|]; [|by apply tri_ret; intros S [[? _] _]].
  apply (issue_at_agent (λ S, sound S ∧ live_as S sender kHUB_PEER_ROLE_CLIENT ∧ has_entry S e (fr_peer_id r)) e).
  - intros S (? & ? & ?). split_and!; [done..|by right].
  - intros t. solve_sound.
Qed.

(** A peer that may write on a channel is a live client. *)
Lemma writer_live S i p c : sound S → sk_peers S !! i = Some (skel_peer p) → ClientSession_CanWrite (hp_session p) c = true →
  live_as S (hp_peer_id p) kHUB_PEER_ROLE_CLIENT.
Proof.
  intros Hs Hp. unfold ClientSession_CanWrite, first_binding. destruct (scan _ _) as [j|] eqn:Hj; cbn; [|done].
  apply scan_hit in Hj as (x & Hx & [Hu _]%andb_true_iff). rewrite Hx. intros _.
  assert (skel_peer p ∈ sk_peers S) as Hin by (by eapply list_elem_of_lookup_2).
  assert (binding_sk x ∈ pk_bindings (skel_peer p)) as Hxin by (apply list_elem_of_fmap; exists x; split; [done|]; by eapply list_elem_of_lookup_2).
  destruct (sd_bindings S Hs _ _ Hin Hxin Hu) as (Hpu & Hpr & _). exists (standing p). apply (list_elem_of_lookup_2 _ i).
  unfold keys. rewrite list_lookup_fmap, Hp. cbn. cbn in Hpu, Hpr. unfold pk_key. cbn. by rewrite Hpu, Hpr.
Qed.

Lemma from_client_entry b p c n r rs d :
  FrameRoutes_FromClient (bk_registry b) p c n = (r :: rs, d) → ∃ e, has_entry (skel b) e (fr_peer_id r).
Proof.
  unfold FrameRoutes_FromClient. destruct (n =? 0); [done|]. destruct (ClientSession_InterfaceForChannel _ _) as [id|]; [|done].
  destruct (InterfaceRegistry_FindById _ _) as [e|] eqn:He; [|done]. intros [= <- _ _]. exists (ie_interface_id e).
  apply (find_entry_skel b (of_id id)); [|exact He]. by intros x [? _]%andb_true_iff.
Qed.

Lemma routeFromClient_sound i p f :
  tri (λ S, sound S ∧ sk_peers S !! i = Some (skel_peer p)) (routeFromClient p f) (λ _, sound).
Proof.
  unfold routeFromClient. apply (tri_bind _ _ (λ b S, (sound S ∧ sk_peers S !! i = Some (skel_peer p)) ∧ S = skel b)); [by apply tri_gets|].
  intros b. destruct (ClientSession_CanWrite (hp_session p) (frame_channel f)) eqn:Hw; cbn [negb orb];
    [|eapply sounds_from; [by intros S [[? _] _]|]; solve_sound].
  destruct (negb (Z.land _ _ =? 0)); [eapply sounds_from; [by intros S [[? _] _]|]; solve_sound|].
  destruct (channelLeasedToAnother _ _ _); [eapply sounds_from; [by intros S [[? _] _]|]; solve_sound|].
  destruct (groupOfChannel _ _ _) as [[sl e]|]; [eapply sounds_from; [by intros S [[? _] _]|]; solve_sound|].
  destruct (channelRefusesFrame _ _ _); [eapply sounds_from; [by intros S [[? _] _]|]; solve_sound|].
  destruct (FrameRoutes_FromClient _ _ _ _) as [rs d] eqn:Hrs. apply sounds_after; [|intros t; solve_sound].
  eapply tri_conseq; [| |apply injectionToken_sound]; [|done]. intros S [[Hs Hp] ->]. split_and!; [done|by eapply writer_live|].
  intros r rs' ->. by eapply from_client_entry.
Qed.

Lemma sounds_routeFrame i f : (i < 512)%nat → sounds (routeFrame i f).
Proof.
  intros Hi. unfold routeFrame. eapply tri_bind; [by apply tri_sound_peer_at|]. intros p.
  do 2 (eapply tri_bind; [apply tri_quiet; solve_quiet|intros []]). destruct (_ =? _).
  - eapply sounds_from; [by intros S [? _]|apply sounds_routeFromAgent].
  - apply routeFromClient_sound.
Qed.

Lemma sounds_route_stream fuel i st f acc : (i < 512)%nat → sounds (route_stream fuel i st f acc).
Proof.
  intros Hi. revert st f acc. induction fuel as [|fuel IH]; intros st f acc; cbn [route_stream]; [by apply sounds_quiet|].
  destruct (FrameStream_Next st f) as [[more st'] f']. destruct more; cbn [negb]; [|by apply sounds_quiet].
  apply sounds_bind; [by apply sounds_routeFrame|]. intros r. apply IH.
Qed.

(** ** Transactions *)
Lemma sounds_finish t : sounds (finishTransaction t).
Proof. intros s Hs. rewrite finish_skel. by apply sound_close. Qed.
Lemma sounds_abandon t : sounds (abandonTransaction t).
Proof. apply abandon_sound. Qed.
#[local] Hint Resolve sounds_finish sounds_abandon : sound.
Lemma sounds_refuse t a r : sounds (refuseTransaction t a r).
Proof. unfold refuseTransaction. solve_sound. Qed.
#[local] Hint Resolve sounds_refuse : sound.
Lemma sounds_close_txn i : sounds (modify (λ b, set_transactions b (TransactionTable_Close (bk_transactions b) i))).
Proof. apply tri_modify. intros b Hb. rewrite skel_close. by apply sound_close. Qed.
Lemma sounds_update_txn i f : (∀ x, skel_txn (f x) = skel_txn x) → sounds (update_txn i f).
Proof. intros Hf. by apply sounds_quiet, quiet_update_txn. Qed.
#[local] Hint Resolve sounds_close_txn : sound.

Lemma sounds_relayContent i h p : sounds (relayTransactionContent i h p).
Proof. unfold relayTransactionContent. solve_sound. by apply sounds_update_txn. Qed.
#[local] Hint Resolve sounds_relayContent : sound.
Lemma sounds_handleTxnContent i h p : sounds (handleTxnContent i h p).
Proof. unfold handleTxnContent. solve_sound. Qed.
Lemma sounds_handleTxnProgress i h p : sounds (handleTxnProgress i h p).
Proof. unfold handleTxnProgress. solve_sound. by apply sounds_update_txn. Qed.
Lemma sounds_handleTxnStatus i h p : sounds (handleTxnStatus i h p).
Proof. unfold handleTxnStatus. solve_sound. Qed.
Lemma sounds_handleTxnAbort i h p : sounds (handleTxnAbort i h p).
Proof. unfold handleTxnAbort. solve_sound. Qed.
Lemma sounds_handleTxnRosterReport i h p : sounds (handleTxnRosterReport i h p).
Proof. unfold handleTxnRosterReport. solve_sound. Qed.

(** Closing channels ends their transactions. *)
Lemma close_bindings sn c x :
  x ∈ binding_sk <$> bindings (ClientSession_CloseChannel sn c) → x.1.1 = true → x ∈ binding_sk <$> bindings sn.
Proof. unfold ClientSession_CloseChannel. destruct (findByChannel sn c); [|done]. cbn. rewrite list_fmap_insert. by intros [->|?]%elem_of_insert_cases. Qed.

Lemma sounds_closeClientChannel i c : sounds (closeClientChannel i c).
Proof.
  unfold closeClientChannel. solve_sound. apply sound_sessions; [done|]. intros S sn x Hs _ Hx Hu. exists x. split_and!; [by eapply close_bindings|done..].
Qed.
#[local] Hint Resolve sounds_closeClientChannel : sound.
Lemma sounds_removeClientInterface i id : sounds (removeClientInterface i id).
Proof. unfold removeClientInterface. solve_sound. Qed.
Lemma sounds_handleClose i h p : sounds (handleClose i h p).
Proof. unfold handleClose. solve_sound. Qed.

Lemma filters_bindings sn c fs n : binding_sk <$> bindings (ClientSession_SetFilters sn c fs n).2 = binding_sk <$> bindings sn.
Proof. unfold ClientSession_SetFilters. destruct (findByChannel sn c); [|done]. destruct (_ >? _); [done|]. cbn. by apply fmap_alter_same. Qed.

(** ** Sessions *)
(** A session stored back: its live bindings were there, or lead to an interface of the catalogue. *)
Lemma put_session (Q : skeleton → Prop) i p sn :
  (∀ S c, Q S → c ∈ binding_sk <$> bindings sn → c.1.1 = true →
    c ∈ binding_sk <$> bindings (hp_session p) ∨
    (hp_in_use p = true ∧ hp_role p = kHUB_PEER_ROLE_CLIENT ∧ ∃ agent, has_entry S c.2 agent)) →
  tri (λ S, sound S ∧ sk_peers S !! i = Some (skel_peer p) ∧ Q S) (update_peer i (on_session (λ _, sn))) (λ _, sound).
Proof.
  intros Hsn. apply tri_update_peer; [|by intros S [? _]]. intros S p0 (Hs & Hp & HQ) Hp0. rewrite Hp in Hp0. apply (inj Some) in Hp0.
  assert (skel_peer p ∈ sk_peers S) as Hin by (by eapply list_elem_of_lookup_2).
  assert (pk_owners (skel_peer (on_session (λ _, sn) p0)) = pk_owners (skel_peer p)) as How by (by rewrite Hp0).
  apply (sound_peer S i (skel_peer p)); [done|done|by rewrite Hp0|..]; rewrite ?How.
  - intros c Hc Hu. destruct (Hsn S c HQ Hc Hu) as [Hold|(? & ? & ?)]; [by apply (sd_bindings S Hs (skel_peer p))|by split_and!].
  - intros o. by apply (sd_owners S Hs (skel_peer p)).
  - intros j k o. by apply (sd_tokens S Hs (skel_peer p)).
Qed.

(** The peer in slot [i] is [id]. *)
Definition at_peer (i : nat) (id : Z) (S : skeleton) : Prop := sound S ∧ ∃ r v, keys S !! i = Some (true, id, r, v).

Lemma at_peer_at i id :
  tri (at_peer i id) (peer_at i) (λ p S, at_peer i id S ∧ sk_peers S !! i = Some (skel_peer p) ∧ hp_in_use p = true ∧ hp_peer_id p = id).
Proof.
  apply tri_peer_at.
  - intros S [Hs (r & v & Hk)]. apply key_bound in Hk; [|done]. pose proof (sd_sizes S Hs) as [-> _]. lia.
  - intros p S [Hs (r & v & Hk)] Hp. destruct (key_role S i id r v p Hk Hp) as (? & ? & _). split_and!; try done. split; [done|by exists r, v].
Qed.
Lemma at_peer_sound i id S : at_peer i id S → sound S.
Proof. by intros [? _]. Qed.
Lemma at_peer_live i id S : at_peer i id S → ∃ r, live_as S id r.
Proof. intros [_ (r & v & Hk)]. exists r. by eapply key_live. Qed.

Lemma handleSubscribe_sound i id h pl : tri (at_peer i id) (handleSubscribe i h pl) (λ _, sound).
Proof.
  unfold handleSubscribe. eapply tri_bind; [apply at_peer_at|]. intros p.
  destruct (negb _); [eapply sounds_from; [by intros S [[? _] _]|]; solve_sound|].
  destruct (SubscribeMessage_Decode _ _) as [ok m]. destruct ok; cbn [negb]; [|eapply sounds_from; [by intros S [[? _] _]|]; solve_sound].
  pose proof (filters_bindings (hp_session p) (sub_channel m) (sub_filters m) (sub_filter_count m)) as Hb.
  destruct (ClientSession_SetFilters _ _ _ _) as [found sn]. cbn in Hb. apply sounds_after; [|intros []; solve_sound].
  eapply tri_conseq; [| |apply (put_session (λ _, True) i p sn)]; [by intros S ([? _] & ? & _)|done|].
  intros S c _ Hc _. left. by rewrite <- Hb.
Qed.

(** ** OPEN *)
Lemma open_bindings sn rq c :
  c ∈ binding_sk <$> bindings (ClientSession_OpenInterface sn rq).2 → c.1.1 = true →
  c ∈ binding_sk <$> bindings sn ∨ c = (true, false, rq_interface_id rq).
Proof.
  unfold ClientSession_OpenInterface. destruct (findFree sn) as [j|]; [|by left].
  assert (bindings (allocateChannel sn).2 = bindings sn) as Hal.
  { unfold allocateChannel. generalize (CLIENT_SESSION_BINDINGS_MAX + 1)%nat. intros n. revert sn. induction n as [|n IH]; intros sn; cbn [allocate_from]; [done|].
    destruct (findByChannel _ _); [|done]. by rewrite IH. }
  destruct (allocateChannel sn) as [[ch|] sn']; cbn in *; rewrite Hal; [|by left]. intros (k & Hk)%list_elem_of_lookup_1 Hu.
  rewrite list_lookup_fmap in Hk. destruct (decide (j = k)) as [->|Hne].
  - rewrite list_lookup_alter_eq in Hk. destruct (bindings sn !! k); [|done]. injection Hk as <-. by right.
  - rewrite list_lookup_alter_ne in Hk by done. left. apply (list_elem_of_lookup_2 _ k). by rewrite list_lookup_fmap.
Qed.

Lemma find_id_skel b id e : InterfaceRegistry_FindById (bk_registry b) id = Some e →
  ie_interface_id e = id ∧ has_entry (skel b) id (ie_agent_peer_id e).
Proof.
  intros He. assert (ie_interface_id e = id) as Hid.
  { unfold InterfaceRegistry_FindById, find_entry in He. destruct (scan _ _) as [k|] eqn:Hk; [|done]. apply scan_hit in Hk as (x & Hx & [_ Hid%Z.eqb_eq]%andb_true_iff).
    cbn in He. rewrite Hx in He. by injection He as <-. }
  split; [done|]. rewrite <- Hid at 1. apply (find_entry_skel b (of_id id)); [by intros x [? _]%andb_true_iff|exact He].
Qed.

Lemma grantOpen_sound i id open e w :
  tri (λ S, at_peer i id S ∧ live_as S id kHUB_PEER_ROLE_CLIENT ∧ has_entry S (open_interface_id open) (ie_agent_peer_id e))
    (grantOpen i open e w) (λ _, sound).
Proof.
  unfold grantOpen. eapply tri_bind.
  { apply (tri_and (at_peer i id) _ _ (λ p S, at_peer i id S ∧ sk_peers S !! i = Some (skel_peer p) ∧ hp_in_use p = true ∧ hp_peer_id p = id));
      [apply at_peer_at|by apply tri_quiet]. }
  intros p. pose proof (open_bindings (hp_session p) (open_request open e w)) as Hb.
  destruct (ClientSession_OpenInterface _ _) as [ch sn]. cbn in Hb. apply sounds_after; [|intros []; solve_sound].
  eapply tri_conseq; [| |apply (put_session (λ S, hp_in_use p = true ∧ hp_role p = kHUB_PEER_ROLE_CLIENT ∧ has_entry S (open_interface_id open) (ie_agent_peer_id e)) i p sn)]; [|done|].
  - intros S [[(Hs & r & v & Hk) (Hp & Hu & Hid)] [Hl He]]. split_and!; try done. destruct (key_role S i id r v p Hk Hp) as (_ & _ & -> & _).
    apply (live_as_role (leaving := 0) S id); [done|by eapply key_live|done].
  - intros S c (Hu & Hr & He) Hc Hcu. destruct (Hb c Hc Hcu) as [?| ->]; [by left|right]. split_and!; [done..|]. by eexists.
Qed.

Lemma handleOpen_sound i id h pl : tri (at_peer i id) (handleOpen i h pl) (λ _, sound).
Proof.
  unfold handleOpen. eapply tri_bind; [apply at_peer_at|]. intros p.
  destruct (Z.eqb_spec (hp_role p) kHUB_PEER_ROLE_CLIENT) as [Hr|]; cbn [negb]; [|eapply sounds_from; [by intros S [[? _] _]|]; solve_sound].
  destruct (OpenMessage_Decode _ _) as [ok m]. destruct ok; cbn [negb]; [|eapply sounds_from; [by intros S [[? _] _]|]; solve_sound].
  set (F := λ S, at_peer i id S ∧ live_as S id kHUB_PEER_ROLE_CLIENT).
  apply (tri_bind _ _ (λ o S, F S ∧ match o with Some e => has_entry S (open_interface_id m) (ie_agent_peer_id e) | None => True end)).
  { apply tri_gets. intros b (Hat & Hp & Hu & Hid). split.
    - split; [done|]. exists (standing p). apply (list_elem_of_lookup_2 _ i). unfold keys. rewrite list_lookup_fmap, Hp. cbn. unfold pk_key. cbn.
      by rewrite Hu, Hid, Hr.
    - destruct (InterfaceRegistry_FindById _ _) as [e|] eqn:He; [|done]. by apply find_id_skel in He as [_ ?]. }
  intros [e|]; [|eapply sounds_from; [by intros S [[[? _] _] _]|]; solve_sound].
  eapply tri_bind; [apply tri_quiet; solve_quiet|]. intros rd. destruct rd; cbn [negb]; [|eapply sounds_from; [by intros S [[[? _] _] _]|]; solve_sound].
  eapply tri_bind; [apply tri_quiet; solve_quiet|]. intros wr.
  destruct (_ && _); [eapply sounds_from; [by intros S [[[? _] _] _]|]; solve_sound|].
  eapply tri_bind; [apply tri_quiet; solve_quiet|]. intros sp. destruct sp; cbn [negb]; [|eapply sounds_from; [by intros S [[[? _] _] _]|]; solve_sound].
  eapply tri_conseq; [| |apply (grantOpen_sound i id m e wr)]; [|done]. by intros S [[? ?] ?].
Qed.

(** ** Interface configuration *)
Lemma remember_sound req e :
  tri (λ S, sound S ∧ (∃ r, live_as S req r) ∧ live_as S (ie_agent_peer_id e) kHUB_PEER_ROLE_AGENT ∧
    has_entry S (ie_interface_id e) (ie_agent_peer_id e)) (rememberPendingIfconfig req e) (λ _, sound).
Proof.
  unfold rememberPendingIfconfig. eapply tri_bind; [by apply tri_quiet|]. intros b. destruct (free_slot _) as [i|]; [|by apply tri_ret; intros S [? _]].
  apply sounds_after; [|by intros []; apply sounds_quiet]. apply tri_modify. intros b' (Hs & Hreq & Ha & Hent).
  assert (∀ x nx, skel (set_pending b' (<[i := x]> (bk_pending_ifconfig b')) nx) = sk_with_pending (skel b') (<[i := skel_pending x]> (sk_pending (skel b')))) as ->.
  { intros x nx. unfold skel, sk_with_pending. cbn. by rewrite list_fmap_insert. }
  apply (sound_pending 0); [done|by rewrite length_insert|]. intros q [->|Hq]%elem_of_insert_cases Hu; [done|].
  split_and!; try apply (sd_pending _ Hs q Hq Hu). by apply (sd_pending_entries _ Hs).
Qed.

Lemma sounds_drop_pending i : sounds (drop_pending i).
Proof. apply tri_modify. intros b Hb. rewrite skel_drop_pending. by apply sound_drop_pending. Qed.
#[local] Hint Resolve sounds_drop_pending : sound.
Lemma sounds_takePending a r : sounds (takePendingIfconfig a r).
Proof. unfold takePendingIfconfig. solve_sound. Qed.
#[local] Hint Resolve sounds_takePending : sound.
Lemma sounds_handleIfconfigReply i h p : sounds (handleIfconfigReply i h p).
Proof. unfold handleIfconfigReply. solve_sound. Qed.

Lemma handleConfigure_sound i id h pl : tri (at_peer i id) (handleConfigure i h pl) (λ _, sound).
Proof.
  unfold handleConfigure. eapply tri_bind; [apply at_peer_at|]. intros p. set (F := λ S, at_peer i id S ∧ hp_peer_id p = id).
  apply (tri_conseq _ F _ _ (λ _, sound)); [by intros S (? & _ & _ & ?)|done|]. assert (∀ S, F S → sound S) as HF by (by intros S [[? _] _]).
  destruct (_ && _); [by apply sounds_from; [|solve_sound]|]. destruct (ConfigureMessage_Decode _ _) as [ok m].
  destruct ok; cbn [negb]; [|by apply sounds_from; [|solve_sound]].
  apply (tri_bind _ _ (λ o S, F S ∧ match o with Some e => has_entry S (ie_interface_id e) (ie_agent_peer_id e) | None => True end)).
  { apply tri_gets. intros b Hb. split; [done|]. destruct (InterfaceRegistry_FindByName _ _ _) as [e|] eqn:He; [|done].
    refine (find_entry_skel b _ e _ He). by intros x [? _]%andb_true_iff. }
  intros [e|]; [|by apply sounds_from; [intros S [? _]; eauto|solve_sound]]. set (G := λ S, F S ∧ has_entry S (ie_interface_id e) (ie_agent_peer_id e)).
  assert (∀ S, G S → sound S) as HG by (intros S [? _]; eauto).
  destruct (InterfaceEntry_IsVirtual e); [by apply sounds_from; [|solve_sound]|].
  eapply tri_bind; [apply (tri_quiet G); solve_quiet|]. intros [|]; cbn [negb]; [|by apply sounds_from; [|solve_sound]].
  eapply tri_bind; [apply (tri_find_peer G)|]. intros [a|]; [|by apply sounds_from; [intros S [? _]; eauto|solve_sound]].
  apply (tri_bind _ _ (λ q S, G S ∧ (hp_role q = kHUB_PEER_ROLE_AGENT → live_as S (ie_agent_peer_id e) kHUB_PEER_ROLE_AGENT))).
  { apply tri_peer_at.
    - intros S [HS (r & v & Hk)]. specialize (HG S HS). apply key_bound in Hk; [|done]. pose proof (sd_sizes S HG) as [-> _]. lia.
    - intros q S [HS (r & v & Hk)] Hq. split; [done|]. intros Hr. destruct (key_role S a _ r v q Hk Hq) as (_ & _ & Hr' & _).
      apply (key_live S a _ _ v). by rewrite Hk, <- Hr', Hr. }
  intros q. destruct (Z.eqb_spec (hp_role q) kHUB_PEER_ROLE_AGENT) as [Hr|]; cbn [negb]; [|by apply sounds_from; [intros S [? _]; eauto|solve_sound]].
  apply sounds_after; [|intros [rid|]; solve_sound]. eapply tri_conseq; [| |apply remember_sound]; [|done].
  intros S [[[Hat ->] Hent] Hl]. split_and!; [by eapply at_peer_sound|by eapply at_peer_live|by apply Hl|done].
Qed.

(** ** Beginning transactions *)
Lemma openTransaction_sound rq :
  tri (λ S, sound S ∧ live_as S (rt_agent_peer_id rq) kHUB_PEER_ROLE_AGENT ∧ live_as S (rt_client_peer_id rq) kHUB_PEER_ROLE_CLIENT ∧
    has_entry S (rt_interface_id rq) (rt_agent_peer_id rq))
    (openTransaction rq) (λ _, sound).
Proof.
  unfold openTransaction. apply (tri_bind _ _ (λ b S, (sound S ∧ live_as S (rt_agent_peer_id rq) kHUB_PEER_ROLE_AGENT ∧
    live_as S (rt_client_peer_id rq) kHUB_PEER_ROLE_CLIENT ∧ has_entry S (rt_interface_id rq) (rt_agent_peer_id rq)) ∧ sk_txns S = sk_txns (skel b))); [by apply tri_gets|].
  intros b. unfold TransactionTable_Open. pose proof (for_agent_skel b (rt_agent_peer_id rq)) as Hfa.
  destruct (TransactionTable_ForAgent _ _) as [k|].
  - apply sounds_after; [|by intros []; apply sounds_quiet]. apply tri_modify. intros b' [(Hs & _) Heq].
    assert (skel (set_transactions b' (bk_transactions b)) = skel b') as ->; [|done]. unfold skel in *. cbn in *. by rewrite <- Heq.
  - destruct (scan _ _) as [k|] eqn:Hk.
    + apply sounds_after; [|by intros []; apply sounds_quiet]. apply tri_modify. intros b' [(Hs & Ha & Hc & Hent) Heq].
      assert (∀ x n, skel (set_transactions b' {| txns := <[k := x]> (txns (bk_transactions b)); active_leases := n |}) =
        sk_with_txns (skel b') (<[k := skel_txn x]> (sk_txns (skel b')))) as ->.
      { intros x n. rewrite Heq. unfold skel, sk_with_txns. cbn. by rewrite list_fmap_insert. }
      apply sound_txns; [done|by rewrite length_insert|..].
      * intros t [->|Ht]%elem_of_insert_cases Hu; [|by split_and!; try apply (sd_txns _ Hs t Ht Hu); apply (sd_txn_entries _ Hs)]. cbn. split_and!; [done|by right|done].
      * rewrite <- Heq in Hfa. intros m n t t' Hm Hn Hu Hu' Hag.
        apply list_lookup_insert_Some in Hm as [(<- & <- & _)|[? Hm]]; apply list_lookup_insert_Some in Hn as [(<- & <- & _)|[? Hn]]; try done.
        -- exfalso. apply (Hfa t'); [by eapply list_elem_of_lookup_2|done|]. by rewrite <- Hag.
        -- exfalso. apply (Hfa t); [by eapply list_elem_of_lookup_2|done|]. by rewrite Hag.
        -- by apply (sd_txn_agents _ Hs m n t t').
    + apply sounds_after; [|by intros []; apply sounds_quiet]. apply tri_modify. intros b' [(Hs & _) Heq].
      assert (skel (set_transactions b' (bk_transactions b)) = skel b') as ->; [|done]. unfold skel in *. cbn in *. by rewrite <- Heq.
Qed.

(** A request that is admitted names a live agent and a live client. *)
Definition request_live (r : Z * RelayedTransaction) (S : skeleton) : Prop :=
  r.1 = kTXN_BEGIN_STATUS_OK → live_as S (rt_agent_peer_id r.2) kHUB_PEER_ROLE_AGENT ∧ live_as S (rt_client_peer_id r.2) kHUB_PEER_ROLE_CLIENT ∧
    has_entry S (rt_interface_id r.2) (rt_agent_peer_id r.2).

Lemma admit_live p m :
  tri (λ S, sound S ∧ live_as S (hp_peer_id p) kHUB_PEER_ROLE_CLIENT) (admitTransaction p m) (λ r S, sound S ∧ request_live r S).
Proof.
  set (F := λ S, sound S ∧ live_as S (hp_peer_id p) kHUB_PEER_ROLE_CLIENT).
  assert (∀ G st, (∀ S, G S → F S) → st ≠ kTXN_BEGIN_STATUS_OK →
    tri G (mret (st, RelayedTransaction_zero) : Hub _) (λ r S, sound S ∧ request_live r S)) as Href.
  { intros G st HG Hst. apply tri_ret. intros S HS. split; [by apply HG|]. by intros ?. }
  unfold admitTransaction. destruct (ClientSession_InterfaceForChannel _ _) as [id|]; [|by apply Href].
  apply (tri_bind _ _ (λ o S, F S ∧ match o with Some e => has_entry S id (ie_agent_peer_id e) | None => True end)).
  { apply tri_gets. intros b Hb. split; [done|]. destruct (InterfaceRegistry_FindById _ _) as [e|] eqn:He; [|done]. by apply find_id_skel in He as [_ ?]. }
  intros [e|]; [|by apply Href; [intros S [? _]|]]. destruct (InterfaceEntry_IsVirtual e); [by apply Href; [intros S [? _]|]|].
  eapply tri_bind; [apply tri_find_peer|]. intros [a|]; [|by apply Href; [intros S [[? _] _]|]].
  set (G := λ q S, F S ∧ live_as S (hp_peer_id q) kHUB_PEER_ROLE_AGENT ∧ has_entry S id (hp_peer_id q)).
  apply (tri_bind _ _ G).
  { apply tri_peer_at.
    - intros S [[[Hs _] _] (r & v & Hk)]. apply key_bound in Hk; [|done]. pose proof (sd_sizes S Hs) as [-> _]. lia.
    - intros q S [[HF He] (r & v & Hk)] Hq. split; [done|]. destruct (key_role S a _ r v q Hk Hq) as (_ & -> & _).
      rewrite (entry_agent S _ id a r v (proj1 HF) He Hk) in Hk. split; [by eapply key_live|done]. }
  intros q. assert (∀ S, G q S → F S) as HG by (by intros S [? _]). destruct (Z.land _ _ =? 0); [by apply Href|].
  destruct (ClientSession_ChannelReliable _ _); cbn [negb]; [|by apply Href].
  eapply tri_bind; [by apply (tri_quiet (G q))|]. intros [|]; cbn [negb]; [|by apply Href]. destruct (ClientSession_CanWrite _ _); cbn [negb]; [|by apply Href].
  eapply tri_bind; [by apply (tri_quiet (G q))|]. intros b. destruct (TransactionTable_ForAgent _ _); [by apply Href|].
  apply tri_ret. intros S [[Hs Hc] [Ha Hent]]. by split.
Qed.

Lemma handleTxnBegin_sound i id h pl : tri (at_peer i id) (handleTxnBegin i h pl) (λ _, sound).
Proof.
  unfold handleTxnBegin. eapply tri_bind; [apply at_peer_at|]. intros p.
  destruct (Z.eqb_spec (hp_role p) kHUB_PEER_ROLE_CLIENT) as [Hr|]; cbn [negb]; [|eapply sounds_from; [by intros S [[? _] _]|]; solve_sound].
  destruct (TxnBeginMessage_Decode _ _) as [ok m]. destruct ok; cbn [negb]; [|eapply sounds_from; [by intros S [[? _] _]|]; solve_sound].
  eapply tri_bind; [eapply tri_conseq; [| |apply (admit_live p m)]; [|intros r S HS; exact HS]|].
  { intros S ([Hs (r & v & Hk)] & Hp & Hu & Hid). split; [done|]. destruct (key_role S i id r v p Hk Hp) as (_ & -> & Hr' & _).
    eapply key_live. by rewrite Hk, <- Hr', Hr. }
  intros [st rq]. apply sounds_after; [|intros b; solve_sound]. destruct (Z.eqb_spec st kTXN_BEGIN_STATUS_OK) as [->|].
  - eapply tri_conseq; [| |apply openTransaction_sound]; [|done]. intros S [Hs Hl]. destruct (Hl eq_refl) as (? & ? & ?). by split_and!.
  - apply tri_ret. by intros S [? _].
Qed.

Lemma activate_sound k t :
  tri (λ S, sound S ∧ ∃ x, sk_txns S !! k = Some x ∧ tk_use x = true)
    (modify (λ b, set_transactions b (TransactionTable_Activate (bk_transactions b) k t))) (λ _, sound).
Proof.
  apply tri_modify. intros b (Hs & x & Hx & Hu). assert (skel (set_transactions b (TransactionTable_Activate (bk_transactions b) k t)) = skel b) as ->; [|done].
  unfold skel in *. cbn in *. rewrite list_lookup_fmap in Hx. apply fmap_Some in Hx as (y & Hy & ->). cbn in Hu.
  unfold TransactionTable_Activate. rewrite Hy. cbn. rewrite list_fmap_insert, list_insert_id; [done|]. rewrite list_lookup_fmap, Hy. cbn.
  unfold skel_txn. by rewrite Hu.
Qed.

Lemma sounds_handleTxnBeginAck i h p : sounds (handleTxnBeginAck i h p).
Proof.
  unfold handleTxnBeginAck. apply sounds_bind; [by apply sounds_quiet|]. intros q. destruct (negb _); [solve_sound|].
  destruct (TxnBeginAckMessage_Decode _ _) as [ok m]. destruct (negb ok); [solve_sound|].
  apply (tri_bind _ _ (λ o S, sound S ∧ match o with Some k => ∃ x, sk_txns S !! k = Some x ∧ tk_use x = true | None => True end)).
  { apply tri_gets. intros b Hb. split; [done|]. pose proof (for_agent_skel b (hp_peer_id q)) as Hk.
    destruct (TransactionTable_ForAgent _ _); [|done]. destruct Hk as (x & ? & ? & _). by exists x. }
  intros [k|]; cbn [with_some]; [|by apply tri_ret; intros S [? _]].
  eapply tri_bind; [by apply tri_quiet|]. intros t. destruct (negb _); [by apply sounds_from; [intros S [? _]|solve_sound]|].
  eapply tri_bind; [by apply tri_quiet|]. intros c. destruct (negb _); [by apply sounds_from; [intros S [? _]|solve_sound]|].
  destruct c as [c|]; [|by apply sounds_from; [intros S [? _]|solve_sound]]. apply sounds_after; [apply activate_sound|intros []; solve_sound].
Qed.

(** ** HELLO *)
(** A peer that has not said HELLO has nothing; its role, its standing and its name may change. *)
Lemma sound_rekey S i p p' :
  sound S → sk_peers S !! i = Some p → pk_use p' = pk_use p → pk_id p' = pk_id p → pk_bindings p' = pk_bindings p → pk_owners p' = pk_owners p →
  (pk_role p' = pk_role p ∨ (pk_role p ≠ kHUB_PEER_ROLE_AGENT ∧ pk_role p ≠ kHUB_PEER_ROLE_CLIENT)) →
  (pk_role p' = kHUB_PEER_ROLE_ADMIN → (pk_role p = kHUB_PEER_ROLE_ADMIN ∧ (pk_standing p').2 = (pk_standing p).2) ∨ (pk_standing p').2 = true) →
  sound (sk_with_peers S (<[i := p']> (sk_peers S))).
Proof.
  intros Hs Hp Hu Hid Hb Ho Hrole Hadm. assert (p ∈ sk_peers S) as Hin by (by eapply list_elem_of_lookup_2).
  assert (∀ j k, keys (sk_with_peers S (<[i := p']> (sk_peers S))) !! j = Some k → ∃ r v, keys S !! j = Some (k.1.1.1, k.1.1.2, r, v)) as Hback.
  { intros j k Hj. unfold keys in *. cbn [sk_with_peers sk_peers] in Hj. rewrite list_fmap_insert in Hj.
    apply list_lookup_insert_Some in Hj as [(<- & <- & _)|[_ Hj]]; [|destruct k as [[[]]]; by eauto].
    rewrite list_lookup_fmap, Hp. cbn. exists (pk_role p), (pk_standing p). unfold pk_key. by rewrite Hu, Hid. }
  assert (∀ id r, r = kHUB_PEER_ROLE_AGENT ∨ r = kHUB_PEER_ROLE_CLIENT → live_as S id r → live_as (sk_with_peers S (<[i := p']> (sk_peers S))) id r) as Hlive.
  { intros id r Hr (v & (j & Hj)%list_elem_of_lookup_1). unfold live_as, keys in *. cbn [sk_with_peers sk_peers]. rewrite list_fmap_insert.
    destruct (decide (i = j)) as [->|Hne].
    - rewrite list_lookup_fmap, Hp in Hj. injection Hj as Hj1 Hj2 Hj3 Hj4. exists (pk_standing p'). apply (list_elem_of_lookup_2 _ j).
      rewrite list_lookup_insert_eq by (rewrite length_fmap; by eapply lookup_lt_Some). f_equal. unfold pk_key.
      destruct Hrole as [->|[Hna Hnc]]; [by rewrite Hu, Hid, Hj1, Hj2, Hj3|]. exfalso. destruct Hr; congruence.
    - exists v. apply (list_elem_of_lookup_2 _ j). by rewrite list_lookup_insert_ne. }
  assert (∀ id, (∃ r, live_as S id r) → ∃ r, live_as (sk_with_peers S (<[i := p']> (sk_peers S))) id r) as Hsome.
  { intros id (r & v & (j & Hj)%list_elem_of_lookup_1). unfold live_as, keys in *. cbn [sk_with_peers sk_peers]. rewrite list_fmap_insert.
    destruct (decide (i = j)) as [->|Hne].
    - rewrite list_lookup_fmap, Hp in Hj. injection Hj as Hj1 Hj2 Hj3 Hj4. exists (pk_role p'), (pk_standing p'). apply (list_elem_of_lookup_2 _ j).
      rewrite list_lookup_insert_eq by (rewrite length_fmap; by eapply lookup_lt_Some). f_equal. unfold pk_key. by rewrite Hu, Hid, Hj1, Hj2.
    - exists r, v. apply (list_elem_of_lookup_2 _ j). by rewrite list_lookup_insert_ne. }
  assert (∀ q, q ∈ <[i := p']> (sk_peers S) → ∃ q0, q0 ∈ sk_peers S ∧ pk_use q = pk_use q0 ∧ pk_bindings q = pk_bindings q0 ∧ pk_owners q = pk_owners q0 ∧
    (pk_role q = pk_role q0 ∨ pk_role q0 ≠ kHUB_PEER_ROLE_AGENT ∧ pk_role q0 ≠ kHUB_PEER_ROLE_CLIENT)) as Hpeer.
  { intros q [->|Hq]%elem_of_insert_cases; [by exists p|exists q; split_and!; try done; by left]. }
  split; cbn [sk_with_peers sk_peers sk_entries sk_txns sk_pending].
  - rewrite length_insert. apply (sd_sizes S Hs).
  - intros j k id r r' v v' (r1 & v1 & Hj)%Hback (r2 & v2 & Hk)%Hback. by apply (sd_unique S Hs j k id r1 r2 v1 v2).
  - intros id r (v & (j & (r1 & v1 & Hj)%Hback)%list_elem_of_lookup_1). apply (sd_ids S Hs id r1). by eapply key_live.
  - intros q c (q0 & Hq0 & -> & -> & _ & Hr)%Hpeer Hc Hcu. destruct (sd_bindings S Hs q0 c Hq0 Hc Hcu) as (? & Hcl & ?).
    split_and!; try done. destruct Hr as [->|[_ ?]]; done.
  - intros q o (q0 & Hq0 & -> & _ & -> & Hr)%Hpeer Ho' Hn. destruct (sd_owners S Hs q0 o Hq0 Ho' Hn) as (? & Hag & Hown).
    split_and!; [done|by destruct Hr as [->|[? _]]|]. destruct Hown as [?|?]; [by left|right]. apply Hlive; [by right|done].
  - intros q j k o (q0 & Hq0 & _ & _ & -> & _)%Hpeer. by apply (sd_tokens S Hs q0).
  - intros e a He. destruct (sd_entries S Hs e a He) as [?|?]; [by left|right]. apply Hlive; [by left|done].
  - intros t Ht Htu. destruct (sd_txns S Hs t Ht Htu) as [? Hc]. split; [apply Hlive; [by left|done]|].
    destruct Hc as [?|?]; [by left|right]. apply Hlive; [by right|done].
  - apply (sd_txn_agents S Hs).
  - intros q Hq Hqu. destruct (sd_pending S Hs q Hq Hqu) as [? ?]. split; [apply Hlive; [by left|done]|by apply Hsome].
  - intros id v. unfold keys. cbn [sk_with_peers sk_peers]. rewrite list_fmap_insert. intros [Hk|Hk]%elem_of_insert_cases; [|by apply (sd_admins S Hs id)].
    injection Hk as Hku Hki Hkr ->. destruct Hadm as [[Hr ->]|?]; [done| |done]. apply (sd_admins S Hs (pk_id p)).
    apply list_elem_of_fmap. exists p. split; [|done]. unfold pk_key. by rewrite Hr, <- Hu, <- Hku.
  - apply (sd_txn_entries S Hs).
  - apply (sd_pending_entries S Hs).
Qed.
End sound.

#[export] Hint Resolve sounds_disconnect sounds_expel sounds_onPeerDisconnected sounds_tickHelloDeadline sounds_rejectClient sounds_makeRoomForKnownPeer sounds_Tick sounds_disconnectSlow sounds_forwardFrame sounds_forward_routes sounds_finish sounds_abandon sounds_refuse sounds_close_txn sounds_relayContent sounds_handleTxnContent sounds_handleTxnProgress sounds_handleTxnStatus sounds_handleTxnAbort sounds_handleTxnRosterReport sounds_closeClientChannel sounds_removeClientInterface sounds_handleClose sounds_drop_pending sounds_takePending sounds_handleIfconfigReply sounds_handleTxnBeginAck : sound.
