(* ===== verification/BrokerSoundControl.v ===== *)
(** * Soundness of connecting, HELLO, REGISTER and the bridge rules

    The handlers that change who is there and what the catalogue lists. *)

From S2P Require Import Prelude Slots Rings CString Wire HelloMessage RegisterMessage OpenMessage SubscribeMessage TxnMessage IfconfigMessage FrameMessage EchoTokens EgressQueue ClientSession InterfaceRegistry BridgeRoutes BridgeGroups.
From S2P Require Import BridgeTargets TransactionTable PeerDirectory FrameRoutes BrokerState BrokerPeers BrokerControl BrokerHandlers BrokerFrames BrokerRules BrokerAdmin BrokerLogic BrokerQuiet BrokerRelease BrokerSound.

(** ** The catalogue *)
(** [es'] has the live entries of [es], and otherwise only entries of [agent]. *)
Definition grows (agent : Z) (es es' : list entry_sk) : Prop :=
  length es' = length es ∧ (∀ e, e ∈ es → ek_use e = true → e ∈ es') ∧ (∀ e, e ∈ es' → ek_use e = true → e ∈ es ∨ ek_agent e = agent).

Lemma grows_refl a es : grows a es es.
Proof. split_and!; [done..|by left]. Qed.

(** A free entry taken. *)
Lemma grows_alter a (f : InterfaceEntry → InterfaceEntry) es0 k l :
  (∀ x, ek_agent (skel_entry (f x)) = a) → free_slot l = Some k → grows a es0 (skel_entry <$> l) → grows a es0 (skel_entry <$> alter f k l).
Proof.
  intros Hf Hk (Hl & Hold & Hnew). apply free_slot_Some in Hk as (x & Hx & Hu). rewrite (alter_insert_at f l k x Hx), list_fmap_insert.
  split_and!; [by rewrite length_insert| |].
  - intros e He Heu. pose proof (Hold e He Heu) as (j & Hj)%list_elem_of_lookup_1. apply (list_elem_of_lookup_2 _ j).
    rewrite list_lookup_insert_ne; [done|]. intros ->. rewrite list_lookup_fmap, Hx in Hj. injection Hj as <-. cbn in Heu, Hu. congruence.
  - intros e [->|He]%elem_of_insert_cases Heu; [right; apply Hf|by apply Hnew].
Qed.

Lemma grows_register n i r a m ack es0 :
  no_entry es0 a → grows a es0 (skel_entry <$> entries r) → grows a es0 (skel_entry <$> entries (register_loop n i r a m ack).1.2).
Proof.
  intros Hno. revert i r ack. induction n as [|n IH]; intros i r ack Hg; cbn [register_loop]; [done|].
  destruct (findFreeEntry r) as [k|] eqn:Hk; cbn [fst snd].
  - apply IH. cbn [entries]. by apply grows_alter.
  - destruct Hg as (Hl & Hold & Hnew). assert (skel_entry <$> entries (InterfaceRegistry_RemovePeer r a) = drop_entry a <$> (skel_entry <$> entries r)) as ->.
    { cbn. rewrite <- !list_fmap_compose. apply list_fmap_ext. intros j e _. cbn. unfold of_peer, drop_entry. cbn. by destruct (_ && _). }
    split_and!; [by rewrite length_fmap| |].
    + intros e He Hu. apply list_elem_of_fmap. exists e. split; [|by apply Hold]. unfold drop_entry. rewrite (proj2 (Z.eqb_neq _ _) (Hno e He Hu)). by rewrite andb_false_r.
    + intros e (e0 & -> & He0)%list_elem_of_fmap_1. unfold drop_entry. destruct (_ && _); [done|]. apply Hnew, He0.
Qed.

Lemma registered_skel r a : isPeerRegistered r a = false → no_entry (skel_entry <$> entries r) a.
Proof. intros H e (x & -> & Hx)%list_elem_of_fmap_1 Hu Ha. apply list_elem_of_lookup_1 in Hx as (i & Hi).
  pose proof (isPeerRegistered_false r a H i x Hi) as Hof. cbn in *. unfold of_peer in Hof. by rewrite Hu, Ha, Z.eqb_refl in Hof. Qed.

Lemma sound_grows S a es : sound S → grows a (sk_entries S) es → live_as S a kHUB_PEER_ROLE_AGENT ∨ a = INTERFACE_REGISTRY_HUB_PEER →
  sound (sk_with_entries S es).
Proof.
  intros Hs (Hl & Hold & Hnew) Ha. apply sound_entries; [done..| | | |by apply (agents_named 0 _ Hs)].
  - intros [u e ag] He Hu. cbn in *. destruct (Hnew _ He Hu) as [Hin|Heq]; cbn in *; subst; [by apply (sd_entries S Hs e)|]. by destruct Ha; [right|left].
  - intros p c Hp Hc Hu Hd. destruct (sd_bindings S Hs p c Hp Hc Hu) as (_ & _ & [ag Hag]%(λ f, f Hd)). exists ag. by apply Hold.
  - intros e ag He _ _. by apply Hold.
Qed.

Section control.
Context `{ports : HubPorts}.

Lemma skel_with_registry b r : skel (set_registry b r) = sk_with_entries (skel b) (skel_entry <$> entries r).
Proof. done. Qed.

Lemma registerAgent_sound id m : tri (λ S, sound S ∧ live_as S id kHUB_PEER_ROLE_AGENT) (registerAgent id m) (λ _, sound).
Proof.
  unfold registerAgent. apply (tri_bind _ _ (λ r S, (sound S ∧ live_as S id kHUB_PEER_ROLE_AGENT) ∧ sk_entries S = skel_entry <$> entries r)).
  { by apply tri_gets. }
  intros r. assert (grows id (skel_entry <$> entries r) (skel_entry <$> entries (InterfaceRegistry_RegisterAgent r id m).1.2)) as Hg.
  { unfold InterfaceRegistry_RegisterAgent. destruct (isPeerRegistered r id) eqn:Hreg; [apply grows_refl|].
    destruct (isRegistrationColliding r m); [apply grows_refl|]. apply grows_register; [by apply registered_skel|apply grows_refl]. }
  destruct (InterfaceRegistry_RegisterAgent r id m) as [[ok r'] ack]. cbn [fst snd] in Hg. apply sounds_after; [|by intros []; apply sounds_quiet].
  apply tri_modify. intros b [[Hs Hl] He]. rewrite skel_with_registry. apply (sound_grows _ id); [done| |by left]. by rewrite He.
Qed.
Lemma registerAgent_keys id m : fixes keys (registerAgent id m).
Proof.
  unfold registerAgent. apply fixes_bind; [done|]. intros r. destruct (InterfaceRegistry_RegisterAgent r id m) as [[ok r'] ack].
  apply fixes_bind; [by apply fixes_modify|done].
Qed.

(** ** The peer that registers stays while others go *)
Definition keyed (i : nat) (id r : Z) (v : bool * bool) (S : skeleton) : Prop := sound S ∧ keys S !! i = Some (true, id, r, v).

Lemma keyed_tri {A} i id r v (m : Hub A) : tri (keyed i id r v) m (λ _, sound) → fixes keys m → tri (keyed i id r v) m (λ _, keyed i id r v).
Proof. intros Hm Hk s Hs. split; [by apply Hm|]. rewrite Hk. apply Hs. Qed.

Lemma disconnect_keeps i id r v id' : id ≠ id' → tri (keyed i id r v) (disconnectPeer id') (λ _, keyed i id r v).
Proof.
  intros Hne. apply (tri_pull keys). intros K s [[Hs Hi] HK]. destruct (disconnect_gone K id' s) as (Hs' & _ & Hkept & _); [done|].
  split; [done|]. apply Hkept; [done|]. by rewrite <- HK.
Qed.

Lemma keyed_live i id r v S : keyed i id r v S → live_as S id r.
Proof. intros [_ Hk]. by eapply key_live. Qed.

Lemma displaceGhost_keeps i id v m : tri (keyed i id kHUB_PEER_ROLE_AGENT v) (displaceGhostPeer i m) (λ _, keyed i id kHUB_PEER_ROLE_AGENT v).
Proof.
  set (F := keyed i id kHUB_PEER_ROLE_AGENT v). unfold displaceGhostPeer.
  apply (tri_bind _ _ (λ p S, F S ∧ hp_peer_id p = id)).
  { eapply tri_conseq; [| |apply (tri_keyed_at F i id kHUB_PEER_ROLE_AGENT v)]; [done| |done]. by intros p S (? & _ & _ & ? & _). }
  intros p. eapply tri_bind; [by apply (tri_quiet (λ S, F S ∧ hp_peer_id p = id))|]. intros [g|]; [|by apply tri_ret; intros S [? _]].
  destruct (Z.eqb_spec g (hp_peer_id p)) as [|Hne]; [by apply tri_ret; intros S [? _]|].
  eapply tri_bind; [by apply (tri_quiet (λ S, F S ∧ hp_peer_id p = id))|]. intros [j|]; [|by apply tri_ret; intros S [? _]].
  eapply tri_bind; [by apply (tri_quiet (λ S, F S ∧ hp_peer_id p = id))|]. intros q. destruct (negb _); [by apply tri_ret; intros S [? _]|].
  apply tri_fact. intros Hid. eapply tri_bind; [apply (disconnect_keeps i id kHUB_PEER_ROLE_AGENT v g); congruence|]. intros []. by apply tri_ret.
Qed.

(** Only an agent nobody vouches for is displaced. *)
Lemma displaceable_other b i id l j d :
  sound (skel b) → keys (skel b) !! i = Some (true, id, kHUB_PEER_ROLE_AGENT, (true, l)) →
  PeerDirectory_FindDisplaceableAgent (bk_directory b) = Some (j, d) → id ≠ hp_peer_id d.
Proof.
  intros Hs Hi Hd Heq. unfold PeerDirectory_FindDisplaceableAgent in Hd.
  apply select_Some in Hd as (Hj & [Hu Hdis%Z.eqb_eq]%andb_true_iff & _); [|intros; lia..].
  destruct (displaceable d) as (_ & _ & Hv & _); [by rewrite Hdis|].
  assert (keys (skel b) !! j = Some (true, id, hp_role d, (false, hp_local d))) as Hkj.
  { unfold keys, skel. cbn [sk_peers]. rewrite !list_lookup_fmap, Hj. cbn. unfold pk_key, standing. cbn. unfold standing. by rewrite Hu, Hv, Heq. }
  pose proof (sd_unique _ Hs i j id _ _ _ _ Hi Hkj) as <-. congruence.
Qed.

Lemma make_room_keeps i id l fuel n :
  tri (keyed i id kHUB_PEER_ROLE_AGENT (true, l)) (make_room fuel n) (λ _, keyed i id kHUB_PEER_ROLE_AGENT (true, l)).
Proof.
  set (F := keyed i id kHUB_PEER_ROLE_AGENT (true, l)). induction fuel as [|fuel IH]; cbn [make_room]; [by apply tri_ret|].
  eapply tri_bind; [by apply (tri_quiet F)|]. intros [|]; [by apply tri_ret|].
  apply (tri_bind _ _ (λ o S, F S ∧ match o with Some (_, d) => id ≠ hp_peer_id d | None => True end)).
  { apply tri_gets. intros b Hb. split; [done|]. destruct (PeerDirectory_FindDisplaceableAgent _) as [[j d]|] eqn:Hd; [|done].
    destruct Hb as [Hs Hk]. by apply (displaceable_other b i id l j d). }
  intros [[j d]|]; [|by apply tri_ret; intros S [? _]]. apply tri_fact. intros Hne.
  apply (tri_bind _ _ (λ _, F)); [|intros []; exact IH]. unfold expel. eapply tri_bind; [apply tri_quiet; solve_quiet|]. intros [].
  by apply disconnect_keeps.
Qed.

Lemma makeRoomForInterfaces_keeps i id l n :
  tri (keyed i id kHUB_PEER_ROLE_AGENT (true, l)) (makeRoomForInterfaces n) (λ _, keyed i id kHUB_PEER_ROLE_AGENT (true, l)).
Proof.
  unfold makeRoomForInterfaces. eapply tri_bind; [by apply (tri_quiet (keyed i id kHUB_PEER_ROLE_AGENT (true, l)))|].
  intros [|]; [by apply tri_ret|apply make_room_keeps].
Qed.

Lemma registerAgent_keeps i id v m : tri (keyed i id kHUB_PEER_ROLE_AGENT v) (registerAgent id m) (λ _, keyed i id kHUB_PEER_ROLE_AGENT v).
Proof.
  apply keyed_tri; [|apply registerAgent_keys]. eapply tri_conseq; [| |apply registerAgent_sound]; [|done].
  intros S HS. split; [apply HS|by eapply keyed_live].
Qed.

Lemma register_again_keeps i id v m last retry :
  tri (keyed i id kHUB_PEER_ROLE_AGENT v) retry (λ _, keyed i id kHUB_PEER_ROLE_AGENT v) →
  tri (keyed i id kHUB_PEER_ROLE_AGENT v) (register_again id m last retry) (λ _, keyed i id kHUB_PEER_ROLE_AGENT v).
Proof.
  intros Hr. unfold register_again. destruct last.1; [by apply tri_ret|]. eapply tri_bind; [exact Hr|]. intros [|]; [apply registerAgent_keeps|by apply tri_ret].
Qed.

(** ** Reattaching *)
Lemma closeClientChannel_fixes {X} (f : skeleton → X) i c :
  (∀ S ts, f (sk_with_txns S ts) = f S) → (∀ S ps, f (sk_with_peers S ps) = f S) → fixes f (closeClientChannel i c).
Proof. intros Ht Hp. unfold closeClientChannel. solve_fixes; [by apply abandon_fixes|by apply fixes_update_peer]. Qed.
Lemma removeClientInterface_entries i id : fixes sk_entries (removeClientInterface i id).
Proof. unfold removeClientInterface. solve_fixes. by apply closeClientChannel_fixes. Qed.

Lemma reattach_bindings sn a n id w c :
  c ∈ binding_sk <$> bindings (ClientSession_ReattachInterface sn a n id w).2 → c.1.1 = true →
  c ∈ binding_sk <$> bindings sn ∨ c.2 = id.
Proof.
  cbn. rewrite <- list_fmap_compose. intros (x & -> & Hx)%list_elem_of_fmap_1. cbn. destruct (awaits a n x); [by right|].
  left. apply list_elem_of_fmap. by exists x.
Qed.

Lemma reattachInterface_sound e agent :
  tri (λ S, sound S ∧ has_entry S (ie_interface_id e) agent) (reattachInterface e) (λ _ S, sound S ∧ has_entry S (ie_interface_id e) agent).
Proof.
  set (F := λ S, sound S ∧ has_entry S (ie_interface_id e) agent). unfold reattachInterface. apply tri_for_peers.
  { intros S [Hs _]. apply (sd_sizes S Hs). }
  intros i p. destruct (Z.eqb_spec (hp_role p) kHUB_PEER_ROLE_CLIENT) as [Hr|]; cbn [negb]; [|by apply tri_ret; intros S [? _]].
  eapply tri_bind; [apply tri_quiet; solve_quiet|]. intros w. pose proof (reattach_bindings (hp_session p) (ie_agent_name e) (ie_interface_name e) (ie_interface_id e) w) as Hb.
  destruct (ClientSession_ReattachInterface _ _ _ _ _) as [re sn]. cbn in Hb.
  assert (∀ m : Hub (), fixes sk_entries m → tri F m (λ _, sound) → tri F m (λ _, F)) as HF.
  { intros m Hfix Hm s Hs. split; [by apply Hm|]. unfold has_entry. rewrite Hfix. apply Hs. }
  apply (tri_bind _ _ (λ _, F)).
  - apply (tri_conseq _ (λ S, sound S ∧ sk_peers S !! i = Some (skel_peer p) ∧ (hp_in_use p = true ∧ has_entry S (ie_interface_id e) agent)) _ _ (λ _, F)); [|done|].
    { intros S ([? ?] & ? & ?). done. }
    intros s (Hs & Hp & Hu & He). split; [|exact He]. apply (put_session (λ S, hp_in_use p = true ∧ has_entry S (ie_interface_id e) agent) i p sn); [|done].
    intros S c [Hu' He'] Hc Hcu. destruct (Hb c Hc Hcu) as [?| ->]; [by left|right]. split_and!; [done..|]. by exists agent.
  - intros []. destruct re; cbn [negb]; [|by apply tri_ret]. eapply tri_bind; [apply (tri_quiet F); solve_quiet|]. intros [|]; cbn [negb].
    + destruct (ClientSession_ChannelForInterface _ _); [|by apply tri_ret]. apply tri_quiet. solve_quiet.
    + apply HF; [apply removeClientInterface_entries|]. eapply sounds_from; [by intros S [? _]|]. solve_sound.
Qed.

Lemma reattachClients_sound id : sounds (reattachClientsToAgent id).
Proof.
  unfold reattachClientsToAgent, for_entries_of. apply sounds_for_range. intros i Hi.
  apply (tri_bind _ _ (λ e S, sound S ∧ sk_entries S !! i = Some (skel_entry e))).
  { apply tri_gets. intros b Hb. split; [done|]. apply entry_at_skel. pose proof (sd_sizes _ Hb) as (_ & -> & _). lia. }
  intros e. destruct (of_peer id e) eqn:Hof; [|by apply tri_ret; intros S [? _]]. apply andb_true_iff in Hof as [Hu _].
  eapply tri_conseq; [| |apply (reattachInterface_sound e (ie_agent_peer_id e))]; [|by intros [] S [? _]].
  intros S [Hs He]. split; [done|]. apply (list_elem_of_lookup_2 _ i). rewrite He. unfold skel_entry. by rewrite Hu.
Qed.

(** An update that keeps slot, id, role, bindings and owners. *)
Lemma sounds_restand i f :
  (∀ p, skel_peer (f p) = {| pk_use := hp_in_use p; pk_id := hp_peer_id p; pk_role := hp_role p; pk_standing := (hp_vouched (f p), hp_local p);
    pk_bindings := pk_bindings (skel_peer p); pk_owners := pk_owners (skel_peer p) |}) → sounds (update_peer i f).
Proof.
  intros Hf. apply tri_update_peer; [|done]. intros S p Hs Hp. apply (sound_rekey S i (skel_peer p)); rewrite ?Hf; try done; [by left|]. cbn. intros ?. by left.
Qed.

(** ** REGISTER *)
Lemma set_vouched_keyed i id v v' :
  tri (keyed i id kHUB_PEER_ROLE_AGENT v) (update_peer i (set_vouched v')) (λ _, keyed i id kHUB_PEER_ROLE_AGENT (v', v.2)).
Proof.
  intros s Hs. split; [apply sounds_restand; [done|apply Hs]|]. refine (tri_update_peer (keyed i id kHUB_PEER_ROLE_AGENT v) i (set_vouched v')
    (λ _ S, keys S !! i = Some (true, id, kHUB_PEER_ROLE_AGENT, (v', v.2))) _ _ s Hs).
  - intros S p [Hsd Hk] Hp. unfold keys. cbn [sk_with_peers sk_peers]. rewrite list_fmap_insert, list_lookup_insert_eq.
    + destruct (key_role S i _ _ v p Hk Hp) as (Hu & Hid & Hr & <-). unfold pk_key, standing. cbn. by rewrite Hu, Hid, Hr.
    + rewrite length_fmap. by eapply lookup_lt_Some.
  - intros S [Hsd Hk] Hn. unfold keys in Hk. by rewrite list_lookup_fmap, Hn in Hk.
Qed.

Lemma rejectAgent_sound i m st : sounds (rejectAgent i m st).
Proof. unfold rejectAgent. solve_sound. Qed.

Lemma handleRegister_sound i id h pl : tri (at_peer i id) (handleRegister i h pl) (λ _, sound).
Proof.
  unfold handleRegister. eapply tri_bind; [apply at_peer_at|]. intros p.
  destruct (Z.eqb_spec (hp_role p) kHUB_PEER_ROLE_AGENT) as [Hr|]; cbn [negb]; [|eapply sounds_from; [by intros S [[? _] _]|]; solve_sound].
  apply (tri_conseq _ (λ S, keyed i id kHUB_PEER_ROLE_AGENT (standing p) S ∧ hp_peer_id p = id) _ _ (λ _, sound)); [|done|].
  { intros S ([Hs (r & v & Hk)] & Hp & Hu & Hid). split; [|done]. split; [done|]. destruct (key_role S i id r v p Hk Hp) as (_ & _ & Hr' & Hv). congruence. }
  apply tri_fact. intros ->. assert (∀ v S, keyed i id kHUB_PEER_ROLE_AGENT v S → sound S) as HF by (by intros v S [? _]). specialize (HF (standing p)) as HF0.
  destruct (RegisterMessage_Decode _ _) as [ok m]. destruct ok; cbn [negb]; [|by apply sounds_from; [|solve_sound]].
  destruct (streq _ _); [by apply sounds_from; [|solve_sound]|].
  eapply tri_bind; [apply (tri_quiet (keyed i id kHUB_PEER_ROLE_AGENT (standing p))); solve_quiet|]. intros st.
  destruct (negb _); [by apply sounds_from; [|apply rejectAgent_sound]|].
  eapply tri_bind; [apply (tri_quiet (keyed i id kHUB_PEER_ROLE_AGENT (standing p))); solve_quiet|]. intros v.
  eapply tri_bind; [apply set_vouched_keyed|]. intros []. eapply tri_bind; [apply registerAgent_keeps|]. intros first.
  eapply tri_bind; [apply register_again_keeps, displaceGhost_keeps|]. intros second.
  eapply tri_bind; [apply register_again_keeps|intros [registered ack]].
  - set (w := (v, (standing p).2)). apply (tri_bind _ _ (λ q S, keyed i id kHUB_PEER_ROLE_AGENT w S ∧ standing q = w)).
    { eapply tri_conseq; [| |apply (tri_keyed_at (keyed i id kHUB_PEER_ROLE_AGENT w) i id kHUB_PEER_ROLE_AGENT w)]; [done| |done]. by intros q S (? & _ & _ & _ & _ & ?). }
    intros q. destruct (hp_vouched q) eqn:Hv; [|by apply tri_ret; intros S [? _]]. apply tri_fact. intros <-. unfold standing. rewrite Hv. apply makeRoomForInterfaces_keeps.
  - apply sounds_from; [by apply HF|]. solve_sound. apply reattachClients_sound.
Qed.

(** ** HELLO *)
Lemma adopted_skel p r :
  skel_peer (HubPeer_AdoptRole p r).2 = {| pk_use := hp_in_use p; pk_id := hp_peer_id p; pk_role := hp_role (HubPeer_AdoptRole p r).2;
    pk_standing := standing p; pk_bindings := pk_bindings (skel_peer p); pk_owners := pk_owners (skel_peer p) |}.
Proof. unfold HubPeer_AdoptRole. by repeat case_match. Qed.

Lemma handleHello_sound i id h pl : tri (at_peer i id) (handleHello i h pl) (λ _, sound).
Proof.
  unfold handleHello. eapply tri_bind; [apply at_peer_at|]. intros p.
  destruct (Z.eqb_spec (hp_role p) kHUB_PEER_ROLE_UNKNOWN) as [Hr|]; cbn [negb]; [|eapply sounds_from; [by intros S [[? _] _]|]; solve_sound].
  destruct (HelloMessage_Decode _ _) as [ok m]. destruct ok; cbn [negb]; [|eapply sounds_from; [by intros S [[? _] _]|]; solve_sound].
  pose proof (adopted_skel p (hello_role m)) as Had. destruct (adopt_role_spec p (hello_role m)) as [_ Hadm]. destruct (HubPeer_AdoptRole p (hello_role m)) as [ad p']. cbn in Had.
  apply sounds_after.
  - apply tri_update_peer; [|by intros S [[? _] _]]. intros S q ([Hs _] & Hp & _) Hq. rewrite Hp in Hq. apply (inj Some) in Hq.
    apply (sound_rekey S i (skel_peer p)); [done|done|..]; rewrite Had; try done.
    { right. cbn. by rewrite Hr. }
    cbn. intros [?|?]%Hadm; [rewrite Hr in *; discriminate|by right].
  - intros []. solve_sound. by apply sounds_restand.
Qed.

(** ** Connections *)
Definition fresh_id (id : Z) (S : skeleton) : Prop := sound S ∧ (∀ r, ¬ live_as S id r) ∧ 0 < id < ECHO_TOKENS_BRIDGE_OWNER.
Definition has_room (S : skeleton) : Prop := ∃ j k, keys S !! j = Some k ∧ k.1.1.1 = false.

Lemma has_room_slot b : has_room (skel b) → is_Some (free_slot (peers (bk_directory b))).
Proof.
  intros (j & k & Hj & Hk). destruct (free_slot (peers (bk_directory b))) eqn:Hf; [done|]. rewrite free_slot_None in Hf.
  unfold keys, skel in Hj. cbn [sk_peers] in Hj. rewrite !list_lookup_fmap in Hj. destruct (peers (bk_directory b) !! j) as [p|] eqn:Hp; [|done].
  injection Hj as <-. specialize (Hf j p Hp). cbn in *. congruence.
Qed.

Lemma slot_has_room b i : free_slot (peers (bk_directory b)) = Some i → has_room (skel b).
Proof.
  intros (p & Hp & Hu)%free_slot_Some. exists i, (pk_key (skel_peer p)). unfold keys, skel. cbn [sk_peers].
  by rewrite !list_lookup_fmap, Hp.
Qed.

Lemma not_full_room b : sound (skel b) → PeerDirectory_IsFull (bk_directory b) = false → has_room (skel b).
Proof.
  intros Hs Hf. pose proof (sd_sizes _ Hs) as [Hl _]. unfold skel in Hl. cbn [sk_peers] in Hl. rewrite length_fmap in Hl.
  destruct (free_slot_exists (peers (bk_directory b))) as [i Hi]; [|by eapply slot_has_room].
  pose proof (countb_bounds slot_in_use (peers (bk_directory b))) as Hle. unfold zlen in *. rewrite Hl in *.
  unfold PeerDirectory_IsFull, PeerDirectory_Count in Hf. apply Z.eqb_neq in Hf.
  change (countb hp_in_use (peers (bk_directory b))) with (countb slot_in_use (peers (bk_directory b))) in Hf.
  rewrite u16_id in Hf by lia. lia.
Qed.

Lemma makeRoom_spec id info :
  tri (fresh_id id) (makeRoomForKnownPeer info) (λ ok S, fresh_id id S ∧ (ok = true → has_room S)).
Proof.
  unfold makeRoomForKnownPeer. eapply tri_bind; [apply tri_quiet; solve_quiet|]. intros [|]; cbn [negb]; [|by apply tri_ret].
  apply (tri_bind _ _ (λ o S, fresh_id id S ∧ match o with Some (j, d) => ∃ r v, keys S !! j = Some (true, hp_peer_id d, r, v) | None => True end)).
  { apply tri_gets. intros b Hb. split; [done|]. destruct (PeerDirectory_FindDisplaceable _) as [[j d]|] eqn:Hd; [|done].
    apply displaceable_found in Hd as [Hj Hu]. exists (hp_role d), (standing d).
    unfold keys, skel. cbn [sk_peers]. rewrite !list_lookup_fmap, Hj. cbn. unfold pk_key. cbn. by rewrite Hu. }
  intros [[j d]|]; [|by apply tri_ret; intros S [? _]]. eapply tri_bind; [apply tri_quiet; solve_quiet|]. intros [].
  apply (tri_bind _ _ (λ _ S, fresh_id id S ∧ has_room S)); [|intros []; apply tri_ret; by intros S [? ?]]. apply (tri_pull keys). intros K s [[(Hs & Hn & Hid) (r & v & Hj)] HK].
  destruct (disconnect_gone K (hp_peer_id d) s) as (Hs' & Hgone & _ & Honly); [done|]. split.
  - split_and!; [done| |apply Hid..]. intros r' (v' & (k & Hk)%list_elem_of_lookup_1). apply (Hn r'). exists v'. apply (list_elem_of_lookup_2 _ k).
    rewrite HK. by apply Honly.
  - rewrite HK in Hj. destruct (keys (skel (hs_broker (disconnectPeer (hp_peer_id d) s).2)) !! j) as [k|] eqn:Hk.
    + exists j, k. split; [done|]. destruct k as [[[u kid] kr] kv]. destruct u; [|done]. exfalso. pose proof (Honly j _ Hk eq_refl) as Heq.
      rewrite Hj in Heq. injection Heq as <- <- <-. apply (Hgone r). exists v. by apply (list_elem_of_lookup_2 _ j).
    + exfalso. apply lookup_ge_None in Hk. apply lookup_lt_Some in Hj. rewrite <- HK in Hj. unfold keys in Hj, Hk. rewrite length_fmap in Hj, Hk.
      pose proof (sd_sizes _ Hs) as [Hl1 _]. pose proof (sd_sizes _ Hs') as [Hl2 _]. lia.
Qed.

Lemma allocate_sound S i p id :
  fresh_id id S → sk_peers S !! i = Some p → pk_use p = false → sound (sk_with_peers S (<[i := skel_peer (allocated_peer id)]> (sk_peers S))).
Proof.
  intros (Hs & Hn & Hid) Hp Hu. set (q := skel_peer (allocated_peer id)).
  assert (∀ j k, keys (sk_with_peers S (<[i := q]> (sk_peers S))) !! j = Some k → (j = i ∧ k = pk_key q) ∨ (j ≠ i ∧ keys S !! j = Some k)) as Hback.
  { intros j k. unfold keys. cbn [sk_with_peers sk_peers]. rewrite list_fmap_insert. intros [(-> & <- & _)|[? ?]]%list_lookup_insert_Some; [by left|by right]. }
  assert (∀ id' r, live_as S id' r → live_as (sk_with_peers S (<[i := q]> (sk_peers S))) id' r) as Hlive.
  { intros id' r (v & (j & Hj)%list_elem_of_lookup_1). exists v. apply (list_elem_of_lookup_2 _ j). unfold keys in *. cbn [sk_with_peers sk_peers].
    rewrite list_fmap_insert, list_lookup_insert_ne; [done|]. intros ->. rewrite list_lookup_fmap, Hp in Hj. injection Hj as Hj _ _ _. congruence. }
  split; cbn [sk_with_peers sk_peers sk_entries sk_txns sk_pending].
  - rewrite length_insert. apply (sd_sizes S Hs).
  - intros j k id' r r' v v' [[-> Hj]|[Hji Hj]]%Hback [[-> Hk]|[Hki Hk]]%Hback; try done.
    + exfalso. injection Hj as <- _ _. by eapply Hn, key_live.
    + exfalso. injection Hk as <- _ _. by eapply Hn, key_live.
    + by apply (sd_unique S Hs j k id' r r' v v').
  - intros id' r (v & (j & [[-> Hj]|[_ Hj]]%Hback)%list_elem_of_lookup_1); [by injection Hj as <- _ _|]. apply (sd_ids S Hs id' r). by eapply key_live.
  - intros p' c [->|Hp']%elem_of_insert_cases Hc Hcu; [|by apply (sd_bindings S Hs p')]. by rewrite peer_free_bindings in Hcu.
  - intros p' o [->|Hp']%elem_of_insert_cases Ho Hno; [by apply peer_free_owners in Ho|]. destruct (sd_owners S Hs p' o Hp' Ho Hno) as (? & ? & [?|?]);
      split_and!; try done; [by left|right; by apply Hlive].
  - intros p' j k o [->|Hp']%elem_of_insert_cases; [|by apply (sd_tokens S Hs p')]. by intros Hj%list_elem_of_lookup_2%peer_free_owners.
  - intros e a He. destruct (sd_entries S Hs e a He) as [?|?]; [by left|right; by apply Hlive].
  - intros t Ht Htu. destruct (sd_txns S Hs t Ht Htu) as [? [?|?]]; (split; [by apply Hlive|]); [by left|right; by apply Hlive].
  - apply (sd_txn_agents S Hs).
  - intros x Hx Hxu. destruct (sd_pending S Hs x Hx Hxu) as [? [r ?]]. split; [by apply Hlive|]. exists r. by apply Hlive.
  - intros id' v (j & [[-> Hj]|[_ Hj]]%Hback)%list_elem_of_lookup_1; [done|]. apply (sd_admins S Hs id'). by apply (list_elem_of_lookup_2 _ j).
  - apply (sd_txn_entries S Hs).
  - apply (sd_pending_entries S Hs).
Qed.

Lemma onPeerConnected_spec id info now :
  tri (fresh_id id) (onPeerConnected id info now) (λ r S, sound S ∧ r = Some ()).
Proof.
  assert (∀ m : Hub (), quiet m → tri (fresh_id id) (m;; mret (Some ())) (λ r S, sound S ∧ r = Some ())) as Hrefuse.
  { intros m Hm. eapply tri_bind; [by apply tri_quiet|]. intros []. apply tri_ret. by intros S [? _]. }
  unfold onPeerConnected. eapply tri_bind; [apply tri_quiet; solve_quiet|]. intros [].
  eapply tri_bind; [apply tri_quiet; solve_quiet|]. intros [|]; cbn [negb];
    [|eapply tri_bind; [apply tri_quiet; solve_quiet|]; intros []; apply Hrefuse; solve_quiet].
  apply (tri_bind _ _ (λ full S, fresh_id id S ∧ (full = false → has_room S))).
  { apply tri_gets. intros b Hb. split; [done|]. apply not_full_room, Hb. }
  intros full. apply (tri_bind _ _ (λ ok S, fresh_id id S ∧ (ok = true → has_room S))).
  { destruct full; [|apply tri_ret; by intros S [? ?]; split; auto]. eapply tri_conseq; [| |apply (makeRoom_spec id info)]; [by intros S [? _]|done]. }
  intros [|]; cbn [negb]; [|eapply tri_bind; [eapply tri_conseq; [| |by apply (tri_quiet (fresh_id id)), quiet_sendError]; [by intros S [? _]|done]|];
    intros []; apply Hrefuse; solve_quiet].
  apply (tri_bind _ _ (λ b S, S = skel b ∧ fresh_id id S ∧ has_room S)); [apply tri_gets; intros b [? ?]; by split_and!; auto|].
  intros b. unfold PeerDirectory_Allocate. destruct (free_slot (peers (bk_directory b))) as [i|] eqn:Hi.
  - apply (tri_bind _ _ (λ _ S, sound S ∧ sk_peers S !! i = Some (skel_peer (allocated_peer id)))).
    { apply tri_modify. intros b' (Heq & Hf & _). destruct (free_slot_Some _ _ Hi) as (p & Hp & Hu).
      assert (skel (set_directory b' {| peers := <[i := allocated_peer id]> (peers (bk_directory b)) |}) =
        sk_with_peers (skel b') (<[i := skel_peer (allocated_peer id)]> (sk_peers (skel b')))) as ->.
      { rewrite Heq at 2. unfold skel, sk_with_peers in *. cbn in *. rewrite list_fmap_insert. by injection Heq as _ -> -> ->. }
      assert (sk_peers (skel b') !! i = Some (skel_peer p)) as Hip by (rewrite Heq; unfold skel; cbn [sk_peers]; by rewrite list_lookup_fmap, Hp).
      split; [by apply (allocate_sound _ i (skel_peer p))|]. cbn [sk_with_peers sk_peers]. apply list_lookup_insert_eq. by eapply lookup_lt_Some. }
    intros []. apply (tri_bind _ _ (λ _, sound)); [|intros []; by apply tri_ret]. apply tri_update_peer; [|by intros S [? _]].
    intros S q [Hs Hq] Hp. apply (sound_rekey S i (skel_peer q)); try done; [by left|]. rewrite Hp in Hq. apply (inj Some) in Hq.
    apply (f_equal pk_role) in Hq. cbn in *. rewrite Hq. done.
  - intros s (Heq & Hf & Hroom). rewrite Heq in Hroom. apply has_room_slot in Hroom. rewrite Hi in Hroom. by destruct Hroom.
Qed.

(** ** Bridge rules *)
Lemma quiet_set_rules (f : Broker → BridgeRoutes) (g : Broker → BridgeGroups) : quiet (modify (λ b, set_rules b (f b) (g b))).
Proof. by apply quiet_modify. Qed.
Lemma quiet_stored ask c : quiet (stored ask c).
Proof. unfold stored. solve_quiet. Qed.
#[local] Hint Resolve quiet_set_rules quiet_stored : quiet.

Lemma sounds_openGroupInterface name : sounds (openGroupInterface name).
Proof.
  unfold openGroupInterface. apply (tri_bind _ _ (λ b S, sound S ∧ sk_entries S = skel_entry <$> entries (bk_registry b))); [by apply tri_gets|].
  intros b. destruct (InterfaceRegistry_FindByName (bk_registry b) _ _) eqn:Hf; [apply tri_ret; by intros S [? _]|].
  unfold InterfaceRegistry_AddVirtual. rewrite Hf. destruct (findFreeEntry (bk_registry b)) as [k|] eqn:Hk.
  - set (r := {| entries := _; next_interface_id := _ |}).
    assert (grows INTERFACE_REGISTRY_HUB_PEER (skel_entry <$> entries (bk_registry b)) (skel_entry <$> entries r)) as Hg
      by (apply grows_alter; [done..|apply grows_refl]).
    assert ((skel_entry <$> entries r) !! k = Some (skel_entry (entries r !!! k)) ∧ ie_in_use (entries r !!! k) = true) as [Hkr Hkuse].
    { destruct (free_slot_Some _ _ Hk) as (x & Hx & _). assert (entries r !! k = Some (virtual_entry (next_interface_id (bk_registry b)) BRIDGE_GROUP_AGENT_NAME name x)) as He.
      { subst r. cbn [entries]. by rewrite list_lookup_alter_eq, Hx. }
      rewrite list_lookup_fmap, list_lookup_total_alt, He. done. }
    apply (tri_bind _ _ (λ _ S, sound S ∧ has_entry S (ie_interface_id (entries r !!! k)) (ie_agent_peer_id (entries r !!! k)))).
    + apply tri_modify. intros b' [Hs He]. rewrite skel_with_registry. split; [apply (sound_grows _ INTERFACE_REGISTRY_HUB_PEER); [done|by rewrite He|by right]|].
      apply (list_elem_of_lookup_2 _ k). cbn [sk_with_entries sk_entries]. rewrite Hkr. unfold skel_entry. by rewrite Hkuse.
    + intros []. cbn [with_some]. eapply tri_conseq; [| |apply (reattachInterface_sound (entries r !!! k) (ie_agent_peer_id (entries r !!! k)))]; [done|]. by intros [] S [? _].
  - apply sounds_after; [|by intros []; apply sounds_quiet]. apply tri_modify. intros b' [Hs He]. rewrite skel_with_registry, <- He. by destruct (skel b').
Qed.

Lemma sounds_closeGroupInterface name : sounds (closeGroupInterface name).
Proof.
  unfold closeGroupInterface. apply sounds_bind; [by apply sounds_quiet|]. intros o. apply sounds_with_some. intros e.
  eapply tri_bind; [apply detachInterface_spec|]. intros []. apply tri_modify. intros b [Hs Ha]. rewrite skel_with_registry. set (id := ie_interface_id e) in *.
  assert (skel_entry <$> entries (InterfaceRegistry_RemoveVirtual (bk_registry b) id) =
    (λ x, if ek_use x && (ek_id x =? id) && (ek_agent x =? INTERFACE_REGISTRY_HUB_PEER) then entry_free else x) <$> sk_entries (skel b)) as ->.
  { unfold skel. cbn. rewrite <- !list_fmap_compose. apply list_fmap_ext. intros i x _. cbn. by destruct (_ && _). }
  apply sound_entries; [done|by rewrite length_fmap|..|by apply (agents_named 0 _ Hs)].
  - intros x (x0 & -> & Hx0)%list_elem_of_fmap_1. destruct (_ && _); [done|]. destruct x0 as [u i a]. cbn. intros ->. by apply (sd_entries _ Hs i a).
  - intros p c Hp Hc Hu Hd. destruct (sd_bindings _ Hs p c Hp Hc Hu) as (_ & _ & [a Hag]%(λ f, f Hd)). exists a. apply list_elem_of_fmap.
    eexists. split; [|exact Hag]. cbn. destruct (Z.eqb_spec c.2 id) as [Hid|]; [|done]. by apply (Ha p c) in Hid.
  - intros x a Hx Hne _. apply list_elem_of_fmap. eexists. split; [|exact Hx]. cbn. unfold INTERFACE_REGISTRY_HUB_PEER.
    by rewrite (proj2 (Z.eqb_neq a 0) Hne), andb_false_r.
Qed.
#[local] Hint Resolve sounds_openGroupInterface sounds_closeGroupInterface : sound.

Lemma sounds_applyBridgeRoute r : sounds (applyBridgeRoute r).
Proof. unfold applyBridgeRoute. solve_sound. Qed.
Lemma sounds_removeBridgeRoute a d : sounds (removeBridgeRoute a d).
Proof. unfold removeBridgeRoute. solve_sound. Qed.
Lemma sounds_applyGroup n c fs : sounds (applyGroup n c fs).
Proof. unfold applyGroup. solve_sound. Qed.
Lemma sounds_removeGroup n : sounds (removeGroup n).
Proof. unfold removeGroup. solve_sound. Qed.
Lemma sounds_joinGroup n m : sounds (joinGroup n m).
Proof. unfold joinGroup. solve_sound. Qed.
Lemma sounds_leaveGroup n m : sounds (leaveGroup n m).
Proof. unfold leaveGroup. solve_sound. Qed.

Lemma sounds_load_routes n k f : sounds (load_routes n k f).
Proof. revert k. induction n as [|n IH]; intros k; cbn [load_routes]; solve_sound. Qed.
Lemma sounds_load_groups n k f : sounds (load_groups n k f).
Proof. revert k. induction n as [|n IH]; intros k; cbn [load_groups]; solve_sound. Qed.

Lemma reset_sound known : sound (skel (Broker_reset known)).
Proof.
  assert (∀ p, p ∈ sk_peers (skel (Broker_reset known)) → p = peer_free) as Hp.
  { unfold skel, Broker_reset, PeerDirectory_Reset. cbn [bk_directory sk_peers peers]. rewrite fmap_replicate. by intros p [-> _]%elem_of_replicate. }
  assert (∀ id r, ¬ live_as (skel (Broker_reset known)) id r) as Hn.
  { intros id r (v & Hv). unfold keys in Hv. apply list_elem_of_fmap_1 in Hv as (p & Hk & ->%Hp). done. }
  assert (∀ t, t ∈ sk_txns (skel (Broker_reset known)) → t = txn_free) as Htx.
  { unfold skel, Broker_reset, TransactionTable_Reset. cbn [bk_transactions sk_txns txns]. rewrite fmap_replicate. by intros t [-> _]%elem_of_replicate. }
  assert (∀ q, q ∈ sk_pending (skel (Broker_reset known)) → qk_use q = false) as Hqx.
  { unfold skel, Broker_reset. cbn [bk_pending_ifconfig sk_pending]. rewrite fmap_replicate. by intros q [-> _]%elem_of_replicate. }
  split; try done.
  - intros i j id r r' v v' Hi _. exfalso. by eapply Hn, key_live.
  - intros id r Hl. by destruct (Hn id r).
  - intros p c ->%Hp Hc Hu. by rewrite peer_free_bindings in Hu.
  - intros p o ->%Hp Ho Hno. by apply peer_free_owners in Ho.
  - intros p i j o ->%Hp Hi%list_elem_of_lookup_2%peer_free_owners. done.
  - intros id a Hen. unfold has_entry, skel, Broker_reset, InterfaceRegistry_Reset in Hen. cbn [bk_registry sk_entries entries] in Hen.
    rewrite fmap_replicate in Hen. by apply elem_of_replicate in Hen as [? _].
  - intros t ->%Htx. done.
  - intros i j t t' ->%list_elem_of_lookup_2%Htx. done.
  - intros q Hq%Hqx. by rewrite Hq.
  - intros id v Hv. exfalso. apply (Hn id kHUB_PEER_ROLE_ADMIN). by exists v.
  - intros t ->%Htx. done.
  - intros q Hq%Hqx. by rewrite Hq.
Qed.

Lemma init_sound known : sound (skel (hs_broker (Broker_Init known))).
Proof.
  unfold Broker_Init. assert (sounds (loadBridgeRoutes;; loadBridgeGroups)) as Hl; [|apply Hl, reset_sound].
  unfold loadBridgeRoutes, loadBridgeGroups. apply sounds_bind; [apply sounds_with_some; intros st; apply sounds_load_routes|]. intros []. apply sounds_with_some. intros st. apply sounds_load_groups.
Qed.

(** ** The admin plane *)
#[local] Hint Resolve sounds_applyBridgeRoute sounds_removeBridgeRoute sounds_applyGroup sounds_removeGroup sounds_joinGroup sounds_leaveGroup : sound.

Lemma sounds_admin_request {M} (decode : list Z → bool * M) i pl body : (∀ request, sounds (body request)) → sounds (admin_request decode i pl body).
Proof.
  intros Hb. unfold admin_request. apply sounds_bind; [by apply sounds_quiet|]. intros p. destruct (negb _); [solve_sound|].
  destruct (decode pl) as [[] request]; cbn [negb]; [apply Hb|solve_sound].
Qed.

Lemma sounds_admin_handlers i header pl :
  Forall (λ h : nat → MessageHeader → list Z → Hub (), sounds (h i header pl))
    [handleAdminStatus; handleAdminPeers; handleAdminKick; handleAdminPins; handleAdminForget; handleAdminKickPeer; handleAdminAgents; handleAdminClients;
     handleAdminInterfaces; handleAdminTxns; handleAdminPinAdd; handleAdminAclSet; handleAdminAclRevoke; handleAdminAclList; handleAdminRejected;
     handleAdminBridgeSet; handleAdminBridgeDelete; handleAdminBridgeList; handleAdminGroupSet; handleAdminGroupDelete; handleAdminGroupJoin;
     handleAdminGroupLeave; handleAdminGroupList].
Proof.
  repeat (apply Forall_cons_2; [cbv beta|]); [unfold handleAdminStatus; solve_sound|..|by apply Forall_nil].
  all: unfold handleAdminPeers, handleAdminKick, handleAdminPins, handleAdminForget, handleAdminKickPeer, handleAdminAgents, handleAdminClients,
    handleAdminInterfaces, handleAdminTxns, handleAdminPinAdd, handleAdminAclSet, handleAdminAclRevoke, handleAdminAclList, handleAdminRejected,
    handleAdminBridgeSet, handleAdminBridgeDelete, handleAdminBridgeList, handleAdminGroupSet, handleAdminGroupDelete, handleAdminGroupJoin,
    handleAdminGroupLeave, handleAdminGroupList, sendGroupReply.
  all: apply sounds_admin_request; intros ?; solve_sound.
Qed.

(** ** Dispatch *)
Lemma handler_sound type h i id header pl :
  control_handlers type = Some h → tri (at_peer i id) (h i header pl) (λ _, sound).
Proof.
  assert (∀ m : Hub (), sounds m → tri (at_peer i id) m (λ _, sound)) as Hany by (intros m Hm; by apply sounds_from; [apply at_peer_sound|]).
  pose proof (sounds_admin_handlers i header pl) as Hadmin. rewrite !Forall_cons in Hadmin. destruct_and?.
  unfold control_handlers. repeat (destruct (_ =? _); [intros [= <-]|]); [..|done].
  all: lazymatch goal with
    | |- tri _ (handleHello _ _ _) _ => apply handleHello_sound
    | |- tri _ (handleRegister _ _ _) _ => apply handleRegister_sound
    | |- tri _ (handleOpen _ _ _) _ => apply handleOpen_sound
    | |- tri _ (handleSubscribe _ _ _) _ => apply handleSubscribe_sound
    | |- tri _ (handleConfigure _ _ _) _ => apply handleConfigure_sound
    | |- tri _ (handleTxnBegin _ _ _) _ => apply handleTxnBegin_sound
    | _ => apply Hany; first [assumption | solve_sound]
    end.
Qed.

Lemma sounds_onPeerControl id data now : sounds (onPeerControl id data now).
Proof.
  unfold onPeerControl. eapply tri_bind; [apply tri_find_peer|]. intros o. eapply tri_bind; [apply tri_quiet; solve_quiet|]. intros [].
  destruct o as [i|]; cbn [with_some]; [|by apply tri_ret; intros S [? _]].
  assert (∀ S, sound S ∧ (∃ r v, keys S !! i = Some (true, id, r, v)) → sound S) as HF by (by intros S [? _]).
  destruct (MessageHeader_Decode data) as [header|]; [|by apply sounds_from; [|solve_sound]].
  destruct (Nat.ltb _ _); [by apply sounds_from; [|solve_sound]|]. destruct (control_handlers _) as [h|] eqn:Hh; cbn [with_some]; [|by apply sounds_from; [|solve_sound]].
  apply sounds_after; [by eapply handler_sound|]. intros []. solve_sound.
Qed.

Lemma sounds_onPeerFrame id data : sounds (onPeerFrame id data).
Proof.
  unfold onPeerFrame. eapply tri_bind; [apply tri_find_peer|]. intros [i|]; [|by apply tri_ret; intros S [? _]].
  destruct (decide (i < 512)%nat) as [Hi|Hi].
  - eapply sounds_from; [by intros S [? _]|]. solve_sound. all: by apply sounds_route_stream.
  - intros s [Hs (r & v & Hk)]. by apply key_bound in Hk.
Qed.
Lemma sounds_onPeerWritable id : sounds (onPeerWritable id).
Proof. unfold onPeerWritable. solve_sound. Qed.
End control.
