(* ===== verification/BrokerInvariant.v ===== *)
(** * The hub as a step relation, and its invariant

    A hub starts with [Broker_Init] and then answers events: the transport's
    five callbacks and the two entry points of the main loop.  Between events
    nothing refers to a peer, an interface or a client that is gone.

    An event runs to its end before the next one: the ports answer and return.
    A transport that finds, while the hub sends to a peer, that the peer's
    connection is lost answers false here and reports the disconnection as an
    event of its own.  The hub's TCP, TLS and QUIC transports may also report it
    at once, from inside the send that fails (tcp_server_transport.c:221,
    tls_server_transport.c:219, quic_server_transport.c:776); runs with such a
    nested callback are not among the runs of [hub_reachable]. *)

From Stdlib Require Import String.
From S2P Require Import Prelude Slots CString Wire HelloMessage RegisterMessage OpenMessage TxnMessage IfconfigMessage FrameMessage ControlPlane EchoTokens EgressQueue ClientSession InterfaceRegistry TransactionTable PeerDirectory AdminMessage BrokerState BrokerPeers BrokerControl BrokerHandlers BrokerFrames.
From S2P Require Import BrokerRules BrokerAdmin BrokerLogic BrokerQuiet BrokerRelease BrokerSound BrokerSoundControl.

(** ** Events *)
Inductive hub_event :=
| PeerConnected (peer_id : Z) (info : HubPeerConnectInfo) (now_us : Z)
| PeerDisconnected (peer_id now_us : Z)
| PeerControl (peer_id : Z) (data : list Z) (now_us : Z)
| PeerFrame (peer_id : Z) (data : list Z)
| PeerWritable (peer_id : Z)
| Tick (now_us : Z)
| NextTimeout (cap_ms : Z).

(** ** What the tables promise each other *)

(** The catalogue lists the interface, served by that agent. *)
Definition serves (b : Broker) (interface_id agent_peer_id : Z) : Prop :=
  ∃ e, e ∈ live (entries (bk_registry b)) ∧ ie_interface_id e = interface_id ∧ ie_agent_peer_id e = agent_peer_id.

(** A connected peer of that id and role. *)
Definition peer_is (b : Broker) (id role : Z) : Prop :=
  ∃ p, p ∈ live (peers (bk_directory b)) ∧ hp_peer_id p = id ∧ hp_role p = role.
Definition connected_peer (b : Broker) (id : Z) : Prop := ∃ role, peer_is b id role.

Record references_live (b : Broker) : Prop := {
  (** Ids tell connected peers apart. *)
  rl_unique : unique_by hp_peer_id (peers (bk_directory b));
  (** Only clients hold channels; an awake one leads to an interface of the catalogue. *)
  rl_channels : ∀ p c, p ∈ peers (bk_directory b) → c ∈ bindings (hp_session p) → cb_in_use c = true →
    hp_in_use p = true ∧ hp_role p = kHUB_PEER_ROLE_CLIENT ∧
    (cb_dormant c = false → is_Some (InterfaceRegistry_FindById (bk_registry b) (cb_interface_id c)));
  (** An interface belongs to the hub or to a connected agent. *)
  rl_interfaces : ∀ e, e ∈ live (entries (bk_registry b)) →
    InterfaceEntry_IsVirtual e = true ∨ peer_is b (ie_agent_peer_id e) kHUB_PEER_ROLE_AGENT;
  (** A transaction runs on an interface of a connected agent, alone, for a connected client or for one that left. *)
  rl_transactions : ∀ t, t ∈ txns (bk_transactions b) → isInUse t = true →
    peer_is b (rt_agent_peer_id t) kHUB_PEER_ROLE_AGENT ∧ serves b (rt_interface_id t) (rt_agent_peer_id t) ∧
    (rt_client_peer_id t = TRANSACTION_NO_CLIENT ∨ peer_is b (rt_client_peer_id t) kHUB_PEER_ROLE_CLIENT);
  rl_one_transaction : ∀ i j t t', txns (bk_transactions b) !! i = Some t → txns (bk_transactions b) !! j = Some t' →
    isInUse t = true → isInUse t' = true → rt_agent_peer_id t = rt_agent_peer_id t' → i = j;
  (** A configuration waits for an interface of a connected agent on behalf of a connected peer. *)
  rl_pending : ∀ q, q ∈ live (bk_pending_ifconfig b) →
    peer_is b (pi_agent_peer_id q) kHUB_PEER_ROLE_AGENT ∧ serves b (pi_interface_id q) (pi_agent_peer_id q) ∧ connected_peer b (pi_requester_peer_id q);
  (** An echo token stands for one owner: the bridges or a connected client. *)
  rl_tokens : ∀ p o, p ∈ peers (bk_directory b) → o ∈ owner_peer_ids (hp_echo_tokens p) → o ≠ NO_OWNER →
    hp_role p = kHUB_PEER_ROLE_AGENT ∧ (o = ECHO_TOKENS_BRIDGE_OWNER ∨ peer_is b o kHUB_PEER_ROLE_CLIENT);
}.

(** *** From skeletons *)
Lemma live_as_peer b id role : live_as (skel b) id role ↔ peer_is b id role.
Proof.
  unfold live_as, keys, skel, peer_is. cbn [sk_peers]. split.
  - intros (v & (q & Hq & (p & -> & Hp)%list_elem_of_fmap_1)%list_elem_of_fmap_1). injection Hq as Hu Hid Hr _. exists p. split_and!; [|done..].
    apply list_elem_of_lookup_1 in Hp as (i & Hi). apply elem_of_live. by exists i.
  - intros (p & (i & Hi & Hu)%elem_of_live & <- & <-). exists (standing p). apply (list_elem_of_lookup_2 _ i). rewrite !list_lookup_fmap, Hi. cbn.
    unfold pk_key. cbn. cbn in Hu. by rewrite Hu.
Qed.

Lemma has_entry_serves b id agent : has_entry (skel b) id agent → serves b id agent.
Proof.
  unfold has_entry, skel. cbn [sk_entries]. intros (e & He & (i & Hi)%list_elem_of_lookup_1)%list_elem_of_fmap_1. injection He as Hu -> ->.
  exists e. split; [|done]. apply elem_of_live. by exists i.
Qed.

Lemma has_entry_found b id agent : has_entry (skel b) id agent → is_Some (InterfaceRegistry_FindById (bk_registry b) id).
Proof.
  unfold has_entry, skel. cbn [sk_entries]. intros (e & He & (i & Hi)%list_elem_of_lookup_1)%list_elem_of_fmap_1. injection He as Hu Hid _.
  unfold InterfaceRegistry_FindById, find_entry. destruct (scan (of_id id) (entries (bk_registry b))) as [k|] eqn:Hk.
  - apply scan_hit in Hk as (x & Hx & _). cbn. by rewrite Hx.
  - rewrite scan_None in Hk. specialize (Hk i e Hi). unfold of_id in Hk. by rewrite <- Hu, <- Hid, Z.eqb_refl in Hk.
Qed.

Lemma sound_references b : sound (skel b) → references_live b.
Proof.
  intros Hs.
  assert (∀ p, p ∈ peers (bk_directory b) → skel_peer p ∈ sk_peers (skel b)) as Hp by (intros p ?; apply list_elem_of_fmap; by exists p).
  split.
  - intros i j x y Hi Hj Hui Huj Heq. assert (∀ k z, peers (bk_directory b) !! k = Some z → slot_in_use z = true →
      keys (skel b) !! k = Some (true, hp_peer_id z, hp_role z, standing z)) as Hkey.
    { intros k z Hz Hu. unfold keys, skel. cbn [sk_peers]. rewrite !list_lookup_fmap, Hz. cbn. unfold pk_key. cbn. cbn in Hu. by rewrite Hu. }
    apply (sd_unique _ Hs i j (hp_peer_id x) (hp_role x) (hp_role y) (standing x) (standing y)); [by apply Hkey|]. rewrite Heq. by apply Hkey.
  - intros p c Hin Hc Hu. destruct (sd_bindings _ Hs (skel_peer p) (binding_sk c)) as (? & ? & He); [by apply Hp|apply list_elem_of_fmap; by exists c|done|].
    split_and!; [done..|]. intros Hd. destruct (He Hd) as [agent Ha]. by eapply has_entry_found.
  - intros e (i & Hi & Hu)%elem_of_live. unfold InterfaceEntry_IsVirtual. destruct (sd_entries _ Hs (ie_interface_id e) (ie_agent_peer_id e)) as [->|Hl].
    + apply (list_elem_of_lookup_2 _ i). unfold skel. cbn [sk_entries]. rewrite list_lookup_fmap, Hi. cbn. unfold skel_entry. cbn in Hu. by rewrite Hu.
    + by left.
    + right. by apply live_as_peer.
  - intros t Ht Hu. destruct (sd_txns _ Hs (skel_txn t)) as [Ha Hc]; [apply list_elem_of_fmap; by exists t|done|].
    split_and!; [by apply live_as_peer|apply has_entry_serves, (sd_txn_entries _ Hs (skel_txn t)); [apply list_elem_of_fmap; by exists t|done]|]. destruct Hc as [?|?]; [by left|right; by apply live_as_peer].
  - intros i j t t' Hi Hj Hu Hu' Heq. apply (sd_txn_agents _ Hs i j (skel_txn t) (skel_txn t')); try done; unfold skel; cbn [sk_txns]; by rewrite list_lookup_fmap, ?Hi, ?Hj.
  - intros q (i & Hi & Hu)%elem_of_live. assert (skel_pending q ∈ sk_pending (skel b)) as Hq.
    { apply (list_elem_of_lookup_2 _ i). unfold skel. cbn [sk_pending]. by rewrite list_lookup_fmap, Hi. }
    destruct (sd_pending _ Hs _ Hq Hu) as [Ha [r Hr]].
    split_and!; [by apply live_as_peer|apply has_entry_serves, (sd_pending_entries _ Hs _ Hq Hu), (agents_named 0 _ Hs); done|]. exists r. by apply live_as_peer.
  - intros p o Hin Ho Hn. destruct (sd_owners _ Hs (skel_peer p) o) as (_ & ? & Hown); [by apply Hp|done..|]. split; [done|].
    destruct Hown as [?|?]; [by left|right; by apply live_as_peer].
Qed.

(** ** The hub *)
Section hub.
Context `{ports : HubPorts}.

(** The answer of [onPeerConnected] is [None] when it writes through a null pointer. *)
Definition run_event (e : hub_event) : Hub (option ()) :=
  match e with
  | PeerConnected peer_id info now_us => onPeerConnected peer_id info now_us
  | PeerDisconnected peer_id now_us => onPeerDisconnected peer_id now_us;; mret (Some ())
  | PeerControl peer_id data now_us => onPeerControl peer_id data now_us;; mret (Some ())
  | PeerFrame peer_id data => onPeerFrame peer_id data;; mret (Some ())
  | PeerWritable peer_id => onPeerWritable peer_id;; mret (Some ())
  | Tick now_us => Broker_Tick now_us;; mret (Some ())
  | NextTimeout cap_ms => Broker_NextTimeoutMs cap_ms;; mret (Some ())
  end.

Definition arrives (s : HubState) : HubState := {| hs_broker := hs_broker s; hs_calls := EventArrived :: hs_calls s |}.

(** The transport gives a new connection an id no connected peer has; 0 and the last id are reserved. *)
Definition event_ok (e : hub_event) (b : Broker) : Prop :=
  match e with
  | PeerConnected peer_id _ _ => ¬ connected_peer b peer_id ∧ 0 < peer_id < ECHO_TOKENS_BRIDGE_OWNER
  | _ => True
  end.

Inductive hub_step : HubState → HubState → Prop :=
| HubStep s e : event_ok e (hs_broker s) → hub_step s (run_event e (arrives s)).2.

Inductive hub_reachable (require_known_peers : bool) : HubState → Prop :=
| ReachInit : hub_reachable require_known_peers (Broker_Init require_known_peers)
| ReachStep s s' : hub_reachable require_known_peers s → hub_step s s' → hub_reachable require_known_peers s'.

Lemma event_sound e s :
  sound (skel (hs_broker s)) → event_ok e (hs_broker s) →
  sound (skel (hs_broker (run_event e s).2)) ∧ (run_event e s).1 = Some ().
Proof.
  intros Hs Hok.
  assert (∀ {A} (m : Hub A), sounds m → sound (skel (hs_broker ((m;; mret (Some ())) s).2)) ∧ ((m;; mret (Some ())) s).1 = Some ()) as Hany.
  { intros A m Hm. pose proof (Hm s Hs) as Hm'. unfold mbind, Hub_bind, mret, Hub_ret. destruct (m s) as [a s']. done. }
  destruct e as [id info now|id now|id data now|id data|id|now|cap]; cbn [run_event].
  - apply (onPeerConnected_spec id info now). destruct Hok as [Hn Hid]. split; [done|]. split; [|done]. intros r Hl. apply Hn. exists r. by apply live_as_peer.
  - apply Hany, sounds_onPeerDisconnected.
  - apply Hany, sounds_onPeerControl.
  - apply Hany, sounds_onPeerFrame.
  - apply Hany, sounds_onPeerWritable.
  - apply Hany, sounds_Tick.
  - apply Hany, sounds_quiet, quiet_NextTimeoutMs.
Qed.

Lemma reachable_sound known s : hub_reachable known s → sound (skel (hs_broker s)).
Proof.
  induction 1 as [|s s' _ IH Hst]; [apply init_sound|]. destruct Hst as [s e Hok]. exact (proj1 (event_sound e (arrives s) IH Hok)).
Qed.

(** C1. No dangling references.  In every state the hub can reach, by any
    sequence of connections, disconnections, messages, frames and ticks, each run
    to its end before the next, and whatever its ports answer, each reference
    between the tables leads to something that is there: awake channels to
    catalogue entries, entries to connected agents, transactions and pending
    configurations to catalogue entries of their agent and to connected peers of
    the right role, echo tokens to connected clients; ids are unique and an agent
    runs one transaction.  (A disconnection that a transport reports from inside
    a failing send is outside this model.) *)
Theorem hub_references_live (require_known_peers : bool) (s : HubState) :
  hub_reachable require_known_peers s → references_live (hs_broker s).
Proof. intros Hr. by eapply sound_references, reachable_sound. Qed.

(** A connection always finds its slot.  [onPeerConnected] uses the slot that
    [PeerDirectory_Allocate] returns without a check; in every reachable state
    and for every new connection, refused or displacing another peer included,
    it never gets a null pointer. *)
Theorem connected_never_null (require_known_peers : bool) (s : HubState) (peer_id : Z) (info : HubPeerConnectInfo) (now_us : Z) :
  hub_reachable require_known_peers s → ¬ connected_peer (hs_broker s) peer_id → 0 < peer_id < ECHO_TOKENS_BRIDGE_OWNER →
  (onPeerConnected peer_id info now_us (arrives s)).1 = Some ().
Proof. intros Hr Hn Hid. exact (proj2 (event_sound (PeerConnected peer_id info now_us) (arrives s) (reachable_sound _ _ Hr) (conj Hn Hid))). Qed.

(** *** The admin plane *)
Lemma admin_request_denied {M} (decode : list Z → bool * M) i pl body s :
  hp_role (peers (bk_directory (hs_broker s)) !!! i) ≠ kHUB_PEER_ROLE_ADMIN → admin_request decode i pl body s = ((), s).
Proof. intros Hr%Z.eqb_neq. unfold admin_request, peer_at, gets, mbind, Hub_bind. by rewrite Hr. Qed.

(** The admin requests and replies. *)
Definition admin_type (type : Z) : Prop := kMESSAGE_TYPE_ADMIN_STATUS ≤ type ≤ kMESSAGE_TYPE_ADMIN_TXNS_REPLY.

Lemma admin_handler_denied type h i header pl s :
  admin_type type → control_handlers type = Some h → hp_role (peers (bk_directory (hs_broker s)) !!! i) ≠ kHUB_PEER_ROLE_ADMIN →
  h i header pl s = ((), s).
Proof.
  intros Hty Hh Hr. assert (handleAdminStatus i header pl s = ((), s)) as Hst.
  { unfold handleAdminStatus, peer_at, gets, mbind, Hub_bind. apply Z.eqb_neq in Hr. by rewrite Hr. }
  unfold control_handlers in Hh.
  repeat match type of Hh with (if ?t =? ?c then _ else _) = _ => destruct (Z.eqb_spec t c) as [->|]; [apply (inj Some) in Hh; subst h|] end; try done.
  all: try (exfalso; clear -Hty; revert Hty; vm_compute; intros [? ?]; congruence).
  all: by apply admin_request_denied.
Qed.

Lemma admins_local s i known :
  hub_reachable known s → let p := peers (bk_directory (hs_broker s)) !!! i in
  PeerDirectory_Find (bk_directory (hs_broker s)) (hp_peer_id p) = Some i → hp_role p = kHUB_PEER_ROLE_ADMIN → hp_local p = true.
Proof.
  intros Hr p (q & Hq & [Hu _]%is_peer_true)%scan_hit Hrole. assert (p = q) as -> by (subst p; by apply list_lookup_total_correct).
  refine (sd_admins _ (reachable_sound _ _ Hr) (hp_peer_id q) (standing q) _). apply (list_elem_of_lookup_2 _ i). unfold keys, skel. cbn [sk_peers].
  rewrite !list_lookup_fmap, Hq. cbn. unfold pk_key. cbn. by rewrite Hu, Hrole.
Qed.

Definition at_time (now_us : Z) (s : HubState) : HubState := {| hs_broker := set_now (hs_broker s) now_us; hs_calls := hs_calls s |}.

(** C4. Administration is local.  In every reachable state an admin request or
    reply from a peer that did not connect over a local transport, whatever it
    said in its HELLO, changes nothing but the hub's clock and calls no port:
    it is not answered.  (A peer whose link had failed already is dropped, as it
    is on any message.) *)
Theorem admin_plane_local_only (require_known_peers : bool) (s : HubState) (peer_id now_us : Z) (data : list Z) (header : MessageHeader) (i : nat) :
  hub_reachable require_known_peers s →
  PeerDirectory_Find (bk_directory (hs_broker s)) peer_id = Some i →
  let p := peers (bk_directory (hs_broker s)) !!! i in
  hp_local p = false →
  MessageHeader_Decode data = Some header → admin_type (header_type header) →
  (onPeerControl peer_id data now_us s).2 = at_time now_us s ∨
  hp_send_failed p = true ∧ (onPeerControl peer_id data now_us s).2 = (disconnectPeer peer_id (at_time now_us s)).2.
Proof.
  intros Hr Hf p Hl Hd Hty. assert (hp_peer_id p = peer_id) as Hid.
  { destruct (scan_hit _ _ _ Hf) as (q & Hq & [_ Hid]%is_peer_true). subst p. by rewrite (list_lookup_total_correct _ _ _ Hq). }
  assert (hp_role (peers (bk_directory (hs_broker (at_time now_us s))) !!! i) ≠ kHUB_PEER_ROLE_ADMIN) as Hrole.
  { intros Hrole. pose proof (admins_local s i _ Hr) as Hadm. cbn in Hadm. fold p in Hadm. rewrite Hid in Hadm. specialize (Hadm Hf Hrole). congruence. }
  unfold onPeerControl, find_peer, gets, modify, peer_at, mbind, Hub_bind. fold (at_time now_us s). rewrite Hf. cbn [with_some]. rewrite Hd.
  destruct (Nat.ltb _ _); [by left|]. destruct (control_handlers _) as [h|] eqn:Hh; [|by left]. cbn [with_some].
  rewrite (admin_handler_denied _ _ _ _ _ _ Hty Hh Hrole). cbn [hs_broker at_time set_now bk_directory]. rewrite Hf. cbn [with_some hs_broker set_now bk_directory].
  unfold gets. cbn [hs_broker at_time set_now bk_directory]. fold p. destruct (hp_send_failed p); [by right|by left].
Qed.

(** *** Disconnection *)
(** Nothing in the tables names the peer. *)
Record peer_forgotten (b : Broker) (id : Z) : Prop := {
  pf_gone : ¬ connected_peer b id;
  pf_interfaces : ∀ e, e ∈ live (entries (bk_registry b)) → ie_agent_peer_id e ≠ id;
  pf_transactions : ∀ t, t ∈ txns (bk_transactions b) → isInUse t = true → rt_agent_peer_id t ≠ id ∧ rt_client_peer_id t ≠ id;
  pf_pending : ∀ q, q ∈ live (bk_pending_ifconfig b) → pi_agent_peer_id q ≠ id ∧ pi_requester_peer_id q ≠ id;
  pf_tokens : ∀ p, p ∈ peers (bk_directory b) → id ∉ owner_peer_ids (hp_echo_tokens p);
}.

Lemma unreferenced_forgotten b id : unreferenced (skel b) id → (∀ r, ¬ live_as (skel b) id r) → peer_forgotten b id.
Proof.
  intros [He Ha Hc Hq Ho] Hn. split.
  - intros [r Hr]. apply (Hn r). by apply live_as_peer.
  - intros e (i & Hi & Hu)%elem_of_live. apply (He (skel_entry e)); [|done]. apply list_elem_of_fmap. exists e. split; [done|]. by eapply list_elem_of_lookup_2.
  - intros t Ht Hu. assert (skel_txn t ∈ sk_txns (skel b)) by (apply list_elem_of_fmap; by exists t). split; [by apply (Ha (skel_txn t))|by apply (Hc (skel_txn t))].
  - intros q (i & Hi & Hu)%elem_of_live. apply (Hq (skel_pending q)); [|done]. apply list_elem_of_fmap. exists q. split; [done|]. by eapply list_elem_of_lookup_2.
  - intros p Hp. apply (Ho (skel_peer p)). apply list_elem_of_fmap. by exists p.
Qed.

Lemma gone_others K id S S' : keys S = K → gone K id S' → ∀ id' r, id' ≠ id → live_as S id' r ↔ live_as S' id' r.
Proof.
  intros <- (_ & _ & Hkeep & Honly) id' r Hne. split; intros (v & (j & Hj)%list_elem_of_lookup_1); exists v; apply (list_elem_of_lookup_2 _ j).
  - by apply Hkeep.
  - by apply Honly.
Qed.

Lemma disconnect_found s id i :
  PeerDirectory_Find (bk_directory (hs_broker s)) id = Some i →
  (disconnectPeer id s).2 = {| hs_broker := hs_broker (releasePeer i s).2; hs_calls := ClosePeer id :: hs_calls (releasePeer i s).2 |}.
Proof.
  intros Hf. unfold disconnectPeer, find_peer, gets, mbind, Hub_bind. rewrite Hf. cbn [with_some].
  unfold close_peer, perform, mbind, Hub_bind. by destruct (releasePeer i s) as [[] s'].
Qed.

(** C2. Disconnection is complete.  Disconnecting a connected peer frees its slot
    and every reference to it: the interfaces it served, its transactions on
    either side, the configurations it waits for or is waited for, its echo
    tokens.  Every other peer keeps its slot and its role, the references stay
    sound, and the last thing the hub does is close the connection.  (The ports
    return without calling back: what a transport adds that loses another peer
    while the hub notifies it, and reports that at once, is outside this model.) *)
Theorem disconnect_forgets_peer (require_known_peers : bool) (s : HubState) (id : Z) :
  hub_reachable require_known_peers s → connected_peer (hs_broker s) id →
  let s' := (disconnectPeer id s).2 in
  peer_forgotten (hs_broker s') id ∧
  (∀ id' role, id' ≠ id → peer_is (hs_broker s) id' role ↔ peer_is (hs_broker s') id' role) ∧
  references_live (hs_broker s') ∧
  head (hs_calls s') = Some (ClosePeer id).
Proof.
  intros Hr Hc s'. pose proof (reachable_sound _ _ Hr) as Hs. destruct Hc as [role Hrole]. apply live_as_peer in Hrole.
  destruct (PeerDirectory_Find (bk_directory (hs_broker s)) id) as [i|] eqn:Hf; [|by destruct (find_peer_none _ _ Hf role)].
  destruct (find_peer_skel _ _ _ Hf) as (r & v & Hi). subst s'. rewrite (disconnect_found _ _ _ Hf). cbn [hs_broker hs_calls head].
  destruct (releasePeer_gone (keys (skel (hs_broker s))) i id r v Hi s) as [Hg Hu]; [done|].
  pose proof (gone_others _ id _ _ eq_refl Hg) as Hothers. destruct Hg as (Hs' & Hn & _). split_and!; [by apply unreferenced_forgotten| |by apply sound_references|done].
  intros id' role' Hne. rewrite <- !live_as_peer. by apply Hothers.
Qed.
End hub.

(** ** Witnesses *)

(** A transport that accepts everything, no stores and no access control. *)
Definition accepting_ports : HubPorts := {|
  pt_send_control := λ _ _ _, true; pt_send_frame := λ _ _ _ _, true; pt_frame_fits := λ _ _ _ _, true; pt_channel_reliable := λ _ _ _, true; pt_receive_overflows := λ _, 0;
  pt_identity_store := None; pt_authorization := None; pt_bridge_store := None |}.

Definition local_info : HubPeerConnectInfo :=
  {| ci_fingerprint_hex := None; ci_origin := None; ci_origin_host := None; ci_transport_kind := 1; ci_local := true |}.

(** A first peer has connected, with id 7. *)
Definition first_peer (info : HubPeerConnectInfo) : HubState :=
  (run_event (ports := accepting_ports) (PeerConnected 7 info 1000) (arrives (Broker_Init (ports := accepting_ports) false))).2.

Lemma first_peer_reachable info : hub_reachable (ports := accepting_ports) false (first_peer info).
Proof.
  eapply ReachStep; [apply ReachInit|]. apply (HubStep (ports := accepting_ports) _ (PeerConnected 7 info 1000)). split; [|done].
  intros (r & p & Hp & _). assert (live (peers (bk_directory (hs_broker (Broker_Init (ports := accepting_ports) false)))) = []) as Hnil by (vm_compute; reflexivity).
  rewrite Hnil in Hp. by apply not_elem_of_nil in Hp.
Defined.
Notation one_peer := (first_peer local_info).

(** *** A run with references of every kind *)
Definition sent (r : nat * list Z) : list Z := take r.1 r.2.
Definition named_buffer (size : nat) (s : string) : list Z := take size (lit s ++ replicate size 0).

Definition hello (role : Z) : list Z :=
  sent (HelloMessage_Encode {| hello_version := 1; hello_role := role; hello_capabilities := 255; hello_name := replicate 64 0 |} encoded).
Definition register_can0 : list Z :=
  sent (RegisterMessage_Encode {| reg_agent_name := named_buffer 128 "ecu"; reg_interface_count := 1;
    reg_interface_names := named_buffer 16 "can0" :: replicate 15 (replicate 16 0); reg_fd_reported := false; reg_fd_interfaces := 0 |} encoded).
Definition open (interface_id flags : Z) : list Z := sent (OpenMessage_Encode {| open_interface_id := interface_id; open_flags := flags |} encoded).
Definition begin_txn : list Z := sent (TxnBeginMessage_Encode txn_begin0 encoded).
Definition configure_can0 : list Z :=
  sent (ConfigureMessage_Encode {| cf_agent_name := named_buffer 128 "ecu"; cf_interface_name := named_buffer 16 "can0"; cf_op := 0; cf_settings := settings0 |} encoded).
Definition frame_on (channel : Z) : list Z :=
  sent (FrameMessage_Encode {| frame_can_id := 291; frame_timestamp_us := 0; frame_channel := channel; frame_payload_length := 2; frame_flags := 0;
    frame_route_flags := 0; frame_payload := [171; 205] ++ replicate 62 0 |} encoded).

Definition deliver (ports : HubPorts) (s : HubState) (e : hub_event) : HubState := (run_event e (arrives s)).2.
Definition run_hub (ports : HubPorts) (es : list hub_event) : HubState := foldl (deliver ports) (Broker_Init false) es.

(** [event_ok], decided. *)
Definition event_okb (e : hub_event) (b : Broker) : bool :=
  match e with
  | PeerConnected peer_id _ _ =>
      negb (existsb (λ p, hp_peer_id p =? peer_id) (live (peers (bk_directory b)))) && (0 <? peer_id) && (peer_id <? ECHO_TOKENS_BRIDGE_OWNER)
  | _ => true
  end.
Fixpoint run_okb (ports : HubPorts) (s : HubState) (es : list hub_event) : bool :=
  match es with
  | [] => true
  | e :: es => event_okb e (hs_broker s) && run_okb ports (deliver ports s e) es
  end.

Lemma event_okb_ok e b : event_okb e b = true → event_ok e b.
Proof.
  destruct e; cbn [event_okb event_ok]; try done. intros [[Hn%negb_true_iff ?%Z.ltb_lt]%andb_true_iff ?%Z.ltb_lt]%andb_true_iff. split; [|done].
  intros (r & p & Hp & Hid & _). rewrite <- not_true_iff_false, existsb_exists in Hn. apply Hn. exists p. split; [by apply list_elem_of_In|by apply Z.eqb_eq].
Defined.

Lemma run_reachable (ports : HubPorts) s es : hub_reachable false s → run_okb ports s es = true → hub_reachable false (foldl (deliver ports) s es).
Proof.
  revert s. induction es as [|e es IH]; intros s Hs; [done|]. cbn [run_okb foldl]. intros [He Hes]%andb_true_iff. apply IH; [|done].
  eapply ReachStep; [exact Hs|]. by apply HubStep, event_okb_ok.
Defined.

(** Agent 1 registers can0; client 2 opens it, begins a transaction, configures the interface and writes a frame. *)
Definition busy_hub : HubState := run_hub accepting_ports
  [PeerConnected 1 local_info 1; PeerControl 1 (hello kPEER_ROLE_AGENT) 2; PeerControl 1 register_can0 3;
   PeerConnected 2 local_info 4; PeerControl 2 (hello kPEER_ROLE_CLIENT) 5; PeerControl 2 (open 1 (OPEN_FLAG_WANT_WRITE + OPEN_FLAG_RELIABLE)) 6;
   PeerControl 2 begin_txn 7; PeerControl 2 configure_can0 8; PeerFrame 2 (frame_on 0)].

(** How many peers, interfaces, channels in use, awake ones among them, transactions, pending configurations and owned echo tokens. *)
Definition census (b : Broker) : list nat :=
  [length (live (peers (bk_directory b))); length (live (entries (bk_registry b)));
   length (filter (λ c, cb_in_use c = true) (peers (bk_directory b) ≫= λ p, bindings (hp_session p)));
   length (filter (λ c, cb_in_use c = true ∧ cb_dormant c = false) (peers (bk_directory b) ≫= λ p, bindings (hp_session p)));
   length (filter (λ t, isInUse t = true) (txns (bk_transactions b))); length (live (bk_pending_ifconfig b));
   length (filter (λ o, o ≠ NO_OWNER) (peers (bk_directory b) ≫= λ p, owner_peer_ids (hp_echo_tokens p)))]%nat.

Lemma busy_hub_reachable : hub_reachable (ports := accepting_ports) false busy_hub.
Proof. apply run_reachable; [apply ReachInit|vm_compute; reflexivity]. Defined.

Lemma hub_references_live_witness : census (hs_broker busy_hub) = [2; 1; 1; 1; 1; 1; 1]%nat ∧ references_live (hs_broker busy_hub).
Proof. split; [vm_compute; reflexivity|]. apply (hub_references_live (ports := accepting_ports) false), busy_hub_reachable. Defined.

Lemma one_peer_without (id : Z) : id ≠ 7 → ¬ connected_peer (hs_broker one_peer) id.
Proof.
  intros Hid (r & p & Hp & Hpid & _). apply Hid. rewrite <- Hpid.
  assert (hp_peer_id <$> live (peers (bk_directory (hs_broker one_peer))) = [7]) as Hids by (vm_compute; reflexivity).
  assert (hp_peer_id p ∈ [7]) as Hin by (rewrite <- Hids; apply list_elem_of_fmap; by exists p). set_solver.
Defined.

Lemma connected_never_null_witness : (onPeerConnected (ports := accepting_ports) 8 local_info 2000 (arrives one_peer)).1 = Some ().
Proof. apply (connected_never_null (ports := accepting_ports) false one_peer 8 local_info 2000); [apply first_peer_reachable|by apply one_peer_without|done]. Defined.

Definition slot_key (b : Broker) (i : nat) : option (bool * Z * Z) := (λ p, (hp_in_use p, hp_peer_id p, hp_role p)) <$> peers (bk_directory b) !! i.
Lemma peer_in_slot b i id role : slot_key b i = Some (true, id, role) → peer_is b id role.
Proof. unfold slot_key. intros (p & Hp & [= Hu Hid Hr])%fmap_Some_1. exists p. split; [|done]. apply elem_of_live. by exists i. Defined.

(** The agent goes: its interface, its transaction and the configuration that waits for it go too, and the client's channel falls asleep. *)
Lemma disconnect_forgets_peer_witness :
  let s' := (disconnectPeer (ports := accepting_ports) 1 busy_hub).2 in
  peer_is (hs_broker busy_hub) 1 kHUB_PEER_ROLE_AGENT ∧ census (hs_broker s') = [1; 0; 1; 0; 0; 0; 0]%nat ∧
  peer_forgotten (hs_broker s') 1 ∧ peer_is (hs_broker s') 2 kHUB_PEER_ROLE_CLIENT.
Proof.
  assert (peer_is (hs_broker busy_hub) 1 kHUB_PEER_ROLE_AGENT) as H1 by (apply (peer_in_slot _ 0%nat); vm_compute; reflexivity).
  assert (peer_is (hs_broker busy_hub) 2 kHUB_PEER_ROLE_CLIENT) as H2 by (apply (peer_in_slot _ 1%nat); vm_compute; reflexivity).
  destruct (disconnect_forgets_peer (ports := accepting_ports) false busy_hub 1 busy_hub_reachable) as (Hf & Ho & _); [by exists kHUB_PEER_ROLE_AGENT|].
  refine (conj H1 (conj _ (conj Hf (proj1 (Ho 2 kHUB_PEER_ROLE_CLIENT _) H2)))); [vm_compute; reflexivity|lia].
Defined.

(** A peer connected over the network asks the hub to kick peer 1. *)
Definition remote_info : HubPeerConnectInfo :=
  {| ci_fingerprint_hex := None; ci_origin := None; ci_origin_host := None; ci_transport_kind := 1; ci_local := false |}.
Notation remote_peer := (first_peer remote_info).

Lemma admin_plane_local_only_witness :
  (onPeerControl (ports := accepting_ports) 7 [26; 0; 4; 0; 1; 0; 0; 0] 2000 remote_peer).2 = at_time 2000 remote_peer.
Proof.
  destruct (admin_plane_local_only (ports := accepting_ports) false remote_peer 7 2000 [26; 0; 4; 0; 1; 0; 0; 0]
    {| header_type := 26; header_flags := 0; header_length := 4 |} 0%nat) as [H|[H _]].
  - apply first_peer_reachable.
  - vm_compute. reflexivity.
  - vm_compute. reflexivity.
  - vm_compute. reflexivity.
  - vm_compute. by split.
  - exact H.
  - exfalso. revert H. vm_compute. done.
Defined.
