(* ===== verification/BrokerAccess.v ===== *)
(** * The broker: write access, timeouts and termination

    Who may make the hub send a frame, how long the main loop may sleep, and
    that the loops of the broker whose number of turns the C code does not bound
    come to an end on their own.  At the end a run of the whole hub, evaluated. *)

From Stdlib Require Import String.
From S2P Require Import Prelude Slots CString Wire HelloMessage FrameMessage EchoTokens EgressQueue ClientSession InterfaceRegistry TransactionTable PeerDirectory AdminMessage ControlPlane BrokerState BrokerPeers BrokerControl BrokerHandlers.
From S2P Require Import BrokerFrames BrokerAdmin BrokerLogic BrokerQuiet BrokerRelease BrokerSound BrokerSoundControl BrokerInvariant RegisterMessage OpenMessage BrokerRules.

Section access.
Context `{ports : HubPorts}.

(** ** Writing *)

(** A catalogue entry but for its frame counter. *)
Definition uncounted (e : InterfaceEntry) : InterfaceEntry := set_traffic 0 (ie_tx_dropped e) (ie_advertised_rate e) (ie_shaper e) e.

(** Of the metrics, only the frames received, the frames dropped and the frames dropped for a lease may differ. *)
Definition only_drops (m m' : HubMetrics) : Prop :=
  hm_frames_forwarded m' = hm_frames_forwarded m ∧ hm_frames_unroutable m' = hm_frames_unroutable m ∧
  let t := hm_transactions m in let t' := hm_transactions m' in
  u64 (tc_started t') = u64 (tc_started t) ∧ u64 (tc_completed t') = u64 (tc_completed t) ∧ u64 (tc_aborted t') = u64 (tc_aborted t) ∧
  u64 (tc_rejected t') = u64 (tc_rejected t) ∧ u64 (tc_steps_completed t') = u64 (tc_steps_completed t).

(** The code ran without calling a port; of the broker, frame counters moved and nothing else. *)
Definition only_counts (s s' : HubState) : Prop :=
  hs_calls s' = hs_calls s ∧
  ∃ es m, hs_broker s' = set_metrics (set_registry (hs_broker s) {| entries := es; next_interface_id := next_interface_id (bk_registry (hs_broker s)) |}) m ∧
    uncounted <$> es = uncounted <$> entries (bk_registry (hs_broker s)) ∧ only_drops (bk_metrics (hs_broker s)) m.

(** Frames received that are not counted as dropped, modulo 2^64. *)
Definition undropped (s : HubState) : Z :=
  let m := bk_metrics (hs_broker s) in u64 (hm_frames_received m - hm_frames_dropped m - tc_lease_frame_drops (hm_transactions m)).

#[global] Instance only_drops_preorder : PreOrder only_drops.
Proof. unfold only_drops. cbn zeta. split; [by intros m|]. intros m1 m2 m3. naive_solver congruence. Qed.

#[global] Instance only_counts_preorder : PreOrder only_counts.
Proof.
  split.
  - intros [b c]. split; [done|]. exists (entries (bk_registry b)), (bk_metrics b). split_and!; [by destruct b as [[] ? ? ? ? ? ? ? ? ? ?]|done..].
  - intros s1 s2 s3 [H12 (es & m & H2 & He & Hm)] [H23 (es' & m' & H3 & He' & Hm')]. split; [congruence|]. rewrite H2 in H3, He', Hm'. exists es', m'.
    split_and!; [by rewrite H3|by rewrite He'|by etrans].
Qed.

(** The client may not write on the channel: it was not granted, or another client's transaction has the bus. *)
Definition write_denied (b : Broker) (p : HubPeer) (channel : Z) : bool :=
  negb (ClientSession_CanWrite (hp_session p) channel) || channelLeasedToAnother b p channel.

Lemma write_denied_counts s s' p channel : only_counts s s' → write_denied (hs_broker s') p channel = write_denied (hs_broker s) p channel.
Proof. by intros [_ (es & m & -> & _)]. Qed.

Lemma count_metric_counts f s : only_drops (bk_metrics (hs_broker s)) (f (bk_metrics (hs_broker s))) → only_counts s (count_metric f s).2.
Proof.
  intros Hf. split; [done|]. exists (entries (bk_registry (hs_broker s))), (f (bk_metrics (hs_broker s))). split_and!; [|done..]. by destruct s as [[[] ? ? ? ? ? ? ? ? ? ?] ?].
Qed.

Lemma u64_plus_zero x : u64 (u64 (x + 0)) = u64 x.
Proof. unfold u64. by rewrite Z.add_0_r, Zmod_mod. Qed.
Lemma drops_received m : only_drops m (add_received m).
Proof. by split_and!. Qed.
Lemma drops_dropped n m : only_drops m (add_dropped n m).
Proof. by split_and!. Qed.
Lemma drops_lease m : only_drops m (add_lease_drop m).
Proof. unfold only_drops. cbn zeta. split_and!; [done..| | | | |]; apply u64_plus_zero. Qed.

Lemma CountFrame_counts r id :
  uncounted <$> entries (InterfaceRegistry_CountFrame r id) = uncounted <$> entries r ∧ next_interface_id (InterfaceRegistry_CountFrame r id) = next_interface_id r.
Proof. unfold InterfaceRegistry_CountFrame, update_first. destruct (scan _ _); [|done]. split; [|done]. by apply fmap_alter_same. Qed.

Lemma countInterfaceFrame_counts p channel s : only_counts s (countInterfaceFrame p channel s).2 ∧ undropped (countInterfaceFrame p channel s).2 = undropped s.
Proof.
  assert (only_counts s s) as [_ Hsame] by reflexivity.
  assert (∀ id, ∃ es m, set_registry (hs_broker s) (InterfaceRegistry_CountFrame (bk_registry (hs_broker s)) id) =
    set_metrics (set_registry (hs_broker s) {| entries := es; next_interface_id := next_interface_id (bk_registry (hs_broker s)) |}) m ∧
    uncounted <$> es = uncounted <$> entries (bk_registry (hs_broker s)) ∧ only_drops (bk_metrics (hs_broker s)) m) as Hcount.
  { intros id. destruct (CountFrame_counts (bk_registry (hs_broker s)) id) as [He Hn]. exists (entries (InterfaceRegistry_CountFrame (bk_registry (hs_broker s)) id)), (bk_metrics (hs_broker s)).
    split_and!; [|done..]. rewrite <- Hn. by destruct (InterfaceRegistry_CountFrame _ id). }
  unfold countInterfaceFrame, modify, only_counts. cbn [snd hs_broker hs_calls]. destruct (hp_role p =? kHUB_PEER_ROLE_AGENT).
  - destruct (InterfaceRegistry_FindByAgentChannel _ _ _); (split; [split; [done|]; first [exact Hsame|apply Hcount]|done]).
  - destruct (ClientSession_InterfaceForChannel _ _); (split; [split; [done|]; first [exact Hsame|apply Hcount]|done]).
Qed.

Lemma u64_balance x y : (∃ k, x = y + k * 18446744073709551616) → u64 x = u64 y.
Proof. intros [k ->]. unfold u64. apply Z_mod_plus_full. Qed.

(** A frame counted as received and then as dropped. *)
Lemma drop_settles s s1 s2 :
  hm_frames_received (bk_metrics (hs_broker s1)) = u64 (hm_frames_received (bk_metrics (hs_broker s)) + 1) →
  hm_frames_dropped (bk_metrics (hs_broker s1)) = hm_frames_dropped (bk_metrics (hs_broker s)) →
  tc_lease_frame_drops (hm_transactions (bk_metrics (hs_broker s1))) = tc_lease_frame_drops (hm_transactions (bk_metrics (hs_broker s))) →
  s2 = (count_metric (add_dropped 1) s1).2 ∨ s2 = (count_metric add_lease_drop s1).2 → undropped s2 = undropped s.
Proof.
  intros Hr Hd Hl Hs. unfold undropped. destruct Hs as [->| ->]; cbn; rewrite Hr, Hd, Hl; unfold u64; apply u64_balance.
  all: repeat match goal with |- context [?x mod 18446744073709551616] =>
    let q := fresh "q" in let Hq := fresh "Hq" in
    assert (∃ q, x mod 18446744073709551616 = x + q * 18446744073709551616) as [q Hq] by (exists (- (x / 18446744073709551616)); rewrite Z.mod_eq by done; lia);
    rewrite Hq; clear Hq end.
  all: first [exists (q - q0); ring|exists (q0 - q); ring].
Qed.

Lemma routeFromClient_denied p frame s :
  write_denied (hs_broker s) p (frame_channel frame) = true →
  (routeFromClient p frame s).1 = true ∧ only_counts s (routeFromClient p frame s).2 ∧
  ((routeFromClient p frame s).2 = (count_metric (add_dropped 1) s).2 ∨ (routeFromClient p frame s).2 = (count_metric add_lease_drop s).2).
Proof.
  pose proof (count_metric_counts (add_dropped 1) s (drops_dropped _ _)) as Hd. pose proof (count_metric_counts add_lease_drop s (drops_lease _)) as Hl.
  unfold write_denied, routeFromClient, gets, mbind, Hub_bind. cbn [id]. destruct (ClientSession_CanWrite _ _); cbn [negb orb].
  - intros ->. destruct (negb _); cbn; (split_and!; [done|exact Hd || exact Hl|by left + by right]).
  - intros _. split_and!; [done|exact Hd|by left].
Qed.

Lemma routeFrame_denied i frame s :
  let p := peers (bk_directory (hs_broker s)) !!! i in
  hp_role p ≠ kHUB_PEER_ROLE_AGENT → write_denied (hs_broker s) p (frame_channel frame) = true →
  (routeFrame i frame s).1 = true ∧ only_counts s (routeFrame i frame s).2 ∧ undropped (routeFrame i frame s).2 = undropped s.
Proof.
  intros p Hr%Z.eqb_neq Hd. unfold routeFrame, peer_at, gets, mbind, Hub_bind. fold p. rewrite Hr.
  pose proof (count_metric_counts add_received s (drops_received _)) as H1. destruct (count_metric add_received s) as [[] s1] eqn:E1. cbn in H1.
  destruct (countInterfaceFrame_counts p (frame_channel frame) s1) as [H2 _]. assert (bk_metrics (hs_broker (countInterfaceFrame p (frame_channel frame) s1).2) = bk_metrics (hs_broker s1)) as Hm.
  { unfold countInterfaceFrame, modify. cbn. by repeat case_match. }
  destruct (countInterfaceFrame p (frame_channel frame) s1) as [[] s2]. cbn in H2, Hm.
  assert (only_counts s s2) as H by (by etrans). destruct (routeFromClient_denied p frame s2) as (? & ? & Hlast); [by rewrite (write_denied_counts s)|].
  injection E1 as <-. split_and!; [done|by etrans|]. apply (drop_settles s s2); rewrite ?Hm; done.
Qed.

Lemma route_stream_denied i fuel stream frame accepted s :
  let p := peers (bk_directory (hs_broker s)) !!! i in
  hp_role p ≠ kHUB_PEER_ROLE_AGENT → (∀ channel, write_denied (hs_broker s) p channel = true) →
  (route_stream fuel i stream frame accepted s).1 = accepted ∧ only_counts s (route_stream fuel i stream frame accepted s).2 ∧
  undropped (route_stream fuel i stream frame accepted s).2 = undropped s.
Proof.
  revert stream frame accepted s. induction fuel as [|fuel IH]; intros stream frame accepted s p Hr Hd; cbn [route_stream]; [done|].
  destruct (FrameStream_Next stream frame) as [[more stream'] frame']. destruct more; cbn [negb]; [|done].
  destruct (routeFrame_denied i frame' s Hr (Hd _)) as (H1 & H2 & H3). unfold mbind, Hub_bind. destruct (routeFrame i frame' s) as [ok s1]. cbn in H1, H2, H3. subst ok.
  rewrite andb_true_r. assert (bk_directory (hs_broker s1) = bk_directory (hs_broker s)) as Hdir by (by destruct H2 as [_ (es & m & -> & _)]).
  destruct (IH stream' frame' accepted s1) as (? & ? & ?); [by rewrite Hdir|intros ch; rewrite Hdir, (write_denied_counts s); [apply Hd|done]|].
  split_and!; [done|by etrans|congruence].
Qed.

(** C19. Writing takes a grant and the bus.  A client all of whose channels were
    opened without write permission, or are leased to another client's exclusive
    transaction, cannot make the hub send anything: a datagram of any frames is
    accepted, no port is called, and of the whole broker only frame counters
    change, those of the catalogue's entries and the received and dropped counts;
    every frame of the datagram is counted as dropped. *)
Theorem write_access_enforced (s : HubState) (peer_id : Z) (data : list Z) (i : nat) :
  PeerDirectory_Find (bk_directory (hs_broker s)) peer_id = Some i →
  let p := peers (bk_directory (hs_broker s)) !!! i in
  hp_role p = kHUB_PEER_ROLE_CLIENT →
  (∀ channel, write_denied (hs_broker s) p channel = true) →
  (∀ header, MessageHeader_Decode data = Some header → isTransactionContent (header_type header) = false) →
  (onPeerFrame peer_id data s).1 = true ∧ only_counts s (onPeerFrame peer_id data s).2 ∧ undropped (onPeerFrame peer_id data s).2 = undropped s.
Proof.
  intros Hf p Hr Hd Hh. unfold onPeerFrame, find_peer, peer_at, gets, mbind, Hub_bind. rewrite Hf. fold p. rewrite Hr. cbn [negb andb].
  pose proof (route_stream_denied i (S (length data)) (FrameStream_Init data) frame0 true s ltac:(fold p; by rewrite Hr) Hd) as Hall.
  destruct (MessageHeader_Decode data) as [header|]; [|done]. by rewrite (Hh header eq_refl).
Qed.

(** ** Sleeping *)

(** What the code answers, from any state. *)
Definition answers {A} (P : A → Prop) (m : Hub A) : Prop := ∀ s, P (m s).1.

Lemma answers_ret {A} (P : A → Prop) a : P a → answers P (mret a).
Proof. by intros ? s. Qed.
Lemma answers_bind {A B} (P : B → Prop) (Q : A → Prop) (m : Hub A) (k : A → Hub B) :
  answers Q m → (∀ a, Q a → answers P (k a)) → answers P (m ≫= k).
Proof. intros Hm Hk s. unfold mbind, Hub_bind. specialize (Hm s). destruct (m s) as [a s']. by apply Hk. Qed.
Lemma answers_any {A B} (P : B → Prop) (m : Hub A) (k : A → Hub B) : (∀ a, answers P (k a)) → answers P (m ≫= k).
Proof. intros Hk. apply (answers_bind P (λ _, True)); [by intros s|]. auto. Qed.

Lemma channel_delay_answers i best channel : 0 < best → answers (λ d, 0 < d ≤ best) (channel_delay i best channel).
Proof.
  intros Hb. unfold channel_delay. apply answers_any. intros p. destruct (negb _); [apply answers_ret; lia|].
  destruct (EgressQueue_FrontOfChannel _ _); [|apply answers_ret; lia]. apply answers_any. intros b.
  destruct (InterfaceRegistry_EgressDelayUs _ _ _ _ _) as [delay registry]. apply answers_any. intros []. apply answers_ret.
  destruct (Z.gtb_spec delay 0), (Z.ltb_spec delay best); cbn; lia.
Qed.
Lemma channels_delay_answers i channel n best : 0 < best → answers (λ d, 0 < d ≤ best) (channels_delay i channel n best).
Proof.
  revert channel best. induction n as [|n IH]; intros channel best Hb; cbn [channels_delay]; [apply answers_ret; lia|].
  eapply answers_bind; [by apply channel_delay_answers|]. cbn. intros d Hd s. specialize (IH (S channel) d (proj1 Hd) s). cbn in IH. lia.
Qed.
Lemma peers_delay_answers i n best : 0 < best → answers (λ d, 0 < d ≤ best) (peers_delay i n best).
Proof.
  revert i best. induction n as [|n IH]; intros i best Hb; cbn [peers_delay]; [apply answers_ret; lia|].
  apply answers_any. intros found. eapply (answers_bind _ (λ d, 0 < d ≤ best)).
  - destruct found as [p|]; [|apply answers_ret; lia]. destruct (negb _); [apply answers_ret; lia|by apply channels_delay_answers].
  - cbn. intros d Hd s. specialize (IH (S i) d (proj1 Hd) s). cbn in IH. lia.
Qed.

(** The main loop sleeps at least a millisecond and no longer than its cap,
    whatever waits in the queues: no arithmetic of the rounding up to
    milliseconds, on 64 bits and then on 32, overflows. *)
Theorem next_timeout_bounds (cap_ms : Z) (s : HubState) :
  0 < cap_ms < 2147483648 → 1 ≤ (Broker_NextTimeoutMs cap_ms s).1 ≤ cap_ms.
Proof.
  intros Hc. refine (answers_bind (λ r, 1 ≤ r ≤ cap_ms) (λ d, 0 < d ≤ u64 (cap_ms * 1000)) _ _ _ _ s).
  - apply peers_delay_answers. rewrite u64_id; lia.
  - intros d Hd. apply answers_ret. rewrite (u64_id (cap_ms * 1000)) in Hd by lia. rewrite u64_id by lia.
    assert (1 ≤ (d + 999) / 1000 ≤ cap_ms) as Hr.
    { split; [apply Z.div_le_lower_bound; lia|]. apply Z.lt_succ_r, Z.div_lt_upper_bound; lia. }
    unfold i32. rewrite Z.mod_small; lia.
Qed.

(** ** Ending *)

(** The loop over the frames of a datagram. *)
Lemma route_stream_ends i fuel fuel' stream frame accepted s :
  (length (fs_data stream) - fs_offset stream < fuel)%nat → (length (fs_data stream) - fs_offset stream < fuel')%nat →
  route_stream fuel i stream frame accepted s = route_stream fuel' i stream frame accepted s.
Proof.
  revert fuel' stream frame accepted s. induction fuel as [|fuel IH]; intros [|fuel'] stream frame accepted s Hf Hf'; [lia..|]. cbn [route_stream].
  destruct (FrameStream_Next stream frame) as [[[] stream'] frame'] eqn:Hn; cbn [negb]; [|done].
  pose proof (FrameStream_Next_advances _ _ _ _ Hn) as Hless.
  unfold mbind, Hub_bind. destruct (routeFrame i frame' s) as [ok s']. apply IH; lia.
Qed.

(** The loop over the transactions of a client: the iterator moves on. *)
Lemma abandon_ends fuel fuel' client iterator s :
  sound (skel (hs_broker s)) → (512 - iterator < fuel)%nat → (512 - iterator < fuel')%nat →
  abandon_from fuel client iterator s = abandon_from fuel' client iterator s.
Proof.
  revert fuel' iterator s. induction fuel as [|fuel IH]; intros [|fuel'] iterator s Hs Hf Hf'; [lia..|]. cbn [abandon_from].
  unfold gets, mbind, Hub_bind. unfold TransactionTable_NextForClient. destruct (scan _ _) as [k|] eqn:Hk; [|done].
  apply scan_lt in Hk. rewrite length_drop in Hk. pose proof (sd_sizes _ Hs) as (_ & _ & Hl & _). unfold skel in Hl. cbn [sk_txns] in Hl. rewrite length_fmap in Hl.
  pose proof (sounds_abandon (iterator + k)%nat s Hs) as Hs'. destruct (abandonTransaction (iterator + k)%nat s) as [[] s']. apply IH; [done|lia..].
Qed.

(** The loop that displaces agents: each turn frees a slot. *)
Definition connected_count (S : skeleton) : Z := countb (λ k : bool * Z * Z * (bool * bool), k.1.1.1) (keys S).

Lemma gone_fewer S S' id r v j :
  sound S → keys S !! j = Some (true, id, r, v) → gone (keys S) id S' → connected_count S' < connected_count S.
Proof.
  intros Hs Hj (Hs' & Hn & _ & Honly). apply (countb_less _ _ _ j (true, id, r, v)); [|exact Honly|done|done|].
  - unfold keys. rewrite !length_fmap. pose proof (sd_sizes _ Hs) as [-> _]. pose proof (sd_sizes _ Hs') as [-> _]. done.
  - intros Hj'. apply (Hn r). by eapply key_live.
Qed.

Lemma expel_gone K id code detail : tri (still K) (expel id code detail) (λ _, gone K id).
Proof. unfold expel. eapply tri_bind; [apply tri_quiet; solve_quiet|]. intros []. apply disconnect_gone. Qed.

Lemma displaceable_agent_skel b j d :
  PeerDirectory_FindDisplaceableAgent (bk_directory b) = Some (j, d) → keys (skel b) !! j = Some (true, hp_peer_id d, hp_role d, standing d).
Proof.
  unfold PeerDirectory_FindDisplaceableAgent. intros (Hj & [Hu _]%andb_true_iff & _)%select_Some; [|intros; lia..].
  unfold keys, skel. cbn [sk_peers]. rewrite !list_lookup_fmap, Hj. cbn. unfold pk_key. cbn. by rewrite Hu.
Qed.

Lemma make_room_ends fuel fuel' n s :
  sound (skel (hs_broker s)) → connected_count (skel (hs_broker s)) < Z.of_nat fuel → connected_count (skel (hs_broker s)) < Z.of_nat fuel' →
  make_room fuel n s = make_room fuel' n s.
Proof.
  assert (∀ S, 0 ≤ connected_count S) as Hpos by (intros S; apply countb_bounds).
  revert fuel' s. induction fuel as [|fuel IH]; intros [|fuel'] s Hs Hf Hf'; [specialize (Hpos (skel (hs_broker s))); lia..|]. cbn [make_room].
  unfold gets, mbind, Hub_bind. destruct (registryHasRoomFor _ n); [done|]. destruct (PeerDirectory_FindDisplaceableAgent _) as [[j d]|] eqn:Hd; [|done].
  apply displaceable_agent_skel in Hd. match goal with |- context [expel ?i ?c ?m s] => pose proof (expel_gone _ i c m s (conj Hs eq_refl)) as Hg end.
  destruct (expel _ _ _ s) as [[] s']. cbn in Hg. pose proof (gone_fewer _ _ _ _ _ _ Hs Hd Hg) as Hless. apply IH; [apply Hg|lia..].
Qed.

(** C20. The open loops end.  The loop over the frames of a datagram, the loop over
    the transactions of a leaving client and the loop that displaces agents to
    make room in the catalogue have no bound of their own in the code.  From every
    reachable state each comes to an end within the turns its model allows: more
    fuel never changes the outcome. *)
Theorem broker_loops_end (require_known_peers : bool) (s : HubState) :
  hub_reachable require_known_peers s →
  (∀ i data frame accepted fuel, (length data < fuel)%nat →
    route_stream fuel i (FrameStream_Init data) frame accepted s = route_stream (S (length data)) i (FrameStream_Init data) frame accepted s) ∧
  (∀ client fuel, (512 < fuel)%nat → abandon_from fuel client 0 s = abandonClientTransactions client s) ∧
  (∀ n fuel, (512 < fuel)%nat → make_room fuel n s = make_room 513 n s).
Proof.
  intros Hr%reachable_sound. split_and!.
  - intros i data frame accepted fuel Hf. apply route_stream_ends; cbn; lia.
  - intros client fuel Hf. unfold abandonClientTransactions. apply abandon_ends; [done|lia..].
  - intros n fuel Hf. assert (connected_count (skel (hs_broker s)) ≤ 512) as Hc.
    { unfold connected_count. pose proof (countb_bounds (λ k : bool * Z * Z * (bool * bool), k.1.1.1) (keys (skel (hs_broker s)))) as Hb. unfold zlen, keys in *.
      rewrite length_fmap in Hb. pose proof (sd_sizes _ Hr) as [Hl _]. rewrite Hl in Hb. lia. }
    apply make_room_ends; [done|lia..].
Qed.
End access.

(** ** Witnesses *)
(** Access control that lets every client read and none write. *)
Definition readers_only : AuthorizationPort := {|
  read_allowed := λ _ _ _ _, true; write_allowed := λ _ _ _ _, false; admin_allowed := λ _ _ _ _, false; auth_knows := λ _ _, true;
  auth_grant := λ _ _, true; auth_revoke := λ _ _ _ _, true; auth_list := λ _ _ _, (0, [], false) |}.
Definition guarded_ports : HubPorts := {|
  pt_send_control := λ _ _ _, true; pt_send_frame := λ _ _ _ _, true; pt_frame_fits := λ _ _ _ _, true; pt_channel_reliable := λ _ _ _, true; pt_receive_overflows := λ _, 0;
  pt_identity_store := None; pt_authorization := Some readers_only; pt_bridge_store := None |}.
Definition known_info : HubPeerConnectInfo :=
  {| ci_fingerprint_hex := Some (lit "5eed" ++ [0]); ci_origin := None; ci_origin_host := None; ci_transport_kind := 1; ci_local := false |}.

(** Agent 1 serves can0; client 2, which may only read, opens it. *)
Definition read_only_hub : HubState := run_hub guarded_ports
  [PeerConnected 1 local_info 1; PeerControl 1 (hello kPEER_ROLE_AGENT) 2; PeerControl 1 register_can0 3;
   PeerConnected 2 known_info 4; PeerControl 2 (hello kPEER_ROLE_CLIENT) 5; PeerControl 2 (open 1 0) 6].

Lemma no_write_granted sn channel : forallb (λ c, negb (cb_can_write c)) (bindings sn) = true → ClientSession_CanWrite sn channel = false.
Proof.
  intros Hall. unfold ClientSession_CanWrite, first_binding. destruct (scan _ _) as [k|]; [|done]. cbn. destruct (bindings sn !! k) as [c|] eqn:Hk; [|done].
  rewrite forallb_forall in Hall. apply negb_true_iff, Hall. apply list_elem_of_In. by eapply list_elem_of_lookup_2.
Defined.

(** It writes a frame all the same: the frame is counted and dropped. *)
Lemma write_access_enforced_witness :
  let s' := (onPeerFrame (ports := guarded_ports) 2 (frame_on 0) read_only_hub).2 in
  ClientSession_InterfaceForChannel (hp_session (peers (bk_directory (hs_broker read_only_hub)) !!! 1%nat)) 0 = Some 1 ∧
  (hm_frames_received (bk_metrics (hs_broker s')), hm_frames_dropped (bk_metrics (hs_broker s'))) = (1, 1) ∧
  only_counts read_only_hub s' ∧ undropped s' = undropped read_only_hub.
Proof.
  refine (conj _ (conj _ (proj2 (write_access_enforced (ports := guarded_ports) read_only_hub 2 (frame_on 0) 1%nat _ _ _ _)))).
  - vm_compute. reflexivity.
  - vm_compute. reflexivity.
  - vm_compute. reflexivity.
  - vm_compute. reflexivity.
  - intros channel. unfold write_denied. rewrite no_write_granted by (vm_compute; reflexivity). reflexivity.
  - intros header Hh. vm_compute in Hh. injection Hh as <-. vm_compute. reflexivity.
Defined.

Lemma next_timeout_bounds_witness : 1 ≤ (Broker_NextTimeoutMs 50 read_only_hub).1 ≤ 50.
Proof. apply next_timeout_bounds. lia. Defined.

Lemma broker_loops_end_witness : make_room (ports := accepting_ports) 600 3 one_peer = make_room (ports := accepting_ports) 513 3 one_peer.
Proof. apply (broker_loops_end (ports := accepting_ports) false one_peer); [apply first_peer_reachable|lia]. Defined.

(** * The hub on a run

    A whole run of the hub, evaluated: an agent registers an interface, a client
    opens it twice, the agent goes away and comes back. *)
(** Agent 1 registers can0; client 2 opens it with the flags of [opens]; the agent disconnects and registers again as peer 3. *)
Definition agent_flap (opens : list Z) : list hub_event :=
  [PeerConnected 1 local_info 1; PeerControl 1 (hello kPEER_ROLE_AGENT) 2; PeerControl 1 register_can0 3;
   PeerConnected 2 local_info 4; PeerControl 2 (hello kPEER_ROLE_CLIENT) 5] ++
  ((λ flags, PeerControl 2 (open 1 flags) 6) <$> opens) ++
  [PeerDisconnected 1 7; PeerConnected 3 local_info 8; PeerControl 3 (hello kPEER_ROLE_AGENT) 9; PeerControl 3 register_can0 10].

(** The reliable modes the hub set on an agent's channels. *)
Definition reliable_modes (agent_peer_id : Z) (s : HubState) : list Z :=
  omap (λ c, match c with SetChannelMode id channel true => if id =? agent_peer_id then Some channel else None | _ => None end) (hs_calls s).

(** What the client's session holds in the end: in use, awake, reliable. *)
Definition client_channels (s : HubState) : list (bool * bool * bool) :=
  (λ c, (cb_in_use c, negb (cb_dormant c), cb_reliable c)) <$> take 2 (bindings (hp_session (peers (bk_directory (hs_broker s)) !!! 1%nat))).

(** The order of the opens matters: [reattachInterface] asks whether the client's
    _first_ channel on the interface is reliable.  With a best-effort channel
    before the reliable one, the reliable channel is awake again after the
    agent's return but the agent's channel is never put back into reliable mode;
    with the channels opened in the other order it is. *)
Lemma reattach_forgets_reliable_mode :
  let best_effort := OPEN_FLAG_WANT_WRITE in
  let reliable := OPEN_FLAG_WANT_WRITE + OPEN_FLAG_RELIABLE in
  (reliable_modes 1 (run_hub accepting_ports (agent_flap [best_effort; reliable])) = [0] ∧
   client_channels (run_hub accepting_ports (agent_flap [best_effort; reliable])) = [(true, true, false); (true, true, true)] ∧
   reliable_modes 3 (run_hub accepting_ports (agent_flap [best_effort; reliable])) = []) ∧
  (client_channels (run_hub accepting_ports (agent_flap [reliable; best_effort])) = [(true, true, true); (true, true, false)] ∧
   reliable_modes 3 (run_hub accepting_ports (agent_flap [reliable; best_effort])) = [0]).
Proof. vm_compute. repeat split. Qed.
