(* ===== verification/StepRing.v ===== *)
(** * The ring of transaction steps (src/agent/domain/step_ring.c)

    Step records kept verbatim in arrival order over caller-owned storage.  A
    record is never split: one that does not fit at the end goes to the start
    and the tail of the storage is skipped.  Offsets are 32-bit. *)

From S2P Require Import Prelude Wire Codec.

Record StepRing := {
  storage : list Z;
  capacity : Z;
  read_offset : Z;
  write_offset : Z;
  wrap_offset : Z;
  used_bytes : Z;
  wrapped : bool;
}.

Definition StepRing_Clear (self : StepRing) : StepRing :=
  {| storage := storage self; capacity := capacity self; read_offset := 0; write_offset := 0; wrap_offset := 0;
     used_bytes := 0; wrapped := false |}.

Definition StepRing_Init (store : list Z) (cap : Z) : StepRing :=
  StepRing_Clear {| storage := store; capacity := cap; read_offset := 0; write_offset := 0; wrap_offset := 0;
                    used_bytes := 0; wrapped := false |}.

Definition append (self : StepRing) (record : list Z) (size : Z) : StepRing :=
  {| storage := copy_at (Z.to_nat (write_offset self)) (take (Z.to_nat size) record) (storage self);
     capacity := capacity self; read_offset := read_offset self; write_offset := u32 (write_offset self + size);
     wrap_offset := wrap_offset self; used_bytes := u32 (used_bytes self + size); wrapped := wrapped self |}.

Definition pushContiguous (self : StepRing) (record : list Z) (size : Z) : bool * StepRing :=
  if u32 (write_offset self + size) <=? capacity self then (true, append self record size)
  else if size >? read_offset self then (false, self)
  else
    (true, append {| storage := storage self; capacity := capacity self; read_offset := read_offset self; write_offset := 0;
                     wrap_offset := write_offset self; used_bytes := used_bytes self; wrapped := true |} record size).

Definition pushWrapped (self : StepRing) (record : list Z) (size : Z) : bool * StepRing :=
  if u32 (write_offset self + size) >? read_offset self then (false, self) else (true, append self record size).

Definition StepRing_Push (self : StepRing) (record : list Z) (size : Z) : bool * StepRing :=
  if wrapped self then pushWrapped self record size else pushContiguous self record size.

(** The bytes the caller may read from the front; [None] when the ring is empty. *)
Definition StepRing_Peek (self : StepRing) : option (list Z) :=
  let segment_end := if wrapped self then wrap_offset self else write_offset self in
  if used_bytes self =? 0 then None
  else Some (slice (Z.to_nat (read_offset self)) (Z.to_nat (u32 (segment_end - read_offset self))) (storage self)).

Definition wrapReadAtEndOfFirstSegment (self : StepRing) : StepRing :=
  if negb (wrapped self) || negb (read_offset self =? wrap_offset self) then self
  else {| storage := storage self; capacity := capacity self; read_offset := 0; write_offset := write_offset self;
          wrap_offset := wrap_offset self; used_bytes := used_bytes self; wrapped := false |}.

Definition StepRing_Release (self : StepRing) (size : Z) : StepRing :=
  let self := {| storage := storage self; capacity := capacity self; read_offset := u32 (read_offset self + size);
                 write_offset := write_offset self; wrap_offset := wrap_offset self;
                 used_bytes := u32 (used_bytes self - size); wrapped := wrapped self |} in
  if used_bytes self =? 0 then StepRing_Clear self else wrapReadAtEndOfFirstSegment self.

Definition StepRing_IsEmpty (self : StepRing) : bool := used_bytes self =? 0.

(** ** Representation

    The ring holds the records [rs], the first of them in the segment being
    read and, after a wrap, the rest at the start of the storage. [rmax] bounds
    the records pushed. *)
Definition segment (s : StepRing) (from to : Z) (rs : list (list Z)) : Prop :=
  from ≤ to ∧ slice (Z.to_nat from) (Z.to_nat (to - from)) (storage s) = concat rs ∧ zlen (concat rs) = to - from.

Record ring_rep (rmax : Z) (s : StepRing) (rs : list (list Z)) : Prop := {
  ring_cap : length (storage s) = Z.to_nat (capacity s) ∧ 0 ≤ capacity s ∧ capacity s + rmax < 4294967296;
  ring_sizes : Forall (λ r, 1 ≤ zlen r ≤ rmax) rs;
  ring_offsets : 0 ≤ read_offset s ∧ 0 ≤ write_offset s ∧ used_bytes s = zlen (concat rs);
  ring_empty : rs = [] → read_offset s = 0 ∧ write_offset s = 0;
  ring_data :
    if wrapped s then
      ∃ rs1 rs2, rs = rs1 ++ rs2 ∧ rs1 ≠ [] ∧ segment s (read_offset s) (wrap_offset s) rs1 ∧ segment s 0 (write_offset s) rs2 ∧
        write_offset s ≤ read_offset s ∧ wrap_offset s ≤ capacity s < wrap_offset s + rmax
    else segment s (read_offset s) (write_offset s) rs ∧ write_offset s ≤ capacity s;
}.


(** ** Segments *)

Lemma take_add {A} (n m : nat) (l : list A) : take (n + m) l = take n l ++ take m (drop n l).
Proof. revert l. induction n as [|n IH]; intros [|x l]; simpl; [done..|by rewrite take_nil|]. by rewrite IH. Qed.

Lemma slice_add a n m (l : list Z) : slice a (n + m) l = slice a n l ++ slice (a + n) m l.
Proof. unfold slice. by rewrite take_add, drop_drop. Qed.

Lemma segment_empty s a : segment s a a [].
Proof. split_and!; [lia| |unfold zlen; simpl; lia]. by rewrite Z.sub_diag. Qed.

Lemma zlen_app {A} (l k : list A) : zlen (l ++ k) = zlen l + zlen k.
Proof. unfold zlen. rewrite length_app. lia. Qed.

Lemma zlen_concat_cons (r : list Z) rs : zlen (concat (r :: rs)) = zlen r + zlen (concat rs).
Proof. apply zlen_app. Qed.

Lemma zlen_concat_snoc (r : list Z) rs : zlen (concat (rs ++ [r])) = zlen (concat rs) + zlen r.
Proof. rewrite concat_app, zlen_app. cbn [concat]. by rewrite app_nil_r. Qed.

(** Reading past the first record. *)
Lemma segment_pop s a b r rs : 0 ≤ a → segment s a b (r :: rs) → segment s (a + zlen r) b rs.
Proof.
  intros Ha (Hab & Hs & Hz). rewrite zlen_concat_cons in Hz. assert (0 ≤ zlen (concat rs)) by (unfold zlen; lia).
  split_and!; [lia| |lia]. replace (Z.to_nat (b - a)) with (length r + Z.to_nat (b - (a + zlen r)))%nat in Hs by (unfold zlen in *; lia).
  rewrite slice_add in Hs. cbn [concat] in Hs. apply app_inj_1 in Hs as [_ Hs].
  - rewrite <- Hs. f_equal. unfold zlen. lia.
  - apply (f_equal length) in Hs. rewrite !length_app in Hs. unfold slice in *. rewrite !length_take in *.
    unfold zlen in *. lia.
Qed.

(** A write outside the segment leaves it alone; a write at its end extends it. *)
Lemma segment_other s s' a b rs w d :
  0 ≤ a → 0 ≤ w → segment s a b rs → storage s' = copy_at (Z.to_nat w) d (storage s) → w + zlen d ≤ a ∨ b ≤ w → segment s' a b rs.
Proof.
  intros Ha Hw (Hab & Hs & Hz) Hst Hdis. split_and!; [done| |done]. rewrite Hst, slice_copy_ne; [done|]. unfold zlen in *. lia.
Qed.

Lemma segment_snoc s s' a b rs r :
  0 ≤ a → segment s a b rs → storage s' = copy_at (Z.to_nat b) r (storage s) → b + zlen r ≤ zlen (storage s) →
  segment s' a (b + zlen r) (rs ++ [r]).
Proof.
  intros Ha (Hab & Hs & Hz) Hst Hfit. assert (0 ≤ zlen r) by (unfold zlen; lia).
  split_and!; [lia| |rewrite zlen_concat_snoc; lia].
  replace (Z.to_nat (b + zlen r - a)) with (Z.to_nat (b - a) + length r)%nat by (unfold zlen in *; lia).
  rewrite slice_add, Hst, slice_copy_ne by lia. rewrite Hs, concat_app. cbn [concat]. rewrite app_nil_r. f_equal.
  replace (Z.to_nat a + Z.to_nat (b - a))%nat with (Z.to_nat b) by lia. apply slice_copy_eq; [done|]. unfold zlen in *. lia.
Qed.

(** ** Operations *)

Lemma ring_rep_init rmax store cap :
  length store = Z.to_nat cap → 0 ≤ cap → cap + rmax < 4294967296 → ring_rep rmax (StepRing_Init store cap) [].
Proof.
  intros Hl Hc Hr. split; cbn; [done|by apply Forall_nil_2|done|done|]. split; [apply segment_empty|done].
Qed.

Lemma append_fields s r :
  0 ≤ write_offset s → 0 ≤ used_bytes s → write_offset s + zlen r < 4294967296 → used_bytes s + zlen r < 4294967296 →
  append s r (zlen r) =
    {| storage := copy_at (Z.to_nat (write_offset s)) r (storage s); capacity := capacity s; read_offset := read_offset s;
       write_offset := write_offset s + zlen r; wrap_offset := wrap_offset s; used_bytes := used_bytes s + zlen r; wrapped := wrapped s |}.
Proof.
  intros. unfold append. assert (0 ≤ zlen r) by (unfold zlen; lia). rewrite !u32_id by lia.
  unfold zlen at 1. by rewrite Nat2Z.id, take_ge by lia.
Qed.

(** The bytes in use never exceed the capacity. *)
Lemma ring_used_bound rmax s rs : ring_rep rmax s rs → 0 ≤ used_bytes s ≤ capacity s ∧ write_offset s ≤ capacity s.
Proof.
  intros [(Hl & Hc & Hov) Hsz (Hr & Hw & Hu) He Hd]. rewrite Hu. split; [|]; destruct (wrapped s).
  - destruct Hd as (rs1 & rs2 & -> & _ & (H1 & _ & Hz1) & (H2 & _ & Hz2) & Hle & Hwr). rewrite concat_app, zlen_app. lia.
  - destruct Hd as [(H1 & _ & Hz) Hle]. lia.
  - destruct Hd as (rs1 & rs2 & -> & _ & (H1 & _ & Hz1) & _ & Hle & Hwr). lia.
  - by destruct Hd.
Qed.

Lemma ring_push rmax s rs r :
  ring_rep rmax s rs → 1 ≤ zlen r ≤ rmax →
  let '(ok, s') := StepRing_Push s r (zlen r) in
  (ok = true → ring_rep rmax s' (rs ++ [r])) ∧ (ok = false → s' = s) ∧
  (used_bytes s + zlen r ≤ capacity s - rmax → ok = true).
Proof.
  intros R Hr. pose proof (ring_used_bound _ _ _ R) as [Hub Hwb]. pose proof R as [(Hl & Hc & Hov) Hsz (Hro & Hwo & Hu) He Hd].
  assert (zlen (storage s) = capacity s) as Hzs by (unfold zlen; lia).
  assert (Forall (λ r, 1 ≤ zlen r ≤ rmax) (rs ++ [r])) as Hsz' by (apply Forall_app; split; [done|]; by apply Forall_singleton).
  unfold StepRing_Push, pushWrapped, pushContiguous. rewrite u32_id by lia. destruct (wrapped s) eqn:Hwr.
  - destruct Hd as (rs1 & rs2 & -> & Hne & Hs1 & Hs2 & Hle & Hcap).
    assert (used_bytes s = wrap_offset s - read_offset s + write_offset s) as Hused.
    { rewrite Hu, concat_app, zlen_app. destruct Hs1 as (_ & _ & ->), Hs2 as (_ & _ & ->). lia. }
    case_tests; (split_and!; [intros Hok|intros Hok|]); try done; try lia.
    rewrite append_fields by lia. split; cbn; [by rewrite length_copy_at|done|rewrite zlen_concat_snoc; lia|by destruct (rs1 ++ rs2)|].
    rewrite Hwr. exists rs1, (rs2 ++ [r]). rewrite app_assoc. split_and!; try done; try lia.
    + eapply (segment_other s); [| |done|done|left]; cbn; lia.
    + eapply (segment_snoc s); [lia|done|done|]. pose proof (proj1 Hs1). lia.
  - destruct Hd as [Hs Hle]. pose proof Hs as (Hrw & _ & Hz).
    case_tests; (split_and!; [intros Hok|intros Hok|]); try done; try lia.
    + rewrite append_fields by lia. split; cbn; [by rewrite length_copy_at|done|rewrite zlen_concat_snoc; lia|by destruct rs|].
      rewrite Hwr. split; [|lia]. eapply (segment_snoc s); [lia|done|done|]. lia.
    + set (s1 := {| storage := _; capacity := _; read_offset := _; write_offset := 0; wrap_offset := _; used_bytes := _; wrapped := true |}).
      rewrite append_fields by (cbn; lia). cbn [s1 storage capacity read_offset write_offset wrap_offset used_bytes wrapped].
      assert (rs ≠ []) as Hne by (intros ->; destruct He as [? ?]; [done|lia]).
      split; cbn; [by rewrite length_copy_at|done|rewrite zlen_concat_snoc; lia|by destruct rs|].
      exists rs, [r]. split_and!; try done; try lia.
      * eapply (segment_other s _ _ _ _ 0 r); [lia|lia|done|done|left]. lia.
      * replace (zlen r) with (0 + zlen r) by lia. eapply (segment_snoc s1 _ 0 0 []); [lia|apply segment_empty|done|]. cbn. lia.
Qed.

(** What the caller sees from the front starts with the oldest record. *)
Lemma ring_peek rmax s rs :
  ring_rep rmax s rs →
  match rs with
  | [] => StepRing_Peek s = None ∧ StepRing_IsEmpty s = true
  | r :: _ => StepRing_IsEmpty s = false ∧ ∃ rest, StepRing_Peek s = Some (r ++ rest)
  end.
Proof.
  intros R. pose proof (ring_used_bound _ _ _ R) as [Hub Hwb]. destruct R as [(Hl & Hc & Hov) Hsz (Hro & Hwo & Hu) He Hd].
  unfold StepRing_Peek, StepRing_IsEmpty. destruct rs as [|r rs].
  { rewrite Hu. done. }
  apply Forall_cons in Hsz as [Hr _]. rewrite zlen_concat_cons in Hu. assert (0 ≤ zlen (concat rs)) by (unfold zlen; lia).
  replace (used_bytes s =? 0) with false by (symmetry; apply Z.eqb_neq; lia). split; [done|].
  destruct (wrapped s).
  - destruct Hd as (rs1 & rs2 & Heq & Hne & (H1 & Hs1 & Hz1) & _ & _ & Hcap). destruct rs1 as [|r1 rs1]; [done|]. simplify_eq/=.
    rewrite u32_id by lia. rewrite Hs1. by exists (concat rs1).
  - destruct Hd as [(H1 & Hs1 & Hz1) Hle]. rewrite u32_id by lia. rewrite Hs1. by exists (concat rs).
Qed.

Lemma ring_release rmax s r rs : ring_rep rmax s (r :: rs) → ring_rep rmax (StepRing_Release s (zlen r)) rs.
Proof.
  intros R. pose proof (ring_used_bound _ _ _ R) as [Hub Hwb]. destruct R as [(Hl & Hc & Hov) Hsz (Hro & Hwo & Hu) He Hd].
  apply Forall_cons in Hsz as [Hr Hsz]. rewrite zlen_concat_cons in Hu. assert (0 ≤ zlen (concat rs)) as Hpos by (unfold zlen; lia).
  assert (read_offset s + zlen r ≤ capacity s) as Hend.
  { destruct (wrapped s).
    - destruct Hd as (rs1 & rs2 & Heq & Hne & (H1 & _ & Hz1) & _ & _ & Hcap). destruct rs1 as [|r1 rs1]; [done|]. cbn [app] in Heq. injection Heq as -> _.
      rewrite zlen_concat_cons in Hz1. assert (0 ≤ zlen (concat rs1)) by (unfold zlen; lia). lia.
    - destruct Hd as [(H1 & _ & Hz1) Hle]. rewrite zlen_concat_cons in Hz1. lia. }
  unfold StepRing_Release. rewrite (u32_id (read_offset s + zlen r)), (u32_id (used_bytes s - zlen r)) by lia. cbn [used_bytes].
  destruct (Z.eqb_spec (used_bytes s - zlen r) 0) as [Hz|Hnz].
  - assert (rs = []) as ->.
    { destruct rs as [|r2 rs]; [done|]. apply Forall_cons in Hsz as [Hr2 _]. rewrite zlen_concat_cons in Hu.
      assert (0 ≤ zlen (concat rs)) by (unfold zlen; lia). lia. }
    split; cbn; [done|done|done|done|]. split; [apply segment_empty|done].
  - assert (rs ≠ []) as Hne by (intros ->; unfold zlen at 2 in Hu; cbn in Hu; lia).
    unfold wrapReadAtEndOfFirstSegment. cbn [wrapped read_offset wrap_offset]. destruct (wrapped s) eqn:Hwr; cbn [negb orb].
    + destruct Hd as (rs1 & rs2 & Heq & Hne1 & Hs1 & Hs2 & Hle & Hcap). destruct rs1 as [|r1 rs1]; [done|]. simplify_eq/=.
      pose proof (segment_pop s _ _ r1 rs1 Hro Hs1) as Hs1'.
      destruct (Z.eqb_spec (read_offset s + zlen r1) (wrap_offset s)) as [Hend1|Hmore]; cbn [negb].
      * assert (rs1 = []) as ->.
        { destruct rs1 as [|r2 rs1]; [done|]. destruct Hs1' as (_ & _ & Hz1). cbn in Hsz. apply Forall_cons in Hsz as [Hr2 _].
          rewrite zlen_concat_cons in Hz1. assert (0 ≤ zlen (concat rs1)) by (unfold zlen; lia). lia. }
        split; cbn; [done|done|split_and!; [lia|lia|cbn in Hu; lia]|done|]. by split; [|lia].
      * split; cbn; [done|done|split_and!; lia|done|]. rewrite ?Hwr. exists rs1, rs2.
        split_and!; try done; try lia. intros ->. destruct Hs1' as (_ & _ & Hz1). unfold zlen at 1 in Hz1. cbn in Hz1. lia.
    + destruct Hd as [Hs Hle]. split; cbn; [done|done|split_and!; lia|done|]. split; [|done]. by apply segment_pop.
Qed.

(** ** Runs of the ring *)
Inductive ring_op := KPush (record : list Z) | KPop.

(** The records a caller gets: it peeks, takes the oldest record off the front and releases it. *)
Fixpoint ring_run (s : StepRing) (queue : list (list Z)) (ops : list ring_op) : list (list Z) * bool :=
  match ops with
  | [] => ([], true)
  | KPush r :: ops' =>
      let '(ok, s) := StepRing_Push s r (zlen r) in
      let '(out, all) := ring_run s (queue ++ [r]) ops' in (out, ok && all)
  | KPop :: ops' =>
      match queue with
      | [] => ring_run s queue ops'
      | r :: queue' =>
          let front := take (length r) (default [] (StepRing_Peek s)) in
          let '(out, all) := ring_run (StepRing_Release s (zlen r)) queue' ops' in (front :: out, all)
      end
  end.

(** The same sequence on a plain queue. *)
Fixpoint queue_run (queue : list (list Z)) (ops : list ring_op) : list (list Z) :=
  match ops with
  | [] => []
  | KPush r :: ops' => queue_run (queue ++ [r]) ops'
  | KPop :: ops' => match queue with [] => queue_run [] ops' | r :: queue' => r :: queue_run queue' ops' end
  end.

(** The sender's credit: what is in flight and the new record fit the window [capacity - rmax]. *)
Fixpoint within_credit (window rmax : Z) (queue : list (list Z)) (ops : list ring_op) : Prop :=
  match ops with
  | [] => True
  | KPush r :: ops' => 1 ≤ zlen r ≤ rmax ∧ zlen (concat queue) + zlen r ≤ window ∧ within_credit window rmax (queue ++ [r]) ops'
  | KPop :: ops' => within_credit window rmax (tail queue) ops'
  end.

(** The step ring is a lossless FIFO under its credit. When senders keep
    within capacity minus one maximal record, every push is accepted (the tail
    skipped at a wrap never costs a record), no record is split, and the records
    come out whole, unchanged and in order, for any interleaving of pushes and
    releases. *)
Theorem step_ring_lossless_fifo (store : list Z) (cap rmax : Z) (ops : list ring_op) :
  length store = Z.to_nat cap → 0 ≤ cap → cap + rmax < 4294967296 → within_credit (cap - rmax) rmax [] ops →
  ring_run (StepRing_Init store cap) [] ops = (queue_run [] ops, true).
Proof.
  intros Hl Hc Hov Hcr. pose proof (ring_rep_init rmax store cap Hl Hc Hov) as R.
  assert (∀ s queue, ring_rep rmax s queue → capacity s = cap → within_credit (cap - rmax) rmax queue ops →
    ring_run s queue ops = (queue_run queue ops, true)) as Hgen; [|by apply Hgen].
  clear R Hcr. induction ops as [|[r|] ops IH]; intros s queue R Hcap Hcr; cbn [ring_run queue_run]; [done|..].
  - destruct Hcr as (Hr & Hfit & Hcr). pose proof (ring_push rmax s queue r R Hr) as Hp.
    assert (capacity (StepRing_Push s r (zlen r)).2 = capacity s) as Hcap'.
    { unfold StepRing_Push, pushWrapped, pushContiguous. destruct (wrapped s); repeat case_match; done. }
    destruct (StepRing_Push s r (zlen r)) as [ok s'] eqn:Hpush. destruct Hp as (Hrep & _ & Hok).
    rewrite (proj2 (proj2 (ring_offsets _ _ _ R))), Hcap in Hok. specialize (Hok ltac:(lia)) as ->. cbn in Hcap'.
    rewrite (IH s' (queue ++ [r])); [done|by apply Hrep|congruence|done].
  - destruct queue as [|r queue]; [by apply IH|]. pose proof (ring_peek _ _ _ R) as (_ & rest & ->).
    change (default [] (Some (r ++ rest))) with (r ++ rest). rewrite take_app_length. pose proof (ring_release _ _ _ _ R) as R'.
    rewrite (IH _ queue); [done|done| |done]. unfold StepRing_Release, StepRing_Clear, wrapReadAtEndOfFirstSegment.
    repeat case_match; done.
Qed.

Lemma step_ring_lossless_fifo_witness :
  let ops := [KPush [1; 2; 3]; KPush [4; 5; 6]; KPop; KPush [7; 8]; KPop; KPush [9; 10; 11]; KPop; KPop] in
  ring_run (StepRing_Init (replicate 9 0) 9) [] ops = ([[1; 2; 3]; [4; 5; 6]; [7; 8]; [9; 10; 11]], true).
Proof.
  intros ops. rewrite (step_ring_lossless_fifo (replicate 9 0) 9 3 ops); [done|done|lia|lia|].
  unfold ops. cbn [within_credit]. unfold zlen. cbn. repeat split; lia.
Defined.
