(* ===== verification/TxPacer.v ===== *)
(** * The agent's transmit pacer (src/agent/domain/tx_pacer.c)

    One additive-increase, multiplicative-decrease credit per interface: the
    bus rate the agent measured as sustainable.  One update per status window. *)

From S2P Require Import Prelude Wire Codec RegisterMessage.

Record TxPacer := {
  credit : list Z;
  last_tx_dropped : list Z;
  seen : list bool;
}.

Definition TxPacer_Reset : TxPacer :=
  {| credit := replicate 16 0; last_tx_dropped := replicate 16 0; seen := replicate 16 false |}.

(** Overwrites the three cells of one interface. *)
Definition TxPacer_set (self : TxPacer) (i c d : Z) : TxPacer :=
  {| credit := (credit self).[i := c]; last_tx_dropped := (last_tx_dropped self).[i := d]; seen := (seen self).[i := true] |}.

Definition TxPacer_Update (self : TxPacer) (interface_index advertised_rate tx_dropped : Z) : Z * TxPacer :=
  if interface_index >=? Z.of_nat REGISTER_INTERFACES_MAX then (advertised_rate, self)
  else if negb (seen self).[interface_index] then
    (advertised_rate, TxPacer_set self interface_index advertised_rate tx_dropped)
  else
    let c := (credit self).[interface_index] in
    let c :=
      if tx_dropped >? (last_tx_dropped self).[interface_index] then
        let floor_rate := advertised_rate / 16 in
        let c := u32 (u64 (c * 4) / 5) in
        if c <? floor_rate then floor_rate else c
      else
        let c := u32 (c + advertised_rate / 8) in
        if c >? advertised_rate then advertised_rate else c in
    (c, TxPacer_set self interface_index c tx_dropped).

Record pacer_shape (self : TxPacer) : Prop := {
  credit_length : length (credit self) = 16%nat;
  dropped_length : length (last_tx_dropped self) = 16%nat;
  seen_length : length (seen self) = 16%nat;
}.

(** The windows of one interface, in order: the drop counter at the end of each. *)
Fixpoint pacer_run (self : TxPacer) (i adv : Z) (drops : list Z) : list Z * TxPacer :=
  match drops with
  | [] => ([], self)
  | d :: drops' =>
      let '(c, self) := TxPacer_Update self i adv d in
      let '(out, self) := pacer_run self i adv drops' in (c :: out, self)
  end.

(** ** The reference: one credit, exact arithmetic *)

Definition aimd_step (adv c last d : Z) : Z :=
  if last <? d then Z.max (adv / 16) (c * 4 / 5) else Z.min adv (c + adv / 8).

Fixpoint aimd (adv c last : Z) (drops : list Z) : list Z :=
  match drops with
  | [] => []
  | d :: drops' => let c' := aimd_step adv c last d in c' :: aimd adv c' d drops'
  end.

Lemma aimd_step_range adv c last d : 0 ≤ adv → adv / 16 ≤ c ≤ adv → adv / 16 ≤ aimd_step adv c last d ≤ adv.
Proof. intros Ha Hc. unfold aimd_step. case_tests; Z.to_euclidean_division_equations; lia. Qed.

Lemma aimd_range adv drops : ∀ c last, 0 ≤ adv → adv / 16 ≤ c ≤ adv → Forall (λ r, adv / 16 ≤ r ≤ adv) (aimd adv c last drops).
Proof.
  induction drops as [|d drops IH]; intros c last Ha Hc; cbn [aimd]; [by apply Forall_nil_2|].
  pose proof (aimd_step_range adv c last d Ha Hc). apply Forall_cons_2; [done|]. by apply IH.
Qed.

(** Quiet windows: the counter stays put and the credit climbs linearly to the advertised rate. *)
Lemma aimd_quiet adv d n : ∀ c, 0 ≤ adv → 0 ≤ c ≤ adv →
  last (aimd adv c d (replicate n d)) = if decide (n = 0%nat) then None else Some (Z.min adv (c + Z.of_nat n * (adv / 8))).
Proof.
  induction n as [|n IH]; intros c Ha Hc; [done|]. assert (0 ≤ adv / 8) by (apply Z.div_pos; lia).
  assert (aimd_step adv c d d = Z.min adv (c + adv / 8)) as Hs by (unfold aimd_step; by rewrite Z.ltb_irrefl).
  cbn [replicate aimd]. rewrite Hs. destruct n as [|n]; [cbn; f_equal; lia|].
  rewrite last_cons, IH by lia. case_decide; [done|]. cbn. f_equal. nia.
Qed.

(** After any history, sixteen quiet windows restore the advertised rate. *)
Lemma aimd_recovers adv dn pre : ∀ c l, 8 ≤ adv → adv / 16 ≤ c ≤ adv →
  last (aimd adv c l (pre ++ dn :: replicate 16 dn)) = Some adv.
Proof.
  induction pre as [|d pre IH]; intros c l Ha Hc.
  - pose proof (aimd_step_range adv c l dn ltac:(lia) Hc) as Hr. assert (0 ≤ adv / 16) by (apply Z.div_pos; lia).
    cbn [app aimd]. rewrite last_cons, aimd_quiet by lia. rewrite decide_False by lia. f_equal. Z.to_euclidean_division_equations. lia.
  - cbn [app aimd]. rewrite last_cons, IH; [done|done|]. apply aimd_step_range; lia.
Qed.

(** ** The pacer computes it *)

Lemma pacer_shape_set self i c d : pacer_shape self → pacer_shape (TxPacer_set self i c d).
Proof. intros [Hc Hd Hs]. split; cbn; by rewrite length_zset. Qed.

(** What an update of a seen interface does. *)
Lemma TxPacer_Update_seen self i adv d :
  pacer_shape self → 0 ≤ i < 16 → (seen self).[i] = true → 0 ≤ (credit self).[i] ≤ adv → adv + adv / 8 < 4294967296 →
  let c := aimd_step adv (credit self).[i] (last_tx_dropped self).[i] d in
  TxPacer_Update self i adv d = (c, TxPacer_set self i c d).
Proof.
  intros Hsh Hi Hseen Hc Hov. unfold TxPacer_Update, aimd_step. change (Z.of_nat 16) with 16. rewrite Hseen. cbn [negb].
  replace (i >=? 16) with false by (symmetry; rewrite Z.geb_leb; apply Z.leb_gt; lia). rewrite Z.gtb_ltb.
  set (cr := (credit self).[i]) in *.
  assert (0 ≤ adv / 8) by (apply Z.div_pos; lia). assert (0 ≤ cr * 4 / 5 ≤ cr) by (Z.to_euclidean_division_equations; lia).
  rewrite (u64_id (cr * 4)), (u32_id (cr * 4 / 5)), (u32_id (cr + adv / 8)) by lia.
  destruct ((last_tx_dropped self).[i] <? d); case_tests; rewrite ?Z.max_l, ?Z.max_r, ?Z.min_l, ?Z.min_r by lia; done.
Qed.

Lemma pacer_set_cells self i c d :
  pacer_shape self → 0 ≤ i < 16 →
  (seen (TxPacer_set self i c d)).[i] = true ∧ (credit (TxPacer_set self i c d)).[i] = c ∧
  (last_tx_dropped (TxPacer_set self i c d)).[i] = d.
Proof. intros [Hc Hd Hs] Hi. cbn. rewrite !zget_zset_eq by (unfold zlen; lia). done. Qed.

Lemma pacer_set_others self i j c d :
  0 ≤ i → 0 ≤ j → i ≠ j →
  (seen (TxPacer_set self i c d)).[j] = (seen self).[j] ∧ (credit (TxPacer_set self i c d)).[j] = (credit self).[j] ∧
  (last_tx_dropped (TxPacer_set self i c d)).[j] = (last_tx_dropped self).[j].
Proof. intros. cbn. rewrite !zget_zset_ne by done. done. Qed.

Lemma pacer_run_seen i adv drops : ∀ self,
  pacer_shape self → 0 ≤ i < 16 → (seen self).[i] = true → adv / 16 ≤ (credit self).[i] ≤ adv → 0 ≤ adv → adv + adv / 8 < 4294967296 →
  let '(out, self') := pacer_run self i adv drops in
  out = aimd adv (credit self).[i] (last_tx_dropped self).[i] drops ∧
  ∀ j, 0 ≤ j → j ≠ i → (seen self').[j] = (seen self).[j] ∧ (credit self').[j] = (credit self).[j] ∧
    (last_tx_dropped self').[j] = (last_tx_dropped self).[j].
Proof.
  induction drops as [|d drops IH]; intros self Hsh Hi Hseen Hc Ha Hov; cbn [pacer_run aimd]; [done|].
  assert (0 ≤ adv / 16) by (apply Z.div_pos; lia).
  rewrite TxPacer_Update_seen by (done || lia). set (c := aimd_step _ _ _ _).
  pose proof (aimd_step_range adv (credit self).[i] (last_tx_dropped self).[i] d Ha Hc) as Hr. fold c in Hr.
  destruct (pacer_set_cells self i c d Hsh Hi) as (Hs1 & Hc1 & Hd1).
  specialize (IH (TxPacer_set self i c d) (pacer_shape_set _ _ _ _ Hsh) Hi Hs1). rewrite Hc1, Hd1 in IH. specialize (IH Hr Ha Hov).
  destruct (pacer_run (TxPacer_set self i c d) i adv drops) as [out self']. destruct IH as [-> Hoth]. split; [done|].
  intros j Hj Hne. destruct (Hoth j Hj Hne) as (-> & -> & ->). apply pacer_set_others; lia.
Qed.

(** The agent's transmit credit is the AIMD rule it documents. Over any
    sequence of status windows of an interface not seen before, the first credit
    is the advertised rate and the later ones are those of the exact-arithmetic
    rule (four fifths on new drops with the floor of a sixteenth, plus an eighth
    up to the advertised rate otherwise): no 32-bit wrap shows, every credit lies
    between the floor and the advertised rate, no other interface is touched, and
    sixteen quiet windows in a row always bring the credit back to the advertised
    rate. *)
Theorem tx_pacer_aimd (self : TxPacer) (i adv d0 : Z) (drops : list Z) :
  pacer_shape self → 0 ≤ i < 16 → (seen self).[i] = false → 8 ≤ adv → adv + adv / 8 < 4294967296 →
  let '(out, self') := pacer_run self i adv (d0 :: drops) in
  out = adv :: aimd adv adv d0 drops ∧
  Forall (λ r, adv / 16 ≤ r ≤ adv) out ∧
  (∀ j, 0 ≤ j → j ≠ i → (seen self').[j] = (seen self).[j] ∧ (credit self').[j] = (credit self).[j] ∧
    (last_tx_dropped self').[j] = (last_tx_dropped self).[j]) ∧
  (∀ pre dn, drops = pre ++ dn :: replicate 16 dn → last out = Some adv).
Proof.
  intros Hsh Hi Hseen Ha Hov. cbn [pacer_run].
  assert (TxPacer_Update self i adv d0 = (adv, TxPacer_set self i adv d0)) as ->.
  { unfold TxPacer_Update. rewrite Hseen. by case_tests; try lia. }
  assert (adv / 16 ≤ adv ≤ adv) as Hr by (Z.to_euclidean_division_equations; lia).
  destruct (pacer_set_cells self i adv d0 Hsh Hi) as (Hs1 & Hc1 & Hd1).
  pose proof (pacer_run_seen i adv drops (TxPacer_set self i adv d0) (pacer_shape_set _ _ _ _ Hsh) Hi Hs1) as Hrun.
  rewrite Hc1, Hd1 in Hrun. specialize (Hrun Hr ltac:(lia) Hov).
  destruct (pacer_run (TxPacer_set self i adv d0) i adv drops) as [out self']. destruct Hrun as [-> Hoth].
  split_and!; [done|apply Forall_cons_2; [done|apply aimd_range; lia]| |].
  - intros j Hj Hne. destruct (Hoth j Hj Hne) as (-> & -> & ->). apply pacer_set_others; lia.
  - intros pre dn ->. by rewrite last_cons, aimd_recovers.
Qed.

Lemma tx_pacer_aimd_witness :
  (pacer_run TxPacer_Reset 2 1600 [5; 9; 9; 9]).1 = [1600; 1280; 1480; 1600].
Proof.
  pose proof (tx_pacer_aimd TxPacer_Reset 2 1600 5 [9; 9; 9]) as H.
  destruct (pacer_run TxPacer_Reset 2 1600 [5; 9; 9; 9]) as [out s].
  destruct H as (-> & _); [done|lia|done|lia|vm_compute; done|]. vm_compute. done.
Defined.
