(* ===== verification/ChannelMap.v ===== *)
(** * The agent's channel map (src/agent/domain/channel_map.c)

    The channel the hub assigned to each registered interface, in registration
    order, taken from the REGISTER_ACK. *)

From S2P Require Import Prelude Wire Codec RegisterMessage.

Record ChannelMap := {
  interface_count : Z;
  channels : list Z;
}.

Definition ChannelMap_Reset : ChannelMap := {| interface_count := 0; channels := replicate REGISTER_INTERFACES_MAX 0 |}.

Definition ChannelMap_AssignFromAck (self : ChannelMap) (ack : RegisterAckMessage) (registered_count : Z) : bool * ChannelMap :=
  if negb (ack_status ack =? REGISTER_STATUS_OK) || negb (ack_interface_count ack =? registered_count) then (false, self)
  else if ack_interface_count ack >? Z.of_nat REGISTER_INTERFACES_MAX then (false, self)
  else
    (true, {| interface_count := ack_interface_count ack;
              channels := copy_at 0 (take (Z.to_nat (ack_interface_count ack)) (ack_channels ack)) (channels self) |}).

Definition ChannelMap_ChannelForInterface (self : ChannelMap) (interface_index : Z) : option Z :=
  if interface_index >=? interface_count self then None else Some (channels self).[interface_index].

(** [for (i = 0; i < interface_count; i++) if (channels[i] == channel) return i;] *)
Fixpoint interface_loop (self : ChannelMap) (channel i : Z) (fuel : nat) : option Z :=
  match fuel with
  | O => None
  | S fuel' => if (channels self).[i] =? channel then Some i else interface_loop self channel (i + 1) fuel'
  end.

Definition ChannelMap_InterfaceForChannel (self : ChannelMap) (channel : Z) : option Z :=
  interface_loop self channel 0 (Z.to_nat (interface_count self)).

(** The channels in force. *)
Definition assigned (self : ChannelMap) : list Z := take (Z.to_nat (interface_count self)) (channels self).

Definition map_shape (self : ChannelMap) : Prop := length (channels self) = 16%nat ∧ 0 ≤ interface_count self ≤ 16.

Lemma interface_loop_spec self channel fuel : ∀ i, 0 ≤ i →
  match interface_loop self channel i fuel with
  | Some k => i ≤ k < i + Z.of_nat fuel ∧ (channels self).[k] = channel ∧ ∀ j, i ≤ j < k → (channels self).[j] ≠ channel
  | None => ∀ j, i ≤ j < i + Z.of_nat fuel → (channels self).[j] ≠ channel
  end.
Proof.
  induction fuel as [|fuel IH]; intros i Hi; cbn [interface_loop]; [intros; lia|].
  destruct (Z.eqb_spec (channels self).[i] channel) as [Heq|Hne].
  { split_and!; [lia|lia|done|intros; lia]. }
  specialize (IH (i + 1) ltac:(lia)). destruct (interface_loop self channel (i + 1) fuel) as [k|].
  - destruct IH as (Hk & Hc & Hlt). split_and!; [lia|lia|done|]. intros j Hj. destruct (decide (j = i)) as [->|]; [done|]. apply Hlt. lia.
  - intros j Hj. destruct (decide (j = i)) as [->|]; [done|]. apply IH. lia.
Qed.

Lemma assigned_lookup self i : map_shape self → 0 ≤ i < interface_count self → assigned self !! Z.to_nat i = Some (channels self).[i].
Proof. intros [Hl Hc] Hi. unfold assigned. rewrite lookup_take_lt by lia. apply zget_lookup. unfold zlen. lia. Qed.

(** The agent's channel map follows the hub's ack. It is replaced only by
    an OK ack for exactly the interfaces the agent registered, and then holds the
    ack's channels in registration order; every other ack leaves it as it was.
    When the acked channels are distinct the two lookups are inverse: a frame the
    agent tags with the channel of an interface comes back to that interface, and
    a channel that was not assigned reaches no interface. *)
Theorem channel_map_follows_ack (self : ChannelMap) (ack : RegisterAckMessage) (n : Z) :
  map_shape self → 0 ≤ ack_interface_count ack → length (ack_channels ack) = 16%nat →
  let '(ok, self') := ChannelMap_AssignFromAck self ack n in
  (ok = false → self' = self) ∧
  (ok = true ↔ ack_status ack = REGISTER_STATUS_OK ∧ ack_interface_count ack = n ∧ n ≤ 16) ∧
  (ok = true → map_shape self' ∧ assigned self' = take (Z.to_nat n) (ack_channels ack)) ∧
  (ok = true → NoDup (take (Z.to_nat n) (ack_channels ack)) →
    (∀ i c, 0 ≤ i → (ChannelMap_ChannelForInterface self' i = Some c ↔ ChannelMap_InterfaceForChannel self' c = Some i)) ∧
    (∀ c, c ∉ take (Z.to_nat n) (ack_channels ack) → ChannelMap_InterfaceForChannel self' c = None)).
Proof.
  intros [Hl Hc] Hn Ha. unfold ChannelMap_AssignFromAck. change (Z.of_nat 16) with 16.
  destruct (negb (ack_status ack =? REGISTER_STATUS_OK) || negb (ack_interface_count ack =? n)) eqn:Hbad.
  { bool_to_prop. split_and!; [done| |done|done]. split; [done|]. intros (Hs & Hi & _). destruct Hbad; bool_to_prop; done. }
  bool_to_prop. destruct (ack_interface_count ack >? 16) eqn:Hbig; bool_to_prop.
  { split_and!; [done| |done|done]. split; [done|]. lia. }
  set (s' := {| interface_count := _; channels := _ |}).
  assert (map_shape s') as Hsh by (split; cbn; [by rewrite length_copy_at|lia]).
  assert (assigned s' = take (Z.to_nat n) (ack_channels ack)) as Has.
  { pose proof (slice_copy_eq 0 (Z.to_nat n) (take (Z.to_nat n) (ack_channels ack)) (channels self)) as Hsl.
    unfold slice in Hsl. rewrite drop_0 in Hsl. unfold assigned, s'. cbn. replace (ack_interface_count ack) with n.
    apply Hsl; [rewrite length_take|]; lia. }
  split_and!; [done|split; [intros _; split_and!; [done|done|lia]|done]|done|].
  clearbody s'. intros _ Hnd. rewrite <- Has in Hnd |- *.
  assert (∀ c, match ChannelMap_InterfaceForChannel s' c with
    | Some k => 0 ≤ k < interface_count s' ∧ (channels s').[k] = c
    | None => ∀ j, 0 ≤ j < interface_count s' → (channels s').[j] ≠ c end) as Hfind.
  { intros c. pose proof (interface_loop_spec s' c (Z.to_nat (interface_count s')) 0 ltac:(lia)) as Hlp.
    rewrite Z2Nat.id in Hlp by (destruct Hsh; lia). unfold ChannelMap_InterfaceForChannel.
    destruct (interface_loop _ _ _ _); [destruct Hlp as (? & ? & _); split; [lia|done]|]. intros; apply Hlp; lia. }
  split.
  - intros i c Hi. specialize (Hfind c). unfold ChannelMap_ChannelForInterface. split.
    + destruct (i >=? interface_count s') eqn:Hge; bool_to_prop; [done|]. intros [= Hic].
      destruct (ChannelMap_InterfaceForChannel s' c) as [k|]; [|by destruct (Hfind i)].
      destruct Hfind as [Hk Hkc]. f_equal. pose proof (assigned_lookup s' i Hsh ltac:(lia)) as E1.
      pose proof (assigned_lookup s' k Hsh Hk) as E2. rewrite Hic in E1. rewrite Hkc in E2.
      pose proof (NoDup_lookup _ _ _ _ Hnd E1 E2). lia.
    + intros Heq. rewrite Heq in Hfind. destruct Hfind as [Hk Hkc]. case_tests; [lia|]. by f_equal.
  - intros c Hni. specialize (Hfind c). destruct (ChannelMap_InterfaceForChannel s' c) as [k|]; [|done].
    destruct Hfind as [Hk Hkc]. destruct Hni. eapply list_elem_of_lookup_2. rewrite <- Hkc. by apply assigned_lookup.
Qed.

Lemma channel_map_follows_ack_witness :
  let ack := {| ack_status := 0; ack_interface_count := 2; ack_channels := [4; 9] ++ replicate 14 0 |} in
  let s := (ChannelMap_AssignFromAck ChannelMap_Reset ack 2).2 in
  ChannelMap_InterfaceForChannel s 9 = Some 1 ∧ ChannelMap_InterfaceForChannel s 5 = None.
Proof.
  intros ack s. pose proof (channel_map_follows_ack ChannelMap_Reset ack 2) as H. subst s.
  destruct (ChannelMap_AssignFromAck ChannelMap_Reset ack 2) as [ok s] eqn:E.
  destruct H as (_ & _ & _ & H); [done|done|done|]. assert (ok = true) as Hok by (injection E; done).
  destruct (H Hok) as [H1 H2]; [vm_compute; repeat constructor; set_solver|]. injection E as _ <-.
  split; [apply H1; [lia|done]|apply H2; vm_compute; set_solver].
Defined.
