(* ===== verification/EchoCorrelator.v ===== *)
(** * The agent's echo correlator (src/agent/domain/echo_correlator.c)

    Pairs injected frames with their echo from the bus: per interface a circular
    buffer of the last 32 injections, oldest first, each the hub's origin token
    and the CAN identifier. *)

From S2P Require Import Prelude Rings RegisterMessage.

Notation ECHO_CORRELATOR_PENDING_MAX := 32 (only parsing).
Notation INTERFACES_MAX := (Z.of_nat REGISTER_INTERFACES_MAX) (only parsing).

Record EchoCorrelator := {
  tokens : list (list Z);
  can_ids : list (list Z);
  head : list Z;
  count : list Z;
}.

Definition EchoCorrelator_Reset : EchoCorrelator :=
  {| tokens := replicate REGISTER_INTERFACES_MAX (replicate 32 0); can_ids := replicate REGISTER_INTERFACES_MAX (replicate 32 0);
     head := replicate REGISTER_INTERFACES_MAX 0; count := replicate REGISTER_INTERFACES_MAX 0 |}.

Definition slotAt (self : EchoCorrelator) (interface_index position : Z) : Z :=
  u8 (((head self).[interface_index] + position) mod ECHO_CORRELATOR_PENDING_MAX).

Definition dropOldest (self : EchoCorrelator) (interface_index : Z) : EchoCorrelator :=
  {| tokens := tokens self; can_ids := can_ids self;
     head := (head self).[interface_index := u8 (((head self).[interface_index] + 1) mod ECHO_CORRELATOR_PENDING_MAX)];
     count := (count self).[interface_index := u8 ((count self).[interface_index] - 1)] |}.

Definition EchoCorrelator_Push (self : EchoCorrelator) (interface_index token can_id : Z) : EchoCorrelator :=
  if interface_index >=? INTERFACES_MAX then self
  else
    let self := if (count self).[interface_index] =? ECHO_CORRELATOR_PENDING_MAX then dropOldest self interface_index else self in
    let slot := slotAt self interface_index (count self).[interface_index] in
    {| tokens := (tokens self).[interface_index := (tokens self).[interface_index].[slot := token]];
       can_ids := (can_ids self).[interface_index := (can_ids self).[interface_index].[slot := can_id]];
       head := head self;
       count := (count self).[interface_index := u8 ((count self).[interface_index] + 1)] |}.

Definition EchoCorrelator_DropNewest (self : EchoCorrelator) (interface_index : Z) : EchoCorrelator :=
  if (interface_index >=? INTERFACES_MAX) || ((count self).[interface_index] =? 0) then self
  else {| tokens := tokens self; can_ids := can_ids self; head := head self;
          count := (count self).[interface_index := u8 ((count self).[interface_index] - 1)] |}.

(** The scan of [EchoCorrelator_PopMatch] from [position]; it runs at most [count] times. *)
Fixpoint match_loop (self : EchoCorrelator) (interface_index can_id position : Z) (fuel : nat) : option Z * EchoCorrelator :=
  match fuel with
  | O => (None, self)
  | S fuel' =>
      let slot := slotAt self interface_index position in
      if negb ((can_ids self).[interface_index].[slot] =? can_id) then match_loop self interface_index can_id (position + 1) fuel'
      else
        (Some (tokens self).[interface_index].[slot],
         {| tokens := tokens self; can_ids := can_ids self;
            head := (head self).[interface_index := u8 ((slot + 1) mod ECHO_CORRELATOR_PENDING_MAX)];
            count := (count self).[interface_index := u8 ((count self).[interface_index] - (position + 1))] |})
  end.

Definition EchoCorrelator_PopMatch (self : EchoCorrelator) (interface_index can_id : Z) : option Z * EchoCorrelator :=
  if interface_index >=? INTERFACES_MAX then (None, self)
  else match_loop self interface_index can_id 0 (Z.to_nat (count self).[interface_index]).

(** ** The specification: a bounded queue of (token, identifier) per interface *)

Definition injection : Type := Z * Z.

Definition spec_push (q : list injection) (x : injection) : list injection :=
  (if decide (length q = 32%nat) then tail q else q) ++ [x].

Definition spec_drop_newest (q : list injection) : list injection := take (length q - 1) q.

Fixpoint spec_pop_match (q : list injection) (can_id : Z) : option (Z * list injection) :=
  match q with
  | [] => None
  | (t, id) :: q' => if id =? can_id then Some (t, q') else spec_pop_match q' can_id
  end.

Inductive echo_op := OpPush (i token can_id : Z) | OpDropNewest (i : Z) | OpPopMatch (i can_id : Z).

Definition op_interface (op : echo_op) : Z := match op with OpPush i _ _ | OpDropNewest i | OpPopMatch i _ => i end.

Definition run_op (s : EchoCorrelator) (op : echo_op) : option Z * EchoCorrelator :=
  match op with
  | OpPush i t id => (None, EchoCorrelator_Push s i t id)
  | OpDropNewest i => (None, EchoCorrelator_DropNewest s i)
  | OpPopMatch i id => EchoCorrelator_PopMatch s i id
  end.

(** The specification's step on the queue of the operation's interface. *)
Definition spec_queue_op (q : list injection) (op : echo_op) : option Z * list injection :=
  match op with
  | OpPush _ t id => (None, spec_push q (t, id))
  | OpDropNewest _ => (None, spec_drop_newest q)
  | OpPopMatch _ id => match spec_pop_match q id with Some (t, q') => (Some t, q') | None => (None, q) end
  end.

Definition spec_op (qs : list (list injection)) (op : echo_op) : option Z * list (list injection) :=
  let i := op_interface op in
  if INTERFACES_MAX <=? i then (None, qs) else let '(r, q) := spec_queue_op qs.[i] op in (r, qs.[i := q]).

Fixpoint run_ops (s : EchoCorrelator) (ops : list echo_op) : list (option Z) :=
  match ops with [] => [] | op :: ops' => let '(r, s) := run_op s op in r :: run_ops s ops' end.

Fixpoint spec_ops (qs : list (list injection)) (ops : list echo_op) : list (option Z) :=
  match ops with [] => [] | op :: ops' => let '(r, qs) := spec_op qs op in r :: spec_ops qs ops' end.

(** ** The representation of one interface's queue *)

(** What the circular buffers of interface [i] hold, oldest first. *)
Definition pending (ts ids : list Z) (h c : Z) : list injection :=
  zip (ring_list ts h (Z.to_nat c)) (ring_list ids h (Z.to_nat c)).

Record lane_rep (ts ids : list Z) (h c : Z) (q : list injection) : Prop := {
  lane_sizes : length ts = 32%nat ∧ length ids = 32%nat;
  lane_ranges : 0 ≤ h < 32 ∧ 0 ≤ c ≤ 32;
  lane_pending : pending ts ids h c = q;
}.

Record echo_rep (s : EchoCorrelator) (qs : list (list injection)) : Prop := {
  echo_sizes : length (tokens s) = 16%nat ∧ length (can_ids s) = 16%nat ∧ length (head s) = 16%nat ∧ length (count s) = 16%nat;
  echo_qs : length qs = 16%nat;
  echo_lanes : ∀ i, 0 ≤ i < 16 → lane_rep (tokens s).[i] (can_ids s).[i] (head s).[i] (count s).[i] qs.[i];
}.

Lemma pending_length ts ids h c : 0 ≤ c → zlen (pending ts ids h c) = c.
Proof. intros Hc. unfold zlen, pending. rewrite length_zip_with, !ring_list_length. lia. Qed.

Lemma lane_length ts ids h c q : lane_rep ts ids h c q → zlen q = c.
Proof. intros [_ Hr <-]. apply pending_length. lia. Qed.

Lemma pending_drop ts ids h c k :
  length ts = 32%nat → length ids = 32%nat → 0 ≤ k ≤ c →
  drop (Z.to_nat k) (pending ts ids h c) = pending ts ids ((h + k) mod 32) (c - k).
Proof.
  intros Ht Hi Hk. unfold pending. rewrite zip_with_drop, !ring_list_drop by (unfold zlen; lia).
  unfold zlen. rewrite Ht, Hi, Z2Nat.id by lia. change (Z.of_nat 32) with 32. by replace (Z.to_nat c - Z.to_nat k)%nat with (Z.to_nat (c - k)) by lia.
Qed.

Lemma pending_take ts ids h c k : 0 ≤ k ≤ c → take (Z.to_nat k) (pending ts ids h c) = pending ts ids h k.
Proof. intros Hk. unfold pending. by rewrite zip_with_take, !ring_list_take by lia. Qed.

Lemma pending_push ts ids h c t id :
  length ts = 32%nat → length ids = 32%nat → 0 ≤ c < 32 →
  pending ts.[(h + c) mod 32 := t] ids.[(h + c) mod 32 := id] h (c + 1) = pending ts ids h c ++ [(t, id)].
Proof.
  intros Ht Hi Hc. unfold pending. replace (Z.to_nat (c + 1)) with (S (Z.to_nat c)) by lia.
  pose proof (ring_list_push ts h (Z.to_nat c) t) as Ep. pose proof (ring_list_push ids h (Z.to_nat c) id) as Ei.
  unfold zlen in Ep, Ei. rewrite Ht in Ep. rewrite Hi in Ei. rewrite Z2Nat.id in Ep, Ei by lia.
  change (Z.of_nat 32) with 32 in Ep, Ei. rewrite Ep, Ei by lia. rewrite zip_with_app; [done|]. by rewrite !ring_list_length.
Qed.

(** The entry at a position is the one the slot arithmetic reads. *)
Lemma pending_lookup ts ids h c p :
  length ts = 32%nat → length ids = 32%nat → 0 ≤ p < c →
  drop (Z.to_nat p) (pending ts ids h c) =
    (ts.[(h + p) mod 32], ids.[(h + p) mod 32]) :: drop (Z.to_nat (p + 1)) (pending ts ids h c).
Proof.
  intros Ht Hi Hp. replace (Z.to_nat (p + 1)) with (S (Z.to_nat p)) by lia. apply drop_S. unfold pending.
  rewrite lookup_zip_with, !ring_list_lookup by lia. unfold zlen. rewrite Ht, Hi, Z2Nat.id by lia. done.
Qed.

Lemma u8_slot x : u8 (x mod 32) = x mod 32.
Proof. pose proof (Z.mod_pos_bound x 32). apply u8_id. lia. Qed.

(** ** Operations on one interface *)

Lemma echo_rep_update s s' qs i ts ids h c q :
  echo_rep s qs → 0 ≤ i < 16 → lane_rep ts ids h c q →
  tokens s' = (tokens s).[i := ts] → can_ids s' = (can_ids s).[i := ids] → head s' = (head s).[i := h] →
  count s' = (count s).[i := c] → echo_rep s' qs.[i := q].
Proof.
  intros [(H1 & H2 & H3 & H4) Hq Hl] Hi Hlane Et Ei Eh Ec. split; [rewrite Et, Ei, Eh, Ec; by rewrite !length_zset|by rewrite length_zset|].
  intros j Hj. rewrite Et, Ei, Eh, Ec. destruct (decide (i = j)) as [->|Hne].
  - rewrite !zget_zset_eq by (unfold zlen; lia). done.
  - rewrite !zget_zset_ne by lia. by apply Hl.
Qed.

Lemma lane_drop_oldest ts ids h c q :
  lane_rep ts ids h c q → 1 ≤ c → lane_rep ts ids ((h + 1) mod 32) (c - 1) (tail q).
Proof.
  intros [[Ht Hi] Hr Hp] Hc. split; [done|pose proof (Z.mod_pos_bound (h + 1) 32); lia|].
  rewrite <- Hp, <- (pending_drop ts ids h c 1) by (done || lia). by destruct (pending ts ids h c).
Qed.

Lemma lane_push ts ids h c q t id :
  lane_rep ts ids h c q → c < 32 → lane_rep ts.[(h + c) mod 32 := t] ids.[(h + c) mod 32 := id] h (c + 1) (q ++ [(t, id)]).
Proof. intros [[Ht Hi] Hr Hp] Hc. split; [by rewrite !length_zset|lia|]. rewrite <- Hp. apply pending_push; lia. Qed.

Lemma echo_push s qs i t id :
  echo_rep s qs → 0 ≤ i < 16 → echo_rep (EchoCorrelator_Push s i t id) qs.[i := spec_push qs.[i] (t, id)].
Proof.
  intros R Hi. pose proof R as [(H1 & H2 & H3 & H4) Hq Hl]. pose proof (Hl i Hi) as L. pose proof (lane_length _ _ _ _ _ L) as Hlen.
  pose proof L as [_ Hr _]. unfold EchoCorrelator_Push, spec_push, slotAt. change (Z.of_nat 16) with 16.
  replace (i >=? 16) with false by (symmetry; rewrite Z.geb_leb; apply Z.leb_gt; lia). unfold zlen in Hlen.
  destruct (Z.eqb_spec (count s).[i] 32) as [Hfull|Hroom].
  - rewrite decide_True by lia. unfold dropOldest. cbn [head tokens can_ids count]. rewrite !zget_zset_eq by (unfold zlen; lia).
    rewrite Hfull, !u8_slot, (u8_id (32 - 1)), (u8_id (_ + 1)) by lia.
    eapply (echo_rep_update s); [done|done| |done|done|done|apply zset_zset].
    apply lane_push; [|lia]. rewrite Hfull in L. apply lane_drop_oldest; [done|lia].
  - rewrite decide_False by lia. rewrite !u8_slot, (u8_id (_ + 1)) by lia.
    eapply (echo_rep_update s); [done|done| |done|done|cbn; symmetry; apply zset_self; unfold zlen; lia|done].
    apply lane_push; [done|lia].
Qed.

Lemma echo_drop_newest s qs i :
  echo_rep s qs → 0 ≤ i < 16 → echo_rep (EchoCorrelator_DropNewest s i) qs.[i := spec_drop_newest qs.[i]].
Proof.
  intros R Hi. pose proof R as [(H1 & H2 & H3 & H4) Hq Hl]. pose proof (Hl i Hi) as L. pose proof (lane_length _ _ _ _ _ L) as Hlen.
  pose proof L as [Hsz Hr Hp]. unfold EchoCorrelator_DropNewest, spec_drop_newest. change (Z.of_nat 16) with 16. unfold zlen in Hlen.
  replace (i >=? 16) with false by (symmetry; rewrite Z.geb_leb; apply Z.leb_gt; lia). cbn [orb].
  destruct (Z.eqb_spec (count s).[i] 0) as [H0|Hpos].
  - rewrite take_ge by lia. rewrite zset_self by (unfold zlen; lia). done.
  - eapply (echo_rep_update s _ _ _ (tokens s).[i] (can_ids s).[i] (head s).[i] ((count s).[i] - 1)); [done|done| | | | |]; cbn;
      [|symmetry; apply zset_self; unfold zlen; lia..|by rewrite u8_id by lia].
    split; [done|lia|]. rewrite <- (pending_take _ _ _ (count s).[i]), Hp by lia. f_equal. lia.
Qed.

(** The scan from a position finds the oldest match left. *)
Lemma match_loop_spec s qs i id fuel : ∀ p,
  echo_rep s qs → 0 ≤ i < 16 → 0 ≤ p → (count s).[i] = p + Z.of_nat fuel →
  let '(r, s') := match_loop s i id p fuel in
  match spec_pop_match (drop (Z.to_nat p) qs.[i]) id with
  | Some (t, q') => r = Some t ∧ echo_rep s' qs.[i := q']
  | None => r = None ∧ s' = s
  end.
Proof.
  induction fuel as [|fuel IH]; intros p R Hi Hp Hc; pose proof R as [(H1 & H2 & H3 & H4) Hq Hl]; pose proof (Hl i Hi) as L;
    pose proof (lane_length _ _ _ _ _ L) as Hlen; pose proof L as [[Ht Hd] Hr Hpd]; cbn [match_loop].
  { rewrite drop_ge by (unfold zlen in Hlen; lia). done. }
  rewrite <- Hpd, pending_lookup by lia. unfold slotAt. rewrite u8_slot. cbn [spec_pop_match].
  destruct (Z.eqb_spec ((can_ids s).[i]).[((head s).[i] + p) mod 32] id) as [Hm|Hm]; cbn [negb].
  - split; [done|]. rewrite Hpd. eapply (echo_rep_update s); [done|done| | | | |]; cbn;
      [|symmetry; apply zset_self; unfold zlen; lia..|by rewrite u8_slot|by rewrite u8_id by lia].
    rewrite Zplus_mod_idemp_l. split; [done|pose proof (Z.mod_pos_bound ((head s).[i] + p + 1) 32); lia|].
    rewrite <- Hpd, pending_drop by (done || lia). by rewrite Z.add_assoc.
  - rewrite Hpd. apply IH; [done|done|lia|lia].
Qed.

Lemma echo_pop_match s qs i id :
  echo_rep s qs → 0 ≤ i < 16 →
  let '(r, s') := EchoCorrelator_PopMatch s i id in
  match spec_pop_match qs.[i] id with
  | Some (t, q') => r = Some t ∧ echo_rep s' qs.[i := q']
  | None => r = None ∧ s' = s
  end.
Proof.
  intros R Hi. pose proof (echo_lanes _ _ R i Hi) as [_ Hr _]. unfold EchoCorrelator_PopMatch. change (Z.of_nat 16) with 16.
  replace (i >=? 16) with false by (symmetry; rewrite Z.geb_leb; apply Z.leb_gt; lia).
  apply (match_loop_spec s qs i id _ 0); [done|done|lia|lia].
Qed.

(** ** Refinement *)

Lemma echo_rep_reset : echo_rep EchoCorrelator_Reset (replicate 16 []).
Proof.
  split; [done|done|]. intros i Hi. cbn [EchoCorrelator_Reset tokens can_ids head count]. rewrite !zget_replicate by lia. by split; [|lia|].
Qed.

Lemma run_op_refines s qs op :
  echo_rep s qs → 0 ≤ op_interface op →
  (run_op s op).1 = (spec_op qs op).1 ∧ echo_rep (run_op s op).2 (spec_op qs op).2.
Proof.
  intros R Hi. unfold spec_op. change (Z.of_nat 16) with 16. destruct (Z.leb_spec 16 (op_interface op)) as [Hbig|Hok].
  - assert (op_interface op >=? 16 = true) as Hg by (rewrite Z.geb_leb; by apply Z.leb_le).
    destruct op; cbn in *; unfold EchoCorrelator_Push, EchoCorrelator_DropNewest, EchoCorrelator_PopMatch;
      change (Z.of_nat 16) with 16; by rewrite Hg.
  - destruct op as [i t id|i|i id]; cbn in *.
    + split; [done|]. by apply echo_push.
    + split; [done|]. by apply echo_drop_newest.
    + pose proof (echo_pop_match s qs i id R (conj Hi Hok)) as Hp. destruct (EchoCorrelator_PopMatch s i id) as [r s'].
      destruct (spec_pop_match qs.[i] id) as [[t q']|]; cbn; destruct Hp as [-> Hs]; [done|]. subst s'. split; [done|].
      rewrite zset_self; [done|]. unfold zlen. pose proof (echo_qs _ _ R). lia.
Qed.

(** C35. The agent's echo correlator is sixteen independent bounded queues. For
    any sequence of injections, failed writes and echoes on any interfaces, each
    echo gets the token of the oldest pending injection with its CAN identifier,
    which is removed together with everything older; a failed write takes back
    the injection just queued; the thirty-third pending injection displaces the
    oldest; and an index beyond the interfaces does nothing. *)
Theorem echo_correlator_refines_queues (ops : list echo_op) :
  Forall (λ op, 0 ≤ op_interface op) ops → run_ops EchoCorrelator_Reset ops = spec_ops (replicate 16 []) ops.
Proof.
  intros Hops. pose proof echo_rep_reset as R. revert R. generalize EchoCorrelator_Reset, (replicate 16 ([] : list injection)).
  induction Hops as [|op ops Hop Hops IH]; intros s qs R; cbn [run_ops spec_ops]; [done|].
  destruct (run_op_refines s qs op R Hop) as [Hr Hs]. destruct (run_op s op) as [r s'], (spec_op qs op) as [r' qs'].
  cbn in Hr, Hs. subst r'. f_equal. by apply IH.
Qed.

Lemma echo_correlator_refines_queues_witness :
  run_ops EchoCorrelator_Reset
    [OpPush 3 7 256; OpPush 3 8 257; OpPush 3 9 258; OpDropNewest 3; OpPopMatch 3 257; OpPopMatch 3 256; OpPopMatch 3 258] =
  [None; None; None; None; Some 8; None; None].
Proof. rewrite echo_correlator_refines_queues; [vm_compute; done|]. each_elem ltac:(lia). Defined.
