(* ===== verification/IsotpLink.v ===== *)
(** * ISO 15765-2 at the bus (src/agent/domain/isotp_link.c)

    One conversation with a peer: messages go out as a single frame, or as a
    first frame and consecutive frames paced by the peer's flow control, and the
    peer's messages are reassembled the same way.  Frames only update state; the
    tick carries the time and sends what is due.

    The port's [transmit] is a parameter over a world of any type: the runner
    instantiates it with its own transmission and the time of the last frame. *)

From S2P Require Import Prelude Wire Codec FrameMessage TxnMessage.

Definition ISOTP_TIMEOUT_US : Z := 1000000.
Definition ISOTP_WAIT_FRAMES_MAX : Z := 10.
Notation ISOTP_FRAMES_PER_TICK_MAX := 64%nat (only parsing).
Definition ISOTP_RETRY_US : Z := 1000.
Definition kISOTP_EVENT_NONE : Z := 0.
Definition kISOTP_EVENT_SENT : Z := 1.
Definition kISOTP_EVENT_MESSAGE : Z := 2.
Definition kISOTP_EVENT_FAILED : Z := 3.
Definition kISOTP_SENDER_IDLE : Z := 0.
Definition kISOTP_SENDER_FIRST_FRAME : Z := 1.
Definition kISOTP_SENDER_FLOW_CONTROL : Z := 2.
Definition kISOTP_SENDER_CONSECUTIVE_FRAMES : Z := 3.
Definition kISOTP_RECEIVER_IDLE : Z := 0.
Definition kISOTP_RECEIVER_CONSECUTIVE_FRAMES : Z := 1.
Definition PCI_TYPE_SHIFT : Z := 4.
Definition PCI_LOW_MASK : Z := 15.
Definition PCI_SINGLE_FRAME : Z := 0.
Definition PCI_FIRST_FRAME : Z := 1.
Definition PCI_CONSECUTIVE_FRAME : Z := 2.
Definition PCI_FLOW_CONTROL : Z := 3.
Definition FLOW_STATUS_CONTINUE : Z := 0.
Definition FLOW_STATUS_WAIT : Z := 1.
Definition FLOW_STATUS_OVERFLOW : Z := 2.
Definition CLASSIC_FRAME_SIZE : Z := 8.
Definition SINGLE_FRAME_HEADER_SIZE : Z := 1.
Definition ESCAPE_SINGLE_FRAME_HEADER_SIZE : Z := 2.
Definition FIRST_FRAME_HEADER_SIZE : Z := 2.
Definition FIRST_FRAME_LENGTH_HIGH_SHIFT : Z := 8.
Definition FIRST_FRAME_LENGTH_LOW_MASK : Z := 255.
Definition CONSECUTIVE_FRAME_HEADER_SIZE : Z := 1.
Definition FLOW_CONTROL_SIZE : Z := 3.
Definition SEQUENCE_MASK : Z := 15.
Definition FIRST_SEQUENCE : Z := 1.
Definition ST_MIN_MILLISECONDS_MAX : Z := 127.
Definition ST_MIN_MICROSECONDS_FIRST : Z := 241.
Definition ST_MIN_MICROSECONDS_LAST : Z := 249.
Definition ST_MIN_MICROSECONDS_BASE : Z := 240.
Definition ST_MIN_MICROSECONDS_STEP : Z := 100.
Definition MICROSECONDS_PER_MILLISECOND : Z := 1000.
Definition ADDRESS_BYTE_SIZE : Z := 1.
Definition FD_FRAME_LENGTHS : list Z := [12; 16; 20; 24; 32; 48; 64].

(** [is_message]: the bytes the caller's pointer reaches. *)
Record IsotpSender := {
  is_message : list Z; is_length : Z; is_offset : Z; is_state : Z; is_sequence : Z; is_block_limited : bool; is_block_remaining : Z;
  is_wait_count : Z; is_st_min_us : Z; is_next_frame_us : Z; is_deadline_us : Z;
}.

Record IsotpReceiver := {
  ir_message : list Z; ir_length : Z; ir_received : Z; ir_state : Z; ir_sequence : Z; ir_block_received : Z;
  ir_flow_control_pending : bool; ir_flow_control_due_us : Z; ir_deadline_us : Z;
}.

Record IsotpLink := {
  il_request_id : Z; il_channel : Z; il_parameters : TxnIsotpParameters; il_sender : IsotpSender; il_receiver : IsotpReceiver;
  il_failure_reason : Z;
}.

Definition sender_zero : IsotpSender := {|
  is_message := []; is_length := 0; is_offset := 0; is_state := 0; is_sequence := 0; is_block_limited := false; is_block_remaining := 0;
  is_wait_count := 0; is_st_min_us := 0; is_next_frame_us := 0; is_deadline_us := 0 |}.
Definition receiver_zero : IsotpReceiver := {|
  ir_message := replicate TXN_ISOTP_MESSAGE_SIZE_MAX 0; ir_length := 0; ir_received := 0; ir_state := 0; ir_sequence := 0;
  ir_block_received := 0; ir_flow_control_pending := false; ir_flow_control_due_us := 0; ir_deadline_us := 0 |}.
Definition parameters_zero : TxnIsotpParameters := {|
  ti_response_id := 0; ti_flags := 0; ti_tx_address := 0; ti_rx_address := 0; ti_padding := 0; ti_tx_data_length := 0; ti_block_size := 0;
  ti_st_min := 0 |}.

(** ** Stores to the fields *)

Definition with_sender (l : IsotpLink) (s : IsotpSender) : IsotpLink :=
  {| il_request_id := il_request_id l; il_channel := il_channel l; il_parameters := il_parameters l; il_sender := s;
     il_receiver := il_receiver l; il_failure_reason := il_failure_reason l |}.
Definition with_receiver (l : IsotpLink) (r : IsotpReceiver) : IsotpLink :=
  {| il_request_id := il_request_id l; il_channel := il_channel l; il_parameters := il_parameters l; il_sender := il_sender l;
     il_receiver := r; il_failure_reason := il_failure_reason l |}.
Definition set_is_state (s : IsotpSender) (state : Z) : IsotpSender :=
  {| is_message := is_message s; is_length := is_length s; is_offset := is_offset s; is_state := state; is_sequence := is_sequence s;
     is_block_limited := is_block_limited s; is_block_remaining := is_block_remaining s; is_wait_count := is_wait_count s;
     is_st_min_us := is_st_min_us s; is_next_frame_us := is_next_frame_us s; is_deadline_us := is_deadline_us s |}.
Definition set_is_next_frame_us (s : IsotpSender) (t : Z) : IsotpSender :=
  {| is_message := is_message s; is_length := is_length s; is_offset := is_offset s; is_state := is_state s; is_sequence := is_sequence s;
     is_block_limited := is_block_limited s; is_block_remaining := is_block_remaining s; is_wait_count := is_wait_count s;
     is_st_min_us := is_st_min_us s; is_next_frame_us := t; is_deadline_us := is_deadline_us s |}.
Definition set_is_wait (s : IsotpSender) (wait_count deadline_us : Z) : IsotpSender :=
  {| is_message := is_message s; is_length := is_length s; is_offset := is_offset s; is_state := is_state s; is_sequence := is_sequence s;
     is_block_limited := is_block_limited s; is_block_remaining := is_block_remaining s; is_wait_count := wait_count;
     is_st_min_us := is_st_min_us s; is_next_frame_us := is_next_frame_us s; is_deadline_us := deadline_us |}.
Definition set_is_block (s : IsotpSender) (remaining state : Z) : IsotpSender :=
  {| is_message := is_message s; is_length := is_length s; is_offset := is_offset s; is_state := state; is_sequence := is_sequence s;
     is_block_limited := is_block_limited s; is_block_remaining := remaining; is_wait_count := is_wait_count s;
     is_st_min_us := is_st_min_us s; is_next_frame_us := is_next_frame_us s; is_deadline_us := is_deadline_us s |}.
Definition set_ir_flow (r : IsotpReceiver) (state : Z) (pending : bool) (due_us deadline_us : Z) : IsotpReceiver :=
  {| ir_message := ir_message r; ir_length := ir_length r; ir_received := ir_received r; ir_state := state; ir_sequence := ir_sequence r;
     ir_block_received := ir_block_received r; ir_flow_control_pending := pending; ir_flow_control_due_us := due_us;
     ir_deadline_us := deadline_us |}.

(** ** Frame geometry *)

Definition addressSize (self : IsotpLink) : Z :=
  if has_flag (ti_flags (il_parameters self)) TXN_ISOTP_FLAG_ADDRESS_BYTE then ADDRESS_BYTE_SIZE else 0.

Definition txDataLength (self : IsotpLink) : Z :=
  if has_flag (ti_flags (il_parameters self)) TXN_ISOTP_FLAG_FD then ti_tx_data_length (il_parameters self) else CLASSIC_FRAME_SIZE.

Definition classicSingleFrameCapacity (self : IsotpLink) : Z := u8 (CLASSIC_FRAME_SIZE - addressSize self - SINGLE_FRAME_HEADER_SIZE).

Definition escapeSingleFrameCapacity (self : IsotpLink) : Z :=
  if txDataLength self <=? CLASSIC_FRAME_SIZE then 0 else u8 (txDataLength self - addressSize self - ESCAPE_SINGLE_FRAME_HEADER_SIZE).

Definition firstFrameCapacity (self : IsotpLink) : Z := u8 (txDataLength self - addressSize self - FIRST_FRAME_HEADER_SIZE).

Definition consecutiveFrameCapacity (self : IsotpLink) : Z := u8 (txDataLength self - addressSize self - CONSECUTIVE_FRAME_HEADER_SIZE).

Definition stMinUs (st_min : Z) : Z :=
  if st_min <=? ST_MIN_MILLISECONDS_MAX then u32 (st_min * MICROSECONDS_PER_MILLISECOND)
  else if (st_min >=? ST_MIN_MICROSECONDS_FIRST) && (st_min <=? ST_MIN_MICROSECONDS_LAST)
  then u32 ((st_min - ST_MIN_MICROSECONDS_BASE) * ST_MIN_MICROSECONDS_STEP)
  else u32 (ST_MIN_MILLISECONDS_MAX * MICROSECONDS_PER_MILLISECOND).

Definition earliest (current_us candidate_us : Z) : Z :=
  if candidate_us =? 0 then current_us
  else if (current_us =? 0) || (candidate_us <? current_us) then candidate_us else current_us.

(** The smallest FD frame that holds [size] bytes. *)
Fixpoint fd_length (lengths : list Z) (size : Z) : Z :=
  match lengths with [] => 64 | l :: lengths' => if l >=? size then l else fd_length lengths' size end.

Definition frameLength (self : IsotpLink) (size : Z) : Z :=
  if size <=? CLASSIC_FRAME_SIZE then
    if has_flag (ti_flags (il_parameters self)) TXN_ISOTP_FLAG_PADDING then CLASSIC_FRAME_SIZE else size
  else fd_length FD_FRAME_LENGTHS size.

Definition isFromPeer (self : IsotpLink) (frame : FrameMessage) : bool :=
  if negb (frame_can_id frame =? ti_response_id (il_parameters self)) || (frame_payload_length frame <=? addressSize self) then false
  else if (addressSize self >? 0) && negb (frame_payload frame !!! 0%nat =? ti_rx_address (il_parameters self)) then false
  else Z.land (frame_route_flags frame) FRAME_ROUTE_FLAG_ECHO =? 0.

(** [frame->payload + addressSize(self)] *)
Definition pdu_of (self : IsotpLink) (frame : FrameMessage) : list Z := drop (Z.to_nat (addressSize self)) (frame_payload frame).

Definition fail (self : IsotpLink) (reason : Z) : Z * IsotpLink :=
  (kISOTP_EVENT_FAILED,
   {| il_request_id := il_request_id self; il_channel := il_channel self; il_parameters := il_parameters self;
      il_sender := set_is_state (il_sender self) kISOTP_SENDER_IDLE;
      il_receiver := set_ir_flow (il_receiver self) kISOTP_RECEIVER_IDLE false (ir_flow_control_due_us (il_receiver self))
                       (ir_deadline_us (il_receiver self));
      il_failure_reason := reason |}).

(** ** Opening, sending, and the message received *)

Definition IsotpLink_Init : IsotpLink :=
  {| il_request_id := 0; il_channel := 0; il_parameters := parameters_zero; il_sender := sender_zero; il_receiver := receiver_zero;
     il_failure_reason := 0 |}.

Definition IsotpLink_Open (self : IsotpLink) (request_id channel : Z) (parameters : TxnIsotpParameters) : IsotpLink :=
  {| il_request_id := request_id; il_channel := channel; il_parameters := parameters; il_sender := sender_zero;
     il_receiver := set_ir_flow (il_receiver self) kISOTP_RECEIVER_IDLE false (ir_flow_control_due_us (il_receiver self))
                      (ir_deadline_us (il_receiver self));
     il_failure_reason := kTXN_REASON_NONE |}.

Definition IsotpLink_Send (self : IsotpLink) (message : list Z) (length now_us : Z) : IsotpLink :=
  with_sender self {|
    is_message := message; is_length := length; is_offset := 0; is_state := kISOTP_SENDER_FIRST_FRAME; is_sequence := 0;
    is_block_limited := false; is_block_remaining := 0; is_wait_count := 0; is_st_min_us := 0; is_next_frame_us := now_us;
    is_deadline_us := u64 (now_us + ISOTP_TIMEOUT_US) |}.

Definition IsotpLink_FailureReason (self : IsotpLink) : Z := il_failure_reason self.

Definition IsotpLink_MessageFrame (self : IsotpLink) : FrameMessage :=
  let length := ir_length (il_receiver self) in
  let length := if length >? 64 then 64 else length in
  {| frame_can_id := ti_response_id (il_parameters self); frame_timestamp_us := 0; frame_channel := il_channel self;
     frame_payload_length := u8 length; frame_flags := 0; frame_route_flags := 0;
     frame_payload := copy_at 0 (take (Z.to_nat length) (ir_message (il_receiver self))) (replicate FRAME_PAYLOAD_MAX_FD 0) |}.

Definition IsotpLink_NextWakeUs (self : IsotpLink) : Z :=
  let sender := il_sender self in
  let receiver := il_receiver self in
  let wake_us := 0 in
  let wake_us := if (is_state sender =? kISOTP_SENDER_FIRST_FRAME) || (is_state sender =? kISOTP_SENDER_CONSECUTIVE_FRAMES)
                 then earliest wake_us (is_next_frame_us sender) else wake_us in
  let wake_us := if is_state sender =? kISOTP_SENDER_FLOW_CONTROL then earliest wake_us (is_deadline_us sender) else wake_us in
  if negb (ir_state receiver =? kISOTP_RECEIVER_CONSECUTIVE_FRAMES) then wake_us
  else if ir_flow_control_pending receiver then earliest wake_us (ir_flow_control_due_us receiver)
  else earliest wake_us (ir_deadline_us receiver).

(** ** Transmission *)

Section Transmission.
Context {W : Type} (transmit : FrameMessage → W → bool * W).

(** [data] holds the [size] bytes. The frame is at most 64 bytes for the
    parameters the runner accepts, so the padding's length does not wrap. *)
Definition transmitData (self : IsotpLink) (data : list Z) (w : W) : bool * W :=
  let p := il_parameters self in
  let size := u8 (zlen data) in
  let address_size := addressSize self in
  let length := frameLength self (u8 (address_size + size)) in
  let payload := <[0%nat := ti_tx_address p]> (replicate FRAME_PAYLOAD_MAX_FD 0) in
  let payload := copy_at (Z.to_nat address_size) data payload in
  let payload := copy_at (Z.to_nat (address_size + size)) (replicate (Z.to_nat (length - address_size - size)) (ti_padding p)) payload in
  let flags := if has_flag (ti_flags p) TXN_ISOTP_FLAG_FD then FRAME_FLAG_FD else 0 in
  let flags := if has_flag (ti_flags p) TXN_ISOTP_FLAG_BIT_RATE_SWITCH then Z.lor flags FRAME_FLAG_BRS else flags in
  transmit {| frame_can_id := il_request_id self; frame_timestamp_us := 0; frame_channel := il_channel self; frame_payload_length := length;
              frame_flags := flags; frame_route_flags := 0; frame_payload := payload |} w.

Definition transmitFlowControl (self : IsotpLink) (flow_status : Z) (w : W) : bool * W :=
  transmitData self [u8 (Z.lor (Z.shiftl PCI_FLOW_CONTROL PCI_TYPE_SHIFT) flow_status); ti_block_size (il_parameters self);
                     ti_st_min (il_parameters self)] w.

(** ** Frames from the peer *)

Definition onFlowControl (self : IsotpLink) (frame : FrameMessage) (now_us : Z) : Z * IsotpLink :=
  let sender := il_sender self in
  let pdu := pdu_of self frame in
  let flow_status := Z.land (pdu !!! 0%nat) PCI_LOW_MASK in
  if negb (is_state sender =? kISOTP_SENDER_FLOW_CONTROL) || (frame_payload_length frame <? addressSize self + FLOW_CONTROL_SIZE)
  then (kISOTP_EVENT_NONE, self)
  else if flow_status =? FLOW_STATUS_OVERFLOW then fail self kTXN_REASON_OVERFLOW
  else if flow_status =? FLOW_STATUS_WAIT then
    let sender := set_is_wait sender (u8 (is_wait_count sender + 1)) (is_deadline_us sender) in
    if is_wait_count sender >? ISOTP_WAIT_FRAMES_MAX then fail (with_sender self sender) kTXN_REASON_WAIT_LIMIT
    else (kISOTP_EVENT_NONE, with_sender self (set_is_wait sender (is_wait_count sender) (u64 (now_us + ISOTP_TIMEOUT_US))))
  else if negb (flow_status =? FLOW_STATUS_CONTINUE) then (kISOTP_EVENT_NONE, self)
  else
    (kISOTP_EVENT_NONE,
     with_sender self {|
       is_message := is_message sender; is_length := is_length sender; is_offset := is_offset sender;
       is_state := kISOTP_SENDER_CONSECUTIVE_FRAMES; is_sequence := is_sequence sender;
       is_block_limited := negb (pdu !!! 1%nat =? 0); is_block_remaining := pdu !!! 1%nat; is_wait_count := 0;
       is_st_min_us := stMinUs (pdu !!! 2%nat); is_next_frame_us := now_us; is_deadline_us := u64 (now_us + ISOTP_TIMEOUT_US) |}).

Definition onSingleFrame (self : IsotpLink) (frame : FrameMessage) : Z * IsotpLink :=
  let receiver := il_receiver self in
  let pdu := pdu_of self frame in
  let pdu_size := u8 (frame_payload_length frame - addressSize self) in
  let length := Z.land (pdu !!! 0%nat) PCI_LOW_MASK in
  let escape := (length =? 0) && (frame_payload_length frame >? CLASSIC_FRAME_SIZE) in
  let header_size := if escape then ESCAPE_SINGLE_FRAME_HEADER_SIZE else SINGLE_FRAME_HEADER_SIZE in
  let length := if escape then pdu !!! 1%nat else length in
  if (length =? 0) || (pdu_size <? header_size + length) then (kISOTP_EVENT_NONE, self)
  else
    (kISOTP_EVENT_MESSAGE,
     with_receiver self {|
       ir_message := copy_at 0 (slice (Z.to_nat header_size) (Z.to_nat length) pdu) (ir_message receiver); ir_length := length;
       ir_received := ir_received receiver; ir_state := kISOTP_RECEIVER_IDLE; ir_sequence := ir_sequence receiver;
       ir_block_received := ir_block_received receiver; ir_flow_control_pending := false;
       ir_flow_control_due_us := ir_flow_control_due_us receiver; ir_deadline_us := ir_deadline_us receiver |}).

Definition onFirstFrame (self : IsotpLink) (frame : FrameMessage) (now_us : Z) (w : W) : Z * IsotpLink * W :=
  let receiver := il_receiver self in
  let pdu := pdu_of self frame in
  if frame_payload_length frame <? CLASSIC_FRAME_SIZE then (kISOTP_EVENT_NONE, self, w)
  else
    let data_size := u8 (frame_payload_length frame - addressSize self - FIRST_FRAME_HEADER_SIZE) in
    let high_bits := u16 (Z.shiftl (Z.land (pdu !!! 0%nat) PCI_LOW_MASK) FIRST_FRAME_LENGTH_HIGH_SHIFT) in
    let length := u16 (Z.lor high_bits (pdu !!! 1%nat)) in
    if length =? 0 then let w := (transmitFlowControl self FLOW_STATUS_OVERFLOW w).2 in (fail self kTXN_REASON_OVERFLOW, w)
    else if length <=? data_size then (kISOTP_EVENT_NONE, self, w)
    else
      (kISOTP_EVENT_NONE,
       with_receiver self {|
         ir_message := copy_at 0 (slice 2 (Z.to_nat data_size) pdu) (ir_message receiver); ir_length := length; ir_received := data_size;
         ir_state := kISOTP_RECEIVER_CONSECUTIVE_FRAMES; ir_sequence := FIRST_SEQUENCE; ir_block_received := 0;
         ir_flow_control_pending := true; ir_flow_control_due_us := now_us; ir_deadline_us := ir_deadline_us receiver |}, w).

Definition onConsecutiveFrame (self : IsotpLink) (frame : FrameMessage) (now_us : Z) : Z * IsotpLink :=
  let receiver := il_receiver self in
  let pdu := pdu_of self frame in
  let carried := u8 (frame_payload_length frame - addressSize self - CONSECUTIVE_FRAME_HEADER_SIZE) in
  let remaining := u16 (ir_length receiver - ir_received receiver) in
  let size := if remaining <? carried then u8 remaining else carried in
  if negb (ir_state receiver =? kISOTP_RECEIVER_CONSECUTIVE_FRAMES) || ir_flow_control_pending receiver then (kISOTP_EVENT_NONE, self)
  else if negb (Z.land (pdu !!! 0%nat) PCI_LOW_MASK =? ir_sequence receiver) then fail self kTXN_REASON_SEQUENCE_ERROR
  else if size =? 0 then (kISOTP_EVENT_NONE, self)
  else
    let message := copy_at (Z.to_nat (ir_received receiver)) (slice 1 (Z.to_nat size) pdu) (ir_message receiver) in
    let received := u16 (ir_received receiver + size) in
    let sequence := u8 (Z.land (ir_sequence receiver + 1) SEQUENCE_MASK) in
    if received =? ir_length receiver then
      (kISOTP_EVENT_MESSAGE,
       with_receiver self {|
         ir_message := message; ir_length := ir_length receiver; ir_received := received; ir_state := kISOTP_RECEIVER_IDLE;
         ir_sequence := sequence; ir_block_received := ir_block_received receiver;
         ir_flow_control_pending := ir_flow_control_pending receiver; ir_flow_control_due_us := ir_flow_control_due_us receiver;
         ir_deadline_us := ir_deadline_us receiver |})
    else
      let block_received := u8 (ir_block_received receiver + 1) in
      let block_size := ti_block_size (il_parameters self) in
      let full := negb (block_size =? 0) && (block_received =? block_size) in
      (kISOTP_EVENT_NONE,
       with_receiver self {|
         ir_message := message; ir_length := ir_length receiver; ir_received := received; ir_state := ir_state receiver;
         ir_sequence := sequence; ir_block_received := if full then 0 else block_received;
         ir_flow_control_pending := if full then true else ir_flow_control_pending receiver;
         ir_flow_control_due_us := if full then now_us else ir_flow_control_due_us receiver;
         ir_deadline_us := u64 (now_us + ISOTP_TIMEOUT_US) |}).

Definition IsotpLink_OnFrame (self : IsotpLink) (frame : FrameMessage) (now_us : Z) (w : W) : Z * IsotpLink * W :=
  if negb (isFromPeer self frame) then (kISOTP_EVENT_NONE, self, w)
  else
    let pci_type := Z.shiftr (frame_payload frame !!! Z.to_nat (addressSize self)) PCI_TYPE_SHIFT in
    if pci_type =? PCI_FLOW_CONTROL then (onFlowControl self frame now_us, w)
    else if pci_type =? PCI_SINGLE_FRAME then (onSingleFrame self frame, w)
    else if pci_type =? PCI_FIRST_FRAME then onFirstFrame self frame now_us w
    else if pci_type =? PCI_CONSECUTIVE_FRAME then (onConsecutiveFrame self frame now_us, w)
    else (kISOTP_EVENT_NONE, self, w).

(** ** Ticks *)

Definition retryLater (self : IsotpLink) (now_us : Z) : Z * IsotpLink :=
  if now_us >=? is_deadline_us (il_sender self) then fail self kTXN_REASON_TX_FAILED
  else (kISOTP_EVENT_NONE, with_sender self (set_is_next_frame_us (il_sender self) (u64 (now_us + ISOTP_RETRY_US)))).

Definition sendSingleFrame (self : IsotpLink) (now_us : Z) (w : W) : Z * IsotpLink * W :=
  let sender := il_sender self in
  let body := take (Z.to_nat (is_length sender)) (is_message sender) in
  let data := if is_length sender >? classicSingleFrameCapacity self then [PCI_SINGLE_FRAME; u8 (is_length sender)] ++ body
              else [u8 (is_length sender)] ++ body in
  let '(ok, w) := transmitData self data w in
  if negb ok then (retryLater self now_us, w)
  else (kISOTP_EVENT_SENT, with_sender self (set_is_state sender kISOTP_SENDER_IDLE), w).

Definition sendSegmentedFirstFrame (self : IsotpLink) (now_us : Z) (w : W) : Z * IsotpLink * W :=
  let sender := il_sender self in
  let data_size := firstFrameCapacity self in
  let data := [u8 (Z.lor (Z.shiftl PCI_FIRST_FRAME PCI_TYPE_SHIFT) (Z.shiftr (is_length sender) FIRST_FRAME_LENGTH_HIGH_SHIFT));
               u8 (Z.land (is_length sender) FIRST_FRAME_LENGTH_LOW_MASK)] ++ take (Z.to_nat data_size) (is_message sender) in
  let '(ok, w) := transmitData self data w in
  if negb ok then (retryLater self now_us, w)
  else
    (kISOTP_EVENT_NONE,
     with_sender self {|
       is_message := is_message sender; is_length := is_length sender; is_offset := data_size; is_state := kISOTP_SENDER_FLOW_CONTROL;
       is_sequence := FIRST_SEQUENCE; is_block_limited := is_block_limited sender; is_block_remaining := is_block_remaining sender;
       is_wait_count := is_wait_count sender; is_st_min_us := is_st_min_us sender; is_next_frame_us := is_next_frame_us sender;
       is_deadline_us := u64 (now_us + ISOTP_TIMEOUT_US) |}, w).

Definition sendFirstFrame (self : IsotpLink) (now_us : Z) (w : W) : Z * IsotpLink * W :=
  if (is_length (il_sender self) <=? classicSingleFrameCapacity self) || (is_length (il_sender self) <=? escapeSingleFrameCapacity self)
  then sendSingleFrame self now_us w else sendSegmentedFirstFrame self now_us w.

Definition sendConsecutiveFrame (self : IsotpLink) (now_us : Z) (w : W) : Z * IsotpLink * W :=
  let sender := il_sender self in
  let remaining := u16 (is_length sender - is_offset sender) in
  let capacity := consecutiveFrameCapacity self in
  let size := if remaining <? capacity then u8 remaining else capacity in
  let data := [u8 (Z.lor (Z.shiftl PCI_CONSECUTIVE_FRAME PCI_TYPE_SHIFT) (is_sequence sender))] ++
              slice (Z.to_nat (is_offset sender)) (Z.to_nat size) (is_message sender) in
  let '(ok, w) := transmitData self data w in
  if negb ok then (retryLater self now_us, w)
  else
    let sender := {|
      is_message := is_message sender; is_length := is_length sender; is_offset := u16 (is_offset sender + size); is_state := is_state sender;
      is_sequence := u8 (Z.land (is_sequence sender + 1) SEQUENCE_MASK); is_block_limited := is_block_limited sender;
      is_block_remaining := is_block_remaining sender; is_wait_count := is_wait_count sender; is_st_min_us := is_st_min_us sender;
      is_next_frame_us := u64 (now_us + is_st_min_us sender); is_deadline_us := u64 (now_us + ISOTP_TIMEOUT_US) |} in
    if is_offset sender =? is_length sender then (kISOTP_EVENT_SENT, with_sender self (set_is_state sender kISOTP_SENDER_IDLE), w)
    else if negb (is_block_limited sender) then (kISOTP_EVENT_NONE, with_sender self sender, w)
    else
      let block_remaining := u8 (is_block_remaining sender - 1) in
      (kISOTP_EVENT_NONE,
       with_sender self (set_is_block sender block_remaining
                           (if block_remaining =? 0 then kISOTP_SENDER_FLOW_CONTROL else is_state sender)), w).

Definition tickReceiver (self : IsotpLink) (now_us : Z) (w : W) : Z * IsotpLink * W :=
  let receiver := il_receiver self in
  if negb (ir_state receiver =? kISOTP_RECEIVER_CONSECUTIVE_FRAMES) then (kISOTP_EVENT_NONE, self, w)
  else if negb (ir_flow_control_pending receiver) then
    (if now_us >=? ir_deadline_us receiver then fail self kTXN_REASON_CONSECUTIVE_FRAME_TIMEOUT else (kISOTP_EVENT_NONE, self), w)
  else if now_us <? ir_flow_control_due_us receiver then (kISOTP_EVENT_NONE, self, w)
  else
    let '(ok, w) := transmitFlowControl self FLOW_STATUS_CONTINUE w in
    if negb ok then
      (kISOTP_EVENT_NONE,
       with_receiver self (set_ir_flow receiver (ir_state receiver) (ir_flow_control_pending receiver) (u64 (now_us + ISOTP_RETRY_US))
                             (ir_deadline_us receiver)), w)
    else
      (kISOTP_EVENT_NONE,
       with_receiver self (set_ir_flow receiver (ir_state receiver) false (ir_flow_control_due_us receiver)
                             (u64 (now_us + ISOTP_TIMEOUT_US))), w).

(** [for(i=0; i<n && event == kISOTP_EVENT_NONE; i++)] *)
Fixpoint send_due (n : nat) (self : IsotpLink) (now_us : Z) (w : W) : Z * IsotpLink * W :=
  match n with
  | O => (kISOTP_EVENT_NONE, self, w)
  | S n' =>
      let sender := il_sender self in
      if now_us <? is_next_frame_us sender then (kISOTP_EVENT_NONE, self, w)
      else if (is_state sender =? kISOTP_SENDER_FIRST_FRAME) || (is_state sender =? kISOTP_SENDER_CONSECUTIVE_FRAMES) then
        let '(event, self, w) := if is_state sender =? kISOTP_SENDER_FIRST_FRAME then sendFirstFrame self now_us w
                                 else sendConsecutiveFrame self now_us w in
        if event =? kISOTP_EVENT_NONE then send_due n' self now_us w else (event, self, w)
      else (kISOTP_EVENT_NONE, self, w)
  end.

Definition tickSender (self : IsotpLink) (now_us : Z) (w : W) : Z * IsotpLink * W :=
  let sender := il_sender self in
  if is_state sender =? kISOTP_SENDER_FLOW_CONTROL then
    (if now_us >=? is_deadline_us sender then fail self kTXN_REASON_FLOW_CONTROL_TIMEOUT else (kISOTP_EVENT_NONE, self), w)
  else send_due ISOTP_FRAMES_PER_TICK_MAX self now_us w.

Definition IsotpLink_Tick (self : IsotpLink) (now_us : Z) (w : W) : Z * IsotpLink * W :=
  let '(event, self, w) := tickReceiver self now_us w in
  if negb (event =? kISOTP_EVENT_NONE) then (event, self, w) else tickSender self now_us w.

End Transmission.
