(* ===== verification/IsotpTransfer.v ===== *)
(** * ISO-TP transfers between two links

    Two links that face each other over a bus that takes every frame: [a] sends
    one message, [b] reassembles it.  A turn is one round of the platform's
    loop at each end: [a] ticks, its frames reach [b], [b] ticks, its answers
    reach [a]. *)

From S2P Require Import Prelude Wire Codec FrameMessage TxnMessage IsotpLink.

Definition bus (f : FrameMessage) (w : list FrameMessage) : bool * list FrameMessage := (true, w ++ [f]).

Definition noted (event : Z) : list Z := if event =? kISOTP_EVENT_NONE then [] else [event].

Fixpoint deliver (l : IsotpLink) (frames : list FrameMessage) (now_us : Z) (w : list FrameMessage) : list Z * IsotpLink * list FrameMessage :=
  match frames with
  | [] => ([], l, w)
  | f :: frames' =>
      let '(event, l, w) := IsotpLink_OnFrame bus l f now_us w in
      let '(events, l, w) := deliver l frames' now_us w in (noted event ++ events, l, w)
  end.

(** Events noted at [a], events noted at [b], and both links. *)
Definition turn (now_us : Z) (a b : IsotpLink) : list Z * list Z * IsotpLink * IsotpLink :=
  let '(event_a, a, sent) := IsotpLink_Tick bus a now_us [] in
  let '(events_b, b, answers) := deliver b sent now_us [] in
  let '(event_b, b, answers) := IsotpLink_Tick bus b now_us answers in
  let '(events_a, a, _) := deliver a answers now_us [] in
  (noted event_a ++ events_a, events_b ++ noted event_b, a, b).

Fixpoint turns (times : list Z) (a b : IsotpLink) : list Z * list Z * IsotpLink * IsotpLink :=
  match times with
  | [] => ([], [], a, b)
  | now_us :: times' =>
      let '(ea, eb, a, b) := turn now_us a b in
      let '(ea', eb', a, b) := turns times' a b in (ea ++ ea', eb ++ eb', a, b)
  end.

(** ** Geometry *)

Definition data_lengths : list Z := CLASSIC_FRAME_SIZE :: FD_FRAME_LENGTHS.

(** Parameters a conversation can use: the transmit length is a CAN frame length. *)
Definition link_ok (l : IsotpLink) : Prop :=
  txDataLength l ∈ data_lengths ∧ is_u8 (ti_block_size (il_parameters l)) ∧ is_u8 (ti_st_min (il_parameters l)).

(** What [a] sends is what [b] listens to. *)
Definition faces (a b : IsotpLink) : Prop :=
  il_request_id a = ti_response_id (il_parameters b) ∧ addressSize a = addressSize b ∧
  (addressSize a ≠ 0 → ti_tx_address (il_parameters a) = ti_rx_address (il_parameters b)).

(** The frame that [transmitData] hands to the port. *)
Definition data_frame (self : IsotpLink) (data : list Z) : FrameMessage :=
  (transmitData (λ f _, (true, f)) self data (IsotpLink_MessageFrame self)).2.

Lemma transmitData_frame {W} (tx : FrameMessage → W → bool * W) l data w : transmitData tx l data w = tx (data_frame l data) w.
Proof. reflexivity. Qed.

Lemma data_length_cases l : link_ok l →
  txDataLength l = 8 ∨ txDataLength l = 12 ∨ txDataLength l = 16 ∨ txDataLength l = 20 ∨ txDataLength l = 24 ∨
  txDataLength l = 32 ∨ txDataLength l = 48 ∨ txDataLength l = 64.
Proof. intros [H _]. unfold data_lengths, FD_FRAME_LENGTHS, CLASSIC_FRAME_SIZE in H. set_solver. Qed.

Lemma address_size_bounds l : 0 ≤ addressSize l ≤ 1.
Proof. unfold addressSize, ADDRESS_BYTE_SIZE. case_match; lia. Qed.

Lemma frame_length_bounds l n : 0 ≤ n ≤ 64 → n ≤ frameLength l n ≤ 64 ∧ (n ≤ 8 → frameLength l n ≤ 8).
Proof. unfold frameLength, CLASSIC_FRAME_SIZE. cbn [fd_length FD_FRAME_LENGTHS]. case_tests; lia. Qed.

Lemma frame_length_full l : link_ok l → frameLength l (txDataLength l) = txDataLength l.
Proof.
  intros Hl. unfold frameLength, CLASSIC_FRAME_SIZE. destruct (data_length_cases l Hl) as [-> | [-> | [-> | [-> | [-> | [-> | [-> | ->]]]]]]]; cbn; try done.
  by case_match.
Qed.

(** ** A frame of [a] as [b] sees it *)
Lemma data_frame_seen a b data :
  link_ok a → faces a b → 1 ≤ zlen data → addressSize a + zlen data ≤ txDataLength a →
  isFromPeer b (data_frame a data) = true ∧
  frame_payload_length (data_frame a data) = frameLength a (addressSize a + zlen data) ∧
  (∀ i, (i < length data)%nat → pdu_of b (data_frame a data) !!! i = data !!! i) ∧
  (∀ o n, (o + n ≤ length data)%nat → slice o n (pdu_of b (data_frame a data)) = slice o n data) ∧
  frame_payload (data_frame a data) !!! Z.to_nat (addressSize b) = data !!! 0%nat.
Proof.
  intros Ha (Hid & Hsz & Had) H1 Hfit. pose proof (data_length_cases a Ha) as Ht. pose proof (address_size_bounds a) as Has.
  set (asz := addressSize a) in *. assert (zlen data ≤ 64) as H64 by lia.
  unfold zlen in *. set (n := length data) in *.
  pose proof (frame_length_bounds a (asz + Z.of_nat n) ltac:(lia)) as [Hfl _]. set (len := frameLength a (asz + Z.of_nat n)) in *.
  set (payload := frame_payload (data_frame a data)).
  assert (payload = copy_at (Z.to_nat (asz + Z.of_nat n)) (replicate (Z.to_nat (len - asz - Z.of_nat n)) (ti_padding (il_parameters a)))
            (copy_at (Z.to_nat asz) data (<[0%nat := ti_tx_address (il_parameters a)]> (replicate FRAME_PAYLOAD_MAX_FD 0)))) as Hp.
  { unfold payload, data_frame, transmitData. cbn [snd frame_payload]. fold asz n. unfold zlen. fold n.
    rewrite (u8_id (Z.of_nat n)), (u8_id (asz + Z.of_nat n)) by lia. reflexivity. }
  assert (frame_payload_length (data_frame a data) = len) as Hlen.
  { unfold data_frame, transmitData. cbn [snd frame_payload_length]. fold asz. unfold zlen. fold n.
    rewrite (u8_id (Z.of_nat n)), (u8_id (asz + Z.of_nat n)) by lia. reflexivity. }
  assert (∀ o k, (o + k ≤ n)%nat → slice (Z.to_nat asz + o) k payload = slice o k data) as Hs.
  { intros o k Hok. rewrite Hp. rewrite slice_copy_ne by (autorewrite with len; lia).
    unfold copy_at. rewrite slice_inserts_in; [f_equal; lia|lia|fold n; lia|]. rewrite length_insert, length_replicate. fold n. lia. }
  assert (∀ i, (i < n)%nat → payload !!! (Z.to_nat asz + i)%nat = data !!! i) as Hi.
  { intros i Hi. pose proof (Hs i 1%nat ltac:(lia)) as H. apply (slice_lookup_total _ _ _ 0) in H; [|lia].
    rewrite Nat.add_0_r in H. rewrite H. rewrite lookup_total_slice by lia. f_equal. lia. }
  assert (asz ≠ 0 → payload !!! 0%nat = ti_tx_address (il_parameters a)) as H0.
  { intros Hz. assert (Z.to_nat asz = 1%nat) as Ha1 by lia. rewrite Hp. unfold copy_at. rewrite !lookup_total_inserts_ne by lia.
    apply list_lookup_total_insert_eq. rewrite length_replicate. lia. }
  rewrite <- Hsz. split_and!.
  - unfold isFromPeer. rewrite <- Hsz, Hlen. fold payload. unfold data_frame, transmitData at 1. cbn [snd frame_can_id].
    rewrite Hid, Z.eqb_refl. cbn [negb orb]. destruct (Z.leb_spec len asz); [lia|].
    destruct (Z.gtb_spec asz 0); cbn [andb]; [|done]. rewrite H0, Had by lia. by rewrite Z.eqb_refl.
  - done.
  - intros i Hii. unfold pdu_of. rewrite <- Hsz, lookup_total_drop. apply Hi. lia.
  - intros o k Hok. unfold pdu_of. rewrite <- Hsz. unfold slice. rewrite drop_drop. apply (Hs o k). lia.
  - fold payload. rewrite <- (Nat.add_0_r (Z.to_nat asz)). apply Hi. lia.
Qed.

(** The protocol control byte. *)
Lemma pci_byte t x : 0 ≤ t < 16 → 0 ≤ x < 16 →
  Z.shiftr (u8 (Z.lor (Z.shiftl t PCI_TYPE_SHIFT) x)) PCI_TYPE_SHIFT = t ∧ Z.land (u8 (Z.lor (Z.shiftl t PCI_TYPE_SHIFT) x)) PCI_LOW_MASK = x.
Proof.
  intros Ht Hx. unfold PCI_TYPE_SHIFT, PCI_LOW_MASK. rewrite Z.lor_comm, lor_shiftl_add by lia. change (2 ^ 4) with 16.
  rewrite u8_id by lia. rewrite Z.shiftr_div_pow2 by lia. change 15 with (Z.ones 4). rewrite Z.land_ones by lia. change (2 ^ 4) with 16.
  split.
  - symmetry. apply (Z.div_unique (x + 16 * t) 16 t x); lia.
  - symmetry. apply (Z.mod_unique (x + 16 * t) 16 t x); lia.
Qed.

(** ** The coupling of a transfer in progress

    Both ends agree on the bytes moved, the sequence number and the block.
    [blocked]: [b] owes a flow control and [a] waits for it. *)
Record coupled (m : list Z) (st o : Z) (blocked : bool) (a b : IsotpLink) : Prop := {
  cp_ok : link_ok a ∧ link_ok b ∧ faces a b ∧ faces b a;
  cp_offset : 0 < o < zlen m ∧ zlen m ≤ 4095;
  cp_sender : is_message (il_sender a) = m ∧ is_length (il_sender a) = zlen m ∧ is_offset (il_sender a) = o;
  cp_sender_state : is_state (il_sender a) = if blocked then kISOTP_SENDER_FLOW_CONTROL else kISOTP_SENDER_CONSECUTIVE_FRAMES;
  cp_receiver : ir_state (il_receiver b) = kISOTP_RECEIVER_CONSECUTIVE_FRAMES ∧ ir_length (il_receiver b) = zlen m ∧ ir_received (il_receiver b) = o;
  cp_pending : ir_flow_control_pending (il_receiver b) = blocked;
  cp_bytes : length (ir_message (il_receiver b)) = 4095%nat ∧ slice 0 (Z.to_nat o) (ir_message (il_receiver b)) = slice 0 (Z.to_nat o) m;
  cp_sequence : is_sequence (il_sender a) = ir_sequence (il_receiver b) ∧ 0 ≤ ir_sequence (il_receiver b) < 16;
  cp_block : let bs := ti_block_size (il_parameters b) in
    0 ≤ ir_block_received (il_receiver b) < 256 ∧ (blocked = true → ir_block_received (il_receiver b) = 0) ∧
    (blocked = false → is_block_limited (il_sender a) = negb (bs =? 0) ∧
       (bs ≠ 0 → ir_block_received (il_receiver b) < bs ∧ is_block_remaining (il_sender a) = bs - ir_block_received (il_receiver b)));
  cp_st : stMinUs (ti_st_min (il_parameters b)) = st ∧ (blocked = false → is_st_min_us (il_sender a) = st);
  cp_other : ir_state (il_receiver a) = kISOTP_RECEIVER_IDLE ∧ is_state (il_sender b) = kISOTP_SENDER_IDLE;
}.

(** The transfer is over: [b] holds the message, both ends are idle. *)
Definition finished (m : list Z) (a b : IsotpLink) : Prop :=
  is_state (il_sender a) = kISOTP_SENDER_IDLE ∧ ir_state (il_receiver a) = kISOTP_RECEIVER_IDLE ∧
  is_state (il_sender b) = kISOTP_SENDER_IDLE ∧ ir_state (il_receiver b) = kISOTP_RECEIVER_IDLE ∧
  ir_length (il_receiver b) = zlen m ∧ take (length m) (ir_message (il_receiver b)) = m.

Lemma consecutive_capacity l : link_ok l →
  consecutiveFrameCapacity l = txDataLength l - addressSize l - 1 ∧ 6 ≤ consecutiveFrameCapacity l ≤ 63.
Proof.
  intros Hl. pose proof (data_length_cases l Hl). pose proof (address_size_bounds l).
  unfold consecutiveFrameCapacity, CONSECUTIVE_FRAME_HEADER_SIZE. rewrite u8_id; lia.
Qed.

(** The sender's side of a consecutive frame of [size] bytes. *)
Definition consecutive_data (m : list Z) (o size seq : Z) : list Z :=
  [u8 (Z.lor (Z.shiftl PCI_CONSECUTIVE_FRAME PCI_TYPE_SHIFT) seq)] ++ slice (Z.to_nat o) (Z.to_nat size) m.

Lemma length_consecutive_data m o size seq : 0 ≤ o → 0 ≤ size → o + size ≤ zlen m → zlen (consecutive_data m o size seq) = 1 + size.
Proof. intros. unfold consecutive_data, zlen in *. rewrite length_app, length_slice by lia. cbn [length]. lia. Qed.

(** Appending the bytes of a frame to a prefix of the message. *)
Lemma prefix_grows (m msg : list Z) o size :
  (o + size ≤ length m)%nat → (o + size ≤ length msg)%nat → slice 0 o msg = slice 0 o m →
  slice 0 (o + size) (copy_at o (slice o size m) msg) = slice 0 (o + size) m.
Proof.
  intros Hm Hmsg Hp. pose proof (length_slice o size m ltac:(lia)) as Hl. rewrite !slice_split; rewrite ?length_copy_at; try lia.
  cbn [Nat.add]. rewrite slice_copy_ne by lia. rewrite slice_copy_eq by lia. by rewrite Hp.
Qed.

Lemma next_sequence s : 0 ≤ s < 16 → 0 ≤ u8 (Z.land (s + 1) SEQUENCE_MASK) < 16.
Proof.
  intros Hs. unfold SEQUENCE_MASK. change 15 with (Z.ones 4). rewrite Z.land_ones by lia.
  pose proof (Z.mod_pos_bound (s + 1) (2 ^ 4) ltac:(lia)). change (2 ^ 4) with 16 in *. rewrite u8_id; lia.
Qed.

(** The receiver's side: it takes exactly the bytes the frame was built from. *)
Lemma consecutive_frame_taken m o size a b now wb :
  link_ok a → link_ok b → faces a b → 0 < o → 0 < size → o + size ≤ zlen m → zlen m ≤ 4095 →
  size = Z.min (zlen m - o) (consecutiveFrameCapacity a) →
  let r := il_receiver b in
  ir_state r = kISOTP_RECEIVER_CONSECUTIVE_FRAMES → ir_flow_control_pending r = false → ir_length r = zlen m → ir_received r = o →
  0 ≤ ir_sequence r < 16 → 0 ≤ ir_block_received r < 256 → 0 ≤ now < 2 ^ 63 →
  let message := copy_at (Z.to_nat o) (slice (Z.to_nat o) (Z.to_nat size) m) (ir_message r) in
  let bs := ti_block_size (il_parameters b) in
  let full := negb (bs =? 0) && (u8 (ir_block_received r + 1) =? bs) in
  let over := o + size =? zlen m in
  IsotpLink_OnFrame bus b (data_frame a (consecutive_data m o size (ir_sequence r))) now wb =
    (if over then kISOTP_EVENT_MESSAGE else kISOTP_EVENT_NONE,
     with_receiver b {|
       ir_message := message; ir_length := zlen m; ir_received := o + size;
       ir_state := if over then kISOTP_RECEIVER_IDLE else kISOTP_RECEIVER_CONSECUTIVE_FRAMES;
       ir_sequence := u8 (Z.land (ir_sequence r + 1) SEQUENCE_MASK);
       ir_block_received := if over then ir_block_received r else if full then 0 else u8 (ir_block_received r + 1);
       ir_flow_control_pending := if over then false else full;
       ir_flow_control_due_us := if over then ir_flow_control_due_us r else if full then now else ir_flow_control_due_us r;
       ir_deadline_us := if over then ir_deadline_us r else now + ISOTP_TIMEOUT_US |}, wb).
Proof.
  intros Ha Hb Hf Ho Hsz Hle Hm Hsize r Hst Hpend Hlen Hrec Hseq Hblk Hnow message bs full over.
  destruct (consecutive_capacity a Ha) as [Hcap Hcr]. pose proof (address_size_bounds a) as Has.
  pose proof (data_length_cases a Ha) as Ht.
  pose proof (length_consecutive_data m o size (ir_sequence r) ltac:(lia) ltac:(lia) Hle) as Hdl.
  set (d := consecutive_data m o size (ir_sequence r)) in *.
  destruct (data_frame_seen a b d Ha Hf) as (Hpeer & Hpl & Hbyte & Hsl & Hfst); [lia|lia|].
  pose proof Hf as (_ & Hadr & _).
  destruct (pci_byte PCI_CONSECUTIVE_FRAME (ir_sequence r)) as [Hty Hlow]; [unfold PCI_CONSECUTIVE_FRAME; lia|done|].
  assert (d !!! 0%nat = u8 (Z.lor (Z.shiftl PCI_CONSECUTIVE_FRAME PCI_TYPE_SHIFT) (ir_sequence r))) as Hd0 by reflexivity.
  unfold IsotpLink_OnFrame. rewrite Hpeer, Hfst, Hd0, Hty. cbn [negb]. change (PCI_CONSECUTIVE_FRAME =? PCI_FLOW_CONTROL) with false.
  change (PCI_CONSECUTIVE_FRAME =? PCI_SINGLE_FRAME) with false. change (PCI_CONSECUTIVE_FRAME =? PCI_FIRST_FRAME) with false.
  change (PCI_CONSECUTIVE_FRAME =? PCI_CONSECUTIVE_FRAME) with true. cbv iota. f_equal.
  unfold onConsecutiveFrame. fold r. rewrite Hst, Hpend, Hlen, Hrec, Hpl. change (negb (_ =? _) || false) with false.
  rewrite Hbyte by (unfold zlen in Hdl; lia). rewrite Hd0, Hlow, Z.eqb_refl. cbn [negb]. cbv iota.
  assert (∃ carried, u8 (frameLength a (addressSize a + zlen d) - addressSize b - CONSECUTIVE_FRAME_HEADER_SIZE) = carried ∧
            (if zlen m - o <? carried then u8 (zlen m - o) else carried) = size) as (carried & -> & Hs).
  { unfold CONSECUTIVE_FRAME_HEADER_SIZE. rewrite <- Hadr, Hdl.
    pose proof (frame_length_bounds a (addressSize a + (1 + size)) ltac:(lia)) as [Hfl _]. eexists; split; [by rewrite u8_id by lia|].
    destruct (Z.min_spec (zlen m - o) (consecutiveFrameCapacity a)) as [[Hc Hmin]|[Hc Hmin]]; rewrite Hmin in Hsize.
    - destruct (Z.ltb_spec (zlen m - o) (frameLength a (addressSize a + (1 + size)) - addressSize a - 1)); [rewrite u8_id|]; lia.
    - replace (addressSize a + (1 + size)) with (txDataLength a) by lia. rewrite frame_length_full by done.
      destruct (Z.ltb_spec (zlen m - o) (txDataLength a - addressSize a - 1)); [rewrite u8_id|]; lia. }
  rewrite (u16_id (zlen m - o)) by lia. rewrite Hs. destruct (Z.eqb_spec size 0); [lia|].
  rewrite (u16_id (o + size)) by lia. rewrite (u64_id (now + ISOTP_TIMEOUT_US)) by (unfold ISOTP_TIMEOUT_US; lia).
  assert (slice 1 (Z.to_nat size) (pdu_of b (data_frame a d)) = slice (Z.to_nat o) (Z.to_nat size) m) as ->.
  { rewrite Hsl by (unfold zlen in Hdl; lia). change (slice 1 (Z.to_nat size) d) with (take (Z.to_nat size) (slice (Z.to_nat o) (Z.to_nat size) m)).
    rewrite take_ge; [done|]. unfold zlen in *. rewrite length_slice by lia. lia. }
  fold message. subst over full. fold bs. destruct (o + size =? zlen m); [done|]. by destruct (negb (bs =? 0) && _).
Qed.

(** After a consecutive frame: the transfer is over, or both ends moved on. *)
Definition moved (m : list Z) (st o now ea eb : Z) (a' b' : IsotpLink) : Prop :=
  (ea = kISOTP_EVENT_SENT ∧ eb = kISOTP_EVENT_MESSAGE ∧ finished m a' b') ∨
  (ea = kISOTP_EVENT_NONE ∧ eb = kISOTP_EVENT_NONE ∧ ∃ o' blocked, o + 6 ≤ o' ∧ coupled m st o' blocked a' b' ∧
     is_next_frame_us (il_sender a') = now + st ∧
     (blocked = true → ir_flow_control_due_us (il_receiver b') = now) ∧ ir_deadline_us (il_receiver b') = now + ISOTP_TIMEOUT_US).

(** One consecutive frame moves both ends together. *)
Lemma consecutive_frame m st o a b now w :
  coupled m st o false a b → 0 ≤ now < 2 ^ 63 → 0 ≤ st < 2 ^ 32 →
  ∃ f ea a' eb b', sendConsecutiveFrame bus a now w = (ea, a', w ++ [f]) ∧
    (∀ wb, IsotpLink_OnFrame bus b f now wb = (eb, b', wb)) ∧ moved m st o now ea eb a' b'.
Proof.
  intros [(Ha & Hb & Hf & Hf') [Ho Hm] (Hmsg & Hlen & Hoff) Hst (Hrst & Hrlen & Hrec) Hpend (Hml & Hpre) (Hseq & Hsq) (Hbr & _ & Hrem) (Hsb & Hsa) (Hia & Hib)] Hnow Hstm. specialize (Hsa eq_refl).
  destruct (consecutive_capacity a Ha) as [_ Hcr]. destruct (Hrem eq_refl) as [Hlim Hrem']. clear Hrem. rename Hrem' into Hrem.
  set (size := Z.min (zlen m - o) (consecutiveFrameCapacity a)).
  assert (0 < size ∧ o + size ≤ zlen m ∧ (o + size = zlen m ∨ 6 ≤ size)) as (Hs0 & Hsm & Hs6) by lia.
  pose proof (λ wb, consecutive_frame_taken m o size a b now wb Ha Hb Hf ltac:(lia) Hs0 Hsm Hm eq_refl Hrst Hpend Hrlen Hrec Hsq Hbr Hnow) as Hrx.
  cbv zeta in Hrx.
  unfold sendConsecutiveFrame. rewrite Hmsg, Hlen, Hoff, Hseq. rewrite (u16_id (zlen m - o)) by lia.
  replace (if zlen m - o <? consecutiveFrameCapacity a then u8 (zlen m - o) else consecutiveFrameCapacity a) with size
    by (destruct (Z.ltb_spec (zlen m - o) (consecutiveFrameCapacity a)); [rewrite u8_id|]; lia).
  rewrite transmitData_frame. fold (consecutive_data m o size (ir_sequence (il_receiver b))). unfold bus at 1. cbn [negb].
  rewrite (u16_id (o + size)) by lia. rewrite (u64_id (now + ISOTP_TIMEOUT_US)) by (unfold ISOTP_TIMEOUT_US; lia).
  rewrite Hsa. rewrite (u64_id (now + st)) by lia. cbn [is_offset is_length is_block_limited is_block_remaining is_state].
  assert (slice 0 (Z.to_nat (o + size)) (copy_at (Z.to_nat o) (slice (Z.to_nat o) (Z.to_nat size) m) (ir_message (il_receiver b))) =
          slice 0 (Z.to_nat (o + size)) m) as Hgrow.
  { rewrite Z2Nat.inj_add by lia. unfold zlen in *. apply prefix_grows; [lia|lia|done]. }
  set (bs := ti_block_size (il_parameters b)) in *. pose proof (next_sequence _ Hsq) as Hnext.
  assert (is_u8 bs) as Hbs by (by destruct Hb as (_ & ? & _)). unfold is_u8 in Hbs.
  set (full := negb (bs =? 0) && (u8 (ir_block_received (il_receiver b) + 1) =? bs)) in *.
  destruct (Z.eqb_spec (o + size) (zlen m)) as [Hover|Hmore].
  { do 5 eexists. split; [reflexivity|]. split; [exact Hrx|]. left. split; [done|]. split; [done|]. split_and!; try done.
    rewrite Hover in Hgrow. unfold zlen in Hgrow. rewrite Nat2Z.id in Hgrow. rewrite (slice_all m) in Hgrow by done.
    cbn [il_receiver with_receiver ir_message]. exact Hgrow. }
  assert (is_block_limited (il_sender a) = true → u8 (is_block_remaining (il_sender a) - 1) = bs - ir_block_received (il_receiver b) - 1 ∧
          u8 (ir_block_received (il_receiver b) + 1) = ir_block_received (il_receiver b) + 1) as Hcount.
  { rewrite Hlim. intros Hb0. apply negb_true_iff, Z.eqb_neq in Hb0. destruct (Hrem Hb0) as [Hlt ->]. rewrite !u8_id; lia. }
  assert (full = true ↔ is_block_limited (il_sender a) = true ∧ u8 (is_block_remaining (il_sender a) - 1) = 0) as Hfull.
  { subst full. rewrite andb_true_iff, Hlim. split; intros [H1 H2]; (split; [done|]); rewrite <- Hlim in H1; destruct (Hcount H1) as [Hr Hc].
    - rewrite Hc in H2. apply Z.eqb_eq in H2. lia.
    - rewrite Hc. apply Z.eqb_eq. lia. }
  assert (∀ s', is_message s' = m ∧ is_length s' = zlen m ∧ is_offset s' = o + size →
                is_state s' = (if full then kISOTP_SENDER_FLOW_CONTROL else kISOTP_SENDER_CONSECUTIVE_FRAMES) →
                is_sequence s' = u8 (Z.land (ir_sequence (il_receiver b) + 1) SEQUENCE_MASK) →
                is_st_min_us s' = st → is_block_limited s' = is_block_limited (il_sender a) →
                (is_block_limited s' = true → is_block_remaining s' = u8 (is_block_remaining (il_sender a) - 1)) →
                ∀ due deadline, coupled m st (o + size) full (with_sender a s')
                  (with_receiver b {|
                    ir_message := copy_at (Z.to_nat o) (slice (Z.to_nat o) (Z.to_nat size) m) (ir_message (il_receiver b));
                    ir_length := zlen m; ir_received := o + size; ir_state := kISOTP_RECEIVER_CONSECUTIVE_FRAMES;
                    ir_sequence := u8 (Z.land (ir_sequence (il_receiver b) + 1) SEQUENCE_MASK);
                    ir_block_received := if full then 0 else u8 (ir_block_received (il_receiver b) + 1);
                    ir_flow_control_pending := full; ir_flow_control_due_us := due; ir_deadline_us := deadline |})) as Hcp.
  { intros s' (? & ? & ?) ? ? ? Hl' Hr' due deadline. split; cbn; try done; try lia.
    - by rewrite length_copy_at.
    - fold bs. split; [destruct full; [lia|apply u8_range]|]. split; [by intros ->|].
      + intros Hfu. split; [by rewrite Hl'|]. intros Hb0. rewrite Hfu. assert (is_block_limited (il_sender a) = true) as Hl0 by (rewrite Hlim; by apply negb_true_iff, Z.eqb_neq).
        destruct (Hcount Hl0) as [Hc1 Hc2]. rewrite Hr', Hc1, Hc2 by congruence. destruct (Hrem Hb0).
        assert (u8 (is_block_remaining (il_sender a) - 1) ≠ 0) by (intros Hz; rewrite (proj2 Hfull) in Hfu; [done|by split]). lia. }
  destruct (is_block_limited (il_sender a)) eqn:Hbl; cbn [negb].
  - do 5 eexists. split; [reflexivity|]. split; [exact Hrx|]. right. split; [done|]. split; [done|]. exists (o + size), full.
    split; [lia|]. split; [|split_and!; try done; cbn; by intros ->].
    apply Hcp; cbn; try done. rewrite Hst. destruct (Z.eqb_spec (u8 (is_block_remaining (il_sender a) - 1)) 0) as [H0|H0].
    + by rewrite (proj2 Hfull) by done.
    + destruct full; [|done]. by destruct (proj1 Hfull).
  - assert (full = false) as Hff by (destruct full; [|done]; by destruct (proj1 Hfull eq_refl)).
    do 5 eexists. split; [reflexivity|]. split; [exact Hrx|]. right. split; [done|]. split; [done|]. exists (o + size), full.
    split; [lia|]. split; [|split_and!; try done; cbn; by intros ->].
    apply Hcp; cbn; try done. by rewrite Hff.
Qed.

Lemma send_due_waits n a now w :
  is_state (il_sender a) ≠ kISOTP_SENDER_FIRST_FRAME →
  is_state (il_sender a) ≠ kISOTP_SENDER_CONSECUTIVE_FRAMES ∨ now < is_next_frame_us (il_sender a) →
  send_due bus n a now w = (kISOTP_EVENT_NONE, a, w).
Proof.
  intros H1 H2. destruct n as [|n]; [done|]. cbn [send_due]. destruct (Z.ltb_spec now (is_next_frame_us (il_sender a))); [done|].
  destruct H2 as [H2|]; [|lia]. rewrite !(proj2 (Z.eqb_neq _ _)) by done. done.
Qed.

(** What a burst of consecutive frames, or a whole turn, does to both ends. *)
Definition advanced (m : list Z) (st o now ea : Z) (eb : list Z) (a' b' : IsotpLink) : Prop :=
  (ea = kISOTP_EVENT_SENT ∧ eb = [kISOTP_EVENT_MESSAGE] ∧ finished m a' b') ∨
  (ea = kISOTP_EVENT_NONE ∧ eb = [] ∧ ∃ o' blocked, o + 6 ≤ o' ∧ coupled m st o' blocked a' b' ∧
     is_next_frame_us (il_sender a') = now + st ∧
     (blocked = true → ir_flow_control_due_us (il_receiver b') = now) ∧ ir_deadline_us (il_receiver b') = now + ISOTP_TIMEOUT_US).

(** All the frames of one tick, delivered in order. *)
Lemma burst n m st o a b now w :
  coupled m st o false a b → 0 ≤ now < 2 ^ 63 → 0 ≤ st < 2 ^ 32 → is_next_frame_us (il_sender a) ≤ now →
  ∃ fs ea a' eb b', send_due bus (S n) a now w = (ea, a', w ++ fs) ∧
    (∀ wb, deliver b fs now wb = (eb, b', wb)) ∧ advanced m st o now ea eb a' b'.
Proof.
  revert o a b w. induction n as [n IH] using lt_wf_ind. intros o a b w Hc Hnow Hst Hnext.
  destruct (consecutive_frame m st o a b now w Hc Hnow Hst) as (f & ea & a' & eb & b' & Hsend & Hrx & Hmv).
  cbn [send_due]. rewrite (cp_sender_state _ _ _ _ _ _ Hc). destruct (Z.ltb_spec now (is_next_frame_us (il_sender a))); [lia|].
  change (kISOTP_SENDER_CONSECUTIVE_FRAMES =? kISOTP_SENDER_FIRST_FRAME) with false.
  change (kISOTP_SENDER_CONSECUTIVE_FRAMES =? kISOTP_SENDER_CONSECUTIVE_FRAMES) with true. cbn [orb]. rewrite Hsend.
  assert (∀ wb, deliver b [f] now wb = (noted eb ++ [], b', wb)) as Hone by (intros wb; cbn [deliver]; by rewrite Hrx).
  destruct Hmv as [(-> & -> & Hfin)|(-> & -> & o' & blocked & Ho' & Hc' & Hnx & Hdue & Hdl)]; cbn [noted app] in Hone.
  { exists [f]. do 4 eexists. split; [reflexivity|]. split; [exact Hone|]. by left. }
  change (kISOTP_EVENT_NONE =? kISOTP_EVENT_NONE) with true. cbv iota.
  assert (is_state (il_sender a') ≠ kISOTP_SENDER_FIRST_FRAME) as Hnf by (rewrite (cp_sender_state _ _ _ _ _ _ Hc'); by destruct blocked).
  assert (send_due bus n a' now (w ++ [f]) = (kISOTP_EVENT_NONE, a', w ++ [f]) ∨
          ∃ k, n = S k ∧ blocked = false ∧ is_next_frame_us (il_sender a') ≤ now) as [Hstop|(k & -> & -> & Hgo)].
  { destruct n as [|k]; [by left|]. destruct blocked.
    - left. apply send_due_waits; [done|]. left. by rewrite (cp_sender_state _ _ _ _ _ _ Hc').
    - destruct (Z.ltb_spec now (is_next_frame_us (il_sender a'))); [left; apply send_due_waits; auto|right; eauto]. }
  { exists [f]. do 4 eexists. split; [exact Hstop|]. split; [exact Hone|]. right. do 2 (split; [done|]). by exists o', blocked. }
  destruct (IH k ltac:(lia) o' a' b' (w ++ [f]) Hc' Hnow Hst Hgo) as (fs & ea2 & a2 & eb2 & b2 & Hs2 & Hr2 & Had).
  exists (f :: fs), ea2, a2, eb2, b2. split; [rewrite Hs2; by rewrite <- app_assoc|]. split.
  { intros wb. cbn [deliver]. rewrite Hrx, Hr2. done. }
  destruct Had as [?|(-> & -> & o2 & bl & Ho2 & Hc2 & Hnx2 & Hd2 & Hdl2)]; [by left|]. right. do 2 (split; [done|]).
  exists o2, bl. split_and!; try done; lia.
Qed.

Lemma st_min_bound s : is_u8 s → 0 ≤ stMinUs s ≤ 127000.
Proof.
  intros Hs. unfold is_u8 in Hs. unfold stMinUs, ST_MIN_MILLISECONDS_MAX, MICROSECONDS_PER_MILLISECOND, ST_MIN_MICROSECONDS_FIRST,
    ST_MIN_MICROSECONDS_LAST, ST_MIN_MICROSECONDS_BASE, ST_MIN_MICROSECONDS_STEP. case_tests; rewrite u32_id; lia.
Qed.

(** [b] pays its flow control and [a] goes on. *)
Lemma flow_control m st o a b now w :
  coupled m st o true a b → 0 ≤ now < 2 ^ 63 → ir_flow_control_due_us (il_receiver b) ≤ now →
  ∃ f a' b', tickReceiver bus b now w = (kISOTP_EVENT_NONE, b', w ++ [f]) ∧ (∀ wa, IsotpLink_OnFrame bus a f now wa = (kISOTP_EVENT_NONE, a', wa)) ∧
    coupled m st o false a' b' ∧ is_next_frame_us (il_sender a') = now ∧ ir_deadline_us (il_receiver b') = now + ISOTP_TIMEOUT_US.
Proof.
  intros [(Ha & Hb & Hf & Hf') Ho (Hmsg & Hlen & Hoff) Hst (Hrst & Hrlen & Hrec) Hpend Hby Hsq (Hbr & Hb0 & _) (Hsb & _) (Hia & Hib)] Hnow Hdue.
  specialize (Hb0 eq_refl). cbn in Hst. pose proof (address_size_bounds b) as Has. pose proof (data_length_cases b Hb) as Ht.
  set (bs := ti_block_size (il_parameters b)) in *. set (smin := ti_st_min (il_parameters b)) in *.
  set (d := [u8 (Z.lor (Z.shiftl PCI_FLOW_CONTROL PCI_TYPE_SHIFT) FLOW_STATUS_CONTINUE); bs; smin]).
  assert (zlen d = 3) as Hd by done.
  destruct (data_frame_seen b a d Hb Hf') as (Hpeer & Hpl & Hbyte & _ & Hfst); [lia|lia|].
  destruct (pci_byte PCI_FLOW_CONTROL FLOW_STATUS_CONTINUE) as [Hty Hlow]; [unfold PCI_FLOW_CONTROL; lia|unfold FLOW_STATUS_CONTINUE; lia|].
  exists (data_frame b d). do 2 eexists. split; [|split].
  - unfold tickReceiver. rewrite Hrst, Hpend. cbn [negb]. change (negb (_ =? _)) with false. cbv iota.
    destruct (Z.ltb_spec now (ir_flow_control_due_us (il_receiver b))); [lia|]. unfold transmitFlowControl. fold bs smin d.
    rewrite transmitData_frame. unfold bus at 1. cbn [negb]. reflexivity.
  - intros wa. unfold IsotpLink_OnFrame. rewrite Hpeer, Hfst. change (d !!! 0%nat) with (u8 (Z.lor (Z.shiftl PCI_FLOW_CONTROL PCI_TYPE_SHIFT) FLOW_STATUS_CONTINUE)).
    rewrite Hty. cbn [negb]. change (PCI_FLOW_CONTROL =? PCI_FLOW_CONTROL) with true. cbv iota.
    unfold onFlowControl. rewrite Hst, Hpl. rewrite !Hbyte by (cbn; lia).
    change (d !!! 0%nat) with (u8 (Z.lor (Z.shiftl PCI_FLOW_CONTROL PCI_TYPE_SHIFT) FLOW_STATUS_CONTINUE)). rewrite Hlow.
    change (d !!! 1%nat) with bs. change (d !!! 2%nat) with smin. change (negb (kISOTP_SENDER_FLOW_CONTROL =? _)) with false.
    pose proof (frame_length_bounds b (addressSize b + zlen d) ltac:(lia)) as [Hfl _]. destruct Hf' as (_ & <- & _).
    destruct (Z.ltb_spec (frameLength b (addressSize b + zlen d)) (addressSize b + FLOW_CONTROL_SIZE)) as [Hlt|_];
      [unfold FLOW_CONTROL_SIZE in Hlt; lia|]. reflexivity.
  - split; [|split; [done|cbn; apply u64_id; unfold ISOTP_TIMEOUT_US; lia]]. split; cbn; try done. fold bs. split; [done|]. split; [done|]. intros _. split; [done|].
    intros Hn. rewrite Hb0. assert (is_u8 bs) as Hbs by (by destruct Hb as (_ & ? & _)). unfold is_u8 in Hbs. lia.
Qed.

Lemma deliver_app l fs gs now w :
  deliver l (fs ++ gs) now w =
    (let '(e1, l, w) := deliver l fs now w in let '(e2, l, w) := deliver l gs now w in (e1 ++ e2, l, w)).
Proof.
  revert l w. induction fs as [|f fs IH]; intros l w; cbn [app deliver].
  - by destruct (deliver l gs now w) as [[??]?].
  - destruct (IsotpLink_OnFrame bus l f now w) as [[e l'] w']. rewrite IH. destruct (deliver l' fs now w') as [[e1 l1] w1].
    destruct (deliver l1 gs now w1) as [[e2 l2] w2]. by rewrite app_assoc.
Qed.

(** A link with nothing to do. *)
Lemma tick_idle l now w :
  is_state (il_sender l) = kISOTP_SENDER_IDLE → ir_state (il_receiver l) = kISOTP_RECEIVER_IDLE →
  IsotpLink_Tick bus l now w = (kISOTP_EVENT_NONE, l, w).
Proof.
  intros Hs Hr. unfold IsotpLink_Tick, tickReceiver. rewrite Hr. change (negb (kISOTP_RECEIVER_IDLE =? _)) with true. cbv iota.
  change (negb (kISOTP_EVENT_NONE =? _)) with false. cbv iota. unfold tickSender. rewrite Hs.
  change (kISOTP_SENDER_IDLE =? kISOTP_SENDER_FLOW_CONTROL) with false. cbv iota. apply send_due_waits; rewrite Hs; [done|by left].
Qed.

Lemma tick_sender_only l now w :
  ir_state (il_receiver l) = kISOTP_RECEIVER_IDLE → is_state (il_sender l) ≠ kISOTP_SENDER_FLOW_CONTROL →
  IsotpLink_Tick bus l now w = send_due bus ISOTP_FRAMES_PER_TICK_MAX l now w.
Proof.
  intros Hr Hs. unfold IsotpLink_Tick, tickReceiver. rewrite Hr. change (negb (kISOTP_RECEIVER_IDLE =? _)) with true. cbv iota.
  change (negb (kISOTP_EVENT_NONE =? _)) with false. cbv iota. unfold tickSender. by rewrite (proj2 (Z.eqb_neq _ _)).
Qed.

(** A tick whose sender is idle is the receiver's tick. *)
Lemma tick_receiver_only l now w l' w' :
  tickReceiver bus l now w = (kISOTP_EVENT_NONE, l', w') → is_state (il_sender l') = kISOTP_SENDER_IDLE →
  IsotpLink_Tick bus l now w = (kISOTP_EVENT_NONE, l', w').
Proof.
  intros Ht Hs. unfold IsotpLink_Tick. rewrite Ht. change (negb (kISOTP_EVENT_NONE =? _)) with false. cbv iota. unfold tickSender. rewrite Hs.
  change (kISOTP_SENDER_IDLE =? kISOTP_SENDER_FLOW_CONTROL) with false. cbv iota. apply send_due_waits; rewrite Hs; [done|by left].
Qed.

(** The second half of a turn, once the frames of [a] arrived at [b]. *)
Lemma answer_half m st o blocked a b now :
  coupled m st o blocked a b → 0 ≤ now < 2 ^ 63 → is_next_frame_us (il_sender a) ≤ now + st → 0 ≤ st →
  (blocked = true → ir_flow_control_due_us (il_receiver b) = now) → (blocked = false → ir_deadline_us (il_receiver b) = now + ISOTP_TIMEOUT_US) →
  ∃ a' b' answers, IsotpLink_Tick bus b now [] = (kISOTP_EVENT_NONE, b', answers) ∧ deliver a answers now [] = ([], a', []) ∧
    coupled m st o false a' b' ∧ is_next_frame_us (il_sender a') ≤ now + st.
Proof.
  intros Hc Hnow Hnext Hst Hdue Hdl. destruct blocked.
  - destruct (flow_control m st o a b now [] Hc Hnow ltac:(by rewrite Hdue)) as (f & a' & b' & Ht & Hrx & Hc' & Hn & _).
    exists a', b', [f]. split; [apply tick_receiver_only; [exact Ht|apply Hc']|]. cbn [deliver]. rewrite Hrx. split; [done|]. split; [done|lia].
  - exists a, b, []. split; [|done]. apply tick_receiver_only; [|apply Hc]. unfold tickReceiver. destruct (cp_receiver _ _ _ _ _ _ Hc) as [-> _].
    rewrite (cp_pending _ _ _ _ _ _ Hc), Hdl by done. change (negb (_ =? _)) with false. cbn [negb]. cbv iota.
    rewrite Z.geb_leb, (proj2 (Z.leb_gt _ _)); [done|]. unfold ISOTP_TIMEOUT_US. lia.
Qed.

(** What a turn does while a transfer is under way. *)
Definition turned (m : list Z) (st o now : Z) (ea eb : list Z) (a' b' : IsotpLink) : Prop :=
  (ea = [kISOTP_EVENT_SENT] ∧ eb = [kISOTP_EVENT_MESSAGE] ∧ finished m a' b') ∨
  (ea = [] ∧ eb = [] ∧ ∃ o', o ≤ o' ∧ coupled m st o' false a' b' ∧ is_next_frame_us (il_sender a') ≤ now + st).

Lemma turn_coupled m st o a b now :
  coupled m st o false a b → 0 ≤ now < 2 ^ 63 → 0 ≤ st < 2 ^ 32 → is_next_frame_us (il_sender a) ≤ now →
  ∃ ea eb a' b', turn now a b = (ea, eb, a', b') ∧ turned m st (o + 6) now ea eb a' b'.
Proof.
  intros Hc Hnow Hst Hnext. destruct (burst 63 m st o a b now [] Hc Hnow Hst Hnext) as (fs & ea & a1 & eb & b1 & Hs & Hrx & Had).
  unfold turn. rewrite tick_sender_only by (rewrite ?(cp_sender_state _ _ _ _ _ _ Hc); done || apply Hc). rewrite Hs. cbn [app]. rewrite Hrx.
  destruct Had as [(-> & -> & Hfin)|(-> & -> & o' & blocked & Ho & Hc' & Hn & Hdue & Hdl)].
  - pose proof Hfin as (_ & _ & Hsb & Hrb & _). rewrite tick_idle by done. cbn [deliver app noted]. do 4 eexists. split; [reflexivity|]. by left.
  - destruct (answer_half m st o' blocked a1 b1 now Hc' Hnow) as (a2 & b2 & ans & -> & -> & Hc2 & Hn2); [lia|lia|done|done|].
    do 4 eexists. split; [reflexivity|]. right. do 2 (split; [done|]). exists o'. done.
Qed.

Lemma turn_finished m a b now : finished m a b → turn now a b = ([], [], a, b).
Proof. intros (? & ? & ? & ? & _). unfold turn. rewrite tick_idle by done. cbn [deliver]. rewrite tick_idle by done. done. Qed.

Lemma turns_finished m a b times : finished m a b → turns times a b = ([], [], a, b).
Proof. intros Hf. induction times as [|t times IH]; [done|]. cbn [turns]. rewrite (turn_finished m), IH by done. done. Qed.

(** Turns at least [st] apart, the first one not before [t]. *)
Fixpoint paced (st t : Z) (times : list Z) : Prop :=
  match times with [] => True | now :: times' => t ≤ now < 2 ^ 63 ∧ paced st (now + st) times' end.

Lemma turns_coupled m st o a b times t :
  coupled m st o false a b → 0 ≤ t → 0 ≤ st < 2 ^ 32 → is_next_frame_us (il_sender a) ≤ t → paced st t times → zlen m - o ≤ 6 * zlen times →
  ∃ a' b', turns times a b = ([kISOTP_EVENT_SENT], [kISOTP_EVENT_MESSAGE], a', b') ∧ finished m a' b'.
Proof.
  revert o a b t. induction times as [|now times IH]; intros o a b t Hc Ht Hst Hnext Hp Hlen.
  { destruct (cp_offset _ _ _ _ _ _ Hc). change (zlen (A := Z) []) with 0 in Hlen. lia. }
  destruct Hp as [Hnow Hp]. destruct (turn_coupled m st o a b now Hc ltac:(lia) Hst ltac:(lia)) as (ea & eb & a' & b' & Htn & Hd).
  cbn [turns]. rewrite Htn. destruct Hd as [(-> & -> & Hfin)|(-> & -> & o' & Ho & Hc' & Hn)].
  - rewrite (turns_finished m) by done. eauto.
  - destruct (IH o' a' b' (now + st)) as (a2 & b2 & -> & Hfin); [done|lia|done|done|done| |eauto].
    unfold zlen in *. cbn [length] in Hlen. lia.
Qed.

(** ** The first turn *)

(** What the first frame of a message looks like, by its length. *)
Definition fits_single (a : IsotpLink) (n : Z) : bool := (n <=? classicSingleFrameCapacity a) || (n <=? escapeSingleFrameCapacity a).

Lemma single_frame m a b now w :
  link_ok a → faces a b → 1 ≤ zlen m → fits_single a (zlen m) = true →
  is_message (il_sender a) = m → is_length (il_sender a) = zlen m → (64 ≤ length (ir_message (il_receiver b)))%nat →
  ∃ f b', sendFirstFrame bus a now w = (kISOTP_EVENT_SENT, with_sender a (set_is_state (il_sender a) kISOTP_SENDER_IDLE), w ++ [f]) ∧
    (∀ wb, IsotpLink_OnFrame bus b f now wb = (kISOTP_EVENT_MESSAGE, b', wb)) ∧ il_sender b' = il_sender b ∧
    ir_state (il_receiver b') = kISOTP_RECEIVER_IDLE ∧ ir_length (il_receiver b') = zlen m ∧ take (length m) (ir_message (il_receiver b')) = m.
Proof.
  intros Ha Hf H1 Hfit Hmsg Hlen Hroom. pose proof (address_size_bounds a) as Has. pose proof (data_length_cases a Ha) as Ht.
  pose proof Hf as (_ & Hadr & _).
  set (body := take (Z.to_nat (zlen m)) m). assert (body = m) as Hbody by (unfold body, zlen; rewrite Nat2Z.id; apply firstn_all).
  set (esc := zlen m >? classicSingleFrameCapacity a).
  set (d := if esc then [PCI_SINGLE_FRAME; u8 (zlen m)] ++ body else [u8 (zlen m)] ++ body).
  assert (classicSingleFrameCapacity a = 8 - addressSize a - 1) as Hcc
    by (unfold classicSingleFrameCapacity, CLASSIC_FRAME_SIZE, SINGLE_FRAME_HEADER_SIZE; rewrite u8_id; lia).
  assert (if esc then classicSingleFrameCapacity a < zlen m ∧ zlen m ≤ txDataLength a - addressSize a - 2 ∧ zlen d = zlen m + 2
          else zlen m ≤ classicSingleFrameCapacity a ∧ zlen d = zlen m + 1) as Hd.
  { unfold fits_single in Hfit. apply orb_true_iff in Hfit. unfold d, esc. rewrite Hbody. unfold zlen. destruct (Z.gtb_spec (Z.of_nat (length m)) (classicSingleFrameCapacity a)).
    - split; [done|]. unfold escapeSingleFrameCapacity, ESCAPE_SINGLE_FRAME_HEADER_SIZE, CLASSIC_FRAME_SIZE, zlen in *.
      destruct Hfit as [Hfit|Hfit]; [lia|]. destruct (Z.leb_spec (txDataLength a) 8); [lia|]. rewrite u8_id in Hfit by lia. cbn [length app]. rewrite ?length_app. cbn [length]. lia.
    - split; [done|]. rewrite length_app. cbn [length]. lia. }
  destruct (data_frame_seen a b d Ha Hf) as (Hpeer & Hpl & Hbyte & Hsl & Hfst); [destruct esc; lia|destruct esc; lia|].
  exists (data_frame a d). unfold sendFirstFrame. rewrite Hlen. fold (fits_single a (zlen m)). rewrite Hfit.
  unfold sendSingleFrame. rewrite Hlen, Hmsg. fold body. fold esc. fold d. rewrite transmitData_frame. unfold bus at 1. cbn [negb].
  pose proof (frame_length_bounds a (addressSize a + zlen d)) as Hfl.
  assert (d !!! 0%nat = if esc then 0 else zlen m) as Hd0 by (unfold d; destruct esc; [done|cbn; rewrite u8_id; lia]).
  assert (Z.shiftr (d !!! 0%nat) PCI_TYPE_SHIFT = PCI_SINGLE_FRAME) as Hty.
  { rewrite Hd0. destruct esc; [done|]. unfold PCI_TYPE_SHIFT. rewrite Z.shiftr_div_pow2 by lia. apply Z.div_small. lia. }
  assert (Z.land (d !!! 0%nat) PCI_LOW_MASK = if esc then 0 else zlen m) as Hlow.
  { rewrite Hd0. destruct esc; [done|]. unfold PCI_LOW_MASK. change 15 with (Z.ones 4). rewrite Z.land_ones by lia. apply Z.mod_small. lia. }
  specialize (Hfl ltac:(destruct esc; lia)). destruct Hfl as [Hfl Hfl8].
  assert (((Z.land (d !!! 0%nat) PCI_LOW_MASK =? 0) && (frameLength a (addressSize a + zlen d) >? CLASSIC_FRAME_SIZE)) = esc) as Hesc.
  { rewrite Hlow. unfold CLASSIC_FRAME_SIZE. destruct esc; [apply Z.gtb_lt; lia|]. by rewrite (proj2 (Z.eqb_neq _ _)) by lia. }
  assert (slice (Z.to_nat (if esc then 2 else 1)) (Z.to_nat (zlen m)) d = m) as Hpay.
  { unfold d. destruct esc; rewrite Hbody; unfold slice, zlen; rewrite Nat2Z.id; cbn [Z.to_nat Pos.to_nat Pos.iter_op app drop]; apply firstn_all. }
  eexists. split; [reflexivity|]. split.
  { intros wb. unfold IsotpLink_OnFrame. rewrite Hpeer, Hfst, Hty. cbn [negb]. change (PCI_SINGLE_FRAME =? PCI_FLOW_CONTROL) with false.
    change (PCI_SINGLE_FRAME =? PCI_SINGLE_FRAME) with true. cbv iota. f_equal. unfold onSingleFrame. rewrite Hpl.
    rewrite !Hbyte by (unfold zlen in *; destruct esc; lia). rewrite Hesc.
    replace (if esc then d !!! 1%nat else Z.land (d !!! 0%nat) PCI_LOW_MASK) with (zlen m)
      by (rewrite Hlow; unfold d; destruct esc; [cbn; rewrite u8_id; lia|done]).
    rewrite (proj2 (Z.eqb_neq _ _)) by lia. rewrite <- Hadr, (u8_id (_ - _)) by (destruct esc; lia).
    replace (if esc then ESCAPE_SINGLE_FRAME_HEADER_SIZE else SINGLE_FRAME_HEADER_SIZE) with (if esc then 2 else 1) by (by destruct esc).
    destruct (Z.ltb_spec (frameLength a (addressSize a + zlen d) - addressSize a) ((if esc then 2 else 1) + zlen m)) as [Hlt|_];
      [destruct esc; lia|]. cbn [orb]. rewrite Hsl by (unfold zlen in *; destruct esc; lia). rewrite Hpay. reflexivity. }
  cbn [with_receiver il_receiver il_sender ir_message ir_length ir_state]. split_and!; try done. apply take_list_inserts; [done|].
  unfold zlen in *. destruct esc; lia.
Qed.

(** A first frame: [b] owes the flow control for the rest. *)
Lemma first_frame m st a b now w :
  link_ok a → link_ok b → faces a b → faces b a → zlen m ≤ 4095 → fits_single a (zlen m) = false → 0 ≤ now < 2 ^ 63 →
  is_message (il_sender a) = m → is_length (il_sender a) = zlen m → length (ir_message (il_receiver b)) = 4095%nat →
  ir_state (il_receiver a) = kISOTP_RECEIVER_IDLE → is_state (il_sender b) = kISOTP_SENDER_IDLE → stMinUs (ti_st_min (il_parameters b)) = st →
  ∃ f a' b', sendFirstFrame bus a now w = (kISOTP_EVENT_NONE, a', w ++ [f]) ∧
    (∀ wb, IsotpLink_OnFrame bus b f now wb = (kISOTP_EVENT_NONE, b', wb)) ∧ coupled m st (firstFrameCapacity a) true a' b' ∧
    ir_flow_control_due_us (il_receiver b') = now ∧ is_next_frame_us (il_sender a') = is_next_frame_us (il_sender a).
Proof.
  intros Ha Hb Hf Hf' Hm Hfit Hnow Hmsg Hlen Hroom Hia Hib Hst. pose proof (address_size_bounds a) as Has. pose proof (data_length_cases a Ha) as Ht.
  pose proof Hf as (_ & Hadr & _).
  assert (firstFrameCapacity a = txDataLength a - addressSize a - 2) as Hcap by (unfold firstFrameCapacity, FIRST_FRAME_HEADER_SIZE; rewrite u8_id; lia).
  assert (firstFrameCapacity a < zlen m) as Hlong.
  { unfold fits_single in Hfit. apply orb_false_iff in Hfit as [Hc He]. unfold classicSingleFrameCapacity, escapeSingleFrameCapacity,
      CLASSIC_FRAME_SIZE, SINGLE_FRAME_HEADER_SIZE, ESCAPE_SINGLE_FRAME_HEADER_SIZE in *.
    rewrite u8_id in Hc by lia. destruct (Z.leb_spec (txDataLength a) 8); [lia|]. rewrite u8_id in He; lia. }
  set (k := firstFrameCapacity a) in *.
  set (d := [u8 (Z.lor (Z.shiftl PCI_FIRST_FRAME PCI_TYPE_SHIFT) (Z.shiftr (zlen m) FIRST_FRAME_LENGTH_HIGH_SHIFT));
             u8 (Z.land (zlen m) FIRST_FRAME_LENGTH_LOW_MASK)] ++ take (Z.to_nat k) m).
  assert (zlen d = 2 + k) as Hd.
  { unfold d, zlen in *. rewrite length_app, length_take. cbn [length]. lia. }
  destruct (data_frame_seen a b d Ha Hf) as (Hpeer & Hpl & Hbyte & Hsl & Hfst); [lia|lia|].
  assert (0 ≤ Z.shiftr (zlen m) FIRST_FRAME_LENGTH_HIGH_SHIFT < 16) as Hhi.
  { unfold FIRST_FRAME_LENGTH_HIGH_SHIFT. rewrite Z.shiftr_div_pow2 by lia. change (2 ^ 8) with 256. split; [apply Z.div_pos; lia|apply Z.div_lt_upper_bound; lia]. }
  destruct (pci_byte PCI_FIRST_FRAME (Z.shiftr (zlen m) FIRST_FRAME_LENGTH_HIGH_SHIFT)) as [Hty Hlow]; [unfold PCI_FIRST_FRAME; lia|done|].
  assert (u16 (Z.lor (u16 (Z.shiftl (Z.shiftr (zlen m) FIRST_FRAME_LENGTH_HIGH_SHIFT) FIRST_FRAME_LENGTH_HIGH_SHIFT)) (u8 (Z.land (zlen m) FIRST_FRAME_LENGTH_LOW_MASK))) = zlen m) as Hlm.
  { unfold FIRST_FRAME_LENGTH_HIGH_SHIFT, FIRST_FRAME_LENGTH_LOW_MASK in *. rewrite land_255.
    pose proof (Z.mod_pos_bound (zlen m) 256 ltac:(lia)). rewrite (u8_id (zlen m mod 256)) by lia.
    rewrite (u16_id (Z.shiftl _ _)) by (rewrite Z.shiftl_mul_pow2 by lia; change (2 ^ 8) with 256; lia).
    rewrite Z.lor_comm, lor_shiftl_add by (change (2 ^ 8) with 256; lia). rewrite Z.shiftr_div_pow2 by lia. change (2 ^ 8) with 256.
    pose proof (Z.div_mod (zlen m) 256 ltac:(lia)). rewrite u16_id; lia. }
  exists (data_frame a d). unfold sendFirstFrame. rewrite Hlen. fold (fits_single a (zlen m)). rewrite Hfit.
  unfold sendSegmentedFirstFrame. rewrite Hlen, Hmsg. fold k. fold d. rewrite transmitData_frame. unfold bus at 1. cbn [negb].
  do 2 eexists. split; [reflexivity|]. split; [|split; [|split]].
  - intros wb. unfold IsotpLink_OnFrame. rewrite Hpeer, Hfst. change (d !!! 0%nat) with (u8 (Z.lor (Z.shiftl PCI_FIRST_FRAME PCI_TYPE_SHIFT) (Z.shiftr (zlen m) FIRST_FRAME_LENGTH_HIGH_SHIFT))).
    rewrite Hty. cbn [negb]. change (PCI_FIRST_FRAME =? PCI_FLOW_CONTROL) with false. change (PCI_FIRST_FRAME =? PCI_SINGLE_FRAME) with false.
    change (PCI_FIRST_FRAME =? PCI_FIRST_FRAME) with true. cbv iota. unfold onFirstFrame. rewrite Hpl.
    replace (addressSize a + zlen d) with (txDataLength a) by lia. rewrite frame_length_full by done.
    unfold CLASSIC_FRAME_SIZE. destruct (Z.ltb_spec (txDataLength a) 8); [lia|]. rewrite !Hbyte by (unfold zlen in *; lia).
    change (d !!! 0%nat) with (u8 (Z.lor (Z.shiftl PCI_FIRST_FRAME PCI_TYPE_SHIFT) (Z.shiftr (zlen m) FIRST_FRAME_LENGTH_HIGH_SHIFT))). rewrite Hlow.
    change (d !!! 1%nat) with (u8 (Z.land (zlen m) FIRST_FRAME_LENGTH_LOW_MASK)). rewrite Hlm. destruct (Z.eqb_spec (zlen m) 0); [lia|].
    rewrite <- Hadr. change (u8 (txDataLength a - addressSize a - FIRST_FRAME_HEADER_SIZE)) with k.
    destruct (Z.leb_spec (zlen m) k); [lia|]. rewrite Hsl by (unfold zlen in *; lia). reflexivity.
  - split; cbn [with_sender with_receiver il_sender il_receiver is_message is_length is_offset is_state is_sequence is_block_limited is_block_remaining
      is_st_min_us ir_state ir_length ir_received ir_flow_control_pending ir_message ir_sequence ir_block_received]; try done; try (split; done || lia).
    split; [by rewrite length_copy_at|].
    change (slice 2 (Z.to_nat k) d) with (take (Z.to_nat k) (take (Z.to_nat k) m)). rewrite take_take, Nat.min_id.
    unfold slice. rewrite !drop_0. apply take_list_inserts; [unfold zlen in *; rewrite length_take; lia|lia].
  - reflexivity.
  - reflexivity.
Qed.

Lemma first_turn m a b t now :
  link_ok a → link_ok b → faces a b → faces b a → 1 ≤ zlen m ≤ 4095 → length (ir_message (il_receiver b)) = 4095%nat →
  ir_state (il_receiver a) = kISOTP_RECEIVER_IDLE → is_state (il_sender b) = kISOTP_SENDER_IDLE → 0 ≤ t ≤ now → now < 2 ^ 63 →
  let st := stMinUs (ti_st_min (il_parameters b)) in
  ∃ ea eb a' b', turn now (IsotpLink_Send a m (zlen m) t) b = (ea, eb, a', b') ∧ turned m st 5 now ea eb a' b'.
Proof.
  intros Ha Hb Hf Hf' Hm Hbuf Hia Hib Ht Hnow st. pose proof (st_min_bound _ (proj2 (proj2 Hb))) as Hst. fold st in Hst.
  set (a0 := IsotpLink_Send a m (zlen m) t).
  assert (link_ok a0 ∧ faces a0 b ∧ faces b a0) as (Ha0 & Hfa & Hfb) by done.
  unfold turn. rewrite tick_sender_only by done. change 64%nat with (S 63). generalize 63%nat as n. intros n. cbn [send_due].
  change (is_next_frame_us (il_sender a0)) with t. destruct (Z.ltb_spec now t); [lia|].
  change (is_state (il_sender a0) =? kISOTP_SENDER_FIRST_FRAME) with true. cbn [orb].
  destruct (fits_single a0 (zlen m)) eqn:Hfit.
  - destruct (single_frame m a0 b now [] Ha0 Hfa ltac:(lia) Hfit eq_refl eq_refl ltac:(lia)) as (f & b' & -> & Hrx & Hsb & Hrb & Hlb & Hmb).
    change (kISOTP_EVENT_SENT =? kISOTP_EVENT_NONE) with false. cbv iota. cbn [app deliver]. rewrite Hrx. rewrite tick_idle by (done || by rewrite Hsb).
    cbn [deliver]. do 4 eexists. split; [reflexivity|]. left. split; [done|]. split; [done|]. split_and!; try done. by rewrite Hsb.
  - destruct (first_frame m st a0 b now [] Ha0 Hb Hfa Hfb ltac:(lia) Hfit ltac:(lia) eq_refl eq_refl Hbuf Hia Hib eq_refl) as (f & a' & b' & -> & Hrx & Hc & Hdue & Hn).
    change (kISOTP_EVENT_NONE =? kISOTP_EVENT_NONE) with true. cbv iota.
    rewrite send_due_waits by (rewrite (cp_sender_state _ _ _ _ _ _ Hc); (by left) || done). cbn [app deliver]. rewrite Hrx.
    destruct (answer_half m st _ true a' b' now Hc ltac:(lia)) as (a2 & b2 & ans & -> & -> & Hc2 & Hn2);
      [rewrite Hn; change (is_next_frame_us (il_sender a0)) with t; lia|lia|done|done|].
    do 4 eexists. split; [reflexivity|]. right. do 2 (split; [done|]). eexists. split; [|split; [exact Hc2|done]].
    pose proof (data_length_cases a0 Ha0). pose proof (address_size_bounds a0). unfold firstFrameCapacity, FIRST_FRAME_HEADER_SIZE. rewrite u8_id; lia.
Qed.

(** C6. ISO-TP carries any message.  Between two links that face each other
    with any flow control block size and separation time, any addressing,
    padding and frame lengths of a CAN bus, a message of 1 to 4095 bytes that
    [a] sends is reassembled exactly by [b], whatever [b] was doing before:
    [a] reports it sent once, [b] reports one message, nothing fails, both ends
    are idle again, and one turn per six bytes is enough, however the turns are
    spaced as long as they respect the separation time [b] asks for. *)
Theorem isotp_transfer m a b t times :
  link_ok a → link_ok b → faces a b → faces b a → 1 ≤ zlen m ≤ 4095 → length (ir_message (il_receiver b)) = 4095%nat →
  ir_state (il_receiver a) = kISOTP_RECEIVER_IDLE → is_state (il_sender b) = kISOTP_SENDER_IDLE →
  0 ≤ t → paced (stMinUs (ti_st_min (il_parameters b))) t times → zlen m < 6 * zlen times →
  ∃ a' b', turns times (IsotpLink_Send a m (zlen m) t) b = ([kISOTP_EVENT_SENT], [kISOTP_EVENT_MESSAGE], a', b') ∧ finished m a' b'.
Proof.
  intros Ha Hb Hf Hf' Hm Hbuf Hia Hib Ht Hp Hlen. set (st := stMinUs (ti_st_min (il_parameters b))) in *.
  pose proof (st_min_bound _ (proj2 (proj2 Hb))) as Hst. fold st in Hst.
  destruct times as [|now times]; [change (zlen (A := Z) []) with 0 in Hlen; lia|]. destruct Hp as [Hnow Hp].
  destruct (first_turn m a b t now Ha Hb Hf Hf' Hm Hbuf Hia Hib ltac:(lia) ltac:(lia)) as (ea & eb & a' & b' & Htn & Hd). fold st in Hd.
  cbn [turns]. rewrite Htn. destruct Hd as [(-> & -> & Hfin)|(-> & -> & o & Ho & Hc & Hn)].
  - rewrite (turns_finished m) by done. eauto.
  - destruct (turns_coupled m st o a' b' times (now + st) Hc) as (a2 & b2 & -> & Hfin); [lia|lia|done|done| |eauto].
    unfold zlen in *. cbn [length] in Hlen. lia.
Qed.

Definition example_link (request response block_size st_min : Z) : IsotpLink :=
  IsotpLink_Open IsotpLink_Init request 1
    {| ti_response_id := response; ti_flags := 3; ti_tx_address := request - 2000; ti_rx_address := response - 2000; ti_padding := 204;
       ti_tx_data_length := 8; ti_block_size := block_size; ti_st_min := st_min |}.

Lemma isotp_transfer_witness :
  let m := replicate 20 7 in
  ∃ a' b', turns [100; 5100; 10100; 15100] (IsotpLink_Send (example_link 2016 2024 0 0) m 20 0) (example_link 2024 2016 2 5) =
    ([kISOTP_EVENT_SENT], [kISOTP_EVENT_MESSAGE], a', b') ∧ finished m a' b'.
Proof.
  intros m.
  apply (isotp_transfer m (example_link 2016 2024 0 0) (example_link 2024 2016 2 5) 0 [100; 5100; 10100; 15100]);
    try reflexivity; try (vm_compute; intuition congruence).
  - split; [|vm_compute; intuition congruence]. vm_compute. left.
  - split; [|vm_compute; intuition congruence]. vm_compute. left.
Defined.
