(* ===== verification/IsotpSafety.v ===== *)
(** * Safety of an ISO-TP link

    Whatever frames arrive and whenever the ticks come, the link keeps its
    counters inside the reassembly buffer and the message it sends, and hands
    the port only well-formed frames. *)

From S2P Require Import Prelude Wire Codec FrameMessage TxnMessage IsotpLink.

(** A frame as the C struct holds it. *)
Definition frame_typed (f : FrameMessage) : Prop :=
  length (frame_payload f) = FRAME_PAYLOAD_MAX_FD ∧ 0 ≤ frame_payload_length f ≤ 64 ∧ bytes (frame_payload f).

(** A frame the bus can carry, not an echo. *)
Definition frame_sendable (f : FrameMessage) : Prop :=
  length (frame_payload f) = FRAME_PAYLOAD_MAX_FD ∧ 0 ≤ frame_payload_length f ∧
  FrameMessage_IsPayloadLengthValid (frame_payload_length f) (frame_flags f) = true ∧ frame_route_flags f = 0.

(** The lengths that the runner accepts for a link. *)
Definition geometry_ok (p : TxnIsotpParameters) : Prop :=
  has_flag (ti_flags p) TXN_ISOTP_FLAG_FD = true → 8 ≤ ti_tx_data_length p ≤ 64.

Definition sender_safe (s : IsotpSender) : Prop :=
  is_state s = kISOTP_SENDER_IDLE ∨
  0 < is_length s ≤ 4095 ∧ is_length s ≤ zlen (is_message s) ∧
  (is_state s = kISOTP_SENDER_FIRST_FRAME ∨
   (is_state s = kISOTP_SENDER_FLOW_CONTROL ∨ is_state s = kISOTP_SENDER_CONSECUTIVE_FRAMES) ∧ 0 < is_offset s < is_length s ∧ 0 ≤ is_sequence s < 16).

Definition receiver_safe (r : IsotpReceiver) : Prop :=
  length (ir_message r) = TXN_ISOTP_MESSAGE_SIZE_MAX ∧ 0 ≤ ir_length r ≤ 4095 ∧
  (ir_state r = kISOTP_RECEIVER_IDLE ∨
   ir_state r = kISOTP_RECEIVER_CONSECUTIVE_FRAMES ∧ 0 < ir_received r < ir_length r ∧ 0 ≤ ir_sequence r < 16).

Definition link_safe (l : IsotpLink) : Prop := geometry_ok (il_parameters l) ∧ sender_safe (il_sender l) ∧ receiver_safe (il_receiver l).

Definition event_known (e : Z) : Prop := 0 ≤ e ≤ 3.

Lemma tx_length_bounds l : geometry_ok (il_parameters l) → 8 ≤ txDataLength l ≤ 64 ∧ 0 ≤ addressSize l ≤ 1.
Proof.
  intros Hg. unfold geometry_ok, txDataLength, addressSize, CLASSIC_FRAME_SIZE, ADDRESS_BYTE_SIZE in *.
  destruct (has_flag _ TXN_ISOTP_FLAG_FD); [specialize (Hg eq_refl)|]; case_match; lia.
Qed.

Lemma masked_sequence x : 0 ≤ u8 (Z.land x SEQUENCE_MASK) < 16.
Proof.
  unfold SEQUENCE_MASK. change 15 with (Z.ones 4). rewrite Z.land_ones by lia. pose proof (Z.mod_pos_bound x (2 ^ 4) ltac:(lia)).
  change (2 ^ 4) with 16 in *. rewrite u8_id; lia.
Qed.

Lemma fail_safe l reason : link_safe l → link_safe (fail l reason).2.
Proof. intros (Hg & _ & Hb & Hl & _). split; [done|]. split; [by left|]. split; [done|]. split; [done|by left]. Qed.

Section Safety.
Context {W : Type} (transmit : FrameMessage → W → bool * W).
(** The world satisfies [I] as long as only sendable frames are handed over. *)
Context (I : W → Prop) (Hsend : ∀ f w, frame_sendable f → I w → I (transmit f w).2).

Lemma transmitData_safe l data w :
  geometry_ok (il_parameters l) → 1 ≤ zlen data → addressSize l + zlen data ≤ txDataLength l → I w → I (transmitData transmit l data w).2.
Proof.
  intros Hg H1 Hfit Hw. destruct (tx_length_bounds l Hg) as [Ht Ha]. unfold transmitData. apply Hsend; [|done].
  unfold frame_sendable. cbn [frame_payload frame_payload_length frame_flags frame_route_flags]. rewrite !u8_id by lia. split; [by rewrite !length_copy_at, length_insert|].
  set (n := addressSize l + zlen data) in *.
  assert (n ≤ frameLength l n ≤ 64 ∧ (n ≤ 8 → frameLength l n ≤ 8)) as [Hf H8].
  { unfold frameLength, CLASSIC_FRAME_SIZE. cbn [fd_length FD_FRAME_LENGTHS]. case_tests; lia. }
  split; [lia|]. split; [|done]. unfold txDataLength, CLASSIC_FRAME_SIZE in *.
  destruct (has_flag (ti_flags (il_parameters l)) TXN_ISOTP_FLAG_FD).
  - unfold FrameMessage_IsPayloadLengthValid, FRAME_PAYLOAD_MAX_CLASSIC. destruct (has_flag _ TXN_ISOTP_FLAG_BIT_RATE_SWITCH); cbn; apply Z.leb_le; lia.
  - unfold FrameMessage_IsPayloadLengthValid, FRAME_PAYLOAD_MAX_CLASSIC. destruct (has_flag _ TXN_ISOTP_FLAG_BIT_RATE_SWITCH); cbn; apply Z.leb_le; lia.
Qed.

Lemma transmitFlowControl_safe l status w : geometry_ok (il_parameters l) → I w → I (transmitFlowControl transmit l status w).2.
Proof. intros Hg Hw. destruct (tx_length_bounds l Hg). apply transmitData_safe; [done|unfold zlen; cbn [length]; lia|unfold zlen; cbn [length]; lia|done]. Qed.

Lemma onFlowControl_safe l f now : link_safe l → link_safe (onFlowControl l f now).2.
Proof.
  intros Hl. unfold onFlowControl. case_match eqn:Hc1; [done|]. apply orb_false_iff in Hc1 as [Hst _]. apply negb_false_iff, Z.eqb_eq in Hst.
  destruct Hl as (Hg & Hs & Hr). destruct Hs as [Hs|(Hlen & Hmsg & [Hs|(_ & Hoff & Hsq)])]; [by rewrite Hs in Hst|by rewrite Hs in Hst|].
  assert (∀ wc dl, sender_safe (set_is_wait (il_sender l) wc dl)) as Hsw by (intros; right; split; [done|]; split; [done|]; right; split; [by left|done]).
  case_match; [apply fail_safe; split; [done|split; [|done]]; right; split; [done|]; split; [done|]; right; split; [by left|done]|].
  case_match. { case_match; [apply fail_safe|]; (split; [done|]); (split; [|done]); apply Hsw. }
  case_match; (split; [done|]); (split; [|done]); right; (split; [done|]); (split; [done|]); right; (split; [|done]); [by left|by right].
Qed.

Lemma onSingleFrame_safe l f : frame_typed f → link_safe l → link_safe (onSingleFrame l f).2.
Proof.
  intros (Hp & Hpl & Hb) (Hg & Hs & Hbuf & Hlen & Hr). unfold onSingleFrame. case_match eqn:Hc; [by split|].
  apply orb_false_iff in Hc as [H0 Hsz]. apply Z.eqb_neq in H0. apply Z.ltb_ge in Hsz.
  split; [done|]. split; [done|]. cbn [snd with_receiver il_receiver ir_message ir_length ir_state receiver_safe].
  split; [cbn; by rewrite length_copy_at|]. cbn [ir_length ir_state]. split; [|by left].
  pose proof (u8_range (frame_payload_length f - addressSize l)). unfold ESCAPE_SINGLE_FRAME_HEADER_SIZE, SINGLE_FRAME_HEADER_SIZE in *.
  split; [|revert Hsz; case_match; lia]. case_match.
  - unfold pdu_of. rewrite lookup_total_drop. rewrite list_lookup_total_alt. destruct (_ !! _) eqn:He; [|done].
    pose proof (proj1 (Forall_lookup _ _) Hb _ _ He) as Hu. unfold is_u8 in Hu. cbn. lia.
  - apply Z.land_nonneg. by right.
Qed.

Lemma pdu_byte l f i : frame_typed f → (Z.to_nat (addressSize l) + i < 64)%nat → is_u8 (pdu_of l f !!! i).
Proof.
  intros (Hp & _ & Hb) Hi. unfold pdu_of. rewrite lookup_total_drop, list_lookup_total_alt.
  destruct (lookup_lt_is_Some_2 (frame_payload f) (Z.to_nat (addressSize l) + i)) as [x Hx]; [lia|]. rewrite Hx. cbn.
  by apply (proj1 (Forall_lookup _ _) Hb _ _ Hx).
Qed.

(** The length a first frame announces. *)
Lemma announced_length h b : is_u8 b → 0 ≤ u16 (Z.lor (u16 (Z.shiftl (Z.land h PCI_LOW_MASK) FIRST_FRAME_LENGTH_HIGH_SHIFT)) b) ≤ 4095.
Proof.
  intros Hb. unfold is_u8 in Hb. unfold PCI_LOW_MASK, FIRST_FRAME_LENGTH_HIGH_SHIFT. change 15 with (Z.ones 4). rewrite Z.land_ones by lia.
  pose proof (Z.mod_pos_bound h (2 ^ 4) ltac:(lia)). change (2 ^ 4) with 16 in *.
  rewrite (u16_id (Z.shiftl _ _)) by (rewrite Z.shiftl_mul_pow2 by lia; change (2 ^ 8) with 256; lia).
  rewrite Z.lor_comm, lor_shiftl_add by (change (2 ^ 8) with 256; lia). change (2 ^ 8) with 256. rewrite u16_id; lia.
Qed.

Lemma onFirstFrame_safe l f now w : frame_typed f → link_safe l → I w →
  link_safe (onFirstFrame transmit l f now w).1.2 ∧ I (onFirstFrame transmit l f now w).2.
Proof.
  intros Hf Hl Hw. pose proof Hl as (Hg & Hs & Hbuf & Hlen & Hr). destruct (tx_length_bounds l Hg) as [_ Ha]. pose proof Hf as (Hp & Hpl & _).
  unfold onFirstFrame, CLASSIC_FRAME_SIZE. destruct (Z.ltb_spec (frame_payload_length f) 8); [done|].
  pose proof (announced_length (pdu_of l f !!! 0%nat) (pdu_of l f !!! 1%nat) ltac:(apply pdu_byte; [done|lia])) as Hn.
  set (n := u16 _) in *. unfold FIRST_FRAME_HEADER_SIZE. rewrite (u8_id (frame_payload_length f - addressSize l - 2)) by lia.
  case_match; [cbn [fst snd]; split; [by apply fail_safe|by apply transmitFlowControl_safe]|]. case_match eqn:Hc; [done|]. apply Z.leb_gt in Hc.
  cbn [fst snd]. split; [|done]. split; [done|]. split; [done|]. split; [cbn; by rewrite length_copy_at|]. cbn. split; [lia|]. right.
  split; [done|]. split; [lia|unfold FIRST_SEQUENCE; lia].
Qed.

Lemma onConsecutiveFrame_safe l f now : frame_typed f → link_safe l → link_safe (onConsecutiveFrame l f now).2.
Proof.
  intros (Hp & Hpl & _) Hl. pose proof Hl as (Hg & Hs & Hbuf & Hlen & Hr). destruct (tx_length_bounds l Hg) as [_ Ha].
  unfold onConsecutiveFrame. case_match eqn:Hc; [done|]. apply orb_false_iff in Hc as [Hst _]. apply negb_false_iff, Z.eqb_eq in Hst.
  destruct Hr as [Hr|(_ & Hrec & Hsq)]; [by rewrite Hr in Hst|]. case_match; [by apply fail_safe|].
  rewrite (u16_id (ir_length _ - ir_received _)) by lia. set (carried := u8 _). pose proof (u8_range (frame_payload_length f - addressSize l - CONSECUTIVE_FRAME_HEADER_SIZE)).
  fold carried in H0.
  set (size := if ir_length (il_receiver l) - ir_received (il_receiver l) <? carried then u8 (ir_length (il_receiver l) - ir_received (il_receiver l)) else carried).
  assert (0 ≤ size ≤ ir_length (il_receiver l) - ir_received (il_receiver l)) as Hsz.
  { subst size. destruct (Z.ltb_spec (ir_length (il_receiver l) - ir_received (il_receiver l)) carried); [rewrite u8_id|]; lia. }
  destruct (Z.eqb_spec size 0); [done|]. rewrite (u16_id (ir_received _ + size)) by lia.
  destruct (Z.eqb_spec (ir_received (il_receiver l) + size) (ir_length (il_receiver l))); (split; [done|]); (split; [done|]);
    (split; [cbn; by rewrite length_copy_at|]); (split; [done|]); [by left|]. right. split; [done|]. split; [cbn; lia|apply masked_sequence].
Qed.

Lemma OnFrame_safe l f now w : frame_typed f → link_safe l → I w →
  link_safe (IsotpLink_OnFrame transmit l f now w).1.2 ∧ I (IsotpLink_OnFrame transmit l f now w).2.
Proof.
  intros Hf Hl Hw. unfold IsotpLink_OnFrame. case_match; [done|]. case_match; [split; [by apply onFlowControl_safe|done]|].
  case_match; [split; [by apply onSingleFrame_safe|done]|]. case_match; [by apply onFirstFrame_safe|].
  case_match; [split; [by apply onConsecutiveFrame_safe|done]|done].
Qed.

Lemma retryLater_safe l now : link_safe l → link_safe (retryLater l now).2.
Proof. intros Hl. unfold retryLater. case_match; [by apply fail_safe|exact Hl]. Qed.

Lemma idle_safe l s : link_safe l → is_state s = kISOTP_SENDER_IDLE → link_safe (with_sender l s).
Proof. intros (Hg & _ & Hr) Hs. split; [done|]. split; [by left|done]. Qed.

Lemma sendFirstFrame_safe l now w : link_safe l → is_state (il_sender l) = kISOTP_SENDER_FIRST_FRAME → I w →
  link_safe (sendFirstFrame transmit l now w).1.2 ∧ I (sendFirstFrame transmit l now w).2.
Proof.
  intros Hl Hst Hw. pose proof Hl as (Hg & Hs & Hr). destruct (tx_length_bounds l Hg) as [Ht Ha].
  destruct Hs as [Hs|(Hlen & Hmsg & _)]; [by rewrite Hs in Hst|].
  assert (∀ d, 1 ≤ zlen d → addressSize l + zlen d ≤ txDataLength l → I (transmitData transmit l d w).2) as Htx by (intros; by apply transmitData_safe).
  unfold sendFirstFrame, sendSingleFrame, sendSegmentedFirstFrame, classicSingleFrameCapacity, escapeSingleFrameCapacity, firstFrameCapacity,
    CLASSIC_FRAME_SIZE, SINGLE_FRAME_HEADER_SIZE, ESCAPE_SINGLE_FRAME_HEADER_SIZE, FIRST_FRAME_HEADER_SIZE.
  rewrite (u8_id (8 - addressSize l - 1)), (u8_id (txDataLength l - addressSize l - 2)) by lia. unfold zlen in *.
  case_match eqn:Hc.
  - match goal with |- context [transmitData transmit l ?x w] => set (d := x) end. assert (I (transmitData transmit l d w).2) as Hi.
    { apply orb_true_iff in Hc. apply Htx; subst d; destruct (Z.gtb_spec (is_length (il_sender l)) (8 - addressSize l - 1));
        cbn [app]; cbn [length]; rewrite ?length_take; try lia; destruct (Z.leb_spec (txDataLength l) 8); lia. }
    destruct (transmitData transmit l d w) as [[] w']; (split; [|exact Hi]); [by apply idle_safe|by apply retryLater_safe].
  - apply orb_false_iff in Hc as [Hc1 Hc2]. set (d := [_; _] ++ _). assert (I (transmitData transmit l d w).2) as Hi.
    { apply Htx; subst d; cbn [app length]; rewrite ?length_take; lia. }
    destruct (transmitData transmit l d w) as [[] w']; (split; [|exact Hi]); [|by apply retryLater_safe].
    split; [done|]. split; [|done]. right. cbn. split; [done|]. split; [done|]. right. split; [by left|]. split; [|unfold FIRST_SEQUENCE; lia].
    destruct (Z.leb_spec (txDataLength l) 8); lia.
Qed.

Lemma sendConsecutiveFrame_safe l now w : link_safe l → is_state (il_sender l) = kISOTP_SENDER_CONSECUTIVE_FRAMES → I w →
  link_safe (sendConsecutiveFrame transmit l now w).1.2 ∧ I (sendConsecutiveFrame transmit l now w).2.
Proof.
  intros Hl Hst Hw. pose proof Hl as (Hg & Hs & Hr). destruct (tx_length_bounds l Hg) as [Ht Ha].
  destruct Hs as [Hs|(Hlen & Hmsg & [Hs|(_ & Hoff & Hsq)])]; [by rewrite Hs in Hst|by rewrite Hs in Hst|].
  unfold sendConsecutiveFrame, consecutiveFrameCapacity, CONSECUTIVE_FRAME_HEADER_SIZE.
  rewrite (u16_id (is_length _ - is_offset _)) by lia. rewrite (u8_id (txDataLength l - addressSize l - 1)) by lia.
  set (size := if is_length (il_sender l) - is_offset (il_sender l) <? txDataLength l - addressSize l - 1 then u8 (is_length (il_sender l) - is_offset (il_sender l))
               else txDataLength l - addressSize l - 1).
  assert (0 < size ≤ is_length (il_sender l) - is_offset (il_sender l) ∧ size ≤ txDataLength l - addressSize l - 1) as Hsz.
  { subst size. case_match eqn:Hc; [apply Z.ltb_lt in Hc; rewrite u8_id|apply Z.ltb_ge in Hc]; lia. }
  set (d := [_] ++ _). assert (I (transmitData transmit l d w).2) as Hi.
  { apply transmitData_safe; try done; subst d; unfold zlen in *; cbn [app length]; rewrite length_slice; lia. }
  destruct (transmitData transmit l d w) as [[] w']; cbn [negb]; [|split; [by apply retryLater_safe|exact Hi]].
  rewrite (u16_id (is_offset _ + size)) by lia. cbn [is_offset is_length is_block_limited is_block_remaining is_state].
  destruct (Z.eqb_spec (is_offset (il_sender l) + size) (is_length (il_sender l))); [split; [by apply idle_safe|exact Hi]|].
  pose proof (masked_sequence (is_sequence (il_sender l) + 1)) as Hnx.
  case_match; (split; [|exact Hi]); (split; [done|]); (split; [|done]); right; cbn; (split; [done|]); (split; [done|]); right;
    (split; [|split; [lia|done]]); rewrite ?Hst; [by right|]. case_match; [by left|by right].
Qed.

Lemma send_due_safe n l now w : link_safe l → I w → link_safe (send_due transmit n l now w).1.2 ∧ I (send_due transmit n l now w).2.
Proof.
  revert l w. induction n as [|n IH]; intros l w Hl Hw; [done|]. cbn [send_due]. case_match; [done|]. case_match eqn:Hc; [|done].
  apply orb_true_iff in Hc.
  assert (link_safe (if is_state (il_sender l) =? kISOTP_SENDER_FIRST_FRAME then sendFirstFrame transmit l now w else sendConsecutiveFrame transmit l now w).1.2 ∧
          I (if is_state (il_sender l) =? kISOTP_SENDER_FIRST_FRAME then sendFirstFrame transmit l now w else sendConsecutiveFrame transmit l now w).2) as [Hl' Hw'].
  { destruct (Z.eqb_spec (is_state (il_sender l)) kISOTP_SENDER_FIRST_FRAME); [by apply sendFirstFrame_safe|].
    destruct Hc as [Hc|Hc]; [done|]. apply sendConsecutiveFrame_safe; [done| |done]. by apply Z.eqb_eq. }
  destruct (if is_state (il_sender l) =? kISOTP_SENDER_FIRST_FRAME then _ else _) as [[e l'] w']. cbn [fst snd] in Hl', Hw'.
  case_match; [by apply IH|done].
Qed.

Lemma Tick_safe l now w : link_safe l → I w → link_safe (IsotpLink_Tick transmit l now w).1.2 ∧ I (IsotpLink_Tick transmit l now w).2.
Proof.
  intros Hl Hw. pose proof Hl as (Hg & Hs & Hr).
  assert (link_safe (tickReceiver transmit l now w).1.2 ∧ I (tickReceiver transmit l now w).2) as [Hl' Hw'].
  { unfold tickReceiver. case_match eqn:Hst; [done|]. case_match. { case_match; [split; [by apply fail_safe|done]|done]. }
    case_match; [done|]. pose proof (transmitFlowControl_safe l FLOW_STATUS_CONTINUE w Hg Hw) as Hi.
    destruct (transmitFlowControl transmit l FLOW_STATUS_CONTINUE w) as [[] w']; (split; [|exact Hi]); exact Hl. }
  unfold IsotpLink_Tick. destruct (tickReceiver transmit l now w) as [[e l'] w']. cbn [fst snd] in Hl', Hw'. case_match; [done|].
  unfold tickSender. case_match; [case_match; [split; [by apply fail_safe|done]|done]|]. by apply send_due_safe.
Qed.

End Safety.

Lemma Open_safe l id channel p : link_safe l → geometry_ok p → link_safe (IsotpLink_Open l id channel p).
Proof. intros (_ & _ & Hb & Hl & _) Hg. split; [done|]. split; [by left|]. split; [done|]. split; [done|by left]. Qed.

Lemma Send_safe l message n now : link_safe l → 0 < n ≤ 4095 → n ≤ zlen message → link_safe (IsotpLink_Send l message n now).
Proof. intros (Hg & _ & Hr) Hn Hm. split; [done|]. split; [|done]. right. split; [done|]. split; [done|by left]. Qed.

Lemma Init_safe : link_safe IsotpLink_Init.
Proof. split; [done|]. split; [by left|]. split; [apply length_replicate|]. split; [cbn; lia|by left]. Qed.

(** ** Every history of a link

    The bus takes or refuses each frame as it likes: [answers] says which, the
    log keeps every frame handed over. *)
Definition logged (f : FrameMessage) (w : list bool * list FrameMessage) : bool * (list bool * list FrameMessage) :=
  (default true (head w.1), (tail w.1, w.2 ++ [f])).

Inductive link_step : IsotpLink * (list bool * list FrameMessage) → IsotpLink * (list bool * list FrameMessage) → Prop :=
| step_open l w id channel p : geometry_ok p → link_step (l, w) (IsotpLink_Open l id channel p, w)
| step_send l w message n now : 0 < n ≤ 4095 → n ≤ zlen message → link_step (l, w) (IsotpLink_Send l message n now, w)
| step_frame l w f now event l' w' : frame_typed f → IsotpLink_OnFrame logged l f now w = (event, l', w') → link_step (l, w) (l', w')
| step_tick l w now event l' w' : IsotpLink_Tick logged l now w = (event, l', w') → link_step (l, w) (l', w').

Definition log_sendable (w : list bool * list FrameMessage) : Prop := Forall frame_sendable w.2.

Lemma logged_sendable f w : frame_sendable f → log_sendable w → log_sendable (logged f w).2.
Proof. intros Hf Hw. apply Forall_app. split; [done|]. by constructor. Qed.

Lemma link_step_safe s s' : link_step s s' → link_safe s.1 ∧ log_sendable s.2 → link_safe s'.1 ∧ log_sendable s'.2.
Proof.
  intros Hs [Hl Hw]. destruct Hs as [l w id channel p Hg|l w message n now Hn Hm|l w f now event l' w' Hf He|l w now event l' w' He]; cbn [fst snd] in *.
  - split; [by apply Open_safe|done].
  - split; [by apply Send_safe|done].
  - pose proof (OnFrame_safe logged log_sendable logged_sendable l f now w Hf Hl Hw) as H. by rewrite He in H.
  - pose proof (Tick_safe logged log_sendable logged_sendable l now w Hl Hw) as H. by rewrite He in H.
Qed.

Lemma surjective_pairing_twice {A B C} (x : A * B * C) : x = (x.1.1, x.1.2, x.2).
Proof. by destruct x as [[??]?]. Qed.

(** C31. An ISO-TP link stays inside its buffers.  However the link is opened,
    given messages, ticked and fed with frames of any content, and whichever
    frames the bus refuses, the counters of the sender stay inside its message
    and those of the receiver inside its 4095-byte buffer, and every frame
    handed to the bus fits its frame format. *)
Theorem isotp_link_bounded answers s :
  rtc link_step (IsotpLink_Init, (answers, [])) s → link_safe s.1 ∧ log_sendable s.2.
Proof.
  intros Hr. assert (link_safe IsotpLink_Init ∧ log_sendable (answers, [])) as H0 by (split; [apply Init_safe|constructor]).
  revert H0. change IsotpLink_Init with (IsotpLink_Init, (answers, [] : list FrameMessage)).1 at 1.
  change (answers, []) with (IsotpLink_Init, (answers, [] : list FrameMessage)).2 at 2.
  induction Hr as [|x y z Hxy _ IH]; [done|]. intros H0. apply IH. by apply (link_step_safe x y).
Qed.

Lemma isotp_link_bounded_witness : ∃ s, rtc link_step (IsotpLink_Init, ([false], [])) s ∧ link_safe s.1 ∧ log_sendable s.2 ∧ length s.2.2 = 2%nat.
Proof.
  set (l := IsotpLink_Send IsotpLink_Init [1; 2; 3] 3 0).
  set (s1 := (IsotpLink_Tick logged l 0 ([false], [])).1.2). set (w1 := (IsotpLink_Tick logged l 0 ([false], [])).2).
  set (s2 := (IsotpLink_Tick logged s1 5000 w1).1.2). set (w2 := (IsotpLink_Tick logged s1 5000 w1).2).
  assert (rtc link_step (IsotpLink_Init, ([false], [])) (s2, w2)) as Hr.
  { eapply rtc_l; [apply (step_send _ _ [1; 2; 3] 3 0); [lia|vm_compute; congruence]|]. fold l.
    eapply rtc_l; [eapply (step_tick _ _ 0); apply surjective_pairing_twice|]. fold s1 w1.
    eapply rtc_l; [eapply (step_tick _ _ 5000); apply surjective_pairing_twice|]. apply rtc_refl. }
  exists (s2, w2). split; [exact Hr|]. destruct (isotp_link_bounded [false] (s2, w2) Hr) as [H1 H2]. split; [exact H1|]. split; [exact H2|]. reflexivity.
Defined.
