(* ===== verification/TransactionRunner.v ===== *)
(** * The transaction runner (src/agent/domain/transaction_runner.c)

    Executes one transaction at the bus: the records of its steps wait in a
    ring, each step transmits a frame or an ISO-TP message and waits for the
    frames that match its template.  Frames are matched as they arrive, the
    sequence moves on ticks, which carry the time.

    The port is a parameter over a world of any type.  A function that the code
    writes as [bool f(self, ...)] returns the boolean, the runner and the
    world. *)

From S2P Require Import Prelude Wire Codec FrameMessage TxnMessage TxnStepsMessage StepRing IsotpLink.

Definition TXN_STEP_RECORD_SIZE_MAX : Z := 272.
Definition TRANSACTION_STARVATION_TIMEOUT_US : Z := 5000000.
Definition TRANSACTION_TX_RETRY_US : Z := 1000.
Definition TRANSACTION_DEFAULT_TX_TIMEOUT_MS : Z := 1000.
Definition TRANSACTION_PROGRESS_FLUSH_US : Z := 10000.
Notation TRANSACTION_STEPS_PER_TICK_MAX := 64%nat (only parsing).
Definition TRANSACTION_EARLY_FRAMES_MAX : Z := 16.
Definition kTRANSACTION_PHASE_IDLE : Z := 0.
Definition kTRANSACTION_PHASE_TRANSMIT : Z := 1.
Definition kTRANSACTION_PHASE_WAIT : Z := 2.
Definition PROGRESS_THRESHOLD_DIVISOR : Z := 4.
Notation ORIGIN_PAYLOAD_BYTES := 4%nat (only parsing).
Notation TXN_PATTERN_PAYLOAD_BYTES := 8%nat (only parsing).
Definition ORIGIN_SHIFT_MAX : Z := 32.
Definition NO_TXN_ID : Z := 0.
Definition ISOTP_FLAGS_KNOWN : Z := 15.

(** ** State *)

Record ActiveStep := {
  ac_step : TxnStep; ac_record_size : Z; ac_phase : Z; ac_satisfied : bool; ac_extend_requested : bool; ac_message_started : bool;
  ac_deadline_us : Z; ac_retry_at_us : Z; ac_match_count : Z; ac_seen_count : Z; ac_seen_bitmap : Z; ac_has_rx_frame : bool;
  ac_rx_frame : TxnRxFrame;
}.

Record TransactionRunner := {
  rn_ring : StepRing; rn_templates : list TxnTemplateMessage; rn_defined_templates : Z; rn_origin : TxnOriginExtractor;
  rn_roster : list Z; rn_roster_count : Z; rn_active : bool; rn_txn_id : Z; rn_channel : Z; rn_interface_index : Z;
  rn_window_bytes : Z; rn_next_seq : Z; rn_steps_ended : bool; rn_completed_steps : Z; rn_pushed_bytes : Z; rn_consumed_bytes : Z;
  rn_reported_bytes : Z; rn_report_due_us : Z; rn_starve_deadline_us : Z; rn_next_transmit_us : Z; rn_last_tick_us : Z;
  rn_idle_timeout_us : Z; rn_last_frame_us : Z; rn_keepalive : TxnKeepalive; rn_current : ActiveStep; rn_isotp : IsotpLink;
  rn_message : list Z; rn_message_length : Z; rn_early_frames : list FrameMessage; rn_early_frame_count : Z;
}.

#[export] Instance ActiveStep_settable : Settable ActiveStep := λ a, {|
  ac_step := ac_step a; ac_record_size := ac_record_size a; ac_phase := ac_phase a; ac_satisfied := ac_satisfied a;
  ac_extend_requested := ac_extend_requested a; ac_message_started := ac_message_started a; ac_deadline_us := ac_deadline_us a;
  ac_retry_at_us := ac_retry_at_us a; ac_match_count := ac_match_count a; ac_seen_count := ac_seen_count a;
  ac_seen_bitmap := ac_seen_bitmap a; ac_has_rx_frame := ac_has_rx_frame a; ac_rx_frame := ac_rx_frame a |}.

#[export] Instance TransactionRunner_settable : Settable TransactionRunner := λ r, {|
  rn_ring := rn_ring r; rn_templates := rn_templates r; rn_defined_templates := rn_defined_templates r; rn_origin := rn_origin r;
  rn_roster := rn_roster r; rn_roster_count := rn_roster_count r; rn_active := rn_active r; rn_txn_id := rn_txn_id r;
  rn_channel := rn_channel r; rn_interface_index := rn_interface_index r; rn_window_bytes := rn_window_bytes r;
  rn_next_seq := rn_next_seq r; rn_steps_ended := rn_steps_ended r; rn_completed_steps := rn_completed_steps r;
  rn_pushed_bytes := rn_pushed_bytes r; rn_consumed_bytes := rn_consumed_bytes r; rn_reported_bytes := rn_reported_bytes r;
  rn_report_due_us := rn_report_due_us r; rn_starve_deadline_us := rn_starve_deadline_us r;
  rn_next_transmit_us := rn_next_transmit_us r; rn_last_tick_us := rn_last_tick_us r; rn_idle_timeout_us := rn_idle_timeout_us r;
  rn_last_frame_us := rn_last_frame_us r; rn_keepalive := rn_keepalive r; rn_current := rn_current r; rn_isotp := rn_isotp r;
  rn_message := rn_message r; rn_message_length := rn_message_length r; rn_early_frames := rn_early_frames r;
  rn_early_frame_count := rn_early_frame_count r |}.

Definition pattern_zero : TxnPattern := {| tp_can_id := 0; tp_can_mask := 0; tp_payload_mask := 0; tp_payload_value := 0 |}.
Definition template_zero : TxnTemplateMessage := {|
  tt_channel := 0; tt_template_id := 0; tt_txn_id := 0; tt_advance_mode := 0; tt_flags := 0; tt_count_k := 0; tt_patterns_present := 0;
  tt_timeout_ms := 0; tt_gap_us := 0; tt_extend_timeout_ms := 0; tt_type := 0; tt_advance := pattern_zero; tt_abort := pattern_zero;
  tt_extend := pattern_zero; tt_isotp := parameters_zero |}.
#[export] Instance template_inhabited : Inhabited TxnTemplateMessage := populate template_zero.
Definition rx_frame_zero : TxnRxFrame :=
  {| trx_can_id := 0; trx_payload_length := 0; trx_frame_flags := 0; trx_payload := replicate FRAME_PAYLOAD_MAX_FD 0 |}.
Definition frame_zero : FrameMessage := {|
  frame_can_id := 0; frame_timestamp_us := 0; frame_channel := 0; frame_payload_length := 0; frame_flags := 0; frame_route_flags := 0;
  frame_payload := replicate FRAME_PAYLOAD_MAX_FD 0 |}.
#[export] Instance frame_inhabited : Inhabited FrameMessage := populate frame_zero.
Definition origin_zero : TxnOriginExtractor := {| toe_source := 0; toe_shift := 0; toe_payload_offset := 0; toe_mask := 0 |}.
Definition keepalive_zero : TxnKeepalive := {|
  tka_period_ms := 0; tka_can_id := 0; tka_payload_length := 0; tka_frame_flags := 0; tka_payload := replicate FRAME_PAYLOAD_MAX_FD 0 |}.
Definition step_idle : ActiveStep := {|
  ac_step := TxnStep_zero; ac_record_size := 0; ac_phase := kTRANSACTION_PHASE_IDLE; ac_satisfied := false; ac_extend_requested := false;
  ac_message_started := false; ac_deadline_us := 0; ac_retry_at_us := 0; ac_match_count := 0; ac_seen_count := 0; ac_seen_bitmap := 0;
  ac_has_rx_frame := false; ac_rx_frame := rx_frame_zero |}.

(** [TransactionRunnerPort] *)
Record RunnerPort (W : Type) := {
  port_transmit : Z → FrameMessage → W → bool * W;
  port_progress : TxnProgressMessage → W → W;
  port_status : TxnStatusMessage → W → W;
  port_roster : TxnRosterReportMessage → W → W;
}.
Arguments port_transmit {W} _ _ _ _.
Arguments port_progress {W} _ _ _.
Arguments port_status {W} _ _ _.
Arguments port_roster {W} _ _ _.

(** ** Validation *)

Definition isBeginValid (begin : TxnBeginMessage) : bool :=
  let keepalive := tb_keepalive begin in
  (tka_period_ms keepalive =? 0) || FrameMessage_IsPayloadLengthValid (tka_payload_length keepalive) (tka_frame_flags keepalive).

Definition isRosterValid (roster : TxnRosterMessage) : bool :=
  if (tr_roster_count roster =? 0) || (tr_roster_count roster >? 64) then false
  else if negb (toe_source (tr_origin roster) =? kTXN_ORIGIN_SOURCE_CAN_ID) && negb (toe_source (tr_origin roster) =? kTXN_ORIGIN_SOURCE_PAYLOAD)
  then false
  else if toe_shift (tr_origin roster) >=? ORIGIN_SHIFT_MAX then false
  else toe_payload_offset (tr_origin roster) <? 64.

Definition isRosterMode (advance_mode : Z) : bool :=
  (advance_mode =? kTXN_ADVANCE_MODE_ROSTER_ALL) || (advance_mode =? kTXN_ADVANCE_MODE_ROSTER_K).

Definition isWaitingMode (advance_mode : Z) : bool := negb (advance_mode =? kTXN_ADVANCE_MODE_NONE).

Definition isTemplateDefined (self : TransactionRunner) (template_id : Z) : bool :=
  negb (Z.land (rn_defined_templates self) (Z.shiftl 1 template_id) =? 0).

Definition isIsotpDataLengthValid (isotp : TxnIsotpParameters) : bool :=
  if Z.land (ti_flags isotp) TXN_ISOTP_FLAG_FD =? 0 then
    (ti_tx_data_length isotp =? FRAME_PAYLOAD_MAX_CLASSIC) && (Z.land (ti_flags isotp) TXN_ISOTP_FLAG_BIT_RATE_SWITCH =? 0)
  else (ti_tx_data_length isotp >=? FRAME_PAYLOAD_MAX_CLASSIC) && FrameMessage_IsPayloadLengthValid (ti_tx_data_length isotp) FRAME_FLAG_FD.

Definition isTypeValid (template_message : TxnTemplateMessage) : bool :=
  let isotp := tt_isotp template_message in
  let mode := tt_advance_mode template_message in
  if tt_type template_message =? kTXN_TEMPLATE_TYPE_GENERIC then true
  else if negb (tt_type template_message =? kTXN_TEMPLATE_TYPE_ISOTP) then false
  else if negb (Z.ldiff (ti_flags isotp) ISOTP_FLAGS_KNOWN =? 0) || negb (isIsotpDataLengthValid isotp) then false
  else (mode =? kTXN_ADVANCE_MODE_NONE) || (mode =? kTXN_ADVANCE_MODE_COUNT).

Definition isTemplateValid (self : TransactionRunner) (template_message : TxnTemplateMessage) : bool :=
  let mode := tt_advance_mode template_message in
  if isTemplateDefined self (tt_template_id template_message) then false
  else if (mode >=? kTXN_ADVANCE_MODE_MAX) || negb (isTypeValid template_message) then false
  else if isWaitingMode mode && (tt_timeout_ms template_message =? 0) then false
  else if ((mode =? kTXN_ADVANCE_MODE_COUNT) || (mode =? kTXN_ADVANCE_MODE_ROSTER_K)) && (tt_count_k template_message =? 0) then false
  else if isRosterMode mode && (rn_roster_count self =? 0) then false
  else negb (mode =? kTXN_ADVANCE_MODE_ROSTER_K) || (tt_count_k template_message <=? rn_roster_count self).

Definition fitsTemplate (step : TxnStep) (template_message : TxnTemplateMessage) : bool :=
  let message := has_flag (st_flags step) TXN_STEP_FLAG_MESSAGE in
  if tt_type template_message =? kTXN_TEMPLATE_TYPE_ISOTP then message || has_flag (st_flags step) TXN_STEP_FLAG_EXPECT_ONLY
  else negb message.

Definition isPatternPresent (template_message : TxnTemplateMessage) (pattern : Z) : bool :=
  negb (Z.land (tt_patterns_present template_message) (Z.shiftl 1 pattern) =? 0).

(** [template_message->patterns[pattern]] *)
Definition pattern_at (template_message : TxnTemplateMessage) (pattern : Z) : TxnPattern :=
  if pattern =? kTXN_PATTERN_ADVANCE then tt_advance template_message
  else if pattern =? kTXN_PATTERN_ABORT then tt_abort template_message else tt_extend template_message.

(** ** Small reads *)

Definition currentTemplate (self : TransactionRunner) : TxnTemplateMessage := (rn_templates self).[st_template_id (ac_step (rn_current self))].

Definition templateTimeoutUs (template_message : TxnTemplateMessage) : Z := u64 (tt_timeout_ms template_message * MICROSECONDS_PER_MILLISECOND).

Definition transmitTimeoutUs (template_message : TxnTemplateMessage) : Z :=
  if tt_timeout_ms template_message =? 0 then u64 (TRANSACTION_DEFAULT_TX_TIMEOUT_MS * MICROSECONDS_PER_MILLISECOND)
  else templateTimeoutUs template_message.

Definition extendTimeoutUs (template_message : TxnTemplateMessage) : Z :=
  if tt_extend_timeout_ms template_message =? 0 then templateTimeoutUs template_message
  else u64 (tt_extend_timeout_ms template_message * MICROSECONDS_PER_MILLISECOND).

Definition idleTimeoutUs (begin : TxnBeginMessage) : Z :=
  if tb_idle_timeout_ms begin =? 0 then TRANSACTION_STARVATION_TIMEOUT_US else u64 (tb_idle_timeout_ms begin * MICROSECONDS_PER_MILLISECOND).

Definition keepaliveDueUs (self : TransactionRunner) : Z :=
  u64 (rn_last_frame_us self + u64 (tka_period_ms (rn_keepalive self) * MICROSECONDS_PER_MILLISECOND)).

Definition isIsotpStep (self : TransactionRunner) : bool :=
  if ac_phase (rn_current self) =? kTRANSACTION_PHASE_IDLE then false else tt_type (currentTemplate self) =? kTXN_TEMPLATE_TYPE_ISOTP.

Definition isOnBus (self : TransactionRunner) (interface_index : Z) (frame : FrameMessage) : bool :=
  if negb (rn_active self) || negb (interface_index =? rn_interface_index self) then false
  else Z.land (frame_route_flags frame) FRAME_ROUTE_FLAG_ECHO =? 0.

Definition isWaiting (self : TransactionRunner) : bool :=
  (ac_phase (rn_current self) =? kTRANSACTION_PHASE_WAIT) && negb (ac_satisfied (rn_current self)).

Definition isBetweenSteps (self : TransactionRunner) : bool :=
  if ac_phase (rn_current self) =? kTRANSACTION_PHASE_IDLE then true
  else (ac_phase (rn_current self) =? kTRANSACTION_PHASE_WAIT) && ac_satisfied (rn_current self).

Definition earliestWake (current candidate : Z) : Z :=
  if candidate =? 0 then current else if (current =? 0) || (candidate <? current) then candidate else current.

Definition transmitReadyUs (self : TransactionRunner) : Z :=
  let ready_us := rn_next_transmit_us self in
  let ready_us := if ac_retry_at_us (rn_current self) >? ready_us then ac_retry_at_us (rn_current self) else ready_us in
  if ready_us <? rn_last_tick_us self then rn_last_tick_us self else ready_us.

Definition findRosterIndex (self : TransactionRunner) (origin : Z) : option nat :=
  scan (λ o, o =? origin) (take (Z.to_nat (rn_roster_count self)) (rn_roster self)).

(** The loop [value |= (T)payload[offset + i] << (i * 8)] over the payload bytes that are there. *)
Fixpoint word_loop (n i : nat) (frame : FrameMessage) (offset word : Z) : Z :=
  match n with
  | O => word
  | S n' =>
      if offset + Z.of_nat i <? frame_payload_length frame
      then word_loop n' (S i) frame offset (Z.lor word (Z.shiftl ((frame_payload frame).[offset + Z.of_nat i]) (Z.of_nat i * 8))) else word
  end.

Definition payloadWord (frame : FrameMessage) : Z := word_loop TXN_PATTERN_PAYLOAD_BYTES 0 frame 0 0.

Definition payloadOrigin (frame : FrameMessage) (offset : Z) : Z := word_loop ORIGIN_PAYLOAD_BYTES 0 frame offset 0.

Definition extractOrigin (self : TransactionRunner) (frame : FrameMessage) : Z :=
  if toe_source (rn_origin self) =? kTXN_ORIGIN_SOURCE_NONE then 0
  else
    let source_value := if toe_source (rn_origin self) =? kTXN_ORIGIN_SOURCE_CAN_ID then Z.land (frame_can_id frame) FRAME_CAN_ID_MASK
                        else payloadOrigin frame (toe_payload_offset (rn_origin self)) in
    Z.shiftr (Z.land source_value (toe_mask (rn_origin self))) (toe_shift (rn_origin self)).

Definition matchesId (pattern : TxnPattern) (can_id : Z) : bool :=
  Z.land can_id (tp_can_mask pattern) =? Z.land (tp_can_id pattern) (tp_can_mask pattern).

Definition matchesPayload (payload_word payload_mask payload_value : Z) : bool :=
  Z.land payload_word payload_mask =? Z.land payload_value payload_mask.

Definition matchesPattern (pattern : TxnPattern) (frame : FrameMessage) (payload_word : Z) : bool :=
  matchesId pattern (frame_can_id frame) && matchesPayload payload_word (tp_payload_mask pattern) (tp_payload_value pattern).

Definition matchesTemplatePattern (template_message : TxnTemplateMessage) (pattern : Z) (frame : FrameMessage) (payload_word : Z) : bool :=
  if negb (isPatternPresent template_message pattern) then false else matchesPattern (pattern_at template_message pattern) frame payload_word.

Definition expectedValue (self : TransactionRunner) (template_message : TxnTemplateMessage) : Z :=
  if has_flag (st_flags (ac_step (rn_current self))) TXN_STEP_FLAG_EXPECT_VALUE then st_expect_value (ac_step (rn_current self))
  else tp_payload_value (pattern_at template_message kTXN_PATTERN_ADVANCE).

(** ** Effects *)

Section Runner.
Context {W : Type} (port : RunnerPort W).

Definition prepareStatus (self : TransactionRunner) (state reason : Z) : TxnStatusMessage :=
  let flags := if negb (ac_phase (rn_current self) =? kTRANSACTION_PHASE_IDLE) && isRosterMode (tt_advance_mode (currentTemplate self))
               then TXN_STATUS_FLAG_ROSTER_STEP else 0 in
  let has := ac_has_rx_frame (rn_current self) in
  {| ts_channel := rn_channel self; ts_state := state; ts_txn_id := rn_txn_id self; ts_failing_seq := rn_completed_steps self;
     ts_offending_origin := 0; ts_seen_bitmap := ac_seen_bitmap (rn_current self); ts_expected := 0; ts_got := 0;
     ts_completed_steps := rn_completed_steps self; ts_reason := reason;
     ts_flags := if has then Z.lor flags TXN_STATUS_FLAG_HAS_RX_FRAME else flags;
     ts_rx_frame := if has then ac_rx_frame (rn_current self) else rx_frame_zero |}.

Definition finish (self : TransactionRunner) (status : TxnStatusMessage) (w : W) : TransactionRunner * W :=
  let self := self <| rn_active := false |> in
  let self := self <| rn_ring := StepRing_Clear (rn_ring self) |> in
  (self, port_status port status w).

Definition abortWith (self : TransactionRunner) (reason failing_seq : Z) (w : W) : TransactionRunner * W :=
  let s := prepareStatus self kTXN_STATE_ABORTED reason in
  finish self
    {| ts_channel := ts_channel s; ts_state := ts_state s; ts_txn_id := ts_txn_id s; ts_failing_seq := failing_seq;
       ts_offending_origin := ts_offending_origin s; ts_seen_bitmap := ts_seen_bitmap s; ts_expected := ts_expected s; ts_got := ts_got s;
       ts_completed_steps := ts_completed_steps s; ts_reason := ts_reason s; ts_flags := ts_flags s; ts_rx_frame := ts_rx_frame s |} w.

Definition keepRxFrame (self : TransactionRunner) (frame : FrameMessage) : TransactionRunner :=
  let current := rn_current self <| ac_has_rx_frame := true |> in
  let rx := {| trx_can_id := frame_can_id frame; trx_payload_length := frame_payload_length frame; trx_frame_flags := frame_flags frame;
               trx_payload := copy_at 0 (take (Z.to_nat (frame_payload_length frame)) (frame_payload frame)) (trx_payload (ac_rx_frame current)) |} in
  self <| rn_current := current <| ac_rx_frame := rx |> |>.

Definition abortOnFrame (self : TransactionRunner) (reason : Z) (frame : FrameMessage) (expected got : Z) (w : W) : TransactionRunner * W :=
  let self := keepRxFrame self frame in
  let s := prepareStatus self kTXN_STATE_ABORTED reason in
  finish self
    {| ts_channel := ts_channel s; ts_state := ts_state s; ts_txn_id := ts_txn_id s; ts_failing_seq := ts_failing_seq s;
       ts_offending_origin := extractOrigin self frame; ts_seen_bitmap := ts_seen_bitmap s; ts_expected := expected; ts_got := got;
       ts_completed_steps := ts_completed_steps s; ts_reason := ts_reason s; ts_flags := ts_flags s; ts_rx_frame := ts_rx_frame s |} w.

Definition finishDone (self : TransactionRunner) (w : W) : TransactionRunner * W :=
  finish self (prepareStatus self kTXN_STATE_DONE kTXN_REASON_NONE) w.

Definition reportProgress (self : TransactionRunner) (w : W) : TransactionRunner * W :=
  let progress := {| tpr_channel := rn_channel self; tpr_txn_id := rn_txn_id self; tpr_completed_steps := rn_completed_steps self;
                     tpr_consumed_bytes := rn_consumed_bytes self |} in
  (self <| rn_reported_bytes := rn_consumed_bytes self |> <| rn_report_due_us := 0 |>, port_progress port progress w).

Definition flushProgress (self : TransactionRunner) (now_us : Z) (w : W) : TransactionRunner * W :=
  let pending := u32 (rn_consumed_bytes self - rn_reported_bytes self) in
  if pending =? 0 then (self, w)
  else if pending >=? rn_window_bytes self / PROGRESS_THRESHOLD_DIVISOR then reportProgress self w
  else if rn_report_due_us self =? 0 then (self <| rn_report_due_us := u64 (now_us + TRANSACTION_PROGRESS_FLUSH_US) |>, w)
  else if now_us >=? rn_report_due_us self then reportProgress self w
  else (self, w).

Definition reportMissingRoster (self : TransactionRunner) (w : W) : W :=
  if negb (isRosterMode (tt_advance_mode (currentTemplate self))) || (ac_seen_count (rn_current self) >=? rn_roster_count self) then w
  else port_roster port {| trr_channel := rn_channel self; trr_txn_id := rn_txn_id self; trr_seq := rn_completed_steps self;
                           trr_seen_bitmap := ac_seen_bitmap (rn_current self) |} w.

Definition releaseRecord (self : TransactionRunner) : TransactionRunner :=
  let self := self <| rn_ring := StepRing_Release (rn_ring self) (ac_record_size (rn_current self)) |> in
  self <| rn_consumed_bytes := u32 (rn_consumed_bytes self + ac_record_size (rn_current self)) |>.

Definition completeStep (self : TransactionRunner) (w : W) : TransactionRunner * W :=
  let w := reportMissingRoster self w in
  let self := releaseRecord self in
  let self := self <| rn_message_length := 0 |> in
  let self := self <| rn_completed_steps := u32 (rn_completed_steps self + 1) |> in
  (self <| rn_current := rn_current self <| ac_phase := kTRANSACTION_PHASE_IDLE |> |>, w).

Definition transmitTracked (self : TransactionRunner) (frame : FrameMessage) (now_us : Z) (w : W) : bool * TransactionRunner * W :=
  let '(ok, w) := port_transmit port (rn_interface_index self) frame w in
  if negb ok then (false, self, w) else (true, self <| rn_last_frame_us := now_us |>, w).

(** [transmitIsotpFrame]: the port of the runner's ISO-TP link. Of the runner it
    only changes the time of the last frame, which is the world of the link
    beside the port's. *)
Definition transmitIsotpFrame (self : TransactionRunner) (frame : FrameMessage) (w : Z * W) : bool * (Z * W) :=
  let '(ok, self, w) := transmitTracked (self <| rn_last_frame_us := w.1 |>) frame (rn_last_tick_us self) w.2 in
  (ok, (rn_last_frame_us self, w)).

(** Runs an operation of the link that may transmit. *)
Definition on_link (self : TransactionRunner) (f : IsotpLink → Z * W → Z * IsotpLink * (Z * W)) (w : W) : Z * TransactionRunner * W :=
  let '(event, link, (last_frame_us, w)) := f (rn_isotp self) (rn_last_frame_us self, w) in
  (event, self <| rn_isotp := link |> <| rn_last_frame_us := last_frame_us |>, w).

Definition startWait (self : TransactionRunner) (now_us : Z) : TransactionRunner :=
  let self := self <| rn_current := rn_current self <| ac_phase := kTRANSACTION_PHASE_WAIT |> |> in
  self <| rn_current := rn_current self <| ac_deadline_us := u64 (now_us + templateTimeoutUs (currentTemplate self)) |> |>.

Definition finishTransmit (self : TransactionRunner) (now_us : Z) (w : W) : bool * TransactionRunner * W :=
  let template_message := currentTemplate self in
  let self := self <| rn_next_transmit_us := u64 (now_us + tt_gap_us template_message) |> in
  if negb (isWaitingMode (tt_advance_mode template_message)) then let '(self, w) := completeStep self w in (true, self, w)
  else (true, startWait self now_us, w).

Definition transmitMessage (self : TransactionRunner) (now_us : Z) (w : W) : bool * TransactionRunner * W :=
  let self := if negb (ac_message_started (rn_current self)) then
                self <| rn_isotp := IsotpLink_Send (rn_isotp self) (rn_message self) (rn_message_length self) now_us |>
                     <| rn_current := rn_current self <| ac_message_started := true |> |>
              else self in
  let '(event, self, w) := on_link self (λ link, IsotpLink_Tick (transmitIsotpFrame self) link now_us) w in
  if event =? kISOTP_EVENT_FAILED then
    let '(self, w) := abortWith self (IsotpLink_FailureReason (rn_isotp self)) (rn_completed_steps self) w in (false, self, w)
  else if negb (event =? kISOTP_EVENT_SENT) then (false, self, w)
  else finishTransmit self now_us w.

Definition transmitStep (self : TransactionRunner) (now_us : Z) (w : W) : bool * TransactionRunner * W :=
  let template_message := currentTemplate self in
  if (now_us <? rn_next_transmit_us self) || (now_us <? ac_retry_at_us (rn_current self)) then (false, self, w)
  else if isIsotpStep self then transmitMessage self now_us w
  else
    let self := if ac_deadline_us (rn_current self) =? 0
                then self <| rn_current := rn_current self <| ac_deadline_us := u64 (now_us + transmitTimeoutUs template_message) |> |> else self in
    let step := ac_step (rn_current self) in
    let frame := {| frame_can_id := st_can_id step; frame_timestamp_us := 0; frame_channel := rn_channel self;
                    frame_payload_length := st_payload_length step; frame_flags := st_frame_flags step; frame_route_flags := 0;
                    frame_payload := copy_at 0 (take (Z.to_nat (st_payload_length step)) (st_payload step)) (replicate FRAME_PAYLOAD_MAX_FD 0) |} in
    let '(ok, self, w) := transmitTracked self frame now_us w in
    if negb ok then
      if now_us >=? ac_deadline_us (rn_current self) then
        let '(self, w) := abortWith self kTXN_REASON_TX_FAILED (rn_completed_steps self) w in (false, self, w)
      else (false, self <| rn_current := rn_current self <| ac_retry_at_us := u64 (now_us + TRANSACTION_TX_RETRY_US) |> |>, w)
    else finishTransmit self now_us w.

Definition gatherMessage (self : TransactionRunner) (w : W) : bool * TransactionRunner * W :=
  let step := ac_step (rn_current self) in
  if rn_message_length self + st_payload_length step >? 4095 then
    let '(self, w) := abortWith self kTXN_REASON_INVALID_STEP (rn_completed_steps self) w in (false, self, w)
  else
    let self := self <| rn_message := copy_at (Z.to_nat (rn_message_length self)) (take (Z.to_nat (st_payload_length step)) (st_payload step)) (rn_message self) |> in
    let self := self <| rn_message_length := u16 (rn_message_length self + st_payload_length step) |> in
    if Z.land (st_flags step) TXN_STEP_FLAG_CONTINUED =? 0 then (true, self, w) else (false, releaseRecord self, w).

Definition tickIsotp (self : TransactionRunner) (now_us : Z) (w : W) : bool * TransactionRunner * W :=
  let '(event, self, w) := on_link self (λ link, IsotpLink_Tick (transmitIsotpFrame self) link now_us) w in
  if negb (event =? kISOTP_EVENT_FAILED) then (true, self, w)
  else let '(self, w) := abortWith self (IsotpLink_FailureReason (rn_isotp self)) (rn_completed_steps self) w in (false, self, w).

(** ** Matching *)

Definition recordRosterAnswer (self : TransactionRunner) (frame : FrameMessage) : TransactionRunner :=
  let template_message := currentTemplate self in
  match findRosterIndex self (extractOrigin self frame) with
  | None => self
  | Some roster_index =>
      let roster_bit := u64 (Z.shiftl 1 (Z.of_nat roster_index)) in
      if negb (Z.land (ac_seen_bitmap (rn_current self)) roster_bit =? 0) then self
      else
        let current := rn_current self <| ac_seen_bitmap := Z.lor (ac_seen_bitmap (rn_current self)) roster_bit |> in
        let current := current <| ac_seen_count := u8 (ac_seen_count current + 1) |> in
        let needed := if tt_advance_mode template_message =? kTXN_ADVANCE_MODE_ROSTER_ALL then rn_roster_count self
                      else tt_count_k template_message in
        self <| rn_current := current <| ac_satisfied := ac_seen_count current >=? needed |> |>
  end.

Definition recordAnswer (self : TransactionRunner) (frame : FrameMessage) : TransactionRunner :=
  let template_message := currentTemplate self in
  let self := keepRxFrame self frame in
  if negb (tt_advance_mode template_message =? kTXN_ADVANCE_MODE_COUNT) then recordRosterAnswer self frame
  else
    let current := rn_current self <| ac_match_count := u8 (ac_match_count (rn_current self) + 1) |> in
    self <| rn_current := current <| ac_satisfied := ac_match_count current >=? tt_count_k template_message |> |>.

Definition matchAdvance (self : TransactionRunner) (template_message : TxnTemplateMessage) (frame : FrameMessage) (payload_word : Z) (w : W) : TransactionRunner * W :=
  let advance := pattern_at template_message kTXN_PATTERN_ADVANCE in
  let expected := expectedValue self template_message in
  if negb (matchesId advance (frame_can_id frame)) then (self, w)
  else if matchesPayload payload_word (tp_payload_mask advance) expected then (recordAnswer self frame, w)
  else if has_flag (tt_flags template_message) TXN_TEMPLATE_FLAG_MISMATCH_ABORT
  then abortOnFrame self kTXN_REASON_VALUE_MISMATCH frame expected payload_word w
  else (self, w).

Definition matchFrame (self : TransactionRunner) (frame : FrameMessage) (w : W) : TransactionRunner * W :=
  let template_message := currentTemplate self in
  let payload_word := payloadWord frame in
  if matchesTemplatePattern template_message kTXN_PATTERN_EXTEND frame payload_word then
    let self := keepRxFrame self frame in
    (self <| rn_current := rn_current self <| ac_extend_requested := true |> |>, w)
  else if matchesTemplatePattern template_message kTXN_PATTERN_ABORT frame payload_word
  then abortOnFrame self kTXN_REASON_ABORT_MATCH frame 0 payload_word w
  else if isPatternPresent template_message kTXN_PATTERN_ADVANCE then matchAdvance self template_message frame payload_word w
  else (self, w).

Definition feedIsotp (self : TransactionRunner) (frame : FrameMessage) (w : W) : TransactionRunner * W :=
  let '(event, self, w) := on_link self (λ link, IsotpLink_OnFrame (transmitIsotpFrame self) link frame (rn_last_tick_us self)) w in
  if event =? kISOTP_EVENT_FAILED then abortWith self (IsotpLink_FailureReason (rn_isotp self)) (rn_completed_steps self) w
  else if negb (event =? kISOTP_EVENT_MESSAGE) || negb (isWaiting self) then (self, w)
  else matchFrame self (IsotpLink_MessageFrame (rn_isotp self)) w.

Definition dispatchFrame (self : TransactionRunner) (frame : FrameMessage) (w : W) : TransactionRunner * W :=
  if isIsotpStep self then feedIsotp self frame w
  else if isWaiting self then matchFrame self frame w else (self, w).

Definition keepEarlyFrame (self : TransactionRunner) (frame : FrameMessage) : TransactionRunner :=
  if rn_early_frame_count self =? TRANSACTION_EARLY_FRAMES_MAX then self
  else self <| rn_early_frames := (rn_early_frames self).[rn_early_frame_count self := frame] |>
            <| rn_early_frame_count := u8 (rn_early_frame_count self + 1) |>.

(** [for(i=0; i<count && self->active; i++)] *)
Fixpoint replay_loop (n i : nat) (self : TransactionRunner) (w : W) : TransactionRunner * W :=
  match n with
  | O => (self, w)
  | S n' =>
      if rn_active self then let '(self, w) := dispatchFrame self (rn_early_frames self !!! i) w in replay_loop n' (S i) self w else (self, w)
  end.

Definition replayEarlyFrames (self : TransactionRunner) (w : W) : TransactionRunner * W :=
  let count := rn_early_frame_count self in
  replay_loop (Z.to_nat count) 0 (self <| rn_early_frame_count := 0 |>) w.

(** ** The sequence *)

Definition sendKeepaliveIfDue (self : TransactionRunner) (now_us : Z) (w : W) : TransactionRunner * W :=
  let keepalive := rn_keepalive self in
  if (tka_period_ms keepalive =? 0) || (now_us <? keepaliveDueUs self) then (self, w)
  else
    let frame := {| frame_can_id := tka_can_id keepalive; frame_timestamp_us := 0; frame_channel := rn_channel self;
                    frame_payload_length := tka_payload_length keepalive; frame_flags := tka_frame_flags keepalive; frame_route_flags := 0;
                    frame_payload := copy_at 0 (take (Z.to_nat (tka_payload_length keepalive)) (tka_payload keepalive)) (replicate FRAME_PAYLOAD_MAX_FD 0) |} in
    let '(ok, self, w) := transmitTracked self frame now_us w in
    (if ok then self <| rn_early_frame_count := 0 |> else self, w).

Definition waitForSteps (self : TransactionRunner) (now_us : Z) (w : W) : bool * TransactionRunner * W :=
  let self := if rn_starve_deadline_us self =? 0 then self <| rn_starve_deadline_us := u64 (now_us + rn_idle_timeout_us self) |> else self in
  if now_us >=? rn_starve_deadline_us self then
    let '(self, w) := abortWith self kTXN_REASON_STARVED (rn_completed_steps self) w in (false, self, w)
  else let '(self, w) := sendKeepaliveIfDue self now_us w in (false, self, w).

Definition loadNextStep (self : TransactionRunner) (now_us : Z) (w : W) : bool * TransactionRunner * W :=
  let record := default [] (StepRing_Peek (rn_ring self)) in
  let available := zlen record in
  if (available =? 0) && rn_steps_ended self then let '(self, w) := finishDone self w in (false, self, w)
  else if available =? 0 then waitForSteps self now_us w
  else
    let '(size, step) := TxnStep_Decode TxnStep_zero record in
    let self := self <| rn_current := step_idle <| ac_step := step |> <| ac_record_size := u32 (Z.of_nat size) |> |>
                     <| rn_starve_deadline_us := 0 |> in
    let '(whole, self, w) := if has_flag (st_flags step) TXN_STEP_FLAG_MESSAGE then gatherMessage self w else (true, self, w) in
    if negb whole then (rn_active self, self, w)
    else
      let self := if tt_type (currentTemplate self) =? kTXN_TEMPLATE_TYPE_ISOTP
                  then self <| rn_isotp := IsotpLink_Open (rn_isotp self) (st_can_id step) (rn_channel self) (tt_isotp (currentTemplate self)) |> else self in
      if has_flag (st_flags step) TXN_STEP_FLAG_EXPECT_ONLY then
        let '(self, w) := replayEarlyFrames (startWait self now_us) w in (rn_active self, self, w)
      else (true, self <| rn_current := rn_current self <| ac_phase := kTRANSACTION_PHASE_TRANSMIT |> |> <| rn_early_frame_count := 0 |>, w).

Definition settleWait (self : TransactionRunner) (now_us : Z) (w : W) : bool * TransactionRunner * W :=
  let template_message := currentTemplate self in
  let '(ok, self, w) := if isIsotpStep self then tickIsotp self now_us w else (true, self, w) in
  if negb ok then (false, self, w)
  else if ac_satisfied (rn_current self) then let '(self, w) := completeStep self w in (true, self, w)
  else
    let self := if ac_extend_requested (rn_current self) then
                  self <| rn_current := rn_current self <| ac_extend_requested := false |>
                                                         <| ac_deadline_us := u64 (now_us + extendTimeoutUs template_message) |> |>
                else self in
    if now_us <? ac_deadline_us (rn_current self) then (false, self, w)
    else if has_flag (tt_flags template_message) TXN_TEMPLATE_FLAG_SOFT then let '(self, w) := completeStep self w in (true, self, w)
    else let '(self, w) := abortWith self kTXN_REASON_TIMEOUT (rn_completed_steps self) w in (false, self, w).

Definition runOnce (self : TransactionRunner) (now_us : Z) (w : W) : bool * TransactionRunner * W :=
  if ac_phase (rn_current self) =? kTRANSACTION_PHASE_IDLE then loadNextStep self now_us w
  else if ac_phase (rn_current self) =? kTRANSACTION_PHASE_TRANSMIT then transmitStep self now_us w
  else settleWait self now_us w.

Definition pushRecord (self : TransactionRunner) (step : TxnStep) (record : list Z) (record_size : nat) (seq : Z) (w : W) : bool * TransactionRunner * W :=
  let refused reason := let '(self, w) := abortWith self reason seq w in (false, self, w) in
  if Nat.eqb record_size 0 || negb (isTemplateDefined self (st_template_id step)) then refused kTXN_REASON_INVALID_STEP
  else
    let template_message := (rn_templates self).[st_template_id step] in
    if negb (fitsTemplate step template_message) then refused kTXN_REASON_INVALID_STEP
    else if has_flag (st_flags step) TXN_STEP_FLAG_EXPECT_ONLY && negb (isWaitingMode (tt_advance_mode template_message))
    then refused kTXN_REASON_INVALID_STEP
    else
      let in_flight := u32 (rn_pushed_bytes self - rn_consumed_bytes self) in
      let size := u32 (Z.of_nat record_size) in
      if in_flight + Z.of_nat record_size >? rn_window_bytes self then refused kTXN_REASON_OVERRUN
      else
        let '(ok, ring) := StepRing_Push (rn_ring self) record size in
        if negb ok then let '(self, w) := abortWith (self <| rn_ring := ring |>) kTXN_REASON_OVERRUN seq w in (false, self, w)
        else (true, self <| rn_ring := ring |> <| rn_pushed_bytes := u32 (rn_pushed_bytes self + size) |>, w).

(** [for(i=0; i<steps->step_count; i++)]: the sequence number after the last record, or [None] when the push was refused. *)
Fixpoint push_loop (n : nat) (self : TransactionRunner) (step : TxnStep) (records : list Z) (seq : Z) (w : W) : option Z * TransactionRunner * W :=
  match n with
  | O => (Some seq, self, w)
  | S n' =>
      let '(record_size, step) := TxnStep_Decode step records in
      let '(ok, self, w) := pushRecord self step records record_size seq w in
      if negb ok then (None, self, w)
      else push_loop n' self step (drop record_size records) (if Z.land (st_flags step) TXN_STEP_FLAG_CONTINUED =? 0 then u32 (seq + 1) else seq) w
  end.

(** ** Public operations *)

Definition TransactionRunner_Init (ring_storage : list Z) (ring_capacity : Z) : TransactionRunner := {|
  rn_ring := StepRing_Init ring_storage ring_capacity; rn_templates := replicate 16 template_zero; rn_defined_templates := 0;
  rn_origin := origin_zero; rn_roster := replicate TXN_ROSTER_MAX 0; rn_roster_count := 0; rn_active := false; rn_txn_id := 0;
  rn_channel := 0; rn_interface_index := 0; rn_window_bytes := u32 (ring_capacity - TXN_STEP_RECORD_SIZE_MAX); rn_next_seq := 0;
  rn_steps_ended := false; rn_completed_steps := 0; rn_pushed_bytes := 0; rn_consumed_bytes := 0; rn_reported_bytes := 0;
  rn_report_due_us := 0; rn_starve_deadline_us := 0; rn_next_transmit_us := 0; rn_last_tick_us := 0; rn_idle_timeout_us := 0;
  rn_last_frame_us := 0; rn_keepalive := keepalive_zero; rn_current := step_idle; rn_isotp := IsotpLink_Init;
  rn_message := replicate TXN_ISOTP_MESSAGE_SIZE_MAX 0; rn_message_length := 0; rn_early_frames := replicate 16 frame_zero;
  rn_early_frame_count := 0 |}.

Definition TransactionRunner_Begin (self : TransactionRunner) (begin : TxnBeginMessage) (interface_index now_us : Z) : TxnBeginAckMessage * TransactionRunner :=
  let ack status txn_id window := {| tba_channel := tb_channel begin; tba_status := status; tba_txn_id := txn_id; tba_window_bytes := window |} in
  if rn_active self then (ack kTXN_BEGIN_STATUS_BUSY NO_TXN_ID 0, self)
  else if negb (isBeginValid begin) then (ack kTXN_BEGIN_STATUS_INVALID NO_TXN_ID 0, self)
  else
    let txn_id := u16 (rn_txn_id self + 1) in
    let txn_id := if txn_id =? NO_TXN_ID then u16 (txn_id + 1) else txn_id in
    let self := {|
      rn_ring := StepRing_Clear (rn_ring self); rn_templates := rn_templates self; rn_defined_templates := 0; rn_origin := origin_zero;
      rn_roster := rn_roster self; rn_roster_count := 0; rn_active := true; rn_txn_id := txn_id; rn_channel := tb_channel begin;
      rn_interface_index := interface_index; rn_window_bytes := rn_window_bytes self; rn_next_seq := 0; rn_steps_ended := false;
      rn_completed_steps := 0; rn_pushed_bytes := 0; rn_consumed_bytes := 0; rn_reported_bytes := 0; rn_report_due_us := 0;
      rn_starve_deadline_us := u64 (now_us + idleTimeoutUs begin); rn_next_transmit_us := 0; rn_last_tick_us := now_us;
      rn_idle_timeout_us := idleTimeoutUs begin; rn_last_frame_us := now_us; rn_keepalive := tb_keepalive begin; rn_current := step_idle;
      rn_isotp := rn_isotp self; rn_message := rn_message self; rn_message_length := 0; rn_early_frames := rn_early_frames self;
      rn_early_frame_count := 0 |} in
    (ack kTXN_BEGIN_STATUS_OK txn_id (rn_window_bytes self), self).

Definition TransactionRunner_DefineRoster (self : TransactionRunner) (roster : TxnRosterMessage) (w : W) : TransactionRunner * W :=
  if negb (rn_active self) || negb (tr_txn_id roster =? rn_txn_id self) then (self, w)
  else if negb (rn_roster_count self =? 0) || negb (isRosterValid roster) then abortWith self kTXN_REASON_INVALID_STEP (rn_next_seq self) w
  else (self <| rn_origin := tr_origin roster |> <| rn_roster_count := tr_roster_count roster |> <| rn_roster := tr_roster roster |>, w).

Definition TransactionRunner_DefineTemplate (self : TransactionRunner) (template_message : TxnTemplateMessage) (w : W) : TransactionRunner * W :=
  if negb (rn_active self) || negb (tt_txn_id template_message =? rn_txn_id self) then (self, w)
  else if negb (isTemplateValid self template_message) then abortWith self kTXN_REASON_INVALID_STEP (rn_next_seq self) w
  else
    (self <| rn_templates := (rn_templates self).[tt_template_id template_message := template_message] |>
          <| rn_defined_templates := Z.lor (rn_defined_templates self) (u16 (Z.shiftl 1 (tt_template_id template_message))) |>, w).

Definition TransactionRunner_PushSteps (self : TransactionRunner) (steps : TxnStepsMessage) (w : W) : TransactionRunner * W :=
  if negb (rn_active self) || negb (tsm_txn_id steps =? rn_txn_id self) then (self, w)
  else if rn_steps_ended self || negb (tsm_first_seq steps =? rn_next_seq self)
  then abortWith self kTXN_REASON_INVALID_STEP (tsm_first_seq steps) w
  else
    let '(seq, self, w) := push_loop (Z.to_nat (tsm_step_count steps)) self TxnStep_zero (tsm_records steps) (tsm_first_seq steps) w in
    match seq with
    | None => (self, w)
    | Some seq => (self <| rn_next_seq := seq |> <| rn_steps_ended := has_flag (tsm_flags steps) TXN_STEPS_FLAG_END |>, w)
    end.

Definition TransactionRunner_OnFrame (self : TransactionRunner) (interface_index : Z) (frame : FrameMessage) (w : W) : TransactionRunner * W :=
  if negb (isOnBus self interface_index frame) then (self, w)
  else if isBetweenSteps self then (keepEarlyFrame self frame, w)
  else dispatchFrame self frame w.

(** [for(i=0; i<TRANSACTION_STEPS_PER_TICK_MAX && self->active; i++)] *)
Fixpoint tick_loop (n : nat) (self : TransactionRunner) (now_us : Z) (w : W) : TransactionRunner * W :=
  match n with
  | O => (self, w)
  | S n' =>
      if rn_active self then
        let '(more, self, w) := runOnce self now_us w in if more then tick_loop n' self now_us w else (self, w)
      else (self, w)
  end.

Definition TransactionRunner_Tick (self : TransactionRunner) (now_us : Z) (w : W) : TransactionRunner * W :=
  if negb (rn_active self) then (self, w)
  else
    let self := self <| rn_last_tick_us := now_us |> in
    let '(self, w) := tick_loop TRANSACTION_STEPS_PER_TICK_MAX self now_us w in
    if rn_active self then flushProgress self now_us w else (self, w).

Definition TransactionRunner_Abort (self : TransactionRunner) (txn_id : Z) (w : W) : TransactionRunner * W :=
  if negb (rn_active self) || negb (txn_id =? rn_txn_id self) then (self, w)
  else abortWith self kTXN_REASON_CANCELLED (rn_completed_steps self) w.

Definition TransactionRunner_Cancel (self : TransactionRunner) : TransactionRunner :=
  self <| rn_active := false |> <| rn_ring := StepRing_Clear (rn_ring self) |>.

Definition TransactionRunner_IsActive (self : TransactionRunner) : bool := rn_active self.

Definition TransactionRunner_NextWakeUs (self : TransactionRunner) : Z :=
  let current := rn_current self in
  if negb (rn_active self) then 0
  else
    let wake_us := earliestWake 0 (rn_report_due_us self) in
    if ac_phase current =? kTRANSACTION_PHASE_IDLE then
      if negb (StepRing_IsEmpty (rn_ring self)) || rn_steps_ended self then rn_last_tick_us self
      else
        let wake_us := if negb (tka_period_ms (rn_keepalive self) =? 0) then earliestWake wake_us (keepaliveDueUs self) else wake_us in
        earliestWake wake_us (rn_starve_deadline_us self)
    else if (ac_phase current =? kTRANSACTION_PHASE_TRANSMIT) && ac_message_started current
    then earliestWake wake_us (IsotpLink_NextWakeUs (rn_isotp self))
    else if ac_phase current =? kTRANSACTION_PHASE_TRANSMIT then earliestWake wake_us (transmitReadyUs self)
    else
      let wake_us := earliestWake wake_us (ac_deadline_us current) in
      if isIsotpStep self then earliestWake wake_us (IsotpLink_NextWakeUs (rn_isotp self)) else wake_us.

End Runner.
