(* ===== verification/RunnerInvariant.v ===== *)
(** * The runner under any history

    What every operation of the runner preserves: the ring holds records it can
    run, the byte and step counters agree with the records consumed and waiting,
    the frames handed to the bus are well formed, and a transaction ends with
    exactly one status. *)

From S2P Require Import Prelude Wire Codec FrameMessage TxnMessage TxnStepsMessage StepRing IsotpLink IsotpSafety TransactionRunner.

(** ** The world: what the bus answers, and everything that left the runner *)

Inductive runner_out :=
| OutFrame (interface_index : Z) (frame : FrameMessage)
| OutProgress (progress : TxnProgressMessage)
| OutStatus (status : TxnStatusMessage)
| OutRoster (report : TxnRosterReportMessage).

Definition rworld : Type := list bool * list runner_out.

Definition log_port : RunnerPort rworld := {|
  port_transmit index frame w := (default true (head w.1), (tail w.1, w.2 ++ [OutFrame index frame]));
  port_progress progress w := (w.1, w.2 ++ [OutProgress progress]);
  port_status status w := (w.1, w.2 ++ [OutStatus status]);
  port_roster report w := (w.1, w.2 ++ [OutRoster report]) |}.

Definition status_of (o : runner_out) : option TxnStatusMessage := match o with OutStatus s => Some s | _ => None end.
Definition statuses (w : rworld) : list TxnStatusMessage := omap status_of w.2.
Definition log_ok (w : rworld) : Prop := Forall (λ o, match o with OutFrame _ f => frame_sendable f | _ => True end) w.2.

Lemma statuses_app w o : statuses (w.1, w.2 ++ [o]) = statuses w ++ omap status_of [o].
Proof. unfold statuses. cbn [snd]. by rewrite omap_app. Qed.

Lemma statuses_same w ws o : status_of o = None → statuses (ws, w.2 ++ [o]) = statuses w.
Proof. intros Ho. unfold statuses. cbn [snd]. rewrite omap_app. cbn. rewrite Ho. apply app_nil_r. Qed.

Lemma log_ok_app w ws o : log_ok w → (∀ i f, o = OutFrame i f → frame_sendable f) → log_ok (ws, w.2 ++ [o]).
Proof. intros Hw Ho. apply Forall_app. split; [done|]. constructor; [|constructor]. destruct o; [by eapply Ho|done..]. Qed.

(** ** Records *)

(** The record's bytes decode to [s], whatever follows and whatever was there before. *)
Definition decodes (r : list Z) (s : TxnStep) : Prop :=
  (0 < length r)%nat ∧ ∀ old rest, TxnStep_Decode old (r ++ rest) = (length r, s).

Lemma decode_sizes old records n s : TxnStep_Decode old records = (n, s) → n ≠ 0%nat →
  (n ≤ length records)%nat ∧ n = TxnStep_RecordSize s ∧ isStepValid s = true.
Proof.
  unfold TxnStep_Decode. case_match; [by intros [= <- _]|]. case_match eqn:Hv; [by intros [= <- _]|]. case_match eqn:Hl; [by intros [= <- _]|].
  intros [= <- <-] _. apply Nat.ltb_ge in Hl. apply negb_false_iff in Hv. done.
Qed.

Lemma slice_take o n k (l : list Z) : (o + n ≤ k)%nat → slice o n (take k l) = slice o n l.
Proof. intros Hle. unfold slice. apply list_eq. intros i. destruct (decide (i < n)%nat).
  - rewrite !lookup_take_lt by lia. rewrite !lookup_drop, lookup_take_lt by lia. done.
  - rewrite !lookup_take_ge by lia. done.
Qed.

Lemma slice_app_l o n (a b : list Z) : (o + n ≤ length a)%nat → slice o n (a ++ b) = slice o n a.
Proof. intros Hle. rewrite <- (slice_take o n (length a) (a ++ b)) by done. by rewrite take_app_length. Qed.

Lemma read_u16_ext (l l' : list Z) o : slice o 2 l = slice o 2 l' → (o + 2 ≤ length l)%nat → Wire_ReadU16 l o = Wire_ReadU16 l' o.
Proof.
  intros Hs Hl. unfold Wire_ReadU16. pose proof (slice_lookup_total o 2 l 0 _ Hs ltac:(lia)) as H0. pose proof (slice_lookup_total o 2 l 1 _ Hs ltac:(lia)) as H1.
  rewrite lookup_total_slice in H0, H1 by lia. rewrite !Nat.add_0_r in H0. by rewrite H0, H1.
Qed.

Lemma read_u32_ext (l l' : list Z) o : slice o 4 l = slice o 4 l' → (o + 4 ≤ length l)%nat → Wire_ReadU32 l o = Wire_ReadU32 l' o.
Proof.
  intros Hs Hl. unfold Wire_ReadU32. assert (∀ k n, (k + n ≤ 4)%nat → slice (o + k) n l = slice (o + k) n l') as Hk.
  { intros k n Hn. rewrite <- (slice_slice k n o 4 l), <- (slice_slice k n o 4 l') by lia. by rewrite Hs. }
  pose proof (Hk 0 2 ltac:(lia))%nat as H0. rewrite !Nat.add_0_r in H0. rewrite (read_u16_ext l l' o), (read_u16_ext l l' (o + 2)); try lia; auto.
Qed.

Lemma read_u64_ext (l l' : list Z) o : slice o 8 l = slice o 8 l' → (o + 8 ≤ length l)%nat → Wire_ReadU64 l o = Wire_ReadU64 l' o.
Proof.
  intros Hs Hl. unfold Wire_ReadU64. assert (∀ k n, (k + n ≤ 8)%nat → slice (o + k) n l = slice (o + k) n l') as Hk.
  { intros k n Hn. rewrite <- (slice_slice k n o 8 l), <- (slice_slice k n o 8 l') by lia. by rewrite Hs. }
  pose proof (Hk 0 4 ltac:(lia))%nat as H0. rewrite !Nat.add_0_r in H0. rewrite (read_u32_ext l l' o), (read_u32_ext l l' (o + 4)); try lia; auto.
Qed.

(** Decoding reads nothing past the record. *)
Lemma decode_ext old old' l l' n s :
  TxnStep_Decode old l = (n, s) → n ≠ 0%nat → (n ≤ length l')%nat → take n l' = take n l → 0 ≤ l !!! 2%nat → TxnStep_Decode old' l' = (n, s).
Proof.
  intros Hd Hn Hl' Ht Hnn. destruct (decode_sizes _ _ _ _ Hd Hn) as (Hle & Hsz & Hv).
  assert (8 ≤ n)%nat as H8 by (rewrite Hsz; unfold TxnStep_RecordSize, recordSize; lia).
  assert (∀ o k, (o + k ≤ n)%nat → slice o k l' = slice o k l) as Hs.
  { intros o k Hk. rewrite <- (slice_take o k n l'), <- (slice_take o k n l) by lia. by rewrite Ht. }
  assert (∀ i, (i < n)%nat → l' !!! i = l !!! i) as Hi.
  { intros i Hi. pose proof (slice_lookup_total i 1 l' 0 _ (Hs i 1%nat ltac:(lia)) ltac:(lia)) as H. rewrite Nat.add_0_r in H. rewrite H.
    rewrite lookup_total_slice by lia. f_equal. lia. }
  revert Hd. unfold TxnStep_Decode. rewrite (proj2 (Nat.ltb_ge (length l') 8)), (proj2 (Nat.ltb_ge (length l) 8)) by lia.
  rewrite !(Hi 0%nat), !(Hi 1%nat), !(Hi 2%nat), !(Hi 3%nat) by lia. rewrite (read_u32_ext l' l 4) by (apply Hs || idtac; lia).
  set (head := {| st_template_id := _ |}). destruct (negb (isStepValid head)); [intros [= H0 _]; congruence|].
  destruct (Nat.ltb_spec (length l) (TxnStep_RecordSize head)) as [Hlt|Hge]; [intros [= H0 _]; congruence|]. intros [= Hsz' <-].
  rewrite (proj2 (Nat.ltb_ge (length l') _)) by (rewrite Hsz'; lia). rewrite Hsz'. f_equal.
  assert (n = 8 + paddedPayloadSize (st_payload_length head) + (if has_flag (st_flags head) TXN_STEP_FLAG_EXPECT_VALUE then 8 else 0))%nat as Hn'
    by (rewrite <- Hsz'; reflexivity).
  pose proof (padded_size_bounds (st_payload_length head) Hnn) as [Hpad _].
  change (st_flags head) with (l !!! 1%nat) in *. change (st_payload_length head) with (l !!! 2%nat) in *. f_equal.
  - destruct (has_flag (l !!! 1%nat) TXN_STEP_FLAG_EXPECT_VALUE); [|done]. apply read_u64_ext; [apply Hs|]; lia.
  - rewrite Hs; [done|]. lia.
Qed.

Lemma decodes_taken old l n s : TxnStep_Decode old l = (n, s) → n ≠ 0%nat → bytes l → decodes (take n l) s ∧ length (take n l) = n.
Proof.
  intros Hd Hn Hb. destruct (decode_sizes _ _ _ _ Hd Hn) as (Hle & Hsz & _). assert (length (take n l) = n) as Hlen by (rewrite length_take; lia).
  assert (8 ≤ n)%nat as H8 by (rewrite Hsz; unfold TxnStep_RecordSize, recordSize; lia).
  split; [|done]. split; [lia|]. intros old' rest. rewrite Hlen. eapply decode_ext; [exact Hd|done|rewrite length_app; lia| |].
  - rewrite take_app_le by lia. by rewrite take_take, Nat.min_id.
  - rewrite list_lookup_total_alt. destruct (l !! 2%nat) as [x|] eqn:Hx; [|done]. pose proof (proj1 (Forall_lookup _ _) Hb _ _ Hx) as Hu.
    unfold is_u8 in Hu. cbn. lia.
Qed.

(** ** The invariant *)

Definition template_ok (t : TxnTemplateMessage) : Prop := tt_type t = kTXN_TEMPLATE_TYPE_ISOTP → geometry_ok (tt_isotp t).

Definition defined (defs id : Z) : bool := negb (Z.land defs (Z.shiftl 1 id) =? 0).

(** A record that [pushRecord] accepted: it decodes to a valid step of a defined template that fits it. *)
Definition record_ok (tpls : list TxnTemplateMessage) (defs : Z) (r : list Z) : Prop :=
  ∃ s, decodes r s ∧ isStepValid s = true ∧ 0 ≤ st_template_id s < 16 ∧ is_u8 (st_payload_length s) ∧ length (st_payload s) = 255%nat ∧
    defined defs (st_template_id s) = true ∧ fitsTemplate s (tpls.[st_template_id s]) = true.

(** The last record of a step: sequence numbers count these. *)
Definition final_record (r : list Z) : bool := Z.land (st_flags (TxnStep_Decode TxnStep_zero r).2) TXN_STEP_FLAG_CONTINUED =? 0.
Definition finals (rs : list (list Z)) : Z := zlen (filter (λ r, final_record r = true) rs).

(** The record of the step being run is at the front of the ring. *)
Definition current_ok (self : TransactionRunner) (rs : list (list Z)) : Prop :=
  ac_phase (rn_current self) = kTRANSACTION_PHASE_IDLE ∨
  (ac_phase (rn_current self) = kTRANSACTION_PHASE_TRANSMIT ∨ ac_phase (rn_current self) = kTRANSACTION_PHASE_WAIT) ∧
  ∃ r rest, rs = r :: rest ∧ decodes r (ac_step (rn_current self)) ∧ ac_record_size (rn_current self) = zlen r ∧
    final_record r = true ∧
    (ac_phase (rn_current self) = kTRANSACTION_PHASE_TRANSMIT →
       has_flag (st_flags (ac_step (rn_current self))) TXN_STEP_FLAG_EXPECT_ONLY = false ∧
       (has_flag (st_flags (ac_step (rn_current self))) TXN_STEP_FLAG_MESSAGE = true → 0 < rn_message_length self) ∧
       (ac_message_started (rn_current self) = true → is_state (il_sender (rn_isotp self)) ≠ kISOTP_SENDER_IDLE)).

(** What holds whether a transaction runs or not. *)
Record base (cap : Z) (self : TransactionRunner) (w : rworld) : Prop := {
  bs_ring : ∃ rs, ring_rep 272 (rn_ring self) rs;
  bs_cap : capacity (rn_ring self) = cap ∧ rn_window_bytes self = cap - 272 ∧ 272 ≤ cap ∧ cap + 272 < 4294967296;
  bs_templates : length (rn_templates self) = 16%nat;
  bs_link : link_safe (rn_isotp self);
  bs_message : length (rn_message self) = 4095%nat ∧ 0 ≤ rn_message_length self ≤ 4095;
  bs_early : length (rn_early_frames self) = 16%nat ∧ Forall frame_typed (rn_early_frames self) ∧ 0 ≤ rn_early_frame_count self ≤ 16;
  bs_log : log_ok w;
}.

Definition keepalive_ok (k : TxnKeepalive) : Prop :=
  tka_period_ms k ≠ 0 → 0 ≤ tka_payload_length k ∧ FrameMessage_IsPayloadLengthValid (tka_payload_length k) (tka_frame_flags k) = true.

(** The counters of a running transaction whose consumed and waiting records are these. *)
Definition accounts (self : TransactionRunner) (seq : Z) (consumed rs : list (list Z)) : Prop :=
  rn_consumed_bytes self = u32 (zlen (concat consumed)) ∧ rn_pushed_bytes self = u32 (zlen (concat (consumed ++ rs))) ∧
  rn_completed_steps self = u32 (finals consumed) ∧ seq = u32 (finals (consumed ++ rs)).

Definition templates_ok (tpls : list TxnTemplateMessage) (defs : Z) : Prop :=
  ∀ id, 0 ≤ id < 16 → defined defs id = true → template_ok (tpls.[id]).

Definition running_at (cap seq : Z) (self : TransactionRunner) (w : rworld) : Prop :=
  base cap self w ∧ rn_active self = true ∧ keepalive_ok (rn_keepalive self) ∧ 0 ≤ rn_defined_templates self ∧
  templates_ok (rn_templates self) (rn_defined_templates self) ∧
  ∃ consumed rs, ring_rep 272 (rn_ring self) rs ∧ Forall (record_ok (rn_templates self) (rn_defined_templates self)) rs ∧
    accounts self seq consumed rs ∧ current_ok self rs.

Definition running (cap : Z) (self : TransactionRunner) (w : rworld) : Prop := running_at cap (rn_next_seq self) self w.

(** What an operation of a running transaction leaves: the transaction goes on
    and no status went out, or it is over and exactly one did, its own. *)
Definition over (cap : Z) (self : TransactionRunner) (w : rworld) (self' : TransactionRunner) (w' : rworld) : Prop :=
  rn_active self' = false ∧ base cap self' w' ∧ ∃ s, ts_txn_id s = rn_txn_id self ∧ statuses w' = statuses w ++ [s].

Definition after (cap : Z) (self : TransactionRunner) (w : rworld) (self' : TransactionRunner) (w' : rworld) : Prop :=
  rn_txn_id self' = rn_txn_id self ∧ (running cap self' w' ∧ statuses w' = statuses w ∨ over cap self w self' w').

(** The fields the invariant reads. *)
Definition base_view (self : TransactionRunner) :=
  (rn_ring self, rn_window_bytes self, rn_templates self, rn_isotp self, rn_message self, rn_message_length self, rn_early_frames self,
   rn_early_frame_count self).
Definition step_view (a : ActiveStep) := (ac_step a, ac_record_size a, ac_phase a, ac_message_started a).
Definition view (self : TransactionRunner) :=
  (base_view self, rn_active self, rn_keepalive self, rn_defined_templates self, rn_consumed_bytes self, rn_pushed_bytes self,
   rn_completed_steps self, rn_next_seq self, step_view (rn_current self), rn_txn_id self).

Lemma base_ext cap self self' w : base_view self' = base_view self → base cap self w → base cap self' w.
Proof. unfold base_view. intros [= H1 H2 H3 H4 H5 H6 H7 H8] []. split; congruence || by rewrite ?H1, ?H2, ?H3, ?H4, ?H5, ?H6, ?H7, ?H8. Qed.

Lemma running_ext cap self self' w : view self' = view self → running cap self w → running cap self' w.
Proof.
  unfold view. intros [= R1 R2 R3 R4 R5 R6 R7 R8 Ha Hk Hd Hc Hp Hcs Hs S1 S2 S3 S4 Ht] (Hbase & Hact & Hka & Hdn & Htp & consumed & rs & Hr & Hf & Hacc & Hcur).
  split; [apply (base_ext cap self); [unfold base_view; congruence|done]|]. rewrite Ha, Hk, Hd, R3. do 4 (split; [done|]).
  exists consumed, rs. rewrite R1. split; [done|]. split; [done|]. unfold accounts, current_ok in *. rewrite Hc, Hp, Hcs, Hs, S1, S2, S3, S4, R4, R6. done.
Qed.

(** ** Ending a transaction *)

Lemma ring_cleared rmax s rs : ring_rep rmax s rs → ring_rep rmax (StepRing_Clear s) [].
Proof. intros [(Hl & Hc & Hov) _ _ _ _]. split; cbn; [done|by constructor|done|done|]. split; [apply segment_empty|done]. Qed.

Lemma base_cleared cap self w : base cap self w → base cap (self <| rn_active := false |> <| rn_ring := StepRing_Clear (rn_ring self) |>) w.
Proof. intros [[rs Hr] ? ? ? ? ? ?]. split; cbn; try done. eexists. by eapply ring_cleared. Qed.

Lemma base_world cap self w w' : base cap self w → log_ok w' → base cap self w'.
Proof. intros [] Hw. by split. Qed.

Lemma finish_after cap self status w :
  base cap self w → ts_txn_id status = rn_txn_id self → let '(self', w') := finish log_port self status w in after cap self w self' w'.
Proof.
  intros Hb Hs. split; [done|]. right. split; [done|]. split.
  - apply (base_world _ _ w); [exact (base_cleared cap self w Hb)|]. apply log_ok_app; [apply Hb|done].
  - exists status. split; [done|]. apply statuses_app.
Qed.

Lemma abortWith_after cap self reason seq w :
  base cap self w → let '(self', w') := abortWith log_port self reason seq w in after cap self w self' w'.
Proof. intros Hb. by apply finish_after. Qed.

(** Steps that no status is about. *)
Definition silent (self : TransactionRunner) (w : rworld) (self' : TransactionRunner) (w' : rworld) : Prop :=
  rn_txn_id self' = rn_txn_id self ∧ statuses w' = statuses w.

Lemma silent_after cap self w self1 w1 self' w' : silent self w self1 w1 → after cap self1 w1 self' w' → after cap self w self' w'.
Proof.
  intros [Ht Hs] [Ht' H]. split; [congruence|]. destruct H as [[Hr Hs']|(Ha & Hb & s & Hs1 & Hs2)]; [left; split; [done|congruence]|].
  right. split; [done|]. split; [done|]. exists s. split; [congruence|]. by rewrite Hs2, Hs.
Qed.

Lemma running_after cap self w self' w' : silent self w self' w' → running cap self' w' → after cap self w self' w'.
Proof. intros [Ht Hs] Hr. split; [done|]. by left. Qed.

Lemma running_base cap self w : running cap self w → base cap self w.
Proof. by intros [? _]. Qed.

Lemma abort_after cap self w self1 w1 reason seq :
  silent self w self1 w1 → base cap self1 w1 →
  let '(self', w') := abortWith log_port self1 reason seq w1 in after cap self w self' w'.
Proof.
  intros Hs Hb. pose proof (abortWith_after cap self1 reason seq w1 Hb) as H. destruct (abortWith log_port self1 reason seq w1) as [self' w'].
  by eapply silent_after.
Qed.

(** ** Transmission *)

Lemma running_log cap self w w' : running cap self w → log_ok w' → running cap self w'.
Proof. intros [Hb H] Hw. split; [by eapply base_world|done]. Qed.

Lemma transmitted w index f : log_ok w → frame_sendable f →
  log_ok (port_transmit log_port index f w).2 ∧ statuses (port_transmit log_port index f w).2 = statuses w.
Proof.
  intros Hw Hf. split; [apply log_ok_app; [done|by intros ? ? [= _ <-]]|].
  by apply statuses_same.
Qed.

Lemma transmitTracked_running cap self f now w :
  running cap self w → frame_sendable f →
  let '(ok, self', w') := transmitTracked log_port self f now w in
  running cap self' w' ∧ silent self w self' w' ∧ view self' = view self ∧ rn_current self' = rn_current self.
Proof.
  intros Hr Hf. unfold transmitTracked. destruct (transmitted w (rn_interface_index self) f (bs_log _ _ _ (running_base _ _ _ Hr)) Hf) as [Hl Hs].
  destruct (port_transmit log_port (rn_interface_index self) f w) as [[] w']; cbn [fst snd negb] in *.
  - split; [|done]. eapply running_ext; [|by eapply running_log]. done.
  - split; [by eapply running_log|done].
Qed.

(** The link runs in the runner's world. *)
Definition link_world (st : list TxnStatusMessage) (w : Z * rworld) : Prop := log_ok w.2 ∧ statuses w.2 = st.

Lemma transmitIsotpFrame_keeps self st f w : frame_sendable f → link_world st w → link_world st (transmitIsotpFrame log_port self f w).2.
Proof.
  intros Hf [Hl Hs]. unfold transmitIsotpFrame, transmitTracked. cbn [rn_interface_index].
  match goal with |- context [port_transmit log_port ?i f w.2] => destruct (transmitted w.2 i f Hl Hf) as [Hl' Hs']; destruct (port_transmit log_port i f w.2) as [[] w'] end;
    cbn [fst snd negb] in *; split; cbn [snd]; congruence || done.
Qed.

(** Leaving the transmit phase does not depend on it. *)
Definition to_wait (self : TransactionRunner) : TransactionRunner :=
  self <| rn_current := rn_current self <| ac_phase := kTRANSACTION_PHASE_WAIT |> |>.

Lemma to_wait_running cap self w : running cap self w → ac_phase (rn_current self) ≠ kTRANSACTION_PHASE_IDLE → running cap (to_wait self) w.
Proof.
  intros (Hb & Hact & Hka & Hdn & Htp & consumed & rs & Hring & Hrec & Hacc & Hcur) Hph. split; [by destruct Hb; split|]. do 4 (split; [done|]).
  exists consumed, rs. do 3 (split; [done|]). destruct Hcur as [Hi|(_ & r & rest & -> & Hd & Hsz & Hfin & _)]; [done|].
  right. split; [by right|]. exists r, rest. by split_and!.
Qed.

(** What an operation of the link leaves of the runner: the link is safe, the rest is as it was. *)
Lemma on_link_running cap self w f :
  running cap self w →
  (∀ w0, link_world (statuses w) w0 → link_safe (f (rn_isotp self) w0).1.2 ∧ link_world (statuses w) (f (rn_isotp self) w0).2) →
  let '(event, self', w') := on_link self f w in
  base cap self' w' ∧ silent self w self' w' ∧ rn_current self' = rn_current self ∧
  event = (f (rn_isotp self) (rn_last_frame_us self, w)).1.1 ∧ rn_isotp self' = (f (rn_isotp self) (rn_last_frame_us self, w)).1.2 ∧
  ((ac_phase (rn_current self) = kTRANSACTION_PHASE_TRANSMIT → ac_message_started (rn_current self) = true →
      is_state (il_sender (rn_isotp self')) ≠ kISOTP_SENDER_IDLE) → running cap self' w') ∧
  (ac_phase (rn_current self) ≠ kTRANSACTION_PHASE_IDLE → running cap (to_wait self') w').
Proof.
  intros Hr Hf. pose proof (running_base _ _ _ Hr) as Hb.
  destruct (Hf (rn_last_frame_us self, w)) as [Hl [Hlog Hst]]; [split; [apply Hb|done]|]. unfold on_link.
  destruct (f (rn_isotp self) (rn_last_frame_us self, w)) as [[event link] [last w']]. cbn [fst snd] in *.
  assert (base cap (self <| rn_isotp := link |> <| rn_last_frame_us := last |>) w') as Hb'.
  { destruct Hb as [[rs Hrs] ? ? ? ? ? ?]. split; cbn; try done. by exists rs. }
  split; [done|]. split; [done|]. split; [done|]. split; [done|]. split; [done|].
  destruct Hr as (_ & Hact & Hka & Hdn & Htp & consumed & rs & Hring & Hrec & Hacc & Hcur). split; intros Hsend.
  2: { split; [by destruct Hb'; split|]. do 4 (split; [done|]). exists consumed, rs. do 3 (split; [done|]).
       destruct Hcur as [Hi|(_ & r & rest & -> & Hd & Hsz & Hfin & _)]; [done|]. right. split; [by right|]. exists r, rest. by split_and!. }
  split; [done|]. do 4 (split; [done|]).
  exists consumed, rs. split; [done|]. split; [done|]. split; [done|]. destruct Hcur as [Hi|(Hp & r & rest & -> & Hd & Hsz & Hfin & Htx)]; [by left|].
  right. split; [done|]. exists r, rest. split; [done|]. split; [done|]. split; [done|]. split; [done|]. intros Hp1. destruct (Htx Hp1) as (H1 & H2 & _).
  split; [done|]. split; [done|]. by apply Hsend.
Qed.

(** ** The link goes idle only with an event *)

Definition sending (l : IsotpLink) : Prop := is_state (il_sender l) ≠ kISOTP_SENDER_IDLE.
Definition ends (event : Z) : Prop := event = kISOTP_EVENT_SENT ∨ event = kISOTP_EVENT_FAILED.

Section Sending.
Context {U : Type} (tx : FrameMessage → U → bool * U).

Lemma send_first_keeps l now u : sending l → let '(e, l', _) := sendFirstFrame tx l now u in sending l' ∨ ends e.
Proof.
  intros Hs. unfold sendFirstFrame, sendSingleFrame, sendSegmentedFirstFrame, retryLater, fail.
  destruct (_ || _); match goal with |- context [transmitData tx l ?d u] => destruct (transmitData tx l d u) as [[] u'] end; cbn [negb];
    repeat case_match; simplify_eq; cbn; first [left; exact Hs|left; discriminate|by right; left|by right; right].
Qed.

Lemma send_consecutive_keeps l now u : sending l → let '(e, l', _) := sendConsecutiveFrame tx l now u in sending l' ∨ ends e.
Proof.
  intros Hs. unfold sendConsecutiveFrame, retryLater, fail.
  match goal with |- context [transmitData tx l ?d u] => destruct (transmitData tx l d u) as [[] u'] end; cbn [negb];
    repeat case_match; simplify_eq; cbn; first [left; exact Hs|left; discriminate|by right; left|by right; right|idtac].
  all: left; unfold sending; cbn; case_match; done.
Qed.

Lemma send_due_keeps n l now u : sending l → let '(e, l', _) := send_due tx n l now u in sending l' ∨ ends e.
Proof.
  revert l u. induction n as [|n IH]; intros l u Hs; [by left|]. cbn [send_due]. destruct (now <? _); [by left|]. destruct (_ || _); [|by left].
  assert (let '(e, l', _) := if is_state (il_sender l) =? kISOTP_SENDER_FIRST_FRAME then sendFirstFrame tx l now u else sendConsecutiveFrame tx l now u
          in sending l' ∨ ends e) as Hk by (destruct (_ =? _); [by apply send_first_keeps|by apply send_consecutive_keeps]).
  destruct (if is_state (il_sender l) =? kISOTP_SENDER_FIRST_FRAME then _ else _) as [[e l'] u'].
  destruct (Z.eqb_spec e kISOTP_EVENT_NONE) as [->|]; [|done]. destruct Hk as [Hk|[Hk|Hk]]; [|done..]. by apply IH.
Qed.

Lemma tick_keeps l now u : sending l → let '(e, l', _) := IsotpLink_Tick tx l now u in sending l' ∨ ends e.
Proof.
  intros Hs. unfold IsotpLink_Tick, tickReceiver.
  assert (∀ u, let '(e, l', _) := tickSender tx l now u in sending l' ∨ ends e) as Ht.
  { intros v. unfold tickSender. destruct (_ =? _); [destruct (_ >=? _); [by right; right|by left]|]. by apply send_due_keeps. }
  assert (∀ r u, let '(e, l', _) := tickSender tx (with_receiver l r) now u in sending l' ∨ ends e) as Htr.
  { intros r v. unfold tickSender. cbn [with_receiver il_sender]. destruct (_ =? _); [destruct (_ >=? _); [by right; right|by left]|]. by apply send_due_keeps. }
  destruct (negb (ir_state _ =? _)); [apply Ht|]. destruct (negb (ir_flow_control_pending _)); [destruct (_ >=? _); [by right; right|apply Ht]|].
  destruct (now <? _); [apply Ht|].
  destruct (transmitFlowControl tx l FLOW_STATUS_CONTINUE u) as [[] u']; apply Htr.
Qed.

Lemma frame_keeps l f now u : sending l → let '(e, l', _) := IsotpLink_OnFrame tx l f now u in sending l' ∨ e = kISOTP_EVENT_FAILED.
Proof.
  intros Hs. unfold IsotpLink_OnFrame, onFlowControl, onSingleFrame, onFirstFrame, onConsecutiveFrame, fail.
  repeat case_match; simplify_eq; cbn; first [left; exact Hs|left; discriminate|by right].
Qed.

End Sending.
