(* ===== verification/RunnerSound.v ===== *)
(** * Every operation of the runner keeps its invariant

    One lemma per function of the code: from a running transaction it leaves a
    running transaction and no status, or ends it with exactly one. *)

From S2P Require Import Prelude Wire Codec FrameMessage TxnMessage TxnStepsMessage StepRing IsotpLink IsotpSafety TransactionRunner RunnerInvariant.

Lemma u32_add_l a b : u32 (u32 a + b) = u32 (a + b).
Proof. unfold u32. apply Zplus_mod_idemp_l. Qed.

Lemma finals_app l k : finals (l ++ k) = finals l + finals k.
Proof. unfold finals. rewrite filter_app. apply zlen_app. Qed.

Lemma finals_one r : finals [r] = if final_record r then 1 else 0.
Proof. unfold finals. rewrite filter_cons, filter_nil. destruct (final_record r); [by rewrite decide_True|by rewrite decide_False]. Qed.

Lemma release_capacity s n : capacity (StepRing_Release s n) = capacity s.
Proof. unfold StepRing_Release, StepRing_Clear, wrapReadAtEndOfFirstSegment. repeat case_match; done. Qed.

Lemma push_capacity s r n : capacity (StepRing_Push s r n).2 = capacity s.
Proof. unfold StepRing_Push, pushWrapped, pushContiguous. repeat case_match; done. Qed.

(** ** Completing a step *)

(** The record at the front is released: it moves from the waiting ones to the consumed ones. *)
Lemma release_front self seq consumed r rest tpls defs :
  ring_rep 272 (rn_ring self) (r :: rest) → Forall (record_ok tpls defs) (r :: rest) → ac_record_size (rn_current self) = zlen r →
  accounts self seq consumed (r :: rest) →
  let self' := releaseRecord self in
  ring_rep 272 (rn_ring self') rest ∧ Forall (record_ok tpls defs) rest ∧ capacity (rn_ring self') = capacity (rn_ring self) ∧
  rn_consumed_bytes self' = u32 (zlen (concat (consumed ++ [r]))) ∧ rn_pushed_bytes self' = u32 (zlen (concat ((consumed ++ [r]) ++ rest))) ∧
  seq = u32 (finals ((consumed ++ [r]) ++ rest)) ∧ u32 (rn_completed_steps self + finals [r]) = u32 (finals (consumed ++ [r])).
Proof.
  intros Hr Hf Hsz (Hc & Hp & Hd & Hs). apply Forall_cons in Hf as [_ Hf]. cbn. rewrite Hsz. split; [by apply ring_release|]. split; [done|].
  split; [apply release_capacity|]. rewrite <- app_assoc. cbn [app]. split_and!; [|done|done|].
  - rewrite Hc, u32_add_l, zlen_concat_snoc. done.
  - rewrite Hd, u32_add_l, finals_app. done.
Qed.

Lemma roster_reported self w : log_ok w → log_ok (reportMissingRoster log_port self w) ∧ statuses (reportMissingRoster log_port self w) = statuses w.
Proof.
  intros Hw. unfold reportMissingRoster. case_match; [done|]. split; [by apply log_ok_app|].
  by apply statuses_same.
Qed.

Lemma completeStep_running cap self w :
  running cap self w → ac_phase (rn_current self) ≠ kTRANSACTION_PHASE_IDLE →
  let '(self', w') := completeStep log_port self w in running cap self' w' ∧ silent self w self' w'.
Proof.
  intros (Hb & Hact & Hka & Hdn & Htp & consumed & rs & Hring & Hrec & Hacc & Hcur) Hph.
  destruct Hcur as [Hi|(_ & r & rest & -> & _ & Hsz & Hfin & _)]; [done|].
  destruct (roster_reported self w (bs_log _ _ _ Hb)) as [Hlog Hst]. unfold completeStep.
  destruct (release_front self (rn_next_seq self) consumed r rest _ _ Hring Hrec Hsz Hacc) as (H1 & H2 & H3 & H4 & H5 & H6 & H7).
  rewrite finals_one, Hfin in H7. split; [|done]. split.
  { destruct Hb as [_ Hcap ? ? [? ?] ? ?]. split; cbn; try done; try (split; [done|lia]); [by exists rest|by rewrite release_capacity]. }
  do 4 (split; [done|]). exists (consumed ++ [r]), rest. split; [exact H1|]. split; [exact H2|]. split; [|by left].
  split; [exact H4|]. split; [exact H5|]. split; [exact H7|exact H6].
Qed.

(** ** Updates that the invariant does not read *)

Lemma current_update cap self c w : running cap self w → step_view c = step_view (rn_current self) → running cap (self <| rn_current := c |>) w.
Proof. intros Hr Hc. apply (running_ext cap self); [|done]. unfold view. cbn. by rewrite Hc. Qed.

Lemma startWait_running cap self now w : running cap self w → ac_phase (rn_current self) ≠ kTRANSACTION_PHASE_IDLE → running cap (startWait self now) w.
Proof.
  intros (Hb & Hact & Hka & Hdn & Htp & consumed & rs & Hring & Hrec & Hacc & Hcur) Hph. split; [by destruct Hb; split|]. do 4 (split; [done|]).
  exists consumed, rs. split; [done|]. split; [done|]. split; [done|]. destruct Hcur as [Hi|(_ & r & rest & -> & Hd & Hsz & Hfin & _)]; [done|].
  right. split; [by right|]. exists r, rest. by split_and!.
Qed.

Lemma finishTransmit_running cap self now w :
  running cap self w → ac_phase (rn_current self) ≠ kTRANSACTION_PHASE_IDLE →
  let '(_, self', w') := finishTransmit log_port self now w in running cap self' w' ∧ silent self w self' w'.
Proof.
  intros Hr Hph. unfold finishTransmit. set (self1 := self <| rn_next_transmit_us := _ |>).
  assert (running cap self1 w) as Hr1 by (apply (running_ext cap self); done).
  destruct (negb (isWaitingMode _)).
  - pose proof (completeStep_running cap self1 w Hr1 Hph) as Hc. destruct (completeStep log_port self1 w) as [self' w']. exact Hc.
  - split; [by apply startWait_running|done].
Qed.

Lemma finishTransmit_to_wait self now w : finishTransmit log_port (to_wait self) now w = finishTransmit log_port self now w.
Proof. reflexivity. Qed.

(** ** Transmitting *)

(** The record at the front of the step being run. *)
Lemma current_record cap self w :
  running cap self w → ac_phase (rn_current self) ≠ kTRANSACTION_PHASE_IDLE →
  let s := ac_step (rn_current self) in
  isStepValid s = true ∧ 0 ≤ st_template_id s < 16 ∧ is_u8 (st_payload_length s) ∧ length (st_payload s) = 255%nat ∧
  fitsTemplate s (currentTemplate self) = true ∧ template_ok (currentTemplate self).
Proof.
  intros (Hb & Hact & Hka & Hdn & Htp & consumed & rs & Hring & Hrec & Hacc & Hcur) Hph.
  destruct Hcur as [Hi|(_ & r & rest & -> & Hd & _)]; [done|]. apply Forall_cons in Hrec as [(s & Hs & Hv & Hid & Hu & Hl & Hdef & Hfit) _].
  assert (s = ac_step (rn_current self)) as ->.
  { destruct Hs as [_ Hs], Hd as [_ Hd]. specialize (Hs TxnStep_zero []). rewrite Hd in Hs. by injection Hs. }
  split_and!; try done; try lia. apply Htp; [lia|done].
Qed.

(** A step whose template is generic is a frame the bus can carry. *)
Lemma generic_frame s t :
  isStepValid s = true → fitsTemplate s t = true → tt_type t ≠ kTXN_TEMPLATE_TYPE_ISOTP →
  FrameMessage_IsPayloadLengthValid (st_payload_length s) (st_frame_flags s) = true.
Proof.
  intros Hv Hf Ht. unfold fitsTemplate in Hf. rewrite (proj2 (Z.eqb_neq _ _) Ht) in Hf. apply negb_true_iff in Hf. revert Hv. unfold isStepValid.
  rewrite Hf. repeat case_match; done.
Qed.

Lemma frame_of_payload id channel len flags payload :
  0 ≤ len → FrameMessage_IsPayloadLengthValid len flags = true →
  frame_sendable {| frame_can_id := id; frame_timestamp_us := 0; frame_channel := channel; frame_payload_length := len; frame_flags := flags;
                    frame_route_flags := 0; frame_payload := copy_at 0 payload (replicate FRAME_PAYLOAD_MAX_FD 0) |}.
Proof. intros H0 Hv. split; cbn [frame_payload frame_payload_length frame_flags frame_route_flags]; [by rewrite length_copy_at|done]. Qed.

Lemma link_world_tick self st link now w0 :
  link_safe link → link_world st w0 →
  link_safe (IsotpLink_Tick (transmitIsotpFrame log_port self) link now w0).1.2 ∧ link_world st (IsotpLink_Tick (transmitIsotpFrame log_port self) link now w0).2.
Proof. intros Hl Hw. apply Tick_safe; [|done|done]. intros f w1 Hf Hw1. by apply transmitIsotpFrame_keeps. Qed.

Lemma transmitMessage_after cap self now w :
  running cap self w → ac_phase (rn_current self) = kTRANSACTION_PHASE_TRANSMIT → isIsotpStep self = true →
  let '(_, self', w') := transmitMessage log_port self now w in after cap self w self' w'.
Proof.
  intros Hr Hph Hiso. pose proof (running_base _ _ _ Hr) as Hb. unfold transmitMessage.
  set (self1 := if negb (ac_message_started (rn_current self)) then _ else _).
  assert (running cap self1 w ∧ silent self w self1 w ∧ ac_phase (rn_current self1) = kTRANSACTION_PHASE_TRANSMIT ∧
          ac_message_started (rn_current self1) = true ∧ sending (rn_isotp self1)) as (Hr1 & Hs1 & Hp1 & Hm1 & Hsend).
  { destruct (current_record cap self w Hr) as (Hv & _ & Hu & _ & Hfit & _); [by rewrite Hph|].
    pose proof Hr as (_ & Hact & Hka & Hdn & Htp & consumed & rs & Hring & Hrec & Hacc & Hcur).
    destruct Hcur as [Hi|(Hpp & r & rest & -> & Hd & Hsz & Hfin & Htx)]; [by rewrite Hph in Hi|]. destruct (Htx Hph) as (He & Hml & Hst).
    unfold isIsotpStep in Hiso. rewrite Hph in Hiso. change (kTRANSACTION_PHASE_TRANSMIT =? kTRANSACTION_PHASE_IDLE) with false in Hiso. cbv iota in Hiso.
    assert (has_flag (st_flags (ac_step (rn_current self))) TXN_STEP_FLAG_MESSAGE = true) as Hmf.
    { unfold fitsTemplate in Hfit. rewrite Hiso, He, orb_false_r in Hfit. done. }
    specialize (Hml Hmf). subst self1. destruct (ac_message_started (rn_current self)) eqn:Hms; cbn [negb].
    { split_and!; try done. by apply Hst. }
    split; [|split_and!; done]. split.
    { destruct Hb as [? ? ? ? [? ?] ? ?]. split; cbn; try done. apply Send_safe; [done|lia|]. unfold zlen. lia. }
    do 4 (split; [done|]). exists consumed, (r :: rest). do 3 (split; [done|]). right. split; [done|]. exists r, rest. by split_and!. }
  clearbody self1. pose proof (on_link_running cap self1 w (λ link, IsotpLink_Tick (transmitIsotpFrame log_port self1) link now) Hr1) as Hon.
  destruct (on_link self1 (λ link, IsotpLink_Tick (transmitIsotpFrame log_port self1) link now) w) as [[event self2] w2].
  destruct Hon as (Hb2 & Hs2 & Hc2 & He2 & Hl2 & Hr2 & Hw2).
  { intros w0 Hw0. apply link_world_tick; [apply (bs_link _ _ _ (running_base _ _ _ Hr1))|done]. }
  assert (silent self w self2 w2) as Hs by (destruct Hs1, Hs2; split; congruence).
  pose proof (tick_keeps (transmitIsotpFrame log_port self1) (rn_isotp self1) now (rn_last_frame_us self1, w) Hsend) as Hk.
  destruct (IsotpLink_Tick (transmitIsotpFrame log_port self1) (rn_isotp self1) now (rn_last_frame_us self1, w)) as [[e l'] u']. cbn [fst snd] in He2, Hl2. subst e.
  destruct (Z.eqb_spec event kISOTP_EVENT_FAILED) as [Hf|Hnf].
  { pose proof (abort_after cap self w self2 w2 (IsotpLink_FailureReason (rn_isotp self2)) (rn_completed_steps self2) Hs Hb2) as Ha.
    destruct (abortWith log_port self2 _ _ w2) as [self' w']. done. }
  destruct (Z.eqb_spec event kISOTP_EVENT_SENT) as [Hsent|Hns]; cbn [negb].
  2: { apply running_after; [done|]. apply Hr2. intros _ _. rewrite Hl2. destruct Hk as [Hk|[Hk|Hk]]; done. }
  rewrite <- finishTransmit_to_wait. pose proof (finishTransmit_running cap (to_wait self2) now w2 (Hw2 ltac:(by rewrite Hp1)) ltac:(done)) as Hft.
  destruct (finishTransmit log_port (to_wait self2) now w2) as [[more self'] w']. destruct Hft as [Hrun Hsil].
  apply running_after; [|done]. destruct Hs as [Ht Hst], Hsil as [Ht' Hst']. split; [by rewrite Ht'|by rewrite Hst'].
Qed.

(** Chaining a silent step before the rest. *)
Lemma silent_trans self w self1 w1 self2 w2 : silent self w self1 w1 → silent self1 w1 self2 w2 → silent self w self2 w2.
Proof. intros [H1 H2] [H3 H4]. split; congruence. Qed.

Lemma silent_refl self w : silent self w self w.
Proof. done. Qed.

Lemma transmitStep_after cap self now w :
  running cap self w → ac_phase (rn_current self) = kTRANSACTION_PHASE_TRANSMIT →
  let '(_, self', w') := transmitStep log_port self now w in after cap self w self' w'.
Proof.
  intros Hr Hph. unfold transmitStep. destruct (_ || _); [by apply running_after|]. destruct (isIsotpStep self) eqn:Hiso; [by apply transmitMessage_after|].
  set (self1 := if ac_deadline_us (rn_current self) =? 0 then _ else self).
  assert (running cap self1 w ∧ silent self w self1 w ∧ step_view (rn_current self1) = step_view (rn_current self)) as (Hr1 & Hs1 & Hv1).
  { subst self1. destruct (_ =? 0); [|done]. split; [by apply current_update|done]. }
  assert (ac_phase (rn_current self1) = kTRANSACTION_PHASE_TRANSMIT) as Hp1 by (injection Hv1; congruence).
  assert (ac_step (rn_current self1) = ac_step (rn_current self)) as Hst1 by (injection Hv1; congruence).
  destruct (current_record cap self w Hr) as (Hv & _ & Hu & _ & Hfit & _); [by rewrite Hph|].
  assert (tt_type (currentTemplate self) ≠ kTXN_TEMPLATE_TYPE_ISOTP) as Hty.
  { unfold isIsotpStep in Hiso. rewrite Hph in Hiso. by apply Z.eqb_neq in Hiso. }
  pose proof (generic_frame _ _ Hv Hfit Hty) as Hvalid. rewrite <- Hst1 in Hu, Hvalid. unfold is_u8 in Hu.
  match goal with |- context [transmitTracked log_port self1 ?f now w] => set (frame := f);
    pose proof (transmitTracked_running cap self1 frame now w Hr1 (frame_of_payload _ _ _ _ _ (proj1 Hu) Hvalid)) as Ht end.
  destruct (transmitTracked log_port self1 frame now w) as [[ok self2] w2]. destruct Ht as (Hr2 & Hs2 & Hv2 & Hc2).
  pose proof (silent_trans _ _ _ _ _ _ Hs1 Hs2) as Hs. destruct ok; cbn [negb].
  - pose proof (finishTransmit_running cap self2 now w2 Hr2 ltac:(by rewrite Hc2, Hp1)) as Hf.
    destruct (finishTransmit log_port self2 now w2) as [[more self'] w']. destruct Hf as [Hrun Hsil].
    apply running_after; [by eapply silent_trans|done].
  - destruct (now >=? ac_deadline_us (rn_current self2)).
    + pose proof (abort_after cap self w self2 w2 kTXN_REASON_TX_FAILED (rn_completed_steps self2) Hs (running_base _ _ _ Hr2)) as Ha.
      destruct (abortWith log_port self2 kTXN_REASON_TX_FAILED (rn_completed_steps self2) w2) as [self' w']. exact Ha.
    + apply running_after; [by eapply silent_trans|]. by apply current_update.
Qed.

(** ** Answers *)

Lemma keepRxFrame_view self f : view (keepRxFrame self f) = view self ∧ rn_txn_id (keepRxFrame self f) = rn_txn_id self.
Proof. done. Qed.

Lemma recordAnswer_view self f : view (recordAnswer self f) = view self.
Proof.
  unfold recordAnswer. destruct (negb _); [|done]. unfold recordRosterAnswer. destruct (findRosterIndex _ _); [|done]. destruct (negb _); done.
Qed.

Lemma abortOnFrame_after cap self reason f expected got w :
  running cap self w → let '(self', w') := abortOnFrame log_port self reason f expected got w in after cap self w self' w'.
Proof.
  intros Hr. unfold abortOnFrame. set (self1 := keepRxFrame self f).
  assert (base cap self1 w) as Hb by (apply (base_ext cap self); [done|by apply running_base]).
  match goal with |- let '(_, _) := finish log_port self1 ?s w in _ => pose proof (finish_after cap self1 s w Hb eq_refl) as Hf end.
  destruct (finish log_port self1 _ w) as [self' w']. by apply (silent_after cap self w self1 w).
Qed.

Lemma matchFrame_after cap self f w :
  running cap self w → let '(self', w') := matchFrame log_port self f w in after cap self w self' w'.
Proof.
  intros Hr. unfold matchFrame. destruct (matchesTemplatePattern _ kTXN_PATTERN_EXTEND _ _).
  { apply running_after; [done|]. by apply (running_ext cap self). }
  destruct (matchesTemplatePattern _ kTXN_PATTERN_ABORT _ _); [by apply abortOnFrame_after|].
  destruct (isPatternPresent _ _); [|by apply running_after]. unfold matchAdvance. destruct (negb _); [by apply running_after|].
  destruct (matchesPayload _ _ _).
  { pose proof (recordAnswer_view self f) as Hv. apply running_after; [|by apply (running_ext cap self)]. split; [by injection Hv|done]. }
  destruct (has_flag _ _); [by apply abortOnFrame_after|by apply running_after].
Qed.

Lemma feedIsotp_after cap self f w :
  running cap self w → frame_typed f → let '(self', w') := feedIsotp log_port self f w in after cap self w self' w'.
Proof.
  intros Hr Hf. unfold feedIsotp.
  pose proof (on_link_running cap self w (λ link, IsotpLink_OnFrame (transmitIsotpFrame log_port self) link f (rn_last_tick_us self)) Hr) as Hon.
  destruct (on_link self _ w) as [[event self2] w2]. destruct Hon as (Hb2 & Hs2 & Hc2 & He2 & Hl2 & Hr2 & _).
  { intros w0 Hw0. apply OnFrame_safe; [|done|apply (bs_link _ _ _ (running_base _ _ _ Hr))|done].
    intros g w1 Hg Hw1. by apply transmitIsotpFrame_keeps. }
  destruct (Z.eqb_spec event kISOTP_EVENT_FAILED) as [Hfail|Hnf]; [by apply abort_after|].
  assert (running cap self2 w2) as Hrun.
  { apply Hr2. intros Hp Hm. pose proof Hr as (_ & _ & _ & _ & _ & consumed & rs & _ & _ & _ & Hcur).
    destruct Hcur as [Hi|(_ & r & rest & _ & _ & _ & _ & Htx)]; [by rewrite Hp in Hi|]. destruct (Htx Hp) as (_ & _ & Hst).
    pose proof (frame_keeps (transmitIsotpFrame log_port self) (rn_isotp self) f (rn_last_tick_us self) (rn_last_frame_us self, w) (Hst Hm)) as Hk.
    destruct (IsotpLink_OnFrame _ _ _ _ _) as [[e l'] u']. cbn [fst snd] in He2, Hl2. rewrite Hl2. destruct Hk as [Hk|Hk]; [done|congruence]. }
  destruct (_ || _); [by apply running_after|]. pose proof (matchFrame_after cap self2 (IsotpLink_MessageFrame (rn_isotp self2)) w2 Hrun) as Hm.
  destruct (matchFrame log_port self2 _ w2) as [self' w']. by eapply silent_after.
Qed.

Lemma dispatchFrame_after cap self f w :
  running cap self w → frame_typed f → let '(self', w') := dispatchFrame log_port self f w in after cap self w self' w'.
Proof.
  intros Hr Hf. unfold dispatchFrame. destruct (isIsotpStep self); [by apply feedIsotp_after|]. destruct (isWaiting self); [by apply matchFrame_after|by apply running_after].
Qed.

(** Two operations one after the other, the second only if the transaction still runs. *)
Lemma after_then cap self w self1 w1 self2 w2 :
  after cap self w self1 w1 → (running cap self1 w1 → after cap self1 w1 self2 w2) → (rn_active self1 = false → self2 = self1 ∧ w2 = w1) →
  after cap self w self2 w2.
Proof.
  intros [Ht [[Hr Hs]|Ho]] Hrun Hidle; [by eapply silent_after; [split|apply Hrun]|]. destruct Ho as (Ha & Hb & s & Hs1 & Hs2).
  destruct (Hidle Ha) as [-> ->]. split; [done|]. right. split; [done|]. split; [done|]. by exists s.
Qed.

Lemma replay_after cap n i self w :
  running cap self w → (i + n ≤ 16)%nat → let '(self', w') := replay_loop log_port n i self w in after cap self w self' w'.
Proof.
  revert i self w. induction n as [|n IH]; intros i self w Hr Hn; [by apply running_after|]. cbn [replay_loop].
  rewrite (proj1 (proj2 Hr)). destruct (bs_early _ _ _ (running_base _ _ _ Hr)) as (He & Hty & _).
  assert (frame_typed (rn_early_frames self !!! i)) as Hf.
  { destruct (lookup_lt_is_Some_2 (rn_early_frames self) i) as [x Hx]; [lia|]. rewrite (list_lookup_total_correct _ _ _ Hx).
    by apply (proj1 (Forall_lookup _ _) Hty _ _ Hx). }
  pose proof (dispatchFrame_after cap self _ w Hr Hf) as Hd. destruct (dispatchFrame log_port self _ w) as [self1 w1].
  destruct (replay_loop log_port n (S i) self1 w1) as [self' w'] eqn:Hl. eapply after_then; [exact Hd| |].
  - intros Hr1. specialize (IH (S i) self1 w1 Hr1 ltac:(lia)). by rewrite Hl in IH.
  - intros Ha. destruct n; cbn [replay_loop] in Hl; [by injection Hl as <- <-|]. rewrite Ha in Hl. by injection Hl as <- <-.
Qed.

(** ** Waiting for steps *)

Lemma sendKeepaliveIfDue_running cap self now w :
  running cap self w → let '(self', w') := sendKeepaliveIfDue log_port self now w in running cap self' w' ∧ silent self w self' w'.
Proof.
  intros Hr. unfold sendKeepaliveIfDue. destruct (Z.eqb_spec (tka_period_ms (rn_keepalive self)) 0) as [|Hp]; [done|]. cbn [orb].
  destruct (now <? keepaliveDueUs self); [done|]. pose proof Hr as (_ & _ & Hka & _). destruct (Hka Hp) as [H0 Hv].
  match goal with |- context [transmitTracked log_port self ?f now w] => set (frame := f);
    pose proof (transmitTracked_running cap self frame now w Hr (frame_of_payload _ _ _ _ _ H0 Hv)) as Ht end.
  destruct (transmitTracked log_port self frame now w) as [[ok self2] w2]. destruct Ht as (Hr2 & Hs2 & _ & _). split; [|by destruct ok].
  destruct ok; [|done]. destruct Hr2 as (Hb & H2). split; [|exact H2]. destruct Hb as [? ? ? ? ? (? & ? & ?) ?]. split; try done.
Qed.

Lemma waitForSteps_after cap self now w :
  running cap self w → let '(_, self', w') := waitForSteps log_port self now w in after cap self w self' w'.
Proof.
  intros Hr. unfold waitForSteps. set (self1 := if rn_starve_deadline_us self =? 0 then _ else self).
  assert (running cap self1 w ∧ silent self w self1 w) as [Hr1 Hs1] by (subst self1; destruct (_ =? 0); [split; [by apply (running_ext cap self)|done]|done]).
  destruct (now >=? rn_starve_deadline_us self1).
  - pose proof (abort_after cap self w self1 w kTXN_REASON_STARVED (rn_completed_steps self1) Hs1 (running_base _ _ _ Hr1)) as Ha.
    destruct (abortWith log_port self1 _ _ w) as [self' w']. exact Ha.
  - pose proof (sendKeepaliveIfDue_running cap self1 now w Hr1) as Hk. destruct (sendKeepaliveIfDue log_port self1 now w) as [self' w'].
    destruct Hk as [Hr2 Hs2]. apply running_after; [by eapply silent_trans|done].
Qed.

(** ** Loading a step *)

(** A transaction between steps whose next record is [r]. *)
Record loading (cap : Z) (r : list Z) (rest consumed : list (list Z)) (self : TransactionRunner) (w : rworld) : Prop := {
  ld_base : base cap self w;
  ld_active : rn_active self = true;
  ld_keepalive : keepalive_ok (rn_keepalive self);
  ld_defined : 0 ≤ rn_defined_templates self;
  ld_templates : templates_ok (rn_templates self) (rn_defined_templates self);
  ld_ring : ring_rep 272 (rn_ring self) (r :: rest);
  ld_records : Forall (record_ok (rn_templates self) (rn_defined_templates self)) (r :: rest);
  ld_accounts : accounts self (rn_next_seq self) consumed (r :: rest);
  ld_step : decodes r (ac_step (rn_current self)) ∧ ac_record_size (rn_current self) = zlen r ∧ ac_message_started (rn_current self) = false;
  ld_phase : ac_phase (rn_current self) = kTRANSACTION_PHASE_IDLE;
}.

Lemma decodes_inj r s s' : decodes r s → decodes r s' → s = s'.
Proof. intros [_ H] [_ H']. specialize (H TxnStep_zero []). rewrite H' in H. by injection H. Qed.

Lemma decodes_final r s : decodes r s → final_record r = (Z.land (st_flags s) TXN_STEP_FLAG_CONTINUED =? 0).
Proof. intros [_ H]. unfold final_record. specialize (H TxnStep_zero []). rewrite app_nil_r in H. by rewrite H. Qed.

(** Its message record is gathered: refused, or kept and released at once, or the message is whole. *)
Lemma gatherMessage_cases cap r rest consumed self w :
  loading cap r rest consumed self w → has_flag (st_flags (ac_step (rn_current self))) TXN_STEP_FLAG_MESSAGE = true →
  let '(whole, self', w') := gatherMessage log_port self w in
  if whole then loading cap r rest consumed self' w' ∧ silent self w self' w' ∧ rn_current self' = rn_current self ∧ final_record r = true ∧
    0 < rn_message_length self'
  else after cap self w self' w'.
Proof.
  intros [Hb Ha Hka Hdn Htp Hring Hrec Hacc (Hd & Hsz & Hms) Hph] Hmf. pose proof Hrec as Hrec0. apply Forall_cons in Hrec0 as [(s & Hs & Hv & Hid & Hu & Hl & _) _].
  rewrite <- (decodes_inj _ _ _ Hd Hs) in Hv, Hid, Hu, Hl. clear s Hs. unfold is_u8 in Hu.
  unfold gatherMessage. destruct (Z.gtb_spec (rn_message_length self + st_payload_length (ac_step (rn_current self))) 4095).
  { pose proof (abortWith_after cap self kTXN_REASON_INVALID_STEP (rn_completed_steps self) w Hb) as Hab. destruct (abortWith log_port self _ _ w) as [self' w']. exact Hab. }
  destruct (bs_message _ _ _ Hb) as [Hml Hmb]. set (self1 := (self <| rn_message := _ |>) <| rn_message_length := _ |>).
  assert (0 < st_payload_length (ac_step (rn_current self))) as Hpos.
  { revert Hv. unfold isStepValid. rewrite Hmf. unfold isMessageRecordValid. destruct (Z.eqb_spec (st_payload_length (ac_step (rn_current self))) 0); [cbn [orb]|lia].
    by destruct (st_template_id _ >=? _). }
  assert (rn_message_length self1 = rn_message_length self + st_payload_length (ac_step (rn_current self))) as Hlen.
  { subst self1. cbn [rn_message_length set_field]. change (rn_message_length (self <| rn_message := _ |>)) with (rn_message_length self). apply u16_id. lia. }
  assert (base cap self1 w) as Hb1.
  { destruct Hb as [? ? ? ? [? ?] ? ?]. split; try done. rewrite Hlen. split; [subst self1; cbn; by rewrite length_copy_at|lia]. }
  pose proof (decodes_final r _ Hd) as Hfin. destruct (Z.land (st_flags (ac_step (rn_current self))) TXN_STEP_FLAG_CONTINUED =? 0).
  - split; [by split|]. split; [done|]. split; [done|]. split; [done|]. lia.
  - apply running_after; [done|].
    destruct (release_front self1 (rn_next_seq self) consumed r rest (rn_templates self) (rn_defined_templates self) Hring Hrec Hsz Hacc) as (H1 & H2 & H3 & H4 & H5 & H6 & H7).
    rewrite finals_one, Hfin, Z.add_0_r in H7. destruct Hacc as (_ & _ & Hcs & _). split.
    { destruct Hb1 as [_ Hcap ? ? ? ? ?]. split; try done; [by exists rest|]. cbn in Hcap |- *. by rewrite release_capacity. }
    do 4 (split; [done|]). exists (consumed ++ [r]), rest. split; [exact H1|]. split; [exact H2|]. split; [|by left]. split; [exact H4|]. split; [exact H5|].
    split; [|exact H6]. change (rn_completed_steps self = u32 (finals (consumed ++ [r]))). rewrite <- H7. change (rn_completed_steps self1) with (rn_completed_steps self).
    rewrite Hcs. unfold u32. by rewrite Zmod_mod.
Qed.

(** The step begins: the link is opened and the phase entered. *)
Lemma opened_running cap r rest consumed self w phase :
  loading cap r rest consumed self w → final_record r = true → phase = kTRANSACTION_PHASE_TRANSMIT ∨ phase = kTRANSACTION_PHASE_WAIT →
  (phase = kTRANSACTION_PHASE_TRANSMIT → has_flag (st_flags (ac_step (rn_current self))) TXN_STEP_FLAG_EXPECT_ONLY = false ∧
     (has_flag (st_flags (ac_step (rn_current self))) TXN_STEP_FLAG_MESSAGE = true → 0 < rn_message_length self)) →
  running cap (self <| rn_current := rn_current self <| ac_phase := phase |> |>) w.
Proof.
  intros [Hb Ha Hka Hdn Htp Hring Hrec Hacc (Hd & Hsz & Hms) _] Hfin Hph Htx. split; [by destruct Hb; split|]. do 4 (split; [done|]).
  exists consumed, (r :: rest). do 3 (split; [done|]). right. split; [done|]. exists r, rest. split_and!; try done. cbn. intros Hp. destruct (Htx Hp) as [He Hm].
  split; [done|]. split; [done|]. congruence.
Qed.

Lemma loading_opened cap r rest consumed self w :
  loading cap r rest consumed self w →
  let self' := if tt_type (currentTemplate self) =? kTXN_TEMPLATE_TYPE_ISOTP
               then self <| rn_isotp := IsotpLink_Open (rn_isotp self) (st_can_id (ac_step (rn_current self))) (rn_channel self) (tt_isotp (currentTemplate self)) |>
               else self in
  loading cap r rest consumed self' w ∧ silent self w self' w ∧ rn_current self' = rn_current self ∧ rn_message_length self' = rn_message_length self.
Proof.
  intros Hl. destruct (Z.eqb_spec (tt_type (currentTemplate self)) kTXN_TEMPLATE_TYPE_ISOTP) as [Ht|]; [|done]. split; [|done].
  destruct Hl as [Hb Ha Hka Hdn Htp Hring Hrec Hacc (Hd & Hsz & Hms) Hph]. split; try done. destruct Hb as [? ? ? Hlink ? ? ?]. split; try done.
  apply Forall_cons in Hrec as [(s & Hs & _ & Hid & _ & _ & Hdef & _) _]. rewrite <- (decodes_inj _ _ _ Hd Hs) in Hid, Hdef.
  apply Open_safe; [done|]. by apply (Htp (st_template_id (ac_step (rn_current self)))).
Qed.

Lemma loadNextStep_after cap self now w :
  running cap self w → ac_phase (rn_current self) = kTRANSACTION_PHASE_IDLE →
  let '(_, self', w') := loadNextStep log_port self now w in after cap self w self' w'.
Proof.
  intros Hr Hph. pose proof Hr as (Hb & Ha & Hka & Hdn & Htp & consumed & rs & Hring & Hrec & Hacc & _). unfold loadNextStep.
  pose proof (ring_peek _ _ _ Hring) as Hpk. destruct rs as [|r rest].
  { destruct Hpk as [-> _]. cbn [default]. change (zlen (A := Z) [] =? 0) with true. cbn [andb].
    destruct (rn_steps_ended self); [|by apply waitForSteps_after].
    pose proof (finish_after cap self (prepareStatus self kTXN_STATE_DONE kTXN_REASON_NONE) w Hb eq_refl) as Hf. unfold finishDone.
    destruct (finish log_port self _ w) as [self' w']. exact Hf. }
  destruct Hpk as [_ [tail ->]]. change (default [] (Some (r ++ tail))) with (r ++ tail). pose proof (ring_sizes _ _ _ Hring) as Hsizes. apply Forall_cons in Hsizes as [Hsize _].
  assert (zlen (r ++ tail) ≠ 0) as Hne by (rewrite zlen_app; unfold zlen in *; lia). rewrite (proj2 (Z.eqb_neq _ _) Hne). cbn [andb].
  pose proof Hrec as Hrec0. apply Forall_cons in Hrec0 as [(s & Hs & Hv & Hid & Hu & Hpl & Hdef & Hfit) _]. rewrite (proj2 Hs).
  set (self1 := (self <| rn_current := _ |>) <| rn_starve_deadline_us := 0 |>).
  assert (loading cap r rest consumed self1 w ∧ silent self w self1 w) as [Hl1 Hs1].
  { split; [|done]. split; try done; [by destruct Hb; split|]. split; [done|]. split; [|done]. change (u32 (zlen r) = zlen r). apply u32_id. lia. }
  assert (ac_step (rn_current self1) = s) as Hst1 by done. clearbody self1.
  set (gathered := if has_flag (st_flags s) TXN_STEP_FLAG_MESSAGE then _ else _).
  assert (let '(whole, self', w') := gathered in
          if (whole : bool) then loading cap r rest consumed self' w' ∧ silent self1 w self' w' ∧ ac_step (rn_current self') = s ∧ final_record r = true ∧
            (has_flag (st_flags s) TXN_STEP_FLAG_MESSAGE = true → 0 < rn_message_length self')
          else after cap self1 w self' w') as Hg.
  { subst gathered. destruct (has_flag (st_flags s) TXN_STEP_FLAG_MESSAGE) eqn:Hmf.
    - pose proof (gatherMessage_cases cap r rest consumed self1 w Hl1 ltac:(by rewrite Hst1)) as Hc.
      destruct (gatherMessage log_port self1 w) as [[[] self2] w2]; [|done]. destruct Hc as (? & ? & Hcu & ? & ?). split_and!; try done. by rewrite Hcu.
    - split; [done|]. split; [done|]. split; [done|]. split; [|done]. rewrite (decodes_final r s Hs). revert Hv. unfold isStepValid. rewrite Hmf.
      destruct (st_template_id s >=? _); [done|]. unfold has_flag. destruct (Z.land (st_flags s) TXN_STEP_FLAG_CONTINUED =? 0); done. }
  destruct gathered as [[[] self2] w2]; cbn [negb]; [|by eapply silent_after]. destruct Hg as (Hl2 & Hs2 & Hst2 & Hfin & Hml).
  pose proof (loading_opened cap r rest consumed self2 w2 Hl2) as Hop. cbv zeta in Hop. rewrite Hst2 in Hop. set (self3 := if _ =? kTXN_TEMPLATE_TYPE_ISOTP then _ else self2) in *.
  destruct Hop as (Hl3 & Hs3 & Hc3 & Hm3). clearbody self3. pose proof (silent_trans _ _ _ _ _ _ Hs1 (silent_trans _ _ _ _ _ _ Hs2 Hs3)) as Hsil.
  destruct (has_flag (st_flags s) TXN_STEP_FLAG_EXPECT_ONLY) eqn:Heo.
  - pose proof (opened_running cap r rest consumed self3 w2 kTRANSACTION_PHASE_WAIT Hl3 Hfin (or_intror eq_refl) ltac:(done)) as Hw.
    assert (running cap (startWait self3 now <| rn_early_frame_count := 0 |>) w2) as Hw0.
    { assert (running cap (startWait self3 now) w2) as Hw1 by (by apply (running_ext cap (self3 <| rn_current := rn_current self3 <| ac_phase := kTRANSACTION_PHASE_WAIT |> |>))).
      destruct Hw1 as (Hbw & Hrest). split; [|exact Hrest]. destruct Hbw as [? ? ? ? ? (? & ? & ?) ?]. by split. }
    unfold replayEarlyFrames. change (rn_early_frame_count (startWait self3 now)) with (rn_early_frame_count self3).
    destruct (bs_early _ _ _ (ld_base _ _ _ _ _ _ Hl3)) as (_ & _ & Hcnt).
    pose proof (replay_after cap (Z.to_nat (rn_early_frame_count self3)) 0 _ w2 Hw0 ltac:(lia)) as Hrp.
    destruct (replay_loop log_port _ 0 _ w2) as [self' w']. eapply silent_after; [|exact Hrp]. exact Hsil.
  - apply running_after; [exact Hsil|].
    pose proof (opened_running cap r rest consumed self3 w2 kTRANSACTION_PHASE_TRANSMIT Hl3 Hfin (or_introl eq_refl)) as Hw.
    rewrite Hc3, Hst2, Hm3 in Hw. specialize (Hw ltac:(done)). rewrite Hc3. destruct Hw as (Hbw & Hrest). split; [|exact Hrest].
    destruct Hbw as [? ? ? ? ? (? & ? & ?) ?]. by split.
Qed.

Lemma tickIsotp_after cap self now w :
  running cap self w → ac_phase (rn_current self) = kTRANSACTION_PHASE_WAIT →
  let '(ok, self', w') := tickIsotp log_port self now w in
  if ok then running cap self' w' ∧ silent self w self' w' ∧ rn_current self' = rn_current self else after cap self w self' w'.
Proof.
  intros Hr Hph. unfold tickIsotp.
  pose proof (on_link_running cap self w (λ link, IsotpLink_Tick (transmitIsotpFrame log_port self) link now) Hr) as Hon.
  destruct (on_link self _ w) as [[event self2] w2]. destruct Hon as (Hb2 & Hs2 & Hc2 & He2 & Hl2 & Hr2 & _).
  { intros w0 Hw0. apply link_world_tick; [apply (bs_link _ _ _ (running_base _ _ _ Hr))|done]. }
  destruct (Z.eqb_spec event kISOTP_EVENT_FAILED) as [Hf|Hnf]; cbn [negb].
  - pose proof (abort_after cap self w self2 w2 (IsotpLink_FailureReason (rn_isotp self2)) (rn_completed_steps self2) Hs2 Hb2) as Hab.
    destruct (abortWith log_port self2 _ _ w2) as [self' w']. exact Hab.
  - split; [|done]. apply Hr2. by rewrite Hph.
Qed.

Lemma settleWait_after cap self now w :
  running cap self w → ac_phase (rn_current self) = kTRANSACTION_PHASE_WAIT →
  let '(_, self', w') := settleWait log_port self now w in after cap self w self' w'.
Proof.
  intros Hr Hph. unfold settleWait. set (ticked := if isIsotpStep self then _ else _).
  assert (let '(ok, self', w') := ticked in
          if (ok : bool) then running cap self' w' ∧ silent self w self' w' ∧ rn_current self' = rn_current self else after cap self w self' w') as Ht
    by (subst ticked; destruct (isIsotpStep self); [by apply tickIsotp_after|done]).
  destruct ticked as [[[] self2] w2]; cbn [negb]; [|done]. destruct Ht as (Hr2 & Hs2 & Hc2).
  assert (∀ self3, running cap self3 w2 → silent self w self3 w2 → ac_phase (rn_current self3) = kTRANSACTION_PHASE_WAIT →
          let '(self', w') := completeStep log_port self3 w2 in after cap self w self' w') as Hcomplete.
  { intros self3 Hr3 Hs3 Hp3. pose proof (completeStep_running cap self3 w2 Hr3 ltac:(by rewrite Hp3)) as Hc. destruct (completeStep log_port self3 w2) as [self' w'].
    destruct Hc as [Hrun Hsil]. apply running_after; [by eapply silent_trans|done]. }
  destruct (ac_satisfied (rn_current self2)).
  { specialize (Hcomplete self2 Hr2 Hs2 ltac:(by rewrite Hc2)). destruct (completeStep log_port self2 w2) as [self' w']. exact Hcomplete. }
  set (self3 := if ac_extend_requested (rn_current self2) then _ else self2).
  assert (running cap self3 w2 ∧ silent self w self3 w2 ∧ ac_phase (rn_current self3) = kTRANSACTION_PHASE_WAIT) as (Hr3 & Hs3 & Hp3).
  { subst self3. destruct (ac_extend_requested _); [|by rewrite Hc2]. split; [by apply current_update|]. split; [done|]. cbn. by rewrite Hc2. }
  destruct (now <? _); [by apply running_after|]. destruct (has_flag _ _).
  { specialize (Hcomplete self3 Hr3 Hs3 Hp3). destruct (completeStep log_port self3 w2) as [self' w']. exact Hcomplete. }
  pose proof (abort_after cap self w self3 w2 kTXN_REASON_TIMEOUT (rn_completed_steps self3) Hs3 (running_base _ _ _ Hr3)) as Hab.
  destruct (abortWith log_port self3 _ _ w2) as [self' w']. exact Hab.
Qed.

Lemma runOnce_after cap self now w :
  running cap self w → let '(_, self', w') := runOnce log_port self now w in after cap self w self' w'.
Proof.
  intros Hr. unfold runOnce. destruct (Z.eqb_spec (ac_phase (rn_current self)) kTRANSACTION_PHASE_IDLE) as [Hi|Hni]; [by apply loadNextStep_after|].
  destruct (Z.eqb_spec (ac_phase (rn_current self)) kTRANSACTION_PHASE_TRANSMIT) as [Ht|Hnt]; [by apply transmitStep_after|].
  apply settleWait_after; [done|]. destruct Hr as (_ & _ & _ & _ & _ & consumed & rs & _ & _ & _ & [Hc|([Hc|Hc] & _)]); done.
Qed.

Lemma tick_loop_after cap n self now w :
  running cap self w → let '(self', w') := tick_loop log_port n self now w in after cap self w self' w'.
Proof.
  revert self w. induction n as [|n IH]; intros self w Hr; [by apply running_after|]. cbn [tick_loop]. rewrite (proj1 (proj2 Hr)).
  pose proof (runOnce_after cap self now w Hr) as Ho. destruct (runOnce log_port self now w) as [[[] self1] w1]; [|done].
  destruct (tick_loop log_port n self1 now w1) as [self' w'] eqn:Hl. eapply after_then; [exact Ho| |].
  - intros Hr1. specialize (IH self1 w1 Hr1). by rewrite Hl in IH.
  - intros Ha. destruct n; cbn [tick_loop] in Hl; [by injection Hl as <- <-|]. rewrite Ha in Hl. by injection Hl as <- <-.
Qed.
