(* ===== verification/RunnerTheorems.v ===== *)
(** * The runner under any history of calls

    The public operations keep the invariant of the runner, and so does any
    sequence of them: messages from the hub, frames from the bus, ticks. *)

From S2P Require Import Prelude Wire Codec FrameMessage TxnMessage TxnStepsMessage StepRing IsotpLink IsotpSafety TransactionRunner RunnerInvariant RunnerSound.

(** ** Ticks *)

Lemma reported w p : log_ok w → log_ok (port_progress log_port p w) ∧ statuses (port_progress log_port p w) = statuses w.
Proof. intros Hw. split; [by apply log_ok_app|by apply statuses_same]. Qed.

Lemma flushProgress_running cap self now w :
  running cap self w → let '(self', w') := flushProgress log_port self now w in running cap self' w' ∧ silent self w self' w'.
Proof.
  intros Hr. pose proof (running_base _ _ _ Hr) as Hb.
  assert (let '(self', w') := reportProgress log_port self w in running cap self' w' ∧ silent self w self' w') as Hrep.
  { unfold reportProgress. match goal with |- context [port_progress log_port ?p w] => destruct (reported w p (bs_log _ _ _ Hb)) as [Hl Hs] end.
    split; [|by split]. eapply running_log; [|exact Hl]. by apply (running_ext cap self). }
  unfold flushProgress. destruct (_ =? 0); [done|]. destruct (_ >=? _); [exact Hrep|]. destruct (_ =? 0); [|by destruct (_ >=? _)].
  split; [by apply (running_ext cap self)|done].
Qed.

Lemma Tick_after cap self now w :
  running cap self w → let '(self', w') := TransactionRunner_Tick log_port self now w in after cap self w self' w'.
Proof.
  intros Hr. unfold TransactionRunner_Tick. rewrite (proj1 (proj2 Hr)). cbn [negb]. set (self1 := self <| rn_last_tick_us := now |>).
  assert (running cap self1 w) as Hr1 by (by apply (running_ext cap self)).
  pose proof (tick_loop_after cap TRANSACTION_STEPS_PER_TICK_MAX self1 now w Hr1) as Ht.
  destruct (tick_loop log_port TRANSACTION_STEPS_PER_TICK_MAX self1 now w) as [self2 w2]. apply (silent_after cap self w self1 w) in Ht; [|done].
  destruct (rn_active self2) eqn:Ha; [|done]. destruct (flushProgress log_port self2 now w2) as [self' w'] eqn:Hf.
  eapply after_then; [exact Ht| |by rewrite Ha]. intros Hr2. pose proof (flushProgress_running cap self2 now w2 Hr2) as Hfl. rewrite Hf in Hfl.
  destruct Hfl. by apply running_after.
Qed.

(** ** Steps *)

(** Bytes pushed and not consumed: what the credit window counts. *)
Lemma in_flight_used cap seq self w consumed rs :
  base cap self w → accounts self seq consumed rs → ring_rep 272 (rn_ring self) rs →
  u32 (rn_pushed_bytes self - rn_consumed_bytes self) = used_bytes (rn_ring self).
Proof.
  intros Hb (Hc & Hp & _) Hr. pose proof (ring_used_bound _ _ _ Hr) as [Hu _]. destruct (bs_cap _ _ _ Hb) as (Hcap & _ & _ & Hov).
  destruct (ring_offsets _ _ _ Hr) as (_ & _ & Hz). rewrite Hc, Hp, concat_app, zlen_app, <- Hz. unfold u32. rewrite <- Zminus_mod.
  replace (zlen (concat consumed) + used_bytes (rn_ring self) - zlen (concat consumed)) with (used_bytes (rn_ring self)) by lia. apply Z.mod_small. lia.
Qed.

Lemma byte_total (l : list Z) i : bytes l → (i < length l)%nat → is_u8 (l !!! i).
Proof.
  intros Hb Hi. destruct (lookup_lt_is_Some_2 l i Hi) as [x Hx]. rewrite (list_lookup_total_correct _ _ _ Hx).
  by apply (proj1 (Forall_lookup _ _) Hb _ _ Hx).
Qed.

Lemma decode_fields old l n s : TxnStep_Decode old l = (n, s) → n ≠ 0%nat → bytes l →
  0 ≤ st_template_id s < 16 ∧ is_u8 (st_payload_length s) ∧ length (st_payload s) = 255%nat ∧ (n ≤ 272)%nat.
Proof.
  intros Hd Hn Hb. destruct (decode_sizes _ _ _ _ Hd Hn) as (Hle & Hsz & Hv). assert (8 ≤ n)%nat by (rewrite Hsz; unfold TxnStep_RecordSize, recordSize; lia).
  assert (st_template_id s = l !!! 0%nat ∧ st_payload_length s = l !!! 2%nat ∧ length (st_payload s) = 255%nat) as (H0 & H2 & Hp).
  { revert Hd. unfold TxnStep_Decode. destruct (Nat.ltb _ _); [by intros [= <- _]|]. destruct (negb _); [by intros [= <- _]|].
    destruct (Nat.ltb _ _); [by intros [= <- _]|]. intros [= _ <-]. cbn [st_template_id st_payload_length st_payload]. by rewrite length_copy_at. }
  pose proof (byte_total l 0 Hb ltac:(lia)) as B0. pose proof (byte_total l 2 Hb ltac:(lia)) as B2. unfold is_u8 in *.
  assert (st_template_id s < 16) as Hid.
  { revert Hv. unfold isStepValid. destruct (Z.geb_spec (st_template_id s) TXN_TEMPLATES_MAX) as [|Hlt]; [done|]. intros _. exact Hlt. }
  split; [lia|]. split; [rewrite H2; lia|]. split; [done|]. rewrite Hsz. unfold TxnStep_RecordSize, recordSize.
  unfold paddedPayloadSize, TXN_STEP_RECORD_ALIGNMENT. pose proof (Z.div_le_mono (st_payload_length s + 8 - 1) 262 8 ltac:(lia) ltac:(lia)) as Hq.
  change (262 / 8) with 32 in Hq. destruct (has_flag _ _); lia.
Qed.

(** The ring takes a record within the credit. *)
Lemma push_within ring rs records size :
  ring_rep 272 ring rs → (0 < size ≤ length records)%nat → (size ≤ 272)%nat → used_bytes ring + Z.of_nat size ≤ capacity ring - 272 →
  ∃ ring', StepRing_Push ring records (Z.of_nat size) = (true, ring') ∧ ring_rep 272 ring' (rs ++ [take size records]) ∧
    capacity ring' = capacity ring ∧ used_bytes ring' = used_bytes ring + Z.of_nat size.
Proof.
  intros Hring Hsize H272 Hroom. set (r := take size records). assert (zlen r = Z.of_nat size) as Hzr by (unfold zlen, r; rewrite length_take; lia).
  assert (StepRing_Push ring records (Z.of_nat size) = StepRing_Push ring r (Z.of_nat size)) as ->.
  { unfold StepRing_Push, pushWrapped, pushContiguous, append. subst r. by rewrite Nat2Z.id, take_take, Nat.min_id. }
  pose proof (push_capacity ring r (Z.of_nat size)) as Hpc. pose proof (ring_push 272 ring rs r Hring ltac:(lia)) as Hp. rewrite Hzr in Hp.
  destruct (StepRing_Push ring r (Z.of_nat size)) as [ok ring']. destruct Hp as (Hp1 & _ & Hp3). rewrite (Hp3 ltac:(lia)) in *.
  specialize (Hp1 eq_refl). exists ring'. split; [done|]. split; [done|]. split; [done|].
  destruct (ring_offsets _ _ _ Hring) as (_ & _ & ->), (ring_offsets _ _ _ Hp1) as (_ & _ & ->). by rewrite zlen_concat_snoc, Hzr.
Qed.

(** A record within the window is never refused for lack of room. *)
Definition pushed (cap : Z) (self : TransactionRunner) (seq : Z) (w : rworld) (self' : TransactionRunner) (w' : rworld) : Prop :=
  running_at cap seq self' w' ∧ silent self w self' w' ∧ rn_steps_ended self' = rn_steps_ended self.

Lemma refused cap self w reason seq : base cap self w →
  let '(self', w') := abortWith log_port self reason seq w in rn_txn_id self' = rn_txn_id self ∧ over cap self w self' w'.
Proof.
  intros Hb. unfold abortWith. match goal with |- context [finish log_port self ?s w] => set (status := s) end. split; [done|]. split; [done|]. split.
  - apply (base_world _ _ w); [exact (base_cleared cap self w Hb)|]. apply log_ok_app; [apply Hb|done].
  - exists status. split; [done|]. apply statuses_app.
Qed.

Lemma pushRecord_after cap seq self w old records size step :
  running_at cap seq self w → bytes records → TxnStep_Decode old records = (size, step) →
  let '(ok, self', w') := pushRecord log_port self step records size seq w in
  if (ok : bool) then pushed cap self (if Z.land (st_flags step) TXN_STEP_FLAG_CONTINUED =? 0 then u32 (seq + 1) else seq) w self' w' ∧ size ≠ 0%nat
  else rn_txn_id self' = rn_txn_id self ∧ over cap self w self' w'.
Proof.
  intros (Hb & Ha & Hka & Hdn & Htp & consumed & rs & Hring & Hrec & Hacc & Hcur) Hby Hd. unfold pushRecord.
  assert (∀ reason, let '(ok, self', w') := (let '(self0, w0) := abortWith log_port self reason seq w in (false, self0, w0)) in
    if ok : bool then pushed cap self (if Z.land (st_flags step) TXN_STEP_FLAG_CONTINUED =? 0 then u32 (seq + 1) else seq) w self' w' ∧ size ≠ 0%nat
    else rn_txn_id self' = rn_txn_id self ∧ over cap self w self' w') as Hrefuse.
  { intros reason. pose proof (refused cap self w reason seq Hb) as Hr. destruct (abortWith log_port self reason seq w) as [self' w']. exact Hr. }
  destruct (Nat.eqb_spec size 0) as [|Hn]; [apply Hrefuse|]. cbn [orb]. destruct (isTemplateDefined self (st_template_id step)) eqn:Hdef; [|apply Hrefuse]. cbn [negb].
  destruct (fitsTemplate step _) eqn:Hfit; [|apply Hrefuse]. cbn [negb]. destruct (_ && _); [apply Hrefuse|].
  rewrite (in_flight_used cap seq self w consumed rs Hb Hacc Hring).
  destruct (Z.gtb_spec (used_bytes (rn_ring self) + Z.of_nat size) (rn_window_bytes self)) as [|Hw]; [apply Hrefuse|].
  destruct (decode_fields _ _ _ _ Hd Hn Hby) as (Hid & Hu & Hpl & H272). destruct (decodes_taken _ _ _ _ Hd Hn Hby) as [Hdec Hlen].
  destruct (decode_sizes _ _ _ _ Hd Hn) as (Hle & Hsz & Hv). destruct (bs_cap _ _ _ Hb) as (Hcap & Hwin & Hc272 & Hov).
  rewrite u32_id by lia. destruct (push_within (rn_ring self) rs records size Hring ltac:(lia) H272 ltac:(lia)) as (ring' & -> & Hp1 & Hpc & _).
  set (r := take size records) in *. assert (zlen r = Z.of_nat size) as Hzr by (unfold zlen; lia). cbn [negb]. split; [|done]. split; [|done]. split.
  { destruct Hb as [_ Hcp ? ? ? ? ?]. split; try done; [by exists (rs ++ [r])|]. cbn. by rewrite Hpc. }
  do 4 (split; [done|]). exists consumed, (rs ++ [r]). split; [exact Hp1|]. split.
  { apply Forall_app. split; [exact Hrec|]. constructor; [|constructor]. exists step. repeat (split; [eassumption|]). exact Hfit. }
  split.
  - destruct Hacc as (Hc & Hpu & Hcs & Hs). split; [exact Hc|]. split; [|split; [exact Hcs|]].
    + change (u32 (rn_pushed_bytes self + Z.of_nat size) = u32 (zlen (concat (consumed ++ rs ++ [r])))).
      rewrite Hpu, u32_add_l, app_assoc, zlen_concat_snoc, Hzr. done.
    + rewrite app_assoc, finals_app, finals_one, (decodes_final r step Hdec). destruct (_ =? 0); [by rewrite Hs, u32_add_l|by rewrite Z.add_0_r].
  - destruct Hcur as [Hi|(Hph & r0 & rest & -> & Hrest)]; [by left|]. right. split; [done|]. exists r0, (rest ++ [r]). split; [done|exact Hrest].
Qed.

Lemma push_loop_after cap n seq self w old records :
  running_at cap seq self w → bytes records →
  let '(last, self', w') := push_loop log_port n self old records seq w in
  match last with
  | Some seq' => pushed cap self seq' w self' w'
  | None => rn_txn_id self' = rn_txn_id self ∧ over cap self w self' w'
  end.
Proof.
  revert seq self w old records. induction n as [|n IH]; intros seq self w old records Hr Hby; [done|]. cbn [push_loop].
  destruct (TxnStep_Decode old records) as [size step] eqn:Hd. pose proof (pushRecord_after cap seq self w old records size step Hr Hby Hd) as Hp.
  destruct (pushRecord log_port self step records size seq w) as [[[] self1] w1]; cbn [negb]; [|done]. destruct Hp as [(Hr1 & Hs1 & He1) _].
  specialize (IH _ self1 w1 step (drop size records) Hr1 (Forall_drop _ _ _ Hby)).
  destruct (push_loop log_port n self1 step (drop size records) _ w1) as [[[seq'|] self'] w'].
  - destruct IH as (Hr' & Hs' & He'). split; [done|]. split; [by eapply silent_trans|congruence].
  - destruct IH as (Ht & Ha & Hb & s & Hs & Hst), Hs1 as [Ht1 Hst1]. split; [congruence|]. split; [done|]. split; [done|]. exists s. split; congruence.
Qed.

Lemma over_after cap self w self' w' : rn_txn_id self' = rn_txn_id self → over cap self w self' w' → after cap self w self' w'.
Proof. intros Ht Ho. split; [done|by right]. Qed.

Lemma PushSteps_after cap self steps w :
  running cap self w → bytes (tsm_records steps) →
  let '(self', w') := TransactionRunner_PushSteps log_port self steps w in after cap self w self' w'.
Proof.
  intros Hr Hby. unfold TransactionRunner_PushSteps. destruct (_ || _); [by apply running_after|].
  destruct (rn_steps_ended self || _) eqn:Hg; [by apply abortWith_after, running_base|].
  apply orb_false_iff in Hg as [_ Hseq]. apply negb_false_iff, Z.eqb_eq in Hseq. rewrite Hseq.
  pose proof (push_loop_after cap (Z.to_nat (tsm_step_count steps)) (rn_next_seq self) self w TxnStep_zero (tsm_records steps) Hr Hby) as Hp.
  destruct (push_loop log_port _ self _ _ _ w) as [[[seq'|] self'] w']; [|by apply over_after; apply Hp].
  destruct Hp as (Hr' & Hs' & _). apply running_after; [done|]. destruct Hr' as ([] & Hrest). split; [by split|exact Hrest].
Qed.

(** ** Templates and rosters *)

Lemma defined_testbit d id : 0 ≤ id → defined d id = Z.testbit d id.
Proof.
  intros Hid. unfold defined. assert (∀ i, 0 ≤ i → Z.testbit (Z.land d (Z.shiftl 1 id)) i = Z.testbit d i && (i =? id)) as Hbit.
  { intros i Hi. rewrite Z.land_spec, Z.shiftl_1_l, Z.pow2_bits_eqb by lia. by rewrite (Z.eqb_sym id i). }
  destruct (Z.eqb_spec (Z.land d (Z.shiftl 1 id)) 0) as [H0|Hn]; cbn [negb].
  - specialize (Hbit id Hid). rewrite H0, Z.bits_0, Z.eqb_refl, andb_true_r in Hbit. done.
  - destruct (Z.testbit d id) eqn:Ht; [done|]. exfalso. apply Hn. apply Z.bits_inj'. intros i Hi. rewrite Hbit, Z.bits_0 by done.
    destruct (Z.eqb_spec i id) as [->|]; [by rewrite Ht|apply andb_false_r].
Qed.

Lemma defined_add d tid id : 0 ≤ tid < 16 → 0 ≤ id → defined (Z.lor d (u16 (Z.shiftl 1 tid))) id = defined d id || (id =? tid).
Proof.
  intros Ht Hid. rewrite !defined_testbit by done. rewrite u16_id.
  - rewrite Z.lor_spec, Z.shiftl_1_l, Z.pow2_bits_eqb by lia. by rewrite (Z.eqb_sym tid id).
  - rewrite Z.shiftl_1_l. pose proof (Z.pow_lt_mono_r 2 tid 16 ltac:(lia) ltac:(lia)). pose proof (Z.pow_pos_nonneg 2 tid). lia.
Qed.

Lemma template_accepted self t : isTemplateValid self t = true → isTemplateDefined self (tt_template_id t) = false ∧ template_ok t.
Proof.
  unfold isTemplateValid. destruct (isTemplateDefined self _); [done|]. intros H. split; [done|]. intros Hty Hfd.
  destruct (isTypeValid t) eqn:Hv; [|by rewrite orb_true_r in H]. revert Hv. unfold isTypeValid. rewrite Hty. cbn.
  destruct (isIsotpDataLengthValid (tt_isotp t)) eqn:Hl; [|by rewrite orb_true_r]. intros _. revert Hl. unfold isIsotpDataLengthValid, has_flag in *.
  destruct (Z.land (ti_flags (tt_isotp t)) TXN_ISOTP_FLAG_FD =? 0); [done|]. rewrite andb_true_iff. unfold FrameMessage_IsPayloadLengthValid, FRAME_PAYLOAD_MAX_CLASSIC.
  change (negb (Z.land FRAME_FLAG_FD FRAME_FLAG_FD =? 0)) with true. cbv iota. lia.
Qed.

Lemma DefineTemplate_after cap self t w :
  running cap self w → 0 ≤ tt_template_id t < 16 →
  let '(self', w') := TransactionRunner_DefineTemplate log_port self t w in after cap self w self' w'.
Proof.
  intros Hr Hid. unfold TransactionRunner_DefineTemplate. destruct (_ || _); [by apply running_after|].
  destruct (isTemplateValid self t) eqn:Hv; cbn [negb]; [|by apply abortWith_after, running_base]. destruct (template_accepted _ _ Hv) as [Hund Htok].
  apply running_after; [done|]. destruct Hr as (Hb & Ha & Hka & Hdn & Htp & consumed & rs & Hring & Hrec & Hacc & Hcur).
  set (tid := tt_template_id t) in *. change (isTemplateDefined self tid) with (defined (rn_defined_templates self) tid) in Hund.
  assert (zlen (rn_templates self) = 16) as Hlen by (unfold zlen; rewrite (bs_templates _ _ _ Hb); done).
  set (self' := (self <| rn_templates := _ |>) <| rn_defined_templates := _ |>).
  assert (∀ id, 0 ≤ id < 16 → (rn_templates self').[id] = if tid =? id then t else (rn_templates self).[id]) as Hget
    by (intros id Hi; subst self'; cbn; apply zget_zset; lia).
  assert (∀ id, 0 ≤ id < 16 → defined (rn_defined_templates self') id = defined (rn_defined_templates self) id || (id =? tid)) as Hdef
    by (intros id Hi; subst self'; cbn; apply defined_add; lia).
  split; [destruct Hb as [? ? ? ? ? ? ?]; split; try done; cbn; by rewrite length_zset|]. split; [done|]. split; [done|].
  split; [subst self'; cbn; apply Z.lor_nonneg; split; [done|]; unfold u16; apply Z.mod_pos_bound; lia|]. split.
  - intros id Hi. rewrite Hdef, Hget by done. rewrite (Z.eqb_sym id tid). destruct (tid =? id); [done|]. rewrite orb_false_r. by apply Htp.
  - exists consumed, rs. split; [done|]. split; [|done]. eapply Forall_impl; [exact Hrec|]. intros r (s & Hs & Hsv & Hsid & Hu & Hl & Hsd & Hf).
    exists s. rewrite Hdef, Hget by done. destruct (Z.eqb_spec tid (st_template_id s)) as [He|]; [rewrite <- He in Hsd; congruence|].
    rewrite Hsd. repeat (split; [eassumption|]). split; [done|exact Hf].
Qed.

Lemma DefineRoster_after cap self roster w :
  running cap self w → let '(self', w') := TransactionRunner_DefineRoster log_port self roster w in after cap self w self' w'.
Proof.
  intros Hr. unfold TransactionRunner_DefineRoster. destruct (_ || _); [by apply running_after|].
  destruct (_ || _); [by apply abortWith_after, running_base|]. apply running_after; [done|]. by apply (running_ext cap self).
Qed.

(** ** Frames, cancellation *)

Lemma keepEarlyFrame_running cap self f w : running cap self w → frame_typed f → running cap (keepEarlyFrame self f) w.
Proof.
  intros (Hb & Hrest) Hf. unfold keepEarlyFrame. destruct (Z.eqb_spec (rn_early_frame_count self) TRANSACTION_EARLY_FRAMES_MAX) as [|Hn]; [by split|].
  unfold TRANSACTION_EARLY_FRAMES_MAX in Hn. split; [|exact Hrest]. destruct Hb as [? ? ? ? ? (Hl & Hall & Hcnt) ?]. split; try done. cbn.
  split; [by rewrite length_zset|]. split; [by apply Forall_insert|]. rewrite u8_id; lia.
Qed.

Lemma OnFrame_after cap self index f w :
  running cap self w → frame_typed f → let '(self', w') := TransactionRunner_OnFrame log_port self index f w in after cap self w self' w'.
Proof.
  intros Hr Hf. unfold TransactionRunner_OnFrame. destruct (negb _); [by apply running_after|]. destruct (isBetweenSteps self); [|by apply dispatchFrame_after].
  apply running_after; [|by apply keepEarlyFrame_running]. unfold keepEarlyFrame. by destruct (_ =? _).
Qed.

Lemma Abort_after cap self txn_id w :
  running cap self w → let '(self', w') := TransactionRunner_Abort log_port self txn_id w in after cap self w self' w'.
Proof. intros Hr. unfold TransactionRunner_Abort. destruct (_ || _); [by apply running_after|by apply abortWith_after, running_base]. Qed.

(** ** A new transaction *)

Lemma Begin_running cap self begin index now w :
  base cap self w → rn_active self = false → isBeginValid begin = true → 0 ≤ tka_payload_length (tb_keepalive begin) →
  running cap (TransactionRunner_Begin self begin index now).2 w.
Proof.
  intros [[rs Hr] ? ? ? [? ?] (? & ? & ?) ?] Ha Hv Hk. unfold TransactionRunner_Begin. rewrite Ha, Hv. cbn [negb snd]. pose proof (ring_cleared _ _ _ Hr) as Hr0.
  split; [split; cbn; try done; by exists []|]. split; [done|]. split.
  { cbn. intros Hp. split; [done|]. revert Hv. unfold isBeginValid. by rewrite (proj2 (Z.eqb_neq _ _) Hp). }
  split; [done|]. split; [intros id Hi; cbn; by rewrite defined_testbit, Z.bits_0 by lia|].
  exists [], []. split; [exact Hr0|]. split; [constructor|]. split; [done|by left].
Qed.

Lemma Init_base ring_storage cap ws :
  length ring_storage = Z.to_nat cap → 272 ≤ cap → cap + 272 < 4294967296 → base cap (TransactionRunner_Init ring_storage cap) (ws, []).
Proof.
  intros Hl H1 H2. split; cbn; try done.
  - exists []. apply ring_rep_init; lia.
  - unfold TXN_STEP_RECORD_SIZE_MAX. rewrite u32_id by lia. done.
  - apply Init_safe.
  - split; [done|]. split; [|lia]. apply (Forall_replicate frame_typed 16 frame_zero). split; [done|]. split; [cbn; lia|].
    apply (Forall_replicate is_u8 FRAME_PAYLOAD_MAX_FD 0). done.
  - constructor.
Qed.

(** ** Histories *)

Inductive runner_event :=
| EvBegin (begin : TxnBeginMessage) (interface_index now_us : Z)
| EvRoster (roster : TxnRosterMessage)
| EvTemplate (template_message : TxnTemplateMessage)
| EvSteps (steps : TxnStepsMessage)
| EvFrame (interface_index : Z) (frame : FrameMessage)
| EvTick (now_us : Z)
| EvAbort (txn_id : Z)
| EvCancel.

(** The fields hold what their C types hold, and a template index is one the decoder lets through. *)
Definition event_typed (e : runner_event) : Prop :=
  match e with
  | EvBegin begin _ _ => 0 ≤ tka_payload_length (tb_keepalive begin)
  | EvTemplate t => 0 ≤ tt_template_id t < 16
  | EvSteps steps => bytes (tsm_records steps)
  | EvFrame _ f => frame_typed f
  | _ => True
  end.

Definition runner_step (e : runner_event) (st : TransactionRunner * rworld) : TransactionRunner * rworld :=
  let '(self, w) := st in
  match e with
  | EvBegin begin index now => ((TransactionRunner_Begin self begin index now).2, w)
  | EvRoster roster => TransactionRunner_DefineRoster log_port self roster w
  | EvTemplate t => TransactionRunner_DefineTemplate log_port self t w
  | EvSteps steps => TransactionRunner_PushSteps log_port self steps w
  | EvFrame index f => TransactionRunner_OnFrame log_port self index f w
  | EvTick now => TransactionRunner_Tick log_port self now w
  | EvAbort txn_id => TransactionRunner_Abort log_port self txn_id w
  | EvCancel => (TransactionRunner_Cancel self, w)
  end.

Definition runner_run (events : list runner_event) (st : TransactionRunner * rworld) : TransactionRunner * rworld :=
  foldl (λ st e, runner_step e st) st events.

(** The transactions acknowledged so far whose status is owed or was sent: a
    cancelled one is no longer owed any. *)
Definition promised_step (e : runner_event) (self : TransactionRunner) (ids : list Z) : list Z :=
  match e with
  | EvBegin begin index now =>
      let ack := (TransactionRunner_Begin self begin index now).1 in
      if tba_status ack =? kTXN_BEGIN_STATUS_OK then ids ++ [tba_txn_id ack] else ids
  | EvCancel => if rn_active self then removelast ids else ids
  | _ => ids
  end.

Fixpoint promised (events : list runner_event) (st : TransactionRunner * rworld) (ids : list Z) : list Z :=
  match events with
  | [] => ids
  | e :: events => promised events (runner_step e st) (promised_step e st.1 ids)
  end.

Definition runner_ok (cap : Z) (st : TransactionRunner * rworld) : Prop := base cap st.1 st.2 ∧ (rn_active st.1 = true → running cap st.1 st.2).

(** The ids that got a status, and the one that still runs. *)
Definition settled (st : TransactionRunner * rworld) : list Z :=
  (ts_txn_id <$> statuses st.2) ++ (if rn_active st.1 then [rn_txn_id st.1] else []).

Lemma after_ok cap self w self' w' : running cap self w → after cap self w self' w' →
  runner_ok cap (self', w') ∧ settled (self', w') = settled (self, w).
Proof.
  intros Hr [Ht [[Hr' Hs]|(Ha & Hb & s & Hs & Hst)]]; unfold settled; cbn [fst snd]; rewrite (proj1 (proj2 Hr)).
  - split; [by split; [apply running_base|]|]. rewrite Hs, (proj1 (proj2 Hr')), Ht. done.
  - split; [split; [done|]; cbn; congruence|]. rewrite Ha, Hst, app_nil_r, fmap_app. cbn. by rewrite Hs.
Qed.

(** Nothing happens to a runner that runs nothing, but for a new transaction and a cancellation. *)
Lemma idle_step e self w : rn_active self = false →
  match e with EvBegin _ _ _ | EvCancel => True | _ => runner_step e (self, w) = (self, w) end.
Proof.
  intros Ha. destruct e; try done; cbn;
    unfold TransactionRunner_DefineRoster, TransactionRunner_DefineTemplate, TransactionRunner_PushSteps, TransactionRunner_OnFrame, isOnBus, TransactionRunner_Tick, TransactionRunner_Abort;
    by rewrite Ha.
Qed.

Lemma running_step cap e self w : running cap self w → event_typed e →
  match e with EvBegin _ _ _ | EvCancel => True | _ => after cap self w (runner_step e (self, w)).1 (runner_step e (self, w)).2 end.
Proof.
  intros Hr Ht. destruct e as [| roster | t | steps | index f | now | txn_id |]; try done; cbn [runner_step].
  - pose proof (DefineRoster_after cap self roster w Hr) as H. by destruct (TransactionRunner_DefineRoster _ _ _ _).
  - pose proof (DefineTemplate_after cap self t w Hr Ht) as H. by destruct (TransactionRunner_DefineTemplate _ _ _ _).
  - pose proof (PushSteps_after cap self steps w Hr Ht) as H. by destruct (TransactionRunner_PushSteps _ _ _ _).
  - pose proof (OnFrame_after cap self index f w Hr Ht) as H. by destruct (TransactionRunner_OnFrame _ _ _ _ _).
  - pose proof (Tick_after cap self now w Hr) as H. by destruct (TransactionRunner_Tick _ _ _ _).
  - pose proof (Abort_after cap self txn_id w Hr) as H. by destruct (TransactionRunner_Abort _ _ _ _).
Qed.

Lemma step_ok cap e st : runner_ok cap st → event_typed e →
  runner_ok cap (runner_step e st) ∧ settled (runner_step e st) = promised_step e st.1 (settled st).
Proof.
  destruct st as [self w]. intros [Hb Hr] Ht. cbn [fst snd] in *. destruct (rn_active self) eqn:Ha.
  - specialize (Hr eq_refl). pose proof (running_step cap e self w Hr Ht) as Hs. destruct e as [begin index now| | | | | | |].
    2-7: destruct (runner_step _ (self, w)) as [self' w']; exact (after_ok cap self w self' w' Hr Hs).
    + cbn [runner_step promised_step fst]. unfold TransactionRunner_Begin. rewrite Ha. by split.
    + cbn [runner_step promised_step fst]. rewrite Ha. unfold settled. cbn. rewrite Ha, app_nil_r, removelast_last. split; [|done].
      split; [exact (base_cleared cap self w Hb)|done].
  - pose proof (idle_step e self w Ha) as Hs. destruct e as [begin index now| | | | | | |].
    2-7: rewrite Hs; split; [split; [done|cbn; congruence]|done].
    + cbn [runner_step promised_step fst]. unfold settled. cbn [fst snd]. rewrite Ha, app_nil_r. destruct (isBeginValid begin) eqn:Hv.
      * pose proof (Begin_running cap self begin index now w Hb Ha Hv Ht) as Hrun. split; [split; [by apply running_base|done]|].
        unfold TransactionRunner_Begin. rewrite Ha, Hv. done.
      * unfold TransactionRunner_Begin. rewrite Ha, Hv. cbn. rewrite Ha. split; [split; [done|cbn; congruence]|by rewrite app_nil_r].
    + cbn [runner_step promised_step fst]. rewrite Ha. unfold settled. cbn. rewrite Ha. split; [|done]. split; [exact (base_cleared cap self w Hb)|done].
Qed.

Lemma run_ok cap events st : runner_ok cap st → Forall event_typed events →
  runner_ok cap (runner_run events st) ∧ settled (runner_run events st) = promised events st (settled st).
Proof.
  revert st. induction events as [|e events IH]; intros st Hst Hty; [done|]. apply Forall_cons in Hty as [He Hty].
  destruct (step_ok cap e st Hst He) as [H1 H2]. cbn [promised]. rewrite <- H2. by apply IH.
Qed.

(** * What the runner promises

    Under any history of calls with well-typed arguments: one status for each
    transaction it acknowledged, only frames the bus can carry, exact counts of
    bytes and steps, and room for every record within the credit it reported. *)
Section FromInit.
Context (ring_storage : list Z) (cap : Z) (answers : list bool).
Context (Hstore : length ring_storage = Z.to_nat cap) (Hcap : 272 ≤ cap) (Hwide : cap + 272 < 4294967296).

Definition runner_start : TransactionRunner * rworld := (TransactionRunner_Init ring_storage cap, (answers, [])).

Lemma start_ok : runner_ok cap runner_start.
Proof. split; [by apply Init_base|done]. Qed.

End FromInit.

(** C5. A transaction the runner acknowledged ends with exactly one status, and
    no status is sent for anything else: in any history of hub messages, bus
    frames, ticks and cancellations, with any answers of the bus, the ids of the
    statuses sent, followed by the id of the transaction that still runs, are
    the ids acknowledged, in order, less those cancelled. *)
Theorem runner_one_status_each (ring_storage : list Z) (cap : Z) (answers : list bool) (events : list runner_event) :
  length ring_storage = Z.to_nat cap → 272 ≤ cap → cap + 272 < 4294967296 → Forall event_typed events →
  settled (runner_run events (runner_start ring_storage cap answers)) = promised events (runner_start ring_storage cap answers) [].
Proof. intros H1 H2 H3 Hty. exact (proj2 (run_ok cap events _ (start_ok ring_storage cap answers H1 H2 H3) Hty)). Qed.

(** C24. The runner hands the bus only frames it can carry, whatever the hub
    sent and whatever arrived from the bus: a payload of at most 8 bytes, or 64
    with the FD flag, and never the echo flag.  This covers the frames of steps,
    the keepalives and every frame of its ISO-TP link. *)
Theorem runner_frames_sendable (ring_storage : list Z) (cap : Z) (answers : list bool) (events : list runner_event) :
  length ring_storage = Z.to_nat cap → 272 ≤ cap → cap + 272 < 4294967296 → Forall event_typed events →
  log_ok (runner_run events (runner_start ring_storage cap answers)).2.
Proof. intros H1 H2 H3 Hty. exact (bs_log _ _ _ (proj1 (proj1 (run_ok cap events _ (start_ok ring_storage cap answers H1 H2 H3) Hty)))). Qed.

(** ** Credit *)

(** The records are complete and name templates of the transaction that take them. *)
Fixpoint records_fit (n : nat) (self : TransactionRunner) (old : TxnStep) (records : list Z) : bool :=
  match n with
  | O => true
  | S n' =>
      let '(size, step) := TxnStep_Decode old records in
      let t := (rn_templates self).[st_template_id step] in
      isTemplateDefined self (st_template_id step) && fitsTemplate step t &&
      (negb (has_flag (st_flags step) TXN_STEP_FLAG_EXPECT_ONLY) || isWaitingMode (tt_advance_mode t)) &&
      records_fit n' self step (drop size records)
  end.

(** The records of a message that end a step. *)
Fixpoint steps_in (n : nat) (old : TxnStep) (records : list Z) : Z :=
  match n with
  | O => 0
  | S n' =>
      let '(size, step) := TxnStep_Decode old records in
      (if Z.land (st_flags step) TXN_STEP_FLAG_CONTINUED =? 0 then 1 else 0) + steps_in n' step (drop size records)
  end.

(** Within the credit a record is taken, and nothing but the ring and the count of bytes changes. *)
Lemma pushRecord_credit cap seq self w old records size step rs :
  running_at cap seq self w → ring_rep 272 (rn_ring self) rs → bytes records → TxnStep_Decode old records = (size, step) → size ≠ 0%nat →
  isTemplateDefined self (st_template_id step) = true → fitsTemplate step ((rn_templates self).[st_template_id step]) = true →
  negb (has_flag (st_flags step) TXN_STEP_FLAG_EXPECT_ONLY) || isWaitingMode (tt_advance_mode (rn_templates self).[st_template_id step]) = true →
  used_bytes (rn_ring self) + Z.of_nat size ≤ rn_window_bytes self →
  ∃ ring, pushRecord log_port self step records size seq w =
    (true, self <| rn_ring := ring |> <| rn_pushed_bytes := u32 (rn_pushed_bytes self + Z.of_nat size) |>, w) ∧
    used_bytes ring = used_bytes (rn_ring self) + Z.of_nat size ∧ ring_rep 272 ring (rs ++ [take size records]).
Proof.
  intros (Hb & _ & _ & _ & _ & consumed & rs0 & Hring0 & _ & Hacc & _) Hring Hby Hd Hn Hdef Hfit Hwait Hroom. unfold pushRecord.
  rewrite (proj2 (Nat.eqb_neq _ _) Hn), Hdef, Hfit. cbn [negb orb].
  replace (has_flag _ TXN_STEP_FLAG_EXPECT_ONLY && _) with false by (destruct (has_flag _ _), (isWaitingMode _); done).
  rewrite (in_flight_used cap seq self w consumed rs0 Hb Hacc Hring0). destruct (decode_fields _ _ _ _ Hd Hn Hby) as (_ & _ & _ & H272). rewrite u32_id by lia.
  destruct (decode_sizes _ _ _ _ Hd Hn) as (Hle & _). destruct (bs_cap _ _ _ Hb) as (Hc & Hwin & _ & Hov).
  destruct (Z.gtb_spec (used_bytes (rn_ring self) + Z.of_nat size) (rn_window_bytes self)); [lia|].
  destruct (push_within (rn_ring self) rs records size Hring ltac:(lia) H272 ltac:(lia)) as (ring & -> & Hrep & _ & Hused). by exists ring.
Qed.

(** What a push leaves as it was. *)
Definition push_view (self : TransactionRunner) :=
  (rn_active self, rn_txn_id self, rn_window_bytes self, rn_templates self, rn_defined_templates self, rn_consumed_bytes self, rn_current self,
   rn_channel self, rn_interface_index self, rn_next_transmit_us self, rn_completed_steps self, rn_keepalive self, rn_steps_ended self).

Lemma records_fit_ext n self self' old records :
  push_view self' = push_view self → records_fit n self' old records = records_fit n self old records.
Proof.
  intros [= _ _ _ Ht Hd _ _ _ _ _ _]. revert old records. induction n as [|n IH]; intros old records; [done|]. cbn [records_fit].
  destruct (TxnStep_Decode old records) as [size step]. unfold isTemplateDefined. by rewrite Ht, Hd, IH.
Qed.

Lemma decode_any old old' l n s : TxnStep_Decode old l = (n, s) → n ≠ 0%nat → TxnStep_Decode old' l = (n, s).
Proof. unfold TxnStep_Decode. repeat case_match; intros [= <- <-]; done. Qed.

Lemma push_loop_credit cap n seq self w old records rs :
  running_at cap seq self w → ring_rep 272 (rn_ring self) rs → bytes records → records_tile n old records = true → records_fit n self old records = true →
  used_bytes (rn_ring self) + zlen records ≤ rn_window_bytes self →
  ∃ self', push_loop log_port n self old records seq w = (Some (u32 (seq + steps_in n old records)), self', w) ∧
    push_view self' = push_view self ∧ used_bytes (rn_ring self') = used_bytes (rn_ring self) + zlen records ∧
    rn_pushed_bytes self' = u32 (rn_pushed_bytes self + zlen records) ∧
    ∃ rs', ring_rep 272 (rn_ring self') (rs ++ rs') ∧ Forall2 decodes rs' (steps_of n records).
Proof.
  revert seq self w old records rs. induction n as [|n IH]; intros seq self w old records rs Hr Hring Hby Htile Hfit Hroom; cbn [push_loop records_tile records_fit steps_in] in *.
  - apply Nat.eqb_eq, nil_length_inv in Htile as ->. exists self. destruct Hr as (_ & _ & _ & _ & _ & consumed & rs0 & _ & _ & (_ & Hp & _ & Hs) & _).
    change (zlen (A := Z) []) with 0. rewrite Hs, Hp, !Z.add_0_r. unfold u32. rewrite !Zmod_mod. split_and!; try done.
    exists []. by rewrite app_nil_r.
  - destruct (TxnStep_Decode old records) as [size step] eqn:Hd. destruct (Nat.eqb_spec size 0) as [|Hn]; [done|].
    apply andb_true_iff in Hfit as [[[Hdef Hf]%andb_true_iff Hw]%andb_true_iff Hfit]. destruct (decode_sizes _ _ _ _ Hd Hn) as (Hle & _).
    assert (zlen records = Z.of_nat size + zlen (drop size records)) as Hlen by (unfold zlen; rewrite length_drop; lia).
    assert (0 ≤ zlen (drop size records)) by (unfold zlen; lia).
    destruct (pushRecord_credit cap seq self w old records size step rs Hr Hring Hby Hd Hn Hdef Hf Hw ltac:(lia)) as (ring & Hp & Hused & Hrep).
    pose proof (pushRecord_after cap seq self w old records size step Hr Hby Hd) as Ha. rewrite Hp in Ha |- *. destruct Ha as [(Hr1 & _) _]. cbn [negb].
    set (self1 := (self <| rn_ring := ring |>) <| rn_pushed_bytes := _ |>) in *.
    destruct (IH _ self1 w step (drop size records) _ Hr1 Hrep (Forall_drop _ _ _ Hby) Htile) as (self' & Hloop & Hv & Hu' & Hp' & rs' & Hrep' & Hdec).
    { by rewrite (records_fit_ext n self self1). }
    { cbn. change (rn_window_bytes self1) with (rn_window_bytes self). lia. }
    exists self'. rewrite Hloop. split; [|split; [done|split; [|split]]].
    + f_equal. f_equal. f_equal. destruct (_ =? 0); [rewrite u32_add_l|]; f_equal; lia.
    + rewrite Hu'. cbn. lia.
    + rewrite Hp'. cbn. rewrite u32_add_l. f_equal. lia.
    + exists (take size records :: rs'). rewrite <- app_assoc in Hrep'. split; [exact Hrep'|]. cbn [steps_of]. rewrite (decode_any _ TxnStep_zero _ _ _ Hd Hn).
      constructor; [|exact Hdec]. by apply (decodes_taken old).
Qed.

(** C23. The credit the runner reports is honest.  In any history, a batch of
    steps for the running transaction that is next in sequence, whose records
    are complete and fit their templates, and whose bytes fit the window less
    the bytes pushed and not yet consumed, is taken whole: no status goes out,
    the transaction still runs, and the next sequence number and the bytes
    pushed advance by exactly what the batch held, modulo their 32 bits. *)
Theorem runner_credit_honest (ring_storage : list Z) (cap : Z) (answers : list bool) (events : list runner_event) (steps : TxnStepsMessage) :
  length ring_storage = Z.to_nat cap → 272 ≤ cap → cap + 272 < 4294967296 → Forall event_typed events → event_typed (EvSteps steps) →
  let st := runner_run events (runner_start ring_storage cap answers) in
  let self := st.1 in
  rn_active self = true → rn_steps_ended self = false → tsm_txn_id steps = rn_txn_id self → tsm_first_seq steps = rn_next_seq self →
  areRecordsWellFormed (tsm_records steps) (tsm_step_count steps) = true →
  records_fit (Z.to_nat (tsm_step_count steps)) self TxnStep_zero (tsm_records steps) = true →
  zlen (tsm_records steps) ≤ rn_window_bytes self - u32 (rn_pushed_bytes self - rn_consumed_bytes self) →
  let st' := runner_step (EvSteps steps) st in
  let self' := st'.1 in
  st'.2 = st.2 ∧ rn_active self' = true ∧ rn_steps_ended self' = has_flag (tsm_flags steps) TXN_STEPS_FLAG_END ∧
  rn_next_seq self' = u32 (tsm_first_seq steps + steps_in (Z.to_nat (tsm_step_count steps)) TxnStep_zero (tsm_records steps)) ∧
  u32 (rn_pushed_bytes self' - rn_consumed_bytes self') = u32 (rn_pushed_bytes self - rn_consumed_bytes self) + zlen (tsm_records steps).
Proof.
  intros H1 H2 H3 Hty Hby. destruct (run_ok cap events _ (start_ok ring_storage cap answers H1 H2 H3) Hty) as [[Hb Hrun] _].
  destruct (runner_run events (runner_start ring_storage cap answers)) as [self w]. cbn [fst snd] in *.
  intros Ha He Hid Hseq Hwf Hfit Hroom. specialize (Hrun Ha). pose proof (PushSteps_after cap self steps w Hrun Hby) as Haft. revert Haft.
  pose proof Hrun as (_ & _ & _ & _ & _ & consumed & rs & Hring & _ & Hacc & _). rewrite (in_flight_used cap _ self w consumed rs Hb Hacc Hring) in *.
  cbn [runner_step]. unfold TransactionRunner_PushSteps. rewrite Ha, Hid, He, Hseq, !Z.eqb_refl. cbn [negb orb].
  destruct (push_loop_credit cap (Z.to_nat (tsm_step_count steps)) (rn_next_seq self) self w TxnStep_zero (tsm_records steps) rs Hrun Hring Hby Hwf Hfit ltac:(lia))
    as (self' & -> & [= Hva Hvt Hvw Hvtp Hvd Hvc Hvcur _ _ _ _] & Hu & Hp & _).
  intros [_ [[Hr' _]|[Hov _]]]; [|cbn in Hov; congruence]. split; [done|]. split; [cbn; congruence|]. split; [done|]. split; [done|].
  pose proof Hr' as (Hb' & _ & _ & _ & _ & consumed' & rs' & Hring' & _ & Hacc' & _). cbv zeta. cbn [fst]. rewrite (in_flight_used cap _ _ w consumed' rs' Hb' Hacc' Hring').
  exact Hu.
Qed.

(** ** Accounting *)

(** The counts the runner reports are exact.  In any history, while a
    transaction runs, its records split into the ones consumed and the ones that
    wait in the ring, in the order they were pushed: the bytes reported as
    consumed and the steps reported as completed are those of the former, the
    bytes pushed and the next sequence number those of all, and the difference
    is what the ring holds. *)
Theorem runner_accounts (ring_storage : list Z) (cap : Z) (answers : list bool) (events : list runner_event) :
  length ring_storage = Z.to_nat cap → 272 ≤ cap → cap + 272 < 4294967296 → Forall event_typed events →
  let self := (runner_run events (runner_start ring_storage cap answers)).1 in
  rn_active self = true →
  ∃ consumed waiting, ring_rep 272 (rn_ring self) waiting ∧ Forall (record_ok (rn_templates self) (rn_defined_templates self)) waiting ∧
    rn_consumed_bytes self = u32 (zlen (concat consumed)) ∧ rn_pushed_bytes self = u32 (zlen (concat (consumed ++ waiting))) ∧
    rn_completed_steps self = u32 (finals consumed) ∧ rn_next_seq self = u32 (finals (consumed ++ waiting)) ∧
    u32 (rn_pushed_bytes self - rn_consumed_bytes self) = zlen (concat waiting).
Proof.
  intros H1 H2 H3 Hty self Ha. destruct (run_ok cap events _ (start_ok ring_storage cap answers H1 H2 H3) Hty) as [[Hb Hrun] _].
  destruct (Hrun Ha) as (_ & _ & _ & _ & _ & consumed & rs & Hring & Hrec & Hacc & _). exists consumed, rs.
  pose proof (in_flight_used cap _ _ _ consumed rs Hb Hacc Hring) as Hif. destruct (ring_offsets _ _ _ Hring) as (_ & _ & Hz). destruct Hacc as (Hc & Hp & Hcs & Hs).
  split; [done|]. split; [done|]. split; [done|]. split; [done|]. split; [done|]. split; [done|]. exact (eq_trans Hif Hz).
Qed.

(** ** A transaction of plain steps *)

Module RunnerDemo.

Definition begin : TxnBeginMessage := {| tb_channel := 3; tb_flags := 0; tb_idle_timeout_ms := 0; tb_keepalive := keepalive_zero |}.

(** A template whose steps transmit and wait for nothing. *)
Definition send_only (txn_id : Z) : TxnTemplateMessage := {|
  tt_channel := 3; tt_template_id := 2; tt_txn_id := txn_id; tt_advance_mode := kTXN_ADVANCE_MODE_NONE; tt_flags := 0; tt_count_k := 0;
  tt_patterns_present := 0; tt_timeout_ms := 0; tt_gap_us := 0; tt_extend_timeout_ms := 0; tt_type := kTXN_TEMPLATE_TYPE_GENERIC;
  tt_advance := pattern_zero; tt_abort := pattern_zero; tt_extend := pattern_zero; tt_isotp := parameters_zero |}.

(** One record: a frame of identifier [id] with one data byte. *)
Definition record (id byte : Z) : list Z := [2; 0; 1; 0; id; 0; 0; 0; byte; 0; 0; 0; 0; 0; 0; 0].

Definition steps (txn_id first_seq flags : Z) (records : list (list Z)) : TxnStepsMessage := {|
  tsm_channel := 3; tsm_step_count := Z.of_nat (length records); tsm_txn_id := txn_id; tsm_first_seq := first_seq; tsm_flags := flags;
  tsm_records := concat records |}.

Definition history : list runner_event :=
  [EvBegin begin 1 1000; EvTemplate (send_only 1); EvSteps (steps 1 0 0 [record 5 7; record 6 8]); EvTick 2000].

Definition store : list Z := replicate 1024 0.

Lemma history_typed : Forall event_typed history.
Proof. repeat constructor; cbn; lia. Qed.

End RunnerDemo.
Import RunnerDemo.

Example demo_sent : omap (λ o, match o with OutFrame i f => Some (i, frame_can_id f, frame_payload f !!! 0%nat) | _ => None end)
    (runner_run history (runner_start store 1024 [])).2.2 = [(1, 5, 7); (1, 6, 8)].
Proof. vm_compute. reflexivity. Qed.

Lemma runner_one_status_each_witness :
  Forall event_typed (history ++ [EvAbort 1]) ∧
  settled (runner_run (history ++ [EvAbort 1]) (runner_start store 1024 [])) = promised (history ++ [EvAbort 1]) (runner_start store 1024 []) [] ∧
  promised (history ++ [EvAbort 1]) (runner_start store 1024 []) [] = [1].
Proof.
  assert (Forall event_typed (history ++ [EvAbort 1])) as Hty by (apply Forall_app; split; [exact history_typed|by repeat constructor]).
  split; [exact Hty|]. split; [|vm_compute; reflexivity].
  apply (runner_one_status_each store 1024 []); [vm_compute; reflexivity|lia|lia|exact Hty].
Defined.

Lemma runner_frames_sendable_witness :
  Forall event_typed history ∧ log_ok (runner_run history (runner_start store 1024 [])).2 ∧ length (runner_run history (runner_start store 1024 [])).2.2 = 2%nat.
Proof.
  split; [exact history_typed|]. split; [|vm_compute; reflexivity].
  apply (runner_frames_sendable store 1024 [] history); [vm_compute; reflexivity|lia|lia|exact history_typed].
Defined.

Lemma runner_accounts_witness :
  ∃ consumed waiting : list (list Z), ring_rep 272 (rn_ring (runner_run history (runner_start store 1024 [])).1) waiting ∧
    rn_consumed_bytes (runner_run history (runner_start store 1024 [])).1 = u32 (zlen (concat consumed)) ∧
    rn_consumed_bytes (runner_run history (runner_start store 1024 [])).1 = 32.
Proof.
  destruct (runner_accounts store 1024 [] history ltac:(vm_compute; reflexivity) ltac:(lia) ltac:(lia) history_typed ltac:(vm_compute; reflexivity))
    as (consumed & waiting & H1 & _ & H2 & _).
  exists consumed, waiting. split; [exact H1|]. split; [exact H2|vm_compute; reflexivity].
Defined.

Lemma runner_credit_honest_witness :
  let self := (runner_run history (runner_start store 1024 [])).1 in
  let more := steps 1 2 TXN_STEPS_FLAG_END [record 9 1] in
  let self' := (runner_step (EvSteps more) (runner_run history (runner_start store 1024 []))).1 in
  rn_active self' = true ∧ rn_next_seq self' = u32 (tsm_first_seq more + 1) ∧
  u32 (rn_pushed_bytes self' - rn_consumed_bytes self') = u32 (rn_pushed_bytes self - rn_consumed_bytes self) + zlen (tsm_records more).
Proof.
  intros self more self'. assert (event_typed (EvSteps more)) as Hty by (repeat constructor; cbn; lia).
  destruct (runner_credit_honest store 1024 [] history more ltac:(vm_compute; reflexivity) ltac:(lia) ltac:(lia) history_typed Hty
    ltac:(vm_compute; reflexivity) ltac:(vm_compute; reflexivity) ltac:(vm_compute; reflexivity) ltac:(vm_compute; reflexivity)
    ltac:(vm_compute; reflexivity) ltac:(vm_compute; reflexivity) ltac:(vm_compute; discriminate)) as (_ & Ha & _ & Hn & Hu).
  split; [exact Ha|]. split; [exact Hn|exact Hu].
Defined.
