(* ===== verification/RunnerOrder.v ===== *)
(** * A transaction of plain steps runs to its end

    Steps that transmit a frame and wait for nothing: with a bus that takes the
    frames, ticks send them in order, one frame per step, and the transaction
    ends as done.  Below, steps that wait for a roster of nodes, and ISO-TP steps. *)

From stdpp Require Import gmap.
From S2P Require Import Prelude Wire Codec FrameMessage TxnMessage TxnStepsMessage StepRing IsotpLink IsotpSafety TransactionRunner RunnerInvariant RunnerSound RunnerTheorems IsotpTransfer.

(** A step that transmits its own frame and is complete with it. *)
Definition plain_step (tpls : list TxnTemplateMessage) (s : TxnStep) : bool :=
  let t := tpls.[st_template_id s] in
  negb (has_flag (st_flags s) TXN_STEP_FLAG_MESSAGE) && negb (has_flag (st_flags s) TXN_STEP_FLAG_EXPECT_ONLY) &&
  (tt_type t =? kTXN_TEMPLATE_TYPE_GENERIC) && (tt_advance_mode t =? kTXN_ADVANCE_MODE_NONE) && (tt_gap_us t =? 0).

Definition step_frame (channel : Z) (s : TxnStep) : FrameMessage := {|
  frame_can_id := st_can_id s; frame_timestamp_us := 0; frame_channel := channel; frame_payload_length := st_payload_length s;
  frame_flags := st_frame_flags s; frame_route_flags := 0;
  frame_payload := copy_at 0 (take (Z.to_nat (st_payload_length s)) (st_payload s)) (replicate FRAME_PAYLOAD_MAX_FD 0) |}.

(** Between steps, with these steps in the ring. *)
Definition queued (self : TransactionRunner) (ss : list TxnStep) : Prop :=
  rn_active self = true ∧ ac_phase (rn_current self) = kTRANSACTION_PHASE_IDLE ∧
  Forall (λ s, plain_step (rn_templates self) s = true) ss ∧
  ∃ rs, ring_rep 272 (rn_ring self) rs ∧ Forall2 decodes rs ss.

Definition script_view (self : TransactionRunner) :=
  (rn_templates self, rn_channel self, rn_interface_index self, rn_steps_ended self, rn_txn_id self).

Lemma plain_cases tpls s : plain_step tpls s = true →
  has_flag (st_flags s) TXN_STEP_FLAG_MESSAGE = false ∧ has_flag (st_flags s) TXN_STEP_FLAG_EXPECT_ONLY = false ∧
  tt_type (tpls.[st_template_id s]) = kTXN_TEMPLATE_TYPE_GENERIC ∧ tt_advance_mode (tpls.[st_template_id s]) = kTXN_ADVANCE_MODE_NONE ∧
  tt_gap_us (tpls.[st_template_id s]) = 0.
Proof. unfold plain_step. rewrite !andb_true_iff, !negb_true_iff, !Z.eqb_eq. tauto. Qed.

(** The step is loaded. *)
Definition loaded (self : TransactionRunner) (s : TxnStep) (size : Z) : TransactionRunner :=
  self <| rn_current := step_idle <| ac_step := s |> <| ac_record_size := size |> |> <| rn_starve_deadline_us := 0 |>
       <| rn_current := step_idle <| ac_step := s |> <| ac_record_size := size |> <| ac_phase := kTRANSACTION_PHASE_TRANSMIT |> |>
       <| rn_early_frame_count := 0 |>.

Lemma load_plain self now w s r rs :
  rn_active self = true → ac_phase (rn_current self) = kTRANSACTION_PHASE_IDLE → plain_step (rn_templates self) s = true →
  ring_rep 272 (rn_ring self) (r :: rs) → decodes r s → runOnce log_port self now w = (true, loaded self s (zlen r), w).
Proof.
  intros Ha Hi Hpl Hring Hd. destruct (plain_cases _ _ Hpl) as (Hm & He & Ht & _ & _). unfold runOnce. rewrite Hi. cbn [Z.eqb]. change (kTRANSACTION_PHASE_IDLE =? kTRANSACTION_PHASE_IDLE) with true.
  cbv iota. unfold loadNextStep. pose proof (ring_peek _ _ _ Hring) as [_ [tail ->]]. change (default [] (Some (r ++ tail))) with (r ++ tail).
  pose proof (ring_sizes _ _ _ Hring) as Hsz. apply Forall_cons in Hsz as [Hsz _].
  assert (zlen (r ++ tail) ≠ 0) as Hne by (rewrite zlen_app; unfold zlen in *; lia). rewrite (proj2 (Z.eqb_neq _ _) Hne). cbn [andb]. rewrite (proj2 Hd).
  change (Z.of_nat (length r)) with (zlen r). rewrite (u32_id (zlen r)) by lia. rewrite Hm. cbv iota. cbn [negb].
  set (self1 := (self <| rn_current := _ |>) <| rn_starve_deadline_us := 0 |>).
  change (currentTemplate self1) with ((rn_templates self).[st_template_id s]). rewrite Ht, He. reflexivity.
Qed.

(** The state a step leaves that waits for nothing. *)
Definition sent (self : TransactionRunner) (now : Z) : TransactionRunner :=
  let self := releaseRecord (self <| rn_next_transmit_us := now |>) <| rn_message_length := 0 |> in
  let self := self <| rn_completed_steps := u32 (rn_completed_steps self + 1) |> in
  self <| rn_current := rn_current self <| ac_phase := kTRANSACTION_PHASE_IDLE |> |>.

Lemma finish_plain self now w :
  tt_advance_mode (currentTemplate self) = kTXN_ADVANCE_MODE_NONE → tt_gap_us (currentTemplate self) = 0 → 0 ≤ now < 18446744073709551616 →
  finishTransmit log_port self now w = (true, sent self now, w).
Proof.
  intros Hmode Hgap Hnow. unfold finishTransmit. rewrite Hmode, Hgap, Z.add_0_r, (u64_id now) by lia.
  change (negb (isWaitingMode kTXN_ADVANCE_MODE_NONE)) with true. cbv iota. unfold completeStep, reportMissingRoster.
  change (currentTemplate (self <| rn_next_transmit_us := now |>)) with (currentTemplate self). rewrite Hmode. reflexivity.
Qed.

Lemma send_plain self now w s r rs :
  rn_active self = true → plain_step (rn_templates self) s = true → ring_rep 272 (rn_ring self) (r :: rs) →
  w.1 = [] → rn_next_transmit_us self ≤ now → 0 ≤ now < 18446744073709551616 →
  ∃ self', runOnce log_port (loaded self s (zlen r)) now w = (true, self', ([], w.2 ++ [OutFrame (rn_interface_index self) (step_frame (rn_channel self) s)])) ∧
    rn_active self' = true ∧ ac_phase (rn_current self') = kTRANSACTION_PHASE_IDLE ∧ script_view self' = script_view self ∧
    ring_rep 272 (rn_ring self') rs ∧ rn_completed_steps self' = u32 (rn_completed_steps self + 1) ∧ rn_next_transmit_us self' = now ∧
    rn_keepalive self' = rn_keepalive self ∧ rn_starve_deadline_us self' = 0.
Proof.
  intros Ha Hpl Hring Hw Hnext Hnow. destruct (plain_cases _ _ Hpl) as (Hm & He & Ht & Hmode & Hgap). destruct w as [ws log]. cbn in Hw. subst ws.
  unfold runOnce. change (ac_phase (rn_current (loaded self s (zlen r))) =? kTRANSACTION_PHASE_IDLE) with false.
  change (ac_phase (rn_current (loaded self s (zlen r))) =? kTRANSACTION_PHASE_TRANSMIT) with true. cbv iota. unfold transmitStep.
  change (rn_next_transmit_us (loaded self s (zlen r))) with (rn_next_transmit_us self). change (ac_retry_at_us (rn_current (loaded self s (zlen r)))) with 0.
  rewrite (proj2 (Z.ltb_ge now _)) by lia. rewrite (proj2 (Z.ltb_ge now 0)) by lia. cbn [orb].
  assert (isIsotpStep (loaded self s (zlen r)) = false) as ->.
  { unfold isIsotpStep. change (ac_phase _ =? _) with false. cbv iota. change (currentTemplate (loaded self s (zlen r))) with ((rn_templates self).[st_template_id s]). by rewrite Ht. }
  change (ac_deadline_us (rn_current (loaded self s (zlen r))) =? 0) with true. cbv iota zeta. unfold transmitTracked. cbn [port_transmit log_port fst snd head tail default negb].
  match goal with |- context [finishTransmit log_port ?x now ?v] =>
    rewrite (finish_plain x now v) by (exact Hmode || exact Hgap || lia) end.
  eexists. split; [reflexivity|]. split; [exact Ha|]. split; [done|]. split; [done|]. split; [exact (ring_release 272 _ r rs Hring)|]. done.
Qed.

Definition frames_of (self : TransactionRunner) (ss : list TxnStep) : list runner_out :=
  (λ s, OutFrame (rn_interface_index self) (step_frame (rn_channel self) s)) <$> ss.

Definition done_status (self : TransactionRunner) (steps : Z) (status : TxnStatusMessage) : Prop :=
  ts_state status = kTXN_STATE_DONE ∧ ts_reason status = kTXN_REASON_NONE ∧ ts_txn_id status = rn_txn_id self ∧
  ts_completed_steps status = u32 (rn_completed_steps self + steps).

(** What the ticks leave of the steps [ss]: [k] of them sent, or all sent and the transaction done. *)
Definition progressed (self : TransactionRunner) (ss : list TxnStep) (now : Z) (k : nat) (self' : TransactionRunner) (out : list runner_out) : Prop :=
  if decide (k ≤ length ss)%nat
  then queued self' (drop k ss) ∧ script_view self' = script_view self ∧ rn_completed_steps self' = u32 (rn_completed_steps self + Z.of_nat k) ∧
       rn_next_transmit_us self' ≤ now ∧ out = frames_of self (take k ss) ∧ rn_keepalive self' = rn_keepalive self ∧ (k ≠ 0%nat → rn_starve_deadline_us self' = 0)
  else rn_active self' = false ∧ ∃ status, done_status self (zlen ss) status ∧ out = frames_of self ss ++ [OutStatus status].

Lemma script_view_frames self self' ss : script_view self' = script_view self → frames_of self' ss = frames_of self ss.
Proof. unfold script_view, frames_of. by intros [= _ -> -> _ _]. Qed.

Lemma tick_loop_inactive n self now w : rn_active self = false → tick_loop log_port n self now w = (self, w).
Proof. intros Ha. destruct n; [done|]. cbn [tick_loop]. by rewrite Ha. Qed.

Lemma finish_empty self now w :
  queued self [] → rn_steps_ended self = true → 
  ∃ self' status, runOnce log_port self now w = (false, self', (w.1, w.2 ++ [OutStatus status])) ∧ rn_active self' = false ∧
    ts_state status = kTXN_STATE_DONE ∧ ts_reason status = kTXN_REASON_NONE ∧ ts_txn_id status = rn_txn_id self ∧
    ts_completed_steps status = rn_completed_steps self.
Proof.
  intros (Ha & Hi & _ & rs & Hring & Hd) He. apply Forall2_nil_inv_r in Hd as ->. unfold runOnce. rewrite Hi.
  change (kTRANSACTION_PHASE_IDLE =? kTRANSACTION_PHASE_IDLE) with true. cbv iota. unfold loadNextStep.
  destruct (ring_peek _ _ _ Hring) as [-> _]. change (zlen (default [] None) =? 0) with true. rewrite He. cbn [andb].
  unfold finishDone, finish. eexists _, _. split; [reflexivity|]. done.
Qed.

Lemma tick_loop_plain k self now w ss :
  queued self ss → rn_steps_ended self = true ∨ (k ≤ length ss)%nat → is_u32 (rn_completed_steps self) → w.1 = [] → rn_next_transmit_us self ≤ now → 0 ≤ now < 18446744073709551616 →
  ∃ self' out, tick_loop log_port (2 * k) self now w = (self', ([], w.2 ++ out)) ∧ progressed self ss now k self' out.
Proof.
  revert self w ss. induction k as [|k IH]; intros self w ss Hq Hend Hu Hw Hnext Hnow.
  { exists self, []. destruct w as [ws log]. cbn in Hw. subst ws. rewrite app_nil_r. split; [done|]. unfold progressed. rewrite decide_True by lia.
    split_and!; try done. rewrite Z.add_0_r. symmetry. apply u32_id. unfold is_u32 in Hu. lia. }
  destruct ss as [|s ss].
  { destruct Hend as [Hend|Hk]; [|cbn in Hk; lia]. destruct (finish_empty self now w Hq Hend) as (self' & status & Hrun & Ha' & Hs). exists self', [OutStatus status].
    replace (2 * S k)%nat with (S (S (2 * k)))%nat by lia. cbn [tick_loop]. rewrite (proj1 Hq), Hrun. split; [by rewrite Hw|]. unfold progressed. rewrite decide_False by (cbn; lia).
    split; [done|]. exists status. split; [|done]. destruct Hs as (H1 & H2 & H3 & H4). split_and!; try done.
    rewrite H4, Z.add_0_r. symmetry. apply u32_id. unfold is_u32 in Hu. lia. }
  destruct Hq as (Ha & Hi & Hpl & rs & Hring & Hd). apply Forall_cons in Hpl as [Hps Hpl]. apply Forall2_cons_inv_r in Hd as (r & rs' & Hdr & Hd & ->).
  replace (2 * S k)%nat with (S (S (2 * k)))%nat by lia. cbn [tick_loop]. rewrite Ha, (load_plain self now w s r rs' Ha Hi Hps Hring Hdr).
  change (rn_active (loaded self s (zlen r))) with (rn_active self). rewrite Ha.
  destruct (send_plain self now w s r rs' Ha Hps Hring Hw Hnext Hnow) as (self1 & -> & Ha1 & Hi1 & Hv1 & Hr1 & Hc1 & Hn1 & Hk1 & Hd1).
  set (w1 := ([], w.2 ++ [OutFrame (rn_interface_index self) (step_frame (rn_channel self) s)])).
  assert (rn_templates self1 = rn_templates self ∧ rn_steps_ended self1 = rn_steps_ended self ∧ rn_txn_id self1 = rn_txn_id self) as (Htp & Hse & Htx)
    by (unfold script_view in Hv1; split_and!; congruence).
  destruct (IH self1 w1 ss) as (self' & out & Hloop & Hprog); [|rewrite Hse; destruct Hend as [?|Hk]; [by left|right; cbn in Hk; lia]|rewrite Hc1; unfold is_u32, u32; apply Z.mod_pos_bound; lia|done|lia|done|].
  { split; [done|]. split; [done|]. split; [by rewrite Htp|]. by exists rs'. }
  exists self', (OutFrame (rn_interface_index self) (step_frame (rn_channel self) s) :: out). split.
  { rewrite Hloop. subst w1. cbn [snd]. by rewrite <- app_assoc. }
  revert Hprog. unfold progressed. cbn [length]. destruct (decide (k ≤ length ss)%nat).
  - rewrite decide_True by lia. intros (Hq' & Hv' & Hc' & Hn' & -> & Hk' & Hd'). split; [done|]. split; [congruence|]. split; [|split; [done|]].
    + rewrite Hc', Hc1, u32_add_l. f_equal. lia.
    + split; [by rewrite (script_view_frames self)|]. split; [congruence|]. intros _. destruct k; [|by apply Hd'].
      unfold tick_loop in Hloop. injection Hloop as <- _. exact Hd1.
  - rewrite decide_False by lia. intros (Ha' & status & (H1 & H2 & H3 & H4) & ->). split; [done|]. exists status.
    split; [split_and!; try done; [congruence|]|by rewrite (script_view_frames self)]. rewrite H4, Hc1, u32_add_l. f_equal. unfold zlen. cbn [length]. lia.
Qed.

(** What leaves the runner besides the progress reports. *)
Definition is_main (o : runner_out) : bool := match o with OutProgress _ => false | _ => true end.
Definition main_log (w : rworld) : list runner_out := filter (λ o, is_main o = true) w.2.

Lemma frames_main self ss : filter (λ o, is_main o = true) (frames_of self ss) = frames_of self ss.
Proof. induction ss as [|s ss IH]; [done|]. unfold frames_of in *. rewrite fmap_cons, filter_cons_True by done. by rewrite IH. Qed.

Lemma progressed_main self ss now k self' out : progressed self ss now k self' out →
  filter (λ o, is_main o = true) out = out.
Proof.
  unfold progressed. destruct (decide _).
  - intros (_ & _ & _ & _ & -> & _). apply frames_main.
  - intros (_ & status & _ & ->). rewrite filter_app, frames_main. done.
Qed.

Lemma flush_plain self now w :
  ∃ self' w', flushProgress log_port self now w = (self', w') ∧ w'.1 = w.1 ∧ main_log w' = main_log w ∧
    script_view self' = script_view self ∧ rn_active self' = rn_active self ∧ rn_completed_steps self' = rn_completed_steps self ∧
    rn_next_transmit_us self' = rn_next_transmit_us self ∧ rn_current self' = rn_current self ∧ rn_ring self' = rn_ring self ∧
    rn_keepalive self' = rn_keepalive self ∧ rn_starve_deadline_us self' = rn_starve_deadline_us self.
Proof.
  assert (∀ p ws, main_log (ws, w.2 ++ [OutProgress p]) = main_log w) as Hrep by (intros p ws; unfold main_log; cbn [snd]; by rewrite filter_app, app_nil_r).
  unfold flushProgress, reportProgress. repeat case_match; eexists _, _; (split; [reflexivity|]); split_and!; try done; apply Hrep.
Qed.

Lemma tick_plain self now w ss :
  queued self ss → rn_steps_ended self = true ∨ (32 ≤ length ss)%nat → is_u32 (rn_completed_steps self) → w.1 = [] → rn_next_transmit_us self ≤ now → 0 ≤ now < 18446744073709551616 →
  ∃ self' w' out, TransactionRunner_Tick log_port self now w = (self', w') ∧ w'.1 = [] ∧ main_log w' = main_log w ++ out ∧ progressed self ss now 32 self' out.
Proof.
  intros Hq Hend Hu Hw Hnext Hnow. unfold TransactionRunner_Tick. rewrite (proj1 Hq). cbn [negb]. set (self0 := self <| rn_last_tick_us := now |>).
  destruct (tick_loop_plain 32 self0 now w ss Hq Hend Hu Hw Hnext Hnow) as (self1 & out & Hloop & Hp). change (2 * 32)%nat with 64%nat in Hloop. rewrite Hloop.
  assert (main_log ([], w.2 ++ out) = main_log w ++ out) as Hm by (unfold main_log; cbn [snd]; by rewrite filter_app, (progressed_main _ _ _ _ _ _ Hp)).
  change (progressed self0 ss now 32 self1 out) with (progressed self ss now 32 self1 out) in Hp.
  destruct (rn_active self1) eqn:Ha; [|by exists self1, ([], w.2 ++ out), out].
  destruct (flush_plain self1 now ([], w.2 ++ out)) as (self' & w' & -> & Hw' & Hm' & Hv & Ha' & Hc & Hn & Hcur & Hr & Hka & Hsd).
  exists self', w', out. split; [done|]. split; [done|]. split; [by rewrite Hm'|]. revert Hp. unfold progressed. destruct (decide _); [|intros [? _]; congruence].
  intros ((_ & Hi & Hpl & rs & Hring & Hd) & Hv1 & Hc1 & Hn1 & Hout & Hk1 & Hd1).
  assert (rn_templates self' = rn_templates self1) as Htp by (unfold script_view in Hv; congruence).
  split; [|split; [congruence|split; [congruence|split; [lia|split; [done|split; [congruence|intros Hnz; rewrite Hsd; by apply Hd1]]]]]]. split; [congruence|]. split; [by rewrite Hcur|]. split; [by rewrite Htp|]. exists rs. by rewrite Hr.
Qed.

(** Times that do not go back. *)
Fixpoint times_from (t : Z) (times : list Z) : Prop :=
  match times with [] => True | now :: rest => t ≤ now ∧ 0 ≤ now < 18446744073709551616 ∧ times_from now rest end.

Lemma idle_ticks times st : rn_active st.1 = false → runner_run (EvTick <$> times) st = st.
Proof.
  destruct st as [self w]. intros Ha. induction times as [|now times IH]; [done|]. cbn. unfold TransactionRunner_Tick. cbn in Ha. rewrite Ha. exact IH.
Qed.

Lemma ticks_plain times self w ss :
  queued self ss → rn_steps_ended self = true → is_u32 (rn_completed_steps self) → w.1 = [] → times_from (rn_next_transmit_us self) times →
  (length ss < 32 * length times)%nat →
  let st' := runner_run (EvTick <$> times) (self, w) in
  rn_active st'.1 = false ∧ ∃ status, done_status self (zlen ss) status ∧ main_log st'.2 = main_log w ++ frames_of self ss ++ [OutStatus status].
Proof.
  revert self w ss. induction times as [|now times IH]; intros self w ss Hq Hend Hu Hw Ht Hn; [cbn in Hn; lia|]. destruct Ht as (Hnext & Hnow & Ht).
  destruct (tick_plain self now w ss Hq (or_introl Hend) Hu Hw Hnext Hnow) as (self1 & w1 & out & Htick & Hw1 & Hm1 & Hp).
  rewrite fmap_cons. change (runner_run (EvTick now :: (EvTick <$> times)) (self, w)) with (runner_run (EvTick <$> times) (TransactionRunner_Tick log_port self now w)).
  rewrite Htick. revert Hp. unfold progressed. destruct (decide (32 ≤ length ss)%nat) as [Hle|Hgt].
  - intros (Hq1 & Hv1 & Hc1 & Hn1 & -> & _). cbn [length] in Hn.
    assert (rn_steps_ended self1 = rn_steps_ended self ∧ rn_txn_id self1 = rn_txn_id self) as (Hse & Htx) by (unfold script_view in Hv1; split; congruence).
    destruct (IH self1 w1 (drop 32 ss) Hq1) as [Ha (status & (H1 & H2 & H3 & H4) & Hl)]; [congruence|rewrite Hc1; unfold is_u32, u32; apply Z.mod_pos_bound; lia|done| |rewrite length_drop; lia|].
    { destruct times as [|t' times]; [cbn in Hn; lia|]. destruct Ht as (? & ? & ?). split; [lia|done]. }
    split; [done|]. exists status. split; [split_and!; try done; [congruence|]|].
    + rewrite H4, Hc1, u32_add_l. f_equal. unfold zlen. rewrite length_drop. lia.
    + etrans; [exact Hl|]. rewrite Hm1, (script_view_frames self self1) by done. rewrite <- app_assoc. f_equal. rewrite app_assoc. f_equal. unfold frames_of. by rewrite <- fmap_app, take_drop.
  - intros (Ha1 & status & Hs & ->). rewrite idle_ticks by done. split; [done|]. by exists status.
Qed.

Section Script.
Context (ring_storage : list Z) (cap : Z) (answers : list bool) (events : list runner_event) (m : TxnStepsMessage).
Context (Hstore : length ring_storage = Z.to_nat cap) (Hcap : 272 ≤ cap) (Hcap' : cap + 272 < 4294967296) (Hty : Forall event_typed events) (Hby : event_typed (EvSteps m)).

Definition script_start : TransactionRunner * rworld := runner_run events (runner_start ring_storage cap answers).
Definition script_steps : list TxnStep := steps_of (Z.to_nat (tsm_step_count m)) (tsm_records m).

(** The history left a transaction between steps, with nothing in its ring and no
    frame refused to come; the batch is the next one and is within the credit,
    and its steps transmit and wait for nothing. *)
Record script_ready : Prop := {
  sr_active : rn_active script_start.1 = true;
  sr_open : rn_steps_ended script_start.1 = false;
  sr_idle : ac_phase (rn_current script_start.1) = kTRANSACTION_PHASE_IDLE;
  sr_empty : StepRing_IsEmpty (rn_ring script_start.1) = true;
  sr_bus : script_start.2.1 = [];
  sr_txn : tsm_txn_id m = rn_txn_id script_start.1;
  sr_seq : tsm_first_seq m = rn_next_seq script_start.1;
  sr_formed : areRecordsWellFormed (tsm_records m) (tsm_step_count m) = true;
  sr_fit : records_fit (Z.to_nat (tsm_step_count m)) script_start.1 TxnStep_zero (tsm_records m) = true;
  sr_plain : forallb (plain_step (rn_templates script_start.1)) script_steps = true;
  sr_room : zlen (tsm_records m) ≤ rn_window_bytes script_start.1 - u32 (rn_pushed_bytes script_start.1 - rn_consumed_bytes script_start.1);
}.

(** The batch is queued whole. *)
Lemma script_queued : script_ready →
  ∃ self2, runner_step (EvSteps m) script_start = (self2, script_start.2) ∧ queued self2 script_steps ∧
    rn_steps_ended self2 = has_flag (tsm_flags m) TXN_STEPS_FLAG_END ∧ is_u32 (rn_completed_steps self2) ∧
    (rn_txn_id self2, rn_channel self2, rn_interface_index self2, rn_next_transmit_us self2, rn_completed_steps self2, rn_keepalive self2) =
    (rn_txn_id script_start.1, rn_channel script_start.1, rn_interface_index script_start.1, rn_next_transmit_us script_start.1, rn_completed_steps script_start.1, rn_keepalive script_start.1).
Proof using Hstore Hcap Hcap' Hty Hby.
  intros [Ha He Hi Hempty Hw Hid Hseq Hwf Hfit Hplain Hroom]. set (st := script_start) in *. set (self := st.1) in *.
  destruct (run_ok cap events _ (start_ok ring_storage cap answers Hstore Hcap Hcap') Hty) as [[Hb Hrun] _]. fold script_start in Hb, Hrun. fold st in Hb, Hrun. fold self in Hb, Hrun. specialize (Hrun Ha).
  pose proof Hrun as (_ & _ & _ & _ & _ & consumed & rs & Hring & _ & Hacc & _). rewrite (in_flight_used cap _ self st.2 consumed rs Hb Hacc Hring) in Hroom.
  pose proof (ring_peek _ _ _ Hring) as Hpk. destruct rs as [|r rs]; [|destruct Hpk as [Hpk _]; congruence].
  destruct (push_loop_credit cap (Z.to_nat (tsm_step_count m)) (rn_next_seq self) self st.2 TxnStep_zero (tsm_records m) [] Hrun Hring Hby Hwf Hfit ltac:(lia))
    as (self1 & Hloop & Hv & _ & _ & rs' & Hring' & Hdec).
  set (self2 := self1 <| rn_next_seq := u32 (rn_next_seq self + steps_in (Z.to_nat (tsm_step_count m)) TxnStep_zero (tsm_records m)) |>
    <| rn_steps_ended := has_flag (tsm_flags m) TXN_STEPS_FLAG_END |>).
  assert (runner_step (EvSteps m) st = (self2, st.2)) as Hstep.
  { rewrite (surjective_pairing st). cbn [runner_step]. fold self. unfold TransactionRunner_PushSteps. rewrite Ha, Hid, He, Hseq, !Z.eqb_refl. cbn [negb orb].
    by rewrite Hloop. }
  unfold push_view in Hv. injection Hv as Va Vt Vw Vtp Vd Vc Vcur Vch Vidx Vnx Vcs Vka _.
  exists self2. split; [exact Hstep|]. split; [|split; [done|]].
  - split; [cbn; congruence|]. split; [cbn; congruence|]. split; [|by exists rs'].
    change (rn_templates self2) with (rn_templates self1). rewrite Vtp. apply Forall_forall. intros s Hin. by apply (proj1 (forallb_forall _ _) Hplain), list_elem_of_In.
  - cbn. rewrite Vt, Vch, Vidx, Vnx, Vcs, Vka. split; [|done]. destruct Hacc as (_ & _ & -> & _). unfold is_u32, u32. apply Z.mod_pos_bound. lia.
Qed.

(** C7. A transaction of plain steps runs to its end, in order.  From any
    history that left a transaction between steps with an empty ring, a final
    batch within the credit, whose steps transmit and wait for nothing, and
    enough ticks at times that do not go back (one for every 32 steps, and one
    more at a boundary), with a bus that takes the frames: what leaves the
    runner, progress reports aside, is one frame per step, with the step's
    identifier, flags and payload, in the order of the steps, then the status
    done that counts them, and the transaction is over. *)
Theorem runner_script_order (times : list Z) :
  let st := script_start in
  let ss := script_steps in
  script_ready → has_flag (tsm_flags m) TXN_STEPS_FLAG_END = true → times_from (rn_next_transmit_us st.1) times → (length ss < 32 * length times)%nat →
  let st' := runner_run (EvSteps m :: (EvTick <$> times)) st in
  rn_active st'.1 = false ∧ ∃ status, done_status st.1 (zlen ss) status ∧ main_log st'.2 = main_log st.2 ++ frames_of st.1 ss ++ [OutStatus status].
Proof using Hstore Hcap Hcap' Hty Hby.
  intros st ss Hready Hend Htimes Hlen st'. destruct (script_queued Hready) as (self2 & Hstep & Hq & He2 & Hu & Hview). injection Hview as Vt Vch Vidx Vnx Vcs _.
  change st' with (runner_run (EvTick <$> times) (runner_step (EvSteps m) script_start)). rewrite Hstep.
  destruct (ticks_plain times self2 script_start.2 script_steps Hq) as [Hover (status & Hs & Hlog)]; [congruence|done|apply (sr_bus Hready)|by rewrite Vnx|done|].
  split; [done|]. exists status. unfold done_status in Hs |- *. rewrite Vt, Vcs in Hs. split; [done|]. etrans; [exact Hlog|]. unfold frames_of. by rewrite Vch, Vidx.
Qed.

(** C36. The runner does not ask to be woken for its idle timeout.  From any
    history that left a transaction without keepalive between steps with an empty
    ring, let a batch of 32 steps come that transmit and wait for nothing and is
    not the last one, then a tick, with a bus that takes the frames.  The tick
    uses its whole budget of turns on those steps and stops before it notices
    that the ring is empty: the transaction is active and starved, but the
    deadline for the steps to come is not armed, and the next tick is asked for
    the pending progress report only, or, when the report went out with this
    tick, for no time at all. *)
Theorem runner_forgets_to_wake (now_us : Z) :
  script_ready → has_flag (tsm_flags m) TXN_STEPS_FLAG_END = false → length script_steps = 32%nat → tka_period_ms (rn_keepalive script_start.1) = 0 →
  rn_next_transmit_us script_start.1 ≤ now_us → 0 ≤ now_us < 18446744073709551616 →
  let self' := (runner_run [EvSteps m; EvTick now_us] script_start).1 in
  TransactionRunner_IsActive self' = true ∧ rn_completed_steps self' = u32 (rn_completed_steps script_start.1 + 32) ∧ StepRing_IsEmpty (rn_ring self') = true ∧
  rn_starve_deadline_us self' = 0 ∧ TransactionRunner_NextWakeUs self' = rn_report_due_us self'.
Proof using Hstore Hcap Hcap' Hty Hby.
  intros Hready Hend Hlen Hka Hnext Hnow self'. destruct (script_queued Hready) as (self2 & Hstep & Hq & He2 & Hu & Hview). injection Hview as Vt Vch Vidx Vnx Vcs Vka.
  destruct (tick_plain self2 now_us script_start.2 script_steps Hq ltac:(right; lia) Hu (sr_bus Hready) ltac:(lia) Hnow) as (self1 & w1 & out & Htick & _ & _ & Hp).
  subst self'. change (runner_run [EvSteps m; EvTick now_us] script_start) with (runner_run [EvTick now_us] (runner_step (EvSteps m) script_start)). rewrite Hstep.
  change (runner_run [EvTick now_us] (self2, script_start.2)) with (TransactionRunner_Tick log_port self2 now_us script_start.2). rewrite Htick. cbn [fst].
  unfold progressed in Hp. rewrite decide_True in Hp by lia. destruct Hp as ((Ha & Hi & _ & rs & Hring & Hd) & Hv & Hc & _ & _ & Hk & Hsd).
  rewrite drop_ge in Hd by lia. apply Forall2_nil_inv_r in Hd as ->. pose proof (proj2 (ring_peek _ _ _ Hring)) as He.
  specialize (Hsd ltac:(lia)). split; [exact Ha|]. split; [by rewrite Hc, Vcs|]. split; [exact He|]. split; [exact Hsd|].
  assert (rn_steps_ended self1 = false) as Hend1 by (unfold script_view in Hv; congruence).
  unfold TransactionRunner_NextWakeUs. rewrite Ha, Hi, He, Hend1, Hk, Vka, Hka, Hsd. cbn. unfold earliestWake. by destruct (Z.eqb_spec (rn_report_due_us self1) 0) as [->|].
Qed.
End Script.

Import RunnerDemo.

Definition opened : list runner_event := [EvBegin RunnerDemo.begin 1 1000; EvTemplate (send_only 1)].
Lemma opened_typed : Forall event_typed opened.
Proof. repeat constructor; cbn; lia. Defined.
Lemma batch_typed n flags : event_typed (EvSteps (steps 1 0 flags (replicate n (record 9 1)))).
Proof. apply (Forall_concat _ _), Forall_replicate. repeat constructor; cbn; lia. Defined.
Lemma opened_ready n flags : (n = 40 ∨ n = 32)%nat → script_ready store 1024 [] opened (steps 1 0 flags (replicate n (record 9 1))).
Proof. intros [->| ->]; split; try (vm_compute; reflexivity); vm_compute; discriminate. Defined.

Lemma runner_script_order_witness :
  let m := steps 1 0 TXN_STEPS_FLAG_END (replicate 40 (record 9 1)) in
  let st := runner_run opened (runner_start store 1024 []) in
  let st' := runner_run (EvSteps m :: (EvTick <$> [2000; 3000])) st in
  rn_active st'.1 = false ∧ ∃ status, done_status st.1 40 status ∧ length (main_log st'.2) = 41%nat.
Proof.
  intros m st st'.
  destruct (runner_script_order store 1024 [] opened m ltac:(vm_compute; reflexivity) ltac:(lia) ltac:(lia) opened_typed (batch_typed 40 _) [2000; 3000]) as [Ha (status & Hs & Hl)].
  - apply opened_ready. by left.
  - vm_compute. reflexivity.
  - vm_compute. intuition congruence.
  - vm_compute. lia.
  - split; [exact Ha|]. exists status. split; [exact Hs|]. etrans; [exact (f_equal length Hl)|]. vm_compute. reflexivity.
Defined.

Lemma runner_forgets_to_wake_witness :
  let m := steps 1 0 0 (replicate 32 (record 9 1)) in
  let self' := (runner_run [EvSteps m; EvTick 2000] (runner_run opened (runner_start store 1024 []))).1 in
  TransactionRunner_IsActive self' = true ∧ rn_starve_deadline_us self' = 0 ∧ TransactionRunner_NextWakeUs self' = 0.
Proof.
  intros m self'.
  destruct (runner_forgets_to_wake store 1024 [] opened m ltac:(vm_compute; reflexivity) ltac:(lia) ltac:(lia) opened_typed (batch_typed 32 _) 2000) as (Ha & _ & _ & Hs & Hn).
  - apply opened_ready. by right.
  - vm_compute. reflexivity.
  - vm_compute. reflexivity.
  - vm_compute. reflexivity.
  - vm_compute. discriminate.
  - lia.
  - split; [exact Ha|]. split; [exact Hs|]. etrans; [exact Hn|]. vm_compute. reflexivity.
Defined.

(** * Waiting for a roster of nodes

    A step in a roster mode waits until enough of the nodes of the roster have
    answered.  The runner keeps a bitmap and a count; what they mean is the set
    of the origins seen. *)
(** A frame from the bus that answers the step: it matches the advance pattern
    with the expected value, and neither of the other patterns. *)
Definition answer_frame (self : TransactionRunner) (f : FrameMessage) : bool :=
  let t := currentTemplate self in
  let word := payloadWord f in
  isOnBus self (rn_interface_index self) f && negb (matchesTemplatePattern t kTXN_PATTERN_EXTEND f word) &&
  negb (matchesTemplatePattern t kTXN_PATTERN_ABORT f word) && isPatternPresent t kTXN_PATTERN_ADVANCE &&
  matchesId (pattern_at t kTXN_PATTERN_ADVANCE) (frame_can_id f) &&
  matchesPayload word (tp_payload_mask (pattern_at t kTXN_PATTERN_ADVANCE)) (expectedValue self t).

Definition roster_of (self : TransactionRunner) : list Z := take (Z.to_nat (rn_roster_count self)) (rn_roster self).

Definition needed_answers (self : TransactionRunner) : Z :=
  if tt_advance_mode (currentTemplate self) =? kTXN_ADVANCE_MODE_ROSTER_ALL then rn_roster_count self else tt_count_k (currentTemplate self).

(** The nodes of the roster among these origins. *)
Definition answered (self : TransactionRunner) (origins : list Z) : gset Z := list_to_set (roster_of self) ∩ list_to_set origins.

(** What deciding on a frame reads. *)
Definition match_view (self : TransactionRunner) :=
  (rn_active self, rn_interface_index self, rn_templates self, rn_origin self, rn_roster self, rn_roster_count self, ac_step (rn_current self),
   ac_phase (rn_current self)).

Lemma match_view_ext self self' f : match_view self' = match_view self →
  answer_frame self' f = answer_frame self f ∧ extractOrigin self' f = extractOrigin self f ∧ roster_of self' = roster_of self ∧
  needed_answers self' = needed_answers self ∧ isIsotpStep self' = isIsotpStep self ∧ currentTemplate self' = currentTemplate self.
Proof.
  unfold match_view. intros [= Ha Hi Ht Ho Hr Hc Hs Hp]. assert (currentTemplate self' = currentTemplate self) as Hcur by (unfold currentTemplate; by rewrite Ht, Hs).
  unfold answer_frame, extractOrigin, roster_of, needed_answers, isIsotpStep, isOnBus, expectedValue. by rewrite Hcur, Ha, Hi, Ho, Hr, Hc, Hs, Hp.
Qed.

(** The bitmap and the count of a step that still waits, after frames of these origins. *)
Definition seen (self : TransactionRunner) (origins : list Z) : Prop :=
  ac_phase (rn_current self) = kTRANSACTION_PHASE_WAIT ∧
  (∀ i x, roster_of self !! i = Some x → Z.testbit (ac_seen_bitmap (rn_current self)) (Z.of_nat i) = bool_decide (x ∈ origins)) ∧
  ac_seen_count (rn_current self) = Z.of_nat (size (answered self origins)) ∧ ac_satisfied (rn_current self) = false ∧
  Z.of_nat (size (answered self origins)) < needed_answers self.

Lemma answered_size self origins : NoDup (roster_of self) → (size (answered self origins) ≤ length (roster_of self))%nat.
Proof.
  intros Hn. rewrite <- (size_list_to_set (C := gset Z) _ Hn). apply subseteq_size. unfold answered. set_solver.
Qed.

(** An origin that is not new adds nobody; a new one adds one. *)
Lemma answered_same self origins o : o ∉ roster_of self ∨ o ∈ origins → answered self (origins ++ [o]) = answered self origins.
Proof. intros Ho. unfold answered. apply leibniz_equiv. rewrite list_to_set_app. set_solver. Qed.

Lemma answered_new self origins o : o ∈ roster_of self → o ∉ origins →
  size (answered self (origins ++ [o])) = S (size (answered self origins)).
Proof.
  intros Hr Ho. assert (answered self (origins ++ [o]) ≡ {[o]} ∪ answered self origins) as -> by (unfold answered; rewrite list_to_set_app; set_solver).
  rewrite size_union, size_singleton; [done|]. unfold answered. set_solver.
Qed.

Section Roster.
Context (self : TransactionRunner) (Hdup : NoDup (roster_of self)) (Hcount : 0 ≤ rn_roster_count self ≤ 64).

Lemma roster_length : (length (roster_of self) ≤ 64)%nat.
Proof using Hcount. unfold roster_of. rewrite length_take. lia. Qed.

Lemma roster_index_bit m i j : 0 ≤ m → (i < 64)%nat →
  Z.testbit (Z.lor m (u64 (Z.shiftl 1 (Z.of_nat i)))) (Z.of_nat j) = Z.testbit m (Z.of_nat j) || Nat.eqb i j.
Proof.
  intros Hm Hi. rewrite u64_id.
  - rewrite Z.lor_spec, Z.shiftl_1_l, Z.pow2_bits_eqb by lia. f_equal. destruct (Nat.eqb_spec i j); lia.
  - rewrite Z.shiftl_1_l. pose proof (Z.pow_lt_mono_r 2 (Z.of_nat i) 64 ltac:(lia) ltac:(lia)). pose proof (Z.pow_pos_nonneg 2 (Z.of_nat i)). lia.
Qed.

Lemma roster_bit_clear m i : (i < 64)%nat → (Z.land m (u64 (Z.shiftl 1 (Z.of_nat i))) =? 0) = negb (Z.testbit m (Z.of_nat i)).
Proof.
  intros Hi. rewrite u64_id.
  - pose proof (defined_testbit m (Z.of_nat i) ltac:(lia)) as Hd. unfold defined in Hd. rewrite <- Hd. by rewrite negb_involutive.
  - rewrite Z.shiftl_1_l. pose proof (Z.pow_lt_mono_r 2 (Z.of_nat i) 64 ltac:(lia) ltac:(lia)). pose proof (Z.pow_pos_nonneg 2 (Z.of_nat i)). lia.
Qed.

(** One answer. *)
Lemma recordRosterAnswer_seen origins f :
  seen self origins → 0 ≤ ac_seen_bitmap (rn_current self) →
  let self' := recordRosterAnswer self f in
  let origins' := origins ++ [extractOrigin self f] in
  match_view self' = match_view self ∧ 0 ≤ ac_seen_bitmap (rn_current self') ∧
  (seen self' origins' ∨ ac_satisfied (rn_current self') = true ∧ needed_answers self ≤ Z.of_nat (size (answered self origins'))).
Proof using Hdup Hcount.
  intros (Hph & Hbits & Hcnt & Hsat & Hless) Hnn. set (o := extractOrigin self f) in *. unfold recordRosterAnswer. fold o. unfold findRosterIndex. fold (roster_of self).
  destruct (scan (λ o0, o0 =? o) (roster_of self)) as [i|] eqn:Hscan.
  2: { rewrite scan_None in Hscan. assert (o ∉ roster_of self) as Hnot.
       { intros [i Hi]%list_elem_of_lookup. specialize (Hscan i o Hi). cbn in Hscan. by rewrite Z.eqb_refl in Hscan. }
       split; [done|]. split; [done|]. left. unfold seen. cbv zeta. rewrite (answered_same self origins o) by auto. split_and!; try done.
       intros i x Hx. rewrite (Hbits i x Hx). apply bool_decide_ext. rewrite elem_of_app, list_elem_of_singleton. split; [tauto|]. intros [?| ->]; [done|].
       exfalso. apply Hnot. by eapply list_elem_of_lookup_2. }
  apply scan_hit in Hscan as (x & Hx & Hxo). apply Z.eqb_eq in Hxo as ->. pose proof (lookup_lt_Some _ _ _ Hx) as Hi. pose proof roster_length as Hlen.
  rewrite roster_bit_clear, negb_involutive by lia. rewrite (Hbits i o Hx). case_bool_decide as Hin.
  { split; [done|]. split; [done|]. left. unfold seen. cbv zeta. rewrite (answered_same self origins o) by auto. split_and!; try done.
    intros j y Hy. rewrite (Hbits j y Hy). apply bool_decide_ext. rewrite elem_of_app, list_elem_of_singleton. split; [tauto|]. by intros [?| ->]. }
  pose proof (answered_new self origins o ltac:(by eapply list_elem_of_lookup_2) Hin) as Hnew. pose proof (answered_size self (origins ++ [o]) Hdup) as Hsz.
  split; [done|]. split.
  { cbn. apply Z.lor_nonneg. split; [done|]. unfold u64. apply Z.mod_pos_bound. lia. }
  set (c1 := rn_current self <| ac_seen_bitmap := _ |>). set (c2 := c1 <| ac_seen_count := _ |>).
  assert (ac_seen_count c2 = Z.of_nat (size (answered self (origins ++ [o])))) as Hc.
  { change (ac_seen_count c2) with (u8 (ac_seen_count (rn_current self) + 1)). rewrite Hcnt, u8_id; lia. }
  change (if tt_advance_mode (currentTemplate self) =? kTXN_ADVANCE_MODE_ROSTER_ALL then rn_roster_count self else tt_count_k (currentTemplate self))
    with (needed_answers self).
  destruct (Z.geb_spec (ac_seen_count c2) (needed_answers self)) as [Hge|Hlt]; [right; split; [done|lia]|left].
  split; [done|]. split; [|split; [exact Hc|split; [done|]]].
  - intros j y Hy. change (roster_of self !! j = Some y) in Hy. cbn [rn_current set_field ac_seen_bitmap].
    change (Z.testbit (Z.lor (ac_seen_bitmap (rn_current self)) (u64 (Z.shiftl 1 (Z.of_nat i)))) (Z.of_nat j) = bool_decide (y ∈ origins ++ [o])).
    rewrite roster_index_bit, (Hbits j y Hy) by lia. apply eq_true_iff_eq. rewrite orb_true_iff, !bool_decide_eq_true, Nat.eqb_eq, elem_of_app, list_elem_of_singleton.
    assert (i = j ↔ y = o) as ->; [|done]. split; [intros <-; congruence|intros ->]. by eapply NoDup_lookup.
  - change (Z.of_nat (size (answered self (origins ++ [o]))) < needed_answers self). lia.
Qed.
End Roster.

(** ** Frames one after the other *)

Definition feed (fs : list FrameMessage) (st : TransactionRunner * rworld) : TransactionRunner * rworld :=
  foldl (λ st f, TransactionRunner_OnFrame log_port st.1 (rn_interface_index st.1) f st.2) st fs.

Definition waits (self0 self : TransactionRunner) (origins : list Z) : Prop :=
  match_view self = match_view self0 ∧ 0 ≤ ac_seen_bitmap (rn_current self) ∧
  (seen self origins ∨ ac_satisfied (rn_current self) = true ∧ needed_answers self ≤ Z.of_nat (size (answered self origins))).

Lemma answer_cases self f : answer_frame self f = true →
  isOnBus self (rn_interface_index self) f = true ∧
  matchesTemplatePattern (currentTemplate self) kTXN_PATTERN_EXTEND f (payloadWord f) = false ∧
  matchesTemplatePattern (currentTemplate self) kTXN_PATTERN_ABORT f (payloadWord f) = false ∧
  isPatternPresent (currentTemplate self) kTXN_PATTERN_ADVANCE = true ∧
  matchesId (pattern_at (currentTemplate self) kTXN_PATTERN_ADVANCE) (frame_can_id f) = true ∧
  matchesPayload (payloadWord f) (tp_payload_mask (pattern_at (currentTemplate self) kTXN_PATTERN_ADVANCE)) (expectedValue self (currentTemplate self)) = true.
Proof. unfold answer_frame. rewrite !andb_true_iff, !negb_true_iff. tauto. Qed.

(** A frame that answers a step which still waits is recorded; after that it is kept for the next step. *)
Lemma OnFrame_answer self f w :
  answer_frame self f = true → isIsotpStep self = false → ac_phase (rn_current self) = kTRANSACTION_PHASE_WAIT →
  TransactionRunner_OnFrame log_port self (rn_interface_index self) f w =
    (if ac_satisfied (rn_current self) then keepEarlyFrame self f else recordAnswer self f, w).
Proof.
  intros (Hbus & Hext & Hab & Hpr & Hid & Hval)%answer_cases Hiso Hph. unfold TransactionRunner_OnFrame, isBetweenSteps. rewrite Hbus, Hph. cbn [negb].
  change (kTRANSACTION_PHASE_WAIT =? kTRANSACTION_PHASE_IDLE) with false. change (kTRANSACTION_PHASE_WAIT =? kTRANSACTION_PHASE_WAIT) with true. cbn [andb].
  destruct (ac_satisfied (rn_current self)) eqn:Hs; [done|]. unfold dispatchFrame. rewrite Hiso. unfold isWaiting. rewrite Hph, Hs.
  change (kTRANSACTION_PHASE_WAIT =? kTRANSACTION_PHASE_WAIT) with true. cbn [andb negb]. unfold matchFrame. rewrite Hext, Hab, Hpr. unfold matchAdvance.
  by rewrite Hid, Hval.
Qed.

Lemma feed_waits self0 fs self w origins :
  isRosterMode (tt_advance_mode (currentTemplate self0)) = true → isIsotpStep self0 = false → NoDup (roster_of self0) → 0 ≤ rn_roster_count self0 ≤ 64 →
  ac_phase (rn_current self0) = kTRANSACTION_PHASE_WAIT → Forall (λ f, answer_frame self0 f = true) fs → waits self0 self origins →
  waits self0 (feed fs (self, w)).1 (origins ++ (extractOrigin self0 <$> fs)) ∧ (feed fs (self, w)).2 = w.
Proof.
  intros Hmode Hiso Hdup Hcnt Hph Hfs. revert self w origins. induction Hfs as [|f fs Hf _ IH]; intros self w origins Hw; [by rewrite app_nil_r|].
  destruct Hw as (Hv & Hnn & Hs). destruct (match_view_ext self0 self f Hv) as (Eans & Eor & Ero & Ene & Eiso & Ecur).
  assert (ac_phase (rn_current self) = kTRANSACTION_PHASE_WAIT) as Hph' by (unfold match_view in Hv; congruence).
  assert (rn_roster_count self = rn_roster_count self0) as Ecnt by (unfold match_view in Hv; congruence).
  unfold feed. cbn [foldl fst snd]. rewrite (OnFrame_answer self f w) by congruence. rewrite fmap_cons, (app_assoc origins [_] _ : origins ++ _ :: _ = _).
  apply IH. destruct Hs as [Hseen|[Hsat Hgot]].
  - rewrite (proj1 (proj2 (proj2 (proj2 Hseen)))). unfold recordAnswer. rewrite Ecur.
    destruct (Z.eqb_spec (tt_advance_mode (currentTemplate self0)) kTXN_ADVANCE_MODE_COUNT) as [Hc|_]; [by rewrite Hc in Hmode|]. cbn [negb].
    assert (seen (keepRxFrame self f) origins) as Hseen' by exact Hseen.
    destruct (recordRosterAnswer_seen (keepRxFrame self f) ltac:(change (NoDup (roster_of self)); by rewrite Ero) ltac:(change (0 ≤ rn_roster_count self ≤ 64); lia)
      origins f Hseen' Hnn) as (Hv' & Hnn' & Hcase).
    change (extractOrigin (keepRxFrame self f) f) with (extractOrigin self f) in Hcase. rewrite Eor in Hcase.
    destruct (match_view_ext (keepRxFrame self f) _ f Hv') as (_ & _ & Ero' & Ene' & _). split; [by rewrite Hv'|]. split; [done|].
    destruct Hcase as [?|[? Hle]]; [by left|right]. split; [done|]. unfold answered in *. rewrite Ero', Ene'. exact Hle.
  - rewrite Hsat. unfold keepEarlyFrame. assert (needed_answers self ≤ Z.of_nat (size (answered self (origins ++ [extractOrigin self0 f])))) as Hmono.
    { etrans; [exact Hgot|]. apply Nat2Z.inj_le, subseteq_size. unfold answered. rewrite list_to_set_app. set_solver. }
    destruct (_ =? _); (split; [done|split; [done|right; split; [done|exact Hmono]]]).
Qed.


Module RosterDemo.

Definition roster : TxnRosterMessage := {|
  tr_channel := 3; tr_txn_id := 1; tr_origin := {| toe_source := kTXN_ORIGIN_SOURCE_CAN_ID; toe_shift := 0; toe_payload_offset := 0; toe_mask := 255 |};
  tr_roster_count := 2; tr_roster := [7; 8] ++ replicate 62 0 |}.

Definition ask_all : TxnTemplateMessage := {|
  tt_channel := 3; tt_template_id := 2; tt_txn_id := 1; tt_advance_mode := kTXN_ADVANCE_MODE_ROSTER_ALL; tt_flags := 0; tt_count_k := 0;
  tt_patterns_present := 1; tt_timeout_ms := 50; tt_gap_us := 0; tt_extend_timeout_ms := 0; tt_type := kTXN_TEMPLATE_TYPE_GENERIC;
  tt_advance := {| tp_can_id := 1792; tp_can_mask := 1792; tp_payload_mask := 0; tp_payload_value := 0 |};
  tt_abort := pattern_zero; tt_extend := pattern_zero; tt_isotp := parameters_zero |}.

Definition waiting : TransactionRunner * rworld :=
  runner_run [EvBegin RunnerDemo.begin 1 1000; EvRoster roster; EvTemplate ask_all; EvSteps (RunnerDemo.steps 1 0 1 [RunnerDemo.record 5 7]); EvTick 2000]
    (runner_start RunnerDemo.store 1024 []).

(** Node [id] answers. *)
Definition from (id : Z) : FrameMessage := {|
  frame_can_id := 1792 + id; frame_timestamp_us := 0; frame_channel := 0; frame_payload_length := 0; frame_flags := 0; frame_route_flags := 0;
  frame_payload := replicate 64 0 |}.

End RosterDemo.


(** * The frame lengths of ISO-TP templates *)
(** Parameters of a CAN FD template, with any transmit length. *)
Definition fd_parameters (response length : Z) : TxnIsotpParameters := {|
  ti_response_id := response; ti_flags := TXN_ISOTP_FLAG_FD; ti_tx_address := 0; ti_rx_address := 0; ti_padding := 204;
  ti_tx_data_length := length; ti_block_size := 0; ti_st_min := 0 |}.

Definition fd_template (length : Z) : TxnTemplateMessage := {|
  tt_channel := 3; tt_template_id := 2; tt_txn_id := 1; tt_advance_mode := kTXN_ADVANCE_MODE_NONE; tt_flags := 0; tt_count_k := 0;
  tt_patterns_present := 0; tt_timeout_ms := 50; tt_gap_us := 0; tt_extend_timeout_ms := 0; tt_type := kTXN_TEMPLATE_TYPE_ISOTP;
  tt_advance := pattern_zero; tt_abort := pattern_zero; tt_extend := pattern_zero; tt_isotp := fd_parameters 2024 length |}.

(** The message that [b] has after [a] sent it [m] with frames of this length. *)
Definition received_with (length : Z) (m : list Z) (times : list Z) : list Z * list Z :=
  let a := IsotpLink_Open IsotpLink_Init 2016 1 (fd_parameters 2024 length) in
  let b := IsotpLink_Open IsotpLink_Init 2024 1 (fd_parameters 2016 8) in
  let '(_, events, _, b) := turns times (IsotpLink_Send a m (zlen m) 0) b in
  (events, take (Z.to_nat (ir_length (il_receiver b))) (ir_message (il_receiver b))).

(** The runner accepts ISO-TP frame lengths that no CAN FD frame has, and
    messages sent with them arrive corrupted.  A template whose transmit length
    is 10 passes the validation; its frames are filled to 12 bytes, the receiver
    takes the filling for data, and reports a message of the right length with
    the wrong bytes.  With 12 the same message arrives. *)
Theorem isotp_odd_length_corrupts :
  let m := Z.of_nat <$> seq 0 30 in
  isTypeValid (fd_template 10) = true ∧ received_with 12 m [100; 200; 300; 400] = ([kISOTP_EVENT_MESSAGE], m) ∧
  (received_with 10 m [100; 200; 300; 400]).1 = [kISOTP_EVENT_MESSAGE] ∧ (received_with 10 m [100; 200; 300; 400]).2 ≠ m ∧
  zlen (received_with 10 m [100; 200; 300; 400]).2 = zlen m.
Proof. vm_compute. split_and!; try reflexivity. discriminate. Qed.
