(* ===== verification/Agent.v ===== *)
(** * The agent core (src/agent/agent.c)

    A state machine that connects to the hub, registers its buses, carries
    frames both ways and runs transactions.  The platform pushes events in, the
    ports carry everything that leaves; they are parameters over a world of any
    type, and do not call back into the core while it runs.

    The transaction runner's port is the agent itself: its frames go through the
    echo correlator, which is therefore part of the runner's world. *)

From Stdlib Require Import String.
From S2P Require Import Prelude CString Wire Codec HelloMessage RegisterMessage SubscribeMessage FrameMessage TxnMessage TxnStepsMessage IfconfigMessage ControlPlane StepRing TxPacer ChannelMap EchoCorrelator ReconnectBackoff.
From S2P Require Import IsotpLink TransactionRunner.

Definition AGENT_REGISTER_TIMEOUT_MS : Z := 5000.
Definition AGENT_STATUS_PERIOD_MS : Z := 1000.
Definition PING_REPLY_FLAG : Z := 1.
Definition AGENT_CAPABILITIES : Z := Z.lor (Z.lor HELLO_CAP_RELIABLE_CHANNELS HELLO_CAP_TRANSACTIONS) HELLO_CAP_ISOTP.
Definition TIMING_CONFLICT_DETAIL : list Z := lit "give a bitrate or a time quantum and segments, not both".
Notation CONTROL_MESSAGE_MAX_WIRE_SIZE := 424%nat (only parsing).

Inductive TAGENT_STATE := kAGENT_STATE_DISCONNECTED | kAGENT_STATE_CONNECTING | kAGENT_STATE_REGISTERING | kAGENT_STATE_RUNNING.
#[export] Instance TAGENT_STATE_eq_dec : EqDecision TAGENT_STATE.
Proof. solve_decision. Defined.

(** ** Ports *)

Record TransportPort (W : Type) := {
  tp_connect : W → bool * W;
  tp_disconnect : W → W;
  tp_send_control : list Z → W → W;
  tp_send_frame : Z → list Z → W → bool * W;
}.
Arguments tp_connect {W} _ _.
Arguments tp_disconnect {W} _ _.
Arguments tp_send_control {W} _ _ _.
Arguments tp_send_frame {W} _ _ _ _.

Record CanPort (W : Type) := {
  cp_write_frame : Z → FrameMessage → W → bool * W;
  cp_configure : Z → InterfaceSettings → list Z → W → bool * list Z * W;
  cp_query : Z → InterfaceSettings → W → InterfaceSettings * W;
  cp_bitrate : Z → W → Z * W;
}.
Arguments cp_write_frame {W} _ _ _ _.
Arguments cp_configure {W} _ _ _ _ _.
Arguments cp_query {W} _ _ _ _.
Arguments cp_bitrate {W} _ _ _.

(** ** State *)

Record Agent := {
  ag_registration : RegisterMessage; ag_channel_map : ChannelMap; ag_backoff : ReconnectBackoff; ag_echo : EchoCorrelator; ag_tx_pacer : TxPacer;
  ag_transactions : TransactionRunner; ag_state : TAGENT_STATE; ag_next_connect_at_us : Z; ag_register_deadline_us : Z; ag_next_status_at_us : Z;
  ag_tx_dropped : list Z; ag_pending_reconnect_delay_ms : Z;
}.

#[export] Instance Agent_settable : Settable Agent := λ a, {|
  ag_registration := ag_registration a; ag_channel_map := ag_channel_map a; ag_backoff := ag_backoff a; ag_echo := ag_echo a;
  ag_tx_pacer := ag_tx_pacer a; ag_transactions := ag_transactions a; ag_state := ag_state a; ag_next_connect_at_us := ag_next_connect_at_us a;
  ag_register_deadline_us := ag_register_deadline_us a; ag_next_status_at_us := ag_next_status_at_us a; ag_tx_dropped := ag_tx_dropped a;
  ag_pending_reconnect_delay_ms := ag_pending_reconnect_delay_ms a |}.

(** The ring is the member [transaction_ring]; [TXN_RING_BYTES], its length, is chosen by the build. *)
Definition Agent_Init (transaction_ring : list Z) (registration : RegisterMessage) : Agent := {|
  ag_registration := registration; ag_channel_map := ChannelMap_Reset; ag_echo := EchoCorrelator_Reset; ag_tx_pacer := TxPacer_Reset;
  ag_transactions := TransactionRunner_Init transaction_ring (zlen transaction_ring);
  ag_backoff := ReconnectBackoff_Init RECONNECT_DEFAULT_INITIAL_DELAY_MS RECONNECT_DEFAULT_MAX_DELAY_MS;
  ag_state := kAGENT_STATE_DISCONNECTED; ag_next_connect_at_us := 0; ag_register_deadline_us := 0; ag_next_status_at_us := 0;
  ag_pending_reconnect_delay_ms := 0; ag_tx_dropped := replicate REGISTER_INTERFACES_MAX 0 |}.

Definition Agent_State (self : Agent) : TAGENT_STATE := ag_state self.
Definition Agent_PendingReconnectDelayMs (self : Agent) : Z := ag_pending_reconnect_delay_ms self.
Definition Agent_NextWakeUs (self : Agent) : Z :=
  if bool_decide (ag_state self ≠ kAGENT_STATE_RUNNING) then 0 else TransactionRunner_NextWakeUs (ag_transactions self).

Section Agent.
Context {W : Type} (transport : TransportPort W) (can : CanPort W).

(** ** Sending *)

(** A message the encoder refused has size 0 and is not sent. *)
Definition sendEncodedControl (message : nat * list Z) (w : W) : W :=
  if Nat.eqb message.1 0 then w else tp_send_control transport (take message.1 message.2) w.

Definition sendHelloAndRegister (self : Agent) (w : W) : W :=
  let '(encoded_size, encoded) :=
    HelloMessage_Build kPEER_ROLE_AGENT None AGENT_CAPABILITIES (replicate HELLO_NAME_SIZE 0) (replicate CONTROL_MESSAGE_MAX_WIRE_SIZE 0) in
  let w := tp_send_control transport (take encoded_size encoded) w in
  let '(encoded_size, encoded) := RegisterMessage_Encode (ag_registration self) encoded in
  tp_send_control transport (take encoded_size encoded) w.

(** [for(i=0; i<interface_count; i++)]: the entries filled so far, in order. *)
Fixpoint status_loop (n : nat) (i : Z) (self : Agent) (entries : list InterfaceStatusEntry) (w : W) : list InterfaceStatusEntry * Agent * W :=
  match n with
  | O => (entries, self, w)
  | S n' =>
      match ChannelMap_ChannelForInterface (ag_channel_map self) i with
      | None => status_loop n' (i + 1) self entries w
      | Some channel =>
          let '(advertised_rate, w) := cp_bitrate can i w in
          let '(credit, tx_pacer) := TxPacer_Update (ag_tx_pacer self) i advertised_rate (ag_tx_dropped self).[i] in
          let entry := {| ise_channel := channel; ise_flags := 0; ise_advertised_rate := advertised_rate; ise_credit := credit;
                          ise_tx_dropped := (ag_tx_dropped self).[i] |} in
          status_loop n' (i + 1) (self <| ag_tx_pacer := tx_pacer |>) (entries ++ [entry]) w
      end
  end.

Definition sendInterfaceStatus (self : Agent) (w : W) : Agent * W :=
  let '(entries, self, w) := status_loop (Z.to_nat (reg_interface_count (ag_registration self))) 0 self [] w in
  let status := {| ism_interface_count := Z.of_nat (length entries); ism_entries := entries |} in
  (self, sendEncodedControl (InterfaceStatusMessage_Encode status (replicate (MESSAGE_HEADER_SIZE + INTERFACE_STATUS_BODY_SIZE) 0)) w).

(** ** The runner's port *)

Definition transmitTransactionFrame (interface_index : Z) (frame : FrameMessage) (w : EchoCorrelator * W) : bool * (EchoCorrelator * W) :=
  let echo := EchoCorrelator_Push w.1 interface_index FRAME_ROUTE_NO_TOKEN (frame_can_id frame) in
  let '(written, w) := cp_write_frame can interface_index frame w.2 in
  if written then (true, (echo, w)) else (false, (EchoCorrelator_DropNewest echo interface_index, w)).

Definition reportTransactionProgress (progress : TxnProgressMessage) (w : EchoCorrelator * W) : EchoCorrelator * W :=
  (w.1, sendEncodedControl (TxnProgressMessage_Encode progress (replicate (MESSAGE_HEADER_SIZE + TXN_PROGRESS_BODY_SIZE) 0)) w.2).

Definition reportTransactionStatus (status : TxnStatusMessage) (w : EchoCorrelator * W) : EchoCorrelator * W :=
  (w.1, sendEncodedControl (TxnStatusMessage_Encode status (replicate (MESSAGE_HEADER_SIZE + TXN_STATUS_BODY_SIZE) 0)) w.2).

Definition reportTransactionRoster (report : TxnRosterReportMessage) (w : EchoCorrelator * W) : EchoCorrelator * W :=
  (w.1, sendEncodedControl (TxnRosterReportMessage_Encode report (replicate (MESSAGE_HEADER_SIZE + TXN_ROSTER_REPORT_BODY_SIZE) 0)) w.2).

Definition transactionRunnerPort : RunnerPort (EchoCorrelator * W) := {|
  port_transmit := transmitTransactionFrame; port_progress := reportTransactionProgress; port_status := reportTransactionStatus;
  port_roster := reportTransactionRoster |}.

(** Runs an operation of the runner, which may use its port. *)
Definition on_runner (self : Agent) (f : TransactionRunner → EchoCorrelator * W → TransactionRunner * (EchoCorrelator * W)) (w : W) : Agent * W :=
  let '(transactions, (echo, w)) := f (ag_transactions self) (ag_echo self, w) in
  (self <| ag_transactions := transactions |> <| ag_echo := echo |>, w).

(** ** Connecting *)

Definition scheduleReconnect (self : Agent) (now_us : Z) : Agent :=
  let '(delay_ms, backoff) := ReconnectBackoff_NextDelayMs (ag_backoff self) in
  self <| ag_backoff := backoff |> <| ag_pending_reconnect_delay_ms := u32 delay_ms |>
       <| ag_next_connect_at_us := u64 (now_us + u64 (delay_ms * MICROSECONDS_PER_MILLISECOND)) |>.

Definition Agent_OnDisconnected (self : Agent) (now_us : Z) : Agent :=
  if bool_decide (ag_state self = kAGENT_STATE_DISCONNECTED) then self
  else
    let self := self <| ag_channel_map := ChannelMap_Reset |> <| ag_echo := EchoCorrelator_Reset |>
                     <| ag_transactions := TransactionRunner_Cancel (ag_transactions self) |> <| ag_state := kAGENT_STATE_DISCONNECTED |>
                     <| ag_register_deadline_us := 0 |> in
    scheduleReconnect self now_us.

Definition tryConnect (self : Agent) (now_us : Z) (w : W) : Agent * W :=
  let '(ok, w) := tp_connect transport w in
  if ok then (self <| ag_state := kAGENT_STATE_CONNECTING |>, w) else (scheduleReconnect self now_us, w).

Definition tickRegistering (self : Agent) (now_us : Z) (w : W) : Agent * W :=
  if ag_register_deadline_us self =? 0
  then (self <| ag_register_deadline_us := u64 (now_us + AGENT_REGISTER_TIMEOUT_MS * MICROSECONDS_PER_MILLISECOND) |>, w)
  else if now_us <? ag_register_deadline_us self then (self, w)
  else (Agent_OnDisconnected self now_us, tp_disconnect transport w).

Definition tickRunning (self : Agent) (now_us : Z) (w : W) : Agent * W :=
  let '(self, w) := on_runner self (λ r, TransactionRunner_Tick transactionRunnerPort r now_us) w in
  if now_us <? ag_next_status_at_us self then (self, w)
  else
    let '(self, w) := sendInterfaceStatus self w in
    (self <| ag_next_status_at_us := u64 (now_us + AGENT_STATUS_PERIOD_MS * MICROSECONDS_PER_MILLISECOND) |>, w).

Definition Agent_Tick (self : Agent) (now_us : Z) (w : W) : Agent * W :=
  match ag_state self with
  | kAGENT_STATE_REGISTERING => tickRegistering self now_us w
  | kAGENT_STATE_RUNNING => tickRunning self now_us w
  | kAGENT_STATE_CONNECTING => (self, w)
  | kAGENT_STATE_DISCONNECTED => if now_us <? ag_next_connect_at_us self then (self, w) else tryConnect self now_us w
  end.

Definition Agent_OnConnected (self : Agent) (w : W) : Agent * W :=
  if bool_decide (ag_state self ≠ kAGENT_STATE_CONNECTING) then (self, w)
  else
    let w := sendHelloAndRegister self w in
    (self <| ag_state := kAGENT_STATE_REGISTERING |>, w).

(** ** Control messages *)

Definition handleRegisterAck (self : Agent) (header : MessageHeader) (payload : list Z) (now_us : Z) (w : W) : Agent * W :=
  let refused := (Agent_OnDisconnected self now_us, tp_disconnect transport w) in
  if bool_decide (ag_state self ≠ kAGENT_STATE_REGISTERING) then (self, w)
  else
    let '(decoded, ack) := RegisterAckMessage_Decode register_ack0 payload in
    if negb decoded then refused
    else if negb (ack_status ack =? REGISTER_STATUS_OK) then refused
    else
      let '(assigned, channel_map) := ChannelMap_AssignFromAck (ag_channel_map self) ack (reg_interface_count (ag_registration self)) in
      if negb assigned then refused
      else
        let self := self <| ag_channel_map := channel_map |> <| ag_backoff := ReconnectBackoff_Reset (ag_backoff self) |>
                         <| ag_state := kAGENT_STATE_RUNNING |> <| ag_register_deadline_us := 0 |> in
        let '(self, w) := sendInterfaceStatus self w in
        (self <| ag_next_status_at_us := u64 (now_us + AGENT_STATUS_PERIOD_MS * MICROSECONDS_PER_MILLISECOND) |>, w).

Definition handlePing (self : Agent) (header : MessageHeader) (payload : list Z) (now_us : Z) (w : W) : Agent * W :=
  if has_flag (header_flags header) PING_REPLY_FLAG then (self, w)
  else
    let pong := {| header_type := kMESSAGE_TYPE_PING; header_flags := PING_REPLY_FLAG; header_length := 0 |} in
    (self, tp_send_control transport (MessageHeader_Encode pong (replicate MESSAGE_HEADER_SIZE 0)).2 w).

Definition interfaceIndexForName (self : Agent) (interface_name : list Z) : option Z :=
  Z.of_nat <$> scan (λ name, streq name interface_name) (registered_names (ag_registration self)).

(** The status, what is written to [detail], and the world. *)
Definition applyIfconfig (request : IfconfigMessage) (interface_index : Z) (detail : list Z) (w : W) : Z * list Z * W :=
  if if_op request =? IFCONFIG_OP_QUERY then (IFCONFIG_STATUS_OK, detail, w)
  else if negb (if_op request =? IFCONFIG_OP_APPLY) then (IFCONFIG_STATUS_APPLY_FAILED, detail, w)
  else if InterfaceSettings_HasTimingConflict (if_settings request)
  then (IFCONFIG_STATUS_APPLY_FAILED, BoundedString_Copy detail (Some TIMING_CONFLICT_DETAIL), w)
  else
    let '(applied, detail, w) := cp_configure can interface_index (if_settings request) detail w in
    (if negb applied then IFCONFIG_STATUS_APPLY_FAILED else IFCONFIG_STATUS_OK, detail, w).

Definition handleIfconfig (self : Agent) (header : MessageHeader) (payload : list Z) (now_us : Z) (w : W) : Agent * W :=
  if bool_decide (ag_state self ≠ kAGENT_STATE_RUNNING) then (self, w)
  else
    let '(decoded, request) := IfconfigMessage_Decode ifconfig0 payload in
    if negb decoded then (self, w)
    else
      let detail := replicate IFCONFIG_DETAIL_SIZE 0 in
      let '(status, detail, settings, w) :=
        match interfaceIndexForName self (if_interface_name request) with
        | None => (IFCONFIG_STATUS_UNKNOWN_INTERFACE, detail, settings0, w)
        | Some interface_index =>
            let '(status, detail, w) := applyIfconfig request interface_index detail w in
            let '(settings, w) := cp_query can interface_index settings0 w in (status, detail, settings, w)
        end in
      let reply := {| ifr_request_id := if_request_id request; ifr_status := status; ifr_settings := settings; ifr_detail := detail |} in
      (self, sendEncodedControl (IfconfigReplyMessage_Encode reply (replicate CONTROL_MESSAGE_MAX_WIRE_SIZE 0)) w).

Definition handleTxnBegin (self : Agent) (header : MessageHeader) (payload : list Z) (now_us : Z) (w : W) : Agent * W :=
  if bool_decide (ag_state self ≠ kAGENT_STATE_RUNNING) then (self, w)
  else
    let '(decoded, begin) := TxnBeginMessage_Decode txn_begin0 payload in
    if negb decoded then (self, w)
    else
      let '(ack, self) :=
        match ChannelMap_InterfaceForChannel (ag_channel_map self) (tb_channel begin) with
        | Some interface_index =>
            let '(ack, transactions) := TransactionRunner_Begin (ag_transactions self) begin interface_index now_us in
            (ack, self <| ag_transactions := transactions |>)
        | None => ({| tba_channel := tb_channel begin; tba_status := kTXN_BEGIN_STATUS_INVALID; tba_txn_id := 0; tba_window_bytes := 0 |}, self)
        end in
      (self, sendEncodedControl (TxnBeginAckMessage_Encode ack (replicate (MESSAGE_HEADER_SIZE + TXN_BEGIN_ACK_BODY_SIZE) 0)) w).

Definition handleTxnAbort (self : Agent) (header : MessageHeader) (payload : list Z) (now_us : Z) (w : W) : Agent * W :=
  let '(decoded, abort_message) := TxnAbortMessage_Decode {| tab_channel := 0; tab_txn_id := 0 |} payload in
  if negb decoded then (self, w)
  else on_runner self (λ r, TransactionRunner_Abort transactionRunnerPort r (tab_txn_id abort_message)) w.

Definition handleTxnRoster (self : Agent) (header : MessageHeader) (payload : list Z) (now_us : Z) (w : W) : Agent * W :=
  let '(decoded, roster) := TxnRosterMessage_Decode txn_roster0 payload in
  if negb decoded then (self, w) else on_runner self (λ r, TransactionRunner_DefineRoster transactionRunnerPort r roster) w.

Definition handleTxnTemplate (self : Agent) (header : MessageHeader) (payload : list Z) (now_us : Z) (w : W) : Agent * W :=
  let '(decoded, template_message) := TxnTemplateMessage_Decode txn_template0 payload in
  if negb decoded then (self, w) else on_runner self (λ r, TransactionRunner_DefineTemplate transactionRunnerPort r template_message) w.

Definition handleTxnSteps (self : Agent) (header : MessageHeader) (payload : list Z) (now_us : Z) (w : W) : Agent * W :=
  let '(decoded, steps) :=
    TxnStepsMessage_Decode {| tsm_channel := 0; tsm_step_count := 0; tsm_txn_id := 0; tsm_first_seq := 0; tsm_flags := 0; tsm_records := [] |} payload in
  if negb decoded then (self, w) else on_runner self (λ r, TransactionRunner_PushSteps transactionRunnerPort r steps) w.

Definition control_handlers (type : Z) : option (Agent → MessageHeader → list Z → Z → W → Agent * W) :=
  if type =? kMESSAGE_TYPE_REGISTER_ACK then Some handleRegisterAck
  else if type =? kMESSAGE_TYPE_PING then Some handlePing
  else if type =? kMESSAGE_TYPE_IFCONFIG then Some handleIfconfig
  else if type =? kMESSAGE_TYPE_TXN_BEGIN then Some handleTxnBegin
  else if type =? kMESSAGE_TYPE_TXN_ABORT then Some handleTxnAbort
  else if type =? kMESSAGE_TYPE_TXN_ROSTER then Some handleTxnRoster
  else if type =? kMESSAGE_TYPE_TXN_TEMPLATE then Some handleTxnTemplate
  else if type =? kMESSAGE_TYPE_TXN_STEPS then Some handleTxnSteps
  else None.

Definition Agent_OnControlMessage (self : Agent) (data : list Z) (now_us : Z) (w : W) : Agent * W :=
  match MessageHeader_Decode data with
  | None => (self, w)
  | Some header =>
      if Nat.ltb (length data) (MESSAGE_HEADER_SIZE + Z.to_nat (header_length header)) then (self, w)
      else if header_type header >=? kMESSAGE_TYPE_MAX then (self, w)
      else
        match control_handlers (header_type header) with
        | None => (self, w)
        | Some handler => handler self header (slice MESSAGE_HEADER_SIZE (Z.to_nat (header_length header)) data) now_us w
        end
  end.

(** ** Frames *)

Definition Agent_OnCanFrame (self : Agent) (interface_index : Z) (frame : FrameMessage) (w : W) : bool * Agent * W :=
  if bool_decide (ag_state self ≠ kAGENT_STATE_RUNNING) then (true, self, w)
  else
    match ChannelMap_ChannelForInterface (ag_channel_map self) interface_index with
    | None => (true, self, w)
    | Some channel =>
        let '(route_flags, self) :=
          if has_flag (frame_route_flags frame) FRAME_ROUTE_FLAG_ECHO then
            let '(token, echo) := EchoCorrelator_PopMatch (ag_echo self) interface_index (frame_can_id frame) in
            (match token with
             | Some token => Z.lor FRAME_ROUTE_FLAG_ECHO (u8 (Z.shiftl token FRAME_ROUTE_TOKEN_SHIFT))
             | None => FRAME_ROUTE_FLAG_ECHO
             end, self <| ag_echo := echo |>)
          else (0, self) in
        let outgoing := {| frame_can_id := frame_can_id frame; frame_timestamp_us := frame_timestamp_us frame; frame_channel := channel;
                           frame_payload_length := frame_payload_length frame; frame_flags := frame_flags frame; frame_route_flags := route_flags;
                           frame_payload := frame_payload frame |} in
        let '(encoded_size, encoded) := FrameMessage_Encode outgoing (replicate (MESSAGE_HEADER_SIZE + FRAME_FIXED_FIELDS_SIZE + FRAME_PAYLOAD_MAX_FD) 0) in
        if Nat.eqb encoded_size 0 then (true, self, w)
        else
          let '(accepted, w) := tp_send_frame transport channel (take encoded_size encoded) w in
          if (accepted : bool) then
            let '(self, w) := on_runner self (λ r, TransactionRunner_OnFrame transactionRunnerPort r interface_index frame) w in (true, self, w)
          else (false, self, w)
    end.

Definition injectFrame (self : Agent) (frame : FrameMessage) (w : W) : Agent * W :=
  match ChannelMap_InterfaceForChannel (ag_channel_map self) (frame_channel frame) with
  | None => (self, w)
  | Some interface_index =>
      let token := u8 (Z.shiftr (Z.land (frame_route_flags frame) FRAME_ROUTE_TOKEN_MASK) FRAME_ROUTE_TOKEN_SHIFT) in
      let echo := EchoCorrelator_Push (ag_echo self) interface_index token (frame_can_id frame) in
      let '(written, w) := cp_write_frame can interface_index frame w in
      if (written : bool) then (self <| ag_echo := echo |>, w)
      else (self <| ag_echo := EchoCorrelator_DropNewest echo interface_index |>
                 <| ag_tx_dropped := (ag_tx_dropped self).[interface_index := u64 ((ag_tx_dropped self).[interface_index] + 1)] |>, w)
  end.

Definition isTransactionStreamMessage (type : Z) : bool :=
  (type =? kMESSAGE_TYPE_TXN_ROSTER) || (type =? kMESSAGE_TYPE_TXN_TEMPLATE) || (type =? kMESSAGE_TYPE_TXN_STEPS).

Definition dispatchTransactionStreamMessage (self : Agent) (header : MessageHeader) (data : list Z) (w : W) : Agent * W :=
  if Nat.ltb (length data) (MESSAGE_HEADER_SIZE + Z.to_nat (header_length header)) then (self, w)
  else
    match control_handlers (header_type header) with
    | None => (self, w)
    | Some handler => handler self header (slice MESSAGE_HEADER_SIZE (Z.to_nat (header_length header)) data) 0 w
    end.

(** [while (FrameStream_Next(...))]; each turn consumes at least a header. *)
Fixpoint inject_stream (fuel : nat) (self : Agent) (stream : FrameStream) (frame : FrameMessage) (w : W) : Agent * W :=
  match fuel with
  | O => (self, w)
  | S fuel' =>
      let '(more, stream, frame) := FrameStream_Next stream frame in
      if (more : bool) then let '(self, w) := injectFrame self frame w in inject_stream fuel' self stream frame w else (self, w)
  end.

Definition Agent_OnTransportFrame (self : Agent) (data : list Z) (w : W) : Agent * W :=
  if bool_decide (ag_state self ≠ kAGENT_STATE_RUNNING) then (self, w)
  else
    let frames := inject_stream (S (length data)) self (FrameStream_Init data) frame_zero w in
    match MessageHeader_Decode data with
    | Some header => if isTransactionStreamMessage (header_type header) then dispatchTransactionStreamMessage self header data w else frames
    | None => frames
    end.

End Agent.
