(* ===== verification/AgentTheorems.v ===== *)
(** * The agent under any history of events

    What holds of the agent whatever its ports answer: nothing happens to an
    agent that is not registered, connection attempts are spaced and never
    stop, frames keep their content and their channel on the way up. *)

From S2P Require Import Prelude CString Wire Codec HelloMessage RegisterMessage SubscribeMessage FrameMessage TxnMessage TxnStepsMessage IfconfigMessage ControlPlane StepRing TxPacer ChannelMap EchoCorrelator ReconnectBackoff.
From S2P Require Import IsotpLink TransactionRunner Agent Slots InterfaceRegistry.

(** ** Events *)

Inductive agent_event :=
| AgTick (now_us : Z)
| AgConnected
| AgDisconnected (now_us : Z)
| AgControl (data : list Z) (now_us : Z)
| AgCanFrame (interface_index : Z) (frame : FrameMessage)
| AgTransportFrame (data : list Z).

Section Sound.
Context {W : Type} (transport : TransportPort W) (can : CanPort W).

Definition agent_step (e : agent_event) (st : Agent * W) : Agent * W :=
  let '(self, w) := st in
  match e with
  | AgTick now => Agent_Tick transport can self now w
  | AgConnected => Agent_OnConnected transport self w
  | AgDisconnected now => (Agent_OnDisconnected self now, w)
  | AgControl data now => Agent_OnControlMessage transport can self data now w
  | AgCanFrame index f => let '(_, self, w) := Agent_OnCanFrame transport can self index f w in (self, w)
  | AgTransportFrame data => Agent_OnTransportFrame transport can self data w
  end.

Definition agent_run (events : list agent_event) (st : Agent * W) : Agent * W := foldl (λ st e, agent_step e st) st events.

(** ** The invariant *)

Record agent_ok (registration : RegisterMessage) (self : Agent) : Prop := {
  ao_registration : ag_registration self = registration;
  ao_runner : rn_active (ag_transactions self) = true → ag_state self = kAGENT_STATE_RUNNING;
  ao_map : map_shape (ag_channel_map self);
  ao_count : interface_count (ag_channel_map self) = if bool_decide (ag_state self = kAGENT_STATE_RUNNING) then reg_interface_count registration else 0;
  ao_dropped : length (ag_tx_dropped self) = 16%nat;
  ao_backoff : initial_delay_ms (ag_backoff self) = 1000 ∧ max_delay_ms (ag_backoff self) = 60000 ∧ 1000 ≤ current_delay_ms (ag_backoff self) ≤ 60000;
}.

Lemma Init_ok ring registration : agent_ok registration (Agent_Init ring registration).
Proof. by split; try done; cbn; lia. Qed.

(** A runner that runs nothing does nothing. *)
Lemma idle_runner {V} (port : RunnerPort V) r : rn_active r = false →
  (∀ now v, TransactionRunner_Tick port r now v = (r, v)) ∧ (∀ id v, TransactionRunner_Abort port r id v = (r, v)) ∧
  (∀ roster v, TransactionRunner_DefineRoster port r roster v = (r, v)) ∧ (∀ t v, TransactionRunner_DefineTemplate port r t v = (r, v)) ∧
  (∀ s v, TransactionRunner_PushSteps port r s v = (r, v)) ∧ (∀ i f v, TransactionRunner_OnFrame port r i f v = (r, v)).
Proof.
  intros Ha. unfold TransactionRunner_Tick, TransactionRunner_Abort, TransactionRunner_DefineRoster, TransactionRunner_DefineTemplate, TransactionRunner_PushSteps,
    TransactionRunner_OnFrame, isOnBus. rewrite Ha. done.
Qed.

(** What is left of the agent by an operation of the runner. *)
Definition core (self : Agent) :=
  (ag_registration self, ag_channel_map self, ag_tx_dropped self, ag_backoff self, ag_state self).

Lemma on_runner_core self f (w : W) : core (on_runner self f w).1 = core self.
Proof. unfold on_runner. destruct (f (ag_transactions self) (ag_echo self, w)) as [t [e w']]. done. Qed.

Lemma on_runner_idle self f (w : W) : f (ag_transactions self) (ag_echo self, w) = (ag_transactions self, (ag_echo self, w)) → on_runner self f w = (self, w).
Proof. intros Hf. unfold on_runner. rewrite Hf. by destruct self. Qed.

Lemma core_ok registration self self' :
  agent_ok registration self → core self' = core self → (ag_state self = kAGENT_STATE_RUNNING ∨ rn_active (ag_transactions self') = false) → agent_ok registration self'.
Proof.
  unfold core. intros [] [= H1 H2 H3 H4 H5] Hr. split; rewrite ?H1, ?H2, ?H3, ?H4, ?H5; try done. destruct Hr; [done|congruence].
Qed.

Lemma status_core self w : core (sendInterfaceStatus transport can self w).1 = core self ∧
  ag_transactions (sendInterfaceStatus transport can self w).1 = ag_transactions self.
Proof.
  unfold sendInterfaceStatus. assert (∀ n i s es v, core (status_loop can n i s es v).1.2 = core s ∧ ag_transactions (status_loop can n i s es v).1.2 = ag_transactions s) as Hl.
  { induction n as [|n IH]; intros i s es v; [done|]. cbn [status_loop]. destruct (ChannelMap_ChannelForInterface _ _); [|apply IH].
    destruct (cp_bitrate can i v) as [rate v']. destruct (TxPacer_Update _ _ _ _) as [c p]. destruct (IH (i + 1) (s <| ag_tx_pacer := p |>) (es ++ [{| ise_channel := z; ise_flags := 0; ise_advertised_rate := rate; ise_credit := c; ise_tx_dropped := (ag_tx_dropped s).[i] |}]) v') as [-> ->]. done. }
  match goal with |- context [status_loop can ?n 0 self [] w] => specialize (Hl n 0 self [] w); destruct (status_loop can n 0 self [] w) as [[es s] v] end. exact Hl.
Qed.

Lemma backoff_step b : initial_delay_ms b = 1000 ∧ max_delay_ms b = 60000 ∧ 1000 ≤ current_delay_ms b ≤ 60000 →
  let '(d, b') := ReconnectBackoff_NextDelayMs b in
  1000 ≤ d ≤ 60000 ∧ initial_delay_ms b' = 1000 ∧ max_delay_ms b' = 60000 ∧ 1000 ≤ current_delay_ms b' ≤ 60000.
Proof.
  intros (Hi & Hm & Hc). unfold ReconnectBackoff_NextDelayMs, BACKOFF_FACTOR. cbn. rewrite Hi, Hm, u32_id by lia. repeat split; try lia; case_tests; lia.
Qed.

Lemma reconnect_ok registration self now : agent_ok registration self → agent_ok registration (scheduleReconnect self now).
Proof.
  intros [H1 H2 H3 H4 H5 H6]. unfold scheduleReconnect. pose proof (backoff_step _ H6) as Hb. destruct (ReconnectBackoff_NextDelayMs (ag_backoff self)) as [d b].
  split; cbn; try done. tauto.
Qed.

Lemma disconnected_ok registration self now : agent_ok registration self → agent_ok registration (Agent_OnDisconnected self now).
Proof.
  intros Hok. unfold Agent_OnDisconnected. case_bool_decide as Hs; [done|]. apply reconnect_ok. destruct Hok as [H1 H2 H3 H4 H5 H6]. by split; cbn.
Qed.

Lemma runner_op_ok registration self f (w : W) :
  agent_ok registration self → (rn_active (ag_transactions self) = false → ∀ v, f (ag_transactions self) v = (ag_transactions self, v)) →
  agent_ok registration (on_runner self f w).1.
Proof.
  intros Hok Hidle. apply (core_ok registration self); [done|apply on_runner_core|]. destruct (rn_active (ag_transactions self)) eqn:Ha; [left; by apply (ao_runner _ _ Hok)|].
  right. rewrite on_runner_idle; [done|]. by apply Hidle.
Qed.

Lemma status_ok registration self w : agent_ok registration self → agent_ok registration (sendInterfaceStatus transport can self w).1.
Proof.
  intros Hok. destruct (status_core self w) as [Hc Ht]. apply (core_ok registration self); [done|done|]. rewrite Ht.
  destruct (rn_active (ag_transactions self)) eqn:Ha; [left; by apply (ao_runner _ _ Hok)|by right].
Qed.

Lemma set_status_ok registration self t : agent_ok registration self → agent_ok registration (self <| ag_next_status_at_us := t |>).
Proof. intros []. by split. Qed.

Lemma tick_ok registration self now w : agent_ok registration self → agent_ok registration (Agent_Tick transport can self now w).1.
Proof.
  intros Hok. unfold Agent_Tick. destruct (ag_state self) eqn:Hs; [| |unfold tickRegistering|unfold tickRunning].
  - destruct (_ <? _); [done|]. unfold tryConnect. destruct (tp_connect transport w) as [[] w']; [|by apply reconnect_ok].
    destruct Hok as [H1 H2 H3 H4 H5 H6]. rewrite Hs in H2, H4. split; cbn; try done. intros Ha. by specialize (H2 Ha).
  - done.
  - destruct (_ =? _); [destruct Hok; by split|]. destruct (_ <? _); [done|by apply disconnected_ok].
  - pose proof (runner_op_ok registration self (λ r, TransactionRunner_Tick (transactionRunnerPort transport can) r now) w Hok) as Hr.
    specialize (Hr ltac:(intros Ha v; by apply idle_runner)). destruct (on_runner self _ w) as [self1 w1]. cbn [fst] in Hr. destruct (_ <? _); [done|].
    pose proof (status_ok registration self1 w1 Hr) as Hst. destruct (sendInterfaceStatus transport can self1 w1) as [self2 w2]. by apply set_status_ok.
Qed.

Lemma register_ack_ok registration self header payload now w :
  0 ≤ reg_interface_count registration → agent_ok registration self → agent_ok registration (handleRegisterAck transport can self header payload now w).1.
Proof.
  intros Hreg Hok. unfold handleRegisterAck. case_bool_decide as Hs; [done|]. pose proof (disconnected_ok registration self now Hok) as Hd.
  destruct (RegisterAckMessage_Decode register_ack0 payload) as [[] ack]; [|done]. cbn [negb]. destruct (ack_status ack =? REGISTER_STATUS_OK) eqn:Hst; [|done]. cbn [negb].
  unfold ChannelMap_AssignFromAck. rewrite (ao_registration _ _ Hok), Hst. cbn [negb orb].
  destruct (Z.eqb_spec (ack_interface_count ack) (reg_interface_count registration)) as [Hc|]; [|done]. cbn [negb].
  destruct (Z.gtb_spec (ack_interface_count ack) (Z.of_nat REGISTER_INTERFACES_MAX)) as [|Hle]; [done|]. cbn [negb].
  set (self1 := ((self <| ag_channel_map := _ |>) <| ag_backoff := _ |> <| ag_state := _ |>) <| ag_register_deadline_us := 0 |>).
  assert (agent_ok registration self1) as Hok1.
  { destruct Hok as [H1 H2 [H3 H3'] H4 H5 (Hb1 & Hb2 & Hb3)]. split; cbn; try done; [split; cbn; [by rewrite length_copy_at|lia]|lia]. }
  pose proof (status_ok registration self1 w Hok1) as Hok2. destruct (sendInterfaceStatus transport can self1 w) as [self2 w2]. by apply set_status_ok.
Qed.

Lemma txn_begin_ok registration self header payload now w : agent_ok registration self → agent_ok registration (handleTxnBegin transport self header payload now w).1.
Proof.
  intros Hok. unfold handleTxnBegin. case_bool_decide as Hs; [done|]. destruct (TxnBeginMessage_Decode txn_begin0 payload) as [[] begin]; [|done]. cbn [negb].
  destruct (ChannelMap_InterfaceForChannel _ _); [|done]. destruct (TransactionRunner_Begin _ _ _ _) as [ack r]. apply (core_ok registration self); [done|done|].
  left. by destruct (decide (ag_state self = kAGENT_STATE_RUNNING)).
Qed.

(** Handlers of the runner's messages. *)
Ltac runner_handler := match goal with |- agent_ok ?r (on_runner ?self ?f ?w).1 => apply (runner_op_ok r self f w); [done|intros Ha v; by apply idle_runner] end.

Lemma handler_ok registration self type handler header payload now w :
  0 ≤ reg_interface_count registration → agent_ok registration self → control_handlers transport can type = Some handler →
  agent_ok registration (handler self header payload now w).1.
Proof.
  intros Hreg Hok. unfold control_handlers. repeat (case_match; [intros [= <-]|]); [| | | | | | | |done].
  - by apply register_ack_ok.
  - unfold handlePing. by destruct (has_flag _ _).
  - unfold handleIfconfig. repeat case_match; done.
  - by apply txn_begin_ok.
  - unfold handleTxnAbort. destruct (TxnAbortMessage_Decode _ _) as [[] m]; [|done]. cbn [negb]. runner_handler.
  - unfold handleTxnRoster. destruct (TxnRosterMessage_Decode _ _) as [[] m]; [|done]. cbn [negb]. runner_handler.
  - unfold handleTxnTemplate. destruct (TxnTemplateMessage_Decode _ _) as [[] m]; [|done]. cbn [negb]. runner_handler.
  - unfold handleTxnSteps. destruct (TxnStepsMessage_Decode _ _) as [[] m]; [|done]. cbn [negb]. runner_handler.
Qed.

Lemma inject_ok registration self f w : agent_ok registration self → agent_ok registration (injectFrame can self f w).1.
Proof.
  intros Hok. unfold injectFrame. destruct (ChannelMap_InterfaceForChannel _ _) as [i|]; [|done]. destruct (cp_write_frame can i f w) as [[] w'].
  - destruct Hok. by split.
  - destruct Hok. split; try done. cbn. by rewrite length_zset.
Qed.

Lemma inject_stream_ok registration fuel self stream f w : agent_ok registration self → agent_ok registration (inject_stream can fuel self stream f w).1.
Proof.
  revert self stream f w. induction fuel as [|fuel IH]; intros self stream f w Hok; [done|]. cbn [inject_stream].
  destruct (FrameStream_Next stream f) as [[[] stream'] f']; [|done]. pose proof (inject_ok registration self f' w Hok) as Hi.
  destruct (injectFrame can self f' w) as [self1 w1]. by apply IH.
Qed.

Lemma can_frame_ok registration self i f w : agent_ok registration self → agent_ok registration (Agent_OnCanFrame transport can self i f w).1.2.
Proof.
  intros Hok. unfold Agent_OnCanFrame. case_bool_decide as Hs; [done|]. destruct (ChannelMap_ChannelForInterface _ _) as [channel|]; [|done].
  match goal with |- context [let '(r, s) := ?x in _] => assert (∃ flags echo, x = (flags, self <| ag_echo := echo |>)) as (flags & echo & ->) end.
  { destruct (has_flag _ _); [destruct (EchoCorrelator_PopMatch _ _ _) as [tok echo]; by eexists _, echo|]. exists 0, (ag_echo self). by destruct self. }
  assert (agent_ok registration (self <| ag_echo := echo |>)) as Hok1 by (destruct Hok; by split).
  destruct (FrameMessage_Encode _ _) as [n enc]. destruct (Nat.eqb n 0); [done|]. destruct (tp_send_frame transport channel _ w) as [[] w']; [|done].
  pose proof (runner_op_ok registration _ (λ r, TransactionRunner_OnFrame (transactionRunnerPort transport can) r i f) w' Hok1) as Hr.
  specialize (Hr ltac:(intros Ha v; by apply idle_runner)). by destruct (on_runner _ _ w').
Qed.

Lemma control_ok registration self data now w :
  0 ≤ reg_interface_count registration → agent_ok registration self → agent_ok registration (Agent_OnControlMessage transport can self data now w).1.
Proof.
  intros Hreg Hok. unfold Agent_OnControlMessage. destruct (MessageHeader_Decode data) as [header|]; [|done]. destruct (Nat.ltb _ _); [done|].
  destruct (_ >=? _); [done|]. destruct (control_handlers transport can (header_type header)) as [h|] eqn:Hh; [|done]. by eapply handler_ok.
Qed.

Lemma transport_frame_ok registration self data w :
  0 ≤ reg_interface_count registration → agent_ok registration self → agent_ok registration (Agent_OnTransportFrame transport can self data w).1.
Proof.
  intros Hreg Hok. unfold Agent_OnTransportFrame. case_bool_decide; [done|]. destruct (MessageHeader_Decode data) as [header|]; [|by apply inject_stream_ok].
  destruct (isTransactionStreamMessage _); [|by apply inject_stream_ok]. unfold dispatchTransactionStreamMessage. destruct (Nat.ltb _ _); [done|].
  destruct (control_handlers transport can (header_type header)) as [h|] eqn:Hh; [|done]. by eapply handler_ok.
Qed.

Lemma agent_step_ok registration e st : 0 ≤ reg_interface_count registration → agent_ok registration st.1 → agent_ok registration (agent_step e st).1.
Proof.
  destruct st as [self w]. intros Hreg Hok. cbn [fst] in Hok. destruct e as [now| |now|data now|i f|data]; cbn [agent_step].
  - by apply tick_ok.
  - unfold Agent_OnConnected. case_bool_decide as Hs; [done|]. destruct Hok as [H1 H2 H3 H4 H5 H6]. rewrite Hs in H2, H4.
    split; cbn; try done. intros Ha. by specialize (H2 Ha).
  - by apply disconnected_ok.
  - by apply control_ok.
  - pose proof (can_frame_ok registration self i f w Hok) as Hc. by destruct (Agent_OnCanFrame transport can self i f w) as [[ok self'] w'].
  - by apply transport_frame_ok.
Qed.

Lemma agent_run_ok registration events st : 0 ≤ reg_interface_count registration → agent_ok registration st.1 → agent_ok registration (agent_run events st).1.
Proof. intros Hreg. revert st. induction events as [|e events IH]; intros st Hok; [done|]. apply IH. by apply agent_step_ok. Qed.

End Sound.

(** * What the agent promises

    Connection timers, the frames of its buses on their way to the hub, the
    tokens of their echoes, and the registration handshake with the hub's
    registry. *)
(** ** Ports that log what leaves the agent *)

Inductive agent_out :=
| SentControl (data : list Z)
| SentFrame (channel : Z) (data : list Z)
| WroteFrame (interface_index : Z) (frame : FrameMessage)
| Connects
| Disconnects.

(** The answers of the transport to [send_frame], then what left. *)
Definition aworld : Type := list bool * list agent_out.

Definition log_transport : TransportPort aworld := {|
  tp_connect w := (true, (w.1, w.2 ++ [Connects]));
  tp_disconnect w := (w.1, w.2 ++ [Disconnects]);
  tp_send_control data w := (w.1, w.2 ++ [SentControl data]);
  tp_send_frame channel data w := (default true (list.head w.1), (tail w.1, w.2 ++ [SentFrame channel data])) |}.

Definition log_can : CanPort aworld := {|
  cp_write_frame i f w := (true, (w.1, w.2 ++ [WroteFrame i f]));
  cp_configure _ _ detail w := (true, detail, w);
  cp_query _ settings w := (settings, w);
  cp_bitrate _ w := (500000, w) |}.

(** ** Nothing happens to an agent that is not registered *)

(** C18. Only a registered agent acts.  Whatever events came and whatever the
    ports answered, an agent that is not in its running state ignores the
    frames of its buses and the data of the hub, and every control message
    except the acknowledgement of its registration and a ping: neither its
    state nor the world changes.  In particular a transaction, a roster, a
    template or steps that arrive late, whose handlers do not look at the state
    of the agent, find no transaction running. *)
Theorem agent_silent_unregistered {W} (transport : TransportPort W) (can : CanPort W) ring registration events w0 :
  0 ≤ reg_interface_count registration →
  let self := (agent_run transport can events (Agent_Init ring registration, w0)).1 in
  ag_state self ≠ kAGENT_STATE_RUNNING →
  (∀ i f w, Agent_OnCanFrame transport can self i f w = (true, self, w)) ∧
  (∀ data w, Agent_OnTransportFrame transport can self data w = (self, w)) ∧
  (∀ data now w header, MessageHeader_Decode data = Some header →
     header_type header ≠ kMESSAGE_TYPE_REGISTER_ACK → header_type header ≠ kMESSAGE_TYPE_PING →
     Agent_OnControlMessage transport can self data now w = (self, w)).
Proof.
  intros Hreg self Hs. pose proof (agent_run_ok transport can registration events (Agent_Init ring registration, w0) Hreg (Init_ok ring registration)) as Hok. fold self in Hok.
  assert (rn_active (ag_transactions self) = false) as Ha by (destruct (rn_active (ag_transactions self)) eqn:Ha; [|done]; by destruct Hs; apply (ao_runner _ _ Hok)).
  split; [intros i f w; unfold Agent_OnCanFrame; by rewrite bool_decide_true|]. split; [intros data w; unfold Agent_OnTransportFrame; by rewrite bool_decide_true|].
  intros data now w header Hh Hack Hping. unfold Agent_OnControlMessage. rewrite Hh. destruct (Nat.ltb _ _); [done|]. destruct (_ >=? _); [done|].
  destruct (idle_runner (transactionRunnerPort transport can) _ Ha) as (_ & Hab & Hro & Hte & Hst & _).
  destruct (control_handlers transport can (header_type header)) as [h|] eqn:Hhand; [|done]. revert Hhand. unfold control_handlers.
  rewrite (proj2 (Z.eqb_neq _ _) Hack), (proj2 (Z.eqb_neq _ _) Hping). repeat (case_match; [intros [= <-]|]); try done;
    unfold handleIfconfig, handleTxnBegin, handleTxnAbort, handleTxnRoster, handleTxnTemplate, handleTxnSteps;
    try (rewrite bool_decide_true by done; done).
  all: match goal with |- context [let '(_, _) := ?d in _] => destruct d as [[] m] end; cbn [negb]; try done; by apply on_runner_idle.
Qed.

(** ** Connecting *)

(** The agent never stops trying, and never hurries.  In every state it can
    reach, a disconnected agent asks the transport for one connection at the
    first tick that is due and for none before; after a refusal the next attempt
    is due between one second and one minute later, and the delay it announces
    is that one.  An agent that waits for the acknowledgement of its
    registration gives up at the first tick five seconds after the one that
    started the wait: it closes the connection and is due to connect again
    within the same bounds. *)
Theorem agent_connection_timers {W} (transport : TransportPort W) (can : CanPort W) ring registration events w0 :
  0 ≤ reg_interface_count registration →
  let self := (agent_run transport can events (Agent_Init ring registration, w0)).1 in
  (ag_state self = kAGENT_STATE_DISCONNECTED → ∀ now w, 0 ≤ now < 18446744073649551616 →
     let st := Agent_Tick transport can self now w in
     if now <? ag_next_connect_at_us self then st = (self, w)
     else st.2 = (tp_connect transport w).2 ∧
       if (tp_connect transport w).1 then ag_state st.1 = kAGENT_STATE_CONNECTING
       else ag_state st.1 = kAGENT_STATE_DISCONNECTED ∧ 1000 ≤ Agent_PendingReconnectDelayMs st.1 ≤ 60000 ∧
            ag_next_connect_at_us st.1 = now + Agent_PendingReconnectDelayMs st.1 * 1000) ∧
  (ag_state self = kAGENT_STATE_REGISTERING → ag_register_deadline_us self = 0 → ∀ t now w, 0 ≤ t → t + 5000000 ≤ now < 18446744073649551616 →
     let st := Agent_Tick transport can (Agent_Tick transport can self t w).1 now (Agent_Tick transport can self t w).2 in
     st.2 = tp_disconnect transport w ∧ ag_state st.1 = kAGENT_STATE_DISCONNECTED ∧ 1000 ≤ Agent_PendingReconnectDelayMs st.1 ≤ 60000 ∧
     ag_next_connect_at_us st.1 = now + Agent_PendingReconnectDelayMs st.1 * 1000).
Proof.
  intros Hreg self. pose proof (agent_run_ok transport can registration events (Agent_Init ring registration, w0) Hreg (Init_ok ring registration)) as Hok. fold self in Hok.
  clearbody self. assert (∀ (s : Agent) now, ag_backoff s = ag_backoff self → 0 ≤ now < 18446744073649551616 →
    1000 ≤ Agent_PendingReconnectDelayMs (scheduleReconnect s now) ≤ 60000 ∧
    ag_next_connect_at_us (scheduleReconnect s now) = now + Agent_PendingReconnectDelayMs (scheduleReconnect s now) * 1000) as Hsched.
  { intros s now Hb Hnow. unfold scheduleReconnect. rewrite Hb. pose proof (backoff_step _ (ao_backoff _ _ Hok)) as Hs.
    destruct (ReconnectBackoff_NextDelayMs (ag_backoff self)) as [d b]. unfold Agent_PendingReconnectDelayMs, MICROSECONDS_PER_MILLISECOND. cbn.
    rewrite (u32_id d), (u64_id (d * 1000)), u64_id by lia. lia. }
  split.
  - intros Hs now w Hnow. unfold Agent_Tick. rewrite Hs. destruct (now <? ag_next_connect_at_us self); [done|]. unfold tryConnect.
    destruct (tp_connect transport w) as [[] w']; [done|]. split; [done|]. split; [|by apply Hsched]. unfold scheduleReconnect.
    by destruct (ReconnectBackoff_NextDelayMs (ag_backoff self)).
  - intros Hs Hd t now w Ht Hnow. unfold Agent_Tick at 2 3. rewrite Hs. unfold tickRegistering. rewrite Hd. cbn [Z.eqb fst snd].
    unfold AGENT_REGISTER_TIMEOUT_MS, MICROSECONDS_PER_MILLISECOND. rewrite u64_id by lia. set (self1 := self <| ag_register_deadline_us := _ |>).
    unfold Agent_Tick. change (ag_state self1) with (ag_state self). rewrite Hs. unfold tickRegistering. change (ag_register_deadline_us self1) with (t + 5000 * 1000).
    rewrite (proj2 (Z.eqb_neq _ _)), (proj2 (Z.ltb_ge _ _)) by lia. cbn [fst snd]. split; [done|]. unfold Agent_OnDisconnected.
    change (ag_state self1) with (ag_state self). rewrite Hs, bool_decide_false by done. split.
    + unfold scheduleReconnect. by destruct (ReconnectBackoff_NextDelayMs _).
    + apply Hsched; [done|lia].
Qed.

(** ** Frames on their way to the hub *)

Definition with_route (f : FrameMessage) (channel flags : Z) : FrameMessage := {|
  frame_can_id := frame_can_id f; frame_timestamp_us := frame_timestamp_us f; frame_channel := channel; frame_payload_length := frame_payload_length f;
  frame_flags := frame_flags f; frame_route_flags := flags; frame_payload := frame_payload f |}.

(** What the hub is told of the origin of a frame: nothing, an echo, or the
    echo of an injection still pending. *)
Definition uplink_flags (q : list injection) (f : FrameMessage) : Z :=
  if has_flag (frame_route_flags f) FRAME_ROUTE_FLAG_ECHO then
    match spec_pop_match q (frame_can_id f) with
    | Some (token, _) => Z.lor FRAME_ROUTE_FLAG_ECHO (u8 (Z.shiftl token FRAME_ROUTE_TOKEN_SHIFT))
    | None => FRAME_ROUTE_FLAG_ECHO
    end
  else 0.

(** What is pending afterwards. *)
Definition uplink_rest (q : list injection) (f : FrameMessage) : list injection :=
  if has_flag (frame_route_flags f) FRAME_ROUTE_FLAG_ECHO then match spec_pop_match q (frame_can_id f) with Some (_, q') => q' | None => q end else q.

Section Uplink.
Context {W : Type} (transport : TransportPort W) (can : CanPort W).

(** The whole handler on a frame of an exported interface. *)
Lemma OnCanFrame_running self qs i channel f w :
  ag_state self = kAGENT_STATE_RUNNING → ChannelMap_ChannelForInterface (ag_channel_map self) i = Some channel → echo_rep (ag_echo self) qs → 0 ≤ i < 16 →
  frame_valid f →
  ∃ bs echo, wm_packet (with_route f channel (uplink_flags qs.[i] f)) bs ∧ echo_rep echo qs.[i := uplink_rest qs.[i] f] ∧
    let self1 := self <| ag_echo := echo |> in
    let '(accepted, w1) := tp_send_frame transport channel bs w in
    Agent_OnCanFrame transport can self i f w =
      if accepted then (true, (on_runner self1 (λ r, TransactionRunner_OnFrame (transactionRunnerPort transport can) r i f) w1).1,
                        (on_runner self1 (λ r, TransactionRunner_OnFrame (transactionRunnerPort transport can) r i f) w1).2)
      else (false, self1, w1).
Proof.
  intros Hs Hc Hrep Hi Hf. unfold Agent_OnCanFrame. rewrite bool_decide_false by (intros Hne; by apply Hne). rewrite Hc.
  match goal with |- context [let '(r, s) := ?x in _] => assert (∃ echo, echo_rep echo qs.[i := uplink_rest qs.[i] f] ∧ x = (uplink_flags qs.[i] f, self <| ag_echo := echo |>)) as (echo & Hecho & ->) end.
  { assert (qs.[i := qs.[i]] = qs) as Hsame by (apply zset_self; unfold zlen; rewrite (echo_qs _ _ Hrep); lia).
    unfold uplink_flags, uplink_rest. destruct (has_flag _ _); [|exists (ag_echo self); rewrite Hsame; by destruct self]. pose proof (echo_pop_match _ _ i (frame_can_id f) Hrep Hi) as Hp.
    destruct (EchoCorrelator_PopMatch (ag_echo self) i (frame_can_id f)) as [tok echo]. destruct (spec_pop_match qs.[i] (frame_can_id f)) as [[t q]|]; destruct Hp as [-> Hp]; [by exists echo|]. subst echo. exists (ag_echo self). by rewrite Hsame. }
  set (out := with_route f channel (uplink_flags qs.[i] f)). assert (wm_valid out) as Hv by (destruct Hf; by split).
  pose proof (payload_length_le _ _ (fv_ok _ Hv)) as H64.
  set (buf := replicate (MESSAGE_HEADER_SIZE + FRAME_FIXED_FIELDS_SIZE + FRAME_PAYLOAD_MAX_FD) 0).
  assert (MESSAGE_HEADER_SIZE + wm_size out ≤ length buf)%nat as Hlen by (cbn [wm_size FrameMessage_wire]; unfold frame_size, buf; rewrite length_replicate; lia).
  destruct (wm_encode_ok out buf Hv Hlen) as (buf' & Henc & _). exists (take (MESSAGE_HEADER_SIZE + wm_size out) buf'), echo.
  split; [exists buf; rewrite Henc; done|]. split; [exact Hecho|]. cbv zeta. match goal with |- context [FrameMessage_Encode ?x ?b] => change (FrameMessage_Encode x b) with (wm_encode out buf) end. rewrite Henc. cbn [Nat.eqb Nat.add].
  destruct (tp_send_frame transport channel _ w) as [[] w1]; [|done]. by destruct (on_runner _ _ w1).
Qed.

End Uplink.

(** A frame captured on a bus reaches the hub as it is.  For a registered
    agent whose correlator holds the queues [qs], a frame of an exported
    interface is handed to the transport once, on the channel of the interface,
    as a message that decodes to the same identifier, time, flags and payload
    with that channel and with the route flags of its origin; the answer of the
    transport is the answer of the agent, and a refused frame is not shown to
    the running transaction. *)
Theorem agent_uplink_exact {W} (transport : TransportPort W) (can : CanPort W) self qs i channel f w :
  ag_state self = kAGENT_STATE_RUNNING → ChannelMap_ChannelForInterface (ag_channel_map self) i = Some channel → echo_rep (ag_echo self) qs → 0 ≤ i < 16 →
  frame_valid f →
  ∃ bs, (∀ old, length (frame_payload old) = FRAME_PAYLOAD_MAX_FD →
           ∃ f', FrameMessage_Decode old (drop MESSAGE_HEADER_SIZE bs) = (true, f') ∧ frame_same (with_route f channel (uplink_flags qs.[i] f)) f') ∧
    let '(accepted, w1) := tp_send_frame transport channel bs w in
    let '(answer, self', w') := Agent_OnCanFrame transport can self i f w in
    answer = accepted ∧ (accepted = false → w' = w1 ∧ ag_transactions self' = ag_transactions self).
Proof.
  intros Hs Hc Hrep Hi Hf. destruct (OnCanFrame_running transport can self qs i channel f w Hs Hc Hrep Hi Hf) as (bs & echo & Hpk & _ & Hon). exists bs.
  destruct (wm_packet_spec _ _ Hpk) as (_ & _ & Hdec). split; [exact Hdec|]. cbv zeta in Hon. destruct (tp_send_frame transport channel bs w) as [[] w1]; by rewrite Hon.
Qed.

(** The token travels in the upper six bits of the route flags. *)
Definition token_of (f : FrameMessage) : Z := u8 (Z.shiftr (Z.land (frame_route_flags f) FRAME_ROUTE_TOKEN_MASK) FRAME_ROUTE_TOKEN_SHIFT).

Lemma token_bits f : is_u8 (frame_route_flags f) →
  Z.lor FRAME_ROUTE_FLAG_ECHO (u8 (Z.shiftl (token_of f) FRAME_ROUTE_TOKEN_SHIFT)) = Z.lor FRAME_ROUTE_FLAG_ECHO (Z.land (frame_route_flags f) FRAME_ROUTE_TOKEN_MASK).
Proof.
  unfold token_of. generalize (frame_route_flags f). intros flags Hu. assert (forallb (λ n, let flags := Z.of_nat n in
    Z.lor FRAME_ROUTE_FLAG_ECHO (u8 (Z.shiftl (u8 (Z.shiftr (Z.land flags FRAME_ROUTE_TOKEN_MASK) FRAME_ROUTE_TOKEN_SHIFT)) FRAME_ROUTE_TOKEN_SHIFT)) =?
    Z.lor FRAME_ROUTE_FLAG_ECHO (Z.land flags FRAME_ROUTE_TOKEN_MASK)) (seq 0 256) = true) as Hall by (vm_compute; reflexivity).
  rewrite forallb_forall in Hall. specialize (Hall (Z.to_nat flags)). unfold is_u8 in Hu. rewrite Z2Nat.id in Hall by lia.
  specialize (Hall ltac:(apply in_seq; lia)). by apply Z.eqb_eq in Hall.
Qed.

(** *** Echoes in the order of the writes *)

(** A frame the hub sends to be written, a frame the bus delivers. *)
Inductive bus_event := Written (f : FrameMessage) | Seen (e : FrameMessage).

(** A bus that echoes the frames in the order they were written, with at most 32
    of them outstanding ([q]); other frames, and echoes of identifiers that are
    not outstanding, may come in between.  The last argument lists the route
    flags that the hub must get with each frame seen. *)
Inductive in_order (channel : Z) : list FrameMessage → list bus_event → list Z → Prop :=
| OrderEnd q : in_order channel q [] []
| OrderWrite q f evs flags :
    (length q < 32)%nat → frame_channel f = channel → is_u8 (frame_route_flags f) →
    in_order channel (q ++ [f]) evs flags → in_order channel q (Written f :: evs) flags
| OrderEcho f q e evs flags :
    frame_valid e → has_flag (frame_route_flags e) FRAME_ROUTE_FLAG_ECHO = true → frame_can_id e = frame_can_id f →
    in_order channel q evs flags →
    in_order channel (f :: q) (Seen e :: evs) (Z.lor FRAME_ROUTE_FLAG_ECHO (Z.land (frame_route_flags f) FRAME_ROUTE_TOKEN_MASK) :: flags)
| OrderForeign q e evs flags :
    frame_valid e → has_flag (frame_route_flags e) FRAME_ROUTE_FLAG_ECHO = true → Forall (λ f, frame_can_id f ≠ frame_can_id e) q →
    in_order channel q evs flags → in_order channel q (Seen e :: evs) (FRAME_ROUTE_FLAG_ECHO :: flags)
| OrderHeard q e evs flags :
    frame_valid e → has_flag (frame_route_flags e) FRAME_ROUTE_FLAG_ECHO = false →
    in_order channel q evs flags → in_order channel q (Seen e :: evs) (0 :: flags).

Section Echoes.
Context {W : Type} (transport : TransportPort W) (can : CanPort W) (i channel : Z).

(** The handler gives the transport the message [bs] on the channel, answers what
    it answers, and does nothing else but update its correlator. *)
Definition hands_over (self : Agent) (e : FrameMessage) (bs : list Z) (w : W) : Prop :=
  ∃ echo, Agent_OnCanFrame transport can self i e w =
    let '(accepted, w1) := tp_send_frame transport channel bs w in (accepted, self <| ag_echo := echo |>, w1).

(** The agent through the events, each frame seen handed over with the flags due. *)
Fixpoint attributed (self : Agent) (evs : list bus_event) (flags : list Z) (w : W) : Prop :=
  match evs with
  | [] => flags = []
  | Written f :: evs => let '(self1, w1) := injectFrame can self f w in attributed self1 evs flags w1
  | Seen e :: evs =>
      match flags with
      | [] => False
      | due :: flags => (∃ bs, wm_packet (with_route e channel due) bs ∧ hands_over self e bs w) ∧
          let '(_, self1, w1) := Agent_OnCanFrame transport can self i e w in attributed self1 evs flags w1
      end
  end.

Lemma pop_outstanding (q : list FrameMessage) id : Forall (λ f, frame_can_id f ≠ id) q → spec_pop_match ((λ f, (token_of f, frame_can_id f)) <$> q) id = None.
Proof. induction 1 as [|f q Hf _ IH]; [done|]. cbn. by rewrite (proj2 (Z.eqb_neq _ _) Hf). Qed.

(** Without a transaction the frame goes nowhere but to the hub. *)
Lemma OnCanFrame_idle self qs e w :
  ag_state self = kAGENT_STATE_RUNNING → ChannelMap_ChannelForInterface (ag_channel_map self) i = Some channel → echo_rep (ag_echo self) qs → 0 ≤ i < 16 →
  rn_active (ag_transactions self) = false → frame_valid e →
  ∃ bs echo, wm_packet (with_route e channel (uplink_flags qs.[i] e)) bs ∧ echo_rep echo qs.[i := uplink_rest qs.[i] e] ∧
    Agent_OnCanFrame transport can self i e w = let '(accepted, w1) := tp_send_frame transport channel bs w in (accepted, self <| ag_echo := echo |>, w1).
Proof.
  intros Hs Hc Hrep Hi Ha He. destruct (OnCanFrame_running transport can self qs i channel e w Hs Hc Hrep Hi He) as (bs & echo & Hpk & Hrep1 & Hon).
  exists bs, echo. split; [done|]. split; [done|]. cbv zeta in Hon. destruct (tp_send_frame transport channel bs w) as [[] w1]; [|exact Hon].
  rewrite Hon. unfold on_runner, TransactionRunner_OnFrame, isOnBus. change (ag_transactions (self <| ag_echo := echo |>)) with (ag_transactions self). rewrite Ha. cbn. by destruct self.
Qed.

(** A running agent without a transaction, whose interface has the channel. *)
Record serving (self : Agent) : Prop := {
  sv_running : ag_state self = kAGENT_STATE_RUNNING;
  sv_channel : ChannelMap_ChannelForInterface (ag_channel_map self) i = Some channel;
  sv_interface : ChannelMap_InterfaceForChannel (ag_channel_map self) channel = Some i;
  sv_index : 0 ≤ i < 16;
  sv_idle : rn_active (ag_transactions self) = false;
}.

Lemma serving_echo self echo : serving self → serving (self <| ag_echo := echo |>).
Proof. by intros []. Qed.

Lemma attributed_in_order self q evs flags qs w :
  in_order channel q evs flags → (∀ f w, (cp_write_frame can i f w).1 = true) → (∀ bs w, (tp_send_frame transport channel bs w).1 = true) →
  serving self → echo_rep (ag_echo self) qs → qs.[i] = (λ f, (token_of f, frame_can_id f)) <$> q → Forall (λ f, is_u8 (frame_route_flags f)) q → attributed self evs flags w.
Proof.
  intros Hord Hcan Htr. revert self qs w.
  assert (∀ self qs w e evs0 due flags0 (q' : list FrameMessage), serving self → echo_rep (ag_echo self) qs → frame_valid e →
    uplink_flags qs.[i] e = due → uplink_rest qs.[i] e = (λ f, (token_of f, frame_can_id f)) <$> q' → Forall (λ f, is_u8 (frame_route_flags f)) q' →
    (∀ self qs w, serving self → echo_rep (ag_echo self) qs → qs.[i] = (λ f, (token_of f, frame_can_id f)) <$> q' → Forall (λ f, is_u8 (frame_route_flags f)) q' → attributed self evs0 flags0 w) →
    attributed self (Seen e :: evs0) (due :: flags0) w) as Hseen.
  { intros self qs w e evs0 due flags0 q' Hsv Hrep Hv Hdue Hrest Hu IH. cbn [attributed].
    destruct (OnCanFrame_idle self qs e w (sv_running _ Hsv) (sv_channel _ Hsv) Hrep (sv_index _ Hsv) (sv_idle _ Hsv) Hv) as (bs & echo & Hpk & Hrep1 & Hon).
    split; [exists bs; rewrite <- Hdue; split; [done|by exists echo]|]. rewrite Hon. specialize (Htr bs w). destruct (tp_send_frame transport channel bs w) as [acc w1].
    apply (IH _ _ w1 (serving_echo _ echo Hsv) Hrep1); [|done]. rewrite zget_zset_eq; [done|]. unfold zlen. rewrite (echo_qs _ _ Hrep). pose proof (sv_index _ Hsv). lia. }
  induction Hord as [q|q f evs flags Hlen Hch Hu _ IH|f q e evs flags Hv Hecho Hid _ IH|q e evs flags Hv Hecho Hnone _ IH|q e evs flags Hv Hecho _ IH]; intros self qs w Hsv Hrep Hq Hqu; [done| |..].
  - cbn [attributed]. unfold injectFrame. rewrite Hch, (sv_interface _ Hsv). fold (token_of f). pose proof (echo_push (ag_echo self) qs i (token_of f) (frame_can_id f) Hrep (sv_index _ Hsv)) as Hrep1.
    specialize (Hcan f w). destruct (cp_write_frame can i f w) as [[] w1]; [|done]. apply (IH (self <| ag_echo := _ |>) _ w1 (serving_echo _ _ Hsv) Hrep1).
    + pose proof (sv_index _ Hsv). rewrite zget_zset_eq by (unfold zlen; rewrite (echo_qs _ _ Hrep); lia). unfold spec_push. rewrite Hq, length_fmap, decide_False by lia. by rewrite fmap_app.
    + apply Forall_app. by split; [|apply Forall_singleton].
  - apply Forall_cons in Hqu as [Hfu Hqu]. apply (Hseen self qs w e evs _ flags q Hsv Hrep Hv); [..|done|exact IH].
    + unfold uplink_flags. rewrite Hecho, Hq. cbn. by rewrite Hid, Z.eqb_refl, token_bits.
    + unfold uplink_rest. rewrite Hecho, Hq. cbn. by rewrite Hid, Z.eqb_refl.
  - apply (Hseen self qs w e evs _ flags q Hsv Hrep Hv); [..|done|exact IH].
    + unfold uplink_flags. by rewrite Hecho, Hq, pop_outstanding.
    + unfold uplink_rest. by rewrite Hecho, Hq, pop_outstanding.
  - apply (Hseen self qs w e evs _ flags q Hsv Hrep Hv); [..|done|exact IH].
    + unfold uplink_flags. by rewrite Hecho.
    + unfold uplink_rest. by rewrite Hecho.
Qed.

(** C12. Echoes go back to the clients that wrote the frames.  The hub tags what a
    client writes with a token; the agent puts the frame on the bus and keeps the
    token.  On an interface of a running agent without a transaction and with
    nothing pending, whose bus takes every frame and whose transport takes every
    message: let frames be written and seen in any interleaving in which the bus
    echoes the written frames in their order, at most 32 of them outstanding,
    several of the same identifier included.  Then every frame seen is handed to
    the hub once; the echo of each write carries the echo flag and the token of
    that very write, an echo of nothing outstanding the flag alone, and any other
    frame neither. *)
Theorem agent_echo_roundtrip self evs flags qs w :
  in_order channel [] evs flags → (∀ f w, (cp_write_frame can i f w).1 = true) → (∀ bs w, (tp_send_frame transport channel bs w).1 = true) →
  serving self → echo_rep (ag_echo self) qs → qs.[i] = [] → attributed self evs flags w.
Proof. intros Hord Hcan Htr Hsv Hrep Hq. by apply (attributed_in_order self [] evs flags qs w). Qed.

(** C37. A frame the transport refuses loses its attribution.  The platform must
    offer a refused frame again, and the agent looks its token up again, although
    the first attempt consumed it.  Whatever is pending before the first write of
    the echoed identifier, with token [token], and after it ([rest]): the refused
    attempt carries that token, and the second attempt carries the token of the
    next pending write of that identifier, somebody else's, or none. *)
Theorem agent_retry_misattributes self qs token rest e w w1 :
  serving self → echo_rep (ag_echo self) qs → frame_valid e → has_flag (frame_route_flags e) FRAME_ROUTE_FLAG_ECHO = true →
  spec_pop_match qs.[i] (frame_can_id e) = Some (token, rest) → (∀ bs, tp_send_frame transport channel bs w = (false, w1)) →
  ∃ first second self1,
    wm_packet (with_route e channel (Z.lor FRAME_ROUTE_FLAG_ECHO (u8 (Z.shiftl token FRAME_ROUTE_TOKEN_SHIFT)))) first ∧ hands_over self e first w ∧
    Agent_OnCanFrame transport can self i e w = (false, self1, w1) ∧
    wm_packet (with_route e channel match spec_pop_match rest (frame_can_id e) with
                                    | Some (other, _) => Z.lor FRAME_ROUTE_FLAG_ECHO (u8 (Z.shiftl other FRAME_ROUTE_TOKEN_SHIFT))
                                    | None => FRAME_ROUTE_FLAG_ECHO end) second ∧ hands_over self1 e second w1.
Proof.
  intros Hsv Hrep Hv Hecho Hpop Hno. pose proof (sv_index _ Hsv) as Hi.
  destruct (OnCanFrame_idle self qs e w (sv_running _ Hsv) (sv_channel _ Hsv) Hrep Hi (sv_idle _ Hsv) Hv) as (bs & echo & Hpk & Hrep1 & Hon).
  set (self1 := self <| ag_echo := echo |>). pose proof (serving_echo self echo Hsv) as Hsv1. fold self1 in Hsv1.
  destruct (OnCanFrame_idle self1 _ e w1 (sv_running _ Hsv1) (sv_channel _ Hsv1) Hrep1 Hi (sv_idle _ Hsv1) Hv) as (bs2 & echo2 & Hpk2 & _ & Hon2).
  exists bs, bs2, self1. unfold uplink_flags in Hpk, Hpk2. rewrite Hecho in Hpk, Hpk2. rewrite Hpop in Hpk.
  rewrite zget_zset_eq in Hpk2 by (unfold zlen; rewrite (echo_qs _ _ Hrep); lia). unfold uplink_rest in Hpk2. rewrite Hecho, Hpop in Hpk2.
  split; [exact Hpk|]. split; [by exists echo|]. split; [by rewrite Hon, Hno|]. split; [exact Hpk2|by exists echo2].
Qed.
End Echoes.
(** ** Frames on their way to the bus *)

(** The turns the loop is given are enough. *)
Lemma inject_stream_ends {W} (can : CanPort W) fuel fuel' self stream f w :
  (length (fs_data stream) - fs_offset stream < fuel)%nat → (length (fs_data stream) - fs_offset stream < fuel')%nat →
  inject_stream can fuel self stream f w = inject_stream can fuel' self stream f w.
Proof.
  revert fuel' self stream f w. induction fuel as [|fuel IH]; intros [|fuel'] self stream f w Hf Hf'; [lia..|]. cbn [inject_stream].
  destruct (FrameStream_Next stream f) as [[[] stream'] f'] eqn:Hn; [|done]. pose proof (FrameStream_Next_advances _ _ _ _ Hn) as Hless.
  destruct (injectFrame can self f' w) as [self1 w1]. apply IH; lia.
Qed.

Definition inject_all {W} (can : CanPort W) (fs : list FrameMessage) (st : Agent * W) : Agent * W :=
  foldl (λ st f, injectFrame can st.1 f st.2) st fs.

Lemma inject_stream_packets {W} (can : CanPort W) fs bss pre fuel self old w :
  Forall2 wm_packet fs bss → length (frame_payload old) = 64%nat → (length (concat bss) < fuel)%nat →
  ∃ fs', Forall2 frame_same fs fs' ∧
    inject_stream can fuel self {| fs_data := pre ++ concat bss; fs_offset := length pre |} old w = inject_all can fs' (self, w).
Proof.
  intros Hpk. revert pre fuel self old w. induction Hpk as [|f bs fs bss Hf _ IH]; intros pre fuel self old w Hold Hfuel; (destruct fuel as [|fuel]; [lia|]); cbn [inject_stream concat].
  - exists []. split; [done|]. unfold FrameStream_Next. cbn [fs_data fs_offset]. by rewrite app_nil_r, Nat.leb_refl.
  - destruct (FrameStream_Next_packet f bs pre (concat bss) old Hf Hold) as (f' & -> & Hs & Hl'). cbn [concat] in Hfuel. rewrite length_app in Hfuel.
    assert (0 < length bs)%nat as Hpos by (destruct (wm_packet_spec f bs Hf) as (-> & _); lia).
    destruct (injectFrame can self f' w) as [self1 w1] eqn:Hi. rewrite app_assoc.
    destruct (IH (pre ++ bs) fuel self1 f' w1 Hl' ltac:(lia)) as (fs' & Hsame & ->). exists (f' :: fs'). split; [by constructor|]. unfold inject_all. cbn [foldl fst snd]. by rewrite Hi.
Qed.

(** The agent injects a datagram frame by frame, in order.  For a registered
    agent, a datagram of encoded frames has the effect of injecting those
    frames, with the same content, one after the other, each on the interface of
    its channel; nothing is skipped, repeated or reordered, and the loop ends. *)
Theorem agent_downlink_exact {W} (transport : TransportPort W) (can : CanPort W) self fs bss w :
  ag_state self = kAGENT_STATE_RUNNING → Forall2 wm_packet fs bss →
  ∃ fs', Forall2 frame_same fs fs' ∧ Agent_OnTransportFrame transport can self (concat bss) w = inject_all can fs' (self, w).
Proof.
  intros Hs Hpk. unfold Agent_OnTransportFrame. rewrite bool_decide_false by (intros Hne; by apply Hne).
  destruct (inject_stream_packets can fs bss [] (S (length (concat bss))) self frame_zero w Hpk eq_refl ltac:(lia)) as (fs' & Hsame & Hinj). exists fs'. split; [done|].
  change (FrameStream_Init (concat bss)) with {| fs_data := [] ++ concat bss; fs_offset := length (A := Z) [] |}. rewrite Hinj.
  destruct (MessageHeader_Decode (concat bss)) as [header|] eqn:Hd; [|done]. destruct Hpk as [|f bs fs bss Hf _]; [done|].
  destruct (wm_packet_spec f bs Hf) as (Hl & Hh & _). cbn [concat] in Hd. rewrite MessageHeader_Decode_app, Hh in Hd by lia. injection Hd as <-. done.
Qed.

(** ** A registered agent *)

Module AgentDemo.

Definition name (s : list Z) (size : nat) : list Z := s ++ replicate (size - length s) 0.

Definition registration : RegisterMessage := {|
  reg_agent_name := name [98; 111; 120] 128; reg_interface_count := 1; reg_interface_names := name [99; 97; 110; 48] 16 :: replicate 15 (replicate 16 0);
  reg_fd_reported := false; reg_fd_interfaces := 0 |}.

(** The acknowledgement of the hub: channel 3 for the only interface. *)
Definition ack : list Z :=
  let m := {| ack_status := REGISTER_STATUS_OK; ack_interface_count := 1; ack_channels := [3] ++ replicate 15 0 |} in
  take (RegisterAckMessage_Encode m (replicate 24 0)).1 (RegisterAckMessage_Encode m (replicate 24 0)).2.

Definition frame (channel route_flags : Z) : FrameMessage := {|
  frame_can_id := 291; frame_timestamp_us := 0; frame_channel := channel; frame_payload_length := 1; frame_flags := 0; frame_route_flags := route_flags;
  frame_payload := 7 :: replicate 63 0 |}.

(** What the hub sends for a client whose token is [token]. *)
Definition written_by (token : Z) : list Z :=
  let m := FrameMessage_Encode (frame 3 (Z.shiftl token FRAME_ROUTE_TOKEN_SHIFT)) (replicate 84 0) in take m.1 m.2.

Definition start : list agent_event := [AgTick 0; AgConnected; AgControl ack 1000].

Definition run (answers : list bool) (events : list agent_event) : Agent * aworld :=
  agent_run log_transport log_can events (Agent_Init (replicate 1024 0) registration, (answers, [])).

(** The tokens of the frames handed to the transport, with its answers. *)
Definition tokens_sent (w : aworld) : list Z :=
  omap (λ o, match o with
             | SentFrame _ data => Some (Z.shiftr (frame_route_flags (FrameMessage_Decode frame_zero (drop 4 data)).2) FRAME_ROUTE_TOKEN_SHIFT)
             | _ => None end) w.2.

End AgentDemo.
Import AgentDemo.

Example demo_registers : ag_state (run [] start).1 = kAGENT_STATE_RUNNING.
Proof. vm_compute. reflexivity. Qed.

(** With two writes of the same identifier pending, by the clients of tokens 5 and
    9, and one refusal, the echo of the first write goes to the client of the
    second, and the echo of the second to nobody; without the refusal each goes
    to its own. *)
Example retry_run :
  let writes := [AgTransportFrame (written_by 5); AgTransportFrame (written_by 9)] in
  let echo := AgCanFrame 0 (frame 0 FRAME_ROUTE_FLAG_ECHO) in
  tokens_sent (run [] (start ++ writes ++ [echo; echo])).2 = [5; 9] ∧
  tokens_sent (run [false] (start ++ writes ++ [echo; echo; echo])).2 = [5; 9; 0].
Proof. vm_compute. split; reflexivity. Qed.

Lemma agent_silent_unregistered_witness :
  ag_state (run [] [AgTick 0; AgConnected]).1 = kAGENT_STATE_REGISTERING ∧
  Agent_OnTransportFrame log_transport log_can (run [] [AgTick 0; AgConnected]).1 (written_by 5) ([], []) = ((run [] [AgTick 0; AgConnected]).1, ([], [])).
Proof.
  split; [vm_compute; reflexivity|].
  destruct (agent_silent_unregistered log_transport log_can (replicate 1024 0) registration [AgTick 0; AgConnected] ([], [])) as (_ & H & _);
    [vm_compute; discriminate|vm_compute; discriminate|]. apply H.
Defined.

Lemma agent_connection_timers_witness :
  let self := (run [] [AgTick 0; AgConnected]).1 in
  let st := Agent_Tick log_transport log_can (Agent_Tick log_transport log_can self 100 ([], [])).1 5000100 (Agent_Tick log_transport log_can self 100 ([], [])).2 in
  ag_state st.1 = kAGENT_STATE_DISCONNECTED ∧ st.2.2 = [Disconnects].
Proof.
  destruct (agent_connection_timers log_transport log_can (replicate 1024 0) registration [AgTick 0; AgConnected] ([], [])) as [_ H]; [vm_compute; discriminate|].
  destruct (H ltac:(vm_compute; reflexivity) ltac:(vm_compute; reflexivity) 100 5000100 ([], []) ltac:(lia) ltac:(lia)) as (Hw & Hs & _).
  split; [exact Hs|]. exact (f_equal snd Hw).
Defined.

Lemma running_echo : echo_rep (ag_echo (run [] start).1) (replicate 16 []).
Proof. change (ag_echo (run [] start).1) with EchoCorrelator_Reset. apply echo_rep_reset. Qed.

Lemma agent_uplink_exact_witness :
  ∃ bs, ∃ f', FrameMessage_Decode frame_zero (drop MESSAGE_HEADER_SIZE bs) = (true, f') ∧ frame_same (with_route (frame 0 0) 3 0) f'.
Proof.
  destruct (agent_uplink_exact log_transport log_can (run [] start).1 (replicate 16 []) 0 3 (frame 0 0) ([], [])) as (bs & Hd & _);
    [vm_compute; reflexivity|vm_compute; reflexivity|exact running_echo|lia|split; vm_compute; intuition congruence|].
  exists bs. exact (Hd frame_zero eq_refl).
Defined.

Definition written (token : Z) : FrameMessage := frame 3 (Z.shiftl token FRAME_ROUTE_TOKEN_SHIFT).
Definition echo : FrameMessage := frame 0 FRAME_ROUTE_FLAG_ECHO.

Lemma echo_valid : frame_valid echo ∧ frame_valid (frame 0 0).
Proof. split; (split; vm_compute; intuition congruence). Defined.
Lemma running_serves : serving 0 3 (run [] start).1.
Proof. split; try (vm_compute; reflexivity). lia. Defined.

(** A transport that takes everything, and one that refuses while its world says so. *)
Definition taking_transport : TransportPort aworld := {|
  tp_connect := tp_connect log_transport; tp_disconnect := tp_disconnect log_transport; tp_send_control := tp_send_control log_transport;
  tp_send_frame channel data w := (true, (w.1, w.2 ++ [SentFrame channel data])) |}.
Definition refusing_transport : TransportPort aworld := {|
  tp_connect := tp_connect log_transport; tp_disconnect := tp_disconnect log_transport; tp_send_control := tp_send_control log_transport;
  tp_send_frame channel data w := (default true (list.head w.1), (tail w.1, w.2)) |}.

Lemma agent_echo_roundtrip_witness :
  attributed taking_transport log_can 0 3 (run [] start).1
    [Written (written 5); Written (written 9); Seen echo; Seen (frame 0 0); Written (written 5); Seen echo; Seen echo; Seen echo]
    [Z.lor FRAME_ROUTE_FLAG_ECHO 20; 0; Z.lor FRAME_ROUTE_FLAG_ECHO 36; Z.lor FRAME_ROUTE_FLAG_ECHO 20; FRAME_ROUTE_FLAG_ECHO] ([], []).
Proof.
  destruct echo_valid as [Hv Hv0].
  apply (agent_echo_roundtrip taking_transport log_can 0 3 (run [] start).1 _ _ (replicate 16 []) ([], [])); [|done|done|exact running_serves|exact running_echo|reflexivity].
  apply OrderWrite; [cbn; lia|done|by vm_compute|]. apply OrderWrite; [cbn; lia|done|by vm_compute|]. apply (OrderEcho 3 (written 5)); [done|reflexivity|done|].
  apply OrderHeard; [done|reflexivity|]. apply OrderWrite; [cbn; lia|done|by vm_compute|]. apply (OrderEcho 3 (written 9)); [done|reflexivity|done|].
  apply (OrderEcho 3 (written 5)); [done|reflexivity|done|]. apply OrderForeign; [done|reflexivity|constructor|]. apply OrderEnd.
Defined.

(** Tokens 5 and 9 are pending; the echo of the first write is refused once and goes to the second client. *)
Lemma agent_retry_misattributes_witness :
  ∃ self1 second, wm_packet (with_route echo 3 (Z.lor FRAME_ROUTE_FLAG_ECHO 36)) second ∧ hands_over refusing_transport log_can 0 3 self1 echo second ([], []).
Proof.
  set (self := (injectFrame log_can (injectFrame log_can (run [] start).1 (written 5) ([], [])).1 (written 9) ([], [])).1).
  assert (echo_rep (ag_echo self) ((replicate 16 []).[0 := [(5, 291); (9, 291)]])) as Hrep.
  { change (ag_echo self) with (EchoCorrelator_Push (EchoCorrelator_Push EchoCorrelator_Reset 0 5 291) 0 9 291).
    exact (echo_push _ _ 0 9 291 (echo_push _ _ 0 5 291 echo_rep_reset ltac:(lia)) ltac:(lia)). }
  destruct (agent_retry_misattributes refusing_transport log_can 0 3 self ((replicate 16 []).[0 := [(5, 291); (9, 291)]]) 5 [(9, 291)] echo ([false], []) ([], [])) as (first & second & self1 & _ & _ & _ & H1 & H2);
    [split; try (vm_compute; reflexivity); lia|exact Hrep|exact (proj1 echo_valid)|reflexivity|reflexivity|reflexivity|]. exists self1, second. split; [exact H1|exact H2].
Defined.

Lemma agent_downlink_exact_witness :
  ∃ fs', Forall2 frame_same [frame 3 20] fs' ∧
    Agent_OnTransportFrame log_transport log_can (run [] start).1 (concat [written_by 5]) ([], []) = inject_all log_can fs' ((run [] start).1, ([], [])).
Proof.
  apply (agent_downlink_exact log_transport log_can (run [] start).1 [frame 3 20] [written_by 5] ([], [])); [vm_compute; reflexivity|].
  constructor; [|constructor]. exists (replicate 84 0). split; [split; vm_compute; intuition congruence|]. split; [vm_compute; lia|vm_compute; reflexivity].
Defined.

(** * The registration handshake: the agent and the hub's registry *)
Lemma register_loop_channels n i s p r ack :
  length (ack_channels (register_loop n i s p r ack).2) = length (ack_channels ack).
Proof.
  revert i s ack. induction n as [|n IH]; intros i s ack; [done|]. cbn [register_loop]. case_match; [|done]. rewrite IH. cbn. apply length_zset.
Qed.

Lemma register_ack_channels s p r : length (ack_channels (InterfaceRegistry_RegisterAgent s p r).2) = REGISTER_INTERFACES_MAX.
Proof. unfold InterfaceRegistry_RegisterAgent. repeat case_match; try done. by rewrite register_loop_channels. Qed.

Lemma ack_decode_channels old payload ok ack : RegisterAckMessage_Decode old payload = (ok, ack) → length (ack_channels ack) = length (ack_channels old).
Proof. unfold RegisterAckMessage_Decode. repeat case_match; intros [= <- <-]; cbn; try done. apply length_copy_at. Qed.

(** A packet that the agent's table knows is given to its handler. *)
Lemma control_packet {W} (transport : TransportPort W) (can : CanPort W) {M} `{WireMessageOk M} (m : M) bs self now w handler :
  wm_packet m bs → wm_type (M := M) < kMESSAGE_TYPE_MAX → control_handlers transport can (wm_type (M := M)) = Some handler →
  Agent_OnControlMessage transport can self bs now w =
    handler self {| header_type := wm_type (M := M); header_flags := 0; header_length := Z.of_nat (wm_size m) |} (drop MESSAGE_HEADER_SIZE bs) now w.
Proof.
  intros Hpk Ht Hh. destruct (wm_packet_spec _ _ Hpk) as (Hl & Hd & _). unfold Agent_OnControlMessage. rewrite Hd. cbn [header_length header_type].
  rewrite Nat2Z.id, (proj2 (Nat.ltb_ge _ _)) by lia. destruct (Z.geb_spec (wm_type (M := M)) kMESSAGE_TYPE_MAX); [lia|]. rewrite Hh.
  unfold slice. by rewrite take_ge by (rewrite length_drop; lia).
Qed.

(** C11. The two sides of a registration agree.  When the hub's registry, in any
    state it can reach, grants the registration of an agent, and the
    acknowledgement reaches that agent while it waits for it, the agent runs
    with one channel per interface, its two lookups are inverse on them, and on
    each channel the registry finds the entry of this peer with the name of the
    interface the agent maps to it. *)
Theorem agent_hub_handshake {W} (transport : TransportPort W) (can : CanPort W) ops peer registration ring events w0 bs now w :
  Forall registry_op_ok ops → zlen ops ≤ 268434000 → peer ≠ INTERFACE_REGISTRY_HUB_PEER → 0 ≤ reg_interface_count registration ≤ 16 →
  let s := foldl registry_step InterfaceRegistry_Reset ops in
  let '(granted, s', ack) := InterfaceRegistry_RegisterAgent s peer registration in
  let self := (agent_run transport can events (Agent_Init ring registration, w0)).1 in
  granted = true → wm_packet ack bs → ag_state self = kAGENT_STATE_REGISTERING →
  let self' := (Agent_OnControlMessage transport can self bs now w).1 in
  ag_state self' = kAGENT_STATE_RUNNING ∧
  ∀ i, 0 ≤ i < reg_interface_count registration → ∃ c e,
    ChannelMap_ChannelForInterface (ag_channel_map self') i = Some c ∧ ChannelMap_InterfaceForChannel (ag_channel_map self') c = Some i ∧
    InterfaceRegistry_FindByAgentChannel s' peer c = Some e ∧ ie_agent_name e = reg_agent_name registration ∧
    ie_interface_name e = (reg_interface_names registration).[i].
Proof.
  intros Hops Hlen Hp Hc s. destruct (registry_reachable ops Hops ltac:(lia)) as [Hwf Hn]. fold s in Hwf, Hn.
  assert (next_interface_id s + 16 < 4294967296) as Hid by lia.
  pose proof (registry_wf_register s peer registration Hwf Hp Hc Hid) as Hwf'. pose proof (register_spec s peer registration Hwf Hc Hid) as Hspec.
  pose proof (register_ack_channels s peer registration) as Hch. destruct (InterfaceRegistry_RegisterAgent s peer registration) as [[granted s'] ack]. cbn [fst snd] in *.
  intros -> Hpk Hst. destruct Hspec as [_ [(_ & _ & _ & Hvac & _ & He & Hok & Hcnt & Hj)|(? & _)]]; [|done].
  set (self := (agent_run transport can events (Agent_Init ring registration, w0)).1) in *.
  pose proof (agent_run_ok transport can registration events (Agent_Init ring registration, w0) ltac:(lia) (Init_ok ring registration)) as Hag. fold self in Hag. clearbody self.
  destruct (wm_packet_spec _ _ Hpk) as (_ & _ & Hdec). destruct (Hdec register_ack0 eq_refl) as (ack' & Hd & Hs1 & Hs2 & Hs3).
  rewrite (control_packet transport can ack bs self now w (handleRegisterAck transport can) Hpk eq_refl eq_refl). unfold handleRegisterAck. rewrite Hst, bool_decide_false by auto.
  change (RegisterAckMessage_Decode register_ack0 (drop MESSAGE_HEADER_SIZE bs) = (true, ack')) in Hd. rewrite Hd, Hs1, Hok. cbn [negb]. change (REGISTER_STATUS_OK =? REGISTER_STATUS_OK) with true. cbn [negb].
  pose proof (ack_decode_channels _ _ _ _ Hd) as Hl'. change (length (ack_channels register_ack0)) with 16%nat in Hl'. set (n := reg_interface_count registration) in *.
  rewrite (ao_registration _ _ Hag). fold n. pose proof (channel_map_follows_ack (ag_channel_map self) ack' n (ao_map _ _ Hag) ltac:(lia) Hl') as Hmap.
  destruct (ChannelMap_AssignFromAck (ag_channel_map self) ack' n) as [assigned_ok map']. destruct Hmap as (_ & Hiff & Has & Hinv).
  rewrite (proj2 Hiff) in * by (split_and!; [congruence|congruence|lia]). cbn [negb]. destruct (Has eq_refl) as [[Hsh Hshc] Hasg]. clear Has Hiff.
  match goal with |- context [sendInterfaceStatus transport can ?x w] => set (self1 := x); destruct (status_core transport can self1 w) as [Hcore _];
    destruct (sendInterfaceStatus transport can self1 w) as [self2 w2] end. cbn [fst] in Hcore. unfold core in Hcore. injection Hcore as _ Hmap' _ _ Hstate.
  split; [exact Hstate|].
  assert (∀ j, 0 ≤ j < n → take (Z.to_nat n) (ack_channels ack') !! Z.to_nat j = Some j) as Hnth.
  { intros j Hjn. rewrite <- Hs2 in Hs3. replace (ack_interface_count ack') with n in Hs3 by congruence. rewrite Hs3, lookup_take_lt by lia.
    rewrite zget_lookup by (unfold zlen; lia). f_equal. by apply Hj. }
  assert (NoDup (take (Z.to_nat n) (ack_channels ack'))) as Hnd.
  { apply NoDup_alt. intros a b x Ha Hb. pose proof (lookup_lt_Some _ _ _ Ha) as La. pose proof (lookup_lt_Some _ _ _ Hb) as Lb. rewrite length_take in La, Lb.
    pose proof (Hnth (Z.of_nat a) ltac:(lia)) as Ea. pose proof (Hnth (Z.of_nat b) ltac:(lia)) as Eb. rewrite Nat2Z.id in Ea, Eb. rewrite Ea in Ha. rewrite Eb in Hb. simplify_eq. lia. }
  destruct (Hinv eq_refl Hnd) as [Hlook _].
  intros i Hi. cbn [fst]. change (ag_channel_map (self2 <| ag_next_status_at_us := _ |>)) with (ag_channel_map self2). rewrite Hmap'.
  change (ag_channel_map self1) with map'.
  assert (interface_count map' = n) as Hmc.
  { apply (f_equal length) in Hasg. unfold assigned in Hasg. rewrite !length_take, Hsh, Hl' in Hasg. lia. }
  assert (ChannelMap_ChannelForInterface map' i = Some i) as Hci.
  { unfold ChannelMap_ChannelForInterface. destruct (Z.geb_spec i (interface_count map')); [lia|]. pose proof (assigned_lookup map' i (conj Hsh Hshc) ltac:(lia)) as Hal.
    rewrite Hasg, Hnth in Hal by done. by injection Hal as <-. }
  set (e := register_entry (next_interface_id s + i) peer i registration InterfaceEntry_zero). exists i, e. split; [done|]. split; [apply Hlook; [lia|done]|]. split; [|done].
  refine (find_by_channel s' e Hwf' _ _); [|unfold InterfaceEntry_IsVirtual; cbn; by apply Z.eqb_neq].
  pose proof (live_register s peer registration ltac:(fold n; lia)) as Hlive. fold n in Hlive. rewrite <- He in Hlive. rewrite Hlive, elem_of_app, elem_of_new_entries. left. exists (Z.to_nat i).
  split; [lia|]. by rewrite Z.add_0_l, Z2Nat.id by lia.
Qed.

Lemma agent_hub_handshake_witness :
  ag_state (Agent_OnControlMessage log_transport log_can (AgentDemo.run [] [AgTick 0; AgConnected]).1
    (take 24 (RegisterAckMessage_Encode (InterfaceRegistry_RegisterAgent InterfaceRegistry_Reset 7 AgentDemo.registration).2 (replicate 24 0)).2) 1000 ([], [])).1 =
  kAGENT_STATE_RUNNING.
Proof.
  pose proof (agent_hub_handshake log_transport log_can [] 7 AgentDemo.registration (replicate 1024 0) [AgTick 0; AgConnected] ([], [])
    (take 24 (RegisterAckMessage_Encode (InterfaceRegistry_RegisterAgent InterfaceRegistry_Reset 7 AgentDemo.registration).2 (replicate 24 0)).2) 1000 ([], [])
    ltac:(constructor) ltac:(unfold zlen; cbn; lia) ltac:(done) ltac:(cbn; lia)) as H. cbv zeta in H. cbn [foldl] in H.
  assert ((InterfaceRegistry_RegisterAgent InterfaceRegistry_Reset 7 AgentDemo.registration).1.1 = true) as Hg by (vm_compute; reflexivity).
  assert (is_u8 (ack_status (InterfaceRegistry_RegisterAgent InterfaceRegistry_Reset 7 AgentDemo.registration).2) ∧
    ack_interface_count (InterfaceRegistry_RegisterAgent InterfaceRegistry_Reset 7 AgentDemo.registration).2 = 1 ∧
    length (ack_channels (InterfaceRegistry_RegisterAgent InterfaceRegistry_Reset 7 AgentDemo.registration).2) = 16%nat) as (Ha1 & Ha2 & Ha3)
    by (vm_compute; intuition congruence).
  destruct (InterfaceRegistry_RegisterAgent InterfaceRegistry_Reset 7 AgentDemo.registration) as [[granted s'] ack]. cbn [fst snd] in *.
  apply H; [exact Hg| |vm_compute; reflexivity]. exists (replicate 24 0). split; [|split; [vm_compute; lia|]].
  - split; [exact Ha1|]. split; [rewrite Ha2; lia|exact Ha3].
  - cbn [wm_encode RegisterAckMessage_wire]. unfold RegisterAckMessage_Encode. rewrite Ha2. reflexivity.
Defined.
