(* ===== verification/InterfaceName.v ===== *)
(** * Interface names (src/protocol/interface_name.c)

    An interface is addressed as "agent/interface": the name is split at its
    first separator, or looked up among the entries of a LIST_REPLY. *)

From Stdlib Require Import String.
From S2P Require Import Prelude CString Wire Codec ListMessage RegisterMessage.

Definition INTERFACE_NAME_SEPARATOR : Z := 47.

(** [strchr(s, c)]: where the character is. *)
Definition strchr (s : list Z) (c : Z) : option nat := fst <$> list_find (λ x, x = c) (cstr s).

Definition InterfaceName_IsNamespaced (target : list Z) : bool := bool_decide (is_Some (strchr target INTERFACE_NAME_SEPARATOR)).

(** The two buffers are out parameters. *)
Definition InterfaceName_Split (namespaced agent_name interface_name : list Z) : bool * (list Z * list Z) :=
  match strchr namespaced INTERFACE_NAME_SEPARATOR with
  | None => (false, (agent_name, interface_name))
  | Some agent_length =>
      let interface_length := strlen (drop (S agent_length) namespaced) in
      if Nat.eqb agent_length 0 || Nat.leb REGISTER_AGENT_NAME_SIZE agent_length then (false, (agent_name, interface_name))
      else if Nat.eqb interface_length 0 || Nat.leb REGISTER_INTERFACE_NAME_SIZE interface_length then (false, (agent_name, interface_name))
      else (true, (<[agent_length := 0]> (copy_at 0 (take agent_length namespaced) agent_name),
                   copy_at 0 (take (S interface_length) (drop (S agent_length) namespaced)) interface_name))
  end.

Definition namesEntry (namespaced : list Z) (entry : ListReplyEntry) : bool :=
  let agent_length := strlen (lre_agent_name entry) in
  if negb (strneq namespaced (lre_agent_name entry) agent_length) then false
  else if negb (namespaced !!! agent_length =? INTERFACE_NAME_SEPARATOR) then false
  else streq (drop (S agent_length) namespaced) (lre_interface_name entry).

(** [for(i=0; i<reply->count; i++)] *)
Fixpoint find_loop (namespaced : list Z) (entries : list ListReplyEntry) : option Z :=
  match entries with
  | [] => None
  | e :: entries' => if namesEntry namespaced e then Some (lre_interface_id e) else find_loop namespaced entries'
  end.

Definition InterfaceName_Find (reply : ListReplyMessage) (namespaced : list Z) : option Z := find_loop namespaced (counted_entries reply).

(** ** What the names mean *)

(** "agent/interface" *)
Definition joined (agent interface : list Z) : list Z := agent ++ INTERFACE_NAME_SEPARATOR :: interface.

(** A string in memory: its characters, a NUL, whatever follows. *)
Definition terminated (s : list Z) : Prop := (strlen s < length s)%nat.

Lemma terminated_split s : terminated s → ∃ rest, s = cstr s ++ 0 :: rest.
Proof.
  unfold terminated, strlen. induction s as [|c s IH]; cbn; [lia|]. destruct (Z.eqb_spec c 0) as [->|Hc]; intros Hl; [by exists s|].
  cbn in Hl. destruct IH as [rest Hr]; [lia|]. exists rest. cbn. by f_equal.
Qed.

Lemma drop_cstr s n : (n ≤ strlen s)%nat → cstr (drop n s) = drop n (cstr s).
Proof.
  unfold strlen. revert n. induction s as [|c s IH]; intros [|n] Hn; cbn in *; [done..|]. destruct (c =? 0); cbn in *; [lia|]. apply IH. lia.
Qed.

(** What a buffer holds, from its first bytes. *)
Lemma cstr_of_prefix (b s : list Z) : take (S (length s)) b = s ++ [0] → 0 ∉ s → cstr b = s.
Proof. intros Ht Hn. rewrite <- (take_drop (S (length s)) b), Ht, <- app_assoc. by apply cstr_app_nul. Qed.

Lemma strchr_spec s c i : c ≠ 0 → strchr s c = Some i ↔ ∃ rest, cstr s = take i (cstr s) ++ c :: rest ∧ length (take i (cstr s)) = i ∧ c ∉ take i (cstr s).
Proof.
  intros Hc. unfold strchr. split.
  - intros ([j x] & Hf & Hij)%fmap_Some. cbn in Hij. subst i. apply list_find_Some in Hf as (Hl & -> & Hmin). pose proof (lookup_lt_Some _ _ _ Hl) as Hlt.
    exists (drop (S j) (cstr s)). split; [by rewrite take_drop_middle|]. split; [rewrite length_take; cbn in *; lia|].
    intros (k & Hk & Hkl)%elem_of_take. by apply (Hmin k c).
  - intros (rest & Hs & Hl & Hn). apply fmap_Some. exists (i, c). split; [|done]. apply list_find_Some. split; [|split; [done|]].
    + rewrite Hs. rewrite lookup_app_r by lia. by rewrite Hl, Nat.sub_diag.
    + intros j y Hy Hj ->. apply Hn. apply elem_of_take. by exists j.
Qed.

Lemma cstr_lookup s i x : cstr s !! i = Some x → s !! i = Some x.
Proof. revert i. induction s as [|c s IH]; intros i; [done|]. cbn. destruct (c =? 0); [done|]. destruct i; [done|]. apply IH. Qed.

Lemma namesEntry_spec s e : terminated s → namesEntry s e = true ↔ cstr s = joined (cstr (lre_agent_name e)) (cstr (lre_interface_name e)).
Proof.
  intros Ht. destruct (terminated_split s Ht) as [rest Hs]. unfold namesEntry, strneq. set (agent := lre_agent_name e). set (n := strlen agent).
  assert (cstr (take n agent) = cstr agent) as Hta by (rewrite cstr_take; apply take_ge; done). rewrite Hta, cstr_take.
  destruct (bool_decide_reflect (take n (cstr s) = cstr agent)) as [Hn|Hn]; cbn [negb].
  2: { split; [done|]. intros Hj. exfalso. apply Hn. rewrite Hj. unfold joined, n, strlen. by rewrite take_app_length. }
  assert (n ≤ length (cstr s))%nat as Hle by (pose proof (f_equal length Hn) as Hl; rewrite length_take in Hl; fold n in Hl; unfold n, strlen in *; lia).
  destruct (Z.eqb_spec (s !!! n) INTERFACE_NAME_SEPARATOR) as [Hsep|Hsep]; cbn [negb].
  - assert (n < length (cstr s))%nat as Hlt.
    { destruct (decide (n = length (cstr s))) as [He|]; [|lia]. exfalso. rewrite Hs, He in Hsep. rewrite list_lookup_total_alt, lookup_app_r, Nat.sub_diag in Hsep by lia. done. }
    destruct (lookup_lt_is_Some_2 (cstr s) n Hlt) as [x Hx]. rewrite (list_lookup_total_correct _ _ _ (cstr_lookup _ _ _ Hx)) in Hsep. subst x.
    rewrite streq_true, drop_cstr by (unfold strlen; lia). rewrite <- (take_drop_middle (cstr s) n _ Hx) at 2. rewrite Hn. unfold joined.
    split; [by intros ->|]. intros H. apply app_inv_head in H. congruence.
  - split; [done|]. intros Hj. exfalso. apply Hsep. apply list_lookup_total_correct, cstr_lookup. rewrite Hj. unfold joined.
    rewrite lookup_app_r by done. unfold n, strlen. by rewrite Nat.sub_diag.
Qed.

Lemma find_exact entries s : terminated s →
  find_loop s entries = lre_interface_id <$> head (filter (λ e, cstr s = joined (cstr (lre_agent_name e)) (cstr (lre_interface_name e))) entries).
Proof.
  intros Ht. induction entries as [|e entries IH]; [done|]. cbn [find_loop]. rewrite filter_cons.
  pose proof (namesEntry_spec s e Ht) as He. destruct (namesEntry s e).
  - by rewrite decide_True by (by apply He).
  - rewrite decide_False; [exact IH|]. intros H. apply He in H. done.
Qed.

(** A name is looked up exactly.  For any page of the interface list and any
    name, the lookup returns the identifier of the first entry whose agent and
    interface, joined by the separator, are the name, and nothing when no entry
    is: whatever characters the names hold, and whatever follows them in their
    buffers. *)
Theorem interface_find_exact (reply : ListReplyMessage) (namespaced : list Z) :
  terminated namespaced →
  InterfaceName_Find reply namespaced =
    lre_interface_id <$> head (filter (λ e, cstr namespaced = joined (cstr (lre_agent_name e)) (cstr (lre_interface_name e))) (counted_entries reply)).
Proof. apply find_exact. Qed.

(** Splitting undoes joining.  A name splits if and only if it is a
    non-empty agent name without a separator, the separator, and a non-empty
    interface name, both short enough for their buffers; the buffers then hold
    exactly these two names, and otherwise they are left alone. *)
Theorem interface_split_exact (namespaced agent_name interface_name : list Z) :
  terminated namespaced → length agent_name = REGISTER_AGENT_NAME_SIZE → length interface_name = REGISTER_INTERFACE_NAME_SIZE →
  let '(ok, (agent', interface')) := InterfaceName_Split namespaced agent_name interface_name in
  (ok = true ↔ ∃ a i, cstr namespaced = joined a i ∧ INTERFACE_NAME_SEPARATOR ∉ a ∧ (0 < length a < 128)%nat ∧ (0 < length i < 16)%nat) ∧
  (if ok then cstr namespaced = joined (cstr agent') (cstr interface') ∧ INTERFACE_NAME_SEPARATOR ∉ cstr agent' else agent' = agent_name ∧ interface' = interface_name).
Proof.
  intros Ht Hla Hli. destruct (terminated_split _ Ht) as [rest Hs].
  assert (∀ a i, cstr namespaced = joined a i → INTERFACE_NAME_SEPARATOR ∉ a → strchr namespaced INTERFACE_NAME_SEPARATOR = Some (length a) ∧ strlen (drop (S (length a)) namespaced) = length i) as Hjoin.
  { intros a i Hj Hn. split.
    - apply strchr_spec; [done|]. exists i. unfold joined in Hj. rewrite Hj, take_app_length. by split_and!.
    - unfold strlen. rewrite drop_cstr, Hj; unfold strlen; rewrite ?Hj; unfold joined; rewrite ?length_app; cbn; [|lia].
      replace (S (length a)) with (length a + 1)%nat by lia. by rewrite <- drop_drop, drop_app_length. }
  unfold InterfaceName_Split. destruct (strchr namespaced INTERFACE_NAME_SEPARATOR) as [n|] eqn:Hc.
  2: { split; [|done]. split; [done|]. intros (a & i & Hj & Hn & _). destruct (Hjoin a i Hj Hn) as [[=] _]. }
  apply strchr_spec in Hc as (i & Hcs & Hlen & Hn); [|done]. destruct (Hjoin (take n (cstr namespaced)) i Hcs Hn) as [_ Hil]. rewrite Hlen in Hil.
  assert (∀ a' i', cstr namespaced = joined a' i' → INTERFACE_NAME_SEPARATOR ∉ a' → length a' = n ∧ length i' = length i) as Huniq.
  { intros a' i' Hj' Hn'. destruct (Hjoin a' i' Hj' Hn') as [[= H1] H2]. split; [done|]. rewrite <- H1, Hil in H2. done. }
  rewrite Hil. destruct (Nat.eqb_spec n 0) as [H0|H0]; cbn [orb].
  { split; [|done]. split; [done|]. intros (a' & i' & Hj' & Hn' & Hb & _). destruct (Huniq a' i' Hj' Hn'). lia. }
  destruct (Nat.leb_spec 128 n) as [Hb|Hb].
  { split; [|done]. split; [done|]. intros (a' & i' & Hj' & Hn' & Hb' & _). destruct (Huniq a' i' Hj' Hn'). lia. }
  destruct (Nat.eqb_spec (length i) 0) as [Hi0|Hi0]; cbn [orb].
  { split; [|done]. split; [done|]. intros (a' & i' & Hj' & Hn' & _ & Hb'). destruct (Huniq a' i' Hj' Hn'). lia. }
  destruct (Nat.leb_spec 16 (length i)) as [Hib|Hib].
  { split; [|done]. split; [done|]. intros (a' & i' & Hj' & Hn' & _ & Hb'). destruct (Huniq a' i' Hj' Hn'). lia. }
  assert (take n namespaced = take n (cstr namespaced)) as Hta.
  { rewrite Hs at 1. rewrite take_app_le; [done|]. pose proof (f_equal length Hcs) as Hl. rewrite length_app in Hl. lia. }
  assert (take (S (length i)) (drop (S n) namespaced) = i ++ [0]) as Hti.
  { rewrite Hs at 1. rewrite Hcs. rewrite <- app_assoc. replace (S n) with (length (take n (cstr namespaced)) + 1)%nat by lia. rewrite <- drop_drop, drop_app_length. cbn [app drop].
    replace (S (length i)) with (length i + 1)%nat by lia. change (i ++ 0 :: rest) with (i ++ [0] ++ rest). rewrite app_assoc. apply take_app_length'. rewrite length_app. cbn. lia. }
  assert (0 ∉ take n (cstr namespaced) ∧ 0 ∉ i) as [Hz1 Hz2].
  { split; [apply take_cstr_no_nul|]. intros Hin. apply (cstr_no_nul namespaced). rewrite Hcs. apply elem_of_app. right. by apply list_elem_of_further. }
  assert (cstr (<[n:=0]> (copy_at 0 (take n namespaced) agent_name)) = take n (cstr namespaced)) as Ha.
  { apply cstr_of_prefix; [|done]. rewrite Hlen, Hta. unfold copy_at. rewrite (take_S_r _ n 0) by (apply list_lookup_insert_eq; rewrite length_inserts; lia).
    rewrite take_insert_ge by lia. by rewrite take_list_inserts by lia. }
  assert (cstr (copy_at 0 (take (S (length i)) (drop (S n) namespaced)) interface_name) = i) as Hb'.
  { apply cstr_of_prefix; [|done]. rewrite Hti. unfold copy_at. apply take_list_inserts; [rewrite length_app; cbn; lia|lia]. }
  rewrite Ha, Hb'. split; [|by split]. split; [|done]. intros _. exists (take n (cstr namespaced)), i. split; [exact Hcs|]. split; [done|]. split; lia.
Qed.

Lemma interface_find_exact_witness :
  let entry id (a i : string) := {| lre_interface_id := id; lre_agent_name := padded 128 (lit a); lre_interface_name := padded 16 (lit i) |} in
  let reply := {| lr_count := 3; lr_flags := 0; lr_entries := [entry 4 "rig"%string "can0"%string; entry 7 "rig/a"%string "can0"%string; entry 9 "rig"%string "a/can0"%string] |} in
  InterfaceName_Find reply (lit "rig/a/can0" ++ [0]) = Some 7.
Proof.
  intros entry reply. etrans; [apply interface_find_exact; vm_compute; lia|]. vm_compute. reflexivity.
Defined.

Lemma interface_split_exact_witness :
  let '(ok, (agent, interface)) := InterfaceName_Split (lit "rig/a/can0" ++ [0]) (replicate 128 9) (replicate 16 9) in
  ok = true ∧ cstr agent = lit "rig" ∧ cstr interface = lit "a/can0" ∧ lit "rig/a/can0" = joined (cstr agent) (cstr interface).
Proof.
  pose proof (interface_split_exact (lit "rig/a/can0" ++ [0]) (replicate 128 9) (replicate 16 9) ltac:(vm_compute; lia) ltac:(reflexivity) ltac:(reflexivity)) as H.
  split; [vm_compute; reflexivity|]. split; [vm_compute; reflexivity|]. split; [vm_compute; reflexivity|]. exact (proj1 (proj2 H)).
Defined.
