(* ===== verification/TransactionSender.v ===== *)
(** * The client side of a transaction (src/client/transaction_sender.c)

    Packs the steps offered to it into TXN_STEPS batches, within the window the
    agent granted, and follows the agent's progress and final status.  A batch
    that the transport could not take stays open, in order, until it is sent. *)

From S2P Require Import Prelude Wire Codec FrameMessage TxnMessage TxnStepsMessage StepRing TransactionRunner.

Notation TRANSACTION_SENDER_BATCH_SIZE := 416%nat (only parsing).
Definition kTRANSACTION_SENDER_IDLE : Z := 0.
Definition kTRANSACTION_SENDER_BEGINNING : Z := 1.
Definition kTRANSACTION_SENDER_RUNNING : Z := 2.
Definition kTRANSACTION_SENDER_FINISHED : Z := 3.
Definition kTRANSACTION_OFFER_ACCEPTED : Z := 0.
Definition kTRANSACTION_OFFER_FLUSH_NEEDED : Z := 1.
Definition kTRANSACTION_OFFER_NO_CREDIT : Z := 2.
Definition kTRANSACTION_OFFER_REJECTED : Z := 3.

(** [batch] is the memory the writer fills: the buffer of [sn_writer]. *)
Record TransactionSender := {
  sn_state : Z; sn_channel : Z; sn_txn_id : Z; sn_begin_status : Z; sn_ended : bool; sn_window_bytes : Z; sn_sent_bytes : Z;
  sn_consumed_bytes : Z; sn_completed_steps : Z; sn_next_seq : Z; sn_message_open : bool; sn_batch_open : bool; sn_writer : TxnStepsWriter;
  sn_outcome : TxnStatusMessage;
}.

#[export] Instance TransactionSender_settable : Settable TransactionSender := λ s, {|
  sn_state := sn_state s; sn_channel := sn_channel s; sn_txn_id := sn_txn_id s; sn_begin_status := sn_begin_status s; sn_ended := sn_ended s;
  sn_window_bytes := sn_window_bytes s; sn_sent_bytes := sn_sent_bytes s; sn_consumed_bytes := sn_consumed_bytes s;
  sn_completed_steps := sn_completed_steps s; sn_next_seq := sn_next_seq s; sn_message_open := sn_message_open s;
  sn_batch_open := sn_batch_open s; sn_writer := sn_writer s; sn_outcome := sn_outcome s |}.

Definition status_zero : TxnStatusMessage := {|
  ts_channel := 0; ts_state := 0; ts_txn_id := 0; ts_failing_seq := 0; ts_offending_origin := 0; ts_seen_bitmap := 0; ts_expected := 0;
  ts_got := 0; ts_completed_steps := 0; ts_reason := 0; ts_flags := 0; ts_rx_frame := rx_frame_zero |}.

(** ** Operations *)

Definition TransactionSender_Reset : TransactionSender := {|
  sn_state := kTRANSACTION_SENDER_IDLE; sn_channel := 0; sn_txn_id := 0; sn_begin_status := 0; sn_ended := false; sn_window_bytes := 0;
  sn_sent_bytes := 0; sn_consumed_bytes := 0; sn_completed_steps := 0; sn_next_seq := 0; sn_message_open := false; sn_batch_open := false;
  sn_writer := {| tw_buffer := replicate TRANSACTION_SENDER_BATCH_SIZE 0; tw_records_size := 0; tw_step_count := 0 |};
  sn_outcome := status_zero |}.

Definition TransactionSender_Begin (channel : Z) : TransactionSender :=
  TransactionSender_Reset <| sn_state := kTRANSACTION_SENDER_BEGINNING |> <| sn_channel := channel |>.

Definition TransactionSender_OnBeginAck (self : TransactionSender) (ack : TxnBeginAckMessage) : TransactionSender :=
  if negb (sn_state self =? kTRANSACTION_SENDER_BEGINNING) || negb (tba_channel ack =? sn_channel self) then self
  else
    let self := self <| sn_begin_status := tba_status ack |> in
    if negb (tba_status ack =? kTXN_BEGIN_STATUS_OK) then self <| sn_state := kTRANSACTION_SENDER_FINISHED |>
    else self <| sn_state := kTRANSACTION_SENDER_RUNNING |> <| sn_txn_id := tba_txn_id ack |> <| sn_window_bytes := tba_window_bytes ack |>.

Definition TransactionSender_OnProgress (self : TransactionSender) (progress : TxnProgressMessage) : TransactionSender :=
  if negb (sn_state self =? kTRANSACTION_SENDER_RUNNING) || negb (tpr_channel progress =? sn_channel self) || negb (tpr_txn_id progress =? sn_txn_id self)
  then self
  else self <| sn_consumed_bytes := tpr_consumed_bytes progress |> <| sn_completed_steps := tpr_completed_steps progress |>.

Definition TransactionSender_OnStatus (self : TransactionSender) (status : TxnStatusMessage) : TransactionSender :=
  if negb (ts_channel status =? sn_channel self) then self
  else if (sn_state self =? kTRANSACTION_SENDER_RUNNING) && negb (ts_txn_id status =? sn_txn_id self) then self
  else if negb (sn_state self =? kTRANSACTION_SENDER_RUNNING) && negb (sn_state self =? kTRANSACTION_SENDER_BEGINNING) then self
  else self <| sn_outcome := status |> <| sn_completed_steps := ts_completed_steps status |> <| sn_state := kTRANSACTION_SENDER_FINISHED |>.

Definition TransactionSender_BytesInFlight (self : TransactionSender) : Z := u32 (sn_sent_bytes self - sn_consumed_bytes self).

(** [isStepValid] of the sender: the record can be encoded. *)
Definition isOfferEncodable (step : TxnStep) : bool :=
  negb (Nat.eqb (TxnStep_Encode step (replicate (Z.to_nat TXN_STEP_RECORD_SIZE_MAX) 0) 0 (Z.to_nat TXN_STEP_RECORD_SIZE_MAX)).1 0).

Definition openBatch (self : TransactionSender) : TransactionSender :=
  let fixed_fields := {| tsm_channel := sn_channel self; tsm_step_count := 0; tsm_txn_id := sn_txn_id self; tsm_first_seq := sn_next_seq self;
                         tsm_flags := 0; tsm_records := [] |} in
  self <| sn_writer := default (sn_writer self) (TxnStepsWriter_Init fixed_fields (tw_buffer (sn_writer self))) |> <| sn_batch_open := true |>.

Definition TransactionSender_Offer (self : TransactionSender) (step : TxnStep) : Z * TransactionSender :=
  if negb (sn_state self =? kTRANSACTION_SENDER_RUNNING) || sn_ended self || negb (isOfferEncodable step) then (kTRANSACTION_OFFER_REJECTED, self)
  else
    let size := u32 (Z.of_nat (TxnStep_RecordSize step)) in
    if u32 (TransactionSender_BytesInFlight self + size) >? sn_window_bytes self then (kTRANSACTION_OFFER_NO_CREDIT, self)
    else
      let self := if negb (sn_batch_open self) then openBatch self else self in
      let '(appended, writer) := TxnStepsWriter_Append (sn_writer self) step in
      let self := self <| sn_writer := writer |> in
      if negb appended then (kTRANSACTION_OFFER_FLUSH_NEEDED, self)
      else
        let self := self <| sn_sent_bytes := u32 (sn_sent_bytes self + size) |> in
        let self := self <| sn_message_open := has_flag (st_flags step) TXN_STEP_FLAG_CONTINUED |> in
        (kTRANSACTION_OFFER_ACCEPTED, if negb (sn_message_open self) then self <| sn_next_seq := u32 (sn_next_seq self + 1) |> else self).

Definition TransactionSender_End (self : TransactionSender) : Z * TransactionSender :=
  if negb (sn_state self =? kTRANSACTION_SENDER_RUNNING) || sn_ended self || sn_message_open self then (kTRANSACTION_OFFER_REJECTED, self)
  else
    let self := if negb (sn_batch_open self) then openBatch self else self in
    (kTRANSACTION_OFFER_ACCEPTED, self <| sn_writer := TxnStepsWriter_MarkEnd (sn_writer self) |> <| sn_ended := true |>).

(** The bytes to send, none when no batch is open. *)
Definition TransactionSender_PendingBatch (self : TransactionSender) : list Z * TransactionSender :=
  if negb (sn_batch_open self) then ([], self)
  else
    let '(size, batch) := TxnStepsWriter_Finish (sn_writer self) in
    (take size batch, self <| sn_writer := {| tw_buffer := batch; tw_records_size := tw_records_size (sn_writer self); tw_step_count := tw_step_count (sn_writer self) |} |>).

Definition TransactionSender_BatchSent (self : TransactionSender) : TransactionSender := self <| sn_batch_open := false |>.

(** ** A transaction of the sender *)

Inductive sender_event :=
| SvAck (ack : TxnBeginAckMessage)
| SvProgress (progress : TxnProgressMessage)
| SvStatus (status : TxnStatusMessage)
| SvOffer (step : TxnStep)
| SvEnd
| SvFlush (taken : bool).  (* the pending batch is handed to the transport, which takes it or not *)

(** The sender, the batches the transport took, the steps the sender accepted. *)
Record sender_world := { sw_sender : TransactionSender; sw_batches : list (list Z); sw_accepted : list TxnStep }.

Definition sender_step (w : sender_world) (e : sender_event) : sender_world :=
  let on s := {| sw_sender := s; sw_batches := sw_batches w; sw_accepted := sw_accepted w |} in
  let self := sw_sender w in
  match e with
  | SvAck ack => on (TransactionSender_OnBeginAck self ack)
  | SvProgress progress => on (TransactionSender_OnProgress self progress)
  | SvStatus status => on (TransactionSender_OnStatus self status)
  | SvOffer step =>
      let '(answer, self) := TransactionSender_Offer self step in
      {| sw_sender := self; sw_batches := sw_batches w;
         sw_accepted := if answer =? kTRANSACTION_OFFER_ACCEPTED then sw_accepted w ++ [step] else sw_accepted w |}
  | SvEnd => on (TransactionSender_End self).2
  | SvFlush taken =>
      let '(batch, self) := TransactionSender_PendingBatch self in
      if Nat.eqb (length batch) 0 || negb taken then on self
      else {| sw_sender := TransactionSender_BatchSent self; sw_batches := sw_batches w ++ [batch]; sw_accepted := sw_accepted w |}
  end.

Definition sender_run (events : list sender_event) (channel : Z) : sender_world :=
  foldl sender_step {| sw_sender := TransactionSender_Begin channel; sw_batches := []; sw_accepted := [] |} events.

Definition sender_event_typed (e : sender_event) : Prop :=
  match e with SvAck ack => is_u16 (tba_txn_id ack) | SvOffer step => step_typed step | _ => True end.

(** ** What the batches say *)

(** Sequence numbers count the records that end a step. *)
Definition is_final (s : TxnStep) : bool := Z.land (st_flags s) TXN_STEP_FLAG_CONTINUED =? 0.
Definition finals_of (ss : list TxnStep) : Z := zlen (filter (λ s, is_final s = true) ss).

Definition batch_message (channel txn_id seq : Z) (last : bool) (g : list TxnStep) : TxnStepsMessage := {|
  tsm_channel := channel; tsm_step_count := zlen g; tsm_txn_id := txn_id; tsm_first_seq := u32 seq;
  tsm_flags := if last then TXN_STEPS_FLAG_END else 0; tsm_records := records_image g |}.

(** The steps in groups, one message each: the first sequence number counts the
    steps of the groups before; only the final group of a closed transaction is
    flagged. *)
Fixpoint batch_messages (channel txn_id seq : Z) (closed : bool) (groups : list (list TxnStep)) : list TxnStepsMessage :=
  match groups with
  | [] => []
  | [g] => [batch_message channel txn_id seq closed g]
  | g :: rest => batch_message channel txn_id seq false g :: batch_messages channel txn_id (seq + finals_of g) closed rest
  end.

Definition steps_message_zero : TxnStepsMessage :=
  {| tsm_channel := 0; tsm_step_count := 0; tsm_txn_id := 0; tsm_first_seq := 0; tsm_flags := 0; tsm_records := [] |}.

(** What the receiver of a batch reads. *)
Definition read_batch (batch : list Z) : option TxnStepsMessage :=
  match MessageHeader_Decode batch with
  | Some h =>
      if header_type h =? kMESSAGE_TYPE_TXN_STEPS then
        let '(ok, m) := TxnStepsMessage_Decode steps_message_zero (slice MESSAGE_HEADER_SIZE (Z.to_nat (header_length h)) batch) in
        if ok then Some m else None
      else None
  | None => None
  end.

Lemma finals_of_app a b : finals_of (a ++ b) = finals_of a + finals_of b.
Proof. unfold finals_of. rewrite filter_app. apply zlen_app. Qed.

Lemma finals_of_one s : finals_of [s] = if is_final s then 1 else 0.
Proof. unfold finals_of. rewrite filter_cons, filter_nil. destruct (is_final s); [by rewrite decide_True|by rewrite decide_False]. Qed.

Lemma records_image_app a b : records_image (a ++ b) = records_image a ++ records_image b.
Proof. unfold records_image. by rewrite fmap_app, concat_app. Qed.

Lemma batch_messages_snoc channel txn_id seq closed groups g :
  batch_messages channel txn_id seq closed (groups ++ [g]) =
  batch_messages channel txn_id seq false groups ++ [batch_message channel txn_id (seq + finals_of (concat groups)) closed g].
Proof.
  revert seq. induction groups as [|h groups IH]; intros seq.
  - cbn. change (finals_of []) with 0. by rewrite Z.add_0_r.
  - change (concat (h :: groups)) with (h ++ concat groups). rewrite finals_of_app, Z.add_assoc.
    destruct groups as [|h' groups]; [cbn; change (finals_of []) with 0; by rewrite Z.add_0_r|]. cbn [app batch_messages] in *. f_equal. apply IH.
Qed.

(** ** The invariant *)

Definition sound_step (s : TxnStep) : Prop := step_typed s ∧ isStepValid s = true.

(** [groups] are the steps of the batches sent, [open] those of the open batch. *)
Record sender_inv (s : TransactionSender) (groups : list (list TxnStep)) (open : list TxnStep) : Prop := {
  si_channel : is_u8 (sn_channel s);
  si_txn_id : is_u16 (sn_txn_id s);
  si_buffer : length (tw_buffer (sn_writer s)) = TRANSACTION_SENDER_BATCH_SIZE;
  si_sent : sn_sent_bytes s = u32 (zlen (records_image (concat groups ++ open)));
  si_seq : sn_next_seq s = u32 (finals_of (concat groups ++ open));
  si_sound : Forall sound_step (concat groups ++ open);
  si_open : if sn_batch_open s
            then ∃ count, writer_holds TRANSACTION_SENDER_BATCH_SIZE
                   (fixed_image (batch_message (sn_channel s) (sn_txn_id s) (finals_of (concat groups)) false []) (if sn_ended s then 1 else 0) count) open (sn_writer s)
            else open = [];
  si_fresh : sn_state s = kTRANSACTION_SENDER_BEGINNING → groups = [] ∧ open = [] ∧ sn_batch_open s = false ∧ sn_ended s = false;
}.

Lemma u32_typed z : is_u32 (u32 z).
Proof. unfold is_u32, u32. apply Z.mod_pos_bound. lia. Qed.

Lemma record_size_bound s : step_typed s → (8 ≤ TxnStep_RecordSize s ≤ 272)%nat.
Proof.
  intros (_ & _ & Hp & _). unfold is_u8 in Hp. unfold TxnStep_RecordSize, recordSize, paddedPayloadSize, TXN_STEP_RECORD_ALIGNMENT.
  pose proof (Z.div_le_mono (st_payload_length s + 8 - 1) 262 8 ltac:(lia) ltac:(lia)) as Hq. change (262 / 8) with 32 in Hq. destruct (has_flag _ _); lia.
Qed.

Lemma encodable_valid s : step_typed s → isOfferEncodable s = isStepValid s.
Proof.
  intros Hs. pose proof (record_size_bound s Hs). unfold isOfferEncodable, TxnStep_Encode, TXN_STEP_RECORD_SIZE_MAX. destruct (isStepValid s); [|done]. cbn [negb].
  rewrite (proj2 (Nat.ltb_ge _ _)) by lia. cbn [fst]. rewrite (proj2 (Nat.eqb_neq _ _)) by lia. done.
Qed.

Lemma openBatch_inv s groups :
  sender_inv s groups [] → sn_batch_open s = false → sn_ended s = false → sn_state s ≠ kTRANSACTION_SENDER_BEGINNING →
  sender_inv (openBatch s) groups [] ∧ sn_batch_open (openBatch s) = true.
Proof.
  intros Hi Hb He Hst. destruct Hi as [? ? Hbuf Hsent Hseq ? _ Hfresh]. split; [|done]. unfold openBatch.
  match goal with |- context [TxnStepsWriter_Init ?m ?b] => destruct (writer_init m b) as (w & -> & Hw) end.
  { split; [done|]. split; [done|]. split; [rewrite Hseq; apply u32_typed|done]. }
  { rewrite Hbuf. lia. }
  split; cbn; try done.
  - by rewrite (wh_length _ _ _ _ Hw).
  - exists 0. rewrite He, <- Hbuf. rewrite app_nil_r in Hseq. cbn in Hw. unfold fixed_image, batch_message in *. cbn in *. by rewrite <- Hseq.
Qed.

(** What an offer leaves as it was. *)
Definition sender_view (s : TransactionSender) :=
  (sn_state s, sn_channel s, sn_txn_id s, sn_ended s, sn_window_bytes s, sn_consumed_bytes s).

Lemma opened_inv s groups open :
  sender_inv s groups open → sn_ended s = false → sn_state s = kTRANSACTION_SENDER_RUNNING →
  let s' := if negb (sn_batch_open s) then openBatch s else s in
  sender_inv s' groups open ∧ sn_batch_open s' = true ∧ sender_view s' = sender_view s ∧ sn_sent_bytes s' = sn_sent_bytes s ∧
  sn_next_seq s' = sn_next_seq s.
Proof.
  intros Hi He Hst. destruct (sn_batch_open s) eqn:Hb; cbn [negb]; [done|]. pose proof (si_open _ _ _ Hi) as Ho. rewrite Hb in Ho. subst open.
  destruct (openBatch_inv s groups Hi Hb He) as [H1 H2]; [by rewrite Hst|done].
Qed.

Lemma appended_inv s groups open step writer :
  sender_inv s groups open → sn_batch_open s = true → sn_state s = kTRANSACTION_SENDER_RUNNING → step_typed step → isStepValid step = true →
  TxnStepsWriter_Append (sn_writer s) step = (true, writer) →
  let size := u32 (Z.of_nat (TxnStep_RecordSize step)) in
  let s' := s <| sn_writer := writer |> <| sn_sent_bytes := u32 (sn_sent_bytes s + size) |>
              <| sn_message_open := has_flag (st_flags step) TXN_STEP_FLAG_CONTINUED |> in
  sender_inv (if is_final step then s' <| sn_next_seq := u32 (sn_next_seq s + 1) |> else s') groups (open ++ [step]).
Proof.
  intros [? ? Hbuf Hsent Hseq Hsound Ho Hfresh] Hb Hst Hs Hv Happ size s'. rewrite Hb in Ho. destruct Ho as [count Hw].
  destruct (append_holds _ _ _ _ step Hw Hs) as [Ht Hw']. rewrite Happ in Ht, Hw'. cbn [fst snd] in Ht, Hw'. rewrite <- Ht in Hw'.
  assert (u32 (sn_sent_bytes s + size) = u32 (zlen (records_image (concat groups ++ open ++ [step])))) as Hbytes.
  { rewrite app_assoc, records_image_snoc, zlen_app, Hsent. subst size. unfold u32, zlen. rewrite length_record_image by done. by rewrite <- Zplus_mod. }
  assert (sn_next_seq s = u32 (finals_of (concat groups ++ open))) as Hq by done.
  assert (Forall sound_step (concat groups ++ open ++ [step])) as Hall by (rewrite app_assoc; apply Forall_app; split; [done|]; by constructor).
  assert (finals_of (concat groups ++ open ++ [step]) = finals_of (concat groups ++ open) + (if is_final step then 1 else 0)) as Hf
    by (by rewrite app_assoc, finals_of_app, finals_of_one).
  subst s'. pose proof (wh_length _ _ _ _ Hw') as Hlen.
  destruct (is_final step); (split; cbn; rewrite ?Hb; try done; [|exists count; exact Hw'|by rewrite Hst]).
  - rewrite Hf, Hq. unfold u32. by rewrite Zplus_mod_idemp_l.
  - by rewrite Hf, Z.add_0_r.
Qed.

Lemma writer_inv s groups open w' :
  sender_inv s groups open → sn_batch_open s = true →
  (∀ fixed, writer_holds TRANSACTION_SENDER_BATCH_SIZE fixed open (sn_writer s) → writer_holds TRANSACTION_SENDER_BATCH_SIZE fixed open w') →
  sender_inv (s <| sn_writer := w' |>) groups open.
Proof.
  intros [? ? Hbuf ? ? ? Ho ?] Hb Hw. rewrite Hb in Ho. destruct Ho as [count Ho]. split; cbn; try done.
  - apply (wh_length _ _ _ _ (Hw _ Ho)).
  - rewrite Hb. exists count. by apply Hw.
Qed.

Lemma Offer_inv s groups open step :
  sender_inv s groups open → step_typed step →
  let '(answer, s') := TransactionSender_Offer s step in
  sender_view s' = sender_view s ∧
  (if answer =? kTRANSACTION_OFFER_ACCEPTED
   then sender_inv s' groups (open ++ [step]) ∧ sn_batch_open s' = true ∧ sn_state s = kTRANSACTION_SENDER_RUNNING ∧ sn_ended s = false ∧
        u32 (TransactionSender_BytesInFlight s + Z.of_nat (TxnStep_RecordSize step)) ≤ sn_window_bytes s
   else sender_inv s' groups open ∧ (sn_ended s = true → s' = s)).
Proof.
  intros Hi Hs. unfold TransactionSender_Offer. destruct (Z.eqb_spec (sn_state s) kTRANSACTION_SENDER_RUNNING) as [Hst|]; [|done].
  destruct (sn_ended s) eqn:He; [done|]. rewrite encodable_valid by done. destruct (isStepValid step) eqn:Hv; [|done]. cbn [negb orb].
  pose proof (record_size_bound step Hs) as Hsz. rewrite (u32_id (Z.of_nat (TxnStep_RecordSize step))) by lia.
  destruct (Z.gtb_spec (u32 (TransactionSender_BytesInFlight s + Z.of_nat (TxnStep_RecordSize step))) (sn_window_bytes s)) as [|Hw]; [done|].
  destruct (opened_inv s groups open Hi He Hst) as (Hi' & Hb' & Hview & Hsent & Hnseq). set (s1 := if negb (sn_batch_open s) then openBatch s else s) in *.
  clearbody s1. assert (sn_state s1 = kTRANSACTION_SENDER_RUNNING) as Hst1 by (unfold sender_view in Hview; congruence).
  pose proof (appended_inv s1 groups open step) as Happ. destruct (TxnStepsWriter_Append (sn_writer s1) step) as [[] writer] eqn:Ha; cbn [negb].
  - specialize (Happ writer Hi' Hb' Hst1 Hs Hv eq_refl). cbv zeta in Happ. rewrite (u32_id (Z.of_nat (TxnStep_RecordSize step))) in Happ by lia.
    change (kTRANSACTION_OFFER_ACCEPTED =? kTRANSACTION_OFFER_ACCEPTED) with true. cbv iota.
    match goal with |- context [negb (sn_message_open ?s2)] => replace (negb (sn_message_open s2)) with (is_final step) by (symmetry; apply negb_involutive) end.
    split; [|split; [exact Happ|split; [|split; [done|split; [done|lia]]]]]; by destruct (is_final step).
  - change (kTRANSACTION_OFFER_FLUSH_NEEDED =? kTRANSACTION_OFFER_ACCEPTED) with false. cbv iota. split; [exact Hview|]. split; [|done].
    apply writer_inv; [done|done|]. intros fixed Hf. pose proof (append_holds _ _ _ _ step Hf Hs) as [Ht Hh]. rewrite Ha in Ht, Hh. cbn [fst snd] in *. by rewrite <- Ht in Hh.
Qed.

Lemma End_inv s groups open :
  sender_inv s groups open →
  let '(answer, s') := TransactionSender_End s in
  sender_inv s' groups open ∧ sn_channel s' = sn_channel s ∧ sn_txn_id s' = sn_txn_id s ∧ sn_state s' = sn_state s ∧ sn_window_bytes s' = sn_window_bytes s ∧
  sn_consumed_bytes s' = sn_consumed_bytes s ∧ sn_ended s' && negb (sn_batch_open s') = sn_ended s && negb (sn_batch_open s).
Proof.
  intros Hi. unfold TransactionSender_End. destruct (Z.eqb_spec (sn_state s) kTRANSACTION_SENDER_RUNNING) as [Hst|]; [|done].
  destruct (sn_ended s) eqn:He; [cbn; by rewrite He|]. destruct (sn_message_open s); [cbn; by rewrite He|]. cbn [negb orb].
  destruct (opened_inv s groups open Hi He Hst) as (Hi' & Hb' & Hview & Hsent & Hnseq). set (s1 := if negb (sn_batch_open s) then openBatch s else s) in *. clearbody s1.
  unfold sender_view in Hview. injection Hview as V1 V2 V3 V4 V5 V6. split; [|cbn; rewrite Hb'; split_and!; done].
  destruct Hi' as [? ? Hbuf ? ? ? Ho ?]. rewrite Hb', V4, He in Ho. destruct Ho as [count Ho]. pose proof (mark_end_holds _ _ _ _ _ _ Ho) as Hm.
  split; cbn; try done; [exact (wh_length _ _ _ _ Hm)|rewrite Hb'; exists count; exact Hm|by rewrite V1, Hst].
Qed.

(** The batch handed to the transport reads as the steps of the open batch. *)
Lemma Pending_inv s groups open :
  sender_inv s groups open → sn_batch_open s = true →
  let '(batch, s') := TransactionSender_PendingBatch s in
  sender_inv s' groups open ∧ sender_view s' = sender_view s ∧ sn_batch_open s' = true ∧ (0 < length batch)%nat ∧
  read_batch batch = Some (batch_message (sn_channel s) (sn_txn_id s) (finals_of (concat groups)) (sn_ended s) open).
Proof.
  intros Hi Hb. unfold TransactionSender_PendingBatch. rewrite Hb. cbn [negb]. pose proof Hi as [Hc Ht Hbuf Hsent Hseq Hsound Ho Hfresh]. rewrite Hb in Ho. destruct Ho as [count Ho].
  set (m := batch_message _ _ _ false []) in *. assert (steps_typed m) as Hm by (split; [done|split; [done|split; [apply u32_typed|done]]]).
  destruct (finish_holds _ m (if sn_ended s then 1 else 0) count _ _ Hm ltac:(by destruct (sn_ended s)) Ho) as (out & Hfin & Hlen & Hfit & Hhd & Hdec).
  pose proof (finish_keeps _ _ _ _ _ _ Ho) as Hk. rewrite Hfin in Hk |- *. cbn [snd] in Hk. split; [|split; [done|split; [done|split]]].
  - split; cbn; try done. rewrite Hb. eexists. exact Hk.
  - rewrite length_take. lia.
  - unfold read_batch. set (n := (12 + length (records_image open))%nat) in *.
    assert (MessageHeader_Decode (take (4 + n) out) = MessageHeader_Decode out) as ->.
    { unfold MessageHeader_Decode. rewrite length_take, Nat.min_l by lia. rewrite (proj2 (Nat.ltb_ge (4 + n) 4)), (proj2 (Nat.ltb_ge (length out) 4)) by lia.
      unfold Wire_ReadU16. rewrite !list_lookup_total_alt, !lookup_take_lt by lia. done. }
    rewrite Hhd. cbn [header_type header_length]. change (kMESSAGE_TYPE_TXN_STEPS =? kMESSAGE_TYPE_TXN_STEPS) with true. cbv iota. rewrite Nat2Z.id.
    assert (slice 4 n (take (4 + n) out) = slice 4 n out) as -> by (unfold slice; rewrite skipn_firstn_comm, take_take; f_equal; lia).
    rewrite Hdec. done.
Qed.

(** ** Histories *)

(** All steps are on their way, the end flag with them. *)
Definition closed (s : TransactionSender) : bool := sn_ended s && negb (sn_batch_open s).

Definition sender_at (groups : list (list TxnStep)) (open : list TxnStep) (w : sender_world) : Prop :=
  sender_inv (sw_sender w) groups open ∧ sw_accepted w = concat groups ++ open ∧
  read_batch <$> sw_batches w = Some <$> batch_messages (sn_channel (sw_sender w)) (sn_txn_id (sw_sender w)) 0 (closed (sw_sender w)) groups.

Definition sender_ok (w : sender_world) : Prop := ∃ groups open, sender_at groups open w.

(** One more group only while the transaction is not closed. *)
Definition groups_grow (w w' : sender_world) (groups groups' : list (list TxnStep)) : Prop :=
  (groups' = groups ∨ ∃ g, groups' = groups ++ [g] ∧ closed (sw_sender w) = false) ∧ (closed (sw_sender w) = true → closed (sw_sender w') = true).

(** A message from the agent changes neither the batches nor what the sender owes. *)
Lemma OnBeginAck_inv s groups open ack :
  is_u16 (tba_txn_id ack) → sender_inv s groups open → let s' := TransactionSender_OnBeginAck s ack in
  sender_inv s' groups open ∧ sn_channel s' = sn_channel s ∧ sn_ended s' = sn_ended s ∧ sn_batch_open s' = sn_batch_open s ∧
  (sn_txn_id s' = sn_txn_id s ∨ groups = []).
Proof.
  intros Hid [? ? ? ? ? ? Ho Hfresh]. unfold TransactionSender_OnBeginAck. destruct (Z.eqb_spec (sn_state s) kTRANSACTION_SENDER_BEGINNING) as [Hst|Hst]; cbn [negb orb].
  2: { split; [by split|]. by split_and!; auto. }
  destruct (Hfresh Hst) as (-> & -> & Hb & He). destruct (negb _); [split; [by split|]; by split_and!; auto|].
  destruct (negb _); (split; [split; cbn; try done; by rewrite Hb|]); split_and!; cbn; auto.
Qed.

Lemma told_inv s s' groups open :
  sender_inv s groups open →
  sn_state s' ≠ kTRANSACTION_SENDER_BEGINNING ∨ sn_state s' = sn_state s →
  (sn_channel s', sn_txn_id s', sn_writer s', sn_sent_bytes s', sn_next_seq s', sn_batch_open s', sn_ended s') =
  (sn_channel s, sn_txn_id s, sn_writer s, sn_sent_bytes s, sn_next_seq s, sn_batch_open s, sn_ended s) →
  sender_inv s' groups open.
Proof.
  intros [? ? ? ? ? ? Ho Hfresh] Hst [= V1 V2 V3 V4 V5 V6 V7]. split; rewrite ?V1, ?V2, ?V3, ?V4, ?V5, ?V6, ?V7; try done.
  intros H. destruct Hst as [Hst|Hst]; [done|]. rewrite Hst in H. auto.
Qed.

Lemma OnProgress_told s p groups open :
  sender_inv s groups open → sender_inv (TransactionSender_OnProgress s p) groups open ∧
  sn_ended (TransactionSender_OnProgress s p) = sn_ended s ∧ sn_batch_open (TransactionSender_OnProgress s p) = sn_batch_open s ∧
  sn_channel (TransactionSender_OnProgress s p) = sn_channel s ∧ sn_txn_id (TransactionSender_OnProgress s p) = sn_txn_id s.
Proof. intros Hi. unfold TransactionSender_OnProgress. destruct (_ || _); [done|]. split; [|done]. by apply (told_inv s); [|right|]. Qed.

Lemma OnStatus_told s p groups open :
  sender_inv s groups open → sender_inv (TransactionSender_OnStatus s p) groups open ∧
  sn_ended (TransactionSender_OnStatus s p) = sn_ended s ∧ sn_batch_open (TransactionSender_OnStatus s p) = sn_batch_open s ∧
  sn_channel (TransactionSender_OnStatus s p) = sn_channel s ∧ sn_txn_id (TransactionSender_OnStatus s p) = sn_txn_id s.
Proof. intros Hi. unfold TransactionSender_OnStatus. repeat (destruct (_ && _) || destruct (negb (_ =? sn_channel s)); try done); (split; [|done]); by apply (told_inv s); [|left|]. Qed.

Lemma sender_step_at w e groups open : sender_at groups open w → sender_event_typed e →
  ∃ groups' open', sender_at groups' open' (sender_step w e) ∧ groups_grow w (sender_step w e) groups groups'.
Proof.
  destruct w as [s batches accepted]. intros (Hi & Hacc & Hread) Ht. unfold sender_at, groups_grow, closed in *. cbn [sw_sender sw_batches sw_accepted] in *.
  destruct e as [ack|progress|status|step| |taken]; cbn [sender_step sw_sender sw_batches sw_accepted].
  - destruct (OnBeginAck_inv s groups open ack Ht Hi) as (Hi' & Hc & He & Hb & Hx). exists groups, open. rewrite Hc, He, Hb. split; [|auto]. split; [done|]. split; [done|].
    destruct Hx as [->| ->]; done.
  - destruct (OnProgress_told s progress groups open Hi) as (Hi' & He & Hb & Hc & Hx). exists groups, open. rewrite Hc, He, Hb, Hx. auto.
  - destruct (OnStatus_told s status groups open Hi) as (Hi' & He & Hb & Hc & Hx). exists groups, open. rewrite Hc, He, Hb, Hx. auto.
  - pose proof (Offer_inv s groups open step Hi Ht) as Ho. destruct (TransactionSender_Offer s step) as [answer s']. destruct Ho as [Hv Ho].
    unfold sender_view in Hv. injection Hv as V1 V2 V3 V4 V5 V6. cbn [sw_sender sw_batches sw_accepted]. destruct (answer =? _).
    + destruct Ho as (Hi' & Hb' & _ & He & _). exists groups, (open ++ [step]). rewrite V2, V3, V4, He in *. cbn [andb] in *. rewrite Hacc, app_assoc. auto.
    + destruct Ho as [Hi' Hsame]. exists groups, open. rewrite V2, V3, V4. destruct (sn_ended s) eqn:He; [rewrite (Hsame eq_refl); auto|auto].
  - pose proof (End_inv s groups open Hi) as He. destruct (TransactionSender_End s) as [answer s']. destruct He as (Hi' & Hc & Hx & _ & _ & _ & Hcl).
    exists groups, open. cbn [snd]. rewrite Hc, Hx, Hcl. auto.
  - destruct (sn_batch_open s) eqn:Hb; [|unfold TransactionSender_PendingBatch; rewrite Hb; exists groups, open; cbn; rewrite Hb; auto].
    pose proof (Pending_inv s groups open Hi Hb) as Hp. destruct (TransactionSender_PendingBatch s) as [batch s']. destruct Hp as (Hi' & Hv & Hb' & Hlen & Hbatch).
    rewrite (proj2 (Nat.eqb_neq _ _)) by lia. unfold sender_view in Hv. injection Hv as V1 V2 V3 V4 V5 V6. rewrite andb_false_r in *. destruct taken; cbn [negb orb].
    + exists (groups ++ [open]), []. cbn [sw_sender sw_batches sw_accepted]. split; [|split; [right; by eexists|done]]. split; [|split].
      * destruct Hi' as [? ? ? ? ? ? Ho Hfresh]. assert (concat (groups ++ [open]) ++ [] = concat groups ++ open) as Heq by (rewrite concat_app; cbn; by rewrite !app_nil_r).
        split; cbn; rewrite ?Heq; try done. intros Hst. destruct (Hfresh Hst) as (_ & _ & ? & _). congruence.
      * rewrite concat_app. cbn. by rewrite !app_nil_r.
      * rewrite fmap_app, Hread. cbn. rewrite V2, V3, V4, andb_true_r, batch_messages_snoc, fmap_app. cbn. by rewrite Hbatch.
    + exists groups, open. cbn [sw_sender sw_batches sw_accepted]. rewrite V2, V3, V4, Hb', andb_false_r. auto.
Qed.

Lemma sender_step_ok w e : sender_ok w → sender_event_typed e → sender_ok (sender_step w e).
Proof. intros (groups & open & Hat) Ht. destruct (sender_step_at w e groups open Hat Ht) as (groups' & open' & Hat' & _). by exists groups', open'. Qed.

Lemma sender_start_ok channel : is_u8 channel → sender_ok {| sw_sender := TransactionSender_Begin channel; sw_batches := []; sw_accepted := [] |}.
Proof. intros Hc. exists [], []. split; [|done]. by split; cbn. Qed.

(** C26. What the client's side of a transaction sends is its script.  In any
    history of acknowledgements, progress reports, statuses, offers, ends and
    sends that the transport takes or not, the batches sent, read by the
    receiver's decoder, are the accepted steps in order, cut into groups: each
    carries the channel and the transaction, the sequence number of its first
    step, and exactly its group's records; the end flag is on the last batch of
    an ended transaction and on no other; and the steps not sent yet are those
    of the open batch. *)
Theorem sender_stream_exact (channel : Z) (events : list sender_event) :
  is_u8 channel → Forall sender_event_typed events →
  let w := sender_run events channel in
  let s := sw_sender w in
  ∃ groups open, sw_accepted w = concat groups ++ open ∧ (sn_batch_open s = false → open = []) ∧
    read_batch <$> sw_batches w = Some <$> batch_messages (sn_channel s) (sn_txn_id s) 0 (closed s) groups ∧
    Forall (λ g, Forall2 step_same g (steps_of (length g) (records_image g))) groups.
Proof.
  intros Hc Hty w s. assert (sender_ok w) as (groups & open & Hi & Hacc & Hread).
  { unfold w, sender_run. revert Hty. generalize (sender_start_ok channel Hc). generalize {| sw_sender := TransactionSender_Begin channel; sw_batches := []; sw_accepted := [] |}.
    induction events as [|e events IH]; intros w0 Hw Hty; [done|]. apply Forall_cons in Hty as [He Hty]. cbn. apply IH; [by apply sender_step_ok|done]. }
  exists groups, open. split; [done|]. split; [|split; [done|]].
  - intros Hb. pose proof (si_open _ _ _ Hi) as Ho. fold s in Ho. by rewrite Hb in Ho.
  - pose proof (si_sound _ _ _ Hi) as Hs. apply Forall_app in Hs as [Hs _]. apply Forall_forall. intros g Hg. apply steps_of_image.
    apply Forall_forall. intros x Hx. apply (proj1 (Forall_forall _ _) Hs). apply list_elem_of_In, in_concat. exists g. by split; apply list_elem_of_In.
Qed.

Module SenderDemo.

Definition ack : TxnBeginAckMessage := {| tba_channel := 2; tba_status := kTXN_BEGIN_STATUS_OK; tba_txn_id := 513; tba_window_bytes := 512 |}.
Definition step (id : Z) : TxnStep := {|
  st_template_id := 3; st_flags := 0; st_payload_length := 2; st_frame_flags := 0; st_can_id := id; st_expect_value := 0;
  st_payload := [7; 8] ++ replicate 253 0 |}.

(** A flush that fails, an offer behind it, a flush that does not, the end. *)
Definition history : list sender_event :=
  [SvAck ack; SvOffer (step 5); SvFlush false; SvOffer (step 6); SvFlush true; SvOffer (step 7); SvEnd; SvFlush true].

Lemma sender_history_typed : Forall sender_event_typed history.
Proof. repeat constructor; vm_compute; congruence. Qed.

End SenderDemo.
Import SenderDemo.

Example sender_demo : omap (λ b, (λ m, (tsm_first_seq m, tsm_step_count m, tsm_flags m)) <$> read_batch b) (sw_batches (sender_run history 2)) = [(0, 2, 0); (2, 1, 1)].
Proof. vm_compute. reflexivity. Qed.

Lemma sender_stream_exact_witness :
  ∃ groups open, sw_accepted (sender_run history 2) = concat groups ++ open ∧ length (concat groups ++ open) = 3%nat ∧
    read_batch <$> sw_batches (sender_run history 2) = Some <$> batch_messages 2 513 0 true groups.
Proof.
  destruct (sender_stream_exact 2 history ltac:(vm_compute; intuition congruence) sender_history_typed) as (groups & open & Hacc & _ & Hread & _).
  exists groups, open. split; [exact Hacc|]. split; [rewrite <- Hacc; vm_compute; reflexivity|exact Hread].
Defined.
