(* ===== verification/RunnerCalm.v ===== *)
(** * What ticks and frames leave alone

    Between two batches the runner consumes records and reports it: whatever the
    bus does, the bytes pushed, the sequence number, the templates and the
    transaction stay as they were, the bytes that wait only shrink, and a
    progress report carries the bytes consumed when it is sent. *)

From S2P Require Import Prelude Wire Codec FrameMessage TxnMessage TxnStepsMessage StepRing IsotpLink IsotpSafety TransactionRunner RunnerInvariant RunnerSound RunnerTheorems.

(** ** The link touches the world through its port only *)
Section LinkWorld.
Context {W : Type} (transmit : FrameMessage → W → bool * W) (I : W → Prop).
Context (Htx : ∀ f w, I w → I (transmit f w).2).

Lemma transmitData_world l data w : I w → I (transmitData transmit l data w).2.
Proof. intros Hw. by apply Htx. Qed.

Lemma transmitFlowControl_world l status w : I w → I (transmitFlowControl transmit l status w).2.
Proof. intros Hw. by apply transmitData_world. Qed.

Ltac sent_data := match goal with |- context [transmitData transmit ?l ?d ?w] =>
  let H := fresh in pose proof (transmitData_world l d w) as H; destruct (transmitData transmit l d w) as [[] ?]; cbn [fst snd negb] in *; auto end.

Lemma send_due_world n l now w : I w → I (send_due transmit n l now w).2.
Proof.
  revert l w. induction n as [|n IH]; intros l w Hw; [done|]. cbn [send_due]. destruct (now <? _); [done|]. destruct (_ || _); [|done].
  assert (I (if is_state (il_sender l) =? kISOTP_SENDER_FIRST_FRAME then sendFirstFrame transmit l now w else sendConsecutiveFrame transmit l now w).2) as Hs.
  { destruct (_ =? _).
    - unfold sendFirstFrame. destruct (_ || _); [unfold sendSingleFrame|unfold sendSegmentedFirstFrame]; sent_data.
    - unfold sendConsecutiveFrame. sent_data. repeat (destruct (_ =? _) || destruct (negb _)); auto. }
  destruct (if is_state (il_sender l) =? kISOTP_SENDER_FIRST_FRAME then _ else _) as [[e l'] w']. destruct (e =? _); [by apply IH|done].
Qed.

Lemma Tick_world l now w : I w → I (IsotpLink_Tick transmit l now w).2.
Proof.
  intros Hw. unfold IsotpLink_Tick. assert (I (tickReceiver transmit l now w).2) as Hr.
  { unfold tickReceiver. destruct (negb _); [done|]. destruct (negb _); [done|]. destruct (_ <? _); [done|].
    pose proof (transmitFlowControl_world l FLOW_STATUS_CONTINUE w Hw) as Hf. destruct (transmitFlowControl transmit l FLOW_STATUS_CONTINUE w) as [[] w']; done. }
  destruct (tickReceiver transmit l now w) as [[e l'] w']. cbn [snd] in Hr. destruct (negb _); [done|]. unfold tickSender. destruct (_ =? _); [done|]. by apply send_due_world.
Qed.

Lemma OnFrame_world l f now w : I w → I (IsotpLink_OnFrame transmit l f now w).2.
Proof.
  intros Hw. unfold IsotpLink_OnFrame. repeat (destruct (negb _) || destruct (_ =? _); try done). unfold onFirstFrame. destruct (_ <? _); [done|].
  destruct (_ =? 0); [by apply transmitFlowControl_world|]. by destruct (_ <=? _).
Qed.

End LinkWorld.

(** ** Operations that report nothing *)

(** What a batch of steps depends on. *)
Definition credit_view (self : TransactionRunner) :=
  (rn_txn_id self, rn_pushed_bytes self, rn_next_seq self, rn_steps_ended self, rn_templates self, rn_defined_templates self, rn_window_bytes self).

Definition is_progress (o : runner_out) : bool := match o with OutProgress _ => true | _ => false end.

(** The log grows, with no progress report. *)
Definition grows (w w' : rworld) : Prop := ∃ out, w'.2 = w.2 ++ out ∧ Forall (λ o, is_progress o = false) out.

(** At most one record of [size] bytes is consumed. *)
Definition moves (size : Z) (self : TransactionRunner) (w : rworld) (self' : TransactionRunner) (w' : rworld) : Prop :=
  credit_view self' = credit_view self ∧ grows w w' ∧
  (rn_consumed_bytes self' = rn_consumed_bytes self ∨ rn_consumed_bytes self' = u32 (rn_consumed_bytes self + size)).

(** None is, and the step being run is the same. *)
Definition quiet (self : TransactionRunner) (w : rworld) (self' : TransactionRunner) (w' : rworld) : Prop :=
  credit_view self' = credit_view self ∧ grows w w' ∧ rn_consumed_bytes self' = rn_consumed_bytes self ∧
  ac_record_size (rn_current self') = ac_record_size (rn_current self).

Lemma grows_same w : grows w w.
Proof. exists []. by rewrite app_nil_r. Qed.

Lemma grows_trans w w1 w2 : grows w w1 → grows w1 w2 → grows w w2.
Proof. intros (a & Ha & Fa) (b & Hb & Fb). exists (a ++ b). rewrite Hb, Ha, app_assoc. split; [done|by apply Forall_app]. Qed.

Lemma grows_one w ws o : is_progress o = false → grows w (ws, w.2 ++ [o]).
Proof. intros Ho. exists [o]. split; [done|by constructor]. Qed.

#[local] Hint Resolve grows_same : core.

Lemma quiet_refl self w : quiet self w self w.
Proof. by split_and!. Qed.

Lemma quiet_trans self w self1 w1 self2 w2 : quiet self w self1 w1 → quiet self1 w1 self2 w2 → quiet self w self2 w2.
Proof. intros (H1 & H2 & H3 & H4) (K1 & K2 & K3 & K4). split_and!; [congruence|by eapply grows_trans|congruence|congruence]. Qed.

Lemma quiet_moves size self w self' w' : quiet self w self' w' → moves size self w self' w'.
Proof. intros (H1 & H2 & H3 & _). split_and!; auto. Qed.

Lemma quiet_then self w self1 w1 self' w' :
  quiet self w self1 w1 → moves (ac_record_size (rn_current self1)) self1 w1 self' w' → moves (ac_record_size (rn_current self)) self w self' w'.
Proof. intros (H1 & H2 & H3 & H4) (K1 & K2 & K3). rewrite H3, H4 in K3. split_and!; [congruence|by eapply grows_trans|done]. Qed.

(** Fields that neither view reads change. *)
Lemma quiet_ext self w self' :
  credit_view self' = credit_view self → rn_consumed_bytes self' = rn_consumed_bytes self → ac_record_size (rn_current self') = ac_record_size (rn_current self) →
  quiet self w self' w.
Proof. intros. by split_and!. Qed.

Lemma finish_quiet self status w : quiet self w (finish log_port self status w).1 (finish log_port self status w).2.
Proof. split; [done|]. split; [by apply grows_one|done]. Qed.

Lemma abortWith_quiet self reason seq w : quiet self w (abortWith log_port self reason seq w).1 (abortWith log_port self reason seq w).2.
Proof. apply finish_quiet. Qed.

Lemma abort_quiet self w self1 w1 reason seq :
  quiet self w self1 w1 → let '(self', w') := abortWith log_port self1 reason seq w1 in quiet self w self' w'.
Proof. intros Hq. exact (quiet_trans _ _ _ _ _ _ Hq (abortWith_quiet self1 reason seq w1)). Qed.

Lemma completeStep_moves self w :
  let '(self', w') := completeStep log_port self w in moves (ac_record_size (rn_current self)) self w self' w'.
Proof.
  split; [done|]. split; [|by right]. unfold reportMissingRoster. destruct (_ || _); [done|]. by apply grows_one.
Qed.

Lemma transmitTracked_quiet self f now w :
  let '(_, self', w') := transmitTracked log_port self f now w in quiet self w self' w' ∧ rn_current self' = rn_current self.
Proof.
  unfold transmitTracked. cbn [port_transmit log_port]. destruct (default true (head w.1)); cbn [negb]; (split; [|done]); (split; [done|]); (split; [by apply grows_one|done]).
Qed.

Lemma finishTransmit_moves self now w :
  let '(_, self', w') := finishTransmit log_port self now w in moves (ac_record_size (rn_current self)) self w self' w'.
Proof.
  unfold finishTransmit. set (self1 := self <| rn_next_transmit_us := _ |>). destruct (negb _).
  - pose proof (completeStep_moves self1 w) as Hc. by destruct (completeStep log_port self1 w).
  - apply quiet_moves. by apply quiet_ext.
Qed.

Lemma on_link_quiet self w f :
  (∀ l v, grows w v.2 → grows w (f l v).2.2) →
  let '(_, self', w') := on_link self f w in quiet self w self' w' ∧ rn_current self' = rn_current self.
Proof.
  intros Hf. unfold on_link. pose proof (Hf (rn_isotp self) (rn_last_frame_us self, w) (grows_same w)) as Hg.
  destruct (f (rn_isotp self) (rn_last_frame_us self, w)) as [[event link] [last w']]. cbn [snd] in Hg. by split; [split_and!|].
Qed.

Lemma isotp_port_grows self w f v : grows w v.2 → grows w (transmitIsotpFrame log_port self f v).2.2.
Proof.
  intros Hg. unfold transmitIsotpFrame. pose proof (transmitTracked_quiet (self <| rn_last_frame_us := v.1 |>) f (rn_last_tick_us self) v.2) as Ht.
  destruct (transmitTracked log_port _ f _ v.2) as [[ok self'] w']. destruct Ht as [(_ & Hg' & _) _]. by eapply grows_trans.
Qed.

Lemma tick_link_quiet self self0 now w :
  let '(_, self', w') := on_link self (λ link, IsotpLink_Tick (transmitIsotpFrame log_port self0) link now) w in quiet self w self' w' ∧ rn_current self' = rn_current self.
Proof. apply on_link_quiet. intros l v. apply (Tick_world _ (λ v, grows w v.2)). intros f u. apply isotp_port_grows. Qed.

Lemma transmitMessage_moves self now w :
  let '(_, self', w') := transmitMessage log_port self now w in moves (ac_record_size (rn_current self)) self w self' w'.
Proof.
  unfold transmitMessage. set (self1 := if negb _ then _ else self). assert (quiet self w self1 w) as Hq1 by (subst self1; destruct (negb _); [by apply quiet_ext|apply quiet_refl]).
  clearbody self1. pose proof (tick_link_quiet self1 self1 now w) as Hl. destruct (on_link self1 _ w) as [[event self2] w2]. destruct Hl as [Hq2 _].
  pose proof (quiet_trans _ _ _ _ _ _ Hq1 Hq2) as Hq. destruct (event =? kISOTP_EVENT_FAILED).
  { pose proof (abort_quiet self w self2 w2 (IsotpLink_FailureReason (rn_isotp self2)) (rn_completed_steps self2) Hq) as Ha.
    destruct (abortWith log_port self2 _ _ w2). by apply quiet_moves. }
  destruct (negb _); [by apply quiet_moves|]. pose proof (finishTransmit_moves self2 now w2) as Hf. destruct (finishTransmit log_port self2 now w2) as [[more self'] w'].
  by eapply quiet_then.
Qed.

Lemma transmitStep_moves self now w :
  let '(_, self', w') := transmitStep log_port self now w in moves (ac_record_size (rn_current self)) self w self' w'.
Proof.
  unfold transmitStep. destruct (_ || _); [apply quiet_moves, quiet_refl|]. destruct (isIsotpStep self); [apply transmitMessage_moves|].
  set (self1 := if _ =? 0 then _ else self). assert (quiet self w self1 w) as Hq1 by (subst self1; destruct (_ =? 0); [by apply quiet_ext|apply quiet_refl]).
  clearbody self1. match goal with |- context [transmitTracked log_port self1 ?f now w] => pose proof (transmitTracked_quiet self1 f now w) as Ht;
    destruct (transmitTracked log_port self1 f now w) as [[ok self2] w2] end.
  destruct Ht as [Hq2 _]. pose proof (quiet_trans _ _ _ _ _ _ Hq1 Hq2) as Hq. destruct ok; cbn [negb].
  - pose proof (finishTransmit_moves self2 now w2) as Hf. destruct (finishTransmit log_port self2 now w2) as [[more self'] w']. by eapply quiet_then.
  - destruct (now >=? _); [|apply quiet_moves; eapply quiet_trans; [exact Hq|by apply quiet_ext]].
    pose proof (abort_quiet self w self2 w2 kTXN_REASON_TX_FAILED (rn_completed_steps self2) Hq) as Ha. destruct (abortWith log_port self2 _ _ w2). by apply quiet_moves.
Qed.

(** ** Frames *)

Lemma recordAnswer_quiet self f w : quiet self w (recordAnswer self f) w.
Proof.
  unfold recordAnswer. destruct (negb _); [|by apply quiet_ext]. unfold recordRosterAnswer. destruct (findRosterIndex _ _); [|by apply quiet_ext].
  destruct (negb _); by apply quiet_ext.
Qed.

Lemma matchFrame_quiet self f w : let '(self', w') := matchFrame log_port self f w in quiet self w self' w'.
Proof.
  unfold matchFrame. destruct (matchesTemplatePattern _ _ _ _); [by apply quiet_ext|].
  assert (∀ reason expected got, let '(self', w') := abortOnFrame log_port self reason f expected got w in quiet self w self' w') as Ha.
  { intros. unfold abortOnFrame. eapply quiet_trans; [|apply finish_quiet]. by apply quiet_ext. }
  destruct (matchesTemplatePattern _ _ _ _); [apply Ha|]. destruct (isPatternPresent _ _); [|apply quiet_refl]. unfold matchAdvance.
  destruct (negb _); [apply quiet_refl|]. destruct (matchesPayload _ _ _); [apply recordAnswer_quiet|]. destruct (has_flag _ _); [apply Ha|apply quiet_refl].
Qed.

Lemma dispatchFrame_quiet self f w : let '(self', w') := dispatchFrame log_port self f w in quiet self w self' w'.
Proof.
  unfold dispatchFrame. destruct (isIsotpStep self); [|destruct (isWaiting self); [apply matchFrame_quiet|apply quiet_refl]]. unfold feedIsotp.
  pose proof (on_link_quiet self w (λ link, IsotpLink_OnFrame (transmitIsotpFrame log_port self) link f (rn_last_tick_us self))) as Hl.
  destruct (on_link self _ w) as [[event self2] w2]. destruct Hl as [Hq _].
  { intros l v. apply (OnFrame_world _ (λ v, grows w v.2)). intros g u. apply isotp_port_grows. }
  destruct (event =? _); [by apply abort_quiet|]. destruct (_ || _); [done|]. pose proof (matchFrame_quiet self2 (IsotpLink_MessageFrame (rn_isotp self2)) w2) as Hm.
  destruct (matchFrame log_port self2 _ w2) as [self' w']. by eapply quiet_trans.
Qed.

Lemma replay_loop_quiet n i self w : let '(self', w') := replay_loop log_port n i self w in quiet self w self' w'.
Proof.
  revert i self w. induction n as [|n IH]; intros i self w; [apply quiet_refl|]. cbn [replay_loop]. destruct (rn_active self); [|apply quiet_refl].
  pose proof (dispatchFrame_quiet self (rn_early_frames self !!! i) w) as Hd. destruct (dispatchFrame log_port self _ w) as [self1 w1].
  specialize (IH (S i) self1 w1). destruct (replay_loop log_port n (S i) self1 w1) as [self' w']. by eapply quiet_trans.
Qed.

Lemma OnFrame_quiet self index f w : let '(self', w') := TransactionRunner_OnFrame log_port self index f w in quiet self w self' w'.
Proof.
  unfold TransactionRunner_OnFrame. destruct (negb _); [apply quiet_refl|]. destruct (isBetweenSteps self); [|apply dispatchFrame_quiet].
  unfold keepEarlyFrame. destruct (_ =? _); by apply quiet_ext.
Qed.

(** ** Ticks *)

Lemma waitForSteps_quiet self now w : let '(_, self', w') := waitForSteps log_port self now w in quiet self w self' w'.
Proof.
  unfold waitForSteps. set (self1 := if _ =? 0 then _ else self). assert (quiet self w self1 w) as Hq1 by (subst self1; destruct (_ =? 0); [by apply quiet_ext|apply quiet_refl]).
  clearbody self1. destruct (now >=? _).
  { pose proof (abort_quiet self w self1 w kTXN_REASON_STARVED (rn_completed_steps self1) Hq1) as Ha. by destruct (abortWith log_port self1 _ _ w). }
  unfold sendKeepaliveIfDue. destruct (_ || _); [done|].
  match goal with |- context [transmitTracked log_port self1 ?f now w] => pose proof (transmitTracked_quiet self1 f now w) as Ht;
    destruct (transmitTracked log_port self1 f now w) as [[ok self2] w2] end.
  destruct Ht as [Hq2 _]. eapply quiet_trans; [exact Hq1|]. destruct ok; [|done]. eapply quiet_trans; [exact Hq2|]. by apply quiet_ext.
Qed.

Lemma gatherMessage_moves self w :
  let '(whole, self', w') := gatherMessage log_port self w in
  moves (ac_record_size (rn_current self)) self w self' w' ∧ ((whole : bool) = true → quiet self w self' w').
Proof.
  unfold gatherMessage. destruct (_ >? _).
  - pose proof (abort_quiet self w self w kTXN_REASON_INVALID_STEP (rn_completed_steps self) (quiet_refl self w)) as Ha. destruct (abortWith log_port self _ _ w).
    split; [by apply quiet_moves|done].
  - destruct (_ =? 0).
    + split; [apply quiet_moves|intros _]; by apply quiet_ext.
    + split; [|done]. split; [done|]. split; [done|by right].
Qed.

Definition next_record_size (self : TransactionRunner) : Z :=
  u32 (Z.of_nat (TxnStep_Decode TxnStep_zero (default [] (StepRing_Peek (rn_ring self)))).1).

Lemma loadNextStep_moves self now w :
  let '(_, self', w') := loadNextStep log_port self now w in moves (next_record_size self) self w self' w'.
Proof.
  unfold loadNextStep, next_record_size. set (record := default [] _). destruct (_ && _); [apply quiet_moves, finish_quiet|].
  destruct (_ =? 0).
  { pose proof (waitForSteps_quiet self now w) as Hw. destruct (waitForSteps log_port self now w) as [[ok self'] w']. by apply quiet_moves. }
  destruct (TxnStep_Decode TxnStep_zero record) as [size step]. cbn [fst]. set (self1 := (self <| rn_current := _ |>) <| rn_starve_deadline_us := 0 |>).
  assert (∀ self' w', moves (ac_record_size (rn_current self1)) self1 w self' w' → moves (u32 (Z.of_nat size)) self w self' w') as Hm1 by (intros ? ? (H1 & H2 & H3); by split_and!).
  clearbody self1. set (gathered := if has_flag (st_flags step) TXN_STEP_FLAG_MESSAGE then _ else _).
  assert (let '(whole, self', w') := gathered in moves (ac_record_size (rn_current self1)) self1 w self' w' ∧ ((whole : bool) = true → quiet self1 w self' w')) as Hg.
  { subst gathered. destruct (has_flag _ _); [apply gatherMessage_moves|]. split; [apply quiet_moves|intros _]; apply quiet_refl. }
  destruct gathered as [[whole self2] w2]. destruct Hg as [Hm2 Hq2]. destruct whole; cbn [negb]; [|by apply Hm1]. specialize (Hq2 eq_refl).
  set (self3 := if _ =? kTXN_TEMPLATE_TYPE_ISOTP then _ else self2).
  assert (quiet self1 w self3 w2) as Hq3 by (subst self3; destruct (_ =? _); [eapply quiet_trans; [exact Hq2|by apply quiet_ext]|done]).
  clearbody self3. destruct (has_flag _ TXN_STEP_FLAG_EXPECT_ONLY).
  - unfold replayEarlyFrames. match goal with |- context [replay_loop log_port ?n 0 ?s w2] => pose proof (replay_loop_quiet n 0 s w2) as Hr; destruct (replay_loop log_port n 0 s w2) as [self' w'] end.
    apply Hm1, quiet_moves. eapply quiet_trans; [exact Hq3|]. eapply quiet_trans; [|exact Hr]. by apply quiet_ext.
  - apply Hm1, quiet_moves. eapply quiet_trans; [exact Hq3|]. by apply quiet_ext.
Qed.

Lemma settleWait_moves self now w :
  let '(_, self', w') := settleWait log_port self now w in moves (ac_record_size (rn_current self)) self w self' w'.
Proof.
  unfold settleWait. set (ticked := if isIsotpStep self then _ else _).
  assert (let '(_, self', w') := ticked in quiet self w self' w') as Ht.
  { subst ticked. destruct (isIsotpStep self); [|apply quiet_refl]. unfold tickIsotp. pose proof (tick_link_quiet self self now w) as Hl.
    destruct (on_link self _ w) as [[event self2] w2]. destruct Hl as [Hq _]. destruct (negb _); [done|].
    pose proof (abort_quiet self w self2 w2 (IsotpLink_FailureReason (rn_isotp self2)) (rn_completed_steps self2) Hq) as Ha. by destruct (abortWith log_port self2 _ _ w2). }
  destruct ticked as [[ok self2] w2]. destruct ok; cbn [negb]; [|by apply quiet_moves].
  assert (∀ self3, quiet self w self3 w2 → let '(self', w') := completeStep log_port self3 w2 in moves (ac_record_size (rn_current self)) self w self' w') as Hc.
  { intros self3 Hq3. pose proof (completeStep_moves self3 w2) as Hm. destruct (completeStep log_port self3 w2). by eapply quiet_then. }
  destruct (ac_satisfied _). { specialize (Hc self2 Ht). by destruct (completeStep log_port self2 w2). }
  set (self3 := if ac_extend_requested _ then _ else self2).
  assert (quiet self w self3 w2) as Hq3 by (subst self3; destruct (ac_extend_requested _); [eapply quiet_trans; [exact Ht|by apply quiet_ext]|done]).
  clearbody self3. destruct (now <? _); [by apply quiet_moves|]. destruct (has_flag _ _). { specialize (Hc self3 Hq3). by destruct (completeStep log_port self3 w2). }
  pose proof (abort_quiet self w self3 w2 kTXN_REASON_TIMEOUT (rn_completed_steps self3) Hq3) as Ha. destruct (abortWith log_port self3 _ _ w2). by apply quiet_moves.
Qed.

(** ** The bytes that wait only shrink *)

(** One step of the sequence takes at most one record of the ring. *)
Lemma runOnce_moves cap self now w :
  running cap self w → let '(_, self', w') := runOnce log_port self now w in ∃ n, 0 ≤ n ≤ 272 ∧ moves n self w self' w'.
Proof.
  intros (Hb & _ & _ & _ & _ & consumed & rs & Hring & Hrec & _ & Hcur). pose proof (ring_sizes _ _ _ Hring) as Hsz. unfold runOnce.
  destruct (Z.eqb_spec (ac_phase (rn_current self)) kTRANSACTION_PHASE_IDLE) as [Hi|Hni].
  - pose proof (loadNextStep_moves self now w) as Hm. destruct (loadNextStep log_port self now w) as [[ok self'] w']. exists (next_record_size self). split; [|exact Hm].
    unfold next_record_size. pose proof (ring_peek _ _ _ Hring) as Hpk. destruct rs as [|r rest].
    { destruct Hpk as [-> _]. vm_compute. split; discriminate. }
    destruct Hpk as [_ [tl ->]]. apply Forall_cons in Hsz as [Hr _]. apply Forall_cons in Hrec as [(s & [_ Hs] & _) _]. 
    change (0 ≤ u32 (Z.of_nat (TxnStep_Decode TxnStep_zero (r ++ tl)).1) ≤ 272). rewrite (Hs TxnStep_zero tl). cbn [fst]. change (Z.of_nat (length r)) with (zlen r). rewrite u32_id; lia.
  - assert (0 ≤ ac_record_size (rn_current self) ≤ 272) as Hn.
    { destruct Hcur as [Hi|(_ & r & rest & -> & _ & -> & _)]; [done|]. apply Forall_cons in Hsz as [Hr _]. lia. }
    destruct (_ =? kTRANSACTION_PHASE_TRANSMIT).
    + pose proof (transmitStep_moves self now w) as Hm. destruct (transmitStep log_port self now w) as [[ok self'] w']. eauto.
    + pose proof (settleWait_moves self now w) as Hm. destruct (settleWait log_port self now w) as [[ok self'] w']. eauto.
Qed.

(** Bytes pushed and not consumed. *)
Definition waiting_bytes (self : TransactionRunner) : Z := u32 (rn_pushed_bytes self - rn_consumed_bytes self).

Lemma waiting_used cap self w : running cap self w → waiting_bytes self = used_bytes (rn_ring self) ∧ 0 ≤ waiting_bytes self ≤ cap.
Proof.
  intros (Hb & _ & _ & _ & _ & consumed & rs & Hring & _ & Hacc & _). unfold waiting_bytes. rewrite (in_flight_used cap _ self w consumed rs Hb Hacc Hring).
  split; [done|]. pose proof (ring_used_bound _ _ _ Hring) as [Hu _]. destruct (bs_cap _ _ _ Hb) as [<- _]. done.
Qed.

(** The bytes a consumed record takes were waiting. *)
Lemma consumed_shrinks cap p c c' w w' n :
  0 ≤ n ≤ 272 → cap + 272 < 4294967296 → c' = c ∨ c' = u32 (c + n) → w = u32 (p - c) → w' = u32 (p - c') → 0 ≤ w ≤ cap → 0 ≤ w' ≤ cap → w' ≤ w.
Proof.
  intros Hn Hov [->| ->] -> -> Hw Hw'; [lia|].
  assert (u32 (p - u32 (c + n)) = u32 (u32 (p - c) - n)) as He.
  { unfold u32. rewrite Zminus_mod_idemp_r, Zminus_mod_idemp_l. f_equal. lia. }
  rewrite He in Hw' |- *. destruct (Z.le_gt_cases n (u32 (p - c))); [rewrite u32_id; lia|]. exfalso.
  assert (u32 (u32 (p - c) - n) = u32 (p - c) - n + 4294967296) as Hx; [|lia].
  unfold u32 at 1. rewrite <- (Z.mod_add _ 1) by lia. rewrite Z.mod_small; lia.
Qed.

(** ** What a tick or a frame tells *)

(** Nothing that a batch depends on changed, no byte more waits, and a progress
    report, if any, is the last thing said and true when it is said. *)
Definition calm (self : TransactionRunner) (w : rworld) (self' : TransactionRunner) (w' : rworld) : Prop :=
  credit_view self' = credit_view self ∧ (rn_active self' = true → waiting_bytes self' ≤ waiting_bytes self) ∧
  ∃ out last, w'.2 = w.2 ++ out ++ last ∧ Forall (λ o, is_progress o = false) out ∧
    (last = [] ∨ ∃ p, last = [OutProgress p] ∧ tpr_consumed_bytes p = rn_consumed_bytes self').

Definition drains (self : TransactionRunner) (w : rworld) (self' : TransactionRunner) (w' : rworld) : Prop :=
  credit_view self' = credit_view self ∧ (rn_active self' = true → waiting_bytes self' ≤ waiting_bytes self) ∧ grows w w'.

Lemma moves_drains cap n self w self' w' : 0 ≤ n ≤ 272 → running cap self w → after cap self w self' w' → moves n self w self' w' → drains self w self' w'.
Proof.
  intros Hn Hr [_ Ha] (Hv & Hg & Hc). split; [done|]. split; [|done]. intros Hact. destruct Ha as [[Hr' _]|[Hf _]]; [|congruence].
  destruct (waiting_used _ _ _ Hr) as [_ Hw], (waiting_used _ _ _ Hr') as [_ Hw']. pose proof (bs_cap _ _ _ (running_base _ _ _ Hr)) as (_ & _ & _ & Hov).
  eapply (consumed_shrinks cap (rn_pushed_bytes self)); [exact Hn|done|exact Hc|reflexivity| |done|done].
  unfold waiting_bytes. unfold credit_view in Hv. congruence.
Qed.

Lemma tick_loop_drains cap n self now w : running cap self w → let '(self', w') := tick_loop log_port n self now w in drains self w self' w'.
Proof.
  revert self w. induction n as [|n IH]; intros self w Hr; [by split_and!|]. cbn [tick_loop]. rewrite (proj1 (proj2 Hr)).
  pose proof (runOnce_after cap self now w Hr) as Ha. pose proof (runOnce_moves cap self now w Hr) as Hm. destruct (runOnce log_port self now w) as [[more self1] w1].
  destruct Hm as (k & Hk & Hm). pose proof (moves_drains cap k self w self1 w1 Hk Hr Ha Hm) as Hd. destruct more; [|done].
  destruct Ha as [_ [[Hr1 _]|[Hf _]]].
  - specialize (IH self1 w1 Hr1). destruct (tick_loop log_port n self1 now w1) as [self' w']. destruct Hd as (V & D & G), IH as (V' & D' & G').
    split; [congruence|]. split; [|by eapply grows_trans]. intros Hact. specialize (D (proj1 (proj2 Hr1))). specialize (D' Hact). lia.
  - destruct n; cbn [tick_loop]; [done|]. rewrite Hf. done.
Qed.

Lemma Tick_calm cap self now w : running cap self w → let '(self', w') := TransactionRunner_Tick log_port self now w in calm self w self' w'.
Proof.
  intros Hr. unfold TransactionRunner_Tick. rewrite (proj1 (proj2 Hr)). cbn [negb]. set (self1 := self <| rn_last_tick_us := now |>).
  assert (running cap self1 w) as Hr1 by (by apply (running_ext cap self)). pose proof (tick_loop_drains cap TRANSACTION_STEPS_PER_TICK_MAX self1 now w Hr1) as Hd.
  destruct (tick_loop log_port TRANSACTION_STEPS_PER_TICK_MAX self1 now w) as [self2 w2]. destruct Hd as (V & D & out & Hw & Hout).
  change (credit_view self1) with (credit_view self) in V. change (waiting_bytes self1) with (waiting_bytes self) in D.
  assert (calm self w self2 w2) as Hc by (split; [done|]; split; [done|]; exists out, []; rewrite app_nil_r; auto).
  destruct (rn_active self2) eqn:Ha; [|done]. specialize (D eq_refl). unfold flushProgress.
  assert (∀ self3, credit_view self3 = credit_view self2 → rn_consumed_bytes self3 = rn_consumed_bytes self2 → calm self w self3 w2) as Hsame.
  { intros self3 H1 H2. split; [congruence|]. split; [|exists out, []; rewrite app_nil_r; auto]. intros _. unfold waiting_bytes in *. rewrite H2. unfold credit_view in H1.
    replace (rn_pushed_bytes self3) with (rn_pushed_bytes self2) by congruence. exact D. }
  assert (calm self w (reportProgress log_port self2 w2).1 (reportProgress log_port self2 w2).2) as Hrep.
  { split; [done|]. split; [done|]. eexists out, [_]. split; [cbn; by rewrite Hw, <- app_assoc|]. split; [done|]. right. eexists. split; [reflexivity|done]. }
  destruct (_ =? 0); [by apply Hsame|]. destruct (_ >=? _); [exact Hrep|]. destruct (_ =? 0); [by apply Hsame|]. destruct (_ >=? _); [exact Hrep|by apply Hsame].
Qed.

Lemma quiet_calm self w self' w' : quiet self w self' w' → calm self w self' w'.
Proof.
  intros (V & (out & Hw & Hout) & Hc & _). split; [done|]. split; [|exists out, []; rewrite app_nil_r; auto].
  intros _. unfold waiting_bytes. rewrite Hc. unfold credit_view in V. replace (rn_pushed_bytes self') with (rn_pushed_bytes self) by congruence. done.
Qed.
