(* ===== verification/SenderRunner.v ===== *)
(** * A transaction from the client to the bus

    The client's sender and the agent's runner joined by two queues: the
    batches the transport took, and the progress reports and statuses the runner
    sent.  The client offers and flushes as it likes, the agent ticks and sees
    frames as they come, and each queue delivers in order, as late as it likes. *)

From S2P Require Import Prelude Wire Codec FrameMessage TxnMessage TxnStepsMessage StepRing IsotpLink IsotpSafety TransactionRunner RunnerInvariant RunnerSound RunnerTheorems RunnerCalm TransactionSender.

(** ** The joint system *)

(** [jt_taken] batches have reached the agent, [jt_heard] messages of the
    runner's log the client. *)
Record joint := { jt_client : sender_world; jt_taken : nat; jt_runner : TransactionRunner; jt_log : rworld; jt_heard : nat }.

Inductive joint_action :=
| JOffer (step : TxnStep)
| JEnd
| JFlush (taken : bool)
| JDeliver
| JHear
| JFrame (interface_index : Z) (frame : FrameMessage)
| JTick (now_us : Z)
| JAbort (txn_id : Z)
| JCancel.

Definition on_client (j : joint) (e : sender_event) : joint :=
  {| jt_client := sender_step (jt_client j) e; jt_taken := jt_taken j; jt_runner := jt_runner j; jt_log := jt_log j; jt_heard := jt_heard j |}.

Definition on_runner (j : joint) (e : runner_event) : joint :=
  let '(self, w) := runner_step e (jt_runner j, jt_log j) in
  {| jt_client := jt_client j; jt_taken := jt_taken j; jt_runner := self; jt_log := w; jt_heard := jt_heard j |}.

Definition take_one (j : joint) : joint :=
  {| jt_client := jt_client j; jt_taken := S (jt_taken j); jt_runner := jt_runner j; jt_log := jt_log j; jt_heard := jt_heard j |}.

Definition hear_one (j : joint) : joint :=
  {| jt_client := jt_client j; jt_taken := jt_taken j; jt_runner := jt_runner j; jt_log := jt_log j; jt_heard := S (jt_heard j) |}.

Definition joint_step (j : joint) (a : joint_action) : joint :=
  match a with
  | JOffer step => on_client j (SvOffer step)
  | JEnd => on_client j SvEnd
  | JFlush taken => on_client j (SvFlush taken)
  | JDeliver =>
      match sw_batches (jt_client j) !! jt_taken j with
      | Some batch => match read_batch batch with Some m => take_one (on_runner j (EvSteps m)) | None => take_one j end
      | None => j
      end
  | JHear =>
      match (jt_log j).2 !! jt_heard j with
      | Some (OutProgress progress) => hear_one (on_client j (SvProgress progress))
      | Some (OutStatus status) => hear_one (on_client j (SvStatus status))
      | Some _ => hear_one j
      | None => j
      end
  | JFrame index frame => on_runner j (EvFrame index frame)
  | JTick now => on_runner j (EvTick now)
  | JAbort txn_id => on_runner j (EvAbort txn_id)
  | JCancel => on_runner j EvCancel
  end.

Definition joint_run (actions : list joint_action) (j : joint) : joint := foldl joint_step j actions.

(** A step as the C struct holds it. *)
Definition step_bytes (s : TxnStep) : Prop := step_typed s ∧ bytes (st_payload s).

Definition action_typed (a : joint_action) : Prop :=
  match a with JOffer step => step_bytes step | JFrame _ f => frame_typed f | _ => True end.

(** The runner acknowledges the transaction and takes its templates and roster
    before the steps; the client has the acknowledgement. *)
Definition is_setup (e : runner_event) : Prop := match e with EvRoster _ | EvTemplate _ => True | _ => False end.

Definition joint_start (st : TransactionRunner * rworld) (begin : TxnBeginMessage) (interface_index now_us : Z) (setup : list runner_event) : joint :=
  let '(ack, self) := TransactionRunner_Begin st.1 begin interface_index now_us in
  let '(self, w) := runner_run setup (self, st.2) in
  {| jt_client := {| sw_sender := TransactionSender_OnBeginAck (TransactionSender_Begin (tb_channel begin)) ack; sw_batches := []; sw_accepted := [] |};
     jt_taken := 0; jt_runner := self; jt_log := w; jt_heard := length (st.2).2 |}.

(** ** Batches at the runner *)

Definition bytes_of (ss : list TxnStep) : Z := zlen (records_image ss).

Lemma bytes_of_app a b : bytes_of (a ++ b) = bytes_of a + bytes_of b.
Proof. unfold bytes_of. by rewrite records_image_app, zlen_app. Qed.

Lemma bytes_of_nonneg ss : 0 ≤ bytes_of ss.
Proof. unfold bytes_of, zlen. lia. Qed.

Lemma bytes_of_one s : step_typed s → bytes_of [s] = Z.of_nat (TxnStep_RecordSize s).
Proof. intros Hs. unfold bytes_of, records_image, zlen. cbn [fmap list_fmap concat]. by rewrite app_nil_r, length_record_image. Qed.

Lemma image_bytes ss : Forall step_bytes ss → bytes (records_image ss).
Proof.
  unfold records_image. induction 1 as [|s ss [(? & ? & ? & ? & _) Hb] _ IH]; [constructor|]. cbn [fmap list_fmap concat]. apply Forall_app. split; [|exact IH].
  unfold record_image, padded. apply Forall_app; split; [|apply Forall_app; split; [apply bytes_le_bytes|apply Forall_app; split; [apply Forall_app; split|]]].
  - do 4 (constructor; [done|]). constructor.
  - by apply Forall_take.
  - by apply Forall_replicate.
  - destruct (has_flag _ _); [apply bytes_le_bytes|constructor].
Qed.

Lemma steps_in_image ss old : Forall sound_step ss → steps_in (length ss) old (records_image ss) = finals_of ss.
Proof.
  intros H. revert old. induction H as [|s ss [Hs Hv] _ IH]; intros old; [done|]. cbn [length steps_in records_image fmap list_fmap concat]. fold (records_image ss).
  destruct (decode_record s old (records_image ss) Hs Hv) as (s' & -> & Hsame). destruct Hsame as (_ & Hf & _).
  rewrite <- length_record_image by done. rewrite drop_app_length, IH, Hf. change (s :: ss) with ([s] ++ ss). by rewrite finals_of_app, finals_of_one.
Qed.

(** A batch that is taken adds its bytes and its steps; a refused one ends the transaction. *)
Lemma pushRecord_shape self step record size seq w :
  let '(ok, self', w') := pushRecord log_port self step record size seq w in
  if (ok : bool) then w' = w ∧ push_view self' = push_view self ∧ rn_pushed_bytes self' = u32 (rn_pushed_bytes self + u32 (Z.of_nat size))
  else rn_active self' = false ∧ (length w.2 ≤ length w'.2)%nat.
Proof.
  assert (∀ self reason, rn_active (abortWith log_port self reason seq w).1 = false ∧ (length w.2 ≤ length (abortWith log_port self reason seq w).2.2)%nat) as Ha
    by (intros; split; [done|]; cbn; rewrite length_app; lia).
  unfold pushRecord. destruct (_ || _); [apply Ha|]. destruct (negb _); [apply Ha|]. destruct (_ && _); [apply Ha|]. destruct (_ >? _); [apply Ha|].
  destruct (StepRing_Push _ _ _) as [[] ring]; [done|apply (Ha (self <| rn_ring := ring |>))].
Qed.

Lemma push_loop_shape n self old records seq w :
  records_tile n old records = true →
  let '(last, self', w') := push_loop log_port n self old records seq w in
  match last with
  | Some seq' => w' = w ∧ push_view self' = push_view self ∧ u32 (rn_pushed_bytes self') = u32 (rn_pushed_bytes self + zlen records) ∧
      u32 seq' = u32 (seq + steps_in n old records)
  | None => rn_active self' = false ∧ (length w.2 ≤ length w'.2)%nat
  end.
Proof.
  revert self old records seq w. induction n as [|n IH]; intros self old records seq w Ht; cbn [push_loop records_tile steps_in] in *.
  { apply Nat.eqb_eq, nil_length_inv in Ht as ->. change (zlen (A := Z) []) with 0. by rewrite !Z.add_0_r. }
  destruct (TxnStep_Decode old records) as [size step] eqn:Hd. destruct (Nat.eqb_spec size 0) as [|Hn]; [done|]. destruct (decode_sizes _ _ _ _ Hd Hn) as (Hle & _).
  pose proof (pushRecord_shape self step records size seq w) as Hp. destruct (pushRecord log_port self step records size seq w) as [[[] self1] w1]; cbn [negb]; [|done].
  destruct Hp as (-> & Hv & Hb). specialize (IH self1 step (drop size records) (if Z.land (st_flags step) TXN_STEP_FLAG_CONTINUED =? 0 then u32 (seq + 1) else seq) w Ht).
  destruct (push_loop log_port n self1 step (drop size records) _ w) as [[[seq'|] self'] w']; [|done]. destruct IH as (-> & Hv' & Hb' & Hs').
  split; [done|]. split; [congruence|]. split.
  - rewrite Hb', Hb, u32_add_l. assert (zlen records = Z.of_nat size + zlen (drop size records)) as -> by (unfold zlen; rewrite length_drop; lia).
    unfold u32. rewrite <- (Zplus_mod_idemp_l (rn_pushed_bytes self + _)), Zplus_mod_idemp_r, Zplus_mod_idemp_l. f_equal. lia.
  - rewrite Hs'. destruct (_ =? 0); [rewrite u32_add_l|]; f_equal; lia.
Qed.

(** The step names a defined template that takes it. *)
Definition step_fits (tpls : list TxnTemplateMessage) (defs : Z) (s : TxnStep) : bool :=
  let t := tpls.[st_template_id s] in
  defined defs (st_template_id s) && fitsTemplate s t && (negb (has_flag (st_flags s) TXN_STEP_FLAG_EXPECT_ONLY) || isWaitingMode (tt_advance_mode t)).

Lemma records_fit_image self ss old :
  Forall sound_step ss → Forall (λ s, step_fits (rn_templates self) (rn_defined_templates self) s = true) ss →
  records_fit (length ss) self old (records_image ss) = true.
Proof.
  intros H. revert old. induction H as [|s ss [Hs Hv] _ IH]; intros old Hf; [done|]. apply Forall_cons in Hf as [Hf Hr]. cbn [length records_fit records_image fmap list_fmap concat].
  fold (records_image ss). destruct (decode_record s old (records_image ss) Hs Hv) as (s' & -> & Hid & Hfl & _).
  rewrite <- length_record_image by done. rewrite drop_app_length, IH by done. rewrite andb_true_r. unfold step_fits, fitsTemplate in *. unfold isTemplateDefined. by rewrite Hid, Hfl.
Qed.

(** ** The progress reports under way *)

(** From [k] bytes known to [c] consumed, by reports that do not go back. *)
Fixpoint reports (k : Z) (outs : list runner_out) (c : Z) : Prop :=
  match outs with
  | [] => k ≤ c
  | OutProgress p :: rest => ∃ k', tpr_consumed_bytes p = u32 k' ∧ k ≤ k' ∧ reports k' rest c
  | _ :: rest => reports k rest c
  end.

Lemma reports_le k outs c : reports k outs c → k ≤ c.
Proof. revert k. induction outs as [|o outs IH]; intros k; [done|]. destruct o; cbn; try apply IH. intros (k' & _ & Hk & Hr). specialize (IH _ Hr). lia. Qed.

Lemma reports_from k k' outs c : k ≤ k' → reports k' outs c → reports k outs c.
Proof.
  revert k k'. induction outs as [|o outs IH]; intros k k' Hk; [cbn; lia|]. destruct o; cbn; try (by apply IH).
  intros (k'' & H1 & H2 & H3). exists k''. split; [done|]. split; [lia|done].
Qed.

Lemma reports_app k outs c out c' : reports k outs c → reports c out c' → reports k (outs ++ out) c'.
Proof.
  revert k. induction outs as [|o outs IH]; intros k; [by apply reports_from|]. destruct o; cbn; try apply IH. intros (k' & H1 & H2 & H3) Ho. exists k'. split; [done|]. split; [done|]. by apply IH.
Qed.

Lemma reports_silent out c c' : Forall (λ o, is_progress o = false) out → c ≤ c' → reports c out c'.
Proof. induction 1 as [|o out Ho _ IH]; [done|]. intros Hc. destruct o; cbn in *; auto; done. Qed.

(** ** The invariant *)

Section Joint.
Context (cap : Z) (tpls : list TxnTemplateMessage) (defs : Z).

(** The steps that reached the agent. *)
Definition delivered (groups : list (list TxnStep)) (j : joint) : list TxnStep := concat (take (jt_taken j) groups).

(** What the client knows to be consumed, [k], only lags behind, and what it
    accepted beyond that fits the window. *)
Definition credit (groups : list (list TxnStep)) (j : joint) : Prop :=
  ∃ k, sn_consumed_bytes (sw_sender (jt_client j)) = u32 k ∧
    reports k (drop (jt_heard j) (jt_log j).2) (bytes_of (delivered groups j) - waiting_bytes (jt_runner j)) ∧
    bytes_of (sw_accepted (jt_client j)) - k ≤ rn_window_bytes (jt_runner j).

(** The runner stands where the delivered batches left it. *)
Record in_step (groups : list (list TxnStep)) (j : joint) : Prop := {
  is_txn_id : rn_txn_id (jt_runner j) = sn_txn_id (sw_sender (jt_client j));
  is_window : sn_window_bytes (sw_sender (jt_client j)) = rn_window_bytes (jt_runner j);
  is_taken : (jt_taken j ≤ length groups)%nat;
  is_pushed : rn_pushed_bytes (jt_runner j) = u32 (bytes_of (delivered groups j));
  is_seq : rn_next_seq (jt_runner j) = u32 (finals_of (delivered groups j));
  is_ended : rn_steps_ended (jt_runner j) = true → closed (sw_sender (jt_client j)) = true ∧ jt_taken j = length groups;
  is_templates : rn_templates (jt_runner j) = tpls ∧ rn_defined_templates (jt_runner j) = defs;
}.

Definition offer_ok (s : TxnStep) : Prop := step_bytes s ∧ step_fits tpls defs s = true.

Record joint_at (groups : list (list TxnStep)) (open : list TxnStep) (j : joint) : Prop := {
  ja_client : sender_at groups open (jt_client j);
  ja_bytes : Forall offer_ok (sw_accepted (jt_client j));
  ja_runner : runner_ok cap (jt_runner j, jt_log j);
  ja_heard : (jt_heard j ≤ length (jt_log j).2)%nat;
  ja_step : rn_active (jt_runner j) = true → in_step groups j;
  ja_credit : rn_active (jt_runner j) = true → credit groups j;
}.

Lemma accepted_bytes groups open j : joint_at groups open j → bytes_of (delivered groups j) ≤ bytes_of (sw_accepted (jt_client j)).
Proof.
  intros Hj. destruct (ja_client _ _ _ Hj) as (_ & -> & _). unfold delivered. rewrite <- (take_drop (jt_taken j) groups) at 2.
  rewrite concat_app, !bytes_of_app. pose proof (bytes_of_nonneg (concat (drop (jt_taken j) groups))). pose proof (bytes_of_nonneg open). lia.
Qed.

(** *** The client acts *)

Definition client_view (s : TransactionSender) := (sn_txn_id s, sn_window_bytes s).

Lemma sender_step_view w e :
  match e with
  | SvAck _ => True
  | SvProgress p => client_view (sw_sender (sender_step w e)) = client_view (sw_sender w) ∧
      (sn_consumed_bytes (sw_sender (sender_step w e)) = sn_consumed_bytes (sw_sender w) ∨
       sn_consumed_bytes (sw_sender (sender_step w e)) = tpr_consumed_bytes p)
  | _ => client_view (sw_sender (sender_step w e)) = client_view (sw_sender w) ∧
      sn_consumed_bytes (sw_sender (sender_step w e)) = sn_consumed_bytes (sw_sender w)
  end.
Proof.
  destruct w as [s batches accepted]. destruct e as [ack|p|status|step| |taken]; cbn [sender_step sw_sender]; [done|..].
  - unfold TransactionSender_OnProgress. destruct (_ || _); auto.
  - unfold TransactionSender_OnStatus. repeat (destruct (_ && _) || destruct (negb (_ =? sn_channel s)); try done).
  - unfold TransactionSender_Offer. destruct (_ || _); [done|]. destruct (_ >? _); [done|]. set (s1 := if negb (sn_batch_open s) then openBatch s else s).
    assert (client_view s1 = client_view s ∧ sn_consumed_bytes s1 = sn_consumed_bytes s) as Hs by (subst s1; by destruct (negb _)). clearbody s1.
    destruct (TxnStepsWriter_Append (sn_writer s1) step) as [[] writer]; cbn [negb]; [|done]. destruct (negb _); done.
  - unfold TransactionSender_End. destruct (_ || _); [done|]. by destruct (negb _).
  - unfold TransactionSender_PendingBatch. destruct (negb (sn_batch_open s)); [done|]. destruct (TxnStepsWriter_Finish _) as [size batch]. by destruct (_ || _).
Qed.

(** The client's window check is the one over the unbounded counts. *)
Lemma offer_credit groups open j step :
  joint_at groups open j → rn_active (jt_runner j) = true → step_typed step →
  ∀ k, sn_consumed_bytes (sw_sender (jt_client j)) = u32 k →
    reports k (drop (jt_heard j) (jt_log j).2) (bytes_of (delivered groups j) - waiting_bytes (jt_runner j)) →
    bytes_of (sw_accepted (jt_client j)) - k ≤ rn_window_bytes (jt_runner j) →
    bytes_of (sw_accepted (sender_step (jt_client j) (SvOffer step))) - k ≤ rn_window_bytes (jt_runner j).
Proof.
  intros Hj Ha Hs k Hk Hrep Hfit. pose proof (accepted_bytes _ _ _ Hj) as Hda. destruct (ja_client _ _ _ Hj) as (Hi & Hacc & _).
  pose proof (is_window _ _ (ja_step _ _ _ Hj Ha)) as Hwin. destruct (ja_runner _ _ _ Hj) as [Hb Hrun]. specialize (Hrun Ha). cbn [fst snd] in Hb, Hrun.
  destruct (bs_cap _ _ _ Hb) as (_ & Hw & _ & Hov). apply reports_le in Hrep. destruct (waiting_used _ _ _ Hrun) as [_ Hwait].
  cbn [sender_step]. pose proof (Offer_inv (sw_sender (jt_client j)) groups open step Hi Hs) as Ho. destruct (TransactionSender_Offer (sw_sender (jt_client j)) step) as [answer s'].
  destruct Ho as [_ Ho]. cbn [sw_accepted]. destruct (answer =? _); [|done]. destruct Ho as (_ & _ & _ & _ & Hin).
  assert (TransactionSender_BytesInFlight (sw_sender (jt_client j)) = bytes_of (sw_accepted (jt_client j)) - k) as Hfl.
  { unfold TransactionSender_BytesInFlight. rewrite (si_sent _ _ _ Hi), <- Hacc, Hk. fold (bytes_of (sw_accepted (jt_client j))). unfold u32. rewrite <- Zminus_mod. apply Z.mod_small. lia. }
  pose proof (record_size_bound step Hs) as Hsz. rewrite Hfl, u32_id, Hwin in Hin by lia. rewrite bytes_of_app, bytes_of_one by done. lia.
Qed.

Lemma delivered_grow groups groups' (w w' : sender_world) j :
  groups_grow w w' groups groups' → (jt_taken j ≤ length groups)%nat → concat (take (jt_taken j) groups') = delivered groups j.
Proof. intros [[->|(g & -> & _)] _] Ht; [done|]. unfold delivered. by rewrite take_app_le. Qed.

Lemma client_in_step groups groups' open j e :
  joint_at groups open j → rn_active (jt_runner j) = true → client_view (sw_sender (sender_step (jt_client j) e)) = client_view (sw_sender (jt_client j)) →
  groups_grow (jt_client j) (sender_step (jt_client j) e) groups groups' →
  in_step groups' (on_client j e) ∧ delivered groups' (on_client j e) = delivered groups j.
Proof.
  intros Hj Ha [= V1 V2] Hg. destruct (ja_step _ _ _ Hj Ha) as [? ? Htk Hp Hq He Htp]. pose proof (delivered_grow groups groups' _ _ j Hg Htk) as Hd.
  split; [|exact Hd]. split; cbn [on_client jt_client jt_taken jt_runner]; try congruence.
  - destruct Hg as [[->|(g & -> & _)] _]; [done|]. rewrite length_app. lia.
  - unfold delivered in *. cbn [on_client jt_taken]. congruence.
  - unfold delivered in *. cbn [on_client jt_taken]. congruence.
  - intros Hend. destruct (He Hend) as [Hc Ht]. destruct Hg as [[->|(g & -> & Hf)] Hcl]; [auto|congruence].
Qed.

Lemma client_step groups open j e :
  joint_at groups open j → match e with SvOffer step => offer_ok step | SvEnd | SvFlush _ | SvStatus _ => True | _ => False end →
  ∃ groups' open', joint_at groups' open' (on_client j e).
Proof.
  intros Hj Ht. assert (sender_event_typed e) as Hty by (destruct e; try done; apply (proj1 Ht)).
  destruct (sender_step_at _ e groups open (ja_client _ _ _ Hj) Hty) as (groups' & open' & Hat & Hg). exists groups', open'.
  pose proof (sender_step_view (jt_client j) e) as Hv.
  assert (client_view (sw_sender (sender_step (jt_client j) e)) = client_view (sw_sender (jt_client j)) ∧
          sn_consumed_bytes (sw_sender (sender_step (jt_client j) e)) = sn_consumed_bytes (sw_sender (jt_client j))) as [Hv1 Hv2] by (destruct e; done).
  clear Hv. split; cbn [on_client jt_client jt_runner jt_log jt_heard]; [done| |apply Hj|apply Hj| |].
  - pose proof (ja_bytes _ _ _ Hj) as Hb. destruct e; try done; cbn [sender_step].
    + destruct (TransactionSender_Offer _ _) as [answer s']. cbn. destruct (answer =? _); [|done]. apply Forall_app. split; [done|]. by constructor.
    + destruct (TransactionSender_PendingBatch _) as [batch s']. by destruct (_ || _).
  - intros Ha. by apply (client_in_step groups groups' open).
  - intros Ha. destruct (client_in_step groups groups' open j e Hj Ha Hv1 Hg) as [_ Hd]. destruct (ja_credit _ _ _ Hj Ha) as (k & Hk & Hr & Hfit).
    exists k. rewrite Hd. cbn [on_client jt_client jt_runner jt_log jt_heard]. split; [congruence|]. split; [done|]. destruct e; try done.
    + by apply (offer_credit groups open j step Hj Ha (proj1 (proj1 Ht)) k Hk Hr).
    + cbn [sender_step]. destruct (TransactionSender_PendingBatch _) as [batch s']. by destruct (_ || _).
Qed.

(** *** The client hears the agent *)

Lemma hear_step groups open j o :
  joint_at groups open j → (jt_log j).2 !! jt_heard j = Some o →
  (∀ groups' open' j', joint_at groups' open' j' → jt_runner j' = jt_runner j → jt_log j' = jt_log j → jt_heard j' = jt_heard j → is_progress o = false → joint_at groups' open' (hear_one j')).
Proof.
  intros Hj Ho groups' open' j' [] Hr Hl Hh Hp. assert (jt_heard j < length (jt_log j).2)%nat as Hlt by (by eapply lookup_lt_Some).
  split; cbn [hear_one jt_client jt_runner jt_log jt_heard]; try done; [rewrite Hh, Hl; lia|by intros Ha; destruct (ja_step0 Ha); split|].
  intros Ha. destruct (ja_credit0 Ha) as (k & Hk & Hrep & Hfit). exists k. cbn [hear_one jt_client jt_runner jt_log jt_heard]. split; [done|]. split; [|done].
  rewrite Hl, Hh in *. rewrite (drop_S _ o) in Hrep by done. change (delivered groups' (hear_one j')) with (delivered groups' j'). by destruct o.
Qed.

Lemma hear_progress groups open j p :
  joint_at groups open j → (jt_log j).2 !! jt_heard j = Some (OutProgress p) →
  ∃ groups' open', joint_at groups' open' (hear_one (on_client j (SvProgress p))).
Proof.
  intros Hj Ho. assert (jt_heard j < length (jt_log j).2)%nat as Hlt by (by eapply lookup_lt_Some).
  destruct (sender_step_at _ (SvProgress p) groups open (ja_client _ _ _ Hj) I) as (groups' & open' & Hat & Hg). exists groups', open'.
  destruct (sender_step_view (jt_client j) (SvProgress p)) as [Hv1 Hv2].
  split; cbn [hear_one on_client jt_client jt_runner jt_log jt_heard]; [done|apply (ja_bytes _ _ _ Hj)|apply (ja_runner _ _ _ Hj)|lia| |].
  - intros Ha. destruct (client_in_step groups groups' open j _ Hj Ha Hv1 Hg) as [[] _]. by split.
  - intros Ha. destruct (client_in_step groups groups' open j _ Hj Ha Hv1 Hg) as [_ Hd]. destruct (ja_credit _ _ _ Hj Ha) as (k & Hk & Hrep & Hfit).
    rewrite (drop_S _ (OutProgress p)) in Hrep by done. cbn [reports] in Hrep. destruct Hrep as (k' & Hp & Hle & Hrep). unfold credit.
    change (delivered groups' (hear_one (on_client j (SvProgress p)))) with (delivered groups' (on_client j (SvProgress p))). rewrite Hd.
    cbn [hear_one on_client jt_client jt_runner jt_log jt_heard]. change (sw_accepted (sender_step (jt_client j) (SvProgress p))) with (sw_accepted (jt_client j)).
    destruct Hv2 as [Hv2|Hv2].
    + exists k. split; [congruence|]. split; [by apply (reports_from k k')|done].
    + exists k'. split; [congruence|]. split; [done|lia].
Qed.

(** *** The agent acts *)

Lemma running_u32 self w : running cap self w →
  u32 (rn_pushed_bytes self) = rn_pushed_bytes self ∧ u32 (rn_next_seq self) = rn_next_seq self ∧ u32 (rn_consumed_bytes self) = rn_consumed_bytes self.
Proof. intros (_ & _ & _ & _ & _ & consumed & rs & _ & _ & (H1 & H2 & _ & H4) & _). rewrite H1, H2, H4. unfold u32. by rewrite !Zmod_mod. Qed.

Lemma consumed_is self w d : running cap self w → rn_pushed_bytes self = u32 d → rn_consumed_bytes self = u32 (d - waiting_bytes self).
Proof.
  intros Hr Hp. destruct (running_u32 _ _ Hr) as (_ & _ & Hc). etrans; [symmetry; exact Hc|]. unfold waiting_bytes. rewrite Hp. unfold u32.
  rewrite Zminus_mod_idemp_r. pose proof (Z.div_mod d 4294967296 ltac:(lia)) as Hd. rewrite <- (Z_mod_plus_full (rn_consumed_bytes self) (d / 4294967296)).
  f_equal. lia.
Qed.

Lemma idle_keeps groups open j self' w' taken :
  joint_at groups open j → rn_active self' = false → runner_ok cap (self', w') → (length (jt_log j).2 ≤ length w'.2)%nat →
  joint_at groups open {| jt_client := jt_client j; jt_taken := taken; jt_runner := self'; jt_log := w'; jt_heard := jt_heard j |}.
Proof. intros [] Ha Hok Hlen. split; cbn [jt_client jt_runner jt_log jt_heard]; try done; [lia|congruence|congruence]. Qed.

Lemma calm_keeps groups open j self' w' :
  joint_at groups open j → rn_active (jt_runner j) = true → calm (jt_runner j) (jt_log j) self' w' → runner_ok cap (self', w') →
  joint_at groups open {| jt_client := jt_client j; jt_taken := jt_taken j; jt_runner := self'; jt_log := w'; jt_heard := jt_heard j |}.
Proof.
  intros Hj Ha (Hv & Hwait & out & last & Hlog & Hout & Hlast) Hok. pose proof (ja_heard _ _ _ Hj) as Hh.
  assert (length (jt_log j).2 ≤ length w'.2)%nat as Hlen by (rewrite Hlog, length_app; lia).
  destruct (rn_active self') eqn:Ha'; [|by apply idle_keeps]. specialize (Hwait eq_refl). unfold credit_view in Hv. injection Hv as V1 V2 V3 V4 V5 V6 V7.
  destruct (ja_step _ _ _ Hj Ha) as [H1 H2 H3 H4 H5 H6 [H7 H8]]. destruct (ja_credit _ _ _ Hj Ha) as (k & Hk & Hrep & Hfit).
  destruct Hj. split; cbn [jt_client jt_runner jt_log jt_heard]; try done; [lia| |]; intros _.
  - split; cbn [jt_client jt_runner jt_taken]; try congruence; [by rewrite V2|by rewrite V3|by rewrite V4|by rewrite V5, V6].
  - exists k. cbn [jt_client jt_runner jt_log jt_heard]. split; [done|]. split; [|by rewrite V7]. rewrite Hlog, drop_app_le by done.
    change (delivered groups _) with (delivered groups j). set (d := bytes_of (delivered groups j)) in *. apply (reports_app _ _ _ _ _ Hrep). apply (reports_app _ _ (d - waiting_bytes self')).
    { apply reports_silent; [done|lia]. }
    destruct Hlast as [->|(p & -> & Hp)]; [cbn; lia|]. exists (d - waiting_bytes self'). split; [|split; [lia|cbn; lia]]. rewrite Hp.
    apply (consumed_is self' w'); [by apply Hok|congruence].
Qed.

Lemma agent_step_at groups open j e :
  joint_at groups open j → event_typed e → match e with EvFrame _ _ | EvTick _ | EvAbort _ | EvCancel => True | _ => False end →
  joint_at groups open (on_runner j e).
Proof.
  intros Hj Ht He. destruct (step_ok cap e _ (ja_runner _ _ _ Hj) Ht) as [Hok _]. unfold on_runner.
  assert (∀ self' w', runner_step e (jt_runner j, jt_log j) = (self', w') → rn_active (jt_runner j) = true → calm (jt_runner j) (jt_log j) self' w' ∨ rn_active self' = false ∧ (length (jt_log j).2 ≤ length w'.2)%nat) as Hcase.
  { intros self' w' Hs Ha. pose proof (proj2 (ja_runner _ _ _ Hj) Ha) as Hrun. cbn [fst snd] in Hrun. destruct e; try done; cbn [runner_step] in Hs.
    - left. pose proof (OnFrame_quiet (jt_runner j) interface_index frame (jt_log j)) as Hq. rewrite Hs in Hq. by apply quiet_calm.
    - left. pose proof (Tick_calm cap (jt_runner j) now_us (jt_log j) Hrun) as Hc. by rewrite Hs in Hc.
    - revert Hs. unfold TransactionRunner_Abort. destruct (_ || _); intros [= <- <-]; [left; apply quiet_calm, quiet_refl|right]. split; [done|]. cbn. rewrite length_app. lia.
    - injection Hs as <- <-. right. done. }
  assert (rn_active (jt_runner j) = false → ∃ self', runner_step e (jt_runner j, jt_log j) = (self', jt_log j) ∧ rn_active self' = false) as Hidle.
  { intros Ha. pose proof (idle_step e (jt_runner j) (jt_log j) Ha) as Hs. destruct e; try done; [by eexists..|]. eexists. split; [reflexivity|done]. }
  destruct (runner_step e (jt_runner j, jt_log j)) as [self' w']. destruct (rn_active (jt_runner j)) eqn:Ha.
  - destruct (Hcase self' w' eq_refl eq_refl) as [Hc|[Hf Hl]]; [by apply calm_keeps|by apply idle_keeps].
  - destruct (Hidle eq_refl) as (self0 & [= <- ->] & Hf). by apply idle_keeps.
Qed.

(** *** A batch arrives *)

Lemma batch_messages_lookup channel txn_id seq last groups i g :
  groups !! i = Some g →
  batch_messages channel txn_id seq last groups !! i =
    Some (batch_message channel txn_id (seq + finals_of (concat (take i groups))) (last && Nat.eqb (S i) (length groups)) g).
Proof.
  revert seq i. induction groups as [|h groups IH]; intros seq i Hi; [done|]. destruct i as [|i].
  - injection Hi as ->. change (finals_of (concat (take 0 (g :: groups)))) with 0. rewrite Z.add_0_r. destruct groups; cbn; [by rewrite andb_true_r|by rewrite andb_false_r].
  - cbn in Hi. destruct groups as [|h' groups]; [done|]. change (concat (take (S i) (h :: h' :: groups))) with (h ++ concat (take i (h' :: groups))).
    rewrite finals_of_app, Z.add_assoc. apply (IH (seq + finals_of h) i Hi).
Qed.

Lemma batch_messages_length channel txn_id seq last groups : length (batch_messages channel txn_id seq last groups) = length groups.
Proof. revert seq. induction groups as [|h [|h' groups] IH]; intros seq; [done|done|]. cbn [batch_messages length]. f_equal. apply IH. Qed.

(** The batch at the head of the queue. *)
Lemma next_batch groups open j batch :
  joint_at groups open j → sw_batches (jt_client j) !! jt_taken j = Some batch →
  ∃ g, groups !! jt_taken j = Some g ∧
    read_batch batch = Some (batch_message (sn_channel (sw_sender (jt_client j))) (sn_txn_id (sw_sender (jt_client j))) (finals_of (delivered groups j))
                               (closed (sw_sender (jt_client j)) && Nat.eqb (S (jt_taken j)) (length groups)) g) ∧
    Forall sound_step g ∧ Forall offer_ok g.
Proof.
  intros Hj Hb. destruct (ja_client _ _ _ Hj) as (Hi & Hacc & Hread). set (s := sw_sender (jt_client j)) in *.
  assert ((read_batch <$> sw_batches (jt_client j)) !! jt_taken j = Some (read_batch batch)) as Hl by (by rewrite list_lookup_fmap, Hb).
  rewrite Hread in Hl. destruct (groups !! jt_taken j) as [g|] eqn:Hg.
  - exists g. split; [done|]. rewrite list_lookup_fmap, (batch_messages_lookup _ _ _ _ _ _ g) in Hl by done. injection Hl as Hl. split; [by rewrite <- Hl|].
    assert (∀ P : TxnStep → Prop, Forall P (concat groups ++ open) → Forall P g) as Hin.
    { intros P Hp. apply Forall_app in Hp as [Hp _]. apply Forall_forall. intros x Hx. apply (proj1 (Forall_forall _ _) Hp), list_elem_of_In, in_concat.
      exists g. split; apply list_elem_of_In; [by eapply list_elem_of_lookup_2|done]. }
    split; apply Hin; [apply (si_sound _ _ _ Hi)|]. rewrite <- Hacc. apply (ja_bytes _ _ _ Hj).
  - apply lookup_ge_None in Hg. rewrite list_lookup_fmap, lookup_ge_None_2 in Hl; [done|]. by rewrite batch_messages_length.
Qed.

Lemma delivered_next groups j g : groups !! jt_taken j = Some g → concat (take (S (jt_taken j)) groups) = delivered groups j ++ g.
Proof. intros Hg. rewrite (take_S_r _ _ _ Hg), concat_app. cbn. by rewrite app_nil_r. Qed.

(** The window holds the batch. *)
Lemma batch_within groups open j g :
  joint_at groups open j → rn_active (jt_runner j) = true → groups !! jt_taken j = Some g →
  waiting_bytes (jt_runner j) + bytes_of g ≤ rn_window_bytes (jt_runner j).
Proof.
  intros Hj Ha Hg. destruct (ja_credit _ _ _ Hj Ha) as (k & _ & Hrep & Hfit). apply reports_le in Hrep. destruct (ja_client _ _ _ Hj) as (_ & Hacc & _).
  rewrite Hacc in Hfit. rewrite <- (take_drop (S (jt_taken j)) groups), concat_app, (delivered_next _ _ _ Hg), !bytes_of_app in Hfit.
  pose proof (bytes_of_nonneg (concat (drop (S (jt_taken j)) groups))). pose proof (bytes_of_nonneg open). lia.
Qed.

Lemma flag_end (b : bool) : has_flag (if b then TXN_STEPS_FLAG_END else 0) TXN_STEPS_FLAG_END = b.
Proof. by destruct b. Qed.

Lemma deliver_at groups open j : joint_at groups open j → joint_at groups open (joint_step j JDeliver).
Proof.
  intros Hj. cbn [joint_step]. destruct (sw_batches (jt_client j) !! jt_taken j) as [batch|] eqn:Hb; [|done].
  destruct (next_batch groups open j batch Hj Hb) as (g & Hg & -> & Hsound & Hok). set (m := batch_message _ _ _ _ g). set (s := sw_sender (jt_client j)) in *.
  assert (event_typed (EvSteps m)) as Hty by (apply image_bytes; eapply Forall_impl; [exact Hok|]; by intros x [Hx _]).
  destruct (step_ok cap (EvSteps m) _ (ja_runner _ _ _ Hj) Hty) as [Hrok _]. unfold on_runner.
  destruct (rn_active (jt_runner j)) eqn:Ha.
  2: { pose proof (idle_step (EvSteps m) (jt_runner j) (jt_log j) Ha) as Hs. rewrite Hs in *. unfold take_one. cbn [jt_client jt_taken jt_runner jt_log jt_heard]. by apply idle_keeps. }
  pose proof (batch_within _ _ _ _ Hj Ha Hg) as Hroom. destruct (ja_step _ _ _ Hj Ha) as [I1 I2 I3 I4 I5 I6 [I7 I8]]. pose proof (lookup_lt_Some _ _ _ Hg) as Hlt.
  assert (rn_steps_ended (jt_runner j) = false) as Hne by (destruct (rn_steps_ended (jt_runner j)) eqn:E; [destruct (I6 eq_refl); lia|done]).
  revert Hrok. cbn [runner_step]. unfold TransactionRunner_PushSteps. rewrite Ha, I1, Hne, I5. fold s. cbn [m batch_message tsm_txn_id tsm_first_seq tsm_step_count tsm_records tsm_flags].
  rewrite !Z.eqb_refl. cbn [negb orb]. replace (Z.to_nat (zlen g)) with (length g) by (unfold zlen; lia).
  pose proof (push_loop_shape (length g) (jt_runner j) TxnStep_zero (records_image g) (u32 (finals_of (delivered groups j))) (jt_log j)
    (records_tile_image g TxnStep_zero ltac:(exact Hsound))) as Hshape.
  destruct (push_loop log_port (length g) (jt_runner j) TxnStep_zero (records_image g) _ (jt_log j)) as [[[seq'|] self'] w'].
  2: { intros Hrok. destruct Hshape as [Hf Hl]. unfold take_one. cbn [jt_client jt_taken jt_runner jt_log jt_heard]. by apply idle_keeps. }
  destruct Hshape as (-> & Hv & Hp & Hq). unfold push_view in Hv. injection Hv as V1 V2 V3 V4 V5 V6 V7 V8 V9 V10 V11 V12 V13. rewrite flag_end.
  set (self2 := (self' <| rn_next_seq := seq' |>) <| rn_steps_ended := _ |>). intros Hrok.
  assert (running cap self2 (jt_log j)) as Hrun by (apply (proj2 Hrok); cbn; congruence). destruct (running_u32 _ _ Hrun) as (U1 & U2 & _).
  assert (rn_pushed_bytes self2 = u32 (bytes_of (delivered groups j ++ g))) as Hpush.
  { rewrite <- U1. change (rn_pushed_bytes self2) with (rn_pushed_bytes self'). rewrite Hp, I4, u32_add_l, bytes_of_app. done. }
  assert (rn_next_seq self2 = u32 (finals_of (delivered groups j ++ g))) as Hseq.
  { rewrite <- U2. change (rn_next_seq self2) with seq'. rewrite Hq, u32_add_l, steps_in_image by done. by rewrite finals_of_app. }
  assert (waiting_bytes self2 = waiting_bytes (jt_runner j) + bytes_of g) as Hwait.
  { pose proof (ja_runner _ _ _ Hj) as [Hbase Hrun0]. cbn [fst snd] in Hbase, Hrun0. specialize (Hrun0 Ha). destruct (waiting_used _ _ _ Hrun0) as [_ Hw0]. destruct (bs_cap _ _ _ Hbase) as (_ & Hww & _ & Hov).
    pose proof (bytes_of_nonneg g). rewrite <- (u32_id (waiting_bytes (jt_runner j) + bytes_of g)) by lia. unfold waiting_bytes. rewrite Hpush, I4.
    change (rn_consumed_bytes self2) with (rn_consumed_bytes self'). rewrite V6, u32_add_l, bytes_of_app. unfold u32.
    rewrite Zminus_mod_idemp_l. rewrite <- (Zplus_mod_idemp_l (bytes_of (delivered groups j) mod 4294967296 - _)), Zminus_mod_idemp_l, Zplus_mod_idemp_l. f_equal. lia. }
  pose proof (delivered_next _ _ _ Hg) as Hd. destruct (ja_credit _ _ _ Hj Ha) as (k & Hk & Hrep & Hfit). destruct Hj.
  split; cbn [take_one jt_client jt_taken jt_runner jt_log jt_heard]; try done; intros _.
  - split; cbn [take_one jt_client jt_taken jt_runner jt_log jt_heard]; unfold delivered; cbn [jt_taken take_one]; rewrite ?Hd; try done.
    + cbn. congruence.
    + cbn. congruence.
    + intros [Hc Hn]%andb_true_iff. by apply Nat.eqb_eq in Hn.
    + split; cbn; congruence.
  - exists k. cbn [take_one jt_client jt_taken jt_runner jt_log jt_heard]. unfold delivered. cbn [jt_taken take_one]. rewrite Hd, Hwait, bytes_of_app.
    split; [done|]. split; [|cbn; lia]. replace (bytes_of (delivered groups j) + bytes_of g - (waiting_bytes (jt_runner j) + bytes_of g)) with (bytes_of (delivered groups j) - waiting_bytes (jt_runner j)) by lia. done.
Qed.

(** *** Any history *)

Definition action_ok (a : joint_action) : Prop :=
  match a with JOffer step => offer_ok step | JFrame _ f => frame_typed f | _ => True end.

Lemma joint_step_at groups open j a : joint_at groups open j → action_ok a → ∃ groups' open', joint_at groups' open' (joint_step j a).
Proof.
  intros Hj Ha. destruct a; cbn [joint_step].
  1-3: by apply (client_step groups open).
  - exists groups, open. by apply deliver_at.
  - destruct ((jt_log j).2 !! jt_heard j) as [o|] eqn:Ho; [|by exists groups, open]. pose proof (hear_step groups open j o Hj Ho) as Hh. destruct o.
    + exists groups, open. by apply Hh.
    + by apply (hear_progress groups open).
    + destruct (client_step groups open j (SvStatus status) Hj I) as (groups' & open' & Hj'). exists groups', open'. by apply Hh.
    + exists groups, open. by apply Hh.
  - exists groups, open. by apply agent_step_at.
  - exists groups, open. by apply agent_step_at.
  - exists groups, open. by apply agent_step_at.
  - exists groups, open. by apply agent_step_at.
Qed.

Lemma joint_run_at actions groups open j : joint_at groups open j → Forall action_ok actions → ∃ groups' open', joint_at groups' open' (joint_run actions j).
Proof.
  revert groups open j. induction actions as [|a actions IH]; intros groups open j Hj Hty; [by exists groups, open|]. apply Forall_cons in Hty as [Ha Hty].
  destruct (joint_step_at groups open j a Hj Ha) as (groups' & open' & Hj'). by apply (IH groups' open').
Qed.

End Joint.

(** ** The beginning *)

(** Templates and rosters touch nothing that the batches count. *)
Definition counts_view (self : TransactionRunner) :=
  (rn_txn_id self, rn_pushed_bytes self, rn_consumed_bytes self, rn_next_seq self, rn_steps_ended self, rn_window_bytes self).

Lemma setup_step e self w : is_setup e →
  grows w (runner_step e (self, w)).2 ∧ (rn_active (runner_step e (self, w)).1 = true → rn_active self = true ∧ counts_view (runner_step e (self, w)).1 = counts_view self).
Proof.
  intros He. assert (∀ self reason seq, grows w (abortWith log_port self reason seq w).2 ∧ rn_active (abortWith log_port self reason seq w).1 = false) as Habort
    by (intros; split; [by apply grows_one|done]).
  destruct e as [|roster|t| | | | |]; try done; cbn [runner_step]; [unfold TransactionRunner_DefineRoster|unfold TransactionRunner_DefineTemplate].
  - destruct (_ || _); [by split; [apply grows_same|]|]. destruct (_ || _); [|by split; [apply grows_same|]].
    destruct (Habort self kTXN_REASON_INVALID_STEP (rn_next_seq self)) as [Hg Hf]. split; [exact Hg|]. rewrite Hf. done.
  - destruct (_ || _); [by split; [apply grows_same|]|]. destruct (negb _); [|by split; [apply grows_same|]].
    destruct (Habort self kTXN_REASON_INVALID_STEP (rn_next_seq self)) as [Hg Hf]. split; [exact Hg|]. rewrite Hf. done.
Qed.

Lemma setup_run setup self w : Forall is_setup setup →
  grows w (runner_run setup (self, w)).2 ∧ (rn_active (runner_run setup (self, w)).1 = true → counts_view (runner_run setup (self, w)).1 = counts_view self).
Proof.
  revert self w. induction setup as [|e setup IH]; intros self w Hs; [by split; [apply grows_same|]|]. apply Forall_cons in Hs as [He Hs].
  destruct (setup_step e self w He) as [Hg Hv]. change (runner_run (e :: setup) (self, w)) with (runner_run setup (runner_step e (self, w))).
  destruct (runner_step e (self, w)) as [self1 w1]. cbn [fst snd] in *. destruct (IH self1 w1 Hs) as [Hg' Hv']. split; [by eapply grows_trans|].
  intros Ha. specialize (Hv' Ha). destruct (rn_active self1) eqn:Ha1; [destruct (Hv eq_refl); congruence|]. exfalso.
  assert (∀ l st, Forall is_setup l → rn_active st.1 = false → rn_active (runner_run l st).1 = false) as Hdead.
  { intros l. induction l as [|f l IHl]; intros [a b] Hl Hf; [done|]. apply Forall_cons in Hl as [Hfs Hl]. change (runner_run (f :: l) (a, b)) with (runner_run l (runner_step f (a, b))).
    apply IHl; [done|]. destruct (setup_step f a b Hfs) as [_ Hx]. destruct (rn_active (runner_step f (a, b)).1); [|done]. destruct (Hx eq_refl). cbn in Hf. congruence. }
  rewrite (Hdead setup (self1, w1) Hs Ha1) in Ha. done.
Qed.

Lemma joint_start_at cap st begin index now setup :
  runner_ok cap st → event_typed (EvBegin begin index now) → is_u8 (tb_channel begin) →
  tba_status (TransactionRunner_Begin st.1 begin index now).1 = kTXN_BEGIN_STATUS_OK →
  Forall (λ e, is_setup e ∧ event_typed e) setup →
  let j := joint_start st begin index now setup in
  joint_at cap (rn_templates (jt_runner j)) (rn_defined_templates (jt_runner j)) [] [] j.
Proof.
  destruct st as [self w]. intros Hok Hty Hch Hack Hsetup. destruct (step_ok cap (EvBegin begin index now) (self, w) Hok Hty) as [Hok1 _]. unfold joint_start. cbn [fst snd runner_step] in *.
  assert (Forall is_setup setup ∧ Forall event_typed setup) as [Hs Ht] by (split; eapply Forall_impl; try exact Hsetup; by intros e []).
  assert (∃ id, is_u16 id ∧ (TransactionRunner_Begin self begin index now).1 = {| tba_channel := tb_channel begin; tba_status := kTXN_BEGIN_STATUS_OK; tba_txn_id := id; tba_window_bytes := rn_window_bytes self |} ∧
    counts_view (TransactionRunner_Begin self begin index now).2 = (id, 0, 0, 0, false, rn_window_bytes self)) as (id & Hid & Hack1 & Hview).
  { revert Hack. unfold TransactionRunner_Begin. destruct (rn_active self); [done|]. destruct (negb _); [done|]. intros _. eexists. split; [|split; reflexivity].
    assert (∀ z, is_u16 (u16 z)) as Hu by (intros z; unfold is_u16, u16; apply Z.mod_pos_bound; lia). destruct (_ =? _); apply Hu. }
  destruct (TransactionRunner_Begin self begin index now) as [ack self1]. cbn [fst snd] in *. subst ack.
  destruct (setup_run setup self1 w Hs) as [(out & Hlog & Hout) Hv]. destruct (run_ok cap setup _ Hok1 Ht) as [Hok2 _].
  destruct (runner_run setup (self1, w)) as [self2 w2]. cbn [fst snd] in *.
  assert (TransactionSender_OnBeginAck (TransactionSender_Begin (tb_channel begin)) {| tba_channel := tb_channel begin; tba_status := kTXN_BEGIN_STATUS_OK; tba_txn_id := id; tba_window_bytes := rn_window_bytes self |} =
    TransactionSender_Begin (tb_channel begin) <| sn_begin_status := kTXN_BEGIN_STATUS_OK |> <| sn_state := kTRANSACTION_SENDER_RUNNING |> <| sn_txn_id := id |> <| sn_window_bytes := rn_window_bytes self |>) as ->.
  { unfold TransactionSender_OnBeginAck. cbn [tba_channel]. change (sn_channel (TransactionSender_Begin (tb_channel begin))) with (tb_channel begin). rewrite (Z.eqb_refl (tb_channel begin)). reflexivity. }
  split; cbn [jt_client jt_taken jt_runner jt_log jt_heard].
  - split; [|done]. by split; cbn.
  - constructor.
  - done.
  - rewrite Hlog, length_app. lia.
  - intros Ha. specialize (Hv Ha). rewrite Hview in Hv. injection Hv as V1 V2 V3 V4 V5 V6. split; cbn [jt_client jt_taken jt_runner]; [exact V1|exact (eq_sym V6)|lia|exact V2|exact V4|congruence|done].
  - intros Ha. specialize (Hv Ha). rewrite Hview in Hv. injection Hv as V1 V2 V3 V4 V5 V6. exists 0. cbn [jt_client jt_taken jt_runner jt_log jt_heard].
    assert (waiting_bytes self2 = 0) as -> by (unfold waiting_bytes; by rewrite V2, V3). split; [done|]. split.
    + rewrite Hlog, drop_app_length. apply reports_silent; [done|]. change (0 ≤ 0 - 0). lia.
    + change (0 - 0 ≤ rn_window_bytes self2). destruct Hok2 as [Hb _]. destruct (bs_cap _ _ _ Hb) as (_ & H1 & H2 & _). cbn in H1. lia.
Qed.

(** C8. The agent never refuses what the client's sender sends.  Join the
    sender of a client and the runner of an agent, whatever the runner did
    before: it acknowledges the transaction and takes its templates; then, in
    any order, the client offers encodable steps that fit those templates, flushes, ends
    and hears from the agent, the batches arrive, the bus delivers frames and
    the agent ticks, with both queues as slow as they like.  While the
    transaction runs, the next batch to arrive is taken whole: nothing is
    reported, the transaction goes on, the bytes that wait stay within the
    window, and the runner has exactly a prefix of the steps the client
    accepted, by bytes and by sequence number. *)
Theorem sender_never_refused (ring_storage : list Z) (cap : Z) (answers : list bool) (events : list runner_event)
    (begin : TxnBeginMessage) (interface_index now_us : Z) (setup : list runner_event) (actions : list joint_action) :
  length ring_storage = Z.to_nat cap → 272 ≤ cap → cap + 272 < 4294967296 → Forall event_typed events →
  let st := runner_run events (runner_start ring_storage cap answers) in
  event_typed (EvBegin begin interface_index now_us) → is_u8 (tb_channel begin) →
  tba_status (TransactionRunner_Begin st.1 begin interface_index now_us).1 = kTXN_BEGIN_STATUS_OK →
  Forall (λ e, is_setup e ∧ event_typed e) setup →
  let j0 := joint_start st begin interface_index now_us setup in
  Forall (action_ok (rn_templates (jt_runner j0)) (rn_defined_templates (jt_runner j0))) actions →
  let j := joint_run actions j0 in
  rn_active (jt_runner j) = true →
  let j' := joint_step j JDeliver in
  jt_log j' = jt_log j ∧ rn_active (jt_runner j') = true ∧ waiting_bytes (jt_runner j') ≤ rn_window_bytes (jt_runner j') ∧
  ∃ n, let got := take n (sw_accepted (jt_client j)) in
    rn_pushed_bytes (jt_runner j') = u32 (bytes_of got) ∧ rn_next_seq (jt_runner j') = u32 (finals_of got).
Proof.
  intros H1 H2 H3 Hty st Hbt Hch Hack Hsetup j0 Hact j Ha j'.
  destruct (run_ok cap events _ (start_ok ring_storage cap answers H1 H2 H3) Hty) as [Hok _]. fold st in Hok.
  pose proof (joint_start_at cap st begin interface_index now_us setup Hok Hbt Hch Hack Hsetup) as Hj0. fold j0 in Hj0. cbv zeta in Hj0.
  destruct (joint_run_at cap _ _ actions [] [] j0 Hj0 Hact) as (groups & open & Hj). fold j in Hj. set (tpls := rn_templates (jt_runner j0)) in *. set (defs := rn_defined_templates (jt_runner j0)) in *.
  pose proof (deliver_at cap tpls defs groups open j Hj) as Hj'. fold j' in Hj'.
  assert (jt_log j' = jt_log j ∧ rn_active (jt_runner j') = true ∧ jt_client j' = jt_client j ∧ rn_window_bytes (jt_runner j') = rn_window_bytes (jt_runner j)) as (Hl & Ha' & Hc & Hw).
  { subst j'. cbn [joint_step]. destruct (sw_batches (jt_client j) !! jt_taken j) as [batch|] eqn:Hb; [|done].
    destruct (next_batch cap tpls defs groups open j batch Hj Hb) as (g & Hg & -> & Hsound & Hfit). set (m := batch_message _ _ _ _ g).
    destruct (ja_step _ _ _ _ _ _ Hj Ha) as [I1 I2 I3 I4 I5 I6 [I7 I8]]. pose proof (lookup_lt_Some _ _ _ Hg) as Hlt.
    assert (rn_steps_ended (jt_runner j) = false) as Hne by (destruct (rn_steps_ended (jt_runner j)) eqn:E; [destruct (I6 eq_refl); lia|done]).
    pose proof (proj2 (ja_runner _ _ _ _ _ _ Hj) Ha) as Hrun. cbn [fst snd] in Hrun. pose proof Hrun as (_ & _ & _ & _ & _ & consumed & rs & Hring & _).
    assert (bytes (records_image g)) as Hby by (apply image_bytes; eapply Forall_impl; [exact Hfit|]; by intros x [Hx _]).
    assert (Forall (λ s, step_fits (rn_templates (jt_runner j)) (rn_defined_templates (jt_runner j)) s = true) g) as Hf
      by (rewrite I7, I8; eapply Forall_impl; [exact Hfit|]; by intros x [_ Hx]).
    pose proof (batch_within _ _ _ _ _ _ _ Hj Ha Hg) as Hroom. rewrite (proj1 (waiting_used _ _ _ Hrun)) in Hroom.
    destruct (push_loop_credit cap (length g) (rn_next_seq (jt_runner j)) (jt_runner j) (jt_log j) TxnStep_zero (records_image g) rs Hrun Hring Hby
      (records_tile_image g _ ltac:(exact Hsound)) (records_fit_image _ g _ Hsound Hf) Hroom) as (self' & Hloop & Hv & _).
    unfold on_runner. cbn [runner_step]. unfold TransactionRunner_PushSteps. rewrite Ha, I1, Hne, I5. cbn [m batch_message tsm_txn_id tsm_first_seq tsm_step_count tsm_records tsm_flags].
    rewrite !Z.eqb_refl. cbn [negb orb]. replace (Z.to_nat (zlen g)) with (length g) by (unfold zlen; lia). rewrite <- I5, Hloop.
    unfold push_view in Hv. injection Hv as V1 V2 V3 V4 V5 V6 V7 V8 V9 V10 V11 V12 V13. cbn. split_and!; congruence. }
  split; [exact Hl|]. split; [exact Ha'|]. pose proof (proj2 (ja_runner _ _ _ _ _ _ Hj') Ha') as Hrun'. cbn [fst snd] in Hrun'. split.
  - destruct (ja_credit _ _ _ _ _ _ Hj' Ha') as (k & _ & Hrep & Hfit'). apply reports_le in Hrep. pose proof (accepted_bytes _ _ _ _ _ _ Hj') as Hacc. lia.
  - destruct (ja_step _ _ _ _ _ _ Hj' Ha') as [_ _ _ I4 I5 _ _]. destruct (ja_client _ _ _ _ _ _ Hj') as (_ & Hacc & _). rewrite Hc in Hacc.
    exists (length (delivered groups j')). cbv zeta. assert (take (length (delivered groups j')) (sw_accepted (jt_client j)) = delivered groups j') as ->; [|done].
    rewrite Hacc. unfold delivered. rewrite <- (take_drop (jt_taken j') groups) at 2. rewrite concat_app, <- app_assoc. by rewrite take_app_length.
Qed.

Module JointDemo.

Definition step (id : Z) : TxnStep := {|
  st_template_id := 2; st_flags := 0; st_payload_length := 2; st_frame_flags := 0; st_can_id := id; st_expect_value := 0;
  st_payload := [7; 8] ++ replicate 253 0 |}.

Definition start : joint := joint_start (runner_start RunnerDemo.store 1024 []) RunnerDemo.begin 1 1000 [EvTemplate (RunnerDemo.send_only 1)].

(** The second batch is under way when the agent has run the first. *)
Definition actions : list joint_action :=
  [JOffer (step 5); JFlush true; JOffer (step 6); JDeliver; JFlush false; JTick 2000; JOffer (step 7); JTick 40000; JHear; JHear; JEnd; JFlush true].

Lemma actions_ok : Forall (action_ok (rn_templates (jt_runner start)) (rn_defined_templates (jt_runner start))) actions.
Proof.
  assert (∀ id, is_u32 id → offer_ok (rn_templates (jt_runner start)) (rn_defined_templates (jt_runner start)) (step id)) as Hstep.
  { intros id Hid. split; [|vm_compute; reflexivity]. split; [repeat split; try done; apply Hid|]. repeat constructor; cbn; lia. }
  unfold actions. repeat (apply Forall_cons; split; [first [apply Hstep; split; reflexivity || lia|exact I]|]). constructor.
Qed.

End JointDemo.

Lemma sender_never_refused_witness :
  let j := joint_run JointDemo.actions JointDemo.start in
  let j' := joint_step j JDeliver in
  jt_taken j = 1%nat ∧ sn_consumed_bytes (sw_sender (jt_client j)) = 16 ∧ jt_log j' = jt_log j ∧ rn_active (jt_runner j') = true ∧
  rn_next_seq (jt_runner j') = 3 ∧ rn_steps_ended (jt_runner j') = true.
Proof.
  intros j j'.
  destruct (sender_never_refused RunnerDemo.store 1024 [] [] RunnerDemo.begin 1 1000 [EvTemplate (RunnerDemo.send_only 1)] JointDemo.actions
    ltac:(vm_compute; reflexivity) ltac:(lia) ltac:(lia) ltac:(constructor) ltac:(vm_compute; discriminate) ltac:(vm_compute; split; [discriminate|reflexivity])
    ltac:(vm_compute; reflexivity) ltac:(constructor; [split; [exact I|vm_compute; split; [discriminate|reflexivity]]|constructor]) JointDemo.actions_ok
    ltac:(vm_compute; reflexivity)) as (Hl & Ha & _).
  split; [vm_compute; reflexivity|]. split; [vm_compute; reflexivity|]. split; [exact Hl|]. split; [exact Ha|]. split; vm_compute; reflexivity.
Defined.
