(* ===== verification/Client.v ===== *)
(** * The client core (src/client/client.c)

    A state machine over one connection to the hub: it lists interfaces, opens
    one by identifier or by name, sends and receives its frames at the rate the
    hub advertises, and drives one transaction.  The transport and the callbacks
    are parameters over a world of any type, and do not call back into the core
    while it runs.  A message passed by pointer gets its channel and transaction
    from the client before it is encoded.  The second part shows what the client
    promises. *)

From Stdlib Require Import String.
From S2P Require Import Prelude CString Wire Codec HelloMessage RegisterMessage OpenMessage SubscribeMessage ListMessage FrameMessage TxnMessage TxnStepsMessage IfconfigMessage ControlPlane InterfaceName EgressShaper StepRing.
From S2P Require Import TransactionRunner TransactionSender.

Definition CLIENT_ERROR_MALFORMED_REPLY : Z := 65534.
Definition CLIENT_ERROR_INTERFACE_NOT_FOUND : Z := 65535.
Definition CLIENT_PACE_BURST_BITS : Z := 8192.
Definition FRAME_PACE_OVERHEAD_BITS : Z := 64.
Definition FRAME_PACE_BITS_PER_BYTE : Z := 10.
Notation INTERFACE_NAME_NAMESPACED_SIZE := 145%nat (only parsing).
Notation CONTROL_MESSAGE_MAX_WIRE_SIZE := 424%nat (only parsing).
Notation SUBSCRIBE_WIRE_SIZE := 136%nat (only parsing).
Notation FRAME_WIRE_SIZE := 84%nat (only parsing).

Inductive TCLIENT_STATE := kCLIENT_DISCONNECTED | kCLIENT_READY | kCLIENT_LISTING | kCLIENT_RESOLVING | kCLIENT_OPENING | kCLIENT_OPEN.
#[export] Instance TCLIENT_STATE_eq_dec : EqDecision TCLIENT_STATE.
Proof. solve_decision. Defined.

Inductive TCLIENT_SEND_RESULT := kCLIENT_SEND_SENT | kCLIENT_SEND_RATE_LIMITED | kCLIENT_SEND_FAILED | kCLIENT_SEND_LEASED.
#[export] Instance TCLIENT_SEND_RESULT_eq_dec : EqDecision TCLIENT_SEND_RESULT.
Proof. solve_decision. Defined.

Inductive TCLIENT_PENDING := kCLIENT_PENDING_NONE | kCLIENT_PENDING_LIST | kCLIENT_PENDING_OPEN_ID | kCLIENT_PENDING_OPEN_NAME.

(** ** Ports *)

Record HubPort (W : Type) := {
  hub_send_control : list Z → W → bool * W;
  hub_send_frame : Z → list Z → W → bool * W;
  hub_set_channel_mode : Z → bool → W → W;
}.
Arguments hub_send_control {W} _ _ _.
Arguments hub_send_frame {W} _ _ _ _.
Arguments hub_set_channel_mode {W} _ _ _ _.

(** The last two callbacks may be NULL. *)
Record ClientEvents (W : Type) := {
  on_list_reply : ListReplyMessage → W → W;
  on_open_result : Z → Z → Z → W → W;
  on_frame : FrameMessage → W → W;
  on_error : Z → list Z → W → W;
  on_disconnected : W → W;
  on_configure_reply : option (ConfigureReplyMessage → W → W);
  on_roster_report : option (TxnRosterReportMessage → W → W);
}.
Arguments on_list_reply {W} _ _ _.
Arguments on_open_result {W} _ _ _ _ _.
Arguments on_frame {W} _ _ _.
Arguments on_error {W} _ _ _ _.
Arguments on_disconnected {W} _ _.
Arguments on_configure_reply {W} _.
Arguments on_roster_report {W} _.

(** ** State *)

Record Client := {
  cli_state : TCLIENT_STATE; cli_pending : TCLIENT_PENDING; cli_connected : bool; cli_list_offset : Z; cli_interface_name : list Z;
  cli_interface_id : Z; cli_open_flags : Z; cli_channel : Z; cli_filter_count : Z; cli_filters : list CanFilter; cli_name : list Z;
  cli_configure_pending : bool; cli_configure_request : ConfigureMessage; cli_shaper : EgressShaper; cli_frames_paced_dropped : Z;
  cli_interface_leased : bool; cli_transaction : TransactionSender;
}.

#[export] Instance Client_settable : Settable Client := λ c, {|
  cli_state := cli_state c; cli_pending := cli_pending c; cli_connected := cli_connected c; cli_list_offset := cli_list_offset c;
  cli_interface_name := cli_interface_name c; cli_interface_id := cli_interface_id c; cli_open_flags := cli_open_flags c;
  cli_channel := cli_channel c; cli_filter_count := cli_filter_count c; cli_filters := cli_filters c; cli_name := cli_name c;
  cli_configure_pending := cli_configure_pending c; cli_configure_request := cli_configure_request c; cli_shaper := cli_shaper c;
  cli_frames_paced_dropped := cli_frames_paced_dropped c; cli_interface_leased := cli_interface_leased c;
  cli_transaction := cli_transaction c |}.

Definition Client_Init : Client := {|
  cli_state := kCLIENT_DISCONNECTED; cli_pending := kCLIENT_PENDING_NONE; cli_connected := false; cli_list_offset := 0;
  cli_interface_name := replicate INTERFACE_NAME_NAMESPACED_SIZE 0; cli_interface_id := 0; cli_open_flags := 0; cli_channel := 0;
  cli_filter_count := 0; cli_filters := replicate SUBSCRIBE_FILTERS_MAX CanFilter_zero; cli_name := replicate HELLO_NAME_SIZE 0;
  cli_configure_pending := false; cli_configure_request := configure0; cli_shaper := EgressShaper_zero; cli_frames_paced_dropped := 0;
  cli_interface_leased := false; cli_transaction := TransactionSender_Reset |}.

Definition Client_SetName (self : Client) (name : option (list Z)) : Client := self <| cli_name := BoundedString_Copy (cli_name self) name |>.
Definition Client_FramesPacedDropped (self : Client) : Z := cli_frames_paced_dropped self.
Definition Client_State (self : Client) : TCLIENT_STATE := cli_state self.
Definition Client_Channel (self : Client) : Z := cli_channel self.
Definition Client_InterfaceLeased (self : Client) : bool := cli_interface_leased self.
Definition Client_Transaction (self : Client) : TransactionSender := cli_transaction self.

Definition isTransactionRunning (self : Client) : bool := sn_state (cli_transaction self) =? kTRANSACTION_SENDER_RUNNING.

Definition frameWireBits (frame : FrameMessage) : Z := u64 (FRAME_PACE_OVERHEAD_BITS + u64 (FRAME_PACE_BITS_PER_BYTE * frame_payload_length frame)).

Section Client.
Context {W : Type} (hub : HubPort W) (events : ClientEvents W).

(** ** Sending *)

(** [if (encoded_size > 0) send_control(...)] *)
Definition sendEncoded (message : nat * list Z) (w : W) : W :=
  if Nat.eqb message.1 0 then w else (hub_send_control hub (take message.1 message.2) w).2.

Definition control_buffer : list Z := replicate CONTROL_MESSAGE_MAX_WIRE_SIZE 0.

Definition sendHello (self : Client) (w : W) : W :=
  sendEncoded (HelloMessage_Build kPEER_ROLE_CLIENT (Some (cli_name self)) HELLO_CAP_RELIABLE_CHANNELS (replicate HELLO_NAME_SIZE 0) control_buffer) w.

Definition sendList (self : Client) (offset : Z) (w : W) : W := sendEncoded (ListMessage_Encode {| list_offset := offset |} control_buffer) w.

Definition sendOpen (self : Client) (w : W) : W :=
  sendEncoded (OpenMessage_Encode {| open_interface_id := cli_interface_id self; open_flags := cli_open_flags self |} control_buffer) w.

Definition sendSubscribe (self : Client) (w : W) : W :=
  let subscribe := {| sub_channel := cli_channel self; sub_filter_count := cli_filter_count self;
                      sub_filters := take (Z.to_nat (cli_filter_count self)) (cli_filters self) |} in
  sendEncoded (SubscribeMessage_Encode subscribe (replicate SUBSCRIBE_WIRE_SIZE 0)) w.

Definition sendConfigure (self : Client) (w : W) : W := sendEncoded (ConfigureMessage_Encode (cli_configure_request self) control_buffer) w.

Definition emitLocalError (self : Client) (code : Z) (detail : list Z) (w : W) : Client * W :=
  let self := self <| cli_state := kCLIENT_READY |> in (self, on_error events code detail w).

(** ** Listing and opening *)

Definition startList (self : Client) (offset : Z) (w : W) : Client * W :=
  let self := self <| cli_state := kCLIENT_LISTING |> <| cli_list_offset := offset |> in (self, sendList self offset w).

Definition startOpenById (self : Client) (w : W) : Client * W :=
  let self := self <| cli_state := kCLIENT_OPENING |> in (self, sendOpen self w).

Definition startOpenByName (self : Client) (w : W) : Client * W :=
  let self := self <| cli_state := kCLIENT_RESOLVING |> <| cli_list_offset := 0 |> in (self, sendList self 0 w).

Definition runPending (self : Client) (w : W) : Client * W :=
  let pending := cli_pending self in
  let self := self <| cli_pending := kCLIENT_PENDING_NONE |> in
  let '(self, w) :=
    if cli_configure_pending self then let self := self <| cli_configure_pending := false |> in (self, sendConfigure self w) else (self, w) in
  match pending with
  | kCLIENT_PENDING_LIST => startList self (cli_list_offset self) w
  | kCLIENT_PENDING_OPEN_ID => startOpenById self w
  | kCLIENT_PENDING_OPEN_NAME => startOpenByName self w
  | kCLIENT_PENDING_NONE => (self, w)
  end.

Definition Client_RequestList (self : Client) (offset : Z) (w : W) : Client * W :=
  if negb (cli_connected self) then (self <| cli_list_offset := offset |> <| cli_pending := kCLIENT_PENDING_LIST |>, w)
  else startList self offset w.

Definition Client_OpenById (self : Client) (interface_id flags : Z) (w : W) : Client * W :=
  let self := self <| cli_interface_id := interface_id |> <| cli_open_flags := flags |> in
  if negb (cli_connected self) then (self <| cli_pending := kCLIENT_PENDING_OPEN_ID |>, w) else startOpenById self w.

Definition Client_OpenByName (self : Client) (interface_name : list Z) (flags : Z) (w : W) : Client * W :=
  let self := self <| cli_interface_name := BoundedString_Copy (cli_interface_name self) (Some interface_name) |> <| cli_open_flags := flags |> in
  if negb (cli_connected self) then (self <| cli_pending := kCLIENT_PENDING_OPEN_NAME |>, w) else startOpenByName self w.

Definition Client_Configure (self : Client) (interface_name : list Z) (op : Z) (settings : InterfaceSettings) (w : W) : bool * Client * W :=
  let '(split, (agent, interface)) := InterfaceName_Split interface_name (cf_agent_name configure0) (cf_interface_name configure0) in
  if negb split then (false, self <| cli_configure_request := configure0 |>, w)
  else
    let self := self <| cli_configure_request := {| cf_agent_name := agent; cf_interface_name := interface; cf_op := op; cf_settings := settings |} |> in
    if negb (cli_connected self) then (true, self <| cli_configure_pending := true |>, w) else (true, self, sendConfigure self w).

(** [filters] holds at least [count] filters. *)
Definition Client_SetFilters (self : Client) (filters : list CanFilter) (count : Z) (w : W) : Client * W :=
  if count >? 16 then (self, w)
  else
    let self := self <| cli_filters := list_inserts 0 (take (Z.to_nat count) filters) (cli_filters self) |> <| cli_filter_count := count |> in
    (self, if bool_decide (cli_state self = kCLIENT_OPEN) then sendSubscribe self w else w).

(** ** Frames *)

Definition Client_SendFrame (self : Client) (frame : FrameMessage) (now_us : Z) (w : W) : TCLIENT_SEND_RESULT * Client * W :=
  if bool_decide (cli_state self ≠ kCLIENT_OPEN) then (kCLIENT_SEND_FAILED, self, w)
  else if cli_interface_leased self then (kCLIENT_SEND_LEASED, self, w)
  else
    let frame := {| frame_can_id := frame_can_id frame; frame_timestamp_us := frame_timestamp_us frame; frame_channel := cli_channel self;
                    frame_payload_length := frame_payload_length frame; frame_flags := frame_flags frame;
                    frame_route_flags := frame_route_flags frame; frame_payload := frame_payload frame |} in
    let '(granted, shaper) := EgressShaper_TryConsume (EgressShaper_Refill (cli_shaper self) now_us) (frameWireBits frame) in
    let self := self <| cli_shaper := shaper |> in
    if negb granted then (kCLIENT_SEND_RATE_LIMITED, self <| cli_frames_paced_dropped := u64 (cli_frames_paced_dropped self + 1) |>, w)
    else
      let '(encoded_size, encoded) := FrameMessage_Encode frame (replicate FRAME_WIRE_SIZE 0) in
      if Nat.eqb encoded_size 0 then (kCLIENT_SEND_FAILED, self, w)
      else
        let '(taken, w) := hub_send_frame hub (frame_channel frame) (take encoded_size encoded) w in
        (if negb taken then kCLIENT_SEND_FAILED else kCLIENT_SEND_SENT, self, w).

(** [while (FrameStream_Next(&stream, &frame))] *)
Definition transportOnFrame (self : Client) (data : list Z) (w : W) : W :=
  if bool_decide (cli_state self ≠ kCLIENT_OPEN) then w
  else foldl (λ w frame, on_frame events frame w) w (frames_of (S (length data)) (FrameStream_Init data) frame_zero).

(** ** Transactions *)

Definition Client_FlushTransaction (self : Client) (w : W) : bool * Client * W :=
  let '(batch, transaction) := TransactionSender_PendingBatch (cli_transaction self) in
  let self := self <| cli_transaction := transaction |> in
  if Nat.eqb (length batch) 0 then (true, self, w)
  else
    let '(taken, w) := hub_send_frame hub (cli_channel self) batch w in
    if negb taken then (false, self, w) else (true, self <| cli_transaction := TransactionSender_BatchSent (cli_transaction self) |>, w).

Definition Client_BeginTransaction (self : Client) (begin : TxnBeginMessage) (w : W) : bool * Client * W :=
  if bool_decide (cli_state self ≠ kCLIENT_OPEN) then (false, self, w)
  else if (sn_state (cli_transaction self) =? kTRANSACTION_SENDER_BEGINNING) || (sn_state (cli_transaction self) =? kTRANSACTION_SENDER_RUNNING)
  then (false, self, w)
  else
    let begin := {| tb_channel := cli_channel self; tb_flags := tb_flags begin; tb_idle_timeout_ms := tb_idle_timeout_ms begin;
                    tb_keepalive := tb_keepalive begin |} in
    let '(encoded_size, encoded) := TxnBeginMessage_Encode begin control_buffer in
    if Nat.eqb encoded_size 0 then (false, self, w)
    else
      let '(taken, w) := hub_send_control hub (take encoded_size encoded) w in
      if negb taken then (false, self, w) else (true, self <| cli_transaction := TransactionSender_Begin (cli_channel self) |>, w).

(** The tail of [DefineRoster] and [DefineTemplate]: the encoded message goes on the channel. *)
Definition send_definition (self : Client) (message : nat * list Z) (w : W) : bool * Client * W :=
  if Nat.eqb message.1 0 then (false, self, w)
  else let '(taken, w) := hub_send_frame hub (cli_channel self) (take message.1 message.2) w in (taken, self, w).

Definition Client_DefineRoster (self : Client) (roster : TxnRosterMessage) (w : W) : bool * Client * W :=
  if negb (isTransactionRunning self) then (false, self, w)
  else
    let '(flushed, self, w) := Client_FlushTransaction self w in
    if negb flushed then (false, self, w)
    else
      let roster := {| tr_channel := cli_channel self; tr_txn_id := sn_txn_id (cli_transaction self); tr_origin := tr_origin roster;
                       tr_roster_count := tr_roster_count roster; tr_roster := tr_roster roster |} in
      send_definition self (TxnRosterMessage_Encode roster control_buffer) w.

Definition Client_DefineTemplate (self : Client) (t : TxnTemplateMessage) (w : W) : bool * Client * W :=
  if negb (isTransactionRunning self) then (false, self, w)
  else
    let '(flushed, self, w) := Client_FlushTransaction self w in
    if negb flushed then (false, self, w)
    else
      let t := {| tt_channel := cli_channel self; tt_template_id := tt_template_id t; tt_txn_id := sn_txn_id (cli_transaction self);
                  tt_advance_mode := tt_advance_mode t; tt_flags := tt_flags t; tt_count_k := tt_count_k t;
                  tt_patterns_present := tt_patterns_present t; tt_timeout_ms := tt_timeout_ms t; tt_gap_us := tt_gap_us t;
                  tt_extend_timeout_ms := tt_extend_timeout_ms t; tt_type := tt_type t; tt_advance := tt_advance t; tt_abort := tt_abort t;
                  tt_extend := tt_extend t; tt_isotp := tt_isotp t |} in
      send_definition self (TxnTemplateMessage_Encode t control_buffer) w.

(** [while (accepted < count)]; [fuel] bounds the iterations, [steps] are the ones still to offer. *)
Fixpoint send_steps_loop (fuel : nat) (self : Client) (steps : list TxnStep) (accepted result : Z) (w : W) : Z * Z * Client * W :=
  match fuel, steps with
  | _, [] => (accepted, result, self, w)
  | O, _ => (accepted, result, self, w)
  | S fuel', step :: rest =>
      let '(result, transaction) := TransactionSender_Offer (cli_transaction self) step in
      let self := self <| cli_transaction := transaction |> in
      if result =? kTRANSACTION_OFFER_ACCEPTED then send_steps_loop fuel' self rest (u32 (accepted + 1)) result w
      else if negb (result =? kTRANSACTION_OFFER_FLUSH_NEEDED) then (accepted, result, self, w)
      else
        let '(flushed, self, w) := Client_FlushTransaction self w in
        if negb flushed then (accepted, result, self, w) else send_steps_loop fuel' self steps accepted result w
  end.

(** How many steps were accepted, what stopped the rest. *)
Definition Client_SendSteps (self : Client) (steps : list TxnStep) (w : W) : Z * Z * Client * W :=
  send_steps_loop (2 * length steps) self steps 0 kTRANSACTION_OFFER_ACCEPTED w.

Definition Client_EndTransaction (self : Client) (w : W) : Z * Client * W :=
  let '(result, transaction) := TransactionSender_End (cli_transaction self) in
  let '(_, self, w) := Client_FlushTransaction (self <| cli_transaction := transaction |>) w in (result, self, w).

(** The encoder's result is not checked: with a full buffer it always succeeds. *)
Definition Client_AbortTransaction (self : Client) (w : W) : Client * W :=
  if negb (isTransactionRunning self) && negb (sn_state (cli_transaction self) =? kTRANSACTION_SENDER_BEGINNING) then (self, w)
  else
    let '(encoded_size, encoded) :=
      TxnAbortMessage_Encode {| tab_channel := cli_channel self; tab_txn_id := sn_txn_id (cli_transaction self) |} control_buffer in
    let w := (hub_send_control hub (take encoded_size encoded) w).2 in
    (if sn_state (cli_transaction self) =? kTRANSACTION_SENDER_BEGINNING then self <| cli_transaction := TransactionSender_Reset |> else self, w).

(** ** Control messages *)

Definition handleError (self : Client) (body : list Z) (w : W) : Client * W :=
  let '(decoded, error) := ErrorMessage_Decode error0 body in
  (self, if negb decoded then w else on_error events (error_code error) (error_detail error) w).

Definition resolveFromReply (self : Client) (reply : ListReplyMessage) (w : W) : Client * W :=
  match InterfaceName_Find reply (cli_interface_name self) with
  | Some interface_id => startOpenById (self <| cli_interface_id := interface_id |>) w
  | None =>
      if has_flag (lr_flags reply) LIST_REPLY_FLAG_MORE && (lr_count reply >? 0) then
        let self := self <| cli_list_offset := u16 (cli_list_offset self + lr_count reply) |> in (self, sendList self (cli_list_offset self) w)
      else emitLocalError self CLIENT_ERROR_INTERFACE_NOT_FOUND (cli_interface_name self) w
  end.

Definition handleListReply (self : Client) (body : list Z) (w : W) : Client * W :=
  if bool_decide (cli_state self ≠ kCLIENT_LISTING) && bool_decide (cli_state self ≠ kCLIENT_RESOLVING) then (self, w)
  else
    let '(decoded, reply) := ListReplyMessage_Decode list_reply0 body in
    if negb decoded then emitLocalError self CLIENT_ERROR_MALFORMED_REPLY (lit "malformed list reply" ++ [0]) w
    else if bool_decide (cli_state self = kCLIENT_RESOLVING) then resolveFromReply self reply w
    else (self, on_list_reply events reply w).

Definition handleOpenAck (self : Client) (body : list Z) (w : W) : Client * W :=
  if bool_decide (cli_state self ≠ kCLIENT_OPENING) then (self, w)
  else
    let '(decoded, ack) := OpenAckMessage_Decode {| open_ack_status := 0; open_ack_channel := 0; open_ack_interface_id := 0 |} body in
    if negb decoded then (self, w)
    else if negb (open_ack_status ack =? OPEN_STATUS_OK) then
      (self <| cli_state := kCLIENT_READY |>, on_open_result events (open_ack_status ack) (open_ack_channel ack) (open_ack_interface_id ack) w)
    else
      let self := self <| cli_channel := open_ack_channel ack |> <| cli_state := kCLIENT_OPEN |> in
      let w := if has_flag (cli_open_flags self) OPEN_FLAG_RELIABLE then hub_set_channel_mode hub (cli_channel self) true w else w in
      let w := if cli_filter_count self >? 0 then sendSubscribe self w else w in
      (self, on_open_result events (open_ack_status ack) (open_ack_channel ack) (open_ack_interface_id ack) w).

(** [for(i=0; i<status.interface_count; i++)]: the first entry of the client's channel. *)
Fixpoint status_entry_for (channel : Z) (entries : list InterfaceStatusEntry) : option InterfaceStatusEntry :=
  match entries with
  | [] => None
  | e :: entries' => if negb (ise_channel e =? channel) then status_entry_for channel entries' else Some e
  end.

Definition handleInterfaceStatus (self : Client) (body : list Z) (now_us : Z) (w : W) : Client * W :=
  let '(decoded, status) := InterfaceStatusMessage_Decode interface_status0 body in
  if negb decoded then (self, w)
  else
    match status_entry_for (cli_channel self) (take (Z.to_nat (ism_interface_count status)) (ism_entries status)) with
    | None => (self, w)
    | Some e =>
        let self := self <| cli_interface_leased := has_flag (ise_flags e) INTERFACE_STATUS_FLAG_LEASED |> in
        (self <| cli_shaper := if burst_bits (cli_shaper self) =? 0 then EgressShaper_Init now_us (ise_advertised_rate e) CLIENT_PACE_BURST_BITS
                               else EgressShaper_SetRate (cli_shaper self) (ise_advertised_rate e) |>, w)
    end.

Definition handleConfigureReply (self : Client) (body : list Z) (w : W) : Client * W :=
  match on_configure_reply events with
  | None => (self, w)
  | Some callback =>
      let '(decoded, reply) := ConfigureReplyMessage_Decode configure_reply0 body in
      if negb decoded then emitLocalError self CLIENT_ERROR_MALFORMED_REPLY (lit "malformed configure reply" ++ [0]) w else (self, callback reply w)
  end.

Definition handleTxnBeginAck (self : Client) (body : list Z) (w : W) : Client * W :=
  let '(decoded, ack) := TxnBeginAckMessage_Decode {| tba_channel := 0; tba_status := 0; tba_txn_id := 0; tba_window_bytes := 0 |} body in
  (if (decoded : bool) then self <| cli_transaction := TransactionSender_OnBeginAck (cli_transaction self) ack |> else self, w).

Definition handleTxnProgress (self : Client) (body : list Z) (w : W) : Client * W :=
  let '(decoded, progress) := TxnProgressMessage_Decode {| tpr_channel := 0; tpr_txn_id := 0; tpr_completed_steps := 0; tpr_consumed_bytes := 0 |} body in
  (if (decoded : bool) then self <| cli_transaction := TransactionSender_OnProgress (cli_transaction self) progress |> else self, w).

Definition handleTxnStatus (self : Client) (body : list Z) (w : W) : Client * W :=
  let '(decoded, status) := TxnStatusMessage_Decode txn_status0 body in
  (if (decoded : bool) then self <| cli_transaction := TransactionSender_OnStatus (cli_transaction self) status |> else self, w).

Definition handleTxnRosterReport (self : Client) (body : list Z) (w : W) : Client * W :=
  let '(decoded, report) := TxnRosterReportMessage_Decode {| trr_channel := 0; trr_txn_id := 0; trr_seq := 0; trr_seen_bitmap := 0 |} body in
  match on_roster_report events with
  | None => (self, w)
  | Some callback =>
      if negb decoded then (self, w)
      else if negb (isTransactionRunning self) || negb (trr_channel report =? cli_channel self) || negb (trr_txn_id report =? sn_txn_id (cli_transaction self))
      then (self, w)
      else (self, callback report w)
  end.

Definition transportOnControl (self : Client) (data : list Z) (now_us : Z) (w : W) : Client * W :=
  match MessageHeader_Decode data with
  | None => (self, w)
  | Some header =>
      let type := header_type header in
      let body := slice MESSAGE_HEADER_SIZE (Z.to_nat (header_length header)) data in
      if Nat.ltb (length data) (MESSAGE_HEADER_SIZE + Z.to_nat (header_length header)) then (self, w)
      else if type =? kMESSAGE_TYPE_ERROR then handleError self body w
      else if type =? kMESSAGE_TYPE_LIST_REPLY then handleListReply self body w
      else if type =? kMESSAGE_TYPE_OPEN_ACK then handleOpenAck self body w
      else if type =? kMESSAGE_TYPE_INTERFACE_STATUS then handleInterfaceStatus self body now_us w
      else if type =? kMESSAGE_TYPE_CONFIGURE_REPLY then handleConfigureReply self body w
      else if type =? kMESSAGE_TYPE_TXN_BEGIN_ACK then handleTxnBeginAck self body w
      else if type =? kMESSAGE_TYPE_TXN_PROGRESS then handleTxnProgress self body w
      else if type =? kMESSAGE_TYPE_TXN_STATUS then handleTxnStatus self body w
      else if type =? kMESSAGE_TYPE_TXN_ROSTER_REPORT then handleTxnRosterReport self body w
      else (self, w)
  end.

(** ** The connection *)

Definition transportOnConnected (self : Client) (w : W) : Client * W :=
  let self := self <| cli_connected := true |> <| cli_state := kCLIENT_READY |> in
  let w := sendHello self w in runPending self w.

Definition transportOnDisconnected (self : Client) (now_us : Z) (w : W) : Client * W :=
  let self := self <| cli_connected := false |> <| cli_state := kCLIENT_DISCONNECTED |> in (self, on_disconnected events w).

End Client.

(** * What the client promises

    The name it is given is resolved over as many pages of the hub's list as it
    takes, and what it sends of a transaction is the script it accepted. *)
(** ** The world: what the transport answers, and what left the client *)

Inductive client_out :=
| CoControl (data : list Z)
| CoFrame (channel : Z) (data : list Z)
| CoMode (channel : Z) (reliable : bool)
| CoListReply (reply : ListReplyMessage)
| CoOpenResult (status channel interface_id : Z)
| CoReceived (frame : FrameMessage)
| CoError (code : Z) (detail : list Z)
| CoDisconnected
| CoConfigureReply (reply : ConfigureReplyMessage)
| CoRosterReport (report : TxnRosterReportMessage).

Definition cworld : Type := list bool * list client_out.

Definition put (o : client_out) (w : cworld) : cworld := (w.1, w.2 ++ [o]).
Definition try_put (o : client_out) (w : cworld) : bool * cworld :=
  let taken := default true (head w.1) in (taken, (tail w.1, if taken then w.2 ++ [o] else w.2)).

(** A transport that takes a message or not, as the list says, and then everything. *)
Definition log_hub : HubPort cworld := {|
  hub_send_control data := try_put (CoControl data); hub_send_frame channel data := try_put (CoFrame channel data);
  hub_set_channel_mode channel reliable := put (CoMode channel reliable) |}.

Definition log_events : ClientEvents cworld := {|
  on_list_reply reply := put (CoListReply reply); on_open_result s c i := put (CoOpenResult s c i); on_frame f := put (CoReceived f);
  on_error code detail := put (CoError code detail); on_disconnected := put CoDisconnected;
  on_configure_reply := Some (λ reply, put (CoConfigureReply reply)); on_roster_report := Some (λ report, put (CoRosterReport report)) |}.

Definition controls (w : cworld) : list (list Z) := omap (λ o, match o with CoControl data => Some data | _ => None end) w.2.

(** ** A name against the hub's list *)

Definition list_reply_size : nat := 2376.

(** At most [page] interfaces from [offset], flagged when there are more. *)
Definition hub_page (entries : list ListReplyEntry) (page : nat) (offset : Z) : ListReplyMessage :=
  let rest := drop (Z.to_nat offset) entries in
  let shown := take page rest in
  {| lr_count := zlen shown; lr_flags := if Nat.ltb (length shown) (length rest) then LIST_REPLY_FLAG_MORE else 0;
     lr_entries := shown ++ replicate (16 - length shown) ListReplyEntry_zero |}.

(** The hub answers a LIST with the page it asks for. *)
Definition hub_answer (entries : list ListReplyEntry) (page : nat) (data : list Z) : option (list Z) :=
  match MessageHeader_Decode data with
  | Some h =>
      if header_type h =? kMESSAGE_TYPE_LIST then
        let '(ok, m) := ListMessage_Decode {| list_offset := 0 |} (drop MESSAGE_HEADER_SIZE data) in
        let '(size, reply) := ListReplyMessage_Encode (hub_page entries page (list_offset m)) (replicate list_reply_size 0) in
        if ok then Some (take size reply) else None
      else None
  | None => None
  end.

(** The last message of the client is answered. *)
Definition exchange (entries : list ListReplyEntry) (page : nat) (st : Client * cworld) : Client * cworld :=
  match last (controls st.2) with
  | Some data =>
      match hub_answer entries page data with Some reply => transportOnControl log_hub log_events st.1 reply 0 st.2 | None => st end
  | None => st
  end.

Definition named (name : list Z) (e : ListReplyEntry) : Prop := cstr name = joined (cstr (lre_agent_name e)) (cstr (lre_interface_name e)).
#[export] Instance named_dec name e : Decision (named name e).
Proof. unfold named. apply _. Defined.

Lemma controls_put o w : controls (put o w) = controls w ++ (match o with CoControl data => [data] | _ => [] end).
Proof. unfold controls, put. cbn [snd]. rewrite omap_app. by destruct o. Qed.

Lemma last_control ws log bs : last (controls (ws, log ++ [CoControl bs])) = Some bs.
Proof. unfold controls. cbn [snd]. rewrite omap_app. apply last_snoc. Qed.

Lemma sent_control {M} `{WireMessageOk M} (m : M) size w :
  w.1 = [] → wm_valid m → (MESSAGE_HEADER_SIZE + wm_size m ≤ size)%nat →
  ∃ bs, wm_packet m bs ∧ sendEncoded log_hub (wm_encode m (replicate size 0)) w = ([], w.2 ++ [CoControl bs]).
Proof.
  intros Hw Hv Hs. destruct (wm_encode_ok m (replicate size 0) Hv) as (buf & He & _); [by rewrite length_replicate|].
  exists (take (wm_encode m (replicate size 0)).1 (wm_encode m (replicate size 0)).2). split; [exists (replicate size 0); by rewrite length_replicate|].
  unfold sendEncoded. rewrite He. cbn [fst snd]. rewrite (proj2 (Nat.eqb_neq _ _)) by lia. destruct w as [ws log]. cbn in Hw. subst ws. done.
Qed.

Lemma page_valid entries page offset : Forall list_entry_ok entries → (page ≤ 16)%nat → wm_valid (hub_page entries page offset) ∧
  counted_entries (hub_page entries page offset) = take page (drop (Z.to_nat offset) entries).
Proof.
  intros Hok Hp. set (rest := drop (Z.to_nat offset) entries). assert (Forall list_entry_ok (take page rest)) as Hok' by (by apply Forall_take, Forall_drop).
  assert (counted_entries (hub_page entries page offset) = take page rest) as Hc.
  { unfold counted_entries, hub_page. cbn [lr_count lr_entries]. fold rest. unfold zlen. rewrite Nat2Z.id. apply take_app_length. }
  assert (length (take page rest) ≤ 16)%nat by (rewrite length_take; lia).
  split; [|done]. cbn. change (take page (drop (Z.to_nat offset) entries)) with (take page rest). split; [by case_match|]. split; [unfold zlen; lia|].
  split; [rewrite length_app, length_replicate; lia|]. rewrite Hc. done.
Qed.

(** Entries that name the same interfaces are found alike. *)
Lemma find_same name es es' : terminated name → Forall2 list_entry_same es es' → find_loop name es' = lre_interface_id <$> head (filter (named name) es).
Proof.
  intros Ht H. rewrite find_exact by done. induction H as [|e e' es es' (Hid & Ha & Hi) _ IH]; [done|]. rewrite !filter_cons. destruct (decide (named name e)) as [Hd|Hd].
  - rewrite decide_True by (by rewrite Ha, Hi). cbn. by rewrite Hid.
  - rewrite decide_False by (by rewrite Ha, Hi). exact IH.
Qed.

(** The client looks for [name] and has asked for the page at [offset]. *)
Definition resolving (name : list Z) (offset : nat) (st : Client * cworld) : Prop :=
  cli_state st.1 = kCLIENT_RESOLVING ∧ cli_list_offset st.1 = Z.of_nat offset ∧ terminated (cli_interface_name st.1) ∧
  cstr (cli_interface_name st.1) = cstr name ∧ st.2.1 = [] ∧ ∃ bs, wm_packet {| list_offset := Z.of_nat offset |} bs ∧ last (controls st.2) = Some bs.

Definition resolved (name : list Z) (flags : Z) (found : option ListReplyEntry) (st : Client * cworld) : Prop :=
  st.2.1 = [] ∧ ∃ bs, last (controls st.2) = Some bs ∧
  match found with
  | Some e => cli_state st.1 = kCLIENT_OPENING ∧ cli_interface_id st.1 = lre_interface_id e ∧ wm_packet {| open_interface_id := lre_interface_id e; open_flags := flags |} bs
  | None => cli_state st.1 = kCLIENT_READY ∧ (∃ o, wm_packet {| list_offset := o |} bs) ∧
      ∃ detail, last st.2.2 = Some (CoError CLIENT_ERROR_INTERFACE_NOT_FOUND detail) ∧ cstr detail = cstr name
  end.

(** A control message reaches its handler. *)
Lemma reply_dispatched (self : Client) (m : ListReplyMessage) bs now w :
  wm_packet m bs → transportOnControl log_hub log_events self bs now w = handleListReply log_hub log_events self (drop MESSAGE_HEADER_SIZE bs) w.
Proof.
  intros Hpk. destruct (wm_packet_spec _ _ Hpk) as (Hl & Hd & _). unfold transportOnControl. rewrite Hd. cbn [header_length header_type].
  rewrite Nat2Z.id, (proj2 (Nat.ltb_ge _ _)) by lia. unfold slice. rewrite take_ge by (rewrite length_drop; lia). done.
Qed.

Lemma answered entries page offset bs : Forall list_entry_ok entries → (page ≤ 16)%nat → wm_packet {| list_offset := offset |} bs →
  ∃ reply, hub_answer entries page bs = Some reply ∧ wm_packet (hub_page entries page offset) reply.
Proof.
  intros Hok Hp Hpk. destruct (wm_packet_spec _ _ Hpk) as (_ & Hd & Hdec). destruct (Hdec {| list_offset := 0 |} I) as (m & Hm & Hs). cbn in Hs. subst m.
  unfold hub_answer. rewrite Hd. cbn [header_type]. change (wm_type =? kMESSAGE_TYPE_LIST) with true. cbv iota.
  change (ListMessage_Decode {| list_offset := 0 |} (drop 4 bs) = (true, {| list_offset := offset |})) in Hm. rewrite Hm. cbn [list_offset].
  destruct (page_valid entries page offset Hok Hp) as [Hv Hc].
  assert (MESSAGE_HEADER_SIZE + wm_size (hub_page entries page offset) ≤ length (replicate list_reply_size 0))%nat as Hsz.
  { rewrite length_replicate. cbn. unfold zlen, list_reply_size. rewrite Nat2Z.id. pose proof (firstn_le_length page (drop (Z.to_nat offset) entries)). rewrite length_take. lia. }
  assert (wm_packet (hub_page entries page offset) (take (ListReplyMessage_Encode (hub_page entries page offset) (replicate list_reply_size 0)).1 (ListReplyMessage_Encode (hub_page entries page offset) (replicate list_reply_size 0)).2)) as Hpkt
    by (by exists (replicate list_reply_size 0)).
  destruct (ListReplyMessage_Encode (hub_page entries page offset) (replicate list_reply_size 0)) as [size reply]. by eexists.
Qed.

Lemma exchange_resolving entries page name flags offset st :
  Forall list_entry_ok entries → zlen entries < 65536 → (1 ≤ page ≤ 16)%nat → is_u8 flags → resolving name offset st → cli_open_flags st.1 = flags → (offset ≤ length entries)%nat →
  let st' := exchange entries page st in
  match head (filter (named name) (take page (drop offset entries))) with
  | Some e => resolved name flags (Some e) st'
  | None => if decide (offset + page < length entries)%nat then resolving name (offset + page) st' ∧ cli_open_flags st'.1 = flags else resolved name flags None st'
  end.
Proof.
  destruct st as [self w]. intros Hok Hlen Hp Hfl (Hst & Hoff & Hterm & Hname & Hw & bs & Hpk & Hlast) Hof Hle. cbn [fst snd] in *. unfold exchange. cbn [fst snd]. rewrite Hlast.
  destruct (answered entries page (Z.of_nat offset) bs Hok ltac:(lia) Hpk) as (reply & -> & Hreply). rewrite (reply_dispatched self _ reply 0 w Hreply).
  destruct (wm_packet_spec _ _ Hreply) as (_ & _ & Hdec). destruct (Hdec list_reply0 eq_refl) as (m & Hm & Hcount & Hflags & Hsame).
  change (ListReplyMessage_Decode list_reply0 (drop 4 reply) = (true, m)) in Hm. unfold handleListReply. rewrite Hst, !bool_decide_true, bool_decide_false by auto. cbn [andb]. rewrite Hm. cbn [negb].
  destruct (page_valid entries page (Z.of_nat offset) Hok ltac:(lia)) as [_ Hc]. rewrite Hc in Hsame. rewrite Nat2Z.id in Hsame. set (shown := take page (drop offset entries)) in *.
  unfold resolveFromReply, InterfaceName_Find. rewrite (find_same (cli_interface_name self) shown) by done.
  assert (filter (named (cli_interface_name self)) shown = filter (named name) shown) as -> by (apply list_filter_iff; intros e; unfold named; by rewrite Hname).
  assert (Forall list_entry_ok shown) as Hsok by (by apply Forall_take, Forall_drop).
  destruct (head (filter (named name) shown)) as [e|] eqn:Hhead.
  - cbn [fmap option_fmap option_map]. unfold startOpenById, sendOpen.
    assert (is_u32 (lre_interface_id e)) as Hid.
    { apply head_Some_elem_of, list_elem_of_filter in Hhead as [_ Hin]. by apply (proj1 (Forall_forall _ _) Hsok). }
    assert (wm_valid {| open_interface_id := lre_interface_id e; open_flags := flags |}) as Hov by (by split).
    destruct (sent_control (M := OpenMessage) {| open_interface_id := lre_interface_id e; open_flags := flags |} 424 w Hw Hov ltac:(cbn; lia)) as (obs & Hopk & Hsent).
    set (self' := (self <| cli_interface_id := lre_interface_id e |>) <| cli_state := kCLIENT_OPENING |>).
    change (OpenMessage_Encode {| open_interface_id := cli_interface_id self'; open_flags := cli_open_flags self' |} control_buffer)
      with (wm_encode {| open_interface_id := lre_interface_id e; open_flags := cli_open_flags self |} (replicate 424 0)).
    rewrite Hof, Hsent. split; [done|]. exists obs. split; [apply last_control|done].
  - cbn [fmap option_fmap option_map]. rewrite Hflags, Hcount. cbn [hub_page lr_flags lr_count]. rewrite Nat2Z.id. fold shown.
    assert (length shown = Nat.min page (length entries - offset)) as Hsl by (unfold shown; by rewrite length_take, length_drop).
    assert (length (drop offset entries) = length entries - offset)%nat as Hdl by apply length_drop. destruct (decide (offset + page < length entries)%nat) as [Hmore|Hmore].
    + rewrite (proj2 (Nat.ltb_lt _ _)) by lia. change (has_flag LIST_REPLY_FLAG_MORE LIST_REPLY_FLAG_MORE) with true. cbn [andb].
      destruct (Z.gtb_spec (zlen shown) 0) as [Hg|Hg]; [|unfold zlen in Hg; lia]. split; [|done]. unfold sendList.
      set (self' := self <| cli_list_offset := _ |>). assert (cli_list_offset self' = Z.of_nat (offset + page)) as Hoff'.
      { change (cli_list_offset self') with (u16 (cli_list_offset self + zlen shown)). rewrite Hoff. unfold zlen in *. rewrite u16_id; lia. }
      rewrite Hoff'. assert (wm_valid {| list_offset := Z.of_nat (offset + page) |}) as Hu by (cbn; unfold is_u16, zlen in *; lia).
      destruct (sent_control (M := ListMessage) {| list_offset := Z.of_nat (offset + page) |} 424 w Hw Hu ltac:(cbn; lia)) as (lbs & Hlpk & Hsent).
      change (ListMessage_Encode {| list_offset := Z.of_nat (offset + page) |} control_buffer) with (wm_encode {| list_offset := Z.of_nat (offset + page) |} (replicate 424 0)).
      rewrite Hsent. unfold resolving. cbn [fst snd]. split_and!; try done. exists lbs. split; [done|apply last_control].
    + rewrite (proj2 (Nat.ltb_ge _ _)) by lia. change (has_flag 0 LIST_REPLY_FLAG_MORE) with false. cbn [andb]. unfold emitLocalError. split; [done|]. exists bs. cbn [fst snd].
      split; [etrans; [apply (f_equal last (controls_put (CoError _ _) w))|by rewrite app_nil_r]|]. split; [done|]. split; [by eexists|]. exists (cli_interface_name self). split; [apply last_snoc|done].
Qed.

Lemma exchange_resolved entries page name flags found st :
  Forall list_entry_ok entries → (page ≤ 16)%nat → resolved name flags found st → exchange entries page st = st.
Proof.
  destruct st as [self w]. intros Hok Hp (_ & bs & Hlast & H). unfold exchange. cbn [fst snd] in *. rewrite Hlast. destruct found as [e|].
  - destruct H as (_ & _ & Hpk). destruct (wm_packet_spec _ _ Hpk) as (_ & Hd & _). unfold hub_answer. by rewrite Hd.
  - destruct H as (Hst & [o Hpk] & _). destruct (answered entries page o bs Hok Hp Hpk) as (reply & -> & Hreply).
    rewrite (reply_dispatched self _ reply 0 w Hreply). unfold handleListReply. by rewrite Hst.
Qed.

Lemma iter_fixed {A} (f : A → A) n x : f x = x → Nat.iter n f x = x.
Proof. intros H. induction n as [|n IH]; [done|]. by rewrite Nat.iter_succ, IH. Qed.

(** A search over the pages of a list, whoever runs it: each exchange looks at the
    page at its offset and either ends the search or moves on to the next page. *)
Section PagedSearch.
Context {S : Type} (exchange_ : S → S) (at_page : nat → S → Prop) (over : option ListReplyEntry → S → Prop) (P : ListReplyEntry → Prop) `{∀ e, Decision (P e)}.
Context (entries : list ListReplyEntry) (page : nat).
Hypothesis page_positive : (1 ≤ page)%nat.
Hypothesis step_page : ∀ offset s, at_page offset s → (offset ≤ length entries)%nat →
  match head (filter P (take page (drop offset entries))) with
  | Some e => over (Some e) (exchange_ s)
  | None => if decide (offset + page < length entries)%nat then at_page (offset + page) (exchange_ s) else over None (exchange_ s)
  end.
Hypothesis over_fixed : ∀ found s, over found s → exchange_ s = s.

Lemma paged_search n offset s : at_page offset s → (offset ≤ length entries)%nat → (1 ≤ n)%nat → (length entries ≤ offset + n * page)%nat →
  head (filter P (take offset entries)) = None → over (head (filter P entries)) (Nat.iter n exchange_ s).
Proof.
  revert offset s. induction n as [|n IH]; intros offset s Hr Hle Hn Hcover Hnone; [lia|].
  assert (∀ l, head (filter P (take offset entries ++ l)) = head (filter P l)) as Hskip.
  { intros l. rewrite filter_app. destruct (filter P (take offset entries)); [done|discriminate]. }
  pose proof (step_page offset s Hr Hle) as Hx. rewrite Nat.iter_succ_r.
  assert (∀ found, over found (exchange_ s) → Nat.iter n exchange_ (exchange_ s) = exchange_ s) as Hstay by (intros found Hres; by apply iter_fixed, (over_fixed found)).
  assert (head (filter P entries) = head (filter P (take page (drop offset entries)) ++ filter P (drop (offset + page) entries))) as ->.
  { rewrite <- (take_drop offset entries) at 1. rewrite Hskip. rewrite <- (take_drop page (drop offset entries)) at 1. by rewrite filter_app, drop_drop. }
  destruct (filter P (take page (drop offset entries))) as [|e rest] eqn:He; cbn [head app] in *; [|by rewrite (Hstay _ Hx)].
  destruct (decide (offset + page < length entries)%nat) as [Hmore|Hmore].
  - assert (head (filter P (take (offset + page) entries)) = None) as Hnone' by (by rewrite <- take_take_drop, Hskip, He).
    specialize (IH (offset + page)%nat _ Hx ltac:(lia) ltac:(nia) ltac:(lia) Hnone').
    assert (head (filter P entries) = head (filter P (drop (offset + page) entries))) as Heq; [|by rewrite Heq in IH].
    rewrite <- (take_drop (offset + page) entries) at 1. rewrite filter_app. destruct (filter P (take (offset + page) entries)); [done|discriminate].
  - rewrite (drop_ge entries) by lia. by rewrite (Hstay _ Hx).
Qed.
End PagedSearch.

Lemma sendEncoded_open message w : w.1 = [] → (sendEncoded log_hub message w).1 = [].
Proof. intros Hw. unfold sendEncoded. destruct (Nat.eqb _ _); [done|]. destruct w as [ws log]. cbn in *. by subst ws. Qed.

Lemma start_resolving self w name :
  w.1 = [] → terminated (cli_interface_name self) → cstr (cli_interface_name self) = cstr name →
  resolving name 0 (startOpenByName log_hub self w) ∧ cli_open_flags (startOpenByName log_hub self w).1 = cli_open_flags self.
Proof.
  intros Hw Ht Hc. split; [|done]. unfold startOpenByName, sendList. assert (wm_valid {| list_offset := 0 |}) as Hv by done.
  destruct (sent_control (M := ListMessage) {| list_offset := 0 |} 424 w Hw Hv ltac:(cbn; lia)) as (bs & Hpk & Hsent).
  change (ListMessage_Encode {| list_offset := 0 |} control_buffer) with (wm_encode {| list_offset := 0 |} (replicate 424 0)). rewrite Hsent.
  unfold resolving. cbn [fst snd]. split_and!; try done. exists bs. split; [done|apply last_control].
Qed.

(** C13. A name is resolved over all the pages of the list.  A client that opens
    an interface by name, connected or once it connects, against a hub that
    answers each LIST with the page it asks for: after as many exchanges as the
    list has pages, the client has sent OPEN with the identifier of the first
    interface of that name and the flags it was given, and waits for the answer;
    or, when no interface has the name, it is ready again and has reported the
    name as not found.  Further answers change nothing. *)
Theorem client_resolves_name (entries : list ListReplyEntry) (page n : nat) (self : Client) (name : list Z) (flags : Z) (w : cworld) :
  Forall list_entry_ok entries → zlen entries < 65536 → (1 ≤ page ≤ 16)%nat → (1 ≤ n)%nat → (length entries ≤ n * page)%nat →
  length (cli_interface_name self) = INTERFACE_NAME_NAMESPACED_SIZE → (strlen name ≤ 144)%nat → is_u8 flags → w.1 = [] →
  let st := Client_OpenByName log_hub self name flags w in
  let st := if cli_connected self then st else transportOnConnected log_hub st.1 st.2 in
  resolved name flags (head (filter (named name) entries)) (Nat.iter n (exchange entries page) st).
Proof.
  intros Hok Hlen Hp Hn Hcover Hbuf Hname Hfl Hw st0 st.
  assert (∀ c v, cli_interface_name c = BoundedString_Copy (cli_interface_name self) (Some name) → cli_open_flags c = flags → v.1 = [] →
    resolving name 0 (startOpenByName log_hub c v) ∧ cli_open_flags (startOpenByName log_hub c v).1 = flags) as Hstart.
  { intros c v Hc Hf Hv. rewrite <- Hf. assert (cstr (cli_interface_name c) = cstr name) as Hcs.
    { rewrite Hc, cstr_BoundedString_Copy by lia. rewrite Hbuf. apply take_ge. unfold strlen in Hname. lia. }
    apply start_resolving; [done| |done]. unfold terminated, strlen. rewrite Hcs, Hc, length_BoundedString_Copy, Hbuf. unfold strlen in Hname. lia. }
  assert (resolving name 0 st ∧ cli_open_flags st.1 = flags) as [Hr Hf].
  { subst st st0. unfold Client_OpenByName. cbn [cli_connected]. set (c := (self <| cli_interface_name := _ |>) <| cli_open_flags := flags |>).
    change (cli_connected c) with (cli_connected self). destruct (cli_connected self); cbn [negb]; [by apply Hstart|]. unfold transportOnConnected, runPending. cbn [fst snd].
    set (c1 := (c <| cli_pending := kCLIENT_PENDING_OPEN_NAME |>) <| cli_connected := true |> <| cli_state := kCLIENT_READY |>).
    change (cli_pending c1) with kCLIENT_PENDING_OPEN_NAME. cbv iota. destruct (cli_configure_pending _); apply Hstart; try done; repeat apply sendEncoded_open; done. }
  refine (paged_search (exchange entries page) (λ o s, resolving name o s ∧ cli_open_flags s.1 = flags) (resolved name flags) (named name) entries page ltac:(lia) _ _ n 0 st _ _ _ _ _); try (done || lia).
  - intros offset s [Hrs Hfs] Hle. by apply exchange_resolving.
  - intros found s Hres. apply (exchange_resolved entries page name flags found); [done|lia|done].
Qed.

Lemma client_resolves_name_witness :
  let entry id (a i : string) := {| lre_interface_id := id; lre_agent_name := padded 128 (lit a); lre_interface_name := padded 16 (lit i) |} in
  let entries := [entry 4 "rig" "can0"; entry 7 "rig" "can1"; entry 9 "rig" "can1"]%string in
  let name := lit "rig/can1" ++ [0] in
  let st := Client_OpenByName log_hub Client_Init name OPEN_FLAG_WANT_WRITE ([], []) in
  let st := if cli_connected Client_Init then st else transportOnConnected log_hub st.1 st.2 in
  resolved name OPEN_FLAG_WANT_WRITE (Some (entry 7 "rig" "can1")%string) (Nat.iter 3 (exchange entries 1) st) ∧
  cli_interface_id (Nat.iter 3 (exchange entries 1) st).1 = 7.
Proof.
  intros entry entries name st0 st. split; [|vm_compute; reflexivity].
  assert (head (filter (named name) entries) = Some (entry 7 "rig" "can1")%string) as <- by (vm_compute; reflexivity).
  assert (Forall list_entry_ok entries) as Hok by (repeat constructor; vm_compute; congruence).
  exact (client_resolves_name entries 1 3 Client_Init name OPEN_FLAG_WANT_WRITE ([], []) Hok eq_refl ltac:(lia) ltac:(lia) (le_n 3) eq_refl
    ltac:(vm_compute; lia) ltac:(vm_compute; split; congruence) eq_refl).
Defined.
