(* ===== verification/TransactionBuilder.v ===== *)
(** * The transaction builder (src/client/transaction_builder.c, can_id.c)

    Turns the steps of the library's transaction API (src/include/canhub.h) into
    the messages of the wire: each distinct way of waiting is a template, found
    again by content; the roster goes out once; an ISO-TP message is cut into
    records.  A pointer that may be NULL is an option.  Of the options the
    callback and its context are left out: the builder does not read them.
    Structs are compared by [memcmp] after [memset]; here records are compared
    by their fields. *)

From Stdlib Require Import String.
From S2P Require Import Prelude Wire Codec FrameMessage TxnMessage TxnStepsMessage IsotpLink TransactionRunner IsotpSafety.

Definition CANHUB_STANDARD_ID_MASK : Z := 2047.
Definition CANHUB_EXTENDED_ID_MASK : Z := 536870911.
Definition CANHUB_TXN_ANY_ID_BITS : Z := 4294967295.
Definition CANHUB_TXN_ROSTER_MAX : Z := 64.
Definition CANHUB_FRAME_PAYLOAD_MAX : Z := 64.
Definition CANHUB_ISOTP_MESSAGE_MAX : Z := 4095.
Notation CANHUB_TXN_MATCH_BYTES := 8%nat (only parsing).
Definition CANHUB_TXN_NODE_IN_ID : Z := 0.
Definition CANHUB_TXN_NODE_IN_BYTE : Z := 1.
Definition TRANSACTION_BUILDER_MESSAGE_RECORD_BYTES : Z := 248.
Notation TRANSACTION_BUILDER_RECORDS_MAX := 17%nat (only parsing).
Definition BYTE_VALUE_MAX : Z := 255.
Notation ID_BITS_MAX := 32%nat (only parsing).
Definition NO_TEMPLATE : Z := 255.
Definition FD_LENGTHS : list Z := [12; 16; 20; 24; 32; 48; 64].

(** ** The API's data *)

Record CanHubCanId := { cid_value : Z; cid_extended : bool }.
Record CanHubTxnByte := { by_mask : Z; by_value : Z }.
Record CanHubTxnMatch := { ma_id : CanHubCanId; ma_id_ignored_bits : Z; ma_bytes : list CanHubTxnByte }.
Record CanHubTxnResponse := {
  re_success : CanHubTxnMatch; re_failure : option CanHubTxnMatch; re_pending : option CanHubTxnMatch; re_nodes : option (list Z);
  re_node_count : Z; re_allowed_missing : Z; re_node_from : Z; re_node_byte : Z; re_timeout_ms : Z; re_timeout_after_pending_ms : Z;
  re_continue_on_timeout : bool; re_on_mismatch_abort : bool;
}.
Record CanHubTxnIsotpLink := {
  il_tx_id : CanHubCanId; il_rx_id : CanHubCanId; il_address_byte : bool; il_tx_address : Z; il_rx_address : Z; il_padded : bool;
  il_padding : Z; il_fd : bool; il_bitrate_switch : bool; il_fd_data_length : Z; il_block_size : Z; il_st_min : Z;
}.
Record CanHubTxnKeepalive := { ka_id : CanHubCanId; ka_data : list Z; ka_length : Z; ka_every_ms : Z }.
Record CanHubTxnOptions := { op_exclusive : bool; op_idle_timeout_ms : Z; op_keepalive : option CanHubTxnKeepalive; op_bitrate_switch : bool }.
Record CanHubTxnStep := {
  cs_id : CanHubCanId; cs_data : option (list Z); cs_length : Z; cs_isotp : option CanHubTxnIsotpLink;
  cs_response : option CanHubTxnResponse; cs_where : option CanHubTxnMatch; cs_gap_us : Z;
}.

(** ** Identifiers (can_id.c) *)

Definition CanId_Width (id : CanHubCanId) : Z := if cid_extended id then CANHUB_EXTENDED_ID_MASK else CANHUB_STANDARD_ID_MASK.
Definition CanId_IsValid (id : CanHubCanId) : bool := cid_value id <=? CanId_Width id.
Definition CanId_AreIgnoredBitsValid (id : CanHubCanId) (ignored_bits : Z) : bool := Z.ldiff ignored_bits (CanId_Width id) =? 0.
Definition CanId_ToWire (id : CanHubCanId) : Z := if cid_extended id then Z.lor (cid_value id) FRAME_CAN_ID_FLAG_EFF else cid_value id.

(** ** State *)

Record TransactionBuild := {
  bd_defines_roster : bool; bd_roster : TxnRosterMessage; bd_defines_template : bool; bd_template_message : TxnTemplateMessage;
  bd_record_count : Z; bd_records : list TxnStep;
}.
#[export] Instance TransactionBuild_settable : Settable TransactionBuild := λ b, {|
  bd_defines_roster := bd_defines_roster b; bd_roster := bd_roster b; bd_defines_template := bd_defines_template b;
  bd_template_message := bd_template_message b; bd_record_count := bd_record_count b; bd_records := bd_records b |}.

Record TransactionBuilder := {
  bu_bitrate_switch : bool; bu_has_roster : bool; bu_roster : TxnRosterMessage; bu_template_count : Z;
  bu_templates : list TxnTemplateMessage; bu_last_template : Z; bu_error : option string;
}.
#[export] Instance TransactionBuilder_settable : Settable TransactionBuilder := λ b, {|
  bu_bitrate_switch := bu_bitrate_switch b; bu_has_roster := bu_has_roster b; bu_roster := bu_roster b;
  bu_template_count := bu_template_count b; bu_templates := bu_templates b; bu_last_template := bu_last_template b;
  bu_error := bu_error b |}.

Record TransactionBuilderMark := { mk_has_roster : bool; mk_template_count : Z; mk_last_template : Z }.

Definition roster_zero : TxnRosterMessage := {|
  tr_channel := 0; tr_txn_id := 0; tr_origin := origin_zero; tr_roster_count := 0; tr_roster := replicate TXN_ROSTER_MAX 0 |}.

#[export] Instance TxnOriginExtractor_eq_dec : EqDecision TxnOriginExtractor.
Proof. solve_decision. Defined.
#[export] Instance TxnRosterMessage_eq_dec : EqDecision TxnRosterMessage.
Proof. solve_decision. Defined.
#[export] Instance TxnPattern_eq_dec : EqDecision TxnPattern.
Proof. solve_decision. Defined.
#[export] Instance TxnIsotpParameters_eq_dec : EqDecision TxnIsotpParameters.
Proof. solve_decision. Defined.
#[export] Instance TxnTemplateMessage_eq_dec : EqDecision TxnTemplateMessage.
Proof. solve_decision. Defined.

#[export] Instance TxnTemplateMessage_settable : Settable TxnTemplateMessage := λ t, {|
  tt_channel := tt_channel t; tt_template_id := tt_template_id t; tt_txn_id := tt_txn_id t; tt_advance_mode := tt_advance_mode t;
  tt_flags := tt_flags t; tt_count_k := tt_count_k t; tt_patterns_present := tt_patterns_present t; tt_timeout_ms := tt_timeout_ms t;
  tt_gap_us := tt_gap_us t; tt_extend_timeout_ms := tt_extend_timeout_ms t; tt_type := tt_type t; tt_advance := tt_advance t;
  tt_abort := tt_abort t; tt_extend := tt_extend t; tt_isotp := tt_isotp t |}.

#[export] Instance TxnStep_settable : Settable TxnStep := λ s, {|
  st_template_id := st_template_id s; st_flags := st_flags s; st_payload_length := st_payload_length s; st_frame_flags := st_frame_flags s;
  st_can_id := st_can_id s; st_expect_value := st_expect_value s; st_payload := st_payload s |}.
#[export] Instance TxnStep_inhabited : Inhabited TxnStep := populate TxnStep_zero.

Definition TransactionBuilder_Init (bitrate_switch : bool) : TransactionBuilder := {|
  bu_bitrate_switch := bitrate_switch; bu_has_roster := false; bu_roster := roster_zero; bu_template_count := 0;
  bu_templates := replicate 16 template_zero; bu_last_template := NO_TEMPLATE; bu_error := None |}.

Definition TransactionBuilder_Mark (self : TransactionBuilder) : TransactionBuilderMark := {|
  mk_has_roster := bu_has_roster self; mk_template_count := bu_template_count self; mk_last_template := bu_last_template self |}.

Definition TransactionBuilder_Rewind (self : TransactionBuilder) (mark : TransactionBuilderMark) : TransactionBuilder :=
  self <| bu_has_roster := mk_has_roster mark |> <| bu_template_count := mk_template_count mark |> <| bu_last_template := mk_last_template mark |>.

Definition TransactionBuilder_Error (self : TransactionBuilder) : option string := bu_error self.

(** ** Checks *)

Definition fail (self : TransactionBuilder) (message : string) : bool * TransactionBuilder := (false, self <| bu_error := Some message |>).
Definition pass (self : TransactionBuilder) : bool * TransactionBuilder := (true, self).

Definition isFrameLength (length : Z) : bool :=
  if length <=? FRAME_PAYLOAD_MAX_CLASSIC then true else existsb (λ l, l =? length) FD_LENGTHS.

(** [None] when the keepalive is valid, else the error. *)
Definition isKeepaliveValid (keepalive : CanHubTxnKeepalive) : option string :=
  if ka_every_ms keepalive =? 0 then Some "a keepalive needs every_ms"%string
  else if negb (CanId_IsValid (ka_id keepalive)) then Some "the keepalive id does not fit its 11 or 29 bits"%string
  else if negb (isFrameLength (ka_length keepalive)) then Some "a keepalive frame is 0-8 bytes, or 12, 16, 20, 24, 32, 48 or 64 for CAN FD"%string
  else None.

Definition isMatchValid (m : CanHubTxnMatch) : bool :=
  if ma_id_ignored_bits m =? CANHUB_TXN_ANY_ID_BITS then true
  else CanId_IsValid (ma_id m) && CanId_AreIgnoredBitsValid (ma_id m) (ma_id_ignored_bits m).

Definition isSameId (first second : CanHubTxnMatch) : bool :=
  (cid_value (ma_id first) =? cid_value (ma_id second)) && eqb (cid_extended (ma_id first)) (cid_extended (ma_id second)) &&
  (ma_id_ignored_bits first =? ma_id_ignored_bits second).

(** [while (bit < ID_BITS_MAX && ...)]; [n] is what is left to [ID_BITS_MAX]. *)
Fixpoint lowest_loop (n : nat) (bit value : Z) : Z :=
  match n with
  | O => 0
  | S n' => if Z.land value (u32 (Z.shiftl 1 bit)) =? 0 then lowest_loop n' (bit + 1) value else bit
  end.
Definition lowestSetBit (value : Z) : Z := lowest_loop ID_BITS_MAX 0 value.

Definition checkLink (self : TransactionBuilder) (step : CanHubTxnStep) (link : CanHubTxnIsotpLink) : bool * TransactionBuilder :=
  if negb (CanId_IsValid (il_tx_id link)) || negb (CanId_IsValid (il_rx_id link)) then fail self "an ISO-TP link id does not fit its 11 or 29 bits"
  else if negb (cid_value (cs_id step) =? cid_value (il_tx_id link)) || negb (eqb (cid_extended (cs_id step)) (cid_extended (il_tx_id link)))
  then fail self "an ISO-TP step is sent on its link's tx_id"
  else if il_fd link && ((il_fd_data_length link <? FRAME_PAYLOAD_MAX_CLASSIC) || negb (isFrameLength (il_fd_data_length link)))
  then fail self "an ISO-TP link over CAN FD needs fd_data_length 8, 12, 16, 20, 24, 32, 48 or 64"
  else if negb (il_fd link) && il_bitrate_switch link then fail self "bit rate switch is CAN FD: the ISO-TP link needs fd"
  else
    match cs_data step with
    | None => if bool_decide (is_Some (cs_response step)) then pass self else fail self "an ISO-TP step that sends nothing waits for a response"
    | Some _ =>
        if (cs_length step =? 0) || (cs_length step >? CANHUB_ISOTP_MESSAGE_MAX) then fail self "an ISO-TP message is 1-4095 bytes" else pass self
    end.

Definition checkFrame (self : TransactionBuilder) (step : CanHubTxnStep) : bool * TransactionBuilder :=
  match cs_data step with
  | None => if bool_decide (is_Some (cs_response step)) then pass self else fail self "a step that sends nothing waits for a response"
  | Some _ =>
      if negb (CanId_IsValid (cs_id step)) then fail self "the id does not fit its 11 or 29 bits"
      else if negb (isFrameLength (cs_length step)) then fail self "a frame is 0-8 bytes, or 12, 16, 20, 24, 32, 48 or 64 for CAN FD"
      else pass self
  end.

(** The nodes are read up to [node_count]. *)
Definition checkNodes (self : TransactionBuilder) (response : CanHubTxnResponse) : bool * TransactionBuilder :=
  let ignored := ma_id_ignored_bits (re_success response) in
  let shift := lowestSetBit ignored in
  match re_nodes response with
  | None =>
      if negb (re_node_count response =? 0) || negb (re_allowed_missing response =? 0) then fail self "node_count and allowed_missing need nodes"
      else pass self
  | Some nodes =>
      let nodes := take (Z.to_nat (re_node_count response)) nodes in
      if (re_node_count response =? 0) || (re_node_count response >? CANHUB_TXN_ROSTER_MAX) then fail self "a response waits for 1 to 64 nodes"
      else if re_allowed_missing response >=? re_node_count response then fail self "allowed_missing must leave at least one node to wait for"
      else if re_node_from response =? CANHUB_TXN_NODE_IN_BYTE then
        if re_node_byte response >=? CANHUB_FRAME_PAYLOAD_MAX then fail self "node_byte is a data byte, 0-63"
        else if existsb (λ node, node >? BYTE_VALUE_MAX) nodes then fail self "a node told by a data byte is 0-255"
        else pass self
      else if negb (re_node_from response =? CANHUB_TXN_NODE_IN_ID) then fail self "node_from is CANHUB_TXN_NODE_IN_ID or CANHUB_TXN_NODE_IN_BYTE"
      else if (ignored =? 0) || (ignored =? CANHUB_TXN_ANY_ID_BITS)
      then fail self "nodes told by the id need the bits that tell them in success.id_ignored_bits"
      else if existsb (λ node, negb (Z.ldiff (u64 (Z.shiftl node shift)) ignored =? 0)) nodes
      then fail self "a node does not fit the bits success.id_ignored_bits leaves free"
      else pass self
  end.

Definition checkResponse (self : TransactionBuilder) (response : CanHubTxnResponse) (where_ : option CanHubTxnMatch) : bool * TransactionBuilder :=
  let bad m := match m with Some m => negb (isMatchValid m) | None => false end in
  if re_timeout_ms response =? 0 then fail self "a response needs timeout_ms"
  else if bool_decide (is_Some (re_pending response)) && (re_timeout_after_pending_ms response =? 0)
  then fail self "a response with pending needs timeout_after_pending_ms"
  else if negb (isMatchValid (re_success response)) then fail self "the success id or its ignored bits do not fit 11 or 29 bits"
  else if bad (re_failure response) then fail self "the failure id or its ignored bits do not fit 11 or 29 bits"
  else if bad (re_pending response) then fail self "the pending id or its ignored bits do not fit 11 or 29 bits"
  else if bad where_ then fail self "the where id or its ignored bits do not fit 11 or 29 bits"
  else if match where_ with Some m => bool_decide (is_Some (re_nodes response)) && negb (isSameId m (re_success response)) | None => false end
  then fail self "where on a response with nodes keeps the response's id"
  else checkNodes self response.

Definition checkIsotpResponse (self : TransactionBuilder) (step : CanHubTxnStep) (link : CanHubTxnIsotpLink) (response : CanHubTxnResponse) : bool * TransactionBuilder :=
  let rx := {| ma_id := il_rx_id link; ma_id_ignored_bits := 0; ma_bytes := replicate CANHUB_TXN_MATCH_BYTES {| by_mask := 0; by_value := 0 |} |} in
  if bool_decide (is_Some (re_nodes response)) then fail self "an ISO-TP response does not wait for nodes"
  else if negb (isSameId (re_success response) rx) || match cs_where step with Some m => negb (isSameId m rx) | None => false end
  then fail self "an ISO-TP response matches the link's rx_id exactly"
  else pass self.

Definition checkStep (self : TransactionBuilder) (step : CanHubTxnStep) : bool * TransactionBuilder :=
  let '(ok, self) := match cs_isotp step with Some link => checkLink self step link | None => checkFrame self step end in
  if negb ok then (false, self)
  else
    match cs_response step with
    | None => match cs_where step with None => pass self | Some _ => fail self "where needs a response" end
    | Some response =>
        let '(ok, self) := checkResponse self response (cs_where step) in
        if negb ok then (false, self)
        else match cs_isotp step with None => pass self | Some link => checkIsotpResponse self step link response end
    end.

(** ** Templates *)

(** [for(i=0; i<CANHUB_TXN_MATCH_BYTES; i++)]: the mask and the value. *)
Fixpoint word_of_bytes (bytes : list CanHubTxnByte) (i mask value : Z) : Z * Z :=
  match bytes with
  | [] => (mask, value)
  | b :: bytes' =>
      word_of_bytes bytes' (i + 1) (Z.lor mask (Z.shiftl (by_mask b) (i * 8))) (Z.lor value (Z.shiftl (Z.land (by_value b) (by_mask b)) (i * 8)))
  end.
Definition bytesToWord (bytes : list CanHubTxnByte) : Z * Z := word_of_bytes (take CANHUB_TXN_MATCH_BYTES bytes) 0 0 0.

Definition toPattern (m : CanHubTxnMatch) : TxnPattern :=
  let width := CanId_Width (ma_id m) in
  let compared := Z.ldiff width (ma_id_ignored_bits m) in
  let '(payload_mask, payload_value) := bytesToWord (ma_bytes m) in
  if ma_id_ignored_bits m =? CANHUB_TXN_ANY_ID_BITS
  then {| tp_can_id := 0; tp_can_mask := 0; tp_payload_mask := payload_mask; tp_payload_value := payload_value |}
  else
    let can_id := Z.land (cid_value (ma_id m)) compared in
    {| tp_can_id := if cid_extended (ma_id m) then Z.lor can_id FRAME_CAN_ID_FLAG_EFF else can_id;
       tp_can_mask := Z.lor compared FRAME_CAN_ID_FLAG_EFF; tp_payload_mask := payload_mask; tp_payload_value := payload_value |}.

Definition buildAdvance (response : CanHubTxnResponse) (where_ : option CanHubTxnMatch) : TxnPattern :=
  match where_ with
  | None => toPattern (re_success response)
  | Some where_ =>
      let pattern := toPattern where_ in
      let '(payload_mask, payload_value) := bytesToWord (ma_bytes (re_success response)) in
      let '(where_mask, where_value) := bytesToWord (ma_bytes where_) in
      {| tp_can_id := tp_can_id pattern; tp_can_mask := tp_can_mask pattern; tp_payload_mask := Z.lor payload_mask where_mask;
         tp_payload_value := Z.ldiff payload_value where_mask |}
  end.

Definition flag_if (b : bool) (flag : Z) : Z := if b then flag else 0.

Definition toIsotpParameters (link : CanHubTxnIsotpLink) : TxnIsotpParameters := {|
  ti_response_id := CanId_ToWire (il_rx_id link);
  ti_flags := Z.lor (Z.lor (Z.lor (flag_if (il_padded link) TXN_ISOTP_FLAG_PADDING) (flag_if (il_address_byte link) TXN_ISOTP_FLAG_ADDRESS_BYTE))
                           (flag_if (il_fd link) TXN_ISOTP_FLAG_FD)) (flag_if (il_bitrate_switch link) TXN_ISOTP_FLAG_BIT_RATE_SWITCH);
  ti_tx_address := if il_address_byte link then il_tx_address link else 0; ti_rx_address := if il_address_byte link then il_rx_address link else 0;
  ti_padding := if il_padded link then il_padding link else 0;
  ti_tx_data_length := if il_fd link then il_fd_data_length link else FRAME_PAYLOAD_MAX_CLASSIC;
  ti_block_size := il_block_size link; ti_st_min := il_st_min link |}.

Definition buildTemplate (step : CanHubTxnStep) : TxnTemplateMessage :=
  let t := template_zero <| tt_gap_us := cs_gap_us step |> in
  let t := match cs_isotp step with
           | Some link => t <| tt_type := kTXN_TEMPLATE_TYPE_ISOTP |> <| tt_isotp := toIsotpParameters link |>
           | None => t
           end in
  match cs_response step with
  | None => t <| tt_advance_mode := kTXN_ADVANCE_MODE_NONE |>
  | Some response =>
      let t := t <| tt_advance_mode := kTXN_ADVANCE_MODE_COUNT |> <| tt_count_k := 1 |> in
      let t := match re_nodes response with
               | Some _ =>
                   t <| tt_advance_mode := if re_allowed_missing response =? 0 then kTXN_ADVANCE_MODE_ROSTER_ALL else kTXN_ADVANCE_MODE_ROSTER_K |>
                     <| tt_count_k := u8 (re_node_count response - re_allowed_missing response) |>
               | None => t
               end in
      let t := t <| tt_timeout_ms := re_timeout_ms response |>
                 <| tt_flags := Z.lor (flag_if (re_continue_on_timeout response) TXN_TEMPLATE_FLAG_SOFT)
                                      (flag_if (re_on_mismatch_abort response) TXN_TEMPLATE_FLAG_MISMATCH_ABORT) |> in
      let t := t <| tt_advance := buildAdvance response (cs_where step) |> <| tt_patterns_present := Z.shiftl 1 kTXN_PATTERN_ADVANCE |> in
      let t := match re_failure response with
               | Some m => t <| tt_abort := toPattern m |> <| tt_patterns_present := Z.lor (tt_patterns_present t) (Z.shiftl 1 kTXN_PATTERN_ABORT) |>
               | None => t
               end in
      match re_pending response with
      | Some m => t <| tt_extend := toPattern m |> <| tt_patterns_present := Z.lor (tt_patterns_present t) (Z.shiftl 1 kTXN_PATTERN_EXTEND) |>
                    <| tt_extend_timeout_ms := re_timeout_after_pending_ms response |>
      | None => t
      end
  end.

(** [candidate.template_id = 0; memcmp(...) == 0] *)
Definition same_shape (candidate t : TxnTemplateMessage) : bool := bool_decide (candidate <| tt_template_id := 0 |> = t).

(** [for(i=0; i<self->template_count; i++)] *)
Fixpoint find_template (templates : list TxnTemplateMessage) (i : Z) (t : TxnTemplateMessage) : option Z :=
  match templates with
  | [] => None
  | candidate :: templates' => if same_shape candidate t then Some i else find_template templates' (i + 1) t
  end.

Definition findTemplate (self : TransactionBuilder) (t : TxnTemplateMessage) : option Z :=
  if negb (bu_last_template self =? NO_TEMPLATE) && same_shape ((bu_templates self).[bu_last_template self]) t then Some (bu_last_template self)
  else find_template (take (Z.to_nat (bu_template_count self)) (bu_templates self)) 0 t.

Definition placeTemplate (self : TransactionBuilder) (t : TxnTemplateMessage) (build : TransactionBuild) : bool * TransactionBuilder * TransactionBuild :=
  match findTemplate self t with
  | Some template_id => (true, self <| bu_last_template := template_id |>, build)
  | None =>
      if bu_template_count self =? TXN_TEMPLATES_MAX then
        let '(ok, self) := fail self "the agent holds 16 ways of waiting per transaction: each distinct response, where shape, gap and ISO-TP link is one" in
        (ok, self, build)
      else
        let t := t <| tt_template_id := bu_template_count self |> in
        let self := self <| bu_templates := (bu_templates self).[bu_template_count self := t] |> in
        let self := self <| bu_last_template := bu_template_count self |> in
        let self := self <| bu_template_count := u8 (bu_template_count self + 1) |> in
        (true, self, build <| bd_defines_template := true |> <| bd_template_message := t |>)
  end.

(** ** Rosters *)

(** [nodes] holds at least [node_count] entries. *)
Definition toRoster (response : CanHubTxnResponse) (nodes : list Z) : TxnRosterMessage :=
  let origin := if re_node_from response =? CANHUB_TXN_NODE_IN_BYTE
                then {| toe_source := kTXN_ORIGIN_SOURCE_PAYLOAD; toe_shift := 0; toe_payload_offset := re_node_byte response; toe_mask := BYTE_VALUE_MAX |}
                else {| toe_source := kTXN_ORIGIN_SOURCE_CAN_ID; toe_shift := lowestSetBit (ma_id_ignored_bits (re_success response)); toe_payload_offset := 0;
                        toe_mask := ma_id_ignored_bits (re_success response) |} in
  {| tr_channel := 0; tr_txn_id := 0; tr_origin := origin; tr_roster_count := u8 (re_node_count response);
     tr_roster := list_inserts 0 (take (Z.to_nat (re_node_count response)) nodes) (replicate TXN_ROSTER_MAX 0) |}.

Definition buildRoster (self : TransactionBuilder) (response : CanHubTxnResponse) (nodes : list Z) (build : TransactionBuild) : bool * TransactionBuilder * TransactionBuild :=
  let build := build <| bd_roster := toRoster response nodes |> in
  if negb (bu_has_roster self) then (true, self, build <| bd_defines_roster := true |>)
  else if negb (bool_decide (bu_roster self = bd_roster build)) then
    let '(ok, self) := fail self "a transaction waits for one set of nodes, told the same way, in every response" in (ok, self, build)
  else (true, self, build).

(** ** Records *)

Definition expectValue (response : CanHubTxnResponse) (where_ : CanHubTxnMatch) : Z :=
  let '(success_mask, success_value) := bytesToWord (ma_bytes (re_success response)) in
  let '(where_mask, where_value) := bytesToWord (ma_bytes where_) in
  Z.lor (Z.ldiff success_value where_mask) where_value.

(** The expected value of a step with a [where]; the checks made sure there is a response. *)
Definition set_expected (step : CanHubTxnStep) (record : TxnStep) : TxnStep :=
  match cs_where step, cs_response step with
  | Some where_, Some response =>
      record <| st_flags := Z.lor (st_flags record) TXN_STEP_FLAG_EXPECT_VALUE |> <| st_expect_value := expectValue response where_ |>
  | _, _ => record
  end.

Definition buildFrameRecord (self : TransactionBuilder) (step : CanHubTxnStep) : TxnStep :=
  let record := set_expected step TxnStep_zero in
  match cs_data step with
  | None =>
      record <| st_flags := Z.lor (st_flags record) TXN_STEP_FLAG_EXPECT_ONLY |>
             <| st_can_id := match cs_isotp step with Some link => CanId_ToWire (il_tx_id link) | None => 0 end |>
  | Some data =>
      let record := record <| st_can_id := CanId_ToWire (cs_id step) |> <| st_payload_length := u8 (cs_length step) |> in
      let record := if cs_length step >? FRAME_PAYLOAD_MAX_CLASSIC
                    then record <| st_frame_flags := Z.lor FRAME_FLAG_FD (flag_if (bu_bitrate_switch self) FRAME_FLAG_BRS) |> else record in
      record <| st_payload := list_inserts 0 (take (Z.to_nat (cs_length step)) data) (st_payload record) |>
  end.

(** [while (offset < step->length)]; [fuel] bounds the records. *)
Fixpoint message_loop (fuel : nat) (can_id length offset : Z) (data : list Z) (build : TransactionBuild) : TransactionBuild :=
  match fuel with
  | O => build
  | S fuel' =>
      if offset <? length then
        let piece := u16 (length - offset) in
        let piece := if piece >? TRANSACTION_BUILDER_MESSAGE_RECORD_BYTES then TRANSACTION_BUILDER_MESSAGE_RECORD_BYTES else piece in
        let record := TxnStep_zero <| st_can_id := can_id |> <| st_flags := Z.lor TXN_STEP_FLAG_MESSAGE TXN_STEP_FLAG_CONTINUED |>
                        <| st_payload_length := u8 piece |> <| st_payload := list_inserts 0 (slice (Z.to_nat offset) (Z.to_nat piece) data) (st_payload TxnStep_zero) |> in
        let build := build <| bd_records := (bd_records build).[bd_record_count build := record] |> <| bd_record_count := u8 (bd_record_count build + 1) |> in
        message_loop fuel' can_id length (u16 (offset + piece)) data build
      else build
  end.

(** The last record ends the message. *)
Definition close_message (step : CanHubTxnStep) (build : TransactionBuild) : TransactionBuild :=
  let last := bd_record_count build - 1 in
  let record := (bd_records build).[last] <| st_flags := TXN_STEP_FLAG_MESSAGE |> in
  build <| bd_records := (bd_records build).[last := set_expected step record] |>.

Definition buildMessageRecords (step : CanHubTxnStep) (link : CanHubTxnIsotpLink) (data : list Z) (build : TransactionBuild) : TransactionBuild :=
  close_message step (message_loop TRANSACTION_BUILDER_RECORDS_MAX (CanId_ToWire (il_tx_id link)) (cs_length step) 0 data build).

(** [for(i=0; i<build->record_count; i++)] *)
Definition set_template (template_id count : Z) (records : list TxnStep) : list TxnStep :=
  ((λ r, r <| st_template_id := template_id |>) <$> take (Z.to_nat count) records) ++ drop (Z.to_nat count) records.

Definition buildRecords (self : TransactionBuilder) (step : CanHubTxnStep) (template_id : Z) (build : TransactionBuild) : TransactionBuild :=
  let build := match cs_isotp step, cs_data step with
               | Some link, Some data => buildMessageRecords step link data build
               | _, _ => build <| bd_records := (bd_records build).[0 := buildFrameRecord self step] |> <| bd_record_count := 1 |>
               end in
  build <| bd_records := set_template template_id (bd_record_count build) (bd_records build) |>.

(** ** Public operations *)

(** The message, or the error. *)
Definition TransactionBuilder_Begin (options : option CanHubTxnOptions) : option string * TxnBeginMessage :=
  let begin := {| tb_channel := 0; tb_flags := 0; tb_idle_timeout_ms := 0; tb_keepalive := keepalive_zero |} in
  match options with
  | None => (None, begin)
  | Some options =>
      if op_idle_timeout_ms options =? 0 then (Some "options need idle_timeout_ms (pass NULL options for the defaults)"%string, begin)
      else
        let begin := {| tb_channel := 0; tb_flags := flag_if (op_exclusive options) TXN_BEGIN_FLAG_EXCLUSIVE;
                        tb_idle_timeout_ms := op_idle_timeout_ms options; tb_keepalive := keepalive_zero |} in
        match op_keepalive options with
        | None => (None, begin)
        | Some keepalive =>
            match isKeepaliveValid keepalive with
            | Some error => (Some error, begin)
            | None =>
                (None, {| tb_channel := 0; tb_flags := tb_flags begin; tb_idle_timeout_ms := tb_idle_timeout_ms begin;
                          tb_keepalive := {|
                            tka_period_ms := ka_every_ms keepalive; tka_can_id := CanId_ToWire (ka_id keepalive);
                            tka_payload_length := ka_length keepalive;
                            tka_frame_flags := if ka_length keepalive >? FRAME_PAYLOAD_MAX_CLASSIC
                                               then Z.lor FRAME_FLAG_FD (flag_if (op_bitrate_switch options) FRAME_FLAG_BRS) else 0;
                            tka_payload := list_inserts 0 (take (Z.to_nat (ka_length keepalive)) (ka_data keepalive)) (tka_payload keepalive_zero) |} |})
            end
        end
  end.

Definition TransactionBuilder_Step (self : TransactionBuilder) (step : CanHubTxnStep) (build : TransactionBuild) : bool * TransactionBuilder * TransactionBuild :=
  let build := build <| bd_defines_roster := false |> <| bd_defines_template := false |> <| bd_record_count := 0 |> in
  let self := self <| bu_error := None |> in
  let '(ok, self) := checkStep self step in
  if negb ok then (false, self, build)
  else
    let '(ok, self, build) :=
      match cs_response step with
      | Some response => match re_nodes response with Some nodes => buildRoster self response nodes build | None => (true, self, build) end
      | None => (true, self, build)
      end in
    if negb ok then (false, self, build)
    else
      let '(ok, self, build) := placeTemplate self (buildTemplate step) build in
      if negb ok then (false, self, build <| bd_defines_roster := false |>)
      else
        let self := if bd_defines_roster build then self <| bu_has_roster := true |> <| bu_roster := bd_roster build |> else self in
        (true, self, buildRecords self step (bu_last_template self) build).

(** * What a built template matches

    The builder folds the bytes of a match into two 64-bit words and the
    identifier into a mask; the runner compares words.  Bit by bit that is the
    comparison the API describes. *)
Create HintDb bits discriminated.
#[export] Hint Rewrite Z.land_spec Z.lor_spec Z.ldiff_spec Z.testbit_0_l : bits.

(** ** Bits of bounded numbers *)

Lemma bits_above n x k : 0 ≤ n → 0 ≤ x < 2 ^ n → n ≤ k → Z.testbit x k = false.
Proof. intros Hn Hx Hk. destruct (decide (x = 0)) as [->|]; [apply Z.testbit_0_l|]. apply Z.bits_above_log2; [lia|]. apply Z.log2_lt_pow2; [lia|]. pose proof (Z.pow_le_mono_r 2 n k). lia. Qed.

Lemma bits_bound n x : 0 ≤ n → 0 ≤ x → (∀ k, n ≤ k → Z.testbit x k = false) → x < 2 ^ n.
Proof.
  intros Hn Hx H. destruct (decide (x = 0)) as [->|Hne]; [lia|]. apply Z.log2_lt_pow2; [lia|]. apply Z.nle_gt. intros Hle.
  specialize (H _ Hle). by rewrite Z.bit_log2 in H by lia.
Qed.

Lemma byte_bits x k : is_u8 x → 8 ≤ k → Z.testbit x k = false.
Proof. intros Hx Hk. apply (bits_above 8); [lia|exact Hx|done]. Qed.

(** Two bytes agree under a mask when their bits do. *)
Lemma masked_eq x y m : Z.land x m = Z.land y m ↔ ∀ k, 0 ≤ k → Z.testbit m k = true → Z.testbit x k = Z.testbit y k.
Proof.
  split.
  - intros H k Hk Hm. apply (f_equal (λ z, Z.testbit z k)) in H. autorewrite with bits in H. by rewrite Hm, !andb_true_r in H.
  - intros H. apply Z.bits_inj'. intros k Hk. autorewrite with bits. destruct (Z.testbit m k) eqn:Hm; [by rewrite H|by rewrite !andb_false_r].
Qed.

(** ** The words of a match *)

Definition byte_zero : CanHubTxnByte := {| by_mask := 0; by_value := 0 |}.
Definition byte_at (bytes : list CanHubTxnByte) (i : Z) : CanHubTxnByte := default byte_zero (bytes !! Z.to_nat i).
Definition byte_typed (b : CanHubTxnByte) : Prop := is_u8 (by_mask b) ∧ is_u8 (by_value b).

Lemma byte_at_typed bytes i : Forall byte_typed bytes → byte_typed (byte_at bytes i).
Proof.
  intros H. unfold byte_at. destruct (bytes !! Z.to_nat i) as [b|] eqn:Hb; [|split; cbn; zlia]. by apply (Forall_lookup_1 _ _ _ _ H Hb).
Qed.

Lemma byte_at_cons b bytes i : 0 < i → byte_at (b :: bytes) i = byte_at bytes (i - 1).
Proof. intros Hi. unfold byte_at. by replace (Z.to_nat i) with (S (Z.to_nat (i - 1))) by lia. Qed.

Lemma split_bit k : 0 ≤ k → k = 8 * (k / 8) + k mod 8 ∧ 0 ≤ k mod 8 < 8 ∧ 0 ≤ k / 8.
Proof. intros Hk. pose proof (Z.div_mod k 8). pose proof (Z.mod_pos_bound k 8). pose proof (Z.div_pos k 8). lia. Qed.

(** One byte placed at index [i]. *)
Lemma placed_bit x i k : is_u8 x → 0 ≤ i → 0 ≤ k → Z.testbit (Z.shiftl x (i * 8)) k = (k / 8 =? i) && Z.testbit x (k mod 8).
Proof.
  intros Hx Hi Hk. destruct (split_bit k Hk) as (Hk8 & Hm & Hd). rewrite Z.shiftl_spec by done. destruct (Z.eqb_spec (k / 8) i) as [<-|Hne]; cbn [andb].
  - f_equal. lia.
  - destruct (Z.lt_ge_cases (k - i * 8) 0); [by apply Z.testbit_neg_r|]. apply byte_bits; [done|]. nia.
Qed.

Lemma word_bits bytes i mask value k : Forall byte_typed bytes → 0 ≤ i → 0 ≤ k →
  let at_ := byte_at bytes (k / 8 - i) in
  Z.testbit (word_of_bytes bytes i mask value).1 k = Z.testbit mask k || (i <=? k / 8) && Z.testbit (by_mask at_) (k mod 8) ∧
  Z.testbit (word_of_bytes bytes i mask value).2 k = Z.testbit value k || (i <=? k / 8) && (Z.testbit (by_value at_) (k mod 8) && Z.testbit (by_mask at_) (k mod 8)).
Proof.
  intros H. revert i mask value. induction H as [|b bytes [Hm Hv] Hall IH]; intros i mask value Hi Hk at_.
  { subst at_. cbn. rewrite Z.testbit_0_l, !andb_false_r, !orb_false_r. done. }
  cbn [word_of_bytes]. destruct (IH (i + 1) (Z.lor mask (Z.shiftl (by_mask b) (i * 8))) (Z.lor value (Z.shiftl (Z.land (by_value b) (by_mask b)) (i * 8)))) as [-> ->]; [lia|done|].
  assert (is_u8 (Z.land (by_value b) (by_mask b))) as Hvm.
  { split; [apply Z.land_nonneg; left; apply Hv|]. apply (bits_bound 8); [lia|apply Z.land_nonneg; left; apply Hv|]. intros j Hj. by rewrite Z.land_spec, byte_bits. }
  rewrite !Z.lor_spec, !placed_bit, !Z.land_spec, <- !orb_assoc by done. destruct (split_bit k Hk) as (_ & _ & Hd). subst at_.
  destruct (Z.lt_trichotomy (k / 8) i) as [Hlt|[He|Hgt]].
  - rewrite (proj2 (Z.eqb_neq _ _)), !(proj2 (Z.leb_gt _ _)) by lia. done.
  - rewrite He, Z.eqb_refl, Z.leb_refl, (proj2 (Z.leb_gt (i + 1) i)), Z.sub_diag by lia. cbn. by rewrite !orb_false_r.
  - rewrite (proj2 (Z.eqb_neq _ _)), !(proj2 (Z.leb_le _ _)), (byte_at_cons b bytes) by lia. replace (k / 8 - (i + 1)) with (k / 8 - i - 1) by lia. done.
Qed.

Lemma bytesToWord_bits bytes k : Forall byte_typed bytes → length bytes = CANHUB_TXN_MATCH_BYTES → 0 ≤ k →
  let at_ := byte_at bytes (k / 8) in
  Z.testbit (bytesToWord bytes).1 k = Z.testbit (by_mask at_) (k mod 8) ∧
  Z.testbit (bytesToWord bytes).2 k = Z.testbit (by_value at_) (k mod 8) && Z.testbit (by_mask at_) (k mod 8).
Proof.
  intros Hb Hl Hk at_. unfold bytesToWord. rewrite take_ge by lia. destruct (word_bits bytes 0 0 0 k Hb) as [-> ->]; [lia|done|]. rewrite !Z.sub_0_r, Z.testbit_0_l.
  destruct (split_bit k Hk) as (_ & _ & Hd). by rewrite (proj2 (Z.leb_le _ _)).
Qed.

Lemma word_nonneg bytes i mask value : Forall byte_typed bytes → 0 ≤ i → 0 ≤ mask → 0 ≤ value →
  0 ≤ (word_of_bytes bytes i mask value).1 ∧ 0 ≤ (word_of_bytes bytes i mask value).2.
Proof.
  intros H. revert i mask value. induction H as [|b bytes [Hm Hv] _ IH]; intros i mask value Hi H1 H2; [done|]. cbn [word_of_bytes].
  apply IH; [lia| |]; apply Z.lor_nonneg; (split; [done|]); apply Z.shiftl_nonneg; [apply Hm|]. apply Z.land_nonneg. left. apply Hv.
Qed.

Lemma bytesToWord_u64 bytes : Forall byte_typed bytes → length bytes = CANHUB_TXN_MATCH_BYTES → is_u64 (bytesToWord bytes).1 ∧ is_u64 (bytesToWord bytes).2.
Proof.
  intros Hb Hl. destruct (word_nonneg (take CANHUB_TXN_MATCH_BYTES bytes) 0 0 0) as [H1 H2]; [by apply Forall_take|lia..|].
  assert (∀ k, 64 ≤ k → byte_at bytes (k / 8) = byte_zero) as Hz.
  { intros k Hk. unfold byte_at. rewrite lookup_ge_None_2; [done|]. pose proof (Z.div_le_mono 64 k 8). change (64 / 8) with 8 in *. lia. }
  split; split; try assumption; apply (bits_bound 64); try lia; try assumption; intros k Hk;
    destruct (bytesToWord_bits bytes k Hb Hl) as [Em Ev]; try lia; rewrite Hz in Em, Ev by done; cbn [by_mask by_value byte_zero] in Em, Ev; by rewrite ?Z.testbit_0_l in *.
Qed.

(** ** The payload of a frame *)

(** Bytes past the end read as 0. *)
Definition frame_byte (f : FrameMessage) (i : Z) : Z := if i <? frame_payload_length f then (frame_payload f).[i] else 0.

Lemma frame_byte_u8 f i : frame_typed f → 0 ≤ i → is_u8 (frame_byte f i).
Proof.
  intros (Hl & Hn & Hb) Hi. unfold frame_byte. destruct (Z.ltb_spec i (frame_payload_length f)); [|zlia]. apply (Forall_lookup_1 _ _ (Z.to_nat i) _ Hb). apply zget_lookup. unfold zlen. lia.
Qed.

Lemma word_loop_bits n i f word k : frame_typed f → 0 ≤ k →
  Z.testbit (word_loop n i f 0 word) k =
  Z.testbit word k || (Z.of_nat i <=? k / 8) && (k / 8 <? Z.of_nat (i + n)) && Z.testbit (frame_byte f (k / 8)) (k mod 8).
Proof.
  intros Hf Hk. destruct (split_bit k Hk) as (_ & _ & Hd). revert i word. induction n as [|n IH]; intros i word; cbn [word_loop].
  { replace ((Z.of_nat i <=? k / 8) && (k / 8 <? Z.of_nat (i + 0))) with false by (destruct (Z.leb_spec (Z.of_nat i) (k / 8)), (Z.ltb_spec (k / 8) (Z.of_nat (i + 0))); try done; lia).
    by rewrite orb_false_r. }
  rewrite Z.add_0_l. destruct (Z.ltb_spec (Z.of_nat i) (frame_payload_length f)) as [Hin|Hout].
  - assert (is_u8 ((frame_payload f).[Z.of_nat i])) as Hu by (pose proof (frame_byte_u8 f (Z.of_nat i) Hf ltac:(lia)) as H; unfold frame_byte in H; by rewrite (proj2 (Z.ltb_lt _ _) Hin) in H).
    rewrite IH, Z.lor_spec, placed_bit, <- orb_assoc by (done || lia). f_equal. replace (Z.of_nat (S i + n)) with (Z.of_nat (i + S n)) by lia.
    destruct (Z.lt_trichotomy (k / 8) (Z.of_nat i)) as [Hlt|[He|Hgt]].
    + rewrite (proj2 (Z.eqb_neq _ _)), !(proj2 (Z.leb_gt _ _)) by lia. done.
    + rewrite He, Z.eqb_refl, Z.leb_refl, (proj2 (Z.leb_gt (Z.of_nat (S i)) _)), (proj2 (Z.ltb_lt _ _)) by lia. cbn. rewrite orb_false_r. unfold frame_byte. by rewrite (proj2 (Z.ltb_lt _ _) Hin).
    + rewrite (proj2 (Z.eqb_neq _ _)), !(proj2 (Z.leb_le _ _)) by lia. done.
  - destruct (Z.leb_spec (Z.of_nat i) (k / 8)); [|by rewrite orb_false_r]. unfold frame_byte. rewrite (proj2 (Z.ltb_ge (k / 8) (frame_payload_length f))), Z.testbit_0_l, andb_false_r, orb_false_r by lia. done.
Qed.

Lemma payloadWord_bits f k : frame_typed f → 0 ≤ k → Z.testbit (payloadWord f) k = (k / 8 <? 8) && Z.testbit (frame_byte f (k / 8)) (k mod 8).
Proof.
  intros Hf Hk. unfold payloadWord. rewrite word_loop_bits, Z.testbit_0_l by done. destruct (split_bit k Hk) as (_ & _ & Hd). by rewrite (proj2 (Z.leb_le (Z.of_nat 0) (k / 8))) by lia.
Qed.

(** A word compared under a mask, byte by byte: [mask] and [value] give the bits of each byte. *)
Lemma words_agree f wmask wvalue (bmask bvalue : Z → Z) :
  frame_typed f → (∀ i, is_u8 (bmask i)) → (∀ i, 8 ≤ i → bmask i = 0) →
  (∀ k, 0 ≤ k → Z.testbit wmask k = Z.testbit (bmask (k / 8)) (k mod 8)) →
  (∀ k, 0 ≤ k → Z.testbit wmask k = true → Z.testbit wvalue k = Z.testbit (bvalue (k / 8)) (k mod 8)) →
  matchesPayload (payloadWord f) wmask wvalue = true ↔ ∀ i, 0 ≤ i < 8 → Z.land (frame_byte f i) (bmask i) = Z.land (bvalue i) (bmask i).
Proof.
  intros Hf Hu Hz Hm Hv. unfold matchesPayload. rewrite Z.eqb_eq, masked_eq. split.
  - intros H i Hi. apply masked_eq. intros k Hk Hbit. assert (k < 8) as Hk8 by (apply Z.nle_gt; intros Hge; by rewrite byte_bits in Hbit).
    specialize (H (8 * i + k) ltac:(lia)). assert ((8 * i + k) / 8 = i) as Hq by (symmetry; apply (Z.div_unique _ _ _ k); lia). assert ((8 * i + k) mod 8 = k) as Hr by (symmetry; apply (Z.mod_unique _ _ i); lia).
    rewrite payloadWord_bits, Hq, Hr in H by (done || lia). rewrite Hv, Hq, Hr in H; [|lia|rewrite Hm, Hq, Hr by lia; done].
    rewrite Hm, Hq, Hr in H by lia. rewrite <- H by done. by rewrite (proj2 (Z.ltb_lt _ _)) by lia.
  - intros H k Hk Hbit. pose proof Hbit as Hbit'. rewrite Hm in Hbit' by done. destruct (split_bit k Hk) as (_ & Hmod & Hd). rewrite payloadWord_bits by done. rewrite Hv by done.
    assert (k / 8 < 8) as Hlt by (apply Z.nle_gt; intros Hge; by rewrite Hz, Z.testbit_0_l in Hbit').
    rewrite (proj2 (Z.ltb_lt _ _) Hlt). cbn [andb]. exact (proj1 (masked_eq _ _ _) (H (k / 8) ltac:(lia)) (k mod 8) ltac:(lia) Hbit').
Qed.

(** ** Identifiers *)

Definition frame_ext (f : FrameMessage) : bool := Z.testbit (frame_can_id f) 31.
Definition frame_id (f : FrameMessage) : Z := Z.land (frame_can_id f) FRAME_CAN_ID_MASK.

(** A frame of the bus: the identifier of a standard frame has 11 bits. *)
Definition on_the_bus (f : FrameMessage) : Prop := frame_typed f ∧ is_u32 (frame_can_id f) ∧ (frame_ext f = false → frame_id f ≤ CANHUB_STANDARD_ID_MASK).

(** "Its id equals id except in id_ignored_bits" (canhub.h); all of them ignored is any frame. *)
Definition meets_id (m : CanHubTxnMatch) (f : FrameMessage) : Prop :=
  ma_id_ignored_bits m = CANHUB_TXN_ANY_ID_BITS ∨
  frame_ext f = cid_extended (ma_id m) ∧ Z.ldiff (frame_id f) (ma_id_ignored_bits m) = Z.ldiff (cid_value (ma_id m)) (ma_id_ignored_bits m).

(** "Each of its first 8 data bytes meets bytes[i] under bytes[i].mask." *)
Definition meets_bytes (bytes : list CanHubTxnByte) (f : FrameMessage) : Prop :=
  ∀ i, 0 ≤ i < 8 → Z.land (frame_byte f i) (by_mask (byte_at bytes i)) = Z.land (by_value (byte_at bytes i)) (by_mask (byte_at bytes i)).

Definition meets (m : CanHubTxnMatch) (f : FrameMessage) : Prop := meets_id m f ∧ meets_bytes (ma_bytes m) f.

(** A [where]: "its id and id_ignored_bits replace the response's, its bytes add
    to them", and where both compare a bit the [where] wins. *)
Definition answers (r : CanHubTxnResponse) (where_ : option CanHubTxnMatch) (f : FrameMessage) : Prop :=
  match where_ with
  | None => meets (re_success r) f
  | Some m =>
      meets m f ∧
      ∀ i, 0 ≤ i < 8 →
        let rest := Z.ldiff (by_mask (byte_at (ma_bytes (re_success r)) i)) (by_mask (byte_at (ma_bytes m) i)) in
        Z.land (frame_byte f i) rest = Z.land (by_value (byte_at (ma_bytes (re_success r)) i)) rest
  end.

Definition match_typed (m : CanHubTxnMatch) : Prop :=
  is_u32 (cid_value (ma_id m)) ∧ is_u32 (ma_id_ignored_bits m) ∧ length (ma_bytes m) = CANHUB_TXN_MATCH_BYTES ∧ Forall byte_typed (ma_bytes m).

Definition id_width (id : CanHubCanId) : Z := if cid_extended id then 29 else 11.

Lemma width_ones id : CanId_Width id = Z.ones (id_width id).
Proof. unfold CanId_Width, id_width. by destruct (cid_extended id). Qed.

Lemma frame_id_bits f k : 0 ≤ k → Z.testbit (frame_id f) k = Z.testbit (frame_can_id f) k && (k <? 29).
Proof.
  intros Hk. unfold frame_id. change FRAME_CAN_ID_MASK with (Z.ones 29). rewrite Z.land_spec. f_equal. destruct (Z.ltb_spec k 29); [apply Z.ones_spec_low; lia|apply Z.ones_spec_high; lia].
Qed.

(** Past its width neither the frame's identifier nor the match's has a bit. *)
Lemma id_bits_above id f k : on_the_bus f → is_u32 (cid_value id) → CanId_IsValid id = true → frame_ext f = cid_extended id → id_width id ≤ k →
  Z.testbit (cid_value id) k = false ∧ Z.testbit (frame_id f) k = false.
Proof.
  intros (_ & Hid & Hstd) Hv Hok He Hk. unfold CanId_IsValid in Hok. apply Z.leb_le in Hok. unfold id_width, CanId_Width in *. assert (0 ≤ frame_id f) as Hnn by (apply Z.land_nonneg; left; apply Hid).
  destruct (cid_extended id).
  - split; [apply (bits_above 29); unfold CANHUB_EXTENDED_ID_MASK in Hok; zlia|]. rewrite frame_id_bits by lia. rewrite (proj2 (Z.ltb_ge _ _)) by lia. apply andb_false_r.
  - specialize (Hstd He). unfold CANHUB_STANDARD_ID_MASK in *. split; apply (bits_above 11); zlia.
Qed.

Lemma eff_bit k : 0 ≤ k → Z.testbit FRAME_CAN_ID_FLAG_EFF k = (k =? 31).
Proof. intros Hk. change FRAME_CAN_ID_FLAG_EFF with (2 ^ 31). rewrite Z.pow2_bits_eqb by lia. apply Z.eqb_sym. Qed.

Lemma toPattern_id m f : match_typed m → isMatchValid m = true → on_the_bus f → matchesId (toPattern m) (frame_can_id f) = true ↔ meets_id m f.
Proof.
  intros (Hid & Hign & _) Hok Hf. unfold meets_id, matchesId, toPattern. destruct (bytesToWord (ma_bytes m)) as [pm pv]. unfold isMatchValid in Hok.
  destruct (Z.eqb_spec (ma_id_ignored_bits m) CANHUB_TXN_ANY_ID_BITS) as [Ha|Ha]; [cbn; rewrite Z.land_0_r; split; [by left|done]|].
  apply andb_true_iff in Hok as [Hok _]. set (ign := ma_id_ignored_bits m) in *. set (id := ma_id m) in *. cbn [tp_can_id tp_can_mask]. rewrite Z.eqb_eq, masked_eq, width_ones.
  set (w := id_width id). assert (0 < w ≤ 29) as Hw by (subst w; unfold id_width; destruct (cid_extended id); lia).
  assert (∀ k, 0 ≤ k → Z.testbit (Z.lor (Z.ldiff (Z.ones w) ign) FRAME_CAN_ID_FLAG_EFF) k = (k <? w) && negb (Z.testbit ign k) || (k =? 31)) as Hmask.
  { intros k Hk. rewrite Z.lor_spec, Z.ldiff_spec, eff_bit by done. do 2 f_equal. destruct (Z.ltb_spec k w); [apply Z.ones_spec_low; lia|apply Z.ones_spec_high; lia]. }
  assert (∀ k, 0 ≤ k → Z.testbit (if cid_extended id then Z.lor (Z.land (cid_value id) (Z.ldiff (Z.ones w) ign)) FRAME_CAN_ID_FLAG_EFF else Z.land (cid_value id) (Z.ldiff (Z.ones w) ign)) k =
    Z.testbit (cid_value id) k && ((k <? w) && negb (Z.testbit ign k)) || cid_extended id && (k =? 31)) as Hpid.
  { intros k Hk. assert (Z.testbit (Z.ones w) k = (k <? w)) as Hones by (destruct (Z.ltb_spec k w); [apply Z.ones_spec_low; lia|apply Z.ones_spec_high; lia]).
    destruct (cid_extended id); rewrite ?Z.lor_spec, ?eff_bit, Z.land_spec, Z.ldiff_spec, Hones by done; cbn [andb]; [done|by rewrite orb_false_r]. }
  split.
  - intros H. right. assert (frame_ext f = cid_extended id) as He.
    { specialize (H 31 ltac:(lia)). rewrite Hmask, Hpid in H by lia. unfold frame_ext. rewrite H; [|by rewrite orb_true_r]. rewrite (proj2 (Z.ltb_ge 31 w)) by lia. cbn. by rewrite andb_false_r, andb_true_r. }
    split; [exact He|]. apply Z.bits_inj'. intros k Hk. rewrite !Z.ldiff_spec. destruct (Z.testbit ign k) eqn:Hi; [by rewrite !andb_false_r|]. cbn [negb]. rewrite !andb_true_r.
    destruct (Z.lt_ge_cases k w) as [Hlt|Hge].
    + specialize (H k Hk). rewrite Hmask, Hpid, Hi, (proj2 (Z.ltb_lt k w) Hlt), (proj2 (Z.eqb_neq k 31)) in H by lia. cbn in H. rewrite !andb_true_r, andb_false_r, orb_false_r in H.
      rewrite frame_id_bits, (proj2 (Z.ltb_lt k 29)), andb_true_r by lia. by apply H.
    + destruct (id_bits_above id f k Hf Hid Hok He Hge) as [-> ->]. done.
  - intros [Hcontra|[He Heq]]; [by destruct Ha|]. intros k Hk Hbit. rewrite Hmask in Hbit by done. rewrite Hpid by done. destruct (Z.eqb_spec k 31) as [->|Hne].
    + rewrite (proj2 (Z.ltb_ge 31 w)) by lia. cbn. rewrite andb_false_r, andb_true_r. exact He.
    + rewrite orb_false_r in Hbit. rewrite Hbit, andb_true_r, andb_false_r, orb_false_r. apply andb_true_iff in Hbit as [Hlt%Z.ltb_lt Hi%negb_true_iff].
      apply (f_equal (λ z, Z.testbit z k)) in Heq. rewrite !Z.ldiff_spec, Hi in Heq. cbn [negb] in Heq. rewrite !andb_true_r, frame_id_bits, (proj2 (Z.ltb_lt k 29)), andb_true_r in Heq by lia. exact Heq.
Qed.

(** ** Patterns *)

Lemma toPattern_payload m : (tp_payload_mask (toPattern m), tp_payload_value (toPattern m)) = bytesToWord (ma_bytes m).
Proof. unfold toPattern. destruct (bytesToWord (ma_bytes m)) as [pm pv]. by destruct (_ =? _). Qed.

Lemma byte_past_zero bytes i : length bytes = CANHUB_TXN_MATCH_BYTES → 8 ≤ i → byte_at bytes i = byte_zero.
Proof. intros Hl Hi. unfold byte_at. rewrite lookup_ge_None_2; [done|lia]. Qed.

Lemma toPattern_meets m f : match_typed m → isMatchValid m = true → on_the_bus f → matchesPattern (toPattern m) f (payloadWord f) = true ↔ meets m f.
Proof.
  intros Hm Hok Hf. unfold matchesPattern, meets. rewrite andb_true_iff, toPattern_id by done. apply and_iff_compat_l. destruct Hm as (_ & _ & Hl & Hb).
  pose proof (toPattern_payload m) as Hp. rewrite (surjective_pairing (bytesToWord _)) in Hp. injection Hp as -> ->.
  unfold meets_bytes. rewrite <- (words_agree f (bytesToWord (ma_bytes m)).1 (bytesToWord (ma_bytes m)).2 (λ i, by_mask (byte_at (ma_bytes m) i)) (λ i, by_value (byte_at (ma_bytes m) i))); [done|apply Hf|..].
  - intros i. apply (byte_at_typed (ma_bytes m) i Hb).
  - intros i Hi. by rewrite byte_past_zero.
  - intros k Hk. apply (bytesToWord_bits _ k Hb Hl Hk).
  - intros k Hk Hbit. destruct (bytesToWord_bits _ k Hb Hl Hk) as [Em ->]. rewrite Em in Hbit. by rewrite Hbit, andb_true_r.
Qed.

(** What the runner compares of an answer: the template's identifier and mask, the value the step expects. *)
Lemma advance_answers r wh f : match_typed (re_success r) → isMatchValid (re_success r) = true → (∀ m, wh = Some m → match_typed m ∧ isMatchValid m = true) → on_the_bus f →
  let expected := match wh with Some m => expectValue r m | None => tp_payload_value (buildAdvance r wh) end in
  matchesId (buildAdvance r wh) (frame_can_id f) && matchesPayload (payloadWord f) (tp_payload_mask (buildAdvance r wh)) expected = true ↔ answers r wh f.
Proof.
  intros Hs Hok Hw Hf. destruct wh as [m|]; [|by apply toPattern_meets]. destruct (Hw m eq_refl) as [Hm Hmok]. cbv zeta. cbn [answers].
  rewrite andb_true_iff. unfold buildAdvance, expectValue. destruct (bytesToWord (ma_bytes (re_success r))) as [sm sv] eqn:Hsw. destruct (bytesToWord (ma_bytes m)) as [wm wv] eqn:Hww.
  cbn [tp_payload_mask]. change (matchesId _ (frame_can_id f)) with (matchesId (toPattern m) (frame_can_id f)). rewrite toPattern_id by done. unfold meets. rewrite Logic.and_assoc. apply and_iff_compat_l.
  destruct Hs as (_ & _ & Hsl & Hsb), Hm as (_ & _ & Hml & Hmb). set (S_ := byte_at (ma_bytes (re_success r))). set (M_ := byte_at (ma_bytes m)).
  assert (∀ k, 0 ≤ k → Z.testbit sm k = Z.testbit (by_mask (S_ (k / 8))) (k mod 8) ∧ Z.testbit sv k = Z.testbit (by_value (S_ (k / 8))) (k mod 8) && Z.testbit (by_mask (S_ (k / 8))) (k mod 8)) as Hsk
    by (intros k Hk; pose proof (bytesToWord_bits _ k Hsb Hsl Hk) as H; by rewrite Hsw in H).
  assert (∀ k, 0 ≤ k → Z.testbit wm k = Z.testbit (by_mask (M_ (k / 8))) (k mod 8) ∧ Z.testbit wv k = Z.testbit (by_value (M_ (k / 8))) (k mod 8) && Z.testbit (by_mask (M_ (k / 8))) (k mod 8)) as Hmk
    by (intros k Hk; pose proof (bytesToWord_bits _ k Hmb Hml Hk) as H; by rewrite Hww in H).
  assert (∀ i, is_u8 (by_mask (S_ i)) ∧ is_u8 (by_mask (M_ i))) as Hu by (intros i; split; [apply (byte_at_typed _ i Hsb)|apply (byte_at_typed _ i Hmb)]).
  rewrite (words_agree f _ _ (λ i, Z.lor (by_mask (S_ i)) (by_mask (M_ i)))
    (λ i, Z.lor (Z.ldiff (Z.land (by_value (S_ i)) (by_mask (S_ i))) (by_mask (M_ i))) (Z.land (by_value (M_ i)) (by_mask (M_ i))))).
  - unfold meets_bytes. fold M_. split.
    + intros H. split; intros i Hi; apply masked_eq; intros k Hk Hbit; pose proof (proj1 (masked_eq _ _ _) (H i Hi) k Hk) as Hx; autorewrite with bits in Hx, Hbit; rewrite Hx.
      * by rewrite Hbit, andb_false_r, andb_true_r.
      * by rewrite Hbit, orb_true_r.
      * apply andb_true_iff in Hbit as [-> ->%negb_true_iff]. cbn. by rewrite !andb_true_r, andb_false_r, orb_false_r.
      * apply andb_true_iff in Hbit as [-> _]. done.
    + intros [H1 H2] i Hi. apply masked_eq. intros k Hk Hbit. pose proof (proj1 (masked_eq _ _ _) (H1 i Hi) k Hk) as Hx. pose proof (proj1 (masked_eq _ _ _) (H2 i Hi) k Hk) as Hy.
      autorewrite with bits in *. destruct (Z.testbit (by_mask (M_ i)) k); [by rewrite Hx, andb_false_r, andb_true_r|]. rewrite orb_false_r in Hbit. rewrite Hbit in *. cbn in *.
      rewrite Hy by done. by rewrite !andb_true_r, andb_false_r, orb_false_r.
  - apply Hf.
  - intros i. destruct (Hu i) as [H1 H2]. split; [apply Z.lor_nonneg; split; [apply H1|apply H2]|]. apply (bits_bound 8); [lia|apply Z.lor_nonneg; split; [apply H1|apply H2]|].
    intros k Hk. by rewrite Z.lor_spec, !byte_bits.
  - intros i Hi. subst S_ M_. cbn. by rewrite !byte_past_zero.
  - intros k Hk. rewrite !Z.lor_spec. by rewrite (proj1 (Hsk k Hk)), (proj1 (Hmk k Hk)).
  - intros k Hk _. rewrite !Z.lor_spec, !Z.ldiff_spec, !Z.land_spec. destruct (Hsk k Hk) as [_ ->], (Hmk k Hk) as [-> ->]. done.
Qed.

Lemma expectValue_u64 r m : match_typed (re_success r) → match_typed m → is_u64 (expectValue r m).
Proof.
  intros (_ & _ & Hsl & Hsb) (_ & _ & Hml & Hmb). unfold expectValue. destruct (bytesToWord_u64 _ Hsb Hsl) as [_ Hs], (bytesToWord_u64 _ Hmb Hml) as [Hm Hv].
  destruct (bytesToWord (ma_bytes (re_success r))) as [sm sv], (bytesToWord (ma_bytes m)) as [wm wv]. cbn [fst snd] in *.
  assert (0 ≤ Z.lor (Z.ldiff sv wm) wv) as Hn by (apply Z.lor_nonneg; split; [apply Z.ldiff_nonneg; left; apply Hs|apply Hv]). split; [done|].
  apply (bits_bound 64); [lia|done|]. intros k Hk. rewrite Z.lor_spec, Z.ldiff_spec, (bits_above 64 sv), (bits_above 64 wv); try done; lia.
Qed.
