(* ===== verification/BuilderTheorems.v ===== *)
(** * What the builder builds, the agent runs

    The messages the builder makes of the API's steps are taken by the agent's
    runner, and mean there what the API says. *)

From Stdlib Require Import String.
From S2P Require Import Prelude Wire Codec FrameMessage TxnMessage TxnStepsMessage StepRing IsotpLink IsotpSafety TransactionRunner RunnerInvariant RunnerSound RunnerTheorems RunnerCalm TransactionSender SenderRunner TransactionBuilder.

(** ** The API's values are those of their C types *)

Definition id_typed (id : CanHubCanId) : Prop := is_u32 (cid_value id).
Definition response_typed (r : CanHubTxnResponse) : Prop :=
  match_typed (re_success r) ∧ (∀ m, re_failure r = Some m → match_typed m) ∧ (∀ m, re_pending r = Some m → match_typed m) ∧
  (∀ nodes, re_nodes r = Some nodes → re_node_count r ≤ zlen nodes ∧ Forall is_u32 nodes) ∧
  is_u32 (re_node_count r) ∧ is_u32 (re_allowed_missing r) ∧ is_u8 (re_node_byte r) ∧ is_u32 (re_timeout_ms r) ∧ is_u32 (re_timeout_after_pending_ms r).
Definition link_typed (l : CanHubTxnIsotpLink) : Prop :=
  id_typed (il_tx_id l) ∧ id_typed (il_rx_id l) ∧ is_u8 (il_tx_address l) ∧ is_u8 (il_rx_address l) ∧ is_u8 (il_padding l) ∧
  is_u8 (il_fd_data_length l) ∧ is_u8 (il_block_size l) ∧ is_u8 (il_st_min l).
Definition api_typed (s : CanHubTxnStep) : Prop :=
  id_typed (cs_id s) ∧ is_u16 (cs_length s) ∧ (∀ data, cs_data s = Some data → cs_length s ≤ zlen data ∧ bytes data) ∧
  (∀ l, cs_isotp s = Some l → link_typed l) ∧ (∀ r, cs_response s = Some r → response_typed r) ∧ (∀ m, cs_where s = Some m → match_typed m) ∧
  is_u32 (cs_gap_us s).

(** ** What a step that passes the checks is *)

Definition length_ok (n : Z) : Prop := n ≤ 8 ∨ n ∈ FD_LENGTHS.

Definition data_ok (s : CanHubTxnStep) : Prop :=
  match cs_data s, cs_isotp s with
  | None, _ => is_Some (cs_response s)
  | Some _, Some _ => 0 < cs_length s ≤ 4095
  | Some _, None => CanId_IsValid (cs_id s) = true ∧ length_ok (cs_length s)
  end.

Definition link_ok (l : CanHubTxnIsotpLink) : Prop :=
  CanId_IsValid (il_tx_id l) = true ∧ CanId_IsValid (il_rx_id l) = true ∧ (il_fd l = true → 8 ≤ il_fd_data_length l ∧ length_ok (il_fd_data_length l)) ∧
  (il_fd l = false → il_bitrate_switch l = false).

Definition nodes_ok (r : CanHubTxnResponse) (nodes : list Z) : Prop :=
  0 < re_node_count r ≤ 64 ∧ re_allowed_missing r < re_node_count r ∧
  (re_node_from r = CANHUB_TXN_NODE_IN_BYTE ∧ re_node_byte r < 64 ∨ re_node_from r = CANHUB_TXN_NODE_IN_ID ∧ ma_id_ignored_bits (re_success r) ≠ 0).

Definition response_ok (r : CanHubTxnResponse) : Prop :=
  re_timeout_ms r ≠ 0 ∧ isMatchValid (re_success r) = true ∧ (∀ m, re_failure r = Some m → isMatchValid m = true) ∧
  (∀ m, re_pending r = Some m → isMatchValid m = true) ∧ ∀ nodes, re_nodes r = Some nodes → nodes_ok r nodes.

Definition step_ok (s : CanHubTxnStep) : Prop :=
  data_ok s ∧ (∀ l, cs_isotp s = Some l → link_ok l) ∧ (∀ r, cs_response s = Some r → response_ok r) ∧
  (∀ m, cs_where s = Some m → isMatchValid m = true ∧ is_Some (cs_response s)) ∧
  ∀ l r, cs_isotp s = Some l → cs_response s = Some r → re_nodes r = None.

(** A check passes and changes nothing, or leaves an error and nothing else. *)
Definition checked (self : TransactionBuilder) (P : Prop) (out : bool * TransactionBuilder) : Prop :=
  if out.1 then out.2 = self ∧ P else ∃ message, out.2 = self <| bu_error := Some message |>.

Lemma checked_fail self P message : checked self P (fail self message).
Proof. by exists message. Qed.
Lemma checked_pass self (P : Prop) : P → checked self P (pass self).
Proof. by split. Qed.
Lemma checked_if self (P : Prop) (b : bool) message (out : bool * TransactionBuilder) :
  (b = false → checked self P out) → checked self P (if b then fail self message else out).
Proof. destruct b; [intros; apply checked_fail|auto]. Qed.
#[local] Hint Resolve checked_fail checked_pass : core.

Lemma isFrameLength_ok n : isFrameLength n = true ↔ length_ok n.
Proof.
  unfold isFrameLength, length_ok, FRAME_PAYLOAD_MAX_CLASSIC. destruct (Z.leb_spec n 8); [split; auto|]. rewrite existsb_exists. split.
  - intros (x & Hx & Heq%Z.eqb_eq). subst x. right. by apply list_elem_of_In.
  - intros [?|Hin]; [lia|]. exists n. by rewrite Z.eqb_refl, <- list_elem_of_In.
Qed.

Lemma checkLink_checked self s l : api_typed s → cs_isotp s = Some l → checked self (data_ok s ∧ link_ok l) (checkLink self s l).
Proof.
  intros (_ & Hlen & _) Hl. unfold checkLink. apply checked_if. intros [H1 H2]%orb_false_iff. apply checked_if. intros _. apply checked_if. intros H3. apply checked_if. intros H4.
  assert (link_ok l) as Hok.
  { apply negb_false_iff in H1, H2. unfold link_ok. split_and!; try done.
    - intros Hfd. rewrite Hfd in H3. cbn [andb] in H3. apply orb_false_iff in H3 as [H3 H5]. apply negb_false_iff, isFrameLength_ok in H5. unfold FRAME_PAYLOAD_MAX_CLASSIC in H3. split; [lia|done].
    - intros Hfd. rewrite Hfd in H4. done. }
  destruct (cs_data s) as [data|] eqn:Hd.
  - apply checked_if. intros [H5 H6]%orb_false_iff. apply checked_pass. unfold data_ok. rewrite Hd, Hl. unfold CANHUB_ISOTP_MESSAGE_MAX in H6. split; [zlia|done].
  - case_bool_decide as Hr; [|apply checked_fail]. apply checked_pass. unfold data_ok. by rewrite Hd.
Qed.

Lemma checkFrame_checked self s : cs_isotp s = None → checked self (data_ok s) (checkFrame self s).
Proof.
  intros Hl. unfold checkFrame. destruct (cs_data s) as [data|] eqn:Hd.
  - apply checked_if. intros H1. apply checked_if. intros H2. apply checked_pass. unfold data_ok. rewrite Hd, Hl. apply negb_false_iff in H1, H2. split; [done|]. by apply isFrameLength_ok.
  - case_bool_decide as Hr; [|apply checked_fail]. apply checked_pass. unfold data_ok. by rewrite Hd.
Qed.

Lemma checkNodes_checked self r : response_typed r → checked self (∀ nodes, re_nodes r = Some nodes → nodes_ok r nodes) (checkNodes self r).
Proof.
  intros (_ & _ & _ & _ & Hc & Hm & Hb & _). unfold checkNodes. destruct (re_nodes r) as [nodes|]; [|apply checked_if; intros _; by apply checked_pass].
  apply checked_if. intros [H1 H2]%orb_false_iff. apply checked_if. intros H3. unfold CANHUB_TXN_ROSTER_MAX in H2.
  assert (0 < re_node_count r ≤ 64 ∧ re_allowed_missing r < re_node_count r) as [H4 H5] by zlia.
  destruct (Z.eqb_spec (re_node_from r) CANHUB_TXN_NODE_IN_BYTE).
  - apply checked_if. intros H6. unfold CANHUB_FRAME_PAYLOAD_MAX in H6. apply checked_if. intros _. apply checked_pass. intros ? [= <-]. split_and!; lia.
  - apply checked_if. intros H6%negb_false_iff. apply checked_if. intros [H7 _]%orb_false_iff. apply checked_if. intros _. apply checked_pass. intros ? [= <-]. split_and!; lia.
Qed.

Lemma checkResponse_checked self r wh : response_typed r → checked self (response_ok r ∧ ∀ m, wh = Some m → isMatchValid m = true) (checkResponse self r wh).
Proof.
  intros Ht. unfold checkResponse. apply checked_if. intros H1. apply checked_if. intros _. apply checked_if. intros H2%negb_false_iff. apply checked_if. intros H3.
  apply checked_if. intros H4. apply checked_if. intros H5. apply checked_if. intros _. pose proof (checkNodes_checked self r Ht) as Hn. unfold checked in *.
  destruct (checkNodes self r) as [[] self']; [|exact Hn]. destruct Hn as [Hs Hn]. split; [done|]. split.
  - split; [lia|]. split; [done|]. split; [|split; [|done]]; intros m Hm; [rewrite Hm in H3|rewrite Hm in H4]; by apply negb_false_iff.
  - intros m ->. by apply negb_false_iff.
Qed.

Lemma checkIsotpResponse_checked self s l r : checked self (re_nodes r = None) (checkIsotpResponse self s l r).
Proof.
  unfold checkIsotpResponse. apply checked_if. intros H1. apply checked_if. intros _. apply checked_pass. destruct (re_nodes r); [|done].
  apply bool_decide_eq_false in H1. by destruct H1.
Qed.

(** The step that passes. *)
Lemma checkStep_checked self s : api_typed s → checked self (step_ok s) (checkStep self s).
Proof.
  intros Ht. pose proof Ht as (_ & _ & _ & _ & Hr & _). unfold checkStep.
  assert (checked self (data_ok s ∧ ∀ l, cs_isotp s = Some l → link_ok l) (match cs_isotp s with Some link => checkLink self s link | None => checkFrame self s end)) as H1.
  { destruct (cs_isotp s) as [l|] eqn:Hl.
    - pose proof (checkLink_checked self s l Ht Hl) as H. unfold checked in *. destruct (checkLink self s l) as [[] ?]; [|done]. destruct H as (H1 & H2 & H3). split; [done|]. split; [done|]. by intros ? [= <-].
    - pose proof (checkFrame_checked self s Hl) as H. unfold checked in *. destruct (checkFrame self s) as [[] ?]; [|done]. destruct H as (H1 & H2). split; [done|]. split; [done|]. by intros ?. }
  destruct (match cs_isotp s with Some link => checkLink self s link | None => checkFrame self s end) as [[] self1]; [|exact H1].
  destruct H1 as [Hs [Hd Hl]]; cbn in Hs; subst self1. cbn [negb]. destruct (cs_response s) as [r|] eqn:Hre.
  - pose proof (checkResponse_checked self r (cs_where s) (Hr r eq_refl)) as H2. destruct (checkResponse self r (cs_where s)) as [[] self2]; [|exact H2].
    destruct H2 as [Hs [Hok Hw]]; cbn in Hs; subst self2. cbn [negb]. assert (∀ m, cs_where s = Some m → isMatchValid m = true ∧ is_Some (cs_response s)) as Hw' by (intros m Hm; split; [by apply Hw|by rewrite Hre]).
    destruct (cs_isotp s) as [l|] eqn:Hli.
    + pose proof (checkIsotpResponse_checked self s l r) as H3. destruct (checkIsotpResponse self s l r) as [[] self3]; [|exact H3]. destruct H3 as [Hs H3]; cbn in Hs; subst self3. split; [done|].
      split; [done|]. split; [intros l' Hl'; apply Hl; congruence|].
      split; [intros r' Hr'; congruence|]. split; [done|]. intros l' r' Hl' Hr'. congruence.
    + apply checked_pass. split; [done|]. split; [intros l' Hl'; congruence|]. split; [intros r' Hr'; congruence|]. split; [done|]. intros l' r' Hl'. congruence.
  - destruct (cs_where s) eqn:Hw; [apply checked_fail|]. apply checked_pass. split; [done|]. split; [done|]. split; [congruence|]. split; [congruence|]. congruence.
Qed.

(** ** The templates and the roster at the agent *)

Definition template_at (channel txn_id : Z) (t : TxnTemplateMessage) : TxnTemplateMessage := t <| tt_channel := channel |> <| tt_txn_id := txn_id |>.
Definition roster_at (channel txn_id : Z) (r : TxnRosterMessage) : TxnRosterMessage := {|
  tr_channel := channel; tr_txn_id := txn_id; tr_origin := tr_origin r; tr_roster_count := tr_roster_count r; tr_roster := tr_roster r |}.

(** What a build defines, as the agent receives it, and the records it adds. *)
Definition setup_of (channel txn_id : Z) (build : TransactionBuild) : list runner_event :=
  (if bd_defines_roster build then [EvRoster (roster_at channel txn_id (bd_roster build))] else []) ++
  (if bd_defines_template build then [EvTemplate (template_at channel txn_id (bd_template_message build))] else []).
Definition records_of (build : TransactionBuild) : list TxnStep := take (Z.to_nat (bd_record_count build)) (bd_records build).

(** The runner holds the builder's templates, and its roster. *)
Record holds_templates (channel txn_id : Z) (b : TransactionBuilder) (self : TransactionRunner) : Prop := {
  ag_active : rn_active self = true;
  ag_txn : rn_txn_id self = txn_id;
  ag_count : 0 ≤ bu_template_count b ≤ 16;
  ag_lengths : zlen (bu_templates b) = 16 ∧ zlen (rn_templates self) = 16;
  ag_last : bu_last_template b = NO_TEMPLATE ∨ 0 ≤ bu_last_template b < bu_template_count b;
  ag_defined : ∀ i, 0 ≤ i < 16 → defined (rn_defined_templates self) i = (i <? bu_template_count b);
  ag_templates : ∀ i, 0 ≤ i < bu_template_count b → (rn_templates self).[i] = template_at channel txn_id ((bu_templates b).[i]);
}.

Definition agrees (channel txn_id : Z) (b : TransactionBuilder) (self : TransactionRunner) : Prop :=
  holds_templates channel txn_id b self ∧ rn_roster_count self = if bu_has_roster b then tr_roster_count (bu_roster b) else 0.

(** What was defined stays. *)
Definition extends (self self' : TransactionRunner) : Prop :=
  ∀ id, 0 ≤ id → defined (rn_defined_templates self) id = true →
    defined (rn_defined_templates self') id = true ∧ (rn_templates self').[id] = (rn_templates self).[id].

Lemma lowestSetBit_bound v : 0 ≤ lowestSetBit v < 32.
Proof.
  unfold lowestSetBit. assert (∀ n bit, 0 ≤ bit → bit + Z.of_nat n ≤ 32 → 0 ≤ lowest_loop n bit v < 32) as H; [|apply H; lia].
  induction n as [|n IH]; intros bit Hb Hn; cbn [lowest_loop]; [lia|]. destruct (_ =? 0); [apply IH; lia|lia].
Qed.

Lemma toRoster_valid r nodes channel txn_id : response_typed r → nodes_ok r nodes → isRosterValid (roster_at channel txn_id (toRoster r nodes)) = true.
Proof.
  intros (_ & _ & _ & _ & _ & _ & Hb & _) (Hc & _ & Hf). unfold isRosterValid, roster_at, toRoster. cbn [tr_roster_count tr_origin]. rewrite u8_id by zlia.
  destruct (Z.eqb_spec (re_node_count r) 0); [lia|]. rewrite Z.gtb_ltb. destruct (Z.ltb_spec 64 (re_node_count r)); [lia|]. cbn [orb].
  pose proof (lowestSetBit_bound (ma_id_ignored_bits (re_success r))) as Hs.
  destruct Hf as [[Hf Hn]|[Hf Hn]]; rewrite Hf; cbn -[lowestSetBit Z.geb]; [by apply Z.ltb_lt|]. unfold ORIGIN_SHIFT_MAX. destruct (Z.geb_spec (lowestSetBit (ma_id_ignored_bits (re_success r))) 32); [lia|done].
Qed.

Lemma toRoster_count r nodes : nodes_ok r nodes → tr_roster_count (toRoster r nodes) = re_node_count r.
Proof. intros (Hc & _). cbn. apply u8_id. zlia. Qed.

(** ** Templates *)

Lemma length_ok_payload n : 8 ≤ n → length_ok n → FrameMessage_IsPayloadLengthValid n FRAME_FLAG_FD = true.
Proof. intros Hn [H|H]; [by replace n with 8 by lia|]. unfold FD_LENGTHS in H. repeat (apply elem_of_cons in H as [->|H]; [done|]). by apply elem_of_nil in H. Qed.

Lemma toIsotpParameters_valid l : link_ok l →
  Z.ldiff (ti_flags (toIsotpParameters l)) ISOTP_FLAGS_KNOWN = 0 ∧ isIsotpDataLengthValid (toIsotpParameters l) = true.
Proof.
  intros (_ & _ & Hfd & Hbrs). split; [cbn; by destruct (il_padded l), (il_address_byte l), (il_fd l), (il_bitrate_switch l)|].
  unfold isIsotpDataLengthValid. cbn [toIsotpParameters ti_flags ti_tx_data_length]. destruct (il_fd l).
  - destruct (Hfd eq_refl) as [H8 Hl]. replace (Z.land _ TXN_ISOTP_FLAG_FD =? 0) with false by (by destruct (il_padded l), (il_address_byte l), (il_bitrate_switch l)).
    rewrite (length_ok_payload _ H8 Hl), andb_true_r. apply Z.geb_le. exact H8.
  - rewrite (Hbrs eq_refl). by destruct (il_padded l), (il_address_byte l).
Qed.

(** How a step waits: the mode, how many answers, how long. *)
Definition mode_of (s : CanHubTxnStep) : Z * Z * Z :=
  match cs_response s with
  | None => (kTXN_ADVANCE_MODE_NONE, 0, 0)
  | Some r =>
      match re_nodes r with
      | None => (kTXN_ADVANCE_MODE_COUNT, 1, re_timeout_ms r)
      | Some _ => (if re_allowed_missing r =? 0 then kTXN_ADVANCE_MODE_ROSTER_ALL else kTXN_ADVANCE_MODE_ROSTER_K,
                   u8 (re_node_count r - re_allowed_missing r), re_timeout_ms r)
      end
  end.

Lemma buildTemplate_fields s : let t := buildTemplate s in
  (tt_advance_mode t, tt_count_k t, tt_timeout_ms t) = mode_of s ∧ tt_channel t = 0 ∧ tt_txn_id t = 0 ∧ tt_template_id t = 0 ∧
  match cs_isotp s with Some l => tt_type t = kTXN_TEMPLATE_TYPE_ISOTP ∧ tt_isotp t = toIsotpParameters l | None => tt_type t = kTXN_TEMPLATE_TYPE_GENERIC end.
Proof.
  unfold buildTemplate, mode_of. destruct (cs_isotp s) as [l|], (cs_response s) as [r|]; try done; destruct (re_nodes r), (re_failure r), (re_pending r); done.
Qed.

(** The patterns are those of the response. *)
Lemma buildTemplate_patterns s r : cs_response s = Some r → let t := buildTemplate s in
  tt_advance t = buildAdvance r (cs_where s) ∧
  (∀ f word, matchesTemplatePattern t kTXN_PATTERN_ABORT f word = match re_failure r with Some m => matchesPattern (toPattern m) f word | None => false end) ∧
  (∀ f word, matchesTemplatePattern t kTXN_PATTERN_EXTEND f word = match re_pending r with Some m => matchesPattern (toPattern m) f word | None => false end).
Proof. intros Hr. unfold buildTemplate. rewrite Hr. destruct (cs_isotp s), (re_nodes r), (re_failure r), (re_pending r); done. Qed.

(** The way of waiting a step needs is one the agent takes. *)
Lemma buildTemplate_valid self s channel txn_id id :
  api_typed s → step_ok s → isTemplateDefined self id = false →
  (∀ r nodes, cs_response s = Some r → re_nodes r = Some nodes → rn_roster_count self = re_node_count r) →
  isTemplateValid self (template_at channel txn_id (buildTemplate s <| tt_template_id := id |>)) = true.
Proof.
  intros (_ & _ & _ & _ & Hrt & _) (_ & Hlink & Hresp & _ & Hnone) Hd Hroster. pose proof (buildTemplate_fields s) as Hf. set (t := buildTemplate s) in *. clearbody t.
  destruct Hf as (Hm & _ & _ & _ & Hty). unfold isTemplateValid. cbn [template_at tt_template_id tt_advance_mode tt_timeout_ms tt_count_k set_field].
  change (tt_template_id (template_at channel txn_id (t <| tt_template_id := id |>))) with id. rewrite Hd.
  change (tt_advance_mode (template_at channel txn_id (t <| tt_template_id := id |>))) with (tt_advance_mode t).
  change (tt_timeout_ms (template_at channel txn_id (t <| tt_template_id := id |>))) with (tt_timeout_ms t).
  change (tt_count_k (template_at channel txn_id (t <| tt_template_id := id |>))) with (tt_count_k t).
  assert (isTypeValid (template_at channel txn_id (t <| tt_template_id := id |>)) = true) as ->.
  { change (isTypeValid t = true). unfold isTypeValid. destruct (cs_isotp s) as [l|] eqn:Hl; [|by rewrite Hty]. destruct Hty as [-> ->]. cbn -[Z.ldiff isIsotpDataLengthValid toIsotpParameters ti_flags ISOTP_FLAGS_KNOWN].
    destruct (toIsotpParameters_valid l (Hlink l eq_refl)) as [-> ->]. cbn. unfold mode_of in Hm. destruct (cs_response s) as [r|] eqn:Hr; [|by injection Hm as -> _ _].
    rewrite (Hnone l r eq_refl eq_refl) in Hm. by injection Hm as -> _ _. }
  unfold mode_of in Hm. destruct (cs_response s) as [r|] eqn:Hr; [|injection Hm as -> _ _; done].
  destruct (Hresp r eq_refl) as (Ht & _ & _ & _ & Hn). destruct (re_nodes r) as [nodes|] eqn:Hno.
  - destruct (Hn nodes eq_refl) as (Hc & Hk & _). rewrite (Hroster r nodes eq_refl Hno). destruct (Hrt r eq_refl) as (_ & _ & _ & _ & _ & Hm32 & _).
    injection Hm as -> -> ->. rewrite u8_id by zlia. rewrite (proj2 (Z.eqb_neq (re_timeout_ms r) 0) Ht), (proj2 (Z.eqb_neq (re_node_count r) 0)) by lia.
    rewrite (proj2 (Z.eqb_neq (_ - _) 0)), (proj2 (Z.leb_le (_ - _) _)) by zlia. by destruct (re_allowed_missing r =? 0).
  - injection Hm as -> -> ->. by rewrite (proj2 (Z.eqb_neq (re_timeout_ms r) 0) Ht).
Qed.

(** ** The records of an ISO-TP message *)

(** At most [n] pieces of 248 bytes. *)
Fixpoint pieces (n : nat) (data : list Z) : list (list Z) :=
  match n, data with
  | O, _ | _, [] => []
  | S n', _ => take 248 data :: pieces n' (drop 248 data)
  end.

Definition piece_record (can_id : Z) (piece : list Z) : TxnStep := {|
  st_template_id := 0; st_flags := Z.lor TXN_STEP_FLAG_MESSAGE TXN_STEP_FLAG_CONTINUED; st_payload_length := zlen piece; st_frame_flags := 0;
  st_can_id := can_id; st_expect_value := 0; st_payload := list_inserts 0 piece (replicate TXN_STEP_PAYLOAD_SIZE_MAX 0) |}.

Lemma pieces_concat n data : (length data ≤ 248 * n)%nat → concat (pieces n data) = data.
Proof.
  revert data. induction n as [|n IH]; intros data Hn; [symmetry; apply nil_length_inv; cbn in *; lia|]. destruct data as [|x data]; [done|].
  change (take 248 (x :: data) ++ concat (pieces n (drop 248 (x :: data))) = x :: data). rewrite IH; [apply take_drop|]. rewrite length_drop. lia.
Qed.

Lemma pieces_sizes n data : Forall (λ p, 0 < zlen p ≤ 248) (pieces n data).
Proof.
  revert data. induction n as [|n IH]; intros data; [constructor|]. destruct data as [|x data]; [constructor|]. constructor; [|apply IH].
  unfold zlen. rewrite length_take. cbn [length]. lia.
Qed.

Lemma pieces_nonempty n data : n ≠ 0%nat → data ≠ [] → pieces n data ≠ [].
Proof. by destruct n, data. Qed.

Lemma pieces_length n data : (length (pieces n data) ≤ n)%nat.
Proof. revert data. induction n as [|n IH]; intros data; [done|]. destruct data; [cbn; lia|]. cbn [pieces length]. specialize (IH (drop 248 (z :: data))). lia. Qed.

(** What a build says apart from its records. *)
Definition build_view (b : TransactionBuild) := (bd_defines_roster b, bd_roster b, bd_defines_template b, bd_template_message b).

Lemma records_snoc b r : 0 ≤ bd_record_count b < 17 → length (bd_records b) = 17%nat →
  records_of (b <| bd_records := (bd_records b).[bd_record_count b := r] |> <| bd_record_count := u8 (bd_record_count b + 1) |>) = records_of b ++ [r].
Proof.
  intros Hc Hl. unfold records_of. cbn. rewrite u8_id by zlia. replace (Z.to_nat (bd_record_count b + 1)) with (S (Z.to_nat (bd_record_count b))) by lia.
  unfold zset. erewrite take_S_r by (apply list_lookup_insert_eq; lia). f_equal. rewrite take_insert_ge; [done|lia].
Qed.

Lemma message_loop_pieces fuel can_id len off data b :
  0 ≤ off ≤ len → len ≤ 4095 → len ≤ zlen data → len - off ≤ 248 * Z.of_nat fuel → 0 ≤ bd_record_count b → bd_record_count b + Z.of_nat fuel ≤ 17 →
  length (bd_records b) = 17%nat →
  let b' := message_loop fuel can_id len off data b in
  records_of b' = records_of b ++ (piece_record can_id <$> pieces fuel (slice (Z.to_nat off) (Z.to_nat (len - off)) data)) ∧
  bd_record_count b' = bd_record_count b + zlen (pieces fuel (slice (Z.to_nat off) (Z.to_nat (len - off)) data)) ∧
  length (bd_records b') = 17%nat ∧ build_view b' = build_view b.
Proof.
  revert off b. induction fuel as [|fuel IH]; intros off b Ho Hlen Hd Hf Hc Hc' Hl b'.
  { subst b'. cbn. rewrite app_nil_r. change (zlen []) with 0. split_and!; try done. lia. }
  subst b'. cbn [message_loop]. destruct (Z.ltb_spec off len) as [Hlt|Hge].
  - rewrite (u16_id (len - off)) by zlia. set (size := if len - off >? _ then _ else _).
    assert (size = Z.min 248 (len - off)) as Hsize by (subst size; unfold TRANSACTION_BUILDER_MESSAGE_RECORD_BYTES; rewrite Z.gtb_ltb; destruct (Z.ltb_spec 248 (len - off)); lia).
    clearbody size. rewrite (u8_id size), (u16_id (off + size)) by zlia. set (rest := slice (Z.to_nat off) (Z.to_nat (len - off)) data).
    assert (slice (Z.to_nat off) (Z.to_nat size) data = take 248 rest) as Hp.
    { subst rest. unfold slice. rewrite take_take. f_equal. lia. }
    assert (slice (Z.to_nat (off + size)) (Z.to_nat (len - (off + size))) data = drop 248 rest) as Hq.
    { subst rest. unfold slice. destruct (Z.leb_spec (len - off) 248).
      - replace (Z.to_nat (len - (off + size))) with 0%nat by lia. rewrite take_0, drop_ge; [done|]. rewrite length_take, length_drop. unfold zlen in Hd. lia.
      - rewrite skipn_firstn_comm, drop_drop. f_equal; [lia|f_equal; lia]. }
    set (r := TxnStep_zero <| st_can_id := can_id |> <| st_flags := _ |> <| st_payload_length := _ |> <| st_payload := _ |>).
    assert (r = piece_record can_id (take 248 rest)) as Hr.
    { subst r. assert (size = zlen (take 248 rest)) as Hz by (rewrite <- Hp; unfold slice, zlen in *; rewrite length_take, length_drop; lia).
      rewrite Hp. unfold piece_record. rewrite <- Hz. done. }
    clearbody r. subst r. set (b1 := b <| bd_records := _ |> <| bd_record_count := _ |>).
    assert (records_of b1 = records_of b ++ [piece_record can_id (take 248 rest)]) as Hsn by (apply records_snoc; [lia|done]).
    assert (bd_record_count b1 = bd_record_count b + 1) as Hc1 by (subst b1; cbn; rewrite u8_id by zlia; done).
    destruct (IH (off + size) b1) as (H1 & H2 & H3 & H4); try lia; [subst b1; cbn; by rewrite length_zset|].
    rewrite Hq in H1, H2. assert (rest ≠ []) as Hne.
    { intros He. assert (length rest = 0)%nat as H0 by (by rewrite He). subst rest. unfold slice, zlen in *. rewrite length_take, length_drop in H0. lia. }
    assert (pieces (S fuel) rest = take 248 rest :: pieces fuel (drop 248 rest)) as -> by (by destruct rest). split_and!.
    + rewrite H1, Hsn, <- app_assoc. done.
    + rewrite H2, Hc1. change (zlen (take 248 rest :: pieces fuel (drop 248 rest))) with (Z.of_nat (S (length (pieces fuel (drop 248 rest))))). unfold zlen. lia.
    + done.
    + rewrite H4. done.
  - replace (Z.to_nat (len - off)) with 0%nat by lia. unfold slice. rewrite take_0. cbn. rewrite app_nil_r. change (zlen []) with 0. split_and!; try done. lia.
Qed.

Lemma close_message_last s can_id b init last :
  records_of b = (piece_record can_id <$> init) ++ [piece_record can_id last] → bd_record_count b = zlen init + 1 → length (bd_records b) = 17%nat → zlen init < 17 →
  records_of (close_message s b) = (piece_record can_id <$> init) ++ [set_expected s (piece_record can_id last <| st_flags := TXN_STEP_FLAG_MESSAGE |>)].
Proof.
  intros H1 H2 H3 Hi. unfold close_message. replace (bd_record_count b - 1) with (zlen init) by lia. unfold records_of in *. rewrite H2 in H1.
  replace (Z.to_nat (zlen init + 1)) with (S (length init)) in H1 by (unfold zlen; lia).
  assert (bd_records b !! length init = Some (piece_record can_id last)) as Hlast.
  { apply (f_equal (λ l, l !! length init)) in H1. rewrite lookup_take_lt in H1 by lia. rewrite H1, lookup_app_r by (rewrite length_fmap; lia). by rewrite length_fmap, Nat.sub_diag. }
  assert ((bd_records b).[zlen init] = piece_record can_id last) as -> by (unfold zget, zlen; rewrite Nat2Z.id; by apply list_lookup_total_correct).
  set (r := set_expected s _). change (take (Z.to_nat (bd_record_count b)) ((bd_records b).[zlen init := r]) = (piece_record can_id <$> init) ++ [r]). rewrite H2.
  replace (Z.to_nat (zlen init + 1)) with (S (length init)) by (unfold zlen; lia). unfold zset, zlen. rewrite Nat2Z.id.
  rewrite (take_S_r _ (length init) r) by (apply list_lookup_insert_eq; by eapply lookup_lt_Some). rewrite take_insert_ge by lia. f_equal.
  erewrite take_S_r in H1 by done. by apply app_inj_tail in H1 as [H1 _].
Qed.

Lemma loop_records fuel can_id len data b :
  0 < len ≤ 4095 → len ≤ zlen data → len ≤ 248 * Z.of_nat fuel → Z.of_nat fuel ≤ 17 → bd_record_count b = 0 → length (bd_records b) = 17%nat →
  let b' := message_loop fuel can_id len 0 data b in
  ∃ init last, pieces fuel (take (Z.to_nat len) data) = init ++ [last] ∧
    records_of b' = (piece_record can_id <$> init) ++ [piece_record can_id last] ∧
    bd_record_count b' = zlen init + 1 ∧ zlen init < 17 ∧ length (bd_records b') = 17%nat ∧ build_view b' = build_view b.
Proof.
  intros Hlen Hd Hf Hf' Hc Hl b'. destruct (message_loop_pieces fuel can_id len 0 data b) as (H1 & H2 & H3 & H4); try lia. fold b' in H1, H2, H3, H4. clearbody b'.
  unfold slice in H1, H2. change (Z.to_nat 0) with 0%nat in H1, H2. rewrite Z.sub_0_r, drop_0 in H1, H2. set (msg := take (Z.to_nat len) data) in *.
  assert (pieces fuel msg ≠ []) as Hne.
  { apply pieces_nonempty; [lia|]. intros He. assert (length msg = 0)%nat as H0 by (by rewrite He). subst msg. rewrite length_take in H0. unfold zlen in Hd. lia. }
  pose proof (pieces_length fuel msg) as Hpl. destruct (exists_last Hne) as (init & last & Hp). exists init, last. split; [done|]. rewrite Hp in H1, H2, Hpl.
  rewrite length_app in Hpl. cbn [length] in Hpl. rewrite Hc, zlen_app in H2. change (zlen [last]) with 1 in H2.
  unfold records_of at 2 in H1. rewrite Hc in H1. change (Z.to_nat 0) with 0%nat in H1. rewrite take_0, app_nil_l, fmap_app in H1.
  split; [exact H1|]. split; [lia|]. split; [unfold zlen; lia|]. by split.
Qed.

(** All the records but the last are continued; the last carries what the step expects. *)
Lemma message_records s link data b :
  0 < cs_length s ≤ 4095 → cs_length s ≤ zlen data → bd_record_count b = 0 → length (bd_records b) = 17%nat →
  let b' := buildMessageRecords s link data b in
  let can_id := CanId_ToWire (il_tx_id link) in
  ∃ init last, pieces 17 (take (Z.to_nat (cs_length s)) data) = init ++ [last] ∧
    records_of b' = (piece_record can_id <$> init) ++ [set_expected s (piece_record can_id last <| st_flags := TXN_STEP_FLAG_MESSAGE |>)] ∧
    bd_record_count b' = zlen init + 1 ∧ zlen init < 17 ∧ length (bd_records b') = 17%nat ∧ build_view b' = build_view b.
Proof.
  intros Hlen Hd Hc Hl b' can_id. destruct (loop_records 17 can_id (cs_length s) data b) as (init & last & H1 & H2 & H3 & H4 & H5 & H6); [lia..|].
  exists init, last. split; [exact H1|]. subst b'. unfold buildMessageRecords. fold can_id. revert H2 H3 H4 H5 H6.
  generalize (message_loop 17 can_id (cs_length s) 0 data b). intros b1 H2 H3 H4 H5 H6.
  split; [by apply close_message_last|]. split; [exact H3|]. split; [exact H4|]. split; [|exact H6]. by etrans; [apply length_zset|].
Qed.

(** ** What every record of a step is *)

Record record_good (s : CanHubTxnStep) (r : TxnStep) : Prop := {
  rg_bytes : step_bytes r;
  rg_valid : isStepValid r = true;
  rg_template : st_template_id r = 0;
  rg_message : has_flag (st_flags r) TXN_STEP_FLAG_MESSAGE = bool_decide (is_Some (cs_isotp s) ∧ is_Some (cs_data s));
  rg_expect_only : has_flag (st_flags r) TXN_STEP_FLAG_EXPECT_ONLY = bool_decide (cs_data s = None);
}.

Lemma wire_id_u32 id : id_typed id → CanId_IsValid id = true → is_u32 (CanId_ToWire id).
Proof.
  unfold id_typed, CanId_IsValid, CanId_Width, CanId_ToWire. intros Hu Hv%Z.leb_le. destruct (cid_extended id); [|done].
  assert (0 ≤ Z.lor (cid_value id) FRAME_CAN_ID_FLAG_EFF) as Hn by (apply Z.lor_nonneg; split; [apply Hu|done]). split; [done|]. apply (bits_bound 32); [lia|done|].
  intros k Hk. rewrite Z.lor_spec, eff_bit, (bits_above 32 (cid_value id)), (proj2 (Z.eqb_neq k 31)); try done; lia.
Qed.

Lemma payload_bytes data : bytes data → bytes (list_inserts 0 data (replicate TXN_STEP_PAYLOAD_SIZE_MAX 0)).
Proof.
  intros Hb. apply Forall_lookup_2. intros i x Hx. apply list_lookup_inserts_Some in Hx as [[_ Hx]|(_ & _ & Hx)].
  - apply lookup_replicate in Hx as [-> _]. unfold is_u8. lia.
  - exact (Forall_lookup_1 _ _ _ _ Hb Hx).
Qed.

(** The expected value sets a flag and a word, and nothing else. *)
Lemma set_expected_shape s r : api_typed s → is_u64 (st_expect_value r) →
  let e := set_expected s r in
  (st_template_id e, st_payload_length e, st_frame_flags e, st_can_id e, st_payload e) = (st_template_id r, st_payload_length r, st_frame_flags r, st_can_id r, st_payload r) ∧
  (st_flags e = st_flags r ∨ st_flags e = Z.lor (st_flags r) TXN_STEP_FLAG_EXPECT_VALUE) ∧ is_u64 (st_expect_value e).
Proof.
  intros (_ & _ & _ & _ & Hr & Hw & _) He e. subst e. unfold set_expected. destruct (cs_where s) as [m|] eqn:Hm; [|split; [done|split; [by left|done]]].
  destruct (cs_response s) as [r'|] eqn:Hr'; [|split; [done|split; [by left|done]]]. split; [done|]. split; [by right|]. apply expectValue_u64; [exact (proj1 (Hr r' eq_refl))|by apply Hw].
Qed.

Lemma frame_record_good b s : api_typed s → step_ok s → (cs_isotp s = None ∨ cs_data s = None) → record_good s (buildFrameRecord b s).
Proof.
  intros Ht Hok Hcase. pose proof Ht as (Hid & Hlen & Hdata & Hlink & _). destruct Hok as (Hd & Hl & _). unfold buildFrameRecord.
  destruct (set_expected_shape s TxnStep_zero Ht) as (Hsh & Hfl & Hev); [cbn; zlia|]. set (e := set_expected s TxnStep_zero) in *. clearbody e. injection Hsh as E1 E2 E3 E4 E5.
  assert (st_flags e = 0 ∨ st_flags e = 1) as Hflags by (destruct Hfl as [->| ->]; auto). clear Hfl.
  destruct (cs_data s) as [data|] eqn:Hdt.
  - destruct Hcase as [Hi|]; [|done]. unfold data_ok in Hd. rewrite Hdt, Hi in Hd. destruct Hd as [Hv Hlok]. destruct (Hdata data eq_refl) as [Hll Hb]. cbv zeta.
    assert (0 ≤ cs_length s ≤ 64) as H64.
    { split; [apply Hlen|]. destruct Hlok as [?|Hin]; [lia|]. unfold FD_LENGTHS in Hin. repeat (apply elem_of_cons in Hin as [->|Hin]; [lia|]). by apply elem_of_nil in Hin. }
    rewrite u8_id by zlia. set (r := if cs_length s >? FRAME_PAYLOAD_MAX_CLASSIC then _ else _).
    assert (st_template_id r = 0 ∧ st_flags r = st_flags e ∧ st_payload_length r = cs_length s ∧ is_u8 (st_frame_flags r) ∧ st_can_id r = CanId_ToWire (cs_id s) ∧ st_expect_value r = st_expect_value e ∧
      st_payload r = replicate TXN_STEP_PAYLOAD_SIZE_MAX 0 ∧ FrameMessage_IsPayloadLengthValid (cs_length s) (st_frame_flags r) = true) as (R1 & R2 & R3 & R4 & R5 & R6 & R7 & R8).
    { subst r. rewrite Z.gtb_ltb. destruct (Z.ltb_spec FRAME_PAYLOAD_MAX_CLASSIC (cs_length s)) as [Hgt|Hle]; cbn.
      - split_and!; try done; [by destruct (bu_bitrate_switch b)..|]. unfold FrameMessage_IsPayloadLengthValid. destruct (bu_bitrate_switch b); cbn; apply Z.leb_le; lia.
      - rewrite E3. split_and!; try done. unfold FrameMessage_IsPayloadLengthValid. cbn. by apply Z.leb_le. }
    clearbody r. split; cbn.
    + split; [split_and!; cbn; try done|cbn; rewrite R7; apply payload_bytes, Forall_take; exact Hb].
      * rewrite R1. zlia.
      * rewrite R2. destruct Hflags as [->| ->]; zlia.
      * rewrite R3. zlia.
      * rewrite R5. by apply wire_id_u32.
      * rewrite R6. exact Hev.
      * by rewrite R7, length_inserts, length_replicate.
    + unfold isStepValid. cbn. rewrite R1, R2, R3, R8. by destruct Hflags as [->| ->].
    + exact R1.
    + rewrite R2, bool_decide_eq_false_2 by (rewrite Hi; intros [[? [=]] _]). by destruct Hflags as [->| ->].
    + rewrite R2, bool_decide_eq_false_2 by (by rewrite Hdt). by destruct Hflags as [->| ->].
  - split; cbn.
    + split; [split_and!; cbn; try done|cbn; rewrite E5; change (Forall is_u8 (replicate TXN_STEP_PAYLOAD_SIZE_MAX 0)); apply Forall_replicate; unfold is_u8; lia].
      * rewrite E1. zlia.
      * destruct Hflags as [->| ->]; by vm_compute.
      * rewrite E2. zlia.
      * rewrite E3. zlia.
      * destruct (cs_isotp s) as [l|] eqn:Hli; [|zlia]. apply wire_id_u32; [apply (Hlink l eq_refl)|apply (Hl l eq_refl)].
      * by rewrite E5.
    + unfold isStepValid. cbn. rewrite E1, E2, E3. by destruct Hflags as [->| ->].
    + exact E1.
    + rewrite bool_decide_eq_false_2 by (rewrite Hdt; intros [_ [? [=]]]). by destruct Hflags as [->| ->].
    + rewrite bool_decide_eq_true_2 by done. by destruct Hflags as [->| ->].
Qed.

Lemma piece_record_good s l can_id piece last : api_typed s → cs_isotp s = Some l → is_Some (cs_data s) → is_u32 can_id → 0 < zlen piece ≤ 248 → bytes piece →
  record_good s (if last : bool then set_expected s (piece_record can_id piece <| st_flags := TXN_STEP_FLAG_MESSAGE |>) else piece_record can_id piece).
Proof.
  intros Ht Hl Hdt Hid Hp Hb. assert (bool_decide (is_Some (cs_isotp s) ∧ is_Some (cs_data s)) = true) as Hm by (apply bool_decide_eq_true_2; split; [by rewrite Hl|done]).
  assert (bool_decide (cs_data s = None) = false) as Hn by (apply bool_decide_eq_false_2; by destruct Hdt as [? ->]).
  assert (bytes (list_inserts 0 piece (replicate TXN_STEP_PAYLOAD_SIZE_MAX 0))) as Hpb by (by apply payload_bytes).
  assert (length (list_inserts 0 piece (replicate TXN_STEP_PAYLOAD_SIZE_MAX 0)) = TXN_STEP_PAYLOAD_SIZE_MAX) as Hpl by (by rewrite length_inserts, length_replicate).
  set (payload := list_inserts 0 piece (replicate TXN_STEP_PAYLOAD_SIZE_MAX 0)) in *. destruct last.
  - set (p := piece_record can_id piece <| st_flags := TXN_STEP_FLAG_MESSAGE |>). destruct (set_expected_shape s p Ht) as (Hsh & Hfl & Hev); [cbn; zlia|].
    set (e := set_expected s p) in *. clearbody e. injection Hsh as E1 E2 E3 E4 E5. cbn in E1, E2, E3, E4. change (st_payload p) with payload in E5.
    assert (st_flags e = 8 ∨ st_flags e = 9) as Hflags by (destruct Hfl as [->| ->]; auto). split.
    + split; [split_and!; try done|by rewrite E5]; rewrite ?E1, ?E2, ?E3, ?E4, ?E5; try zlia; try done.
    + unfold isStepValid, isMessageRecordValid. rewrite E1, E2, E3. destruct (Z.eqb_spec (zlen piece) 0); [lia|]. by destruct Hflags as [->| ->].
    + exact E1.
    + rewrite Hm. by destruct Hflags as [->| ->].
    + rewrite Hn. by destruct Hflags as [->| ->].
  - split; [|unfold isStepValid, isMessageRecordValid; cbn -[Z.eqb]; destruct (Z.eqb_spec (zlen piece) 0); [lia|done]|done|by rewrite Hm|by rewrite Hn].
    split; [|exact Hpb]. split_and!; cbn; try done; zlia.
Qed.

(** The value the answer to a step must have is in the step's last record. *)
Definition expects (s : CanHubTxnStep) (r : TxnStep) : Prop :=
  match cs_where s, cs_response s with
  | Some m, Some re => has_flag (st_flags r) TXN_STEP_FLAG_EXPECT_VALUE = true ∧ st_expect_value r = expectValue re m
  | _, _ => has_flag (st_flags r) TXN_STEP_FLAG_EXPECT_VALUE = false
  end.

Lemma has_flag_lor a b flag : has_flag (Z.lor a b) flag = has_flag a flag || has_flag b flag.
Proof.
  unfold has_flag. rewrite Z.land_lor_distr_l. destruct (Z.eqb_spec (Z.land a flag) 0) as [->|Ha]; [by rewrite Z.lor_0_l|]. cbn [negb orb]. apply negb_true_iff, Z.eqb_neq. intros [? _]%Z.lor_eq_0_iff. done.
Qed.

Lemma set_expected_expects s r : has_flag (st_flags r) TXN_STEP_FLAG_EXPECT_VALUE = false → expects s (set_expected s r).
Proof.
  intros Hr. unfold expects, set_expected. destruct (cs_where s), (cs_response s); try done. split; [|done]. change (has_flag (Z.lor (st_flags r) TXN_STEP_FLAG_EXPECT_VALUE) TXN_STEP_FLAG_EXPECT_VALUE = true).
  rewrite has_flag_lor. apply orb_true_r.
Qed.

Lemma expects_keep s r r' : st_expect_value r' = st_expect_value r → has_flag (st_flags r') TXN_STEP_FLAG_EXPECT_VALUE = has_flag (st_flags r) TXN_STEP_FLAG_EXPECT_VALUE → expects s r → expects s r'.
Proof. intros H1 H2. unfold expects. by rewrite H1, H2. Qed.

Lemma buildFrameRecord_expects b s : expects s (buildFrameRecord b s).
Proof.
  apply (expects_keep s (set_expected s TxnStep_zero)); [| |by apply set_expected_expects]; unfold buildFrameRecord; destruct (cs_data s); cbv zeta.
  - by destruct (_ >? _).
  - done.
  - by destruct (_ >? _).
  - change (has_flag (Z.lor (st_flags (set_expected s TxnStep_zero)) TXN_STEP_FLAG_EXPECT_ONLY) TXN_STEP_FLAG_EXPECT_VALUE = has_flag (st_flags (set_expected s TxnStep_zero)) TXN_STEP_FLAG_EXPECT_VALUE).
    rewrite has_flag_lor. apply orb_false_r.
Qed.

(** The records of an accepted step, before they get their template. *)
Definition raw_records (b : TransactionBuilder) (s : CanHubTxnStep) (build : TransactionBuild) : TransactionBuild :=
  match cs_isotp s, cs_data s with
  | Some link, Some data => buildMessageRecords s link data build
  | _, _ => build <| bd_records := (bd_records build).[0 := buildFrameRecord b s] |> <| bd_record_count := 1 |>
  end.

Lemma raw_records_good b s build : api_typed s → step_ok s → bd_record_count build = 0 → length (bd_records build) = 17%nat →
  let build' := raw_records b s build in
  0 < bd_record_count build' ≤ 17 ∧ length (bd_records build') = 17%nat ∧ build_view build' = build_view build ∧ Forall (record_good s) (records_of build') ∧
  ∃ r, last (records_of build') = Some r ∧ expects s r.
Proof.
  intros Ht Hok Hc Hl build'. subst build'. unfold raw_records.
  assert (cs_isotp s = None ∨ cs_data s = None → record_good s (buildFrameRecord b s)) as Hframe by (by apply frame_record_good).
  assert (∀ r, record_good s r → expects s r → let build' := build <| bd_records := (bd_records build).[0 := r] |> <| bd_record_count := 1 |> in
    0 < bd_record_count build' ≤ 17 ∧ length (bd_records build') = 17%nat ∧ build_view build' = build_view build ∧ Forall (record_good s) (records_of build') ∧
    ∃ r, last (records_of build') = Some r ∧ expects s r) as Hone.
  { intros r Hr Hex build'. split; [cbn; lia|]. split; [by etrans; [apply length_zset|]|]. split; [done|]. unfold records_of. cbn. destruct (bd_records build); [done|]. cbn. change (Forall (record_good s) [r] ∧ ∃ r', Some r = Some r' ∧ expects s r'). split; [by apply Forall_singleton|by exists r]. }
  destruct (cs_isotp s) as [l|] eqn:Hi; [destruct (cs_data s) as [data|] eqn:Hd|]; [|apply Hone; [apply Hframe; auto|apply buildFrameRecord_expects]..].
  pose proof Ht as (_ & Hlen & Hdata & Hlink & _). destruct (Hdata data Hd) as [Hll Hb]. pose proof Hok as (Hdok & Hlok & _). unfold data_ok in Hdok. rewrite Hd, Hi in Hdok.
  destruct (message_records s l data build Hdok Hll Hc Hl) as (init & last & Hp & Hr & Hcnt & Hin & Hlen' & Hview).
  assert (Forall (λ p, 0 < zlen p ≤ 248 ∧ bytes p) (init ++ [last])) as Hall.
  { rewrite <- Hp. apply Forall_and. split; [apply pieces_sizes|]. assert (bytes (concat (pieces 17 (take (Z.to_nat (cs_length s)) data)))) as Hcb.
    { rewrite pieces_concat; [by apply Forall_take|]. rewrite length_take. lia. }
    apply Forall_concat in Hcb. exact Hcb. }
  apply Forall_app in Hall as [Hai Hal]. apply (proj1 (Forall_singleton _ _)) in Hal. assert (is_u32 (CanId_ToWire (il_tx_id l))) as Hid by (apply wire_id_u32; [apply (Hlink l Hi)|apply (Hlok l Hi)]).
  split; [rewrite Hcnt; unfold zlen in *; lia|]. split; [exact Hlen'|]. split; [exact Hview|]. rewrite Hr. split; [|eexists; split; [apply last_snoc|by apply set_expected_expects]]. apply Forall_app. split.
  - apply Forall_fmap. eapply Forall_impl; [exact Hai|]. intros p [Hp1 Hp2]. apply (piece_record_good s l _ p false); auto.
  - apply Forall_singleton. destruct Hal as [Ha1 Ha2]. apply (piece_record_good s l _ last true); auto.
Qed.

(** ** Placing the template *)

Lemma find_template_spec ts i t id : find_template ts i t = Some id → i ≤ id < i + zlen ts ∧ ts.[id - i] <| tt_template_id := 0 |> = t.
Proof.
  revert i. induction ts as [|c ts IH]; intros i; [done|]. cbn [find_template]. unfold same_shape. case_bool_decide as Hc.
  - intros [= <-]. rewrite Z.sub_diag. unfold zlen. cbn [length]. split; [lia|exact Hc].
  - intros H. destruct (IH _ H) as [Hi Ht]. unfold zlen in *. cbn [length]. split; [lia|]. rewrite <- Ht. f_equal. unfold zget. by replace (Z.to_nat (id - i)) with (S (Z.to_nat (id - (i + 1)))) by lia.
Qed.

Lemma findTemplate_spec channel txn_id b self t id : holds_templates channel txn_id b self → findTemplate b t = Some id →
  0 ≤ id < bu_template_count b ∧ (bu_templates b).[id] <| tt_template_id := 0 |> = t.
Proof.
  intros [_ _ Hc [Hl _] Hlast _ _]. unfold findTemplate. destruct (negb _ && _) eqn:Hb.
  - intros [= <-]. apply andb_true_iff in Hb as [Hn Hs]. apply negb_true_iff, Z.eqb_neq in Hn. unfold same_shape in Hs. apply bool_decide_eq_true in Hs. destruct Hlast; done.
  - intros H. destruct (find_template_spec _ _ _ _ H) as [Hi Ht]. rewrite Z.sub_0_r in Ht. unfold zlen in *. rewrite length_take in Hi. split; [lia|]. rewrite <- Ht. f_equal. unfold zget.
    rewrite !list_lookup_total_alt. rewrite lookup_take_lt by lia. done.
Qed.

(** The agent takes the template, when it is a new one. *)
Lemma place_agrees channel txn_id b self s build w :
  holds_templates channel txn_id b self → api_typed s → step_ok s → bd_defines_template build = false →
  (∀ r nodes, cs_response s = Some r → re_nodes r = Some nodes → rn_roster_count self = re_node_count r) →
  let '(ok, b', build') := placeTemplate b (buildTemplate s) build in
  if (ok : bool) then
    let '(self', w') := runner_run (if bd_defines_template build' then [EvTemplate (template_at channel txn_id (bd_template_message build'))] else []) (self, w) in
    w' = w ∧ holds_templates channel txn_id b' self' ∧ extends self self' ∧ rn_roster_count self' = rn_roster_count self ∧
    (bd_defines_template build' = true → 0 ≤ tt_template_id (bd_template_message build') < 16) ∧
    build' = build <| bd_defines_template := bd_defines_template build' |> <| bd_template_message := bd_template_message build' |> ∧
    (bu_has_roster b', bu_roster b', bu_bitrate_switch b') = (bu_has_roster b, bu_roster b, bu_bitrate_switch b) ∧
    0 ≤ bu_last_template b' < bu_template_count b' ∧ (bu_templates b').[bu_last_template b'] <| tt_template_id := 0 |> = buildTemplate s
  else (∃ message, b' = b <| bu_error := Some message |>) ∧ build' = build.
Proof.
  intros Hh Ht Hok Hdef Hroster. unfold placeTemplate. destruct (findTemplate b (buildTemplate s)) as [id|] eqn:Hf.
  - rewrite Hdef. destruct (findTemplate_spec _ _ _ _ _ _ Hh Hf) as [Hid Hsh]. cbn. split; [done|]. split; [destruct Hh; split; try done; by right|]. split; [by intros i ? ?|]. split; [done|].
    split; [done|]. split; [by destruct build; cbn in *; subst|]. split; [done|]. done.
  - destruct (Z.eqb_spec (bu_template_count b) TXN_TEMPLATES_MAX) as [|Hne]; [split; [by eexists|done]|]. pose proof Hh as [Hact Htxn Hc [Hl Hl'] Hlast Hdf Htp]. unfold TXN_TEMPLATES_MAX in Hne.
    set (n := bu_template_count b) in *. set (t := buildTemplate s <| tt_template_id := n |>). cbn [bd_defines_template set_field].
    assert (isTemplateDefined self n = false) as Hnd by (change (defined (rn_defined_templates self) n = false); rewrite Hdf by lia; apply Z.ltb_irrefl).
    assert (isTemplateValid self (template_at channel txn_id t) = true) as Hv by exact (buildTemplate_valid self s channel txn_id n Ht Hok Hnd Hroster).
    cbn [runner_run foldl runner_step]. unfold TransactionRunner_DefineTemplate. change (bd_template_message (build <| bd_defines_template := true |> <| bd_template_message := t |>)) with t. rewrite Hact, Hv. change (tt_txn_id (template_at channel txn_id t)) with txn_id.
    rewrite Htxn, Z.eqb_refl. cbn [negb orb]. change (tt_template_id (template_at channel txn_id t)) with n.
    set (b' := b <| bu_templates := _ |> <| bu_last_template := _ |> <| bu_template_count := _ |>).
    assert (bu_template_count b' = n + 1 ∧ bu_last_template b' = n ∧ bu_templates b' = (bu_templates b).[n := t] ∧ (bu_has_roster b', bu_roster b', bu_bitrate_switch b') = (bu_has_roster b, bu_roster b, bu_bitrate_switch b)) as (B1 & B2 & B3 & B4)
      by (subst b'; cbn; split_and!; [rewrite u8_id by zlia|..]; done).
    clearbody b'. split; [done|]. split.
    + split; cbn [rn_active rn_txn_id rn_templates rn_defined_templates set_field]; try done; rewrite ?B1, ?B2, ?B3, ?zlen_zset; try lia; try done.
      * intros i Hi. rewrite defined_add, Hdf by lia. destruct (Z.eqb_spec i n) as [->|]; [rewrite orb_true_r; symmetry; apply Z.ltb_lt; lia|]. rewrite orb_false_r.
        destruct (Z.ltb_spec i n), (Z.ltb_spec i (n + 1)); try done; lia.
      * intros i Hi. rewrite !zget_zset by lia. destruct (Z.eqb_spec n i); [done|]. apply Htp. lia.
    + split.
      { intros id Hid Hd. cbn [rn_defined_templates rn_templates set_field]. rewrite defined_add, Hd by lia. split; [done|]. apply zget_zset_ne; try lia. intros <-. change (isTemplateDefined self n = true) in Hd. congruence. }
      split; [done|]. split; [intros _; cbn; lia|]. split; [done|]. split; [exact B4|]. rewrite B1, B2, B3. split; [lia|]. rewrite zget_zset_eq by lia. subst t.
      destruct (buildTemplate_fields s) as (_ & _ & _ & Hz & _). destruct (buildTemplate s). cbn in *. by subst.
Qed.

(** ** A step at the agent *)

Definition nodes_of (s : CanHubTxnStep) : option (CanHubTxnResponse * list Z) :=
  match cs_response s with Some r => match re_nodes r with Some nodes => Some (r, nodes) | None => None end | None => None end.

(** The roster of a step is the builder's, or goes out with the step. *)
Lemma roster_stage b s build : step_ok s → bd_defines_roster build = false →
  let '(ok, b', build') :=
    match cs_response s with
    | Some response => match re_nodes response with Some nodes => buildRoster b response nodes build | None => (true, b, build) end
    | None => (true, b, build)
    end in
  if (ok : bool) then b' = b ∧ build' = build <| bd_defines_roster := bd_defines_roster build' |> <| bd_roster := bd_roster build' |> ∧
    (if bd_defines_roster build' then bu_has_roster b = false ∧ ∃ r nodes, nodes_of s = Some (r, nodes) ∧ bd_roster build' = toRoster r nodes ∧ nodes_ok r nodes
     else ∀ r nodes, nodes_of s = Some (r, nodes) → bu_has_roster b = true ∧ bu_roster b = toRoster r nodes ∧ nodes_ok r nodes)
  else (∃ message, b' = b <| bu_error := Some message |>) ∧ bd_defines_roster build' = false ∧ bd_defines_template build' = bd_defines_template build ∧
    bd_record_count build' = bd_record_count build ∧ bd_records build' = bd_records build.
Proof.
  intros (_ & _ & Hr & _) Hd. unfold nodes_of. destruct (cs_response s) as [r|] eqn:Hre; [|by rewrite Hd; split; [|split; [destruct build; cbn in *; subst|]]].
  destruct (re_nodes r) as [nodes|] eqn:Hn; [|by rewrite Hd; split; [|split; [destruct build; cbn in *; subst|]]]. pose proof (proj2 (proj2 (proj2 (proj2 (Hr r eq_refl)))) nodes Hn) as Hok.
  unfold buildRoster. destruct (bu_has_roster b) eqn:Hb; cbn [negb].
  - cbn [bd_roster set_field]. case_bool_decide as He; cbn [negb]; [|by split; [eexists|]]. cbn. rewrite Hd. split; [done|]. split; [by destruct build; cbn in *; subst|]. by intros ? ? [= <- <-].
  - cbn. split; [done|]. split; [done|]. split; [done|]. by eexists _, _.
Qed.

Lemma define_roster channel txn_id b self r nodes w :
  holds_templates channel txn_id b self → rn_roster_count self = 0 → response_typed r → nodes_ok r nodes →
  let '(self', w') := TransactionRunner_DefineRoster log_port self (roster_at channel txn_id (toRoster r nodes)) w in
  w' = w ∧ holds_templates channel txn_id b self' ∧ extends self self' ∧ rn_roster_count self' = re_node_count r.
Proof.
  intros Hh Hz Ht Hok. pose proof (toRoster_valid r nodes channel txn_id Ht Hok) as Hv. set (m := roster_at channel txn_id (toRoster r nodes)) in *.
  assert (tr_txn_id m = txn_id ∧ tr_roster_count m = re_node_count r) as [Hi Hn] by (split; [done|apply (toRoster_count r nodes Hok)]). clearbody m.
  unfold TransactionRunner_DefineRoster. rewrite (ag_active _ _ _ _ Hh), (ag_txn _ _ _ _ Hh), Hi, Hz, Hv, Z.eqb_refl. cbn [negb orb Z.eqb].
  split; [done|]. split; [by destruct Hh; split|]. split; [by intros i ? ?|]. exact Hn.
Qed.

Definition record_taken (self : TransactionRunner) (r : TxnStep) : Prop :=
  offer_ok (rn_templates self) (rn_defined_templates self) r ∧ isOfferEncodable r = true.

Lemma extends_taken self self' r : extends self self' → record_taken self r → record_taken self' r.
Proof.
  intros He [[Hb Hf] Henc]. split; [|done]. split; [done|]. unfold step_fits in *. apply andb_true_iff in Hf as [Hf H3]. apply andb_true_iff in Hf as [H1 H2].
  destruct (He (st_template_id r)) as [-> ->]; [apply Hb|done|]. by rewrite H2, H3.
Qed.

Lemma extends_trans a b c : extends a b → extends b c → extends a c.
Proof. intros H1 H2 id Hid Hd. destruct (H1 id Hid Hd) as [Hd1 Ht1]. destruct (H2 id Hid Hd1) as [Hd2 Ht2]. split; [done|congruence]. Qed.

Lemma records_at b s build template_id :
  buildRecords b s template_id build = (raw_records b s build) <| bd_records := set_template template_id (bd_record_count (raw_records b s build)) (bd_records (raw_records b s build)) |>.
Proof. unfold buildRecords, raw_records. by destruct (cs_isotp s), (cs_data s). Qed.

Lemma set_template_records template_id (build : TransactionBuild) : bd_record_count build ≤ 17 → length (bd_records build) = 17%nat →
  records_of (build <| bd_records := set_template template_id (bd_record_count build) (bd_records build) |>) = (λ r, r <| st_template_id := template_id |>) <$> records_of build.
Proof.
  intros Hc Hl. unfold records_of. cbn. unfold set_template. apply take_app_length'. rewrite length_fmap, length_take. lia.
Qed.

(** A record that waits as its template says is one the agent takes. *)
Lemma good_record_taken channel txn_id b self s id r :
  holds_templates channel txn_id b self → 0 ≤ id < bu_template_count b → (bu_templates b).[id] <| tt_template_id := 0 |> = buildTemplate s →
  step_ok s → record_good s r → record_taken self (r <| st_template_id := id |>).
Proof.
  intros Hh Hid Hsh Hok [[Hty Hby] Hv Ht Hm He]. pose proof (ag_count _ _ _ _ Hh) as Hc. set (r' := r <| st_template_id := id |>).
  assert (step_typed r') as Hty' by (destruct Hty as (_ & Hrest); split; [cbn; zlia|exact Hrest]).
  assert (isStepValid r' = true) as Hv'.
  { unfold isStepValid in *. change (st_template_id r') with id. rewrite Ht in Hv. change (0 >=? TXN_TEMPLATES_MAX) with false in Hv. unfold TXN_TEMPLATES_MAX. destruct (Z.geb_spec id 16); [lia|exact Hv]. }
  split; [|by rewrite encodable_valid]. split; [by split|]. unfold step_fits. change (st_template_id r') with id. rewrite (ag_defined _ _ _ _ Hh), (ag_templates _ _ _ _ Hh) by lia.
  rewrite (proj2 (Z.ltb_lt _ _)) by lia. destruct (buildTemplate_fields s) as (Hmode & _ & _ & _ & Htype). rewrite <- Hsh in Hmode, Htype. set (t := (bu_templates b).[id]) in *. clearbody t.
  change (tt_type (t <| tt_template_id := 0 |>)) with (tt_type t) in Htype. change (tt_isotp (t <| tt_template_id := 0 |>)) with (tt_isotp t) in Htype.
  assert (tt_advance_mode t = (mode_of s).1.1) as Hadv by (by rewrite <- Hmode). unfold fitsTemplate. change (st_flags r') with (st_flags r). rewrite Hm, He.
  change (tt_type (template_at channel txn_id t)) with (tt_type t). change (tt_advance_mode (template_at channel txn_id t)) with (tt_advance_mode t). rewrite Hadv.
  destruct Hok as (Hd & _ & _ & _ & _). unfold data_ok in Hd. unfold mode_of. destruct (cs_isotp s) as [l|]; [destruct Htype as [-> _]|rewrite Htype].
  - destruct (cs_data s); [by rewrite bool_decide_eq_true_2|]. rewrite bool_decide_eq_false_2, bool_decide_eq_true_2 by (done || by intros [_ [? [=]]]). cbn. destruct Hd as [re ->]. destruct (re_nodes re); [by destruct (_ =? _)|done].
  - rewrite bool_decide_eq_false_2 by (by intros [[? [=]] _]). cbn. destruct (cs_data s); [by rewrite bool_decide_eq_false_2|]. rewrite bool_decide_eq_true_2 by done. cbn.
    destruct Hd as [re ->]. destruct (re_nodes re); [by destruct (_ =? _)|done].
Qed.

Definition setup_event (e : runner_event) : Prop := is_setup e ∧ event_typed e.

Lemma agrees_error channel txn_id b self e : agrees channel txn_id b self → agrees channel txn_id (b <| bu_error := e |>) self.
Proof. intros [[] Hr]. by split. Qed.

Lemma setup_view channel txn_id a b : build_view a = build_view b → setup_of channel txn_id a = setup_of channel txn_id b.
Proof. unfold build_view, setup_of. intros [= -> -> -> ->]. done. Qed.

(** The roster reaches the agent before the template that needs it. *)
Lemma roster_at_agent channel txn_id b self s build w :
  agrees channel txn_id b self → api_typed s →
  (if bd_defines_roster build then bu_has_roster b = false ∧ ∃ r nodes, nodes_of s = Some (r, nodes) ∧ bd_roster build = toRoster r nodes ∧ nodes_ok r nodes
   else ∀ r nodes, nodes_of s = Some (r, nodes) → bu_has_roster b = true ∧ bu_roster b = toRoster r nodes ∧ nodes_ok r nodes) →
  let events := if bd_defines_roster build then [EvRoster (roster_at channel txn_id (bd_roster build))] else [] in
  ∃ self', runner_run events (self, w) = (self', w) ∧ Forall setup_event events ∧ holds_templates channel txn_id b self' ∧ extends self self' ∧
    rn_roster_count self' = (if bd_defines_roster build then tr_roster_count (bd_roster build) else if bu_has_roster b then tr_roster_count (bu_roster b) else 0) ∧
    ∀ r nodes, cs_response s = Some r → re_nodes r = Some nodes → rn_roster_count self' = re_node_count r.
Proof.
  intros [Hh Hr] Ht Hro events. subst events. assert (∀ r nodes, cs_response s = Some r → re_nodes r = Some nodes → nodes_of s = Some (r, nodes)) as Hno by (intros r nodes H1 H2; unfold nodes_of; by rewrite H1, H2).
  destruct (bd_defines_roster build).
  - destruct Hro as (Hnr & r & nodes & Hn & Hb & Hok). rewrite Hnr in Hr. assert (response_typed r) as Hrt.
    { unfold nodes_of in Hn. destruct Ht as (_ & _ & _ & _ & Hrt & _). destruct (cs_response s) as [r'|]; [|done]. destruct (re_nodes r') eqn:?; [|done]. injection Hn as -> ->. by apply Hrt. }
    pose proof (define_roster channel txn_id b self r nodes w Hh Hr Hrt Hok) as Hd. rewrite Hb. cbn [runner_run foldl runner_step].
    destruct (TransactionRunner_DefineRoster log_port self (roster_at channel txn_id (toRoster r nodes)) w) as [self' w']. destruct Hd as (-> & H1 & H2 & H3). exists self'.
    split; [done|]. split; [by repeat constructor|]. split; [done|]. split; [done|]. rewrite H3. split; [symmetry; by apply toRoster_count|]. intros r' nodes' H4 H5. rewrite (Hno _ _ H4 H5) in Hn. by injection Hn as -> _.
  - exists self. split; [done|]. split; [constructor|]. split; [done|]. split; [by intros i ? ?|]. split; [done|]. intros r nodes H1 H2. destruct (Hro r nodes (Hno _ _ H1 H2)) as (Hb & Hbr & Hok).
    rewrite Hb, Hbr in Hr. rewrite Hr. by apply toRoster_count.
Qed.

(** The template the last record of a step names waits as the step does. *)
Definition shape (t : TxnTemplateMessage) : TxnTemplateMessage := t <| tt_template_id := 0 |> <| tt_channel := 0 |> <| tt_txn_id := 0 |>.

Definition waits_at (self : TransactionRunner) (s : CanHubTxnStep) (build : TransactionBuild) : Prop :=
  ∃ r, last (records_of build) = Some r ∧ expects s r ∧ 0 ≤ st_template_id r ∧ defined (rn_defined_templates self) (st_template_id r) = true ∧
    shape ((rn_templates self).[st_template_id r]) = buildTemplate s ∧ step_ok s.

Lemma extends_waits self self' s build : extends self self' → waits_at self s build → waits_at self' s build.
Proof. intros He (r & H1 & H2 & H3 & H4 & H5 & H6). destruct (He _ H3 H4) as [Hd Ht]. exists r. by rewrite Ht. Qed.

(** How long a step gives a "busy" answer, and how its timeout and a mismatch end it. *)
Definition patience_of (s : CanHubTxnStep) : Z * bool * bool :=
  match cs_response s with
  | None => (0, false, false)
  | Some r => (if re_pending r then re_timeout_after_pending_ms r else 0, re_continue_on_timeout r, re_on_mismatch_abort r)
  end.

(** The record names a template the runner holds, and it is the one the step
    asks for, of the transaction's channel and number: it waits as the API's step
    says (mode, answers, timeouts, gap, link), and it is [buildTemplate]'s, but
    for the number the template got. *)
Definition asked_template (channel txn_id : Z) (self : TransactionRunner) (s : CanHubTxnStep) (r : TxnStep) : Prop :=
  let t := (rn_templates self).[st_template_id r] in
  0 ≤ st_template_id r ∧ defined (rn_defined_templates self) (st_template_id r) = true ∧
  t <| tt_template_id := 0 |> = template_at channel txn_id (buildTemplate s) ∧
  (tt_channel t, tt_txn_id t) = (channel, txn_id) ∧ (tt_advance_mode t, tt_count_k t, tt_timeout_ms t) = mode_of s ∧
  (tt_extend_timeout_ms t, has_flag (tt_flags t) TXN_TEMPLATE_FLAG_SOFT, has_flag (tt_flags t) TXN_TEMPLATE_FLAG_MISMATCH_ABORT) = patience_of s ∧
  tt_gap_us t = cs_gap_us s ∧ ∀ l, cs_isotp s = Some l → tt_isotp t = toIsotpParameters l.

Lemma extends_asked channel txn_id self self' s r : extends self self' → asked_template channel txn_id self s r → asked_template channel txn_id self' s r.
Proof. unfold asked_template. intros He (H1 & H2 & Hrest). destruct (He _ H1 H2) as [Hd Ht]. by rewrite Ht. Qed.

Lemma buildTemplate_patience s : let t := buildTemplate s in
  (tt_extend_timeout_ms t, has_flag (tt_flags t) TXN_TEMPLATE_FLAG_SOFT, has_flag (tt_flags t) TXN_TEMPLATE_FLAG_MISMATCH_ABORT) = patience_of s ∧ tt_gap_us t = cs_gap_us s.
Proof.
  unfold buildTemplate, patience_of. destruct (cs_isotp s), (cs_response s) as [r|]; try done;
    destruct (re_nodes r), (re_failure r), (re_pending r), (re_continue_on_timeout r), (re_on_mismatch_abort r); done.
Qed.

Lemma held_asked channel txn_id b self s r :
  holds_templates channel txn_id b self → 0 ≤ st_template_id r < bu_template_count b → (bu_templates b).[st_template_id r] <| tt_template_id := 0 |> = buildTemplate s →
  asked_template channel txn_id self s r.
Proof.
  intros Hh Hid Hsh. pose proof (ag_count _ _ _ _ Hh) as Hc. unfold asked_template. rewrite (ag_defined _ _ _ _ Hh), (ag_templates _ _ _ _ Hh) by lia.
  pose proof (buildTemplate_fields s) as Hf. pose proof (buildTemplate_patience s) as Hp. rewrite <- Hsh in Hf, Hp |- *. set (t := (bu_templates b).[st_template_id r]) in *. clearbody t.
  destruct Hf as (Hm & _ & _ & _ & Hl), Hp as [Hp Hg]. split; [lia|]. split; [apply Z.ltb_lt; lia|]. split; [by destruct t|]. split; [done|]. split; [exact Hm|]. split; [exact Hp|]. split; [exact Hg|].
  intros l Hi. rewrite Hi in Hl. by destruct Hl.
Qed.

(** One step: refused with a reason and nothing sent, or all of it taken. *)
Lemma step_at_agent channel txn_id b self s build w :
  agrees channel txn_id b self → api_typed s → length (bd_records build) = 17%nat →
  let '(ok, b', build') := TransactionBuilder_Step b s build in
  let '(self', w') := runner_run (setup_of channel txn_id build') (self, w) in
  length (bd_records build') = 17%nat ∧ w' = w ∧ agrees channel txn_id b' self' ∧ extends self self' ∧ Forall setup_event (setup_of channel txn_id build') ∧
  if (ok : bool) then (records_of build' ≠ [] ∧ Forall (record_taken self') (records_of build') ∧ Forall (asked_template channel txn_id self' s) (records_of build')) ∧ waits_at self' s build'
  else is_Some (bu_error b') ∧ setup_of channel txn_id build' = [] ∧ records_of build' = [].
Proof.
  intros Hag Ht Hl. unfold TransactionBuilder_Step. set (build0 := build <| bd_defines_roster := false |> <| bd_defines_template := false |> <| bd_record_count := 0 |>).
  set (b0 := b <| bu_error := None |>). assert (agrees channel txn_id b0 self) as Hag0 by (by apply agrees_error).
  assert (bd_defines_roster build0 = false ∧ bd_defines_template build0 = false ∧ bd_record_count build0 = 0 ∧ length (bd_records build0) = 17%nat) as (R1 & R2 & R3 & R4) by done. clearbody build0 b0.
  assert (∀ message build', bd_defines_roster build' = false → bd_defines_template build' = false → bd_record_count build' = 0 → length (bd_records build') = 17%nat →
    let '(self', w') := runner_run (setup_of channel txn_id build') (self, w) in
    length (bd_records build') = 17%nat ∧ w' = w ∧ agrees channel txn_id (b0 <| bu_error := Some message |>) self' ∧ extends self self' ∧ Forall setup_event (setup_of channel txn_id build') ∧
    is_Some (bu_error (b0 <| bu_error := Some message |>)) ∧ setup_of channel txn_id build' = [] ∧ records_of build' = []) as Hrefused.
  { intros message build' H1 H2 H3 H4. unfold setup_of, records_of. rewrite H1, H2, H3. cbn. split; [done|]. split; [done|]. split; [by apply agrees_error|]. split; [by intros i ? ?|]. split; [constructor|]. done. }
  pose proof (checkStep_checked b0 s Ht) as Hck. destruct (checkStep b0 s) as [[] b1]; cbn [checked fst snd negb] in *; [|destruct Hck as [message ->]; by apply Hrefused].
  destruct Hck as [-> Hok]. pose proof (roster_stage b0 s build0 Hok R1) as Hst. destruct (match cs_response s with Some _ => _ | None => _ end) as [[[] b2] build2]; cbn [negb].
  2:{ destruct Hst as ([message ->] & H1 & H2 & H3 & H4). apply Hrefused; congruence. }
  destruct Hst as (-> & Hb2 & Hro). destruct (roster_at_agent channel txn_id b0 self s build2 w Hag0 Ht Hro) as (self1 & Hrun1 & Hset1 & Hh1 & Hext1 & Hcnt1 & Hcond).
  assert (bd_defines_template build2 = false ∧ bd_record_count build2 = 0 ∧ length (bd_records build2) = 17%nat) as (S1 & S2 & S3) by (rewrite Hb2; done).
  pose proof (place_agrees channel txn_id b0 self1 s build2 w Hh1 Ht Hok S1 Hcond) as Hpl. destruct (placeTemplate b0 (buildTemplate s) build2) as [[[] b3] build3]; cbn [negb].
  2:{ destruct Hpl as ([message ->] & ->). by apply Hrefused. }
  destruct (runner_run (if bd_defines_template build3 then _ else _) (self1, w)) as [self2 w2] eqn:Hrun2. destruct Hpl as (-> & Hh2 & Hext2 & Hcnt2 & Hid & Hb3 & Hkeep & Hlast & Hsh). injection Hkeep as K1 K2 K3.
  assert (bd_defines_roster build3 = bd_defines_roster build2 ∧ bd_roster build3 = bd_roster build2 ∧ bd_record_count build3 = 0 ∧ length (bd_records build3) = 17%nat) as (T1 & T2 & T3 & T4) by (rewrite Hb3; done).
  set (b4 := if bd_defines_roster build3 then _ else b3). assert (holds_templates channel txn_id b4 self2 ∧ (bu_last_template b4, bu_template_count b4, bu_templates b4) = (bu_last_template b3, bu_template_count b3, bu_templates b3) ∧
    (bu_has_roster b4, if bu_has_roster b4 then tr_roster_count (bu_roster b4) else 0) = (bd_defines_roster build3 || bu_has_roster b3, if bd_defines_roster build3 then tr_roster_count (bd_roster build3) else if bu_has_roster b3 then tr_roster_count (bu_roster b3) else 0))
    as (Hh4 & H4 & H5) by (subst b4; destruct (bd_defines_roster build3); [split; [by destruct Hh2; split|done]|by split; [|split]]).
  clearbody b4. injection H4 as L1 L2 L3. injection H5 as L4 L5. rewrite L1.
  destruct (raw_records_good b4 s build3 Ht Hok T3 T4) as (Hc & Hlen & Hview & Hgood & r & Hlast_r & Hex). rewrite records_at. set (build4 := raw_records b4 s build3) in *. clearbody build4.
  set (build5 := build4 <| bd_records := _ |>). assert (setup_of channel txn_id build5 = setup_of channel txn_id build3) as Hse by (apply setup_view; exact Hview).
  assert (records_of build5 = (λ r, r <| st_template_id := bu_last_template b3 |>) <$> records_of build4) as Hrec by (apply set_template_records; [lia|done]).
  rewrite Hse. unfold setup_of. rewrite T1, T2. unfold runner_run in *. rewrite foldl_app, Hrun1, Hrun2.
  split; [subst build5; cbn; unfold set_template; rewrite length_app, length_fmap, length_take, length_drop; lia|]. split; [done|].
  split; [split; [done|]; rewrite L5, Hcnt2, Hcnt1, T1, T2, K1, K2; done|]. split; [by eapply extends_trans|].
  split; [apply Forall_app; split; [done|]; destruct (bd_defines_template build3); [|constructor]; apply Forall_singleton; split; [done|]; by apply Hid|].
  rewrite Hrec. split.
  - split; [intros He%fmap_nil_inv; unfold records_of in He; apply (f_equal length) in He; rewrite length_take in He; cbn in He; lia|]. split; apply Forall_fmap.
    + eapply Forall_impl; [exact Hgood|]. intros r' Hr. cbn. by apply (good_record_taken channel txn_id b3 self2 s).
    + apply Forall_forall. intros r' _. cbn. by apply (held_asked channel txn_id b3).
  - exists (r <| st_template_id := bu_last_template b3 |>). rewrite Hrec, fmap_last, Hlast_r. split; [done|]. split; [by apply (expects_keep s r)|].
    change (st_template_id (r <| st_template_id := bu_last_template b3 |>)) with (bu_last_template b3). pose proof (ag_count _ _ _ _ Hh2). split; [lia|].
    rewrite (ag_defined _ _ _ _ Hh2), (ag_templates _ _ _ _ Hh2) by lia. split; [apply Z.ltb_lt; lia|]. split; [|done]. rewrite <- Hsh.
    destruct (buildTemplate_fields s) as (_ & Hch & Htx & _). rewrite <- Hsh in Hch, Htx. destruct ((bu_templates b3).[bu_last_template b3]). cbn in *. by subst.
Qed.

(** ** A whole transaction *)

(** What each step gives: whether it is accepted, the error, the build. *)
Fixpoint build_steps (b : TransactionBuilder) (build : TransactionBuild) (steps : list CanHubTxnStep) : list (bool * option string * TransactionBuild) :=
  match steps with
  | [] => []
  | s :: rest => let '(ok, b, build) := TransactionBuilder_Step b s build in (ok, bu_error b, build) :: build_steps b build rest
  end.

Definition begin_at (channel : Z) (begin : TxnBeginMessage) : TxnBeginMessage :=
  {| tb_channel := channel; tb_flags := tb_flags begin; tb_idle_timeout_ms := tb_idle_timeout_ms begin; tb_keepalive := tb_keepalive begin |}.

(** An accepted step has records, all of them taken, all of them waiting as the
    step asks; a refused one has a reason and sends nothing. *)
Definition outcome_ok (channel txn_id : Z) (self : TransactionRunner) (s : CanHubTxnStep) (out : bool * option string * TransactionBuild) : Prop :=
  let '(ok, error, build) := out in
  if (ok : bool) then records_of build ≠ [] ∧ Forall (record_taken self) (records_of build) ∧ Forall (asked_template channel txn_id self s) (records_of build)
  else is_Some error ∧ setup_of channel txn_id build = [] ∧ records_of build = [].

Lemma extends_outcome channel txn_id self self' s out : extends self self' → outcome_ok channel txn_id self s out → outcome_ok channel txn_id self' s out.
Proof.
  destruct out as [[[] error] build]; [|done]. intros He (Hn & Hr & Ha). split; [done|].
  split; [eapply Forall_impl; [exact Hr|]; intros r; by apply extends_taken|eapply Forall_impl; [exact Ha|]; intros r; by apply extends_asked].
Qed.

Lemma steps_at_agent channel txn_id steps b build self w :
  agrees channel txn_id b self → Forall api_typed steps → length (bd_records build) = 17%nat →
  let builds := build_steps b build steps in
  let setup := concat ((λ out, setup_of channel txn_id out.2) <$> builds) in
  ∃ self', runner_run setup (self, w) = (self', w) ∧ rn_active self' = true ∧ extends self self' ∧ Forall setup_event setup ∧ Forall2 (outcome_ok channel txn_id self') steps builds ∧
    Forall2 (λ s out, out.1.1 = true → waits_at self' s out.2) steps builds.
Proof.
  intros Hag Ht. revert b build self Hag. induction Ht as [|s steps Hs _ IH]; intros b build self Hag Hl; cbn [build_steps].
  { exists self. split; [done|]. split; [apply (proj1 Hag)|]. split; [by intros i ? ?|]. by split. }
  pose proof (step_at_agent channel txn_id b self s build w Hag Hs Hl) as H. destruct (TransactionBuilder_Step b s build) as [[ok b'] build'].
  destruct (runner_run (setup_of channel txn_id build') (self, w)) as [self1 w1] eqn:Hrun. destruct H as (Hl' & -> & Hag' & Hext & Hset & Hout).
  destruct (IH b' build' self1 Hag' Hl') as (self' & Hrun' & Ha & Hext' & Hset' & Hall & Hw). exists self'. cbn [fmap list_fmap concat snd]. unfold runner_run in *. rewrite foldl_app, Hrun.
  split; [exact Hrun'|]. split; [done|]. split; [by eapply extends_trans|]. split; [by apply Forall_app|]. split.
  - constructor; [|exact Hall]. apply (extends_outcome _ _ self1); [done|]. destruct ok; [exact (proj1 Hout)|exact Hout].
  - constructor; [|exact Hw]. cbn [fst snd]. intros ->. apply (extends_waits self1); [done|]. apply Hout.
Qed.

Lemma builder_begin_valid options begin channel :
  (∀ o k, options = Some o → op_keepalive o = Some k → is_u8 (ka_length k)) → TransactionBuilder_Begin options = (None, begin) → isBeginValid (begin_at channel begin) = true.
Proof.
  intros Hk. unfold TransactionBuilder_Begin. destruct options as [o|]; [|by intros [= <-]]. destruct (_ =? 0); [done|]. destruct (op_keepalive o) as [k|] eqn:Hko; [|by intros [= <-]].
  destruct (isKeepaliveValid k) eqn:Hv; [done|]. intros [= <-]. unfold isKeepaliveValid in Hv. destruct (_ =? 0); [done|]. destruct (negb (CanId_IsValid _)); [done|]. destruct (isFrameLength (ka_length k)) eqn:Hf; [|done].
  unfold isBeginValid. cbn. apply orb_true_iff. right. specialize (Hk o k eq_refl Hko). rewrite Z.gtb_ltb. destruct (Z.ltb_spec FRAME_PAYLOAD_MAX_CLASSIC (ka_length k)) as [Hgt|Hle].
  - apply isFrameLength_ok in Hf as [Hf|Hf]; [unfold FRAME_PAYLOAD_MAX_CLASSIC in *; lia|]. unfold FD_LENGTHS in Hf. destruct (op_bitrate_switch o); repeat (apply elem_of_cons in Hf as [->|Hf]; [done|]); by apply elem_of_nil in Hf.
  - unfold FrameMessage_IsPayloadLengthValid. cbn. by apply Z.leb_le.
Qed.

Section Session.
Context (options : option CanHubTxnOptions) (begin : TxnBeginMessage) (bitrate_switch : bool) (channel : Z) (steps : list CanHubTxnStep)
  (build : TransactionBuild) (runner : TransactionRunner) (interface_index now_us : Z) (w : rworld).
Context (Hk : ∀ o k, options = Some o → op_keepalive o = Some k → is_u8 (ka_length k)) (Hb : TransactionBuilder_Begin options = (None, begin))
  (Ht : Forall api_typed steps) (Hl : length (bd_records build) = TRANSACTION_BUILDER_RECORDS_MAX)
  (Ha : rn_active runner = false) (Hn : zlen (rn_templates runner) = TXN_TEMPLATES_MAX).

Lemma session_start :
  let '(ack, self) := TransactionRunner_Begin runner (begin_at channel begin) interface_index now_us in
  tba_status ack = kTXN_BEGIN_STATUS_OK ∧ agrees channel (tba_txn_id ack) (TransactionBuilder_Init bitrate_switch) self.
Proof using Hk Hb Ha Hn.
  clear Ht Hl. pose proof (builder_begin_valid options begin channel Hk Hb) as Hv. unfold TransactionRunner_Begin. rewrite Ha, Hv. cbn [negb].
  set (txn := if _ =? NO_TXN_ID then _ else _). cbn [tba_txn_id tba_status]. set (self := {| rn_ring := _ |}). split; [done|].
  split; [|done]. split; try done; [by left|intros i Hi; cbn; rewrite defined_testbit, Z.bits_0 by lia; symmetry; apply Z.ltb_ge; lia|cbn; lia].
Qed.

(** C9. What the builder accepts, the agent runs.  Options and steps of the
    library's API go through the builder; what it makes of them, the BEGIN, then
    for each accepted step the roster and template it defines, is sent to an
    agent's runner that is idle.  The BEGIN is acknowledged; every definition is
    taken, nothing is reported and the transaction stays active; every record of
    an accepted step is one that the client's sender encodes and the agent's
    runner takes; the template such a record names is the one its step asked for,
    with the step's mode, answers, timeouts, flags, gap and link and with the
    patterns [buildTemplate] makes of its matches; and a refused step has a reason
    and sends nothing at all. *)
Theorem builder_steps_accepted :
  let '(ack, self) := TransactionRunner_Begin runner (begin_at channel begin) interface_index now_us in
  let builds := build_steps (TransactionBuilder_Init bitrate_switch) build steps in
  let setup := concat ((λ out, setup_of channel (tba_txn_id ack) out.2) <$> builds) in
  let '(self', w') := runner_run setup (self, w) in
  tba_status ack = kTXN_BEGIN_STATUS_OK ∧ w' = w ∧ rn_active self' = true ∧ Forall setup_event setup ∧ Forall2 (outcome_ok channel (tba_txn_id ack) self') steps builds.
Proof using Hk Hb Ht Hl Ha Hn.
  pose proof session_start as Hs. destruct (TransactionRunner_Begin runner (begin_at channel begin) interface_index now_us) as [ack self]. destruct Hs as [Hack Hag].
  destruct (steps_at_agent channel (tba_txn_id ack) steps _ build self w Hag Ht Hl) as (self' & Hrun & Hact & _ & Hset & Hall & _). cbv zeta in *. rewrite Hrun. done.
Qed.

(** C10. The agent waits for what the API describes.  In the same setting, let the
    agent be at the last record of an accepted step that has a response.  For any
    frame of the bus, the comparisons of the runner decide exactly the
    declarations of the step: a frame is taken for "busy" if and only if it meets
    the pending match, it aborts if and only if it meets the failure match, and
    it is an answer if and only if it meets the success match, or the step's
    where, whose identifier replaces the response's and whose bits add to its
    bytes.  Meeting a match is stated on the identifier's bits and the data
    bytes, without masks or words. *)
Theorem built_match_exact (i : nat) (s : CanHubTxnStep) (response : CanHubTxnResponse) (error : option string) (build' : TransactionBuild) :
  let '(ack, self) := TransactionRunner_Begin runner (begin_at channel begin) interface_index now_us in
  let builds := build_steps (TransactionBuilder_Init bitrate_switch) build steps in
  let setup := concat ((λ out, setup_of channel (tba_txn_id ack) out.2) <$> builds) in
  let self' := (runner_run setup (self, w)).1 in
  steps !! i = Some s → cs_response s = Some response → builds !! i = Some (true, error, build') →
  ∃ r, last (records_of build') = Some r ∧
    ∀ agent f, rn_templates agent = rn_templates self' → ac_step (rn_current agent) = r → on_the_bus f →
      let t := currentTemplate agent in
      (matchesTemplatePattern t kTXN_PATTERN_EXTEND f (payloadWord f) = true ↔ ∃ m, re_pending response = Some m ∧ meets m f) ∧
      (matchesTemplatePattern t kTXN_PATTERN_ABORT f (payloadWord f) = true ↔ ∃ m, re_failure response = Some m ∧ meets m f) ∧
      (matchesId (tt_advance t) (frame_can_id f) && matchesPayload (payloadWord f) (tp_payload_mask (tt_advance t)) (expectedValue agent t) = true ↔
       answers response (cs_where s) f).
Proof using Hk Hb Ht Hl Ha Hn.
  pose proof session_start as Hs. destruct (TransactionRunner_Begin runner (begin_at channel begin) interface_index now_us) as [ack self]. destruct Hs as [Hack Hag].
  destruct (steps_at_agent channel (tba_txn_id ack) steps _ build self w Hag Ht Hl) as (self' & Hrun & _ & _ & _ & _ & Hw). cbv zeta in *. rewrite Hrun. cbn [fst]. intros Hi Hr Hbi.
  destruct (Forall2_lookup_lr _ _ _ _ _ _ Hw Hi Hbi eq_refl) as (r & Hlast & Hex & _ & _ & Hsh & Hok). exists r. split; [exact Hlast|]. intros agent f Hat Hcur Hf.
  pose proof (proj1 (Forall_lookup _ _) Ht i s Hi) as (_ & _ & _ & _ & Hrt & Hwt & _). pose proof (Hrt response Hr) as (Hst & Hft & Hpt & _). pose proof Hok as (_ & _ & Hro & Hwo & _).
  destruct (Hro response Hr) as (_ & Hsv & Hfv & Hpv & _). unfold currentTemplate. rewrite Hcur, Hat. set (t := (rn_templates self').[st_template_id r]) in *. clearbody t.
  pose proof (buildTemplate_patterns s response Hr) as (P1 & P2 & P3). rewrite <- Hsh in P1, P2, P3. cbn zeta. split; [|split].
  - change (matchesTemplatePattern t kTXN_PATTERN_EXTEND f (payloadWord f)) with (matchesTemplatePattern (shape t) kTXN_PATTERN_EXTEND f (payloadWord f)). rewrite P3. destruct (re_pending response) as [m|]; [|by split; [|intros (? & [=] & _)]]. rewrite toPattern_meets by auto. split; [by exists m|by intros (? & [= <-] & ?)].
  - change (matchesTemplatePattern t kTXN_PATTERN_ABORT f (payloadWord f)) with (matchesTemplatePattern (shape t) kTXN_PATTERN_ABORT f (payloadWord f)). rewrite P2. destruct (re_failure response) as [m|]; [|by split; [|intros (? & [=] & _)]]. rewrite toPattern_meets by auto. split; [by exists m|by intros (? & [= <-] & ?)].
  - change (tt_advance (shape t)) with (tt_advance t) in P1. unfold expectedValue. rewrite Hcur. change (pattern_at t kTXN_PATTERN_ADVANCE) with (tt_advance t). rewrite P1.
    rewrite <- (advance_answers response (cs_where s) f Hst Hsv); [|intros m Hm; split; [by apply Hwt|by apply Hwo]|done]. unfold expects in Hex. rewrite Hr in Hex.
    destruct (cs_where s) as [m|]; [destruct Hex as [-> ->]; done|rewrite Hex; done].
Qed.

End Session.

Module BuilderDemo.

Definition id (v : Z) : CanHubCanId := {| cid_value := v; cid_extended := false |}.
Definition any : CanHubTxnByte := {| by_mask := 0; by_value := 0 |}.
Definition eq (v : Z) : CanHubTxnByte := {| by_mask := 255; by_value := v |}.
Definition match_of (v : Z) (b0 b1 : CanHubTxnByte) : CanHubTxnMatch :=
  {| ma_id := id v; ma_id_ignored_bits := 0; ma_bytes := [b0; b1; any; any; any; any; any; any] |}.
Definition response : CanHubTxnResponse := {|
  re_success := match_of 1538 (eq 80) any; re_failure := Some (match_of 1538 (eq 127) any); re_pending := None; re_nodes := None; re_node_count := 0;
  re_allowed_missing := 0; re_node_from := 0; re_node_byte := 0; re_timeout_ms := 100; re_timeout_after_pending_ms := 0;
  re_continue_on_timeout := false; re_on_mismatch_abort := false |}.
Definition link : CanHubTxnIsotpLink := {|
  il_tx_id := id 1537; il_rx_id := id 1538; il_address_byte := false; il_tx_address := 0; il_rx_address := 0; il_padded := true; il_padding := 204; il_fd := false;
  il_bitrate_switch := false; il_fd_data_length := 0; il_block_size := 0; il_st_min := 0 |}.

Definition frame_step (data : list Z) (r : option CanHubTxnResponse) (wh : option CanHubTxnMatch) : CanHubTxnStep := {|
  cs_id := id 291; cs_data := Some data; cs_length := zlen data; cs_isotp := None; cs_response := r; cs_where := wh; cs_gap_us := 0 |}.

(** A frame, a question whose answer must carry 7 in its second byte, an ISO-TP
    message of 300 bytes, and a frame of nine bytes, which no bus carries. *)
Definition steps : list CanHubTxnStep := [
  frame_step [1; 2; 3] None None;
  frame_step [34] (Some response) (Some (match_of 1538 any (eq 7)));
  {| cs_id := id 1537; cs_data := Some (replicate 300 9); cs_length := 300; cs_isotp := Some link; cs_response := None; cs_where := None; cs_gap_us := 0 |};
  frame_step [1; 2; 3; 4; 5; 6; 7; 8; 9] None None].

Definition build : TransactionBuild := {|
  bd_defines_roster := false; bd_roster := roster_zero; bd_defines_template := false; bd_template_message := template_zero; bd_record_count := 0;
  bd_records := replicate TRANSACTION_BUILDER_RECORDS_MAX TxnStep_zero |}.
Definition begin : TxnBeginMessage := {| tb_channel := 0; tb_flags := 0; tb_idle_timeout_ms := 0; tb_keepalive := keepalive_zero |}.
Definition log : rworld := ([], []).
Definition runner : TransactionRunner := TransactionRunner_Init RunnerDemo.store 1024.

Lemma match_ok v b0 b1 : is_u32 v → byte_typed b0 → byte_typed b1 → match_typed (match_of v b0 b1).
Proof. intros Hv H0 H1. split; [exact Hv|]. split; [cbn; zlia|]. split; [done|]. do 8 (constructor; [first [done|split; cbn; zlia]|]). constructor. Qed.

Lemma steps_typed : Forall api_typed steps.
Proof.
  assert (match_typed (match_of 1538 (eq 80) any) ∧ match_typed (match_of 1538 (eq 127) any) ∧ match_typed (match_of 1538 any (eq 7))) as (M1 & M2 & M3) by (split_and!; apply match_ok; try split; cbn; zlia).
  assert (response_typed response) as Hr by (split; [exact M1|]; split; [by intros ? [= <-]|]; split; [done|]; split; [done|]; cbn; split_and!; zlia).
  assert (∀ n data r wh, zlen data = n → is_u16 n → bytes data → (r = None ∨ r = Some response) → (wh = None ∨ wh = Some (match_of 1538 any (eq 7))) → api_typed (frame_step data r wh)) as Hf.
  { intros n data r wh Hn Hu Hb Hrr Hw. split; [unfold id_typed; cbn; zlia|]. split; [cbn; by rewrite Hn|]. split; [intros ? [= <-]; split; [cbn; lia|done]|]. split; [done|].
    split; [by intros r' [= ->]; destruct Hrr as [|[= ->]]|]. split; [by intros m [= ->]; destruct Hw as [|[= ->]]|cbn; zlia]. }
  unfold steps. repeat (apply Forall_cons; split); [apply (Hf 3)|apply (Hf 1)| |apply (Hf 9)|constructor]; auto; try zlia; try (unfold bytes, is_u8; repeat constructor; lia).
  split; [unfold id_typed; cbn; zlia|]. split; [cbn; zlia|]. split; [intros data Hd; injection Hd as <-; split; [done|change (Forall is_u8 (replicate 300 9)); apply Forall_replicate; zlia]|]. split; [intros ? [= <-]; unfold link_typed, id_typed; cbn; split_and!; zlia|]. split; [done|]. split; [done|cbn; zlia].
Qed.

End BuilderDemo.

Lemma builder_steps_accepted_witness :
  let '(ack, self) := TransactionRunner_Begin BuilderDemo.runner (begin_at 3 BuilderDemo.begin) 0 1000 in
  let builds := build_steps (TransactionBuilder_Init false) BuilderDemo.build BuilderDemo.steps in
  let setup := concat ((λ out, setup_of 3 (tba_txn_id ack) out.2) <$> builds) in
  let '(self', w') := runner_run setup (self, BuilderDemo.log) in
  ((λ out, (out.1.1, length (records_of out.2))) <$> builds = [(true, 1%nat); (true, 1%nat); (true, 2%nat); (false, 0%nat)] ∧ length setup = 3%nat) ∧
  tba_status ack = kTXN_BEGIN_STATUS_OK ∧ w' = BuilderDemo.log ∧ rn_active self' = true ∧ Forall setup_event setup ∧ Forall2 (outcome_ok 3 (tba_txn_id ack) self') BuilderDemo.steps builds.
Proof.
  pose proof (builder_steps_accepted None BuilderDemo.begin false 3 BuilderDemo.steps BuilderDemo.build BuilderDemo.runner 0 1000 BuilderDemo.log
    ltac:(done) ltac:(reflexivity) BuilderDemo.steps_typed ltac:(reflexivity) ltac:(reflexivity) ltac:(vm_compute; reflexivity)) as H.
  assert ((λ out, (out.1.1, length (records_of out.2))) <$> build_steps (TransactionBuilder_Init false) BuilderDemo.build BuilderDemo.steps = [(true, 1%nat); (true, 1%nat); (true, 2%nat); (false, 0%nat)]) as Hb
    by (vm_compute; reflexivity).
  assert (length (concat ((λ out, setup_of 3 (tba_txn_id (TransactionRunner_Begin BuilderDemo.runner (begin_at 3 BuilderDemo.begin) 0 1000).1) out.2) <$>
    build_steps (TransactionBuilder_Init false) BuilderDemo.build BuilderDemo.steps)) = 3%nat) as Hs by (vm_compute; reflexivity).
  revert H Hb Hs. generalize (build_steps (TransactionBuilder_Init false) BuilderDemo.build BuilderDemo.steps) as builds.
  generalize (TransactionRunner_Begin BuilderDemo.runner (begin_at 3 BuilderDemo.begin) 0 1000) as begun. intros [ack self] builds. cbn [fst]. cbv zeta.
  generalize (runner_run (concat ((λ out, setup_of 3 (tba_txn_id ack) out.2) <$> builds)) (self, BuilderDemo.log)) as ran. intros [self' w'] H Hb Hs. split; [split; [exact Hb|exact Hs]|exact H].
Defined.

(** At the second step. *)
Lemma built_match_exact_witness :
  let '(ack, self) := TransactionRunner_Begin BuilderDemo.runner (begin_at 3 BuilderDemo.begin) 0 1000 in
  let builds := build_steps (TransactionBuilder_Init false) BuilderDemo.build BuilderDemo.steps in
  let setup := concat ((λ out, setup_of 3 (tba_txn_id ack) out.2) <$> builds) in
  let self' := (runner_run setup (self, BuilderDemo.log)).1 in
  ∃ error build', builds !! 1%nat = Some (true, error, build') ∧
  ∃ r, last (records_of build') = Some r ∧
    ∀ agent f, rn_templates agent = rn_templates self' → ac_step (rn_current agent) = r → on_the_bus f →
      let t := currentTemplate agent in
      matchesId (tt_advance t) (frame_can_id f) && matchesPayload (payloadWord f) (tp_payload_mask (tt_advance t)) (expectedValue agent t) = true ↔
      answers BuilderDemo.response (Some (BuilderDemo.match_of 1538 BuilderDemo.any (BuilderDemo.eq 7))) f.
Proof.
  pose proof (built_match_exact None BuilderDemo.begin false 3 BuilderDemo.steps BuilderDemo.build BuilderDemo.runner 0 1000 BuilderDemo.log
    ltac:(done) ltac:(reflexivity) BuilderDemo.steps_typed ltac:(reflexivity) ltac:(reflexivity) ltac:(vm_compute; reflexivity) 1
    (BuilderDemo.frame_step [34] (Some BuilderDemo.response) (Some (BuilderDemo.match_of 1538 BuilderDemo.any (BuilderDemo.eq 7)))) BuilderDemo.response) as H.
  assert (fst ∘ fst <$> build_steps (TransactionBuilder_Init false) BuilderDemo.build BuilderDemo.steps !! 1%nat = Some true) as Hb by (vm_compute; reflexivity).
  revert H Hb. generalize (build_steps (TransactionBuilder_Init false) BuilderDemo.build BuilderDemo.steps) as builds.
  generalize (TransactionRunner_Begin BuilderDemo.runner (begin_at 3 BuilderDemo.begin) 0 1000) as begun. intros [ack self] builds. cbv zeta. intros H Hb.
  destruct (builds !! 1%nat) as [[[ok error] build']|]; [|discriminate]. cbn in Hb. injection Hb as ->. exists error, build'. split; [reflexivity|]. destruct (H error build' eq_refl eq_refl eq_refl) as (r & Hr & Hm). exists r. split; [exact Hr|].
  intros agent f H1 H2 H3. exact (proj2 (proj2 (Hm agent f H1 H2 H3))).
Defined.
