(* ===== verification/BuilderSession.v ===== *)
(** * Messages and undone steps

    The records of an ISO-TP message give the message back at the agent, and a
    builder that is rewound goes on as if the steps since the mark had never been
    given. *)

From Stdlib Require Import String.
From S2P Require Import Prelude Wire Codec FrameMessage TxnMessage TxnStepsMessage StepRing IsotpLink IsotpSafety TransactionRunner RunnerInvariant RunnerSound RunnerTheorems RunnerCalm TransactionSender SenderRunner TransactionBuilder.
From S2P Require Import BuilderTheorems.

(** ** The message at the agent *)

Definition at_record (self : TransactionRunner) (r : TxnStep) : TransactionRunner := self <| rn_current := rn_current self <| ac_step := r |> |>.

(** The runner gathers the records one by one until the message is whole. *)
Fixpoint gather_all (self : TransactionRunner) (rs : list TxnStep) (w : rworld) : bool * TransactionRunner * rworld :=
  match rs with
  | [] => (false, self, w)
  | r :: rest =>
      let '(whole, self, w) := gatherMessage log_port (at_record self r) w in
      if (whole : bool) then (true, self, w) else gather_all self rest w
  end.

(** The message gathered so far is [sofar]. *)
Definition gathered (sofar : list Z) (self : TransactionRunner) : Prop :=
  length (rn_message self) = TXN_ISOTP_MESSAGE_SIZE_MAX ∧ rn_message_length self = zlen sofar ∧ take (length sofar) (rn_message self) = sofar.

Lemma list_inserts_append {A} (sofar piece message : list A) : take (length sofar) message = sofar → (length sofar + length piece ≤ length message)%nat →
  take (length sofar + length piece) (list_inserts (length sofar) piece message) = sofar ++ piece.
Proof.
  intros Hs Hl. rewrite <- (take_drop (length sofar) message) at 1. rewrite Hs. rewrite <- (Nat.add_0_r (length sofar)) at 2. rewrite list_inserts_app_r.
  rewrite take_app_add. f_equal. by apply take_list_inserts; [|rewrite length_drop; lia].
Qed.

Lemma gather_piece sofar self piece w continued r :
  gathered sofar self → zlen sofar + zlen piece ≤ 4095 → st_payload_length r = zlen piece → take (length piece) (st_payload r) = piece →
  (Z.land (st_flags r) TXN_STEP_FLAG_CONTINUED =? 0) = negb continued →
  ∃ self', gatherMessage log_port (at_record self r) w = (negb continued, self', w) ∧ gathered (sofar ++ piece) self'.
Proof.
  intros (Hl & Hn & Ht) Hfit Hpl Hp Hc. unfold gatherMessage. change (rn_current (at_record self r)) with (rn_current self <| ac_step := r |>). cbn [ac_step set_field].
  change (rn_message_length (at_record self r)) with (rn_message_length self). change (rn_message (at_record self r)) with (rn_message self). rewrite Hn, Hpl, Hc.
  rewrite Z.gtb_ltb, (proj2 (Z.ltb_ge _ _)) by lia. unfold copy_at. replace (Z.to_nat (zlen piece)) with (length piece) by (unfold zlen; lia). replace (Z.to_nat (zlen sofar)) with (length sofar) by (unfold zlen; lia).
  rewrite Hp. set (self1 := _ <| rn_message := _ |> <| rn_message_length := _ |>).
  assert (gathered (sofar ++ piece) self1) as Hg.
  { subst self1. split; cbn; [by rewrite length_inserts|]. split; [rewrite Hn, u16_id by (unfold zlen in *; zlia); by rewrite zlen_app|]. rewrite length_app. apply list_inserts_append; [done|]. unfold zlen in *. lia. }
  clearbody self1. destruct continued; eexists; (split; [reflexivity|]); exact Hg.
Qed.

Lemma gather_records s can_id id last sofar self w init : gathered sofar self → zlen sofar + zlen (concat init ++ last) ≤ 4095 → api_typed s →
  Forall (λ p, zlen p ≤ 248) (init ++ [last]) →
  ∃ self', gather_all self ((λ r, r <| st_template_id := id |>) <$> (piece_record can_id <$> init) ++ [set_expected s (piece_record can_id last <| st_flags := TXN_STEP_FLAG_MESSAGE |>)]) w = (true, self', w) ∧
    gathered (sofar ++ concat init ++ last) self'.
Proof.
  intros Hg Hfit Ht Hall. assert (∀ p, zlen p ≤ 248 → take (length p) (list_inserts 0 p (replicate TXN_STEP_PAYLOAD_SIZE_MAX 0)) = p) as Hpay.
  { intros p Hp. apply take_list_inserts; [done|]. rewrite length_replicate. unfold zlen in Hp. lia. }
  revert sofar self Hg Hfit. induction init as [|p init IH]; intros sofar self Hg Hfit; cbn [gather_all fmap list_fmap app concat] in *; apply Forall_cons in Hall as [Hp Hall].
  - set (r := set_expected _ _). destruct (set_expected_shape s (piece_record can_id last <| st_flags := TXN_STEP_FLAG_MESSAGE |>) Ht) as (Hsh & Hfl & _); [cbn; zlia|]. fold r in Hsh, Hfl. injection Hsh as _ E2 _ _ E5.
    destruct (gather_piece sofar self last w false (r <| st_template_id := id |>)) as (self' & Hrun & Hg'); [done|done|exact E2|etrans; [|exact (Hpay last Hp)]; f_equal; exact E5| |].
    { change (st_flags (r <| st_template_id := id |>)) with (st_flags r). by destruct Hfl as [->| ->]. }
    exists self'. change ((_ : list TxnStep → list TxnStep) [r]) with [r <| st_template_id := id |>]. cbn [gather_all]. rewrite Hrun. done.
  - destruct (gather_piece sofar self p w true (piece_record can_id p <| st_template_id := id |>)) as (self' & Hrun & Hg'); [done|rewrite !zlen_app in Hfit; unfold zlen in *; lia|done|exact (Hpay p Hp)|done|].
    cbn [gather_all]. rewrite Hrun. cbn [negb]. rewrite <- app_assoc in Hfit. destruct (IH Hall (sofar ++ p) self' Hg') as (self'' & Hrun' & Hg''); [rewrite !zlen_app in *; lia|]. exists self''. split; [exact Hrun'|].
    by rewrite <- !app_assoc in *.
Qed.

(** The records of an accepted step. *)
Lemma placeTemplate_build b t build : let build' := (placeTemplate b t build).2 in bd_records build' = bd_records build ∧ bd_record_count build' = bd_record_count build.
Proof. unfold placeTemplate. destruct (findTemplate b t); [done|]. by destruct (_ =? _). Qed.

Lemma step_records b s build b' build' : TransactionBuilder_Step b s build = (true, b', build') → api_typed s → length (bd_records build) = 17%nat →
  step_ok s ∧ ∃ b1 build1, bu_bitrate_switch b1 = bu_bitrate_switch b ∧ bd_record_count build1 = 0 ∧ length (bd_records build1) = 17%nat ∧
    records_of build' = (λ r, r <| st_template_id := bu_last_template b' |>) <$> records_of (raw_records b1 s build1).
Proof.
  intros Hstep Ht Hl. unfold TransactionBuilder_Step in Hstep. set (build0 := build <| bd_defines_roster := false |> <| bd_defines_template := false |> <| bd_record_count := 0 |>) in *.
  assert (bd_defines_roster build0 = false ∧ bd_record_count build0 = 0 ∧ length (bd_records build0) = 17%nat) as (R1 & R2 & R3) by done. clearbody build0.
  pose proof (checkStep_checked (b <| bu_error := None |>) s Ht) as Hck. set (b0 := b <| bu_error := None |>) in *. assert (bu_bitrate_switch b0 = bu_bitrate_switch b) as Hbrs by done. clearbody b0.
  destruct (checkStep b0 s) as [[] b1]; cbn [checked fst snd negb] in *; [|done].
  destruct Hck as [-> Hok]. pose proof (roster_stage b0 s build0 Hok R1) as Hst. destruct (match cs_response s with Some _ => _ | None => _ end) as [[[] b2] build2]; cbn [negb] in Hstep; [|done].
  destruct Hst as (-> & Hb2 & _). pose proof (placeTemplate_build b0 (buildTemplate s) build2) as [P1 P2]. assert (bu_bitrate_switch (placeTemplate b0 (buildTemplate s) build2).1.2 = bu_bitrate_switch b0) as P3.
  { unfold placeTemplate. destruct (findTemplate b0 (buildTemplate s)); [done|]. by destruct (_ =? _). }
  destruct (placeTemplate b0 (buildTemplate s) build2) as [[[] b3] build3]; cbn [negb fst snd] in *; [|done]. set (b4 := if bd_defines_roster build3 then _ else b3) in Hstep.
  assert (bu_bitrate_switch b4 = bu_bitrate_switch b3) as H4 by (subst b4; by destruct (bd_defines_roster build3)). clearbody b4. rewrite records_at in Hstep. injection Hstep as -> Hb'. split; [done|].
  assert (bd_record_count build3 = 0 ∧ length (bd_records build3) = 17%nat) as [T1 T2] by (rewrite P1, P2, Hb2; done). exists b', build3. split; [congruence|]. split; [done|]. split; [done|].
  destruct (raw_records_good b' s build3 Ht Hok T1 T2) as (Hc & Hlen & _). rewrite <- Hb'. apply set_template_records; [lia|done].
Qed.

(** C27. An ISO-TP message arrives whole.  When the builder accepts an ISO-TP step
    with data, the records it makes are at most 17 of at most 248 bytes, and the
    agent's runner, reading them one after the other, reports nothing and has,
    at the last one and not before, exactly the bytes of the step. *)
Theorem built_message_reassembled (b b' : TransactionBuilder) (s : CanHubTxnStep) (build build' : TransactionBuild) (link : CanHubTxnIsotpLink)
    (data : list Z) (self : TransactionRunner) (w : rworld) :
  api_typed s → length (bd_records build) = TRANSACTION_BUILDER_RECORDS_MAX → TransactionBuilder_Step b s build = (true, b', build') →
  cs_isotp s = Some link → cs_data s = Some data →
  length (rn_message self) = TXN_ISOTP_MESSAGE_SIZE_MAX → rn_message_length self = 0 →
  zlen (records_of build') ≤ 17 ∧ Forall (λ r, 0 < st_payload_length r ≤ 248) (records_of build') ∧
  ∃ self', gather_all self (records_of build') w = (true, self', w) ∧ rn_message_length self' = cs_length s ∧
    take (Z.to_nat (cs_length s)) (rn_message self') = take (Z.to_nat (cs_length s)) data.
Proof.
  intros Ht Hl Hstep Hi Hd Hm Hm0. destruct (step_records b s build b' build' Hstep Ht Hl) as ((Hdok & _) & b1 & build1 & _ & Hc & Hlen & ->). unfold data_ok in Hdok. rewrite Hd, Hi in Hdok.
  destruct Ht as (Hid & Hu & Hdata & Hrest). destruct (Hdata data Hd) as [Hll Hb]. unfold raw_records. rewrite Hi, Hd.
  destruct (message_records s link data build1 Hdok Hll Hc Hlen) as (init & last & Hp & Hr & Hcnt & Hin & _). rewrite Hr. set (msg := take (Z.to_nat (cs_length s)) data) in *.
  assert (zlen msg = cs_length s) as Hml by (subst msg; unfold zlen in *; rewrite length_take; lia). assert (concat init ++ last = msg) as Hcat.
  { rewrite <- (pieces_concat 17 msg) by (unfold zlen in Hml; lia). rewrite Hp, concat_app. cbn. by rewrite app_nil_r. }
  pose proof (pieces_sizes 17 msg) as Hs. rewrite Hp in Hs.
  destruct (gather_records s (CanId_ToWire (il_tx_id link)) (bu_last_template b') last [] self w init) as (self' & Hrun & _ & Hgl & Hgt); [done|rewrite Hcat; change (zlen (A := Z) []) with 0; lia|done|eapply Forall_impl; [exact Hs|cbn; lia]|].
  rewrite app_nil_l, Hcat in Hgl, Hgt. split; [unfold zlen in *; rewrite length_fmap, length_app, length_fmap; cbn; lia|]. split.
  - rewrite fmap_app. apply Forall_app in Hs as [Hs1 Hs2]. apply Forall_app. split; [apply Forall_fmap, Forall_fmap; eapply Forall_impl; [exact Hs1|cbn; auto]|].
    apply Forall_cons in Hs2 as [Hs2 _]. constructor; [|constructor]. unfold set_expected. destruct (cs_where s), (cs_response s); exact Hs2.
  - exists self'. split; [exact Hrun|]. split; [lia|]. rewrite <- Hgt. f_equal. unfold zlen in Hml. lia.
Qed.

Definition demo_message : CanHubTxnStep := {|
  cs_id := BuilderDemo.id 1537; cs_data := Some (replicate 300 9); cs_length := 300; cs_isotp := Some BuilderDemo.link; cs_response := None; cs_where := None; cs_gap_us := 0 |}.

Lemma built_message_reassembled_witness :
  let '(ok, b', build') := TransactionBuilder_Step (TransactionBuilder_Init false) demo_message BuilderDemo.build in
  ok = true ∧ length (records_of build') = 2%nat ∧
  ∃ self', gather_all BuilderDemo.runner (records_of build') BuilderDemo.log = (true, self', BuilderDemo.log) ∧ rn_message_length self' = 300 ∧
    take 300 (rn_message self') = replicate 300 9.
Proof.
  pose proof (λ b' build', built_message_reassembled (TransactionBuilder_Init false) b' demo_message BuilderDemo.build build' BuilderDemo.link (replicate 300 9) BuilderDemo.runner BuilderDemo.log
    (proj1 (Forall_lookup _ _) BuilderDemo.steps_typed 2%nat demo_message eq_refl) eq_refl) as H.
  assert ((TransactionBuilder_Step (TransactionBuilder_Init false) demo_message BuilderDemo.build).1.1 = true) as Hok by (vm_compute; reflexivity).
  assert (length (records_of (TransactionBuilder_Step (TransactionBuilder_Init false) demo_message BuilderDemo.build).2) = 2%nat) as Hn by (vm_compute; reflexivity).
  revert H Hok Hn. generalize (TransactionBuilder_Step (TransactionBuilder_Init false) demo_message BuilderDemo.build) as out. intros [[ok b'] build'] H Hok Hn. cbn [fst snd] in Hok, Hn. subst ok.
  split; [reflexivity|]. split; [exact Hn|]. destruct (H b' build' eq_refl eq_refl eq_refl eq_refl eq_refl) as (_ & _ & Hg). exact Hg.
Defined.

(** ** Undoing steps *)

(** What a client of the builder can tell: everything but the templates past the
    count, a roster that was taken back, and the last error. *)
Record same_builder (a b : TransactionBuilder) : Prop := {
  sb_bitrate_switch : bu_bitrate_switch a = bu_bitrate_switch b;
  sb_has_roster : bu_has_roster a = bu_has_roster b;
  sb_roster : bu_has_roster b = true → bu_roster a = bu_roster b;
  sb_template_count : bu_template_count a = bu_template_count b;
  sb_templates : take (Z.to_nat (bu_template_count b)) (bu_templates a) = take (Z.to_nat (bu_template_count b)) (bu_templates b);
  sb_last_template : bu_last_template a = bu_last_template b;
}.

#[export] Instance same_builder_equiv : Equivalence same_builder.
Proof.
  split.
  - intros a. by split.
  - intros a b [H1 H2 H3 H4 H5 H6]. split; [done|done|intros H; symmetry; apply H3; congruence|done|by rewrite H4|done].
  - intros a b c [] []. split; try congruence. intros H. rewrite sb_roster0; [auto|congruence].
Qed.

Record builder_wf (b : TransactionBuilder) : Prop := {
  bw_count : 0 ≤ bu_template_count b ≤ 16;
  bw_length : zlen (bu_templates b) = 16;
  bw_last : bu_last_template b = NO_TEMPLATE ∨ 0 ≤ bu_last_template b < bu_template_count b;
}.

(** What a step tells its caller. *)
Definition visible (out : bool * TransactionBuilder * TransactionBuild) : bool * option string * option TxnRosterMessage * option TxnTemplateMessage * list TxnStep :=
  let '(ok, b, build) := out in
  (ok, bu_error b, if bd_defines_roster build then Some (bd_roster build) else None,
   if bd_defines_template build then Some (bd_template_message build) else None, records_of build).

Lemma same_error a b e : same_builder a b → same_builder (a <| bu_error := e |>) (b <| bu_error := e |>).
Proof. intros []. by split. Qed.

(** The checks only read the step: with a verdict that does not depend on the builder. *)
Definition verdict (b : TransactionBuilder) (e : option string) : bool * TransactionBuilder :=
  match e with None => pass b | Some message => fail b message end.
Definition uniform (f : TransactionBuilder → bool * TransactionBuilder) : Prop := ∃ e, ∀ b, f b = verdict b e.

Lemma uniform_pass : uniform pass.
Proof. by exists None. Qed.
Lemma uniform_fail message : uniform (λ b, fail b message).
Proof. by exists (Some message). Qed.
Lemma uniform_if (c : bool) f g : uniform f → uniform g → uniform (λ b, if c then f b else g b).
Proof. by destruct c. Qed.
Lemma uniform_seq f g : uniform f → uniform g → uniform (λ b, let '(ok, b) := f b in if negb ok then (false, b) else g b).
Proof.
  intros [[message|] Hf] [e Hg]; [exists (Some message)|exists e]; intros b; rewrite Hf; cbn; [done|apply Hg].
Qed.
#[local] Hint Resolve uniform_pass uniform_fail uniform_if : core.

Lemma checkStep_uniform s : uniform (λ b, checkStep b s).
Proof.
  assert (∀ l, uniform (λ b, checkLink b s l)) as Hl by (intros l; unfold checkLink; destruct (cs_data s); auto 10).
  assert (uniform (λ b, checkFrame b s)) as Hf by (unfold checkFrame; destruct (cs_data s); auto 10).
  assert (∀ r, uniform (λ b, checkNodes b r)) as Hn by (intros r; unfold checkNodes; destruct (re_nodes r); auto 12).
  assert (∀ r wh, uniform (λ b, checkResponse b r wh)) as Hr by (intros r wh; unfold checkResponse; auto 12).
  assert (∀ l r, uniform (λ b, checkIsotpResponse b s l r)) as Hi by (intros l r; unfold checkIsotpResponse; auto 10).
  unfold checkStep. apply (uniform_seq (λ b, match cs_isotp s with Some link => checkLink b s link | None => checkFrame b s end)); [by destruct (cs_isotp s)|].
  destruct (cs_response s) as [r|]; [|destruct (cs_where s); auto]. apply (uniform_seq (λ b, checkResponse b r (cs_where s))); [done|]. destruct (cs_isotp s); auto.
Qed.

Lemma findTemplate_same a b t : same_builder a b → builder_wf a → builder_wf b → findTemplate a t = findTemplate b t.
Proof.
  intros [_ _ _ Hc Ht Hl] [Ha1 Ha2 Ha3] [Hb1 Hb2 Hb3]. unfold findTemplate. rewrite Hl, Hc, Ht. destruct (Z.eqb_spec (bu_last_template b) NO_TEMPLATE) as [|Hn]; [done|]. cbn [negb andb].
  assert ((bu_templates a).[bu_last_template b] = (bu_templates b).[bu_last_template b]) as ->; [|done]. destruct Hb3 as [|Hb3]; [done|]. unfold zget, zlen in *. rewrite !list_lookup_total_alt. f_equal.
  rewrite <- (lookup_take_lt (bu_templates a) (Z.to_nat (bu_template_count b))), Ht, lookup_take_lt by lia. done.
Qed.

(** Steps add templates and at most one roster, and keep what was there. *)
Definition grown (b b' : TransactionBuilder) : Prop :=
  builder_wf b' ∧ bu_template_count b ≤ bu_template_count b' ∧
  take (Z.to_nat (bu_template_count b)) (bu_templates b') = take (Z.to_nat (bu_template_count b)) (bu_templates b) ∧
  (bu_has_roster b = true → bu_has_roster b' = true ∧ bu_roster b' = bu_roster b) ∧ bu_bitrate_switch b' = bu_bitrate_switch b.

Lemma grown_refl b b' : builder_wf b → same_builder b' b → builder_wf b' → grown b b'.
Proof. intros Hw [] Hw'. split; [done|]. split; [lia|]. split; [done|]. split; [|done]. intros H. split; [congruence|auto]. Qed.

Lemma grown_trans a b c : grown a b → grown b c → grown a c.
Proof.
  intros (_ & Hc & Ht & Hr & Hb) (Hw & Hc' & Ht' & Hr' & Hb'). split; [done|]. split; [lia|]. split.
  - rewrite <- Ht. apply (f_equal (take (Z.to_nat (bu_template_count a)))) in Ht'. rewrite !take_take in Ht'. by replace (Z.to_nat (bu_template_count a) `min` Z.to_nat (bu_template_count b))%nat with (Z.to_nat (bu_template_count a)) in Ht' by lia.
  - split; [|congruence]. intros H. destruct (Hr H) as [H1 H2]. destruct (Hr' H1). split; congruence.
Qed.

Lemma wf_error b e : builder_wf b → builder_wf (b <| bu_error := e |>).
Proof. intros []. by split. Qed.

Lemma placeTemplate_grown b t build : builder_wf b →
  let '(ok, b', build') := placeTemplate b t build in grown b b' ∧ (bu_has_roster b', bu_roster b') = (bu_has_roster b, bu_roster b) ∧ bd_defines_roster build' = bd_defines_roster build.
Proof.
  intros Hw. pose proof Hw as [Hc Hl Hla]. unfold placeTemplate. destruct (findTemplate b t) as [id|] eqn:Hf.
  - split; [|done]. unfold grown. cbn. split; [|done]. split; [done|done|]. right. unfold findTemplate in Hf. destruct (negb _ && _) eqn:Hb.
    + injection Hf as <-. apply andb_true_iff in Hb as [Hn _]. apply negb_true_iff, Z.eqb_neq in Hn. by destruct Hla.
    + destruct (find_template_spec _ _ _ _ Hf) as [Hi _]. unfold zlen in *. rewrite length_take in Hi. cbn. lia.
  - destruct (Z.eqb_spec (bu_template_count b) TXN_TEMPLATES_MAX) as [|Hne]; [split; [|done]; apply grown_refl; [done|by split|by apply wf_error]|]. unfold TXN_TEMPLATES_MAX in Hne. split; [|done].
    unfold grown. cbn. rewrite u8_id by zlia. split; [split; cbn; rewrite ?u8_id by zlia; [lia|by rewrite zlen_zset|right; lia]|]. split; [lia|]. split; [|done]. unfold zset. rewrite take_insert_ge; [done|lia].
Qed.

Lemma step_grown b s build : builder_wf b → api_typed s → grown b (TransactionBuilder_Step b s build).1.2.
Proof.
  intros Hw Ht. unfold TransactionBuilder_Step. set (build0 := build <| bd_defines_roster := false |> <| bd_defines_template := false |> <| bd_record_count := 0 |>).
  assert (bd_defines_roster build0 = false) as R1 by done. clearbody build0. pose proof (checkStep_checked (b <| bu_error := None |>) s Ht) as Hck. set (b0 := b <| bu_error := None |>) in *.
  assert (grown b b0) as Hg0 by (apply grown_refl; [done|by split|by apply wf_error]). assert (∀ m, grown b (b0 <| bu_error := Some m |>)) as Hge.
  { intros m. apply (grown_trans b b0); [done|]. apply grown_refl; [apply Hg0|by split|apply wf_error, Hg0]. }
  clearbody b0. destruct (checkStep b0 s) as [[] b1]; cbn [checked fst snd negb] in *; [|by destruct Hck as [m ->]].
  destruct Hck as [-> Hok]. pose proof (roster_stage b0 s build0 Hok R1) as Hst. destruct (match cs_response s with Some _ => _ | None => _ end) as [[[] b2] build2]; cbn [negb fst snd]; [|by destruct Hst as [[m ->] _]].
  destruct Hst as (-> & _ & Hro). pose proof (placeTemplate_grown b0 (buildTemplate s) build2 (proj1 Hg0)) as Hp. destruct (placeTemplate b0 (buildTemplate s) build2) as [[[] b3] build3]; cbn [negb fst snd];
    destruct Hp as (Hp & Hro3 & Hd); [|by apply (grown_trans b b0)]. apply (grown_trans b b0); [done|]. rewrite Hd. destruct (bd_defines_roster build2); [|done]. destruct Hro as [Hnr _].
  destruct Hp as (Hw3 & H1 & H2 & H3 & H4). split; [by destruct Hw3; split|]. split; [done|]. split; [done|]. split; [intros H; congruence|done].
Qed.

(** A rewound builder is the one that was marked. *)
Lemma rewind_same b b' : builder_wf b → grown b b' → same_builder (TransactionBuilder_Rewind b' (TransactionBuilder_Mark b)) b ∧ builder_wf (TransactionBuilder_Rewind b' (TransactionBuilder_Mark b)).
Proof.
  intros [Hc Hl Hla] (Hw & H1 & H2 & H3 & H4). split; [|split; [done|apply Hw|done]]. split; cbn; try done. intros H. by apply H3.
Qed.

Lemma frame_record_same a b s : bu_bitrate_switch a = bu_bitrate_switch b → buildFrameRecord a s = buildFrameRecord b s.
Proof. intros H. unfold buildFrameRecord. by rewrite H. Qed.

Lemma raw_records_same a b s x y : bu_bitrate_switch a = bu_bitrate_switch b → api_typed s → step_ok s → bd_record_count x = 0 → bd_record_count y = 0 →
  length (bd_records x) = 17%nat → length (bd_records y) = 17%nat → records_of (raw_records a s x) = records_of (raw_records b s y).
Proof.
  intros Hb (_ & _ & Hdata & _) (Hdok & _) Hx Hy Hlx Hly. unfold raw_records. rewrite (frame_record_same a b s Hb). set (r := buildFrameRecord b s).
  assert (∀ z, length (bd_records z) = 17%nat → records_of (z <| bd_records := (bd_records z).[0 := r] |> <| bd_record_count := 1 |>) = [r]) as Hone.
  { intros z Hz. unfold records_of. cbn. by destruct (bd_records z). }
  destruct (cs_isotp s) as [l|] eqn:Hi; [destruct (cs_data s) as [data|] eqn:Hd|]; [|by rewrite !Hone..]. unfold data_ok in Hdok. rewrite Hd, Hi in Hdok. destruct (Hdata data eq_refl) as [Hll _].
  destruct (message_records s l data x Hdok Hll Hx Hlx) as (i1 & l1 & Hp1 & -> & _), (message_records s l data y Hdok Hll Hy Hly) as (i2 & l2 & Hp2 & -> & _).
  rewrite Hp1 in Hp2. by apply app_inj_tail in Hp2 as [-> ->].
Qed.

Lemma placeTemplate_same a b t x y : same_builder a b → builder_wf a → builder_wf b → bu_error a = bu_error b → bd_defines_template x = false → bd_defines_template y = false →
  let '(oka, a', x') := placeTemplate a t x in let '(okb, b', y') := placeTemplate b t y in
  oka = okb ∧ same_builder a' b' ∧ bu_error a' = bu_error b' ∧ bd_defines_template x' = bd_defines_template y' ∧ (bd_defines_template y' = true → bd_template_message x' = bd_template_message y') ∧
  (bd_defines_roster x', bd_roster x', bd_defines_roster y', bd_roster y') = (bd_defines_roster x, bd_roster x, bd_defines_roster y, bd_roster y) ∧ (oka = false → bd_defines_template y' = false).
Proof.
  intros Hs Ha Hb He Hx Hy. pose proof Hs as [S1 S2 S3 S4 S5 S6]. unfold placeTemplate. rewrite (findTemplate_same a b t Hs Ha Hb), S4. destruct (findTemplate b t) as [id|].
  { cbn. rewrite Hx, Hy. split; [done|]. split; [by split|]. done. }
  destruct (Z.eqb_spec (bu_template_count b) TXN_TEMPLATES_MAX) as [|Hne]; cbn. { rewrite Hx, Hy. split; [done|]. split; [by split|]. done. }
  split; [done|]. split; [|done]. destruct Ha as [Ha1 Ha2 _], Hb as [Hb1 Hb2 _]. unfold TXN_TEMPLATES_MAX in Hne. split; cbn; rewrite ?S4, ?u8_id by zlia; try done.
  unfold zset, zlen in *. replace (Z.to_nat (bu_template_count b + 1)) with (S (Z.to_nat (bu_template_count b))) by lia.
  rewrite !(take_S_r _ _ (t <| tt_template_id := bu_template_count b |>)) by (apply list_lookup_insert_eq; lia). rewrite !take_insert_ge by lia. by rewrite S5.
Qed.

(** The part of a build that is sent before the records. *)
Definition definitions (build : TransactionBuild) : option TxnRosterMessage * option TxnTemplateMessage :=
  (if bd_defines_roster build then Some (bd_roster build) else None, if bd_defines_template build then Some (bd_template_message build) else None).

Lemma roster_same a b s x y : same_builder a b → bu_error a = bu_error b → bd_defines_roster x = false → bd_defines_roster y = false → 
  bd_defines_template x = false → bd_defines_template y = false → bd_record_count x = 0 → bd_record_count y = 0 →
  let stage b build := match cs_response s with
    | Some response => match re_nodes response with Some nodes => buildRoster b response nodes build | None => (true, b, build) end
    | None => (true, b, build)
    end in
  let '(oka, a', x') := stage a x in let '(okb, b', y') := stage b y in
  oka = okb ∧ same_builder a' b' ∧ bu_error a' = bu_error b' ∧ definitions x' = definitions y' ∧ bd_defines_template x' = false ∧ bd_defines_template y' = false ∧
  bd_record_count x' = 0 ∧ bd_record_count y' = 0 ∧ (oka = true → a' = a ∧ b' = b).
Proof.
  intros Hs He Hx Hy Htx Hty Hcx Hcy stage. subst stage. unfold definitions. destruct (cs_response s) as [r|]; [|rewrite Hx, Hy, Htx, Hty; done]. destruct (re_nodes r) as [nodes|]; [|rewrite Hx, Hy, Htx, Hty; done].
  unfold buildRoster. rewrite (sb_has_roster _ _ Hs). destruct (bu_has_roster b) eqn:Hb; cbn [negb]; [|cbn; rewrite Htx, Hty; done]. rewrite (sb_roster _ _ Hs Hb). cbn [bd_roster set_field].
  case_bool_decide; cbn; rewrite Hx, Hy, Htx, Hty; [done|]. split; [done|]. split; [by apply same_error|done].
Qed.

Lemma message_loop_view fuel can_id len off data build : build_view (message_loop fuel can_id len off data build) = build_view build.
Proof. revert off build. induction fuel as [|fuel IH]; intros off build; [done|]. cbn [message_loop]. destruct (_ <? _); [|done]. by rewrite IH. Qed.

Lemma close_message_view s build : build_view (close_message s build) = build_view build.
Proof. done. Qed.

Lemma message_records_view s link data build : build_view (buildMessageRecords s link data build) = build_view build.
Proof. etrans; [apply close_message_view|apply message_loop_view]. Qed.

Lemma set_records_view rs build : build_view (build <| bd_records := rs |>) = build_view build.
Proof. done. Qed.

Lemma raw_records_view b s build : build_view (raw_records b s build) = build_view build.
Proof. unfold raw_records. destruct (cs_isotp s); [destruct (cs_data s); [apply message_records_view|done]|done]. Qed.

Lemma buildRecords_view b s id build : build_view (buildRecords b s id build) = build_view build.
Proof. rewrite records_at, set_records_view. apply raw_records_view. Qed.

Lemma definitions_view x y : build_view x = build_view y → definitions x = definitions y.
Proof. unfold build_view, definitions. intros [= -> -> -> ->]. done. Qed.

Lemma step_core a b s x y : same_builder a b → builder_wf a → builder_wf b →
  let '(oka, a', x') := TransactionBuilder_Step a s x in let '(okb, b', y') := TransactionBuilder_Step b s y in
  oka = okb ∧ same_builder a' b' ∧ bu_error a' = bu_error b' ∧ definitions x' = definitions y' ∧ (oka = false → bd_record_count x' = 0 ∧ bd_record_count y' = 0).
Proof.
  intros Hs Ha Hb. unfold TransactionBuilder_Step. set (x0 := x <| bd_defines_roster := false |> <| bd_defines_template := false |> <| bd_record_count := 0 |>).
  set (y0 := y <| bd_defines_roster := false |> <| bd_defines_template := false |> <| bd_record_count := 0 |>).
  assert (bd_defines_roster x0 = false ∧ bd_defines_roster y0 = false ∧ bd_defines_template x0 = false ∧ bd_defines_template y0 = false ∧ bd_record_count x0 = 0 ∧ bd_record_count y0 = 0) as (X1 & X2 & X3 & X4 & X5 & X6) by done.
  clearbody x0 y0. set (a0 := a <| bu_error := None |>). set (b0 := b <| bu_error := None |>). assert (same_builder a0 b0) as Hs0 by (by apply same_error).
  assert (builder_wf a0 ∧ builder_wf b0) as [Ha0 Hb0] by (split; by apply wf_error). assert (bu_error a0 = bu_error b0) as He0 by done. clearbody a0 b0.
  destruct (checkStep_uniform s) as [[m|] Hu]; rewrite !Hu; cbn [verdict fail pass negb].
  { split; [done|]. split; [by apply same_error|]. split; [done|]. unfold definitions. by rewrite X1, X2, X3, X4. }
  pose proof (roster_same a0 b0 s x0 y0 Hs0 He0 X1 X2 X3 X4 X5 X6) as Hr. cbv zeta in Hr.
  destruct (match cs_response s with Some response => match re_nodes response with Some nodes => buildRoster a0 response nodes x0 | None => (true, a0, x0) end | None => (true, a0, x0) end) as [[oka a2] x2].
  destruct (match cs_response s with Some response => match re_nodes response with Some nodes => buildRoster b0 response nodes y0 | None => (true, b0, y0) end | None => (true, b0, y0) end) as [[okb b2] y2].
  destruct Hr as (<- & Hs2 & He2 & Hd2 & Y1 & Y2 & Y3 & Y4 & Hkeep). destruct oka; cbn [negb]; [|done]. destruct (Hkeep eq_refl) as [-> ->].
  pose proof (placeTemplate_same a0 b0 (buildTemplate s) x2 y2 Hs0 Ha0 Hb0 He0 Y1 Y2) as Hp.
  pose proof (proj2 (placeTemplate_build a0 (buildTemplate s) x2)) as N1. pose proof (proj2 (placeTemplate_build b0 (buildTemplate s) y2)) as N2.
  destruct (placeTemplate a0 (buildTemplate s) x2) as [[oka a3] x3], (placeTemplate b0 (buildTemplate s) y2) as [[okb b3] y3]. destruct Hp as (<- & Hs3 & He3 & Ht3 & Hm3 & Hr3 & Hf3). injection Hr3 as Z1 Z2 Z3 Z4.
  unfold definitions in Hd2. rewrite Y1, Y2 in Hd2. injection Hd2 as Hd2. destruct oka; cbn [negb].
  - assert (definitions x3 = definitions y3) as Hd3 by (unfold definitions; rewrite Z1, Z2, Z3, Z4, Hd2, Ht3; destruct (bd_defines_template y3); [by rewrite Hm3|done]).
    rewrite Z1, Z3, Z2, Z4. assert (bd_defines_roster x2 = bd_defines_roster y2 ∧ (bd_defines_roster y2 = true → bd_roster x2 = bd_roster y2)) as [-> Hro] by (destruct (bd_defines_roster x2), (bd_defines_roster y2); try done; split; congruence).
    set (a4 := if bd_defines_roster y2 then _ else a3). set (b4 := if bd_defines_roster y2 then _ else b3). assert (same_builder a4 b4 ∧ bu_error a4 = bu_error b4) as [Hs4 He4].
    { subst a4 b4. destruct (bd_defines_roster y2); [|done]. split; [|done]. rewrite Hro by done. destruct Hs3. by split. }
    clearbody a4 b4. split; [done|]. split; [done|]. split; [done|]. split; [|done]. rewrite (definitions_view _ _ (buildRecords_view a4 s _ x3)), (definitions_view _ _ (buildRecords_view b4 s _ y3)). exact Hd3.
  - split; [done|]. split; [done|]. split; [done|]. split; [unfold definitions; cbn; by rewrite Ht3, Hf3|]. intros _. cbn in N1, N2. split; cbn; congruence.
Qed.

Lemma step_same a b s x y : same_builder a b → builder_wf a → builder_wf b → api_typed s → length (bd_records x) = 17%nat → length (bd_records y) = 17%nat →
  visible (TransactionBuilder_Step a s x) = visible (TransactionBuilder_Step b s y) ∧
  same_builder (TransactionBuilder_Step a s x).1.2 (TransactionBuilder_Step b s y).1.2.
Proof.
  intros Hs Ha Hb Ht Hlx Hly. pose proof (step_core a b s x y Hs Ha Hb) as H. destruct (TransactionBuilder_Step a s x) as [[oka a'] x'] eqn:Hsa. destruct (TransactionBuilder_Step b s y) as [[okb b'] y'] eqn:Hsb.
  destruct H as (<- & Hs' & He & Hd & Hc). split; [|exact Hs']. unfold visible. unfold definitions in Hd. injection Hd as H1 H2. rewrite He, H1, H2. f_equal. destruct oka.
  - destruct (step_records a s x a' x' Hsa Ht Hlx) as (Hok & a1 & x1 & A1 & A2 & A3 & ->), (step_records b s y b' y' Hsb Ht Hly) as (_ & b1 & y1 & B1 & B2 & B3 & ->).
    rewrite (sb_last_template _ _ Hs'). f_equal. apply raw_records_same; try done. rewrite A1, B1. apply Hs.
  - destruct (Hc eq_refl) as [C1 C2]. unfold records_of. by rewrite C1, C2.
Qed.

Lemma message_loop_length fuel can_id len off data build : length (bd_records (message_loop fuel can_id len off data build)) = length (bd_records build).
Proof. revert off build. induction fuel as [|fuel IH]; intros off build; [done|]. cbn [message_loop]. destruct (_ <? _); [|done]. rewrite IH. apply length_zset. Qed.

Lemma raw_records_length b s build : length (bd_records (raw_records b s build)) = length (bd_records build).
Proof.
  unfold raw_records. destruct (cs_isotp s); [destruct (cs_data s)|]; [|apply length_zset..]. unfold buildMessageRecords.
  rewrite <- (message_loop_length 17 (CanId_ToWire (il_tx_id c)) (cs_length s) 0 l build). generalize (message_loop 17 (CanId_ToWire (il_tx_id c)) (cs_length s) 0 l build). intros b1. apply length_zset.
Qed.

Lemma step_length b s build : length (bd_records (TransactionBuilder_Step b s build).2) = length (bd_records build).
Proof.
  unfold TransactionBuilder_Step. set (x := build <| bd_defines_roster := false |> <| bd_defines_template := false |> <| bd_record_count := 0 |>). set (b0 := b <| bu_error := None |>).
  assert (length (bd_records build) = length (bd_records x)) as -> by done. clearbody x b0.
  destruct (checkStep b0 s) as [[] b1]; cbn [negb]; [|done].
  assert (∀ out, out = match cs_response s with Some response => match re_nodes response with Some nodes => buildRoster b1 response nodes x | None => (true, b1, x) end | None => (true, b1, x) end →
    bd_records out.2 = bd_records x) as Hr.
  { intros out ->. destruct (cs_response s) as [r|]; [|done]. destruct (re_nodes r); [|done]. unfold buildRoster. destruct (negb _); [done|]. by destruct (negb _). }
  specialize (Hr _ eq_refl). destruct (match cs_response s with Some _ => _ | None => _ end) as [[[] b2] y]; cbn [negb snd] in *; [|by rewrite Hr].
  pose proof (proj1 (placeTemplate_build b2 (buildTemplate s) y)) as Hp. destruct (placeTemplate b2 (buildTemplate s) y) as [[[] b3] z]; cbn [negb snd] in *; [|by change (length (bd_records z) = length (bd_records x)); rewrite Hp, Hr].
  rewrite records_at. cbn [bd_records set_field]. rewrite <- Hr, <- Hp, <- (raw_records_length (if bd_defines_roster z then b3 <| bu_has_roster := true |> <| bu_roster := bd_roster z |> else b3) s z).
  generalize (raw_records (if bd_defines_roster z then b3 <| bu_has_roster := true |> <| bu_roster := bd_roster z |> else b3) s z) as u. intros u. cbn. unfold set_template. rewrite length_app, length_fmap, length_take, length_drop. lia.
Qed.

(** ** Any steps after a rewind *)

Fixpoint outputs (b : TransactionBuilder) (build : TransactionBuild) (steps : list CanHubTxnStep) : list (bool * option string * option TxnRosterMessage * option TxnTemplateMessage * list TxnStep) :=
  match steps with
  | [] => []
  | s :: rest => let out := TransactionBuilder_Step b s build in visible out :: outputs out.1.2 out.2 rest
  end.

Definition after_steps (b : TransactionBuilder) (build : TransactionBuild) (steps : list CanHubTxnStep) : TransactionBuilder * TransactionBuild :=
  foldl (λ st s, let out := TransactionBuilder_Step st.1 s st.2 in (out.1.2, out.2)) (b, build) steps.

Lemma outputs_same steps a b x y : same_builder a b → builder_wf a → builder_wf b → Forall api_typed steps → length (bd_records x) = 17%nat → length (bd_records y) = 17%nat →
  outputs a x steps = outputs b y steps.
Proof.
  intros Hs Ha Hb Ht. revert a b x y Hs Ha Hb. induction Ht as [|s steps Hst _ IH]; intros a b x y Hs Ha Hb Hx Hy; [done|]. cbn [outputs].
  destruct (step_same a b s x y Hs Ha Hb Hst Hx Hy) as [-> Hs']. f_equal. apply IH; [done|by apply step_grown|by apply step_grown|by rewrite step_length|by rewrite step_length].
Qed.

Lemma after_steps_grown steps b build : builder_wf b → Forall api_typed steps → grown b (after_steps b build steps).1 ∧ length (bd_records (after_steps b build steps).2) = length (bd_records build).
Proof.
  intros Hw Ht. unfold after_steps. revert b build Hw. induction Ht as [|s steps Hst _ IH]; intros b build Hw; cbn [foldl fst snd]; [split; [by apply grown_refl|done]|].
  pose proof (step_grown b s build Hw Hst) as Hg. destruct (IH (TransactionBuilder_Step b s build).1.2 (TransactionBuilder_Step b s build).2 (proj1 Hg)) as [H1 H2]. split; [by eapply grown_trans|]. by rewrite H2, step_length.
Qed.

Lemma init_wf bitrate_switch : builder_wf (TransactionBuilder_Init bitrate_switch).
Proof. split; [cbn; lia|done|by left]. Qed.

(** C28. A rewind undoes.  Give a builder any steps, mark it, give it any more
    steps, accepted or not, and rewind it to the mark: from then on, for every
    further sequence of steps, it answers exactly as if the steps since the mark
    had never been given: the same verdicts and errors, the same rosters and
    templates to define, the same records. *)
Theorem rewind_undoes (bitrate_switch : bool) (build : TransactionBuild) (steps tried next : list CanHubTxnStep) :
  length (bd_records build) = TRANSACTION_BUILDER_RECORDS_MAX → Forall api_typed steps → Forall api_typed tried → Forall api_typed next →
  let '(b, x) := after_steps (TransactionBuilder_Init bitrate_switch) build steps in
  let '(b', y) := after_steps b x tried in
  outputs (TransactionBuilder_Rewind b' (TransactionBuilder_Mark b)) y next = outputs b x next.
Proof.
  intros Hl H1 H2 H3. destruct (after_steps_grown steps (TransactionBuilder_Init bitrate_switch) build (init_wf _) H1) as [Hg Hx].
  destruct (after_steps (TransactionBuilder_Init bitrate_switch) build steps) as [b x]. cbn [fst snd] in *. destruct (after_steps_grown tried b x (proj1 Hg) H2) as [Hg' Hy].
  destruct (after_steps b x tried) as [b' y]. cbn [fst snd] in *. destruct (rewind_same b b' (proj1 Hg) Hg') as [Hs Hw]. apply outputs_same; try done; [apply Hg|congruence|congruence].
Qed.

(** The builder is not left as it was: the template it took back is still in its array. *)
Lemma rewind_undoes_witness :
  let '(b, x) := after_steps (TransactionBuilder_Init true) BuilderDemo.build (take 1 BuilderDemo.steps) in
  let '(b', y) := after_steps b x (take 1 (drop 1 BuilderDemo.steps)) in
  TransactionBuilder_Rewind b' (TransactionBuilder_Mark b) ≠ b ∧
  outputs (TransactionBuilder_Rewind b' (TransactionBuilder_Mark b)) y (drop 2 BuilderDemo.steps) = outputs b x (drop 2 BuilderDemo.steps).
Proof.
  pose proof (rewind_undoes true BuilderDemo.build (take 1 BuilderDemo.steps) (take 1 (drop 1 BuilderDemo.steps)) (drop 2 BuilderDemo.steps) eq_refl (Forall_take _ _ _ BuilderDemo.steps_typed)
    (Forall_take _ _ _ (Forall_drop _ _ _ BuilderDemo.steps_typed)) (Forall_drop _ _ _ BuilderDemo.steps_typed)) as H.
  assert (let '(b, x) := after_steps (TransactionBuilder_Init true) BuilderDemo.build (take 1 BuilderDemo.steps) in let '(b', y) := after_steps b x (take 1 (drop 1 BuilderDemo.steps)) in
    bool_decide ((bu_templates (TransactionBuilder_Rewind b' (TransactionBuilder_Mark b))).[1] = (bu_templates b).[1]) = false) as Hne by (vm_compute; reflexivity).
  revert H Hne. generalize (drop 2 BuilderDemo.steps) as next. generalize (after_steps (TransactionBuilder_Init true) BuilderDemo.build (take 1 BuilderDemo.steps)) as st. intros [b x] next.
  generalize (after_steps b x (take 1 (drop 1 BuilderDemo.steps))) as st'. intros [b' y] H Hne. split; [|exact H]. intros He. apply bool_decide_eq_false in Hne. by rewrite He in Hne.
Defined.
