(* ===== verification/MirrorApp.v ===== *)
(** * The mirror (src/mirror/mirror_app.c)

    A hub client that copies one interface of the hub to a local CAN port and
    back.  It connects, finds its interface by name over the pages of the list
    (or opens the identifier it was given), asks for write access and falls back
    to reading, and then pumps frames both ways.  The hub's transport and the
    CAN port are parameters over a world of any type. *)

From Stdlib Require Import String.
From S2P Require Import Prelude CString Wire Codec HelloMessage RegisterMessage OpenMessage ListMessage FrameMessage TxnMessage TxnStepsMessage IfconfigMessage ControlPlane InterfaceName ReconnectBackoff StepRing IsotpLink TransactionRunner.
From S2P Require Import Agent.

Definition OPEN_FLAGS_READ_ONLY : Z := Z.lor OPEN_FLAG_SUPPRESS_OWN_ECHO OPEN_FLAG_ERROR_FRAMES.
Definition OPEN_FLAGS_READ_WRITE : Z := Z.lor OPEN_FLAGS_READ_ONLY OPEN_FLAG_WANT_WRITE.
Definition MICROSECONDS_PER_MILLISECOND : Z := 1000.
Definition MIRROR_INTERFACE_RETRY_MS : Z := 1000.
Notation INTERFACE_NAME_NAMESPACED_SIZE := 145%nat (only parsing).
Notation CONTROL_MESSAGE_MAX_WIRE_SIZE := 424%nat (only parsing).

Inductive TMIRROR_STATE := kMIRROR_RESOLVING | kMIRROR_OPENING | kMIRROR_PUMPING | kMIRROR_FAILED | kMIRROR_DISCONNECTED | kMIRROR_CONNECTING | kMIRROR_AWAITING_INTERFACE.
#[export] Instance TMIRROR_STATE_eq_dec : EqDecision TMIRROR_STATE.
Proof. solve_decision. Defined.

(** What the mirror uses of the hub's transport; it disregards whether a message was taken. *)
Record MirrorHub (W : Type) := {
  mh_connect : W → bool * W;
  mh_send_control : list Z → W → W;
  mh_send_frame : Z → list Z → W → W;
  mh_set_channel_mode : Z → bool → W → W;
}.
Arguments mh_connect {W} _ _.
Arguments mh_send_control {W} _ _ _.
Arguments mh_send_frame {W} _ _ _ _.
Arguments mh_set_channel_mode {W} _ _ _ _.

Record MirrorApp := {
  mi_interface_id : Z; mi_interface_name : list Z; mi_name : list Z; mi_backoff : ReconnectBackoff; mi_next_attempt_at_us : Z;
  mi_pending_reconnect_delay_ms : Z; mi_list_offset : Z; mi_channel : Z; mi_state : TMIRROR_STATE; mi_can_write : bool;
  mi_pending_write : bool; mi_reliable : bool; mi_resolve_by_name : bool;
}.

#[export] Instance MirrorApp_settable : Settable MirrorApp := λ m, {|
  mi_interface_id := mi_interface_id m; mi_interface_name := mi_interface_name m; mi_name := mi_name m; mi_backoff := mi_backoff m;
  mi_next_attempt_at_us := mi_next_attempt_at_us m; mi_pending_reconnect_delay_ms := mi_pending_reconnect_delay_ms m;
  mi_list_offset := mi_list_offset m; mi_channel := mi_channel m; mi_state := mi_state m; mi_can_write := mi_can_write m;
  mi_pending_write := mi_pending_write m; mi_reliable := mi_reliable m; mi_resolve_by_name := mi_resolve_by_name m |}.

Definition MirrorApp_Init (interface_id : Z) (interface_name : option (list Z)) : MirrorApp :=
  let self := {|
    mi_interface_id := interface_id; mi_interface_name := replicate INTERFACE_NAME_NAMESPACED_SIZE 0; mi_name := replicate HELLO_NAME_SIZE 0;
    mi_backoff := ReconnectBackoff_Init RECONNECT_DEFAULT_INITIAL_DELAY_MS RECONNECT_DEFAULT_MAX_DELAY_MS; mi_next_attempt_at_us := 0;
    mi_pending_reconnect_delay_ms := 0; mi_list_offset := 0; mi_channel := 0; mi_state := kMIRROR_DISCONNECTED; mi_can_write := false;
    mi_pending_write := false; mi_reliable := false; mi_resolve_by_name := false |} in
  match interface_name with
  | Some name =>
      if negb (name.[0] =? 0) then self <| mi_interface_name := BoundedString_Copy (mi_interface_name self) (Some name) |> <| mi_resolve_by_name := true |>
      else self
  | None => self
  end.

Definition MirrorApp_SetName (self : MirrorApp) (name : option (list Z)) : MirrorApp := self <| mi_name := BoundedString_Copy (mi_name self) name |>.
Definition MirrorApp_SetReliable (self : MirrorApp) (reliable : bool) : MirrorApp := self <| mi_reliable := reliable |>.
Definition MirrorApp_State (self : MirrorApp) : TMIRROR_STATE := mi_state self.
Definition MirrorApp_CanWrite (self : MirrorApp) : bool := mi_can_write self.
Definition MirrorApp_PendingReconnectDelayMs (self : MirrorApp) : Z := mi_pending_reconnect_delay_ms self.

Definition transportOnDisconnected (self : MirrorApp) (now_us : Z) : MirrorApp :=
  if bool_decide (mi_state self = kMIRROR_DISCONNECTED) || bool_decide (mi_state self = kMIRROR_FAILED) then self
  else if bool_decide (mi_state self ≠ kMIRROR_CONNECTING) && negb (mi_resolve_by_name self) then self <| mi_state := kMIRROR_FAILED |>
  else
    let '(delay_ms, backoff) := ReconnectBackoff_NextDelayMs (mi_backoff self) in
    self <| mi_can_write := false |> <| mi_state := kMIRROR_DISCONNECTED |> <| mi_backoff := backoff |> <| mi_pending_reconnect_delay_ms := delay_ms |>
         <| mi_next_attempt_at_us := u64 (now_us + delay_ms * MICROSECONDS_PER_MILLISECOND) |>.

Definition awaitInterface (self : MirrorApp) (now_us : Z) : MirrorApp :=
  self <| mi_state := kMIRROR_AWAITING_INTERFACE |> <| mi_next_attempt_at_us := u64 (now_us + MIRROR_INTERFACE_RETRY_MS * MICROSECONDS_PER_MILLISECOND) |>.

Definition openFlags (self : MirrorApp) (access_flags : Z) : Z := if mi_reliable self then Z.lor access_flags OPEN_FLAG_RELIABLE else access_flags.

Section Mirror.
Context {W : Type} (hub : MirrorHub W) (can : CanPort W).

Definition control_buffer : list Z := replicate CONTROL_MESSAGE_MAX_WIRE_SIZE 0.

(** [if (encoded_size > 0) send_control(...)] *)
Definition sendEncoded (message : nat * list Z) (w : W) : W := if Nat.eqb message.1 0 then w else mh_send_control hub (take message.1 message.2) w.

Definition sendHello (self : MirrorApp) (w : W) : W :=
  sendEncoded (HelloMessage_Build kPEER_ROLE_CLIENT (Some (mi_name self)) HELLO_CAP_RELIABLE_CHANNELS (replicate HELLO_NAME_SIZE 0) control_buffer) w.

Definition sendList (offset : Z) (w : W) : W := sendEncoded (ListMessage_Encode {| list_offset := offset |} control_buffer) w.

Definition sendOpen (self : MirrorApp) (flags : Z) (w : W) : W :=
  sendEncoded (OpenMessage_Encode {| open_interface_id := mi_interface_id self; open_flags := flags |} control_buffer) w.

Definition openResolvedInterface (self : MirrorApp) (w : W) : MirrorApp * W :=
  let self := self <| mi_state := kMIRROR_OPENING |> <| mi_pending_write := true |> in
  (self, sendOpen self (openFlags self OPEN_FLAGS_READ_WRITE) w).

Definition startResolution (self : MirrorApp) (w : W) : MirrorApp * W :=
  if negb (mi_resolve_by_name self) then openResolvedInterface self w
  else (self <| mi_state := kMIRROR_RESOLVING |> <| mi_list_offset := 0 |>, sendList 0 w).

Definition tryConnect (self : MirrorApp) (now_us : Z) (w : W) : MirrorApp * W :=
  let self := self <| mi_state := kMIRROR_CONNECTING |> in
  let '(connecting, w) := mh_connect hub w in
  if (connecting : bool) then (self, w) else (transportOnDisconnected self now_us, w).

Definition MirrorApp_Tick (self : MirrorApp) (now_us : Z) (w : W) : MirrorApp * W :=
  if now_us <? mi_next_attempt_at_us self then (self, w)
  else if bool_decide (mi_state self = kMIRROR_DISCONNECTED) then tryConnect self now_us w
  else if bool_decide (mi_state self = kMIRROR_AWAITING_INTERFACE) then startResolution self w
  else (self, w).

Definition MirrorApp_OnCanFrame (self : MirrorApp) (frame : FrameMessage) (w : W) : W :=
  if bool_decide (mi_state self ≠ kMIRROR_PUMPING) || negb (mi_can_write self) then w
  else
    let outgoing := {| frame_can_id := frame_can_id frame; frame_timestamp_us := frame_timestamp_us frame; frame_channel := mi_channel self;
                       frame_payload_length := frame_payload_length frame; frame_flags := frame_flags frame; frame_route_flags := 0;
                       frame_payload := frame_payload frame |} in
    let '(encoded_size, encoded) := FrameMessage_Encode outgoing control_buffer in
    if Nat.eqb encoded_size 0 then w else mh_send_frame hub (mi_channel self) (take encoded_size encoded) w.

Definition transportOnConnected (self : MirrorApp) (w : W) : MirrorApp * W :=
  let w := sendHello self w in
  startResolution self w.

Definition handleListReply (self : MirrorApp) (body : list Z) (now_us : Z) (w : W) : MirrorApp * W :=
  if bool_decide (mi_state self ≠ kMIRROR_RESOLVING) then (self, w)
  else
    let '(decoded, reply) := ListReplyMessage_Decode list_reply0 body in
    if negb decoded then (self <| mi_state := kMIRROR_FAILED |>, w)
    else
      match InterfaceName_Find reply (mi_interface_name self) with
      | Some interface_id => openResolvedInterface (self <| mi_interface_id := interface_id |>) w
      | None =>
          if has_flag (lr_flags reply) LIST_REPLY_FLAG_MORE && (lr_count reply >? 0) then
            let self := self <| mi_list_offset := u16 (mi_list_offset self + lr_count reply) |> in
            (self, sendList (mi_list_offset self) w)
          else (awaitInterface self now_us, w)
      end.

Definition handleOpenAck (self : MirrorApp) (ack : OpenAckMessage) (now_us : Z) (w : W) : MirrorApp * W :=
  if bool_decide (mi_state self ≠ kMIRROR_OPENING) || negb (open_ack_interface_id ack =? mi_interface_id self) then (self, w)
  else if open_ack_status ack =? OPEN_STATUS_OK then
    let self := self <| mi_channel := open_ack_channel ack |> <| mi_can_write := mi_pending_write self |> <| mi_state := kMIRROR_PUMPING |>
                     <| mi_backoff := ReconnectBackoff_Reset (mi_backoff self) |> in
    (self, if mi_reliable self then mh_set_channel_mode hub (mi_channel self) true w else w)
  else if mi_pending_write self && (open_ack_status ack =? OPEN_STATUS_WRITE_DENIED) then
    let self := self <| mi_pending_write := false |> in
    (self, sendOpen self (openFlags self OPEN_FLAGS_READ_ONLY) w)
  else if (open_ack_status ack =? OPEN_STATUS_REJECTED) && mi_resolve_by_name self then (awaitInterface self now_us, w)
  else (self <| mi_state := kMIRROR_FAILED |>, w).

Definition transportOnControl (self : MirrorApp) (data : list Z) (now_us : Z) (w : W) : MirrorApp * W :=
  match MessageHeader_Decode data with
  | None => (self, w)
  | Some header =>
      if Nat.ltb (length data) (MESSAGE_HEADER_SIZE + Z.to_nat (header_length header)) then (self, w)
      else
        let body := slice MESSAGE_HEADER_SIZE (Z.to_nat (header_length header)) data in
        if header_type header =? kMESSAGE_TYPE_LIST_REPLY then handleListReply self body now_us w
        else if header_type header =? kMESSAGE_TYPE_OPEN_ACK then
          let '(decoded, ack) := OpenAckMessage_Decode {| open_ack_status := 0; open_ack_channel := 0; open_ack_interface_id := 0 |} body in
          if (decoded : bool) then handleOpenAck self ack now_us w else (self, w)
        else (self, w)
  end.

(** [while (FrameStream_Next(&stream, &frame)) write_frame(...)]; every round moves the stream forward. *)
Fixpoint write_stream (fuel : nat) (stream : FrameStream) (frame : FrameMessage) (w : W) : W :=
  match fuel with
  | O => w
  | S fuel' =>
      let '(more, stream, frame) := FrameStream_Next stream frame in
      if (more : bool) then write_stream fuel' stream frame (cp_write_frame can 0 frame w).2 else w
  end.

Definition transportOnFrame (self : MirrorApp) (data : list Z) (w : W) : W :=
  if bool_decide (mi_state self ≠ kMIRROR_PUMPING) then w else write_stream (S (length data)) (FrameStream_Init data) frame_zero w.

End Mirror.
