(* ===== verification/MirrorTheorems.v ===== *)
(** * What the mirror promises

    It writes to the hub only with the access the hub granted, it comes back by
    itself when the hub or its interface does, and a mirror of an identifier
    never reopens it on another session of the hub. *)

From Stdlib Require Import String.
From S2P Require Import Prelude CString Wire Codec HelloMessage RegisterMessage OpenMessage ListMessage FrameMessage TxnMessage TxnStepsMessage IfconfigMessage ControlPlane InterfaceName ReconnectBackoff StepRing IsotpLink TransactionRunner.
From S2P Require Import Agent Client MirrorApp.

(** ** The world: whether connect succeeds, and what left the mirror *)

Inductive mirror_out :=
| MoControl (data : list Z)
| MoFrame (channel : Z) (data : list Z)
| MoMode (channel : Z) (reliable : bool)
| MoWrite (frame : FrameMessage).

Definition mworld : Type := list bool * list mirror_out.
Definition emit (o : mirror_out) (w : mworld) : mworld := (w.1, w.2 ++ [o]).

(** A transport that accepts a connection or not, as the list says, and then always. *)
Definition log_mirror_hub : MirrorHub mworld := {|
  mh_connect w := (default true (head w.1), (tail w.1, w.2)); mh_send_control data := emit (MoControl data);
  mh_send_frame channel data := emit (MoFrame channel data); mh_set_channel_mode channel reliable := emit (MoMode channel reliable) |}.

Definition log_mirror_can : CanPort mworld := {|
  cp_write_frame i f w := (true, emit (MoWrite f) w); cp_configure i s detail w := (false, detail, w); cp_query i s w := (s, w); cp_bitrate i w := (0, w) |}.

Definition mirror_controls (w : mworld) : list (list Z) := omap (λ o, match o with MoControl data => Some data | _ => None end) w.2.

(** The OPEN a control message is, if it is one; the OPENs sent so far; the OPEN_ACK a message is. *)
Definition open_of (data : list Z) : option OpenMessage :=
  match MessageHeader_Decode data with
  | Some h =>
      let '(ok, m) := OpenMessage_Decode {| open_interface_id := 0; open_flags := 0 |} (drop MESSAGE_HEADER_SIZE data) in
      if (header_type h =? kMESSAGE_TYPE_OPEN) && ok then Some m else None
  | None => None
  end.

Definition opens (w : mworld) : list OpenMessage := omap open_of (mirror_controls w).

Definition open_ack_of (data : list Z) : option OpenAckMessage :=
  match MessageHeader_Decode data with
  | Some h =>
      let '(ok, m) := OpenAckMessage_Decode {| open_ack_status := 0; open_ack_channel := 0; open_ack_interface_id := 0 |} (slice MESSAGE_HEADER_SIZE (Z.to_nat (header_length h)) data) in
      if (header_type h =? kMESSAGE_TYPE_OPEN_ACK) && ok then Some m else None
  | None => None
  end.

(** ** Histories *)

Inductive mirror_event :=
| MvTick (now_us : Z)
| MvConnected
| MvDisconnected (now_us : Z)
| MvControl (data : list Z) (now_us : Z)
| MvFrame (data : list Z)
| MvCanFrame (frame : FrameMessage).

Definition mirror_step (st : MirrorApp * mworld) (e : mirror_event) : MirrorApp * mworld :=
  let '(self, w) := st in
  match e with
  | MvTick now_us => MirrorApp_Tick log_mirror_hub self now_us w
  | MvConnected => transportOnConnected log_mirror_hub self w
  | MvDisconnected now_us => (transportOnDisconnected self now_us, w)
  | MvControl data now_us => transportOnControl log_mirror_hub self data now_us w
  | MvFrame data => (self, transportOnFrame log_mirror_can self data w)
  | MvCanFrame frame => (self, MirrorApp_OnCanFrame log_mirror_hub self frame w)
  end.

Definition mirror_run (evs : list mirror_event) (st : MirrorApp * mworld) : MirrorApp * mworld := foldl mirror_step st evs.

(** The transport reports a connection only while one was asked for, and delivers bytes. *)
Definition mirror_event_ok (st : MirrorApp * mworld) (e : mirror_event) : Prop :=
  match e with MvConnected => mi_state st.1 = kMIRROR_CONNECTING | MvControl data _ => bytes data | _ => True end.

Fixpoint mirror_history (evs : list mirror_event) (st : MirrorApp * mworld) : Prop :=
  match evs with [] => True | e :: evs' => mirror_event_ok st e ∧ mirror_history evs' (mirror_step st e) end.

Lemma mirror_run_snoc evs e st : mirror_run (evs ++ [e]) st = mirror_step (mirror_run evs st) e.
Proof. apply foldl_snoc. Qed.

Lemma mirror_history_app evs1 evs2 st : mirror_history (evs1 ++ evs2) st ↔ mirror_history evs1 st ∧ mirror_history evs2 (mirror_run evs1 st).
Proof. revert st. induction evs1 as [|e evs1 IH]; intros st; cbn; [tauto|]. rewrite IH. unfold mirror_run. cbn [foldl]. tauto. Qed.

(** A new mirror of an interface given by identifier or by name. *)
Definition mirror_new (id : Z) (interface_name name : option (list Z)) (reliable : bool) : MirrorApp :=
  MirrorApp_SetReliable (MirrorApp_SetName (MirrorApp_Init id interface_name) name) reliable.

(** ** What each operation sends *)

Lemma mirror_controls_emit o w : mirror_controls (emit o w) = mirror_controls w ++ match o with MoControl data => [data] | _ => [] end.
Proof. unfold mirror_controls, emit. cbn [snd]. rewrite omap_app. by destruct o. Qed.

Lemma opens_emit o w : opens (emit o w) = opens w ++ match o with MoControl data => omap open_of [data] | _ => [] end.
Proof. unfold opens. rewrite mirror_controls_emit, omap_app. by destruct o. Qed.

Lemma mirror_sent {M} `{WireMessageOk M} (m : M) w :
  wm_valid m → (MESSAGE_HEADER_SIZE + wm_size m ≤ 424)%nat →
  ∃ bs, wm_packet m bs ∧ sendEncoded log_mirror_hub (wm_encode m control_buffer) w = emit (MoControl bs) w.
Proof.
  intros Hv Hs. destruct (wm_encode_ok m control_buffer Hv) as (buf & He & _); [unfold control_buffer; by rewrite length_replicate|].
  exists (take (wm_encode m control_buffer).1 (wm_encode m control_buffer).2). split; [exists control_buffer; unfold control_buffer; by rewrite length_replicate|].
  unfold sendEncoded. rewrite He. cbn [fst snd]. by rewrite (proj2 (Nat.eqb_neq _ _)) by lia.
Qed.

Lemma open_of_other {M} `{WireMessageOk M} (m : M) bs : wm_packet m bs → wm_type (M := M) ≠ kMESSAGE_TYPE_OPEN → open_of bs = None.
Proof.
  intros Hpk Ht. destruct (wm_packet_spec _ _ Hpk) as (_ & Hd & _). unfold open_of. rewrite Hd. cbn [header_type]. rewrite (proj2 (Z.eqb_neq _ _)) by done.
  by destruct (OpenMessage_Decode _ _).
Qed.

Lemma open_of_open m bs : wm_packet m bs → open_of bs = Some m.
Proof.
  intros Hpk. destruct (wm_packet_spec _ _ Hpk) as (_ & Hd & Hdec). destruct (Hdec {| open_interface_id := 0; open_flags := 0 |} I) as (m' & Hm & Hs).
  unfold open_of. rewrite Hd. cbn [header_type]. change (OpenMessage_Decode {| open_interface_id := 0; open_flags := 0 |} (drop 4 bs) = (true, m')) in Hm. rewrite Hm.
  cbn in Hs. by subst m'.
Qed.

Lemma hello_sent self w : ∃ (m : HelloMessage) bs, wm_packet m bs ∧ sendHello log_mirror_hub self w = emit (MoControl bs) w.
Proof.
  unfold sendHello, HelloMessage_Build. match goal with |- context [HelloMessage_Encode ?m _] => exists m; assert (wm_valid m) as Hv by done; generalize dependent m end.
  intros m Hv. exact (mirror_sent m w Hv ltac:(cbn; lia)).
Qed.

Lemma list_sent offset w : is_u16 offset → ∃ bs, wm_packet {| list_offset := offset |} bs ∧ sendList log_mirror_hub offset w = emit (MoControl bs) w.
Proof. intros Ho. exact (mirror_sent {| list_offset := offset |} w Ho ltac:(cbn; lia)). Qed.

Lemma open_sent self flags w : is_u32 (mi_interface_id self) → is_u8 flags →
  ∃ bs, wm_packet {| open_interface_id := mi_interface_id self; open_flags := flags |} bs ∧ sendOpen log_mirror_hub self flags w = emit (MoControl bs) w.
Proof. intros Hi Hf. exact (mirror_sent {| open_interface_id := mi_interface_id self; open_flags := flags |} w (conj Hi Hf) ltac:(cbn; lia)). Qed.

Lemma openFlags_u8 self access : access = OPEN_FLAGS_READ_ONLY ∨ access = OPEN_FLAGS_READ_WRITE → is_u8 (openFlags self access).
Proof. intros [-> | ->]; unfold openFlags, is_u8; destruct (mi_reliable self); vm_compute; intuition congruence. Qed.

(** Write access was asked for with the flag, and only then. *)
Lemma openFlags_write self (write : bool) : has_flag (openFlags self (if write then OPEN_FLAGS_READ_WRITE else OPEN_FLAGS_READ_ONLY)) OPEN_FLAG_WANT_WRITE = write.
Proof. unfold openFlags. by destruct (mi_reliable self), write. Qed.

(** ** The fields keep their types *)

Record mirror_wf (self : MirrorApp) : Prop := {
  mw_id : is_u32 (mi_interface_id self);
  mw_name : length (mi_interface_name self) = INTERFACE_NAME_NAMESPACED_SIZE;
  mw_offset : is_u16 (mi_list_offset self);
  mw_channel : is_u8 (mi_channel self);
  mw_initial : initial_delay_ms (mi_backoff self) = RECONNECT_DEFAULT_INITIAL_DELAY_MS;
  mw_max : max_delay_ms (mi_backoff self) = RECONNECT_DEFAULT_MAX_DELAY_MS;
  mw_delay : 1000 ≤ current_delay_ms (mi_backoff self) ≤ 60000;
}.

Lemma Wire_ReadU32_u32 buf off : is_u32 (Wire_ReadU32 buf off).
Proof.
  unfold Wire_ReadU32. assert (∀ o, is_u16 (Wire_ReadU16 buf o)) as H by (intros o; unfold Wire_ReadU16, is_u16, u16; apply Z.mod_pos_bound; lia).
  pose proof (H off). pose proof (H (off + 2)%nat). unfold is_u16, is_u32 in *. rewrite lor_shiftl_add by lia. lia.
Qed.

Lemma found_u32 old payload m name id : ListReplyMessage_Decode old payload = (true, m) → length (lr_entries old) = 16%nat → InterfaceName_Find m name = Some id → is_u32 id.
Proof.
  unfold ListReplyMessage_Decode. intros Hd Hl. destruct (Nat.ltb _ _); [done|]. destruct (Z.gtb_spec (payload !!! 0%nat) 16) as [|Hc]; [done|]. destruct (Nat.ltb _ _); [done|].
  injection Hd as <-. unfold InterfaceName_Find, counted_entries. cbn [lr_count lr_entries]. rewrite take_list_inserts.
  - unfold read_entries. generalize (seq 0 (Z.to_nat (payload !!! 0%nat))) as ks. induction ks as [|k ks IH]; cbn; [done|].
    destruct (namesEntry _ _); [|exact IH]. intros [= <-]. apply Wire_ReadU32_u32.
  - unfold read_entries. by rewrite length_fmap, length_seq.
  - lia.
Qed.

(** What never changes once the mirror runs. *)
Definition mirror_config (self : MirrorApp) : list Z * list Z * bool * bool := (mi_interface_name self, mi_name self, mi_reliable self, mi_resolve_by_name self).

(** The last OPEN sent asks for this interface, with write access while that is what the mirror waits for. *)
Definition asked (self : MirrorApp) (w : mworld) : Prop :=
  last (opens w) = Some {| open_interface_id := mi_interface_id self; open_flags := openFlags self (if mi_pending_write self then OPEN_FLAGS_READ_WRITE else OPEN_FLAGS_READ_ONLY) |}.

Lemma disconnected_wf self now : mirror_wf self → mirror_wf (transportOnDisconnected self now).
Proof.
  intros []. unfold transportOnDisconnected. destruct (_ || _); [done|]. destruct (_ && _); [done|]. unfold ReconnectBackoff_NextDelayMs. split; cbn; try done.
  unfold BACKOFF_FACTOR. rewrite mw_max0. unfold RECONNECT_DEFAULT_MAX_DELAY_MS. rewrite u32_id by lia. case_tests; lia.
Qed.

Lemma disconnected_config self now : mirror_config (transportOnDisconnected self now) = mirror_config self.
Proof. unfold transportOnDisconnected. destruct (_ || _); [done|]. by destruct (_ && _). Qed.

Lemma disconnected_state self now : mi_state self ≠ kMIRROR_OPENING → mi_state self ≠ kMIRROR_PUMPING →
  mi_state (transportOnDisconnected self now) ≠ kMIRROR_OPENING ∧ mi_state (transportOnDisconnected self now) ≠ kMIRROR_PUMPING.
Proof. intros H1 H2. unfold transportOnDisconnected. destruct (_ || _); [done|]. by destruct (_ && _). Qed.

Lemma disconnected_away self now : mi_state (transportOnDisconnected self now) = kMIRROR_DISCONNECTED ∨ mi_state (transportOnDisconnected self now) = kMIRROR_FAILED.
Proof.
  unfold transportOnDisconnected. destruct (bool_decide_reflect (mi_state self = kMIRROR_DISCONNECTED)); cbn [orb]; [by left|].
  destruct (bool_decide_reflect (mi_state self = kMIRROR_FAILED)); [by right|]. destruct (_ && _); [by right|by left].
Qed.

Lemma open_resolved self w : mirror_wf self → ∃ bs,
  wm_packet {| open_interface_id := mi_interface_id self; open_flags := openFlags self OPEN_FLAGS_READ_WRITE |} bs ∧
  openResolvedInterface log_mirror_hub self w = (self <| mi_state := kMIRROR_OPENING |> <| mi_pending_write := true |>, emit (MoControl bs) w).
Proof.
  intros [Hid _ _ _ _ _ _]. unfold openResolvedInterface. set (self' := self <| mi_state := kMIRROR_OPENING |> <| mi_pending_write := true |>).
  destruct (open_sent self' (openFlags self' OPEN_FLAGS_READ_WRITE) w Hid (openFlags_u8 self' _ (or_intror eq_refl))) as (bs & Hpk & ->). exists bs. by split.
Qed.

Lemma open_asked self w : mirror_wf self → let st := openResolvedInterface log_mirror_hub self w in
  mirror_wf st.1 ∧ mirror_config st.1 = mirror_config self ∧ mi_state st.1 = kMIRROR_OPENING ∧ asked st.1 st.2.
Proof.
  intros Hwf st. subst st. destruct (open_resolved self w Hwf) as (bs & Hpk & ->). cbn [fst snd]. split; [by destruct Hwf|]. split; [done|]. split; [done|].
  unfold asked. rewrite opens_emit. cbn [omap list_omap]. rewrite (open_of_open _ _ Hpk). by rewrite last_snoc.
Qed.

Lemma start_resolution self w : mirror_wf self → let st := startResolution log_mirror_hub self w in
  mirror_wf st.1 ∧ mirror_config st.1 = mirror_config self ∧ (mi_state st.1 = kMIRROR_OPENING ∧ asked st.1 st.2 ∨ mi_state st.1 = kMIRROR_RESOLVING).
Proof.
  intros Hwf. unfold startResolution. destruct (mi_resolve_by_name self); cbn [negb].
  - split; [|split; [done|by right]]. destruct Hwf. by split.
  - destruct (open_asked self w Hwf) as (H1 & H2 & H3 & H4). split; [done|]. split; [done|]. by left.
Qed.

(** How one step leads to a state in which the mirror waits for an answer to its OPEN, or pumps. *)
Definition progress (st : MirrorApp * mworld) (e : mirror_event) (st' : MirrorApp * mworld) : Prop :=
  match mi_state st'.1 with
  | kMIRROR_OPENING => asked st'.1 st'.2
  | kMIRROR_PUMPING =>
      opens st'.2 = opens st.2 ∧
      ((mi_state st.1 = kMIRROR_PUMPING ∧ mi_channel st'.1 = mi_channel st.1 ∧ mi_can_write st'.1 = mi_can_write st.1 ∧ ∀ t, e ≠ MvDisconnected t) ∨
       mi_state st.1 = kMIRROR_OPENING ∧ ∃ data now ack, e = MvControl data now ∧ open_ack_of data = Some ack ∧ open_ack_status ack = OPEN_STATUS_OK ∧
         open_ack_channel ack = mi_channel st'.1 ∧ open_ack_interface_id ack = mi_interface_id st.1 ∧ mi_can_write st'.1 = mi_pending_write st.1)
  | _ => True
  end.

Definition stepped (st : MirrorApp * mworld) (e : mirror_event) (st' : MirrorApp * mworld) : Prop :=
  mirror_wf st'.1 ∧ mirror_config st'.1 = mirror_config st.1 ∧ progress st e st'.

Lemma stepped_stay st e w' : mirror_wf st.1 → (mi_state st.1 = kMIRROR_OPENING → asked st.1 st.2) → (∀ t, e ≠ MvDisconnected t) → opens w' = opens st.2 → stepped st e (st.1, w').
Proof.
  intros Hwf Ha He Ho. split; [done|]. split; [done|]. unfold progress. cbn [fst snd]. destruct (mi_state st.1) eqn:Es; try done.
  - unfold asked in *. rewrite Ho. auto.
  - split; [done|]. by left.
Qed.

Lemma stepped_away st e self' w' : mirror_wf self' → mirror_config self' = mirror_config st.1 → mi_state self' ≠ kMIRROR_OPENING → mi_state self' ≠ kMIRROR_PUMPING → stepped st e (self', w').
Proof. intros Hwf Hc H1 H2. split; [done|]. split; [done|]. unfold progress. cbn [fst]. by destruct (mi_state self'). Qed.

Lemma stepped_resolution st e w : mirror_wf st.1 → stepped st e (startResolution log_mirror_hub st.1 w).
Proof.
  intros Hwf. destruct (start_resolution st.1 w Hwf) as (H1 & H2 & [[H3 H4]|H3]); (split; [done|]); (split; [done|]); unfold progress; by rewrite H3.
Qed.

Lemma stepped_list_reply st e body now : mirror_wf st.1 → (mi_state st.1 = kMIRROR_OPENING → asked st.1 st.2) → (∀ t, e ≠ MvDisconnected t) →
  stepped st e (handleListReply log_mirror_hub st.1 body now st.2).
Proof.
  destruct st as [self w]. cbn [fst snd]. intros Hwf Ha He. unfold handleListReply. destruct (bool_decide_reflect (mi_state self ≠ kMIRROR_RESOLVING)) as [|Hs]; [by apply stepped_stay|].
  destruct (ListReplyMessage_Decode list_reply0 body) as [[] reply] eqn:Hd; cbn [negb]; [|apply stepped_away; [by destruct Hwf|done..]].
  destruct (InterfaceName_Find reply (mi_interface_name self)) as [id|] eqn:Hf.
  - pose proof (found_u32 _ _ _ _ _ Hd eq_refl Hf) as Hid. assert (mirror_wf (self <| mi_interface_id := id |>)) as Hwf' by (by destruct Hwf).
    destruct (open_asked (self <| mi_interface_id := id |>) w Hwf') as (H1 & H2 & H3 & H4). split; [done|]. split; [done|]. unfold progress. by rewrite H3.
  - assert (mi_state self = kMIRROR_RESOLVING) as Hr by (by destruct (mi_state self); [|contradict Hs..]).
    destruct (_ && _); [|apply stepped_away; [by destruct Hwf|done..]]. apply stepped_away; cbn; rewrite ?Hr; try done.
    destruct Hwf. split; try done. cbn. unfold is_u16, u16. apply Z.mod_pos_bound. lia.
Qed.

Lemma ack_channel_u8 data ack : bytes data → open_ack_of data = Some ack → is_u8 (open_ack_channel ack).
Proof.
  intros Hb. unfold open_ack_of. destruct (MessageHeader_Decode data) as [h|]; [|done]. unfold OpenAckMessage_Decode. destruct (Nat.ltb _ _); [by rewrite andb_false_r|].
  rewrite andb_true_r. destruct (_ =? _); [|done]. intros [= <-]. cbn [open_ack_channel]. rewrite list_lookup_total_alt.
  destruct (slice _ _ _ !! 1%nat) as [c|] eqn:Hc; [|done]. cbn. unfold slice in Hc. apply list_elem_of_lookup_2, elem_of_take in Hc as (i & Hi & _). rewrite lookup_drop in Hi.
  by apply (Forall_lookup_1 _ _ _ _ Hb Hi).
Qed.

Lemma stepped_open_ack st data now ack : mirror_wf st.1 → (mi_state st.1 = kMIRROR_OPENING → asked st.1 st.2) → open_ack_of data = Some ack → bytes data →
  stepped st (MvControl data now) (handleOpenAck log_mirror_hub st.1 ack now st.2).
Proof.
  destruct st as [self w]. cbn [fst snd]. intros Hwf Ha Hack Hb. unfold handleOpenAck. destruct (bool_decide_reflect (mi_state self ≠ kMIRROR_OPENING)) as [|Hs]; [by apply stepped_stay|].
  cbn [orb]. assert (mi_state self = kMIRROR_OPENING) as Ho by (by destruct (mi_state self); [contradict Hs| |contradict Hs..]). clear Hs.
  destruct (Z.eqb_spec (open_ack_interface_id ack) (mi_interface_id self)) as [Hid|]; cbn [negb]; [|by apply stepped_stay].
  destruct (Z.eqb_spec (open_ack_status ack) OPEN_STATUS_OK) as [Hok|].
  { set (self' := (self <| mi_channel := _ |> <| mi_can_write := _ |>) <| mi_state := kMIRROR_PUMPING |> <| mi_backoff := _ |>).
    split; [destruct Hwf; split; try done; cbn; [by apply (ack_channel_u8 data)|rewrite mw_initial0; unfold RECONNECT_DEFAULT_INITIAL_DELAY_MS; lia]|]. split; [done|].
    unfold progress. cbn [fst snd]. change (mi_state self') with kMIRROR_PUMPING. cbv iota. change (mi_reliable self') with (mi_reliable self).
    split; [destruct (mi_reliable self); [etrans; [apply (opens_emit (MoMode _ _))|apply app_nil_r]|done]|]. right. split; [done|]. by exists data, now, ack. }
  destruct (mi_pending_write self && (open_ack_status ack =? OPEN_STATUS_WRITE_DENIED)).
  { set (self' := self <| mi_pending_write := false |>). assert (mirror_wf self') as Hwf' by (by destruct Hwf).
    destruct (open_sent self' (openFlags self' OPEN_FLAGS_READ_ONLY) w (mw_id _ Hwf') (openFlags_u8 self' _ (or_introl eq_refl))) as (bs & Hpk & ->). split; [done|]. split; [done|].
    unfold progress. cbn [fst snd]. change (mi_state self') with (mi_state self). rewrite Ho. unfold asked. rewrite opens_emit. cbn [omap list_omap]. rewrite (open_of_open _ _ Hpk). by rewrite last_snoc. }
  destruct (_ && _); (apply stepped_away; [by destruct Hwf|done..]).
Qed.

Lemma write_stream_opens fuel stream f w : opens (write_stream log_mirror_can fuel stream f w) = opens w.
Proof.
  revert stream f w. induction fuel as [|fuel IH]; intros stream f w; cbn [write_stream]; [done|]. destruct (FrameStream_Next stream f) as [[[] stream'] f']; [|done].
  rewrite IH. etrans; [apply (opens_emit (MoWrite _))|apply app_nil_r].
Qed.

Lemma can_frame_opens self f w : opens (MirrorApp_OnCanFrame log_mirror_hub self f w) = opens w.
Proof.
  unfold MirrorApp_OnCanFrame. destruct (_ || _); [done|]. destruct (FrameMessage_Encode _ _) as [[|n] bs]; [done|]. cbn [Nat.eqb].
  etrans; [apply (opens_emit (MoFrame _ _))|apply app_nil_r].
Qed.

Lemma mirror_stepped st e : mirror_wf st.1 → (mi_state st.1 = kMIRROR_OPENING → asked st.1 st.2) → mirror_event_ok st e → stepped st e (mirror_step st e).
Proof.
  intros Hwf Ha Hok. destruct st as [self w]. destruct e as [now| |now|data now|data|f]; cbn [mirror_step].
  - unfold MirrorApp_Tick. destruct (_ <? _); [by apply stepped_stay|]. destruct (bool_decide_reflect (mi_state self = kMIRROR_DISCONNECTED)) as [Hd|].
    + unfold tryConnect. cbn [log_mirror_hub mh_connect]. destruct (default true (head w.1)); [by apply stepped_away; [destruct Hwf|..]|].
      set (self' := self <| mi_state := kMIRROR_CONNECTING |>). destruct (disconnected_away self' now) as [Hs|Hs]; apply stepped_away; rewrite ?Hs, ?disconnected_config; try done;
        apply disconnected_wf; by destruct Hwf.
    + destruct (bool_decide_reflect (mi_state self = kMIRROR_AWAITING_INTERFACE)) as [Hd|]; [by apply (stepped_resolution (self, w))|by apply stepped_stay].
  - by apply (stepped_resolution (self, w)).
  - destruct (disconnected_away self now) as [Hs|Hs]; apply stepped_away; rewrite ?Hs, ?disconnected_config; try done; by apply disconnected_wf.
  - unfold transportOnControl. destruct (MessageHeader_Decode data) as [h|] eqn:Hh; [|by apply stepped_stay]. destruct (Nat.ltb _ _); [by apply stepped_stay|].
    destruct (header_type h =? kMESSAGE_TYPE_LIST_REPLY); [by apply (stepped_list_reply (self, w))|].
    destruct (header_type h =? kMESSAGE_TYPE_OPEN_ACK) eqn:Ht; [|by apply stepped_stay].
    destruct (OpenAckMessage_Decode _ _) as [[] ack] eqn:Hd; [|by apply stepped_stay]. apply (stepped_open_ack (self, w)); [done|done| |done].
    unfold open_ack_of. rewrite Hh. rewrite Hd. by rewrite Ht.
  - apply stepped_stay; [done..|]. cbn [snd]. unfold transportOnFrame. destruct (bool_decide _); [done|]. apply write_stream_opens.
  - apply stepped_stay; [done..|]. apply can_frame_opens.
Qed.

(** ** The mirror writes only as it was allowed to *)

(** An acknowledgement in the history opened the channel: it answers the last
    OPEN sent before it, it granted what that asked for, and since then no OPEN
    was sent and the connection was not lost. *)
Definition granted (evs : list mirror_event) (st0 : MirrorApp * mworld) (channel : Z) (write : bool) : Prop :=
  ∃ pre data now post ack flags, evs = pre ++ MvControl data now :: post ∧ open_ack_of data = Some ack ∧ open_ack_status ack = OPEN_STATUS_OK ∧ open_ack_channel ack = channel ∧
    last (opens (mirror_run pre st0).2) = Some {| open_interface_id := open_ack_interface_id ack; open_flags := flags |} ∧ has_flag flags OPEN_FLAG_WANT_WRITE = write ∧
    opens (mirror_run evs st0).2 = opens (mirror_run pre st0).2 ∧ ∀ t, MvDisconnected t ∉ post.

Record mirror_inv (st0 : MirrorApp * mworld) (evs : list mirror_event) (st : MirrorApp * mworld) : Prop := {
  inv_wf : mirror_wf st.1;
  inv_config : mirror_config st.1 = mirror_config st0.1;
  inv_opening : mi_state st.1 = kMIRROR_OPENING → asked st.1 st.2;
  inv_pumping : mi_state st.1 = kMIRROR_PUMPING → granted evs st0 (mi_channel st.1) (mi_can_write st.1);
}.

Lemma mirror_inv_step st0 evs e : mirror_inv st0 evs (mirror_run evs st0) → mirror_event_ok (mirror_run evs st0) e →
  mirror_inv st0 (evs ++ [e]) (mirror_run (evs ++ [e]) st0).
Proof.
  intros [Hwf Hc Ha Hg] Hok. pose proof (mirror_stepped _ e Hwf Ha Hok) as (Hwf' & Hc' & Hp). rewrite mirror_run_snoc. split; [done|congruence|intros Hs; unfold progress in Hp; by rewrite Hs in Hp|].
  intros Hs. unfold progress in Hp. rewrite Hs in Hp. destruct Hp as [Ho [(Hs0 & Hch & Hcw & Hne)|(Hs0 & data & now & ack & -> & Hack & Hst & Hch & Hid & Hcw)]].
  - destruct (Hg Hs0) as (pre & data & now & post & ack & flags & Hev & H1 & H2 & H3 & H4 & H5 & H6 & H7). exists pre, data, now, (post ++ [e]), ack, flags. rewrite Hch, Hcw.
    split_and!; [by rewrite Hev, <- app_assoc|done..| |]; [by rewrite mirror_run_snoc, Ho|]. intros t. rewrite elem_of_app, list_elem_of_singleton. intros [Hin|He]; [by apply (H7 t)|by apply (Hne t)].
  - exists evs, data, now, [], ack. eexists. split_and!; [done..| |exact (openFlags_write (mirror_run evs st0).1 _)| |by intros t ?%elem_of_nil].
    + rewrite (Ha Hs0), Hid, Hcw. done.
    + rewrite mirror_run_snoc. done.
Qed.

Lemma mirror_inv_run st0 evs : mirror_wf st0.1 → mi_state st0.1 = kMIRROR_DISCONNECTED → mirror_history evs st0 → mirror_inv st0 evs (mirror_run evs st0).
Proof.
  intros Hwf Hs. induction evs as [|e evs IH] using rev_ind; [intros _; split; by cbn; rewrite ?Hs|]. rewrite mirror_history_app. cbn. intros (Hh & Hok & _). by apply mirror_inv_step; [apply IH|].
Qed.

Lemma mirror_new_wf id interface_name name reliable : is_u32 id → mirror_wf (mirror_new id interface_name name reliable) ∧ mi_state (mirror_new id interface_name name reliable) = kMIRROR_DISCONNECTED.
Proof.
  intros Hid. unfold mirror_new, MirrorApp_Init. destruct interface_name as [n|]; [destruct (_ =? 0)|]; (split; [split; try done; try exact (length_BoundedString_Copy _ _); vm_compute; split; congruence|done]).
Qed.

(** C16. The mirror writes to the hub only what it was allowed to.  After any
    history of ticks, connections, losses, messages and frames, a frame from the
    local bus goes out exactly when the mirror pumps with write access; it then
    goes out unchanged on the channel of an acknowledgement in the history that
    answered the last OPEN sent, an OPEN that asked for write access, and since
    which the hub was not lost.  In every other state the frame is dropped. *)
Theorem mirror_writes_granted (id : Z) (interface_name name : option (list Z)) (reliable : bool) (answers : list bool) (evs : list mirror_event) (f : FrameMessage) :
  let st0 := (mirror_new id interface_name name reliable, (answers, [])) in
  is_u32 id → mirror_history evs st0 → frame_valid f →
  let '(self, w) := mirror_run evs st0 in
  let w' := MirrorApp_OnCanFrame log_mirror_hub self f w in
  if bool_decide (MirrorApp_State self = kMIRROR_PUMPING) && MirrorApp_CanWrite self then
    granted evs st0 (mi_channel self) true ∧ ∃ bs, w' = emit (MoFrame (mi_channel self) bs) w ∧
      wm_packet {| frame_can_id := frame_can_id f; frame_timestamp_us := frame_timestamp_us f; frame_channel := mi_channel self; frame_payload_length := frame_payload_length f;
                   frame_flags := frame_flags f; frame_route_flags := 0; frame_payload := frame_payload f |} bs
  else w' = w.
Proof.
  intros st0 Hid Hh Hf. destruct (mirror_new_wf id interface_name name reliable Hid) as [Hwf Hs]. pose proof (mirror_inv_run st0 evs Hwf Hs Hh) as [_ _ _ Hg].
  destruct (mirror_run evs st0) as [self w]. cbn [fst snd] in Hg. unfold MirrorApp_State, MirrorApp_CanWrite, MirrorApp_OnCanFrame.
  destruct (bool_decide_reflect (mi_state self = kMIRROR_PUMPING)) as [Hp|Hp]; [|by rewrite bool_decide_true]. rewrite bool_decide_false by auto. cbn [andb orb].
  specialize (Hg Hp). destruct (mi_can_write self); [|done]. cbn [negb]. split; [done|].
  match goal with |- context [FrameMessage_Encode ?m _] => set (out := m) end. assert (wm_valid out) as Hv by (destruct Hf; by split).
  pose proof (payload_length_le _ _ (fv_ok _ Hf)) as Hl. assert (MESSAGE_HEADER_SIZE + wm_size out ≤ length control_buffer)%nat as Hsz
    by (cbn; unfold frame_size; cbn [out frame_payload_length]; lia).
  destruct (wm_encode_ok out control_buffer Hv Hsz) as (buf & He & _). change (FrameMessage_Encode out control_buffer) with (wm_encode out control_buffer).
  exists (take (wm_encode out control_buffer).1 (wm_encode out control_buffer).2). split; [|by exists control_buffer].
  rewrite He. cbn [fst snd]. rewrite (proj2 (Nat.eqb_neq _ _)) by lia. done.
Qed.

(** A mirror of an identifier is over once it loses the hub: the identifier may
    be another bus on the hub's next session, and nothing more leaves the mirror. *)
Theorem mirror_by_id_never_reopens (self : MirrorApp) (now_us : Z) (w : mworld) (evs : list mirror_event) :
  mi_resolve_by_name self = false → mi_state self ≠ kMIRROR_CONNECTING → mi_state self ≠ kMIRROR_DISCONNECTED →
  let st := mirror_step (self, w) (MvDisconnected now_us) in
  mirror_history evs st → mirror_run evs st = st ∧ mi_state st.1 = kMIRROR_FAILED ∧ st.2 = w.
Proof.
  intros Hid Hc Hd st Hh. assert (mi_state st.1 = kMIRROR_FAILED) as Hs.
  { subst st. cbn. unfold transportOnDisconnected. rewrite (bool_decide_false (_ = kMIRROR_DISCONNECTED)), (bool_decide_true (_ ≠ _)), Hid by done. cbn [orb andb negb].
    by destruct (bool_decide_reflect (mi_state self = kMIRROR_FAILED)). }
  split; [|done]. assert (∀ x, mi_state x = kMIRROR_FAILED → ∀ v e, mirror_event_ok (x, v) e → mirror_step (x, v) e = (x, v)) as Hstay.
  { intros x Hx v [now| |now|data now|data|f] Hok; cbn [mirror_step].
    - unfold MirrorApp_Tick. rewrite Hx. by destruct (_ <? _).
    - cbn in Hok. congruence.
    - unfold transportOnDisconnected. by rewrite Hx.
    - unfold transportOnControl. destruct (MessageHeader_Decode data) as [h|]; [|done]. destruct (Nat.ltb _ _); [done|].
      destruct (_ =? _); [unfold handleListReply; by rewrite Hx|]. destruct (_ =? _); [|done]. destruct (OpenAckMessage_Decode _ _) as [[] ack]; [|done]. unfold handleOpenAck. by rewrite Hx.
    - unfold transportOnFrame. by rewrite Hx.
    - unfold MirrorApp_OnCanFrame. by rewrite Hx. }
  destruct st as [x v]. cbn [fst] in Hs. induction evs as [|e evs IH]; [done|]. destruct Hh as [Hok Hh]. unfold mirror_run. cbn [foldl].
  rewrite (Hstay x Hs v e Hok) in *. by apply IH.
Qed.

(** ** Frames from the hub *)

Lemma write_stream_frames {W} (can : CanPort W) fuel stream f w :
  write_stream can fuel stream f w = foldl (λ w f, (cp_write_frame can 0 f w).2) w (frames_of fuel stream f).
Proof.
  revert stream f w. induction fuel as [|fuel IH]; intros stream f w; cbn [write_stream frames_of]; [done|]. by destruct (FrameStream_Next stream f) as [[[] stream'] f'].
Qed.

Lemma length_packets (fs : list FrameMessage) bss : Forall2 wm_packet fs bss → (length fs ≤ length (concat bss))%nat.
Proof. induction 1 as [|f bs fs bss Hf _ IH]; cbn; [lia|]. rewrite length_app. destruct (wm_packet_spec f bs Hf) as (-> & _). lia. Qed.

(** A mirror that pumps writes every frame of a datagram to its bus, in order, and nothing else. *)
Theorem mirror_copies_frames {W} (can : CanPort W) (self : MirrorApp) (fs : list FrameMessage) (bss : list (list Z)) (w : W) :
  mi_state self = kMIRROR_PUMPING → Forall2 wm_packet fs bss →
  ∃ fs', Forall2 frame_same fs fs' ∧ transportOnFrame can self (concat bss) w = foldl (λ w f, (cp_write_frame can 0 f w).2) w fs'.
Proof.
  intros Hs Hpk. unfold transportOnFrame. rewrite bool_decide_false by auto. rewrite write_stream_frames. eexists. split; [|done].
  destruct (frame_stream_roundtrip fs bss (length (concat bss)) (S (length (concat bss))) frame_zero Hpk eq_refl) as (n & Hall & Hle & Hmax); [pose proof (length_packets fs bss Hpk); lia|].
  rewrite (take_ge (concat bss)) in Hall by lia. rewrite take_ge in Hall; [done|]. destruct (decide (n < length fs)%nat) as [Hlt|]; [|lia].
  specialize (Hmax (length fs) ltac:(lia)). rewrite (Forall2_length _ _ _ Hpk), take_ge in Hmax by lia. lia.
Qed.

(** ** Examples *)

Module MirrorDemo.

Definition ack (status channel id : Z) : list Z :=
  take 12 (OpenAckMessage_Encode {| open_ack_status := status; open_ack_channel := channel; open_ack_interface_id := id |} (replicate 12 0)).2.
Definition start : MirrorApp * mworld := (mirror_new 4 None None false, ([], [])).
Definition opened : list mirror_event := [MvTick 0; MvConnected; MvControl (ack OPEN_STATUS_OK 3 4) 10].
Definition frame : FrameMessage := {|
  frame_can_id := 291; frame_timestamp_us := 7; frame_channel := 0; frame_payload_length := 2; frame_flags := 0; frame_route_flags := 2;
  frame_payload := 222 :: 173 :: replicate 62 0 |}.

End MirrorDemo.

Lemma mirror_writes_granted_witness :
  granted MirrorDemo.opened MirrorDemo.start 3 true ∧ ∃ bs,
    (MirrorApp_OnCanFrame log_mirror_hub (mirror_run MirrorDemo.opened MirrorDemo.start).1 MirrorDemo.frame (mirror_run MirrorDemo.opened MirrorDemo.start).2) =
    emit (MoFrame 3 bs) (mirror_run MirrorDemo.opened MirrorDemo.start).2.
Proof.
  assert (is_u32 4) as Hid by (vm_compute; intuition congruence).
  assert (mirror_history MirrorDemo.opened MirrorDemo.start) as Hh.
  { cbn [MirrorDemo.opened mirror_history]. split; [done|]. split; [vm_compute; reflexivity|]. split; [|done]. vm_compute. repeat constructor; congruence. }
  assert (frame_valid MirrorDemo.frame) as Hf by (split; vm_compute; intuition congruence).
  pose proof (mirror_writes_granted 4 None None false [] MirrorDemo.opened MirrorDemo.frame Hid Hh Hf) as H. cbv zeta in H.
  change (mirror_new 4 None None false, ([], [])) with MirrorDemo.start in H.
  assert (mi_state (mirror_run MirrorDemo.opened MirrorDemo.start).1 = kMIRROR_PUMPING ∧ mi_channel (mirror_run MirrorDemo.opened MirrorDemo.start).1 = 3 ∧
    mi_can_write (mirror_run MirrorDemo.opened MirrorDemo.start).1 = true) as (H1 & H2 & H3) by (vm_compute; auto).
  destruct (mirror_run MirrorDemo.opened MirrorDemo.start) as [self w]. cbn [fst snd] in *. unfold MirrorApp_State, MirrorApp_CanWrite in H.
  rewrite H1, H2, H3 in H. destruct H as (Hg & bs & Hw & _). split; [exact Hg|]. exists bs. exact Hw.
Defined.

Lemma mirror_by_id_never_reopens_witness :
  let st := mirror_run MirrorDemo.opened MirrorDemo.start in
  let lost := mirror_step st (MvDisconnected 20) in
  mirror_run [MvTick 100000000; MvControl (MirrorDemo.ack OPEN_STATUS_OK 3 4) 100000001; MvCanFrame MirrorDemo.frame] lost = lost ∧ mi_state lost.1 = kMIRROR_FAILED ∧ lost.2 = st.2.
Proof.
  intros st lost. assert (mi_resolve_by_name st.1 = false) as H1 by (vm_compute; reflexivity). assert (mi_state st.1 = kMIRROR_PUMPING) as H2 by (vm_compute; reflexivity).
  assert (mirror_history [MvTick 100000000; MvControl (MirrorDemo.ack OPEN_STATUS_OK 3 4) 100000001; MvCanFrame MirrorDemo.frame] lost) as H3
    by (split; [done|split; [vm_compute; repeat constructor; congruence|done]]).
  subst lost. clearbody st. destruct st as [self w]. cbn [fst snd] in H1, H2.
  exact (mirror_by_id_never_reopens self 20 w _ H1 ltac:(rewrite H2; discriminate) ltac:(rewrite H2; discriminate) H3).
Defined.

(** * The mirror comes back

    A mirror of a named interface that loses the hub reconnects on its backoff,
    looks its interface up again over the pages of the hub's list and pumps once
    the hub grants it; while the interface is not listed it asks again. *)
(** The hub answers the last message of the mirror, if it is a LIST. *)
Definition mirror_exchange (entries : list ListReplyEntry) (page : nat) (now_us : Z) (st : MirrorApp * mworld) : MirrorApp * mworld :=
  match last (mirror_controls st.2) with
  | Some data => match hub_answer entries page data with Some reply => mirror_step st (MvControl reply now_us) | None => st end
  | None => st
  end.

(** The mirror looks for [name] and has asked for the page at [offset]. *)
Record searching (name : list Z) (offset : nat) (st : MirrorApp * mworld) : Prop := {
  se_wf : mirror_wf st.1;
  se_state : mi_state st.1 = kMIRROR_RESOLVING;
  se_by_name : mi_resolve_by_name st.1 = true;
  se_offset : mi_list_offset st.1 = Z.of_nat offset;
  se_terminated : terminated (mi_interface_name st.1);
  se_name : cstr (mi_interface_name st.1) = cstr name;
  se_asked : ∃ bs, wm_packet {| list_offset := Z.of_nat offset |} bs ∧ last (mirror_controls st.2) = Some bs;
}.

(** Where a search ends: an OPEN with write access for the entry, or waiting for [MIRROR_INTERFACE_RETRY_MS]. *)
Record search_over (name : list Z) (found : option ListReplyEntry) (now_us : Z) (st : MirrorApp * mworld) : Prop := {
  so_wf : mirror_wf st.1;
  so_by_name : mi_resolve_by_name st.1 = true;
  so_terminated : terminated (mi_interface_name st.1);
  so_name : cstr (mi_interface_name st.1) = cstr name;
  so_answer : match found with
    | Some e => mi_state st.1 = kMIRROR_OPENING ∧ mi_interface_id st.1 = lre_interface_id e ∧ mi_pending_write st.1 = true ∧
        ∃ bs, wm_packet {| open_interface_id := lre_interface_id e; open_flags := openFlags st.1 OPEN_FLAGS_READ_WRITE |} bs ∧ last (mirror_controls st.2) = Some bs
    | None => mi_state st.1 = kMIRROR_AWAITING_INTERFACE ∧ mi_next_attempt_at_us st.1 = u64 (now_us + 1000000) ∧
        ∃ o bs, wm_packet {| list_offset := o |} bs ∧ last (mirror_controls st.2) = Some bs
    end;
}.

Lemma last_emit bs w : last (mirror_controls (emit (MoControl bs) w)) = Some bs.
Proof. rewrite mirror_controls_emit. apply last_snoc. Qed.

Lemma list_reply_dispatched {W} (hub : MirrorHub W) self (m : ListReplyMessage) bs now w :
  wm_packet m bs → transportOnControl hub self bs now w = handleListReply hub self (drop MESSAGE_HEADER_SIZE bs) now w.
Proof.
  intros Hpk. destruct (wm_packet_spec _ _ Hpk) as (Hl & Hd & _). unfold transportOnControl. rewrite Hd. cbn [header_length header_type].
  rewrite Nat2Z.id, (proj2 (Nat.ltb_ge _ _)) by lia. unfold slice. rewrite take_ge by (rewrite length_drop; lia). done.
Qed.

Lemma exchange_searching entries page now name offset st :
  Forall list_entry_ok entries → zlen entries < 65536 → (1 ≤ page ≤ 16)%nat → searching name offset st → (offset ≤ length entries)%nat →
  let st' := mirror_exchange entries page now st in
  match head (filter (named name) (take page (drop offset entries))) with
  | Some e => search_over name (Some e) now st'
  | None => if decide (offset + page < length entries)%nat then searching name (offset + page) st' else search_over name None now st'
  end.
Proof.
  destruct st as [self w]. intros Hok Hlen Hp [Hwf Hst Hbn Hoff Hterm Hname (bs & Hpk & Hlast)] Hle. cbn [fst snd] in *. unfold mirror_exchange. cbn [fst snd]. rewrite Hlast.
  destruct (answered entries page (Z.of_nat offset) bs Hok ltac:(lia) Hpk) as (reply & -> & Hreply). cbn [mirror_step]. rewrite (list_reply_dispatched _ self _ reply now w Hreply).
  destruct (wm_packet_spec _ _ Hreply) as (_ & _ & Hdec). destruct (Hdec list_reply0 eq_refl) as (m & Hm & Hcount & Hflags & Hsame).
  change (ListReplyMessage_Decode list_reply0 (drop 4 reply) = (true, m)) in Hm. unfold handleListReply. rewrite bool_decide_false by auto. rewrite Hm. cbn [negb].
  destruct (page_valid entries page (Z.of_nat offset) Hok ltac:(lia)) as [_ Hc]. rewrite Hc in Hsame. rewrite Nat2Z.id in Hsame. set (shown := take page (drop offset entries)) in *.
  unfold InterfaceName_Find. rewrite (find_same (mi_interface_name self) shown) by done.
  assert (filter (named (mi_interface_name self)) shown = filter (named name) shown) as -> by (apply list_filter_iff; intros e; unfold named; by rewrite Hname).
  assert (Forall list_entry_ok shown) as Hsok by (by apply Forall_take, Forall_drop).
  destruct (head (filter (named name) shown)) as [e|] eqn:Hhead; cbn [fmap option_fmap option_map].
  - assert (is_u32 (lre_interface_id e)) as Hid.
    { apply head_Some_elem_of, list_elem_of_filter in Hhead as [_ Hin]. by apply (proj1 (Forall_forall _ _) Hsok). }
    set (self' := self <| mi_interface_id := lre_interface_id e |>). assert (mirror_wf self') as Hwf' by (by destruct Hwf).
    destruct (open_resolved self' w Hwf') as (obs & Hopk & ->). split; cbn [fst snd]; [by destruct Hwf'|done..|]. split_and!; [done..|]. exists obs. split; [done|apply last_emit].
  - rewrite Hflags, Hcount. cbn [hub_page lr_flags lr_count]. rewrite Nat2Z.id. fold shown.
    assert (length shown = Nat.min page (length entries - offset)) as Hsl by (unfold shown; by rewrite length_take, length_drop).
    assert (length (drop offset entries) = length entries - offset)%nat as Hdl by apply length_drop. destruct (decide (offset + page < length entries)%nat) as [Hmore|Hmore].
    + rewrite (proj2 (Nat.ltb_lt _ _)) by lia. change (has_flag LIST_REPLY_FLAG_MORE LIST_REPLY_FLAG_MORE) with true. cbn [andb].
      destruct (Z.gtb_spec (zlen shown) 0) as [Hg|Hg]; [|unfold zlen in Hg; lia].
      set (self' := self <| mi_list_offset := _ |>). assert (mi_list_offset self' = Z.of_nat (offset + page)) as Hoff'.
      { change (mi_list_offset self') with (u16 (mi_list_offset self + zlen shown)). rewrite Hoff. unfold zlen in *. rewrite u16_id; lia. }
      assert (is_u16 (mi_list_offset self')) as Hu by (rewrite Hoff'; unfold is_u16, zlen in *; lia). destruct (list_sent (mi_list_offset self') w Hu) as (lbs & Hlpk & ->).
      split; cbn [fst snd]; [by destruct Hwf|done..|]. exists lbs. split; [by rewrite Hoff' in Hlpk|apply last_emit].
    + rewrite (proj2 (Nat.ltb_ge _ _)) by lia. change (has_flag 0 LIST_REPLY_FLAG_MORE) with false. cbn [andb]. split; cbn [fst snd]; [by destruct Hwf|done..|].
      split_and!; [done|done|]. by exists (Z.of_nat offset), bs.
Qed.

Lemma exchange_over entries page now now' name found st :
  Forall list_entry_ok entries → (page ≤ 16)%nat → search_over name found now st → mirror_exchange entries page now' st = st.
Proof.
  destruct st as [self w]. intros Hok Hp [_ _ _ _ H]. unfold mirror_exchange. cbn [fst snd] in *. destruct found as [e|].
  - destruct H as (_ & _ & _ & bs & Hpk & ->). destruct (wm_packet_spec _ _ Hpk) as (_ & Hd & _). unfold hub_answer. by rewrite Hd.
  - destruct H as (Hst & _ & o & bs & Hpk & ->). destruct (answered entries page o bs Hok Hp Hpk) as (reply & -> & Hreply).
    cbn [mirror_step]. rewrite (list_reply_dispatched _ self _ reply now' w Hreply). unfold handleListReply. by rewrite Hst.
Qed.

Lemma search_loop entries page now name n st :
  Forall list_entry_ok entries → zlen entries < 65536 → (1 ≤ page ≤ 16)%nat → (1 ≤ n)%nat → (length entries ≤ n * page)%nat → searching name 0 st →
  search_over name (head (filter (named name) entries)) now (Nat.iter n (mirror_exchange entries page now) st).
Proof.
  intros Hok Hlen Hp Hn Hcover Hs.
  refine (paged_search (mirror_exchange entries page now) (searching name) (λ found, search_over name found now) (named name) entries page ltac:(lia) _ _ n 0 st Hs _ Hn Hcover _); [|..|done]; [| |lia].
  - intros offset s Hse Hle. by apply exchange_searching.
  - intros found s Hov. apply (exchange_over entries page now now name found); [done|lia|done].
Qed.

(** The mirror starts over, on a connection that is up. *)
Lemma start_searching self name w : mirror_wf self → mi_resolve_by_name self = true → terminated (mi_interface_name self) → cstr (mi_interface_name self) = cstr name →
  searching name 0 (startResolution log_mirror_hub self w).
Proof.
  intros Hwf Hbn Ht Hn. unfold startResolution. rewrite Hbn. cbn [negb]. destruct (list_sent 0 w ltac:(done)) as (bs & Hpk & ->).
  split; cbn [fst snd]; [destruct Hwf; by split|done..|]. exists bs. split; [done|apply last_emit].
Qed.

(** The answer to the OPEN the search ended with. *)
Lemma search_granted name e now st channel ack now' : search_over name (Some e) now st → is_u8 channel →
  wm_packet {| open_ack_status := OPEN_STATUS_OK; open_ack_channel := channel; open_ack_interface_id := lre_interface_id e |} ack →
  let self := (mirror_step st (MvControl ack now')).1 in
  mi_state self = kMIRROR_PUMPING ∧ mi_interface_id self = lre_interface_id e ∧ mi_channel self = channel ∧ mi_can_write self = true.
Proof.
  destruct st as [self w]. intros [Hwf _ _ _ (Hs & Hid & Hpw & _)] Hch Hpk. cbn [fst snd] in *.
  destruct (wm_packet_spec _ _ Hpk) as (Hl & Hd & Hdec). destruct (Hdec {| open_ack_status := 0; open_ack_channel := 0; open_ack_interface_id := 0 |} I) as (m & Hm & Hsame). cbn in Hsame. subst m.
  cbn [mirror_step]. unfold transportOnControl. rewrite Hd. cbn [header_length header_type]. rewrite Nat2Z.id, (proj2 (Nat.ltb_ge _ _)) by lia.
  unfold slice. rewrite take_ge by (rewrite length_drop; lia). change (wm_type =? kMESSAGE_TYPE_LIST_REPLY) with false. change (wm_type =? kMESSAGE_TYPE_OPEN_ACK) with true. cbv iota.
  match type of Hm with wm_decode ?o ?d = ?r => change (OpenAckMessage_Decode o d = r) in Hm end. rewrite Hm. cbv iota. unfold handleOpenAck. rewrite bool_decide_false by auto.
  cbn [orb open_ack_interface_id open_ack_status open_ack_channel]. rewrite Hid, Z.eqb_refl. cbn [negb]. change (OPEN_STATUS_OK =? OPEN_STATUS_OK) with true. cbv iota. done.
Qed.

Lemma awaiting_searches name now now' st : search_over name None now st → mi_next_attempt_at_us st.1 ≤ now' → searching name 0 (mirror_step st (MvTick now')).
Proof.
  destruct st as [self w]. intros [Hwf Hbn Ht Hn (Hs & Ha & _)] Hnow. cbn [fst snd] in *. cbn [mirror_step]. unfold MirrorApp_Tick.
  rewrite (proj2 (Z.ltb_ge _ _)) by done. rewrite Hs. by apply start_searching.
Qed.

(** The name a mirror was given is the one it holds in every history. *)
Lemma mirror_named id iname name reliable : negb (iname.[0] =? 0) = true → (strlen iname ≤ 144)%nat →
  let self := mirror_new id (Some iname) name reliable in
  mi_resolve_by_name self = true ∧ terminated (mi_interface_name self) ∧ cstr (mi_interface_name self) = cstr iname.
Proof.
  intros H0 Hl self. subst self. unfold mirror_new, MirrorApp_Init. rewrite H0.
  set (copy := BoundedString_Copy (replicate INTERFACE_NAME_NAMESPACED_SIZE 0) (Some iname)).
  assert (cstr copy = cstr iname) as Hc.
  { subst copy. rewrite cstr_BoundedString_Copy by (rewrite length_replicate; lia). rewrite length_replicate. apply take_ge. unfold strlen in Hl. lia. }
  split; [done|]. split; [|exact Hc]. change (terminated copy). unfold terminated, strlen. rewrite Hc. subst copy. rewrite length_BoundedString_Copy, length_replicate.
  unfold strlen in Hl. lia.
Qed.

(** C17. A mirror of a named interface comes back by itself.  Whatever happened so
    far, unless the hub refused it for good: when the hub is lost, the mirror
    connects again between 1 and 60 seconds later, and once the connection is up
    and the hub has answered as many LISTs as it has pages, the mirror has asked
    for the first interface of its name with write access, whatever identifier
    that has on the new session, and it pumps on the channel the hub then grants.
    When no interface has the name it waits one second and searches the list as
    it is by then, with the same guarantee. *)
Theorem mirror_comes_back (id : Z) (iname : list Z) (name : option (list Z)) (reliable : bool) (answers : list bool) (evs : list mirror_event) (lost_us now_us : Z)
    (entries : list ListReplyEntry) (page n : nat) :
  let st0 := (mirror_new id (Some iname) name reliable, (answers, [])) in
  let st := mirror_run evs st0 in
  is_u32 id → negb (iname.[0] =? 0) = true → (strlen iname ≤ 144)%nat → mirror_history evs st0 →
  mi_state st.1 ≠ kMIRROR_FAILED → mi_state st.1 ≠ kMIRROR_DISCONNECTED → default true (head st.2.1) = true → 0 ≤ lost_us → is_u64 (lost_us + 60000000) →
  Forall list_entry_ok entries → zlen entries < 65536 → (1 ≤ page ≤ 16)%nat → (1 ≤ n)%nat → (length entries ≤ n * page)%nat →
  let down := mirror_step st (MvDisconnected lost_us) in
  lost_us + 1000000 ≤ mi_next_attempt_at_us down.1 ≤ lost_us + 60000000 ∧
  (mi_next_attempt_at_us down.1 ≤ now_us →
   let up := mirror_run [MvTick now_us; MvConnected] down in
   let listed := Nat.iter n (mirror_exchange entries page now_us) up in
   mirror_history [MvTick now_us; MvConnected] down ∧
   search_over iname (head (filter (named iname) entries)) now_us listed ∧
   (∀ e channel ack now', head (filter (named iname) entries) = Some e → is_u8 channel →
      wm_packet {| open_ack_status := OPEN_STATUS_OK; open_ack_channel := channel; open_ack_interface_id := lre_interface_id e |} ack →
      let self := (mirror_step listed (MvControl ack now')).1 in
      mi_state self = kMIRROR_PUMPING ∧ mi_interface_id self = lre_interface_id e ∧ mi_channel self = channel ∧ mi_can_write self = true) ∧
   (∀ entries' n' now', head (filter (named iname) entries) = None → mi_next_attempt_at_us listed.1 ≤ now' →
      Forall list_entry_ok entries' → zlen entries' < 65536 → (1 ≤ n')%nat → (length entries' ≤ n' * page)%nat →
      search_over iname (head (filter (named iname) entries')) now' (Nat.iter n' (mirror_exchange entries' page now') (mirror_step listed (MvTick now'))))).
Proof.
  intros st0 st Hid H0 Hlen Hh Hf Hd Hconn Hlost Hu Hok Hel Hp Hn Hcover down.
  destruct (mirror_named id iname name reliable H0 Hlen) as (Hbn0 & Ht0 & Hn0). destruct (mirror_new_wf id (Some iname) name reliable Hid) as [Hwf0 Hs0].
  destruct (mirror_inv_run st0 evs Hwf0 Hs0 Hh) as [Hwf Hcfg _ _]. fold st in Hwf, Hcfg. clearbody st. destruct st as [self w]. cbn [fst snd] in *.
  assert (mi_resolve_by_name self = true ∧ terminated (mi_interface_name self) ∧ cstr (mi_interface_name self) = cstr iname) as (Hbn & Ht & Hnm).
  { unfold mirror_config in Hcfg. injection Hcfg as -> _ _ ->. done. }
  clear Hcfg Hwf0 Hbn0 Ht0 Hn0 Hs0 Hh.
  pose proof (disconnected_wf self lost_us Hwf) as Hwfd. pose proof (disconnected_config self lost_us) as Hcd. unfold mirror_config in Hcd. injection Hcd as Hc1 _ _ Hc2.
  assert (mi_state down.1 = kMIRROR_DISCONNECTED ∧ mi_next_attempt_at_us down.1 = lost_us + current_delay_ms (mi_backoff self) * 1000) as [Hds Hdn].
  { subst down. cbn [mirror_step fst]. unfold transportOnDisconnected. rewrite (bool_decide_false (_ = kMIRROR_DISCONNECTED)), (bool_decide_false (_ = kMIRROR_FAILED)) by done.
    rewrite Hbn, andb_false_r. cbn [orb]. split; [done|]. cbn. unfold MICROSECONDS_PER_MILLISECOND. pose proof (mw_delay _ Hwf). apply u64_id. unfold is_u64 in Hu. lia. }
  split; [rewrite Hdn; pose proof (mw_delay _ Hwf); lia|]. intros Hnow. set (up := mirror_run [MvTick now_us; MvConnected] down). set (listed := Nat.iter n _ up).
  assert (mirror_step down (MvTick now_us) = (down.1 <| mi_state := kMIRROR_CONNECTING |>, (tail w.1, w.2))) as Htick.
  { subst down. cbn [mirror_step fst] in *. unfold MirrorApp_Tick. rewrite (proj2 (Z.ltb_ge _ _)) by done. rewrite Hds. rewrite bool_decide_true by done.
    unfold tryConnect. cbn [log_mirror_hub mh_connect]. by rewrite Hconn. }
  assert (searching iname 0 up) as Hup.
  { subst up. unfold mirror_run. cbn [foldl]. rewrite Htick. cbn [mirror_step]. unfold transportOnConnected. apply start_searching.
    - destruct Hwfd. by split.
    - by change (mi_resolve_by_name (transportOnDisconnected self lost_us) = true); rewrite Hc2.
    - by change (terminated (mi_interface_name (transportOnDisconnected self lost_us))); rewrite Hc1.
    - by change (cstr (mi_interface_name (transportOnDisconnected self lost_us)) = cstr iname); rewrite Hc1. }
  assert (search_over iname (head (filter (named iname) entries)) now_us listed) as Hov by (by apply search_loop).
  split; [|split; [done|split]].
  - cbn [mirror_history]. rewrite Htick. done.
  - intros e channel ack now' He Hch Hpk. rewrite He in Hov. by apply (search_granted iname e now_us).
  - intros entries' n' now' Hnone Hnow' Hok' Hel' Hn' Hcov'. rewrite Hnone in Hov. apply search_loop; try done. by apply (awaiting_searches iname now_us).
Qed.

Lemma mirror_comes_back_witness :
  let entry id (a i : string) := {| lre_interface_id := id; lre_agent_name := padded 128 (lit a); lre_interface_name := padded 16 (lit i) |} in
  let entries := [entry 4 "rig" "can0"; entry 7 "rig" "can1"]%string in
  let iname := lit "rig/can1" ++ [0] in
  let down := mirror_step (mirror_run [MvTick 0; MvConnected] (mirror_new 0 (Some iname) None false, ([], []))) (MvDisconnected 5) in
  mi_next_attempt_at_us down.1 = 1000005 ∧
  mi_interface_id (Nat.iter 2 (mirror_exchange entries 1 2000000) (mirror_run [MvTick 2000000; MvConnected] down)).1 = 7.
Proof.
  intros entry entries iname down. split; [vm_compute; reflexivity|].
  assert (Forall list_entry_ok entries) as Hok by (repeat constructor; vm_compute; congruence).
  assert (mirror_history [MvTick 0; MvConnected] (mirror_new 0 (Some iname) None false, ([], []))) as Hh by (split; [done|split; [vm_compute; reflexivity|done]]).
  destruct (mirror_comes_back 0 iname None false [] [MvTick 0; MvConnected] 5 2000000 entries 1 2 ltac:(vm_compute; intuition congruence) eq_refl ltac:(vm_compute; lia) Hh
    ltac:(vm_compute; congruence) ltac:(vm_compute; congruence) eq_refl ltac:(lia) ltac:(vm_compute; intuition congruence) Hok eq_refl ltac:(lia) ltac:(lia) (le_n 2)) as [_ H].
  assert (head (filter (named iname) entries) = Some (entry 7 "rig" "can1")%string) as He by (vm_compute; reflexivity).
  destruct (H ltac:(vm_compute; congruence)) as (_ & Hov & _). rewrite He in Hov. destruct Hov as [_ _ _ _ (_ & Hid & _)]. exact Hid.
Defined.
