(* ===== verification/AsciiFramer.v ===== *)
(** * Commands of a socketcand stream (src/socketcand/domain/ascii_framer.c)

    Bytes are pushed into a buffer of 512 and complete commands, the text
    between '<' and '>', are taken out.  [scan_text] is a reference that reads the
    stream one character at a time and knows no buffer. *)

From S2P Require Import Prelude Wire Codec.

Notation ASCII_FRAMER_BUFFER_SIZE := 512%nat (only parsing).
Definition LESS : Z := 60.
Definition GREATER : Z := 62.

Record AsciiFramer := { af_buffer : list Z; af_used : nat }.

Definition AsciiFramer_Reset (self : AsciiFramer) : AsciiFramer := {| af_buffer := af_buffer self; af_used := 0 |}.

(** [for(i=0; i<taken; i++) self->buffer[self->used++] = data[i];] *)
Fixpoint push_loop (self : AsciiFramer) (data : list Z) : AsciiFramer :=
  match data with
  | [] => self
  | c :: data' => push_loop {| af_buffer := <[af_used self := c]> (af_buffer self); af_used := S (af_used self) |} data'
  end.

Definition AsciiFramer_Push (self : AsciiFramer) (data : list Z) : nat * AsciiFramer :=
  let available := (ASCII_FRAMER_BUFFER_SIZE - af_used self)%nat in
  let taken := if Nat.ltb (length data) available then length data else available in
  (taken, push_loop self (take taken data)).

(** [while (i < size && text[i] != c) i++;] *)
Fixpoint seek (c : Z) (text : list Z) : nat :=
  match text with [] => 0 | x :: text' => if x =? c then 0 else S (seek c text') end.

(** [memmove(self->buffer, self->buffer + count, self->used - count); self->used -= count;] *)
Definition discard (count : nat) (self : AsciiFramer) : AsciiFramer := {|
  af_buffer := copy_at 0 (slice count (af_used self - count) (af_buffer self)) (af_buffer self); af_used := (af_used self - count)%nat |}.

(** The command copied out, without the NUL after it: its length goes with it. *)
Definition AsciiFramer_Next (self : AsciiFramer) (command_size : nat) : option (list Z) * AsciiFramer :=
  let start := seek LESS (take (af_used self) (af_buffer self)) in
  let self := if Nat.ltb 0 start then discard start self else self in
  if Nat.eqb (af_used self) 0 || negb (af_buffer self !!! 0%nat =? LESS) then (None, self)
  else
    let end_ := S (seek GREATER (slice 1 (af_used self - 1) (af_buffer self))) in
    if Nat.leb (af_used self) end_ then (None, self)
    else
      let inner_length := (end_ - 1)%nat in
      let inner_length := if Nat.leb command_size inner_length then (command_size - 1)%nat else inner_length in
      (Some (slice 1 inner_length (af_buffer self)), discard (end_ + 1) self).

(** ** What the buffer holds *)

Definition held (self : AsciiFramer) : list Z := take (af_used self) (af_buffer self).

Record framer_ok (self : AsciiFramer) : Prop := {
  fo_length : length (af_buffer self) = ASCII_FRAMER_BUFFER_SIZE;
  fo_used : (af_used self ≤ ASCII_FRAMER_BUFFER_SIZE)%nat;
}.

Lemma length_held self : framer_ok self → length (held self) = af_used self.
Proof. intros []. unfold held. rewrite length_take. lia. Qed.

Lemma reset_ok self : framer_ok self → framer_ok (AsciiFramer_Reset self) ∧ held (AsciiFramer_Reset self) = [].
Proof. intros []. split; [split; cbn; [done|lia]|done]. Qed.

Lemma push_loop_held self data : framer_ok self → (af_used self + length data ≤ 512)%nat → framer_ok (push_loop self data) ∧ held (push_loop self data) = held self ++ data.
Proof.
  revert self. induction data as [|c data IH]; intros self Hok Hl; cbn [push_loop]; [by rewrite app_nil_r|]. cbn in Hl.
  set (self' := {| af_buffer := _; af_used := _ |}). destruct Hok as [Hb Hu]. assert (framer_ok self') as Hok' by (split; [exact (eq_trans (length_insert _ _ _) Hb)|cbn; lia]).
  destruct (IH self' Hok' ltac:(cbn; lia)) as [H1 H2]. split; [done|]. rewrite H2. unfold held at 1. cbn [self' af_used af_buffer].
  rewrite (take_S_r _ _ c) by (apply list_lookup_insert_eq; lia). rewrite take_insert, decide_False by lia. by rewrite <- app_assoc.
Qed.

Lemma push_held self data : framer_ok self → let '(taken, self') := AsciiFramer_Push self data in
  taken = Nat.min (length data) (512 - af_used self) ∧ framer_ok self' ∧ held self' = held self ++ take taken data.
Proof.
  intros Hok. unfold AsciiFramer_Push. set (taken := if Nat.ltb _ _ then _ else _).
  assert (taken = Nat.min (length data) (512 - af_used self)) as Ht by (subst taken; destruct (Nat.ltb_spec (length data) (512 - af_used self)); lia).
  split; [done|]. apply push_loop_held; [done|]. destruct Hok. rewrite length_take. lia.
Qed.

Lemma discard_held count self : framer_ok self → (count ≤ af_used self)%nat → framer_ok (discard count self) ∧ held (discard count self) = drop count (held self).
Proof.
  intros [Hb Hu] Hc. unfold discard, held. cbn [af_used af_buffer].
  assert (length (slice count (af_used self - count) (af_buffer self)) = af_used self - count)%nat as Hs by (rewrite length_slice; lia).
  split; [split; [exact (eq_trans (length_copy_at _ _ _) Hb)|cbn; lia]|]. unfold copy_at. rewrite take_list_inserts by lia. unfold slice. by rewrite skipn_firstn_comm.
Qed.

(** ** Reading one character at a time *)

(** Between commands, or after a '<' and what followed it. *)
Inductive scan_state := Outside | Inside (text : list Z).

(** Text that would fill the buffer without an end is given up at the next character. *)
Definition scan_limit : nat := 511.

Definition scan_char (a : scan_state) (c : Z) : option (list Z) * scan_state :=
  let outside := (None, if c =? LESS then Inside [] else Outside) in
  match a with
  | Outside => outside
  | Inside text => if Nat.leb scan_limit (length text) then outside else if c =? GREATER then (Some text, Outside) else (None, Inside (text ++ [c]))
  end.

Fixpoint scan_text (a : scan_state) (s : list Z) : list (list Z) * scan_state :=
  match s with
  | [] => ([], a)
  | c :: s' => let '(out, a) := scan_char a c in let '(outs, a) := scan_text a s' in (option_list out ++ outs, a)
  end.

Lemma scan_text_app a s1 s2 : scan_text a (s1 ++ s2) = let '(outs1, a1) := scan_text a s1 in let '(outs2, a2) := scan_text a1 s2 in (outs1 ++ outs2, a2).
Proof.
  revert a. induction s1 as [|c s1 IH]; intros a; cbn [app scan_text]; [by destruct (scan_text a s2)|]. destruct (scan_char a c) as [out a']. rewrite IH.
  destruct (scan_text a' s1) as [outs1 a1]. destruct (scan_text a1 s2) as [outs2 a2]. by rewrite app_assoc.
Qed.

(** The text a state stands for. *)
Definition pending_text (a : scan_state) : list Z := match a with Outside => [] | Inside text => LESS :: text end.
Definition scan_ok (a : scan_state) : Prop := (length (pending_text a) ≤ 512)%nat ∧ match a with Inside text => GREATER ∉ text | Outside => True end.

Lemma scan_char_ok a c : scan_ok a → scan_ok (scan_char a c).2.
Proof.
  unfold scan_ok, scan_char. destruct a as [|text]; cbn [pending_text length].
  - intros _. destruct (c =? LESS); cbn; split; try lia; try done. apply not_elem_of_nil.
  - intros [Hl Hn]. destruct (Nat.leb_spec scan_limit (length text)) as [Hf|Hf]; [destruct (c =? LESS); cbn; split; try lia; try done; apply not_elem_of_nil|].
    destruct (Z.eqb_spec c GREATER) as [|Hc]; cbn; [split; [lia|done]|]. unfold scan_limit in Hf. rewrite length_app. cbn. split; [lia|].
    intros [?|?%list_elem_of_singleton]%elem_of_app; congruence.
Qed.

Lemma scan_text_ok a s : scan_ok a → scan_ok (scan_text a s).2.
Proof.
  revert a. induction s as [|c s IH]; intros a Ha; cbn; [done|]. pose proof (scan_char_ok a c Ha) as Hc. destruct (scan_char a c) as [out a']. specialize (IH a' Hc).
  by destruct (scan_text a' s).
Qed.

(** Text without an end that still fits is held back, character by character. *)
Lemma scan_inside text s : GREATER ∉ s → (length (text ++ s) ≤ 511)%nat → scan_text (Inside text) s = ([], Inside (text ++ s)).
Proof.
  revert text. induction s as [|c s IH]; intros text Hn Hl; cbn [scan_text scan_char]; [by rewrite app_nil_r|]. rewrite length_app in Hl. cbn in Hl. rewrite not_elem_of_cons in Hn.
  rewrite (proj2 (Nat.leb_gt _ _)) by (unfold scan_limit; lia). rewrite (proj2 (Z.eqb_neq c GREATER)) by naive_solver.
  rewrite IH; [by rewrite <- app_assoc|naive_solver|]. rewrite !length_app. cbn. lia.
Qed.

Lemma scan_outside s : LESS ∉ s → scan_text Outside s = ([], Outside).
Proof. induction s as [|c s IH]; [done|]. rewrite not_elem_of_cons. intros [Hc Hs]. cbn. rewrite (proj2 (Z.eqb_neq c LESS)) by congruence. by rewrite IH. Qed.

Lemma scan_pending a s : scan_ok a → (length (pending_text a ++ s) ≤ 512)%nat → scan_text Outside (pending_text a ++ s) = scan_text a s.
Proof.
  intros [Hl Hn] Hs. destruct a as [|text]; [done|]. cbn [pending_text app scan_text scan_char] in *. rewrite Z.eqb_refl. rewrite scan_text_app. cbn in Hs. rewrite length_app in Hs.
  rewrite scan_inside by (done || cbn; lia). cbn [app]. by destruct (scan_text (Inside text) s).
Qed.

Lemma seek_spec c s : (seek c s ≤ length s)%nat ∧ c ∉ take (seek c s) s ∧ (s !! seek c s = Some c ∨ seek c s = length s).
Proof.
  induction s as [|x s (IH1 & IH2 & IH3)]; cbn; [split; [lia|]; split; [apply not_elem_of_nil|by right]|]. destruct (Z.eqb_spec x c) as [->|Hx]; cbn.
  - split; [lia|]. split; [apply not_elem_of_nil|by left].
  - split; [lia|]. split; [rewrite not_elem_of_cons; naive_solver|]. destruct IH3 as [IH3|IH3]; [by left|right; lia].
Qed.

Lemma slice_held self k n : framer_ok self → (k + n ≤ af_used self)%nat → slice k n (af_buffer self) = take n (drop k (held self)).
Proof. intros [] H. unfold slice, held. rewrite skipn_firstn_comm, take_take. f_equal. lia. Qed.

Lemma discard_start self k : framer_ok self → (k ≤ af_used self)%nat → let self' := if Nat.ltb 0 k then discard k self else self in framer_ok self' ∧ held self' = drop k (held self).
Proof. intros Hok Hk. destruct (Nat.ltb_spec 0 k); [by apply discard_held|]. by replace k with 0%nat by lia. Qed.

Lemma scan_command text rest : GREATER ∉ text → (length text < 511)%nat →
  scan_text Outside (LESS :: text ++ GREATER :: rest) = (text :: (scan_text Outside rest).1, (scan_text Outside rest).2).
Proof.
  intros Hn Hl. cbn [scan_text scan_char]. rewrite Z.eqb_refl. rewrite scan_text_app, scan_inside by (done || (cbn; lia)). cbn [app scan_text scan_char].
  rewrite (proj2 (Nat.leb_gt _ _)) by (unfold scan_limit; lia). rewrite Z.eqb_refl. by destruct (scan_text Outside rest).
Qed.

(** One call takes out the next command of the reference, cut to the caller's
    buffer, or none, and then what is held is what the reference holds back. *)
Lemma next_scan self size : framer_ok self → (1 ≤ size)%nat →
  let '(command, self') := AsciiFramer_Next self size in
  framer_ok self' ∧
  match command with
  | Some text => ∃ whole, text = take (size - 1) whole ∧ (af_used self' < af_used self)%nat ∧
      scan_text Outside (held self) = (whole :: (scan_text Outside (held self')).1, (scan_text Outside (held self')).2)
  | None => ∃ a, scan_ok a ∧ scan_text Outside (held self) = ([], a) ∧ held self' = pending_text a
  end.
Proof.
  intros Hok Hsize. unfold AsciiFramer_Next. change (take (af_used self) (af_buffer self)) with (held self). pose proof (length_held self Hok) as Hlen.
  destruct (seek_spec LESS (held self)) as (Hk1 & Hk2 & Hk3). set (k := seek LESS (held self)) in *. rewrite Hlen in Hk1, Hk3.
  destruct (discard_start self k Hok Hk1) as [Hok1 Hheld1]. set (self1 := if Nat.ltb 0 k then _ else _) in *. clearbody self1.
  assert (scan_text Outside (held self) = scan_text Outside (held self1)) as Hskip.
  { rewrite <- (take_drop k (held self)) at 1. rewrite scan_text_app, (scan_outside _ Hk2), Hheld1. by destruct (scan_text Outside _). }
  rewrite Hskip. pose proof (length_held self1 Hok1) as Hlen1. assert (af_used self1 ≤ af_used self)%nat as Hle by (rewrite <- Hlen1, Hheld1, length_drop; lia).
  destruct (held self1) as [|c t] eqn:Ht.
  { cbn in Hlen1. rewrite <- Hlen1. cbn [Nat.eqb orb]. split; [done|]. exists Outside. split; [split; [cbn; lia|done]|]. by rewrite Ht. }
  assert (c = LESS) as ->.
  { destruct Hk3 as [Hk3|Hk3]; [|rewrite drop_ge in Hheld1 by lia; done]. rewrite (drop_S _ _ _ Hk3) in Hheld1. by injection Hheld1. }
  cbn in Hlen1. assert (af_buffer self1 !!! 0%nat = LESS) as ->.
  { apply list_lookup_total_correct. unfold held in Ht. destruct (af_buffer self1) as [|x b]; [by rewrite take_nil in Ht|]. rewrite <- Hlen1 in Ht. cbn in Ht. by injection Ht as ->. }
  replace (Nat.eqb (af_used self1) 0) with false by (by rewrite <- Hlen1). cbn [orb]. rewrite Z.eqb_refl. cbn [negb].
  rewrite (slice_held self1 1 (af_used self1 - 1)) by (done || lia). rewrite Ht. cbn [drop]. rewrite (take_ge t) by lia.
  destruct (seek_spec GREATER t) as (He1 & He2 & He3). set (e := seek GREATER t) in *. destruct Hok1 as [Hb1 Hu1]. destruct (Nat.leb_spec (af_used self1) (S e)) as [Hend|Hend].
  - assert (e = length t) as He by lia. rewrite take_ge in He2 by lia. split; [done|]. exists (Inside t). cbn [pending_text]. rewrite Ht. split_and!; [split; [cbn [pending_text length]; lia|done]| |done].
    cbn [scan_text scan_char]. rewrite Z.eqb_refl. by rewrite scan_inside by (done || cbn [app]; lia).
  - destruct He3 as [He3|He3]; [|lia]. assert (t = take e t ++ GREATER :: drop (S e) t) as Hsplit by (by rewrite take_drop_middle).
    destruct (discard_held (S e + 1) self1 ltac:(by split) ltac:(lia)) as [Hok2 Hheld2]. split; [done|]. exists (take e t). rewrite Hheld2, Ht.
    replace (S e + 1)%nat with (S (S e)) by lia. cbn [drop]. split_and!.
    + rewrite take_take. replace (S e - 1)%nat with e by lia. destruct (Nat.leb_spec size e); (rewrite slice_held by (done || lia)); rewrite Ht; cbn [drop]; f_equal; lia.
    + cbn [discard af_used]. lia.
    + rewrite Hsplit at 1. apply scan_command; [done|]. rewrite length_take. lia.
Qed.
