(* ===== verification/SocketcandCodec.v ===== *)
(** * The socketcand text protocol (src/socketcand/domain/socketcand_codec.c)

    Commands are parsed from their text, the lines sent back are rendered into a
    buffer of the caller.  A text is the list of its characters; the cursor of
    the tokenizer is the text that is left.  A line that would not fit its buffer
    is not rendered and has no characters.  The second part shows what the
    protocol promises. *)

From Stdlib Require Import String.
From S2P Require Import Prelude CString Wire Codec FrameMessage TxnMessage TxnStepsMessage IfconfigMessage ControlPlane StepRing IsotpLink TransactionRunner.

Notation SOCKETCAND_BUS_NAME_SIZE := 160%nat (only parsing).
Definition SOCKETCAND_DLC_MAX : Z := 64.
Notation HEX_DIGITS_U32_MAX := 8%nat (only parsing).
Notation DEC_DIGITS_U64_MAX := 20%nat (only parsing).
Notation USEC_DIGITS := 6%nat (only parsing).
Definition MICROSECONDS_PER_SECOND : Z := 1000000.
Notation BITTIMING_VALUES := 8%nat (only parsing).
Notation CONTROLMODE_VALUES := 3%nat (only parsing).
Definition REASON_SEPARATOR : list Z := lit ": ".
Definition INTERFACE_CTRLMODE_LOOPBACK : Z := Z.shiftl 1 0.
Definition INTERFACE_CTRLMODE_LISTEN_ONLY : Z := Z.shiftl 1 1.
Definition INTERFACE_CTRLMODE_TRIPLE_SAMPLING : Z := Z.shiftl 1 2.
Definition CONTROLMODE_FLAGS : list Z := [INTERFACE_CTRLMODE_LISTEN_ONLY; INTERFACE_CTRLMODE_LOOPBACK; INTERFACE_CTRLMODE_TRIPLE_SAMPLING].

Inductive TSOCKETCAND_COMMAND :=
| kSOCKETCAND_COMMAND_UNKNOWN | kSOCKETCAND_COMMAND_OPEN | kSOCKETCAND_COMMAND_RAWMODE | kSOCKETCAND_COMMAND_BCMMODE | kSOCKETCAND_COMMAND_SEND
| kSOCKETCAND_COMMAND_ECHO | kSOCKETCAND_COMMAND_BITTIMING | kSOCKETCAND_COMMAND_CONTROLMODE.

Record SocketcandCommand := { sc_kind : TSOCKETCAND_COMMAND; sc_bus : list Z; sc_frame : FrameMessage; sc_settings : InterfaceSettings }.

Definition SocketcandCommand_zero : SocketcandCommand := {|
  sc_kind := kSOCKETCAND_COMMAND_UNKNOWN; sc_bus := replicate SOCKETCAND_BUS_NAME_SIZE 0; sc_frame := frame_zero; sc_settings := settings0 |}.

#[export] Instance InterfaceSettings_settable : Settable InterfaceSettings := λ s, {|
  is_fields := is_fields s; is_bitrate := is_bitrate s; is_data_bitrate := is_data_bitrate s; is_sample_point := is_sample_point s;
  is_data_sample_point := is_data_sample_point s; is_ctrlmode_mask := is_ctrlmode_mask s; is_ctrlmode_flags := is_ctrlmode_flags s;
  is_restart_ms := is_restart_ms s; is_txqueuelen := is_txqueuelen s; is_link_up := is_link_up s; is_can_state := is_can_state s;
  is_termination := is_termination s; is_bit_timing := is_bit_timing s; is_data_bit_timing := is_data_bit_timing s |}.

(** ** Tokens *)

Definition is_blank (c : Z) : bool := (c =? 32) || (c =? 9).

(** The two loops that move the cursor. *)
Fixpoint skip_blanks (text : list Z) : list Z := match text with c :: text' => if is_blank c then skip_blanks text' else text | [] => [] end.
Fixpoint take_word (text : list Z) : list Z * list Z :=
  match text with
  | c :: text' => if is_blank c then ([], text) else let '(word, rest) := take_word text' in (c :: word, rest)
  | [] => ([], [])
  end.

(** The token, empty at the end of the text, and the text left. *)
Definition nextToken (text : list Z) : list Z * list Z := take_word (skip_blanks text).

Definition tokenEquals (token : list Z) (literal : string) : bool := bool_decide (token = lit literal).

Definition hexNibble (c : Z) : option Z :=
  if (c >=? 48) && (c <=? 57) then Some (c - 48)
  else if (c >=? 97) && (c <=? 102) then Some (c - 97 + 10)
  else if (c >=? 65) && (c <=? 70) then Some (c - 65 + 10)
  else None.

(** [for(i=0; i<token_length; i++)] of the two parsers; the accumulator is 32 bits wide. *)
Fixpoint hex_loop (accumulator : Z) (token : list Z) : option Z :=
  match token with
  | [] => Some accumulator
  | c :: token' => match hexNibble c with Some nibble => hex_loop (Z.lor (u32 (Z.shiftl accumulator 4)) nibble) token' | None => None end
  end.

Fixpoint decimal_loop (accumulator : Z) (token : list Z) : option Z :=
  match token with
  | [] => Some accumulator
  | c :: token' => if (c <? 48) || (c >? 57) then None else decimal_loop (u32 (u32 (accumulator * 10) + (c - 48))) token'
  end.

Definition parseHex (token : list Z) : option Z := if Nat.eqb (length token) 0 then None else hex_loop 0 token.
Definition parseDecimal (token : list Z) : option Z := if Nat.eqb (length token) 0 then None else decimal_loop 0 token.

(** ** Commands *)

(** [for(i=0; i<dlc; i++)]: the data bytes and the text left. *)
Fixpoint data_loop (dlc : nat) (text : list Z) : option (list Z * list Z) :=
  match dlc with
  | O => Some ([], text)
  | S dlc' =>
      let '(token, text) := nextToken text in
      if Nat.eqb (length token) 0 || Nat.ltb 2 (length token) then None
      else
        match parseHex token with
        | Some byte_value =>
            if byte_value >? 255 then None
            else match data_loop dlc' text with Some (bytes, text) => Some (u8 byte_value :: bytes, text) | None => None end
        | None => None
        end
  end.

Definition parseSend (text : list Z) : option FrameMessage :=
  let '(token, text) := nextToken text in
  if Nat.eqb (length token) 0 || Nat.ltb HEX_DIGITS_U32_MAX (length token) then None
  else
    match parseHex token with
    | None => None
    | Some can_id =>
        let id := Z.land can_id FRAME_CAN_ID_MASK in
        let id := if Nat.ltb 3 (length token) || (can_id >? FRAME_CAN_ID_SFF_MAX) then Z.lor id FRAME_CAN_ID_FLAG_EFF else id in
        let '(token, text) := nextToken text in
        if Nat.eqb (length token) 0 then None
        else
          match parseDecimal token with
          | None => None
          | Some dlc =>
              if dlc >? SOCKETCAND_DLC_MAX then None
              else
                match data_loop (Z.to_nat dlc) text with
                | None => None
                | Some (payload, text) =>
                    let '(token, text) := nextToken text in
                    if negb (Nat.eqb (length token) 0) then None
                    else Some {| frame_can_id := id; frame_timestamp_us := 0; frame_channel := 0; frame_payload_length := dlc;
                                 frame_flags := if dlc >? FRAME_PAYLOAD_MAX_CLASSIC then FRAME_FLAG_FD else 0; frame_route_flags := 0;
                                 frame_payload := copy_at 0 payload (frame_payload frame_zero) |}
                end
          end
    end.

Fixpoint parseDecimals (count : nat) (text : list Z) : option (list Z * list Z) :=
  match count with
  | O => Some ([], text)
  | S count' =>
      let '(token, text) := nextToken text in
      if Nat.eqb (length token) 0 then None
      else
        match parseDecimal token with
        | Some value => match parseDecimals count' text with Some (values, text) => Some (value :: values, text) | None => None end
        | None => None
        end
  end.

Definition with_field (settings : InterfaceSettings) (field : Z) : InterfaceSettings := settings <| is_fields := Z.lor (is_fields settings) field |>.

(** The values in the order of [TBITTIMING_VALUE]. *)
Definition bitTimingSettings (values : list Z) (settings : InterfaceSettings) : InterfaceSettings :=
  let settings := if negb (values.[0] =? 0) then with_field settings INTERFACE_FIELD_BITRATE <| is_bitrate := values.[0] |> else settings in
  let settings := if negb (values.[1] =? 0) then with_field settings INTERFACE_FIELD_SAMPLE_POINT <| is_sample_point := u16 (values.[1]) |> else settings in
  let timing := {| bt_tq := values.[2]; bt_prop_seg := values.[3]; bt_phase_seg1 := values.[4]; bt_phase_seg2 := values.[5]; bt_sjw := values.[6]; bt_brp := values.[7] |} in
  let settings := settings <| is_bit_timing := timing |> in
  if negb (Z.lor (Z.lor (Z.lor (Z.lor (Z.lor (bt_tq timing) (bt_prop_seg timing)) (bt_phase_seg1 timing)) (bt_phase_seg2 timing)) (bt_sjw timing)) (bt_brp timing) =? 0)
  then with_field settings INTERFACE_FIELD_BIT_TIMING else settings.

(** [for(i=0; i<CONTROLMODE_VALUES; i++)] *)
Fixpoint control_loop (values flags : list Z) (settings : InterfaceSettings) : option InterfaceSettings :=
  match values, flags with
  | value :: values', flag :: flags' =>
      if value >? 1 then None
      else
        let settings := settings <| is_ctrlmode_mask := Z.lor (is_ctrlmode_mask settings) flag |> in
        control_loop values' flags' (if value =? 1 then settings <| is_ctrlmode_flags := Z.lor (is_ctrlmode_flags settings) flag |> else settings)
  | _, _ => Some settings
  end.

Definition controlModeSettings (values : list Z) (settings : InterfaceSettings) : option InterfaceSettings :=
  control_loop values CONTROLMODE_FLAGS (settings <| is_fields := INTERFACE_FIELD_CTRLMODE |>).

(** [memcpy(command->bus, bus, bus_length); command->bus[bus_length] = 0;] *)
Definition bus_field (bus : list Z) : list Z := <[length bus := 0]> (copy_at 0 bus (sc_bus SocketcandCommand_zero)).

Definition parseBusCommand (bus : list Z) (text : list Z) : option SocketcandCommand :=
  if Nat.leb SOCKETCAND_BUS_NAME_SIZE (length bus) then None
  else
    let '(token, text) := nextToken text in
    if tokenEquals token "B" then
      match parseDecimals BITTIMING_VALUES text with
      | Some (values, _) => Some {| sc_kind := kSOCKETCAND_COMMAND_BITTIMING; sc_bus := bus_field bus; sc_frame := frame_zero; sc_settings := bitTimingSettings values settings0 |}
      | None => None
      end
    else if tokenEquals token "C" then
      match parseDecimals CONTROLMODE_VALUES text with
      | Some (values, _) =>
          match controlModeSettings values settings0 with
          | Some settings => Some {| sc_kind := kSOCKETCAND_COMMAND_CONTROLMODE; sc_bus := bus_field bus; sc_frame := frame_zero; sc_settings := settings |}
          | None => None
          end
      | None => None
      end
    else None.

Definition of_kind (kind : TSOCKETCAND_COMMAND) : SocketcandCommand := {|
  sc_kind := kind; sc_bus := sc_bus SocketcandCommand_zero; sc_frame := frame_zero; sc_settings := settings0 |}.

(** [None] where the function returns false: its caller ignores the command. *)
Definition SocketcandCodec_Parse (text : list Z) : option SocketcandCommand :=
  let '(token, rest) := nextToken text in
  if Nat.eqb (length token) 0 then None
  else if tokenEquals token "open" then
    let '(token, _) := nextToken rest in
    if Nat.eqb (length token) 0 || Nat.leb SOCKETCAND_BUS_NAME_SIZE (length token) then None
    else Some {| sc_kind := kSOCKETCAND_COMMAND_OPEN; sc_bus := bus_field token; sc_frame := frame_zero; sc_settings := settings0 |}
  else if tokenEquals token "rawmode" then Some (of_kind kSOCKETCAND_COMMAND_RAWMODE)
  else if tokenEquals token "bcmmode" then Some (of_kind kSOCKETCAND_COMMAND_BCMMODE)
  else if tokenEquals token "echo" then Some (of_kind kSOCKETCAND_COMMAND_ECHO)
  else if tokenEquals token "send" then
    match parseSend rest with
    | Some frame => Some {| sc_kind := kSOCKETCAND_COMMAND_SEND; sc_bus := sc_bus SocketcandCommand_zero; sc_frame := frame; sc_settings := settings0 |}
    | None => None
    end
  else parseBusCommand token rest.

(** ** Lines *)

(** Text added to a line in a buffer of [out_size] characters, NUL included. *)
Definition append (out_size : nat) (out : option (list Z)) (text : list Z) : option (list Z) :=
  match out with
  | Some line => if Nat.leb out_size (length line + length text) then None else Some (line ++ text)
  | None => None
  end.

(** The characters written, none where the function returns 0. *)
Definition rendered (out : option (list Z)) : list Z := default [] out.

Definition SocketcandCodec_RenderGreeting (out_size : nat) : list Z := rendered (append out_size (Some []) (lit "< hi >")).
Definition SocketcandCodec_RenderOk (out_size : nat) : list Z := rendered (append out_size (Some []) (lit "< ok >")).
Definition SocketcandCodec_RenderEcho (out_size : nat) : list Z := rendered (append out_size (Some []) (lit "< echo >")).

Definition SocketcandCodec_RenderError (out_size : nat) (detail : list Z) : list Z :=
  let out := append out_size (Some []) (lit "< error ") in
  let out := append out_size out (cstr detail) in
  rendered (append out_size out (lit " >")).

Definition SocketcandCodec_RenderReasonedError (out_size : nat) (reason detail : list Z) : list Z :=
  let out := append out_size (Some []) (lit "< error ") in
  let out := append out_size out (cstr reason) in
  let out := if negb (detail.[0] =? 0) then append out_size out REASON_SEPARATOR else out in
  let out := append out_size out (cstr detail) in
  rendered (append out_size out (lit " >")).

Definition hex_digit (n : Z) : Z := (lit "0123456789ABCDEF").[n].

(** The digits from the lowest up, as the loops leave them in [reversed]. *)
Fixpoint hex_digits (fuel : nat) (value : Z) : list Z :=
  match fuel with
  | O => []
  | S fuel' => if value >? 0 then hex_digit (Z.land value 15) :: hex_digits fuel' (Z.shiftr value 4) else []
  end.

Fixpoint dec_digits (fuel : nat) (value : Z) : list Z :=
  match fuel with
  | O => []
  | S fuel' => if value >? 0 then (48 + value mod 10) :: dec_digits fuel' (value / 10) else []
  end.

Definition formatHexUpper (value : Z) : list Z := if value =? 0 then [48] else reverse (hex_digits HEX_DIGITS_U32_MAX value).
Definition formatDecimal (value : Z) : list Z := if value =? 0 then [48] else reverse (dec_digits DEC_DIGITS_U64_MAX value).

(** [for(i=0; i<width; i++) out[width - 1 - i] = ...]: from the last digit to the first. *)
Fixpoint formatDecimalPadded (value : Z) (width : nat) : list Z :=
  match width with O => [] | S width' => formatDecimalPadded (value / 10) width' ++ [48 + value mod 10] end.

Definition byte_text (b : Z) : list Z := [hex_digit (Z.land (Z.shiftr b 4) 15); hex_digit (Z.land b 15)].

Definition SocketcandCodec_RenderFrame (out_size : nat) (frame : FrameMessage) : list Z :=
  let seconds := frame_timestamp_us frame / MICROSECONDS_PER_SECOND in
  let microseconds := frame_timestamp_us frame mod MICROSECONDS_PER_SECOND in
  let out := append out_size (Some []) (lit "< frame ") in
  let out := append out_size out (formatHexUpper (Z.land (frame_can_id frame) FRAME_CAN_ID_MASK)) in
  let out := append out_size out (lit " ") in
  let out := append out_size out (formatDecimal seconds) in
  let out := append out_size out (lit ".") in
  let out := append out_size out (formatDecimalPadded microseconds USEC_DIGITS) in
  let out := append out_size out (lit " ") in
  let out := foldl (λ out b, append out_size out (byte_text b)) out (take (Z.to_nat (frame_payload_length frame)) (frame_payload frame)) in
  rendered (append out_size out (lit " >")).

(** * What the socketcand text protocol promises

    Numbers and bytes survive being written and read, a [send] command means the
    frame it was written from, and a line for a received frame always fits. *)
(** ** Numbers *)

Lemma hex_digit_range n : 0 ≤ n < 16 → is_blank (hex_digit n) = false ∧ hexNibble (hex_digit n) = Some n.
Proof.
  intros Hn. assert (n ∈ [0;1;2;3;4;5;6;7;8;9;10;11;12;13;14;15]) as Hin by (rewrite !elem_of_cons; lia).
  repeat (apply elem_of_cons in Hin as [->|Hin]; [by vm_compute|]). by apply elem_of_nil in Hin.
Qed.

Lemma hex_loop_app a s1 s2 : hex_loop a (s1 ++ s2) = hex_loop a s1 ≫= λ a', hex_loop a' s2.
Proof. revert a. induction s1 as [|c s1 IH]; intros a; [done|]. cbn. destruct (hexNibble c); [apply IH|done]. Qed.

Lemma decimal_loop_app a s1 s2 : decimal_loop a (s1 ++ s2) = decimal_loop a s1 ≫= λ a', decimal_loop a' s2.
Proof. revert a. induction s1 as [|c s1 IH]; intros a; [done|]. cbn. destruct (_ || _); [done|apply IH]. Qed.

Lemma nibble_joined v : 0 ≤ v < 4294967296 → Z.lor (u32 (Z.shiftl (Z.shiftr v 4) 4)) (Z.land v 15) = v.
Proof.
  intros Hv. rewrite Z.shiftr_div_pow2, Z.shiftl_mul_pow2 by lia. change (2 ^ 4) with 16. change 15 with (Z.ones 4). rewrite Z.land_ones by lia. change (2 ^ 4) with 16.
  pose proof (Z.div_mod v 16 ltac:(lia)). pose proof (Z.mod_pos_bound v 16 ltac:(lia)). rewrite u32_id by lia.
  replace (v / 16 * 16) with (Z.shiftl (v / 16) 4) by (rewrite Z.shiftl_mul_pow2 by lia; done). rewrite Z.lor_comm, lor_shiftl_add by (change (2 ^ 4) with 16; lia).
  change (2 ^ 4) with 16. lia.
Qed.

Lemma hex_digits_read n v : 0 ≤ v < 16 ^ Z.of_nat n → v < 4294967296 → hex_loop 0 (reverse (hex_digits n v)) = Some v.
Proof.
  revert v. induction n as [|n IH]; intros v Hv Hu; [cbn in *; f_equal; lia|]. cbn [hex_digits]. destruct (Z.gtb_spec v 0) as [Hp|Hp]; [|cbn; f_equal; lia].
  rewrite reverse_cons, hex_loop_app. assert (Z.shiftr v 4 = v / 16) as Hs by (rewrite Z.shiftr_div_pow2 by lia; done).
  rewrite IH; [|rewrite Hs; rewrite Nat2Z.inj_succ, Z.pow_succ_r in Hv by lia; split; [apply Z.div_pos; lia|apply Z.div_lt_upper_bound; lia]|rewrite Hs; apply Z.div_lt_upper_bound; lia].
  cbn [mbind option_bind hex_loop]. assert (0 ≤ Z.land v 15 < 16) as Hl by (change 15 with (Z.ones 4); rewrite Z.land_ones by lia; apply Z.mod_pos_bound; lia).
  rewrite (proj2 (hex_digit_range _ Hl)). by rewrite nibble_joined by lia.
Qed.

Lemma hex_digits_word n v : Forall (λ c, is_blank c = false) (hex_digits n v).
Proof.
  revert v. induction n as [|n IH]; intros v; cbn; [constructor|]. destruct (v >? 0); constructor; [|apply IH]. apply hex_digit_range. change 15 with (Z.ones 4). rewrite Z.land_ones by lia. apply Z.mod_pos_bound. lia.
Qed.

Lemma length_hex_digits n v : (length (hex_digits n v) ≤ n)%nat ∧ (0 < v → n ≠ 0%nat → hex_digits n v ≠ []).
Proof.
  split.
  - revert v. induction n as [|n IH]; intros v; cbn; [done|]. destruct (v >? 0); cbn; [specialize (IH (Z.shiftr v 4)); lia|lia].
  - intros Hv Hn. destruct n; [done|]. cbn. by rewrite (proj2 (Z.gtb_lt v 0)).
Qed.

(** A word is what the tokenizer takes for one: not empty, no blanks. *)
Definition word (s : list Z) : Prop := s ≠ [] ∧ Forall (λ c, is_blank c = false) s.

Lemma word_reverse s : s ≠ [] → Forall (λ c, is_blank c = false) s → word (reverse s).
Proof. intros Hs Hf. split; [|by apply Forall_reverse]. intros H%(f_equal reverse). rewrite reverse_involutive in H. done. Qed.

Lemma formatHex_word v : 0 ≤ v → word (formatHexUpper v).
Proof.
  intros Hv. unfold formatHexUpper. destruct (Z.eqb_spec v 0); [split; [done|by repeat constructor]|]. apply word_reverse; [apply length_hex_digits; lia|apply hex_digits_word].
Qed.

Lemma formatHex_read v : is_u32 v → parseHex (formatHexUpper v) = Some v.
Proof.
  intros Hv. pose proof (formatHex_word v ltac:(unfold is_u32 in Hv; lia)) as [Hne _]. unfold parseHex. destruct (Nat.eqb_spec (length (formatHexUpper v)) 0) as [Hz|_]; [by apply length_zero_iff_nil in Hz|].
  unfold formatHexUpper. destruct (Z.eqb_spec v 0) as [->|]; [done|]. unfold is_u32 in Hv. apply hex_digits_read; [|lia]. change (16 ^ Z.of_nat 8) with 4294967296. lia.
Qed.

Lemma dec_digits_read n v : 0 ≤ v < 10 ^ Z.of_nat n → v < 4294967296 → decimal_loop 0 (reverse (dec_digits n v)) = Some v.
Proof.
  revert v. induction n as [|n IH]; intros v Hv Hu; [cbn in *; f_equal; lia|]. cbn [dec_digits]. destruct (Z.gtb_spec v 0) as [Hp|Hp]; [|cbn; f_equal; lia].
  rewrite reverse_cons, decimal_loop_app. rewrite IH; [|rewrite Nat2Z.inj_succ, Z.pow_succ_r in Hv by lia; split; [apply Z.div_pos; lia|apply Z.div_lt_upper_bound; lia]|apply Z.div_lt_upper_bound; lia].
  cbn [mbind option_bind decimal_loop]. pose proof (Z.mod_pos_bound v 10 ltac:(lia)). pose proof (Z.div_mod v 10 ltac:(lia)).
  destruct (Z.ltb_spec (48 + v mod 10) 48); [lia|]. destruct (Z.gtb_spec (48 + v mod 10) 57); [lia|]. cbn [orb]. f_equal. rewrite (u32_id (v / 10 * 10)), u32_id by lia. lia.
Qed.

Lemma dec_digits_word n v : Forall (λ c, is_blank c = false) (dec_digits n v).
Proof.
  revert v. induction n as [|n IH]; intros v; cbn [dec_digits]; [constructor|]. destruct (v >? 0); constructor; [|apply IH]. pose proof (Z.mod_pos_bound v 10 ltac:(lia)). unfold is_blank.
  apply orb_false_iff. split; apply Z.eqb_neq; lia.
Qed.

Lemma formatDecimal_word v : 0 ≤ v → word (formatDecimal v).
Proof.
  intros Hv. unfold formatDecimal. destruct (Z.eqb_spec v 0); [split; [done|by repeat constructor]|]. apply word_reverse; [|apply dec_digits_word]. cbn [dec_digits]. by rewrite (proj2 (Z.gtb_lt v 0)) by lia.
Qed.

Lemma formatDecimal_read v : is_u32 v → parseDecimal (formatDecimal v) = Some v.
Proof.
  intros Hv. pose proof (formatDecimal_word v ltac:(unfold is_u32 in Hv; lia)) as [Hne _]. unfold parseDecimal. destruct (Nat.eqb_spec (length (formatDecimal v)) 0) as [Hz|_]; [by apply length_zero_iff_nil in Hz|].
  unfold formatDecimal. destruct (Z.eqb_spec v 0) as [->|]; [done|]. unfold is_u32 in Hv. apply dec_digits_read; [|lia]. change (10 ^ Z.of_nat 20) with 100000000000000000000. lia.
Qed.

(** ** Words of a text *)

Lemma take_word_app s rest : Forall (λ c, is_blank c = false) s → match rest with [] => True | c :: _ => is_blank c = true end → take_word (s ++ rest) = (s, rest).
Proof.
  intros Hs Hr. induction Hs as [|c s Hc _ IH]; cbn [app take_word]; [|by rewrite Hc, IH]. destruct rest as [|c rest]; [done|]. cbn. by rewrite Hr.
Qed.

(** The tokenizer takes the words of a text one by one. *)
Lemma nextToken_word s rest : word s → match rest with [] => True | c :: _ => is_blank c = true end → nextToken (32 :: s ++ rest) = (s, rest).
Proof.
  intros [Hne Hs] Hr. unfold nextToken. cbn [skip_blanks]. change (is_blank 32) with true. cbv iota. destruct s as [|c s]; [done|]. inversion Hs as [|? ? Hc Hs']; subst. cbn [app skip_blanks]. rewrite Hc.
  by apply (take_word_app (c :: s)).
Qed.

Lemma byte_text_word b : is_u8 b → word (byte_text b).
Proof.
  intros Hb. unfold is_u8 in Hb. split; [done|]. unfold byte_text. assert (∀ x, 0 ≤ Z.land x 15 < 16) as Hl by (intros x; change 15 with (Z.ones 4); rewrite Z.land_ones by lia; apply Z.mod_pos_bound; lia).
  repeat constructor; by apply hex_digit_range.
Qed.

Lemma byte_text_read b : is_u8 b → parseHex (byte_text b) = Some b.
Proof.
  intros Hb. unfold is_u8 in Hb. unfold parseHex, byte_text. cbn [length Nat.eqb hex_loop]. assert (∀ x, 0 ≤ Z.land x 15 < 16) as Hl by (intros x; change 15 with (Z.ones 4); rewrite Z.land_ones by lia; apply Z.mod_pos_bound; lia).
  rewrite !(proj2 (hex_digit_range _ (Hl _))). f_equal. assert (Z.land (Z.shiftr b 4) 15 = Z.shiftr b 4) as ->.
  { change 15 with (Z.ones 4). rewrite Z.land_ones by lia. rewrite Z.shiftr_div_pow2 by lia. change (2 ^ 4) with 16. apply Z.mod_small. split; [apply Z.div_pos; lia|apply Z.div_lt_upper_bound; lia]. }
  change (Z.lor (u32 (Z.shiftl 0 4)) (Z.shiftr b 4)) with (Z.shiftr b 4). apply nibble_joined. lia.
Qed.

(** ** A frame as a [send] command *)

(** The identifier: up to three digits for a standard one, eight for an extended one. *)
Definition id_text (can_id : Z) : list Z :=
  let digits := formatHexUpper (Z.land can_id FRAME_CAN_ID_MASK) in
  if has_flag can_id FRAME_CAN_ID_FLAG_EFF then replicate (HEX_DIGITS_U32_MAX - length digits) 48 ++ digits else digits.

Definition bytes_text (bytes : list Z) : list Z := concat ((λ b, 32 :: byte_text b) <$> bytes).

Definition send_text (f : FrameMessage) : list Z :=
  lit "send" ++ 32 :: id_text (frame_can_id f) ++ 32 :: formatDecimal (frame_payload_length f) ++
  bytes_text (take (Z.to_nat (frame_payload_length f)) (frame_payload f)).

(** A frame the text can say: no timestamp, channel or flags of its own. *)
Record text_frame (f : FrameMessage) : Prop := {
  tf_id : can_id_ok (frame_can_id f);
  tf_length : 0 ≤ frame_payload_length f ≤ SOCKETCAND_DLC_MAX;
  tf_flags : frame_flags f = if frame_payload_length f >? FRAME_PAYLOAD_MAX_CLASSIC then FRAME_FLAG_FD else 0;
  tf_rest : frame_timestamp_us f = 0 ∧ frame_channel f = 0 ∧ frame_route_flags f = 0;
  tf_payload : length (frame_payload f) = 64%nat ∧ Forall is_u8 (frame_payload f);
}.

Lemma bytes_text_blank bytes : match bytes_text bytes with [] => True | c :: _ => is_blank c = true end.
Proof. by destruct bytes. Qed.

Lemma data_read bytes : Forall is_u8 bytes → data_loop (length bytes) (bytes_text bytes) = Some (bytes, []).
Proof.
  intros Hb. induction Hb as [|b bytes Hb _ IH]; [done|]. cbn [length data_loop]. change (bytes_text (b :: bytes)) with (32 :: byte_text b ++ bytes_text bytes).
  rewrite nextToken_word by (try apply bytes_text_blank; by apply byte_text_word). change (length (byte_text b)) with 2%nat. cbn [Nat.eqb orb Nat.ltb Nat.leb].
  rewrite byte_text_read by done. unfold is_u8 in Hb. destruct (Z.gtb_spec b 255); [lia|]. rewrite IH. by rewrite u8_id by lia.
Qed.

Lemma zeros_read n s : hex_loop 0 (replicate n 48 ++ s) = hex_loop 0 s.
Proof. induction n; [done|]. cbn. exact IHn. Qed.

Lemma length_formatHex v : 0 ≤ v → (1 ≤ length (formatHexUpper v) ≤ 8)%nat.
Proof.
  intros Hv. destruct (formatHex_word v Hv) as [Hne _]. split; [destruct (formatHexUpper v); [done|cbn; lia]|]. unfold formatHexUpper. destruct (v =? 0); [cbn; lia|]. rewrite length_reverse. apply length_hex_digits.
Qed.

Lemma length_standard v : 0 ≤ v ≤ FRAME_CAN_ID_SFF_MAX → (length (formatHexUpper v) ≤ 3)%nat.
Proof.
  unfold FRAME_CAN_ID_SFF_MAX. intros Hv. unfold formatHexUpper. destruct (v =? 0); [cbn; lia|]. rewrite length_reverse. assert (Z.shiftr (Z.shiftr (Z.shiftr v 4) 4) 4 = 0) as Hz.
  { rewrite !Z.shiftr_div_pow2 by lia. change (2 ^ 4) with 16. rewrite !Z.div_div by lia. apply Z.div_small. lia. }
  do 3 (cbn [hex_digits]; destruct (_ >? 0); [cbn [length]|cbn; lia]). rewrite Hz. cbn. lia.
Qed.

(** The parser finds the identifier and its kind. *)
Lemma id_text_read can_id : can_id_ok can_id →
  word (id_text can_id) ∧ (length (id_text can_id) ≤ 8)%nat ∧
  ∃ v, parseHex (id_text can_id) = Some v ∧
    (if Nat.ltb 3 (length (id_text can_id)) || (v >? FRAME_CAN_ID_SFF_MAX) then Z.lor (Z.land v FRAME_CAN_ID_MASK) FRAME_CAN_ID_FLAG_EFF else Z.land v FRAME_CAN_ID_MASK) = can_id.
Proof.
  intros Hid. unfold id_text. destruct (can_id_parts _ Hid) as (id & Hm & Hu & Hk). rewrite Hm. pose proof (length_formatHex id ltac:(unfold is_u32 in Hu; lia)) as Hl.
  pose proof (formatHex_word id ltac:(unfold is_u32 in Hu; lia)) as [Hne Hw]. pose proof (formatHex_read id Hu) as Hr. destruct (has_flag can_id FRAME_CAN_ID_FLAG_EFF).
  - destruct Hk as [Hk ->]. split_and!.
    + split; [destruct (replicate _ _); [done|discriminate]|]. apply Forall_app. split; [by apply Forall_replicate|done].
    + rewrite length_app, length_replicate. lia.
    + exists id. split; [|rewrite length_app, length_replicate; rewrite (proj2 (Nat.ltb_lt 3 _)) by lia; cbn [orb]; by rewrite Hk].
      unfold parseHex in *. rewrite length_app, length_replicate. destruct (Nat.eqb_spec (length (formatHexUpper id)) 0); [lia|]. destruct (Nat.eqb_spec (8 - length (formatHexUpper id) + length (formatHexUpper id)) 0); [lia|].
      by rewrite zeros_read.
  - destruct Hk as (Hk & Hs & ->). split_and!; [done|lia|]. exists id. split; [done|]. rewrite (proj2 (Nat.ltb_ge 3 _)) by (apply length_standard; lia). destruct (Z.gtb_spec id FRAME_CAN_ID_SFF_MAX); [lia|]. done.
Qed.

(** ** The claims *)

(** C30. A [send] command means the frame it was written from.  Every frame the
    text protocol can say - a standard or an extended identifier, up to 64 bytes,
    FD exactly when there are more than eight - is parsed back from its text with
    the same identifier, kind of identifier, length, flags and bytes. *)
Theorem socketcand_send_roundtrip (f : FrameMessage) : text_frame f →
  ∃ command, SocketcandCodec_Parse (send_text f) = Some command ∧ sc_kind command = kSOCKETCAND_COMMAND_SEND ∧ frame_same f (sc_frame command).
Proof.
  intros [Hid Hlen Hfl (Ht & Hc & Hr) [Hp Hb]]. unfold SOCKETCAND_DLC_MAX in Hlen. destruct (id_text_read _ Hid) as (Hw & Hl & v & Hv & Hkind). set (bytes := take (Z.to_nat (frame_payload_length f)) (frame_payload f)).
  assert (length bytes = Z.to_nat (frame_payload_length f)) as Hn by (unfold bytes; rewrite length_take; lia).
  assert (parseSend (32 :: id_text (frame_can_id f) ++ 32 :: formatDecimal (frame_payload_length f) ++ bytes_text bytes) =
    Some {| frame_can_id := frame_can_id f; frame_timestamp_us := 0; frame_channel := 0; frame_payload_length := frame_payload_length f; frame_flags := frame_flags f; frame_route_flags := 0;
            frame_payload := copy_at 0 bytes (frame_payload frame_zero) |}) as Hsend.
  { unfold parseSend. rewrite nextToken_word by done. destruct Hw as [Hne _]. destruct (Nat.eqb_spec (length (id_text (frame_can_id f))) 0) as [Hz|_]; [by apply length_zero_iff_nil in Hz|].
    rewrite (proj2 (Nat.ltb_ge 8 _)) by done. cbn [orb]. rewrite Hv, Hkind. rewrite nextToken_word by (try apply bytes_text_blank; apply formatDecimal_word; lia).
    pose proof (formatDecimal_word (frame_payload_length f) ltac:(lia)) as [Hdn _]. destruct (Nat.eqb_spec (length (formatDecimal (frame_payload_length f))) 0) as [Hz|_]; [by apply length_zero_iff_nil in Hz|].
    rewrite formatDecimal_read by (unfold is_u32; lia). unfold SOCKETCAND_DLC_MAX. destruct (Z.gtb_spec (frame_payload_length f) 64); [lia|]. rewrite <- Hn, data_read by (by apply Forall_take).
    cbn [nextToken skip_blanks take_word length Nat.eqb negb]. by rewrite Hfl. }
  unfold SocketcandCodec_Parse, send_text. fold bytes. assert (nextToken (lit "send" ++ 32 :: id_text (frame_can_id f) ++ 32 :: formatDecimal (frame_payload_length f) ++ bytes_text bytes) =
    (lit "send", 32 :: id_text (frame_can_id f) ++ 32 :: formatDecimal (frame_payload_length f) ++ bytes_text bytes)) as -> by (apply (take_word_app (lit "send")); [by repeat constructor|done]).
  cbn [length Nat.eqb]. change (Nat.eqb (length (lit "send")) 0) with false. change (tokenEquals (lit "send") "open") with false. change (tokenEquals (lit "send") "rawmode") with false.
  change (tokenEquals (lit "send") "bcmmode") with false. change (tokenEquals (lit "send") "echo") with false. change (tokenEquals (lit "send") "send") with true. cbv iota.
  rewrite Hsend. eexists. split; [reflexivity|]. split; [done|]. cbn [sc_frame]. unfold frame_same. cbn [frame_can_id frame_timestamp_us frame_channel frame_payload_length frame_flags frame_route_flags frame_payload].
  split_and!; try congruence. fold bytes. unfold copy_at. rewrite <- Hn. apply take_list_inserts; [done|]. rewrite Hn. change (length (frame_payload frame_zero)) with 64%nat. lia.
Qed.

Module SocketcandTextDemo.
Definition frame : FrameMessage := {| frame_can_id := Z.lor 291 FRAME_CAN_ID_FLAG_EFF; frame_timestamp_us := 0; frame_channel := 0; frame_payload_length := 2; frame_flags := 0; frame_route_flags := 0;
  frame_payload := 171 :: 1 :: replicate 62 0 |}.
End SocketcandTextDemo.

Lemma socketcand_send_roundtrip_witness : send_text SocketcandTextDemo.frame = lit "send 00000123 2 AB 01" ∧
  ∃ command, SocketcandCodec_Parse (lit "send 00000123 2 AB 01") = Some command ∧ sc_kind command = kSOCKETCAND_COMMAND_SEND ∧ frame_same SocketcandTextDemo.frame (sc_frame command).
Proof.
  split; [vm_compute; reflexivity|]. apply (socketcand_send_roundtrip SocketcandTextDemo.frame). split; [|vm_compute; split; discriminate|reflexivity|done|].
  - right. exists 291. split; [vm_compute; split; discriminate|reflexivity].
  - split; [reflexivity|]. repeat (apply Forall_cons; split; [unfold is_u8; lia|]). constructor.
Defined.

(** ** The line of a received frame *)

Lemma append_fits size line text : (length line + length text < size)%nat → append size (Some line) text = Some (line ++ text).
Proof. intros H. unfold append. by rewrite (proj2 (Nat.leb_gt _ _)). Qed.

Lemma append_bytes size line bytes : (length line + 2 * length bytes < size)%nat →
  foldl (λ out b, append size out (byte_text b)) (Some line) bytes = Some (line ++ concat (byte_text <$> bytes)).
Proof.
  revert line. induction bytes as [|b bytes IH]; intros line H; cbn [foldl fmap list_fmap concat length] in *; [by rewrite app_nil_r|].
  rewrite append_fits by (change (length (byte_text b)) with 2%nat; lia). rewrite IH by (rewrite length_app; change (length (byte_text b)) with 2%nat; lia). by rewrite <- app_assoc.
Qed.

Lemma length_dec_digits n v : (length (dec_digits n v) ≤ n)%nat.
Proof. revert v. induction n as [|n IH]; intros v; cbn [dec_digits]; [done|]. destruct (v >? 0); cbn [length]; [specialize (IH (v / 10)); lia|lia]. Qed.

Lemma length_formatDecimal v : (length (formatDecimal v) ≤ 20)%nat.
Proof. unfold formatDecimal. destruct (v =? 0); [cbn; lia|]. rewrite length_reverse. apply length_dec_digits. Qed.

Lemma length_decimal_padded v n : length (formatDecimalPadded v n) = n.
Proof. revert v. induction n as [|n IH]; intros v; cbn [formatDecimalPadded]; [done|]. rewrite length_app, IH. cbn. lia. Qed.

(** Every frame the wire can bring has its line: 256 characters are enough. *)
Theorem socketcand_frame_line_fits (f : FrameMessage) : (Z.to_nat (frame_payload_length f) ≤ 64)%nat →
  SocketcandCodec_RenderFrame 256 f =
    lit "< frame " ++ formatHexUpper (Z.land (frame_can_id f) FRAME_CAN_ID_MASK) ++ lit " " ++ formatDecimal (frame_timestamp_us f / MICROSECONDS_PER_SECOND) ++ lit "." ++
    formatDecimalPadded (frame_timestamp_us f mod MICROSECONDS_PER_SECOND) 6 ++ lit " " ++
    concat (byte_text <$> take (Z.to_nat (frame_payload_length f)) (frame_payload f)) ++ lit " >".
Proof.
  intros Hl. unfold SocketcandCodec_RenderFrame. assert (0 ≤ Z.land (frame_can_id f) FRAME_CAN_ID_MASK) as Hid by (apply Z.land_nonneg; right; done).
  pose proof (length_formatHex _ Hid) as H1. pose proof (length_formatDecimal (frame_timestamp_us f / MICROSECONDS_PER_SECOND)) as H2.
  set (bytes := take _ _). assert (length bytes ≤ 64)%nat as H4 by (unfold bytes; rewrite length_take; lia). pose proof (length_decimal_padded (frame_timestamp_us f mod MICROSECONDS_PER_SECOND) 6) as H3.
  assert (length (concat (byte_text <$> bytes)) = 2 * length bytes)%nat as H5. { clearbody bytes. clear. induction bytes as [|b bytes IH]; [done|]. cbn [fmap list_fmap concat length]. rewrite length_app, IH. change (length (byte_text b)) with 2%nat. lia. }
  assert (length (lit "< frame ") = 8 ∧ length (lit " ") = 1 ∧ length (lit ".") = 1 ∧ length (lit " >") = 2)%nat as (L1 & L2 & L3 & L4) by done.
  do 7 rewrite append_fits by (rewrite ?length_app; cbn [length]; lia). rewrite append_bytes by (rewrite !length_app; cbn [length]; lia). rewrite append_fits by (rewrite !length_app; cbn [length]; lia).
  unfold rendered. cbn [default from_option]. rewrite <- !app_assoc. reflexivity.
Qed.
