(* ===== verification/SocketcandBridge.v ===== *)
(** * The socketcand server: its tables (src/socketcand/domain/connection_table.c, interface_catalogue.c, beacon_xml.c) and the bridge (src/socketcand/socketcand_bridge.c)

    The table of accepted connections, the catalogue of the hub's interfaces and
    the discovery beacon made from it.  A pointer to a connection is the index of
    its slot; a slot that is released keeps its content and only leaves use. *)

From Stdlib Require Import String.
From S2P Require Import Prelude CString Wire Codec RegisterMessage ListMessage FrameMessage IfconfigMessage ControlPlane HelloMessage OpenMessage TxnMessage TxnStepsMessage InterfaceName StepRing IsotpLink TransactionRunner AsciiFramer SocketcandCodec.

Notation SOCKETCAND_CONNECTIONS_MAX := 32%nat (only parsing).
Notation INTERFACE_CATALOGUE_MAX := 128%nat (only parsing).

Inductive TSOCKETCAND_MODE := kSOCKETCAND_MODE_NO_BUS | kSOCKETCAND_MODE_BCM | kSOCKETCAND_MODE_RAW.
#[export] Instance TSOCKETCAND_MODE_eq_dec : EqDecision TSOCKETCAND_MODE.
Proof. solve_decision. Defined.

Inductive TSOCKETCAND_OPEN_STATE := kSOCKETCAND_OPEN_NONE | kSOCKETCAND_OPEN_PENDING_WRITE | kSOCKETCAND_OPEN_PENDING_READ | kSOCKETCAND_OPEN_DONE.
#[export] Instance TSOCKETCAND_OPEN_STATE_eq_dec : EqDecision TSOCKETCAND_OPEN_STATE.
Proof. solve_decision. Defined.

Record PendingConfigure := { pc_queued : bool; pc_seq : Z; pc_bus : list Z; pc_settings : InterfaceSettings }.
Definition PendingConfigure_zero : PendingConfigure := {| pc_queued := false; pc_seq := 0; pc_bus := replicate SOCKETCAND_BUS_NAME_SIZE 0; pc_settings := settings0 |}.

Record SocketcandConnection := {
  co_in_use : bool; co_connection_id : Z; co_framer : AsciiFramer; co_mode : TSOCKETCAND_MODE; co_open_state : TSOCKETCAND_OPEN_STATE;
  co_interface_id : Z; co_open_seq : Z; co_channel : Z; co_channel_valid : bool; co_can_write : bool; co_bus : list Z; co_configure : PendingConfigure;
}.

#[export] Instance SocketcandConnection_settable : Settable SocketcandConnection := λ c, {|
  co_in_use := co_in_use c; co_connection_id := co_connection_id c; co_framer := co_framer c; co_mode := co_mode c; co_open_state := co_open_state c;
  co_interface_id := co_interface_id c; co_open_seq := co_open_seq c; co_channel := co_channel c; co_channel_valid := co_channel_valid c;
  co_can_write := co_can_write c; co_bus := co_bus c; co_configure := co_configure c |}.

Definition SocketcandConnection_zero : SocketcandConnection := {|
  co_in_use := false; co_connection_id := 0; co_framer := {| af_buffer := replicate ASCII_FRAMER_BUFFER_SIZE 0; af_used := 0 |};
  co_mode := kSOCKETCAND_MODE_NO_BUS; co_open_state := kSOCKETCAND_OPEN_NONE; co_interface_id := 0; co_open_seq := 0; co_channel := 0;
  co_channel_valid := false; co_can_write := false; co_bus := replicate SOCKETCAND_BUS_NAME_SIZE 0; co_configure := PendingConfigure_zero |}.

#[export] Instance SocketcandConnection_inhabited : Inhabited SocketcandConnection := populate SocketcandConnection_zero.

Record ConnectionTable := { ct_connections : list SocketcandConnection; ct_next_open_seq : Z; ct_next_configure_seq : Z }.

#[export] Instance ConnectionTable_settable : Settable ConnectionTable := λ t, {|
  ct_connections := ct_connections t; ct_next_open_seq := ct_next_open_seq t; ct_next_configure_seq := ct_next_configure_seq t |}.

Definition ConnectionTable_Reset : ConnectionTable := {|
  ct_connections := replicate SOCKETCAND_CONNECTIONS_MAX SocketcandConnection_zero; ct_next_open_seq := 0; ct_next_configure_seq := 0 |}.

Definition ConnectionTable_Add (self : ConnectionTable) (connection_id : Z) : option nat * ConnectionTable :=
  match scan (λ c, negb (co_in_use c)) (ct_connections self) with
  | Some i => (Some i, self <| ct_connections := <[i := SocketcandConnection_zero <| co_in_use := true |> <| co_connection_id := connection_id |>]> (ct_connections self) |>)
  | None => (None, self)
  end.

Definition ConnectionTable_Find (self : ConnectionTable) (connection_id : Z) : option nat :=
  scan (λ c, co_in_use c && (co_connection_id c =? connection_id)) (ct_connections self).

Definition ConnectionTable_FindByChannel (self : ConnectionTable) (channel : Z) : option nat :=
  scan (λ c, co_in_use c && co_channel_valid c && (co_channel c =? channel)) (ct_connections self).

Definition is_pending (c : SocketcandConnection) : bool :=
  bool_decide (co_open_state c = kSOCKETCAND_OPEN_PENDING_WRITE) || bool_decide (co_open_state c = kSOCKETCAND_OPEN_PENDING_READ).

(** The loops that look for the smallest sequence number, the first of equals: [oldest] is the slot and its number. *)
Fixpoint oldest_loop (eligible : SocketcandConnection → bool) (seq : SocketcandConnection → Z) (i : nat) (oldest : option (nat * Z)) (l : list SocketcandConnection) : option nat :=
  match l with
  | [] => fst <$> oldest
  | c :: l' =>
      let younger := match oldest with Some (_, s) => seq c <? s | None => true end in
      oldest_loop eligible seq (S i) (if eligible c && younger then Some (i, seq c) else oldest) l'
  end.

Definition awaits_open (interface_id : Z) (c : SocketcandConnection) : bool := co_in_use c && (co_interface_id c =? interface_id) && is_pending c.

Definition ConnectionTable_FindPendingOpen (self : ConnectionTable) (interface_id : Z) : option nat :=
  oldest_loop (awaits_open interface_id) co_open_seq 0 None (ct_connections self).

Definition ConnectionTable_NextOpenSeq (self : ConnectionTable) : Z * ConnectionTable :=
  let seq := u32 (ct_next_open_seq self + 1) in (seq, self <| ct_next_open_seq := seq |>).

(** Changes the connection a pointer points to. *)
Definition on_connection (i : nat) (f : SocketcandConnection → SocketcandConnection) (self : ConnectionTable) : ConnectionTable :=
  self <| ct_connections := alter f i (ct_connections self) |>.

Definition ConnectionTable_QueueConfigure (self : ConnectionTable) (connection : nat) (bus : list Z) (settings : InterfaceSettings) : ConnectionTable :=
  let seq := u32 (ct_next_configure_seq self + 1) in
  let self := self <| ct_next_configure_seq := seq |> in
  on_connection connection (λ c, c <| co_configure := {| pc_queued := true; pc_seq := seq; pc_bus := bus; pc_settings := settings |} |>) self.

Definition awaits_configure (c : SocketcandConnection) : bool := co_in_use c && pc_queued (co_configure c).

Definition ConnectionTable_OldestQueuedConfigure (self : ConnectionTable) : option nat :=
  oldest_loop awaits_configure (λ c, pc_seq (co_configure c)) 0 None (ct_connections self).

Definition ConnectionTable_Remove (self : ConnectionTable) (connection_id : Z) : ConnectionTable :=
  match ConnectionTable_Find self connection_id with
  | Some i => on_connection i (λ c, c <| co_in_use := false |>) self
  | None => self
  end.

(** ** The catalogue *)

Record CatalogueEntry := { ce_interface_id : Z; ce_name : list Z }.
Definition CatalogueEntry_zero : CatalogueEntry := {| ce_interface_id := 0; ce_name := replicate SOCKETCAND_BUS_NAME_SIZE 0 |}.
#[export] Instance CatalogueEntry_inhabited : Inhabited CatalogueEntry := populate CatalogueEntry_zero.

Record InterfaceCatalogue := { ic_entries : list CatalogueEntry; ic_count : Z }.

Definition InterfaceCatalogue_zero : InterfaceCatalogue := {| ic_entries := replicate INTERFACE_CATALOGUE_MAX CatalogueEntry_zero; ic_count := 0 |}.
Definition InterfaceCatalogue_Reset (self : InterfaceCatalogue) : InterfaceCatalogue := {| ic_entries := ic_entries self; ic_count := 0 |}.

Definition fieldLength (field : list Z) (field_size : nat) : nat := strnlen field field_size.

(** The name written over the destination, which is left as it was when the name does not fit. *)
Definition composeName (destination : list Z) (entry : ListReplyEntry) : bool * list Z :=
  let agent_length := fieldLength (lre_agent_name entry) REGISTER_AGENT_NAME_SIZE in
  let interface_length := fieldLength (lre_interface_name entry) REGISTER_INTERFACE_NAME_SIZE in
  if Nat.eqb agent_length 0 || Nat.eqb interface_length 0 then (false, destination)
  else if Nat.ltb (length destination) (agent_length + 1 + interface_length + 1) then (false, destination)
  else
    let destination := copy_at 0 (take agent_length (lre_agent_name entry)) destination in
    let destination := <[agent_length := 47]> destination in
    let destination := copy_at (agent_length + 1) (take interface_length (lre_interface_name entry)) destination in
    (true, <[(agent_length + 1 + interface_length)%nat := 0]> destination).

(** [for(i=0; i<reply->count; i++)] *)
Fixpoint append_loop (self : InterfaceCatalogue) (entries : list ListReplyEntry) : bool * InterfaceCatalogue :=
  match entries with
  | [] => (true, self)
  | e :: entries' =>
      if ic_count self >=? 128 then (false, self)
      else
        let slot := ic_entries self !!! Z.to_nat (ic_count self) in
        let '(composed, name) := composeName (ce_name slot) e in
        if negb composed then append_loop self entries'
        else append_loop {| ic_entries := <[Z.to_nat (ic_count self) := {| ce_interface_id := lre_interface_id e; ce_name := name |}]> (ic_entries self);
                            ic_count := u8 (ic_count self + 1) |} entries'
  end.

Definition InterfaceCatalogue_AppendPage (self : InterfaceCatalogue) (reply : ListReplyMessage) : bool * InterfaceCatalogue := append_loop self (counted_entries reply).

Definition listed_entries (self : InterfaceCatalogue) : list CatalogueEntry := take (Z.to_nat (ic_count self)) (ic_entries self).

Definition InterfaceCatalogue_FindByName (self : InterfaceCatalogue) (name : list Z) : option Z :=
  ce_interface_id <$> (scan (λ e, streq (ce_name e) name) (listed_entries self) ≫= λ i, listed_entries self !! i).

Definition InterfaceCatalogue_Count (self : InterfaceCatalogue) : Z := ic_count self.
Definition InterfaceCatalogue_At (self : InterfaceCatalogue) (index : Z) : option CatalogueEntry :=
  if index >=? ic_count self then None else ic_entries self !! Z.to_nat index.

(** ** The beacon *)

(** [for(i=0; i<InterfaceCatalogue_Count(catalogue); i++)] *)
Definition bus_line (out_size : nat) (out : option (list Z)) (e : CatalogueEntry) : option (list Z) :=
  append out_size (append out_size (append out_size out (lit "<Bus name=" ++ [34])) (cstr (ce_name e))) ([34] ++ lit "/>" ++ [10]).

Definition BeaconXml_Render (out_size : nat) (device_name url : list Z) (catalogue : InterfaceCatalogue) : list Z :=
  let out := append out_size (Some []) (lit "<CANBeacon name=" ++ [34]) in
  let out := append out_size out (cstr device_name) in
  let out := append out_size out ([34] ++ lit " type=" ++ [34] ++ lit "SocketCAN" ++ [34] ++ lit " description=" ++ [34] ++ lit "can-hub" ++ [34] ++ lit ">" ++ [10]) in
  let out := append out_size out (lit "<URL>") in
  let out := append out_size out (cstr url) in
  let out := append out_size out (lit "</URL>" ++ [10]) in
  let out := foldl (bus_line out_size) out (listed_entries catalogue) in
  rendered (append out_size out (lit "</CANBeacon>")).

(** * The socketcand bridge (src/socketcand/socketcand_bridge.c)

    A hub client on one side, a server of the socketcand text protocol on the
    other.  A pointer to a connection is the index of its slot in the table.  The
    hub's transport and the server are parameters over a world of any type; they
    do not call back into the core while it runs, and whether a write was taken
    is disregarded, as in the code. *)
Notation ASCII_BUFFER_SIZE := 256%nat (only parsing).
Notation BEACON_BUFFER_SIZE := (Z.to_nat 8192) (only parsing).
Definition BEACON_INTERVAL_US : Z := 3000000.
Definition LIST_REFRESH_INTERVAL_US : Z := 5000000.
Definition RECONNECT_DELAY_US : Z := 1000000.
Definition OPEN_FLAGS_READ_ONLY : Z := OPEN_FLAG_SUPPRESS_OWN_ECHO.
Definition OPEN_FLAGS_READ_WRITE : Z := Z.lor OPEN_FLAG_SUPPRESS_OWN_ECHO OPEN_FLAG_WANT_WRITE.
Definition CONFIGURE_AFTER_OPEN_DETAIL : list Z := lit "configure the bus before opening it".
Definition NOTHING_TO_CONFIGURE_DETAIL : list Z := lit "nothing to configure".
Definition UNKNOWN_BUS_DETAIL : list Z := lit "unknown bus".
Notation SOCKETCAND_DEVICE_NAME_SIZE := 64%nat (only parsing).
Notation SOCKETCAND_URL_SIZE := 288%nat (only parsing).
Notation CONTROL_MESSAGE_MAX_WIRE_SIZE := 424%nat (only parsing).

Inductive TSOCKETCAND_HUB_STATE := kSOCKETCAND_HUB_DISCONNECTED | kSOCKETCAND_HUB_CONNECTING | kSOCKETCAND_HUB_READY.
#[export] Instance TSOCKETCAND_HUB_STATE_eq_dec : EqDecision TSOCKETCAND_HUB_STATE.
Proof. solve_decision. Defined.

(** ** Ports *)

Record BridgeHubPort (W : Type) := {
  bh_connect : W → bool * W;
  bh_send_control : list Z → W → W;
  bh_send_frame : Z → list Z → W → W;
}.
Arguments bh_connect {W} _ _.
Arguments bh_send_control {W} _ _ _.
Arguments bh_send_frame {W} _ _ _ _.

Record SocketcandServerPort (W : Type) := {
  sp_write_client : Z → list Z → W → W;
  sp_close_client : Z → W → W;
  sp_send_beacon : list Z → W → W;
}.
Arguments sp_write_client {W} _ _ _ _.
Arguments sp_close_client {W} _ _ _.
Arguments sp_send_beacon {W} _ _ _.

(** ** State *)

Record SocketcandBridge := {
  sb_catalogue : InterfaceCatalogue; sb_connections : ConnectionTable; sb_hub_state : TSOCKETCAND_HUB_STATE; sb_next_connect_at_us : Z;
  sb_next_beacon_at_us : Z; sb_next_list_at_us : Z; sb_listing_offset : Z; sb_listing_active : bool; sb_configure_in_flight : bool;
  sb_configuring_connection_id : Z; sb_beacon_enabled : bool; sb_device_name : list Z; sb_beacon_url : list Z; sb_name : list Z;
}.

#[export] Instance SocketcandBridge_settable : Settable SocketcandBridge := λ s, {|
  sb_catalogue := sb_catalogue s; sb_connections := sb_connections s; sb_hub_state := sb_hub_state s; sb_next_connect_at_us := sb_next_connect_at_us s;
  sb_next_beacon_at_us := sb_next_beacon_at_us s; sb_next_list_at_us := sb_next_list_at_us s; sb_listing_offset := sb_listing_offset s;
  sb_listing_active := sb_listing_active s; sb_configure_in_flight := sb_configure_in_flight s;
  sb_configuring_connection_id := sb_configuring_connection_id s; sb_beacon_enabled := sb_beacon_enabled s; sb_device_name := sb_device_name s;
  sb_beacon_url := sb_beacon_url s; sb_name := sb_name s |}.

Definition SocketcandBridge_Init (device_name beacon_url : option (list Z)) (beacon_enabled : bool) : SocketcandBridge := {|
  sb_catalogue := InterfaceCatalogue_Reset InterfaceCatalogue_zero; sb_connections := ConnectionTable_Reset; sb_hub_state := kSOCKETCAND_HUB_DISCONNECTED;
  sb_next_connect_at_us := 0; sb_next_beacon_at_us := 0; sb_next_list_at_us := 0; sb_listing_offset := 0; sb_listing_active := false;
  sb_configure_in_flight := false; sb_configuring_connection_id := 0; sb_beacon_enabled := beacon_enabled;
  sb_device_name := BoundedString_Copy (replicate SOCKETCAND_DEVICE_NAME_SIZE 0) device_name;
  sb_beacon_url := BoundedString_Copy (replicate SOCKETCAND_URL_SIZE 0) beacon_url; sb_name := replicate HELLO_NAME_SIZE 0 |}.

Definition SocketcandBridge_SetName (self : SocketcandBridge) (name : option (list Z)) : SocketcandBridge :=
  self <| sb_name := BoundedString_Copy (sb_name self) name |>.
Definition SocketcandBridge_HubState (self : SocketcandBridge) : TSOCKETCAND_HUB_STATE := sb_hub_state self.

(** The connection a pointer points to, and a change to it. *)
Definition connection_at (self : SocketcandBridge) (i : nat) : SocketcandConnection := ct_connections (sb_connections self) !!! i.
Definition with_connection (i : nat) (f : SocketcandConnection → SocketcandConnection) (self : SocketcandBridge) : SocketcandBridge :=
  self <| sb_connections := on_connection i f (sb_connections self) |>.

Definition ConfigureStatus_Name (status : Z) : list Z :=
  if status =? CONFIGURE_STATUS_OK then lit "ok"
  else if status =? CONFIGURE_STATUS_UNKNOWN_INTERFACE then lit "unknown interface"
  else if status =? CONFIGURE_STATUS_AGENT_UNREACHABLE then lit "agent unreachable"
  else if status =? CONFIGURE_STATUS_DENIED then lit "not allowed to configure this interface"
  else lit "apply failed".

Section Bridge.
Context {W : Type} (hub : BridgeHubPort W) (server : SocketcandServerPort W).

Definition control_buffer : list Z := replicate CONTROL_MESSAGE_MAX_WIRE_SIZE 0.

(** [if (encoded_size > 0) send_control(...)] *)
Definition sendEncoded (message : nat * list Z) (w : W) : W := if Nat.eqb message.1 0 then w else bh_send_control hub (take message.1 message.2) w.

Definition sendHello (self : SocketcandBridge) (w : W) : W :=
  sendEncoded (HelloMessage_Build kPEER_ROLE_CLIENT (Some (sb_name self)) HELLO_CAP_RELIABLE_CHANNELS (replicate HELLO_NAME_SIZE 0) control_buffer) w.
Definition sendListPage (offset : Z) (w : W) : W := sendEncoded (ListMessage_Encode {| list_offset := offset |} control_buffer) w.
Definition sendOpen (interface_id flags : Z) (w : W) : W := sendEncoded (OpenMessage_Encode {| open_interface_id := interface_id; open_flags := flags |} control_buffer) w.
Definition sendClose (channel : Z) (w : W) : W := sendEncoded (CloseMessage_Encode {| close_channel := channel |} control_buffer) w.

Definition sendAscii (connection_id : Z) (text : list Z) (w : W) : W := if Nat.eqb (length text) 0 then w else sp_write_client server connection_id text w.
Definition sendError (connection_id : Z) (detail : list Z) (w : W) : W := sendAscii connection_id (SocketcandCodec_RenderError ASCII_BUFFER_SIZE detail) w.

Definition emitBeacon (self : SocketcandBridge) (w : W) : W :=
  let text := BeaconXml_Render BEACON_BUFFER_SIZE (sb_device_name self) (sb_beacon_url self) (sb_catalogue self) in
  if Nat.eqb (length text) 0 then w else sp_send_beacon server text w.

(** Every caller gives a detail. *)
Definition closeConnection (self : SocketcandBridge) (connection : nat) (detail : list Z) (w : W) : SocketcandBridge * W :=
  let id := co_connection_id (connection_at self connection) in
  let w := sendAscii id (SocketcandCodec_RenderError ASCII_BUFFER_SIZE detail) w in
  let w := sp_close_client server id w in
  (self <| sb_connections := ConnectionTable_Remove (sb_connections self) id |>, w).

(** [for(i=0; i<SOCKETCAND_CONNECTIONS_MAX; i++)] *)
Definition close_each (connections : list SocketcandConnection) (w : W) : W :=
  foldl (λ w c, if co_in_use c then sp_close_client server (co_connection_id c) w else w) w connections.

Definition closeAllConnections (self : SocketcandBridge) (w : W) : SocketcandBridge * W :=
  (self <| sb_connections := ConnectionTable_Reset |>, close_each (ct_connections (sb_connections self)) w).

(** ** Configuration of a bus *)

Definition unqueue (c : SocketcandConnection) : SocketcandConnection :=
  c <| co_configure := {| pc_queued := false; pc_seq := pc_seq (co_configure c); pc_bus := pc_bus (co_configure c); pc_settings := pc_settings (co_configure c) |} |>.

Definition sendConfigure (self : SocketcandBridge) (connection : nat) (w : W) : bool * SocketcandBridge * W :=
  let self := with_connection connection unqueue self in
  let c := connection_at self connection in
  match InterfaceName_Split (pc_bus (co_configure c)) (cf_agent_name configure0) (cf_interface_name configure0) with
  | (false, _) => (false, self, sendError (co_connection_id c) UNKNOWN_BUS_DETAIL w)
  | (true, (agent_name, interface_name)) =>
      let request := {| cf_agent_name := agent_name; cf_interface_name := interface_name; cf_op := IFCONFIG_OP_APPLY; cf_settings := pc_settings (co_configure c) |} in
      let '(encoded_size, encoded) := ConfigureMessage_Encode request control_buffer in
      if Nat.eqb encoded_size 0 then (false, self, sendError (co_connection_id c) UNKNOWN_BUS_DETAIL w)
      else (true, self <| sb_configure_in_flight := true |> <| sb_configuring_connection_id := co_connection_id c |>, bh_send_control hub (take encoded_size encoded) w)
  end.

(** [while (connection != NULL && !sendConfigure(self, connection))]: every round takes one connection off the queue. *)
Fixpoint configure_loop (fuel : nat) (self : SocketcandBridge) (w : W) : SocketcandBridge * W :=
  match fuel with
  | O => (self, w)
  | S fuel' =>
      match ConnectionTable_OldestQueuedConfigure (sb_connections self) with
      | None => (self, w)
      | Some connection =>
          let '(sent, self, w) := sendConfigure self connection w in
          if (sent : bool) then (self, w) else configure_loop fuel' self w
      end
  end.

Definition sendNextConfigure (self : SocketcandBridge) (w : W) : SocketcandBridge * W :=
  if sb_configure_in_flight self || bool_decide (sb_hub_state self ≠ kSOCKETCAND_HUB_READY) then (self, w)
  else configure_loop (S SOCKETCAND_CONNECTIONS_MAX) self w.

Definition queueConfigure (self : SocketcandBridge) (connection : nat) (command : SocketcandCommand) (w : W) : SocketcandBridge * W :=
  let c := connection_at self connection in
  if bool_decide (co_open_state c ≠ kSOCKETCAND_OPEN_NONE) then (self, sendError (co_connection_id c) CONFIGURE_AFTER_OPEN_DETAIL w)
  else if is_fields (sc_settings command) =? 0 then (self, sendError (co_connection_id c) NOTHING_TO_CONFIGURE_DETAIL w)
  else sendNextConfigure (self <| sb_connections := ConnectionTable_QueueConfigure (sb_connections self) connection (sc_bus command) (sc_settings command) |>) w.

Definition handleConfigureReply (self : SocketcandBridge) (reply : ConfigureReplyMessage) (w : W) : SocketcandBridge * W :=
  if negb (sb_configure_in_flight self) then (self, w)
  else
    let self := self <| sb_configure_in_flight := false |> in
    let w :=
      match ConnectionTable_Find (sb_connections self) (sb_configuring_connection_id self) with
      | Some i =>
          let text := if cfr_status reply =? CONFIGURE_STATUS_OK then SocketcandCodec_RenderOk ASCII_BUFFER_SIZE
                      else SocketcandCodec_RenderReasonedError ASCII_BUFFER_SIZE (ConfigureStatus_Name (cfr_status reply)) (cfr_detail reply) in
          sendAscii (co_connection_id (connection_at self i)) text w
      | None => w
      end in
    sendNextConfigure self w.

(** ** Commands of a client *)

Definition openBus (self : SocketcandBridge) (connection : nat) (bus : list Z) (w : W) : bool * SocketcandBridge * W :=
  if bool_decide (co_open_state (connection_at self connection) ≠ kSOCKETCAND_OPEN_NONE) then
    let '(self, w) := closeConnection self connection (lit "bus already open") w in (false, self, w)
  else
    match (if bool_decide (sb_hub_state self ≠ kSOCKETCAND_HUB_READY) then None else InterfaceCatalogue_FindByName (sb_catalogue self) bus) with
    | None => let '(self, w) := closeConnection self connection (lit "could not open bus") w in (false, self, w)
    | Some interface_id =>
        let '(seq, connections) := ConnectionTable_NextOpenSeq (sb_connections self) in
        let self := self <| sb_connections := connections |> in
        let self := with_connection connection (λ c, c <| co_interface_id := interface_id |> <| co_open_state := kSOCKETCAND_OPEN_PENDING_WRITE |>
                                                       <| co_open_seq := seq |> <| co_bus := BoundedString_Copy (co_bus c) (Some bus) |>) self in
        (true, self, sendOpen interface_id OPEN_FLAGS_READ_WRITE w)
    end.

Definition handleSend (self : SocketcandBridge) (connection : nat) (frame : FrameMessage) (w : W) : W :=
  let c := connection_at self connection in
  if negb (co_channel_valid c) then sendAscii (co_connection_id c) (SocketcandCodec_RenderError ASCII_BUFFER_SIZE (lit "no bus open")) w
  else if negb (co_can_write c) then sendAscii (co_connection_id c) (SocketcandCodec_RenderError ASCII_BUFFER_SIZE (lit "write not permitted")) w
  else
    let outgoing := {| frame_can_id := frame_can_id frame; frame_timestamp_us := frame_timestamp_us frame; frame_channel := co_channel c;
                       frame_payload_length := frame_payload_length frame; frame_flags := frame_flags frame; frame_route_flags := 0;
                       frame_payload := frame_payload frame |} in
    let '(encoded_size, encoded) := FrameMessage_Encode outgoing control_buffer in
    if Nat.eqb encoded_size 0 then w else bh_send_frame hub (co_channel c) (take encoded_size encoded) w.

(** False when the connection was closed. *)
Definition dispatchCommand (self : SocketcandBridge) (connection : nat) (command : SocketcandCommand) (w : W) : bool * SocketcandBridge * W :=
  let id := co_connection_id (connection_at self connection) in
  match sc_kind command with
  | kSOCKETCAND_COMMAND_OPEN => openBus self connection (sc_bus command) w
  | kSOCKETCAND_COMMAND_RAWMODE =>
      (true, with_connection connection (λ c, c <| co_mode := kSOCKETCAND_MODE_RAW |>) self, sendAscii id (SocketcandCodec_RenderOk ASCII_BUFFER_SIZE) w)
  | kSOCKETCAND_COMMAND_BCMMODE =>
      (true, with_connection connection (λ c, c <| co_mode := kSOCKETCAND_MODE_BCM |>) self, sendAscii id (SocketcandCodec_RenderOk ASCII_BUFFER_SIZE) w)
  | kSOCKETCAND_COMMAND_SEND => (true, self, handleSend self connection (sc_frame command) w)
  | kSOCKETCAND_COMMAND_ECHO => (true, self, sendAscii id (SocketcandCodec_RenderEcho ASCII_BUFFER_SIZE) w)
  | kSOCKETCAND_COMMAND_BITTIMING | kSOCKETCAND_COMMAND_CONTROLMODE => let '(self, w) := queueConfigure self connection command w in (true, self, w)
  | kSOCKETCAND_COMMAND_UNKNOWN => (true, self, w)
  end.

(** [while (AsciiFramer_Next(...))]: every command leaves the buffer shorter.  False when the connection was closed. *)
Fixpoint command_loop (fuel : nat) (self : SocketcandBridge) (connection : nat) (w : W) : bool * SocketcandBridge * W :=
  match fuel with
  | O => (true, self, w)
  | S fuel' =>
      let '(text, framer) := AsciiFramer_Next (co_framer (connection_at self connection)) ASCII_BUFFER_SIZE in
      let self := with_connection connection (λ c, c <| co_framer := framer |>) self in
      match text with
      | None => (true, self, w)
      | Some text =>
          match SocketcandCodec_Parse text with
          | None => command_loop fuel' self connection w
          | Some command =>
              let '(open, self, w) := dispatchCommand self connection command w in
              if (open : bool) then command_loop fuel' self connection w else (false, self, w)
          end
      end
  end.

(** [while (offset < size)]: every round takes bytes or empties a full buffer, so two rounds a byte are enough. *)
Fixpoint bytes_loop (fuel : nat) (self : SocketcandBridge) (connection : nat) (data : list Z) (w : W) : SocketcandBridge * W :=
  match fuel with
  | O => (self, w)
  | S fuel' =>
      if Nat.eqb (length data) 0 then (self, w)
      else
        let '(taken, framer) := AsciiFramer_Push (co_framer (connection_at self connection)) data in
        let self := with_connection connection (λ c, c <| co_framer := framer |>) self in
        let '(open, self, w) := command_loop (S ASCII_FRAMER_BUFFER_SIZE) self connection w in
        if negb open then (self, w)
        else
          let self := if Nat.eqb taken 0 then with_connection connection (λ c, c <| co_framer := AsciiFramer_Reset (co_framer c) |>) self else self in
          bytes_loop fuel' self connection (drop taken data) w
  end.

Definition serverOnClientBytes (self : SocketcandBridge) (connection_id : Z) (data : list Z) (w : W) : SocketcandBridge * W :=
  match ConnectionTable_Find (sb_connections self) connection_id with
  | None => (self, w)
  | Some connection => bytes_loop (S (2 * length data)) self connection data w
  end.

Definition serverOnClientConnected (self : SocketcandBridge) (connection_id : Z) (w : W) : SocketcandBridge * W :=
  match ConnectionTable_Add (sb_connections self) connection_id with
  | (None, _) => (self, sp_close_client server connection_id w)
  | (Some _, connections) => (self <| sb_connections := connections |>, sendAscii connection_id (SocketcandCodec_RenderGreeting ASCII_BUFFER_SIZE) w)
  end.

Definition serverOnClientDisconnected (self : SocketcandBridge) (connection_id : Z) (w : W) : SocketcandBridge * W :=
  match ConnectionTable_Find (sb_connections self) connection_id with
  | None => (self, w)
  | Some i =>
      let c := connection_at self i in
      let w := if co_channel_valid c && bool_decide (sb_hub_state self = kSOCKETCAND_HUB_READY) then sendClose (co_channel c) w else w in
      (self <| sb_connections := ConnectionTable_Remove (sb_connections self) connection_id |>, w)
  end.

(** ** The hub *)

Definition tryConnect (self : SocketcandBridge) (now_us : Z) (w : W) : SocketcandBridge * W :=
  let '(connecting, w) := bh_connect hub w in
  if (connecting : bool) then (self <| sb_hub_state := kSOCKETCAND_HUB_CONNECTING |>, w)
  else (self <| sb_next_connect_at_us := u64 (now_us + RECONNECT_DELAY_US) |>, w).

Definition startListing (self : SocketcandBridge) (w : W) : SocketcandBridge * W :=
  (self <| sb_catalogue := InterfaceCatalogue_Reset (sb_catalogue self) |> <| sb_listing_offset := 0 |> <| sb_listing_active := true |>, sendListPage 0 w).

Definition SocketcandBridge_Tick (self : SocketcandBridge) (now_us : Z) (w : W) : SocketcandBridge * W :=
  if bool_decide (sb_hub_state self = kSOCKETCAND_HUB_DISCONNECTED) then
    if now_us >=? sb_next_connect_at_us self then tryConnect self now_us w else (self, w)
  else if bool_decide (sb_hub_state self ≠ kSOCKETCAND_HUB_READY) then (self, w)
  else
    let '(self, w) := if negb (sb_listing_active self) && (now_us >=? sb_next_list_at_us self) then startListing self w else (self, w) in
    if sb_beacon_enabled self && (now_us >=? sb_next_beacon_at_us self)
    then (self <| sb_next_beacon_at_us := u64 (now_us + BEACON_INTERVAL_US) |>, emitBeacon self w) else (self, w).

Definition transportOnConnected (self : SocketcandBridge) (w : W) : SocketcandBridge * W :=
  if bool_decide (sb_hub_state self ≠ kSOCKETCAND_HUB_CONNECTING) then (self, w)
  else
    let w := sendHello self w in
    let '(self, w) := startListing self w in
    sendNextConfigure (self <| sb_hub_state := kSOCKETCAND_HUB_READY |> <| sb_next_beacon_at_us := 0 |>) w.

Definition transportOnDisconnected (self : SocketcandBridge) (now_us : Z) (w : W) : SocketcandBridge * W :=
  if bool_decide (sb_hub_state self = kSOCKETCAND_HUB_DISCONNECTED) then (self, w)
  else
    let '(self, w) := closeAllConnections self w in
    (self <| sb_catalogue := InterfaceCatalogue_Reset (sb_catalogue self) |> <| sb_listing_active := false |> <| sb_configure_in_flight := false |>
          <| sb_hub_state := kSOCKETCAND_HUB_DISCONNECTED |> <| sb_next_connect_at_us := u64 (now_us + RECONNECT_DELAY_US) |> <| sb_next_beacon_at_us := 0 |>
          <| sb_next_list_at_us := 0 |>, w).

Definition handleListReply (self : SocketcandBridge) (body : list Z) (now_us : Z) (w : W) : SocketcandBridge * W :=
  let listed self := self <| sb_listing_active := false |> <| sb_next_list_at_us := u64 (now_us + LIST_REFRESH_INTERVAL_US) |> in
  let '(decoded, reply) := ListReplyMessage_Decode list_reply0 body in
  if negb decoded then (listed self, w)
  else
    let self := self <| sb_catalogue := (InterfaceCatalogue_AppendPage (sb_catalogue self) reply).2 |>
                     <| sb_listing_offset := u16 (sb_listing_offset self + lr_count reply) |> in
    if has_flag (lr_flags reply) LIST_REPLY_FLAG_MORE && (lr_count reply >? 0) then (self, sendListPage (sb_listing_offset self) w) else (listed self, w).

Definition handleOpenAck (self : SocketcandBridge) (ack : OpenAckMessage) (w : W) : SocketcandBridge * W :=
  match ConnectionTable_FindPendingOpen (sb_connections self) (open_ack_interface_id ack) with
  | None => (self, w)
  | Some i =>
      let c := connection_at self i in
      let pending_write := bool_decide (co_open_state c = kSOCKETCAND_OPEN_PENDING_WRITE) in
      if open_ack_status ack =? OPEN_STATUS_OK then
        (with_connection i (λ c, c <| co_channel := open_ack_channel ack |> <| co_channel_valid := true |> <| co_can_write := pending_write |>
                                   <| co_open_state := kSOCKETCAND_OPEN_DONE |> <| co_mode := kSOCKETCAND_MODE_BCM |>) self,
         sendAscii (co_connection_id c) (SocketcandCodec_RenderOk ASCII_BUFFER_SIZE) w)
      else if pending_write && (open_ack_status ack =? OPEN_STATUS_WRITE_DENIED) then
        let '(seq, connections) := ConnectionTable_NextOpenSeq (sb_connections self) in
        let self := self <| sb_connections := connections |> in
        (with_connection i (λ c, c <| co_open_state := kSOCKETCAND_OPEN_PENDING_READ |> <| co_open_seq := seq |>) self,
         sendOpen (co_interface_id c) OPEN_FLAGS_READ_ONLY w)
      else closeConnection self i (lit "open rejected") w
  end.

Definition transportOnControl (self : SocketcandBridge) (data : list Z) (now_us : Z) (w : W) : SocketcandBridge * W :=
  match MessageHeader_Decode data with
  | None => (self, w)
  | Some header =>
      if Nat.ltb (length data) (MESSAGE_HEADER_SIZE + Z.to_nat (header_length header)) then (self, w)
      else
        let body := slice MESSAGE_HEADER_SIZE (Z.to_nat (header_length header)) data in
        if header_type header =? kMESSAGE_TYPE_LIST_REPLY then handleListReply self body now_us w
        else if header_type header =? kMESSAGE_TYPE_OPEN_ACK then
          let '(decoded, ack) := OpenAckMessage_Decode {| open_ack_status := 0; open_ack_channel := 0; open_ack_interface_id := 0 |} body in
          if (decoded : bool) then handleOpenAck self ack w else (self, w)
        else if header_type header =? kMESSAGE_TYPE_CONFIGURE_REPLY then
          let '(decoded, reply) := ConfigureReplyMessage_Decode configure_reply0 body in
          if (decoded : bool) then handleConfigureReply self reply w else (self, w)
        else (self, w)
  end.

Definition deliverFrame (self : SocketcandBridge) (data : list Z) (w : W) : W :=
  match MessageHeader_Decode data with
  | None => w
  | Some header =>
      if negb (header_type header =? kMESSAGE_TYPE_FRAME) || Nat.ltb (length data) (MESSAGE_HEADER_SIZE + Z.to_nat (header_length header)) then w
      else
        let '(decoded, frame) := FrameMessage_Decode frame_zero (slice MESSAGE_HEADER_SIZE (Z.to_nat (header_length header)) data) in
        if negb decoded then w
        else
          match ConnectionTable_FindByChannel (sb_connections self) (frame_channel frame) with
          | None => w
          | Some i =>
              let c := connection_at self i in
              if bool_decide (co_mode c ≠ kSOCKETCAND_MODE_RAW) then w else sendAscii (co_connection_id c) (SocketcandCodec_RenderFrame ASCII_BUFFER_SIZE frame) w
          end
  end.

Definition transportOnFrame (self : SocketcandBridge) (data : list Z) (w : W) : W := deliverFrame self data w.

End Bridge.
