(* ===== verification/SocketcandBytes.v ===== *)
(** * The bytes of a socketcand client

    Whatever way the bytes of a client are cut into reads, the bridge obeys
    exactly the commands the stream holds, in order, until one of them closes the
    connection. *)

From Stdlib Require Import String.
From S2P Require Import Prelude CString Wire Codec HelloMessage RegisterMessage OpenMessage ListMessage FrameMessage TxnMessage TxnStepsMessage IfconfigMessage ControlPlane InterfaceName StepRing IsotpLink TransactionRunner AsciiFramer.
From S2P Require Import SocketcandCodec SocketcandBridge.

(** ** The framer of a connection is only read by the byte loop *)

Definition put_framer (F : AsciiFramer) (c : SocketcandConnection) : SocketcandConnection := c <| co_framer := F |>.
Definition hold (i : nat) (F : AsciiFramer) (self : SocketcandBridge) : SocketcandBridge := with_connection i (put_framer F) self.

Lemma alter_same {A} (f : A → A) i (l : list A) : (∀ x, l !! i = Some x → f x = x) → alter f i l = l.
Proof.
  intros Hf. apply list_eq. intros j. destruct (decide (j = i)) as [->|]; [|by rewrite list_lookup_alter_ne]. rewrite list_lookup_alter_eq. destruct (l !! i) as [x|]; [|done].
  cbn. by rewrite Hf.
Qed.

Lemma alter_alter_same {A} (f g : A → A) i (l : list A) : alter f i (alter g i l) = alter (λ x, f (g x)) i l.
Proof.
  apply list_eq. intros j. destruct (decide (j = i)) as [->|]; [|by rewrite !list_lookup_alter_ne]. rewrite !list_lookup_alter_eq. by destruct (l !! i).
Qed.

Lemma alter_commutes {A} (f g : A → A) i j (l : list A) : (∀ x, f (g x) = g (f x)) → alter f i (alter g j l) = alter g j (alter f i l).
Proof.
  intros Hfg. destruct (decide (i = j)) as [->|Hne].
  - rewrite !alter_alter_same. apply list_eq. intros k. destruct (decide (k = j)) as [->|]; [|by rewrite !list_lookup_alter_ne]. rewrite !list_lookup_alter_eq.
    destruct (l !! j); [|done]. cbn. by rewrite Hfg.
  - apply list_eq. intros k. destruct (decide (k = i)) as [->|]; [by rewrite list_lookup_alter_eq, !list_lookup_alter_ne, list_lookup_alter_eq by done|].
    rewrite list_lookup_alter_ne by done. destruct (decide (k = j)) as [->|]; [by rewrite !list_lookup_alter_eq, list_lookup_alter_ne by done|by rewrite !list_lookup_alter_ne by done].
Qed.

Lemma scan_alter_same {A} (P : A → bool) f i (l : list A) : (∀ x, P (f x) = P x) → scan P (alter f i l) = scan P l.
Proof.
  intros HP. revert i. induction l as [|x l IH]; intros i; [done|]. destruct i as [|i]; cbn; [by rewrite HP|]. destruct (P x); [done|]. f_equal. apply IH.
Qed.

Lemma oldest_alter eligible seq f n k o l : (∀ c, eligible (f c) = eligible c) → (∀ c, seq (f c) = seq c) → oldest_loop eligible seq n o (alter f k l) = oldest_loop eligible seq n o l.
Proof.
  intros He Hs. revert n k o. induction l as [|c l IH]; intros n k o; [done|]. destruct k as [|k]; cbn [alter list_alter oldest_loop]; [by rewrite He, Hs|]. apply IH.
Qed.

(** Every field but the framer. *)
Definition facts (c : SocketcandConnection) :=
  (co_in_use c, co_connection_id c, co_mode c, co_open_state c, co_interface_id c, co_open_seq c, co_channel c, co_channel_valid c, co_can_write c, co_bus c, co_configure c).

Lemma hold_at i F self j : facts (connection_at (hold i F self) j) = facts (connection_at self j).
Proof.
  unfold connection_at, hold, with_connection, on_connection. destruct self as [cat t]. destruct t as [l a b]. cbn. rewrite !list_lookup_total_alt.
  destruct (decide (j = i)) as [->|]; [|by rewrite list_lookup_alter_ne]. rewrite list_lookup_alter_eq. by destruct (l !! i).
Qed.

Lemma hold_with i F self j f : (∀ c, f (put_framer F c) = put_framer F (f c)) → with_connection j f (hold i F self) = hold i F (with_connection j f self).
Proof.
  intros Hf. unfold hold, with_connection, on_connection, set_field. destruct self as [cat t]. destruct t as [l a b]. cbn. do 2 f_equal. by apply alter_commutes.
Qed.

Lemma hold_hold i F F' self : hold i F (hold i F' self) = hold i F self.
Proof. unfold hold, with_connection, on_connection, set_field. destruct self as [cat t]. destruct t as [l a b]. cbn. do 2 f_equal. by rewrite alter_alter_same. Qed.

Lemma hold_own i self : hold i (co_framer (connection_at self i)) self = self.
Proof.
  unfold hold, with_connection, on_connection, connection_at, set_field. destruct self as [cat t]. destruct t as [l a b]. cbn. do 2 f_equal. apply alter_same.
  intros c Hc. rewrite (list_lookup_total_correct _ _ _ Hc). by destruct c.
Qed.

Lemma hold_framer i F self : (i < length (ct_connections (sb_connections self)))%nat → co_framer (connection_at (hold i F self) i) = F.
Proof.
  intros Hi. unfold connection_at, hold, with_connection, on_connection. destruct self as [cat t]. destruct t as [l a b]. cbn in *. rewrite list_lookup_total_alt, list_lookup_alter_eq.
  apply lookup_lt_is_Some_2 in Hi as [c Hc]. by rewrite Hc.
Qed.

(** A change of the table that leaves framers alone. *)
Definition apart (T : ConnectionTable → ConnectionTable) : Prop := ∀ i F t, T (on_connection i (put_framer F) t) = on_connection i (put_framer F) (T t).

Lemma hold_table T i F self : apart T →
  hold i F self <| sb_connections := T (sb_connections (hold i F self)) |> = hold i F (self <| sb_connections := T (sb_connections self) |>).
Proof. intros HT. unfold hold, with_connection, set_field. destruct self. cbn. by rewrite HT. Qed.

Lemma find_apart i F t id : ConnectionTable_Find (on_connection i (put_framer F) t) id = ConnectionTable_Find t id.
Proof. by apply scan_alter_same. Qed.

Lemma oldest_apart i F t : ConnectionTable_OldestQueuedConfigure (on_connection i (put_framer F) t) = ConnectionTable_OldestQueuedConfigure t.
Proof. by apply oldest_alter. Qed.

Lemma on_apart j f : (∀ F c, f (put_framer F c) = put_framer F (f c)) → apart (on_connection j f).
Proof. intros Hf i F t. unfold on_connection, set_field. destruct t. cbn. f_equal. by apply alter_commutes. Qed.

Lemma remove_apart id : apart (λ t, ConnectionTable_Remove t id).
Proof. intros i F t. unfold ConnectionTable_Remove. rewrite find_apart. destruct (ConnectionTable_Find t id) as [j|]; [|done]. by apply on_apart. Qed.

Lemma queue_apart j bus settings : apart (λ t, ConnectionTable_QueueConfigure t j bus settings).
Proof. intros i F t. unfold ConnectionTable_QueueConfigure. cbn. rewrite <- on_apart by done. by destruct t. Qed.

Section Apart.
Context {W : Type} (hub : BridgeHubPort W) (server : SocketcandServerPort W) (i : nat) (F : AsciiFramer).

Definition held_in (out : SocketcandBridge * W) : SocketcandBridge * W := (hold i F out.1, out.2).
Definition held_in' (out : bool * SocketcandBridge * W) : bool * SocketcandBridge * W := (out.1.1, hold i F out.1.2, out.2).

Ltac same_facts j := let H := fresh in pose proof (hold_at i F) as H; unfold facts in H;
  repeat match goal with |- context [connection_at (hold i F ?s) j] => let H' := fresh in pose proof (H s j) as H'; injection H'; clear H'; intros;
    repeat match goal with E : _ (connection_at (hold i F s) j) = _ |- _ => rewrite !E; clear E end end; clear H.

Lemma close_apart self j detail w : closeConnection server (hold i F self) j detail w = held_in (closeConnection server self j detail w).
Proof. unfold closeConnection, held_in. same_facts j. cbn [fst snd]. f_equal. exact (hold_table (λ t, ConnectionTable_Remove t _) i F self (remove_apart _)). Qed.

Lemma unqueue_apart self j : with_connection j unqueue (hold i F self) = hold i F (with_connection j unqueue self).
Proof. by apply hold_with. Qed.

Lemma sendConfigure_apart self j w : sendConfigure hub server (hold i F self) j w = held_in' (sendConfigure hub server self j w).
Proof.
  unfold sendConfigure, held_in'. rewrite unqueue_apart. same_facts j. destruct (InterfaceName_Split _ _ _) as [[] [agent name]]; [|done].
  destruct (ConfigureMessage_Encode _ _) as [[|n] bs]; [done|]. cbn [Nat.eqb fst snd]. by destruct (with_connection j unqueue self).
Qed.

Lemma configure_loop_apart fuel self w : configure_loop hub server fuel (hold i F self) w = held_in (configure_loop hub server fuel self w).
Proof.
  revert self w. induction fuel as [|fuel IH]; intros self w; cbn [configure_loop]; [done|].
  change (sb_connections (hold i F self)) with (on_connection i (put_framer F) (sb_connections self)). rewrite oldest_apart.
  destruct (ConnectionTable_OldestQueuedConfigure (sb_connections self)) as [j|]; [|done]. rewrite sendConfigure_apart.
  destruct (sendConfigure hub server self j w) as [[[] self'] w']; [done|]. cbn [held_in' fst snd]. apply IH.
Qed.

Lemma next_configure_apart self w : sendNextConfigure hub server (hold i F self) w = held_in (sendNextConfigure hub server self w).
Proof.
  unfold sendNextConfigure. change (sb_configure_in_flight (hold i F self)) with (sb_configure_in_flight self). change (sb_hub_state (hold i F self)) with (sb_hub_state self).
  destruct (_ || _); [done|]. apply configure_loop_apart.
Qed.

Lemma queueConfigure_apart self j command w : queueConfigure hub server (hold i F self) j command w = held_in (queueConfigure hub server self j command w).
Proof.
  unfold queueConfigure. same_facts j. destruct (bool_decide _); [done|]. destruct (_ =? 0); [done|]. rewrite <- next_configure_apart. f_equal.
  exact (hold_table (λ t, ConnectionTable_QueueConfigure t j (sc_bus command) (sc_settings command)) i F self (queue_apart _ _ _)).
Qed.

Lemma openBus_apart self j bus w : openBus hub server (hold i F self) j bus w = held_in' (openBus hub server self j bus w).
Proof.
  unfold openBus. same_facts j. destruct (bool_decide (co_open_state _ ≠ _)).
  { rewrite close_apart. by destruct (closeConnection server self j _ w). }
  change (sb_hub_state (hold i F self)) with (sb_hub_state self). change (sb_catalogue (hold i F self)) with (sb_catalogue self).
  destruct (if bool_decide _ then _ else _) as [id|]; [|rewrite close_apart; by destruct (closeConnection server self j _ w)].
  unfold ConnectionTable_NextOpenSeq. cbn [fst snd]. unfold held_in'. cbn [fst snd]. do 2 f_equal. change (ct_next_open_seq (sb_connections (hold i F self))) with (ct_next_open_seq (sb_connections self)).
  by rewrite <- hold_with.
Qed.

Lemma handleSend_apart self j frame w : handleSend hub server (hold i F self) j frame w = handleSend hub server self j frame w.
Proof. unfold handleSend. by same_facts j. Qed.

Lemma dispatch_apart self j command w : dispatchCommand hub server (hold i F self) j command w = held_in' (dispatchCommand hub server self j command w).
Proof.
  unfold dispatchCommand. same_facts j. destruct (sc_kind command); try done.
  - apply openBus_apart.
  - unfold held_in'. cbn [fst snd]. by rewrite hold_with.
  - unfold held_in'. cbn [fst snd]. by rewrite hold_with.
  - unfold held_in'. cbn [fst snd]. by rewrite handleSend_apart.
  - rewrite queueConfigure_apart. by destruct (queueConfigure hub server self j command w).
  - rewrite queueConfigure_apart. by destruct (queueConfigure hub server self j command w).
Qed.
End Apart.

(** ** Obeying a list of commands *)

Section Bytes.
Context {W : Type} (hub : BridgeHubPort W) (server : SocketcandServerPort W).

(** The commands one after the other; one that does not parse is skipped, one
    that closes the connection is the last.  A command keeps its first 255
    characters. *)
Fixpoint obey (self : SocketcandBridge) (connection : nat) (texts : list (list Z)) (w : W) : bool * SocketcandBridge * W :=
  match texts with
  | [] => (true, self, w)
  | text :: texts' =>
      match SocketcandCodec_Parse (take 255 text) with
      | None => obey self connection texts' w
      | Some command => let '(open, self, w) := dispatchCommand hub server self connection command w in if (open : bool) then obey self connection texts' w else (false, self, w)
      end
  end.

Lemma obey_apart i F self j texts w : obey (hold i F self) j texts w = held_in' i F (obey self j texts w).
Proof.
  revert self w. induction texts as [|t texts IH]; intros self w; cbn [obey]; [done|]. destruct (SocketcandCodec_Parse _) as [command|]; [|apply IH]. rewrite dispatch_apart.
  destruct (dispatchCommand hub server self j command w) as [[[] self'] w']; [|done]. cbn [held_in' fst snd]. apply IH.
Qed.

Lemma obey_app self j t1 t2 w : obey self j (t1 ++ t2) w = let '(open, self', w') := obey self j t1 w in if (open : bool) then obey self' j t2 w' else (false, self', w').
Proof.
  revert self w. induction t1 as [|t t1 IH]; intros self w; cbn [app obey]; [done|]. destruct (SocketcandCodec_Parse _) as [command|]; [|apply IH].
  by destruct (dispatchCommand hub server self j command w) as [[[] self'] w'].
Qed.

(** The table keeps its size, so a pointer stays a pointer. *)
Lemma length_on j f t : length (ct_connections (on_connection j f t)) = length (ct_connections t).
Proof. apply length_alter. Qed.

Lemma length_hold i F self : length (ct_connections (sb_connections (hold i F self))) = length (ct_connections (sb_connections self)).
Proof. apply length_alter. Qed.

Definition room (self : SocketcandBridge) : nat := length (ct_connections (sb_connections self)).

Lemma room_with j f self : room (with_connection j f self) = room self.
Proof. apply length_alter. Qed.

Lemma room_close self j detail w : room (closeConnection server self j detail w).1 = room self.
Proof. unfold closeConnection, ConnectionTable_Remove. cbn [fst]. destruct (ConnectionTable_Find _ _); [|done]. apply length_alter. Qed.

Lemma room_configure fuel self w : room (configure_loop hub server fuel self w).1 = room self.
Proof.
  revert self w. induction fuel as [|fuel IH]; intros self w; cbn [configure_loop]; [done|]. destruct (ConnectionTable_OldestQueuedConfigure _) as [j|]; [|done].
  assert (room (sendConfigure hub server self j w).1.2 = room self) as Hs.
  { rewrite <- (room_with j unqueue self). unfold sendConfigure. destruct (InterfaceName_Split _ _ _) as [[] [agent name]]; [|done]. by destruct (ConfigureMessage_Encode _ _) as [[|n] bs]. }
  destruct (sendConfigure hub server self j w) as [[[] self'] w']; [done|]. rewrite IH. done.
Qed.

Lemma room_dispatch self j command w : room (dispatchCommand hub server self j command w).1.2 = room self.
Proof.
  assert (room (queueConfigure hub server self j command w).1 = room self) as Hq.
  { unfold queueConfigure. destruct (bool_decide _); [done|]. destruct (_ =? 0); [done|]. unfold sendNextConfigure. destruct (_ || _); [apply length_alter|]. rewrite room_configure. apply length_alter. }
  unfold dispatchCommand. destruct (sc_kind command); try done; try apply length_alter; try by destruct (queueConfigure hub server self j command w).
  unfold openBus. destruct (bool_decide (co_open_state _ ≠ _)); [pose proof (room_close self j (lit "bus already open") w); by destruct (closeConnection server self j _ w)|].
  destruct (if bool_decide _ then _ else _) as [id|]; [apply length_alter|]. pose proof (room_close self j (lit "could not open bus") w). by destruct (closeConnection server self j _ w).
Qed.

(** Draining the buffer obeys the commands it holds whole. *)
Lemma command_loop_exact fuel self i w :
  (i < room self)%nat → framer_ok (co_framer (connection_at self i)) → (af_used (co_framer (connection_at self i)) < fuel)%nat →
  let '(texts, a') := scan_text Outside (held (co_framer (connection_at self i))) in
  let '(open, self', w') := obey self i texts w in
  ∃ F, command_loop hub server fuel self i w = (open, hold i F self', w') ∧ room self' = room self ∧ (open = true → framer_ok F ∧ held F = pending_text a').
Proof.
  revert self w. induction fuel as [|fuel IH]; intros self w Hi Hok Hfuel; [lia|]. cbn [command_loop].
  pose proof (next_scan (co_framer (connection_at self i)) 256 Hok ltac:(lia)) as Hn. destruct (AsciiFramer_Next _ 256) as [[text|] f'].
  - destruct Hn as (Hok' & whole & -> & Hless & Hscan). rewrite Hscan. cbn [obey Nat.sub]. change (with_connection i (λ c, c <| co_framer := f' |>) self) with (hold i f' self).
    assert (∀ s v, room s = room self → let '(texts, a') := scan_text Outside (held f') in let '(open, self', w') := obey s i texts v in
      ∃ F, command_loop hub server fuel (hold i f' s) i v = (open, hold i F self', w') ∧ room self' = room self ∧ (open = true → framer_ok F ∧ held F = pending_text a')) as Hnext.
    { intros s v Hs. assert (i < room s)%nat as His by lia. specialize (IH (hold i f' s) v). rewrite !hold_framer in IH by done. unfold room in IH at 1. rewrite length_hold in IH. specialize (IH His Hok' ltac:(lia)).
      destruct (scan_text Outside (held f')) as [texts a']. rewrite obey_apart in IH. destruct (obey s i texts v) as [[open s'] v']. cbn [held_in' fst snd] in IH.
      destruct IH as (F & -> & Hr & HF). exists F. rewrite hold_hold. split; [done|]. split; [|done]. unfold room in *. rewrite !length_hold in Hr. congruence. }
    destruct (SocketcandCodec_Parse (take 255 whole)) as [command|].
    + rewrite dispatch_apart. pose proof (room_dispatch self i command w) as Hrd. destruct (dispatchCommand hub server self i command w) as [[[] s] v]; cbn [held_in' fst snd] in *.
      * specialize (Hnext s v Hrd). by destruct (scan_text Outside (held f')) as [texts a'].
      * exists f'. by split.
    + specialize (Hnext self w eq_refl). by destruct (scan_text Outside (held f')) as [texts a'].
  - destruct Hn as (Hok' & a & Ha & Hscan & Hheld). rewrite Hscan. cbn [obey]. exists f'. by split.
Qed.
(** Rounds of the byte loop: one per byte at least, and one to give up a full buffer. *)
Definition rounds (a : scan_state) (data : list Z) : nat := (2 * length data + if Nat.eqb (length (pending_text a)) 512 then 1 else 0)%nat.

Lemma scan_full a c data : scan_ok a → length (pending_text a) = 512%nat → scan_text a (c :: data) = scan_text Outside (c :: data).
Proof.
  intros _ Hl. destruct a as [|text]; [done|]. cbn [pending_text length] in Hl. cbn [scan_text scan_char]. by rewrite (proj2 (Nat.leb_le _ _)) by (unfold scan_limit; lia).
Qed.

Lemma bytes_loop_exact fuel self i a data w :
  (i < room self)%nat → framer_ok (co_framer (connection_at self i)) → scan_ok a → held (co_framer (connection_at self i)) = pending_text a → (rounds a data ≤ fuel)%nat →
  let '(texts, a') := scan_text a data in
  let '(open, self', w') := obey self i texts w in
  ∃ F, bytes_loop hub server fuel self i data w = (hold i F self', w') ∧ (open = true → framer_ok F ∧ held F = pending_text a').
Proof.
  revert self a data w. induction fuel as [|fuel IH]; intros self a data w Hi Hok Ha Hheld Hfuel; (destruct data as [|c data]; [cbn; exists (co_framer (connection_at self i)); by rewrite hold_own|]).
  { unfold rounds in Hfuel. cbn in Hfuel. lia. }
  cbn [bytes_loop]. change (Nat.eqb (length (c :: data)) 0) with false. cbv iota. set (d := c :: data) in *.
  pose proof (push_held (co_framer (connection_at self i)) d Hok) as Hpush. destruct (AsciiFramer_Push _ d) as [taken f]. destruct Hpush as (Ht & Hok' & Hheld'). rewrite Hheld in Hheld'.
  pose proof (length_held _ Hok) as Hused. rewrite Hheld in Hused. change (with_connection i (λ c0, c0 <| co_framer := f |>) self) with (hold i f self).
  pose proof (command_loop_exact 513 (hold i f self) i w) as Hc. rewrite hold_framer in Hc by done. unfold room in Hc at 1. rewrite length_hold in Hc.
  specialize (Hc Hi Hok' ltac:(destruct Hok'; lia)). rewrite Hheld', scan_pending in Hc; [|done|rewrite <- Hheld', length_held by done; by destruct Hok'].
  assert (length d = S (length data)) as Hd by done.
  destruct (Nat.eqb_spec taken 0) as [H0|H0].
  - assert (length (pending_text a) = 512%nat) as Hfull by (destruct Hok; lia). rewrite H0 in *. cbn [take scan_text obey] in Hc. destruct Hc as (F & -> & Hroom & HF). cbn [negb drop].
    assert (scan_text a d = scan_text Outside d) as -> by (by apply scan_full). rewrite hold_hold. destruct (HF eq_refl) as [HokF HheldF]. destruct (reset_ok F HokF) as [Hok0 Hheld0].
    assert (with_connection i (λ c0, c0 <| co_framer := AsciiFramer_Reset (co_framer c0) |>) (hold i F self) = hold i (AsciiFramer_Reset F) self) as ->.
    { unfold hold, with_connection, on_connection, set_field. destruct self as [cat t]. destruct t as [l x y]. cbn. do 2 f_equal. by rewrite alter_alter_same. }
    specialize (IH (hold i (AsciiFramer_Reset F) self) Outside d w). rewrite !hold_framer in IH by done. unfold room in IH at 1. rewrite length_hold in IH.
    specialize (IH Hi Hok0 ltac:(split; [cbn; lia|done]) Hheld0 ltac:(unfold rounds in *; rewrite Hfull in Hfuel; cbn in *; lia)). rewrite drop_0.
    destruct (scan_text Outside d) as [texts a']. rewrite obey_apart in IH. destruct (obey self i texts w) as [[open s'] v']. cbn [held_in' fst snd] in IH.
    destruct IH as (F' & -> & HF'). exists F'. by rewrite hold_hold.
  - pose proof (scan_text_app a (take taken d) (drop taken d)) as Hsplit. rewrite take_drop in Hsplit. rewrite Hsplit. clear Hsplit. pose proof (scan_text_ok a (take taken d) Ha) as Ha1. destruct (scan_text a (take taken d)) as [texts1 a1]. rewrite obey_apart in Hc. cbn [snd] in Ha1.
    destruct (scan_text a1 (drop taken d)) as [texts2 a2] eqn:Hs2. rewrite obey_app. destruct (obey self i texts1 w) as [[open1 s1] v1]. cbn [held_in' fst snd] in Hc.
    destruct Hc as (F & -> & Hroom & HF). rewrite hold_hold. destruct open1; cbn [negb]; [|exists F; done]. destruct (HF eq_refl) as [HokF HheldF].
    assert (i < room s1)%nat as Hi1 by (unfold room in *; rewrite !length_hold in Hroom; lia).
    specialize (IH (hold i F s1) a1 (drop taken d) v1). rewrite !hold_framer in IH by done. unfold room in IH at 1. rewrite length_hold in IH.
    assert (rounds a1 (drop taken d) ≤ fuel)%nat as Hr by (unfold rounds in *; rewrite length_drop, Hd in *; destruct (Nat.eqb (length (pending_text a1)) 512); lia).
    specialize (IH Hi1 HokF Ha1 HheldF Hr). rewrite Hs2, obey_apart in IH. destruct (obey s1 i texts2 v1) as [[open s'] v']. cbn [held_in' fst snd] in IH.
    destruct IH as (F' & -> & HF'). exists F'. by rewrite hold_hold.
Qed.
End Bytes.

(** ** Which connections there are *)

Definition conn_key (c : SocketcandConnection) : bool * Z := (co_in_use c, co_connection_id c).
Definition conn_keys (self : SocketcandBridge) : list (bool * Z) := conn_key <$> ct_connections (sb_connections self).

Lemma scan_fmap {A B} (P : B → bool) (f : A → B) l : scan P (f <$> l) = scan (λ x, P (f x)) l.
Proof. induction l as [|x l IH]; [done|]. cbn. destruct (P (f x)); [done|]. by f_equal. Qed.

Lemma find_keys self id : ConnectionTable_Find (sb_connections self) id = scan (λ k, k.1 && (k.2 =? id)) (conn_keys self).
Proof. unfold conn_keys. by rewrite scan_fmap. Qed.

Lemma fmap_alter_keeps {A B} (g : A → B) f i (l : list A) : (∀ x, g (f x) = g x) → g <$> alter f i l = g <$> l.
Proof. intros Hg. revert i. induction l as [|x l IH]; intros [|i]; cbn; [done|done|by rewrite Hg|]. f_equal. apply IH. Qed.

Lemma keys_with j f self : (∀ c, conn_key (f c) = conn_key c) → conn_keys (with_connection j f self) = conn_keys self.
Proof. intros Hf. exact (fmap_alter_keeps conn_key f j _ Hf). Qed.

Lemma keys_hold i F self : conn_keys (hold i F self) = conn_keys self.
Proof. by apply keys_with. Qed.

(** The pointer leads to the live connection of that identifier, the only one. *)
Record points_to (self : SocketcandBridge) (i : nat) (id : Z) : Prop := {
  pt_key : conn_keys self !! i = Some (true, id);
  pt_only : ∀ j, conn_keys self !! j = Some (true, id) → j = i;
}.

Lemma points_find self i id : points_to self i id → ConnectionTable_Find (sb_connections self) id = Some i.
Proof.
  intros [Hk Ho]. rewrite find_keys. eapply scan_unique; [exact Hk|cbn; apply Z.eqb_refl|]. intros j [u x] Hj Hp. cbn in Hp. apply andb_true_iff in Hp as [-> ->%Z.eqb_eq]. by apply Ho.
Qed.

Lemma points_room self i id : points_to self i id → (i < room self)%nat ∧ conn_key (connection_at self i) = (true, id).
Proof.
  intros [Hk _]. unfold conn_keys in Hk. apply list_lookup_fmap_Some_1 in Hk as (c & Hc & Hl). split; [by apply lookup_lt_Some in Hl|]. unfold connection_at.
  by rewrite (list_lookup_total_correct _ _ _ Hl).
Qed.

Section Keys.
Context {W : Type} (hub : BridgeHubPort W) (server : SocketcandServerPort W).

Lemma keys_close self i id detail w : points_to self i id → conn_keys (closeConnection server self i detail w).1 = <[i := (false, id)]> (conn_keys self).
Proof.
  intros Hp. destruct (points_room _ _ _ Hp) as [Hi Hk]. injection Hk as _ Hid. unfold closeConnection, ConnectionTable_Remove. cbn [fst]. rewrite Hid.
  rewrite (points_find _ _ _ Hp). unfold conn_keys. apply lookup_lt_is_Some_2 in Hi as [c Hc]. change (ct_connections _) with (alter (λ c, c <| co_in_use := false |>) i (ct_connections (sb_connections self))) at 1.
  rewrite (alter_insert_at _ _ _ _ Hc), list_fmap_insert. f_equal. unfold conn_key. cbn. f_equal. unfold connection_at in Hid. by rewrite (list_lookup_total_correct _ _ _ Hc) in Hid.
Qed.

Lemma keys_configure fuel self w : conn_keys (configure_loop hub server fuel self w).1 = conn_keys self.
Proof.
  revert self w. induction fuel as [|fuel IH]; intros self w; cbn [configure_loop]; [done|]. destruct (ConnectionTable_OldestQueuedConfigure _) as [j|]; [|done].
  assert (conn_keys (sendConfigure hub server self j w).1.2 = conn_keys self) as Hs.
  { rewrite <- (keys_with j unqueue self) by done. unfold sendConfigure. destruct (InterfaceName_Split _ _ _) as [[] [agent name]]; [|done]. by destruct (ConfigureMessage_Encode _ _) as [[|n] bs]. }
  destruct (sendConfigure hub server self j w) as [[[] self'] w']; [done|]. rewrite IH. done.
Qed.

Definition after_command (open : bool) (i : nat) (id : Z) (keys keys' : list (bool * Z)) : Prop := keys' = if open then keys else <[i := (false, id)]> keys.

Lemma keys_dispatch self i id command w : points_to self i id →
  let '(open, self', w') := dispatchCommand hub server self i command w in after_command open i id (conn_keys self) (conn_keys self').
Proof.
  intros Hp. assert (conn_keys (queueConfigure hub server self i command w).1 = conn_keys self) as Hq.
  { unfold queueConfigure. destruct (bool_decide _); [done|]. destruct (_ =? 0); [done|]. unfold sendNextConfigure. destruct (_ || _); [|rewrite keys_configure]; by apply fmap_alter_keeps. }
  unfold dispatchCommand, after_command. destruct (sc_kind command); try done; try (by apply keys_with); try (by destruct (queueConfigure hub server self i command w)).
  unfold openBus. destruct (bool_decide (co_open_state _ ≠ _)); [pose proof (keys_close self i id (lit "bus already open") w Hp); by destruct (closeConnection server self i _ w)|].
  destruct (if bool_decide _ then _ else _) as [iface|]; [by apply fmap_alter_keeps|]. pose proof (keys_close self i id (lit "could not open bus") w Hp). by destruct (closeConnection server self i _ w).
Qed.

Lemma points_same self self' i id : conn_keys self' = conn_keys self → points_to self i id → points_to self' i id.
Proof. intros Hk [H1 H2]. split; rewrite Hk; done. Qed.

Lemma keys_obey self i id texts w : points_to self i id →
  let '(open, self', w') := obey hub server self i texts w in after_command open i id (conn_keys self) (conn_keys self').
Proof.
  revert self w. induction texts as [|t texts IH]; intros self w Hp; cbn [obey]; [done|]. destruct (SocketcandCodec_Parse _) as [command|]; [|by apply IH].
  pose proof (keys_dispatch self i id command w Hp) as Hd. destruct (dispatchCommand hub server self i command w) as [[[] s] v]; [|done]. unfold after_command in Hd.
  specialize (IH s v (points_same _ _ _ _ Hd Hp)). by rewrite Hd in IH.
Qed.
End Keys.

Section Client.
Context {W : Type} (hub : BridgeHubPort W) (server : SocketcandServerPort W).

(** The reads of one client, one after the other. *)
Definition reads (id : Z) (chunks : list (list Z)) (st : SocketcandBridge * W) : SocketcandBridge * W :=
  foldl (λ st data, serverOnClientBytes hub server st.1 id data st.2) st chunks.

Lemma reads_closed id chunks self w : ConnectionTable_Find (sb_connections self) id = None → reads id chunks (self, w) = (self, w).
Proof. intros Hf. induction chunks as [|d chunks IH]; [done|]. unfold reads. cbn [foldl fst snd]. unfold serverOnClientBytes at 2. rewrite Hf. exact IH. Qed.

Lemma closed_gone self i id keys : points_to self i id → keys = <[i := (false, id)]> (conn_keys self) → scan (λ k, k.1 && (k.2 =? id)) keys = None.
Proof.
  intros [_ Ho] ->. apply scan_None. intros j [u x] [(-> & <- & _)|(Hne & Hj)]%list_lookup_insert_Some; [done|]. destruct u; [|done]. cbn. apply Z.eqb_neq. intros ->.
  by apply Hne, eq_sym, Ho.
Qed.

Lemma read_exact self i id a data w :
  points_to self i id → framer_ok (co_framer (connection_at self i)) → scan_ok a → held (co_framer (connection_at self i)) = pending_text a →
  let '(texts, a') := scan_text a data in
  let '(open, self', w') := obey hub server self i texts w in
  ∃ F, serverOnClientBytes hub server self id data w = (hold i F self', w') ∧ (open = true → framer_ok F ∧ held F = pending_text a').
Proof.
  intros Hp Hok Ha Hheld. unfold serverOnClientBytes. rewrite (points_find _ _ _ Hp). destruct (points_room _ _ _ Hp) as [Hi _]. apply bytes_loop_exact; try done.
  unfold rounds. destruct (Nat.eqb _ _); lia.
Qed.

(** C15. The bridge obeys the commands of a client's stream, however it is read.
    For a client whose buffer holds what the reference reader holds back, any
    sequence of reads, of any sizes, has exactly the effect of obeying, one after
    the other, the commands the reference reader finds in the bytes put
    together: text between '<' and '>', given up when 511 characters bring no
    end.  It stops at the command that closes the connection, if one does, and
    otherwise the buffer holds what the reader holds back.  The loops end. *)
Theorem client_commands_exact (self : SocketcandBridge) (i : nat) (id : Z) (a : scan_state) (chunks : list (list Z)) (w : W) :
  points_to self i id → framer_ok (co_framer (connection_at self i)) → scan_ok a → held (co_framer (connection_at self i)) = pending_text a →
  let '(texts, a') := scan_text a (concat chunks) in
  let '(open, self', w') := obey hub server self i texts w in
  ∃ F, reads id chunks (self, w) = (hold i F self', w') ∧ (open = true → framer_ok F ∧ held F = pending_text a').
Proof.
  revert self a w. induction chunks as [|d chunks IH]; intros self a w Hp Hok Ha Hheld.
  { cbn. exists (co_framer (connection_at self i)). by rewrite hold_own. }
  cbn [concat]. rewrite scan_text_app. pose proof (read_exact self i id a d w Hp Hok Ha Hheld) as Hr. pose proof (scan_text_ok a d Ha) as Ha1. destruct (scan_text a d) as [texts1 a1].
  destruct (scan_text a1 (concat chunks)) as [texts2 a2] eqn:Hs2. rewrite obey_app. pose proof (keys_obey hub server self i id texts1 w Hp) as Hk.
  destruct (obey hub server self i texts1 w) as [[open1 s1] v1]. destruct Hr as (F & Hr & HF). unfold reads. cbn [foldl fst snd]. rewrite Hr. cbn [fst snd] in *.
  fold (reads id chunks (hold i F s1, v1)). destruct open1; unfold after_command in Hk.
  - destruct (HF eq_refl) as [HokF HheldF]. assert (points_to s1 i id) as Hp1 by (by apply (points_same self)). destruct (points_room _ _ _ Hp1) as [Hi1 _].
    specialize (IH (hold i F s1) a1 v1). rewrite !hold_framer in IH by done. specialize (IH (points_same _ _ _ _ (keys_hold i F s1) Hp1) HokF Ha1 HheldF). rewrite Hs2, obey_apart in IH.
    destruct (obey hub server s1 i texts2 v1) as [[open s'] v']. cbn [held_in' fst snd] in IH. destruct IH as (F' & -> & HF'). exists F'. by rewrite hold_hold.
  - exists F. split; [|done]. apply reads_closed. rewrite find_keys, keys_hold. by apply (closed_gone self i id).
Qed.
End Client.

(** ** The world as a log of what left the bridge *)

Inductive bridge_out :=
| BoControl (data : list Z) | BoFrame (channel : Z) (data : list Z) | BoLine (connection_id : Z) (text : list Z) | BoClose (connection_id : Z) | BoBeacon (text : list Z).

Definition log_bridge_hub : BridgeHubPort (list bridge_out) := {|
  bh_connect w := (true, w); bh_send_control data w := w ++ [BoControl data]; bh_send_frame channel data w := w ++ [BoFrame channel data] |}.
Definition log_server : SocketcandServerPort (list bridge_out) := {|
  sp_write_client id text w := w ++ [BoLine id text]; sp_close_client id w := w ++ [BoClose id]; sp_send_beacon text w := w ++ [BoBeacon text] |}.

(** ** An example: a command cut in two, noise around it *)

Module SocketcandDemo.

Definition bridge : SocketcandBridge := (serverOnClientConnected log_server (SocketcandBridge_Init None None false) 7 []).1.

End SocketcandDemo.

Lemma client_commands_exact_witness :
  let chunks := [lit " < ec"; lit "ho > <rawmode> < ech"]%string in
  ∃ F, reads log_bridge_hub log_server 7 chunks (SocketcandDemo.bridge, []) =
    (hold 0 F (with_connection 0 (λ c, c <| co_mode := kSOCKETCAND_MODE_RAW |>) SocketcandDemo.bridge),
     [BoLine 7 (lit "< echo >"); BoLine 7 (lit "< ok >")]) ∧ held F = lit "< ech".
Proof.
  intros chunks. assert (conn_keys SocketcandDemo.bridge = (true, 7) :: replicate 31 (false, 0)) as Hk by (vm_compute; reflexivity).
  assert (points_to SocketcandDemo.bridge 0 7) as Hp.
  { split; rewrite Hk; [done|]. intros [|j] Hj; [done|]. by apply (lookup_replicate_1 31) in Hj as [? _]. }
  assert (framer_ok (co_framer (connection_at SocketcandDemo.bridge 0))) as Hok by (split; vm_compute; [reflexivity|lia]).
  pose proof (client_commands_exact log_bridge_hub log_server SocketcandDemo.bridge 0 7 Outside chunks [] Hp Hok
    ltac:(split; [cbn; lia|done]) ltac:(vm_compute; reflexivity)) as H.
  assert (scan_text Outside (concat chunks) = ([lit " echo "; lit "rawmode"], Inside (lit " ech"))%string) as Hs by (vm_compute; reflexivity). rewrite Hs in H.
  cbn [obey] in H. assert (SocketcandCodec_Parse (take 255 (lit " echo ")) = Some (of_kind kSOCKETCAND_COMMAND_ECHO)) as H1 by (vm_compute; reflexivity).
  assert (SocketcandCodec_Parse (take 255 (lit "rawmode")) = Some (of_kind kSOCKETCAND_COMMAND_RAWMODE)) as H2 by (vm_compute; reflexivity).
  rewrite H1 in H. cbn [dispatchCommand of_kind sc_kind] in H. rewrite H2 in H. cbn [dispatchCommand of_kind sc_kind] in H. destruct H as (F & HF & Hopen). exists F.
  split; [exact HF|exact (proj2 (Hopen eq_refl))].
Defined.
