(* ===== verification/SocketcandAcks.v ===== *)
(** * Whose acknowledgement it is

    OPEN_ACK names only the interface, so the bridge gives it to the connection
    that has waited longest for that interface.  As long as the clients that wait
    stay, that is the one whose OPEN the hub answers.  First the queue of requests
    and what each operation does to it, then histories. *)

From Stdlib Require Import String Sorting.Sorted.
From S2P Require Import Prelude CString Wire Codec HelloMessage RegisterMessage OpenMessage ListMessage FrameMessage TxnMessage TxnStepsMessage IfconfigMessage ControlPlane InterfaceName StepRing IsotpLink TransactionRunner MirrorTheorems.
From S2P Require Import AsciiFramer SocketcandCodec SocketcandBridge SocketcandBytes.

(** ** A queue of requests over the slots of the table *)

(** What matters of a slot. *)
Record okey := { k_live : bool; k_id : Z; k_state : TSOCKETCAND_OPEN_STATE; k_iface : Z; k_seq : Z }.
Definition open_key (c : SocketcandConnection) : okey :=
  {| k_live := co_in_use c; k_id := co_connection_id c; k_state := co_open_state c; k_iface := co_interface_id c; k_seq := co_open_seq c |}.
Definition open_keys (self : SocketcandBridge) : list okey := open_key <$> ct_connections (sb_connections self).

Definition waits (k : okey) : Prop := k_live k = true ∧ (k_state k = kSOCKETCAND_OPEN_PENDING_WRITE ∨ k_state k = kSOCKETCAND_OPEN_PENDING_READ).
Definition asked_state (m : OpenMessage) : TSOCKETCAND_OPEN_STATE :=
  if has_flag (open_flags m) OPEN_FLAG_WANT_WRITE then kSOCKETCAND_OPEN_PENDING_WRITE else kSOCKETCAND_OPEN_PENDING_READ.

(** Slot and OPEN: the slot waits for the answer to that OPEN. *)
Definition request : Type := nat * OpenMessage.
Definition waits_for (K : list okey) (x : request) : Prop := ∃ k, K !! x.1 = Some k ∧ k_live k = true ∧ k_state k = asked_state x.2 ∧ k_iface k = open_interface_id x.2.
Definition seq_of (K : list okey) (j : nat) : Z := default 0 (k_seq <$> K !! j).

(** The requests in the order they were sent, one for each slot that waits, the slot [j] left aside. *)
Record fifo_but (j : option nat) (K : list okey) (next : Z) (Q : list request) : Prop := {
  ff_waits : Forall (waits_for K) Q;
  ff_order : StronglySorted (λ x y, seq_of K x.1 < seq_of K y.1) Q;
  ff_all : ∀ i k, K !! i = Some k → waits k → Some i ≠ j → i ∈ Q.*1;
  ff_next : Forall (λ x, seq_of K x.1 ≤ next) Q;
}.
Notation fifo := (fifo_but None).

Lemma seq_of_ne K i j k : i ≠ j → seq_of (<[i := k]> K) j = seq_of K j.
Proof. intros Hne. unfold seq_of. by rewrite list_lookup_insert_ne. Qed.

Lemma waits_for_ne K i k x : i ≠ x.1 → waits_for K x → waits_for (<[i := k]> K) x.
Proof. intros Hne (k0 & Hk & H). exists k0. by rewrite list_lookup_insert_ne. Qed.

Lemma sorted_ext {A} (R R' : A → A → Prop) l : (∀ x y, x ∈ l → y ∈ l → R x y → R' x y) → StronglySorted R l → StronglySorted R' l.
Proof.
  intros H Hs. induction Hs as [|x l Hs IH Hall]; constructor.
  - apply IH. intros a b Ha Hb. apply H; by apply list_elem_of_further.
  - rewrite Forall_forall in *. intros y Hy. apply H; [apply list_elem_of_here|by apply list_elem_of_further|by apply Hall].
Qed.

Lemma sorted_snoc {A} (R : A → A → Prop) l x : StronglySorted R l → Forall (λ y, R y x) l → StronglySorted R (l ++ [x]).
Proof.
  intros Hs. induction Hs as [|y l Hs IH Hall]; intros Hx; cbn; [by repeat constructor|]. inversion_clear Hx. constructor; [by apply IH|]. apply Forall_app. split; [done|]. by constructor.
Qed.

(** A slot that is not in the queue changes and does not wait. *)
Lemma fifo_other j K next Q i k : fifo_but j K next Q → (j = None ∨ j = Some i) → i ∉ Q.*1 → ¬ waits k → fifo (<[i := k]> K) next Q.
Proof.
  intros [H1 H2 H3 H4] Hj Hi Hk. assert (∀ x, x ∈ Q → i ≠ x.1) as Hne by (intros x Hx ->; apply Hi; by apply list_elem_of_fmap_2).
  split.
  - rewrite Forall_forall in *. intros x Hx. apply waits_for_ne; [by apply Hne|by apply H1].
  - eapply sorted_ext; [|exact H2]. intros x y Hx Hy. cbn. rewrite !seq_of_ne by (by apply Hne). done.
  - intros i' k' [(-> & <- & _)|(Hn & Hl)]%list_lookup_insert_Some Hw _; [done|]. apply (H3 i' k'); [done|done|]. destruct Hj as [->| ->]; congruence.
  - rewrite Forall_forall in *. intros x Hx. cbn. rewrite seq_of_ne by (by apply Hne). by apply H4.
Qed.

(** A slot that is not in the queue sends a request. *)
Lemma fifo_sent j K next Q i k m : fifo_but j K next Q → (j = None ∨ j = Some i) → i ∉ Q.*1 → (i < length K)%nat →
  k_live k = true → k_state k = asked_state m → k_iface k = open_interface_id m → k_seq k = next + 1 → fifo (<[i := k]> K) (next + 1) (Q ++ [(i, m)]).
Proof.
  intros [H1 H2 H3 H4] Hj Hi Hlen Hl Hs Hf Hseq. assert (∀ x, x ∈ Q → i ≠ x.1) as Hne by (intros x Hx ->; apply Hi; by apply list_elem_of_fmap_2).
  assert ((<[i := k]> K) !! i = Some k) as Hself by (by apply list_lookup_insert_eq). assert (seq_of (<[i := k]> K) i = next + 1) as Hsq by (unfold seq_of; by rewrite Hself).
  split.
  - apply Forall_app. split; [|constructor; [by exists k|done]]. rewrite Forall_forall in *. intros x Hx. apply waits_for_ne; [by apply Hne|by apply H1].
  - apply sorted_snoc.
    + eapply sorted_ext; [|exact H2]. intros x y Hx Hy. cbn. rewrite !seq_of_ne by (by apply Hne). done.
    + rewrite Forall_forall in *. intros x Hx. cbn. rewrite seq_of_ne by (by apply Hne). specialize (H4 x Hx). lia.
  - intros i' k' [(-> & <- & _)|(Hn & Hk)]%list_lookup_insert_Some Hw _; rewrite fmap_app, elem_of_app; [right; by apply list_elem_of_singleton|left].
    apply (H3 i' k'); [done|done|]. destruct Hj as [->| ->]; congruence.
  - apply Forall_app. split; [|constructor; [cbn; lia|done]]. rewrite Forall_forall in *. intros x Hx. cbn. rewrite seq_of_ne by (by apply Hne). specialize (H4 x Hx). lia.
Qed.

(** The first request is answered. *)
Lemma fifo_tail K next j m Q : fifo K next ((j, m) :: Q) → fifo_but (Some j) K next Q ∧ j ∉ Q.*1.
Proof.
  intros [H1 H2 H3 H4]. inversion_clear H1. inversion_clear H2 as [|? ? Hs Hall]. inversion_clear H4. split; [split; try done|].
  - intros i k Hk Hw Hi. destruct (proj1 (elem_of_cons _ _ _) (H3 i k Hk Hw ltac:(done))) as [He|]; [|done]. cbn in He. congruence.
  - intros (y & Hy & Hin)%list_elem_of_fmap. rewrite Forall_forall in Hall. specialize (Hall y Hin). cbn in Hall. rewrite <- Hy in Hall. lia.
Qed.

(** ** The oldest of the table *)

Lemma oldest_keeps eligible seq n j s l : (∀ i c, l !! i = Some c → eligible c = true → s ≤ seq c) → oldest_loop eligible seq n (Some (j, s)) l = Some j.
Proof.
  revert n. induction l as [|c l IH]; intros n H; cbn [oldest_loop]; [done|]. destruct (eligible c) eqn:He; cbn [andb].
  - specialize (H 0%nat c eq_refl He) as Hc. rewrite (proj2 (Z.ltb_ge _ _)) by lia. apply IH. intros i c'. apply (H (S i) c').
  - apply IH. intros i c'. apply (H (S i) c').
Qed.

Lemma oldest_first eligible seq n o j c l :
  l !! j = Some c → eligible c = true → (∀ i c', l !! i = Some c' → eligible c' = true → i ≠ j → seq c < seq c') →
  match o with Some (_, s) => seq c < s | None => True end → oldest_loop eligible seq n o l = Some (n + j)%nat.
Proof.
  revert n o j. induction l as [|x l IH]; intros n o j Hj He Hmin Ho; [done|]. cbn [oldest_loop]. destruct j as [|j].
  - injection Hj as ->. rewrite He. cbn [andb]. replace (match o with Some (_, s) => seq c <? s | None => true end) with true
      by (destruct o as [[? s]|]; [symmetry; by apply Z.ltb_lt|done]).
    rewrite Nat.add_0_r. apply oldest_keeps. intros i c' Hi Hc'. specialize (Hmin (S i) c' Hi Hc' ltac:(lia)). lia.
  - replace (n + S j)%nat with (S n + j)%nat by lia. apply IH; [done|done| |].
    + intros i c' Hi Hc' Hne. apply (Hmin (S i) c'); [done|done|lia].
    + destruct (eligible x) eqn:Hx; cbn [andb]; [|done]. specialize (Hmin 0%nat x eq_refl Hx ltac:(lia)). destruct o as [[? s]|]; [|done]. by destruct (seq x <? s).
Qed.

(** The answer goes to the slot whose request is the first. *)
Lemma pending_head self next j m Q : fifo (open_keys self) next ((j, m) :: Q) → ConnectionTable_FindPendingOpen (sb_connections self) (open_interface_id m) = Some j.
Proof.
  intros Hff. pose proof Hff as [H1 H2 H3 _]. inversion_clear H1 as [|? ? (k & Hk & Hlive & Hst & Hif) _]. cbn [fst snd] in *. inversion_clear H2 as [|? ? _ Hall].
  unfold open_keys in Hk. apply list_lookup_fmap_Some_1 in Hk as (c & -> & Hc). cbn in Hlive, Hst, Hif.
  assert (seq_of (open_keys self) j = co_open_seq c) as Hseq by (unfold seq_of, open_keys; by rewrite list_lookup_fmap, Hc).
  unfold ConnectionTable_FindPendingOpen. apply (oldest_first _ _ 0 None j c); [done| | |done].
  - unfold awaits_open, is_pending. rewrite Hlive, Hif, Hst, Z.eqb_refl. unfold asked_state. by destruct (has_flag _ _).
  - intros i c' Hc' Hw Hne. unfold awaits_open, is_pending in Hw. apply andb_true_iff in Hw as [[Hl Hi]%andb_true_iff Hp]. rewrite orb_true_iff, !bool_decide_eq_true in Hp.
    assert (open_keys self !! i = Some (open_key c')) as Hki by (unfold open_keys; by rewrite list_lookup_fmap, Hc').
    pose proof (H3 i _ Hki (conj Hl Hp) ltac:(done)) as Hin. cbn in Hin. apply elem_of_cons in Hin as [|(y & Hy & Hin)%list_elem_of_fmap]; [congruence|].
    rewrite Forall_forall in Hall. specialize (Hall y Hin). cbn in Hall. rewrite <- Hy, Hseq in Hall. unfold seq_of in Hall. rewrite Hki in Hall. exact Hall.
Qed.

(** ** The OPENs in the log *)

Definition bridge_opens (w : list bridge_out) : list OpenMessage := omap (λ o, match o with BoControl data => open_of data | _ => None end) w.

Lemma bridge_opens_snoc w o : bridge_opens (w ++ [o]) = bridge_opens w ++ option_list (match o with BoControl data => open_of data | _ => None end).
Proof. unfold bridge_opens. rewrite omap_app. cbn. by destruct (match o with BoControl data => open_of data | _ => None end). Qed.

(** A message of another type, seen by its first byte. *)
Lemma open_of_type data : data !!! 0%nat ≠ kMESSAGE_TYPE_OPEN → open_of data = None.
Proof.
  intros Hne. unfold open_of, MessageHeader_Decode. destruct (Nat.ltb _ _); [done|]. destruct (OpenMessage_Decode _ _) as [ok m]. cbn [header_type].
  by rewrite (proj2 (Z.eqb_neq _ _)).
Qed.

Lemma first_insert (b : list Z) i v : (0 < i)%nat → <[i := v]> b !!! 0%nat = b !!! 0%nat.
Proof. intros Hi. apply list_lookup_total_insert_ne. lia. Qed.
Lemma first_copy (b : list Z) off d : (0 < off)%nat → copy_at off d b !!! 0%nat = b !!! 0%nat.
Proof. intros Ho. rewrite !list_lookup_total_alt. unfold copy_at. by rewrite list_lookup_inserts_lt by lia. Qed.
Lemma first_u16 b off v : (0 < off)%nat → Wire_WriteU16 b off v !!! 0%nat = b !!! 0%nat.
Proof. intros Ho. unfold Wire_WriteU16. by rewrite !first_insert by lia. Qed.
Lemma first_u32 b off v : (0 < off)%nat → Wire_WriteU32 b off v !!! 0%nat = b !!! 0%nat.
Proof. intros Ho. unfold Wire_WriteU32. by rewrite !first_u16 by lia. Qed.
Lemma first_begin type n b : (4 ≤ length b)%nat → begin_message type n b !!! 0%nat = type.
Proof.
  intros Hb. unfold begin_message. etrans; [apply (first_copy _ 4 (replicate n 0)); lia|]. unfold MessageHeader_Encode. rewrite (proj2 (Nat.ltb_ge _ _)) by lia. cbn [snd].
  rewrite first_u16, first_insert by lia. cbn [header_type]. apply list_lookup_total_insert_eq. lia.
Qed.
Create HintDb firsts.
#[local] Hint Rewrite first_insert first_copy first_u16 first_u32 first_begin using lia : firsts.

Lemma first_settings b off s : (0 < off)%nat → writeSettings b off s !!! 0%nat = b !!! 0%nat.
Proof. intros Ho. unfold writeSettings, writeBitTiming. cbv zeta. by autorewrite with firsts. Qed.

(** A message the bridge sends that is not an OPEN. *)
Definition other_message (message : nat * list Z) : Prop := message.1 ≠ 0%nat → message.2 !!! 0%nat ≠ kMESSAGE_TYPE_OPEN.

Lemma other_not_open message : other_message message → message.1 ≠ 0%nat → open_of (take message.1 message.2) = None.
Proof.
  intros Ho Hn. apply open_of_type. rewrite list_lookup_total_alt, lookup_take_lt by lia. rewrite <- list_lookup_total_alt. by apply Ho.
Qed.

Lemma list_other offset : other_message (ListMessage_Encode {| list_offset := offset |} control_buffer).
Proof. intros _. unfold ListMessage_Encode. change (Nat.ltb (length control_buffer) _) with false. cbv iota zeta. cbn [snd]. rewrite first_u16, first_begin by (try change (length control_buffer) with 424%nat; lia). done. Qed.

Lemma close_other channel : other_message (CloseMessage_Encode {| close_channel := channel |} control_buffer).
Proof. intros _. unfold CloseMessage_Encode. change (Nat.ltb (length control_buffer) _) with false. cbv iota zeta. cbn [snd]. rewrite first_insert, first_begin by (try change (length control_buffer) with 424%nat; lia). done. Qed.

Lemma hello_other name : other_message (HelloMessage_Build kPEER_ROLE_CLIENT name HELLO_CAP_RELIABLE_CHANNELS (replicate HELLO_NAME_SIZE 0) control_buffer).
Proof.
  intros _. unfold HelloMessage_Build, HelloMessage_Encode. cbn [hello_role hello_version hello_capabilities hello_name]. change (negb (isRoleValid kPEER_ROLE_CLIENT)) with false.
  change (Nat.ltb (length control_buffer) _) with false. cbv iota zeta. cbn [snd]. rewrite first_copy, first_u32, !first_insert, first_begin by (try change (length control_buffer) with 424%nat; lia). done.
Qed.

Lemma configure_other m : other_message (ConfigureMessage_Encode m control_buffer).
Proof.
  intros Hn. unfold ConfigureMessage_Encode in *. destruct (negb _); [done|]. destruct (negb _); [done|]. unfold ifconfig_encode in *.
  change (Nat.ltb (length control_buffer) _) with false in *. cbv iota zeta in *. change (Nat.eqb (4 + 236) 0) with false in *. cbv iota in *. cbn [snd].
  rewrite first_settings, first_insert, !first_copy, first_begin by (try change (length control_buffer) with 424%nat; lia). done.
Qed.

Lemma sent_other message w : other_message message → bridge_opens (sendEncoded log_bridge_hub message w) = bridge_opens w.
Proof.
  intros Ho. unfold sendEncoded. destruct (Nat.eqb_spec message.1 0) as [|Hn]; [done|]. cbn [log_bridge_hub bh_send_control]. rewrite bridge_opens_snoc.
  rewrite other_not_open by done. apply app_nil_r.
Qed.

Lemma sent_ascii id text w : bridge_opens (sendAscii log_server id text w) = bridge_opens w.
Proof. unfold sendAscii. destruct (Nat.eqb _ _); [done|]. cbn [log_server sp_write_client]. rewrite bridge_opens_snoc. apply app_nil_r. Qed.

Lemma sent_open id flags w : is_u32 id → is_u8 flags → bridge_opens (sendOpen log_bridge_hub id flags w) = bridge_opens w ++ [{| open_interface_id := id; open_flags := flags |}].
Proof.
  intros Hi Hf. set (m := {| open_interface_id := id; open_flags := flags |}). assert (wm_valid m) as Hv by done.
  destruct (wm_encode_ok m control_buffer Hv) as (buf & He & _); [unfold control_buffer; rewrite length_replicate; cbn; lia|].
  assert (wm_packet m (take (wm_encode m control_buffer).1 (wm_encode m control_buffer).2)) as Hpk
    by (exists control_buffer; split; [done|split; [unfold control_buffer; rewrite length_replicate; cbn; lia|done]]).
  assert (Nat.eqb (wm_encode m control_buffer).1 0 = false) as Hz by (by rewrite He).
  unfold sendOpen, sendEncoded. fold m. change (OpenMessage_Encode m control_buffer) with (wm_encode m control_buffer). rewrite Hz.
  cbn [log_bridge_hub bh_send_control]. rewrite bridge_opens_snoc. by rewrite (open_of_open _ _ Hpk).
Qed.

(** ** What each operation does to the requests *)

Definition next_seq (self : SocketcandBridge) : Z := ct_next_open_seq (sb_connections self).

(** Nothing that matters changed, and no OPEN was sent. *)
Record quiet (st st' : SocketcandBridge * list bridge_out) : Prop := {
  qu_keys : open_keys st'.1 = open_keys st.1;
  qu_next : next_seq st'.1 = next_seq st.1;
  qu_hub : sb_hub_state st'.1 = sb_hub_state st.1;
  qu_catalogue : sb_catalogue st'.1 = sb_catalogue st.1;
  qu_opens : bridge_opens st'.2 = bridge_opens st.2;
}.

#[global] Instance quiet_preorder : PreOrder quiet.
Proof. split; [by split|]. intros a b c [] []. split; congruence. Qed.

Lemma okeys_with j f self : (∀ c, open_key (f c) = open_key c) → open_keys (with_connection j f self) = open_keys self.
Proof. intros Hf. exact (fmap_alter_keeps open_key f j _ Hf). Qed.

Lemma quiet_with j f self w w' : (∀ c, open_key (f c) = open_key c) → bridge_opens w' = bridge_opens w → quiet (self, w) (with_connection j f self, w').
Proof. intros Hf Hw. split; cbn [fst snd]; [by apply okeys_with|done..]. Qed.

Lemma quiet_log self w w' : bridge_opens w' = bridge_opens w → quiet (self, w) (self, w').
Proof. by split. Qed.

Lemma quiet_sendConfigure self j w : let '(sent, self', w') := sendConfigure log_bridge_hub log_server self j w in quiet (self, w) (self', w').
Proof.
  unfold sendConfigure. assert (∀ w', bridge_opens w' = bridge_opens w → quiet (self, w) (with_connection j unqueue self, w')) as Hq by (intros; by apply quiet_with).
  destruct (InterfaceName_Split _ _ _) as [[] [agent name]]; [|apply Hq, sent_ascii].
  match goal with |- context [ConfigureMessage_Encode ?m _] => pose proof (configure_other m) as Ho; destruct (ConfigureMessage_Encode m control_buffer) as [size bs] end.
  destruct (Nat.eqb_spec size 0) as [|Hn]; [apply Hq, sent_ascii|]. etrans; [apply (Hq w); done|]. split; try done. cbn [snd log_bridge_hub bh_send_control].
  pose proof (other_not_open (size, bs) Ho Hn) as Hno. cbn [fst snd] in Hno. rewrite bridge_opens_snoc, Hno. apply app_nil_r.
Qed.

Lemma quiet_configure fuel self w : quiet (self, w) (configure_loop log_bridge_hub log_server fuel self w).
Proof.
  revert self w. induction fuel as [|fuel IH]; intros self w; cbn [configure_loop]; [done|]. destruct (ConnectionTable_OldestQueuedConfigure _) as [j|]; [|done].
  pose proof (quiet_sendConfigure self j w) as Hs. destruct (sendConfigure log_bridge_hub log_server self j w) as [[[] self'] w']; [done|]. etrans; [exact Hs|apply IH].
Qed.

Lemma quiet_next_configure self w : quiet (self, w) (sendNextConfigure log_bridge_hub log_server self w).
Proof. unfold sendNextConfigure. destruct (_ || _); [done|apply quiet_configure]. Qed.

Lemma quiet_queue self j command w : quiet (self, w) (queueConfigure log_bridge_hub log_server self j command w).
Proof.
  unfold queueConfigure. destruct (bool_decide _); [apply quiet_log, sent_ascii|]. destruct (_ =? 0); [apply quiet_log, sent_ascii|]. etrans; [|apply quiet_next_configure].
  split; cbn [fst snd]; [by apply (fmap_alter_keeps open_key)|done..].
Qed.

Lemma quiet_configure_reply self reply w : quiet (self, w) (handleConfigureReply log_bridge_hub log_server self reply w).
Proof.
  unfold handleConfigureReply. destruct (negb _); [done|]. etrans; [|apply quiet_next_configure]. split; try done. cbn [snd].
  destruct (ConnectionTable_Find _ _); [apply sent_ascii|done].
Qed.

Lemma quiet_send self j frame w : quiet (self, w) (self, handleSend log_bridge_hub log_server self j frame w).
Proof.
  apply quiet_log. unfold handleSend. destruct (negb _); [apply sent_ascii|]. destruct (negb _); [apply sent_ascii|]. destruct (FrameMessage_Encode _ _) as [size bs].
  destruct (Nat.eqb size 0); [done|]. cbn [log_bridge_hub bh_send_frame]. rewrite bridge_opens_snoc. apply app_nil_r.
Qed.

(** A connection is closed. *)
Record closed_at (i : nat) (st st' : SocketcandBridge * list bridge_out) : Prop := {
  cl_keys : ∃ k, open_keys st.1 !! i = Some k ∧ open_keys st'.1 = <[i := {| k_live := false; k_id := k_id k; k_state := k_state k; k_iface := k_iface k; k_seq := k_seq k |}]> (open_keys st.1);
  cl_next : next_seq st'.1 = next_seq st.1;
  cl_hub : sb_hub_state st'.1 = sb_hub_state st.1;
  cl_catalogue : sb_catalogue st'.1 = sb_catalogue st.1;
  cl_opens : bridge_opens st'.2 = bridge_opens st.2;
}.

Lemma removed_keys self i id : points_to self i id → let self' := self <| sb_connections := ConnectionTable_Remove (sb_connections self) id |> in
  ∃ k, open_keys self !! i = Some k ∧ open_keys self' = <[i := {| k_live := false; k_id := k_id k; k_state := k_state k; k_iface := k_iface k; k_seq := k_seq k |}]> (open_keys self).
Proof.
  intros Hp. destruct (points_room _ _ _ Hp) as [Hi Hk]. cbv zeta. unfold ConnectionTable_Remove. rewrite (points_find _ _ _ Hp).
  apply lookup_lt_is_Some_2 in Hi as [c Hc]. exists (open_key c). split; [unfold open_keys; by rewrite list_lookup_fmap, Hc|].
  unfold open_keys. change (open_key <$> alter (λ c, c <| co_in_use := false |>) i (ct_connections (sb_connections self)) = <[i := open_key (c <| co_in_use := false |>)]> (open_key <$> ct_connections (sb_connections self))).
  by rewrite (alter_insert_at _ _ _ _ Hc), list_fmap_insert.
Qed.

Lemma closed_close self i id detail w : points_to self i id → closed_at i (self, w) (closeConnection log_server self i detail w).
Proof.
  intros Hp. destruct (points_room _ _ _ Hp) as [Hi Hk]. injection Hk as _ Hid. unfold closeConnection. rewrite Hid. split; cbn [fst snd].
  - by apply removed_keys.
  - unfold next_seq, ConnectionTable_Remove. cbn. by destruct (ConnectionTable_Find _ _).
  - done.
  - done.
  - cbn [log_server sp_close_client]. rewrite bridge_opens_snoc, sent_ascii. apply app_nil_r.
Qed.

(** A connection asks for an interface. *)
Record asks_at (i : nat) (m : OpenMessage) (st st' : SocketcandBridge * list bridge_out) : Prop := {
  as_keys : ∃ k, open_keys st.1 !! i = Some k ∧ open_keys st'.1 = <[i := {| k_live := k_live k; k_id := k_id k; k_state := asked_state m; k_iface := open_interface_id m; k_seq := u32 (next_seq st.1 + 1) |}]> (open_keys st.1);
  as_next : next_seq st'.1 = u32 (next_seq st.1 + 1);
  as_hub : sb_hub_state st'.1 = sb_hub_state st.1;
  as_catalogue : sb_catalogue st'.1 = sb_catalogue st.1;
  as_opens : bridge_opens st'.2 = bridge_opens st.2 ++ [m];
  as_valid : wm_valid m;
}.

Lemma okeys_alter self i f c : ct_connections (sb_connections self) !! i = Some c → open_keys (with_connection i f self) = <[i := open_key (f c)]> (open_keys self).
Proof. intros Hc. unfold open_keys. change (open_key <$> alter f i (ct_connections (sb_connections self)) = <[i := open_key (f c)]> (open_key <$> ct_connections (sb_connections self))). by rewrite (alter_insert_at _ _ _ _ Hc), list_fmap_insert. Qed.

Definition catalogue_typed (catalogue : InterfaceCatalogue) : Prop := Forall (λ e, is_u32 (ce_interface_id e)) (ic_entries catalogue).

Lemma found_typed catalogue name id : catalogue_typed catalogue → InterfaceCatalogue_FindByName catalogue name = Some id → is_u32 id.
Proof.
  intros Ht. unfold InterfaceCatalogue_FindByName. intros (e & Hb & ->)%fmap_Some. apply bind_Some in Hb as (i & _ & He). unfold listed_entries in He. apply lookup_take_Some in He as [He _].
  by apply (Forall_lookup_1 _ _ _ _ Ht He).
Qed.

(** The effect of a command of the connection in slot [i]. *)
Lemma dispatch_effect self i id command w : points_to self i id → catalogue_typed (sb_catalogue self) →
  let '(open, self', w') := dispatchCommand log_bridge_hub log_server self i command w in
  if (open : bool) then quiet (self, w) (self', w') ∨
    (sb_hub_state self = kSOCKETCAND_HUB_READY ∧ (∀ k, open_keys self !! i = Some k → k_state k = kSOCKETCAND_OPEN_NONE) ∧ ∃ m, asks_at i m (self, w) (self', w'))
  else closed_at i (self, w) (self', w').
Proof.
  intros Hp Hcat. destruct (points_room _ _ _ Hp) as [Hi Hk]. pose proof Hi as [c Hc]%lookup_lt_is_Some_2.
  assert (connection_at self i = c) as Hci by (by apply list_lookup_total_correct). unfold dispatchCommand. destruct (sc_kind command).
  - by left.
  - unfold openBus. destruct (bool_decide_reflect (co_open_state (connection_at self i) ≠ kSOCKETCAND_OPEN_NONE)) as [|Hs].
    { pose proof (closed_close self i id (lit "bus already open") w Hp) as Hcl. by destruct (closeConnection log_server self i _ w). }
    destruct (bool_decide_reflect (sb_hub_state self ≠ kSOCKETCAND_HUB_READY)) as [|Hr].
    { pose proof (closed_close self i id (lit "could not open bus") w Hp) as Hcl. by destruct (closeConnection log_server self i _ w). }
    destruct (InterfaceCatalogue_FindByName _ _) as [iface|] eqn:Hf; [|pose proof (closed_close self i id (lit "could not open bus") w Hp) as Hcl; by destruct (closeConnection log_server self i _ w)].
    right. rewrite Hci in Hs. assert (co_open_state c = kSOCKETCAND_OPEN_NONE) as Hn by (by destruct (co_open_state c); [|contradict Hs..]).
    split; [by destruct (sb_hub_state self); [contradict Hr|contradict Hr|]|]. split; [intros k; unfold open_keys; rewrite list_lookup_fmap, Hc; intros [= <-]; exact Hn|].
    pose proof (found_typed _ _ _ Hcat Hf) as Hu. exists {| open_interface_id := iface; open_flags := OPEN_FLAGS_READ_WRITE |}.
    assert (is_u8 OPEN_FLAGS_READ_WRITE) as Hu8 by (vm_compute; intuition congruence).
    split; cbn [fst snd]; [|done..|by apply sent_open|by split]. exists (open_key c). split; [unfold open_keys; by rewrite list_lookup_fmap, Hc|].
    unfold ConnectionTable_NextOpenSeq. rewrite (okeys_alter _ i _ c); [done|]. exact Hc.
  - left. apply quiet_with; [done|apply sent_ascii].
  - left. apply quiet_with; [done|apply sent_ascii].
  - left. apply quiet_send.
  - left. apply quiet_log, sent_ascii.
  - pose proof (quiet_queue self i command w) as Hq. destruct (queueConfigure log_bridge_hub log_server self i command w). by left.
  - pose proof (quiet_queue self i command w) as Hq. destruct (queueConfigure log_bridge_hub log_server self i command w). by left.
Qed.

(** * Histories of the bridge and the hub's answers

    The bridge with the hub's answers in the order of its OPENs: every answer
    reaches the connection whose OPEN it answers, as long as the clients that
    wait for one stay. *)

(** ** Histories *)

Inductive bridge_event :=
| BvTick (now_us : Z)
| BvConnected
| BvLost (now_us : Z)
| BvControl (data : list Z) (now_us : Z)
| BvAnswer (status channel : Z)
| BvFrame (data : list Z)
| BvClient (id : Z)
| BvBytes (id : Z) (data : list Z)
| BvGone (id : Z).

(** The bridge, its log, and the OPENs the hub has yet to answer with the slot each was sent for. *)
Definition bridge_joint : Type := SocketcandBridge * list bridge_out * list request.

(** The hub's answer to an OPEN. *)
Definition ack_for (m : OpenMessage) (status channel : Z) : list Z :=
  take 12 (OpenAckMessage_Encode {| open_ack_status := status; open_ack_channel := channel; open_ack_interface_id := open_interface_id m |} (replicate 12 0)).2.

Definition bridge_move (e : bridge_event) (st : bridge_joint) : SocketcandBridge * list bridge_out :=
  let '(self, w, Q) := st in
  match e with
  | BvTick now_us => SocketcandBridge_Tick log_bridge_hub log_server self now_us w
  | BvConnected => transportOnConnected log_bridge_hub log_server self w
  | BvLost now_us => transportOnDisconnected log_server self now_us w
  | BvControl data now_us => transportOnControl log_bridge_hub log_server self data now_us w
  | BvAnswer status channel => match Q with (_, m) :: _ => transportOnControl log_bridge_hub log_server self (ack_for m status channel) 0 w | [] => (self, w) end
  | BvFrame data => (self, transportOnFrame log_server self data w)
  | BvClient id => serverOnClientConnected log_server self id w
  | BvBytes id data => serverOnClientBytes log_bridge_hub log_server self id data w
  | BvGone id => serverOnClientDisconnected log_bridge_hub self id w
  end.

(** An OPEN sent while a client's bytes are read is that client's, one sent on an
    answer is of the connection that was answered. *)
Definition bridge_step (st : bridge_joint) (e : bridge_event) : bridge_joint :=
  let '(self, w, Q) := st in
  let '(self', w') := bridge_move e st in
  let new := drop (length (bridge_opens w)) (bridge_opens w') in
  let Q' :=
    match e with
    | BvAnswer _ _ => match Q with (j, _) :: Q => Q ++ (pair j <$> new) | [] => [] end
    | BvBytes id _ => match ConnectionTable_Find (sb_connections self) id with Some i => Q ++ (pair i <$> new) | None => Q end
    | BvLost _ => []
    | _ => Q
    end in
  (self', w', Q').

(** Acknowledgements come as answers, connection identifiers are new, and the
    open counter does not wrap.  The clients that wait stay: every slot with a
    request under way is in use after the event. *)
Definition bridge_event_ok (st : bridge_joint) (e : bridge_event) : Prop :=
  next_seq st.1.1 < 4294967295 ∧
  match e with
  | BvControl data _ => open_ack_of data = None
  | BvAnswer status channel => is_u8 status ∧ is_u8 channel
  | BvClient id => ConnectionTable_Find (sb_connections st.1.1) id = None
  | _ => True
  end ∧
  ∀ x, x ∈ (bridge_step st e).2 → ∃ k, open_keys (bridge_step st e).1.1 !! x.1 = Some k ∧ k_live k = true.

Fixpoint bridge_history (evs : list bridge_event) (st : bridge_joint) : Prop :=
  match evs with [] => True | e :: evs' => bridge_event_ok st e ∧ bridge_history evs' (bridge_step st e) end.

Definition bridge_run (evs : list bridge_event) (st : bridge_joint) : bridge_joint := foldl bridge_step st evs.

(** ** The invariant *)

Record in_order_but (b : option nat) (self : SocketcandBridge) (Q : list request) : Prop := {
  io_fifo : fifo_but b (open_keys self) (next_seq self) Q;
  io_ready : sb_hub_state self ≠ kSOCKETCAND_HUB_READY → Q = [];
  io_next : 0 ≤ next_seq self;
  io_valid : Forall (λ x : request, wm_valid x.2) Q;
  io_catalogue : catalogue_typed (sb_catalogue self);
  io_ids : ∀ i j k k', open_keys self !! i = Some k → open_keys self !! j = Some k' → k_live k = true → k_live k' = true → k_id k = k_id k' → i = j;
}.
Notation in_order := (in_order_but None).

Lemma in_order_quiet b st st' Q : quiet st st' → in_order_but b st.1 Q → in_order_but b st'.1 Q.
Proof. intros [Hk Hn Hh Hc _] []. split; rewrite ?Hk, ?Hn, ?Hh, ?Hc; done. Qed.

Lemma ids_insert (K : list okey) (i : nat) (k : okey) : (∀ a b x y, K !! a = Some x → K !! b = Some y → k_live x = true → k_live y = true → k_id x = k_id y → a = b) →
  (k_live k = true → ∀ j y, K !! j = Some y → k_live y = true → k_id y = k_id k → j = i) →
  ∀ (a b : nat) x y, <[i := k]> K !! a = Some x → <[i := k]> K !! b = Some y → k_live x = true → k_live y = true → k_id x = k_id y → a = b.
Proof.
  intros H Hk a b x y [(<- & <- & _)|(Ha & Hx)]%list_lookup_insert_Some [(<- & <- & _)|(Hb & Hy)]%list_lookup_insert_Some Hlx Hly Hid; [done|..].
  - symmetry. by apply (Hk Hlx b y).
  - by apply (Hk Hly a x).
  - by apply (H a b x y).
Qed.

(** A slot that has no request changes and does not wait. *)
Lemma in_order_idle b self self' i k k' Q : in_order_but b self Q → (b = None ∨ b = Some i) → i ∉ Q.*1 → open_keys self !! i = Some k → open_keys self' = <[i := k']> (open_keys self) →
  ¬ waits k' → (k_live k' = true → k_live k = true ∧ k_id k' = k_id k) → next_seq self' = next_seq self → sb_hub_state self' = sb_hub_state self → sb_catalogue self' = sb_catalogue self →
  in_order self' Q.
Proof.
  intros [] Hb Hi Hk Hks Hw Hl Hn Hh Hc. split; rewrite ?Hn, ?Hh, ?Hc, ?Hks; try done.
  - by apply (fifo_other b).
  - apply ids_insert; [done|]. intros Hlive j y Hj Hy Hid. destruct (Hl Hlive) as [Hlk Hik]. rewrite Hik in Hid. by apply (io_ids0 j i y k).
Qed.

Lemma in_order_closed i st st' Q b : closed_at i st st' → (b = None ∨ b = Some i) → i ∉ Q.*1 → in_order_but b st.1 Q → in_order st'.1 Q.
Proof. intros [(k & Hk & Hks) Hn Hh Hc _] Hb Hi Ho. apply (in_order_idle b st.1 st'.1 i k _ Q Ho Hb Hi Hk Hks); try done. by intros [? _]. Qed.

(** A live slot that has no request sends one. *)
Lemma in_order_asks b i m st st' Q k : asks_at i m st st' → next_seq st.1 < 4294967295 → sb_hub_state st.1 = kSOCKETCAND_HUB_READY → open_keys st.1 !! i = Some k → k_live k = true →
  (b = None ∨ b = Some i) → i ∉ Q.*1 → in_order_but b st.1 Q → in_order st'.1 (Q ++ [(i, m)]) ∧ next_seq st'.1 = next_seq st.1 + 1.
Proof.
  intros [(k0 & Hk0 & Hks) Hn Hh Hc _ Hv] Hnext Hr Hk Hl Hb Hi []. rewrite Hk in Hk0. injection Hk0 as <-. rewrite u32_id in Hn, Hks by lia. split; [|done].
  split; rewrite ?Hn, ?Hh, ?Hc, ?Hks; try done.
  - apply (fifo_sent b); try done. by apply lookup_lt_Some in Hk.
  - lia.
  - apply Forall_app. by split; [|constructor].
  - apply ids_insert; [done|]. intros _ j y Hj Hy Hid. cbn in Hid. by apply (io_ids0 j i y k).
Qed.

Lemma in_order_tail self j m Q : in_order self ((j, m) :: Q) → in_order_but (Some j) self Q ∧ j ∉ Q.*1 ∧ wm_valid m.
Proof. intros []. destruct (fifo_tail _ _ _ _ _ io_fifo0) as [H1 H2]. inversion_clear io_valid0. split; [|done]. split; try done. intros Hr. by specialize (io_ready0 Hr). Qed.

(** A connection of the table, from its keys. *)
Lemma in_order_points b self Q i k : in_order_but b self Q → open_keys self !! i = Some k → k_live k = true → points_to self i (k_id k).
Proof.
  intros [] Hk Hl. assert (∀ j k', conn_keys self !! j = Some k' ↔ ∃ o, open_keys self !! j = Some o ∧ k' = (k_live o, k_id o)) as Hck.
  { intros j k'. unfold conn_keys, open_keys. rewrite !list_lookup_fmap. destruct (ct_connections (sb_connections self) !! j) as [c|]; cbn; [|split; [done|by intros (? & ? & _)]].
    split; [intros [= <-]; by eexists|by intros (o & [= <-] & ->)]. }
  split; [apply Hck; exists k; split; [done|by rewrite Hl]|]. intros j (o & Ho & [= Hlo Hio])%Hck. by apply (io_ids0 j i o k).
Qed.

Lemma find_points b self Q id i : in_order_but b self Q → ConnectionTable_Find (sb_connections self) id = Some i → points_to self i id ∧ ∃ k, open_keys self !! i = Some k ∧ k_live k = true ∧ k_id k = id.
Proof.
  intros Ho Hf. unfold ConnectionTable_Find in Hf. apply scan_hit in Hf as (c & Hc & Hu). apply andb_true_iff in Hu as [Hu Hid%Z.eqb_eq].
  assert (open_keys self !! i = Some (open_key c)) as Hk by (unfold open_keys; by rewrite list_lookup_fmap, Hc). split; [|by eexists].
  pose proof (in_order_points b self Q i _ Ho Hk Hu) as Hp. cbn in Hp. by rewrite Hid in Hp.
Qed.

(** ** Reading a client *)

(** What every command keeps, or ends with, holds after a read. *)
Lemma command_loop_ind {W} (hub : BridgeHubPort W) (server : SocketcandServerPort W) (I J : SocketcandBridge → W → Prop) i fuel self w :
  (∀ s v F, I s v → I (with_connection i (λ c, c <| co_framer := F c |>) s) v) →
  (∀ s v command, I s v → let '(open, s', v') := dispatchCommand hub server s i command v in if (open : bool) then I s' v' else J s' v') →
  I self w → let '(open, s', v') := command_loop hub server fuel self i w in if (open : bool) then I s' v' else J s' v'.
Proof.
  intros HF Hd. revert self w. induction fuel as [|fuel IH]; intros self w HI; cbn [command_loop]; [done|]. destruct (AsciiFramer_Next _ _) as [[text|] F].
  - pose proof (HF self w (λ _, F) HI) as HI'. destruct (SocketcandCodec_Parse text) as [command|]; [|by apply IH].
    pose proof (Hd _ _ command HI') as Hx. destruct (dispatchCommand hub server _ i command w) as [[[] s] v]; [by apply IH|done].
  - exact (HF self w (λ _, F) HI).
Qed.

Lemma bytes_loop_ind {W} (hub : BridgeHubPort W) (server : SocketcandServerPort W) (I J : SocketcandBridge → W → Prop) i fuel self data w :
  (∀ s v F, I s v → I (with_connection i (λ c, c <| co_framer := F c |>) s) v) →
  (∀ s v command, I s v → let '(open, s', v') := dispatchCommand hub server s i command v in if (open : bool) then I s' v' else J s' v') →
  I self w → let st := bytes_loop hub server fuel self i data w in I st.1 st.2 ∨ J st.1 st.2.
Proof.
  intros HF Hd. revert self data w. induction fuel as [|fuel IH]; intros self data w HI; cbn [bytes_loop]; [by left|]. destruct (Nat.eqb _ _); [by left|].
  destruct (AsciiFramer_Push _ _) as [taken F]. pose proof (command_loop_ind hub server I J i 513 _ w HF Hd (HF self w (λ _, F) HI)) as Hc.
  destruct (command_loop hub server 513 _ i w) as [[[] s] v]; cbn [negb]; [|by right]. destruct (Nat.eqb taken 0); apply IH; [|done]. exact (HF s v (λ c, AsciiFramer_Reset (co_framer c)) Hc).
Qed.

Definition reading (next0 : Z) (w0 : list bridge_out) (Q : list request) (i : nat) (id : Z) (s : SocketcandBridge) (v : list bridge_out) : Prop :=
  ∃ ms, bridge_opens v = bridge_opens w0 ++ ms ∧ in_order s (Q ++ (pair i <$> ms)) ∧ points_to s i id ∧ (ms = [] → next_seq s = next0).

Definition read_closed (w0 : list bridge_out) (Q : list request) (i : nat) (s : SocketcandBridge) (v : list bridge_out) : Prop :=
  ∃ ms, bridge_opens v = bridge_opens w0 ++ ms ∧ (i ∉ (Q ++ (pair i <$> ms)).*1 → in_order s (Q ++ (pair i <$> ms))) ∧ ∃ k, open_keys s !! i = Some k ∧ k_live k = false.

Lemma points_key s i id : points_to s i id → ∃ k, open_keys s !! i = Some k ∧ k_live k = true ∧ k_id k = id.
Proof.
  intros Hp. destruct (points_room _ _ _ Hp) as [[c Hc]%lookup_lt_is_Some_2 Hk]. unfold connection_at in Hk. rewrite (list_lookup_total_correct _ _ _ Hc) in Hk. injection Hk as H1 H2.
  exists (open_key c). unfold open_keys. by rewrite list_lookup_fmap, Hc.
Qed.

Lemma read_command next0 w0 Q i id s v command : next0 < 4294967295 → reading next0 w0 Q i id s v →
  let '(open, s', v') := dispatchCommand log_bridge_hub log_server s i command v in if (open : bool) then reading next0 w0 Q i id s' v' else read_closed w0 Q i s' v'.
Proof.
  intros Hnext (ms & Hms & Ho & Hp & Hn). pose proof (dispatch_effect s i id command v Hp (io_catalogue _ _ _ Ho)) as He.
  pose proof (keys_dispatch log_bridge_hub log_server s i id command v Hp) as Hck. destruct (dispatchCommand log_bridge_hub log_server s i command v) as [[[] s'] v']; unfold after_command in Hck.
  - pose proof (points_same _ _ _ _ Hck Hp) as Hp'. destruct He as [Hq|(Hr & Hnone & m & Ha)].
    + exists ms. split; [rewrite <- Hms; exact (qu_opens _ _ Hq)|]. split; [by apply (in_order_quiet None (s, v) (s', v'))|]. split; [done|]. intros Hz. etrans; [exact (qu_next _ _ Hq)|by apply Hn].
    + destruct (points_key _ _ _ Hp) as (k & Hk & Hl & _). specialize (Hnone k Hk).
      assert (i ∉ (Q ++ (pair i <$> ms)).*1) as Hni.
      { intros (x & Hx & Hin)%list_elem_of_fmap. destruct (proj1 (Forall_forall _ _) (ff_waits _ _ _ _ (io_fifo _ _ _ Ho)) x Hin) as (k' & Hk' & _ & Hst & _).
        rewrite <- Hx, Hk in Hk'. injection Hk' as <-. rewrite Hnone in Hst. unfold asked_state in Hst. by destruct (has_flag _ _). }
      assert (ms = []) as ->. { destruct ms as [|m' ms]; [done|]. exfalso. apply Hni. rewrite fmap_app, elem_of_app. right. cbn. apply list_elem_of_here. }
      cbn [fmap list_fmap] in *. rewrite app_nil_r in *. specialize (Hn eq_refl).
      destruct (in_order_asks None i m (s, v) (s', v') Q k Ha ltac:(cbn; lia) Hr Hk Hl ltac:(by left) Hni Ho) as [Ho' _].
      exists [m]. split; [etrans; [exact (as_opens _ _ _ _ Ha)|cbn [snd]; by rewrite Hms]|]. done.
  - exists ms. split; [rewrite <- Hms; exact (cl_opens _ _ _ He)|]. split; [intros Hi; by apply (in_order_closed i (s, v) (s', v') _ None He); [left|..]|].
    destruct (cl_keys _ _ _ He) as (k & Hk & Hks). cbn [fst] in Hk, Hks. rewrite Hks. eexists. split; [apply list_lookup_insert_eq; by apply lookup_lt_Some in Hk|done].
Qed.

Lemma read_framer next0 w0 Q i id s v F : reading next0 w0 Q i id s v → reading next0 w0 Q i id (with_connection i (λ c, c <| co_framer := F c |>) s) v.
Proof.
  intros (ms & Hms & Ho & Hp & Hn). exists ms. split; [done|]. split; [by apply (in_order_quiet None (s, v) (_, v)); [apply quiet_with|]|]. split; [|done].
  apply (points_same s); [by apply keys_with|done].
Qed.

Lemma read_event self w Q id data i : in_order self Q → next_seq self < 4294967295 → ConnectionTable_Find (sb_connections self) id = Some i →
  let st := serverOnClientBytes log_bridge_hub log_server self id data w in
  reading (next_seq self) w Q i id st.1 st.2 ∨ read_closed w Q i st.1 st.2.
Proof.
  intros Ho Hnext Hf. unfold serverOnClientBytes. rewrite Hf. apply (bytes_loop_ind log_bridge_hub log_server (reading (next_seq self) w Q i id) (read_closed w Q i)).
  - intros s v F. apply read_framer.
  - intros s v command. by apply read_command.
  - exists []. cbn. rewrite !app_nil_r. destruct (find_points None self Q id i Ho Hf) as [Hp _]. done.
Qed.

(** ** The other events *)

Lemma in_order_same self self' Q : in_order self Q → open_keys self' = open_keys self → next_seq self' = next_seq self →
  (sb_hub_state self' ≠ kSOCKETCAND_HUB_READY → Q = []) → catalogue_typed (sb_catalogue self') → in_order self' Q.
Proof. intros [] Hk Hn Hr Hc. split; rewrite ?Hk, ?Hn; done. Qed.

Lemma append_typed entries catalogue : catalogue_typed catalogue → Forall (λ e, is_u32 (lre_interface_id e)) entries → catalogue_typed (append_loop catalogue entries).2.
Proof.
  intros Hc He. revert catalogue Hc. induction He as [|e entries Hid _ IH]; intros catalogue Hc; cbn [append_loop]; [done|]. destruct (_ >=? _); [done|].
  destruct (composeName _ _) as [[] name]; cbn [negb]; [|by apply IH]. apply IH. unfold catalogue_typed. cbn [ic_entries]. by apply Forall_insert.
Qed.

Lemma reply_typed body m : ListReplyMessage_Decode list_reply0 body = (true, m) → Forall (λ e, is_u32 (lre_interface_id e)) (counted_entries m).
Proof.
  unfold ListReplyMessage_Decode. intros Hd. destruct (Nat.ltb _ _); [done|]. destruct (Z.gtb_spec (body !!! 0%nat) 16) as [|Hc]; [done|]. destruct (Nat.ltb _ _); [done|].
  injection Hd as <-. unfold counted_entries. cbn [lr_count lr_entries]. rewrite take_list_inserts.
  - unfold read_entries. apply Forall_fmap, Forall_forall. intros k _. apply Wire_ReadU32_u32.
  - unfold read_entries. by rewrite length_fmap, length_seq.
  - change (Z.to_nat (body !!! 0%nat) ≤ 16)%nat. lia.
Qed.

Lemma list_reply_in_order self body now w Q : in_order self Q →
  let st := handleListReply log_bridge_hub self body now w in in_order st.1 Q ∧ bridge_opens st.2 = bridge_opens w.
Proof.
  intros Ho. unfold handleListReply. destruct (ListReplyMessage_Decode list_reply0 body) as [[] reply] eqn:Hd; cbn [negb].
  - assert (catalogue_typed (InterfaceCatalogue_AppendPage (sb_catalogue self) reply).2) as Hc by (apply append_typed; [apply Ho|by apply (reply_typed body)]).
    destruct (_ && _); cbn [fst snd]; (split; [apply (in_order_same self); try done; apply Ho|]); [apply sent_other, list_other|done].
  - split; [|done]. apply (in_order_same self); try done; apply Ho.
Qed.

Lemma tick_in_order self now w Q : in_order self Q → let st := SocketcandBridge_Tick log_bridge_hub log_server self now w in in_order st.1 Q ∧ bridge_opens st.2 = bridge_opens w.
Proof.
  intros Ho. unfold SocketcandBridge_Tick. destruct (bool_decide_reflect (sb_hub_state self = kSOCKETCAND_HUB_DISCONNECTED)) as [Hd|].
  { destruct (_ >=? _); [|done]. cbn. split; [|done]. apply (in_order_same self); try done; [|apply Ho]. intros _. apply (io_ready _ _ _ Ho). by rewrite Hd. }
  destruct (bool_decide_reflect (sb_hub_state self ≠ kSOCKETCAND_HUB_READY)) as [|Hr]; [done|].
  assert (∀ s v, in_order s Q → bridge_opens v = bridge_opens w → let st := if sb_beacon_enabled s && (now >=? sb_next_beacon_at_us s)
    then (s <| sb_next_beacon_at_us := u64 (now + BEACON_INTERVAL_US) |>, emitBeacon log_server s v) else (s, v) in in_order st.1 Q ∧ bridge_opens st.2 = bridge_opens w) as Hb.
  { intros s v Hs Hv. destruct (_ && _); [|done]. cbn [fst snd]. split; [apply (in_order_same s); try done; apply Hs|]. unfold emitBeacon.
    generalize (BeaconXml_Render (Z.to_nat 8192) (sb_device_name s) (sb_beacon_url s) (sb_catalogue s)). intros text. destruct (Nat.eqb _ _); [done|].
    cbn [log_server sp_send_beacon]. rewrite bridge_opens_snoc, app_nil_r. done. }
  destruct (negb _ && _); [|by apply Hb]. unfold startListing. apply Hb; [|apply sent_other, list_other]. apply (in_order_same self); try done; apply Ho.
Qed.

Lemma connected_in_order self w Q : in_order self Q → let st := transportOnConnected log_bridge_hub log_server self w in in_order st.1 Q ∧ bridge_opens st.2 = bridge_opens w.
Proof.
  intros Ho. unfold transportOnConnected. destruct (bool_decide_reflect (sb_hub_state self ≠ kSOCKETCAND_HUB_CONNECTING)) as [|Hs]; [done|]. unfold startListing.
  match goal with |- context [sendNextConfigure _ _ ?s ?v] => pose proof (quiet_next_configure s v) as Hq; assert (in_order s Q) as Ho' end.
  { apply (in_order_same self); try done. apply Ho. }
  split; [by apply (in_order_quiet None _ _ Q Hq)|]. etrans; [exact (qu_opens _ _ Hq)|]. cbn [snd]. unfold sendListPage. rewrite sent_other by apply list_other. apply sent_other, hello_other.
Qed.

Lemma lost_in_order self now w Q : in_order self Q → let st := transportOnDisconnected log_server self now w in in_order st.1 [] ∧ bridge_opens st.2 = bridge_opens w.
Proof.
  intros Ho. unfold transportOnDisconnected. destruct (bool_decide_reflect (sb_hub_state self = kSOCKETCAND_HUB_DISCONNECTED)) as [Hd|].
  { split; [|done]. cbn [fst]. assert (Q = []) as -> by (apply (io_ready _ _ _ Ho); by rewrite Hd). done. }
  unfold closeAllConnections. cbn [fst snd]. split.
  - assert (∀ i k, replicate 32 (open_key SocketcandConnection_zero) !! i = Some k → k_live k = false) as Hdead by (intros i k [-> _]%lookup_replicate; done).
    split; try done; [|apply Ho|].
    + split; [constructor|constructor| |constructor]. intros i k Hk [Hl _] _. apply Hdead in Hk. congruence.
    + intros i j k k' Hk _ Hl. apply Hdead in Hk. congruence.
  - unfold close_each. generalize (ct_connections (sb_connections self)) as l. intros l. revert w. induction l as [|c l IH]; intros w; [done|]. cbn [foldl]. rewrite IH. destruct (co_in_use c); [|done].
    cbn [log_server sp_close_client]. rewrite bridge_opens_snoc. apply app_nil_r.
Qed.

Lemma client_in_order self id w Q : in_order self Q → ConnectionTable_Find (sb_connections self) id = None →
  let st := serverOnClientConnected log_server self id w in in_order st.1 Q ∧ bridge_opens st.2 = bridge_opens w.
Proof.
  intros Ho Hf. unfold serverOnClientConnected, ConnectionTable_Add. destruct (scan _ _) as [i|] eqn:Hs; cbn [fst snd].
  - apply scan_hit in Hs as (c & Hc & Hfree%negb_true_iff). split; [|apply sent_ascii].
    assert (open_keys self !! i = Some (open_key c)) as Hk by (unfold open_keys; by rewrite list_lookup_fmap, Hc).
    assert (i ∉ Q.*1) as Hi.
    { intros (x & -> & Hin)%list_elem_of_fmap. destruct (proj1 (Forall_forall _ _) (ff_waits _ _ _ _ (io_fifo _ _ _ Ho)) x Hin) as (k' & Hk' & Hl & _).
      rewrite Hk in Hk'. injection Hk' as <-. cbn in Hl. congruence. }
    match goal with |- in_order ?s _ => set (self' := s) end. set (c' := SocketcandConnection_zero <| co_in_use := true |> <| co_connection_id := id |>).
    assert (open_keys self' = <[i := open_key c']> (open_keys self)) as Hks by (exact (list_fmap_insert open_key (ct_connections (sb_connections self)) i c')).
    destruct Ho. split; rewrite ?Hks; try done.
    + apply (fifo_other None); [done|by left|done|]. by intros [_ [H|H]].
    + apply ids_insert; [done|]. intros _ j y Hj Hy Hid. exfalso. unfold open_keys in Hj. apply list_lookup_fmap_Some_1 in Hj as (cj & -> & Hcj).
      apply scan_None with (i := j) (x := cj) in Hf; [|done]. cbn in Hy, Hid. rewrite Hy, Hid, Z.eqb_refl in Hf. done.
  - split; [done|]. cbn [log_server sp_close_client]. rewrite bridge_opens_snoc. apply app_nil_r.
Qed.

Lemma gone_in_order self id w Q : in_order self Q → (∀ i, ConnectionTable_Find (sb_connections self) id = Some i → i ∉ Q.*1) →
  let st := serverOnClientDisconnected log_bridge_hub self id w in in_order st.1 Q ∧ bridge_opens st.2 = bridge_opens w.
Proof.
  intros Ho Hq. unfold serverOnClientDisconnected. destruct (ConnectionTable_Find _ _) as [i|] eqn:Hf; [|done]. cbn [fst snd]. destruct (find_points None self Q id i Ho Hf) as [Hp _].
  split; [|destruct (_ && _); [apply sent_other, close_other|done]]. destruct (removed_keys self i id Hp) as (k & Hk & Hks).
  eapply (in_order_idle None self _ i k _ Q Ho); [by left|by apply Hq|exact Hk|exact Hks|by intros [? _]|done| |done|done].
  unfold next_seq, ConnectionTable_Remove. cbn. by destruct (ConnectionTable_Find _ _).
Qed.

(** ** Answers *)

Lemma ack_packet m status channel : is_u8 status → is_u8 channel → wm_valid m →
  wm_packet {| open_ack_status := status; open_ack_channel := channel; open_ack_interface_id := open_interface_id m |} (ack_for m status channel).
Proof. intros Hs Hc [Hi _]. exists (replicate 12 0). split; [by split|]. split; [rewrite length_replicate; cbn; lia|done]. Qed.

Lemma ack_dispatched {W} (hub : BridgeHubPort W) (server : SocketcandServerPort W) self ack data now w : wm_packet ack data →
  transportOnControl hub server self data now w = handleOpenAck hub server self ack w.
Proof.
  intros Hpk. destruct (wm_packet_spec _ _ Hpk) as (Hl & Hd & Hdec). destruct (Hdec {| open_ack_status := 0; open_ack_channel := 0; open_ack_interface_id := 0 |} I) as (m & Hm & Hs). cbn in Hs. subst m.
  unfold transportOnControl. rewrite Hd. cbn [header_length header_type]. rewrite Nat2Z.id, (proj2 (Nat.ltb_ge _ _)) by lia. unfold slice. rewrite take_ge by (rewrite length_drop; lia).
  change (wm_type =? kMESSAGE_TYPE_LIST_REPLY) with false. change (wm_type =? kMESSAGE_TYPE_OPEN_ACK) with true. cbv iota.
  match type of Hm with wm_decode ?o ?d = ?r => change (OpenAckMessage_Decode o d = r) in Hm end. by rewrite Hm.
Qed.

(** What an answer does to the connection it reaches. *)
Definition answered (m : OpenMessage) (status channel : Z) (c c' : SocketcandConnection) : Prop :=
  co_connection_id c' = co_connection_id c ∧
  if status =? OPEN_STATUS_OK then
    co_open_state c' = kSOCKETCAND_OPEN_DONE ∧ co_channel_valid c' = true ∧ co_channel c' = channel ∧ co_can_write c' = has_flag (open_flags m) OPEN_FLAG_WANT_WRITE
  else if has_flag (open_flags m) OPEN_FLAG_WANT_WRITE && (status =? OPEN_STATUS_WRITE_DENIED) then co_open_state c' = kSOCKETCAND_OPEN_PENDING_READ
  else co_in_use c' = false.

Lemma at_alter self j f c : ct_connections (sb_connections self) !! j = Some c → connection_at (with_connection j f self) j = f c.
Proof.
  intros Hc. unfold connection_at. apply list_lookup_total_correct. change (alter f j (ct_connections (sb_connections self)) !! j = Some (f c)). by rewrite list_lookup_alter_eq, Hc.
Qed.

Lemma answer_event self w j m Q status channel : in_order self ((j, m) :: Q) → next_seq self < 4294967295 → is_u8 status → is_u8 channel →
  let st := transportOnControl log_bridge_hub log_server self (ack_for m status channel) 0 w in
  ∃ ms, bridge_opens st.2 = bridge_opens w ++ ms ∧ in_order st.1 (Q ++ (pair j <$> ms)) ∧ answered m status channel (connection_at self j) (connection_at st.1 j).
Proof.
  intros Ho Hnext Hs Hch. destruct (in_order_tail _ _ _ _ Ho) as (Hob & Hj & Hv). rewrite (ack_dispatched _ _ _ _ _ _ _ (ack_packet m status channel Hs Hch Hv)).
  unfold handleOpenAck. cbn [open_ack_interface_id open_ack_status open_ack_channel]. rewrite (pending_head _ _ _ _ _ (io_fifo _ _ _ Ho)).
  pose proof (ff_waits _ _ _ _ (io_fifo _ _ _ Ho)) as Hw. inversion_clear Hw as [|? ? (k & Hk & Hl & Hst & Hif) _]. cbn [fst snd] in *.
  pose proof Hk as Hk'. unfold open_keys in Hk'. apply list_lookup_fmap_Some_1 in Hk' as (c & -> & Hc). cbn in Hl, Hst, Hif.
  assert (connection_at self j = c) as Hat by (by apply list_lookup_total_correct). rewrite Hat.
  assert (bool_decide (co_open_state c = kSOCKETCAND_OPEN_PENDING_WRITE) = has_flag (open_flags m) OPEN_FLAG_WANT_WRITE) as ->.
  { rewrite Hst. unfold asked_state. by destruct (has_flag _ _). }
  unfold answered. destruct (status =? OPEN_STATUS_OK) eqn:Hok.
  - exists []. cbn [fst snd fmap list_fmap]. rewrite !app_nil_r. split; [apply sent_ascii|]. split; [|by rewrite (at_alter _ _ _ c)].
    eapply (in_order_idle (Some j) self _ j _ _ Q Hob); [by right|done|exact Hk|by apply okeys_alter| |done|done|done|done]. by intros [_ [H|H]].
  - destruct (has_flag (open_flags m) OPEN_FLAG_WANT_WRITE && (status =? OPEN_STATUS_WRITE_DENIED)).
    + set (m' := {| open_interface_id := co_interface_id c; open_flags := OPEN_FLAGS_READ_ONLY |}). unfold ConnectionTable_NextOpenSeq. cbn [fst snd].
      match goal with |- context [with_connection j ?f ?s] => set (self' := with_connection j f s); pose proof (at_alter s j f c Hc) as Hat' end.
      assert (wm_valid m') as Hv' by (split; [cbn; rewrite Hif; apply Hv|vm_compute; intuition congruence]).
      assert (sb_hub_state self = kSOCKETCAND_HUB_READY) as Hr.
      { destruct (decide (sb_hub_state self = kSOCKETCAND_HUB_READY)) as [|Hn]; [done|]. by specialize (io_ready _ _ _ Ho Hn). }
      assert (asks_at j m' (self, w) (self', sendOpen log_bridge_hub (co_interface_id c) OPEN_FLAGS_READ_ONLY w)) as Ha.
      { split; cbn [fst snd]; [|done..|apply sent_open; [apply Hv'|apply Hv']|done]. exists (open_key c). split; [done|]. unfold self'. rewrite (okeys_alter _ j _ c); [done|exact Hc]. }
      destruct (in_order_asks (Some j) j m' (self, w) _ Q _ Ha Hnext Hr Hk Hl ltac:(by right) Hj Hob) as [Ho' _].
      exists [m']. split; [exact (as_opens _ _ _ _ Ha)|]. split; [exact Ho'|]. unfold self'. rewrite Hat'. done.
    + pose proof (in_order_points _ _ _ _ _ Hob Hk Hl) as Hp. cbn in Hp. pose proof (closed_close self j (co_connection_id c) (lit "open rejected") w Hp) as Hcl.
      exists []. cbn [fmap list_fmap]. rewrite !app_nil_r. split; [exact (cl_opens _ _ _ Hcl)|]. split; [by apply (in_order_closed j (self, w) _ Q (Some j) Hcl); [right|..]|].
      destruct (cl_keys _ _ _ Hcl) as (k' & Hk' & Hks). cbn [fst] in Hk', Hks. rewrite Hk in Hk'. injection Hk' as <-.
      assert (open_keys (closeConnection log_server self j (lit "open rejected") w).1 !! j = Some {| k_live := false; k_id := co_connection_id c; k_state := co_open_state c; k_iface := co_interface_id c; k_seq := co_open_seq c |}) as Hkj.
      { rewrite Hks. apply list_lookup_insert_eq. by apply lookup_lt_Some in Hk. }
      unfold open_keys in Hkj. apply list_lookup_fmap_Some_1 in Hkj as (c' & Hc' & Hl'). unfold connection_at. rewrite (list_lookup_total_correct _ _ _ Hl'). injection Hc'. intros. by split.
Qed.

Lemma control_in_order self data now w Q : in_order self Q → open_ack_of data = None →
  let st := transportOnControl log_bridge_hub log_server self data now w in in_order st.1 Q ∧ bridge_opens st.2 = bridge_opens w.
Proof.
  intros Ho Hack. unfold transportOnControl. destruct (MessageHeader_Decode data) as [h|] eqn:Hh; [|done]. destruct (Nat.ltb _ _); [done|].
  destruct (_ =? kMESSAGE_TYPE_LIST_REPLY); [by apply list_reply_in_order|]. destruct (_ =? kMESSAGE_TYPE_OPEN_ACK) eqn:Ht.
  { unfold open_ack_of in Hack. rewrite Hh in Hack. destruct (OpenAckMessage_Decode _ _) as [[] ack]; [|done]. by rewrite Ht in Hack. }
  destruct (_ =? kMESSAGE_TYPE_CONFIGURE_REPLY); [|done]. destruct (ConfigureReplyMessage_Decode _ _) as [[] reply]; [|done]. pose proof (quiet_configure_reply self reply w) as Hq.
  split; [by apply (in_order_quiet None _ _ Q Hq)|exact (qu_opens _ _ Hq)].
Qed.

Lemma frame_opens self data w : bridge_opens (transportOnFrame log_server self data w) = bridge_opens w.
Proof.
  unfold transportOnFrame, deliverFrame. destruct (MessageHeader_Decode data); [|done]. destruct (_ || _); [done|]. destruct (FrameMessage_Decode _ _) as [[] f]; [|done]. cbn [negb].
  destruct (ConnectionTable_FindByChannel _ _); [|done]. destruct (bool_decide _); [done|]. apply sent_ascii.
Qed.

Lemma in_order_step st e : in_order st.1.1 st.2 → bridge_event_ok st e → in_order (bridge_step st e).1.1 (bridge_step st e).2.
Proof.
  destruct st as [[self w] Q]. cbn [fst snd]. intros Ho (Hnext & Hok & Hstay). cbn [fst] in Hnext. unfold bridge_step in *. destruct e as [now| |now|data now|status channel|data|id|id data|id]; cbn [bridge_move] in *.
  - pose proof (tick_in_order self now w Q Ho) as [H _]. by destruct (SocketcandBridge_Tick _ _ _ _ _).
  - pose proof (connected_in_order self w Q Ho) as [H _]. by destruct (transportOnConnected _ _ _ _).
  - pose proof (lost_in_order self now w Q Ho) as [H _]. by destruct (transportOnDisconnected _ _ _ _).
  - pose proof (control_in_order self data now w Q Ho Hok) as [H _]. by destruct (transportOnControl _ _ _ _ _ _).
  - destruct Q as [|[j m] Q]; [done|]. destruct Hok as [Hs Hc]. destruct (answer_event self w j m Q status channel Ho Hnext Hs Hc) as (ms & Hms & H & _).
    destruct (transportOnControl _ _ _ _ _ _) as [self' w']. cbn [fst snd] in *. by rewrite Hms, drop_app_length.
  - done.
  - pose proof (client_in_order self id w Q Ho Hok) as [H _]. by destruct (serverOnClientConnected _ _ _ _).
  - destruct (ConnectionTable_Find (sb_connections self) id) as [i|] eqn:Hf.
    + pose proof (read_event self w Q id data i Ho Hnext Hf) as Hr. destruct (serverOnClientBytes _ _ _ _ _ _) as [self' w']. cbn [fst snd] in *.
      destruct Hr as [(ms & Hms & H & _)|(ms & Hms & H & k & Hk & Hdead)]; rewrite Hms, drop_app_length in *; [done|]. apply H. intros (x & -> & Hin)%list_elem_of_fmap.
      destruct (Hstay x Hin) as (k' & Hk' & Hlive). rewrite Hk in Hk'. injection Hk' as <-. congruence.
    + unfold serverOnClientBytes in *. rewrite Hf in *. done.
  - assert (∀ i, ConnectionTable_Find (sb_connections self) id = Some i → i ∉ Q.*1) as Hi.
    { intros i Hf (x & -> & Hin)%list_elem_of_fmap. unfold serverOnClientDisconnected in Hstay. rewrite Hf in Hstay. cbn [fst snd] in Hstay.
      destruct (Hstay x Hin) as (k & Hk & Hlive). destruct (find_points None self Q id x.1 Ho Hf) as [Hp _]. destruct (removed_keys self x.1 id Hp) as (k0 & Hk0 & Hks). cbv zeta in Hks.
      rewrite Hks, list_lookup_insert_eq in Hk by (by apply lookup_lt_Some in Hk0). by injection Hk as <-. }
    pose proof (gone_in_order self id w Q Ho Hi) as [H _]. by destruct (serverOnClientDisconnected _ _ _ _).
Qed.

Lemma in_order_start device url beacon : in_order (SocketcandBridge_Init device url beacon) [].
Proof.
  assert (∀ i k, replicate 32 (open_key SocketcandConnection_zero) !! i = Some k → k_live k = false) as Hdead by (intros i k [-> _]%lookup_replicate; done).
  split; try done.
  - split; [constructor|constructor| |constructor]. intros i k Hk [Hl _] _. apply Hdead in Hk. congruence.
  - unfold catalogue_typed. change (Forall (λ e, is_u32 (ce_interface_id e)) (replicate 128 CatalogueEntry_zero)). by apply Forall_replicate.
  - intros i j k k' Hk _ Hl. apply Hdead in Hk. congruence.
Qed.

Lemma in_order_run evs st : in_order st.1.1 st.2 → bridge_history evs st → in_order (bridge_run evs st).1.1 (bridge_run evs st).2.
Proof.
  revert st. induction evs as [|e evs IH]; intros st Ho; [done|]. intros [Hok Hh]. unfold bridge_run. cbn [foldl]. apply IH; [|done]. by apply in_order_step.
Qed.

(** The answer touches no other connection. *)
Lemma others_untouched self ack w j i : ConnectionTable_FindPendingOpen (sb_connections self) (open_ack_interface_id ack) = Some j →
  ConnectionTable_Find (sb_connections self) (co_connection_id (connection_at self j)) = Some j → i ≠ j →
  connection_at (handleOpenAck log_bridge_hub log_server self ack w).1 i = connection_at self i.
Proof.
  intros Hf Hid Hne. assert (∀ f s, connection_at (with_connection j f s) i = connection_at s i) as Hw.
  { intros f s. unfold connection_at. rewrite !list_lookup_total_alt. f_equal. change (alter f j (ct_connections (sb_connections s)) !! i = ct_connections (sb_connections s) !! i). by apply list_lookup_alter_ne. }
  unfold handleOpenAck. rewrite Hf. destruct (_ =? _); [apply Hw|]. destruct (_ && _); [unfold ConnectionTable_NextOpenSeq; cbn [fst]; by rewrite Hw|].
  unfold closeConnection. cbn [fst]. unfold ConnectionTable_Remove. rewrite Hid. exact (Hw (λ c, c <| co_in_use := false |>) self).
Qed.

(** C14. Every OPEN_ACK reaches the connection that asked.  In any history of the
    bridge, of clients that come, send any bytes and leave, of lists, replies,
    frames, lost and new connections to the hub, in which the hub answers the
    OPENs in the order they were sent and no client leaves while it waits for an
    answer: the next answer is taken by the connection whose OPEN it answers,
    which then has the channel, and may write exactly if that OPEN asked for it,
    or retries as a reader, or is closed; every other connection is as before. *)
Theorem socketcand_acks_matched (device url : option (list Z)) (beacon : bool) (evs : list bridge_event) (status channel : Z) :
  let st0 := (SocketcandBridge_Init device url beacon, [], []) in
  bridge_history evs st0 →
  let '(self, w, Q) := bridge_run evs st0 in
  next_seq self < 4294967295 → is_u8 status → is_u8 channel →
  ∀ j m Q', Q = (j, m) :: Q' →
  let self' := (transportOnControl log_bridge_hub log_server self (ack_for m status channel) 0 w).1 in
  answered m status channel (connection_at self j) (connection_at self' j) ∧ ∀ i, i ≠ j → connection_at self' i = connection_at self i.
Proof.
  intros st0 Hh. pose proof (in_order_run evs st0 (in_order_start device url beacon) Hh) as Ho. destruct (bridge_run evs st0) as [[self w] Q]. cbn [fst snd] in Ho.
  intros Hnext Hs Hc j m Q' -> self'. destruct (answer_event self w j m Q' status channel Ho Hnext Hs Hc) as (ms & _ & _ & Ha). split; [exact Ha|]. intros i Hne.
  destruct (in_order_tail _ _ _ _ Ho) as (Hob & _ & Hv). subst self'. rewrite (ack_dispatched _ _ _ _ _ _ _ (ack_packet m status channel Hs Hc Hv)).
  pose proof (ff_waits _ _ _ _ (io_fifo _ _ _ Ho)) as Hw. inversion_clear Hw as [|? ? (k & Hk & Hl & _) _]. pose proof (in_order_points _ _ _ _ _ Hob Hk Hl) as Hp.
  destruct (points_room _ _ _ Hp) as [_ Hkey]. injection Hkey as _ Hid. cbn [fst] in Hid. apply (others_untouched self _ w j i); [by apply (pending_head _ _ _ _ _ (io_fifo _ _ _ Ho))| |done].
  rewrite Hid. by apply points_find.
Qed.

(** ** An example, decided by evaluation *)

Definition live_slot (self : SocketcandBridge) (x : request) : bool := match open_keys self !! x.1 with Some k => k_live k | None => false end.

Definition bridge_event_okb (st : bridge_joint) (e : bridge_event) : bool :=
  (next_seq st.1.1 <? 4294967295) &&
  match e with
  | BvControl data _ => bool_decide (open_ack_of data = None)
  | BvAnswer status channel => bool_decide (is_u8 status) && bool_decide (is_u8 channel)
  | BvClient id => bool_decide (ConnectionTable_Find (sb_connections st.1.1) id = None)
  | _ => true
  end && forallb (live_slot (bridge_step st e).1.1) (bridge_step st e).2.

Fixpoint bridge_historyb (evs : list bridge_event) (st : bridge_joint) : bool :=
  match evs with [] => true | e :: evs' => bridge_event_okb st e && bridge_historyb evs' (bridge_step st e) end.

Lemma bridge_historyb_ok evs st : bridge_historyb evs st = true → bridge_history evs st.
Proof.
  revert st. induction evs as [|e evs IH]; intros st; [done|]. cbn [bridge_historyb bridge_history]. intros [He Hh]%andb_true_iff. split; [|by apply IH].
  unfold bridge_event_okb in He. apply andb_true_iff in He as [[Hn%Z.ltb_lt Hok]%andb_true_iff Hall]. split; [done|]. split.
  - destruct e; try done; [by apply bool_decide_eq_true in Hok| |by apply bool_decide_eq_true in Hok]. apply andb_true_iff in Hok as [H1%bool_decide_eq_true H2%bool_decide_eq_true]. done.
  - intros x Hx. rewrite forallb_forall in Hall. specialize (Hall x (proj1 (list_elem_of_In _ _) Hx)). unfold live_slot in Hall.
    destruct (open_keys (bridge_step st e).1.1 !! x.1) as [k|]; [by exists k|done].
Qed.

#[global] Instance OpenAckMessage_eq_dec : EqDecision OpenAckMessage.
Proof. solve_decision. Defined.

Module AcksDemo.

Definition page : list Z :=
  let m := {| lr_count := 1; lr_flags := 0;
              lr_entries := {| lre_interface_id := 9; lre_agent_name := padded 128 (lit "rig"); lre_interface_name := padded 16 (lit "can0") |} :: replicate 15 ListReplyEntry_zero |} in
  take (ListReplyMessage_Encode m (replicate 200 0)).1 (ListReplyMessage_Encode m (replicate 200 0)).2.
Definition start : bridge_joint := (SocketcandBridge_Init None None false, [], []).
Definition ready : list bridge_event := [BvTick 0; BvConnected; BvControl page 1].
(** Two clients want the same bus, the second asks first. *)
Definition both : list bridge_event := ready ++ [BvClient 7; BvClient 8; BvBytes 8 (lit "<open rig/can0>"); BvBytes 7 (lit "<open rig/can0>")].

End AcksDemo.

Lemma socketcand_acks_matched_witness :
  let '(self, w, Q) := bridge_run AcksDemo.both AcksDemo.start in
  let m := {| open_interface_id := 9; open_flags := OPEN_FLAGS_READ_WRITE |} in
  let self' := (transportOnControl log_bridge_hub log_server self (ack_for m OPEN_STATUS_OK 5) 0 w).1 in
  Q = [(1%nat, m); (0%nat, m)] ∧ answered m OPEN_STATUS_OK 5 (connection_at self 1) (connection_at self' 1) ∧ connection_at self' 0 = connection_at self 0.
Proof.
  assert (bridge_history AcksDemo.both AcksDemo.start) as Hh by (apply bridge_historyb_ok; vm_compute; reflexivity).
  pose proof (socketcand_acks_matched None None false AcksDemo.both OPEN_STATUS_OK 5 Hh) as H. cbv zeta in H. change (SocketcandBridge_Init None None false, [], []) with AcksDemo.start in H.
  assert (next_seq (bridge_run AcksDemo.both AcksDemo.start).1.1 = 2) as Hn by (vm_compute; reflexivity).
  assert ((bridge_run AcksDemo.both AcksDemo.start).2 = [(1%nat, {| open_interface_id := 9; open_flags := OPEN_FLAGS_READ_WRITE |}); (0%nat, {| open_interface_id := 9; open_flags := OPEN_FLAGS_READ_WRITE |})]) as HQ
    by (vm_compute; reflexivity).
  destruct (bridge_run AcksDemo.both AcksDemo.start) as [[self w] Q]. cbn [fst snd] in Hn, HQ. intros m self'. split; [exact HQ|].
  destruct (H ltac:(rewrite Hn; reflexivity) ltac:(vm_compute; intuition congruence) ltac:(vm_compute; intuition congruence) 1%nat m [(0%nat, m)] HQ) as [H1 H2].
  split; [exact H1|]. apply H2. discriminate.
Defined.
