(* ===== verification/SocketcandFlaws.v ===== *)
(** * Where the socketcand bridge falls short

    First a configuration nobody answers, then a channel nobody closes, then runs
    of the bridge.  The bridge sends one CONFIGURE at a time and waits for its
    reply: what the hub does not answer keeps every other client's configuration
    waiting. *)

From Stdlib Require Import String.
From S2P Require Import Prelude CString Wire Codec HelloMessage RegisterMessage OpenMessage ListMessage FrameMessage TxnMessage TxnStepsMessage IfconfigMessage ControlPlane PeerDirectory BrokerState BrokerPeers BrokerControl BrokerHandlers.
From S2P Require Import InterfaceName StepRing IsotpLink TransactionRunner AsciiFramer SocketcandCodec SocketcandBridge SocketcandBytes SocketcandAcks ClientSession RunnerInvariant.

(** ** Messages of one type in a log *)

(** The messages [pick] takes from a log; it takes none but those of the type [type]. *)
Section Picks.
Context {A : Type} (type : Z) (pick : list Z → option A).

Definition picked (o : bridge_out) : option A := match o with BoControl data => pick data | _ => None end.
Definition picks (w : list bridge_out) : list A := omap picked w.

Lemma picks_snoc w o : picked o = None → picks (w ++ [o]) = picks w.
Proof. intros Ho. unfold picks. rewrite omap_app. cbn. rewrite Ho. apply app_nil_r. Qed.

Lemma still_ascii id text w : picks (sendAscii log_server id text w) = picks w.
Proof. unfold sendAscii. destruct (Nat.eqb _ _); [done|]. by apply picks_snoc. Qed.

Lemma still_closed id w : picks (sp_close_client log_server id w) = picks w.
Proof. by apply picks_snoc. Qed.

Lemma still_beacon self w : picks (emitBeacon log_server self w) = picks w.
Proof. unfold emitBeacon. destruct (Nat.eqb _ _); [done|]. by apply picks_snoc. Qed.

Lemma still_frame self i frame w : picks (handleSend log_bridge_hub log_server self i frame w) = picks w.
Proof.
  unfold handleSend. destruct (negb _); [apply still_ascii|]. destruct (negb _); [apply still_ascii|]. destruct (FrameMessage_Encode _ _) as [[|n] bs]; [done|]. by apply picks_snoc.
Qed.

Lemma still_delivered self data w : picks (transportOnFrame log_server self data w) = picks w.
Proof.
  unfold transportOnFrame, deliverFrame. destruct (MessageHeader_Decode data); [|done]. destruct (_ || _); [done|]. destruct (FrameMessage_Decode _ _) as [[] f]; [|done]. cbn [negb].
  destruct (ConnectionTable_FindByChannel _ _); [|done]. destruct (bool_decide _); [done|]. apply still_ascii.
Qed.

Context (pick_type : ∀ data, data !!! 0%nat ≠ type → pick data = None).

Lemma still_first n bs w : n ≠ 0%nat → bs !!! 0%nat ≠ type → picks (bh_send_control log_bridge_hub (take n bs) w) = picks w.
Proof.
  intros Hn Hne. apply picks_snoc. cbn [picked]. apply pick_type. by rewrite list_lookup_total_alt, lookup_take_lt, <- list_lookup_total_alt by lia.
Qed.

Lemma still_encoded message w : (message.1 ≠ 0%nat → message.2 !!! 0%nat ≠ type) → picks (sendEncoded log_bridge_hub message w) = picks w.
Proof. intros Hne. unfold sendEncoded. destruct (Nat.eqb_spec message.1 0); [done|]. by apply still_first; [|apply Hne]. Qed.
End Picks.

Ltac first_byte := change (Nat.ltb (length control_buffer) _) with false; cbv iota zeta; cbn [snd];
  rewrite ?first_copy, ?first_u16, ?first_u32, ?first_insert, ?first_begin by (try change (length control_buffer) with 424%nat; lia); done.

Lemma list_first offset : (ListMessage_Encode {| list_offset := offset |} control_buffer).2 !!! 0%nat = kMESSAGE_TYPE_LIST.
Proof. unfold ListMessage_Encode. first_byte. Qed.
Lemma open_first id flags : (OpenMessage_Encode {| open_interface_id := id; open_flags := flags |} control_buffer).2 !!! 0%nat = kMESSAGE_TYPE_OPEN.
Proof. unfold OpenMessage_Encode. first_byte. Qed.
Lemma close_first channel : (CloseMessage_Encode {| close_channel := channel |} control_buffer).2 !!! 0%nat = kMESSAGE_TYPE_CLOSE.
Proof. unfold CloseMessage_Encode. first_byte. Qed.
Lemma hello_first name : (HelloMessage_Build kPEER_ROLE_CLIENT (Some name) HELLO_CAP_RELIABLE_CHANNELS (replicate HELLO_NAME_SIZE 0) control_buffer).2 !!! 0%nat = kMESSAGE_TYPE_HELLO.
Proof.
  unfold HelloMessage_Build, HelloMessage_Encode. cbn [hello_role hello_version hello_capabilities hello_name]. change (negb (isRoleValid kPEER_ROLE_CLIENT)) with false. first_byte.
Qed.
Lemma configure_first m : let message := ConfigureMessage_Encode m control_buffer in message.1 ≠ 0%nat → message.2 !!! 0%nat = kMESSAGE_TYPE_CONFIGURE.
Proof.
  unfold ConfigureMessage_Encode. destruct (negb _); [done|]. destruct (negb _); [done|]. unfold ifconfig_encode.
  change (Nat.ltb (length control_buffer) _) with false. cbv iota zeta. change (Nat.eqb (4 + 236) 0) with false. cbv iota. cbn [snd]. intros _.
  by rewrite first_settings, first_insert, !first_copy, first_begin by (try change (length control_buffer) with 424%nat; lia).
Qed.

Create HintDb still.
#[local] Hint Rewrite @still_ascii @still_closed @still_beacon @still_frame @still_delivered : still.

(** ** The CONFIGUREs of a log *)

Definition configure_of (data : list Z) : option (list Z) := if data !!! 0%nat =? kMESSAGE_TYPE_CONFIGURE then Some data else None.
Notation bridge_configures := (picks configure_of).

Lemma configure_of_type data : data !!! 0%nat ≠ kMESSAGE_TYPE_CONFIGURE → configure_of data = None.
Proof. intros Hne. unfold configure_of. by rewrite (proj2 (Z.eqb_neq _ _)). Qed.

Ltac another_type of_type lem := apply (still_encoded _ _ of_type); intros _; rewrite lem; done.

Lemma still_list offset w : bridge_configures (sendListPage log_bridge_hub offset w) = bridge_configures w.
Proof. another_type configure_of_type list_first. Qed.
Lemma still_open id flags w : bridge_configures (sendOpen log_bridge_hub id flags w) = bridge_configures w.
Proof. another_type configure_of_type open_first. Qed.
Lemma still_close channel w : bridge_configures (sendClose log_bridge_hub channel w) = bridge_configures w.
Proof. another_type configure_of_type close_first. Qed.
Lemma still_hello self w : bridge_configures (sendHello log_bridge_hub self w) = bridge_configures w.
Proof. another_type configure_of_type hello_first. Qed.
#[local] Hint Rewrite still_list still_open still_close still_hello : still.

(** The state and the log while a reply is awaited. *)
Definition awaiting (asked : list (list Z)) (self : SocketcandBridge) (w : list bridge_out) : Prop :=
  sb_configure_in_flight self = true ∧ bridge_configures w = asked.

(** ** Nothing but a reply or a loss ends the wait *)

Section Waiting.
Context (asked : list (list Z)).

Lemma waits_next self w : awaiting asked self w → sendNextConfigure log_bridge_hub log_server self w = (self, w).
Proof. intros [Hf _]. unfold sendNextConfigure. by rewrite Hf. Qed.

Lemma waits_closing self i detail w : awaiting asked self w → let st := closeConnection log_server self i detail w in awaiting asked st.1 st.2.
Proof. intros [Hf Hw]. unfold closeConnection. split; [done|]. cbn [snd]. by autorewrite with still. Qed.

Lemma waits_queue self i command w : awaiting asked self w → let st := queueConfigure log_bridge_hub log_server self i command w in awaiting asked st.1 st.2.
Proof.
  intros [Hf Hw]. unfold queueConfigure, sendError. destruct (bool_decide _); [split; [done|by cbn [snd]; autorewrite with still]|]. destruct (_ =? 0); [split; [done|by cbn [snd]; autorewrite with still]|].
  rewrite waits_next by done. done.
Qed.

Lemma waits_command self i command w : awaiting asked self w →
  let '(open, self', w') := dispatchCommand log_bridge_hub log_server self i command w in awaiting asked self' w'.
Proof.
  intros Ha. pose proof Ha as [Hf Hw]. unfold dispatchCommand. destruct (sc_kind command); try done; try (split; [done|by autorewrite with still]);
    try (pose proof (waits_queue self i command w Ha); by destruct (queueConfigure _ _ self i command w)).
  unfold openBus. destruct (bool_decide (co_open_state _ ≠ _)); [pose proof (waits_closing self i (lit "bus already open") w Ha); by destruct (closeConnection log_server self i _ w)|].
  destruct (if bool_decide _ then _ else _) as [iface|]; [split; [done|by autorewrite with still]|].
  pose proof (waits_closing self i (lit "could not open bus") w Ha). by destruct (closeConnection log_server self i _ w).
Qed.

Lemma waits_bytes self id data w : awaiting asked self w → let st := serverOnClientBytes log_bridge_hub log_server self id data w in awaiting asked st.1 st.2.
Proof.
  intros Ha. unfold serverOnClientBytes. destruct (ConnectionTable_Find _ _) as [i|]; [|done].
  destruct (bytes_loop_ind log_bridge_hub log_server (awaiting asked) (awaiting asked) i (S (2 * length data)) self data w) as [H|H]; try done.
  intros s v command Hs. pose proof (waits_command s i command v Hs) as H. by destruct (dispatchCommand _ _ s i command v) as [[[] ?] ?].
Qed.

Lemma waits_listing self w : awaiting asked self w → let st := startListing log_bridge_hub self w in awaiting asked st.1 st.2.
Proof. intros [Hf Hw]. split; [done|]. cbn [startListing snd]. by autorewrite with still. Qed.

Lemma waits_tick self now w : awaiting asked self w → let st := SocketcandBridge_Tick log_bridge_hub log_server self now w in awaiting asked st.1 st.2.
Proof.
  intros Ha. unfold SocketcandBridge_Tick. destruct (bool_decide (_ = _)); [destruct (_ >=? _); [by destruct Ha as [Hf Hw]; split|done]|]. destruct (bool_decide _); [done|].
  assert (∀ self w, awaiting asked self w → let st := if sb_beacon_enabled self && (now >=? sb_next_beacon_at_us self)
    then (self <| sb_next_beacon_at_us := u64 (now + BEACON_INTERVAL_US) |>, emitBeacon log_server self w) else (self, w) in awaiting asked st.1 st.2) as Hb.
  { intros s v [Hf Hw]. destruct (_ && _); [|done]. split; [done|]. cbn [snd]. by autorewrite with still. }
  destruct (_ && _) eqn:?; [|by apply Hb]. pose proof (waits_listing self w Ha) as Hl. destruct (startListing log_bridge_hub self w) as [s v]. by apply Hb.
Qed.

Lemma waits_connected self w : awaiting asked self w → let st := transportOnConnected log_bridge_hub log_server self w in awaiting asked st.1 st.2.
Proof.
  intros [Hf Hw]. unfold transportOnConnected. destruct (bool_decide _); [done|]. cbn [startListing]. rewrite waits_next by (split; [done|by autorewrite with still]).
  split; [done|]. cbn [snd]. by autorewrite with still.
Qed.

Lemma waits_list_reply self body now w : awaiting asked self w → let st := handleListReply log_bridge_hub self body now w in awaiting asked st.1 st.2.
Proof.
  intros [Hf Hw]. unfold handleListReply. destruct (ListReplyMessage_Decode _ _) as [[] reply]; [|done]. cbn [negb]. destruct (_ && _); [|done]. split; [done|]. cbn [snd]. by autorewrite with still.
Qed.

Lemma waits_open_ack self ack w : awaiting asked self w → let st := handleOpenAck log_bridge_hub log_server self ack w in awaiting asked st.1 st.2.
Proof.
  intros Ha. pose proof Ha as [Hf Hw]. unfold handleOpenAck. destruct (ConnectionTable_FindPendingOpen _ _) as [i|]; [|done]. destruct (_ =? _); [split; [done|by cbn [snd]; autorewrite with still]|].
  destruct (_ && _); [|by apply waits_closing]. destruct (ConnectionTable_NextOpenSeq _) as [seq c]. split; [done|]. cbn [snd]. by autorewrite with still.
Qed.

(** Not a CONFIGURE_REPLY. *)
Definition no_reply (data : list Z) : Prop := ∀ h, MessageHeader_Decode data = Some h → header_type h ≠ kMESSAGE_TYPE_CONFIGURE_REPLY.

Lemma waits_control self data now w : no_reply data → awaiting asked self w → let st := transportOnControl log_bridge_hub log_server self data now w in awaiting asked st.1 st.2.
Proof.
  intros Hn Ha. unfold transportOnControl. destruct (MessageHeader_Decode data) as [h|] eqn:Hh; [|done]. destruct (Nat.ltb _ _); [done|].
  destruct (_ =? kMESSAGE_TYPE_LIST_REPLY); [by apply waits_list_reply|]. destruct (_ =? kMESSAGE_TYPE_OPEN_ACK).
  { destruct (OpenAckMessage_Decode _ _) as [[] ack]; [by apply waits_open_ack|done]. }
  by rewrite (proj2 (Z.eqb_neq _ _) (Hn h Hh)).
Qed.

Lemma no_reply_type data : data !!! 0%nat ≠ kMESSAGE_TYPE_CONFIGURE_REPLY → no_reply data.
Proof. intros Hne h. unfold MessageHeader_Decode. destruct (Nat.ltb _ _); [done|]. by intros [= <-]. Qed.

Lemma ack_type m status channel : ack_for m status channel !!! 0%nat = kMESSAGE_TYPE_OPEN_ACK.
Proof.
  unfold ack_for. rewrite list_lookup_total_alt, lookup_take_lt, <- list_lookup_total_alt by lia. unfold OpenAckMessage_Encode. change (Nat.ltb (length (replicate 12 0)) _) with false. cbv iota zeta. cbn [snd].
  by rewrite first_u32, !first_insert, first_begin by (rewrite ?length_replicate; lia).
Qed.

(** The hub neither replies nor is lost. *)
Definition unanswered (e : bridge_event) : Prop := match e with BvLost _ => False | BvControl data _ => no_reply data | _ => True end.

Lemma waits_move e st : unanswered e → awaiting asked st.1.1 st.1.2 → awaiting asked (bridge_move e st).1 (bridge_move e st).2.
Proof.
  destruct st as [[self w] Q]. cbn [fst snd]. intros He Ha. destruct e; cbn [bridge_move unanswered] in *; try done.
  - by apply waits_tick.
  - by apply waits_connected.
  - by apply waits_control.
  - destruct Q as [|[j m] Q]; [done|]. apply waits_control; [|done]. apply no_reply_type. rewrite ack_type. done.
  - destruct Ha as [Hf Hw]. split; [done|]. cbn [snd]. by autorewrite with still.
  - destruct Ha as [Hf Hw]. unfold serverOnClientConnected. destruct (ConnectionTable_Add _ _) as [[i|] c]; split; try done; cbn [snd]; by autorewrite with still.
  - by apply waits_bytes.
  - destruct Ha as [Hf Hw]. unfold serverOnClientDisconnected. destruct (ConnectionTable_Find _ _) as [i|]; [|done]. split; [done|]. cbn [snd]. destruct (_ && _); [by autorewrite with still|done].
Qed.

Lemma waits_run evs st : Forall unanswered evs → awaiting asked st.1.1 st.1.2 → awaiting asked (bridge_run evs st).1.1 (bridge_run evs st).1.2.
Proof.
  intros He. revert st. induction He as [|e evs He _ IH]; intros st Ha; [done|]. unfold bridge_run. cbn [foldl]. apply IH. pose proof (waits_move e st He Ha) as H. unfold bridge_step. destruct st as [[self w] Q]. by destruct (bridge_move e _).
Qed.
End Waiting.

(** ** A request the hub cannot read *)

(** The sample point that was written is the one that is read, whatever the other fields hold. *)
Lemma sample_point_back buf s : (240 ≤ length buf)%nat → is_u16 (is_sample_point s) →
  Wire_ReadU16 (drop 4 (writeSettings buf 152 s)) 160 = is_sample_point s.
Proof.
  intros Hl Hs. apply Wire_ReadU16_slice; [|done].
  assert (slice 164 2 (writeSettings buf 152 s) = le_bytes 2 (is_sample_point s)) as H; [|unfold slice in *; by rewrite drop_drop].
  unfold writeSettings, writeBitTiming, Wire_WriteU32. cbv zeta. cbn [Nat.add]. rewrite (Wire_WriteU16_le _ 164 _ Hs). unfold Wire_WriteU16. cbn [Nat.add].
  rewrite !slice_insert_ne by lia. apply slice_inserts_eq; [done|]. rewrite !length_insert. cbn. lia.
Qed.

Lemma nul_at b x : b !! strlen b = Some x → x = 0.
Proof. induction b as [|c b IH]; [done|]. unfold strlen in *. cbn [cstr]. destruct (Z.eqb_spec c 0); [by intros [= <-]|]. cbn. apply IH. Qed.

(** The names a split leaves end in a NUL. *)
Lemma split_names bus agent name : InterfaceName_Split bus (replicate 128 0) (replicate 16 0) = (true, (agent, name)) →
  agent !!! 127%nat = 0 ∧ name !!! 15%nat = 0.
Proof.
  assert (∀ n k, (k < n)%nat → replicate n 0 !! k = Some 0) as Hz by (intros; by apply lookup_replicate_2). pose proof (Hz 128 127 ltac:(lia))%nat as Hza. pose proof (Hz 16 15 ltac:(lia))%nat as Hzn.
  pose proof (length_replicate 128 0) as Hla. pose proof (length_replicate 16 0) as Hln. revert Hza Hzn Hla Hln. generalize (replicate 128 0), (replicate 16 0). clear Hz. intros za zn Hza Hzn Hla Hln.
  unfold InterfaceName_Split. destruct (strchr _ _) as [n|]; [|done]. destruct (_ || _) eqn:Hn; [done|]. destruct (_ || (Nat.leb 16 _)) eqn:Hi; [done|].
  apply orb_false_iff in Hn as [_ Hn%Nat.leb_gt]. apply orb_false_iff in Hi as [_ Hi%Nat.leb_gt]. set (rest := drop (S n) bus) in *. intros [= <- <-]. rewrite !list_lookup_total_alt. unfold copy_at. split.
  - destruct (decide (n = 127%nat)) as [->|Hne]; [by rewrite list_lookup_insert_eq by (rewrite length_inserts; lia)|].
    rewrite list_lookup_insert_ne by done. by rewrite list_lookup_inserts_ge, Hza by (rewrite length_take; lia).
  - destruct (decide (length (take (S (strlen rest)) rest) ≤ 15)%nat) as [Hs|Hs]; [by rewrite list_lookup_inserts_ge, Hzn by lia|].
    rewrite length_take in Hs. assert (strlen rest = 15%nat) as Hlen by lia. rewrite list_lookup_inserts by (rewrite ?length_take; lia).
    rewrite lookup_take_lt by lia. destruct (rest !! (15 - 0)%nat) as [x|] eqn:Hx; [|apply lookup_ge_None in Hx; lia]. apply (nul_at rest). rewrite Hlen. exact Hx.
Qed.

(** The body of a CONFIGURE with such a sample point does not decode. *)
Lemma configure_unreadable m : cf_agent_name m !!! 127%nat = 0 → cf_interface_name m !!! 15%nat = 0 →
  INTERFACE_SAMPLE_POINT_MAX < is_sample_point (cf_settings m) → is_u16 (is_sample_point (cf_settings m)) →
  let message := ConfigureMessage_Encode m control_buffer in
  message.1 = 240%nat ∧ (ConfigureMessage_Decode configure0 (drop MESSAGE_HEADER_SIZE (take message.1 message.2))).1 = false.
Proof.
  intros Ha Hi Hbad Hu. unfold ConfigureMessage_Encode. cbn [Nat.sub]. rewrite Ha, Hi. cbn [negb Z.eqb]. unfold ifconfig_encode.
  change (Nat.ltb (length control_buffer) _) with false. cbv iota zeta. cbn [Nat.add Nat.eqb fst snd]. split; [done|]. set (buf := <[148%nat := _]> _).
  assert (length buf = 424%nat) as Hlen by (subst buf; rewrite length_insert; unfold copy_at; rewrite !length_inserts; reflexivity).
  unfold ConfigureMessage_Decode. destruct (Nat.ltb _ _); [done|]. unfold readSettings.
  assert (is_sample_point (settings_at (drop 4 (take 240 (writeSettings buf 152 (cf_settings m)))) 148) = is_sample_point (cf_settings m)) as ->; [|by rewrite (proj2 (Z.gtb_lt _ _))].
  cbn [settings_at is_sample_point]. rewrite <- (sample_point_back buf (cf_settings m)) by (done || lia). cbn [Nat.add]. unfold Wire_ReadU16.
  rewrite !list_lookup_total_alt, !lookup_drop, !lookup_take_lt by lia. done.
Qed.

(** ** A configuration nobody answers *)

(** The bridge may send a CONFIGURE and the connection may ask for one. *)
Record may_configure (self : SocketcandBridge) (i : nat) : Prop := {
  mc_hub : sb_hub_state self = kSOCKETCAND_HUB_READY;
  mc_idle : sb_configure_in_flight self = false;
  mc_queue : ∀ j c, ct_connections (sb_connections self) !! j = Some c → awaits_configure c = false;
  mc_connection : ∃ c, ct_connections (sb_connections self) !! i = Some c ∧ co_in_use c = true ∧ co_open_state c = kSOCKETCAND_OPEN_NONE;
}.

(** A bit timing for a bus with a name of two parts, its sample point above what the protocol allows. *)
Record bad_timing (command : SocketcandCommand) : Prop := {
  bd_kind : sc_kind command = kSOCKETCAND_COMMAND_BITTIMING;
  bd_fields : is_fields (sc_settings command) ≠ 0;
  bd_bus : (InterfaceName_Split (sc_bus command) (replicate 128 0) (replicate 16 0)).1 = true;
  bd_point : INTERFACE_SAMPLE_POINT_MAX < is_sample_point (sc_settings command) ∧ is_u16 (is_sample_point (sc_settings command));
}.

Lemma next_configure_first self i w self' w' : sb_configure_in_flight self = false → sb_hub_state self = kSOCKETCAND_HUB_READY →
  ConnectionTable_OldestQueuedConfigure (sb_connections self) = Some i → sendConfigure log_bridge_hub log_server self i w = (true, self', w') →
  sendNextConfigure log_bridge_hub log_server self w = (self', w').
Proof. intros Hf Hr Ho Hs. unfold sendNextConfigure. rewrite Hf, Hr, bool_decide_eq_false_2 by naive_solver. cbn [orb]. change (S 32) with 33%nat. cbn beta iota delta [configure_loop]. by rewrite Ho, Hs. Qed.

(** A connection whose request is the only one is next. *)
Lemma only_queued connections i c : (∀ j c, connections !! j = Some c → awaits_configure c = false) → (i < length connections)%nat → awaits_configure c = true →
  oldest_loop awaits_configure (λ c, pc_seq (co_configure c)) 0 None (<[i := c]> connections) = Some i.
Proof.
  intros Hq Hi Hc. apply (oldest_first _ _ 0 None i c); [by apply list_lookup_insert_eq|done| |done].
  intros j c' Hj Hc' Hne. rewrite list_lookup_insert_ne in Hj by done. by rewrite (Hq j c' Hj) in Hc'.
Qed.

(** The bridge sends it on and waits. *)
Lemma bad_timing_sent self i command w : may_configure self i → bad_timing command →
  ∃ request self', dispatchCommand log_bridge_hub log_server self i command w = (true, self', w ++ [BoControl request]) ∧ sb_configure_in_flight self' = true ∧
    configure_of request = Some request ∧ (ConfigureMessage_Decode configure0 (drop MESSAGE_HEADER_SIZE request)).1 = false.
Proof.
  intros [Hr Hf Hq (c & Hc & Hu & Ho)] [Hk Hn Hb [Hp Hw]]. unfold dispatchCommand. rewrite Hk. unfold queueConfigure.
  assert (connection_at self i = c) as -> by (unfold connection_at; by rewrite list_lookup_total_alt, Hc). rewrite Ho, bool_decide_eq_false_2 by naive_solver.
  rewrite (proj2 (Z.eqb_neq _ _) Hn). set (queued := ConnectionTable_QueueConfigure _ _ _ _).
  set (c' := c <| co_configure := {| pc_queued := true; pc_seq := u32 (ct_next_configure_seq (sb_connections self) + 1); pc_bus := sc_bus command; pc_settings := sc_settings command |} |>).
  assert (ct_connections queued = <[i := c']> (ct_connections (sb_connections self))) as Hqueued by (subst queued c'; cbn; by rewrite (alter_insert_at _ _ _ _ Hc)).
  pose proof (lookup_lt_Some _ _ _ Hc) as Hi.
  assert (∃ request self', sendConfigure log_bridge_hub log_server (self <| sb_connections := queued |>) i w = (true, self', w ++ [BoControl request]) ∧ sb_configure_in_flight self' = true ∧
    configure_of request = Some request ∧ (ConfigureMessage_Decode configure0 (drop MESSAGE_HEADER_SIZE request)).1 = false) as (request & self' & Hs & Hrest).
  { unfold sendConfigure. cbv zeta. set (sending := with_connection i unqueue _).
    assert (connection_at sending i = unqueue c') as -> by (unfold connection_at; subst sending; cbn [with_connection sb_connections on_connection ct_connections set_field];
      change (ct_connections (sb_connections _)) with (alter unqueue i (ct_connections queued)); by rewrite Hqueued, list_lookup_total_alt, list_lookup_alter_eq, list_lookup_insert_eq by done).
    change (pc_bus (co_configure (unqueue c'))) with (sc_bus command). change (pc_settings (co_configure (unqueue c'))) with (sc_settings command).
    change (cf_agent_name configure0) with (replicate 128 0). change (cf_interface_name configure0) with (replicate 16 0).
    destruct (InterfaceName_Split _ _ _) as [ok [agent name]] eqn:Hsplit. cbn [fst] in Hb. subst ok. destruct (split_names _ _ _ Hsplit) as [Ha Hname].
    set (m := {| cf_agent_name := agent |}). destruct (configure_unreadable m Ha Hname Hp Hw) as [H1 H2]. pose proof (configure_first m) as H3. cbv zeta in H3.
    destruct (ConfigureMessage_Encode m control_buffer) as [size bs]. cbn [fst snd] in *. subst size. cbn [Nat.eqb]. specialize (H3 ltac:(lia)). eexists _, _. split; [reflexivity|]. split; [reflexivity|]. split; [|exact H2].
    unfold configure_of. rewrite list_lookup_total_alt, lookup_take_lt, <- list_lookup_total_alt, H3 by lia. done. }
  exists request, self'. split; [|done]. rewrite (next_configure_first _ i w self' (w ++ [BoControl request])); [done|done|done| |done].
  unfold ConnectionTable_OldestQueuedConfigure. change (sb_connections (self <| sb_connections := queued |>)) with queued. rewrite Hqueued. apply only_queued; [done|done|]. unfold awaits_configure. change (andb (co_in_use c) true = true). by rewrite Hu.
Qed.

(** C40. A bit timing the hub cannot read stops every later configuration.  Let
    a client that has not opened a bus send a bit timing whose sample point, the
    16 bits the command keeps of it, is above 1000, in any state of the bridge
    that has the hub and no configuration under way.  The bridge sends it on; the
    hub drops the request without a reply, whatever its state and whoever the
    peer is.  From then on no event - any client's commands, ticks, lists,
    answers to OPENs, frames - makes the bridge send another CONFIGURE, until a
    CONFIGURE_REPLY comes, which the hub does not send, or its connection is
    lost. *)
Theorem bad_sample_point_stalls_configuration (self : SocketcandBridge) (i : nat) (command : SocketcandCommand) (w : list bridge_out) :
  may_configure self i → bad_timing command →
  ∃ request self', dispatchCommand log_bridge_hub log_server self i command w = (true, self', w ++ [BoControl request]) ∧
  configure_of request = Some request ∧
  (∀ `{ports : HubPorts} peer header hub, (handleConfigure peer header (drop MESSAGE_HEADER_SIZE request) hub).2 = hub) ∧
  ∀ evs Q, Forall unanswered evs → bridge_configures (bridge_run evs (self', w ++ [BoControl request], Q)).1.2 = bridge_configures w ++ [request].
Proof.
  intros Hm Hb. destruct (bad_timing_sent self i command w Hm Hb) as (request & self' & Hs & Hf & Hc & Hd). exists request, self'. split_and!; [done|done| |].
  - intros ports peer header hub. unfold handleConfigure, mbind, Hub_bind, peer_at, gets. destruct (negb _ && negb _); [done|]. by destruct (ConfigureMessage_Decode _ _) as [[] m].
  - intros evs Q He. apply (waits_run (bridge_configures w ++ [request]) evs (self', w ++ [BoControl request], Q) He). split; [done|].
    cbn [fst snd]. unfold picks. rewrite omap_app. cbn. by rewrite Hc.
Qed.

Module StallDemo.
(** A sample point of 5000 tenths of a percent, as the bridge parses it, from a client that has just come. *)
Definition bad : list Z := lit "rig/can0 B 500000 5000 0 0 0 0 0 0".
Definition command : SocketcandCommand := default (of_kind kSOCKETCAND_COMMAND_UNKNOWN) (SocketcandCodec_Parse bad).
Definition arrived : bridge_joint := bridge_run (AcksDemo.ready ++ [BvClient 7]) AcksDemo.start.
(** Another client asks for a configuration the hub would take. *)
Definition later : list bridge_event := [BvClient 8; BvBytes 8 (lit "<rig/can0 B 500000 800 0 0 0 0 0 0>"); BvTick 6000000].
End StallDemo.

Lemma bad_sample_point_stalls_configuration_witness :
  is_sample_point (sc_settings StallDemo.command) = 5000 ∧
  let st := dispatchCommand log_bridge_hub log_server StallDemo.arrived.1.1 0 StallDemo.command StallDemo.arrived.1.2 in
  length (bridge_configures (bridge_run StallDemo.later (st.1.2, st.2, [])).1.2) = 1%nat.
Proof.
  split; [vm_compute; reflexivity|]. intros st.
  assert (may_configure StallDemo.arrived.1.1 0) as Hm.
  { split; [vm_compute; reflexivity..| |eexists; split; [vm_compute; reflexivity|split; reflexivity]].
    assert (forallb (λ c, negb (awaits_configure c)) (ct_connections (sb_connections StallDemo.arrived.1.1)) = true) as Hall by (vm_compute; reflexivity).
    intros j c Hj. rewrite forallb_forall in Hall. apply list_elem_of_lookup_2, list_elem_of_In, Hall, negb_true_iff in Hj. done. }
  assert (bad_timing StallDemo.command) as Hb by (split; [vm_compute; reflexivity|vm_compute; discriminate|vm_compute; reflexivity|vm_compute; split; [reflexivity|split; [discriminate|reflexivity]]]).
  destruct (bad_sample_point_stalls_configuration _ 0 StallDemo.command StallDemo.arrived.1.2 Hm Hb) as (request & self' & Hs & _ & _ & Hwait).
  assert (Forall unanswered StallDemo.later) as He by (repeat constructor).
  subst st. rewrite Hs. cbn [fst snd]. rewrite (Hwait StallDemo.later [] He). vm_compute. reflexivity.
Defined.

(** * A channel nobody closes *)

(** ** The CLOSEs of one channel in a log *)

Section Orphan.
Context (channel : Z).

Definition close_of (data : list Z) : option (list Z) :=
  if (data !!! 0%nat =? kMESSAGE_TYPE_CLOSE) && (data !!! 4%nat =? channel) then Some data else None.
Notation channel_closes := (picks close_of).

Lemma close_of_type data : data !!! 0%nat ≠ kMESSAGE_TYPE_CLOSE → close_of data = None.
Proof. intros Hne. unfold close_of. by rewrite (proj2 (Z.eqb_neq _ _)). Qed.

Lemma quiet_list offset w : channel_closes (sendListPage log_bridge_hub offset w) = channel_closes w.
Proof. another_type close_of_type list_first. Qed.
Lemma quiet_open id flags w : channel_closes (sendOpen log_bridge_hub id flags w) = channel_closes w.
Proof. another_type close_of_type open_first. Qed.
Lemma quiet_hello self w : channel_closes (sendHello log_bridge_hub self w) = channel_closes w.
Proof. another_type close_of_type hello_first. Qed.
Lemma quiet_close other w : other ≠ channel → channel_closes (sendClose log_bridge_hub other w) = channel_closes w.
Proof.
  intros Hne. unfold sendClose, sendEncoded, CloseMessage_Encode. change (Nat.ltb (length control_buffer) _) with false. cbv iota zeta. cbn [fst snd Nat.add Nat.eqb close_channel].
  apply picks_snoc. cbn [picked]. unfold close_of. rewrite (list_lookup_total_alt _ 4), lookup_take_lt, <- list_lookup_total_alt by lia.
  rewrite list_lookup_total_insert_eq by (vm_compute; lia). rewrite (proj2 (Z.eqb_neq _ _) Hne). by rewrite andb_false_r.
Qed.
#[local] Hint Rewrite quiet_list quiet_open quiet_hello : still.

(** ** No connection has the channel *)

(** The channel a connection would close. *)
Definition held_channel (c : SocketcandConnection) : option Z := if co_in_use c && co_channel_valid c then Some (co_channel c) else None.

Definition without_channel (self : SocketcandBridge) : Prop := Forall (λ c, held_channel c ≠ Some channel) (ct_connections (sb_connections self)).

(** The state and the log once the channel was forgotten. *)
Definition orphaned (closes : list (list Z)) (self : SocketcandBridge) (w : list bridge_out) : Prop := without_channel self ∧ channel_closes w = closes.

Lemma without_with self i f : (∀ c, held_channel c ≠ Some channel → held_channel (f c) ≠ Some channel) → without_channel self → without_channel (with_connection i f self).
Proof. intros Hf Hs. unfold without_channel in *. cbn. apply Forall_alter; [done|]. intros c _ Hc. by apply Hf. Qed.

(** What changes a connection and not its channel. *)
Ltac same_channels := unfold without_channel in *; cbn; apply Forall_alter; [assumption|intros ? _ Hc; exact Hc].

Lemma without_removed self id : without_channel self → without_channel (self <| sb_connections := ConnectionTable_Remove (sb_connections self) id |>).
Proof.
  intros Hs. unfold ConnectionTable_Remove. destruct (ConnectionTable_Find _ _) as [i|]; [|done]. by apply (without_with self i (λ c, c <| co_in_use := false |>)).
Qed.

Section Kept.
Context (closes : list (list Z)).
Notation orphaned := (orphaned closes).

Lemma orphan_closing self i detail w : orphaned self w → let st := closeConnection log_server self i detail w in orphaned st.1 st.2.
Proof. intros [Hs Hw]. unfold closeConnection. split; cbn [fst snd]; [by apply without_removed|by autorewrite with still]. Qed.

Lemma orphan_send_configure self i w : orphaned self w → let '(_, self', w') := sendConfigure log_bridge_hub log_server self i w in orphaned self' w'.
Proof.
  intros [Hs Hw]. unfold sendConfigure. pose proof (without_with self i unqueue (λ c H, H) Hs) as Hs'. unfold sendError.
  destruct (InterfaceName_Split _ _ _) as [[] [agent name]]; [|split; [done|by autorewrite with still]].
  set (m := {| cf_agent_name := agent |}). pose proof (configure_first m) as Hfirst. destruct (ConfigureMessage_Encode m control_buffer) as [size bs]. cbn [fst snd] in Hfirst.
  destruct (Nat.eqb_spec size 0) as [|Hn]; (split; [done|]); [by autorewrite with still|]. rewrite (still_first _ _ close_of_type); [done|done|]. by rewrite (Hfirst Hn).
Qed.

Lemma orphan_next self w : orphaned self w → let st := sendNextConfigure log_bridge_hub log_server self w in orphaned st.1 st.2.
Proof.
  intros Ho. unfold sendNextConfigure. destruct (_ || _); [done|]. generalize 33%nat. intros fuel. revert self w Ho. induction fuel as [|fuel IH]; intros self w Ho; [done|]. cbn [configure_loop].
  destruct (ConnectionTable_OldestQueuedConfigure _) as [i|]; [|done]. pose proof (orphan_send_configure self i w Ho) as H. destruct (sendConfigure _ _ self i w) as [[[] self'] w']; [done|by apply IH].
Qed.

Lemma orphan_queue self i command w : orphaned self w → let st := queueConfigure log_bridge_hub log_server self i command w in orphaned st.1 st.2.
Proof.
  intros [Hs Hw]. unfold queueConfigure, sendError. destruct (bool_decide _); [split; [done|by cbn [snd]; autorewrite with still]|]. destruct (_ =? 0); [split; [done|by cbn [snd]; autorewrite with still]|].
  apply orphan_next. split; [|done]. same_channels.
Qed.

Lemma orphan_command self i command w : orphaned self w →
  let '(open, self', w') := dispatchCommand log_bridge_hub log_server self i command w in orphaned self' w'.
Proof.
  intros Ho. pose proof Ho as [Hs Hw]. unfold dispatchCommand. destruct (sc_kind command); try (split; [done|by autorewrite with still]);
    try (pose proof (orphan_queue self i command w Ho); by destruct (queueConfigure _ _ self i command w)); try (split; [same_channels|by autorewrite with still]).
  unfold openBus. destruct (bool_decide (co_open_state _ ≠ _)); [pose proof (orphan_closing self i (lit "bus already open") w Ho); by destruct (closeConnection log_server self i _ w)|].
  destruct (if bool_decide _ then _ else _) as [iface|]; [|pose proof (orphan_closing self i (lit "could not open bus") w Ho); by destruct (closeConnection log_server self i _ w)].
  split; [same_channels|by autorewrite with still].
Qed.

Lemma orphan_bytes self id data w : orphaned self w → let st := serverOnClientBytes log_bridge_hub log_server self id data w in orphaned st.1 st.2.
Proof.
  intros Ho. unfold serverOnClientBytes. destruct (ConnectionTable_Find _ _) as [i|]; [|done].
  destruct (bytes_loop_ind log_bridge_hub log_server orphaned orphaned i (S (2 * length data)) self data w) as [H|H]; try done.
  - intros s v F [Hs Hv]. split; [same_channels|done].
  - intros s v command Hs. pose proof (orphan_command s i command v Hs) as H. by destruct (dispatchCommand _ _ s i command v) as [[[] ?] ?].
Qed.

Lemma orphan_listing self w : orphaned self w → let st := startListing log_bridge_hub self w in orphaned st.1 st.2.
Proof. intros [Hs Hw]. split; [done|]. cbn [startListing snd]. by autorewrite with still. Qed.

Lemma orphan_tick self now w : orphaned self w → let st := SocketcandBridge_Tick log_bridge_hub log_server self now w in orphaned st.1 st.2.
Proof.
  intros Ho. unfold SocketcandBridge_Tick. destruct (bool_decide (_ = _)); [destruct (_ >=? _); [by destruct Ho as [Hs Hw]; split|done]|]. destruct (bool_decide _); [done|].
  destruct (negb (sb_listing_active self) && _); [pose proof (orphan_listing self w Ho) as Hl; destruct (startListing log_bridge_hub self w) as [s v]; cbn [fst snd] in Hl|rename Ho into Hl];
    (destruct (sb_beacon_enabled _ && _); [|exact Hl]; destruct Hl as [Hs Hw]; split; [exact Hs|]; cbn [snd]; by autorewrite with still).
Qed.

Lemma orphan_connected self w : orphaned self w → let st := transportOnConnected log_bridge_hub log_server self w in orphaned st.1 st.2.
Proof. intros [Hs Hw]. unfold transportOnConnected. destruct (bool_decide _); [done|]. cbn [startListing]. apply orphan_next. split; [done|by autorewrite with still]. Qed.

Lemma orphan_lost self now w : orphaned self w → let st := transportOnDisconnected log_server self now w in orphaned st.1 st.2.
Proof.
  intros [Hs Hw]. unfold transportOnDisconnected, closeAllConnections. destruct (bool_decide _); [done|]. split; cbn [fst snd].
  - unfold without_channel. cbn [sb_connections set_field]. by apply Forall_replicate.
  - rewrite <- Hw. generalize (ct_connections (sb_connections self)). intros l. clear Hs Hw. unfold close_each. revert w. induction l as [|c l IH]; intros w; [done|]. cbn [foldl]. rewrite IH.
    destruct (co_in_use c); [apply still_closed|done].
Qed.

Lemma orphan_list_reply self body now w : orphaned self w → let st := handleListReply log_bridge_hub self body now w in orphaned st.1 st.2.
Proof.
  intros [Hs Hw]. unfold handleListReply. destruct (ListReplyMessage_Decode _ _) as [[] reply]; [|done]. cbn [negb]. destruct (_ && _); [|done]. split; [done|]. cbn [snd]. by autorewrite with still.
Qed.

Lemma orphan_open_ack self ack w : open_ack_channel ack ≠ channel → orphaned self w → let st := handleOpenAck log_bridge_hub log_server self ack w in orphaned st.1 st.2.
Proof.
  intros Hne Ho. pose proof Ho as [Hs Hw]. unfold handleOpenAck. destruct (ConnectionTable_FindPendingOpen _ _) as [i|]; [|done]. destruct (_ =? _).
  { split; [|by cbn [snd]; autorewrite with still]. apply (without_with self i); [|done]. intros c _. unfold held_channel. cbn. destruct (co_in_use c); [by intros [= Hc]|done]. }
  destruct (_ && _); [|by apply orphan_closing]. destruct (ConnectionTable_NextOpenSeq _) as [seq c] eqn:Hseq. injection Hseq as <- <-.
  split; [same_channels|]. cbn [snd]. by autorewrite with still.
Qed.

Lemma orphan_configure_reply self reply w : orphaned self w → let st := handleConfigureReply log_bridge_hub log_server self reply w in orphaned st.1 st.2.
Proof.
  intros [Hs Hw]. unfold handleConfigureReply. destruct (negb _); [done|]. apply orphan_next. split; [done|]. destruct (ConnectionTable_Find _ _); [by autorewrite with still|done].
Qed.

(** An OPEN_ACK that gives the channel to a connection. *)
Definition grants (data : list Z) : Prop := ∃ h ack, MessageHeader_Decode data = Some h ∧ header_type h = kMESSAGE_TYPE_OPEN_ACK ∧
  OpenAckMessage_Decode {| open_ack_status := 0; open_ack_channel := 0; open_ack_interface_id := 0 |} (slice MESSAGE_HEADER_SIZE (Z.to_nat (header_length h)) data) = (true, ack) ∧ open_ack_channel ack = channel.

Lemma orphan_control self data now w : ¬ grants data → orphaned self w → let st := transportOnControl log_bridge_hub log_server self data now w in orphaned st.1 st.2.
Proof.
  intros Hn Ho. unfold transportOnControl. destruct (MessageHeader_Decode data) as [h|] eqn:Hh; [|done]. destruct (Nat.ltb _ _); [done|].
  destruct (_ =? kMESSAGE_TYPE_LIST_REPLY); [by apply orphan_list_reply|]. destruct (Z.eqb_spec (header_type h) kMESSAGE_TYPE_OPEN_ACK) as [Ht|_].
  { destruct (OpenAckMessage_Decode _ _) as [[] ack] eqn:Hd; [|done]. apply orphan_open_ack; [|done]. intros Hc. apply Hn. by exists h, ack. }
  destruct (_ =? _); [|done]. destruct (ConfigureReplyMessage_Decode _ _) as [[] reply]; [by apply orphan_configure_reply|done].
Qed.

(** The hub does not give the channel away again. *)
Definition keeps_channel (e : bridge_event) : Prop := match e with BvControl data _ => ¬ grants data | BvAnswer status c => ∀ m, ¬ grants (ack_for m status c) | _ => True end.

Lemma orphan_move e st : keeps_channel e → orphaned st.1.1 st.1.2 → orphaned (bridge_move e st).1 (bridge_move e st).2.
Proof.
  destruct st as [[self w] Q]. cbn [fst snd]. intros He Ho. destruct e; cbn [bridge_move keeps_channel] in *.
  - by apply orphan_tick.
  - by apply orphan_connected.
  - by apply orphan_lost.
  - by apply orphan_control.
  - destruct Q as [|[j m] Q]; [done|]. by apply orphan_control.
  - destruct Ho as [Hs Hw]. split; [done|]. cbn [snd]. by autorewrite with still.
  - destruct Ho as [Hs Hw]. unfold serverOnClientConnected, ConnectionTable_Add. destruct (scan _ _) as [i|]; (split; [|cbn [snd]; by autorewrite with still]); [|done].
    unfold without_channel. cbn. by apply Forall_insert.
  - by apply orphan_bytes.
  - destruct Ho as [Hs Hw]. unfold serverOnClientDisconnected. destruct (ConnectionTable_Find _ _) as [i|] eqn:Hi; [|done]. split; [by apply without_removed|]. cbn [snd].
    destruct (_ && _) eqn:Hv; [|done]. apply andb_prop in Hv as [Hv _]. rewrite quiet_close; [done|]. apply scan_hit in Hi as (c & Hc & Hu).
    unfold without_channel in Hs. rewrite Forall_lookup in Hs. specialize (Hs i c Hc). assert (connection_at self i = c) as Hat by (unfold connection_at; by rewrite list_lookup_total_alt, Hc).
    rewrite Hat in *. unfold held_channel in Hs. apply andb_prop in Hu as [Hu _]. rewrite Hu, Hv in Hs. cbn in Hs. congruence.
Qed.

Lemma orphan_run evs st : Forall keeps_channel evs → orphaned st.1.1 st.1.2 → orphaned (bridge_run evs st).1.1 (bridge_run evs st).1.2.
Proof.
  intros He. revert st. induction He as [|e evs He _ IH]; intros st Ho; [done|]. unfold bridge_run. cbn [foldl]. apply IH. pose proof (orphan_move e st He Ho) as H. unfold bridge_step. destruct st as [[self w] Q]. by destruct (bridge_move e _).
Qed.
End Kept.
End Orphan.

(** ** The claim *)

(** A connection that may use a channel, and the only one that does. *)
Record holds_channel (self : SocketcandBridge) (i : nat) (id channel : Z) : Prop := {
  hc_points : points_to self i id;
  hc_state : co_open_state (connection_at self i) = kSOCKETCAND_OPEN_DONE;
  hc_channel : held_channel (connection_at self i) = Some channel;
  hc_only : ∀ j c, ct_connections (sb_connections self) !! j = Some c → held_channel c = Some channel → j = i;
}.

Lemma closed_without self i id channel detail w : holds_channel self i id channel → without_channel channel (closeConnection log_server self i detail w).1.
Proof.
  intros [Hp _ _ Ho]. destruct (points_room _ _ _ Hp) as [_ Hk]. injection Hk as _ Hid. unfold closeConnection. rewrite Hid. cbn [fst]. unfold ConnectionTable_Remove. rewrite (points_find _ _ _ Hp).
  unfold without_channel. cbn. apply Forall_lookup. intros j c Hj. destruct (decide (j = i)) as [->|Hne].
  - rewrite list_lookup_alter_eq in Hj. by apply fmap_Some in Hj as (c0 & _ & ->).
  - rewrite list_lookup_alter_ne in Hj by done. intros Hc. apply Hne. by apply (Ho j c).
Qed.

(** C39. A client that opens a bus once more leaves its channel open at the hub.
    In any state of the bridge, let a connection that may use a channel send
    another [open], of whatever bus.  The bridge turns the client away and
    forgets the channel: all it sends is the error and the end of the connection,
    where a client that leaves of its own has its channel closed.  Nothing that
    comes after makes the bridge send a CLOSE for that channel: not this client's
    end, no other client, no loss of the hub; the one exception is a hub that
    gives the channel out again. *)
Theorem second_open_leaks_channels (self : SocketcandBridge) (i : nat) (id channel : Z) (command : SocketcandCommand) (w : list bridge_out) :
  holds_channel self i id channel → sb_hub_state self = kSOCKETCAND_HUB_READY → sc_kind command = kSOCKETCAND_COMMAND_OPEN →
  (serverOnClientDisconnected log_bridge_hub self id w).2 = sendClose log_bridge_hub channel w ∧
  ∃ self', dispatchCommand log_bridge_hub log_server self i command w = (false, self', w ++ [BoLine id (lit "< error bus already open >"); BoClose id]) ∧
  ConnectionTable_Find (sb_connections self') id = None ∧
  ∀ evs Q, Forall (keeps_channel channel) evs →
    picks (close_of channel) (bridge_run evs (self', w ++ [BoLine id (lit "< error bus already open >"); BoClose id], Q)).1.2 = picks (close_of channel) w.
Proof.
  intros Hh Hr Hk. pose proof Hh as [Hp Hs Hc Ho]. destruct (points_room _ _ _ Hp) as [Hi Hkey]. injection Hkey as Hu Hid. split.
  { unfold serverOnClientDisconnected. rewrite (points_find _ _ _ Hp), Hr. unfold held_channel in Hc. destruct (co_in_use _ && co_channel_valid _) eqn:Hv; [|done]. apply andb_prop in Hv as [_ Hv]. injection Hc as Hc.
    by rewrite Hv, Hc. }
  exists (closeConnection log_server self i (lit "bus already open") w).1. split_and!.
  - unfold dispatchCommand. rewrite Hk. unfold openBus. rewrite Hs, bool_decide_eq_true_2 by done. unfold closeConnection. rewrite Hid. cbn [fst].
    change (sendAscii log_server id (SocketcandCodec_RenderError ASCII_BUFFER_SIZE (lit "bus already open")) w) with (w ++ [BoLine id (lit "< error bus already open >")]).
    cbn [log_server sp_close_client]. by rewrite <- app_assoc.
  - pose proof (keys_close log_server self i id (lit "bus already open") w Hp) as Hkeys. pose proof (closed_gone self i id _ Hp Hkeys) as Hgone. unfold ConnectionTable_Find.
    rewrite <- Hgone. symmetry. apply scan_fmap.
  - intros evs Q He. apply (orphan_run channel (picks (close_of channel) w) evs (_, _, Q) He). cbn [fst snd]. split; [by apply (closed_without self i id)|].
    unfold picks. rewrite omap_app. apply app_nil_r.
Qed.

Definition open_command : list Z := lit "<open rig/can0>".

Module LeakDemo.
(** A client that has opened its bus, and one that comes, opens it and leaves. *)
Definition command : SocketcandCommand := default (of_kind kSOCKETCAND_COMMAND_UNKNOWN) (SocketcandCodec_Parse (lit "open rig/can0")).
Definition opened : bridge_joint := bridge_run (AcksDemo.ready ++ [BvClient 7; BvBytes 7 open_command; BvAnswer OPEN_STATUS_OK 3]) AcksDemo.start.
Definition later : list bridge_event := [BvGone 7; BvClient 8; BvBytes 8 open_command; BvGone 8; BvTick 6000000; BvLost 7000000].
End LeakDemo.

Lemma second_open_leaks_channels_witness :
  picks (close_of 3) (bridge_run [BvGone 7] LeakDemo.opened).1.2 ≠ [] ∧
  let st := dispatchCommand log_bridge_hub log_server LeakDemo.opened.1.1 0 LeakDemo.command LeakDemo.opened.1.2 in
  drop (length LeakDemo.opened.1.2) st.2 = [BoLine 7 (lit "< error bus already open >"); BoClose 7] ∧
  picks (close_of 3) (bridge_run LeakDemo.later (st.1.2, st.2, [])).1.2 = [].
Proof.
  split; [vm_compute; discriminate|]. intros st.
  assert (conn_keys LeakDemo.opened.1.1 = (true, 7) :: replicate 31 (false, 0)) as Hk by (vm_compute; reflexivity).
  assert (omap held_channel (tail (ct_connections (sb_connections LeakDemo.opened.1.1))) = []) as Ho by (vm_compute; reflexivity).
  assert (holds_channel LeakDemo.opened.1.1 0 7 3) as Hh.
  { split; [|vm_compute; reflexivity..|].
    - split; rewrite Hk; [done|]. intros [|j] Hj; [done|]. by apply (lookup_replicate_1 31) in Hj as [? _].
    - intros [|j] c Hc Hheld; [done|]. exfalso. destruct (ct_connections _) as [|c0 l]; [done|]. cbn in Ho, Hc. apply list_elem_of_lookup_2 in Hc.
      assert (3 ∈ omap held_channel l) as Hin by (apply list_elem_of_omap; eauto). rewrite Ho in Hin. by apply not_elem_of_nil in Hin. }
  destruct (second_open_leaks_channels _ 0 7 3 LeakDemo.command LeakDemo.opened.1.2 Hh ltac:(vm_compute; reflexivity) ltac:(vm_compute; reflexivity)) as [_ (self' & Hs & _ & Hrun)].
  assert (Forall (keeps_channel 3) LeakDemo.later) as He by (repeat constructor).
  subst st. rewrite Hs. cbn [fst snd]. split; [apply drop_app_length|]. rewrite (Hrun LeakDemo.later [] He). vm_compute. reflexivity.
Defined.

(** * Runs with unexpected ends

    Runs of the bridge, evaluated, whose outcome the rest of the program or its
    users would not expect. *)

(** ** Visits that use up the session *)

(** The bridge and the hub's session for it. *)
Definition bridge_and_session : Type := bridge_joint * ClientSession.

Definition open_granted : ChannelOpenRequest := {|
  rq_interface_id := 9; rq_suppress_echo := true; rq_can_write := true; rq_reliable := false; rq_error_frames := false;
  rq_agent_name := padded 128 (lit "rig"); rq_interface_name := padded 16 (lit "can0") |}.

(** A client that opens the bus, opens it once more when it may use it, and is gone. *)
Definition visit (st : bridge_and_session) (id : Z) : bridge_and_session :=
  let bridge := bridge_run [BvClient id; BvBytes id open_command] st.1 in
  match ClientSession_OpenInterface st.2 open_granted with
  | (Some channel, session) => (bridge_run [BvAnswer OPEN_STATUS_OK channel; BvBytes id open_command; BvGone id] bridge, session)
  | (None, session) => (bridge_run [BvAnswer OPEN_STATUS_REJECTED 0; BvGone id] bridge, session)
  end.

Definition visits (n : nat) : bridge_and_session := foldl visit (bridge_run AcksDemo.ready AcksDemo.start, ClientSession_Reset) (Z.of_nat <$> seq 1 n).

Definition is_close (o : bridge_out) : bool := match o with BoControl data => data !!! 0%nat =? kMESSAGE_TYPE_CLOSE | _ => false end.

(** After 32 such visits the bridge has no client and has sent no CLOSE, the
    hub's session for it has no binding left, and the next client that wants a
    bus, whichever, is turned away. *)
Example channels_run_out :
  let full := visits 32 in
  forallb (λ c, negb (co_in_use c)) (ct_connections (sb_connections full.1.1.1)) = true ∧
  forallb (λ o, negb (is_close o)) full.1.1.2 = true ∧
  (∀ request, (ClientSession_OpenInterface full.2 request).1 = None) ∧
  drop (length full.1.1.2) (visits 33).1.1.2 =
    [BoLine 33 (lit "< hi >"); BoControl (take 12 (OpenMessage_Encode {| open_interface_id := 9; open_flags := OPEN_FLAGS_READ_WRITE |} (replicate 12 0)).2);
     BoLine 33 (lit "< error open rejected >"); BoClose 33].
Proof.
  intros full. split_and!; [vm_compute; reflexivity..| |vm_compute; reflexivity].
  intros request. assert (findFree full.2 = None) as Hf by (vm_compute; reflexivity). unfold ClientSession_OpenInterface. by rewrite Hf.
Qed.

(** ** An answer for a client that left *)

(** A client asks to read and write, is told to read only, asks again as a reader
    and leaves; the next one asks for the same bus to write.  The answer to the
    reader's OPEN is taken by the writer, which believes it may write. *)
Theorem abandoned_open_misleads :
  let st := bridge_run (AcksDemo.ready ++ [BvClient 7; BvBytes 7 open_command; BvAnswer OPEN_STATUS_WRITE_DENIED 0; BvGone 7; BvClient 8; BvBytes 8 open_command]) AcksDemo.start in
  ∃ j m Q', st.2 = (j, m) :: Q' ∧ has_flag (open_flags m) OPEN_FLAG_WANT_WRITE = false ∧
  let c := connection_at (bridge_run [BvAnswer OPEN_STATUS_OK 3] st).1.1 0 in
  co_in_use c = true ∧ co_connection_id c = 8 ∧ co_channel c = 3 ∧ co_can_write c = true.
Proof.
  intros st. exists 0%nat, {| open_interface_id := 9; open_flags := OPEN_FLAGS_READ_ONLY |}, [(0%nat, {| open_interface_id := 9; open_flags := OPEN_FLAGS_READ_WRITE |})].
  split; [vm_compute; reflexivity|]. split; [vm_compute; reflexivity|]. intros c. split_and!; vm_compute; reflexivity.
Qed.

(** ** A bus that is gone for a moment *)

(** The list is emptied when a refresh begins, so a client that opens its bus
    before the reply is turned away, and one that does so after it is not. *)
Theorem refresh_hides_buses :
  let refreshing := bridge_run (AcksDemo.ready ++ [BvClient 7; BvTick 6000000]) AcksDemo.start in
  let refused := (bridge_run [BvBytes 7 open_command] refreshing).1.2 in
  let accepted := bridge_run [BvControl AcksDemo.page 6000001; BvBytes 7 open_command] refreshing in
  drop (length refreshing.1.2) refused = [BoLine 7 (lit "< error could not open bus >"); BoClose 7] ∧
  accepted.2 = [(0%nat, {| open_interface_id := 9; open_flags := OPEN_FLAGS_READ_WRITE |})].
Proof. split; vm_compute; reflexivity. Qed.

(** ** What the text does not say *)

(** Two frames that differ in the kind of their identifier have the same line,
    though a [send] command tells the two apart by the number of digits. *)
Theorem frame_line_ambiguous (f g : FrameMessage) (size : nat) : Z.land (frame_can_id f) FRAME_CAN_ID_MASK = Z.land (frame_can_id g) FRAME_CAN_ID_MASK →
  frame_timestamp_us f = frame_timestamp_us g → frame_payload_length f = frame_payload_length g → frame_payload f = frame_payload g →
  SocketcandCodec_RenderFrame size f = SocketcandCodec_RenderFrame size g.
Proof. intros H1 H2 H3 H4. unfold SocketcandCodec_RenderFrame. by rewrite H1, H2, H3, H4. Qed.

(** The decimal parser keeps 32 bits: a length beyond them is read modulo 2^32. *)
Theorem send_length_wraps :
  SocketcandCodec_Parse (lit "send 123 4294967298 AB 01") = SocketcandCodec_Parse (lit "send 123 2 AB 01") ∧ SocketcandCodec_Parse (lit "send 123 2 AB 01") ≠ None.
Proof. split; [vm_compute; reflexivity|vm_compute; discriminate]. Qed.

(** ** Frames that travel together *)

(** C38. Of several FRAMEs in one datagram the bridge passes on the first.  A
    datagram may carry several FRAMEs back to back, which the readers of the
    other programs walk; what follows the first FRAME makes no difference to what
    the bridge does, in any state and whoever the frames are for. *)
Theorem packed_frames_lost {W} (server : SocketcandServerPort W) (self : SocketcandBridge) (f : FrameMessage) (bs rest : list Z) (w : W) :
  wm_packet f bs → transportOnFrame server self (bs ++ rest) w = transportOnFrame server self bs w.
Proof.
  intros Hp. destruct (wm_packet_spec f bs Hp) as (Hl & Hh & _). unfold transportOnFrame, deliverFrame. rewrite MessageHeader_Decode_app by lia. rewrite Hh. cbn [header_type header_length]. rewrite Nat2Z.id.
  rewrite !(proj2 (Nat.ltb_ge _ _)) by (rewrite ?length_app; lia). rewrite slice_app_l by lia. done.
Qed.

Module PackedDemo.
Definition frame (byte : Z) : FrameMessage := {|
  frame_can_id := 291; frame_timestamp_us := 0; frame_channel := 3; frame_payload_length := 1; frame_flags := 0; frame_route_flags := 0; frame_payload := byte :: replicate 63 0 |}.
Definition packet (byte : Z) : list Z := take (FrameMessage_Encode (frame byte) (replicate 96 0)).1 (FrameMessage_Encode (frame byte) (replicate 96 0)).2.
Definition raw : SocketcandBridge :=
  (bridge_run (AcksDemo.ready ++ [BvClient 7; BvBytes 7 open_command; BvAnswer OPEN_STATUS_OK 3; BvBytes 7 (lit "<rawmode>")]) AcksDemo.start).1.1.
End PackedDemo.

(** Two frames for a client that listens: the stream has both, the client gets the first. *)
Lemma packed_frames_lost_witness :
  (take 1 ∘ frame_payload) <$> frames_of 3 (FrameStream_Init (PackedDemo.packet 1 ++ PackedDemo.packet 2)) frame_zero = [[1]; [2]] ∧
  transportOnFrame log_server PackedDemo.raw (PackedDemo.packet 1 ++ PackedDemo.packet 2) [] = [BoLine 7 (lit "< frame 123 0.000000 01 >")].
Proof.
  split; [vm_compute; reflexivity|]. rewrite (packed_frames_lost log_server PackedDemo.raw (PackedDemo.frame 1)); [vm_compute; reflexivity|].
  exists (replicate 96 0). split; [|split; [vm_compute; lia|reflexivity]]. split; try (vm_compute; intuition congruence).
Defined.
