(* ===== verification/Checksum.v ===== *)
(** * The checks of a transaction script (src/client/txn_script/checksum.c)

    A sum of bytes truncated to its width, or a CRC described by width,
    polynomial, initial value, reflections and final xor.  The second part says
    what a CRC is, in polynomials over the field of two elements, and shows that
    the code computes it. *)

From S2P Require Import Prelude Wire.

Notation CHECKSUM_WIDTH_MIN := 8 (only parsing).
Notation CHECKSUM_WIDTH_MAX := 32 (only parsing).
Notation BITS_PER_BYTE := 8 (only parsing).

Inductive TCHECKSUM_KIND := kCHECKSUM_KIND_SUM | kCHECKSUM_KIND_CRC | kCHECKSUM_KIND_MAX.
#[export] Instance TCHECKSUM_KIND_eq_dec : EqDecision TCHECKSUM_KIND.
Proof. solve_decision. Defined.

Record ChecksumModel := {
  cm_kind : TCHECKSUM_KIND; cm_width : Z; cm_polynomial : Z; cm_initial : Z; cm_reflect_input : bool; cm_reflect_output : bool; cm_final_xor : Z }.
Record Checksum := { ck_model : ChecksumModel; ck_value : Z }.

Definition sum_model (width : Z) : ChecksumModel := {|
  cm_kind := kCHECKSUM_KIND_SUM; cm_width := width; cm_polynomial := 0; cm_initial := 0; cm_reflect_input := false; cm_reflect_output := false; cm_final_xor := 0 |}.
Definition CHECKSUM_SUM8 : ChecksumModel := sum_model 8.
Definition CHECKSUM_SUM16 : ChecksumModel := sum_model 16.
Definition CHECKSUM_SUM32 : ChecksumModel := sum_model 32.
(** 0x1021 and 0xFFFF. *)
Definition CHECKSUM_CRC16 : ChecksumModel := {|
  cm_kind := kCHECKSUM_KIND_CRC; cm_width := 16; cm_polynomial := 4129; cm_initial := 65535; cm_reflect_input := false; cm_reflect_output := false; cm_final_xor := 0 |}.
(** 0x04C11DB7 and 0xFFFFFFFF. *)
Definition CHECKSUM_CRC32 : ChecksumModel := {|
  cm_kind := kCHECKSUM_KIND_CRC; cm_width := 32; cm_polynomial := 79764919; cm_initial := 4294967295; cm_reflect_input := true; cm_reflect_output := true; cm_final_xor := 4294967295 |}.

Definition ChecksumModel_IsValid (model : ChecksumModel) : bool :=
  if bool_decide (cm_kind model = kCHECKSUM_KIND_MAX) then false else (cm_width model >=? CHECKSUM_WIDTH_MIN) && (cm_width model <=? CHECKSUM_WIDTH_MAX).

Definition widthMask (width : Z) : Z := if width >=? CHECKSUM_WIDTH_MAX then 4294967295 else u32 (Z.shiftl 1 width) - 1.

(** [for(i=0; i<width; i++)] *)
Fixpoint reflect_loop (n : nat) (i width value reflected : Z) : Z :=
  match n with
  | O => reflected
  | S n' =>
      reflect_loop n' (i + 1) width value
        (if negb (Z.land value (u32 (Z.shiftl 1 i)) =? 0) then Z.lor reflected (u32 (Z.shiftl 1 (width - 1 - i))) else reflected)
  end.
Definition reflect (value width : Z) : Z := reflect_loop (Z.to_nat width) 0 width value 0.

(** One bit: [for(i=0; i<BITS_PER_BYTE; i++)] runs it eight times. *)
Definition crc_bit (model : ChecksumModel) (value : Z) : Z :=
  let top_bit := u32 (Z.shiftl 1 (cm_width model - 1)) in
  if negb (Z.land value top_bit =? 0) then Z.lxor (u32 (Z.shiftl value 1)) (cm_polynomial model) else u32 (Z.shiftl value 1).

Definition crcByte (model : ChecksumModel) (value byte : Z) : Z :=
  let input := if cm_reflect_input model then u8 (reflect byte BITS_PER_BYTE) else byte in
  let value := Z.lxor value (u32 (Z.shiftl input (cm_width model - BITS_PER_BYTE))) in
  Z.land (Nat.iter 8 (crc_bit model) value) (widthMask (cm_width model)).

Definition Checksum_Start (model : ChecksumModel) : Checksum := {|
  ck_model := model; ck_value := if bool_decide (cm_kind model = kCHECKSUM_KIND_CRC) then Z.land (cm_initial model) (widthMask (cm_width model)) else 0 |}.

Definition update_byte (model : ChecksumModel) (value byte : Z) : Z :=
  if bool_decide (cm_kind model = kCHECKSUM_KIND_SUM) then Z.land (u32 (value + byte)) (widthMask (cm_width model)) else crcByte model value byte.

Definition Checksum_Update (self : Checksum) (data : list Z) : Checksum := {|
  ck_model := ck_model self; ck_value := foldl (update_byte (ck_model self)) (ck_value self) data |}.

Definition Checksum_Finish (self : Checksum) : Z :=
  let model := ck_model self in
  if bool_decide (cm_kind model = kCHECKSUM_KIND_SUM) then ck_value self
  else
    let value := if cm_reflect_output model then reflect (ck_value self) (cm_width model) else ck_value self in
    Z.land (Z.lxor value (cm_final_xor model)) (widthMask (cm_width model)).

(** ** What a CRC is *)

(** Polynomials over the field of two elements: [Z.lxor] adds, a shift multiplies
    by a power of x.  A product by the coefficients of a quotient, lowest first. *)
Fixpoint poly_mul (q : list bool) (g : Z) : Z := match q with [] => 0 | b :: q' => Z.lxor (if b then g else 0) (Z.shiftl (poly_mul q' g) 1) end.

(** [r] is the remainder of [a] by a polynomial of degree [w]. *)
Definition poly_remainder (w g a r : Z) : Prop := 0 ≤ r < 2 ^ w ∧ ∃ q, a = Z.lxor r (poly_mul q g).

(** x^w and the terms below it. *)
Definition generator (model : ChecksumModel) : Z := 2 ^ cm_width model + cm_polynomial model mod 2 ^ cm_width model.

(** The low [n] bits of a number, in reverse. *)
Definition bits (n : nat) (v : Z) : list bool := (λ i, Z.testbit v (Z.of_nat i)) <$> seq 0 n.
Definition of_bits (l : list bool) : Z := foldr (λ (b : bool) v, (if b then 1 else 0) + 2 * v) 0 l.
Definition reversed (n : nat) (v : Z) : Z := of_bits (reverse (bits n v)).

(** The message as a polynomial, first byte first, its bytes reversed where the model reflects them. *)
Definition message_byte (model : ChecksumModel) (b : Z) : Z := if cm_reflect_input model then reversed 8 b else b.
Definition message_poly (model : ChecksumModel) (data : list Z) : Z := foldl (λ m b, Z.lxor (Z.shiftl m 8) (message_byte model b)) 0 data.

(** What is divided: the message times x^w, and the initial value in front of it. *)
Definition dividend (model : ChecksumModel) (data : list Z) : Z :=
  Z.lxor (Z.shiftl (cm_initial model mod 2 ^ cm_width model) (8 * zlen data)) (Z.shiftl (message_poly model data) (cm_width model)).

(** ** Products and remainders *)

Lemma poly_mul_shift q g : poly_mul (false :: q) g = Z.shiftl (poly_mul q g) 1.
Proof. cbn. apply Z.lxor_0_l. Qed.

Fixpoint poly_add (p q : list bool) : list bool := match p, q with [], q => q | p, [] => p | a :: p', b :: q' => xorb a b :: poly_add p' q' end.

Lemma poly_mul_add p q g : poly_mul (poly_add p q) g = Z.lxor (poly_mul p g) (poly_mul q g).
Proof.
  revert q. induction p as [|a p IH]; intros q; [by cbn; rewrite Z.lxor_0_l|]. destruct q as [|b q]; [by cbn [poly_add]; rewrite Z.lxor_0_r|].
  cbn [poly_add poly_mul]. rewrite IH, Z.shiftl_lxor. apply Z.bits_inj'. intros k Hk. rewrite !Z.lxor_spec. destruct a, b; rewrite ?Z.bits_0; cbn [xorb]; try rewrite Z.bits_0;
    destruct (Z.testbit g k), (Z.testbit (Z.shiftl (poly_mul p g) 1) k), (Z.testbit (Z.shiftl (poly_mul q g) 1) k); done.
Qed.

(** Equal up to a multiple. *)
Definition congruent (g a b : Z) : Prop := ∃ q, a = Z.lxor b (poly_mul q g).

Lemma congruent_refl g a : congruent g a a.
Proof. exists []. by rewrite Z.lxor_0_r. Qed.
Lemma congruent_trans g a b c : congruent g a b → congruent g b c → congruent g a c.
Proof. intros [p ->] [q ->]. exists (poly_add q p). by rewrite poly_mul_add, Z.lxor_assoc. Qed.
Lemma congruent_shift g a b : congruent g a b → congruent g (Z.shiftl a 1) (Z.shiftl b 1).
Proof. intros [q ->]. exists (false :: q). by rewrite poly_mul_shift, Z.shiftl_lxor. Qed.
Lemma congruent_add g a b c : congruent g a b → congruent g (Z.lxor a c) (Z.lxor b c).
Proof. intros [q ->]. exists q. rewrite !Z.lxor_assoc. f_equal. apply Z.lxor_comm. Qed.

Lemma congruent_shifts g a b n : congruent g a b → congruent g (Z.shiftl a (Z.of_nat n)) (Z.shiftl b (Z.of_nat n)).
Proof.
  intros H. induction n as [|n IH]; [by rewrite !Z.shiftl_0_r|]. rewrite Nat2Z.inj_succ, <- Z.add_1_r, <- !Z.shiftl_shiftl by lia. by apply congruent_shift.
Qed.

Lemma low_bits w a k : 0 ≤ a < 2 ^ w → w ≤ k → Z.testbit a k = false.
Proof.
  intros Ha Hk. assert (0 ≤ w) by (destruct (Z.lt_ge_cases w 0) as [Hn|]; [rewrite Z.pow_neg_r in Ha by done; lia|done]).
  rewrite <- (Z.mod_small a (2 ^ w)) by done. apply Z.mod_pow2_bits_high. lia.
Qed.

(** A multiple of the generator is zero or has a term of its degree or above. *)
Lemma poly_mul_high w g q : 0 ≤ w → 2 ^ w ≤ g < 2 ^ (w + 1) → poly_mul q g = 0 ∨ ∃ k, w ≤ k ∧ Z.testbit (poly_mul q g) k = true.
Proof.
  intros Hw Hg. assert (Z.testbit g w = true) as Htop.
  { rewrite Z.pow_add_r in Hg by lia. replace g with ((g - 2 ^ w) + 2 ^ w) by lia. rewrite Z.testbit_true by done. replace (g - 2 ^ w + 2 ^ w) with (g - 2 ^ w + 1 * 2 ^ w) by lia.
    rewrite Z.div_add by (apply Z.pow_nonzero; lia). rewrite Z.div_small by lia. done. }
  assert (0 ≤ g < 2 ^ (w + 1)) as Hg' by (pose proof (Z.pow_nonneg 2 w); lia).
  induction q as [|b q IH]; [by left|]. cbn [poly_mul]. destruct IH as [->|(k & Hk & Hb)].
  - rewrite Z.shiftl_0_l, Z.lxor_0_r. destruct b; [right; by exists w|by left].
  - right. exists (k + 1). split; [lia|]. rewrite Z.lxor_spec, Z.shiftl_spec by lia. replace (k + 1 - 1) with k by lia. rewrite Hb.
    destruct b; [rewrite (low_bits (w + 1) g) by (done || lia)|rewrite Z.bits_0]; done.
Qed.

Lemma lxor_range w a b : 0 ≤ a < 2 ^ w → 0 ≤ b < 2 ^ w → 0 ≤ Z.lxor a b < 2 ^ w.
Proof.
  intros Ha Hb. assert (0 ≤ w) by (destruct (Z.lt_ge_cases w 0) as [Hn|]; [rewrite Z.pow_neg_r in Ha by done; lia|done]). assert (0 ≤ Z.lxor a b) as H0 by (apply Z.lxor_nonneg; lia).
  split; [done|]. destruct (Z.eq_dec (Z.lxor a b) 0) as [->|Hn]; [lia|]. apply Z.log2_lt_pow2; [lia|]. apply Z.nle_gt. intros Hle. pose proof (Z.bit_log2 (Z.lxor a b) ltac:(lia)) as Hbit.
  rewrite Z.lxor_spec, (low_bits w a), (low_bits w b) in Hbit by done. done.
Qed.

(** There is one remainder. *)
Lemma remainder_unique w g a r r' : 0 ≤ w → 2 ^ w ≤ g < 2 ^ (w + 1) → poly_remainder w g a r → poly_remainder w g a r' → r = r'.
Proof.
  intros Hw Hg [Hr [q Hq]] [Hr' [q' Hq']]. assert (Z.lxor r r' = poly_mul (poly_add q q') g) as Hm.
  { rewrite poly_mul_add. apply Z.bits_inj'. intros k _. apply (f_equal (λ x, Z.testbit x k)) in Hq, Hq'. revert Hq Hq'. rewrite !Z.lxor_spec.
    destruct (Z.testbit a k), (Z.testbit r k), (Z.testbit r' k), (Z.testbit (poly_mul q g) k), (Z.testbit (poly_mul q' g) k); done. }
  pose proof (lxor_range w r r' Hr Hr') as Hx. destruct (poly_mul_high w g (poly_add q q') Hw Hg) as [Hz|(k & Hk & Hb)].
  - rewrite Hz in Hm. by apply Z.lxor_eq.
  - rewrite <- Hm, (low_bits w) in Hb by done. done.
Qed.

(** ** One bit, one byte *)

Lemma widthMask_ones w : 8 ≤ w ≤ 32 → widthMask w = Z.ones w.
Proof.
  intros Hw. unfold widthMask. destruct (Z.geb_spec w 32); [by replace w with 32 by lia|]. rewrite Z.ones_equiv, Z.shiftl_1_l. unfold u32. rewrite Z.mod_small; [lia|].
  split; [apply Z.pow_nonneg; lia|]. change 4294967296 with (2 ^ 32). apply Z.pow_lt_mono_r; lia.
Qed.

Lemma land_width w v : 8 ≤ w ≤ 32 → Z.land v (widthMask w) = v mod 2 ^ w.
Proof. intros Hw. rewrite widthMask_ones by done. apply Z.land_ones. lia. Qed.

Lemma u32_pow2 i : 0 ≤ i < 32 → u32 (Z.shiftl 1 i) = 2 ^ i.
Proof. intros Hi. rewrite Z.shiftl_1_l. unfold u32. change 4294967296 with (2 ^ 32). apply Z.mod_small. split; [apply Z.pow_nonneg; lia|apply Z.pow_lt_mono_r; lia]. Qed.

Lemma test_bit v i : 0 ≤ i → negb (Z.land v (2 ^ i) =? 0) = Z.testbit v i.
Proof.
  intros Hi. destruct (Z.testbit v i) eqn:Hb.
  - apply negb_true_iff, Z.eqb_neq. intros Hz%(f_equal (λ x, Z.testbit x i)). rewrite Z.land_spec, Hb, Z.pow2_bits_true, Z.bits_0 in Hz by done. done.
  - apply negb_false_iff, Z.eqb_eq. apply Z.bits_inj'. intros k Hk. rewrite Z.land_spec, Z.bits_0, Z.pow2_bits_eqb by done. destruct (Z.eqb_spec i k) as [<-|]; [by rewrite Hb|apply andb_false_r].
Qed.

(** ** Reversing bits *)

Lemma reflect_loop_bits n i width value r k : 0 ≤ k → 0 ≤ i → i + Z.of_nat n ≤ width ≤ 32 →
  Z.testbit (reflect_loop n i width value r) k = Z.testbit r k || ((i <=? width - 1 - k) && (width - 1 - k <? i + Z.of_nat n) && Z.testbit value (width - 1 - k)).
Proof.
  intros Hk. revert i r. induction n as [|n IH]; intros i r Hi Hn; cbn [reflect_loop].
  { destruct (Z.leb_spec i (width - 1 - k)), (Z.ltb_spec (width - 1 - k) (i + Z.of_nat 0)); try lia; cbn [andb]; by rewrite orb_false_r. }
  rewrite IH by lia. rewrite !u32_pow2, test_bit by lia. destruct (Z.eqb_spec (width - 1 - k) i) as [He|He].
  - rewrite He. rewrite (proj2 (Z.leb_le i i)), (proj2 (Z.leb_gt (i + 1) i)), (proj2 (Z.ltb_lt i (i + Z.of_nat (S n)))) by lia. cbn [andb]. rewrite orb_false_r.
    destruct (Z.testbit value i); [|by rewrite orb_false_r]. rewrite Z.lor_spec. replace (width - 1 - i) with k by lia. by rewrite Z.pow2_bits_true.
  - assert (Z.testbit (if Z.testbit value i then Z.lor r (2 ^ (width - 1 - i)) else r) k = Z.testbit r k) as ->.
    { destruct (Z.testbit value i); [|done]. rewrite Z.lor_spec, Z.pow2_bits_false by lia. apply orb_false_r. }
    destruct (Z.leb_spec (i + 1) (width - 1 - k)), (Z.leb_spec i (width - 1 - k)), (Z.ltb_spec (width - 1 - k) (i + 1 + Z.of_nat n)), (Z.ltb_spec (width - 1 - k) (i + Z.of_nat (S n)));
      try lia; done.
Qed.

Lemma of_bits_range l : 0 ≤ of_bits l.
Proof. induction l as [|b l IH]; cbn [of_bits foldr]; [done|]. fold (of_bits l). destruct b; lia. Qed.

Lemma of_bits_spec l k : Z.testbit (of_bits l) (Z.of_nat k) = default false (l !! k).
Proof.
  revert k. induction l as [|b l IH]; intros k; [by rewrite Z.bits_0|]. cbn [of_bits foldr]. fold (of_bits l). rewrite Z.add_comm.
  destruct k as [|k]; [change (Z.of_nat 0) with 0; destruct b; [apply Z.testbit_odd_0|rewrite Z.add_0_r; apply Z.testbit_even_0]|].
  rewrite Nat2Z.inj_succ. cbn [lookup list_lookup]. rewrite <- IH. destruct b; [by rewrite Z.testbit_odd_succ by lia|by rewrite Z.add_0_r, Z.testbit_even_succ by lia].
Qed.

Lemma reflect_reversed v width : 0 ≤ width ≤ 32 → reflect v width = reversed (Z.to_nat width) v.
Proof.
  intros Hw. apply Z.bits_inj'. intros k Hk. unfold reflect. rewrite reflect_loop_bits by lia. rewrite Z.bits_0. cbn [orb].
  rewrite <- (Z2Nat.id k) at 4 by done. unfold reversed. rewrite of_bits_spec. unfold bits. destruct (Z.ltb_spec k width) as [Hlt|Hge].
  - rewrite reverse_lookup by (rewrite length_fmap, length_seq; lia). rewrite length_fmap, length_seq, list_lookup_fmap, lookup_seq_lt by lia. cbn [fmap option_fmap option_map default from_option].
    rewrite (proj2 (Z.leb_le 0 _)), (proj2 (Z.ltb_lt _ _)) by lia. cbn [andb id]. f_equal. lia.
  - rewrite lookup_ge_None_2 by (rewrite length_reverse, length_fmap, length_seq; lia). rewrite (proj2 (Z.leb_gt 0 _)) by lia. done.
Qed.

Lemma reversed_range n v : 0 ≤ reversed n v < 2 ^ Z.of_nat n.
Proof.
  unfold reversed. split; [apply of_bits_range|]. destruct (Z.eq_dec (of_bits (reverse (bits n v))) 0) as [->|Hz]; [apply Z.pow_pos_nonneg; lia|].
  pose proof (of_bits_range (reverse (bits n v))). apply Z.log2_lt_pow2; [lia|]. apply Z.nle_gt. intros Hle. pose proof (Z.bit_log2 (of_bits (reverse (bits n v))) ltac:(lia)) as Hb.
  pose proof (Z.log2_nonneg (of_bits (reverse (bits n v)))) as H0. set (k := Z.log2 _) in *. clearbody k. rewrite <- (Z2Nat.id k) in Hb by done.
  rewrite of_bits_spec, lookup_ge_None_2 in Hb; [done|]. unfold bits. rewrite length_reverse, length_fmap, length_seq. lia.
Qed.

Section Crc.
Context (model : ChecksumModel) (Hwidth : 8 ≤ cm_width model ≤ 32).
Let w := cm_width model.
Let g := generator model.

Lemma generator_range : 2 ^ w ≤ g < 2 ^ (w + 1).
Proof. unfold g, generator. fold w. pose proof (Z.mod_pos_bound (cm_polynomial model) (2 ^ w) ltac:(apply Z.pow_pos_nonneg; lia)). rewrite Z.pow_add_r by lia. lia. Qed.

Lemma generator_bits k : 0 ≤ k → Z.testbit g k = (k =? w) || ((k <? w) && Z.testbit (cm_polynomial model) k).
Proof.
  intros Hk. unfold g, generator. fold w. pose proof (Z.mod_pos_bound (cm_polynomial model) (2 ^ w) ltac:(apply Z.pow_pos_nonneg; lia)) as Hp.
  assert (2 ^ w + cm_polynomial model mod 2 ^ w = Z.lor (2 ^ w) (cm_polynomial model mod 2 ^ w)) as ->.
  { pose proof (lor_shiftl_add (cm_polynomial model mod 2 ^ w) 1 w ltac:(lia) Hp) as H. rewrite Z.shiftl_1_l in H. rewrite Z.lor_comm, H. lia. }
  rewrite Z.lor_spec, Z.pow2_bits_eqb, (Z.eqb_sym w k) by lia. destruct (Z.eqb_spec k w); [done|]. cbn [orb]. destruct (Z.ltb_spec k w); [by rewrite Z.mod_pow2_bits_low|by rewrite Z.mod_pow2_bits_high by lia].
Qed.

(** One turn of the inner loop multiplies the low bits by x. *)
Lemma crc_bit_step v : congruent g (Z.shiftl (v mod 2 ^ w) 1) (crc_bit model v mod 2 ^ w).
Proof.
  unfold crc_bit. rewrite u32_pow2, test_bit by (fold w; lia). fold w. exists [Z.testbit v (w - 1)]. apply Z.bits_inj'. intros k Hk.
  assert (Z.testbit (Z.shiftl (v mod 2 ^ w) 1) k = (1 <=? k) && (k <=? w) && Z.testbit v (k - 1)) as ->.
  { rewrite Z.shiftl_spec by done. destruct (Z.leb_spec 1 k); [|by rewrite Z.testbit_neg_r by lia]. destruct (Z.leb_spec k w); [by rewrite Z.mod_pow2_bits_low by lia|by rewrite Z.mod_pow2_bits_high by lia]. }
  assert (∀ p, k < w → Z.testbit (Z.lxor (u32 (Z.shiftl v 1)) p) k = xorb ((1 <=? k) && Z.testbit v (k - 1)) (Z.testbit p k)) as Hx.
  { intros p Hkw. rewrite Z.lxor_spec. f_equal. unfold u32. change 4294967296 with (2 ^ 32). rewrite Z.mod_pow2_bits_low, Z.shiftl_spec by lia. destruct (Z.leb_spec 1 k); [done|by rewrite Z.testbit_neg_r by lia]. }
  rewrite Z.lxor_spec. cbn [poly_mul]. rewrite Z.shiftl_0_l, Z.lxor_0_r. destruct (Z.ltb_spec k w) as [Hkw|Hkw].
  - rewrite Z.mod_pow2_bits_low by done. rewrite (proj2 (Z.leb_le k w)) by lia. destruct (Z.testbit v (w - 1)).
    + rewrite Hx by done. rewrite generator_bits by done. rewrite (proj2 (Z.eqb_neq k w)), (proj2 (Z.ltb_lt k w)) by lia. cbn [orb andb].
      destruct (1 <=? k), (Z.testbit v (k - 1)), (Z.testbit (cm_polynomial model) k); done.
    + rewrite <- (Z.lxor_0_r (u32 (Z.shiftl v 1))), Hx, !Z.bits_0 by done. destruct (1 <=? k), (Z.testbit v (k - 1)); done.
  - rewrite Z.mod_pow2_bits_high by lia. cbn [xorb]. destruct (Z.leb_spec k w) as [Hle|Hgt].
    + replace k with w by lia. rewrite (proj2 (Z.leb_le 1 w)) by lia. destruct (Z.testbit v (w - 1)); [|by rewrite Z.bits_0]. rewrite generator_bits by lia. by rewrite Z.eqb_refl.
    + rewrite andb_false_r. cbn [andb]. destruct (Z.testbit v (w - 1)); [|by rewrite Z.bits_0]. rewrite generator_bits by done. rewrite (proj2 (Z.eqb_neq k w)), (proj2 (Z.ltb_ge k w)) by lia. done.
Qed.

Lemma crc_bits_step v n : congruent g (Z.shiftl (v mod 2 ^ w) (Z.of_nat n)) (Nat.iter n (crc_bit model) v mod 2 ^ w).
Proof.
  induction n as [|n IH]; [rewrite Z.shiftl_0_r; apply congruent_refl|]. rewrite Nat2Z.inj_succ, <- Z.add_1_r, <- Z.shiftl_shiftl by lia.
  eapply congruent_trans; [by apply congruent_shift|]. cbn [Nat.iter]. apply crc_bit_step.
Qed.

Lemma crc_byte_step v b : is_u8 b → 0 ≤ v < 2 ^ w → congruent g (Z.lxor (Z.shiftl v 8) (Z.shiftl (message_byte model b) w)) (crcByte model v b).
Proof.
  intros Hb Hv. unfold crcByte. fold w. set (input := if cm_reflect_input model then _ else b). assert (input = message_byte model b ∧ 0 ≤ input < 256) as [<- Hi].
  { unfold input, message_byte. destruct (cm_reflect_input model); [|by unfold is_u8 in Hb]. rewrite reflect_reversed by lia. pose proof (reversed_range (Z.to_nat 8) b) as Hr.
    change (2 ^ Z.of_nat (Z.to_nat 8)) with 256 in Hr. rewrite u8_id by lia. done. }
  assert (0 ≤ Z.shiftl input (w - 8) < 2 ^ w) as Hs.
  { rewrite Z.shiftl_mul_pow2 by lia. replace (2 ^ w) with (256 * 2 ^ (w - 8)) by (change 256 with (2 ^ 8); rewrite <- Z.pow_add_r by lia; f_equal; lia).
    assert (0 < 2 ^ (w - 8)) by (apply Z.pow_pos_nonneg; lia). nia. }
  assert (u32 (Z.shiftl input (w - 8)) = Z.shiftl input (w - 8)) as ->.
  { unfold u32. apply Z.mod_small. assert (2 ^ w ≤ 2 ^ 32) by (apply Z.pow_le_mono_r; lia). change 4294967296 with (2 ^ 32). lia. }
  rewrite land_width by (fold w; lia). pose proof (crc_bits_step (Z.lxor v (Z.shiftl input (w - 8))) 8) as H. fold g w in H. rewrite Z.mod_small in H by (by apply lxor_range).
  rewrite Z.shiftl_lxor, Z.shiftl_shiftl in H by lia. replace (w - 8 + Z.of_nat 8) with w in H by lia. exact H.
Qed.

Lemma crcByte_range v b : 0 ≤ crcByte model v b < 2 ^ w.
Proof. unfold crcByte. rewrite land_width by (fold w; lia). apply Z.mod_pos_bound, Z.pow_pos_nonneg; fold w; lia. Qed.

(** The register holds the remainder of what has been read. *)
Lemma crc_register data : Forall is_u8 data →
  poly_remainder w g (dividend model data) (foldl (crcByte model) (cm_initial model mod 2 ^ w) data).
Proof.
  induction data as [|b data IH] using rev_ind; intros Hd.
  - unfold dividend, message_poly. cbn [foldl]. change (8 * zlen (@nil Z)) with 0. rewrite Z.shiftl_0_r, Z.shiftl_0_l, Z.lxor_0_r. fold w. split; [apply Z.mod_pos_bound, Z.pow_pos_nonneg; lia|].
    exists []. by rewrite Z.lxor_0_r.
  - apply Forall_app in Hd as [Hd Hb]. inversion_clear Hb as [|? ? Hb' _]. destruct (IH Hd) as [Hr Hc]. rewrite foldl_app. cbn [foldl]. split; [apply crcByte_range|].
    fold (congruent g (dividend model (data ++ [b])) (crcByte model (foldl (crcByte model) (cm_initial model mod 2 ^ w) data) b)).
    eapply congruent_trans; [|by apply crc_byte_step]. change 8 with (Z.of_nat 8). eapply (congruent_shifts g _ _ 8) in Hc. change (Z.of_nat 8) with 8 in *.
    eapply congruent_trans; [|by apply congruent_add]. exists []. rewrite Z.lxor_0_r. unfold dividend, message_poly. rewrite foldl_app. cbn [foldl]. fold w. unfold zlen. rewrite length_app. cbn [length].
    rewrite !Z.shiftl_lxor, !Z.shiftl_shiftl, Z.lxor_assoc by lia. f_equal; [f_equal; lia|]. f_equal. f_equal. lia.
Qed.
End Crc.

(** ** The claims *)

(** C29. A CRC is what its model says.  For every model of width 8 to 32, with any
    polynomial, initial value, reflections and final xor, and any data: the value
    is the one remainder of the message times x^width, behind the initial value,
    by the generator, bits reversed if the model reflects the output, with the
    final xor; and it does not depend on how the data is cut into pieces. *)
Theorem checksum_crc_exact (model : ChecksumModel) (pieces : list (list Z)) :
  ChecksumModel_IsValid model = true → cm_kind model = kCHECKSUM_KIND_CRC → Forall (Forall is_u8) pieces →
  ∃ r, poly_remainder (cm_width model) (generator model) (dividend model (concat pieces)) r ∧
    (∀ r', poly_remainder (cm_width model) (generator model) (dividend model (concat pieces)) r' → r' = r) ∧
    Checksum_Finish (foldl Checksum_Update (Checksum_Start model) pieces) =
      Z.lxor (if cm_reflect_output model then reversed (Z.to_nat (cm_width model)) r else r) (cm_final_xor model) mod 2 ^ cm_width model.
Proof.
  intros Hv Hk Hp. assert (8 ≤ cm_width model ≤ 32) as Hw.
  { unfold ChecksumModel_IsValid in Hv. rewrite bool_decide_false in Hv by congruence. apply andb_true_iff in Hv as [H1 H2]. lia. }
  assert (∀ s, ck_model s = model → foldl Checksum_Update s pieces = {| ck_model := model; ck_value := foldl (crcByte model) (ck_value s) (concat pieces) |}) as Hf.
  { clear Hp. induction pieces as [|d pieces IH]; intros s Hs; [by destruct s; cbn in *; subst|]. cbn [foldl concat]. rewrite IH by done. cbn [Checksum_Update ck_value]. rewrite foldl_app, Hs. do 2 f_equal.
    clear -Hk. generalize (ck_value s). induction d as [|b d IHd]; intros v; [done|]. cbn [foldl]. rewrite IHd. unfold update_byte. by rewrite bool_decide_false by congruence. }
  rewrite Hf by done. cbn [Checksum_Start ck_value]. rewrite bool_decide_true by done. rewrite land_width by done. eexists. split; [by apply crc_register, Forall_concat|]. split.
  - intros r' Hr'. eapply remainder_unique; [| |exact Hr'|by apply crc_register, Forall_concat]; [lia|by apply generator_range].
  - unfold Checksum_Finish. cbn [ck_model ck_value]. rewrite bool_decide_false by congruence. rewrite land_width by done. by rewrite reflect_reversed by lia.
Qed.

(** The check values of the catalogues, over the digits 1 to 9. *)
Lemma checksum_crc_exact_witness :
  (∃ r, poly_remainder 32 (generator CHECKSUM_CRC32) (dividend CHECKSUM_CRC32 (concat [[49; 50; 51; 52]; [53; 54; 55; 56; 57]])) r ∧
    (∀ r', poly_remainder 32 (generator CHECKSUM_CRC32) (dividend CHECKSUM_CRC32 (concat [[49; 50; 51; 52]; [53; 54; 55; 56; 57]])) r' → r' = r) ∧
    Checksum_Finish (foldl Checksum_Update (Checksum_Start CHECKSUM_CRC32) [[49; 50; 51; 52]; [53; 54; 55; 56; 57]]) = Z.lxor (reversed 32 r) 4294967295 mod 2 ^ 32) ∧
  Checksum_Finish (foldl Checksum_Update (Checksum_Start CHECKSUM_CRC32) [[49; 50; 51; 52]; [53; 54; 55; 56; 57]]) = 3421780262.
Proof.
  split; [|vm_compute; reflexivity]. apply (checksum_crc_exact CHECKSUM_CRC32 [[49; 50; 51; 52]; [53; 54; 55; 56; 57]]); [vm_compute; reflexivity|reflexivity|].
  repeat (apply Forall_cons; split; [repeat (apply Forall_cons; split; [unfold is_u8; lia|]); constructor|]). constructor.
Defined.

(** A sum is the sum of the bytes, modulo 2^width. *)
Theorem checksum_sum_exact (model : ChecksumModel) (data : list Z) : ChecksumModel_IsValid model = true → cm_kind model = kCHECKSUM_KIND_SUM →
  Checksum_Finish (Checksum_Update (Checksum_Start model) data) = foldr Z.add 0 data mod 2 ^ cm_width model.
Proof.
  intros Hv Hk. assert (8 ≤ cm_width model ≤ 32) as Hw.
  { unfold ChecksumModel_IsValid in Hv. rewrite bool_decide_false in Hv by congruence. apply andb_true_iff in Hv as [H1 H2]. lia. }
  unfold Checksum_Finish, Checksum_Update, Checksum_Start. cbn [ck_model ck_value]. rewrite bool_decide_true by done. rewrite bool_decide_false by congruence.
  assert (0 < 2 ^ cm_width model) as Hpos by (apply Z.pow_pos_nonneg; lia).
  assert (∀ v, foldl (update_byte model) (v mod 2 ^ cm_width model) data = (v + foldr Z.add 0 data) mod 2 ^ cm_width model) as H; [|specialize (H 0); rewrite Z.mod_0_l, Z.add_0_l in H by lia; exact H].
  induction data as [|b data IH]; intros v; cbn [foldl foldr]; [by rewrite Z.add_0_r|]. unfold update_byte at 2. rewrite bool_decide_true, land_width by done.
  assert (u32 (v mod 2 ^ cm_width model + b) mod 2 ^ cm_width model = (v + b) mod 2 ^ cm_width model) as ->; [|rewrite IH; f_equal; lia].
  unfold u32. change 4294967296 with (2 ^ 32). replace (2 ^ 32) with (2 ^ cm_width model * 2 ^ (32 - cm_width model)) by (rewrite <- Z.pow_add_r by lia; f_equal; lia).
  rewrite Z.mod_mod_divide by (exists (2 ^ (32 - cm_width model)); lia). by rewrite Z.add_mod_idemp_l by lia.
Qed.
