(* ===== verification/ClientText.v ===== *)
(** * Text the command line reads: frames (src/client/frame_spec.c) and the lines
    of transaction scripts (src/client/txn_script/script_lexer.c, script_error.c)

    A text is the list of its characters; a pointer into it is the text from
    there on, and what follows the last character of a C string reads as NUL. *)

From Stdlib Require Import String.
From S2P Require Import Prelude CString Wire Codec FrameMessage.

(** ** Frames *)

Notation FRAME_SPEC_SEPARATOR := 35 (only parsing).
Notation FRAME_SPEC_REMOTE := 82 (only parsing).
Notation FRAME_SPEC_BYTE_SEPARATOR := 46 (only parsing).
Notation FRAME_SPEC_SFF_DIGITS_MAX := 3 (only parsing).
Notation FRAME_SPEC_ID_DIGITS_MAX := 8 (only parsing).
Notation FRAME_SPEC_FD_FLAG_BRS := 1 (only parsing).

Definition hexDigit (character : Z) : option Z :=
  if (character >=? 48) && (character <=? 57) then Some (u8 (character - 48))
  else if (character >=? 97) && (character <=? 102) then Some (u8 (character - 97 + 10))
  else if (character >=? 65) && (character <=? 70) then Some (u8 (character - 65 + 10))
  else None.

(** [while (hexDigit(text[digits], &nibble))]: the identifier, its digits and the text left. *)
Fixpoint id_loop (text : list Z) (can_id digits : Z) : option (Z * Z * list Z) :=
  match text with
  | c :: text' =>
      match hexDigit c with
      | Some nibble => if digits =? FRAME_SPEC_ID_DIGITS_MAX then None else id_loop text' (Z.lor (u32 (Z.shiftl can_id 4)) nibble) (digits + 1)
      | None => Some (can_id, digits, text)
      end
  | [] => Some (can_id, digits, [])
  end.

Definition parseCanId (text : list Z) : option (Z * list Z) :=
  match id_loop text 0 0 with
  | None => None
  | Some (can_id, digits, rest) =>
      if (digits =? 0) || (can_id >? FRAME_CAN_ID_MASK) then None
      else Some (if (digits >? FRAME_SPEC_SFF_DIGITS_MAX) || (can_id >? FRAME_CAN_ID_SFF_MAX) then Z.lor can_id FRAME_CAN_ID_FLAG_EFF else can_id, rest)
  end.

(** The loop over the characters: the bytes so far and those the text adds. *)
Fixpoint parseBytes (text : list Z) (payload : list Z) : option (list Z) :=
  match text with
  | [] => Some payload
  | c :: text' =>
      if c =? FRAME_SPEC_BYTE_SEPARATOR then parseBytes text' payload
      else
        match text' with
        | [] => None
        | c' :: text'' =>
            match hexDigit c, hexDigit c' with
            | Some high, Some low =>
                if Nat.eqb (length payload) FRAME_PAYLOAD_MAX_FD then None else parseBytes text'' (payload ++ [u8 (Z.lor (Z.shiftl high 4) low)])
            | _, _ => None
            end
        end
  end.

(** A frame with nothing but what is said of it. *)
Definition spec_frame (can_id flags : Z) (payload : list Z) : FrameMessage := {|
  frame_can_id := can_id; frame_timestamp_us := 0; frame_channel := 0; frame_payload_length := zlen payload; frame_flags := flags; frame_route_flags := 0;
  frame_payload := copy_at 0 payload (replicate FRAME_PAYLOAD_MAX_FD 0) |}.

Definition parseFdFrame (text : list Z) (can_id : Z) : option FrameMessage :=
  match text with
  | [] => None
  | c :: text' =>
      match hexDigit c with
      | None => None
      | Some flags =>
          let frame_flags := if negb (Z.land flags FRAME_SPEC_FD_FLAG_BRS =? 0) then Z.lor FRAME_FLAG_FD FRAME_FLAG_BRS else FRAME_FLAG_FD in
          spec_frame can_id frame_flags <$> parseBytes text' []
      end
  end.

Definition parseRemoteFrame (text : list Z) (can_id : Z) : option FrameMessage :=
  let can_id := Z.lor can_id FRAME_CAN_ID_FLAG_RTR in
  let frame := spec_frame can_id 0 [] in
  match text with
  | [] => Some frame
  | c :: text' =>
      if (c <? 48) || (c >? 48 + FRAME_PAYLOAD_MAX_CLASSIC) || negb (Nat.eqb (length text') 0) then None
      else Some {| frame_can_id := can_id; frame_timestamp_us := 0; frame_channel := 0; frame_payload_length := u8 (c - 48); frame_flags := 0; frame_route_flags := 0; frame_payload := frame_payload frame |}
  end.

Definition parseClassicFrame (text : list Z) (can_id : Z) : option FrameMessage :=
  match parseBytes text [] with
  | None => None
  | Some payload => Some (spec_frame can_id (if zlen payload >? FRAME_PAYLOAD_MAX_CLASSIC then FRAME_FLAG_FD else 0) payload)
  end.

Definition FrameSpec_Parse (text : list Z) : option FrameMessage :=
  match parseCanId text with
  | Some (can_id, c :: cursor) =>
      if negb (c =? FRAME_SPEC_SEPARATOR) then None
      else
        match cursor with
        | c' :: cursor' =>
            if c' =? FRAME_SPEC_SEPARATOR then parseFdFrame cursor' can_id
            else if c' =? FRAME_SPEC_REMOTE then parseRemoteFrame cursor' can_id
            else parseClassicFrame cursor can_id
        | [] => parseClassicFrame [] can_id
        end
  | _ => None
  end.

(** ** A frame as text *)

Definition hex_char (lower : bool) (n : Z) : Z := if n <? 10 then 48 + n else (if lower then 97 else 65) + (n - 10).

(** [n] digits, the highest first. *)
Fixpoint hex_text (lower : bool) (n : nat) (v : Z) : list Z := match n with O => [] | S n' => hex_text lower n' (v / 16) ++ [hex_char lower (v mod 16)] end.

(** How a text may be written: the case of the letters and how many dots stand before each byte. *)
Record writing := { wr_lower : bool; wr_dots : list nat }.

Definition spec_id (wr : writing) (can_id : Z) : list Z :=
  hex_text (wr_lower wr) (if has_flag can_id FRAME_CAN_ID_FLAG_EFF then 8 else 3) (Z.land can_id FRAME_CAN_ID_MASK).
Fixpoint spec_bytes (wr : writing) (dots : list nat) (bytes : list Z) : list Z :=
  match bytes with [] => [] | b :: bytes' => replicate (hd 0%nat dots) 46 ++ hex_text (wr_lower wr) 2 b ++ spec_bytes wr (tl dots) bytes' end.

Inductive frame_spec := SpecData (can_id : Z) (bytes : list Z) | SpecFd (can_id : Z) (brs : bool) (bytes : list Z) | SpecRemote (can_id : Z) (length : option Z).

Definition spec_text (wr : writing) (s : frame_spec) : list Z :=
  match s with
  | SpecData can_id bytes => spec_id wr can_id ++ lit "#" ++ spec_bytes wr (wr_dots wr) bytes
  | SpecFd can_id brs bytes => spec_id wr can_id ++ lit "##" ++ (if brs then lit "1" else lit "0") ++ spec_bytes wr (wr_dots wr) bytes
  | SpecRemote can_id length => spec_id wr can_id ++ lit "#R" ++ match length with Some n => [48 + n] | None => [] end
  end.

(** The frame that is meant. *)
Definition spec_meaning (s : frame_spec) : FrameMessage :=
  match s with
  | SpecData can_id bytes => spec_frame can_id (if zlen bytes >? 8 then FRAME_FLAG_FD else 0) bytes
  | SpecFd can_id brs bytes => spec_frame can_id (if brs then Z.lor FRAME_FLAG_FD FRAME_FLAG_BRS else FRAME_FLAG_FD) bytes
  | SpecRemote can_id length =>
      {| frame_can_id := Z.lor can_id FRAME_CAN_ID_FLAG_RTR; frame_timestamp_us := 0; frame_channel := 0; frame_payload_length := default 0 length; frame_flags := 0;
         frame_route_flags := 0; frame_payload := replicate FRAME_PAYLOAD_MAX_FD 0 |}
  end.

Definition bytes_ok (bytes : list Z) : Prop := (length bytes ≤ 64)%nat ∧ Forall is_u8 bytes.
Definition spec_ok (s : frame_spec) : Prop :=
  match s with
  | SpecData can_id bytes | SpecFd can_id _ bytes => can_id_ok can_id ∧ bytes_ok bytes
  | SpecRemote can_id length => can_id_ok can_id ∧ match length with Some n => 0 ≤ n ≤ 8 | None => True end
  end.

Lemma hexDigit_char lower n : 0 ≤ n < 16 → hexDigit (hex_char lower n) = Some n.
Proof.
  intros Hn. assert (n ∈ [0;1;2;3;4;5;6;7;8;9;10;11;12;13;14;15]) as Hin by (rewrite !elem_of_cons; lia). destruct lower;
  repeat (apply elem_of_cons in Hin as [->|Hin]; [by vm_compute|]); by apply elem_of_nil in Hin.
Qed.

Lemma length_hex_text lower n v : length (hex_text lower n v) = n.
Proof. revert v. induction n as [|n IH]; intros v; [done|]. cbn [hex_text]. rewrite length_app, IH. cbn. lia. Qed.

(** The loop takes all the digits. *)
Lemma id_loop_text lower n v a d rest : 0 ≤ v < 16 ^ Z.of_nat n → 0 ≤ a → a * 16 ^ Z.of_nat n + v < 4294967296 → 0 ≤ d → d + Z.of_nat n ≤ 8 →
  id_loop (hex_text lower n v ++ rest) a d = id_loop rest (a * 16 ^ Z.of_nat n + v) (d + Z.of_nat n).
Proof.
  revert v rest. induction n as [|n IH]; intros v rest Hv Ha Hu Hd Hn; [cbn [hex_text app]; f_equal; cbn in *; lia|].
  rewrite Nat2Z.inj_succ, Z.pow_succ_r in * by lia. pose proof (Z.div_mod v 16 ltac:(lia)) as Hdm. pose proof (Z.mod_pos_bound v 16 ltac:(lia)) as Hm.
  assert (0 < 16 ^ Z.of_nat n) as Hp by (apply Z.pow_pos_nonneg; lia). assert (0 ≤ v / 16 < 16 ^ Z.of_nat n) as Hq by (split; [apply Z.div_pos; lia|apply Z.div_lt_upper_bound; lia]).
  cbn [hex_text]. rewrite <- app_assoc, IH by (nia || lia). cbn [app id_loop]. rewrite hexDigit_char by done. rewrite (proj2 (Z.eqb_neq _ 8)) by lia. set (x := a * 16 ^ Z.of_nat n + v / 16).
  assert (0 ≤ x ∧ x * 16 + v mod 16 = a * (16 * 16 ^ Z.of_nat n) + v) as [Hx Hxe] by (unfold x; split; [nia|lia]).
  f_equal; [|lia]. rewrite Z.shiftl_mul_pow2 by lia. change (2 ^ 4) with 16. rewrite u32_id by lia. replace (x * 16) with (Z.shiftl x 4) by (by rewrite Z.shiftl_mul_pow2 by lia).
  rewrite Z.lor_comm, lor_shiftl_add by (change (2 ^ 4) with 16; lia). change (2 ^ 4) with 16. lia.
Qed.

(** The identifier is read back, with its kind. *)
Lemma parseCanId_text wr can_id c rest : can_id_ok can_id → hexDigit c = None → parseCanId (spec_id wr can_id ++ c :: rest) = Some (can_id, c :: rest).
Proof.
  intros Hok Hc. destruct (can_id_parts can_id Hok) as (id & Hid & Hu & Hk). unfold spec_id. rewrite Hid. unfold parseCanId.
  assert (Z.land id FRAME_CAN_ID_MASK = id → 0 ≤ id ≤ FRAME_CAN_ID_MASK) as Hr.
  { unfold FRAME_CAN_ID_MASK. change 536870911 with (Z.ones 29). rewrite Z.land_ones by lia. pose proof (Z.mod_pos_bound id (2 ^ 29) ltac:(lia)). change (Z.ones 29) with (2 ^ 29 - 1). lia. }
  unfold is_u32 in Hu. unfold FRAME_CAN_ID_MASK, FRAME_CAN_ID_SFF_MAX in *. destruct (has_flag can_id FRAME_CAN_ID_FLAG_EFF).
  - destruct Hk as [Hm ->]. specialize (Hr Hm). rewrite id_loop_text by (change (16 ^ Z.of_nat 8) with 4294967296; lia). cbn [id_loop]. rewrite Hc. change (0 + Z.of_nat 8) with 8. cbn [Z.eqb orb].
    change (16 ^ Z.of_nat 8) with 4294967296. replace (0 * 4294967296 + id) with id by lia. destruct (Z.gtb_spec id 536870911); [lia|]. done.
  - destruct Hk as (Hm & Hs & ->). rewrite id_loop_text by (change (16 ^ Z.of_nat 3) with 4096; lia). cbn [id_loop]. rewrite Hc. change (0 + Z.of_nat 3) with 3. cbn [Z.eqb orb].
    change (16 ^ Z.of_nat 3) with 4096. replace (0 * 4096 + id) with id by lia. destruct (Z.gtb_spec id 536870911); [lia|]. destruct (Z.gtb_spec id 2047); [lia|]. done.
Qed.

(** The bytes are read back, dots or not. *)
Lemma parseBytes_text wr dots bytes payload : Forall is_u8 bytes → (length payload + length bytes ≤ 64)%nat → parseBytes (spec_bytes wr dots bytes) payload = Some (payload ++ bytes).
Proof.
  intros Hb. revert dots payload. induction Hb as [|b bytes Hb _ IH]; intros dots payload Hl; cbn [spec_bytes]; [by rewrite app_nil_r|]. cbn [length] in Hl.
  assert (∀ n rest, parseBytes (replicate n 46 ++ rest) payload = parseBytes rest payload) as -> by (intros n rest; induction n; done). unfold is_u8 in Hb.
  pose proof (Z.div_mod b 16 ltac:(lia)). pose proof (Z.mod_pos_bound b 16 ltac:(lia)). assert (0 ≤ b / 16 < 16) by (split; [apply Z.div_pos; lia|apply Z.div_lt_upper_bound; lia]).
  cbn [hex_text app]. rewrite (Z.mod_small (b / 16)) by lia. cbn [parseBytes]. assert (hex_char (wr_lower wr) (b / 16) =? 46 = false) as -> by (apply Z.eqb_neq; unfold hex_char; destruct (Z.ltb_spec (b / 16) 10), (wr_lower wr); lia).
  rewrite !hexDigit_char by lia. rewrite (proj2 (Nat.eqb_neq _ _)) by lia. rewrite IH by (rewrite length_app; cbn; lia). rewrite <- app_assoc. do 3 f_equal.
  rewrite Z.lor_comm, lor_shiftl_add by (change (2 ^ 4) with 16; lia). change (2 ^ 4) with 16. rewrite u8_id by lia. cbn [app]. f_equal. lia.
Qed.

Lemma spec_bytes_head wr dots bytes c rest : spec_bytes wr dots bytes = c :: rest → c ≠ 35 ∧ c ≠ 82.
Proof.
  destruct bytes as [|b bytes]; [done|]. cbn [spec_bytes]. destruct (hd 0%nat dots); [|by intros [= <- _]]. cbn [replicate app hex_text]. intros [= <- _].
  pose proof (Z.mod_pos_bound (b / 16) 16 ltac:(lia)). unfold hex_char. destruct (Z.ltb_spec ((b / 16) mod 16) 10), (wr_lower wr); lia.
Qed.

(** A frame written in the syntax of the command line is read as that frame.
    Data, FD and remote frames, with a standard or an extended identifier, in
    upper or lower case and with any dots before the bytes: the frame has the
    identifier, the flags, the length and the bytes that were written. *)
Theorem frame_spec_roundtrip (wr : writing) (s : frame_spec) : spec_ok s → FrameSpec_Parse (spec_text wr s) = Some (spec_meaning s).
Proof.
  destruct s as [can_id bytes|can_id brs bytes|can_id len]; intros [Hid Hok]; unfold FrameSpec_Parse; cbn [spec_text].
  - destruct Hok as [Hl Hb]. change (lit "#") with [35]. cbn [app]. rewrite parseCanId_text by done. cbn [Z.eqb Pos.eqb negb].
    assert (parseClassicFrame (spec_bytes wr (wr_dots wr) bytes) can_id = Some (spec_meaning (SpecData can_id bytes))) as Hc by (unfold parseClassicFrame; by rewrite parseBytes_text by (cbn; done || lia)).
    destruct (spec_bytes wr (wr_dots wr) bytes) as [|c rest] eqn:He; [done|]. destruct (spec_bytes_head _ _ _ _ _ He) as [H1 H2]. by rewrite (proj2 (Z.eqb_neq _ _) H1), (proj2 (Z.eqb_neq _ _) H2).
  - destruct Hok as [Hl Hb]. change (lit "##") with [35; 35]. cbn [app]. rewrite parseCanId_text by done. cbn [Z.eqb Pos.eqb negb].
    destruct brs; [change (lit "1") with [49]|change (lit "0") with [48]]; cbn [app parseFdFrame]; rewrite parseBytes_text by (cbn; done || lia); done.
  - change (lit "#R") with [35; 82]. cbn [app]. rewrite parseCanId_text by done. cbn [Z.eqb Pos.eqb negb]. unfold parseRemoteFrame. destruct len as [n|]; [|done].
    unfold FRAME_PAYLOAD_MAX_CLASSIC. destruct (Z.ltb_spec (48 + n) 48); [lia|]. destruct (Z.gtb_spec (48 + n) (48 + 8)); [lia|]. cbn [orb length Nat.eqb negb]. replace (48 + n - 48) with n by lia. rewrite u8_id by lia. done.
Qed.

Lemma frame_spec_roundtrip_witness :
  spec_text {| wr_lower := true; wr_dots := [0; 1]%nat |} (SpecFd (Z.lor 291 FRAME_CAN_ID_FLAG_EFF) true [171; 1]) = lit "00000123##1ab.01" ∧
  FrameSpec_Parse (lit "00000123##1ab.01") = Some (spec_frame (Z.lor 291 FRAME_CAN_ID_FLAG_EFF) 3 [171; 1]).
Proof.
  split; [vm_compute; reflexivity|]. apply (frame_spec_roundtrip {| wr_lower := true; wr_dots := [0; 1]%nat |} (SpecFd (Z.lor 291 FRAME_CAN_ID_FLAG_EFF) true [171; 1])).
  split; [right; exists 291; split; [vm_compute; split; discriminate|reflexivity]|]. split; [cbn; lia|]. repeat (apply Forall_cons; split; [unfold is_u8; lia|]). constructor.
Defined.

(** ** Lines of a script *)

Notation SCRIPT_LINE_TOKENS_MAX := 64%nat (only parsing).
Notation SCRIPT_ERROR_MESSAGE_SIZE := 160%nat (only parsing).
Notation COMMENT_MARK := 35 (only parsing).
Notation QUOTE := 34 (only parsing).
Definition MICROSECONDS_PER_MILLISECOND : Z := 1000.
Definition MICROSECONDS_PER_SECOND : Z := 1000000.

Inductive TSCRIPT_TOKEN :=
| kSCRIPT_TOKEN_NAME | kSCRIPT_TOKEN_NUMBER | kSCRIPT_TOKEN_DURATION | kSCRIPT_TOKEN_STRING | kSCRIPT_TOKEN_AMPERSAND | kSCRIPT_TOKEN_EQUALS | kSCRIPT_TOKEN_SHIFT_RIGHT
| kSCRIPT_TOKEN_PLUS | kSCRIPT_TOKEN_RANGE | kSCRIPT_TOKEN_COMMA | kSCRIPT_TOKEN_OPEN_PARENTHESIS | kSCRIPT_TOKEN_CLOSE_PARENTHESIS | kSCRIPT_TOKEN_OPEN_BRACKET
| kSCRIPT_TOKEN_CLOSE_BRACKET | kSCRIPT_TOKEN_ASSIGN.
#[export] Instance TSCRIPT_TOKEN_eq_dec : EqDecision TSCRIPT_TOKEN.
Proof. solve_decision. Defined.
Inductive TSCRIPT_LEX_RESULT := kSCRIPT_LEX_LINE | kSCRIPT_LEX_END | kSCRIPT_LEX_ERROR.

(** The text of a token is the line from its first character on. *)
Record ScriptToken := { tk_kind : TSCRIPT_TOKEN; tk_text : list Z; tk_length : Z; tk_number : Z; tk_hex_digits : Z }.
(** The tokens are those counted by [token_count]. *)
Record ScriptLine := { sl_line_number : Z; sl_indent : Z; sl_tokens : list ScriptToken }.
(** The text that is left. *)
Record ScriptLexer := { lx_text : list Z; lx_line_number : Z }.
Record ScriptError := { se_line_number : Z; se_message : list Z }.

Definition ScriptError_Set (self : ScriptError) (line_number : Z) (message : string) : ScriptError := {|
  se_line_number := line_number; se_message := BoundedString_Copy (se_message self) (Some (lit message)) |}.

Record Operator := { op_first : Z; op_second : Z; op_kind : TSCRIPT_TOKEN }.
Definition operator (first second : Z) (kind : TSCRIPT_TOKEN) : Operator := {| op_first := first; op_second := second; op_kind := kind |}.
Definition OPERATORS : list Operator := [
  operator 61 61 kSCRIPT_TOKEN_EQUALS; operator 62 62 kSCRIPT_TOKEN_SHIFT_RIGHT; operator 46 46 kSCRIPT_TOKEN_RANGE; operator 38 0 kSCRIPT_TOKEN_AMPERSAND;
  operator 43 0 kSCRIPT_TOKEN_PLUS; operator 44 0 kSCRIPT_TOKEN_COMMA; operator 40 0 kSCRIPT_TOKEN_OPEN_PARENTHESIS; operator 41 0 kSCRIPT_TOKEN_CLOSE_PARENTHESIS;
  operator 91 0 kSCRIPT_TOKEN_OPEN_BRACKET; operator 93 0 kSCRIPT_TOKEN_CLOSE_BRACKET; operator 61 0 kSCRIPT_TOKEN_ASSIGN ].

Definition ScriptLexer_Init (text : list Z) : ScriptLexer := {| lx_text := text; lx_line_number := 0 |}.

Definition isDecimalDigit (character : Z) : bool := (character >=? 48) && (character <=? 57).
Definition isWordCharacter (character : Z) : bool :=
  ((character >=? 97) && (character <=? 122)) || ((character >=? 65) && (character <=? 90)) || isDecimalDigit character || (character =? 95) || (character =? 45).
Definition isHexDigit (character : Z) : bool :=
  isDecimalDigit character || ((character >=? 97) && (character <=? 102)) || ((character >=? 65) && (character <=? 70)).
Definition hexValue (character : Z) : Z :=
  if isDecimalDigit character then u8 (character - 48)
  else if (character >=? 97) && (character <=? 102) then u8 (character - 97 + 10)
  else u8 (character - 65 + 10).

(** The characters of a token. *)
Definition tk_chars (token : ScriptToken) : list Z := take (Z.to_nat (tk_length token)) (tk_text token).

Definition ScriptToken_Is (token : ScriptToken) (word : string) : bool :=
  bool_decide (tk_kind token = kSCRIPT_TOKEN_NAME) && (tk_length token =? zlen (lit word)) && bool_decide (tk_chars token = lit word).

Definition ScriptToken_HexByte (token : ScriptToken) : option Z :=
  if bool_decide (tk_kind token ≠ kSCRIPT_TOKEN_NAME) && bool_decide (tk_kind token ≠ kSCRIPT_TOKEN_NUMBER) then None
  else if negb (tk_length token =? 2) || negb (isHexDigit ((tk_text token).[0])) || negb (isHexDigit ((tk_text token).[1])) then None
  else Some (u8 (Z.lor (Z.shiftl (hexValue ((tk_text token).[0])) 4) (hexValue ((tk_text token).[1])))).

(** How many characters from the start satisfy the condition of a loop. *)
Fixpoint run_length (P : Z → bool) (text : list Z) : nat := match text with c :: text' => if P c then S (run_length P text') else O | [] => O end.

Definition lineEnd (self : ScriptLexer) : nat := run_length (λ c, negb (c =? 10)) (lx_text self).

(** The loops that read digits; a value is 64 bits wide. *)
Fixpoint hex_number_loop (chars : list Z) (value : Z) : option Z :=
  match chars with [] => Some value | c :: chars' => if isHexDigit c then hex_number_loop chars' (u64 (u64 (value * 16) + hexValue c)) else None end.
Fixpoint decimal_number_loop (chars : list Z) (value : Z) : option Z :=
  match chars with [] => Some value | c :: chars' => if isDecimalDigit c then decimal_number_loop chars' (u64 (u64 (value * 10) + (c - 48))) else None end.
(** The value of the digits in front and what follows them. *)
Fixpoint digits_loop (chars : list Z) (value digits : Z) : Z * Z * list Z :=
  match chars with
  | c :: chars' => if isDecimalDigit c then digits_loop chars' (u64 (u64 (value * 10) + (c - 48))) (digits + 1) else (value, digits, chars)
  | [] => (value, digits, [])
  end.

Definition with_number (token : ScriptToken) (kind : TSCRIPT_TOKEN) (number hex_digits : Z) : ScriptToken := {|
  tk_kind := kind; tk_text := tk_text token; tk_length := tk_length token; tk_number := number; tk_hex_digits := hex_digits |}.

Definition readHexNumber (token : ScriptToken) : option ScriptToken :=
  let chars := tk_chars token in
  if (tk_length token <=? 2) || negb (chars.[0] =? 48) || (negb (chars.[1] =? 120) && negb (chars.[1] =? 88)) then None
  else
    match hex_number_loop (drop 2 chars) 0 with
    | Some value => Some (with_number token kSCRIPT_TOKEN_NUMBER value (u8 (tk_length token - 2)))
    | None => None
    end.

Definition readDecimalNumber (token : ScriptToken) : option ScriptToken :=
  match decimal_number_loop (tk_chars token) 0 with
  | Some value => Some (with_number token kSCRIPT_TOKEN_NUMBER value (tk_hex_digits token))
  | None => None
  end.

Definition readDuration (token : ScriptToken) : option ScriptToken :=
  let '(value, digits, unit) := digits_loop (tk_chars token) 0 0 in
  let duration number := Some (with_number token kSCRIPT_TOKEN_DURATION number (tk_hex_digits token)) in
  if digits =? 0 then None
  else if bool_decide (unit = lit "us") then duration value
  else if bool_decide (unit = lit "ms") then duration (u64 (value * MICROSECONDS_PER_MILLISECOND))
  else if bool_decide (unit = lit "s") then duration (u64 (value * MICROSECONDS_PER_SECOND))
  else None.

Definition classifyWord (token : ScriptToken) : ScriptToken :=
  match readHexNumber token with
  | Some token => token
  | None => match readDecimalNumber token with Some token => token | None => default token (readDuration token) end
  end.

Definition new_token (kind : TSCRIPT_TOKEN) (text : list Z) (length : Z) : ScriptToken := {|
  tk_kind := kind; tk_text := text; tk_length := length; tk_number := 0; tk_hex_digits := 0 |}.

(** The readers: the characters consumed, none where the C function returns 0, and the token. *)
Definition readWord (text : list Z) : option (nat * ScriptToken) :=
  let size := run_length isWordCharacter text in Some (size, classifyWord (new_token kSCRIPT_TOKEN_NAME text (u16 (Z.of_nat size)))).

Definition readString (text : list Z) : option (nat * ScriptToken) :=
  let size := S (run_length (λ c, negb (c =? QUOTE)) (tail text)) in
  if Nat.eqb size (length text) then None else Some (S size, new_token kSCRIPT_TOKEN_STRING (tail text) (u16 (Z.of_nat (size - 1)))).

Fixpoint operator_loop (operators : list Operator) (text : list Z) : option (nat * ScriptToken) :=
  match operators with
  | [] => None
  | o :: operators' =>
      if negb (text.[0] =? op_first o) then operator_loop operators' text
      else if negb (op_second o =? 0) && (Nat.ltb (length text) 2 || negb (text.[1] =? op_second o)) then operator_loop operators' text
      else let length := if negb (op_second o =? 0) then 2 else 1 in Some (Z.to_nat length, new_token (op_kind o) text length)
  end.
Definition readOperator (text : list Z) : option (nat * ScriptToken) := operator_loop OPERATORS text.

Definition add_token (line : ScriptLine) (token : ScriptToken) : ScriptLine := {|
  sl_line_number := sl_line_number line; sl_indent := sl_indent line; sl_tokens := sl_tokens line ++ [token] |}.

(** [while (offset < length)]: every turn takes a character at least. *)
Fixpoint tokenize_loop (fuel : nat) (text : list Z) (line : ScriptLine) (error : ScriptError) : bool * ScriptLine * ScriptError :=
  match fuel with
  | O => (false, line, error)
  | S fuel' =>
      match text with
      | [] => (true, line, error)
      | c :: text' =>
          if (c =? 32) || (c =? 13) then tokenize_loop fuel' text' line error
          else if c =? COMMENT_MARK then (true, line, error)
          else if Nat.eqb (length (sl_tokens line)) SCRIPT_LINE_TOKENS_MAX then (false, line, ScriptError_Set error 0 "line too long")
          else
            match (if isWordCharacter c then readWord text else if c =? QUOTE then readString text else readOperator text) with
            | Some (consumed, token) => tokenize_loop fuel' (drop consumed text) (add_token line token) error
            | None => (false, line, ScriptError_Set error 0 (if c =? QUOTE then "string not closed" else "unexpected character"))
            end
      end
  end.
Definition tokenizeLine (text : list Z) (line : ScriptLine) (error : ScriptError) : bool * ScriptLine * ScriptError := tokenize_loop (S (length text)) text line error.

(** [while (self->offset < self->size)]: every turn takes a line. *)
Fixpoint line_loop (fuel : nat) (self : ScriptLexer) (line : ScriptLine) (error : ScriptError) : TSCRIPT_LEX_RESULT * ScriptLexer * ScriptLine * ScriptError :=
  match fuel with
  | O => (kSCRIPT_LEX_END, self, line, error)
  | S fuel' =>
      if Nat.eqb (length (lx_text self)) 0 then (kSCRIPT_LEX_END, self, line, error)
      else
        let start := lx_text self in
        let length_ := lineEnd self in
        let self := {| lx_text := drop (if Nat.ltb length_ (length start) then S length_ else length_) start; lx_line_number := u16 (lx_line_number self + 1) |} in
        let whole := take length_ start in
        let indent := run_length (λ c, c =? 32) whole in
        let rest := drop indent whole in
        if Nat.ltb indent length_ && (rest.[0] =? 9) then (kSCRIPT_LEX_ERROR, self, line, ScriptError_Set error (lx_line_number self) "indent with spaces, not tabs")
        else
          let line := {| sl_line_number := lx_line_number self; sl_indent := u16 (Z.of_nat indent); sl_tokens := [] |} in
          let '(ok, line, error) := tokenizeLine rest line error in
          if negb ok then (kSCRIPT_LEX_ERROR, self, line, {| se_line_number := lx_line_number self; se_message := se_message error |})
          else if Nat.ltb 0 (length (sl_tokens line)) then (kSCRIPT_LEX_LINE, self, line, error)
          else line_loop fuel' self line error
  end.
Definition ScriptLexer_NextLine (self : ScriptLexer) (line : ScriptLine) (error : ScriptError) : TSCRIPT_LEX_RESULT * ScriptLexer * ScriptLine * ScriptError :=
  line_loop (S (length (lx_text self))) self line error.

(** ** A script as text *)

Inductive lexeme :=
| LxName (word : list Z)
| LxDecimal (digits : nat) (value : Z)
| LxHex (lower : bool) (digits : nat) (value : Z)
| LxDuration (digits : nat) (value : Z) (unit : string)
| LxString (text : list Z)
| LxOperator (o : Operator).

Fixpoint dec_text (n : nat) (v : Z) : list Z := match n with O => [] | S n' => dec_text n' (v / 10) ++ [48 + v mod 10] end.

(** The characters of a lexeme, and how they are written. *)
Definition content (x : lexeme) : list Z :=
  match x with
  | LxName word => word
  | LxDecimal n v => dec_text n v
  | LxHex lower n v => lit "0x" ++ hex_text lower n v
  | LxDuration n v unit => dec_text n v ++ lit unit
  | LxString text => text
  | LxOperator o => op_first o :: if op_second o =? 0 then [] else [op_second o]
  end.
Definition written (x : lexeme) : list Z := match x with LxString text => QUOTE :: text ++ [QUOTE] | _ => content x end.

Definition unit_us (unit : string) : Z := if String.eqb unit "us" then 1 else if String.eqb unit "ms" then 1000 else 1000000.

Definition lexeme_ok (x : lexeme) : Prop :=
  zlen (content x) < 65536 ∧
  match x with
  | LxName word => ∃ c w, word = c :: w ∧ isDecimalDigit c = false ∧ Forall (λ c, isWordCharacter c = true) word
  | LxDecimal n v => (1 ≤ n)%nat ∧ 0 ≤ v < 10 ^ Z.of_nat n ∧ v < 18446744073709551616
  | LxHex _ n v => (1 ≤ n < 256)%nat ∧ 0 ≤ v < 16 ^ Z.of_nat n ∧ v < 18446744073709551616
  | LxDuration n v unit => (1 ≤ n)%nat ∧ 0 ≤ v < 10 ^ Z.of_nat n ∧ v * unit_us unit < 18446744073709551616 ∧ (unit = "us" ∨ unit = "ms" ∨ unit = "s")%string
  | LxString text => Forall (λ c, c ≠ QUOTE ∧ c ≠ 10) text
  | LxOperator o => o ∈ OPERATORS
  end.

(** The token of a lexeme. *)
Definition says (t : ScriptToken) (x : lexeme) : Prop :=
  tk_chars t = content x ∧
  (tk_kind t, tk_number t, tk_hex_digits t) =
    match x with
    | LxName _ => (kSCRIPT_TOKEN_NAME, 0, 0)
    | LxDecimal _ v => (kSCRIPT_TOKEN_NUMBER, v, 0)
    | LxHex _ n v => (kSCRIPT_TOKEN_NUMBER, v, Z.of_nat n)
    | LxDuration _ v unit => (kSCRIPT_TOKEN_DURATION, v * unit_us unit, 0)
    | LxString _ => (kSCRIPT_TOKEN_STRING, 0, 0)
    | LxOperator o => (op_kind o, 0, 0)
    end.

(** A line: indentation, lexemes with a space after each, perhaps a comment. *)
Record source_line := { so_indent : nat; so_lexemes : list lexeme; so_comment : option (list Z) }.
Definition line_text (l : source_line) : list Z :=
  replicate (so_indent l) 32 ++ concat ((λ x, written x ++ [32]) <$> so_lexemes l) ++ match so_comment l with Some text => COMMENT_MARK :: text | None => [] end.
Definition line_ok (l : source_line) : Prop :=
  Z.of_nat (so_indent l) < 65536 ∧ (length (so_lexemes l) ≤ 64)%nat ∧ Forall lexeme_ok (so_lexemes l) ∧ match so_comment l with Some text => Forall (λ c, c ≠ 10) text | None => True end.
Definition script_text (ls : list source_line) : list Z := concat ((λ l, line_text l ++ [10]) <$> ls).

(** The lines the lexer is to find, from line [n] on: those with lexemes. *)
Fixpoint expected (n : Z) (ls : list source_line) : list (Z * source_line) :=
  match ls with [] => [] | l :: ls' => if Nat.eqb (length (so_lexemes l)) 0 then expected (n + 1) ls' else (n, l) :: expected (n + 1) ls' end.
Definition line_says (line : ScriptLine) (x : Z * source_line) : Prop :=
  sl_line_number line = x.1 ∧ sl_indent line = Z.of_nat (so_indent x.2) ∧ Forall2 says (sl_tokens line) (so_lexemes x.2).

(** A caller that reads lines until there are no more. *)
Fixpoint lex_all (fuel : nat) (self : ScriptLexer) (error : ScriptError) : list ScriptLine * TSCRIPT_LEX_RESULT :=
  match fuel with
  | O => ([], kSCRIPT_LEX_ERROR)
  | S fuel' =>
      match ScriptLexer_NextLine self {| sl_line_number := 0; sl_indent := 0; sl_tokens := [] |} error with
      | (kSCRIPT_LEX_LINE, self, line, error) => let '(lines, result) := lex_all fuel' self error in (line :: lines, result)
      | (result, _, _, _) => ([], result)
      end
  end.

(** ** Runs and numbers *)

Lemma run_length_all P a rest : Forall (λ c, P c = true) a → match rest with [] => True | c :: _ => P c = false end → run_length P (a ++ rest) = length a.
Proof. intros Ha Hr. induction Ha as [|c a Hc _ IH]; cbn; [|by rewrite Hc, IH]. destruct rest as [|c rest]; [done|]. cbn. by rewrite Hr. Qed.

Lemma length_dec_text n v : length (dec_text n v) = n.
Proof. revert v. induction n as [|n IH]; intros v; [done|]. cbn [dec_text]. rewrite length_app, IH. cbn. lia. Qed.

Lemma dec_text_digits n v : Forall (λ c, isDecimalDigit c = true) (dec_text n v).
Proof.
  revert v. induction n as [|n IH]; intros v; [constructor|]. cbn [dec_text]. apply Forall_app. split; [apply IH|]. constructor; [|constructor]. pose proof (Z.mod_pos_bound v 10 ltac:(lia)).
  unfold isDecimalDigit. apply andb_true_iff. split; lia.
Qed.

Lemma digit_word c : isDecimalDigit c = true → isWordCharacter c = true.
Proof. intros H. unfold isWordCharacter. rewrite H. by rewrite orb_true_r. Qed.

Lemma hex_char_digit lower n : 0 ≤ n < 16 → isHexDigit (hex_char lower n) = true ∧ hexValue (hex_char lower n) = n ∧ isWordCharacter (hex_char lower n) = true.
Proof.
  intros Hn. assert (n ∈ [0;1;2;3;4;5;6;7;8;9;10;11;12;13;14;15]) as Hin by (rewrite !elem_of_cons; lia). destruct lower;
  repeat (apply elem_of_cons in Hin as [->|Hin]; [by vm_compute|]); by apply elem_of_nil in Hin.
Qed.

Lemma hex_text_words lower n v : Forall (λ c, isWordCharacter c = true) (hex_text lower n v).
Proof.
  revert v. induction n as [|n IH]; intros v; [constructor|]. cbn [hex_text]. apply Forall_app. split; [apply IH|]. constructor; [|constructor]. apply hex_char_digit, Z.mod_pos_bound. lia.
Qed.

Lemma hex_number_text lower n v a rest : 0 ≤ v < 16 ^ Z.of_nat n → 0 ≤ a → a * 16 ^ Z.of_nat n + v < 18446744073709551616 →
  hex_number_loop (hex_text lower n v ++ rest) a = hex_number_loop rest (a * 16 ^ Z.of_nat n + v).
Proof.
  revert v rest. induction n as [|n IH]; intros v rest Hv Ha Hu; [cbn [hex_text app]; f_equal; cbn in *; lia|].
  rewrite Nat2Z.inj_succ, Z.pow_succ_r in * by lia. pose proof (Z.div_mod v 16 ltac:(lia)) as Hdm. pose proof (Z.mod_pos_bound v 16 ltac:(lia)) as Hm.
  assert (0 < 16 ^ Z.of_nat n) as Hp by (apply Z.pow_pos_nonneg; lia). assert (0 ≤ v / 16 < 16 ^ Z.of_nat n) as Hq by (split; [apply Z.div_pos; lia|apply Z.div_lt_upper_bound; lia]).
  cbn [hex_text]. rewrite <- app_assoc, IH by (nia || lia). cbn [app hex_number_loop]. destruct (hex_char_digit lower (v mod 16) Hm) as (-> & -> & _). f_equal.
  set (x := a * 16 ^ Z.of_nat n + v / 16). assert (0 ≤ x ∧ x * 16 + v mod 16 = a * (16 * 16 ^ Z.of_nat n) + v) as [Hx Hxe] by (unfold x; split; [nia|lia]). rewrite !u64_id by (rewrite ?u64_id; lia). lia.
Qed.

Lemma decimal_text_value n v a : 0 ≤ v < 10 ^ Z.of_nat n → 0 ≤ a → a * 10 ^ Z.of_nat n + v < 18446744073709551616 →
  foldl (λ a c, u64 (u64 (a * 10) + (c - 48))) a (dec_text n v) = a * 10 ^ Z.of_nat n + v.
Proof.
  revert v. induction n as [|n IH]; intros v Hv Ha Hu; [cbn in *; lia|].
  rewrite Nat2Z.inj_succ, Z.pow_succ_r in * by lia. pose proof (Z.div_mod v 10 ltac:(lia)) as Hdm. pose proof (Z.mod_pos_bound v 10 ltac:(lia)) as Hm.
  assert (0 < 10 ^ Z.of_nat n) as Hp by (apply Z.pow_pos_nonneg; lia). assert (0 ≤ v / 10 < 10 ^ Z.of_nat n) as Hq by (split; [apply Z.div_pos; lia|apply Z.div_lt_upper_bound; lia]).
  cbn [dec_text]. rewrite foldl_app, IH by (nia || lia). cbn [foldl].
  set (x := a * 10 ^ Z.of_nat n + v / 10). assert (0 ≤ x ∧ x * 10 + v mod 10 = a * (10 * 10 ^ Z.of_nat n) + v) as [Hx Hxe] by (unfold x; split; [nia|lia]). rewrite !u64_id by (rewrite ?u64_id; lia). lia.
Qed.

Lemma decimal_number_digits a d rest : Forall (λ c, isDecimalDigit c = true) d →
  decimal_number_loop (d ++ rest) a = decimal_number_loop rest (foldl (λ a c, u64 (u64 (a * 10) + (c - 48))) a d).
Proof. intros Hd. revert a. induction Hd as [|c d Hc _ IH]; intros a; [done|]. cbn [app decimal_number_loop foldl]. by rewrite Hc, IH. Qed.

Lemma digits_loop_digits a n d rest : Forall (λ c, isDecimalDigit c = true) d →
  digits_loop (d ++ rest) a n = digits_loop rest (foldl (λ a c, u64 (u64 (a * 10) + (c - 48))) a d) (n + zlen d).
Proof.
  intros Hd. revert a n. induction Hd as [|c d Hc _ IH]; intros a n; [cbn [app foldl]; unfold zlen; cbn [length]; by rewrite Z.add_0_r|]. cbn [app digits_loop foldl]. rewrite Hc, IH. f_equal. unfold zlen. cbn [length]. lia.
Qed.

(** ** Words *)

(** A token of a word, before it is classified. *)
Definition word_token (w rest : list Z) : ScriptToken := new_token kSCRIPT_TOKEN_NAME (w ++ rest) (zlen w).

Lemma word_token_chars w rest : tk_chars (word_token w rest) = w.
Proof. unfold tk_chars, word_token, zlen. cbn [tk_length tk_text new_token]. rewrite Nat2Z.id. apply take_app_length. Qed.

(** What does not begin with 0x is not hexadecimal. *)
Lemma no_hex w rest : (w.[0] ≠ 48 ∨ (w.[1] ≠ 120 ∧ w.[1] ≠ 88)) → readHexNumber (word_token w rest) = None.
Proof.
  intros H. unfold readHexNumber. rewrite word_token_chars. destruct (_ <=? 2); [done|]. cbn [orb]. destruct (Z.eqb_spec (w.[0]) 48) as [H0|]; [|done]. cbn [negb orb]. destruct H as [|[H1 H2]]; [done|].
  by rewrite (proj2 (Z.eqb_neq _ _) H1), (proj2 (Z.eqb_neq _ _) H2).
Qed.

Lemma classify_name c w rest : isDecimalDigit c = false → classifyWord (word_token (c :: w) rest) = word_token (c :: w) rest.
Proof.
  intros Hc. unfold classifyWord. rewrite no_hex. 2:{ left. change ((c :: w).[0]) with c. intros ->. done. } unfold readDecimalNumber, readDuration. rewrite word_token_chars. cbn [decimal_number_loop digits_loop]. by rewrite Hc.
Qed.

(** Two digits, or a digit and a unit, do not begin with 0x. *)
Lemma digits_no_hex n v u rest : (1 ≤ n)%nat → (u = [] ∨ ∃ c u', u = c :: u' ∧ c ≠ 120 ∧ c ≠ 88) → readHexNumber (word_token (dec_text n v ++ u) rest) = None.
Proof.
  intros Hn Hu. apply no_hex. right. pose proof (dec_text_digits n v) as Hd. pose proof (length_dec_text n v) as Hl. destruct (dec_text n v) as [|c [|c' d]]; cbn [length] in Hl; [lia| |].
  - cbn [app]. destruct Hu as [->|(c1 & u' & -> & H1 & H2)]; [done|]. done.
  - cbn [app]. change ((c :: c' :: d ++ u).[1]) with c'. inversion Hd as [|? ? _ Hd']. inversion Hd' as [|? ? Hc _]. unfold isDecimalDigit in Hc. lia.
Qed.

Lemma classify_decimal n v rest : (1 ≤ n)%nat → 0 ≤ v < 10 ^ Z.of_nat n → v < 18446744073709551616 →
  classifyWord (word_token (dec_text n v) rest) = with_number (word_token (dec_text n v) rest) kSCRIPT_TOKEN_NUMBER v 0.
Proof.
  intros Hn Hv Hu. unfold classifyWord. pose proof (digits_no_hex n v [] rest Hn (or_introl eq_refl)) as Hh. rewrite app_nil_r in Hh. rewrite Hh. unfold readDecimalNumber. rewrite word_token_chars.
  rewrite <- (app_nil_r (dec_text n v)) at 1. rewrite decimal_number_digits by apply dec_text_digits. cbn [decimal_number_loop]. rewrite decimal_text_value by lia. by replace (0 * 10 ^ Z.of_nat n + v) with v by lia.
Qed.

Lemma classify_duration n v unit rest : (1 ≤ n)%nat → 0 ≤ v < 10 ^ Z.of_nat n → v * unit_us unit < 18446744073709551616 → (unit = "us" ∨ unit = "ms" ∨ unit = "s")%string →
  classifyWord (word_token (dec_text n v ++ lit unit) rest) = with_number (word_token (dec_text n v ++ lit unit) rest) kSCRIPT_TOKEN_DURATION (v * unit_us unit) 0.
Proof.
  intros Hn Hv Hu Hunit. assert (v < 18446744073709551616) as Hv' by (destruct Hunit as [->|[->| ->]]; cbn in Hu; lia). unfold classifyWord. rewrite digits_no_hex by (try done; right; destruct Hunit as [->|[->| ->]]; by repeat eexists).
  unfold readDecimalNumber, readDuration. rewrite word_token_chars, decimal_number_digits, digits_loop_digits by apply dec_text_digits. rewrite decimal_text_value by lia.
  replace (0 * 10 ^ Z.of_nat n + v) with v by lia. unfold zlen. rewrite length_dec_text. assert (0 + Z.of_nat n =? 0 = false) as Hz by (apply Z.eqb_neq; lia).
  destruct Hunit as [->|[->| ->]]; cbn [lit decimal_number_loop digits_loop].
  - change (lit "us") with [117; 115]. cbn [decimal_number_loop digits_loop]. change (isDecimalDigit 117) with false. cbv iota. rewrite Hz. change (unit_us "us") with 1. rewrite Z.mul_1_r. done.
  - change (lit "ms") with [109; 115]. cbn [decimal_number_loop digits_loop]. change (isDecimalDigit 109) with false. cbv iota. rewrite Hz. change (unit_us "ms") with 1000 in *. unfold MICROSECONDS_PER_MILLISECOND.
    rewrite (u64_id (v * 1000)) by lia. done.
  - change (lit "s") with [115]. cbn [decimal_number_loop digits_loop]. change (isDecimalDigit 115) with false. cbv iota. rewrite Hz. change (unit_us "s") with 1000000 in *. unfold MICROSECONDS_PER_SECOND.
    rewrite (u64_id (v * 1000000)) by lia. done.
Qed.

Lemma classify_hex lower n v rest : (1 ≤ n < 256)%nat → 0 ≤ v < 16 ^ Z.of_nat n → v < 18446744073709551616 →
  classifyWord (word_token (lit "0x" ++ hex_text lower n v) rest) = with_number (word_token (lit "0x" ++ hex_text lower n v) rest) kSCRIPT_TOKEN_NUMBER v (Z.of_nat n).
Proof.
  intros Hn Hv Hu. unfold classifyWord, readHexNumber. rewrite word_token_chars. assert (zlen (lit "0x" ++ hex_text lower n v) = Z.of_nat n + 2) as Hl by (unfold zlen; rewrite length_app, length_hex_text; cbn [length lit]; change (length (lit "0x")) with 2%nat; lia).
  change (tk_length (word_token (lit "0x" ++ hex_text lower n v) rest)) with (zlen (lit "0x" ++ hex_text lower n v)). rewrite Hl. rewrite (proj2 (Z.leb_gt _ _)) by lia.
  change (lit "0x") with [48; 120]. cbn [app]. change (drop 2 (48 :: 120 :: hex_text lower n v)) with (hex_text lower n v). change ((48 :: 120 :: hex_text lower n v).[0]) with 48.
  change ((48 :: 120 :: hex_text lower n v).[1]) with 120. cbn [Z.eqb Pos.eqb negb orb andb]. rewrite <- (app_nil_r (hex_text lower n v)) at 1. rewrite hex_number_text by lia. cbn [hex_number_loop].
  replace (0 * 16 ^ Z.of_nat n + v) with v by lia. replace (Z.of_nat n + 2 - 2) with (Z.of_nat n) by lia. by rewrite u8_id by lia.
Qed.

(** ** Lines *)

Lemma word_range c : isWordCharacter c = true → c = 45 ∨ 48 ≤ c ≤ 57 ∨ 65 ≤ c ≤ 90 ∨ c = 95 ∨ 97 ≤ c ≤ 122.
Proof. unfold isWordCharacter, isDecimalDigit. rewrite !orb_true_iff, !andb_true_iff. lia. Qed.

Lemma read_word w rest : Forall (λ c, isWordCharacter c = true) w → zlen w < 65536 → readWord (w ++ 32 :: rest) = Some (length w, classifyWord (word_token w (32 :: rest))).
Proof.
  intros Hw Hl. unfold readWord. rewrite run_length_all by done. unfold word_token, zlen in *. by rewrite u16_id by lia.
Qed.

(** What the reader chosen by the first character makes of a text. *)
Definition read_token (text : list Z) : option (nat * ScriptToken) :=
  let c := text.[0] in if isWordCharacter c then readWord text else if c =? QUOTE then readString text else readOperator text.

Definition word_lexeme (x : lexeme) : bool := match x with LxString _ | LxOperator _ => false | _ => true end.

Lemma word_lexeme_chars x : lexeme_ok x → word_lexeme x = true → written x = content x ∧ (∃ c w, content x = c :: w) ∧ Forall (λ c, isWordCharacter c = true) (content x).
Proof.
  intros [_ Hx] Hw. destruct x as [word|n v|lower n v|n v unit|text|o]; try done; cbn [content written] in *.
  - destruct Hx as (c & w & -> & _ & Hf). by repeat eexists.
  - destruct Hx as (Hn & _). split; [done|]. pose proof (length_dec_text n v) as Hl. split; [destruct (dec_text n v); [cbn in Hl; lia|by repeat eexists]|].
    eapply Forall_impl; [apply dec_text_digits|apply digit_word].
  - split; [done|]. split; [by repeat eexists|]. change (lit "0x") with [48; 120]. repeat (constructor; [done|]). apply hex_text_words.
  - destruct Hx as (Hn & _ & _ & Hu). split; [done|]. pose proof (length_dec_text n v) as Hl. split; [destruct (dec_text n v); [cbn in Hl; lia|by repeat eexists]|].
    apply Forall_app. split; [eapply Forall_impl; [apply dec_text_digits|apply digit_word]|]. destruct Hu as [->|[->| ->]]; by repeat constructor.
Qed.

Lemma says_word w rest kind number hex_digits x : content x = w →
  (kind, number, hex_digits) = match x with LxName _ => (kSCRIPT_TOKEN_NAME, 0, 0) | LxDecimal _ v => (kSCRIPT_TOKEN_NUMBER, v, 0) | LxHex _ n v => (kSCRIPT_TOKEN_NUMBER, v, Z.of_nat n)
    | LxDuration _ v unit => (kSCRIPT_TOKEN_DURATION, v * unit_us unit, 0) | LxString _ => (kSCRIPT_TOKEN_STRING, 0, 0) | LxOperator o => (op_kind o, 0, 0) end →
  says (with_number (word_token w rest) kind number hex_digits) x.
Proof. intros Hc Hk. split; [|exact Hk]. rewrite Hc. apply (word_token_chars w rest). Qed.

Lemma word_classified x rest : lexeme_ok x → word_lexeme x = true → says (classifyWord (word_token (content x) rest)) x.
Proof.
  intros [_ Hx] Hw. destruct x as [word|n v|lower n v|n v unit|text|o]; try done; cbn [content] in *.
  - destruct Hx as (c & w & -> & Hc & _). rewrite classify_name by done. split; [apply word_token_chars|done].
  - destruct Hx as (H1 & H2 & H3). rewrite classify_decimal by done. by apply says_word.
  - destruct Hx as (H1 & H2 & H3). rewrite classify_hex by done. by apply says_word.
  - destruct Hx as (H1 & H2 & H3 & H4). rewrite classify_duration by done. by apply says_word.
Qed.

Lemma read_operators rest : Forall (λ o, ∃ token, read_token (written (LxOperator o) ++ 32 :: rest) = Some (length (written (LxOperator o)), token) ∧ says token (LxOperator o)) OPERATORS.
Proof. repeat (apply Forall_cons; split; [eexists; split; [reflexivity|done]|]). constructor. Qed.

(** Every lexeme is read as its token. *)
Lemma read_lexeme x rest : lexeme_ok x → ∃ token, read_token (written x ++ 32 :: rest) = Some (length (written x), token) ∧ says token x.
Proof.
  intros Hx. destruct (word_lexeme x) eqn:Hw.
  - destruct (word_lexeme_chars x Hx Hw) as (-> & (c & w & Hc) & Hf). exists (classifyWord (word_token (content x) (32 :: rest))). split; [|by apply word_classified].
    rewrite <- read_word by (done || apply Hx). unfold read_token. rewrite Hc in *. cbn [app]. change ((c :: w ++ 32 :: rest).[0]) with c. apply Forall_cons in Hf as [Hcw _]. by rewrite Hcw.
  - destruct Hx as [Hl Hx]. destruct x as [| | | |text|o]; try done; cbn [content written] in *.
    + unfold read_token. cbn [app]. rewrite <- app_assoc. cbn [app]. change ((34 :: text ++ 34 :: 32 :: rest).[0]) with 34. cbn [Z.eqb Pos.eqb]. change (isWordCharacter 34) with false. cbv iota. unfold readString. cbn [tail].
      rewrite run_length_all; [|eapply Forall_impl; [exact Hx|]; intros c [Hc _]; by rewrite (proj2 (Z.eqb_neq c 34))|done]. cbn [length]. rewrite !length_app. cbn [length]. rewrite (proj2 (Nat.eqb_neq _ _)) by lia.
      eexists. split; [do 2 f_equal; lia|]. split; [|done]. unfold tk_chars. cbn [tk_length tk_text new_token]. unfold zlen in Hl. rewrite u16_id by lia.
      replace (Z.to_nat (Z.of_nat (S (length text) - 1))) with (length text) by lia. apply take_app_length.
    + pose proof (read_operators rest) as Ho. rewrite Forall_forall in Ho. exact (Ho o Hx).
Qed.

Lemma written_head x : lexeme_ok x → ∃ c w, written x = c :: w ∧ c ≠ 32 ∧ c ≠ 13 ∧ c ≠ 35 ∧ c ≠ 9 ∧ Forall (λ c, c ≠ 10) (written x).
Proof.
  intros Hx. destruct (word_lexeme x) eqn:Hw.
  - destruct (word_lexeme_chars x Hx Hw) as (-> & (c & w & Hc) & Hf). exists c, w. assert (Forall (λ c, c ≠ 10) (content x)) as Hn by (eapply Forall_impl; [exact Hf|]; intros z Hz%word_range; lia).
    rewrite Hc in Hf. apply Forall_cons in Hf as [Hz%word_range _]. split_and!; try lia; done.
  - destruct Hx as [_ Hx]. destruct x as [| | | |text|o]; try done; cbn [written content] in *.
    + eexists 34, _. split_and!; try done. constructor; [done|]. apply Forall_app. split; [|by repeat constructor]. eapply Forall_impl; [exact Hx|]. by intros c [_ Hc].
    + assert (Forall (λ o, op_first o ≠ 32 ∧ op_first o ≠ 13 ∧ op_first o ≠ 35 ∧ op_first o ≠ 9 ∧ op_first o ≠ 10 ∧ op_second o ≠ 10) OPERATORS) as Ho by (repeat constructor; done).
      rewrite Forall_forall in Ho. destruct (Ho o Hx) as (H1 & H2 & H3 & H4 & H5 & H6). eexists _, _. split_and!; try done. constructor; [done|]. destruct (_ =? 0); by repeat constructor.
Qed.

Definition lexemes_text (xs : list lexeme) : list Z := concat ((λ x, written x ++ [32]) <$> xs).
Definition comment_text (comment : option (list Z)) : list Z := match comment with Some text => COMMENT_MARK :: text | None => [] end.

Definition with_tokens (line : ScriptLine) (ts : list ScriptToken) : ScriptLine := {|
  sl_line_number := sl_line_number line; sl_indent := sl_indent line; sl_tokens := sl_tokens line ++ ts |}.

Lemma tokenize_comment fuel comment line error : (1 ≤ fuel)%nat → tokenize_loop fuel (comment_text comment) line error = (true, line, error).
Proof. intros Hf. destruct fuel; [lia|]. by destruct comment. Qed.

(** The lexemes of a line become its tokens, in order. *)
Lemma tokenize_lexemes xs comment fuel line error : Forall lexeme_ok xs → (length (sl_tokens line) + length xs ≤ 64)%nat →
  (length (lexemes_text xs ++ comment_text comment) < fuel)%nat →
  ∃ ts, tokenize_loop fuel (lexemes_text xs ++ comment_text comment) line error = (true, with_tokens line ts, error) ∧ Forall2 says ts xs.
Proof.
  intros Hxs. revert fuel line. induction Hxs as [|x xs Hx _ IH]; intros fuel line Hl Hf.
  { exists []. cbn [lexemes_text fmap list_fmap concat app]. rewrite tokenize_comment by lia. split; [|constructor]. unfold with_tokens. rewrite app_nil_r. by destruct line. }
  change (lexemes_text (x :: xs)) with ((written x ++ [32]) ++ lexemes_text xs) in *. rewrite <- !app_assoc in *. cbn [app] in *. set (rest := lexemes_text xs ++ comment_text comment) in *.
  rewrite length_app in Hf. cbn [length] in Hf, Hl. destruct (written_head x Hx) as (c & w & Hw & H1 & H2 & H3 & _). destruct (read_lexeme x rest Hx) as (token & Hr & Hs).
  destruct fuel as [|[|fuel]]; [lia|rewrite Hw in Hf; cbn in Hf; lia|]. rewrite Hw in Hr |- *. unfold read_token in Hr. cbn [app] in Hr |- *. change ((c :: w ++ 32 :: rest).[0]) with c in Hr.
  cbn [tokenize_loop]. rewrite (proj2 (Z.eqb_neq _ _) H1), (proj2 (Z.eqb_neq _ _) H2), (proj2 (Z.eqb_neq _ _) H3). cbn [orb]. rewrite (proj2 (Nat.eqb_neq _ 64)) by lia. cbv zeta in Hr. rewrite Hr.
  change (c :: w ++ 32 :: rest) with ((c :: w) ++ 32 :: rest). rewrite drop_app_length. cbn [tokenize_loop Z.eqb Pos.eqb orb].
  destruct (IH fuel (add_token line token)) as (ts & -> & Hts); [cbn [add_token sl_tokens]; rewrite length_app; cbn [length]; lia|rewrite Hw in Hf; cbn in Hf; lia|].
  exists (token :: ts). split; [|by constructor]. unfold with_tokens, add_token. cbn [sl_line_number sl_indent sl_tokens]. by rewrite <- app_assoc.
Qed.

Lemma line_text_parts l : line_text l = replicate (so_indent l) 32 ++ lexemes_text (so_lexemes l) ++ comment_text (so_comment l).
Proof. done. Qed.

Lemma lexemes_text_line xs : Forall lexeme_ok xs → Forall (λ c, c ≠ 10) (lexemes_text xs).
Proof.
  intros Hxs. induction Hxs as [|x xs Hx _ IH]; [constructor|]. change (lexemes_text (x :: xs)) with ((written x ++ [32]) ++ lexemes_text xs). destruct (written_head x Hx) as (c & w & _ & _ & _ & _ & _ & Hn).
  repeat (apply Forall_app; split); [done|by repeat constructor|done].
Qed.

(** What follows the indentation is not blank. *)
Lemma after_indent xs comment : Forall lexeme_ok xs → match lexemes_text xs ++ comment_text comment with [] => True | c :: _ => (c =? 32) = false ∧ c ≠ 9 end.
Proof.
  intros Hxs. destruct Hxs as [|x xs Hx _]; [by destruct comment|]. change (lexemes_text (x :: xs)) with ((written x ++ [32]) ++ lexemes_text xs). destruct (written_head x Hx) as (c & w & -> & H1 & _ & _ & H2 & _).
  cbn [app]. split; [by apply Z.eqb_neq|done].
Qed.

(** One turn of the loop over lines reads one line. *)
Lemma line_turn fuel l rest n line error : line_ok l → 0 ≤ n < 65535 → ∃ ts,
  Forall2 says ts (so_lexemes l) ∧
  line_loop (S fuel) {| lx_text := line_text l ++ 10 :: rest; lx_line_number := n |} line error =
    let self := {| lx_text := rest; lx_line_number := n + 1 |} in
    let line := {| sl_line_number := n + 1; sl_indent := Z.of_nat (so_indent l); sl_tokens := ts |} in
    if Nat.ltb 0 (length ts) then (kSCRIPT_LEX_LINE, self, line, error) else line_loop fuel self line error.
Proof.
  intros (Hi & Hl & Hx & Hc) Hn. cbn [line_loop lx_text lx_line_number]. assert (Forall (λ c, c ≠ 10) (line_text l)) as Hnl.
  { rewrite line_text_parts. repeat (apply Forall_app; split); [by apply Forall_replicate|by apply lexemes_text_line|]. destruct (so_comment l); [by constructor|constructor]. }
  unfold lineEnd. cbn [lx_text]. rewrite run_length_all; [|eapply Forall_impl; [exact Hnl|]; intros c Hc'; by rewrite (proj2 (Z.eqb_neq c 10))|done].
  assert (Nat.eqb (length (line_text l ++ 10 :: rest)) 0 = false) as -> by (apply Nat.eqb_neq; rewrite length_app; cbn; lia).
  assert (Nat.ltb (length (line_text l)) (length (line_text l ++ 10 :: rest)) = true) as -> by (apply Nat.ltb_lt; rewrite length_app; cbn; lia). rewrite take_app_length.
  replace (S (length (line_text l))) with (length (line_text l ++ [10])) by (rewrite length_app; cbn; lia). change (10 :: rest) with ([10] ++ rest). rewrite app_assoc, drop_app_length.
  pose proof (after_indent (so_lexemes l) (so_comment l) Hx) as Ha. rewrite line_text_parts. set (body := lexemes_text (so_lexemes l) ++ comment_text (so_comment l)) in *.
  rewrite run_length_all; [|by apply Forall_replicate|destruct body; [done|apply Ha]]. rewrite length_replicate.
  assert (drop (so_indent l) (replicate (so_indent l) 32 ++ body) = body) as -> by (apply drop_app_length'; by rewrite length_replicate).
  assert (Nat.ltb (so_indent l) (length (replicate (so_indent l) 32 ++ body)) && (body.[0] =? 9) = false) as ->.
  { apply andb_false_iff. destruct body as [|c body]; [by right|]. right. change ((c :: body).[0]) with c. apply Z.eqb_neq, Ha. }
  rewrite !u16_id by lia. unfold tokenizeLine.
  destruct (tokenize_lexemes (so_lexemes l) (so_comment l) (S (length body)) {| sl_line_number := n + 1; sl_indent := Z.of_nat (so_indent l); sl_tokens := [] |} error Hx) as (ts & Ht & Hs); [cbn; lia|unfold body; lia|].
  exists ts. split; [done|]. fold body in Ht. rewrite Ht. cbn [negb with_tokens sl_tokens app sl_line_number sl_indent]. done.
Qed.

(** The next line with tokens, or the end. *)
Lemma next_line ls fuel n line error : Forall line_ok ls → 0 ≤ n → n + zlen ls < 65536 → (length ls < fuel)%nat →
  let '(result, self, line', error') := line_loop fuel {| lx_text := script_text ls; lx_line_number := n |} line error in
  error' = error ∧
  match expected (n + 1) ls with
  | [] => result = kSCRIPT_LEX_END
  | x :: _ => result = kSCRIPT_LEX_LINE ∧ line_says line' x ∧ ∃ ls', Forall line_ok ls' ∧ (length ls' < length ls)%nat ∧ x.1 + zlen ls' = n + zlen ls ∧ 0 ≤ x.1 ∧
      self = {| lx_text := script_text ls'; lx_line_number := x.1 |} ∧ expected (n + 1) ls = x :: expected (x.1 + 1) ls'
  end.
Proof.
  intros Hok. revert fuel n line. induction Hok as [|l ls Hl Hls IH]; intros fuel n line Hn Hb Hf; [destruct fuel; [lia|done]|]. unfold zlen in *. cbn [length] in *. destruct fuel as [|fuel]; [lia|].
  assert (script_text (l :: ls) = line_text l ++ 10 :: script_text ls) as -> by (unfold script_text; cbn [fmap list_fmap concat]; by rewrite <- app_assoc).
  destruct (line_turn fuel l (script_text ls) n line error Hl) as (ts & Hts & ->); [lia|]. cbv zeta. pose proof (Forall2_length _ _ _ Hts) as Hlen. cbn [expected]. rewrite <- Hlen.
  destruct ts as [|t ts]; cbn [length Nat.ltb Nat.leb Nat.eqb].
  - specialize (IH fuel (n + 1) {| sl_line_number := n + 1; sl_indent := Z.of_nat (so_indent l); sl_tokens := [] |} ltac:(lia) ltac:(lia) ltac:(lia)).
    destruct (line_loop fuel _ _ error) as [[[result self] line'] error']. destruct IH as [-> IH]. split; [done|]. destruct (expected (n + 1 + 1) ls) as [|x more]; [done|].
    destruct IH as (-> & Hx & ls' & H1 & H2 & H3 & H4 & -> & ->). split; [done|]. split; [done|]. exists ls'. split_and!; try done; lia.
  - split; [done|]. split; [done|]. split; [by split_and!|]. exists ls. cbn [fst]. split_and!; try done; lia.
Qed.

Lemma length_script ls : (length ls ≤ length (script_text ls))%nat.
Proof. induction ls as [|l ls IH]; [done|]. unfold script_text in *. cbn [fmap list_fmap concat length]. rewrite !length_app. cbn [length]. lia. Qed.

Lemma lex_all_lines ls fuel n error : Forall line_ok ls → 0 ≤ n → n + zlen ls < 65536 → (length ls < fuel)%nat →
  let '(lines, result) := lex_all fuel {| lx_text := script_text ls; lx_line_number := n |} error in
  result = kSCRIPT_LEX_END ∧ Forall2 line_says lines (expected (n + 1) ls).
Proof.
  revert ls n error. induction fuel as [|fuel IH]; intros ls n error Hok Hn Hb Hf; [lia|]. cbn [lex_all]. unfold ScriptLexer_NextLine. cbn [lx_text].
  pose proof (next_line ls (S (length (script_text ls))) n {| sl_line_number := 0; sl_indent := 0; sl_tokens := [] |} error Hok Hn Hb) as Hx.
  specialize (Hx ltac:(pose proof (length_script ls); lia)). destruct (line_loop _ _ _ error) as [[[result self] line'] error']. destruct Hx as [-> Hx].
  destruct (expected (n + 1) ls) as [|x more] eqn:He; [subst result; split; [done|constructor]|]. destruct Hx as (-> & Hs & ls' & H1 & H2 & H3 & H4 & -> & Hm).
  specialize (IH ls' x.1 error H1 H4 ltac:(lia) ltac:(lia)). destruct (lex_all fuel _ error) as [lines result]. destruct IH as [-> IH]. split; [done|]. rewrite Hm. by constructor.
Qed.

(** The lexer finds in a script what was written.  Lines of names, decimal and
    hexadecimal numbers, durations, strings and operators, indented, with or
    without a comment, blank ones among them: reading line by line gives exactly
    the lines that have lexemes, each with its number in the script, its
    indentation and a token for each lexeme with its kind, text and value (a
    duration in microseconds); then the end, and never an error. *)
Theorem script_lines_roundtrip (ls : list source_line) (error : ScriptError) : Forall line_ok ls → zlen ls < 65536 →
  let '(lines, result) := lex_all (S (length ls)) (ScriptLexer_Init (script_text ls)) error in
  result = kSCRIPT_LEX_END ∧ Forall2 line_says lines (expected 1 ls).
Proof. intros Hok Hl. apply (lex_all_lines ls (S (length ls)) 0 error); [done|lia..]. Qed.

Module LexerDemo.
Definition script : list source_line := [
  {| so_indent := 0; so_lexemes := []; so_comment := Some (lit " a step") |};
  {| so_indent := 2; so_lexemes := [LxName (lit "send"); LxHex true 3 291; LxOperator (operator 61 61 kSCRIPT_TOKEN_EQUALS); LxDuration 2 20 "ms"; LxString (lit "x y")]; so_comment := None |}].
Definition no_error : ScriptError := {| se_line_number := 0; se_message := replicate 160 0 |}.
End LexerDemo.

Lemma script_lines_roundtrip_witness :
  let '(lines, result) := lex_all 3 (ScriptLexer_Init (lit "# a step" ++ [10] ++ lit "  send 0x123 == 20ms " ++ [34] ++ lit "x y" ++ [34; 32; 10])) LexerDemo.no_error in
  result = kSCRIPT_LEX_END ∧ Forall2 line_says lines (expected 1 LexerDemo.script) ∧ sl_line_number <$> lines = [2].
Proof.
  assert (script_text LexerDemo.script = lit "# a step" ++ [10] ++ lit "  send 0x123 == 20ms " ++ [34] ++ lit "x y" ++ [34; 32; 10]) as <- by (vm_compute; reflexivity).
  assert (Forall line_ok LexerDemo.script) as Hok.
  { repeat (apply Forall_cons; split; [|]); [| |constructor]; (split; [cbn; lia|]; split; [cbn; lia|]; split; [|by try (repeat constructor)]); [constructor|].
    repeat (apply Forall_cons; split); try constructor; try (vm_compute; reflexivity).
    all: try (vm_compute; intuition (congruence || lia)).
    - eexists _, _. split; [reflexivity|]. split; [reflexivity|]. repeat constructor.
    - unfold OPERATORS. rewrite elem_of_cons. by left.
    - repeat constructor; done. }
  pose proof (script_lines_roundtrip LexerDemo.script LexerDemo.no_error Hok ltac:(vm_compute; reflexivity)) as H.
  assert (sl_line_number <$> (lex_all 3 (ScriptLexer_Init (script_text LexerDemo.script)) LexerDemo.no_error).1 = [2]) as Hn by (vm_compute; reflexivity).
  change (S (length LexerDemo.script)) with 3%nat in H. destruct (lex_all 3 _ _) as [lines result]. destruct H as [H1 H2]. done.
Defined.
